(* ===== verification/_CoqProject ===== *)
-Q . S2P
Prelude.v
Klog.v
Stdio.v
StdioProofs.v
Framebuffer.v
Pixels.v
TextGrid.v
FramebufferProofs.v
Pmm.v
Vmm.v
AddressSpace.v
Pages.v
Heap.v
HeapBlocks.v
HeapProofs.v
Libc.v
Keyboard.v
Elf.v
Fs.v
Ext2Image.v
Ext2.v
Ext2Ops.v
Ext2Codec.v
Ext2Layout.v
Ext2Alloc.v
Ext2Sample.v
Ext2Proofs.v
Ext2Own.v
Ext2Link.v
Ext2Free.v
Ext2Write.v
Process.v
ProcessProofs.v
Scheduler.v
SchedulerProofs.v
Kernel.v
Syscall.v
PathProofs.v
UserMemProofs.v
SyscallProofs.v
SyscallTypes.v
Ext2Dir.v
Ext2Files.v
Ext2Inodes.v
Ext2Names.v
Ext2Tree.v
Ext2Create.v
Ext2Mkdir.v
Ext2Unlink.v
Ext2Rmdir.v
Ext2History.v
FsCalls.v
Ext2Remount.v
ProgramStart.v
UserApi.v
Shell.v
ShellProofs.v
UserInput.v
UserSyscalls.v
UserHeap.v
Block.v
Ata.v
Rootfs.v
AtaProofs.v
Disk.v
AtaDisk.v
AtaReady.v
RootfsProofs.v
RootfsReady.v
Restart.v
Terminal.v
TerminalProofs.v
Interrupts.v
InterruptProofs.v
Boot.v
BootProofs.v
Hello.v
