(* ===== verification/Prelude.v ===== *)
(** * Whirliscope: a verification development

    Whirliscope is a small x86-64 kernel with one root file system, a text
    console and user programs that run one at a time. This library models its C
    sources as executable definitions and proves what they guarantee. Every
    definition has the name of the C function or structure it translates, or
    the name of the loop or statement group of that function its comment gives.

    ** Conventions

    A w-bit unsigned integer is a [Z] with its wrap written out ([u8] ... [u64]);
    memory is a function from addresses to bytes ([mem]) with little-endian
    loads and stores, so that overlapping objects alias as they do in C; a C
    string argument is the list of its characters. A function that may stop the
    machine or run out of fuel returns [res]: [Ret], [Panic] (a failed
    assertion, a division trap) or [NoFuel]. State that C keeps in static
    variables is a record that is passed and returned. Hardware, the generated
    font, the placement of static tables and assembly stubs are parameters:
    classes ([PortDevice], [MsrDevice], [Font]) or section variables.

    ** Memory

    - Pmm.v: memory/pmm.c. Free pages are threaded through the direct map.
      [pmm_exclusive]: whatever owners do, a page is never given out twice.
    - Vmm.v, AddressSpace.v: memory/vmm.c over that memory. The tables form a
      tree of distinct frames ([pt_inv]); mapping and unmapping change the
      translation of exactly one page, and a new space has an empty user half
      and the kernel's upper half.
    - Pages.v: what heap.c and process.c rely on, the class [PageLaws], with
      the two files above as its instance.
    - Heap.v, HeapBlocks.v, HeapProofs.v: memory/heap.c, headers in memory. In
      every reachable state the blocks tile the heap and the consistency check
      of the kernel itself succeeds; kmalloc, kfree, krealloc and kcalloc meet
      the contract of separate blocks whose contents nobody else changes, and
      answer NULL only when no free block is large enough and the heap cannot
      grow. The theorems exclude requests so large that rounding them up wraps
      (heap.c:181, 113; [request_ok]): for those kmalloc can give out a block
      that is too small.
    - Libc.v: libc/string.c and libc/mem.c.

    ** Console and log

    - Klog.v: kernel/klog.c refines the sequence of all characters logged.
    - Stdio.v, StdioProofs.v: libc/stdio.c. Buffers are never overrun, the
      buffered stream writes exactly the formatted characters.
    - Framebuffer.v, Pixels.v, TextGrid.v, FramebufferProofs.v:
      framebuffer/framebuffer.c against an abstract grid of characters; no
      store leaves video memory, and the screen shows the grid.
    - Terminal.v, TerminalProofs.v: kernel/terminal.c and drivers/serial.c,
      below the console calls that Kernel.v records. The serial port is any
      UART that sends a byte given to it when it is not busy and is done after
      a bounded number of status reads (class [Uart]); of a byte written while
      it is busy nothing is known, so that the waiting of serial.c matters.

    ** Devices and start-up

    - Keyboard.v: drivers/keyboard.c is a decoder in front of a bounded queue.
    - Block.v, Ata.v, AtaProofs.v: the port accessors of io.h, drivers/block.c
      and drivers/ata.c, over an arbitrary device. The outputs of the driver
      decode as the sector writes asked for.
    - Disk.v, AtaDisk.v: what a disk promises to the code above block.c, the
      class [SectorDevices], and its implementation by ata.c over any hardware
      that follows the protocol of an ATA channel ([ata_react], [AtaDisks]):
      a transfer that reports success has moved the sectors asked for and no
      others, but for sectors whose write the disk reports as failed after the
      data, in a status that the driver does not look at
      ([ata_transfers_sectors]). So the driver implements [SectorDevices] for
      disks that report no such failure ([SoundWrites]).
      AtaReady.v: hardware that answers within the polling limits and reports
      no error before the data ([PromptDisks]) completes every transfer
      ([ReadySectors]).
    - Interrupts.v, InterruptProofs.v: gdt.c, idt.c, pic.c, arch.c and the port
      side of timer.c and keyboard.c; after start-up exactly the timer and the
      keyboard can interrupt, through their gates.
    - Boot.v, BootProofs.v: main.c, panic.c, the requests to the boot loader and
      the report of an exception. [kmain] composes all components in the order
      of the source, and does not start without a loader of its revision.

    ** Files

    - Fs.v: the interface of the file system that process.c and syscall.c use.
    - Ext2Image.v, Ext2.v, Ext2Ops.v: fs/ext2.c over the image as one byte
      array. Ext2Codec.v, Ext2Layout.v, Ext2Alloc.v, Ext2Proofs.v: inode round
      trip, the layout of a sound image, the allocator against the set of used
      blocks, reading of blocks. Ext2Dir.v: directories as lists of entries and
      paths as walks along them; a file read by its path. Ext2Sample.v: a small
      image for witnesses.
    - Ext2Own.v, Ext2Link.v, Ext2Free.v, Ext2Write.v, Ext2Files.v: every block in
      use has one owner, an inode and a slot ([owned]); taking a block, giving
      blocks back and writing into one keep that and change no other file. A
      path then names an inode with contents: [write_file_correct] and
      [truncate_file_correct] say what they do to the contents, and that names
      and other files stay.
    - Ext2Inodes.v, Ext2Names.v, Ext2Tree.v: the inode bitmap, the records of a
      directory block, and the tree that a sound image stands for ([tree],
      [tree_ok]): numbers of inodes to directories, which map names to numbers,
      and files, which are lists of bytes. [touched] says which inodes a step
      may have changed, and what follows for the tree.
    - Ext2Create.v, Ext2Mkdir.v, Ext2Unlink.v, Ext2Rmdir.v: the operations that
      change directories as operations on the tree, errors included. A removal
      gives back the inode and exactly the blocks that were its own
      ([given_back], [blocks_freed]).
    - Ext2History.v: the specification of all changing operations on trees
      ([op_effect], [op_result]) and the refinement: a sequence of operations
      run by ext2.c is a history of the specification ([ext2_refines_tree]).
      An operation may fail for want of room only where the image has none
      ([no_room]), or because the disk refuses the write-back. The sequence has
      to avoid what the code gets wrong ([ops_ok]): a removal of a file or
      directory that is there needs [removable_file] or [removable_dir] (the
      name is the only link of the inode, in no block of the directory does an
      unused record follow a used one, the root is not removed); without them
      the code damages the directory or another file (ext2.c:1268, 1235). And
      nothing is said of operations after a mkdir that has failed halfway
      (ext2.c:809).
    - FsCalls.v: the same from the trap of a program: its path and bytes are read
      from user memory, and the tree does the operation asked for; a read puts
      the bytes of the file into its memory.
    - Rootfs.v, RootfsProofs.v: fs/rootfs.c, against the interfaces of disks and
      pages. Mounting takes one block of the heap, which holds what the disk
      holds, or none; what is written back is what the next start mounts. The
      port accesses of a write-back are in AtaProofs.v. RootfsReady.v: a root
      file system on a disk that answers in time is mounted, and its
      write-backs succeed.
    - Ext2Remount.v, Restart.v: the bytes of an image are the whole file system;
      what was written back is the same tree after a restart.

    ** Processes and system calls

    - Elf.v: userspace/elf.c and address_space.c; a validated image lies inside
      its file and inside user memory.
    - Process.v, ProcessProofs.v: userspace/process.c; the address space of a
      loaded program reads as the image says, and sbrk moves the break.
    - Scheduler.v, SchedulerProofs.v: userspace/scheduler.c; the control state
      is a stack, and running a program is a procedure call.
    - Kernel.v, Syscall.v: userspace.c, console.c, syscall.c and the dispatcher
      of idt.c. UserMemProofs.v: copies from and to user memory, and the strings
      there. PathProofs.v:
      path resolution against a reference. SyscallProofs.v: registers across a
      system call, exit, and a call that reads memory it should not.
      SyscallTypes.v: the types of the records, kept by every trap and
      interrupt, and the policy of abi.h for results.
      ProgramStart.v: RUN_PATH from the path to the first instruction, over
      ext2, the heap, the validator, the loader and the scheduler.

    ** Programs

    - UserApi.v: the system calls as programs see them, a class; libc/user/
      stdlib.c and platform.c. UserSyscalls.v: libc/user/syscall.c.
      UserHeap.v: malloc and realloc of programs.
    - Shell.v, ShellProofs.v: userspace/app/app.c, over a console that is the
      text grid of TextGrid.v ([ConsoleApi]); the row of the cursor shows the
      prompt and the line being edited as long as they are shorter than a row.
      A longer line is broken by the console, and a backspace does not go back
      over the break. UserInput.v: a key event from the interrupt to the
      program. Hello.v: programs/hello/main.c.

    ** Fuel

    A loop whose length is bounded by its data recurses on that bound: the
    polling loops on their limits, string scans on the string. Heap walks take
    [heap_fuel], one more than the headers that fit the heap, and HeapProofs.v
    shows that no walk of a reachable heap uses it up; a directory block takes
    [scan_fuel], an entry is at least 8 bytes. Fuel that the caller chooses is
    shown to be enough where the code ends: a tab takes at most [TAB_WIDTH]
    turns or never ends ([framebuffer_tab_ends_iff]), [cat] one turn more than
    the bytes of the file, a string scan one more than its characters, a wait
    for the serial port one more than the port is ever busy ([uart_limit]).

    ** Not modelled

    Assembly (isr.S, start.S): the saved registers are the frames, and entering
    or leaving user mode is a [transfer]. The generated font and the scripts
    that generate it; the rest of limine.h, declarations of the boot loader that
    the kernel does not use; linker scripts; debug.c, which is empty. Interrupts inside the kernel are
    modelled at the point where it waits for them; elsewhere handlers run
    between the steps of a program. The image of the file system is a copy of
    the heap block or module it was mounted from: no other part of the kernel
    uses that memory. What a disk answers to a write-back during an operation
    is a function given to the mount.

    ** Plan

    Still to prove: that a failed [ext2_mkdir] leaves a sound tree (its inode is
    free again but still names a block, so ownership has to range over the
    inodes in use), and that the devices detection registers have the sizes of
    their disks: the answer to IDENTIFY is not in the protocol of AtaDisk.v. *)

From Stdlib Require Export ZArith Lia List Bool.
From stdpp Require Export base tactics list list_numbers gmap numbers option relations.

#[global] Open Scope Z_scope.

(** ** Machine words

    A w-bit unsigned C integer is a [Z] kept in range by an explicit wrap. *)

Definition u8 (x : Z) : Z := x mod 256.
Definition u16 (x : Z) : Z := x mod 65536.
Definition u32 (x : Z) : Z := x mod 4294967296.
Definition u64 (x : Z) : Z := x mod 18446744073709551616.

(** The bitwise complement of a 64-bit word. *)
Definition not64 (x : Z) : Z := 18446744073709551615 - x.

(** A 64-bit word read as a two's complement signed integer. *)
Definition s64 (x : Z) : Z :=
  if u64 x <? 9223372036854775808 then u64 x else u64 x - 18446744073709551616.

Definition is_u64 (x : Z) : Prop := 0 <= x < 18446744073709551616.

(** [(value + alignment - 1) & ~(alignment - 1)], the helper that pmm.c,
    heap.c, process.c and the user stdlib.c each define. *)
Definition align_up (value alignment : Z) : Z :=
  Z.land (u64 (value + alignment - 1)) (not64 (alignment - 1)).

(** [value & ~(alignment - 1)]. *)
Definition align_down (value alignment : Z) : Z :=
  Z.land value (not64 (alignment - 1)).

(** ** Bytes, little-endian words and flat memory *)

Definition is_byte (b : Z) : Prop := 0 <= b < 256.

Fixpoint le_bytes (n : nat) (v : Z) : list Z :=
  match n with
  | O => []
  | S n' => u8 v :: le_bytes n' (v / 256)
  end.

Fixpoint le_word (bs : list Z) : Z :=
  match bs with
  | [] => 0
  | b :: rest => b + 256 * le_word rest
  end.

(** A flat byte memory. Reads truncate to a byte, so that every value read is
    one whatever the initial contents were. *)
Definition mem : Type := Z -> Z.

Definition mem_read (m : mem) (a : Z) (n : nat) : list Z :=
  map (fun i => u8 (m (a + Z.of_nat i))) (seq 0 n).

Definition mem_write (m : mem) (a : Z) (bs : list Z) : mem :=
  fun x => if (a <=? x) && (x <? a + Z.of_nat (length bs))
           then nth (Z.to_nat (x - a)) bs 0
           else m x.

Definition load (n : nat) (m : mem) (a : Z) : Z := le_word (mem_read m a n).
Definition store (n : nat) (m : mem) (a v : Z) : mem :=
  mem_write m a (le_bytes n v).

Abbreviation load8 := (load 1).
Abbreviation load16 := (load 2).
Abbreviation load32 := (load 4).
Abbreviation load64 := (load 8).
Abbreviation store8 := (store 1).
Abbreviation store16 := (store 2).
Abbreviation store32 := (store 4).
Abbreviation store64 := (store 8).

(** [memset(p, c, n)] on a flat memory. *)
Definition mem_fill (m : mem) (a c : Z) (n : nat) : mem :=
  mem_write m a (repeat (u8 c) n).

(** Two memories that agree on every byte a program can read. *)
Definition mem_eq (m1 m2 : mem) : Prop := forall a, u8 (m1 a) = u8 (m2 a).

(** ** Control flow

    [ctl S R] is what a loop body yields: go on with a new loop state, or leave
    the function with a result. *)

Inductive ctl (S R : Type) : Type :=
  | Cont (s : S)
  | Break (r : R).
Arguments Cont {S R} s.
Arguments Break {S R} r.

(** [for (i = lo; ...; i += step)] run for [n] iterations. *)
Fixpoint for_loop {S R : Type} (n : nat) (i step : Z)
    (body : Z -> S -> ctl S R) (s : S) : ctl S R :=
  match n with
  | O => Cont s
  | S n' => match body i s with
            | Cont s' => for_loop n' (i + step) step body s'
            | Break r => Break r
            end
  end.

(** The number of iterations of [for (i = lo; i < hi; i += step)]; exact
    whenever the counter does not wrap before it reaches [hi]. *)
Definition trips (lo hi step : Z) : nat := Z.to_nat ((hi - lo + step - 1) / step).

(** [for (i = lo; i < hi; i += step) body]. *)
Definition range_loop {S R : Type} (lo hi step : Z)
    (body : Z -> S -> ctl S R) (s : S) : ctl S R :=
  for_loop (trips lo hi step) lo step body s.

(** A loop that never leaves early just returns its final state. *)
Definition loop_state {S : Type} (c : ctl S S) : S :=
  match c with Cont s => s | Break s => s end.

(** [while (cond) body] with fuel; [None] is "fuel exhausted" and never a
    result of the program. *)
Fixpoint while_loop {S R : Type} (fuel : nat) (cond : S -> bool)
    (body : S -> ctl S R) (s : S) : option (ctl S R) :=
  match fuel with
  | O => None
  | S f => if cond s
           then match body s with
                | Cont s' => while_loop f cond body s'
                | Break r => Some (Break r)
                end
           else Some (Cont s)
  end.

(** A computation that may hit a kernel [assert] or [panic]. [NoFuel] is not a
    result of the program: it says that the fuel of a loop ran out, and the
    theorems of the development rule it out. *)
Inductive res (A : Type) : Type :=
  | Ret (a : A)
  | Panic
  | NoFuel.
Arguments Ret {A} a.
Arguments Panic {A}.
Arguments NoFuel {A}.

#[export] Instance res_ret : MRet res := fun A a => Ret a.
#[export] Instance res_bind : MBind res :=
  fun A B f x => match x with Ret a => f a | Panic => Panic | NoFuel => NoFuel end.

(** [assert(b)]. *)
Definition kassert (b : bool) : res unit := if b then Ret tt else Panic.

(** A fuelled loop as a computation. *)
Definition of_fuel {A : Type} (x : option A) : res A :=
  match x with Some a => Ret a | None => NoFuel end.

(** A [for] loop whose body may panic or leave the function. *)
Fixpoint mfor {S R : Type} (n : nat) (i step : Z)
    (body : Z -> S -> res (ctl S R)) (s : S) : res (ctl S R) :=
  match n with
  | O => Ret (Cont s)
  | S n' => body i s ≫= fun c =>
            match c with
            | Cont s' => mfor n' (i + step) step body s'
            | Break r => Ret (Break r)
            end
  end.

Definition mrange {S R : Type} (lo hi step : Z)
    (body : Z -> S -> res (ctl S R)) (s : S) : res (ctl S R) :=
  mfor (trips lo hi step) lo step body s.

(** ** Automation *)

Ltac unfold_words := unfold u8, u16, u32, u64, is_u64, is_byte in *.

(** [lia] with division and modulo turned into equations. *)
Ltac zlia := unfold_words; Z.to_euclidean_division_equations; lia.

Lemma trips_unit n : 0 <= n -> trips 0 n 1 = Z.to_nat n.
Proof. intros H. unfold trips. f_equal. rewrite Z.div_1_r. lia. Qed.

(** Turn boolean comparisons in the context into propositions. *)
Ltac b2p :=
  repeat match goal with
  | H : _ && _ = true |- _ => apply andb_true_iff in H; destruct H
  | H : _ || _ = false |- _ => apply orb_false_iff in H; destruct H
  | H : negb _ = true |- _ => apply negb_true_iff in H
  | H : negb _ = false |- _ => apply negb_false_iff in H
  | H : (_ =? _) = true |- _ => apply Z.eqb_eq in H
  | H : (_ =? _) = false |- _ => apply Z.eqb_neq in H
  | H : (_ <? _) = true |- _ => apply Z.ltb_lt in H
  | H : (_ <? _) = false |- _ => apply Z.ltb_ge in H
  | H : (_ <=? _) = true |- _ => apply Z.leb_le in H
  | H : (_ <=? _) = false |- _ => apply Z.leb_gt in H
  end.

(** Case analysis on the innermost scrutinee of the goal's first [match]. *)
Ltac case_goal :=
  match goal with
  | |- context [match ?x with _ => _ end] =>
      lazymatch x with
      | context [match _ with _ => _ end] => fail
      | _ => destruct x eqn:?
      end
  end.

Create HintDb words.
Create HintDb memory.
Create Rewrite HintDb words.
Create Rewrite HintDb memory.

(** ** Word lemmas *)

Lemma u8_range x : 0 <= u8 x < 256.
Proof. zlia. Qed.

Lemma u16_range x : 0 <= u16 x < 65536.
Proof. zlia. Qed.

Lemma u32_range x : 0 <= u32 x < 4294967296.
Proof. zlia. Qed.

Lemma u64_range x : is_u64 (u64 x).
Proof. zlia. Qed.

Lemma u8_id x : is_byte x -> u8 x = x.
Proof. zlia. Qed.

Lemma u32_id x : 0 <= x < 4294967296 -> u32 x = x.
Proof. zlia. Qed.

Lemma u64_id x : is_u64 x -> u64 x = x.
Proof. zlia. Qed.

Lemma u8_idem x : u8 (u8 x) = u8 x.
Proof. zlia. Qed.

#[export] Hint Resolve u8_range u16_range u32_range u64_range : words.
#[export] Hint Rewrite u8_id u32_id u64_id using (zlia) : words.
#[export] Hint Rewrite u8_idem : words.

(** A number below [2^k] has no bit at or above [k]. *)
Lemma testbit_above v k n : 0 <= v < 2 ^ k -> k <= n -> Z.testbit v n = false.
Proof.
  intros Hv Hn. destruct (Z.eq_dec v 0) as [->|Hnz]; [apply Z.bits_0|].
  apply Z.bits_above_log2; [lia|].
  assert (Z.log2 v < k) by (apply Z.log2_lt_pow2; lia). lia.
Qed.

(** Masking with [~(2^k - 1)] rounds down to a multiple of [2^k]. *)
Lemma land_not64 v k :
  is_u64 v -> 0 <= k < 64 -> Z.land v (not64 (2 ^ k - 1)) = v - v mod 2 ^ k.
Proof.
  intros Hv Hk.
  assert (Hmask : not64 (2 ^ k - 1) = Z.ldiff (Z.ones 64) (Z.ones k)).
  { unfold not64.
    replace (2 ^ k - 1) with (Z.ones k) by (rewrite Z.ones_equiv; lia).
    change 18446744073709551615 with (Z.ones 64).
    apply Z.sub_nocarry_ldiff.
    apply Z.bits_inj'; intros n Hn.
    rewrite Z.ldiff_spec, Z.bits_0, !Z.testbit_ones_nonneg by lia.
    destruct (Z.ltb_spec n k), (Z.ltb_spec n 64); simpl; lia || reflexivity. }
  rewrite Hmask.
  transitivity (Z.ldiff v (Z.ones k)).
  - apply Z.bits_inj'; intros n Hn.
    rewrite Z.land_spec, !Z.ldiff_spec, !Z.testbit_ones_nonneg by lia.
    destruct (Z.ltb_spec n 64); simpl; [reflexivity|].
    rewrite (testbit_above v 64) by (change (2 ^ 64) with 18446744073709551616; unfold is_u64 in Hv; lia).
    reflexivity.
  - rewrite Z.ldiff_ones_r, Z.shiftr_div_pow2, Z.shiftl_mul_pow2 by lia.
    assert (0 < 2 ^ k) by lia. pose proof (Z.div_mod v (2 ^ k)). lia.
Qed.

(** Masking with [2^k - 1] is the remainder. *)
Lemma land_low v k : 0 <= k -> Z.land v (2 ^ k - 1) = v mod 2 ^ k.
Proof.
  intros Hk. rewrite <- Z.land_ones by lia. f_equal. rewrite Z.ones_equiv. lia.
Qed.

Lemma lor_lt_pow2 a b k :
  0 <= k -> 0 <= a < 2 ^ k -> 0 <= b < 2 ^ k -> 0 <= Z.lor a b < 2 ^ k.
Proof.
  intros Hk Ha Hb. assert (H0 : 0 <= Z.lor a b) by (apply Z.lor_nonneg; lia).
  split; [exact H0|]. apply Z.nle_gt. intros Hge.
  assert (Hl : k <= Z.log2 (Z.lor a b)) by (apply Z.log2_le_pow2; lia).
  pose proof (Z.bit_log2 (Z.lor a b) ltac:(lia)) as Hbit.
  rewrite Z.lor_spec, (testbit_above a k), (testbit_above b k) in Hbit by lia.
  discriminate.
Qed.

Lemma land_lt_pow2 a b k : 0 <= k -> 0 <= a < 2 ^ k -> 0 <= Z.land a b < 2 ^ k.
Proof.
  intros Hk Ha. assert (H0 : 0 <= Z.land a b) by (apply Z.land_nonneg; lia).
  split; [exact H0|]. destruct (Z.eq_dec (Z.land a b) 0) as [->|Hz]; [lia|].
  apply Z.nle_gt. intros Hge.
  assert (Hl : k <= Z.log2 (Z.land a b)) by (apply Z.log2_le_pow2; lia).
  pose proof (Z.bit_log2 (Z.land a b) ltac:(lia)) as Hbit.
  rewrite Z.land_spec, (testbit_above a k) in Hbit by lia. discriminate.
Qed.

(** Or-ing an offset into a multiple of [2^k] adds it. *)
Lemma lor_low_add a b k :
  0 <= k -> a mod 2 ^ k = 0 -> 0 <= b < 2 ^ k -> Z.lor a b = a + b.
Proof.
  intros Hk Ha Hb. pose proof (Z.add_lor_land a b) as Hadd.
  enough (Z.land a b = 0) by lia.
  apply Z.bits_inj'; intros n Hn. rewrite Z.land_spec, Z.bits_0.
  destruct (Z.lt_ge_cases n k).
  - replace a with (a / 2 ^ k * 2 ^ k) by (pose proof (Z.div_mod a (2 ^ k)); lia).
    rewrite Z.mul_pow2_bits_low by lia. reflexivity.
  - rewrite (testbit_above b k) by lia. apply andb_false_r.
Qed.

Lemma align_down_spec v k :
  is_u64 v -> 0 <= k < 64 -> align_down v (2 ^ k) = v - v mod 2 ^ k.
Proof. apply land_not64. Qed.

Lemma align_up_spec v k :
  0 <= v -> 0 <= k < 64 -> v + 2 ^ k - 1 < 18446744073709551616 ->
  align_up v (2 ^ k) = (v + 2 ^ k - 1) - (v + 2 ^ k - 1) mod 2 ^ k.
Proof.
  intros Hv Hk Hlt. unfold align_up.
  assert (0 < 2 ^ k) by lia.
  rewrite u64_id by (unfold is_u64; lia). apply land_not64; [unfold is_u64|]; lia.
Qed.

(** ** Little-endian lemmas *)

Lemma le_bytes_length n v : length (le_bytes n v) = n.
Proof. revert v; induction n; intros; simpl; auto. Qed.

Lemma le_bytes_byte n v : Forall is_byte (le_bytes n v).
Proof. revert v; induction n; intros; simpl; constructor; auto. apply u8_range. Qed.

Lemma le_word_le_bytes n v : le_word (le_bytes n v) = v mod 256 ^ Z.of_nat n.
Proof.
  revert v; induction n as [|n IH]; intros v.
  - simpl. rewrite Z.mod_1_r. reflexivity.
  - cbn [le_bytes le_word]. rewrite IH.
    rewrite Nat2Z.inj_succ, Z.pow_succ_r by lia.
    rewrite (Z.mul_comm 256 (256 ^ _)), Z.mul_comm.
    rewrite (Z.mul_comm (256 ^ _) 256).
    rewrite Z.rem_mul_r by lia. unfold u8. lia.
Qed.

Lemma le_word_bound bs :
  Forall is_byte bs -> 0 <= le_word bs < 256 ^ Z.of_nat (length bs).
Proof.
  induction 1 as [|b bs Hb _ IH]; cbn [le_word length]; [lia|].
  rewrite Nat2Z.inj_succ, Z.pow_succ_r by lia. unfold is_byte in Hb. lia.
Qed.

Lemma le_bytes_le_word bs :
  Forall is_byte bs -> le_bytes (length bs) (le_word bs) = bs.
Proof.
  induction 1 as [|b bs Hb Hbs IH]; cbn [length le_bytes le_word]; [reflexivity|].
  f_equal; [zlia|]. transitivity (le_bytes (length bs) (le_word bs)); [|exact IH].
  f_equal. zlia.
Qed.

(** ** Memory lemmas *)

Lemma mem_read_length m a n : length (mem_read m a n) = n.
Proof. unfold mem_read. rewrite length_map, length_seq. reflexivity. Qed.

Lemma mem_read_byte m a n : Forall is_byte (mem_read m a n).
Proof. unfold mem_read. apply List.Forall_map, List.Forall_forall. intros. apply u8_range. Qed.

Lemma nth_map_seq {A} (f : nat -> A) (d : A) n i :
  (i < n)%nat -> nth i (map f (seq 0 n)) d = f i.
Proof.
  intros Hi. rewrite nth_indep with (d' := f 0%nat)
    by (rewrite length_map, length_seq; lia).
  rewrite map_nth, seq_nth by lia. reflexivity.
Qed.

Lemma mem_read_nth m a n i :
  (i < n)%nat -> nth i (mem_read m a n) 0 = u8 (m (a + Z.of_nat i)).
Proof. intros Hi. unfold mem_read. rewrite nth_map_seq by lia. reflexivity. Qed.

Lemma mem_read_ext m1 m2 a b n :
  (forall i, 0 <= i < Z.of_nat n -> u8 (m1 (a + i)) = u8 (m2 (b + i))) ->
  mem_read m1 a n = mem_read m2 b n.
Proof.
  intros H. unfold mem_read. apply map_ext_in. intros i Hi.
  apply in_seq in Hi. apply H. lia.
Qed.

Lemma mem_read_split m a n1 n2 :
  mem_read m a (n1 + n2) = mem_read m a n1 ++ mem_read m (a + Z.of_nat n1) n2.
Proof.
  apply nth_ext with (d := 0) (d' := 0).
  - rewrite length_app, !mem_read_length. reflexivity.
  - intros i Hi. rewrite mem_read_length in Hi. rewrite mem_read_nth by lia.
    destruct (Nat.lt_ge_cases i n1).
    + rewrite app_nth1, mem_read_nth by (rewrite ?mem_read_length; lia). reflexivity.
    + rewrite app_nth2, mem_read_nth by (rewrite ?mem_read_length; lia).
      rewrite mem_read_length. do 2 f_equal. lia.
Qed.

Lemma mem_write_out m a bs x :
  x < a \/ a + Z.of_nat (length bs) <= x -> mem_write m a bs x = m x.
Proof.
  intros H. unfold mem_write.
  destruct (Z.leb_spec a x), (Z.ltb_spec x (a + Z.of_nat (length bs))); simpl; lia || reflexivity.
Qed.

Lemma mem_write_in m a bs x :
  a <= x < a + Z.of_nat (length bs) ->
  mem_write m a bs x = nth (Z.to_nat (x - a)) bs 0.
Proof.
  intros H. unfold mem_write.
  destruct (Z.leb_spec a x), (Z.ltb_spec x (a + Z.of_nat (length bs))); simpl; lia || reflexivity.
Qed.

Lemma mem_read_write_disj m a bs b n :
  b + Z.of_nat n <= a \/ a + Z.of_nat (length bs) <= b ->
  mem_read (mem_write m a bs) b n = mem_read m b n.
Proof.
  intros H. apply mem_read_ext. intros i Hi. rewrite mem_write_out by lia. reflexivity.
Qed.

(** Reading inside the range just written yields the bytes written there. *)
Lemma mem_read_write_sub m a bs k n :
  Forall is_byte bs -> 0 <= k -> k + Z.of_nat n <= Z.of_nat (length bs) ->
  mem_read (mem_write m a bs) (a + k) n = firstn n (skipn (Z.to_nat k) bs).
Proof.
  intros Hbs Hk Hn. apply nth_ext with (d := 0) (d' := 0).
  - rewrite mem_read_length, length_firstn, length_skipn. lia.
  - intros i Hi. rewrite mem_read_length in Hi. rewrite mem_read_nth by lia.
    rewrite mem_write_in by lia.
    rewrite nth_firstn. destruct (Nat.ltb_spec i n); [|lia].
    rewrite nth_skipn.
    replace (Z.to_nat (a + k + Z.of_nat i - a)) with (Z.to_nat k + i)%nat by lia.
    apply u8_id. eapply List.Forall_forall; [exact Hbs|]. apply nth_In. lia.
Qed.

Lemma mem_read_write_eq m a bs n :
  Forall is_byte bs -> n = length bs -> mem_read (mem_write m a bs) a n = bs.
Proof.
  intros Hbs ->. rewrite <- (Z.add_0_r a) at 2.
  rewrite mem_read_write_sub by (auto; lia). simpl. apply firstn_all.
Qed.

Lemma load_range n m a : 0 <= load n m a < 256 ^ Z.of_nat n.
Proof.
  unfold load. pose proof (le_word_bound _ (mem_read_byte m a n)) as H.
  rewrite mem_read_length in H. exact H.
Qed.

Lemma load_store_eq n m a v : load n (store n m a v) a = v mod 256 ^ Z.of_nat n.
Proof.
  unfold load, store. rewrite mem_read_write_eq, le_word_le_bytes; auto.
  - apply le_bytes_byte.
  - rewrite le_bytes_length. reflexivity.
Qed.

Lemma load_write_disj n m a bs b :
  b + Z.of_nat n <= a \/ a + Z.of_nat (length bs) <= b ->
  load n (mem_write m a bs) b = load n m b.
Proof. intros H. unfold load. rewrite mem_read_write_disj; auto. Qed.

Lemma load_store_disj n k m a v b :
  b + Z.of_nat n <= a \/ a + Z.of_nat k <= b ->
  load n (store k m a v) b = load n m b.
Proof.
  intros H. unfold store. apply load_write_disj. rewrite le_bytes_length. lia.
Qed.

Lemma load_fill_disj n m a c k b :
  b + Z.of_nat n <= a \/ a + Z.of_nat k <= b ->
  load n (mem_fill m a c k) b = load n m b.
Proof.
  intros H. unfold mem_fill. apply load_write_disj. rewrite repeat_length. lia.
Qed.

Lemma le_word_zeros n : le_word (repeat 0 n) = 0.
Proof. induction n; simpl; lia. Qed.

(** A word read inside a range filled with zeros is zero. *)
Lemma load_fill_zero n m a k b :
  a <= b -> b + Z.of_nat n <= a + Z.of_nat k ->
  load n (mem_fill m a 0 k) b = 0.
Proof.
  intros H1 H2. unfold load. rewrite <- (le_word_zeros n) at 2. f_equal.
  apply nth_ext with (d := 0) (d' := 0).
  - rewrite mem_read_length, repeat_length. reflexivity.
  - intros i Hi. rewrite mem_read_length in Hi.
    rewrite mem_read_nth, nth_repeat by lia. unfold mem_fill.
    rewrite mem_write_in, nth_repeat by (rewrite repeat_length; lia). reflexivity.
Qed.

#[export] Hint Rewrite mem_read_length le_bytes_length repeat_length : memory.
#[export] Hint Resolve mem_read_byte le_bytes_byte : memory.

(** ** Memory equivalence as a setoid *)

#[export] Instance mem_eq_equiv : Equivalence mem_eq.
Proof.
  split; unfold mem_eq.
  - intros m a. reflexivity.
  - intros m1 m2 H a. symmetry. apply H.
  - intros m1 m2 m3 H1 H2 a. transitivity (u8 (m2 a)); auto.
Qed.

#[export] Instance mem_read_proper :
  Proper (mem_eq ==> eq ==> eq ==> eq) mem_read.
Proof. intros m1 m2 H a ? <- n ? <-. apply mem_read_ext. intros. apply H. Qed.

#[export] Instance load_proper n : Proper (mem_eq ==> eq ==> eq) (load n).
Proof. intros m1 m2 H a ? <-. unfold load. rewrite H. reflexivity. Qed.

#[export] Instance mem_write_proper :
  Proper (mem_eq ==> eq ==> eq ==> mem_eq) mem_write.
Proof.
  intros m1 m2 H a ? <- bs ? <- x. unfold mem_write. destruct (_ && _); auto.
Qed.

(** Writing back what was read changes nothing. *)
Lemma mem_write_read_id m a n : mem_eq (mem_write m a (mem_read m a n)) m.
Proof.
  intros x. unfold mem_write. rewrite mem_read_length.
  destruct (Z.leb_spec a x), (Z.ltb_spec x (a + Z.of_nat n)); simpl; auto.
  rewrite mem_read_nth by lia. rewrite u8_idem. do 2 f_equal. lia.
Qed.

(** ** Loop rules *)

(** The rule of [for] loops: an invariant indexed by the loop variable. *)
Lemma for_loop_ind {S R : Type} (P : Z -> S -> Prop) (Q : ctl S R -> Prop)
    (n : nat) (i step : Z) body s :
  P i s ->
  (forall k s, 0 <= k < Z.of_nat n -> P (i + k * step) s ->
     match body (i + k * step) s with
     | Cont s' => P (i + (k + 1) * step) s'
     | Break r => Q (Break r)
     end) ->
  (forall s, P (i + Z.of_nat n * step) s -> Q (Cont s)) ->
  Q (for_loop n i step body s).
Proof.
  revert i s; induction n as [|n IH]; intros i s HP Hb Hend.
  - simpl. apply Hend. replace (i + Z.of_nat 0 * step) with i by lia. exact HP.
  - cbn [for_loop]. pose proof (Hb 0 s ltac:(lia)) as H0.
    replace (i + 0 * step) with i in H0 by lia. specialize (H0 HP).
    destruct (body i s) as [s'|r]; [|exact H0].
    apply IH.
    + replace (i + step) with (i + (0 + 1) * step) by lia. exact H0.
    + intros k s1 Hk HP1. specialize (Hb (k + 1) s1 ltac:(lia)).
      replace (i + (k + 1) * step) with (i + step + k * step) in Hb by lia.
      specialize (Hb HP1).
      destruct (body (i + step + k * step) s1); [|exact Hb].
      replace (i + step + (k + 1) * step) with (i + (k + 1 + 1) * step) by lia. exact Hb.
    + intros s1 HP1. apply Hend.
      replace (i + Z.of_nat (Datatypes.S n) * step) with (i + step + Z.of_nat n * step) by lia.
      exact HP1.
Qed.

(** The same for a loop that counts up by one. *)
Lemma range_loop_ind {S R : Type} (P : Z -> S -> Prop) (Q : ctl S R -> Prop) lo hi body s :
  lo <= hi -> P lo s ->
  (forall k s, lo <= k < hi -> P k s ->
     match body k s with Cont s' => P (k + 1) s' | Break r => Q (Break r) end) ->
  (forall s, P hi s -> Q (Cont s)) ->
  Q (range_loop lo hi 1 body s).
Proof.
  intros Hle H0 Hb Hend. unfold range_loop, trips.
  replace ((hi - lo + 1 - 1) / 1) with (hi - lo) by (rewrite Z.div_1_r; lia).
  apply (for_loop_ind P Q); [exact H0| |].
  - intros k s' Hk Hs. replace (lo + (k + 1) * 1) with (lo + k * 1 + 1) by lia. apply Hb; [lia | exact Hs].
  - intros s' Hs. apply Hend. replace (lo + Z.of_nat (Z.to_nat (hi - lo)) * 1) with hi in Hs by lia. exact Hs.
Qed.

(** The rule of [while] loops: an invariant and a measure bounded by the fuel;
    it also proves that the fuel is enough. *)
Lemma while_loop_ind {S R : Type} (P : S -> Prop) (Q : ctl S R -> Prop)
    (measure : S -> Z) fuel cond body s :
  P s -> 0 <= measure s < Z.of_nat fuel ->
  (forall s, P s -> cond s = true ->
     match body s with
     | Cont s' => P s' /\ 0 <= measure s' < measure s
     | Break r => Q (Break r)
     end) ->
  (forall s, P s -> cond s = false -> Q (Cont s)) ->
  exists c, while_loop fuel cond body s = Some c /\ Q c.
Proof.
  revert s; induction fuel as [|f IH]; intros s HP Hm Hb Hend; [lia|].
  cbn [while_loop]. destruct (cond s) eqn:Hc; [|eauto].
  specialize (Hb s HP Hc) as H0. destruct (body s) as [s'|r]; [|eauto].
  destruct H0 as [HP' Hm']. apply IH; auto. lia.
Qed.

(** The rule of [for] loops with effects; it also proves that no iteration
    panics. *)
Lemma mfor_ind {S R : Type} (P : Z -> S -> Prop) (Q : ctl S R -> Prop)
    (n : nat) (i step : Z) body s :
  P i s ->
  (forall k s, 0 <= k < Z.of_nat n -> P (i + k * step) s ->
     exists c, body (i + k * step) s = Ret c /\
     match c with
     | Cont s' => P (i + (k + 1) * step) s'
     | Break r => Q (Break r)
     end) ->
  (forall s, P (i + Z.of_nat n * step) s -> Q (Cont s)) ->
  exists c, mfor n i step body s = Ret c /\ Q c.
Proof.
  revert i s; induction n as [|n IH]; intros i s HP Hb Hend.
  - exists (Cont s). split; [reflexivity|]. apply Hend.
    replace (i + Z.of_nat 0 * step) with i by lia. exact HP.
  - cbn [mfor]. pose proof (Hb 0 s ltac:(lia)) as H0.
    replace (i + 0 * step) with i in H0 by lia. specialize (H0 HP).
    destruct H0 as (c & -> & Hc). cbn [mbind res_bind].
    destruct c as [s'|r]; [|eauto].
    apply IH.
    + replace (i + step) with (i + (0 + 1) * step) by lia. exact Hc.
    + intros k s1 Hk HP1. specialize (Hb (k + 1) s1 ltac:(lia)).
      replace (i + (k + 1) * step) with (i + step + k * step) in Hb by lia.
      specialize (Hb HP1).
      replace (i + step + (k + 1) * step) with (i + (k + 1 + 1) * step) by lia. exact Hb.
    + intros s1 HP1. apply Hend.
      replace (i + Z.of_nat (Datatypes.S n) * step) with (i + step + Z.of_nat n * step) by lia.
      exact HP1.
Qed.

(** A loop whose body never leaves early is a fold over the counter values. *)
Lemma for_loop_fold {S R : Type} (f : Z -> S -> S) n i step
    (body : Z -> S -> ctl S R) s :
  (forall i s, body i s = Cont (f i s)) ->
  for_loop n i step body s
  = Cont (fold_left (fun s k => f k s)
            (map (fun j => i + Z.of_nat j * step) (seq 0 n)) s).
Proof.
  intros Hb. revert i s; induction n as [|n IH]; intros i s; [reflexivity|].
  cbn [for_loop]. rewrite Hb, IH. cbn [seq map fold_left].
  replace (i + Z.of_nat 0 * step) with i by lia. do 2 f_equal.
  rewrite <- seq_shift, map_map. apply map_ext. intros j. lia.
Qed.

Lemma fold_left_filter {A S : Type} (f : S -> A -> S) (g : S -> A -> S) (keep : A -> bool) l s :
  (forall s a, f s a = if keep a then g s a else s) ->
  fold_left f l s = fold_left g (List.filter keep l) s.
Proof.
  intros Hf. revert s; induction l as [|a l IH]; intros s; [reflexivity|].
  cbn [fold_left List.filter]. rewrite Hf. destruct (keep a); cbn [fold_left]; apply IH.
Qed.

Lemma NoDup_app_out {A} (a b : list A) x :
  List.NoDup (a ++ b) -> In x a -> ~ In x b.
Proof.
  induction a as [|y a IH]; cbn [app]; [intros _ []|].
  intros Hn. inversion Hn as [|? ? Hy Hn']; subst. intros [->|Hx] Hb.
  - apply Hy, in_or_app. right. exact Hb.
  - exact (IH Hn' Hx Hb).
Qed.

(** A list is empty or has a last element. *)
Lemma last_cases {A} (l : list A) : l = [] \/ exists x l', l = l' ++ [x].
Proof. induction l using List.rev_ind; eauto. Qed.
