(* ===== verification/Klog.v ===== *)
(** * The kernel log ring (src/kernel/klog.c)

    The static variables [ring], [head], [used] and [total] form the record
    [klog]; [klog_putchar], [klog_write], [klog_copy_tail] and the accessors
    are functions on it. The specification is the whole sequence of characters
    ever written: [klog_rep] relates the ring to it, every operation is shown
    to refine the obvious list operation. *)

From S2P Require Import Prelude.

Definition KLOG_CAPACITY : Z := 8192.

Record klog : Type := mk_klog {
  kl_ring : list Z;
  kl_head : Z;
  kl_used : Z;
  kl_total : Z
}.

(** The zero-initialised static storage. *)
Definition klog_zero : klog :=
  {| kl_ring := repeat 0 (Z.to_nat KLOG_CAPACITY); kl_head := 0; kl_used := 0;
     kl_total := 0 |}.

Definition klog_putchar (k : klog) (ch : Z) : klog :=
  {| kl_ring := <[Z.to_nat (kl_head k) := ch]> (kl_ring k);
     kl_head := (kl_head k + 1) mod KLOG_CAPACITY;
     kl_used := if kl_used k <? KLOG_CAPACITY then kl_used k + 1 else kl_used k;
     kl_total := u64 (kl_total k + 1) |}.

Definition klog_write (k : klog) (s : list Z) : klog := fold_left klog_putchar s k.

Definition klog_size (k : klog) : Z := kl_used k.

Definition klog_total_written (k : klog) : Z := kl_total k.

Definition klog_dropped (k : klog) : Z :=
  if kl_used k <? kl_total k then kl_total k - kl_used k else 0.

(** The bytes copied to [dest]; their number is the returned size. *)
Definition klog_copy_tail (k : klog) (dest_size : Z) : list Z :=
  if (dest_size =? 0) || (kl_used k =? 0) then []
  else
    let to_copy := if kl_used k <? dest_size then kl_used k else dest_size in
    let oldest := (kl_head k + KLOG_CAPACITY - kl_used k) mod KLOG_CAPACITY in
    let start := (oldest + kl_used k - to_copy) mod KLOG_CAPACITY in
    map (fun i => nth (Z.to_nat ((start + Z.of_nat i) mod KLOG_CAPACITY)) (kl_ring k) 0)
        (seq 0 (Z.to_nat to_copy)).

(** ** Specification: the sequence of all characters written *)

(** The last [n] elements of a list. *)
Definition lastn {A} (n : nat) (l : list A) : list A := skipn (length l - n) l.

Definition klog_rep (k : klog) (log : list Z) : Prop :=
  let n := Z.of_nat (length log) in
  length (kl_ring k) = Z.to_nat KLOG_CAPACITY /\
  kl_head k = n mod KLOG_CAPACITY /\
  kl_used k = Z.min n KLOG_CAPACITY /\
  kl_total k = u64 n /\
  forall i, n - kl_used k <= i < n ->
    nth (Z.to_nat (i mod KLOG_CAPACITY)) (kl_ring k) 0 = nth (Z.to_nat i) log 0.

(** ** Lemmas *)

Lemma klog_rep_zero : klog_rep klog_zero [].
Proof.
  split; [apply repeat_length|]. do 3 (split; [reflexivity|]).
  intros i Hi. simpl in Hi. lia.
Qed.

Lemma nth_insert_same (l : list Z) i x :
  (i < length l)%nat -> nth i (<[i := x]> l) 0 = x.
Proof.
  intros H. rewrite nth_lookup, list_lookup_insert_eq by exact H. reflexivity.
Qed.

Lemma nth_insert_other (l : list Z) i j x :
  i <> j -> nth j (<[i := x]> l) 0 = nth j l 0.
Proof. intros H. rewrite !nth_lookup, list_lookup_insert_ne by exact H. reflexivity. Qed.

Lemma klog_putchar_rep k log ch :
  klog_rep k log -> klog_rep (klog_putchar k ch) (log ++ [ch]).
Proof.
  intros (Hlen & Hhead & Hused & Htotal & Hring).
  unfold klog_rep, klog_putchar; cbn [kl_ring kl_head kl_used kl_total].
  rewrite length_app. cbn [length]. rewrite Nat2Z.inj_add. change (Z.of_nat 1) with 1.
  set (n := Z.of_nat (length log)) in *. unfold KLOG_CAPACITY in *.
  split; [|split; [|split; [|split]]].
  - rewrite length_insert. exact Hlen.
  - rewrite Hhead. zlia.
  - rewrite Hused. destruct (Z.ltb_spec (Z.min n 8192) 8192); lia.
  - rewrite Htotal. zlia.
  - intros i Hi. rewrite Hhead.
    assert (Hi' : n - kl_used k <= i < n + 1 /\ n + 1 - 8192 <= i).
    { rewrite Hused in *. destruct (Z.ltb_spec (Z.min n 8192) 8192); lia. }
    destruct (Z.eq_dec i n) as [->|Hne].
    + rewrite nth_insert_same by (rewrite Hlen; zlia).
      rewrite app_nth2 by lia. replace (Z.to_nat n - length log)%nat with 0%nat by lia.
      reflexivity.
    + rewrite nth_insert_other by zlia. rewrite app_nth1 by lia. apply Hring. lia.
Qed.

Lemma klog_write_rep k log s :
  klog_rep k log -> klog_rep (klog_write k s) (log ++ s).
Proof.
  revert k log; induction s as [|c s IH]; intros k log H; cbn [klog_write fold_left].
  - rewrite app_nil_r. exact H.
  - replace (log ++ c :: s) with ((log ++ [c]) ++ s) by (rewrite <- app_assoc; reflexivity).
    apply IH, klog_putchar_rep, H.
Qed.

Lemma lastn_length {A} n (l : list A) : length (lastn n l) = Nat.min n (length l).
Proof. unfold lastn. rewrite length_skipn. lia. Qed.

Lemma klog_copy_tail_rep k log dest_size :
  klog_rep k log -> 0 <= dest_size ->
  klog_copy_tail k dest_size
  = lastn (Z.to_nat (Z.min dest_size (kl_used k))) log.
Proof.
  intros (Hlen & Hhead & Hused & Htotal & Hring) Hd. unfold klog_copy_tail.
  destruct (Z.eqb_spec dest_size 0) as [->|Hd0]; cbn [orb].
  { replace (Z.min 0 (kl_used k)) with 0 by (rewrite Hused; unfold KLOG_CAPACITY; lia).
    unfold lastn. simpl. rewrite Nat.sub_0_r, skipn_all. reflexivity. }
  destruct (Z.eqb_spec (kl_used k) 0) as [Hz|Hu0].
  { assert (log = []) as -> by (destruct log; [reflexivity|simpl in Hused; unfold KLOG_CAPACITY in *; lia]).
    unfold lastn. rewrite skipn_nil. reflexivity. }
  set (c := if kl_used k <? dest_size then kl_used k else dest_size).
  assert (Hc : c = Z.min dest_size (kl_used k))
    by (unfold c; destruct (Z.ltb_spec (kl_used k) dest_size); lia).
  rewrite <- Hc. set (n := Z.of_nat (length log)) in *.
  apply nth_ext with (d := 0) (d' := 0).
  { rewrite length_map, length_seq, lastn_length. lia. }
  intros i Hi. rewrite length_map, length_seq in Hi.
  rewrite nth_map_seq by lia. unfold lastn. rewrite nth_skipn.
  replace (length log - Z.to_nat c + i)%nat with (Z.to_nat (n - c + Z.of_nat i)) by lia.
  rewrite <- Hring by lia. do 2 f_equal. rewrite Hhead. unfold KLOG_CAPACITY in *. zlia.
Qed.

(** ** Properties *)

(** Whatever has been written to the log since boot, reading its tail
    returns exactly the last characters written: as many as were asked for,
    limited by the ring's capacity; [klog_size] is the number kept. *)
Theorem klog_copy_tail_is_suffix (log : list Z) (dest_size : Z) :
  0 <= dest_size ->
  klog_copy_tail (klog_write klog_zero log) dest_size
    = lastn (Z.to_nat (Z.min dest_size KLOG_CAPACITY)) log
  /\ klog_size (klog_write klog_zero log)
    = Z.min (Z.of_nat (length log)) KLOG_CAPACITY.
Proof.
  intros Hd. pose proof (klog_write_rep _ _ log klog_rep_zero) as H. simpl app in H.
  pose proof (klog_copy_tail_rep _ _ _ H Hd) as Hc.
  destruct H as (_ & _ & Hused & _). split; [|exact Hused].
  rewrite Hc, Hused. unfold lastn.
  set (n := length log). destruct (Z.le_gt_cases (Z.of_nat n) KLOG_CAPACITY).
  - destruct (Z.le_gt_cases dest_size (Z.of_nat n)); f_equal; lia.
  - f_equal. lia.
Qed.

Lemma klog_copy_tail_is_suffix_witness :
  0 <= 2 /\ klog_copy_tail (klog_write klog_zero [104; 105; 33]) 2 = [105; 33].
Proof.
  split; [lia|]. exact (proj1 (klog_copy_tail_is_suffix [104; 105; 33] 2 ltac:(lia))).
Defined.

(** Nothing is lost silently: the number of characters dropped plus the
    number kept is the number written (below 2^64 characters). *)
Theorem klog_accounting (log : list Z) :
  Z.of_nat (length log) < 18446744073709551616 ->
  klog_dropped (klog_write klog_zero log) + klog_size (klog_write klog_zero log)
    = Z.of_nat (length log)
  /\ klog_total_written (klog_write klog_zero log) = Z.of_nat (length log).
Proof.
  intros Hn. pose proof (klog_write_rep _ _ log klog_rep_zero) as H. simpl app in H.
  destruct H as (_ & _ & Hused & Htotal & _).
  rewrite u64_id in Htotal by (unfold is_u64; lia).
  unfold klog_dropped, klog_size, klog_total_written. rewrite Hused, Htotal.
  unfold KLOG_CAPACITY. destruct (Z.ltb_spec (Z.min (Z.of_nat (length log)) 8192) (Z.of_nat (length log))); lia.
Qed.

Lemma klog_accounting_witness :
  3 < 18446744073709551616 /\ klog_dropped (klog_write klog_zero [1; 2; 3])
  + klog_size (klog_write klog_zero [1; 2; 3]) = 3.
Proof.
  split; [lia|]. exact (proj1 (klog_accounting [1; 2; 3] ltac:(simpl; lia))).
Defined.
