(* ===== verification/Stdio.v ===== *)
(** * Formatted output (src/libc/stdio.c, and its caller in src/kernel/klog.c)

    [vformat] writes to a [struct out]: a [put] function, its context and a
    count. The two [put] functions of the file are instances of [Sink], and
    [vformat] is generic in it. A [va_list] is the list of the arguments; an
    argument that is missing or has another type than the directive reads, and a
    signed overflow while a width is parsed, are undefined in C and are [None]
    here. *)

From S2P Require Import Prelude Klog.

Definition PRINT_BUFFER_SIZE : Z := 512.

(** The character of a C [char]. *)
Abbreviation chr c := (u8 c).

(** ** Sinks *)

(** [put ch ctx]; the count is the one [buffer_put] reads through its pointer. *)
Class Sink (C : Type) : Type := put : Z -> Z -> C -> C.

Record out (C : Type) : Type := mk_out { o_ctx : C; o_count : Z }.
Arguments mk_out {C}.
Arguments o_ctx {C}.
Arguments o_count {C}.

Inductive int_len : Type :=
  | INT_LEN_DEFAULT
  | INT_LEN_LONG
  | INT_LEN_LONG_LONG
  | INT_LEN_SIZE.

(** An argument: an integer or pointer in a register, or a C string. *)
Inductive va_arg : Type :=
  | VWord (v : Z)
  | VStr (s : option (list Z)).

Definition va_word (args : list va_arg) : option (Z * list va_arg) :=
  match args with VWord v :: args => Some (v, args) | _ => None end.

Definition va_string (args : list va_arg) : option (option (list Z) * list va_arg) :=
  match args with VStr s :: args => Some (s, args) | _ => None end.

Definition INT_MAX : Z := 2147483647.

(** A 32-bit word read as a signed integer. *)
Definition s32 (x : Z) : Z := if u32 x <? 2147483648 then u32 x else u32 x - 4294967296.

Definition read_unsigned (args : list va_arg) (len : int_len) : option (Z * list va_arg) :=
  va_word args ≫= fun '(v, args) =>
  Some (match len with INT_LEN_DEFAULT => u32 v | _ => u64 v end, args).

Definition read_signed (args : list va_arg) (len : int_len) : option (Z * list va_arg) :=
  va_word args ≫= fun '(v, args) =>
  Some (match len with INT_LEN_DEFAULT => s32 v | _ => s64 v end, args).

Definition decimal_digit (ch : Z) : option Z := if (ch <? 48) || (57 <? ch) then None else Some (ch - 48).

(** "0123456789abcdef" and "0123456789ABCDEF". *)
Definition digit_char (uppercase : bool) (d : Z) : Z :=
  if d <? 10 then 48 + d else (if uppercase then 55 else 87) + d.

(** The loop of [format_unsigned]; the buffer holds 64 digits, the least
    significant first. *)
Fixpoint format_loop (fuel : nat) (value base : Z) (uppercase : bool) : list Z :=
  match fuel with
  | O => []
  | S fuel =>
      if value =? 0 then []
      else digit_char uppercase (value mod base) :: format_loop fuel (value / base) base uppercase
  end.

Definition format_unsigned (value base : Z) (uppercase : bool) : list Z :=
  if value =? 0 then [48] else format_loop 64 value base uppercase.

(** ** Emission *)

Section Emit.
Context {C : Type} `{Sink C}.

Definition emit_char (o : out C) (ch : Z) : out C :=
  mk_out (put ch (o_count o) (o_ctx o)) (u64 (o_count o + 1)).

Definition emit_repeat (o : out C) (ch count : Z) : out C :=
  loop_state (range_loop 0 count 1 (fun _ o => Cont (emit_char o ch)) o).

(** The loop that emits the characters of an array in order. *)
Definition emit_chars (o : out C) (s : list Z) : out C := fold_left emit_char s o.

Definition emit_padded_string (o : out C) (s : list Z) (width : Z) (left_adjust : bool) : out C :=
  let len := Z.of_nat (length s) in
  let padding := if len <? width then width - len else 0 in
  let o := if negb left_adjust then emit_repeat o 32 padding else o in
  let o := emit_chars o s in
  if left_adjust then emit_repeat o 32 padding else o.

Definition emit_number (o : out C) (value : Z) (negative : bool) (base : Z) (uppercase : bool)
    (width precision : Z) (left_adjust zero_pad : bool) (prefix : list Z) : out C :=
  let digits := format_unsigned value base uppercase in
  let digits := if (precision =? 0) && (value =? 0) then [] else digits in
  let digit_len := Z.of_nat (length digits) in
  let sign_len := if negative then 1 else 0 in
  let zeroes := if digit_len <? precision then precision - digit_len else 0 in
  let total_len := sign_len + Z.of_nat (length prefix) + zeroes + digit_len in
  let spaces := if total_len <? width then width - total_len else 0 in
  let o := if negb left_adjust && negb zero_pad then emit_repeat o 32 spaces else o in
  let o := if negative then emit_char o 45 else o in
  let o := emit_chars o prefix in
  let o := if negb left_adjust && zero_pad && (precision <? 0) then emit_repeat o 48 spaces else o in
  let o := emit_repeat o 48 zeroes in
  let o := emit_chars o (rev digits) in
  if left_adjust then emit_repeat o 32 spaces else o.

(** ** Parsing a directive *)

Record flags : Type := mk_flags { left_adjust : bool; zero_pad : bool; alternate_form : bool }.

Fixpoint parse_flags (fmt : list Z) (f : flags) : flags * list Z :=
  match fmt with
  | 45 :: fmt => parse_flags fmt (mk_flags true (zero_pad f) (alternate_form f))
  | 48 :: fmt => parse_flags fmt (mk_flags (left_adjust f) true (alternate_form f))
  | 35 :: fmt => parse_flags fmt (mk_flags (left_adjust f) (zero_pad f) true)
  | _ => (f, fmt)
  end.

(** [while ((digit = decimal_digit(fmt[0])) >= 0)]. *)
Fixpoint parse_digits (fmt : list Z) (value : Z) : option (Z * list Z) :=
  match fmt with
  | ch :: rest =>
      match decimal_digit ch with
      | Some digit => if INT_MAX <? value * 10 + digit then None
                      else parse_digits rest (value * 10 + digit)
      | None => Some (value, fmt)
      end
  | [] => Some (value, [])
  end.

Definition parse_width (fmt : list Z) (f : flags) (args : list va_arg)
    : option (Z * flags * list Z * list va_arg) :=
  match fmt with
  | 42 :: fmt =>
      va_word args ≫= fun '(v, args) =>
      let width := s32 v in
      if width <? 0 then
        if width =? - INT_MAX - 1 then None
        else Some (- width, mk_flags true (zero_pad f) (alternate_form f), fmt, args)
      else Some (width, f, fmt, args)
  | _ => parse_digits fmt 0 ≫= fun '(width, fmt) => Some (width, f, fmt, args)
  end.

Definition parse_precision (fmt : list Z) (args : list va_arg) : option (Z * list Z * list va_arg) :=
  match fmt with
  | 46 :: 42 :: fmt => va_word args ≫= fun '(v, args) => Some (s32 v, fmt, args)
  | 46 :: fmt => parse_digits fmt 0 ≫= fun '(precision, fmt) => Some (precision, fmt, args)
  | _ => Some (-1, fmt, args)
  end.

Definition parse_length (fmt : list Z) : int_len * list Z :=
  match fmt with
  | 108 :: 108 :: fmt => (INT_LEN_LONG_LONG, fmt)
  | 108 :: fmt => (INT_LEN_LONG, fmt)
  | 122 :: fmt => (INT_LEN_SIZE, fmt)
  | _ => (INT_LEN_DEFAULT, fmt)
  end.

(** [while (s[str_len] != 0 && (precision < 0 || str_len < precision))]. *)
Definition bounded_string (s : list Z) (precision : Z) : list Z :=
  if precision <? 0 then s else firstn (Z.to_nat precision) s.

(** "(null)". *)
Definition null_string : list Z := [40; 110; 117; 108; 108; 41].

(** The conversion of one directive. *)
Definition emit_spec (o : out C) (spec : Z) (f : flags) (width precision : Z) (len : int_len)
    (args : list va_arg) : option (out C * list va_arg) :=
  let number value negative base uppercase prefix :=
    emit_number o value negative base uppercase width precision (left_adjust f) (zero_pad f) prefix in
  let based base uppercase prefix :=
    read_unsigned args len ≫= fun '(value, args) =>
    Some (number value false base uppercase
            (if alternate_form f && negb (value =? 0) then prefix else []), args) in
  match spec with
  | 99 =>
      va_word args ≫= fun '(v, args) =>
      Some (emit_padded_string o [chr v] width (left_adjust f), args)
  | 115 =>
      va_string args ≫= fun '(s, args) =>
      let s := match s with Some s => s | None => null_string end in
      Some (emit_padded_string o (bounded_string s precision) width (left_adjust f), args)
  | 100 | 105 =>
      read_signed args len ≫= fun '(signed_value, args) =>
      let negative := signed_value <? 0 in
      let value := if negative then u64 (0 - u64 signed_value) else u64 signed_value in
      Some (number value negative 10 false [], args)
  | 117 =>
      read_unsigned args len ≫= fun '(value, args) => Some (number value false 10 false [], args)
  | 98 => based 2 false [48; 98]
  | 66 => based 2 true [48; 66]
  | 120 => based 16 false [48; 120]
  | 88 => based 16 true [48; 88]
  | 111 => based 8 false [48]
  | 112 =>
      va_word args ≫= fun '(v, args) => Some (number (u64 v) false 16 false [48; 120], args)
  | _ => Some (emit_char (emit_char o 37) spec, args)
  end.

(** A directive after its percent sign; [inl] is the break at the end of the
    format. *)
Definition directive (o : out C) (fmt : list Z) (args : list va_arg)
    : option (out C + out C * list Z * list va_arg) :=
  let '(f, fmt) := parse_flags fmt (mk_flags false false false) in
  parse_width fmt f args ≫= fun '(width, f, fmt, args) =>
  parse_precision fmt args ≫= fun '(precision, fmt, args) =>
  let '(len, fmt) := parse_length fmt in
  match fmt with
  | [] => Some (inl o)
  | spec :: fmt =>
      emit_spec o spec f width precision len args ≫= fun '(o, args) => Some (inr (o, fmt, args))
  end.

(** The result is the [out] with the count that is returned as an [int]. Every
    turn consumes a character, so the length of the format is enough fuel. *)
Fixpoint vformat_loop (fuel : nat) (o : out C) (fmt : list Z) (args : list va_arg) : option (out C) :=
  match fmt with
  | [] => Some o
  | ch :: rest =>
      match fuel with
      | O => None
      | S fuel =>
          if negb (ch =? 37) then vformat_loop fuel (emit_char o ch) rest args
          else
            match rest with
            | 37 :: rest => vformat_loop fuel (emit_char o 37) rest args
            | _ =>
                directive o rest args ≫= fun r =>
                match r with
                | inl o => Some o
                | inr (o, fmt, args) => vformat_loop fuel o fmt args
                end
            end
      end
  end.

Definition vformat (o : out C) (fmt : list Z) (args : list va_arg) : option (Z * out C) :=
  vformat_loop (length fmt) o fmt args ≫= fun o => Some (s32 (o_count o), o).
End Emit.

(** ** The two sinks of the file *)

(** [struct buffer_out] over the memory that holds the buffer. *)
Record buffer_out : Type := mk_buffer_out { bo_mem : mem; bo_buffer : Z; bo_size : Z }.

#[export] Instance buffer_put : Sink buffer_out := fun ch count b =>
  if (0 <? bo_size b) && (u64 (count + 1) <? bo_size b)
  then mk_buffer_out (store8 (bo_mem b) (bo_buffer b + count) ch) (bo_buffer b) (bo_size b)
  else b.

(** [struct stream_out]: the buffer up to [len], and the writes made so far. *)
Record stream_out : Type := mk_stream_out { so_buffer : list Z; so_written : list (list Z) }.

Definition stream_flush (s : stream_out) : stream_out :=
  if (0 <? length (so_buffer s))%nat
  then mk_stream_out [] (so_written s ++ [so_buffer s]) else s.

#[export] Instance stream_put : Sink stream_out := fun ch _ s =>
  let s := if Z.of_nat (length (so_buffer s)) =? PRINT_BUFFER_SIZE then stream_flush s else s in
  mk_stream_out (so_buffer s ++ [ch]) (so_written s).

(** The returned length and the memory. *)
Definition vsnprintf (m : mem) (s n : Z) (fmt : list Z) (args : list va_arg) : option (Z * mem) :=
  vformat (mk_out (mk_buffer_out m s n) 0) fmt args ≫= fun '(written, o) =>
  let m := bo_mem (o_ctx o) in
  Some (written,
        if 0 <? n then
          let terminator := if o_count o <? n then o_count o else n - 1 in
          store8 m (s + terminator) 0
        else m).

(** The returned length and the calls of [whrlibc_write]. *)
Definition vprintf (fmt : list Z) (args : list va_arg) : option (Z * list (list Z)) :=
  vformat (mk_out (mk_stream_out [] []) 0) fmt args ≫= fun '(written, o) =>
  Some (written, so_written (stream_flush (o_ctx o))).

(** The variadic wrappers collect their arguments into the list. *)
Definition snprintf := vsnprintf.
Definition printf := vprintf.

(** [putchar], [fputs] and [puts]: the returned value and the writes. *)
Definition putchar (ch : Z) : Z * list (list Z) := (chr ch, [[chr ch]]).
Definition fputs (s : list Z) : Z * list (list Z) := (0, [s]).
Definition puts (s : list Z) : Z * list (list Z) := (0, snd (fputs s) ++ [[10]]).

(** ** [klog_printf] *)

(** Format into a buffer of 256 bytes and log what fits. *)
Definition klog_vprintf (k : klog) (fmt : list Z) (args : list va_arg) : option klog :=
  vsnprintf (fun _ => 0) 0 256 fmt args ≫= fun '(len, buffer) =>
  Some (if len <? 0 then k
        else
          let written := if 256 <=? len then 256 - 1 else len in
          klog_write k (mem_read buffer 0 (Z.to_nat written))).

Definition klog_printf := klog_vprintf.
