(* ===== verification/StdioProofs.v ===== *)
(** * Formatted output: theorems

    The characters a format produces do not depend on the sink: [format_chars]
    is the sequence, and the buffer of [vsnprintf] and the stream of [vprintf]
    receive it. Numbers read back as the value printed. *)

From S2P Require Import Prelude Stdio.

(** ** The characters of a format *)

(** A sink that keeps everything. *)
#[export] Instance list_put : Sink (list Z) := fun ch _ l => l ++ [ch].

Definition empty_out : out (list Z) := mk_out [] 0.

(** The characters a format produces. *)
Definition format_chars (fmt : list Z) (args : list va_arg) : option (list Z) :=
  option_map o_ctx (vformat_loop (length fmt) empty_out fmt args).

(** The layout of a number: padding, sign, prefix, zeros, digits. *)
Definition number_chars (value : Z) (negative : bool) (base : Z) (uppercase : bool)
    (width precision : Z) (left zero : bool) (prefix : list Z) : list Z :=
  let digits := if (precision =? 0) && (value =? 0) then [] else format_unsigned value base uppercase in
  let zeroes := Z.max 0 (precision - Z.of_nat (length digits)) in
  let body := (if negative then [45] else []) ++ prefix in
  let spaces := Z.to_nat (width - (Z.of_nat (length body) + zeroes + Z.of_nat (length digits))) in
  (if negb left && negb zero then repeat 32 spaces else [])
  ++ body
  ++ (if negb left && zero && (precision <? 0) then repeat 48 spaces else [])
  ++ repeat 48 (Z.to_nat zeroes) ++ rev digits
  ++ (if left then repeat 32 spaces else []).

Definition padded_chars (s : list Z) (width : Z) (left : bool) : list Z :=
  let padding := repeat 32 (Z.to_nat (width - Z.of_nat (length s))) in
  (if left then [] else padding) ++ s ++ (if left then padding else []).

Section Emit.
Context {C : Type} `{Sink C}.

Lemma emit_chars_app (o : out C) a b : emit_chars o (a ++ b) = emit_chars (emit_chars o a) b.
Proof. apply fold_left_app. Qed.

Lemma emit_repeat_chars (o : out C) ch n : emit_repeat o ch n = emit_chars o (repeat ch (Z.to_nat n)).
Proof.
  unfold emit_repeat, range_loop, trips. replace ((n - 0 + 1 - 1) / 1) with n by (rewrite Z.div_1_r; lia).
  generalize 0 at 1. generalize (Z.to_nat n) as k. intros k. revert o.
  induction k as [|k IH]; intros o i; [reflexivity|].
  cbn [for_loop repeat]. unfold emit_chars. cbn [fold_left]. apply IH.
Qed.

Lemma emit_padded_chars (o : out C) s width left :
  emit_padded_string o s width left = emit_chars o (padded_chars s width left).
Proof.
  unfold emit_padded_string, padded_chars. rewrite !emit_chars_app, !emit_repeat_chars.
  replace (if Z.of_nat (length s) <? width then width - Z.of_nat (length s) else 0)
    with (Z.max 0 (width - Z.of_nat (length s)))
    by (destruct (Z.ltb_spec (Z.of_nat (length s)) width); lia).
  replace (Z.to_nat (Z.max 0 (width - Z.of_nat (length s)))) with (Z.to_nat (width - Z.of_nat (length s))) by lia.
  destruct left; reflexivity.
Qed.

Lemma emit_number_chars (o : out C) value negative base uppercase width precision left zero prefix :
  emit_number o value negative base uppercase width precision left zero prefix
  = emit_chars o (number_chars value negative base uppercase width precision left zero prefix).
Proof.
  unfold emit_number, number_chars.
  set (digits := if (precision =? 0) && (value =? 0) then [] else format_unsigned value base uppercase).
  set (dl := Z.of_nat (length digits)).
  assert (Ez : (if dl <? precision then precision - dl else 0) = Z.max 0 (precision - dl))
    by (destruct (Z.ltb_spec dl precision); lia).
  rewrite Ez. set (zs := Z.max 0 (precision - dl)).
  set (body := (if negative then [45] else []) ++ prefix).
  assert (El : (if negative then 1 else 0) + Z.of_nat (length prefix) + zs + dl = Z.of_nat (length body) + zs + dl)
    by (unfold body; rewrite length_app; destruct negative; cbn [length]; lia).
  rewrite El. set (tl := Z.of_nat (length body) + zs + dl).
  assert (Es : Z.to_nat (if tl <? width then width - tl else 0) = Z.to_nat (width - tl))
    by (destruct (Z.ltb_spec tl width); lia).
  assert (Eb : forall o : out C, emit_chars (if negative then emit_char o 45 else o) prefix = emit_chars o body)
    by (intros o'; unfold body; rewrite emit_chars_app; destruct negative; reflexivity).
  rewrite !emit_chars_app, Eb, !emit_repeat_chars, Es.
  destruct left, zero, (precision <? 0); reflexivity.
Qed.

End Emit.

Lemma list_chars (o : out (list Z)) l : o_ctx (emit_chars o l) = o_ctx o ++ l.
Proof.
  revert o; induction l as [|c l IH]; intros o; [rewrite app_nil_r; reflexivity|].
  unfold emit_chars in *. cbn [fold_left]. rewrite IH.
  cbn [emit_char o_ctx]. unfold put, list_put. rewrite <- app_assoc. reflexivity.
Qed.

Lemma empty_chars l : o_ctx (emit_chars empty_out l) = l.
Proof. apply list_chars. Qed.

Section Format.
Context {C : Type} `{Sink C}.

(** One directive appends characters that do not depend on the sink. *)
Lemma emit_spec_chars (o : out C) spec f width precision len args :
  emit_spec o spec f width precision len args
  = match emit_spec empty_out spec f width precision len args with
    | Some (o', args') => Some (emit_chars o (o_ctx o'), args')
    | None => None
    end.
Proof.
  unfold emit_spec.
  repeat match goal with
  | |- context [match ?x with _ => _ end] => is_var x; destruct x
  end;
  unfold mbind, option_bind; repeat case_goal; subst; try discriminate; try reflexivity;
  repeat match goal with
  | E : Some _ = Some _ |- _ => injection E as <- <- || injection E as <-
  end;
  repeat (rewrite emit_padded_chars || rewrite emit_number_chars); rewrite ?empty_chars; reflexivity.
Qed.

Lemma directive_chars (o : out C) fmt args :
  directive o fmt args
  = match directive empty_out fmt args with
    | Some (inl _) => Some (inl o)
    | Some (inr (o', fmt', args')) => Some (inr (emit_chars o (o_ctx o'), fmt', args'))
    | None => None
    end.
Proof.
  unfold directive. destruct (parse_flags fmt (mk_flags false false false)) as [f rest].
  destruct (parse_width rest f args) as [[[[w f'] rest'] args']|]; [|reflexivity].
  cbn [mbind option_bind]. destruct (parse_precision rest' args') as [[[p rest2] args2]|]; [|reflexivity].
  cbn [mbind option_bind]. destruct (parse_length rest2) as [len [|spec rest3]]; [reflexivity|].
  rewrite emit_spec_chars. destruct (emit_spec empty_out spec f' w p len args2) as [[o' args3]|]; reflexivity.
Qed.
End Format.

(** What is left of the format is shorter. *)
Lemma parse_flags_length fmt f f' rest : parse_flags fmt f = (f', rest) -> (length rest <= length fmt)%nat.
Proof.
  revert f; induction fmt as [|c fmt IH]; intros f E; [injection E as <- <-; lia|].
  cbn [parse_flags] in E. cbn [length].
  repeat match type of E with context [match ?x with _ => _ end] => is_var x; destruct x end;
    try (apply IH in E; lia); injection E as <- <-; cbn [length]; lia.
Qed.

Lemma parse_digits_length fmt v w rest : parse_digits fmt v = Some (w, rest) -> (length rest <= length fmt)%nat.
Proof.
  revert v; induction fmt as [|c fmt IH]; intros v E; cbn [parse_digits] in E.
  - injection E as <- <-. lia.
  - destruct (decimal_digit c).
    + destruct (_ <? _); [discriminate|]. apply IH in E. cbn [length]. lia.
    + injection E as <- <-. lia.
Qed.

(** Case analysis on the characters a pattern looks at. *)
Ltac split_pattern E :=
  repeat match type of E with context [match ?x with _ => _ end] => is_var x; destruct x end.

Lemma parse_width_length fmt f args w f' rest args' :
  parse_width fmt f args = Some (w, f', rest, args') -> (length rest <= length fmt)%nat.
Proof.
  unfold parse_width. unfold mbind, option_bind. intros E.
  assert (D : forall fmt', match parse_digits fmt' 0 with
                           | Some (width, fmt) => Some (width, f, fmt, args) | None => None end
                           = Some (w, f', rest, args') -> (length rest <= length fmt')%nat).
  { intros fmt' E'. destruct (parse_digits fmt' 0) as [[w0 r0]|] eqn:P; [|discriminate].
    injection E' as -> -> -> ->. exact (parse_digits_length _ _ _ _ P). }
  split_pattern E; try (apply D in E; exact E).
  destruct (va_word args) as [[v a]|]; [|discriminate].
  destruct (_ <? 0); [destruct (_ =? _); [discriminate|]|]; injection E as <- <- <- <-; cbn [length]; lia.
Qed.

Lemma parse_precision_length fmt args p rest args' :
  parse_precision fmt args = Some (p, rest, args') -> (length rest <= length fmt)%nat.
Proof.
  unfold parse_precision. unfold mbind, option_bind. intros E.
  assert (D : forall fmt', match parse_digits fmt' 0 with
                           | Some (precision, fmt) => Some (precision, fmt, args) | None => None end
                           = Some (p, rest, args') -> (length rest <= length fmt')%nat).
  { intros fmt' E'. destruct (parse_digits fmt' 0) as [[w0 r0]|] eqn:P; [|discriminate].
    injection E' as -> -> ->. exact (parse_digits_length _ _ _ _ P). }
  split_pattern E; try (injection E as <- <- <-; lia);
    try (apply D in E; cbn [length] in *; lia).
  destruct (va_word args) as [[v a]|]; [|discriminate]. injection E as <- <- <-. cbn [length]. lia.
Qed.

Lemma parse_length_length fmt len rest : parse_length fmt = (len, rest) -> (length rest <= length fmt)%nat.
Proof. unfold parse_length. intros E. split_pattern E; injection E as <- <-; cbn [length]; lia. Qed.

Lemma directive_length {C} `{Sink C} (o o' : out C) fmt args fmt' args' :
  directive o fmt args = Some (inr (o', fmt', args')) -> (length fmt' < length fmt)%nat.
Proof.
  unfold directive. destruct (parse_flags fmt (mk_flags false false false)) as [f rest] eqn:E1.
  destruct (parse_width rest f args) as [[[[w f'] rest'] a']|] eqn:E2; [|discriminate].
  cbn [mbind option_bind]. destruct (parse_precision rest' a') as [[[p rest2] a2]|] eqn:E3; [|discriminate].
  cbn [mbind option_bind]. destruct (parse_length rest2) as [len rest3] eqn:E4.
  apply parse_flags_length in E1. apply parse_width_length in E2.
  apply parse_precision_length in E3. apply parse_length_length in E4.
  destruct rest3 as [|spec rest3]; [discriminate|].
  destruct (emit_spec o spec f' w p len a2) as [[o2 a3]|]; [|discriminate].
  cbn [mbind option_bind]. intros E. injection E as <- <- <-. cbn [length] in E4. lia.
Qed.

(** ** The loop *)

(** More fuel than the length of the format changes nothing: the loop ends. *)
Lemma vformat_fuel {C} `{Sink C} fuel : forall fuel' (o : out C) fmt args,
  (length fmt <= fuel)%nat -> (length fmt <= fuel')%nat ->
  vformat_loop fuel o fmt args = vformat_loop fuel' o fmt args.
Proof.
  induction fuel as [|fuel IH]; intros fuel' o fmt args Hf Hf'.
  - destruct fmt; [destruct fuel'; reflexivity | cbn [length] in Hf; lia].
  - destruct fmt as [|ch rest]; [destruct fuel'; reflexivity|]. cbn [length] in *.
    destruct fuel' as [|fuel']; [lia|]. cbn [vformat_loop].
    destruct (negb (ch =? 37)); [apply IH; lia|].
    assert (D : directive o rest args ≫= (fun r => match r with
                 | inl o => Some o | inr (o, fmt, args) => vformat_loop fuel o fmt args end)
              = directive o rest args ≫= (fun r => match r with
                 | inl o => Some o | inr (o, fmt, args) => vformat_loop fuel' o fmt args end)).
    { destruct (directive o rest args) as [[o'|[[o' fmt'] args']]|] eqn:E; [reflexivity | | reflexivity].
      cbn [mbind option_bind]. pose proof (directive_length o o' rest args fmt' args' E). apply IH; lia. }
    destruct rest as [|c rest]; [exact D|]. cbn [length] in *.
    destruct (Z.eq_dec c 37) as [->|Hn]; [apply IH; lia|].
    destruct c as [|c|c]; try exact D.
    do 6 (destruct c as [c|c|]; try exact D). contradiction.
Qed.

(** The loop from any sink appends the characters the list sink collects. *)
Lemma vformat_loop_chars {C} `{Sink C} fuel : forall (o : out C) (p : out (list Z)) fmt args,
  match vformat_loop fuel p fmt args with
  | Some p' => exists l, o_ctx p' = o_ctx p ++ l /\ vformat_loop fuel o fmt args = Some (emit_chars o l)
  | None => vformat_loop fuel o fmt args = None
  end.
Proof.
  induction fuel as [|fuel IH]; intros o p fmt args.
  - destruct fmt; cbn [vformat_loop]; [exists []; rewrite app_nil_r; auto | reflexivity].
  - destruct fmt as [|ch rest]; cbn [vformat_loop]; [exists []; rewrite app_nil_r; auto|].
    assert (S : forall c fmt' args', match vformat_loop fuel (emit_char p c) fmt' args' with
      | Some p' => exists l, o_ctx p' = o_ctx p ++ l
                   /\ vformat_loop fuel (emit_char o c) fmt' args' = Some (emit_chars o l)
      | None => vformat_loop fuel (emit_char o c) fmt' args' = None end).
    { intros c fmt' args'. specialize (IH (emit_char o c) (emit_char p c) fmt' args').
      destruct (vformat_loop fuel (emit_char p c) fmt' args'); [|exact IH].
      destruct IH as (l & E1 & E2). exists (c :: l). split; [|exact E2].
      rewrite E1. cbn [emit_char o_ctx]. unfold put, list_put. rewrite <- app_assoc. reflexivity. }
    destruct (negb (ch =? 37)); [apply S|].
    assert (D : match directive p rest args ≫= (fun r => match r with
                 | inl o => Some o | inr (o, fmt, args) => vformat_loop fuel o fmt args end) with
      | Some p' => exists l, o_ctx p' = o_ctx p ++ l
          /\ directive o rest args ≫= (fun r => match r with
                 | inl o => Some o | inr (o, fmt, args) => vformat_loop fuel o fmt args end) = Some (emit_chars o l)
      | None => directive o rest args ≫= (fun r => match r with
                 | inl o => Some o | inr (o, fmt, args) => vformat_loop fuel o fmt args end) = None end).
    { rewrite (directive_chars o), (directive_chars p).
      destruct (directive empty_out rest args) as [[o'|[[o' fmt'] args']]|]; cbn [mbind option_bind].
      - exists []. rewrite app_nil_r. auto.
      - specialize (IH (emit_chars o (o_ctx o')) (emit_chars p (o_ctx o')) fmt' args').
        destruct (vformat_loop fuel (emit_chars p (o_ctx o')) fmt' args'); [|exact IH].
        destruct IH as (l & E1 & E2). exists (o_ctx o' ++ l). split.
        + rewrite E1, list_chars, <- app_assoc. reflexivity.
        + rewrite E2, emit_chars_app. reflexivity.
      - reflexivity. }
    destruct rest as [|c rest]; [exact D|].
    destruct (Z.eq_dec c 37) as [->|Hn]; [apply S|].
    destruct c as [|c|c]; try exact D.
    do 6 (destruct c as [c|c|]; try exact D). contradiction.
Qed.

Lemma vformat_chars {C} `{Sink C} (o : out C) fmt args :
  vformat o fmt args
  = match format_chars fmt args with
    | Some l => Some (s32 (o_count (emit_chars o l)), emit_chars o l)
    | None => None
    end.
Proof.
  unfold vformat, format_chars. pose proof (vformat_loop_chars (length fmt) o empty_out fmt args) as E.
  destruct (vformat_loop (length fmt) empty_out fmt args) as [p'|]; cbn [option_map].
  - destruct E as (l & E1 & E2). rewrite E2. cbn in E1. rewrite E1. reflexivity.
  - rewrite E. reflexivity.
Qed.

(** ** The buffer *)

Lemma u8_store8_at m a v x : u8 (store8 m a v x) = if x =? a then u8 v else u8 (m x).
Proof.
  unfold store. destruct (Z.eqb_spec x a) as [->|].
  - rewrite mem_write_in by (cbn; lia). rewrite Z.sub_diag. cbn. apply u8_idem.
  - rewrite mem_write_out by (cbn; lia). reflexivity.
Qed.

(** What emitting [l] from count [k] on leaves in the buffer. *)
Lemma buffer_chars l : forall (o : out buffer_out),
  let b := o_ctx o in
  0 <= bo_size b -> 0 <= o_count o -> o_count o + Z.of_nat (length l) < 18446744073709551616 ->
  let o' := emit_chars o l in
  o_count o' = o_count o + Z.of_nat (length l)
  /\ bo_buffer (o_ctx o') = bo_buffer b /\ bo_size (o_ctx o') = bo_size b
  /\ (forall a, ~ (bo_buffer b <= a < bo_buffer b + bo_size b - 1) -> bo_mem (o_ctx o') a = bo_mem b a)
  /\ (forall j, 0 <= j < bo_size b - 1 ->
        u8 (bo_mem (o_ctx o') (bo_buffer b + j))
        = if (o_count o <=? j) && (j <? o_count o + Z.of_nat (length l))
          then u8 (nth (Z.to_nat (j - o_count o)) l 0) else u8 (bo_mem b (bo_buffer b + j))).
Proof.
  induction l as [|c l IH]; intros [b k] b0 Hs Hk Hl o'; subst b0 o'; cbn [o_ctx o_count] in *.
  - cbn [length] in *. rewrite Z.add_0_r. unfold emit_chars. cbn [fold_left o_ctx o_count].
    repeat split; auto. intros j Hj. destruct (Z.leb_spec k j), (Z.ltb_spec j k); try lia; reflexivity.
  - cbn [length] in *. unfold emit_chars. cbn [fold_left]. fold (emit_chars (emit_char (mk_out b k) c) l).
    specialize (IH (emit_char (mk_out b k) c)). cbn [emit_char o_count o_ctx] in IH |- *.
    unfold put, buffer_put in *. rewrite (u64_id (k + 1)) in * by (unfold is_u64; lia).
    set (b' := if (0 <? bo_size b) && (k + 1 <? bo_size b) then _ else b) in *.
    assert (Eb : bo_buffer b' = bo_buffer b) by (unfold b'; destruct (_ && _); reflexivity).
    assert (Es : bo_size b' = bo_size b) by (unfold b'; destruct (_ && _); reflexivity).
    destruct IH as (E1 & E2 & E3 & E4 & E5); [lia | lia | lia|].
    rewrite Eb, Es in *. split; [lia|]. split; [exact E2|]. split; [exact E3|]. split.
    + intros a Ha. rewrite E4 by exact Ha. unfold b'.
      destruct (Z.ltb_spec 0 (bo_size b)), (Z.ltb_spec (k + 1) (bo_size b)); cbn [andb bo_mem]; try reflexivity.
      unfold store. apply mem_write_out. cbn [length le_bytes]. lia.
    + intros j Hj. rewrite E5 by exact Hj.
      assert (Em : u8 (bo_mem b' (bo_buffer b + j)) = if j =? k then u8 c else u8 (bo_mem b (bo_buffer b + j))).
      { unfold b'. destruct (Z.ltb_spec 0 (bo_size b)), (Z.ltb_spec (k + 1) (bo_size b)); cbn [andb bo_mem];
          destruct (Z.eqb_spec j k); try lia; try reflexivity; rewrite u8_store8_at;
          destruct (Z.eqb_spec (bo_buffer b + j) (bo_buffer b + k)); try lia; reflexivity. }
      rewrite Em.
      destruct (Z.leb_spec (k + 1) j), (Z.ltb_spec j (k + 1 + Z.of_nat (length l))),
        (Z.leb_spec k j), (Z.ltb_spec j (k + Z.of_nat (S (length l)))), (Z.eqb_spec j k);
        cbn [andb]; try lia; try reflexivity.
      * replace (Z.to_nat (j - k)) with (S (Z.to_nat (j - (k + 1)))) by lia. reflexivity.
      * replace (Z.to_nat (j - k)) with 0%nat by lia. reflexivity.
Qed.

(** C37. [vsnprintf] never writes outside its buffer: for every size, format and
    arguments it returns the number of characters of the whole text, stores as
    many of them as fit in one less than the size, terminates them, and leaves
    every byte outside the buffer as it was (with size 0, every byte). The text
    does not depend on the buffer, and the loop over the format ends within as
    many turns as the format has characters. *)
Theorem vsnprintf_correct m s n fmt args :
  0 <= n < 18446744073709551616 ->
  match format_chars fmt args with
  | None => vsnprintf m s n fmt args = None
  | Some l =>
      Z.of_nat (length l) < 2147483648 ->
      exists m', vsnprintf m s n fmt args = Some (Z.of_nat (length l), m')
      /\ (forall a, ~ (s <= a < s + n) -> m' a = m a)
      /\ let kept := firstn (Z.to_nat (n - 1)) l in
         (0 < n -> mem_read m' s (length kept + 1) = map u8 kept ++ [0])
  end
  /\ forall fuel, (length fmt <= fuel)%nat ->
       option_map o_ctx (vformat_loop fuel empty_out fmt args) = format_chars fmt args.
Proof.
  intros Hn. split.
  2: { intros fuel Hf. unfold format_chars. rewrite (vformat_fuel fuel (length fmt)) by lia. reflexivity. }
  unfold vsnprintf. rewrite vformat_chars. destruct (format_chars fmt args) as [l|]; [|reflexivity].
  cbn [mbind option_bind]. intros Hl.
  destruct (buffer_chars l (mk_out (mk_buffer_out m s n) 0)) as (E1 & _ & _ & E4 & E5);
    cbn [o_ctx o_count bo_size] in *; try lia.
  set (o' := emit_chars _ l) in *. cbn [bo_buffer bo_mem] in E4, E5. rewrite E1, Z.add_0_l.
  assert (Es : s32 (Z.of_nat (length l)) = Z.of_nat (length l))
    by (unfold s32; rewrite u32_id by lia; destruct (Z.ltb_spec (Z.of_nat (length l)) 2147483648); lia).
  rewrite Es. eexists. split; [reflexivity|].
  set (t := if Z.of_nat (length l) <? n then Z.of_nat (length l) else n - 1).
  assert (Ht : t = Z.min (Z.of_nat (length l)) (n - 1))
    by (unfold t; destruct (Z.ltb_spec (Z.of_nat (length l)) n); lia).
  split.
  - intros a Ha. destruct (Z.ltb_spec 0 n).
    + unfold store. rewrite mem_write_out by (cbn [length le_bytes]; lia). apply E4. lia.
    + apply E4. lia.
  - cbn zeta. intros Hpos. destruct (Z.ltb_spec 0 n); [|lia].
    set (kept := firstn (Z.to_nat (n - 1)) l).
    assert (Hkl : Z.of_nat (length kept) = t) by (unfold kept; rewrite length_firstn; lia).
    rewrite mem_read_split. f_equal.
    + apply nth_ext with (d := 0) (d' := u8 0); [rewrite mem_read_length, length_map; reflexivity|].
      intros i Hi. rewrite mem_read_length in Hi. rewrite mem_read_nth, map_nth by exact Hi.
      rewrite u8_store8_at. destruct (Z.eqb_spec (s + Z.of_nat i) (s + t)); [lia|].
      rewrite E5 by lia. destruct (Z.leb_spec 0 (Z.of_nat i)), (Z.ltb_spec (Z.of_nat i) (0 + Z.of_nat (length l)));
        try lia. cbn [andb]. unfold kept. rewrite nth_firstn.
      destruct (Nat.ltb_spec i (Z.to_nat (n - 1))); [|unfold kept in Hi; rewrite length_firstn in Hi; lia].
      do 2 f_equal. lia.
    + rewrite Hkl. unfold mem_read. cbn [map seq]. rewrite u8_store8_at.
      replace (s + t + Z.of_nat 0) with (s + t) by lia. rewrite Z.eqb_refl. reflexivity.
Qed.

Lemma vsnprintf_correct_witness :
  match format_chars [37; 100; 33] [VWord 42] with
  | None => vsnprintf (fun _ => 7) 100 3 [37; 100; 33] [VWord 42] = None
  | Some l =>
      Z.of_nat (length l) < 2147483648 ->
      exists m', vsnprintf (fun _ => 7) 100 3 [37; 100; 33] [VWord 42] = Some (Z.of_nat (length l), m')
      /\ (forall a, ~ (100 <= a < 100 + 3) -> m' a = 7)
      /\ let kept := firstn (Z.to_nat (3 - 1)) l in
         (0 < 3 -> mem_read m' 100 (length kept + 1) = map u8 kept ++ [0])
  end
  /\ format_chars [37; 100; 33] [VWord 42] = Some [52; 50; 33].
Proof.
  split; [|vm_compute; reflexivity].
  apply (vsnprintf_correct (fun _ => 7) 100 3 [37; 100; 33] [VWord 42]). lia.
Defined.

(** ** The stream *)

(** What has been written or waits in the buffer, and that no write is longer
    than the buffer. *)
Definition stream_text (s : stream_out) : list Z := concat (so_written s) ++ so_buffer s.

Definition stream_ok (s : stream_out) : Prop :=
  Z.of_nat (length (so_buffer s)) <= PRINT_BUFFER_SIZE
  /\ Forall (fun w => w <> [] /\ Z.of_nat (length w) <= PRINT_BUFFER_SIZE) (so_written s).

Lemma stream_flush_ok s :
  stream_ok s -> stream_ok (stream_flush s) /\ stream_text (stream_flush s) = stream_text s
  /\ so_buffer (stream_flush s) = [].
Proof.
  intros [Hb Hw]. unfold stream_flush. destruct (so_buffer s) as [|c l] eqn:E; cbn [length Nat.ltb Nat.leb].
  - rewrite E. split; [split; [rewrite E; cbn; unfold PRINT_BUFFER_SIZE; lia | exact Hw]|]. auto.
  - split.
    + split; [cbn; unfold PRINT_BUFFER_SIZE; lia|]. cbn [so_written].
      apply List.Forall_app. split; [exact Hw|]. repeat constructor; [discriminate | exact Hb].
    + split; [|reflexivity]. unfold stream_text. cbn [so_written so_buffer].
      rewrite concat_app, E. cbn [concat]. rewrite !app_nil_r. reflexivity.
Qed.

Lemma stream_put_ok ch n s :
  stream_ok s -> stream_ok (put ch n s) /\ stream_text (put ch n s) = stream_text s ++ [ch].
Proof.
  intros Hs. unfold put, stream_put.
  set (s' := if _ =? _ then stream_flush s else s).
  assert (H : stream_ok s' /\ stream_text s' = stream_text s
              /\ Z.of_nat (length (so_buffer s')) < PRINT_BUFFER_SIZE).
  { unfold s'. destruct (Z.eqb_spec (Z.of_nat (length (so_buffer s))) PRINT_BUFFER_SIZE).
    - destruct (stream_flush_ok s Hs) as (H1 & H2 & H3). rewrite H3.
      split; [exact H1|]. split; [exact H2 | cbn; unfold PRINT_BUFFER_SIZE; lia].
    - destruct Hs as [Hb Hw]. split; [split; assumption|]. split; [reflexivity | lia]. }
  destruct H as ([Hb Hw] & Ht & Hl). split.
  - split; [|exact Hw]. cbn [so_buffer]. rewrite length_app. cbn [length]. lia.
  - unfold stream_text in *. cbn [so_written so_buffer]. rewrite app_assoc, Ht. reflexivity.
Qed.

Lemma stream_chars l : forall o : out stream_out,
  stream_ok (o_ctx o) ->
  stream_ok (o_ctx (emit_chars o l)) /\ stream_text (o_ctx (emit_chars o l)) = stream_text (o_ctx o) ++ l.
Proof.
  induction l as [|c l IH]; intros o Ho; [rewrite app_nil_r; auto|].
  unfold emit_chars. cbn [fold_left]. fold (emit_chars (emit_char o c) l).
  destruct (stream_put_ok c (o_count o) (o_ctx o) Ho) as [H1 H2].
  destruct (IH (emit_char o c) H1) as [H3 H4]. split; [exact H3|].
  rewrite H4. cbn [emit_char o_ctx]. rewrite H2, <- app_assoc. reflexivity.
Qed.

(** [vprintf] delivers exactly the text [vsnprintf] would format: the pieces
    it hands to [whrlibc_write] are not empty, none is longer than its 512-byte
    buffer, and together, in order, they are the text. *)
Theorem vprintf_correct fmt args :
  match format_chars fmt args with
  | None => vprintf fmt args = None
  | Some l =>
      exists w, option_map snd (vprintf fmt args) = Some w /\ concat w = l
      /\ Forall (fun p => p <> [] /\ Z.of_nat (length p) <= PRINT_BUFFER_SIZE) w
  end.
Proof.
  unfold vprintf. rewrite vformat_chars. destruct (format_chars fmt args) as [l|]; [|reflexivity].
  cbn [mbind option_bind option_map snd].
  destruct (stream_chars l (mk_out (mk_stream_out [] []) 0)) as [H1 H2];
    [split; [cbn; unfold PRINT_BUFFER_SIZE; lia | constructor]|].
  destruct (stream_flush_ok _ H1) as (H3 & H4 & H5). eexists. split; [reflexivity|].
  split; [|apply H3]. rewrite H2 in H4. unfold stream_text in H4. rewrite H5, app_nil_r in H4. exact H4.
Qed.

(** ** Numbers *)

Definition digit_value (uppercase : bool) (ch : Z) : Z :=
  if ch <? 58 then ch - 48 else ch - (if uppercase then 55 else 87).

(** A numeral, most significant digit first. *)
Definition numeral_value (base : Z) (uppercase : bool) (s : list Z) : Z :=
  fold_left (fun v ch => v * base + digit_value uppercase ch) s 0.

Lemma digit_char_value uppercase d : 0 <= d < 16 -> digit_value uppercase (digit_char uppercase d) = d.
Proof.
  intros Hd. unfold digit_value, digit_char.
  destruct (Z.ltb_spec d 10); destruct uppercase;
    repeat match goal with |- context [?a <? ?b] => destruct (Z.ltb_spec a b) end; lia.
Qed.

Lemma numeral_app base up a b :
  numeral_value base up (a ++ b)
  = fold_left (fun v ch => v * base + digit_value up ch) b (numeral_value base up a).
Proof. apply fold_left_app. Qed.

Lemma format_loop_value fuel base up : 2 <= base <= 16 -> forall value,
  0 <= value < base ^ Z.of_nat fuel ->
  numeral_value base up (rev (format_loop fuel value base up)) = value
  /\ (forall c l, rev (format_loop fuel value base up) = c :: l -> c <> 48).
Proof.
  intros Hb. induction fuel as [|fuel IH]; intros value Hv.
  - cbn in *. split; [|discriminate]. replace value with 0 by lia. reflexivity.
  - cbn [format_loop]. destruct (Z.eqb_spec value 0) as [->|Hn]; [split; [reflexivity | discriminate]|].
    rewrite Nat2Z.inj_succ, Z.pow_succ_r in Hv by lia.
    pose proof (Z.div_mod value base ltac:(lia)) as D. pose proof (Z.mod_pos_bound value base ltac:(lia)) as M.
    assert (Hq : 0 <= value / base < base ^ Z.of_nat fuel)
      by (split; [apply Z.div_pos; lia | apply Z.div_lt_upper_bound; lia]).
    destruct (IH (value / base) Hq) as [E1 E2]. cbn [rev].
    split.
    + rewrite numeral_app, E1. cbn [fold_left]. rewrite digit_char_value by lia. lia.
    + intros c l E. destruct (rev (format_loop fuel (value / base) base up)) as [|c' l'] eqn:R.
      * cbn in E1. assert (Z0 : value / base = 0) by (cbn in E1; lia). rewrite Z0 in D.
        cbn [app] in E. injection E as <- <-. unfold digit_char.
        destruct (Z.ltb_spec (value mod base) 10); destruct up; lia.
      * cbn [app] in E. injection E as <- <-. exact (E2 _ _ eq_refl).
Qed.

Lemma numeral_zeros base up n s : numeral_value base up (repeat 48 n ++ s) = numeral_value base up s.
Proof.
  rewrite numeral_app. unfold numeral_value. f_equal.
  induction n as [|n IH]; [reflexivity|]. cbn [repeat fold_left].
  replace (0 * base + digit_value up 48) with 0 by (unfold digit_value; destruct up; cbn; lia). exact IH.
Qed.

Lemma format_unsigned_value value base up :
  2 <= base <= 16 -> is_u64 value ->
  numeral_value base up (rev (format_unsigned value base up)) = value
  /\ format_unsigned value base up <> []
  /\ (value <> 0 -> forall c l, rev (format_unsigned value base up) = c :: l -> c <> 48).
Proof.
  intros Hb Hv. unfold format_unsigned. destruct (Z.eqb_spec value 0) as [->|Hn].
  - split; [unfold numeral_value, digit_value; cbn; destruct up; cbn; lia|].
    split; [discriminate | contradiction].
  - assert (Hp : value < base ^ Z.of_nat 64).
    { unfold is_u64 in Hv. apply (Z.lt_le_trans _ (2 ^ 64)); [lia|]. apply Z.pow_le_mono_l. lia. }
    destruct (format_loop_value 64 base up Hb value) as [E1 E2]; [unfold is_u64 in Hv; lia|].
    split; [exact E1|]. split; [|intros _; exact E2].
    intros E. rewrite E in E1. cbn in E1. lia.
Qed.

(** A number printed by any of the numeric directives reads back: what is
    emitted is blanks, the sign, the prefix and a numeral of the base whose value
    is the number, then blanks. The numeral has at least as many digits as the
    precision asks for, no leading zero it is not asked for, and is empty only
    for a zero with precision 0. The whole is as wide as the width asks for,
    except when zeros were asked for together with a precision: then the width
    is ignored. *)
Theorem emit_number_reads_back {C} `{Sink C} (o : out C)
    value negative base uppercase width precision left zero prefix :
  2 <= base <= 16 -> is_u64 value ->
  exists before numeral after,
    emit_number o value negative base uppercase width precision left zero prefix
    = emit_chars o (repeat 32 before ++ (if negative then [45] else []) ++ prefix ++ numeral ++ repeat 32 after)
  /\ numeral_value base uppercase numeral = value
  /\ precision <= Z.of_nat (length numeral)
  /\ (numeral = [] <-> precision = 0 /\ value = 0)
  /\ (zero = false -> precision < 0 -> value <> 0 -> head numeral <> Some 48)
  /\ (before = 0%nat \/ after = 0%nat)
  /\ let natural := Z.of_nat (length ((if negative then [45] else []) ++ prefix ++ numeral)) in
     natural + Z.of_nat (before + after)
     = if negb left && zero && negb (precision <? 0) then natural else Z.max width natural.
Proof.
  intros Hb Hv. destruct (format_unsigned_value value base uppercase Hb Hv) as (F1 & F2 & F3).
  set (digits := if (precision =? 0) && (value =? 0) then [] else format_unsigned value base uppercase).
  set (zs := Z.to_nat (Z.max 0 (precision - Z.of_nat (length digits)))).
  set (body := (if negative then [45] else []) ++ prefix).
  set (sp := Z.to_nat (width - (Z.of_nat (length body) + Z.max 0 (precision - Z.of_nat (length digits)) + Z.of_nat (length digits)))).
  set (fill := if negb left && zero && (precision <? 0) then sp else 0%nat).
  exists (if negb left && negb zero then sp else 0%nat), (repeat 48 fill ++ repeat 48 zs ++ rev digits),
    (if left then sp else 0%nat).
  assert (Hd : numeral_value base uppercase (rev digits) = value).
  { unfold digits. destruct (Z.eqb_spec precision 0), (Z.eqb_spec value 0); cbn [andb]; try exact F1.
    subst value. reflexivity. }
  assert (He : digits = [] <-> precision = 0 /\ value = 0).
  { unfold digits. destruct (Z.eqb_spec precision 0), (Z.eqb_spec value 0); cbn [andb]; tauto. }
  rewrite emit_number_chars. unfold number_chars. fold digits. fold body. fold sp. fold zs.
  split; [|split; [|split; [|split; [|split; [|split]]]]].
  - f_equal. unfold fill, body. destruct left, zero, (precision <? 0); cbn [negb andb repeat app];
      rewrite ?app_nil_r, <- ?app_assoc; reflexivity.
  - rewrite !numeral_zeros. exact Hd.
  - rewrite !length_app, !repeat_length, length_rev. lia.
  - rewrite <- He. split.
    + intros E. apply app_eq_nil in E as [_ E]. apply app_eq_nil in E as [_ E].
      rewrite <- (rev_involutive digits), E. reflexivity.
    + intros E. assert (Hp : precision = 0) by (apply He, E).
      unfold fill, zs. rewrite E, Hp. destruct left, zero; reflexivity.
  - intros -> Hp Hn. unfold fill, zs. rewrite andb_false_r. cbn [andb repeat app].
    replace (Z.to_nat (Z.max 0 (precision - Z.of_nat (length digits)))) with 0%nat by lia. cbn [repeat app].
    unfold digits. destruct (Z.eqb_spec precision 0); [lia|]. cbn [andb].
    destruct (rev (format_unsigned value base uppercase)) as [|c l]; [discriminate|].
    cbn [head]. intros E. injection E as ->. exact (F3 Hn _ _ eq_refl eq_refl).
  - destruct left; auto.
  - cbn zeta. unfold fill. rewrite app_assoc. fold body. rewrite !length_app, !repeat_length, length_rev.
    unfold zs, sp. destruct left, zero; cbn [negb andb]; destruct (Z.ltb_spec precision 0); cbn [negb]; lia.
Qed.

Lemma emit_number_reads_back_witness :
  exists before numeral after,
    emit_number empty_out 255 false 16 true 8 (-1) false true [48; 88]
    = emit_chars empty_out (repeat 32 before ++ [] ++ [48; 88] ++ numeral ++ repeat 32 after)
  /\ numeral_value 16 true numeral = 255
  /\ -1 <= Z.of_nat (length numeral)
  /\ (numeral = [] <-> -1 = 0 /\ 255 = 0)
  /\ (true = false -> -1 < 0 -> 255 <> 0 -> head numeral <> Some 48)
  /\ (before = 0%nat \/ after = 0%nat)
  /\ let natural := Z.of_nat (length ([] ++ [48; 88] ++ numeral)) in
     natural + Z.of_nat (before + after)
     = if negb false && true && negb (-1 <? 0) then natural else Z.max 8 natural.
Proof.
  apply (emit_number_reads_back empty_out 255 false 16 true 8 (-1) false true [48; 88]); [lia | unfold is_u64; lia].
Defined.
