(* ===== verification/Framebuffer.v ===== *)
(** * The framebuffer console (src/framebuffer/framebuffer.c)

    Video memory is the flat byte memory [co_mem]; every store of the C code,
    the 64-bit ones included, is a store here. The bitmap font is generated by
    the build: it is the class [Font]. The geometry that
    [framebuffer_console_init] computes is the record [fb_mode]. *)

From S2P Require Import Prelude.

Definition FONT_SCALE : Z := 2.
Definition TAB_WIDTH : Z := 4.
Definition MAX_CONSOLE_COLS : Z := 160.
Definition MAX_CONSOLE_ROWS : Z := 100.

(** generated/font.h: the size of the glyphs, the characters there are, and the
    rows of a glyph by its index. *)
Class Font : Type := {
  FONT_WIDTH : Z;
  FONT_HEIGHT : Z;
  WS_FONT_FIRST : Z;
  WS_FONT_LAST : Z;
  ws_font : Z -> Z -> Z
}.

Record framebuffer_cell : Type := mk_cell { ce_ch : Z; ce_fg : Z; ce_bg : Z }.

(** The fields of [struct framebuffer_console] that initialisation sets. *)
Record fb_mode : Type := mk_mode {
  fm_base : Z; fm_width : Z; fm_height : Z; fm_pitch : Z;
  fm_red_mask_size : Z; fm_red_mask_shift : Z;
  fm_green_mask_size : Z; fm_green_mask_shift : Z;
  fm_blue_mask_size : Z; fm_blue_mask_shift : Z;
  fm_cols : Z; fm_rows : Z;
  fm_backing_ready : bool
}.

(** The other fields, the array [cells] by row and column, and video memory. *)
Record console : Type := mk_console {
  co_mode : fb_mode;
  co_fg : Z; co_bg : Z;
  co_cursor_col : Z; co_cursor_row : Z;
  co_batch_active : bool; co_redraw_deferred : bool; co_ready : bool;
  co_cells : Z -> Z -> framebuffer_cell;
  co_mem : mem
}.

(** [struct limine_framebuffer]. *)
Record limine_framebuffer : Type := mk_limine_fb {
  lf_address : Z; lf_width : Z; lf_height : Z; lf_pitch : Z; lf_bpp : Z;
  lf_red_mask_size : Z; lf_red_mask_shift : Z;
  lf_green_mask_size : Z; lf_green_mask_shift : Z;
  lf_blue_mask_size : Z; lf_blue_mask_shift : Z
}.

(** ** Colours *)

Definition color_component (value mask_size mask_shift : Z) : Z :=
  if mask_size =? 0 then 0
  else
    let component := if 8 <=? mask_size then u32 (Z.shiftl value (mask_size - 8))
                     else Z.shiftr value (8 - mask_size) in
    u32 (Z.shiftl component mask_shift).

Definition make_color (m : fb_mode) (red green blue : Z) : Z :=
  Z.lor (Z.lor (color_component red (fm_red_mask_size m) (fm_red_mask_shift m))
           (color_component green (fm_green_mask_size m) (fm_green_mask_shift m)))
    (color_component blue (fm_blue_mask_size m) (fm_blue_mask_shift m)).

(** ** Filling *)

(** The stores of one row of [width] pixels at [pixel]: two at a time when the
    address is aligned, as [clear_rect_color] and [fill_span] both do. *)
Definition fill_row (m : mem) (pixel width color : Z) : mem :=
  let wide_color := Z.lor color (Z.shiftl color 32) in
  let '(m, col) :=
    if Z.land pixel 7 =? 0 then
      loop_state (range_loop 0 (width - 1) 2 (fun col '(m, _) =>
        Cont (store64 m (pixel + 4 * col) wide_color, col + 2)) (m, 0))
    else (m, 0) in
  loop_state (range_loop col width 1 (fun col m => Cont (store32 m (pixel + 4 * col) color)) m).

Definition pixel_address (m : fb_mode) (x y : Z) : Z := fm_base m + y * fm_pitch m + x * 4.

Definition clear_rect_color (f : fb_mode) (m : mem) (x y width height color : Z) : mem :=
  loop_state (range_loop 0 height 1 (fun row m =>
    Cont (fill_row m (pixel_address f x (y + row)) width color)) m).

Definition fill_span (f : fb_mode) (m : mem) (x y width color : Z) : mem :=
  fill_row m (pixel_address f x y) width color.

(** The loop that moves eight bytes at a time. *)
Fixpoint copy_words (fuel : nat) (m : mem) (dest src bytes : Z) : mem * Z * Z * Z :=
  match fuel with
  | O => (m, dest, src, bytes)
  | S fuel =>
      if 8 <=? bytes
      then copy_words fuel (store64 m dest (load64 m src)) (dest + 8) (src + 8) (bytes - 8)
      else (m, dest, src, bytes)
  end.

Definition copy_row_forward (m : mem) (dest src bytes : Z) : mem :=
  let '(m, dest, src, bytes) :=
    if Z.land (Z.lor dest src) 7 =? 0 then copy_words (Z.to_nat (bytes / 8)) m dest src bytes
    else (m, dest, src, bytes) in
  loop_state (range_loop 0 bytes 1 (fun i m => Cont (store8 m (dest + i) (load8 m (src + i)))) m).

Section Console.
Context `{Font}.

Definition CELL_WIDTH : Z := (FONT_WIDTH + 1) * FONT_SCALE.
Definition CELL_HEIGHT : Z := (FONT_HEIGHT + 1) * FONT_SCALE.

Definition clear_rect (c : console) (x y width height : Z) : mem :=
  clear_rect_color (co_mode c) (co_mem c) x y width height (co_bg c).

(** ** Glyphs *)

Definition glyph_is_empty (glyph : Z -> Z) : bool :=
  match range_loop 0 FONT_HEIGHT 1 (fun i (_ : unit) =>
          if negb (glyph i =? 0) then Break tt else Cont tt) tt with
  | Break _ => false
  | Cont _ => true
  end.

(** [ch] is an unsigned char. *)
Definition glyph_for (ch : Z) : Z -> Z :=
  if (ch <? WS_FONT_FIRST) || (WS_FONT_LAST <? ch) || glyph_is_empty (ws_font (ch - WS_FONT_FIRST))
  then if ch =? 32 then ws_font (32 - WS_FONT_FIRST) else ws_font (63 - WS_FONT_FIRST)
  else ws_font (ch - WS_FONT_FIRST).

Definition glyph_bit (row_bits glyph_x : Z) : bool :=
  negb (Z.land row_bits (u8 (Z.shiftl 1 (FONT_WIDTH - 1 - glyph_x))) =? 0).

(** The end of the run of set bits that [glyph_x] is in. *)
Fixpoint run_end (fuel : nat) (row_bits glyph_x : Z) : Z :=
  match fuel with
  | O => glyph_x
  | S fuel =>
      let glyph_x := glyph_x + 1 in
      if FONT_WIDTH <=? glyph_x then glyph_x
      else if glyph_bit row_bits glyph_x then run_end fuel row_bits glyph_x else glyph_x
  end.

(** The runs of one row of a glyph, each drawn on [FONT_SCALE] lines. *)
Fixpoint draw_runs (fuel : nat) (f : fb_mode) (m : mem) (row_bits x pixel_y fg glyph_x : Z) : mem :=
  match fuel with
  | O => m
  | S fuel =>
      if glyph_x <? FONT_WIDTH then
        if negb (glyph_bit row_bits glyph_x) then draw_runs fuel f m row_bits x pixel_y fg (glyph_x + 1)
        else
          let run_start := glyph_x in
          let glyph_x := run_end (Z.to_nat FONT_WIDTH) row_bits glyph_x in
          let pixel_x := x + 1 + run_start * FONT_SCALE in
          let run_width := (glyph_x - run_start) * FONT_SCALE in
          let m := loop_state (range_loop 0 FONT_SCALE 1 (fun dy m =>
                     Cont (fill_span f m pixel_x (pixel_y + dy) run_width fg)) m) in
          draw_runs fuel f m row_bits x pixel_y fg glyph_x
      else m
  end.

Definition draw_cell_at (f : fb_mode) (m : mem) (col row : Z) (cell : framebuffer_cell) : mem :=
  let x := col * CELL_WIDTH in
  let y := row * CELL_HEIGHT in
  let glyph := glyph_for (ce_ch cell) in
  let m := clear_rect_color f m x y CELL_WIDTH CELL_HEIGHT (ce_bg cell) in
  if ce_ch cell =? 32 then m
  else
    loop_state (range_loop 0 FONT_HEIGHT 1 (fun glyph_y m =>
      Cont (draw_runs (Z.to_nat FONT_WIDTH) f m (glyph glyph_y) x (y + 1 + glyph_y * FONT_SCALE)
              (ce_fg cell) 0)) m).

(** ** The console *)

Definition with_co_mem (c : console) (m : mem) : console :=
  mk_console (co_mode c) (co_fg c) (co_bg c) (co_cursor_col c) (co_cursor_row c)
    (co_batch_active c) (co_redraw_deferred c) (co_ready c) (co_cells c) m.

Definition with_cells (c : console) (cells : Z -> Z -> framebuffer_cell) : console :=
  mk_console (co_mode c) (co_fg c) (co_bg c) (co_cursor_col c) (co_cursor_row c)
    (co_batch_active c) (co_redraw_deferred c) (co_ready c) cells (co_mem c).

Definition with_cursor (c : console) (col row : Z) : console :=
  mk_console (co_mode c) (co_fg c) (co_bg c) col row
    (co_batch_active c) (co_redraw_deferred c) (co_ready c) (co_cells c) (co_mem c).

Definition with_redraw (c : console) (batch deferred : bool) : console :=
  mk_console (co_mode c) (co_fg c) (co_bg c) (co_cursor_col c) (co_cursor_row c)
    batch deferred (co_ready c) (co_cells c) (co_mem c).

Definition with_colors (c : console) (fg bg : Z) : console :=
  mk_console (co_mode c) fg bg (co_cursor_col c) (co_cursor_row c)
    (co_batch_active c) (co_redraw_deferred c) (co_ready c) (co_cells c) (co_mem c).

(** [cells[row][col] = cell]. *)
Definition put_cell (cells : Z -> Z -> framebuffer_cell) (row col : Z) (cell : framebuffer_cell)
    : Z -> Z -> framebuffer_cell :=
  fun r k => if (r =? row) && (k =? col) then cell else cells r k.

Definition clear_cell_at (c : console) (col row : Z) : console :=
  with_co_mem c (clear_rect c (col * CELL_WIDTH) (row * CELL_HEIGHT) CELL_WIDTH CELL_HEIGHT).

Definition set_cell (c : console) (col row ch : Z) : console :=
  if negb (fm_backing_ready (co_mode c)) then c
  else with_cells c (put_cell (co_cells c) row col (mk_cell ch (co_fg c) (co_bg c))).

Definition clear_backing_row (c : console) (row : Z) : console :=
  if negb (fm_backing_ready (co_mode c)) then c
  else
    with_cells c (loop_state (range_loop 0 (fm_cols (co_mode c)) 1 (fun col cells =>
      Cont (put_cell cells row col (mk_cell 32 (co_fg c) (co_bg c)))) (co_cells c))).

Definition clear_backing (c : console) : console :=
  if negb (fm_backing_ready (co_mode c)) then c
  else loop_state (range_loop 0 (fm_rows (co_mode c)) 1 (fun row c => Cont (clear_backing_row c row)) c).

Definition redraw_from_backing (c : console) : console :=
  if negb (fm_backing_ready (co_mode c)) then c
  else
    with_co_mem c (loop_state (range_loop 0 (fm_rows (co_mode c)) 1 (fun row m =>
      Cont (loop_state (range_loop 0 (fm_cols (co_mode c)) 1 (fun col m =>
        Cont (draw_cell_at (co_mode c) m col row (co_cells c row col))) m))) (co_mem c))).

Definition draw_char_at (c : console) (col row ch : Z) : console :=
  let cell := mk_cell ch (co_fg c) (co_bg c) in
  let c := if fm_backing_ready (co_mode c) then with_cells c (put_cell (co_cells c) row col cell) else c in
  if co_redraw_deferred c then c
  else with_co_mem c (draw_cell_at (co_mode c) (co_mem c) col row cell).

(** Move every row of [cells] up by one. *)
Definition shift_cells (c : console) : Z -> Z -> framebuffer_cell :=
  loop_state (range_loop 1 (fm_rows (co_mode c)) 1 (fun row cells =>
    Cont (loop_state (range_loop 0 (fm_cols (co_mode c)) 1 (fun col cells =>
      Cont (put_cell cells (row - 1) col (cells row col))) cells))) (co_cells c)).

Definition scroll (c : console) : console :=
  let f := co_mode c in
  if fm_backing_ready f then
    let c := clear_backing_row (with_cells c (shift_cells c)) (fm_rows f - 1) in
    if co_batch_active c then with_redraw c (co_batch_active c) true
    else redraw_from_backing c
  else
    let copy_width := fm_cols f * CELL_WIDTH * 4 in
    let copy_height := (fm_rows f - 1) * CELL_HEIGHT in
    let m := loop_state (range_loop 0 copy_height 1 (fun y m =>
               Cont (copy_row_forward m (fm_base f + y * fm_pitch f)
                       (fm_base f + (y + CELL_HEIGHT) * fm_pitch f) copy_width)) (co_mem c)) in
    let c := with_co_mem c m in
    with_co_mem c (clear_rect c 0 ((fm_rows f - 1) * CELL_HEIGHT) (fm_cols f * CELL_WIDTH) CELL_HEIGHT).

Definition flush_deferred_redraw (c : console) : console :=
  if negb (co_redraw_deferred c) then c
  else let c := redraw_from_backing c in with_redraw c (co_batch_active c) false.

Definition newline (c : console) : console :=
  let c := with_cursor c 0 (co_cursor_row c + 1) in
  if fm_rows (co_mode c) <=? co_cursor_row c then
    let c := scroll c in with_cursor c (co_cursor_col c) (fm_rows (co_mode c) - 1)
  else c.

(** [putchar_inner] on every character but the tab. *)
Definition put_plain (c : console) (ch : Z) : console :=
  if negb (co_ready c) then c
  else
    match ch with
    | 10 => newline c
    | 13 => with_cursor c 0 (co_cursor_row c)
    | 8 =>
        if 0 <? co_cursor_col c then
          let c := with_cursor c (co_cursor_col c - 1) (co_cursor_row c) in
          let c := set_cell c (co_cursor_col c) (co_cursor_row c) 32 in
          clear_cell_at c (co_cursor_col c) (co_cursor_row c)
        else c
    | _ =>
        if ch <? 32 then c
        else
          let c := if fm_cols (co_mode c) <=? co_cursor_col c then newline c else c in
          let c := draw_char_at c (co_cursor_col c) (co_cursor_row c) ch in
          let c := with_cursor c (co_cursor_col c + 1) (co_cursor_row c) in
          if fm_cols (co_mode c) <=? co_cursor_col c then newline c else c
    end.

(** [while (cursor_col < next_tab) framebuffer_console_putchar(' ')]. *)
Fixpoint tab_loop (fuel : nat) (c : console) (next_tab : Z) : res console :=
  if co_cursor_col c <? next_tab then
    match fuel with
    | O => NoFuel
    | S fuel => tab_loop fuel (flush_deferred_redraw (put_plain c 32)) next_tab
    end
  else Ret c.

Definition next_tab (c : console) : Z := Z.land (co_cursor_col c + TAB_WIDTH) (not64 (TAB_WIDTH - 1)).

(** The fuel is for the tab loop; [TAB_WIDTH] turns are enough where it ends. *)
Definition putchar_inner (fuel : nat) (c : console) (ch : Z) : res console :=
  if negb (co_ready c) then Ret c
  else if ch =? 9 then tab_loop fuel c (next_tab c)
  else Ret (put_plain c ch).

Definition framebuffer_console_putchar (fuel : nat) (c : console) (ch : Z) : res console :=
  putchar_inner fuel c ch ≫= fun c => Ret (flush_deferred_redraw c).

(** The loop over the characters of [framebuffer_console_write]. *)
Fixpoint write_inner (fuel : nat) (c : console) (s : list Z) : res console :=
  match s with
  | [] => Ret c
  | ch :: s => putchar_inner fuel c ch ≫= fun c => write_inner fuel c s
  end.

Definition framebuffer_console_write (fuel : nat) (c : console) (s : list Z) : res console :=
  if negb (co_ready c) then Ret c
  else
    let was_batching := co_batch_active c in
    write_inner fuel (with_redraw c true (co_redraw_deferred c)) s ≫= fun c =>
    let c := with_redraw c was_batching (co_redraw_deferred c) in
    Ret (if negb (co_batch_active c) then flush_deferred_redraw c else c).

Definition framebuffer_console_clear (c : console) : console :=
  if negb (co_ready c) then c
  else
    let c := with_co_mem c (clear_rect c 0 0 (fm_width (co_mode c)) (fm_height (co_mode c))) in
    let c := clear_backing c in
    with_cursor (with_redraw c (co_batch_active c) false) 0 0.

Definition framebuffer_console_set_color (c : console) (red green blue : Z) : console :=
  if negb (co_ready c) then c else with_colors c (make_color (co_mode c) red green blue) (co_bg c).

Definition framebuffer_console_set_background (c : console) (red green blue : Z) : console :=
  if negb (co_ready c) then c else with_colors c (co_fg c) (make_color (co_mode c) red green blue).

Definition set_ready (c : console) (f : fb_mode) (col row : Z) (ready : bool) : console :=
  mk_console f (co_fg c) (co_bg c) col row (co_batch_active c) (co_redraw_deferred c) ready
    (co_cells c) (co_mem c).

(** [framebuffer] is [None] for NULL. *)
Definition framebuffer_console_init (c : console) (framebuffer : option limine_framebuffer)
    : bool * console :=
  let fail := (false, set_ready c (co_mode c) (co_cursor_col c) (co_cursor_row c) false) in
  match framebuffer with
  | None => fail
  | Some b =>
      if (lf_address b =? 0) || negb (lf_bpp b =? 32) then fail
      else
        let cols := lf_width b / CELL_WIDTH in
        let rows := lf_height b / CELL_HEIGHT in
        let f := mk_mode (lf_address b) (lf_width b) (lf_height b) (lf_pitch b)
                   (lf_red_mask_size b) (lf_red_mask_shift b) (lf_green_mask_size b)
                   (lf_green_mask_shift b) (lf_blue_mask_size b) (lf_blue_mask_shift b) cols rows
                   ((cols <=? MAX_CONSOLE_COLS) && (rows <=? MAX_CONSOLE_ROWS)) in
        if (cols =? 0) || (rows =? 0) then (false, set_ready c f 0 0 false)
        else
          let c := with_colors (set_ready c f 0 0 true) (make_color f 0xff 0xff 0xff)
                     (make_color f 0 0 0) in
          (true, framebuffer_console_clear c)
  end.
End Console.
