(* ===== verification/Pixels.v ===== *)
(** * The framebuffer console: what the drawing routines put on the screen

    A pixel is the 32-bit word at its address. Each routine is shown to paint
    exactly the pixels of a region, given as a function from coordinates to the
    colour painted there, and to touch no byte outside video memory. *)

From S2P Require Import Prelude Framebuffer.

(** Case analysis on the comparisons of a goal about rectangles, closing each
    case as soon as its coordinates are contradictory. *)
Ltac boxes :=
  cbn [andb];
  repeat (match goal with
          | |- context [?a <=? ?b] => destruct (Z.leb_spec a b)
          | |- context [?a <? ?b] => destruct (Z.ltb_spec a b)
          end; cbn [andb]; rewrite ?andb_false_r; try reflexivity; try lia).

(** ** Byte lemmas *)

Definition color_byte (c k : Z) : Z := nth (Z.to_nat k) (le_bytes 4 c) 0.

Lemma le_bytes_app n k v : le_bytes (n + k) v = le_bytes n v ++ le_bytes k (v / 256 ^ Z.of_nat n).
Proof.
  revert v; induction n as [|n IH]; intros v; [cbn; rewrite Z.div_1_r; reflexivity|].
  cbn [Nat.add le_bytes app]. rewrite IH. do 3 f_equal.
  rewrite Nat2Z.inj_succ, Z.pow_succ_r, Z.div_div by lia. reflexivity.
Qed.

Lemma wide_bytes c : 0 <= c < 4294967296 ->
  le_bytes 8 (Z.lor c (Z.shiftl c 32)) = le_bytes 4 c ++ le_bytes 4 c.
Proof.
  intros Hc. rewrite Z.lor_comm, (lor_low_add (Z.shiftl c 32) c 32), Z.shiftl_mul_pow2 by
    (rewrite ?Z.shiftl_mul_pow2, ?Z.mod_mul; lia).
  change (2 ^ 32) with 4294967296. rewrite (le_bytes_app 4 4).
  change (256 ^ Z.of_nat 4) with 4294967296.
  replace ((c * 4294967296 + c) / 4294967296) with c by (apply (Z.div_unique _ _ _ c); lia).
  f_equal. unfold le_bytes. unfold u8.
  assert (E : forall k, 0 < k -> 4294967296 mod (k * 256) = 0 -> ((c * 4294967296 + c) / k) mod 256 = (c / k) mod 256).
  { intros k Hk Hd. apply Z.mod_divide in Hd as [q Hq]; [|lia].
    replace (c * 4294967296 + c) with (c + (c * q * 256) * k) by nia.
    rewrite Z.div_add by lia. rewrite Z.mod_add by lia. reflexivity. }
  rewrite !Z.div_div by lia.
  pose proof (E 1 ltac:(lia) eq_refl) as E0. rewrite !Z.div_1_r in E0.
  rewrite E0, (E 256), (E (256 * 256)), (E (256 * 256 * 256)) by (lia || reflexivity). reflexivity.
Qed.

Lemma wide_byte c j : 0 <= c < 4294967296 -> 0 <= j < 8 ->
  nth (Z.to_nat j) (le_bytes 8 (Z.lor c (Z.shiftl c 32))) 0 = color_byte c (j mod 4).
Proof.
  intros Hc Hj. rewrite wide_bytes by exact Hc. unfold color_byte.
  destruct (Z.ltb_spec j 4).
  - rewrite app_nth1 by (rewrite le_bytes_length; lia). rewrite Z.mod_small by lia. reflexivity.
  - rewrite app_nth2 by (rewrite le_bytes_length; lia). rewrite le_bytes_length.
    replace (j mod 4) with (j - 4) by (apply (Z.mod_unique j 4 1); lia). f_equal. lia.
Qed.

Lemma store_at n m a v x :
  store n m a v x = if (a <=? x) && (x <? a + Z.of_nat n) then nth (Z.to_nat (x - a)) (le_bytes n v) 0 else m x.
Proof. unfold store, mem_write. rewrite le_bytes_length. reflexivity. Qed.

(** ** Rows *)

(** [m'] is [m] with [n] pixels of colour [c] from address [p] on. *)
Definition row_filled (m m' : mem) (p n c : Z) : Prop :=
  forall a, m' a = if (p <=? a) && (a <? p + 4 * n) then color_byte c ((a - p) mod 4) else m a.

Lemma row_filled_store32 m m' p n c :
  0 <= n -> row_filled m m' p n c -> row_filled m (store32 m' (p + 4 * n) c) p (n + 1) c.
Proof.
  intros Hn Hr a. rewrite store_at, Hr. change (Z.of_nat 4) with 4.
  boxes.
  unfold color_byte. do 2 f_equal. apply (Z.mod_unique _ _ n); lia.
Qed.

Lemma row_filled_store64 m m' p n c :
  0 <= n -> 0 <= c < 4294967296 -> row_filled m m' p n c ->
  row_filled m (store64 m' (p + 4 * n) (Z.lor c (Z.shiftl c 32))) p (n + 2) c.
Proof.
  intros Hn Hc Hr a. rewrite store_at, Hr. change (Z.of_nat 8) with 8.
  boxes.
  rewrite wide_byte by lia. f_equal.
  replace (a - p) with (a - (p + 4 * n) + n * 4) by lia. rewrite Z.mod_add by lia. reflexivity.
Qed.

Lemma fill_row_filled m p w c :
  0 <= w -> 0 <= c < 4294967296 -> row_filled m (fill_row m p w c) p w c.
Proof.
  intros Hw Hc. unfold fill_row.
  set (first := if Z.land p 7 =? 0 then _ else (m, 0)).
  assert (H1 : row_filled m (fst first) p (snd first) c /\ 0 <= snd first <= w).
  { assert (H0 : row_filled m m p 0 c).
    { intros a. boxes. }
    unfold first. destruct (Z.land p 7 =? 0); [|cbn; split; [exact H0 | lia]].
    unfold range_loop. apply (for_loop_ind
      (fun col '(m', col') => col' = col /\ row_filled m m' p col c)
      (fun r : ctl (mem * Z) (mem * Z) =>
         row_filled m (fst (loop_state r)) p (snd (loop_state r)) c /\ 0 <= snd (loop_state r) <= w)).
    - split; [reflexivity | exact H0].
    - intros k [m' col'] Hk [-> Hr]. unfold trips in Hk. replace (0 + k * 2) with (2 * k) in * by lia.
      replace (0 + (k + 1) * 2) with (2 * k + 2) by lia.
      split; [reflexivity|]. apply row_filled_store64; auto; lia.
    - intros [m' col'] [-> Hr]. unfold trips in *. cbn [loop_state fst snd].
      replace (w - 1 - 0 + 2 - 1) with w in * by lia.
      pose proof (Z.div_mod w 2 ltac:(lia)). pose proof (Z.mod_pos_bound w 2 ltac:(lia)).
      pose proof (Z.div_pos w 2 ltac:(lia) ltac:(lia)).
      rewrite Z2Nat.id in * by lia. split; [exact Hr | lia]. }
  destruct first as [m1 col]. cbn [fst snd] in H1. destruct H1 as [Hr Hcol].
  apply (range_loop_ind (fun k m' => row_filled m m' p k c)
           (fun r : ctl mem mem => row_filled m (loop_state r) p w c)); [lia | exact Hr | |auto].
  intros k m' Hk Hm. apply row_filled_store32; [lia | exact Hm].
Qed.

(** ** Pixels *)

Definition pixel (f : fb_mode) (m : mem) (x y : Z) : Z := load32 m (pixel_address f x y).

Definition on_screen (f : fb_mode) (x y : Z) : Prop := 0 <= x < fm_width f /\ 0 <= y < fm_height f.

Definition in_video (f : fb_mode) (a : Z) : Prop :=
  fm_base f <= a < fm_base f + fm_height f * fm_pitch f.

(** Lines do not overlap. *)
Definition pitch_ok (f : fb_mode) : Prop := 0 <= fm_width f /\ 0 <= fm_height f /\ 4 * fm_width f <= fm_pitch f.

(** [m'] is [m] with the pixels of [paint] painted, and nothing outside video
    memory changed. *)
Definition paints (f : fb_mode) (m m' : mem) (paint : Z -> Z -> option Z) : Prop :=
  (forall x y, on_screen f x y ->
     pixel f m' x y = match paint x y with Some c => c | None => pixel f m x y end)
  /\ (forall a, ~ in_video f a -> m' a = m a).

Definition no_paint : Z -> Z -> option Z := fun _ _ => None.
Definition over (p2 p1 : Z -> Z -> option Z) : Z -> Z -> option Z :=
  fun x y => match p2 x y with Some c => Some c | None => p1 x y end.
Definition rect (x0 y0 w h c : Z) : Z -> Z -> option Z := fun x y =>
  if (x0 <=? x) && (x <? x0 + w) && (y0 <=? y) && (y <? y0 + h) then Some c else None.

Lemma paints_refl f m : paints f m m no_paint.
Proof. split; reflexivity. Qed.

Lemma paints_trans f m m1 m2 p1 p2 :
  paints f m m1 p1 -> paints f m1 m2 p2 -> paints f m m2 (over p2 p1).
Proof.
  intros [P1 F1] [P2 F2]. split.
  - intros x y Ho. rewrite P2, P1 by exact Ho. unfold over. destruct (p2 x y); reflexivity.
  - intros a Ha. rewrite F2, F1 by exact Ha. reflexivity.
Qed.

Lemma paints_ext f m m' p q :
  (forall x y, on_screen f x y -> p x y = q x y) -> paints f m m' p -> paints f m m' q.
Proof. intros E [P F]. split; [|exact F]. intros x y Ho. rewrite P, E by exact Ho. reflexivity. Qed.

Lemma load32_color m a c :
  0 <= c < 4294967296 -> (forall k, 0 <= k < 4 -> m (a + k) = color_byte c k) -> load32 m a = c.
Proof.
  intros Hc H. unfold load.
  assert (E : mem_read m a 4 = le_bytes 4 c).
  { apply nth_ext with (d := 0) (d' := 0); [rewrite mem_read_length, le_bytes_length; reflexivity|].
    intros i Hi. rewrite mem_read_length in Hi. rewrite mem_read_nth, H by lia.
    unfold color_byte. rewrite Nat2Z.id. apply u8_id.
    pose proof (le_bytes_byte 4 c) as F. rewrite List.Forall_forall in F. apply F, nth_In.
    rewrite le_bytes_length. exact Hi. }
  rewrite E, le_word_le_bytes. change (256 ^ Z.of_nat 4) with 4294967296. apply Z.mod_small. exact Hc.
Qed.

Lemma row_paints f m m' x y w c :
  pitch_ok f -> 0 <= c < 4294967296 -> 0 <= x -> 0 <= w -> x + w <= fm_width f -> 0 <= y < fm_height f ->
  row_filled m m' (pixel_address f x y) w c -> paints f m m' (rect x y w 1 c).
Proof.
  intros (Hw0 & Hh0 & Hp) Hc Hx Hw Hxw Hy Hr. unfold pixel_address in Hr. split.
  - intros x' y' [Hx' Hy']. unfold pixel, rect, pixel_address.
    destruct (Z.leb_spec x x'), (Z.ltb_spec x' (x + w)), (Z.leb_spec y y'), (Z.ltb_spec y' (y + 1));
      cbn [andb].
    1: { assert (y' = y) by lia. subst y'. apply load32_color; [exact Hc|]. intros k Hk. rewrite Hr.
         destruct (Z.leb_spec (fm_base f + y * fm_pitch f + x * 4) (fm_base f + y * fm_pitch f + x' * 4 + k)),
           (Z.ltb_spec (fm_base f + y * fm_pitch f + x' * 4 + k) (fm_base f + y * fm_pitch f + x * 4 + 4 * w));
           cbn [andb]; try lia.
         f_equal. symmetry. apply (Z.mod_unique _ _ (x' - x)); lia. }
    all: unfold load; f_equal; apply mem_read_ext; intros k Hk; f_equal; rewrite Hr;
      match goal with |- context [(?p <=? ?a) && (?a <? ?q)] =>
        destruct (Z.leb_spec p a), (Z.ltb_spec a q) end; cbn [andb]; try reflexivity; exfalso; nia.
  - intros a Ha. rewrite Hr. unfold in_video in Ha.
    match goal with |- context [(?p <=? ?a) && (?a <? ?q)] =>
      destruct (Z.leb_spec p a), (Z.ltb_spec a q) end; cbn [andb]; try reflexivity. exfalso. nia.
Qed.

Lemma fill_span_paints f m x y w c :
  pitch_ok f -> 0 <= c < 4294967296 -> 0 <= x -> 0 <= w -> x + w <= fm_width f -> 0 <= y < fm_height f ->
  paints f m (fill_span f m x y w c) (rect x y w 1 c).
Proof. intros. apply row_paints; auto. apply fill_row_filled; assumption. Qed.

Lemma clear_rect_paints f m x y w h c :
  pitch_ok f -> 0 <= c < 4294967296 -> 0 <= x -> 0 <= w -> x + w <= fm_width f ->
  0 <= y -> 0 <= h -> y + h <= fm_height f ->
  paints f m (clear_rect_color f m x y w h c) (rect x y w h c).
Proof.
  intros Hp Hc Hx Hw Hxw Hy Hh Hyh. unfold clear_rect_color.
  apply (range_loop_ind (fun k m' => paints f m m' (rect x y w k c))
           (fun r : ctl mem mem => paints f m (loop_state r) (rect x y w h c))); [exact Hh | | |auto].
  - apply (paints_ext f m m no_paint); [|apply paints_refl]. intros x' y' _. unfold rect, no_paint. boxes.
  - intros k m' Hk Hm.
    refine (paints_ext f m _ _ _ _ (paints_trans f m m' _ _ _ Hm
              (row_paints f m' _ x (y + k) w c Hp Hc Hx Hw Hxw ltac:(lia) (fill_row_filled _ _ _ _ Hw Hc)))).
    intros x' y' _. unfold over, rect. boxes.
Qed.

(** ** Glyphs *)

Section Glyphs.
Context `{Font}.
Context (HW : 0 < FONT_WIDTH <= 8) (HH : 0 < FONT_HEIGHT).

Lemma run_end_spec row fuel : forall g,
  g < FONT_WIDTH -> glyph_bit row g = true -> FONT_WIDTH - g <= Z.of_nat fuel ->
  g < run_end fuel row g <= FONT_WIDTH
  /\ forall k, g <= k < run_end fuel row g -> glyph_bit row k = true.
Proof.
  induction fuel as [|fuel IH]; intros g Hg Hb Hf; [lia|]. cbn [run_end].
  destruct (Z.leb_spec FONT_WIDTH (g + 1)) as [Hl|Hl].
  - split; [lia|]. intros k Hk. replace k with g by lia. exact Hb.
  - destruct (glyph_bit row (g + 1)) eqn:E.
    + destruct (IH (g + 1) Hl E ltac:(lia)) as [H1 H2]. split; [lia|]. intros k Hk.
      destruct (Z.eq_dec k g) as [->|]; [exact Hb | apply H2; lia].
    + split; [lia|]. intros k Hk. replace k with g by lia. exact Hb.
Qed.

(** The pixels of the runs of a row that start at column [from] or later. *)
Definition runs_paint (row x py fg from : Z) : Z -> Z -> option Z := fun X Y =>
  if (py <=? Y) && (Y <? py + 2) && (x + 1 + 2 * from <=? X) && (X <? x + 1 + 2 * FONT_WIDTH)
     && glyph_bit row ((X - x - 1) / 2)
  then Some fg else None.

Lemma spans_paint f m px py w fg :
  pitch_ok f -> 0 <= fg < 4294967296 -> 0 <= px -> 0 <= w -> px + w <= fm_width f ->
  0 <= py -> py + 2 <= fm_height f ->
  paints f m (loop_state (range_loop 0 FONT_SCALE 1 (fun dy m => Cont (fill_span f m px (py + dy) w fg)) m))
    (rect px py w 2 fg).
Proof.
  intros Hp Hc Hx Hw Hxw Hy Hyh. unfold FONT_SCALE, range_loop. change (trips 0 2 1) with 2%nat.
  cbn [for_loop loop_state].
  refine (paints_ext f m _ _ _ _ (paints_trans f m _ _ _ _
     (fill_span_paints f m px (py + 0) w fg Hp Hc Hx Hw Hxw ltac:(lia))
     (fill_span_paints f _ px (py + (0 + 1)) w fg Hp Hc Hx Hw Hxw ltac:(lia)))).
  intros X Y _. unfold over, rect.
  boxes.
Qed.

Lemma draw_runs_paints f row x py fg :
  pitch_ok f -> 0 <= fg < 4294967296 -> 0 <= x -> x + 1 + 2 * FONT_WIDTH <= fm_width f ->
  0 <= py -> py + 2 <= fm_height f ->
  forall fuel m from, 0 <= from <= FONT_WIDTH -> FONT_WIDTH - from <= Z.of_nat fuel ->
  paints f m (draw_runs fuel f m row x py fg from) (runs_paint row x py fg from).
Proof.
  intros Hp Hc Hx Hxw Hy Hyh.
  assert (Hend : forall m from, FONT_WIDTH <= from -> paints f m m (runs_paint row x py fg from)).
  { intros m from Hf. apply (paints_ext f m m no_paint); [|apply paints_refl]. intros X Y _. unfold runs_paint, no_paint.
    destruct (Z.leb_spec (x + 1 + 2 * from) X), (Z.ltb_spec X (x + 1 + 2 * FONT_WIDTH));
      rewrite ?andb_false_r; cbn [andb]; try lia; reflexivity. }
  induction fuel as [|fuel IH]; intros m from Hfr Hf; cbn [draw_runs]; [apply Hend; lia|].
  destruct (Z.ltb_spec from FONT_WIDTH) as [Hlt|Hge]; [|apply Hend; lia].
  destruct (glyph_bit row from) eqn:Hb; cbn [negb].
  - destruct (run_end_spec row (Z.to_nat FONT_WIDTH) from Hlt Hb ltac:(lia)) as [He Hbits].
    set (e := run_end (Z.to_nat FONT_WIDTH) row from) in *. unfold FONT_SCALE at 2 3.
    refine (paints_ext f m _ _ _ _ (paints_trans f m _ _ _ _
      (spans_paint f m (x + 1 + from * 2) py ((e - from) * 2) fg Hp Hc ltac:(lia) ltac:(lia) ltac:(lia) Hy Hyh)
      (IH _ e ltac:(lia) ltac:(lia)))).
    intros X Y _. unfold over, runs_paint, rect.
    assert (Hq : x + 1 + 2 * from <= X -> X < x + 1 + 2 * e -> glyph_bit row ((X - x - 1) / 2) = true).
    { intros H1 H2. apply Hbits. split; [apply Z.div_le_lower_bound; lia | apply Z.div_lt_upper_bound; lia]. }
    destruct (Z.leb_spec py Y), (Z.ltb_spec Y (py + 2)), (Z.leb_spec (x + 1 + 2 * e) X),
      (Z.ltb_spec X (x + 1 + 2 * FONT_WIDTH)), (Z.leb_spec (x + 1 + 2 * from) X),
      (Z.leb_spec (x + 1 + from * 2) X), (Z.ltb_spec X (x + 1 + from * 2 + (e - from) * 2)); cbn [andb];
      try lia; try reflexivity; try (destruct (glyph_bit row ((X - x - 1) / 2)); reflexivity);
      rewrite Hq by lia; reflexivity.
  - refine (paints_ext f m _ _ _ _ (IH m (from + 1) ltac:(lia) ltac:(lia))).
    intros X Y _. unfold runs_paint.
    boxes.
    replace ((X - x - 1) / 2) with from; [rewrite Hb; reflexivity|].
    apply (Z.div_unique _ 2 from (X - x - 1 - 2 * from)); lia.
Qed.

(** The colour of a pixel of a cell. *)
Definition cell_pixel (cell : framebuffer_cell) (dx dy : Z) : Z :=
  if negb (ce_ch cell =? 32) && (1 <=? dx) && (dx <? 1 + 2 * FONT_WIDTH) && (1 <=? dy) && (dy <? 1 + 2 * FONT_HEIGHT)
     && glyph_bit (glyph_for (ce_ch cell) ((dy - 1) / 2)) ((dx - 1) / 2)
  then ce_fg cell else ce_bg cell.

Definition cell_paint (col row : Z) (cell : framebuffer_cell) : Z -> Z -> option Z := fun X Y =>
  let dx := X - col * CELL_WIDTH in
  let dy := Y - row * CELL_HEIGHT in
  if (0 <=? dx) && (dx <? CELL_WIDTH) && (0 <=? dy) && (dy <? CELL_HEIGHT)
  then Some (cell_pixel cell dx dy) else None.

Definition cell_ok (cell : framebuffer_cell) : Prop :=
  0 <= ce_fg cell < 4294967296 /\ 0 <= ce_bg cell < 4294967296.

Lemma draw_cell_paints f m col row cell :
  pitch_ok f -> cell_ok cell -> 0 <= col -> (col + 1) * CELL_WIDTH <= fm_width f ->
  0 <= row -> (row + 1) * CELL_HEIGHT <= fm_height f ->
  paints f m (draw_cell_at f m col row cell) (cell_paint col row cell).
Proof.
  intros Hp [Hfg Hbg] Hc Hcw Hr Hrh. unfold draw_cell_at, CELL_WIDTH, CELL_HEIGHT, FONT_SCALE in *.
  set (x := col * ((FONT_WIDTH + 1) * 2)). set (y := row * ((FONT_HEIGHT + 1) * 2)).
  assert (Hx : 0 <= x) by (unfold x; nia). assert (Hy : 0 <= y) by (unfold y; nia).
  assert (Hxw : x + (FONT_WIDTH + 1) * 2 <= fm_width f) by (unfold x; lia).
  assert (Hyh : y + (FONT_HEIGHT + 1) * 2 <= fm_height f) by (unfold y; lia).
  assert (P0 : paints f m (clear_rect_color f m x y ((FONT_WIDTH + 1) * 2) ((FONT_HEIGHT + 1) * 2) (ce_bg cell))
                 (rect x y ((FONT_WIDTH + 1) * 2) ((FONT_HEIGHT + 1) * 2) (ce_bg cell)))
    by (apply clear_rect_paints; assumption || lia).
  assert (Hin : forall X Y, cell_paint col row cell X Y
      = if (x <=? X) && (X <? x + (FONT_WIDTH + 1) * 2) && (y <=? Y) && (Y <? y + (FONT_HEIGHT + 1) * 2)
        then Some (cell_pixel cell (X - x) (Y - y)) else None).
  { intros X Y. unfold cell_paint, CELL_WIDTH, CELL_HEIGHT, FONT_SCALE. fold x. fold y.
    boxes. }
  destruct (ce_ch cell =? 32) eqn:Esp.
  - apply (paints_ext f m _ _ _ (fun X Y _ => eq_sym (Hin X Y))).
    refine (paints_ext f m _ _ _ _ P0). intros X Y _. unfold rect, cell_pixel. rewrite Esp. reflexivity.
  - apply (paints_ext f m _ _ _ (fun X Y _ => eq_sym (Hin X Y))).
    set (upto := fun (k : Z) X Y =>
      if (x <=? X) && (X <? x + (FONT_WIDTH + 1) * 2) && (y <=? Y) && (Y <? y + (FONT_HEIGHT + 1) * 2)
      then Some (if Y <? y + 1 + 2 * k then cell_pixel cell (X - x) (Y - y) else ce_bg cell) else None).
    apply (range_loop_ind (fun k m' => paints f m m' (upto k))
             (fun r : ctl mem mem => paints f m (loop_state r) _)); [lia| | |].
    + refine (paints_ext f m _ _ _ _ P0). intros X Y _. unfold upto, rect, cell_pixel. rewrite Esp.
      destruct (Z.ltb_spec Y (y + 1 + 2 * 0)); [|reflexivity].
      destruct (Z.leb_spec 1 (Y - y)); [lia|]. rewrite !andb_false_r. reflexivity.
    + intros k m' Hk Hm.
      refine (paints_ext f m _ _ _ _ (paints_trans f m m' _ _ _ Hm
        (draw_runs_paints f (glyph_for (ce_ch cell) k) x (y + 1 + k * 2) (ce_fg cell) Hp Hfg Hx ltac:(lia)
           ltac:(lia) ltac:(lia) (Z.to_nat FONT_WIDTH) m' 0 ltac:(lia) ltac:(lia)))).
      intros X Y _. unfold over, runs_paint, upto, cell_pixel. rewrite Esp. cbn [negb andb].
      destruct (Z.leb_spec (y + 1 + k * 2) Y) as [H1|H1], (Z.ltb_spec Y (y + 1 + k * 2 + 2)) as [H2|H2]; cbn [andb].
      2-4: destruct (Z.ltb_spec Y (y + 1 + 2 * k)), (Z.ltb_spec Y (y + 1 + 2 * (k + 1))); lia || reflexivity.
      replace ((Y - y - 1) / 2) with k by (apply (Z.div_unique _ 2 k (Y - y - 1 - 2 * k)); lia).
      boxes; destruct (glyph_bit (glyph_for (ce_ch cell) k) ((X - x - 1) / 2)); reflexivity.
    + intros m' Hm. cbn [loop_state]. refine (paints_ext f m _ _ _ _ Hm). intros X Y _. unfold upto.
      destruct (Z.ltb_spec Y (y + 1 + 2 * FONT_HEIGHT)); [reflexivity|].
      unfold cell_pixel. destruct (Z.ltb_spec (Y - y) (1 + 2 * FONT_HEIGHT)); [lia|].
      rewrite !andb_false_r. cbn [andb]. reflexivity.
Qed.
End Glyphs.
