(* ===== verification/TextGrid.v ===== *)
(** * The abstract text console

    What the framebuffer console promises: a grid of cells with a cursor, and
    what each character does to them. There are no pixels, no batches and no
    pending redraws here. *)

From S2P Require Import Prelude Framebuffer.

Record text : Type := mk_text {
  tx_cells : Z -> Z -> framebuffer_cell;
  tx_col : Z; tx_row : Z;
  tx_fg : Z; tx_bg : Z
}.

Definition blank (t : text) : framebuffer_cell := mk_cell 32 (tx_fg t) (tx_bg t).

Definition move_to (t : text) (col row : Z) : text :=
  mk_text (tx_cells t) col row (tx_fg t) (tx_bg t).

Definition text_set (t : text) (row col : Z) (cell : framebuffer_cell) : text :=
  mk_text (put_cell (tx_cells t) row col cell) (tx_col t) (tx_row t) (tx_fg t) (tx_bg t).

Section Grid.
Context (rows cols : Z).

(** Every row moves up by one and the last becomes blank. *)
Definition text_scroll (t : text) : text :=
  mk_text (fun row col => if row =? rows - 1 then blank t else tx_cells t (row + 1) col)
    (tx_col t) (tx_row t) (tx_fg t) (tx_bg t).

Definition text_newline (t : text) : text :=
  if tx_row t + 1 <? rows then move_to t 0 (tx_row t + 1)
  else move_to (text_scroll t) 0 (rows - 1).

(** A printed character: the line is broken as soon as it is full. *)
Definition text_print (t : text) (ch : Z) : text :=
  let t' := text_set t (tx_row t) (tx_col t) (mk_cell ch (tx_fg t) (tx_bg t)) in
  if tx_col t + 1 <? cols then move_to t' (tx_col t + 1) (tx_row t) else text_newline t'.

Definition text_plain (t : text) (ch : Z) : text :=
  if ch =? 10 then text_newline t
  else if ch =? 13 then move_to t 0 (tx_row t)
  else if ch =? 8 then
    if 0 <? tx_col t
    then text_set (move_to t (tx_col t - 1) (tx_row t)) (tx_row t) (tx_col t - 1) (blank t)
    else t
  else if ch <? 32 then t
  else text_print t ch.

Definition tab_stop (col : Z) : Z := 4 * (col / 4 + 1).

Fixpoint text_spaces (n : nat) (t : text) : text :=
  match n with
  | O => t
  | S n => text_spaces n (text_print t 32)
  end.

(** [None] is a console that never answers: a tab whose stop is not before the
    last column. *)
Definition text_put (t : text) (ch : Z) : option text :=
  if ch =? 9 then
    let stop := tab_stop (tx_col t) in
    if stop <? cols then Some (text_spaces (Z.to_nat (stop - tx_col t)) t) else None
  else Some (text_plain t ch).

Fixpoint text_write (t : text) (s : list Z) : option text :=
  match s with
  | [] => Some t
  | ch :: s => match text_put t ch with Some t => text_write t s | None => None end
  end.
End Grid.

(** ** Operations of the console *)

Inductive fb_op : Type :=
  | FbPutchar (ch : Z)
  | FbWrite (s : list Z)
  | FbClear
  | FbColor (red green blue : Z)
  | FbBackground (red green blue : Z).

(** The text that clearing leaves, whatever was there. *)
Definition text_clear (fg bg : Z) : text := mk_text (fun _ _ => mk_cell 32 fg bg) 0 0 fg bg.

(** [color] is the mapping of components to the pixel format. *)
Definition text_op (rows cols : Z) (color : Z -> Z -> Z -> Z) (t : text) (op : fb_op) : option text :=
  match op with
  | FbPutchar ch => text_put rows cols t ch
  | FbWrite s => text_write rows cols t s
  | FbClear => Some (text_clear (tx_fg t) (tx_bg t))
  | FbColor r g b => Some (mk_text (tx_cells t) (tx_col t) (tx_row t) (color r g b) (tx_bg t))
  | FbBackground r g b => Some (mk_text (tx_cells t) (tx_col t) (tx_row t) (tx_fg t) (color r g b))
  end.

Fixpoint text_ops (rows cols : Z) (color : Z -> Z -> Z -> Z) (t : text) (ops : list fb_op) : option text :=
  match ops with
  | [] => Some t
  | op :: ops => match text_op rows cols color t op with Some t => text_ops rows cols color t ops | None => None end
  end.

Section Run.
Context `{Font}.

(** The same operations of the framebuffer console. *)
Definition fb_run_op (fuel : nat) (c : console) (op : fb_op) : res console :=
  match op with
  | FbPutchar ch => framebuffer_console_putchar fuel c ch
  | FbWrite s => framebuffer_console_write fuel c s
  | FbClear => Ret (framebuffer_console_clear c)
  | FbColor r g b => Ret (framebuffer_console_set_color c r g b)
  | FbBackground r g b => Ret (framebuffer_console_set_background c r g b)
  end.

Fixpoint fb_run (fuel : nat) (c : console) (ops : list fb_op) : res console :=
  match ops with
  | [] => Ret c
  | op :: ops => fb_run_op fuel c op ≫= fun c => fb_run fuel c ops
  end.
End Run.
