(* ===== verification/FramebufferProofs.v ===== *)
(** * The framebuffer console: the screen shows the text

    The console is related to an abstract text grid with a cursor: the cells of
    the console are the grid, and, unless a redraw is pending, the pixels are the
    glyphs of the grid. Every operation keeps the relation and never writes
    outside video memory; a tab that would reach the last column never ends. *)

From S2P Require Import Prelude Framebuffer Pixels TextGrid.

Section Screen.
Context `{Font}.
Context (HW : 0 < FONT_WIDTH <= 8) (HH : 0 < FONT_HEIGHT).

(** The geometry that initialisation computes, for a screen that fits [cells]. *)
Record mode_ok (f : fb_mode) : Prop := {
  mo_pitch : pitch_ok f;
  mo_cols : 0 < fm_cols f;
  mo_rows : 0 < fm_rows f;
  mo_width : fm_cols f * CELL_WIDTH <= fm_width f;
  mo_height : fm_rows f * CELL_HEIGHT <= fm_height f;
  mo_backing : fm_backing_ready f = true
}.

Lemma cell_size_pos : 0 < CELL_WIDTH /\ 0 < CELL_HEIGHT.
Proof. clear - HW HH. unfold CELL_WIDTH, CELL_HEIGHT, FONT_SCALE. lia. Qed.

Definition in_grid (f : fb_mode) (row col : Z) : Prop := 0 <= row < fm_rows f /\ 0 <= col < fm_cols f.

Definition in_cell (dx dy : Z) : Prop := 0 <= dx < CELL_WIDTH /\ 0 <= dy < CELL_HEIGHT.

(** The pixels of position ([row], [col]) are those of [cell]. *)
Definition shows_cell (f : fb_mode) (m : mem) (row col : Z) (cell : framebuffer_cell) : Prop :=
  forall dx dy, in_cell dx dy ->
    pixel f m (col * CELL_WIDTH + dx) (row * CELL_HEIGHT + dy) = cell_pixel cell dx dy.

Definition shows_cells (f : fb_mode) (m : mem) (cells : Z -> Z -> framebuffer_cell) : Prop :=
  forall row col, in_grid f row col -> shows_cell f m row col (cells row col).

(** Nothing outside video memory differs. *)
Definition frame_kept (f : fb_mode) (m m' : mem) : Prop := forall a, ~ in_video f a -> m' a = m a.

Lemma grid_on_screen f row col dx dy :
  mode_ok f -> in_grid f row col -> in_cell dx dy ->
  on_screen f (col * CELL_WIDTH + dx) (row * CELL_HEIGHT + dy).
Proof.
  intros [Hp Hc Hr Hw Hh _] [Hrow Hcol] [Hdx Hdy]. unfold on_screen. split; nia.
Qed.

Lemma cell_paint_own col row cell dx dy :
  in_cell dx dy ->
  cell_paint col row cell (col * CELL_WIDTH + dx) (row * CELL_HEIGHT + dy) = Some (cell_pixel cell dx dy).
Proof.
  intros [Hdx Hdy]. unfold cell_paint.
  replace (col * CELL_WIDTH + dx - col * CELL_WIDTH) with dx by lia.
  replace (row * CELL_HEIGHT + dy - row * CELL_HEIGHT) with dy by lia. boxes.
Qed.

(** A point of one cell is beside every other cell. *)
Lemma cells_apart row col k r dx dy :
  in_cell dx dy -> (r, k) <> (row, col) ->
  k * CELL_WIDTH + dx < col * CELL_WIDTH \/ col * CELL_WIDTH + CELL_WIDTH <= k * CELL_WIDTH + dx
  \/ r * CELL_HEIGHT + dy < row * CELL_HEIGHT \/ row * CELL_HEIGHT + CELL_HEIGHT <= r * CELL_HEIGHT + dy.
Proof.
  intros [Hdx Hdy] Hne.
  assert (Hs : k <= col - 1 \/ col + 1 <= k \/ r <= row - 1 \/ row + 1 <= r).
  { destruct (Z.lt_trichotomy k col) as [?|[->|?]]; [lia| |lia].
    destruct (Z.lt_trichotomy r row) as [?|[->|?]]; [lia|congruence|lia]. }
  destruct Hs as [?|[?|[?|?]]]; [left | right; left | do 2 right; left | do 3 right]; nia.
Qed.

Lemma cell_paint_other col row cell k r dx dy :
  in_cell dx dy -> (r, k) <> (row, col) ->
  cell_paint col row cell (k * CELL_WIDTH + dx) (r * CELL_HEIGHT + dy) = None.
Proof. intros Hd Hne. pose proof (cells_apart row col k r dx dy Hd Hne). unfold cell_paint. boxes. Qed.

Lemma grid_bounds f row col :
  mode_ok f -> in_grid f row col ->
  0 <= col * CELL_WIDTH /\ (col + 1) * CELL_WIDTH <= fm_width f /\ 0 < CELL_WIDTH
  /\ 0 <= row * CELL_HEIGHT /\ (row + 1) * CELL_HEIGHT <= fm_height f /\ 0 < CELL_HEIGHT.
Proof.
  intros [Hp _ _ Hw Hh _] [Hr Hk].
  destruct cell_size_pos. repeat split; nia.
Qed.

Lemma draw_in_grid f m row col cell :
  mode_ok f -> cell_ok cell -> in_grid f row col ->
  paints f m (draw_cell_at f m col row cell) (cell_paint col row cell).
Proof.
  intros Hm Hc Hg. pose proof (grid_bounds f row col Hm Hg) as (? & ? & ? & ? & ? & ?). destruct Hm, Hg.
  apply draw_cell_paints; assumption || lia.
Qed.

Lemma draw_cell_shows f m row col cell :
  mode_ok f -> cell_ok cell -> in_grid f row col ->
  shows_cell f (draw_cell_at f m col row cell) row col cell.
Proof.
  intros Hm Hc Hg dx dy Hd. rewrite (proj1 (draw_in_grid f m row col cell Hm Hc Hg))
    by (apply grid_on_screen; assumption).
  rewrite cell_paint_own by exact Hd. reflexivity.
Qed.

Lemma draw_cell_other f m row col cell r k cell' :
  mode_ok f -> cell_ok cell -> in_grid f row col -> in_grid f r k -> (r, k) <> (row, col) ->
  shows_cell f m r k cell' -> shows_cell f (draw_cell_at f m col row cell) r k cell'.
Proof.
  intros Hm Hc Hg Hg' Hne Hs dx dy Hd. rewrite (proj1 (draw_in_grid f m row col cell Hm Hc Hg))
    by (apply grid_on_screen; assumption).
  rewrite cell_paint_other by assumption. apply Hs. exact Hd.
Qed.

Lemma draw_cell_frame f m row col cell :
  mode_ok f -> cell_ok cell -> in_grid f row col -> frame_kept f m (draw_cell_at f m col row cell).
Proof. intros Hm Hc Hg. exact (proj2 (draw_in_grid f m row col cell Hm Hc Hg)). Qed.

(** ** Redrawing the whole grid *)

Lemma frame_kept_trans f m m1 m2 : frame_kept f m m1 -> frame_kept f m1 m2 -> frame_kept f m m2.
Proof. intros F1 F2 a Ha. rewrite (F2 a Ha). apply F1. exact Ha. Qed.

(** The cells drawn when the loops are at row [R] and column [K]. *)
Definition drawn (f : fb_mode) (m0 : mem) (cells : Z -> Z -> framebuffer_cell) (R K : Z) (m : mem) : Prop :=
  frame_kept f m0 m
  /\ forall row col, in_grid f row col -> row < R \/ (row = R /\ col < K) -> shows_cell f m row col (cells row col).

Lemma drawn_step f m0 cells R K m :
  mode_ok f -> in_grid f R K -> cell_ok (cells R K) -> drawn f m0 cells R K m ->
  drawn f m0 cells R (K + 1) (draw_cell_at f m K R (cells R K)).
Proof.
  intros Hm Hg Hc [F D]. split; [eapply frame_kept_trans; [exact F | apply draw_cell_frame; assumption]|].
  intros row col Hg' Hlt. destruct (decide ((row, col) = (R, K))) as [[= -> ->]|Hne].
  - apply draw_cell_shows; assumption.
  - apply draw_cell_other; try assumption. apply D; [assumption|].
    destruct Hlt as [?|[-> ?]]; [left; assumption|]. right. split; [reflexivity|].
    assert (col <> K) by congruence. lia.
Qed.

Definition cells_ok (f : fb_mode) (cells : Z -> Z -> framebuffer_cell) : Prop :=
  forall row col, in_grid f row col -> cell_ok (cells row col).

Lemma drawn_row f m0 cells R m :
  mode_ok f -> cells_ok f cells -> 0 <= R < fm_rows f -> drawn f m0 cells R 0 m ->
  drawn f m0 cells (R + 1) 0
    (loop_state (range_loop 0 (fm_cols f) 1 (fun col m => Cont (draw_cell_at f m col R (cells R col))) m)).
Proof.
  intros Hm Hc HR HD. pose proof (mo_cols _ Hm).
  apply (range_loop_ind (fun K m => drawn f m0 cells R K m)
           (fun r : ctl mem mem => drawn f m0 cells (R + 1) 0 (loop_state r))); [lia | exact HD | |].
  - intros k m' Hk Hd.
    assert (in_grid f R k) by (unfold in_grid; lia). apply drawn_step; auto.
  - intros m' [F D]. split; [exact F|]. intros row col Hg Hlt. apply D; [exact Hg|]. unfold in_grid in Hg. lia.
Qed.

Lemma redraw_shows f m cells :
  mode_ok f -> cells_ok f cells ->
  let m' := loop_state (range_loop 0 (fm_rows f) 1 (fun row m =>
              Cont (loop_state (range_loop 0 (fm_cols f) 1 (fun col m =>
                Cont (draw_cell_at f m col row (cells row col))) m))) m) in
  shows_cells f m' cells /\ frame_kept f m m'.
Proof.
  intros Hm Hc. pose proof (mo_rows _ Hm).
  apply (range_loop_ind (fun R m' => drawn f m cells R 0 m')
           (fun r : ctl mem mem => shows_cells f (loop_state r) cells /\ frame_kept f m (loop_state r))); [lia| | |].
  - split; [intros a _; reflexivity|]. unfold in_grid. lia.
  - intros k m' Hk Hd.
    apply drawn_row; auto.
  - intros m' [F D]. split; [|exact F]. intros row col Hg. apply D; [exact Hg|]. unfold in_grid in Hg. lia.
Qed.

(** A rectangle of the background that covers a cell shows a blank. *)
Lemma rect_shows_blank f m m' x y w h row col fg bg :
  mode_ok f -> in_grid f row col -> paints f m m' (rect x y w h bg) ->
  x <= col * CELL_WIDTH -> (col + 1) * CELL_WIDTH <= x + w ->
  y <= row * CELL_HEIGHT -> (row + 1) * CELL_HEIGHT <= y + h ->
  shows_cell f m' row col (mk_cell 32 fg bg).
Proof.
  intros Hm Hg [P _] H1 H2 H3 H4 dx dy Hd. rewrite P by (apply grid_on_screen; assumption).
  destruct Hd as [Hdx Hdy]. unfold rect, cell_pixel. cbn [ce_ch ce_bg]. change (negb (32 =? 32)) with false. cbn [andb].
  boxes.
Qed.

Lemma rect_spares f m m' row col bg r k cell :
  mode_ok f -> in_grid f r k -> (r, k) <> (row, col) ->
  paints f m m' (rect (col * CELL_WIDTH) (row * CELL_HEIGHT) CELL_WIDTH CELL_HEIGHT bg) ->
  shows_cell f m r k cell -> shows_cell f m' r k cell.
Proof.
  intros Hm Hg Hne [P _] Hs dx dy Hd. rewrite P by (apply grid_on_screen; assumption).
  rewrite <- (Hs dx dy Hd). pose proof (cells_apart row col k r dx dy Hd Hne). unfold rect. boxes.
Qed.
(** ** The console and the text *)

Definition text_ok (f : fb_mode) (t : text) : Prop :=
  cells_ok f (tx_cells t) /\ in_grid f (tx_row t) (tx_col t)
  /\ 0 <= tx_fg t < 4294967296 /\ 0 <= tx_bg t < 4294967296.

(** The console [c] of geometry [f] holds the text [t], and shows it unless a
    redraw is pending; video memory apart, memory is [m0]. *)
Record shown (f : fb_mode) (m0 : mem) (batch : bool) (c : console) (t : text) : Prop := {
  sh_mode : co_mode c = f;
  sh_ready : co_ready c = true;
  sh_batch : co_batch_active c = batch;
  sh_fg : co_fg c = tx_fg t;
  sh_bg : co_bg c = tx_bg t;
  sh_col : co_cursor_col c = tx_col t;
  sh_row : co_cursor_row c = tx_row t;
  sh_cells : forall row col, in_grid f row col -> co_cells c row col = tx_cells t row col;
  sh_pixels : co_redraw_deferred c = false -> shows_cells f (co_mem c) (tx_cells t);
  sh_frame : frame_kept f m0 (co_mem c);
  sh_text : text_ok f t
}.

Lemma shows_cells_ext f m cells cells' :
  (forall row col, in_grid f row col -> cells row col = cells' row col) ->
  shows_cells f m cells -> shows_cells f m cells'.
Proof. intros E Hs row col Hg. rewrite <- E by exact Hg. apply Hs. exact Hg. Qed.

Lemma shown_cursor f m0 b c t col row :
  in_grid f row col -> shown f m0 b c t -> shown f m0 b (with_cursor c col row) (move_to t col row).
Proof.
  intros Hg [Hf Hr Hb H1 H2 H3 H4 H5 H6 H7 (H8 & _ & H9)]. split; cbn; auto. repeat split; cbn; apply H8 || apply Hg || apply H9; auto.
Qed.
(** ** Scrolling and redrawing *)

Lemma clear_row_cells f cells fg bg row r k :
  0 < fm_cols f -> 0 <= k < fm_cols f ->
  loop_state (range_loop 0 (fm_cols f) 1 (fun col cells =>
    Cont (put_cell cells row col (mk_cell 32 fg bg))) cells) r k
  = if r =? row then mk_cell 32 fg bg else cells r k.
Proof.
  intros Hc Hk.
  apply (range_loop_ind
    (fun K cells' => cells' r k = if (r =? row) && (k <? K) then mk_cell 32 fg bg else cells r k)
    (fun x : ctl _ _ => loop_state x r k = if r =? row then mk_cell 32 fg bg else cells r k)); [lia| | |].
  - destruct (Z.ltb_spec k 0); [lia|]. rewrite andb_false_r. reflexivity.
  - intros K cells' HK E. unfold put_cell. rewrite E.
    destruct (r =? row), (Z.eqb_spec k K), (Z.ltb_spec k K), (Z.ltb_spec k (K + 1)); cbn [andb]; lia || reflexivity.
  - intros cells' E. cbn [loop_state]. rewrite E. destruct (Z.ltb_spec k (fm_cols f)); [|lia].
    rewrite andb_true_r. reflexivity.
Qed.

Lemma shift_row_cells f cells row r k :
  0 < fm_cols f -> 0 <= k < fm_cols f ->
  loop_state (range_loop 0 (fm_cols f) 1 (fun col cells =>
    Cont (put_cell cells (row - 1) col (cells row col))) cells) r k
  = if r =? row - 1 then cells row k else cells r k.
Proof.
  intros Hc Hk.
  enough (E : let cells' := loop_state (range_loop 0 (fm_cols f) 1 (fun col cells =>
    Cont (put_cell cells (row - 1) col (cells row col))) cells) in
    cells' r k = if r =? row - 1 then cells row k else cells r k) by exact E.
  apply (range_loop_ind
    (fun K cells' => forall r', cells' r' k = if (r' =? row - 1) && (k <? K) then cells row k else cells r' k)
    (fun x : ctl _ _ => loop_state x r k = if r =? row - 1 then cells row k else cells r k)); [lia| | |].
  - intros r'. destruct (Z.ltb_spec k 0); [lia|]. rewrite andb_false_r. reflexivity.
  - intros K cells' HK E r'. unfold put_cell.
    destruct (Z.eqb_spec r' (row - 1)), (Z.eqb_spec k K); cbn [andb]; subst; rewrite ?E;
      destruct (Z.eqb_spec row (row - 1)); try lia; cbn [andb];
      try (destruct (Z.eqb_spec r' (row - 1)); try lia);
      try destruct (Z.ltb_spec k K); try destruct (Z.ltb_spec k (K + 1)); try destruct (Z.ltb_spec K (K + 1));
      try lia; rewrite ?Z.eqb_refl; cbn [andb]; try reflexivity.
  - intros cells' E. cbn [loop_state]. rewrite E. destruct (Z.ltb_spec k (fm_cols f)); [|lia].
    rewrite andb_true_r. reflexivity.
Qed.

Lemma shift_cells_spec c r k :
  mode_ok (co_mode c) -> 0 <= k < fm_cols (co_mode c) -> 0 <= r ->
  shift_cells c r k = if r <? fm_rows (co_mode c) - 1 then co_cells c (r + 1) k else co_cells c r k.
Proof.
  intros Hm Hk Hr. pose proof (mo_cols _ Hm). pose proof (mo_rows _ Hm). unfold shift_cells.
  apply (range_loop_ind
    (fun R cells' => forall r', 0 <= r' ->
       cells' r' k = if r' <? R - 1 then co_cells c (r' + 1) k else co_cells c r' k)
    (fun x : ctl _ _ => loop_state x r k = if r <? fm_rows (co_mode c) - 1 then co_cells c (r + 1) k else co_cells c r k));
    [lia| | |].
  - intros r' Hr'. destruct (Z.ltb_spec r' (1 - 1)); [lia | reflexivity].
  - intros R cells' HR E r' Hr'. rewrite shift_row_cells by lia.
    destruct (Z.eqb_spec r' (R - 1)) as [->|Hne].
    + rewrite E by lia. destruct (Z.ltb_spec R (R - 1)); [lia|]. destruct (Z.ltb_spec (R - 1) (R + 1 - 1)); [|lia].
      f_equal. lia.
    + rewrite E by lia. destruct (Z.ltb_spec r' (R - 1)), (Z.ltb_spec r' (R + 1 - 1)); lia || reflexivity.
  - intros cells' E. cbn [loop_state]. apply E. lia.
Qed.

Lemma text_scroll_ok f t : mode_ok f -> text_ok f t -> text_ok f (text_scroll (fm_rows f) t).
Proof.
  intros Hm (H1 & H2 & H3 & H4). split; [|auto]. intros row col [Hr Hk]. cbn.
  destruct (Z.eqb_spec row (fm_rows f - 1)); [split; assumption|]. apply H1. unfold in_grid. lia.
Qed.

Lemma shown_scroll f m0 b c t :
  mode_ok f -> shown f m0 b c t -> shown f m0 b (scroll c) (text_scroll (fm_rows f) t).
Proof.
  intros Hm [Hf Hr Hb H1 H2 H3 H4 H5 H6 H7 H8].
  pose proof (text_scroll_ok f t Hm H8) as Ht.
  assert (Hcells : forall row col, in_grid f row col ->
    co_cells (clear_backing_row (with_cells c (shift_cells c)) (fm_rows f - 1)) row col
    = tx_cells (text_scroll (fm_rows f) t) row col).
  { intros row col [Hrow Hcol]. unfold clear_backing_row. cbn [co_mode with_cells]. rewrite Hf, (mo_backing _ Hm).
    cbn [negb co_cells with_cells co_fg co_bg]. rewrite clear_row_cells by lia. cbn [tx_cells text_scroll]. unfold blank.
    destruct (Z.eqb_spec row (fm_rows f - 1)); [congruence|].
    rewrite shift_cells_spec by (rewrite ?Hf; assumption || lia). rewrite Hf.
    destruct (Z.ltb_spec row (fm_rows f - 1)); [|lia]. apply H5. unfold in_grid. lia. }
  unfold scroll. rewrite Hf, (mo_backing _ Hm).
  set (c' := clear_backing_row (with_cells c (shift_cells c)) (fm_rows f - 1)) in *.
  assert (Ec : c' = with_cells c (co_cells c'))
    by (unfold c', clear_backing_row; destruct (negb _); reflexivity).
  rewrite Ec in *. clearbody c'. cbn [co_cells with_cells co_batch_active] in *.
  destruct (co_batch_active c) eqn:Eb.
  - split; cbn; auto; congruence.
  - unfold redraw_from_backing. cbn [co_mode with_cells]. rewrite Hf, (mo_backing _ Hm). cbn [negb co_cells co_mem with_cells].
    destruct (redraw_shows f (co_mem c) (co_cells c') Hm) as [Hs Hfr].
    { intros row col Hg. rewrite Hcells by exact Hg. apply Ht. exact Hg. }
    split; cbn; auto; try congruence.
    + intros _. eapply shows_cells_ext; [exact Hcells | exact Hs].
    + eapply frame_kept_trans; [exact H7 | exact Hfr].
Qed.

Lemma shown_flush f m0 b c t :
  mode_ok f -> shown f m0 b c t ->
  shown f m0 b (flush_deferred_redraw c) t /\ co_redraw_deferred (flush_deferred_redraw c) = false.
Proof.
  intros Hm Hsh. unfold flush_deferred_redraw. destruct (co_redraw_deferred c) eqn:Ed; cbn [negb]; [|auto].
  split; [|reflexivity]. destruct Hsh as [Hf Hr Hb H1 H2 H3 H4 H5 H6 H7 H8].
  unfold redraw_from_backing. rewrite Hf, (mo_backing _ Hm). cbn [negb].
  destruct (redraw_shows f (co_mem c) (co_cells c) Hm) as [Hs Hfr].
  { intros row col Hg. rewrite H5 by exact Hg. apply H8. exact Hg. }
  split; cbn; auto.
  - intros _. eapply shows_cells_ext; [exact H5 | exact Hs].
  - eapply frame_kept_trans; [exact H7 | exact Hfr].
Qed.
(** ** Characters *)

Lemma scroll_cursor c col row :
  scroll (with_cursor c col row) = with_cursor (scroll c) col row.
Proof.
  destruct c as [f fg bg cc cr ba rd ready cells m].
  unfold scroll, clear_backing_row, redraw_from_backing, shift_cells, with_cursor, with_cells, with_redraw. cbn -[draw_cell_at].
  destruct (fm_backing_ready f) eqn:Eb, ba; cbn -[draw_cell_at]; rewrite ?Eb; reflexivity.
Qed.

Lemma shown_newline f m0 b c t :
  mode_ok f -> shown f m0 b c t -> shown f m0 b (newline c) (text_newline (fm_rows f) t).
Proof.
  intros Hm Hsh. unfold newline, text_newline. cbn [co_cursor_row co_mode with_cursor].
  pose proof (mo_cols _ Hm). pose proof (mo_rows _ Hm).
  rewrite (sh_mode _ _ _ _ _ Hsh), (sh_row _ _ _ _ _ Hsh).
  destruct (sh_text _ _ _ _ _ Hsh) as (_ & [Hr Hk] & _).
  destruct (Z.leb_spec (fm_rows f) (tx_row t + 1)), (Z.ltb_spec (tx_row t + 1) (fm_rows f)); try lia.
  - pose proof (shown_scroll f m0 b c t Hm Hsh) as Hs.
    rewrite scroll_cursor. cbn [with_cursor co_cursor_col co_mode]. rewrite (sh_mode _ _ _ _ _ Hs).
    change (shown f m0 b (with_cursor (scroll c) 0 (fm_rows f - 1)) (move_to (text_scroll (fm_rows f) t) 0 (fm_rows f - 1))).
    apply shown_cursor; [unfold in_grid; lia | exact Hs].
  - apply shown_cursor; [unfold in_grid; lia | exact Hsh].
Qed.

Lemma put_cell_in cells cells' row col cell f :
  (forall r k, in_grid f r k -> cells r k = cells' r k) ->
  forall r k, in_grid f r k -> put_cell cells row col cell r k = put_cell cells' row col cell r k.
Proof. intros E r k Hg. unfold put_cell. destruct (_ && _); auto. Qed.

Lemma text_set_ok f t row col cell : cell_ok cell -> text_ok f t -> text_ok f (text_set t row col cell).
Proof.
  intros Hc (H1 & H2). split; [|exact H2]. intros r k Hg. cbn. unfold put_cell. destruct (_ && _); auto.
Qed.

Lemma shows_put f m cells row col cell :
  shows_cell f m row col cell ->
  (forall r k, in_grid f r k -> (r, k) <> (row, col) -> shows_cell f m r k (cells r k)) ->
  shows_cells f m (put_cell cells row col cell).
Proof.
  intros Hc Ho r k Hg. unfold put_cell.
  destruct (Z.eqb_spec r row) as [->|], (Z.eqb_spec k col) as [->|]; cbn [andb]; [exact Hc | | |]; apply Ho; congruence.
Qed.

(** [draw_char_at] at the cursor puts the character into the text. *)
Lemma shown_draw_char f m0 b c t ch :
  mode_ok f -> shown f m0 b c t ->
  shown f m0 b (draw_char_at c (co_cursor_col c) (co_cursor_row c) ch)
    (text_set t (tx_row t) (tx_col t) (mk_cell ch (tx_fg t) (tx_bg t))).
Proof.
  intros Hm [Hf Hr Hb H1 H2 H3 H4 H5 H6 H7 H8]. unfold draw_char_at. rewrite Hf, (mo_backing _ Hm), H1, H2, H3, H4.
  pose proof H8 as (Hcs & Hg & Hfg & Hbg).
  assert (Hc : cell_ok (mk_cell ch (tx_fg t) (tx_bg t))) by (split; assumption).
  cbn [co_redraw_deferred with_cells co_mode co_mem]. rewrite Hf.
  destruct (co_redraw_deferred c) eqn:Ed; split; cbn; auto using text_set_ok;
    try congruence; try (apply put_cell_in; exact H5).
  - intros _. apply shows_put; [apply draw_cell_shows; assumption|]. intros r k Hg' Hne.
    apply draw_cell_other; try assumption. apply H6; auto.
  - eapply frame_kept_trans; [exact H7 | apply draw_cell_frame; assumption].
Qed.
Lemma shown_print f m0 b c t ch :
  mode_ok f -> shown f m0 b c t ->
  let c1 := draw_char_at c (co_cursor_col c) (co_cursor_row c) ch in
  let c2 := with_cursor c1 (co_cursor_col c1 + 1) (co_cursor_row c1) in
  shown f m0 b (if fm_cols (co_mode c2) <=? co_cursor_col c2 then newline c2 else c2)
    (text_print (fm_rows f) (fm_cols f) t ch).
Proof.
  intros Hm Hsh c1 c2. pose proof (shown_draw_char f m0 b c t ch Hm Hsh) as H1. fold c1 in H1.
  unfold text_print. set (t' := text_set t _ _ _) in *.
  destruct (sh_text _ _ _ _ _ Hsh) as (_ & [Hr Hk] & _).
  assert (E : co_cursor_col c1 = tx_col t /\ co_cursor_row c1 = tx_row t)
    by (split; [apply (sh_col _ _ _ _ _ H1) | apply (sh_row _ _ _ _ _ H1)]).
  destruct E as [Ec Er]. cbn [co_mode co_cursor_col with_cursor c2]. rewrite (sh_mode _ _ _ _ _ H1), Ec.
  destruct (Z.leb_spec (fm_cols f) (tx_col t + 1)), (Z.ltb_spec (tx_col t + 1) (fm_cols f)); try lia.
  - change (newline c2) with (newline c1). apply shown_newline; assumption.
  - unfold c2. rewrite Ec, Er. apply shown_cursor; [unfold in_grid; lia | exact H1].
Qed.

Lemma shown_backspace f m0 b c t :
  mode_ok f -> shown f m0 b c t -> 0 < tx_col t ->
  let c1 := with_cursor c (co_cursor_col c - 1) (co_cursor_row c) in
  let c2 := set_cell c1 (co_cursor_col c1) (co_cursor_row c1) 32 in
  shown f m0 b (clear_cell_at c2 (co_cursor_col c2) (co_cursor_row c2))
    (text_set (move_to t (tx_col t - 1) (tx_row t)) (tx_row t) (tx_col t - 1) (blank t)).
Proof.
  intros Hm Hsh Hpos. destruct (sh_text _ _ _ _ _ Hsh) as (_ & [Hr Hk] & Hfg & Hbg).
  assert (Hg : in_grid f (tx_row t) (tx_col t - 1)) by (unfold in_grid; lia).
  pose proof (shown_cursor f m0 b c t _ _ Hg Hsh) as Hs. cbn zeta. cbn [co_cursor_col co_cursor_row with_cursor].
  rewrite (sh_col _ _ _ _ _ Hsh), (sh_row _ _ _ _ _ Hsh).
  destruct Hs as [Hf Hrd Hb H1 H2 H3 H4 H5 H6 H7 H8]. cbn in Hf.
  unfold set_cell, clear_cell_at, clear_rect. cbn [co_mode with_cursor]. rewrite Hf, (mo_backing _ Hm).
  cbn [negb co_cursor_col co_cursor_row with_cells with_cursor co_mode co_mem co_bg co_fg]. cbn in H1, H2. rewrite Hf, H1, H2.
  assert (P : paints f (co_mem c)
      (clear_rect_color f (co_mem c) ((tx_col t - 1) * CELL_WIDTH) (tx_row t * CELL_HEIGHT) CELL_WIDTH CELL_HEIGHT (tx_bg t))
      (rect ((tx_col t - 1) * CELL_WIDTH) (tx_row t * CELL_HEIGHT) CELL_WIDTH CELL_HEIGHT (tx_bg t))).
  { pose proof (grid_bounds f _ _ Hm Hg) as (? & ? & ? & ? & ? & ?). apply clear_rect_paints; try (apply Hm); lia. }
  split; cbn; auto using text_set_ok; try (apply put_cell_in; exact H5).
  - intros Hd. apply shows_put.
    + apply (rect_shows_blank f (co_mem c) _ _ _ _ _ _ _ _ _ Hm Hg P); lia.
    + intros r k Hg' Hne. eapply (rect_spares f (co_mem c)); [exact Hm | exact Hg' | exact Hne | exact P |].
      apply H6; assumption.
  - eapply frame_kept_trans; [exact H7 | exact (proj2 P)].
  - apply text_set_ok; [split; assumption | exact H8].
Qed.

(** The branches of the [switch] as tests. *)
Lemma put_plain_cases c ch :
  co_ready c = true ->
  put_plain c ch =
    if ch =? 10 then newline c
    else if ch =? 13 then with_cursor c 0 (co_cursor_row c)
    else if ch =? 8 then
      if 0 <? co_cursor_col c then
        let c := with_cursor c (co_cursor_col c - 1) (co_cursor_row c) in
        let c := set_cell c (co_cursor_col c) (co_cursor_row c) 32 in
        clear_cell_at c (co_cursor_col c) (co_cursor_row c)
      else c
    else if ch <? 32 then c
    else
      let c := if fm_cols (co_mode c) <=? co_cursor_col c then newline c else c in
      let c := draw_char_at c (co_cursor_col c) (co_cursor_row c) ch in
      let c := with_cursor c (co_cursor_col c + 1) (co_cursor_row c) in
      if fm_cols (co_mode c) <=? co_cursor_col c then newline c else c.
Proof.
  intros Hr. unfold put_plain. rewrite Hr. cbn [negb].
  destruct (Z.eqb_spec ch 10) as [->|]; [reflexivity|].
  destruct (Z.eqb_spec ch 13) as [->|]; [reflexivity|].
  destruct (Z.eqb_spec ch 8) as [->|]; [reflexivity|].
  destruct ch as [|p|p]; [reflexivity | | reflexivity].
  do 4 (try (destruct p as [p|p|]; try reflexivity; try congruence)).
Qed.

Lemma shown_plain f m0 b c t ch :
  mode_ok f -> shown f m0 b c t ->
  shown f m0 b (put_plain c ch) (text_plain (fm_rows f) (fm_cols f) t ch).
Proof.
  intros Hm Hsh. rewrite put_plain_cases by apply (sh_ready _ _ _ _ _ Hsh). unfold text_plain.
  destruct (sh_text _ _ _ _ _ Hsh) as (_ & [Hr Hk] & _).
  destruct (ch =? 10); [apply shown_newline; assumption|].
  destruct (ch =? 13).
  { rewrite (sh_row _ _ _ _ _ Hsh). apply shown_cursor; [unfold in_grid; lia | exact Hsh]. }
  destruct (ch =? 8).
  { rewrite (sh_col _ _ _ _ _ Hsh) at 1. destruct (Z.ltb_spec 0 (tx_col t)); [|exact Hsh].
    apply shown_backspace; assumption. }
  destruct (ch <? 32); [exact Hsh|].
  assert (E : (fm_cols (co_mode c) <=? co_cursor_col c) = false)
    by (rewrite (sh_mode _ _ _ _ _ Hsh), (sh_col _ _ _ _ _ Hsh); apply Z.leb_gt; lia).
  cbv zeta. rewrite E. apply shown_print; assumption.
Qed.
(** ** Tabs *)

Lemma next_tab_stop c : 0 <= co_cursor_col c < 4294967296 -> next_tab c = tab_stop (co_cursor_col c).
Proof.
  intros Hc. unfold next_tab, tab_stop, TAB_WIDTH. change (4 - 1) with (2 ^ 2 - 1).
  rewrite land_not64 by (unfold is_u64; lia). change (2 ^ 2) with 4. zlia.
Qed.

Lemma tab_stop_after col : col < tab_stop col <= col + 4.
Proof. unfold tab_stop. zlia. Qed.

Lemma shown_space f m0 b c t :
  mode_ok f -> shown f m0 b c t ->
  shown f m0 b (flush_deferred_redraw (put_plain c 32)) (text_print (fm_rows f) (fm_cols f) t 32).
Proof. intros Hm Hsh. apply shown_flush; [exact Hm|]. exact (shown_plain f m0 b c t 32 Hm Hsh). Qed.

(** A tab that stays on its line ends after as many turns as it has columns. *)
Lemma tab_ends f m0 b stop n : forall c t fuel,
  mode_ok f -> shown f m0 b c t -> stop < fm_cols f -> stop - tx_col t = Z.of_nat n -> (n <= fuel)%nat ->
  exists c', tab_loop fuel c stop = Ret c' /\ shown f m0 b c' (text_spaces (fm_rows f) (fm_cols f) n t).
Proof.
  induction n as [|n IH]; intros c t fuel Hm Hsh Hstop Hn Hf; destruct fuel as [|fuel]; try lia; cbn [tab_loop];
    rewrite (sh_col _ _ _ _ _ Hsh).
  1, 2: destruct (Z.ltb_spec (tx_col t) stop); [lia|]; exists c; split; [reflexivity | exact Hsh].
  destruct (Z.ltb_spec (tx_col t) stop); [|lia]. cbn [text_spaces].
  apply IH; [exact Hm | apply shown_space; assumption | exact Hstop | | lia].
  unfold text_print. destruct (Z.ltb_spec (tx_col t + 1) (fm_cols f)); cbn; lia.
Qed.

(** A tab that would leave its line never ends: the line break takes the cursor
    back to the first column, which is before the stop again. *)
Lemma tab_hangs f m0 b stop fuel : forall c t,
  mode_ok f -> shown f m0 b c t -> fm_cols f <= stop -> tab_loop fuel c stop = NoFuel.
Proof.
  induction fuel as [|fuel IH]; intros c t Hm Hsh Hstop; cbn [tab_loop];
    rewrite (sh_col _ _ _ _ _ Hsh); destruct (sh_text _ _ _ _ _ Hsh) as (_ & [Hr Hk] & _);
    destruct (Z.ltb_spec (tx_col t) stop); try lia; [reflexivity|].
  eapply IH; [exact Hm | apply shown_space; [exact Hm | exact Hsh] | exact Hstop].
Qed.

Lemma putchar_inner_shown f m0 b c t ch :
  mode_ok f -> fm_cols f < 4294967296 -> shown f m0 b c t ->
  match text_put (fm_rows f) (fm_cols f) t ch with
  | Some t' => forall fuel, (4 <= fuel)%nat ->
      exists c', putchar_inner fuel c ch = Ret c' /\ shown f m0 b c' t'
  | None => forall fuel, putchar_inner fuel c ch = NoFuel
  end.
Proof.
  intros Hm Hlim Hsh. unfold text_put, putchar_inner. rewrite (sh_ready _ _ _ _ _ Hsh). cbn [negb].
  destruct (ch =? 9).
  - destruct (sh_text _ _ _ _ _ Hsh) as (_ & [Hr Hk] & _). pose proof (tab_stop_after (tx_col t)).
    rewrite next_tab_stop by (rewrite (sh_col _ _ _ _ _ Hsh); lia). rewrite (sh_col _ _ _ _ _ Hsh).
    destruct (Z.ltb_spec (tab_stop (tx_col t)) (fm_cols f)).
    + intros fuel Hf. apply tab_ends; auto; lia.
    + intros fuel. eapply tab_hangs; eassumption.
  - intros fuel _. eexists. split; [reflexivity|]. apply shown_plain; assumption.
Qed.

Lemma write_inner_shown f m0 b s : forall c t,
  mode_ok f -> fm_cols f < 4294967296 -> shown f m0 b c t ->
  match text_write (fm_rows f) (fm_cols f) t s with
  | Some t' => forall fuel, (4 <= fuel)%nat ->
      exists c', write_inner fuel c s = Ret c' /\ shown f m0 b c' t'
  | None => forall fuel, (4 <= fuel)%nat -> write_inner fuel c s = NoFuel
  end.
Proof.
  induction s as [|ch s IH]; intros c t Hm Hlim Hsh; cbn [text_write write_inner].
  - intros fuel _. exists c. split; [reflexivity | exact Hsh].
  - pose proof (putchar_inner_shown f m0 b c t ch Hm Hlim Hsh) as Hp.
    destruct (text_put (fm_rows f) (fm_cols f) t ch) as [t'|].
    + destruct (text_write (fm_rows f) (fm_cols f) t' s) as [t2|] eqn:E; intros fuel Hf;
        destruct (Hp fuel Hf) as (c' & -> & Hs'); pose proof (IH c' t' Hm Hlim Hs') as Hi; rewrite E in Hi;
        exact (Hi fuel Hf).
    + intros fuel _. rewrite Hp. reflexivity.
Qed.
(** ** Operations *)

Lemma make_color_range f r g b : 0 <= make_color f r g b < 4294967296.
Proof.
  assert (Hc : forall v n k, 0 <= color_component v n k < 2 ^ 32).
  { intros. unfold color_component. destruct (n =? 0); [lia|]. apply u32_range. }
  unfold make_color. change 4294967296 with (2 ^ 32). repeat apply lor_lt_pow2; try apply Hc; lia.
Qed.

Lemma clear_backing_spec c :
  mode_ok (co_mode c) ->
  exists cells, clear_backing c = with_cells c cells
    /\ forall row col, in_grid (co_mode c) row col -> cells row col = mk_cell 32 (co_fg c) (co_bg c).
Proof.
  intros Hm. pose proof (mo_cols _ Hm). pose proof (mo_rows _ Hm).
  unfold clear_backing. rewrite (mo_backing _ Hm). cbn [negb].
  apply (range_loop_ind
    (fun R c' => exists cells, c' = with_cells c cells
       /\ forall row col, in_grid (co_mode c) row col -> row < R -> cells row col = mk_cell 32 (co_fg c) (co_bg c))
    (fun x : ctl console console => exists cells, loop_state x = with_cells c cells
       /\ forall row col, in_grid (co_mode c) row col -> cells row col = mk_cell 32 (co_fg c) (co_bg c))); [lia| | |].
  - exists (co_cells c). split; [destruct c; reflexivity|]. unfold in_grid. lia.
  - intros R c' HR (cells & -> & Hcells). unfold clear_backing_row. cbn [co_mode with_cells].
    rewrite (mo_backing _ Hm). cbn [negb]. eexists. split; [reflexivity|].
    intros row col [Hrow Hcol] Hlt. cbn [co_cells co_fg co_bg with_cells]. rewrite clear_row_cells by lia.
    destruct (Z.eqb_spec row R); [reflexivity|]. apply Hcells; unfold in_grid; lia.
  - intros c' (cells & -> & Hcells). exists cells. split; [reflexivity|].
    intros row col Hg. apply Hcells; [exact Hg|]. unfold in_grid in Hg. lia.
Qed.

(** Clearing needs a ready console of a good geometry and its colours only. *)
Lemma clear_shown f m0 b c fg bg :
  mode_ok f -> co_mode c = f -> co_ready c = true -> co_batch_active c = b -> co_fg c = fg -> co_bg c = bg ->
  0 <= fg < 4294967296 -> 0 <= bg < 4294967296 -> frame_kept f m0 (co_mem c) ->
  shown f m0 b (framebuffer_console_clear c) (text_clear fg bg)
  /\ co_redraw_deferred (framebuffer_console_clear c) = false
  /\ (forall x y, on_screen f x y -> pixel f (co_mem (framebuffer_console_clear c)) x y = bg).
Proof.
  intros Hm Hf Hr Hb Efg Ebg Hfg Hbg F. unfold framebuffer_console_clear. rewrite Hr. cbn [negb].
  pose proof (mo_cols _ Hm). pose proof (mo_rows _ Hm). pose proof (mo_width _ Hm). pose proof (mo_height _ Hm).
  pose proof (mo_pitch _ Hm) as Hp. pose proof Hp as (Hw0 & Hh0 & _).
  set (m := clear_rect c 0 0 _ _).
  assert (P : paints f (co_mem c) m (rect 0 0 (fm_width f) (fm_height f) bg)).
  { unfold m, clear_rect. rewrite Hf, Ebg. apply clear_rect_paints; assumption || lia. }
  destruct (clear_backing_spec (with_co_mem c m)) as (cells & -> & Hcells); [cbn; rewrite Hf; exact Hm|].
  cbn [co_mode with_co_mem co_fg co_bg] in Hcells. rewrite Hf, Efg, Ebg in Hcells.
  split; [|split; [reflexivity|]].
  - split; cbn; auto.
    + intros _ row col Hg. cbn [text_clear tx_cells].
      pose proof (grid_bounds f _ _ Hm Hg) as (? & ? & ? & ? & ? & ?).
      apply (rect_shows_blank f (co_mem c) m 0 0 (fm_width f) (fm_height f)); assumption || lia.
    + eapply frame_kept_trans; [exact F | exact (proj2 P)].
    + repeat split; cbn; lia.
  - intros x y Ho. change (pixel f m x y = bg). rewrite (proj1 P) by exact Ho. unfold rect, on_screen in *. boxes.
Qed.

Definition settled (f : fb_mode) (m0 : mem) (c : console) (t : text) : Prop :=
  shown f m0 false c t /\ co_redraw_deferred c = false.

Lemma settled_batch f m0 b b' c t :
  shown f m0 b c t -> shown f m0 b' (with_redraw c b' (co_redraw_deferred c)) t.
Proof. intros [H1 H2 H3 H4 H5 H6 H7 H8 H9 H10 H11]. split; cbn; auto. Qed.

Lemma write_settled f m0 c t s :
  mode_ok f -> fm_cols f < 4294967296 -> settled f m0 c t ->
  match text_write (fm_rows f) (fm_cols f) t s with
  | Some t' => forall fuel, (4 <= fuel)%nat ->
      exists c', framebuffer_console_write fuel c s = Ret c' /\ settled f m0 c' t'
  | None => forall fuel, (4 <= fuel)%nat -> framebuffer_console_write fuel c s = NoFuel
  end.
Proof.
  intros Hm Hlim [Hsh Hd]. unfold framebuffer_console_write. rewrite (sh_ready _ _ _ _ _ Hsh). cbn [negb].
  pose proof (write_inner_shown f m0 true s _ t Hm Hlim (settled_batch _ _ _ true _ _ Hsh)) as Hw.
  rewrite (sh_batch _ _ _ _ _ Hsh).
  destruct (text_write (fm_rows f) (fm_cols f) t s) as [t'|]; intros fuel Hf; [|rewrite Hw by exact Hf; reflexivity].
  destruct (Hw fuel Hf) as (c' & -> & Hs'). eexists. split; [reflexivity|]. cbn [co_batch_active with_redraw negb].
  apply (shown_flush f m0 false); [exact Hm|]. eapply settled_batch. exact Hs'.
Qed.

Lemma putchar_settled f m0 c t ch :
  mode_ok f -> fm_cols f < 4294967296 -> settled f m0 c t ->
  match text_put (fm_rows f) (fm_cols f) t ch with
  | Some t' => forall fuel, (4 <= fuel)%nat ->
      exists c', framebuffer_console_putchar fuel c ch = Ret c' /\ settled f m0 c' t'
  | None => forall fuel, framebuffer_console_putchar fuel c ch = NoFuel
  end.
Proof.
  intros Hm Hlim [Hsh Hd]. unfold framebuffer_console_putchar.
  pose proof (putchar_inner_shown f m0 false c t ch Hm Hlim Hsh) as Hp.
  destruct (text_put (fm_rows f) (fm_cols f) t ch) as [t'|]; intros fuel; [intros Hf|rewrite Hp; reflexivity].
  destruct (Hp fuel Hf) as (c' & -> & Hs'). eexists. split; [reflexivity|]. apply (shown_flush f m0 false); assumption.
Qed.
Lemma settled_colors f m0 c t fg bg :
  0 <= fg < 4294967296 -> 0 <= bg < 4294967296 -> settled f m0 c t ->
  settled f m0 (with_colors c fg bg) (mk_text (tx_cells t) (tx_col t) (tx_row t) fg bg).
Proof.
  intros Hfg Hbg [[] Hd]. split; [|exact Hd]. split; cbn; auto.
  destruct sh_text0 as (Hc & Hg & _). split; [exact Hc|]. split; [exact Hg | split; assumption].
Qed.

Lemma op_settled f m0 op fuel c t :
  mode_ok f -> fm_cols f < 4294967296 -> (4 <= fuel)%nat -> settled f m0 c t ->
  match text_op (fm_rows f) (fm_cols f) (make_color f) t op with
  | Some t' => exists c', fb_run_op fuel c op = Ret c' /\ settled f m0 c' t'
  | None => fb_run_op fuel c op = NoFuel
  end.
Proof.
  intros Hm Hlim Hf Hs. pose proof (sh_text _ _ _ _ _ (proj1 Hs)) as (_ & _ & Hfg & Hbg).
  pose proof (sh_mode _ _ _ _ _ (proj1 Hs)) as Em. pose proof (sh_ready _ _ _ _ _ (proj1 Hs)) as Hr.
  destruct op as [ch|s| |r g b|r g b]; cbn [text_op fb_run_op].
  - pose proof (putchar_settled f m0 c t ch Hm Hlim Hs) as Hp. destruct (text_put _ _ t ch); auto.
  - pose proof (write_settled f m0 c t s Hm Hlim Hs) as Hp. destruct (text_write _ _ t s); auto.
  - eexists. split; [reflexivity|]. destruct Hs as [[] Hd].
    destruct (clear_shown f m0 false c (tx_fg t) (tx_bg t)) as (H1 & H2 & _); auto. split; assumption.
  - eexists. split; [reflexivity|]. unfold framebuffer_console_set_color. rewrite Hr, Em, (sh_bg _ _ _ _ _ (proj1 Hs)).
    apply settled_colors; auto using make_color_range.
  - eexists. split; [reflexivity|]. unfold framebuffer_console_set_background. rewrite Hr, Em, (sh_fg _ _ _ _ _ (proj1 Hs)).
    apply settled_colors; auto using make_color_range.
Qed.

Lemma run_settled f m0 ops fuel : forall c t,
  mode_ok f -> fm_cols f < 4294967296 -> (4 <= fuel)%nat -> settled f m0 c t ->
  match text_ops (fm_rows f) (fm_cols f) (make_color f) t ops with
  | Some t' => exists c', fb_run fuel c ops = Ret c' /\ settled f m0 c' t'
  | None => fb_run fuel c ops = NoFuel
  end.
Proof.
  induction ops as [|op ops IH]; intros c t Hm Hlim Hf Hs; cbn [text_ops fb_run]; [eauto|].
  pose proof (op_settled f m0 op fuel c t Hm Hlim Hf Hs) as Hop.
  destruct (text_op (fm_rows f) (fm_cols f) (make_color f) t op) as [t'|]; [|rewrite Hop; reflexivity].
  destruct Hop as (c' & -> & Hs'). apply (IH c' t'); assumption.
Qed.

(** What the boot loader must provide for the console to come up with its
    array of cells. *)
Record good_framebuffer (b : limine_framebuffer) : Prop := {
  gf_address : lf_address b <> 0;
  gf_bpp : lf_bpp b = 32;
  gf_width : CELL_WIDTH <= lf_width b;
  gf_height : CELL_HEIGHT <= lf_height b;
  gf_pitch : 4 * lf_width b <= lf_pitch b;
  gf_cols : lf_width b / CELL_WIDTH <= MAX_CONSOLE_COLS;
  gf_rows : lf_height b / CELL_HEIGHT <= MAX_CONSOLE_ROWS
}.

Lemma init_settled c b :
  good_framebuffer b -> co_batch_active c = false ->
  let '(ok, c') := framebuffer_console_init c (Some b) in
  let f := co_mode c' in
  ok = true /\ mode_ok f /\ fm_cols f < 4294967296
  /\ settled f (co_mem c) c' (text_clear (make_color f 0xff 0xff 0xff) (make_color f 0 0 0)).
Proof.
  intros [Ha Hb Hw Hh Hp Hc Hr] Hba. unfold framebuffer_console_init.
  destruct (Z.eqb_spec (lf_address b) 0); [congruence|]. rewrite Hb.
  change (false || negb (32 =? 32)) with false. cbn iota.
  destruct cell_size_pos as [Hcw Hch].
  assert (0 < lf_width b / CELL_WIDTH) by (apply Z.div_str_pos; lia).
  assert (0 < lf_height b / CELL_HEIGHT) by (apply Z.div_str_pos; lia).
  pose proof (Z.mul_div_le (lf_width b) CELL_WIDTH Hcw). pose proof (Z.mul_div_le (lf_height b) CELL_HEIGHT Hch).
  destruct (Z.eqb_spec (lf_width b / CELL_WIDTH) 0); [lia|]. destruct (Z.eqb_spec (lf_height b / CELL_HEIGHT) 0); [lia|].
  cbn [orb].
  set (f := mk_mode _ _ _ _ _ _ _ _ _ _ _ _ _).
  set (c1 := with_colors _ _ _).
  assert (Hm : mode_ok f).
  { unfold MAX_CONSOLE_COLS, MAX_CONSOLE_ROWS in *. split; unfold pitch_ok; cbn; lia. }
  destruct (clear_shown f (co_mem c) false c1 (make_color f 0xff 0xff 0xff) (make_color f 0 0 0)) as (Hsh & Hd & _);
    try reflexivity; auto using make_color_range.
  { intros a _. reflexivity. }
  rewrite (sh_mode _ _ _ _ _ Hsh).
  unfold MAX_CONSOLE_COLS in *. split; [reflexivity|]. split; [exact Hm|]. split; [cbn; lia | split; assumption].
Qed.
End Screen.

(** ** The theorems *)

(** C34. The framebuffer console refines the text console: after a successful
    initialisation every run of writes, characters, clears and colour changes
    leaves on the screen exactly the glyphs of the text that the abstract console
    holds, with no redraw pending and no byte outside video memory changed; and
    the run fails to end precisely when the abstract console meets a tab whose
    stop is not before the last column. *)
Theorem framebuffer_console_refines_text `{Font} c b fuel ops :
  0 < FONT_WIDTH <= 8 -> 0 < FONT_HEIGHT -> good_framebuffer b -> co_batch_active c = false -> (4 <= fuel)%nat ->
  let '(ok, c0) := framebuffer_console_init c (Some b) in
  let f := co_mode c0 in
  ok = true /\
  match text_ops (fm_rows f) (fm_cols f) (make_color f)
          (text_clear (make_color f 0xff 0xff 0xff) (make_color f 0 0 0)) ops with
  | Some t => exists c', fb_run fuel c0 ops = Ret c' /\ co_redraw_deferred c' = false
      /\ co_cursor_col c' = tx_col t /\ co_cursor_row c' = tx_row t
      /\ shows_cells f (co_mem c') (tx_cells t) /\ frame_kept f (co_mem c) (co_mem c')
  | None => fb_run fuel c0 ops = NoFuel
  end.
Proof.
  intros HW HH Hb Hba Hf. pose proof (init_settled HW HH c b Hb Hba) as Hi.
  destruct (framebuffer_console_init c (Some b)) as [ok c0]. destruct Hi as (Hok & Hm & Hlim & Hs).
  split; [exact Hok|]. pose proof (run_settled HW HH (co_mode c0) _ ops fuel c0 _ Hm Hlim Hf Hs) as Hr.
  destruct (text_ops _ _ _ _ ops) as [t|]; [|exact Hr].
  destruct Hr as (c' & E & [Hsh Hd]). exists c'. destruct Hsh. auto 10.
Qed.

(** C35. A tab ends if and only if its stop lies before the last column: in the
    last four columns (or fewer) the line break takes the cursor back to the
    first column for ever. *)
Theorem framebuffer_tab_ends_iff `{Font} f m0 c t :
  0 < FONT_WIDTH <= 8 -> 0 < FONT_HEIGHT -> mode_ok f -> fm_cols f < 4294967296 -> settled f m0 c t ->
  (exists fuel c', framebuffer_console_putchar fuel c 9 = Ret c') <-> tab_stop (co_cursor_col c) < fm_cols f.
Proof.
  intros HW HH Hm Hlim Hs. pose proof (putchar_settled HW HH f m0 c t 9 Hm Hlim Hs) as Hp.
  rewrite (sh_col _ _ _ _ _ (proj1 Hs)). unfold text_put in Hp. change (9 =? 9) with true in Hp. cbn iota in Hp.
  destruct (Z.ltb_spec (tab_stop (tx_col t)) (fm_cols f)) as [Hlt|Hge].
  - split; [intros _; exact Hlt|]. intros _. destruct (Hp 4%nat ltac:(lia)) as (c' & E & _). eauto.
  - split; [|lia]. intros (fuel & c' & E). rewrite Hp in E. discriminate.
Qed.

(** ** A small screen *)

Definition tiny_font : Font := {|
  FONT_WIDTH := 2; FONT_HEIGHT := 2; WS_FONT_FIRST := 32; WS_FONT_LAST := 95;
  ws_font := fun glyph row => (glyph + row) mod 4
|}.

Definition tiny_framebuffer : limine_framebuffer :=
  mk_limine_fb 4096 48 20 200 32 8 16 8 8 8 0.

Definition dark_console : console :=
  mk_console (mk_mode 0 0 0 0 0 0 0 0 0 0 0 0 false) 0 0 0 0 false false false
    (fun _ _ => mk_cell 0 0 0) (fun _ => 0).

Definition tiny_ops : list fb_op :=
  [FbWrite [65; 9; 66; 10; 67; 8; 10; 10; 10; 68]; FbColor 255 0 0; FbPutchar 69; FbPutchar 10].

Lemma tiny_good : @good_framebuffer tiny_font tiny_framebuffer.
Proof. split; vm_compute; congruence. Qed.

Definition tiny_mode : fb_mode := mk_mode 4096 48 20 200 8 16 8 8 8 0 8 3 true.

Lemma framebuffer_console_refines_text_witness :
  match text_ops 3 8 (make_color tiny_mode) (text_clear 0xffffff 0) tiny_ops with
  | Some t => tx_row t = 2 /\ ce_ch (tx_cells t 1 0) = 68 /\ ce_fg (tx_cells t 1 1) = 0xff0000
  | None => False
  end
  /\ let '(ok, c0) := @framebuffer_console_init tiny_font dark_console (Some tiny_framebuffer) in
     let f := co_mode c0 in
     ok = true /\
     match text_ops (fm_rows f) (fm_cols f) (make_color f)
             (text_clear (make_color f 0xff 0xff 0xff) (make_color f 0 0 0)) tiny_ops with
     | Some t => exists c', @fb_run tiny_font 4 c0 tiny_ops = Ret c' /\ co_redraw_deferred c' = false
         /\ co_cursor_col c' = tx_col t /\ co_cursor_row c' = tx_row t
         /\ @shows_cells tiny_font f (co_mem c') (tx_cells t) /\ frame_kept f (co_mem dark_console) (co_mem c')
     | None => @fb_run tiny_font 4 c0 tiny_ops = NoFuel
     end.
Proof.
  split; [vm_compute; auto|].
  exact (@framebuffer_console_refines_text tiny_font dark_console tiny_framebuffer 4 tiny_ops
           ltac:(cbn; lia) ltac:(cbn; lia) tiny_good eq_refl (le_n 4)).
Defined.

(** In column 4 of 8 the next stop is column 8: the tab never ends. *)
Lemma framebuffer_tab_ends_iff_witness :
  let c0 := snd (@framebuffer_console_init tiny_font dark_console (Some tiny_framebuffer)) in
  let c1 := with_cursor c0 4 0 in
  let f := co_mode c0 in
  ~ (exists fuel c', @framebuffer_console_putchar tiny_font fuel c1 9 = Ret c')
  /\ (exists fuel c', @framebuffer_console_putchar tiny_font fuel c0 9 = Ret c').
Proof.
  pose proof (@init_settled tiny_font ltac:(cbn; lia) ltac:(cbn; lia) dark_console tiny_framebuffer tiny_good eq_refl) as Hi.
  cbv zeta. destruct (framebuffer_console_init dark_console (Some tiny_framebuffer)) as [ok c0] eqn:E.
  cbn [snd]. destruct Hi as (_ & Hm & Hlim & Hs).
  assert (Ec : co_cursor_col c0 = 0 /\ fm_cols (co_mode c0) = 8).
  { split; [exact (sh_col _ _ _ _ _ (proj1 Hs))|].
    apply (f_equal (fun p => fm_cols (co_mode (snd p)))) in E. cbn [snd] in E. rewrite <- E. reflexivity. }
  destruct Ec as [Ec En]. split.
  - assert (Hs4 : @settled tiny_font (co_mode c0) (co_mem dark_console) (with_cursor c0 4 0)
                    (move_to (text_clear (make_color (co_mode c0) 0xff 0xff 0xff) (make_color (co_mode c0) 0 0 0)) 4 0)).
    { split; [|exact (proj2 Hs)]. apply shown_cursor; [|exact (proj1 Hs)].
      pose proof (mo_rows _ Hm). unfold in_grid. rewrite En. lia. }
    intros Hex. apply (@framebuffer_tab_ends_iff tiny_font (co_mode c0) _ _ _ ltac:(cbn; lia) ltac:(cbn; lia) Hm Hlim Hs4) in Hex.
    rewrite En in Hex. cbn in Hex. exact (Z.lt_irrefl _ Hex).
  - apply (@framebuffer_tab_ends_iff tiny_font (co_mode c0) _ _ _ ltac:(cbn; lia) ltac:(cbn; lia) Hm Hlim Hs).
    rewrite Ec, En. reflexivity.
Defined.
