(* ===== verification/Pmm.v ===== *)
(** * Physical page allocator (src/memory/pmm.c)

    The record [pmm] holds the static variables of pmm.c and the memory behind
    the higher-half direct map, in which the free list is threaded: the first
    eight bytes of a free page hold the virtual address of the next one.
    [pmm_inv] states that representation; [pmm_step] is the interleaving of
    allocations, frees and writes that the owners of pages may perform. *)

From S2P Require Import Prelude.

Definition PMM_PAGE_SIZE : Z := 4096.
Definition LIMINE_MEMMAP_USABLE : Z := 0.

Record memmap_entry : Type := mk_memmap_entry {
  me_base : Z;
  me_length : Z;
  me_type : Z
}.

Record pmm : Type := mk_pmm {
  pm_mem : mem;
  pm_free_list : Z;
  pm_hhdm_base : Z;
  pm_total_pages : Z;
  pm_free_pages : Z;
  pm_initialized : bool
}.

Record pmm_stats : Type := mk_pmm_stats {
  ps_total_pages : Z;
  ps_free_pages : Z;
  ps_used_pages : Z;
  ps_total_bytes : Z;
  ps_free_bytes : Z;
  ps_used_bytes : Z
}.

Definition set_pm_mem (s : pmm) (m : mem) : pmm :=
  {| pm_mem := m; pm_free_list := pm_free_list s; pm_hhdm_base := pm_hhdm_base s;
     pm_total_pages := pm_total_pages s; pm_free_pages := pm_free_pages s;
     pm_initialized := pm_initialized s |}.

Definition pmm_phys_to_virt (s : pmm) (physical_address : Z) : Z :=
  u64 (pm_hhdm_base s + physical_address).

Definition pmm_virt_to_phys (s : pmm) (virtual_address : Z) : Z :=
  u64 (virtual_address - pm_hhdm_base s).

Definition push_page (s : pmm) (physical_address : Z) : pmm :=
  let page := pmm_phys_to_virt s physical_address in
  {| pm_mem := store64 (pm_mem s) page (pm_free_list s);
     pm_free_list := page;
     pm_hhdm_base := pm_hhdm_base s;
     pm_total_pages := pm_total_pages s;
     pm_free_pages := u64 (pm_free_pages s + 1);
     pm_initialized := pm_initialized s |}.

Definition count_total (s : pmm) : pmm :=
  {| pm_mem := pm_mem s; pm_free_list := pm_free_list s;
     pm_hhdm_base := pm_hhdm_base s;
     pm_total_pages := u64 (pm_total_pages s + 1);
     pm_free_pages := pm_free_pages s; pm_initialized := pm_initialized s |}.

(** The inner loop of [pmm_init]: the pages of one usable entry. *)
Definition pmm_add_entry (s : pmm) (entry : memmap_entry) : pmm :=
  if negb (me_type entry =? LIMINE_MEMMAP_USABLE) then s
  else
    let start := align_up (me_base entry) PMM_PAGE_SIZE in
    let end_ := align_down (u64 (me_base entry + me_length entry)) PMM_PAGE_SIZE in
    loop_state (range_loop start end_ PMM_PAGE_SIZE
      (fun page s => if page =? 0 then Cont s else Cont (count_total (push_page s page))) s).

(** [memmap] and [hhdm] are [None] for a NULL response; [m] is the memory the
    boot loader leaves. *)
Definition pmm_init (m : mem) (memmap : option (list memmap_entry)) (hhdm : option Z) : pmm :=
  let reset := {| pm_mem := m; pm_free_list := 0; pm_hhdm_base := 0;
                  pm_total_pages := 0; pm_free_pages := 0; pm_initialized := false |} in
  match memmap, hhdm with
  | Some entries, Some offset =>
      let s0 := {| pm_mem := m; pm_free_list := 0; pm_hhdm_base := offset;
                   pm_total_pages := 0; pm_free_pages := 0; pm_initialized := false |} in
      let s := fold_left pmm_add_entry entries s0 in
      {| pm_mem := pm_mem s; pm_free_list := pm_free_list s;
         pm_hhdm_base := pm_hhdm_base s; pm_total_pages := pm_total_pages s;
         pm_free_pages := pm_free_pages s; pm_initialized := true |}
  | _, _ => reset
  end.

Definition pmm_alloc_page (s : pmm) : Z * pmm :=
  if negb (pm_initialized s) || (pm_free_list s =? 0) then (0, s)
  else
    let page := pm_free_list s in
    (pmm_virt_to_phys s page,
     {| pm_mem := pm_mem s; pm_free_list := load64 (pm_mem s) page;
        pm_hhdm_base := pm_hhdm_base s; pm_total_pages := pm_total_pages s;
        pm_free_pages := u64 (pm_free_pages s - 1);
        pm_initialized := pm_initialized s |}).

Definition pmm_free_page (s : pmm) (physical_address : Z) : pmm :=
  if negb (pm_initialized s) || (physical_address =? 0)
     || negb (Z.land physical_address (PMM_PAGE_SIZE - 1) =? 0)
  then s else push_page s physical_address.

Definition pmm_get_stats (s : pmm) : pmm_stats :=
  let used := u64 (pm_total_pages s - pm_free_pages s) in
  {| ps_total_pages := pm_total_pages s;
     ps_free_pages := pm_free_pages s;
     ps_used_pages := used;
     ps_total_bytes := u64 (pm_total_pages s * PMM_PAGE_SIZE);
     ps_free_bytes := u64 (pm_free_pages s * PMM_PAGE_SIZE);
     ps_used_bytes := u64 (used * PMM_PAGE_SIZE) |}.

Definition pmm_hhdm_offset (s : pmm) : Z := pm_hhdm_base s.

(** ** Representation invariant and client steps *)

(** A page the allocator may manage: aligned, not page zero, and inside the
    direct map without wrapping. *)
Definition page_ok (base p : Z) : Prop :=
  0 < p /\ p mod 4096 = 0 /\ base + p + 4096 <= 18446744073709551616.

(** The free list threaded through memory from virtual address [v]. *)
Fixpoint free_chain (m : mem) (base v : Z) (l : list Z) : Prop :=
  match l with
  | [] => v = 0
  | p :: rest => v = base + p /\ free_chain m base (load64 m (base + p)) rest
  end.

Record pmm_inv (s : pmm) (l : list Z) : Prop := {
  pi_base : 0 <= pm_hhdm_base s;
  pi_pages : Forall (page_ok (pm_hhdm_base s)) l;
  pi_nodup : List.NoDup l;
  pi_chain : free_chain (pm_mem s) (pm_hhdm_base s) (pm_free_list s) l;
  pi_count : pm_free_pages s = u64 (Z.of_nat (length l))
}.

(** What clients of the allocator do: the second component lists the pages
    they hold. A holder may write its own pages, and only those are freed. *)
Inductive pmm_step : pmm * list Z -> pmm * list Z -> Prop :=
  | step_alloc s s' held p :
      pmm_alloc_page s = (p, s') -> p <> 0 ->
      pmm_step (s, held) (s', p :: held)
  | step_alloc_fail s s' held :
      pmm_alloc_page s = (0, s') -> pmm_step (s, held) (s', held)
  | step_free s held1 held2 p :
      pmm_step (s, held1 ++ p :: held2) (pmm_free_page s p, held1 ++ held2)
  | step_write s held p off bs :
      In p held -> 0 <= off -> off + Z.of_nat (length bs) <= 4096 ->
      pmm_step (s, held)
        (set_pm_mem s (mem_write (pm_mem s) (pm_hhdm_base s + p + off) bs), held).

(** The invariant of a whole run: held and free pages partition the pages the
    allocator started with. *)
Definition pmm_sys_inv (all : list Z) (c : pmm * list Z) : Prop :=
  exists l, pmm_inv (fst c) l /\ pm_initialized (fst c) = true
    /\ Forall (page_ok (pm_hhdm_base (fst c))) (snd c)
    /\ Permutation (snd c ++ l) all
    /\ pm_total_pages (fst c) = u64 (Z.of_nat (length all)).

(** The pages of the usable entries of a memory map, in the order in which
    [pmm_init] pushes them. *)
Definition entry_pages (e : memmap_entry) : list Z :=
  if me_type e =? LIMINE_MEMMAP_USABLE then
    let start := align_up (me_base e) PMM_PAGE_SIZE in
    let end_ := align_down (u64 (me_base e + me_length e)) PMM_PAGE_SIZE in
    List.filter (fun p => negb (p =? 0))
      (map (fun i => start + Z.of_nat i * PMM_PAGE_SIZE)
           (seq 0 (trips start end_ PMM_PAGE_SIZE)))
  else [].

Definition usable_pages (entries : list memmap_entry) : list Z :=
  concat (map entry_pages entries).

(** Close [page_ok] goals on concrete pages. *)
Ltac solve_page_ok :=
  cbv [page_ok]; split_and!; [lia | reflexivity | vm_compute; discriminate].

(** ** Lemmas *)

Lemma page_ok_virt base p : 0 <= base -> page_ok base p -> u64 (base + p) = base + p.
Proof. intros Hb (H1 & H2 & H3). apply u64_id. unfold is_u64. lia. Qed.

(** Distinct pages do not overlap. *)
Lemma page_disjoint base p q :
  page_ok base p -> page_ok base q -> p <> q -> p + 4096 <= q \/ q + 4096 <= p.
Proof. intros (_ & Hp & _) (_ & Hq & _) Hne. zlia. Qed.

Lemma free_chain_frame m1 m2 base v l :
  (forall p, In p l -> load64 m1 (base + p) = load64 m2 (base + p)) ->
  free_chain m1 base v l -> free_chain m2 base v l.
Proof.
  revert v; induction l as [|p l IH]; intros v Hm; cbn [free_chain]; [auto|].
  intros [-> Hc]. split; [reflexivity|]. rewrite <- Hm by (left; reflexivity).
  apply IH; [|exact Hc]. intros q Hq. apply Hm. right. exact Hq.
Qed.

Lemma free_chain_range m base v l :
  0 <= base -> Forall (page_ok base) l -> free_chain m base v l -> is_u64 v.
Proof.
  intros Hb Hl Hc. destruct l as [|p l]; cbn [free_chain] in Hc; [subst; zlia|].
  destruct Hc as [-> _]. inversion Hl as [|? ? (? & ? & ?) ?]; subst.
  unfold is_u64. lia.
Qed.

Lemma pmm_alloc_empty s : pmm_inv s [] -> pmm_alloc_page s = (0, s).
Proof.
  intros [_ _ _ Hc _]. cbn [free_chain] in Hc. unfold pmm_alloc_page.
  rewrite Hc, orb_true_r. reflexivity.
Qed.

Lemma pmm_alloc_cons s p l :
  pmm_inv s (p :: l) -> pm_initialized s = true ->
  exists s', pmm_alloc_page s = (p, s') /\ pmm_inv s' l /\ pm_mem s' = pm_mem s
    /\ pm_hhdm_base s' = pm_hhdm_base s /\ pm_initialized s' = true
    /\ pm_total_pages s' = pm_total_pages s.
Proof.
  intros [Hb Hp Hn Hc Hcnt] Hi. cbn [free_chain] in Hc. destruct Hc as [Hv Hc].
  inversion Hp as [|? ? Hp0 Hp1]; subst. inversion Hn; subst.
  destruct Hp0 as (P1 & P2 & P3).
  unfold pmm_alloc_page. rewrite Hi, Hv. cbn [negb orb].
  destruct (Z.eqb_spec (pm_hhdm_base s + p) 0) as [He|He]; [lia|].
  eexists. split.
  { f_equal. unfold pmm_virt_to_phys. rewrite u64_id; [lia|unfold is_u64; lia]. }
  split; [|auto]. constructor; simpl; auto.
  rewrite Hcnt. cbn [length]. zlia.
Qed.

Lemma pmm_inv_set_mem s l m :
  pmm_inv s l ->
  (forall p, In p l -> load64 (pm_mem s) (pm_hhdm_base s + p)
                       = load64 m (pm_hhdm_base s + p)) ->
  pmm_inv (set_pm_mem s m) l.
Proof.
  intros [Hb Hp Hn Hc Hcnt] Hm. constructor; simpl; auto.
  eapply free_chain_frame; eauto.
Qed.

(** Writing inside a page that is not free keeps the free list. *)
Lemma pmm_inv_write s l p off bs :
  pmm_inv s l -> page_ok (pm_hhdm_base s) p -> ~ In p l ->
  0 <= off -> off + Z.of_nat (length bs) <= 4096 ->
  pmm_inv (set_pm_mem s (mem_write (pm_mem s) (pm_hhdm_base s + p + off) bs)) l.
Proof.
  intros H Hp Hin Ho1 Ho2. apply pmm_inv_set_mem; [exact H|].
  intros q Hq. symmetry. apply load_write_disj. simpl Z.of_nat.
  assert (Hpq : p <> q) by (intros ->; auto).
  destruct (page_disjoint (pm_hhdm_base s) p q); auto; [|lia|lia].
  eapply List.Forall_forall; [apply (pi_pages _ _ H)|exact Hq].
Qed.

(** The two writes the page-table code does to a page: zeroing and storing a
    word. *)
Lemma pmm_inv_fill s l p c n :
  pmm_inv s l -> page_ok (pm_hhdm_base s) p -> ~ In p l -> Z.of_nat n <= 4096 ->
  pmm_inv (set_pm_mem s (mem_fill (pm_mem s) (pm_hhdm_base s + p) c n)) l.
Proof.
  intros H Hp Hin Hn. pose proof (pmm_inv_write s l p 0 (repeat (u8 c) n) H Hp Hin) as W.
  rewrite Z.add_0_r in W. apply W; [lia|]. rewrite repeat_length. lia.
Qed.

Lemma pmm_inv_store s l p off v :
  pmm_inv s l -> page_ok (pm_hhdm_base s) p -> ~ In p l -> 0 <= off -> off + 8 <= 4096 ->
  pmm_inv (set_pm_mem s (store64 (pm_mem s) (pm_hhdm_base s + p + off) v)) l.
Proof.
  intros H Hp Hin H1 H2. apply (pmm_inv_write s l p off (le_bytes 8 v)); auto.
Qed.

Lemma push_page_inv s l p :
  pmm_inv s l -> page_ok (pm_hhdm_base s) p -> ~ In p l ->
  pmm_inv (push_page s p) (p :: l).
Proof.
  intros [Hb Hp Hn Hc Hcnt] Hok Hin. unfold push_page, pmm_phys_to_virt.
  constructor; cbn [pm_hhdm_base pm_mem pm_free_list pm_free_pages]; auto.
  - constructor; auto.
  - cbn [free_chain]. split; [apply page_ok_virt; auto|].
    rewrite page_ok_virt by auto. rewrite load_store_eq.
    replace (pm_free_list s mod 256 ^ Z.of_nat 8) with (pm_free_list s)
      by (pose proof (free_chain_range _ _ _ _ Hb Hp Hc); simpl; zlia).
    eapply free_chain_frame; [|exact Hc]. intros q Hq.
    rewrite load_store_disj; [reflexivity|].
    assert (Hpq : p <> q) by (intros ->; auto).
    destruct (page_disjoint (pm_hhdm_base s) p q); auto; [|lia|lia].
    eapply List.Forall_forall; [exact Hp|exact Hq].
  - rewrite Hcnt. cbn [length]. zlia.
Qed.

Lemma pmm_free_page_push s p :
  pm_initialized s = true -> page_ok (pm_hhdm_base s) p ->
  pmm_free_page s p = push_page s p.
Proof.
  intros Hi (H1 & H2 & _). unfold pmm_free_page, PMM_PAGE_SIZE. rewrite Hi.
  change (4096 - 1) with (2 ^ 12 - 1). rewrite land_low by lia.
  change (2 ^ 12) with 4096. rewrite H2.
  destruct (Z.eqb_spec p 0); [lia|reflexivity].
Qed.

Lemma pmm_sys_inv_step all c c' :
  List.NoDup all -> pmm_sys_inv all c -> pmm_step c c' -> pmm_sys_inv all c'.
Proof.
  intros Hall (l & Hinv & Hi & Hheld & Hperm & Htot) Hstep.
  assert (Hnd : List.NoDup (snd c ++ l))
    by (eapply Permutation_NoDup; [apply Permutation_sym, Hperm|exact Hall]).
  inversion Hstep; subst; cbn [fst snd] in *.
  - destruct l as [|q l]; [rewrite (pmm_alloc_empty _ Hinv) in *; congruence|].
    destruct (pmm_alloc_cons _ _ _ Hinv Hi) as (s2 & E & Hinv' & Hm & Hb & Hi' & Ht).
    rewrite E in *. simplify_eq. exists l. cbn [fst snd]. rewrite Hb, Ht.
    split_and!; auto.
    + constructor; [|exact Hheld]. pose proof (pi_pages _ _ Hinv) as Hp. inversion Hp; auto.
    + etransitivity; [|exact Hperm]. apply Permutation_middle.
  - destruct l as [|q l].
    + rewrite (pmm_alloc_empty _ Hinv) in *. simplify_eq. exists []. auto.
    + destruct (pmm_alloc_cons _ _ _ Hinv Hi) as (s2 & E & _). rewrite E in *. simplify_eq.
      pose proof (pi_pages _ _ Hinv) as Hp. inversion Hp as [|? ? (? & _) _]; lia.
  - assert (Hok : page_ok (pm_hhdm_base s) p)
      by (eapply List.Forall_forall; [exact Hheld|apply in_elt]).
    exists (p :: l). rewrite pmm_free_page_push by assumption. cbn [fst snd].
    split_and!; auto.
    + apply push_page_inv; auto. eapply NoDup_app_out; [exact Hnd|]. apply in_elt.
    + apply List.Forall_app in Hheld as [H1 H2]. inversion H2; subst.
      apply List.Forall_app. auto.
    + etransitivity; [|exact Hperm]. rewrite <- !app_assoc. cbn [app].
      apply Permutation_app_head. symmetry. apply Permutation_middle.
  - exists l. cbn [fst snd]. split_and!; auto. apply pmm_inv_write; auto.
    + eapply List.Forall_forall; eauto.
    + eapply NoDup_app_out; eauto.
Qed.

Lemma pmm_sys_inv_reach all c c' :
  List.NoDup all -> rtc pmm_step c c' -> pmm_sys_inv all c -> pmm_sys_inv all c'.
Proof. intros Hall. induction 1; eauto using pmm_sys_inv_step. Qed.

Lemma pmm_add_entry_fold s e :
  pmm_add_entry s e = fold_left (fun s p => count_total (push_page s p)) (entry_pages e) s.
Proof.
  unfold pmm_add_entry, entry_pages.
  destruct (me_type e =? LIMINE_MEMMAP_USABLE); cbn [negb]; [|reflexivity].
  unfold range_loop.
  rewrite (for_loop_fold (fun page s => if page =? 0 then s else count_total (push_page s page)))
    by (intros i s1; destruct (i =? 0); reflexivity).
  cbn [loop_state]. apply fold_left_filter. intros s1 p. destruct (p =? 0); reflexivity.
Qed.

Lemma pmm_add_entries_fold entries s :
  fold_left pmm_add_entry entries s
  = fold_left (fun s p => count_total (push_page s p)) (usable_pages entries) s.
Proof.
  revert s; induction entries as [|e es IH]; intros s; [reflexivity|].
  unfold usable_pages. cbn [fold_left map concat].
  rewrite IH, pmm_add_entry_fold, fold_left_app. reflexivity.
Qed.

Lemma push_pages_inv ps s l :
  pmm_inv s l -> Forall (page_ok (pm_hhdm_base s)) ps -> List.NoDup (ps ++ l) ->
  let s' := fold_left (fun s p => count_total (push_page s p)) ps s in
  pmm_inv s' (rev ps ++ l) /\ pm_hhdm_base s' = pm_hhdm_base s
  /\ pm_total_pages s' = (if ps then pm_total_pages s
                          else u64 (pm_total_pages s + Z.of_nat (length ps))).
Proof.
  revert s l; induction ps as [|p ps IH]; intros s l Hinv Hok Hnd; cbn [fold_left rev].
  { auto. }
  inversion Hok; subst. cbn [app] in Hnd. inversion Hnd as [|? ? Hnin Hnd']; subst.
  assert (Hinv' : pmm_inv (count_total (push_page s p)) (p :: l)).
  { destruct (push_page_inv s l p) as [A B C D E]; auto.
    - intros Hl. apply Hnin, in_or_app. right. exact Hl.
    - constructor; auto. }
  destruct (IH (count_total (push_page s p)) (p :: l)) as (I1 & I2 & I3); auto.
  { eapply Permutation_NoDup; [apply Permutation_middle|]. constructor; auto. }
  split_and!; auto.
  - rewrite <- app_assoc. exact I1.
  - rewrite I3. cbn [length pm_total_pages count_total push_page].
    destruct ps; cbn [length]; zlia.
Qed.

(** ** Properties *)

(** Allocation and free at the representation level: with a free list
    [p :: l] the allocator hands out [p] and keeps [l] without touching memory;
    freeing a page that is not free pushes it; so an allocation right after a
    free returns that page, and an empty list answers 0 unchanged. *)
Theorem pmm_alloc_free_spec (s : pmm) (l : list Z) (p : Z) :
  pmm_inv s l -> pm_initialized s = true ->
  page_ok (pm_hhdm_base s) p -> ~ In p l ->
  pmm_inv (pmm_free_page s p) (p :: l)
  /\ (exists s', pmm_alloc_page (pmm_free_page s p) = (p, s') /\ pmm_inv s' l)
  /\ (l = [] -> pmm_alloc_page s = (0, s)).
Proof.
  intros Hinv Hi Hok Hin. rewrite pmm_free_page_push by assumption.
  pose proof (push_page_inv _ _ _ Hinv Hok Hin) as Hinv'.
  split; [exact Hinv'|]. split.
  - destruct (pmm_alloc_cons _ _ _ Hinv' Hi) as (s' & E & I & _). eauto.
  - intros ->. apply pmm_alloc_empty, Hinv.
Qed.

(** C17. Exclusive ownership: start the allocator on any memory map whose usable
    entries do not overlap, and let clients allocate, free what they hold and
    write what they hold in any order. No page is ever held twice, a held page
    is never on the free list, and the statistics count exactly the pages in
    use. *)
Theorem pmm_exclusive (m : mem) (entries : list memmap_entry) (offset : Z)
    (s : pmm) (held : list Z) :
  0 <= offset -> Forall (page_ok offset) (usable_pages entries) ->
  List.NoDup (usable_pages entries) ->
  Z.of_nat (length (usable_pages entries)) < 18446744073709551616 ->
  rtc pmm_step (pmm_init m (Some entries) (Some offset), []) (s, held) ->
  (exists free, pmm_inv s free /\ List.NoDup (held ++ free)
     /\ Permutation (held ++ free) (usable_pages entries))
  /\ ps_used_pages (pmm_get_stats s) = Z.of_nat (length held).
Proof.
  intros Ho Hok Hnd Hlen Hreach.
  set (s0 := {| pm_mem := m; pm_free_list := 0; pm_hhdm_base := offset;
                pm_total_pages := 0; pm_free_pages := 0; pm_initialized := false |}).
  assert (H0 : pmm_inv s0 []) by (constructor; simpl; auto; constructor).
  destruct (push_pages_inv (usable_pages entries) s0 []) as ([A B C D E] & I2 & I3);
    auto; [rewrite app_nil_r; exact Hnd|].
  apply (pmm_sys_inv_reach (usable_pages entries)) in Hreach; [| exact Hnd |].
  - destruct Hreach as (l & Hinv & _ & _ & Hperm & Htot). cbn [fst snd] in *. split.
    + exists l. split_and!; auto.
      eapply Permutation_NoDup; [apply Permutation_sym, Hperm|exact Hnd].
    + apply Permutation_length in Hperm. rewrite length_app in Hperm.
      unfold pmm_get_stats; cbn [ps_used_pages].
      rewrite Htot, (pi_count _ _ Hinv). zlia.
  - exists (rev (usable_pages entries)). unfold pmm_init.
    rewrite pmm_add_entries_fold. fold s0. cbn [fst snd]. rewrite app_nil_r in *.
    split; [constructor; simpl; auto|]. split_and!; auto.
    + cbn [app]. apply Permutation_sym, Permutation_rev.
    + cbn [pm_total_pages]. rewrite I3. unfold s0; cbn [pm_total_pages].
      destruct (usable_pages entries); reflexivity.
Qed.

(** ** Witnesses *)

(** Two usable pages at 0x1000 and 0x2000, a reserved page above them. *)
Definition demo_memmap : list memmap_entry :=
  [ {| me_base := 0; me_length := 12288; me_type := 0 |};
    {| me_base := 12288; me_length := 4096; me_type := 1 |} ].

Definition demo_pmm : pmm :=
  pmm_init (fun _ => 0) (Some demo_memmap) (Some 18446603336221196288).

Lemma demo_usable : usable_pages demo_memmap = [4096; 8192].
Proof. vm_compute. reflexivity. Qed.

Lemma demo_pages_ok : Forall (page_ok 18446603336221196288) [4096; 8192].
Proof. do 2 (constructor; [solve_page_ok|]). constructor. Qed.

Lemma pmm_exclusive_witness :
  exists s held, held = [8192] /\ ps_used_pages (pmm_get_stats s) = Z.of_nat (length held).
Proof.
  exists (snd (pmm_alloc_page demo_pmm)), [8192]. split; [reflexivity|].
  refine (proj2 (pmm_exclusive (fun _ => 0) demo_memmap 18446603336221196288 _ [8192] _ _ _ _ _)).
  - lia.
  - rewrite demo_usable. exact demo_pages_ok.
  - rewrite demo_usable. repeat constructor; simpl; lia.
  - rewrite demo_usable. simpl. lia.
  - apply rtc_once. fold demo_pmm.
    apply (step_alloc demo_pmm (snd (pmm_alloc_page demo_pmm)) [] 8192); [|lia].
    rewrite (surjective_pairing (pmm_alloc_page demo_pmm)) at 1.
    apply f_equal2; [vm_compute|]; reflexivity.
Defined.

Lemma pmm_alloc_free_spec_witness :
  exists s', pmm_alloc_page (pmm_free_page (snd (pmm_alloc_page demo_pmm)) 8192) = (8192, s').
Proof.
  assert (Hinv : pmm_inv (snd (pmm_alloc_page demo_pmm)) [4096]).
  { constructor.
    - vm_compute. discriminate.
    - constructor; [|constructor]. solve_page_ok.
    - constructor; [intros []|constructor].
    - vm_compute. split; reflexivity.
    - vm_compute. reflexivity. }
  destruct (pmm_alloc_free_spec _ _ 8192 Hinv) as (_ & (s' & E & _) & _); eauto.
  - solve_page_ok.
  - intros [H|[]]. lia.
Defined.
