(* ===== verification/Vmm.v ===== *)
(** * Page tables (src/memory/vmm.c)

    The four-level x86-64 tables live in the memory of the page allocator
    (Pmm.v) and are walked through the direct map, entry by entry, as vmm.c
    does. [vmm] adds the two static variables of vmm.c and the hardware state
    they mirror: the CR3 register and the trace of [invlpg] instructions.
    [translate] is the specification: the address translation a set of tables
    denotes. *)

From S2P Require Import Prelude Pmm.

Definition VMM_PAGE_SIZE : Z := 4096.
Definition VMM_HUGE_2M_SIZE : Z := 2 * 1024 * 1024.
Definition VMM_HUGE_1G_SIZE : Z := 1024 * 1024 * 1024.

Definition VMM_PRESENT : Z := 1.
Definition VMM_WRITABLE : Z := 2.
Definition VMM_USER : Z := 4.
Definition VMM_HUGE : Z := 128.
Definition VMM_NOEXEC : Z := 9223372036854775808.

Definition PTE_ADDR_MASK : Z := 0x000ffffffffff000.
Definition PTE_HUGE_2M_ADDR_MASK : Z := 0x000fffffffe00000.
Definition PTE_HUGE_1G_ADDR_MASK : Z := 0x000fffffc0000000.
Definition PTE_TABLE_FLAGS : Z := Z.lor VMM_PRESENT VMM_WRITABLE.

Record vmm : Type := mk_vmm {
  vm_pmm : pmm;
  vm_kernel_cr3 : Z;
  vm_pml4 : Z;          (* 0 is NULL *)
  vm_cr3 : Z;           (* the CR3 register *)
  vm_invlpg : list Z    (* invlpg instructions issued, latest first *)
}.

(** [struct vmm_mapping]: the address of the entry and its level. *)
Record vmm_mapping : Type := mk_mapping {
  mp_entry : Z;
  mp_shift : Z
}.

Definition vm_mem (s : vmm) : mem := pm_mem (vm_pmm s).
Definition vm_base (s : vmm) : Z := pm_hhdm_base (vm_pmm s).

Definition set_vm_pmm (s : vmm) (p : pmm) : vmm :=
  {| vm_pmm := p; vm_kernel_cr3 := vm_kernel_cr3 s; vm_pml4 := vm_pml4 s;
     vm_cr3 := vm_cr3 s; vm_invlpg := vm_invlpg s |}.

Definition set_vm_mem (s : vmm) (m : mem) : vmm :=
  set_vm_pmm s (set_pm_mem (vm_pmm s) m).

Definition invlpg (s : vmm) (virtual_address : Z) : vmm :=
  {| vm_pmm := vm_pmm s; vm_kernel_cr3 := vm_kernel_cr3 s; vm_pml4 := vm_pml4 s;
     vm_cr3 := vm_cr3 s; vm_invlpg := virtual_address :: vm_invlpg s |}.

Definition table_index (virtual_address shift : Z) : Z :=
  Z.land (Z.shiftr virtual_address shift) 0x1ff.

Definition entry_to_table (s : vmm) (entry : Z) : Z :=
  pmm_phys_to_virt (vm_pmm s) (Z.land entry PTE_ADDR_MASK).

Definition is_present (entry : Z) : bool := negb (Z.land entry VMM_PRESENT =? 0).

Definition is_huge_entry (entry shift : Z) : bool :=
  ((shift =? 30) || (shift =? 21)) && negb (Z.land entry VMM_HUGE =? 0).

(** [None] is the NULL pointer. *)
Definition ensure_next_table (s : vmm) (table index shift flags : Z) : option Z * vmm :=
  let entry := load64 (vm_mem s) (table + 8 * index) in
  if is_present entry then
    if is_huge_entry entry shift then (None, s) else (Some (entry_to_table s entry), s)
  else
    let '(page, pm) := pmm_alloc_page (vm_pmm s) in
    let s := set_vm_pmm s pm in
    if page =? 0 then (None, s)
    else
      let table_virtual := pmm_phys_to_virt (vm_pmm s) page in
      let s := set_vm_mem s (mem_fill (vm_mem s) table_virtual 0 (Z.to_nat VMM_PAGE_SIZE)) in
      let s := set_vm_mem s (store64 (vm_mem s) (table + 8 * index)
                 (Z.lor (Z.lor page PTE_TABLE_FLAGS) (Z.land flags VMM_USER))) in
      (Some table_virtual, s).

(** The loop over the level shifts; the result is the mapping when the C
    function returns true. *)
Fixpoint walk_levels (shifts : list Z) (s : vmm) (table virtual_address : Z)
    (create : bool) (flags target_shift : Z) : option vmm_mapping * vmm :=
  match shifts with
  | [] => (None, s)
  | shift :: rest =>
      let index := table_index virtual_address shift in
      let entry_ptr := table + 8 * index in
      if shift =? target_shift then (Some (mk_mapping entry_ptr shift), s)
      else
        let entry := load64 (vm_mem s) entry_ptr in
        if negb (is_present entry) then
          if negb create then (None, s)
          else match ensure_next_table s table index shift flags with
               | (None, s) => (None, s)
               | (Some table, s) =>
                   walk_levels rest s table virtual_address create flags target_shift
               end
        else if is_huge_entry entry shift then
          (if create then None else Some (mk_mapping entry_ptr shift), s)
        else walk_levels rest s (entry_to_table s entry) virtual_address create flags target_shift
  end.

Definition level_shifts : list Z := [39; 30; 21; 12].

Definition walk_to_level_in_root (s : vmm) (root virtual_address : Z) (create : bool)
    (flags target_shift : Z) : res (option vmm_mapping * vmm) :=
  kassert (negb (root =? 0)) ≫= fun _ =>
  Ret (walk_levels level_shifts s root virtual_address create flags target_shift).

Definition walk_to_level (s : vmm) (virtual_address : Z) (create : bool)
    (target_shift : Z) : res (option vmm_mapping * vmm) :=
  walk_to_level_in_root s (vm_pml4 s) virtual_address create 0 target_shift.

Definition walk_to_existing_mapping (s : vmm) (virtual_address : Z)
    : res (option vmm_mapping * vmm) :=
  walk_to_level s virtual_address false 12 ≫= fun '(r, s) =>
  Ret match r with
      | None => (None, s)
      | Some mapping =>
          if is_present (load64 (vm_mem s) (mp_entry mapping))
          then (Some mapping, s) else (None, s)
      end.

Definition addresses_are_aligned (virtual_address physical_address page_size : Z) : bool :=
  let mask := page_size - 1 in
  (Z.land virtual_address mask =? 0) && (Z.land physical_address mask =? 0).

Definition map_at_level_in_root (s : vmm)
    (root virtual_address physical_address page_size target_shift flags : Z)
    : res (bool * vmm) :=
  if negb (addresses_are_aligned virtual_address physical_address page_size)
  then Ret (false, s)
  else
    walk_to_level_in_root s root virtual_address true flags target_shift ≫= fun '(r, s) =>
    Ret match r with
        | None => (false, s)
        | Some mapping =>
            if negb (mp_shift mapping =? target_shift)
               || is_present (load64 (vm_mem s) (mp_entry mapping))
            then (false, s)
            else
              let entry_flags := Z.lor flags VMM_PRESENT in
              let entry_flags := if negb (target_shift =? 12)
                                 then Z.lor entry_flags VMM_HUGE else entry_flags in
              let s := set_vm_mem s (store64 (vm_mem s) (mp_entry mapping)
                         (Z.lor physical_address entry_flags)) in
              (true, if root =? vm_pml4 s then invlpg s virtual_address else s)
        end.

Definition map_at_level (s : vmm)
    (virtual_address physical_address page_size target_shift flags : Z) : res (bool * vmm) :=
  map_at_level_in_root s (vm_pml4 s) virtual_address physical_address page_size
    target_shift flags.

Definition vmm_init (s : vmm) : vmm :=
  let kernel_cr3 := Z.land (vm_cr3 s) PTE_ADDR_MASK in
  {| vm_pmm := vm_pmm s; vm_kernel_cr3 := kernel_cr3;
     vm_pml4 := pmm_phys_to_virt (vm_pmm s) kernel_cr3;
     vm_cr3 := vm_cr3 s; vm_invlpg := vm_invlpg s |}.

Definition vmm_create_address_space (s : vmm) : res (Z * vmm) :=
  kassert (negb (vm_pml4 s =? 0)) ≫= fun _ =>
  Ret (let '(new_pml4_phys, pm) := pmm_alloc_page (vm_pmm s) in
       let s := set_vm_pmm s pm in
       if new_pml4_phys =? 0 then (0, s)
       else
         let new_pml4 := pmm_phys_to_virt (vm_pmm s) new_pml4_phys in
         let s := set_vm_mem s (mem_fill (vm_mem s) new_pml4 0 (Z.to_nat VMM_PAGE_SIZE)) in
         let s := loop_state (range_loop 256 512 1
           (fun i s => Cont (set_vm_mem s (store64 (vm_mem s) (new_pml4 + 8 * i)
                               (load64 (vm_mem s) (vm_pml4 s + 8 * i))))) s) in
         (new_pml4_phys, s)).

Definition vmm_activate_address_space (s : vmm) (pml4_phys : Z) : vmm :=
  let pml4_phys := if pml4_phys =? 0 then vm_kernel_cr3 s else pml4_phys in
  {| vm_pmm := vm_pmm s; vm_kernel_cr3 := vm_kernel_cr3 s;
     vm_pml4 := pmm_phys_to_virt (vm_pmm s) pml4_phys;
     vm_cr3 := pml4_phys; vm_invlpg := vm_invlpg s |}.

Definition vmm_map_page (s : vmm) (virtual_address physical_address flags : Z)
    : res (bool * vmm) :=
  map_at_level s virtual_address physical_address VMM_PAGE_SIZE 12 flags.

Definition vmm_map_page_in_space (s : vmm)
    (pml4_phys virtual_address physical_address flags : Z) : res (bool * vmm) :=
  if pml4_phys =? 0 then Ret (false, s)
  else map_at_level_in_root s (pmm_phys_to_virt (vm_pmm s) pml4_phys) virtual_address
         physical_address VMM_PAGE_SIZE 12 flags.

Definition vmm_map_huge_2m (s : vmm) (virtual_address physical_address flags : Z)
    : res (bool * vmm) :=
  map_at_level s virtual_address physical_address VMM_HUGE_2M_SIZE 21 flags.

Definition vmm_map_huge_1g (s : vmm) (virtual_address physical_address flags : Z)
    : res (bool * vmm) :=
  map_at_level s virtual_address physical_address VMM_HUGE_1G_SIZE 30 flags.

Definition vmm_unmap_page (s : vmm) (virtual_address : Z) : res (bool * vmm) :=
  if negb (Z.land virtual_address (VMM_PAGE_SIZE - 1) =? 0) then Ret (false, s)
  else
    walk_to_existing_mapping s virtual_address ≫= fun '(r, s) =>
    Ret match r with
        | None => (false, s)
        | Some mapping =>
            if negb (mp_shift mapping =? 12)
               && negb (Z.land virtual_address (Z.shiftl 1 (mp_shift mapping) - 1) =? 0)
            then (false, s)
            else (true, invlpg (set_vm_mem s (store64 (vm_mem s) (mp_entry mapping) 0))
                          virtual_address)
        end.

(** [None] is a false return; the C callers all pass a non-NULL out pointer. *)
Definition vmm_virt_to_phys (s : vmm) (virtual_address : Z) : res (option Z) :=
  walk_to_existing_mapping s virtual_address ≫= fun '(r, s) =>
  Ret match r with
      | None => None
      | Some mapping =>
          let mask := if mp_shift mapping =? 30 then PTE_HUGE_1G_ADDR_MASK
                      else if mp_shift mapping =? 21 then PTE_HUGE_2M_ADDR_MASK
                      else PTE_ADDR_MASK in
          Some (Z.lor (Z.land (load64 (vm_mem s) (mp_entry mapping)) mask)
                      (Z.land virtual_address (Z.shiftl 1 (mp_shift mapping) - 1)))
      end.

(** ** Specification: the translation denoted by the tables *)

(** The entry that maps [va], found from table [t] on. *)
Fixpoint pt_lookup (m : mem) (base t : Z) (shifts : list Z) (va : Z) : option (Z * Z) :=
  match shifts with
  | [] => None
  | shift :: rest =>
      let e := load64 m (t + 8 * table_index va shift) in
      if negb (is_present e) then None
      else if shift =? 12 then Some (e, 12)
      else if is_huge_entry e shift then Some (e, shift)
      else pt_lookup m base (u64 (base + Z.land e PTE_ADDR_MASK)) rest va
  end.

Definition translate (s : vmm) (root va : Z) : option Z :=
  match pt_lookup (vm_mem s) (vm_base s) root level_shifts va with
  | None => None
  | Some (e, shift) =>
      let mask := if shift =? 30 then PTE_HUGE_1G_ADDR_MASK
                  else if shift =? 21 then PTE_HUGE_2M_ADDR_MASK else PTE_ADDR_MASK in
      Some (Z.lor (Z.land e mask) (Z.land va (Z.shiftl 1 shift - 1)))
  end.

(** The table reached from [t] along a list of indices. *)
Fixpoint pt_table (m : mem) (base t : Z) (shifts : list Z) (idx : list Z) {struct idx} : option Z :=
  match idx, shifts with
  | [], _ => Some t
  | i :: idx', shift :: rest =>
      let e := load64 m (t + 8 * i) in
      if is_present e && negb (is_huge_entry e shift)
      then pt_table m base (u64 (base + Z.land e PTE_ADDR_MASK)) rest idx'
      else None
  | _, [] => None
  end.

Definition dir_shifts : list Z := [39; 30; 21].

Definition index_ok (i : Z) : Prop := 0 <= i < 512.

Definition phys_ok (p : Z) : Prop := 0 <= p < 4503599627370496 /\ p mod 4096 = 0.

(** The tables below [root] form a tree of distinct pages, none of them free. *)
Record table_tree (m : mem) (base root : Z) (free : list Z) : Prop := {
  tt_pages : forall idx t, Forall index_ok idx ->
    pt_table m base root dir_shifts idx = Some t ->
    exists p, t = base + p /\ page_ok base p /\ ~ In p free;
  tt_inj : forall idx1 idx2 t, Forall index_ok idx1 -> Forall index_ok idx2 ->
    pt_table m base root dir_shifts idx1 = Some t ->
    pt_table m base root dir_shifts idx2 = Some t -> idx1 = idx2
}.

(** A page a frame of memory may be: named by a page-table entry, and inside
    the direct map. *)
Definition frame_ok (base p : Z) : Prop := phys_ok p /\ page_ok base p.

(** The state of the allocator and of the tables below [root]: [free] is the
    free list and [held] the pages other parts of the kernel own; neither
    contains a table. *)
Record pt_inv (s : vmm) (root : Z) (held free : list Z) : Prop := {
  pt_pmm : pmm_inv (vm_pmm s) free;
  pt_init : pm_initialized (vm_pmm s) = true;
  pt_frames : Forall (frame_ok (vm_base s)) (free ++ held);
  pt_nodup : List.NoDup (free ++ held);
  pt_tree : table_tree (vm_mem s) (vm_base s) root (free ++ held)
}.

(** The 36-bit virtual page number: what the four table indices see. *)
Definition vpn (va : Z) : Z := (va / 4096) mod 68719476736.

(** ** Lemmas: bit masks *)

Lemma addr_mask_phys p : phys_ok p -> Z.land p PTE_ADDR_MASK = p.
Proof.
  intros [Hr Hm]. change PTE_ADDR_MASK with (Z.land (2 ^ 52 - 1) (not64 (2 ^ 12 - 1))).
  rewrite Z.land_assoc, land_low by lia. rewrite Z.mod_small by (simpl; lia).
  rewrite land_not64 by (unfold is_u64; lia). change (2 ^ 12) with 4096. lia.
Qed.

Lemma addr_mask_aligned e : Z.land e PTE_ADDR_MASK mod 2 ^ 12 = 0.
Proof.
  rewrite <- land_low, <- Z.land_assoc by lia. apply Z.land_0_r.
Qed.

Lemma land_mask_sub p m : phys_ok p -> Z.land PTE_ADDR_MASK m = 0 -> Z.land p m = 0.
Proof.
  intros Hp Hm. rewrite <- (addr_mask_phys p Hp), <- Z.land_assoc, Hm. apply Z.land_0_r.
Qed.

(** The entry [ensure_next_table] installs: present, not huge, pointing to the
    new page. *)
Lemma table_entry_ok page flags shift :
  phys_ok page ->
  let e := Z.lor (Z.lor page PTE_TABLE_FLAGS) (Z.land flags VMM_USER) in
  is_present e = true /\ is_huge_entry e shift = false
  /\ Z.land e PTE_ADDR_MASK = page /\ is_u64 e.
Proof.
  intros Hp e. unfold is_present, is_huge_entry.
  assert (Hl : forall m, Z.land e m = Z.lor (Z.lor (Z.land page m) (Z.land PTE_TABLE_FLAGS m))
      (Z.land flags (Z.land VMM_USER m))).
  { intros m. unfold e. rewrite !Z.land_lor_distr_l, <- Z.land_assoc. reflexivity. }
  rewrite !Hl, (land_mask_sub page VMM_PRESENT), (land_mask_sub page VMM_HUGE), addr_mask_phys
    by (reflexivity || assumption).
  change (Z.land VMM_USER VMM_PRESENT) with 0. change (Z.land VMM_USER VMM_HUGE) with 0.
  change (Z.land VMM_USER PTE_ADDR_MASK) with 0.
  change (Z.land PTE_TABLE_FLAGS VMM_PRESENT) with 1.
  change (Z.land PTE_TABLE_FLAGS VMM_HUGE) with 0.
  change (Z.land PTE_TABLE_FLAGS PTE_ADDR_MASK) with 0.
  rewrite !Z.land_0_r, !Z.lor_0_r. simpl. rewrite andb_false_r. split_and!; auto.
  destruct Hp as [Hr _]. apply (lor_lt_pow2 _ _ 64); [lia| |].
  - apply lor_lt_pow2; [lia|lia|]. split; reflexivity || discriminate.
  - rewrite Z.land_comm. apply land_lt_pow2; [lia|]. split; reflexivity || discriminate.
Qed.

(** The leaf entry [map_at_level_in_root] installs at level 12. *)
Lemma leaf_entry_ok pa flags :
  phys_ok pa -> is_u64 flags -> Z.land flags PTE_ADDR_MASK = 0 ->
  let e := Z.lor pa (Z.lor flags VMM_PRESENT) in
  is_present e = true /\ Z.land e PTE_ADDR_MASK = pa /\ is_u64 e.
Proof.
  intros Hp Hf Hm e. unfold is_present, e. split_and!.
  - rewrite !Z.land_lor_distr_l, (land_mask_sub pa VMM_PRESENT), Z.lor_0_l by (reflexivity || assumption).
    change (Z.land VMM_PRESENT VMM_PRESENT) with 1. apply negb_true_iff, Z.eqb_neq. intros H.
    apply Z.lor_eq_0_iff in H. lia.
  - rewrite !Z.land_lor_distr_l, Hm, addr_mask_phys by assumption.
    change (Z.land VMM_PRESENT PTE_ADDR_MASK) with 0. rewrite !Z.lor_0_r. reflexivity.
  - destruct Hp as [Hr _]. apply (lor_lt_pow2 _ _ 64); [lia|lia|].
    apply lor_lt_pow2; [lia|exact Hf|]. split; reflexivity || discriminate.
Qed.

Lemma entry_zero_absent : is_present 0 = false.
Proof. reflexivity. Qed.

Lemma table_index_ok va shift : index_ok (table_index va shift).
Proof.
  unfold index_ok, table_index. change 0x1ff with (2 ^ 9 - 1). rewrite land_low by lia.
  apply Z.mod_pos_bound. lia.
Qed.

Lemma table_index_div va shift : 0 <= shift -> table_index va shift = (va / 2 ^ shift) mod 512.
Proof.
  intros Hs. unfold table_index. change 0x1ff with (2 ^ 9 - 1).
  rewrite land_low, Z.shiftr_div_pow2 by lia. reflexivity.
Qed.

(** The four indices determine the virtual page number and conversely. *)
Lemma vpn_indices va1 va2 :
  vpn va1 = vpn va2 <->
  Forall (fun sh => table_index va1 sh = table_index va2 sh) level_shifts.
Proof.
  unfold level_shifts, vpn. rewrite !List.Forall_cons_iff, !table_index_div by lia.
  change (2 ^ 39) with (4096 * 512 * 512 * 512). change (2 ^ 30) with (4096 * 512 * 512).
  change (2 ^ 21) with (4096 * 512). change (2 ^ 12) with 4096.
  rewrite <- !(Z.div_div _ _ 512) by lia. split.
  - intros H. repeat split; auto; zlia.
  - intros (H1 & H2 & H3 & H4 & _). zlia.
Qed.

(** ** Lemmas: following tables *)

(** One more step along an index path. *)
Definition pt_step (m : mem) (base t sh i : Z) : option Z :=
  let e := load64 m (t + 8 * i) in
  if is_present e && negb (is_huge_entry e sh)
  then Some (u64 (base + Z.land e PTE_ADDR_MASK)) else None.

Lemma pt_table_snoc m base t shs idx i :
  pt_table m base t shs (idx ++ [i])
  = match pt_table m base t shs idx, shs !! length idx with
    | Some t', Some sh => pt_step m base t' sh i
    | _, _ => None
    end.
Proof.
  revert t shs; induction idx as [|j idx IH]; intros t shs; cbn [pt_table length app].
  - destruct shs as [|sh0 shs]; reflexivity.
  - destruct shs as [|sh0 shs]; [reflexivity|].
    change ((sh0 :: shs) !! Datatypes.S (length idx)) with (shs !! length idx).
    destruct (is_present _ && _); [apply IH|reflexivity].
Qed.

Lemma dir_level_drop n : (n < 3)%nat ->
  exists sh, dir_shifts !! n = Some sh /\ drop n level_shifts = sh :: drop (Datatypes.S n) level_shifts
    /\ drop n dir_shifts = sh :: drop (Datatypes.S n) dir_shifts /\ (sh =? 12) = false
    /\ exists sh', drop (Datatypes.S n) level_shifts = sh' :: drop (Datatypes.S (Datatypes.S n)) level_shifts.
Proof. intros H. do 3 (destruct n as [|n]; [simpl; eauto 10|]). lia. Qed.

(** The word of entry [i] of the table at page [p]. *)
Lemma entry_in_page p q i j :
  index_ok i -> index_ok j -> p + 4096 <= q \/ q + 4096 <= p \/ (p = q /\ i <> j) ->
  p + 8 * i + 8 <= q + 8 * j \/ q + 8 * j + 8 <= p + 8 * i.
Proof. unfold index_ok. lia. Qed.

(** Two entries of the tree at different places are different words. *)
Lemma tree_entry_disj m base root free idx1 idx2 t1 t2 i j :
  table_tree m base root free ->
  Forall index_ok idx1 -> Forall index_ok idx2 -> index_ok i -> index_ok j ->
  pt_table m base root dir_shifts idx1 = Some t1 ->
  pt_table m base root dir_shifts idx2 = Some t2 ->
  idx1 ++ [i] <> idx2 ++ [j] ->
  t1 + 8 * i + 8 <= t2 + 8 * j \/ t2 + 8 * j + 8 <= t1 + 8 * i.
Proof.
  intros [Hp Hi] F1 F2 Fi Fj E1 E2 Hne.
  destruct (Hp _ _ F1 E1) as (p1 & -> & P1 & _). destruct (Hp _ _ F2 E2) as (p2 & -> & P2 & _).
  apply entry_in_page; auto. destruct (Z.eq_dec p1 p2) as [->|Hpp].
  - right. right. split; [reflexivity|]. intros ->. apply Hne. f_equal. eapply Hi; eauto.
  - destruct (page_disjoint base p1 p2) as [H|H]; auto; lia.
Qed.

Lemma map_index_ok va shs : Forall index_ok (map (table_index va) shs).
Proof. apply List.Forall_map, List.Forall_forall. intros. apply table_index_ok. Qed.

(** *** Installing a new, empty table *)

Section NewTable.
Context (m : mem) (base root p : Z) (free : list Z).
Context (Hbase : 0 <= base) (Hp : phys_ok p) (Hpok : page_ok base p).
Context (Htree : table_tree m base root (p :: free)).
Context (idx : list Z) (i t e sh : Z).
Context (Hidx : Forall index_ok idx) (Hi : index_ok i).
Context (Ht : pt_table m base root dir_shifts idx = Some t).
Context (Hsh : dir_shifts !! length idx = Some sh).
Context (Habs : is_present (load64 m (t + 8 * i)) = false).
Context (He1 : is_present e = true) (He2 : is_huge_entry e sh = false)
        (He3 : Z.land e PTE_ADDR_MASK = p) (He4 : is_u64 e).

Let m' := store64 (mem_fill m (base + p) 0 (Z.to_nat VMM_PAGE_SIZE)) (t + 8 * i) e.

Lemma new_table_other js tj k :
  Forall index_ok js -> index_ok k -> pt_table m base root dir_shifts js = Some tj ->
  js ++ [k] <> idx ++ [i] -> load64 m' (tj + 8 * k) = load64 m (tj + 8 * k).
Proof using All.
  intros Fj Fk Ej Hne. unfold m'. rewrite load_store_disj, load_fill_disj; [reflexivity| |].
  - destruct (tt_pages _ _ _ _ Htree _ _ Fj Ej) as (q & -> & Q1 & Q2).
    assert (q <> p) by (intros ->; apply Q2; left; reflexivity).
    unfold index_ok in *. destruct (page_disjoint base p q) as [D|D]; auto; unfold VMM_PAGE_SIZE; lia.
  - pose proof (tree_entry_disj _ _ _ _ _ _ _ _ _ _ Htree Fj Hidx Fk Hi Ej Ht Hne). lia.
Qed.

Lemma new_table_entry : load64 m' (t + 8 * i) = e.
Proof using All. unfold m'. rewrite load_store_eq. simpl Z.of_nat. apply u64_id, He4. Qed.

Lemma new_table_zero k : index_ok k -> load64 m' (base + p + 8 * k) = 0.
Proof using All.
  intros Fk. unfold m'. destruct (tt_pages _ _ _ _ Htree _ _ Hidx Ht) as (q & -> & Q1 & Q2).
  assert (q <> p) by (intros ->; apply Q2; left; reflexivity).
  destruct (page_disjoint base p q) as [D|D]; auto; unfold index_ok in *;
    (rewrite load_store_disj by lia; apply load_fill_zero; unfold VMM_PAGE_SIZE; lia).
Qed.

Lemma new_table_next : u64 (base + Z.land e PTE_ADDR_MASK) = base + p.
Proof using All. rewrite He3. apply page_ok_virt; auto. Qed.

Lemma new_table_tables js :
  Forall index_ok js ->
  pt_table m' base root dir_shifts js
  = if decide (js = idx ++ [i]) then Some (base + p)
    else pt_table m base root dir_shifts js.
Proof using All.
  induction js as [|k js IH] using rev_ind; intros F.
  { rewrite decide_False; [reflexivity|]. destruct idx; discriminate. }
  apply List.Forall_app in F as [Fj Fk]. apply List.Forall_inv in Fk.
  rewrite !pt_table_snoc, IH by exact Fj. clear IH.
  destruct (decide (js = idx ++ [i])) as [->|Hne].
  - rewrite decide_False by (intros E; apply (f_equal length) in E;
      rewrite !length_app in E; cbn [length] in E; lia).
    rewrite (pt_table_snoc m), Ht, Hsh. unfold pt_step at 2. cbn zeta. rewrite Habs. cbn [andb].
    destruct (dir_shifts !! length (idx ++ [i])); [|reflexivity].
    unfold pt_step. rewrite new_table_zero by exact Fk. reflexivity.
  - destruct (pt_table m base root dir_shifts js) as [tj|] eqn:Ej.
    2:{ rewrite decide_False; [reflexivity|]. intros E.
        apply app_inj_tail in E as [-> ->]. congruence. }
    destruct (decide (js ++ [k] = idx ++ [i])) as [E|E].
    + apply app_inj_tail in E as [-> ->]. rewrite Hsh.
      assert (tj = t) as -> by congruence.
      unfold pt_step. rewrite new_table_entry, new_table_next, He1, He2. reflexivity.
    + destruct (dir_shifts !! length js) as [shj|]; [|reflexivity].
      unfold pt_step. rewrite (new_table_other js) by assumption. reflexivity.
Qed.

Lemma new_table_tree : ~ In p free -> table_tree m' base root free.
Proof using All.
  intros Hpf. destruct Htree as [Tp Ti].
  assert (Hnew : forall js q, Forall index_ok js ->
      pt_table m base root dir_shifts js = Some q -> q <> base + p).
  { intros js q Fj Ej Eq. destruct (Tp _ _ Fj Ej) as (p2 & -> & _ & Hn).
    apply Hn. left. lia. }
  split.
  - intros js tj Fj. rewrite new_table_tables by exact Fj.
    destruct (decide _) as [->|_]; [intros [= <-]; eauto|]. intros Ej.
    destruct (Tp _ _ Fj Ej) as (q & -> & Q1 & Q2). exists q. split_and!; auto.
    intros Hq. apply Q2. right. exact Hq.
  - intros js1 js2 tj F1 F2. rewrite !new_table_tables by assumption.
    destruct (decide (js1 = idx ++ [i])) as [->|_], (decide (js2 = idx ++ [i])) as [->|_]; auto.
    + intros [= <-] E2. exfalso. eapply (Hnew js2); eauto.
    + intros E1 [= <-]. exfalso. eapply (Hnew js1); eauto.
    + apply Ti; auto.
Qed.

(** Every translation is the same as before: the new table is empty. *)
Lemma new_table_lookup va n tj :
  (n <= 3)%nat ->
  pt_table m base root dir_shifts (map (table_index va) (take n level_shifts)) = Some tj ->
  pt_lookup m' base tj (drop n level_shifts) va = pt_lookup m base tj (drop n level_shifts) va.
Proof using All.
  intros Hn. remember (3 - n)%nat as d eqn:Hd. revert n tj Hn Hd.
  induction d as [|d IH]; intros n tj Hn Hd Ej.
  - assert (n = 3%nat) as -> by lia. cbn [drop level_shifts pt_lookup].
    rewrite (new_table_other _ _ _ (map_index_ok va _) (table_index_ok va 12) Ej); [reflexivity|].
    intros E. apply (f_equal length) in E. rewrite !length_app, length_map in E.
    apply lookup_lt_Some in Hsh. cbn in *. lia.
  - destruct (dir_level_drop n) as (shj & L1 & L2 & _ & L4 & sh' & L5); [lia|].
    rewrite L2. cbn [pt_lookup]. rewrite L4.
    set (js := map (table_index va) (take n level_shifts)) in *.
    assert (Hlen : length js = n).
    { unfold js. rewrite length_map, length_take. cbn. lia. }
    assert (Hsn : map (table_index va) (take (Datatypes.S n) level_shifts)
                  = js ++ [table_index va shj]).
    { unfold js. rewrite (take_S_r _ _ shj), map_app; [reflexivity|].
      pose proof (f_equal (fun l => l !! 0%nat) L2) as E. rewrite lookup_drop, Nat.add_0_r in E.
      exact E. }
    destruct (decide (js ++ [table_index va shj] = idx ++ [i])) as [E|E].
    + apply app_inj_tail in E as [Ejs Ei]. rewrite Ejs in Ej, Hlen.
      assert (tj = t) as -> by congruence. rewrite Ei.
      assert (shj = sh) as -> by (rewrite Hlen in Hsh; congruence).
      rewrite Habs, new_table_entry, He1, He2, new_table_next, L5. cbn [negb pt_lookup].
      rewrite new_table_zero by apply table_index_ok. reflexivity.
    + rewrite (new_table_other js tj _ (map_index_ok va _) (table_index_ok va shj) Ej E).
      set (ej := load64 m (tj + 8 * table_index va shj)).
      destruct (is_present ej) eqn:Hpres; cbn [negb]; [|reflexivity].
      destruct (is_huge_entry ej shj) eqn:Hhuge; [reflexivity|].
      apply IH; [lia|lia|]. rewrite Hsn, pt_table_snoc, Ej, Hlen, L1.
      unfold pt_step. fold ej. rewrite Hpres, Hhuge. reflexivity.
Qed.
End NewTable.

(** *** Writing a leaf entry *)

Section LeafStore.
Context (m : mem) (base root : Z) (free : list Z).
Context (Htree : table_tree m base root free).
Context (idx : list Z) (i t e : Z).
Context (Hidx : Forall index_ok idx) (Hi : index_ok i) (Hlen : length idx = 3%nat).
Context (Ht : pt_table m base root dir_shifts idx = Some t) (He : is_u64 e).

Let m' := store64 m (t + 8 * i) e.

Lemma leaf_store_other js tj k :
  Forall index_ok js -> index_ok k -> pt_table m base root dir_shifts js = Some tj ->
  js ++ [k] <> idx ++ [i] -> load64 m' (tj + 8 * k) = load64 m (tj + 8 * k).
Proof using All.
  intros Fj Fk Ej Hne. unfold m'. apply load_store_disj.
  pose proof (tree_entry_disj _ _ _ _ _ _ _ _ _ _ Htree Fj Hidx Fk Hi Ej Ht Hne). lia.
Qed.

Lemma leaf_store_tables js :
  Forall index_ok js -> pt_table m' base root dir_shifts js = pt_table m base root dir_shifts js.
Proof using All.
  induction js as [|k js IH] using rev_ind; intros F; [reflexivity|].
  apply List.Forall_app in F as [Fj Fk]. apply List.Forall_inv in Fk.
  rewrite !pt_table_snoc, IH by exact Fj.
  destruct (pt_table m base root dir_shifts js) as [tj|] eqn:Ej; [|reflexivity].
  destruct (dir_shifts !! length js) as [sh|] eqn:Hsh; [|reflexivity].
  unfold pt_step. rewrite (leaf_store_other js); auto.
  intros E. apply app_inj_tail in E as [-> _].
  apply lookup_lt_Some in Hsh. cbn in Hsh. lia.
Qed.

Lemma leaf_store_tree : table_tree m' base root free.
Proof using All.
  destruct Htree as [Tp Ti]. split.
  - intros js tj Fj. rewrite leaf_store_tables by exact Fj. apply Tp, Fj.
  - intros js1 js2 tj F1 F2. rewrite !leaf_store_tables by assumption. apply Ti; auto.
Qed.

Lemma leaf_store_lookup va n tj :
  (n <= 3)%nat ->
  pt_table m base root dir_shifts (map (table_index va) (take n level_shifts)) = Some tj ->
  pt_lookup m' base tj (drop n level_shifts) va
  = if decide (map (table_index va) level_shifts = idx ++ [i])
    then if is_present e then Some (e, 12) else None
    else pt_lookup m base tj (drop n level_shifts) va.
Proof using All.
  intros Hn. remember (3 - n)%nat as d eqn:Hd. revert n tj Hn Hd.
  induction d as [|d IH]; intros n tj Hn Hd Ej.
  - assert (n = 3%nat) as -> by lia. cbn [drop level_shifts pt_lookup map take] in *.
    change (12 =? 12) with true. cbn iota.
    change [table_index va 39; table_index va 30; table_index va 21; table_index va 12]
      with ([table_index va 39; table_index va 30; table_index va 21] ++ [table_index va 12]).
    destruct (decide _) as [E|E].
    + apply app_inj_tail in E as [E1 E2]. rewrite E1 in Ej.
      assert (tj = t) as -> by congruence. rewrite E2. unfold m'. rewrite load_store_eq.
      replace (e mod 256 ^ Z.of_nat 8) with e by (symmetry; exact (u64_id e He)).
      destruct (is_present e); reflexivity.
    + erewrite leaf_store_other; [reflexivity| | |exact Ej|exact E];
        repeat constructor; apply table_index_ok.
  - destruct (dir_level_drop n) as (shj & L1 & L2 & _ & L4 & _); [lia|].
    rewrite L2. cbn [pt_lookup]. rewrite L4.
    set (js := map (table_index va) (take n level_shifts)) in *.
    assert (Hjs : length js = n).
    { unfold js. rewrite length_map, length_take. cbn. lia. }
    assert (Hsn : map (table_index va) (take (Datatypes.S n) level_shifts)
                  = js ++ [table_index va shj]).
    { unfold js. rewrite (take_S_r _ _ shj), map_app; [reflexivity|].
      pose proof (f_equal (fun l => l !! 0%nat) L2) as E. rewrite lookup_drop, Nat.add_0_r in E.
      exact E. }
    rewrite (leaf_store_other js tj _ (map_index_ok va _) (table_index_ok va shj) Ej)
      by (intros E; apply (f_equal length) in E; rewrite !length_app in E; cbn in E; lia).
    set (ej := load64 m (tj + 8 * table_index va shj)).
    assert (Habs : pt_step m base tj shj (table_index va shj) = None ->
                   map (table_index va) level_shifts <> idx ++ [i]).
    { intros Hs E. apply (f_equal (take 3)) in E.
      rewrite take_app_length' in E by lia. rewrite <- E in Ht. clear E.
      assert (Hpre : forall l, pt_table m base root dir_shifts ((js ++ [table_index va shj]) ++ l) = None).
      { induction l as [|k l IHl] using rev_ind.
        - rewrite app_nil_r, pt_table_snoc, Ej, Hjs, L1. exact Hs.
        - rewrite app_assoc, pt_table_snoc, IHl. reflexivity. }
      specialize (Hpre (skipn (Datatypes.S n) (take 3 (map (table_index va) level_shifts)))).
      rewrite <- Hsn in Hpre. replace (map (table_index va) (take (Datatypes.S n) level_shifts))
        with (take (Datatypes.S n) (take 3 (map (table_index va) level_shifts))) in Hpre.
      - rewrite take_drop in Hpre. congruence.
      - rewrite take_take, Nat.min_l by lia. apply firstn_map. }
    unfold pt_step in Habs. fold ej in Habs.
    destruct (is_present ej) eqn:Hpres; cbn [negb andb] in *.
    2:{ rewrite decide_False by auto. reflexivity. }
    destruct (is_huge_entry ej shj) eqn:Hhuge; cbn [negb] in *.
    { rewrite decide_False by auto. reflexivity. }
    apply IH; [lia|lia|]. rewrite Hsn, pt_table_snoc, Ej, Hjs, L1.
    unfold pt_step. fold ej. rewrite Hpres, Hhuge. reflexivity.
Qed.
End LeafStore.

Lemma same_path va1 va2 :
  map (table_index va1) level_shifts = map (table_index va2) level_shifts <-> vpn va1 = vpn va2.
Proof.
  rewrite vpn_indices. unfold level_shifts; cbn [map]. rewrite !List.Forall_cons_iff.
  split; [intros [= -> -> -> ->]; auto|]. intros (-> & -> & -> & -> & _). reflexivity.
Qed.

(** *** Writes elsewhere *)

Section TreeFrame.
Context (m m' : mem) (base root : Z).
Context (Hsame : forall js t k, Forall index_ok js -> index_ok k ->
  pt_table m base root dir_shifts js = Some t -> load64 m' (t + 8 * k) = load64 m (t + 8 * k)).

Lemma frame_tables js :
  Forall index_ok js -> pt_table m' base root dir_shifts js = pt_table m base root dir_shifts js.
Proof using All.
  induction js as [|k js IH] using rev_ind; intros F; [reflexivity|].
  apply List.Forall_app in F as [Fj Fk]. apply List.Forall_inv in Fk.
  rewrite !pt_table_snoc, IH by exact Fj.
  destruct (pt_table m base root dir_shifts js) as [tj|] eqn:Ej; [|reflexivity].
  destruct (dir_shifts !! length js) as [sh|]; [|reflexivity].
  unfold pt_step. rewrite (Hsame js) by assumption. reflexivity.
Qed.

Lemma frame_lookup_from va d : forall n t,
  (n <= 3)%nat -> d = (3 - n)%nat ->
  pt_table m base root dir_shifts (map (table_index va) (take n level_shifts)) = Some t ->
  pt_lookup m' base t (drop n level_shifts) va = pt_lookup m base t (drop n level_shifts) va.
Proof using All.
  induction d as [|d IH]; intros n t Hn Hd Ht.
  - assert (n = 3%nat) as -> by lia. cbn [drop level_shifts pt_lookup].
    rewrite (Hsame _ _ _ (map_index_ok va _) (table_index_ok va 12) Ht). reflexivity.
  - destruct (dir_level_drop n) as (sh & L1 & L2 & _ & L4 & _); [lia|].
    rewrite L2. cbn [pt_lookup]. rewrite L4.
    rewrite (Hsame _ _ _ (map_index_ok va _) (table_index_ok va sh) Ht).
    destruct (is_present _) eqn:Hp; cbn [negb]; [|reflexivity].
    destruct (is_huge_entry _ sh) eqn:Hh; [reflexivity|].
    apply IH; [lia|lia|].
    rewrite (take_S_r _ _ sh), map_app.
    2:{ change level_shifts with (dir_shifts ++ [12]). rewrite lookup_app_l; [exact L1|].
        apply lookup_lt_Some in L1. exact L1. }
    cbn [map]. rewrite pt_table_snoc, Ht, length_map, length_take, Nat.min_l by (cbn; lia).
    rewrite L1. unfold pt_step. rewrite Hp, Hh. reflexivity.
Qed.

Lemma frame_lookup va :
  pt_lookup m' base root level_shifts va = pt_lookup m base root level_shifts va.
Proof using All. apply (frame_lookup_from va 3 0); [lia|reflexivity|reflexivity]. Qed.
End TreeFrame.

Lemma table_tree_mono m base root avoid avoid' :
  (forall p, In p avoid' -> In p avoid) ->
  table_tree m base root avoid -> table_tree m base root avoid'.
Proof.
  intros Hi [Tp Tj]. split; [|exact Tj]. intros js t F E.
  destruct (Tp _ _ F E) as (p & -> & P1 & P2). exists p. split_and!; auto.
Qed.

(** *** The walk *)

Definition va_path (va : Z) (n : nat) : list Z := map (table_index va) (take n level_shifts).

Lemma va_path_length va n : (n <= 3)%nat -> length (va_path va n) = n.
Proof. intros H. unfold va_path. rewrite length_map, length_take. cbn. lia. Qed.

Lemma va_path_S va n sh :
  dir_shifts !! n = Some sh -> va_path va (Datatypes.S n) = va_path va n ++ [table_index va sh].
Proof.
  intros H. unfold va_path. rewrite (take_S_r _ _ sh), map_app; [reflexivity|].
  change level_shifts with (dir_shifts ++ [12]).
  rewrite lookup_app_l; [exact H|]. apply lookup_lt_Some in H. exact H.
Qed.

Lemma pt_lookup_from m base root va n tj :
  (n <= 3)%nat -> pt_table m base root dir_shifts (va_path va n) = Some tj ->
  pt_lookup m base root level_shifts va = pt_lookup m base tj (drop n level_shifts) va.
Proof.
  revert tj; induction n as [|n IH]; intros tj Hn Ej.
  - cbn in Ej. injection Ej as <-. reflexivity.
  - destruct (dir_level_drop n) as (sh & L1 & L2 & _ & L4 & _); [lia|].
    rewrite (va_path_S _ _ _ L1), pt_table_snoc in Ej.
    destruct (pt_table m base root dir_shifts (va_path va n)) as [tn|]; [|discriminate].
    rewrite va_path_length, L1 in Ej by lia. rewrite (IH tn) by (auto; lia).
    rewrite L2. cbn [pt_lookup]. rewrite L4. unfold pt_step in Ej.
    destruct (is_present _); cbn [andb negb] in *; [|discriminate].
    destruct (is_huge_entry _ _); cbn [negb] in *; [discriminate|].
    injection Ej as <-. reflexivity.
Qed.

(** The contents of the pages [held] are the same in both states. *)
Definition held_same (s s' : vmm) (held : list Z) : Prop :=
  forall p o, In p held -> 0 <= o < 4096 ->
    vm_mem s' (vm_base s + p + o) = vm_mem s (vm_base s + p + o).

(** What a walk that may create tables leaves behind. *)
Record walk_post (s : vmm) (root : Z) (held : list Z) (s' : vmm) (free' : list Z) : Prop := {
  wp_inv : pt_inv s' root held free';
  wp_base : vm_base s' = vm_base s;
  wp_pml4 : vm_pml4 s' = vm_pml4 s;
  wp_kernel : vm_kernel_cr3 s' = vm_kernel_cr3 s;
  wp_held : held_same s s' held;
  wp_same : forall va, pt_lookup (vm_mem s') (vm_base s) root level_shifts va
                       = pt_lookup (vm_mem s) (vm_base s) root level_shifts va
}.

Lemma walk_post_refl s root held free : pt_inv s root held free -> walk_post s root held s free.
Proof. intros H. split; auto. intros p o _ _. reflexivity. Qed.

Lemma walk_post_trans s1 root held s2 free2 s3 free3 :
  walk_post s1 root held s2 free2 -> walk_post s2 root held s3 free3 ->
  walk_post s1 root held s3 free3.
Proof.
  intros [A1 B1 C1 K1 H1 D1] [A2 B2 C2 K2 H2 D2].
  split; [exact A2|congruence|congruence|congruence| |].
  - intros p o Hp Ho. rewrite <- H1, <- B1 by assumption. apply H2; assumption.
  - intros va. rewrite <- D1, <- B1. apply D2.
Qed.

(** The two stores that link a new table [p] into the table [q] leave the other
    frames alone. *)
Lemma new_table_frames m base p q i e r o :
  page_ok base p -> page_ok base q -> page_ok base r -> r <> p -> r <> q -> index_ok i -> 0 <= o < 4096 ->
  store64 (mem_fill m (base + p) 0 (Z.to_nat VMM_PAGE_SIZE)) (base + q + 8 * i) e (base + r + o) = m (base + r + o).
Proof.
  intros Hp Hq Hr Np Nq Hi Ho. unfold index_ok in Hi. unfold store, mem_fill.
  destruct (page_disjoint base r p Hr Hp Np), (page_disjoint base r q Hr Hq Nq);
    (rewrite mem_write_out by (rewrite le_bytes_length; simpl Z.of_nat; lia));
    apply mem_write_out; rewrite repeat_length; unfold VMM_PAGE_SIZE; lia.
Qed.

(** They keep the list of free pages. *)
Lemma new_table_pmm (pm : pmm) free p q i e :
  pmm_inv pm free -> page_ok (pm_hhdm_base pm) p -> page_ok (pm_hhdm_base pm) q -> ~ In p free -> ~ In q free ->
  index_ok i ->
  pmm_inv (set_pm_mem pm (store64 (mem_fill (pm_mem pm) (pm_hhdm_base pm + p) 0 (Z.to_nat VMM_PAGE_SIZE))
             (pm_hhdm_base pm + q + 8 * i) e)) free.
Proof.
  intros Hpm Hp Hq Np Nq Hi. unfold index_ok in Hi.
  apply (pmm_inv_store (set_pm_mem pm _)); cbn [pm_hhdm_base set_pm_mem]; auto; try lia.
  apply pmm_inv_fill; auto; unfold VMM_PAGE_SIZE; lia.
Qed.

Lemma ensure_next_table_spec s root held free idx t i sh flags :
  pt_inv s root held free -> Forall index_ok idx -> index_ok i ->
  pt_table (vm_mem s) (vm_base s) root dir_shifts idx = Some t ->
  dir_shifts !! length idx = Some sh ->
  is_present (load64 (vm_mem s) (t + 8 * i)) = false ->
  match ensure_next_table s t i sh flags with
  | (None, s') => walk_post s root held s' free /\ free = []
  | (Some t', s') => exists free', walk_post s root held s' free'
      /\ pt_table (vm_mem s') (vm_base s) root dir_shifts (idx ++ [i]) = Some t'
  end.
Proof.
  intros Hinv Fi Hi Ht Hsh Habs. unfold ensure_next_table. rewrite Habs.
  pose proof Hinv as [Hpm Hin Hphys Hnd Htree].
  destruct free as [|p free].
  { rewrite (pmm_alloc_empty _ Hpm). cbn [Z.eqb]. split; [|reflexivity].
    destruct s; exact (walk_post_refl _ _ _ _ Hinv). }
  destruct (pmm_alloc_cons _ _ _ Hpm Hin) as (pm' & -> & Hpm' & Hm' & Hb' & Hi' & _).
  cbn [app] in Hphys, Hnd, Htree. inversion Hnd as [|? ? Hpf Hnd']; subst.
  inversion Hphys as [|? ? [Hpp Hpok] Hphys']; subst.
  destruct (Z.eqb_spec p 0) as [->|Hp0]; [destruct Hpok; lia|].
  set (e := Z.lor (Z.lor p PTE_TABLE_FLAGS) (Z.land flags VMM_USER)).
  destruct (table_entry_ok p flags sh Hpp) as (E1 & E2 & E3 & E4). fold e in E1, E2, E3, E4.
  assert (Hv : pmm_phys_to_virt pm' p = vm_base s + p).
  { unfold pmm_phys_to_virt. rewrite Hb'. apply page_ok_virt; [apply (pi_base _ _ Hpm)|exact Hpok]. }
  cbn [set_vm_pmm vm_pmm set_vm_mem vm_mem set_pm_mem pm_mem].
  change (vm_mem (set_vm_pmm s pm')) with (pm_mem pm'). rewrite Hv, Hm'.
  fold (vm_mem s). set (m' := store64 _ _ _).
  pose proof (pi_base _ _ Hpm) as Hb0. fold (vm_base s) in Hb0, Hpok, Hb'.
  assert (Htab := new_table_tables (vm_mem s) (vm_base s) root p (free ++ held) Hb0 Hpp Hpok Htree
    idx i t e sh Fi Hi Ht Hsh Habs E1 E2 E3 E4).
  assert (Htr := new_table_tree (vm_mem s) (vm_base s) root p (free ++ held) Hb0 Hpp Hpok Htree
    idx i t e sh Fi Hi Ht Hsh Habs E1 E2 E3 E4 Hpf).
  assert (Hlk := new_table_lookup (vm_mem s) (vm_base s) root p (free ++ held) Hb0 Hpp Hpok Htree
    idx i t e sh Fi Hi Ht Hsh Habs E1 E2 E3 E4).
  destruct (tt_pages _ _ _ _ Htree _ _ Fi Ht) as (q & Eq & Q1 & Q2).
  assert (Hq : ~ In q free) by (intros Hq; apply Q2; right; apply in_or_app; auto).
  assert (Hpm2 : pmm_inv (set_pm_mem pm' m') free).
  { unfold m', vm_mem. rewrite <- Hm', Eq, <- Hb'. rewrite <- Hb' in Hpok, Q1.
    apply new_table_pmm; auto. intros Hin2. apply Hpf, in_or_app. auto. }
  exists free. split.
  - split; [|exact Hb'|reflexivity|reflexivity| |].
    + unfold vm_base, vm_mem in *.
      split; [exact Hpm2|exact Hi'| |exact Hnd'|];
        unfold vm_base, vm_mem;
        cbn [vm_pmm set_vm_pmm set_vm_mem pm_hhdm_base set_pm_mem pm_mem];
        rewrite Hb'; [exact Hphys'|exact Htr].
    + intros r o Hr Ho. change (m' (vm_base s + r + o) = vm_mem s (vm_base s + r + o)).
      assert (Hrf : page_ok (vm_base s) r).
      { eapply (List.Forall_forall (frame_ok _)); [exact Hphys'|]. apply in_or_app. auto. }
      unfold m'. rewrite Eq. apply new_table_frames; auto.
      * intros ->. apply Hpf, in_or_app. auto.
      * intros ->. apply Q2. right. apply in_or_app. auto.
    + intros va. apply (Hlk va 0%nat root); [lia|reflexivity].
  - change (pt_table m' (vm_base s) root dir_shifts (idx ++ [i]) = Some (vm_base s + p)).
    rewrite Htab by (apply List.Forall_app; auto).
    rewrite decide_True by reflexivity. reflexivity.
Qed.

Lemma walk_create_spec va flags d : forall n s root held free t,
  (n <= 3)%nat -> d = (3 - n)%nat -> pt_inv s root held free ->
  pt_table (vm_mem s) (vm_base s) root dir_shifts (va_path va n) = Some t ->
  let '(r, s') := walk_levels (drop n level_shifts) s t va true flags 12 in
  exists free', walk_post s root held s' free' /\
    match r with
    | None => free' = [] \/ exists e sh, sh <> 12 /\
        pt_lookup (vm_mem s) (vm_base s) root level_shifts va = Some (e, sh)
    | Some mp => exists t3,
        pt_table (vm_mem s') (vm_base s) root dir_shifts (va_path va 3) = Some t3
        /\ mp = mk_mapping (t3 + 8 * table_index va 12) 12
    end.
Proof.
  induction d as [|d IH]; intros n s root held free t Hn Hd Hinv Ht.
  - assert (n = 3%nat) as -> by lia. cbn [drop level_shifts walk_levels].
    change (12 =? 12) with true. cbn iota. exists free. split; [apply walk_post_refl, Hinv|].
    exists t. auto.
  - destruct (dir_level_drop n) as (sh & L1 & L2 & _ & L4 & _); [lia|].
    rewrite L2. cbn [walk_levels]. rewrite L4.
    assert (Hlen := va_path_length va n ltac:(lia)).
    set (e := load64 (vm_mem s) (t + 8 * table_index va sh)).
    destruct (is_present e) eqn:Hpres; cbn [negb].
    + destruct (is_huge_entry e sh) eqn:Hhuge.
      * exists free. split; [apply walk_post_refl, Hinv|]. right. exists e, sh. split; [intros ->; discriminate|].
        rewrite (pt_lookup_from _ _ _ _ n t) by (auto; lia). rewrite L2. cbn [pt_lookup].
        fold e. rewrite Hpres, L4, Hhuge. reflexivity.
      * unfold entry_to_table, pmm_phys_to_virt. fold (vm_base s).
        apply (IH (Datatypes.S n) s root held free); [lia|lia|exact Hinv|].
        rewrite (va_path_S _ _ _ L1), pt_table_snoc, Ht, Hlen, L1. unfold pt_step. fold e.
        rewrite Hpres, Hhuge. reflexivity.
    + pose proof (ensure_next_table_spec s root held free (va_path va n) t (table_index va sh) sh flags
        Hinv (map_index_ok va _) (table_index_ok va sh) Ht) as Hens.
      rewrite Hlen in Hens. specialize (Hens L1 Hpres).
      destruct (ensure_next_table s t (table_index va sh) sh flags) as [[t'|] s1].
      * destruct Hens as (free1 & Hp1 & Ht1). pose proof Hp1 as [I1 B1 P1 _ _ S1].
        rewrite <- (va_path_S _ _ _ L1) in Ht1. rewrite <- B1 in Ht1.
        specialize (IH (Datatypes.S n) s1 root held free1 t' ltac:(lia) ltac:(lia) I1 Ht1).
        destruct (walk_levels _ s1 t' va true flags 12) as [r s2].
        destruct IH as (free2 & Hp2 & Hr). exists free2.
        split; [eapply walk_post_trans; eauto|]. rewrite B1, ?S1 in Hr. exact Hr.
      * destruct Hens as [Hp1 ->]. exists []. auto.
Qed.

Lemma walk_readonly shifts s t va flags :
  walk_levels shifts s t va false flags 12
  = (fst (walk_levels shifts s t va false flags 12), s)
  /\ pt_lookup (vm_mem s) (vm_base s) t shifts va
     = match fst (walk_levels shifts s t va false flags 12) with
       | None => None
       | Some mp => let e := load64 (vm_mem s) (mp_entry mp) in
                    if is_present e then Some (e, mp_shift mp) else None
       end.
Proof.
  revert t; induction shifts as [|sh shifts IH]; intros t; cbn [walk_levels pt_lookup]; [auto|].
  destruct (Z.eqb_spec sh 12) as [->|Hsh]; cbn [fst mp_entry mp_shift].
  { split; [reflexivity|]. destruct (is_present _); reflexivity. }
  destruct (is_present (load64 (vm_mem s) (t + 8 * table_index va sh))) eqn:Hp; cbn [negb fst]; [|auto].
  destruct (is_huge_entry _ sh) eqn:Hh; cbn [fst mp_entry mp_shift].
  { rewrite Hp. auto. }
  apply IH.
Qed.

Lemma walk_to_existing_spec s va :
  vm_pml4 s <> 0 ->
  exists r, walk_to_existing_mapping s va = Ret (r, s)
    /\ pt_lookup (vm_mem s) (vm_base s) (vm_pml4 s) level_shifts va
       = match r with None => None
         | Some mp => Some (load64 (vm_mem s) (mp_entry mp), mp_shift mp) end.
Proof.
  intros Hnz. unfold walk_to_existing_mapping, walk_to_level, walk_to_level_in_root.
  apply Z.eqb_neq in Hnz. rewrite Hnz. cbn [negb kassert mbind res_bind].
  destruct (walk_readonly level_shifts s (vm_pml4 s) va 0) as [W ->].
  destruct (walk_levels level_shifts s (vm_pml4 s) va false 0 12) as [[mp|] s'];
    cbn [fst] in *; injection W as ->; [|exists None; auto].
  destruct (is_present (load64 (vm_mem s) (mp_entry mp))) eqn:Hp.
  - exists (Some mp). rewrite ?Hp. split; reflexivity.
  - exists None. rewrite ?Hp. split; reflexivity.
Qed.

(** Two states in which the tables below [root] give the same translation. *)
Lemma translate_lookup s1 s2 root va :
  pt_lookup (vm_mem s1) (vm_base s1) root level_shifts va
  = pt_lookup (vm_mem s2) (vm_base s2) root level_shifts va ->
  translate s1 root va = translate s2 root va.
Proof. unfold translate. intros ->. reflexivity. Qed.

Lemma pt_inv_leaf_store s root held free va t e :
  pt_inv s root held free -> is_u64 e ->
  pt_table (vm_mem s) (vm_base s) root dir_shifts (va_path va 3) = Some t ->
  pt_inv (set_vm_mem s (store64 (vm_mem s) (t + 8 * table_index va 12) e)) root held free.
Proof.
  intros [Hpm Hi Hph Hnd Htr] He Ht.
  destruct (tt_pages _ _ _ _ Htr _ _ (map_index_ok va _) Ht) as (q & Eq & Q1 & Q2).
  pose proof (table_index_ok va 12) as Hx. split.
  - rewrite Eq. apply pmm_inv_store; auto; unfold index_ok in Hx; try lia.
    intros Hq. apply Q2, in_or_app. auto.
  - exact Hi.
  - exact Hph.
  - exact Hnd.
  - apply (leaf_store_tree (vm_mem s) (vm_base s) root (free ++ held) Htr (va_path va 3)
      (table_index va 12) t e); auto. apply map_index_ok.
Qed.

(** Lookups after the leaf entry of [va] has been overwritten. *)
Lemma leaf_store_pt_lookup s root held free va t e va' :
  pt_inv s root held free -> is_u64 e ->
  pt_table (vm_mem s) (vm_base s) root dir_shifts (va_path va 3) = Some t ->
  pt_lookup (store64 (vm_mem s) (t + 8 * table_index va 12) e) (vm_base s) root level_shifts va'
  = if decide (vpn va' = vpn va)
    then if is_present e then Some (e, 12) else None
    else pt_lookup (vm_mem s) (vm_base s) root level_shifts va'.
Proof.
  intros [Hpm Hi Hph Hnd Htr] He Ht.
  pose proof (leaf_store_lookup _ _ _ _ Htr (va_path va 3) (table_index va 12) t e
    (map_index_ok va _) (table_index_ok va 12) eq_refl Ht He va' 0%nat root
    ltac:(lia) eq_refl) as L.
  change (drop 0 level_shifts) with level_shifts in L. rewrite L. clear L.
  change (va_path va 3 ++ [table_index va 12]) with (map (table_index va) level_shifts).
  destruct (decide (vpn va' = vpn va)) as [E|E].
  - rewrite decide_True by (apply same_path; exact E). reflexivity.
  - rewrite decide_False by (rewrite same_path; exact E). reflexivity.
Qed.

(** The translation through a 4 KiB entry. *)
Lemma translate_leaf s root va e :
  pt_lookup (vm_mem s) (vm_base s) root level_shifts va = Some (e, 12) ->
  translate s root va = Some (Z.lor (Z.land e PTE_ADDR_MASK) (va mod 4096)).
Proof.
  intros E. unfold translate. rewrite E. change (Z.shiftl 1 12 - 1) with (2 ^ 12 - 1).
  rewrite land_low by lia. reflexivity.
Qed.

(** A 4 KiB mapping is found through a chain of three tables. *)
Lemma walk_leaf d : forall n s t va e root,
  (n <= 3)%nat -> d = (3 - n)%nat ->
  pt_table (vm_mem s) (vm_base s) root dir_shifts (va_path va n) = Some t ->
  pt_lookup (vm_mem s) (vm_base s) t (drop n level_shifts) va = Some (e, 12) ->
  exists t3, pt_table (vm_mem s) (vm_base s) root dir_shifts (va_path va 3) = Some t3
    /\ walk_levels (drop n level_shifts) s t va false 0 12
       = (Some (mk_mapping (t3 + 8 * table_index va 12) 12), s)
    /\ is_present (load64 (vm_mem s) (t3 + 8 * table_index va 12)) = true.
Proof.
  induction d as [|d IH]; intros n s t va e root Hn Hd Ht Hl.
  - assert (n = 3%nat) as -> by lia. cbn [drop level_shifts pt_lookup walk_levels] in *.
    exists t. split_and!; auto.
    destruct (is_present (load64 (vm_mem s) (t + 8 * table_index va 12))); [reflexivity|discriminate].
  - destruct (dir_level_drop n) as (sh & L1 & L2 & _ & L4 & _); [lia|].
    rewrite L2 in *. cbn [walk_levels pt_lookup] in *. rewrite L4 in *.
    destruct (is_present (load64 (vm_mem s) (t + 8 * table_index va sh))) eqn:Hpres;
      cbn [negb] in *; [|discriminate].
    destruct (is_huge_entry _ sh) eqn:Hh; [injection Hl; intros; subst; discriminate|].
    apply (IH (Datatypes.S n) s _ va e root); [lia|lia| |exact Hl].
    rewrite (va_path_S _ _ _ L1), pt_table_snoc, Ht, va_path_length, L1 by lia.
    unfold pt_step. rewrite Hpres, Hh. reflexivity.
Qed.

Lemma mapped_leaf s root va e :
  vm_pml4 s <> 0 -> root = vm_pml4 s ->
  pt_lookup (vm_mem s) (vm_base s) root level_shifts va = Some (e, 12) ->
  exists t3, pt_table (vm_mem s) (vm_base s) root dir_shifts (va_path va 3) = Some t3
    /\ walk_to_existing_mapping s va
       = Ret (Some (mk_mapping (t3 + 8 * table_index va 12) 12), s).
Proof.
  intros Hnz -> He.
  destruct (walk_leaf 3 0 s (vm_pml4 s) va e (vm_pml4 s) ltac:(lia) eq_refl eq_refl He)
    as (t3 & Ht3 & W & Hp).
  exists t3. split; [exact Ht3|].
  unfold walk_to_existing_mapping, walk_to_level, walk_to_level_in_root.
  apply Z.eqb_neq in Hnz. rewrite Hnz. cbn [negb kassert mbind res_bind]. change (drop 0 level_shifts) with level_shifts in W.
  rewrite W. cbn [mp_entry]. rewrite Hp. reflexivity.
Qed.

(** ** Properties *)

Lemma virt_to_phys_translate s va :
  vm_pml4 s <> 0 -> vmm_virt_to_phys s va = Ret (translate s (vm_pml4 s) va).
Proof.
  intros Hnz. destruct (walk_to_existing_spec s va Hnz) as (r & E & Hl).
  unfold vmm_virt_to_phys, translate. rewrite E, Hl. cbn.
  destruct r as [mp|]; reflexivity.
Qed.

(** The entry that maps a 4 KiB page. *)
Definition page_entry (pa flags : Z) : Z := Z.lor pa (Z.lor flags VMM_PRESENT).

Lemma page_entry_translate s root va pa flags :
  phys_ok pa -> is_u64 flags -> Z.land flags PTE_ADDR_MASK = 0 ->
  pt_lookup (vm_mem s) (vm_base s) root level_shifts va = Some (page_entry pa flags, 12) ->
  translate s root va = Some (pa + va mod 4096).
Proof.
  intros Hpa Hfl Hfm E. destruct (leaf_entry_ok pa flags Hpa Hfl Hfm) as (_ & E2 & _).
  rewrite (translate_leaf _ _ _ _ E). unfold page_entry.
  rewrite E2, (lor_low_add _ _ 12); [reflexivity|lia|apply Hpa|].
  change (2 ^ 12) with 4096. apply Z.mod_pos_bound. lia.
Qed.

Lemma held_same_trans s1 s2 s3 held :
  vm_base s2 = vm_base s1 -> held_same s1 s2 held -> held_same s2 s3 held -> held_same s1 s3 held.
Proof. intros Hb H1 H2 p o Hp Ho. rewrite <- H1, <- Hb by assumption. apply H2; assumption. Qed.

(** Storing a leaf entry keeps the frames that are no tables. *)
Lemma leaf_store_held (s : vmm) root held free va t e :
  pt_inv s root held free ->
  pt_table (vm_mem s) (vm_base s) root dir_shifts (map (table_index va) dir_shifts) = Some t ->
  held_same s (set_vm_mem s (store64 (vm_mem s) (t + 8 * table_index va 12) e)) held.
Proof.
  intros [_ _ Fr _ Tr] Ht r o Hr Ho.
  destruct (tt_pages _ _ _ _ Tr _ _ (map_index_ok va _) Ht) as (q & -> & Q1 & Q2).
  assert (Hro : page_ok (vm_base s) r)
    by (eapply (List.Forall_forall (frame_ok _)); [exact Fr|apply in_or_app; auto]).
  assert (r <> q) by (intros ->; apply Q2, in_or_app; auto).
  pose proof (table_index_ok va 12) as Hix. unfold index_ok in Hix.
  change (vm_mem (set_vm_mem s ?m)) with m. unfold store.
  apply mem_write_out. rewrite le_bytes_length. simpl Z.of_nat.
  destruct (page_disjoint (vm_base s) r q); auto; lia.
Qed.

(** Mapping a 4 KiB page below any root. *)
Lemma map_at_level_page (s : vmm) (root va pa flags : Z) (held free : list Z) :
  pt_inv s root held free -> root <> 0 -> va mod 4096 = 0 -> phys_ok pa ->
  is_u64 flags -> Z.land flags PTE_ADDR_MASK = 0 ->
  exists ok s' free',
    map_at_level_in_root s root va pa VMM_PAGE_SIZE 12 flags = Ret (ok, s')
    /\ pt_inv s' root held free' /\ vm_pml4 s' = vm_pml4 s /\ vm_base s' = vm_base s
    /\ (forall va', pt_lookup (vm_mem s') (vm_base s') root level_shifts va'
          = if decide (ok = true /\ vpn va' = vpn va) then Some (page_entry pa flags, 12)
            else pt_lookup (vm_mem s) (vm_base s) root level_shifts va')
    /\ (ok = false -> pt_lookup (vm_mem s) (vm_base s) root level_shifts va <> None
                      \/ free' = [])
    /\ vm_kernel_cr3 s' = vm_kernel_cr3 s /\ held_same s s' held
    /\ (ok = true -> pt_lookup (vm_mem s) (vm_base s) root level_shifts va = None).
Proof.
  intros Hinv Hnz Hva Hpa Hfl Hfm. unfold map_at_level_in_root, addresses_are_aligned.
  change (VMM_PAGE_SIZE - 1) with (2 ^ 12 - 1). rewrite !land_low by lia.
  change (2 ^ 12) with 4096. rewrite Hva, (proj2 Hpa). cbn [Z.eqb andb negb].
  unfold walk_to_level_in_root. apply Z.eqb_neq in Hnz as Hnz'. rewrite Hnz'.
  cbn [negb kassert mbind res_bind].
  pose proof (walk_create_spec va flags 3 0%nat s root held free root ltac:(lia) eq_refl Hinv eq_refl) as W.
  change (drop 0 level_shifts) with level_shifts in W.
  destruct (walk_levels level_shifts s root va true flags 12) as [r s1].
  destruct W as (free' & [I B P K0 F0 S] & Hr).
  assert (Hfail : forall va', pt_lookup (vm_mem s1) (vm_base s1) root level_shifts va'
      = if decide (false = true /\ vpn va' = vpn va) then Some (page_entry pa flags, 12)
        else pt_lookup (vm_mem s) (vm_base s) root level_shifts va').
  { intros va'. rewrite decide_False by (intros [? _]; discriminate). rewrite B. apply S. }
  destruct r as [mp|].
  2:{ exists false, s1, free'. split_and!; auto; try discriminate. intros _.
      destruct Hr as [->|(e & sh & _ & E)]; auto. left. rewrite E. discriminate. }
  destruct Hr as (t3 & Ht3 & ->). cbn [mp_entry mp_shift]. rewrite <- B in Ht3.
  change (12 =? 12) with true. cbn [negb orb].
  set (ep := t3 + 8 * table_index va 12).
  destruct (is_present (load64 (vm_mem s1) ep)) eqn:Hpres.
  { exists false, s1, free'. split_and!; auto; try discriminate. intros _. left. rewrite <- S, <- B.
    rewrite (pt_lookup_from _ _ _ _ 3 _ ltac:(lia) Ht3). cbn [drop level_shifts pt_lookup].
    fold ep. rewrite Hpres. discriminate. }
  assert (Hnone : true = true -> pt_lookup (vm_mem s) (vm_base s) root level_shifts va = None).
  { intros _. rewrite <- S, <- B. rewrite (pt_lookup_from _ _ _ _ 3 _ ltac:(lia) Ht3).
    cbn [drop level_shifts pt_lookup]. fold ep. rewrite Hpres. reflexivity. }
  destruct (leaf_entry_ok pa flags Hpa Hfl Hfm) as (E1 & _ & E3).
  fold (page_entry pa flags) in *. set (e := page_entry pa flags) in *.
  set (s2 := set_vm_mem s1 (store64 (vm_mem s1) ep e)).
  assert (I2 : pt_inv s2 root held free') by (eapply pt_inv_leaf_store; eauto).
  exists true, (if root =? vm_pml4 s2 then invlpg s2 va else s2), free'.
  split; [reflexivity|].
  assert (Hlk : forall va', pt_lookup (vm_mem s2) (vm_base s2) root level_shifts va'
      = if decide (true = true /\ vpn va' = vpn va) then Some (e, 12)
        else pt_lookup (vm_mem s) (vm_base s) root level_shifts va').
  { intros va'. transitivity (if decide (vpn va' = vpn va) then Some (e, 12)
        else pt_lookup (vm_mem s) (vm_base s) root level_shifts va').
    - unfold s2. change (vm_mem (set_vm_mem s1 ?m)) with m.
      change (vm_base (set_vm_mem s1 ?m)) with (vm_base s1). unfold ep.
      rewrite (leaf_store_pt_lookup s1 root held free') by assumption.
      rewrite E1, B, S. reflexivity.
    - destruct (decide (vpn va' = vpn va)), (decide (true = true /\ _)); tauto. }
  assert (Hheld : held_same s s2 held)
    by (eapply held_same_trans; [exact B|exact F0|exact (leaf_store_held s1 root held free' va t3 e I Ht3)]).
  destruct (root =? vm_pml4 s2); split_and!; auto; try discriminate.
  destruct I2; split; auto.
Qed.

Lemma map_active_inv s s' va pa flags held free :
  pt_inv s (vm_pml4 s) held free -> vm_pml4 s <> 0 -> va mod 4096 = 0 -> phys_ok pa ->
  is_u64 flags -> Z.land flags PTE_ADDR_MASK = 0 ->
  vmm_map_page s va pa flags = Ret (true, s') ->
  exists free', pt_inv s' (vm_pml4 s') held free'.
Proof.
  intros Hinv Hnz Hva Hpa Hfl Hfm E.
  destruct (map_at_level_page s (vm_pml4 s) va pa flags held free Hinv Hnz Hva Hpa Hfl Hfm)
    as (ok & s2 & free' & E2 & I & P & _).
  unfold vmm_map_page, map_at_level in E. rewrite E2 in E. injection E as -> ->.
  exists free'. rewrite P. exact I.
Qed.

(** Taking a page from the free list: its owner now holds it. *)
Lemma pt_inv_alloc s root held free :
  pt_inv s root held free ->
  match free with
  | [] => pmm_alloc_page (vm_pmm s) = (0, vm_pmm s)
  | p :: free' => exists pm, pmm_alloc_page (vm_pmm s) = (p, pm)
      /\ pt_inv (set_vm_pmm s pm) root (p :: held) free'
      /\ pm_mem pm = vm_mem s /\ pm_hhdm_base pm = vm_base s
      /\ p <> 0 /\ frame_ok (vm_base s) p
  end.
Proof.
  intros [Hpm Hi Hf Hn Ht]. destruct free as [|p free]; [apply (pmm_alloc_empty _ Hpm)|].
  destruct (pmm_alloc_cons _ _ _ Hpm Hi) as (pm & E & Hpm' & Hm & Hb & Hi' & _).
  assert (Hp : frame_ok (vm_base s) p) by (inversion Hf; assumption).
  exists pm. split; [exact E|]. split; [|split_and!; auto; destruct Hp as [_ (? & _)]; lia].
  assert (Hperm : Permutation ((p :: free) ++ held) (free ++ p :: held)) by apply Permutation_middle.
  unfold vm_base, vm_mem in *.
  split; unfold vm_base, vm_mem; cbn [vm_pmm set_vm_pmm vm_pml4]; rewrite ?Hb, ?Hm; auto.
  - eapply Permutation_Forall; [exact Hperm|exact Hf].
  - eapply Permutation_NoDup; [exact Hperm|exact Hn].
  - eapply table_tree_mono; [|exact Ht]. intros q Hq.
    eapply Permutation_in; [symmetry; exact Hperm|exact Hq].
Qed.

(** Writing inside a held page: the tables and the free list are elsewhere. *)
Lemma pt_inv_write s root held free p off bs :
  pt_inv s root held free -> In p held -> 0 <= off -> off + Z.of_nat (length bs) <= 4096 ->
  let s' := set_vm_mem s (mem_write (vm_mem s) (vm_base s + p + off) bs) in
  pt_inv s' root held free
  /\ forall va, pt_lookup (vm_mem s') (vm_base s') root level_shifts va
                = pt_lookup (vm_mem s) (vm_base s) root level_shifts va.
Proof.
  intros [Hpm Hi Hf Hn Ht] Hin Ho1 Ho2 s'.
  assert (Hpo : page_ok (vm_base s) p)
    by (eapply (List.Forall_forall (frame_ok _)); [exact Hf|apply in_or_app; auto]).
  assert (Hpf : ~ In p free) by (intros Hq; exact (NoDup_app_out _ _ _ Hn Hq Hin)).
  assert (Hsame : forall js t k, Forall index_ok js -> index_ok k ->
    pt_table (vm_mem s) (vm_base s) root dir_shifts js = Some t ->
    load64 (vm_mem s') (t + 8 * k) = load64 (vm_mem s) (t + 8 * k)).
  { intros js t k Fj Fk Ej. destruct (tt_pages _ _ _ _ Ht _ _ Fj Ej) as (q & -> & Q1 & Q2).
    apply load_write_disj. assert (q <> p) by (intros ->; apply Q2, in_or_app; auto).
    unfold index_ok in Fk. simpl Z.of_nat. destruct (page_disjoint (vm_base s) q p); auto; lia. }
  split; [|intros va; apply frame_lookup; exact Hsame].
  split; auto.
  - apply pmm_inv_write; auto.
  - change (vm_base s') with (vm_base s). split.
    + intros js t Fj. rewrite (frame_tables (vm_mem s) (vm_mem s') _ _ Hsame js Fj).
      apply (tt_pages _ _ _ _ Ht), Fj.
    + intros j1 j2 t F1 F2. rewrite (frame_tables (vm_mem s) (vm_mem s') _ _ Hsame j1 F1).
      rewrite (frame_tables (vm_mem s) (vm_mem s') _ _ Hsame j2 F2).
      apply (tt_inj _ _ _ _ Ht); assumption.
Qed.

(** Removing the 4 KiB mapping of a page. *)
Lemma unmap_leaf (s : vmm) (va e : Z) (held free : list Z) :
  pt_inv s (vm_pml4 s) held free -> vm_pml4 s <> 0 -> va mod 4096 = 0 ->
  pt_lookup (vm_mem s) (vm_base s) (vm_pml4 s) level_shifts va = Some (e, 12) ->
  exists s', vmm_unmap_page s va = Ret (true, s')
    /\ pt_inv s' (vm_pml4 s) held free
    /\ vm_invlpg s' = va :: vm_invlpg s /\ vm_pml4 s' = vm_pml4 s /\ vm_base s' = vm_base s
    /\ forall va', pt_lookup (vm_mem s') (vm_base s') (vm_pml4 s) level_shifts va'
         = if decide (vpn va' = vpn va) then None
           else pt_lookup (vm_mem s) (vm_base s) (vm_pml4 s) level_shifts va'.
Proof.
  intros Hinv Hnz Hva He. unfold vmm_unmap_page.
  change (VMM_PAGE_SIZE - 1) with (2 ^ 12 - 1). rewrite land_low by lia.
  change (2 ^ 12) with 4096. rewrite Hva. cbn [Z.eqb negb].
  destruct (mapped_leaf s (vm_pml4 s) va e Hnz eq_refl He) as (t3 & Ht3 & ->).
  cbn [mbind res_bind mp_shift mp_entry]. change (12 =? 12) with true. cbn [negb andb].
  eexists. split; [reflexivity|].
  pose proof (pt_inv_leaf_store _ _ _ _ _ _ 0 Hinv ltac:(split; lia) Ht3) as I2.
  split; [destruct I2; split; auto|]. split_and!; try reflexivity. intros va'.
  pose proof (leaf_store_pt_lookup s (vm_pml4 s) held free va t3 0 va' Hinv ltac:(split; lia) Ht3) as L.
  rewrite entry_zero_absent in L. exact L.
Qed.

(** C18. Mapping a page in an address space: from any well-formed tree of tables
    the call returns and keeps the tree well formed. On success exactly the
    virtual page named is translated to the physical page named, offset by
    offset, and every other translation is what it was. On failure no
    translation changes, and the reason is that the address was mapped already
    or that memory ran out. *)
Theorem map_page_correct (s : vmm) (pml4_phys va pa flags : Z) (held free : list Z) :
  let root := pmm_phys_to_virt (vm_pmm s) pml4_phys in
  pt_inv s root held free -> pml4_phys <> 0 -> root <> 0 -> va mod 4096 = 0 -> phys_ok pa ->
  is_u64 flags -> Z.land flags PTE_ADDR_MASK = 0 ->
  exists ok s' free',
    vmm_map_page_in_space s pml4_phys va pa flags = Ret (ok, s')
    /\ pt_inv s' root held free'
    /\ if ok
       then forall va', translate s' root va'
              = if decide (vpn va' = vpn va) then Some (pa + va' mod 4096)
                else translate s root va'
       else (forall va', translate s' root va' = translate s root va')
            /\ (translate s root va <> None \/ free' = []).
Proof.
  intros root Hinv Hp Hnz Hva Hpa Hfl Hfm. unfold vmm_map_page_in_space.
  apply Z.eqb_neq in Hp. rewrite Hp.
  destruct (map_at_level_page s root va pa flags held free Hinv Hnz Hva Hpa Hfl Hfm)
    as (ok & s' & free' & E & I & _ & _ & L & F & _).
  exists ok, s', free'. split; [exact E|]. split; [exact I|].
  destruct ok.
  - intros va'. specialize (L va'). destruct (decide (vpn va' = vpn va)) as [V|V].
    + rewrite decide_True in L by auto. eapply page_entry_translate; eauto.
    + rewrite decide_False in L by tauto. apply translate_lookup, L.
  - split.
    + intros va'. apply translate_lookup. rewrite L. apply decide_False. intros [? _]. discriminate.
    + destruct (F eq_refl) as [H|H]; auto. left. unfold translate.
      destruct (pt_lookup _ _ _ _ _) as [[]|]; [discriminate|congruence].
Qed.

(** Unmapping: a page mapped at the 4 KiB level becomes untranslated, its
    TLB entry is invalidated, and every other translation is kept. *)
Theorem unmap_page_correct (s : vmm) (va e : Z) (held free : list Z) :
  pt_inv s (vm_pml4 s) held free -> vm_pml4 s <> 0 -> va mod 4096 = 0 ->
  pt_lookup (vm_mem s) (vm_base s) (vm_pml4 s) level_shifts va = Some (e, 12) ->
  exists s', vmm_unmap_page s va = Ret (true, s')
    /\ pt_inv s' (vm_pml4 s) held free
    /\ vm_invlpg s' = va :: vm_invlpg s
    /\ forall va', translate s' (vm_pml4 s) va'
         = if decide (vpn va' = vpn va) then None else translate s (vm_pml4 s) va'.
Proof.
  intros Hinv Hnz Hva He.
  destruct (unmap_leaf s va e held free Hinv Hnz Hva He) as (s' & E & I & V & _ & _ & L).
  exists s'. split_and!; auto. intros va'. specialize (L va').
  destruct (decide (vpn va' = vpn va)) as [D|D].
  - unfold translate. rewrite L. reflexivity.
  - apply translate_lookup, L.
Qed.

(** ** Witnesses *)

(** A root table that has just been zeroed. *)
Lemma empty_root_tree m base p free :
  page_ok base p -> ~ In p free ->
  table_tree (mem_fill m (base + p) 0 (Z.to_nat VMM_PAGE_SIZE)) base (base + p) free.
Proof.
  intros Hp Hf. set (m' := mem_fill _ _ _ _).
  assert (H0 : forall idx t, Forall index_ok idx ->
      pt_table m' base (base + p) dir_shifts idx = Some t -> idx = [] /\ t = base + p).
  { intros idx t Fi. destruct idx as [|i idx]; cbn [pt_table dir_shifts];
      [intros [= <-]; auto|].
    inversion Fi as [|? ? Hi _]; subst. unfold m', VMM_PAGE_SIZE, index_ok in *.
    rewrite load_fill_zero by lia. discriminate. }
  split.
  - intros idx t Fi E. destruct (H0 _ _ Fi E) as [_ ->]. eauto.
  - intros i1 i2 t F1 F2 E1 E2. destruct (H0 _ _ F1 E1), (H0 _ _ F2 E2). congruence.
Qed.

(** Thirty-two free pages, the last of which becomes the root table. *)
Definition demo_pages : list Z :=
  Eval vm_compute in map (fun i => 8192 + 4096 * Z.of_nat i) (seq 0 31).

Definition demo_boot : pmm :=
  pmm_init (fun _ => 0)
    (Some [ {| me_base := 8192; me_length := 131072; me_type := 0 |} ])
    (Some 18446603336221196288).

Definition demo_root : Z := 18446603336221196288 + 135168.

Definition demo_vmm : vmm :=
  let pm := snd (pmm_alloc_page demo_boot) in
  {| vm_pmm := set_pm_mem pm (mem_fill (pm_mem pm) demo_root 0 (Z.to_nat VMM_PAGE_SIZE));
     vm_kernel_cr3 := 135168; vm_pml4 := demo_root; vm_cr3 := 135168; vm_invlpg := [] |}.

Lemma demo_boot_inv : pmm_inv (snd (pmm_alloc_page demo_boot)) (rev demo_pages).
Proof.
  constructor.
  - vm_compute. discriminate.
  - repeat (constructor; [solve_page_ok|]). constructor.
  - repeat (constructor; [cbn; lia|]). constructor.
  - vm_compute. repeat split; reflexivity.
  - vm_compute. reflexivity.
Qed.

Lemma demo_vmm_inv : pt_inv demo_vmm demo_root [] (rev demo_pages).
Proof.
  assert (Hp : page_ok 18446603336221196288 135168) by solve_page_ok.
  assert (Hn : ~ In 135168 (rev demo_pages)) by (cbn; lia).
  pose proof demo_boot_inv as Hb. split.
  - exact (pmm_inv_fill _ _ 135168 0 (Z.to_nat VMM_PAGE_SIZE) Hb Hp Hn ltac:(unfold VMM_PAGE_SIZE; lia)).
  - reflexivity.
  - repeat (constructor; [split; [split; [lia|reflexivity]|solve_page_ok]|]). constructor.
  - rewrite app_nil_r. exact (pi_nodup _ _ Hb).
  - rewrite app_nil_r. exact (empty_root_tree _ 18446603336221196288 135168 _ Hp Hn).
Qed.

Lemma demo_vmm_pml4 : vm_pml4 demo_vmm = demo_root.
Proof. reflexivity. Qed.

Definition demo_mapped : vmm :=
  match vmm_map_page demo_vmm 0x400000 0x5000 VMM_USER with
  | Ret (_, s) => s
  | _ => demo_vmm
  end.

Lemma demo_mapped_pml4 : vm_pml4 demo_mapped = demo_root.
Proof. vm_compute. reflexivity. Qed.

Lemma demo_mapped_root : vm_pml4 demo_mapped <> 0.
Proof. rewrite demo_mapped_pml4. discriminate. Qed.

Lemma demo_mapped_ok :
  vmm_map_page demo_vmm 0x400000 0x5000 VMM_USER = Ret (true, demo_mapped).
Proof.
  unfold demo_mapped.
  assert (Hok : match vmm_map_page demo_vmm 0x400000 0x5000 VMM_USER with
                | Ret (b, _) => b | _ => false end = true) by (vm_compute; reflexivity).
  destruct (vmm_map_page demo_vmm 0x400000 0x5000 VMM_USER) as [[b s]| |]; [|discriminate|discriminate].
  rewrite Hok. reflexivity.
Qed.

Lemma demo_root_nonzero : demo_root <> 0.
Proof. discriminate. Qed.

Lemma demo_phys_ok : phys_ok 0x5000.
Proof. split; [lia|reflexivity]. Qed.

Lemma demo_user_u64 : is_u64 VMM_USER.
Proof. unfold is_u64, VMM_USER. lia. Qed.

Lemma map_page_correct_witness :
  exists ok s', vmm_map_page_in_space demo_vmm 135168 0x400000 0x5000 VMM_USER = Ret (ok, s').
Proof.
  destruct (map_page_correct demo_vmm 135168 0x400000 0x5000 VMM_USER [] _ demo_vmm_inv
              ltac:(discriminate) demo_root_nonzero eq_refl demo_phys_ok demo_user_u64 eq_refl)
    as (ok & s' & _ & E & _).
  exists ok, s'. exact E.
Defined.

(** The state after the demonstration mapping satisfies the invariant. *)
Lemma demo_mapped_inv : exists free, pt_inv demo_mapped (vm_pml4 demo_mapped) [] free.
Proof.
  apply (map_active_inv demo_vmm demo_mapped 0x400000 0x5000 VMM_USER [] (rev demo_pages)).
  - rewrite demo_vmm_pml4. exact demo_vmm_inv.
  - rewrite demo_vmm_pml4. exact demo_root_nonzero.
  - reflexivity.
  - exact demo_phys_ok.
  - exact demo_user_u64.
  - reflexivity.
  - exact demo_mapped_ok.
Qed.

Lemma demo_mapped_leaf :
  pt_lookup (vm_mem demo_mapped) (vm_base demo_mapped) (vm_pml4 demo_mapped)
    level_shifts 0x400000 = Some (0x5005, 12).
Proof. vm_compute. reflexivity. Qed.

Lemma unmap_page_correct_witness :
  exists s s', vmm_unmap_page s 0x400000 = Ret (true, s')
    /\ translate s' (vm_pml4 s) 0x400000 = None.
Proof.
  destruct demo_mapped_inv as [free I]. exists demo_mapped.
  destruct (unmap_page_correct demo_mapped 0x400000 0x5005 [] free I demo_mapped_root eq_refl
              demo_mapped_leaf) as (s2 & E2 & _ & _ & T).
  exists s2. split; [exact E2|]. rewrite T. reflexivity.
Defined.
