(* ===== verification/AddressSpace.v ===== *)
(** * New address spaces (src/memory/vmm.c, vmm_create_address_space)

    A new space starts with an empty user half and shares the tables of the
    active space above it: its root is a fresh page whose upper 256 entries are
    copies of the active root's. *)

From S2P Require Import Prelude Pmm Vmm.

(** The root entry of [va] is one of the shared ones. *)
Definition kernel_half (va : Z) : bool := 256 <=? table_index va 39.

(** The root entries while the copying loop has reached [i]. *)
Record copied (s s1 : vmm) (p : Z) (held free : list Z) (i : Z) (s' : vmm) : Prop := {
  cp_inv : pt_inv s' (vm_pml4 s) (p :: held) free;
  cp_lookup : forall va, pt_lookup (vm_mem s') (vm_base s) (vm_pml4 s) level_shifts va
                         = pt_lookup (vm_mem s) (vm_base s) (vm_pml4 s) level_shifts va;
  cp_same : vm_base s' = vm_base s /\ vm_pml4 s' = vm_pml4 s
            /\ vm_kernel_cr3 s' = vm_kernel_cr3 s /\ vm_cr3 s' = vm_cr3 s;
  cp_other : forall q o, page_ok (vm_base s) q -> q <> p -> 0 <= o < 4096 ->
    vm_mem s' (vm_base s + q + o) = vm_mem s (vm_base s + q + o);
  cp_entries : forall k, index_ok k ->
    load64 (vm_mem s') (vm_base s + p + 8 * k)
    = if (256 <=? k) && (k <? i) then load64 (vm_mem s) (vm_pml4 s + 8 * k) else 0
}.

Section Create.
Context (s : vmm) (held free : list Z) (p : Z) (pm : pmm).
Context (Hinv : pt_inv s (vm_pml4 s) held (p :: free)).
Context (Hinv1 : pt_inv (set_vm_pmm s pm) (vm_pml4 s) (p :: held) free).
Context (Hm : pm_mem pm = vm_mem s) (Hb : pm_hhdm_base pm = vm_base s).
Context (Hp : frame_ok (vm_base s) p).

Let s1 := set_vm_pmm s pm.
Let np := vm_base s + p.
Let s2 := set_vm_mem s1 (mem_fill (vm_mem s1) np 0 (Z.to_nat VMM_PAGE_SIZE)).

(** The page of the active root is not the new one. *)
Lemma root_page : exists q, vm_pml4 s = vm_base s + q /\ page_ok (vm_base s) q /\ q <> p.
Proof using All.
  destruct (tt_pages _ _ _ _ (pt_tree _ _ _ _ Hinv) [] _ ltac:(constructor) eq_refl)
    as (q & E & Q1 & Q2).
  exists q. split_and!; auto. intros ->. apply Q2. left. reflexivity.
Qed.

Lemma write_same_out m off bs q o :
  page_ok (vm_base s) q -> q <> p -> 0 <= o < 4096 -> 0 <= off ->
  off + Z.of_nat (length bs) <= 4096 ->
  mem_write m (vm_base s + p + off) bs (vm_base s + q + o) = m (vm_base s + q + o).
Proof using All.
  intros Hq Hne Ho H1 H2. apply mem_write_out.
  destruct (page_disjoint (vm_base s) p q (proj2 Hp) Hq); [auto|lia|lia].
Qed.

Lemma copied_start : copied s s1 p held free 256 s2.
Proof using All.
  destruct (pt_inv_write s1 (vm_pml4 s) (p :: held) free p 0 (repeat (u8 0) (Z.to_nat VMM_PAGE_SIZE))
    Hinv1 ltac:(left; reflexivity) ltac:(lia) ltac:(rewrite repeat_length; unfold VMM_PAGE_SIZE; lia))
    as [I L].
  change (vm_base s1) with (pm_hhdm_base pm) in I, L. rewrite Hb, Z.add_0_r in I, L. fold np in I, L.
  split.
  - exact I.
  - intros va. specialize (L va). change (vm_base (set_vm_mem s1 _)) with (pm_hhdm_base pm) in L.
    change (vm_mem s1) with (pm_mem pm) in L. rewrite Hb, Hm in L. unfold s2, mem_fill.
    change (vm_mem (set_vm_mem s1 ?m)) with m. change (vm_mem s1) with (pm_mem pm).
    rewrite Hm. exact L.
  - split_and!; auto.
  - intros q o Hq Hne Ho. unfold s2. change (vm_mem (set_vm_mem s1 ?m)) with m.
    change (vm_mem s1) with (pm_mem pm). rewrite Hm. unfold mem_fill, np.
    rewrite <- (Z.add_0_r (vm_base s + p)).
    apply write_same_out; auto; [lia|]. rewrite repeat_length. unfold VMM_PAGE_SIZE. lia.
  - intros k Hk. unfold s2, np. change (vm_mem (set_vm_mem s1 ?m)) with m.
    unfold index_ok in Hk. rewrite load_fill_zero by (unfold VMM_PAGE_SIZE; lia).
    destruct (Z.leb_spec 256 k), (Z.ltb_spec k 256); cbn [andb]; reflexivity || lia.
Qed.

Lemma copied_step i s' :
  256 <= i < 512 -> copied s s1 p held free i s' ->
  copied s s1 p held free (i + 1)
    (set_vm_mem s' (store64 (vm_mem s') (np + 8 * i) (load64 (vm_mem s') (vm_pml4 s' + 8 * i)))).
Proof using All.
  intros Hi [I L (B & P & K & C) O E]. rewrite P.
  destruct root_page as (q & Eq & Q1 & Q2).
  set (w := load64 (vm_mem s') (vm_pml4 s + 8 * i)).
  assert (Hw : w = load64 (vm_mem s) (vm_pml4 s + 8 * i)).
  { unfold w, load. f_equal. apply mem_read_ext. intros k Hk. simpl Z.of_nat in Hk.
    rewrite Eq. rewrite <- !Z.add_assoc, !(Z.add_assoc (vm_base s)).
    rewrite O; [reflexivity|exact Q1|exact Q2|lia]. }
  destruct (pt_inv_write s' (vm_pml4 s) (p :: held) free p (8 * i) (le_bytes 8 w) I
    ltac:(left; reflexivity) ltac:(lia) ltac:(rewrite le_bytes_length; lia)) as [I2 L2].
  rewrite B in I2, L2. split.
  - exact I2.
  - intros va. specialize (L2 va). change (vm_base (set_vm_mem s' _)) with (vm_base s') in L2.
    rewrite B in L2. rewrite <- (L va). exact L2.
  - split_and!; auto.
  - intros r o Hr Hne Ho. change (vm_mem (set_vm_mem s' ?m)) with m. rewrite <- (O r o Hr Hne Ho).
    unfold store, np. apply write_same_out; auto; [lia|]. rewrite le_bytes_length. lia.
  - intros k Hk. change (vm_mem (set_vm_mem s' ?m)) with m. fold np. destruct (Z.eq_dec k i) as [->|Hne].
    + rewrite load_store_eq. destruct (Z.leb_spec 256 i), (Z.ltb_spec i (i + 1)); cbn [andb]; try lia.
      rewrite <- Hw. apply Z.mod_small. apply (load_range 8).
    + rewrite load_store_disj by lia. unfold np. rewrite E by exact Hk.
      destruct (Z.leb_spec 256 k), (Z.ltb_spec k i), (Z.ltb_spec k (i + 1)); cbn [andb]; reflexivity || lia.
Qed.

Section Copied.
Context (s' : vmm) (Hc : copied s s1 p held free 512 s').

Lemma root_entry_shared k : 256 <= k < 512 ->
  load64 (vm_mem s') (np + 8 * k) = load64 (vm_mem s') (vm_pml4 s + 8 * k).
Proof using All.
  intros Hk. destruct Hc as [_ _ _ O E]. unfold np. rewrite E by (unfold index_ok; lia).
  destruct (Z.leb_spec 256 k), (Z.ltb_spec k 512); cbn [andb]; try lia.
  destruct root_page as (q & Eq & Q1 & Q2). unfold load. f_equal. apply mem_read_ext.
  intros j Hj. simpl Z.of_nat in Hj. rewrite Eq. rewrite <- !Z.add_assoc, !(Z.add_assoc (vm_base s)).
  rewrite O; [reflexivity|exact Q1|exact Q2|lia].
Qed.

Lemma root_entry_user k : 0 <= k < 256 -> load64 (vm_mem s') (np + 8 * k) = 0.
Proof using All.
  intros Hk. destruct Hc as [_ _ _ O E]. unfold np. rewrite E by (unfold index_ok; lia).
  destruct (Z.leb_spec 256 k); cbn [andb]; [lia|reflexivity].
Qed.

Lemma new_root_tables i idx : index_ok i ->
  pt_table (vm_mem s') (vm_base s) np dir_shifts (i :: idx)
  = if 256 <=? i then pt_table (vm_mem s') (vm_base s) (vm_pml4 s) dir_shifts (i :: idx) else None.
Proof using All.
  intros Hi. unfold index_ok in Hi. cbn [pt_table dir_shifts]. destruct (Z.leb_spec 256 i).
  - rewrite root_entry_shared by lia. reflexivity.
  - rewrite root_entry_user by lia. rewrite entry_zero_absent. reflexivity.
Qed.

Lemma new_root_tree : table_tree (vm_mem s') (vm_base s) np (free ++ held).
Proof using All.
  destruct Hc as [I _ (B & _) _ _]. pose proof (pt_tree _ _ _ _ I) as [Tp Tj]. rewrite B in Tp, Tj.
  assert (Hnew : forall i idx t, Forall index_ok (i :: idx) ->
    pt_table (vm_mem s') (vm_base s) np dir_shifts (i :: idx) = Some t ->
    pt_table (vm_mem s') (vm_base s) (vm_pml4 s) dir_shifts (i :: idx) = Some t
    /\ exists q, t = vm_base s + q /\ page_ok (vm_base s) q /\ ~ In q (free ++ p :: held)).
  { intros i idx t F E. rewrite new_root_tables in E by (inversion F; assumption).
    destruct (256 <=? i); [|discriminate]. eauto. }
  assert (Hroot : ~ In p (free ++ held)).
  { pose proof (pt_nodup _ _ _ _ I) as N. apply List.NoDup_remove_2 in N. exact N. }
  split.
  - intros [|i idx] t F E.
    + injection E as <-. exists p. split; [reflexivity|]. split; [apply Hp|exact Hroot].
    + destruct (Hnew i idx t F E) as (_ & q & -> & Q1 & Q2). exists q. split_and!; auto.
      intros Hin. apply Q2. apply in_app_or in Hin. apply in_or_app. destruct Hin; [auto|right; right; auto].
  - assert (Hne : forall i idx t, Forall index_ok (i :: idx) ->
      pt_table (vm_mem s') (vm_base s) np dir_shifts (i :: idx) = Some t -> t <> np).
    { intros i idx t F E. destruct (Hnew i idx t F E) as (_ & q & -> & _ & Q2). unfold np.
      intros Eq. apply Q2. assert (q = p) as -> by lia. apply in_elt. }
    intros [|i1 idx1] [|i2 idx2] t F1 F2 E1 E2.
    + reflexivity.
    + injection E1 as <-. destruct (Hne _ _ _ F2 E2 eq_refl).
    + injection E2 as <-. destruct (Hne _ _ _ F1 E1 eq_refl).
    + eapply Tj; [exact F1|exact F2|apply (Hnew _ _ _ F1 E1)|apply (Hnew _ _ _ F2 E2)].
Qed.

Lemma new_root_lookup va :
  pt_lookup (vm_mem s') (vm_base s) np level_shifts va
  = if kernel_half va then pt_lookup (vm_mem s) (vm_base s) (vm_pml4 s) level_shifts va else None.
Proof using All.
  pose proof (table_index_ok va 39) as Hi. unfold index_ok in Hi. unfold kernel_half.
  rewrite <- (cp_lookup _ _ _ _ _ _ _ Hc va). unfold level_shifts. cbn [pt_lookup].
  destruct (Z.leb_spec 256 (table_index va 39)).
  - rewrite root_entry_shared by lia. reflexivity.
  - rewrite root_entry_user by lia. rewrite entry_zero_absent. reflexivity.
Qed.
End Copied.
End Create.

(** ** The operation *)

(** What a created space is, for the caller that now owns its root page. *)
Record new_space (s s' : vmm) (p : Z) (held free : list Z) : Prop := {
  ns_inv : pt_inv s' (pmm_phys_to_virt (vm_pmm s') p) held free;
  ns_active : pt_inv s' (vm_pml4 s) (p :: held) free;
  ns_lookup : forall va,
    pt_lookup (vm_mem s') (vm_base s') (pmm_phys_to_virt (vm_pmm s') p) level_shifts va
    = if kernel_half va then pt_lookup (vm_mem s) (vm_base s) (vm_pml4 s) level_shifts va else None;
  ns_kept : forall va, pt_lookup (vm_mem s') (vm_base s') (vm_pml4 s) level_shifts va
                       = pt_lookup (vm_mem s) (vm_base s) (vm_pml4 s) level_shifts va;
  ns_held : held_same s s' held;
  ns_base : vm_base s' = vm_base s;
  ns_regs : vm_pml4 s' = vm_pml4 s /\ vm_kernel_cr3 s' = vm_kernel_cr3 s /\ vm_cr3 s' = vm_cr3 s;
  ns_root : p <> 0 /\ pmm_phys_to_virt (vm_pmm s') p <> 0
}.

Lemma create_space_spec s held free :
  pt_inv s (vm_pml4 s) held free -> vm_pml4 s <> 0 ->
  match free with
  | [] => vmm_create_address_space s = Ret (0, s)
  | p :: free' => exists s', vmm_create_address_space s = Ret (p, s') /\ new_space s s' p held free'
  end.
Proof.
  intros Hinv Hnz. unfold vmm_create_address_space. apply Z.eqb_neq in Hnz. rewrite Hnz.
  cbn [negb kassert mbind res_bind]. pose proof (pt_inv_alloc _ _ _ _ Hinv) as Ha.
  destruct free as [|p free].
  { rewrite Ha. cbn [Z.eqb]. destruct s; reflexivity. }
  destruct Ha as (pm & -> & I1 & Hm & Hb & Hp0 & Hp). apply Z.eqb_neq in Hp0 as Hp0'. rewrite Hp0'.
  assert (Hv : pmm_phys_to_virt (vm_pmm (set_vm_pmm s pm)) p = vm_base s + p).
  { unfold pmm_phys_to_virt. cbn [vm_pmm set_vm_pmm]. rewrite Hb.
    apply page_ok_virt; [apply (pi_base _ _ (pt_pmm _ _ _ _ Hinv))|apply Hp]. }
  rewrite Hv. unfold range_loop. change (trips 256 512 1) with 256%nat.
  set (np := vm_base s + p). set (s2 := set_vm_mem _ _).
  apply (for_loop_ind (copied s (set_vm_pmm s pm) p held free)
    (fun c => exists s', Ret (p, loop_state c) = Ret (p, s') /\ new_space s s' p held free)).
  - apply copied_start; assumption.
  - intros k s' Hk C. replace (256 + (k + 1) * 1) with (256 + k * 1 + 1) by lia.
    eapply copied_step; eauto. lia.
  - intros s' C. change (256 + Z.of_nat 256 * 1) with 512 in C. exists s'. split; [reflexivity|].
    pose proof C as [CI CL (B & Rg) CO _].
    assert (Hv' : pmm_phys_to_virt (vm_pmm s') p = np).
    { unfold pmm_phys_to_virt. fold (vm_base s'). rewrite B.
      apply page_ok_virt; [apply (pi_base _ _ (pt_pmm _ _ _ _ Hinv))|apply Hp]. }
    assert (Hpos : 0 <= vm_base s) by apply (pi_base _ _ (pt_pmm _ _ _ _ Hinv)).
    split; rewrite ?Hv', ?B; auto.
    + destruct CI as [C1 C2 C3 C4 C5]. rewrite B in C3, C5. split; auto; rewrite ?B.
      * apply List.Forall_app in C3 as [F1 F2]. apply List.Forall_app. inversion F2; auto.
      * eapply List.NoDup_remove_1, C4.
      * eapply new_root_tree; eauto.
    + intros va. eapply new_root_lookup; eauto.
    + intros q o Hq Ho.
      assert (Hqf : frame_ok (vm_base s) q).
      { eapply List.Forall_forall; [apply (pt_frames _ _ _ _ Hinv)|]. apply in_or_app. auto. }
      apply CO; [apply Hqf| |exact Ho]. intros ->. eapply (NoDup_app_out _ _ _ (pt_nodup _ _ _ _ Hinv));
        [left; reflexivity|exact Hq].
    + split; [intros ->; discriminate|]. destruct Hp as [_ (? & _)]. unfold np. lia.
Qed.

(** ** Properties *)

(** A new address space: unless memory is exhausted (then 0 is returned and
    nothing changes), the call returns a page that was free, as the root of a
    well-formed tree in which every kernel-half address is translated as in the
    active space and no user-half address is translated at all; the active
    space itself and the pages others hold are untouched. *)
Theorem create_address_space_correct (s : vmm) (held free : list Z) :
  pt_inv s (vm_pml4 s) held free -> vm_pml4 s <> 0 ->
  exists r s', vmm_create_address_space s = Ret (r, s')
    /\ if decide (free = []) then r = 0 /\ s' = s
       else let root := pmm_phys_to_virt (vm_pmm s') r in
         free = r :: tail free /\ pt_inv s' root held (tail free)
         /\ (forall va, translate s' root va
               = if kernel_half va then translate s (vm_pml4 s) va else None)
         /\ (forall va, translate s' (vm_pml4 s') va = translate s (vm_pml4 s) va)
         /\ held_same s s' held.
Proof.
  intros Hinv Hnz. pose proof (create_space_spec s held free Hinv Hnz) as C. destruct free as [|p free].
  - exists 0, s. rewrite decide_True by reflexivity. auto.
  - destruct C as (s' & E & [I _ L K H B R _]). exists p, s'. split; [exact E|].
    rewrite decide_False by discriminate. cbn [tail]. split_and!; auto.
    + intros va. unfold translate. rewrite L. destruct (kernel_half va); reflexivity.
    + intros va. destruct R as [-> _]. unfold translate. rewrite K. reflexivity.
Qed.

Lemma create_address_space_correct_witness :
  exists r s', vmm_create_address_space demo_vmm = Ret (r, s').
Proof.
  assert (Hi : pt_inv demo_vmm (vm_pml4 demo_vmm) [] (rev demo_pages))
    by (rewrite demo_vmm_pml4; exact demo_vmm_inv).
  assert (Hn : vm_pml4 demo_vmm <> 0) by (rewrite demo_vmm_pml4; exact demo_root_nonzero).
  destruct (create_address_space_correct demo_vmm [] _ Hi Hn) as (r & s' & E & _). eauto.
Defined.
