(* ===== verification/Pages.v ===== *)
(** * The page interface of the kernel

    What heap.c and process.c rely on when they manage memory by pages: the
    operations of pmm.c and vmm.c they call ([PageOps]) and what those promise
    ([PageLaws]), with the implementation by Pmm.v and Vmm.v as the instance
    [vmm_page_laws]. A client keeps the list of the frames it owns. *)

From S2P Require Import Prelude Pmm Vmm.

Class PageOps (P : Type) : Type := {
  po_alloc : P -> Z * P;
  po_free : P -> Z -> P;
  po_map : P -> Z -> Z -> Z -> res (bool * P);
  po_unmap : P -> Z -> res (bool * P);
  po_virt_to_phys : P -> Z -> res (option Z)
}.

(** [pages_ok s held]: the structures are well formed and [held] are the frames
    owned by clients, distinct from each other, from the free frames and from
    the tables. [pages_leaf s va] is the frame mapped at the page of [va]. *)
Class PageLaws (P : Type) `{PageOps P} : Type := {
  pages_ok : P -> list Z -> Prop;
  pages_leaf : P -> Z -> option Z;
  pages_perm s held held' :
    Permutation held held' -> pages_ok s held -> pages_ok s held';
  pages_nodup s held : pages_ok s held -> List.NoDup held;
  pages_frame s held p : pages_ok s held -> In p held -> p <> 0 /\ phys_ok p;
  pages_leaf_vpn s va va' : vpn va = vpn va' -> pages_leaf s va = pages_leaf s va';
  alloc_law s held :
    pages_ok s held ->
    exists p s', po_alloc s = (p, s')
      /\ pages_ok s' (if p =? 0 then held else p :: held)
      /\ forall va, pages_leaf s' va = pages_leaf s va;
  free_law s held p :
    pages_ok s (p :: held) ->
    pages_ok (po_free s p) held /\ forall va, pages_leaf (po_free s p) va = pages_leaf s va;
  map_law s held va pa flags :
    pages_ok s held -> va mod 4096 = 0 -> phys_ok pa -> is_u64 flags ->
    Z.land flags PTE_ADDR_MASK = 0 ->
    exists ok s', po_map s va pa flags = Ret (ok, s') /\ pages_ok s' held
      /\ forall va', pages_leaf s' va'
           = if decide (ok = true /\ vpn va' = vpn va) then Some pa else pages_leaf s va';
  unmap_law s held va p :
    pages_ok s held -> va mod 4096 = 0 -> pages_leaf s va = Some p ->
    exists s', po_unmap s va = Ret (true, s') /\ pages_ok s' held
      /\ forall va', pages_leaf s' va'
           = if decide (vpn va' = vpn va) then None else pages_leaf s va';
  virt_to_phys_law s held va p :
    pages_ok s held -> pages_leaf s va = Some p ->
    po_virt_to_phys s va = Ret (Some (p + va mod 4096))
}.

(** ** The implementation *)

#[export] Instance vmm_page_ops : PageOps vmm := {
  po_alloc s := let '(p, pm) := pmm_alloc_page (vm_pmm s) in (p, set_vm_pmm s pm);
  po_free s p := set_vm_pmm s (pmm_free_page (vm_pmm s) p);
  po_map := vmm_map_page;
  po_unmap := vmm_unmap_page;
  po_virt_to_phys := vmm_virt_to_phys
}.

Definition vmm_pages_ok (s : vmm) (held : list Z) : Prop :=
  vm_pml4 s <> 0 /\ exists free, pt_inv s (vm_pml4 s) held free.

Definition vmm_leaf (s : vmm) (va : Z) : option Z :=
  match pt_lookup (vm_mem s) (vm_base s) (vm_pml4 s) level_shifts va with
  | Some (e, 12) => Some (Z.land e PTE_ADDR_MASK)
  | _ => None
  end.

Lemma pt_lookup_vpn m base t va va' :
  vpn va = vpn va' ->
  pt_lookup m base t level_shifts va = pt_lookup m base t level_shifts va'.
Proof.
  intros E. apply same_path in E. unfold level_shifts in *. cbn [map] in E.
  injection E as E1 E2 E3 E4. cbn [pt_lookup]. rewrite E1, E2, E3, E4. reflexivity.
Qed.

Lemma vmm_leaf_lookup s s' va :
  pt_lookup (vm_mem s') (vm_base s') (vm_pml4 s') level_shifts va
  = pt_lookup (vm_mem s) (vm_base s) (vm_pml4 s) level_shifts va ->
  vmm_leaf s' va = vmm_leaf s va.
Proof. unfold vmm_leaf. intros ->. reflexivity. Qed.

Lemma vmm_alloc_law s held :
  vmm_pages_ok s held ->
  exists p s', po_alloc s = (p, s')
    /\ vmm_pages_ok s' (if p =? 0 then held else p :: held)
    /\ forall va, vmm_leaf s' va = vmm_leaf s va.
Proof.
  intros [Hnz [free Hinv]]. pose proof (pt_inv_alloc _ _ _ _ Hinv) as Ha.
  cbn [po_alloc vmm_page_ops]. destruct free as [|p free].
  { rewrite Ha. exists 0, s. cbn [Z.eqb].
    split; [destruct s; reflexivity|]. split; [|reflexivity]. split; [exact Hnz|eauto]. }
  destruct Ha as (pm & -> & Hinv' & Hm & Hb & Hp0 & _). apply Z.eqb_neq in Hp0.
  exists p, (set_vm_pmm s pm). split; [reflexivity|]. rewrite Hp0. split; [split; eauto|].
  intros va. apply vmm_leaf_lookup. unfold vm_base, vm_mem in *.
  cbn [vm_pmm set_vm_pmm vm_pml4]. rewrite Hb, Hm. reflexivity.
Qed.

Lemma vmm_free_law s held p :
  vmm_pages_ok s (p :: held) ->
  vmm_pages_ok (po_free s p) held /\ forall va, vmm_leaf (po_free s p) va = vmm_leaf s va.
Proof.
  intros [Hnz [free [Hpm Hi Hf Hn Ht]]]. cbn [po_free vmm_page_ops].
  assert (Hperm : Permutation (free ++ p :: held) ((p :: free) ++ held))
    by (symmetry; apply Permutation_middle).
  pose proof (Permutation_Forall Hperm Hf) as Hf'.
  pose proof (Permutation_NoDup Hperm Hn) as Hn'.
  cbn [app] in Hf', Hn'. inversion Hf' as [|? ? [Hpp Hpo] Hff]; subst.
  inversion Hn' as [|? ? Hpn Hnn]; subst.
  rewrite pmm_free_page_push by assumption.
  assert (Hpush : pmm_inv (push_page (vm_pmm s) p) (p :: free)).
  { apply push_page_inv; auto. intros Hq. apply Hpn, in_or_app. auto. }
  set (pm := push_page (vm_pmm s) p) in *.
  assert (Hb : pm_hhdm_base pm = vm_base s) by reflexivity.
  assert (Hm : pm_mem pm = store64 (vm_mem s) (vm_base s + p) (pm_free_list (vm_pmm s))).
  { unfold pm, push_page, pmm_phys_to_virt. cbn [pm_mem]. fold (vm_base s). fold (vm_mem s).
    rewrite page_ok_virt; [reflexivity|apply (pi_base _ _ Hpm)|exact Hpo]. }
  assert (Hsame : forall js t k, Forall index_ok js -> index_ok k ->
    pt_table (vm_mem s) (vm_base s) (vm_pml4 s) dir_shifts js = Some t ->
    load64 (pm_mem pm) (t + 8 * k) = load64 (vm_mem s) (t + 8 * k)).
  { intros js t k Fj Fk Ej. destruct (tt_pages _ _ _ _ Ht _ _ Fj Ej) as (q & -> & Q1 & Q2).
    rewrite Hm. apply load_store_disj.
    assert (q <> p) by (intros ->; apply Q2, in_elt).
    unfold index_ok in Fk. destruct (page_disjoint (vm_base s) q p); auto; lia. }
  split.
  - split; [exact Hnz|]. exists (p :: free).
    split; unfold vm_base, vm_mem in *; cbn [vm_pmm set_vm_pmm vm_pml4]; auto.
    rewrite Hb. split.
    + intros js t Fj. rewrite (frame_tables (pm_mem (vm_pmm s)) _ _ _ Hsame js Fj). intros Ej.
      destruct (tt_pages _ _ _ _ Ht _ _ Fj Ej) as (q & -> & Q1 & Q2). exists q.
      split_and!; auto. intros Hq. apply Q2. eapply Permutation_in; [symmetry; exact Hperm|exact Hq].
    + intros j1 j2 t F1 F2.
      rewrite (frame_tables (pm_mem (vm_pmm s)) _ _ _ Hsame j1 F1).
      rewrite (frame_tables (pm_mem (vm_pmm s)) _ _ _ Hsame j2 F2).
      apply (tt_inj _ _ _ _ Ht); assumption.
  - intros va. apply vmm_leaf_lookup. apply frame_lookup. exact Hsame.
Qed.

Lemma vmm_map_law s held va pa flags :
  vmm_pages_ok s held -> va mod 4096 = 0 -> phys_ok pa -> is_u64 flags ->
  Z.land flags PTE_ADDR_MASK = 0 ->
  exists ok s', po_map s va pa flags = Ret (ok, s') /\ vmm_pages_ok s' held
    /\ forall va', vmm_leaf s' va'
         = if decide (ok = true /\ vpn va' = vpn va) then Some pa else vmm_leaf s va'.
Proof.
  intros [Hnz [free Hinv]] Hva Hpa Hfl Hfm.
  destruct (map_at_level_page s (vm_pml4 s) va pa flags held free Hinv Hnz Hva Hpa Hfl Hfm)
    as (ok & s' & free' & E & I & P & _ & L & _).
  exists ok, s'. split; [exact E|]. split; [split; [|exists free']; rewrite P; assumption|].
  intros va'. unfold vmm_leaf. rewrite P, L.
  destruct (decide _); [|reflexivity].
  f_equal. apply (leaf_entry_ok pa flags Hpa Hfl Hfm).
Qed.

Lemma vmm_leaf_some s va p :
  vmm_leaf s va = Some p ->
  exists e, pt_lookup (vm_mem s) (vm_base s) (vm_pml4 s) level_shifts va = Some (e, 12)
    /\ p = Z.land e PTE_ADDR_MASK.
Proof.
  unfold vmm_leaf. intros H. destruct (pt_lookup _ _ _ _ _) as [[e sh]|]; [|discriminate].
  assert (sh = 12) as -> by (repeat (destruct sh as [|sh|sh]; try discriminate; auto)).
  injection H as <-. eauto.
Qed.

Lemma vmm_unmap_law s held va p :
  vmm_pages_ok s held -> va mod 4096 = 0 -> vmm_leaf s va = Some p ->
  exists s', po_unmap s va = Ret (true, s') /\ vmm_pages_ok s' held
    /\ forall va', vmm_leaf s' va'
         = if decide (vpn va' = vpn va) then None else vmm_leaf s va'.
Proof.
  intros [Hnz [free Hinv]] Hva Hl. destruct (vmm_leaf_some _ _ _ Hl) as (e & He & _).
  destruct (unmap_leaf s va e held free Hinv Hnz Hva He) as (s' & E & I & _ & P & _ & L).
  exists s'. split; [exact E|]. split; [split; [|exists free]; rewrite P; assumption|].
  intros va'. unfold vmm_leaf. rewrite P, L. destruct (decide _); reflexivity.
Qed.

Lemma vmm_virt_to_phys_law s held va p :
  vmm_pages_ok s held -> vmm_leaf s va = Some p ->
  po_virt_to_phys s va = Ret (Some (p + va mod 4096)).
Proof.
  intros [Hnz _] Hl. destruct (vmm_leaf_some _ _ _ Hl) as (e & He & ->).
  cbn [po_virt_to_phys vmm_page_ops]. rewrite (virt_to_phys_translate s va Hnz).
  rewrite (translate_leaf _ _ _ _ He). do 2 f_equal.
  apply (lor_low_add _ _ 12); [lia| |change (2 ^ 12) with 4096; apply Z.mod_pos_bound; lia].
  apply addr_mask_aligned.
Qed.

Lemma vmm_pages_perm s held held' :
  Permutation held held' -> vmm_pages_ok s held -> vmm_pages_ok s held'.
Proof.
  intros Hp [Hnz [free [A B C D E]]]. split; [exact Hnz|]. exists free.
  pose proof (Permutation_app_head free Hp) as Hp'. split; auto.
  - eapply Permutation_Forall; eauto.
  - eapply Permutation_NoDup; eauto.
  - eapply table_tree_mono; [|exact E]. intros q Hq.
    eapply Permutation_in; [symmetry; exact Hp'|exact Hq].
Qed.

Lemma vmm_pages_nodup s held : vmm_pages_ok s held -> List.NoDup held.
Proof. intros [_ [free [_ _ _ D _]]]. eapply List.NoDup_app_remove_l, D. Qed.

Lemma vmm_pages_frame s held p : vmm_pages_ok s held -> In p held -> p <> 0 /\ phys_ok p.
Proof.
  intros [_ [free [_ _ C _ _]]] Hin.
  assert (Hf : frame_ok (vm_base s) p).
  { eapply List.Forall_forall; [exact C|]. apply in_or_app. auto. }
  destruct Hf as [Hp (H & _)]. split; [lia|exact Hp].
Qed.

Lemma vmm_leaf_vpn s va va' : vpn va = vpn va' -> vmm_leaf s va = vmm_leaf s va'.
Proof. intros E. unfold vmm_leaf. rewrite (pt_lookup_vpn _ _ _ _ _ E). reflexivity. Qed.

#[export] Instance vmm_page_laws : PageLaws vmm := {
  pages_ok := vmm_pages_ok;
  pages_leaf := vmm_leaf;
  pages_perm := vmm_pages_perm;
  pages_nodup := vmm_pages_nodup;
  pages_frame := vmm_pages_frame;
  pages_leaf_vpn := vmm_leaf_vpn;
  alloc_law := vmm_alloc_law;
  free_law := vmm_free_law;
  map_law := vmm_map_law;
  unmap_law := vmm_unmap_law;
  virt_to_phys_law := vmm_virt_to_phys_law
}.
