(* ===== verification/Heap.v ===== *)
(** * Kernel heap (src/memory/heap.c)

    The operations of heap.c over a flat kernel memory: a [heap_block] header is
    32 bytes at its address (magic at 0, free at 4, size at 8, prev at 16, next
    at 24), read and written with loads and stores, so that a header and a
    payload that overlapped would corrupt each other as they would on the
    machine. Pages come from the interface of Pages.v. The record [kheap] holds
    the static variables of heap.c; HeapProofs.v holds its invariant and
    theorems. *)

From S2P Require Import Prelude Pmm Vmm Pages.

Definition KHEAP_BASE : Z := 0xffffc00000000000.
Definition KHEAP_MAX_SIZE : Z := 64 * 1024 * 1024.
Definition KHEAP_CHUNK_SIZE : Z := 64 * 1024.
Definition HEAP_ALIGN : Z := 16.
Definition HEAP_MAGIC : Z := 0x48454150.

(** [sizeof(struct heap_block)] on x86-64. *)
Definition sizeof_heap_block : Z := 32.

(** No list of blocks is longer than the heap has room for headers. *)
Definition heap_fuel : nat := Z.to_nat (KHEAP_MAX_SIZE / sizeof_heap_block + 1).

Record heap_stats : Type := mk_heap_stats {
  hs_mapped_bytes : Z;
  hs_allocated_bytes : Z;
  hs_free_bytes : Z
}.

(** [struct heap_block]: the fields of the block at address [b]. *)
Definition blk_magic (m : mem) (b : Z) : Z := load32 m b.
Definition blk_free (m : mem) (b : Z) : bool := negb (load8 m (b + 4) =? 0).
Definition blk_size (m : mem) (b : Z) : Z := load64 m (b + 8).
Definition blk_prev (m : mem) (b : Z) : Z := load64 m (b + 16).
Definition blk_next (m : mem) (b : Z) : Z := load64 m (b + 24).

Definition set_magic (m : mem) (b v : Z) : mem := store32 m b v.
Definition set_free (m : mem) (b : Z) (v : bool) : mem := store8 m (b + 4) (if v then 1 else 0).
Definition set_size (m : mem) (b v : Z) : mem := store64 m (b + 8) v.
Definition set_prev (m : mem) (b v : Z) : mem := store64 m (b + 16) v.
Definition set_next (m : mem) (b v : Z) : mem := store64 m (b + 24) v.

Record kheap (P : Type) : Type := mk_kheap {
  kh_pages : P;
  kh_mem : mem;
  kh_first_block : Z;
  kh_last_block : Z;
  kh_heap_start : Z;
  kh_heap_end : Z;
  kh_mapped_bytes : Z;
  kh_allocated_bytes : Z;
  kh_initialized : bool
}.
Arguments mk_kheap {P}.
Arguments kh_pages {P}.
Arguments kh_mem {P}.
Arguments kh_first_block {P}.
Arguments kh_last_block {P}.
Arguments kh_heap_start {P}.
Arguments kh_heap_end {P}.
Arguments kh_mapped_bytes {P}.
Arguments kh_allocated_bytes {P}.
Arguments kh_initialized {P}.

Definition align_up_size (value alignment : Z) : Z := align_up value alignment.
Definition block_overhead : Z := align_up_size sizeof_heap_block HEAP_ALIGN.
Definition block_payload (block : Z) : Z := u64 (block + block_overhead).
Definition payload_block (ptr : Z) : Z := u64 (ptr - block_overhead).

Section Ops.
Context {P : Type} `{PageOps P}.

Definition with_pages (h : kheap P) (s : P) : kheap P :=
  mk_kheap s (kh_mem h) (kh_first_block h) (kh_last_block h) (kh_heap_start h)
    (kh_heap_end h) (kh_mapped_bytes h) (kh_allocated_bytes h) (kh_initialized h).

Definition with_mem (h : kheap P) (m : mem) : kheap P :=
  mk_kheap (kh_pages h) m (kh_first_block h) (kh_last_block h) (kh_heap_start h)
    (kh_heap_end h) (kh_mapped_bytes h) (kh_allocated_bytes h) (kh_initialized h).

Definition with_first (h : kheap P) (b : Z) : kheap P :=
  mk_kheap (kh_pages h) (kh_mem h) b (kh_last_block h) (kh_heap_start h)
    (kh_heap_end h) (kh_mapped_bytes h) (kh_allocated_bytes h) (kh_initialized h).

Definition with_last (h : kheap P) (b : Z) : kheap P :=
  mk_kheap (kh_pages h) (kh_mem h) (kh_first_block h) b (kh_heap_start h)
    (kh_heap_end h) (kh_mapped_bytes h) (kh_allocated_bytes h) (kh_initialized h).

(** [heap_end += bytes; mapped_bytes += bytes]. *)
Definition grow (h : kheap P) (bytes : Z) : kheap P :=
  mk_kheap (kh_pages h) (kh_mem h) (kh_first_block h) (kh_last_block h) (kh_heap_start h)
    (u64 (kh_heap_end h + bytes)) (u64 (kh_mapped_bytes h + bytes))
    (kh_allocated_bytes h) (kh_initialized h).

Definition with_allocated (h : kheap P) (n : Z) : kheap P :=
  mk_kheap (kh_pages h) (kh_mem h) (kh_first_block h) (kh_last_block h) (kh_heap_start h)
    (kh_heap_end h) (kh_mapped_bytes h) (u64 n) (kh_initialized h).

Definition append_block (h : kheap P) (block : Z) : kheap P :=
  let h := with_mem h (set_prev (kh_mem h) block (kh_last_block h)) in
  let h := with_mem h (set_next (kh_mem h) block 0) in
  let h := if negb (kh_last_block h =? 0)
           then with_mem h (set_next (kh_mem h) (kh_last_block h) block)
           else with_first h block in
  with_last h block.

Definition split_block (h : kheap P) (block size : Z) : kheap P :=
  let overhead := block_overhead in
  let m := kh_mem h in
  if blk_size m block <? u64 (u64 (size + overhead) + HEAP_ALIGN) then h
  else
    let split := u64 (block_payload block + size) in
    let m := set_magic m split HEAP_MAGIC in
    let m := set_free m split true in
    let m := set_size m split (u64 (u64 (blk_size m block - size) - overhead)) in
    let m := set_prev m split block in
    let m := set_next m split (blk_next m block) in
    let h := with_mem h m in
    let h := if negb (blk_next m split =? 0)
             then with_mem h (set_prev m (blk_next m split) split)
             else with_last h split in
    let m := kh_mem h in
    let m := set_size m block size in
    with_mem h (set_next m block split).

Definition coalesce_with_next (h : kheap P) (block : Z) : kheap P :=
  let m := kh_mem h in
  let next := blk_next m block in
  if (next =? 0) || negb (blk_free m next) then h
  else
    let m := set_size m block (u64 (blk_size m block + u64 (block_overhead + blk_size m next))) in
    let m := set_next m block (blk_next m next) in
    let h := with_mem h m in
    if negb (blk_next m block =? 0)
    then with_mem h (set_prev m (blk_next m block) block)
    else with_last h block.

Definition rollback_heap_mapping (s : P) (start bytes : Z) : res P :=
  mrange 0 bytes VMM_PAGE_SIZE (fun offset s =>
    po_virt_to_phys s (u64 (start + offset)) ≫= fun r =>
    match r with
    | Some physical =>
        po_unmap s (u64 (start + offset)) ≫= fun '(_, s) =>
        Ret (Cont (po_free s physical))
    | None => Ret (Cont s)
    end) s ≫= fun c => Ret (loop_state c).

(** The loop of [expand_heap]: its state is the page state and
    [mapped_this_expand]; it leaves with the page state after a rollback. *)
Definition expand_loop (s : P) (heap_end bytes : Z) : res (ctl (P * Z) P) :=
  mrange 0 bytes VMM_PAGE_SIZE (fun offset '(s, mapped_this_expand) =>
    let '(physical, s) := po_alloc s in
    if physical =? 0 then
      rollback_heap_mapping s heap_end mapped_this_expand ≫= fun s => Ret (Break s)
    else
      po_map s (u64 (heap_end + offset)) physical VMM_WRITABLE ≫= fun '(ok, s) =>
      if negb ok then
        rollback_heap_mapping (po_free s physical) heap_end mapped_this_expand ≫= fun s =>
        Ret (Break s)
      else Ret (Cont (s, u64 (mapped_this_expand + VMM_PAGE_SIZE)))) (s, 0).

Definition expand_heap (h : kheap P) (min_payload_size : Z) : res (bool * kheap P) :=
  let total_needed := u64 (min_payload_size + block_overhead) in
  let bytes := align_up_size total_needed KHEAP_CHUNK_SIZE in
  if (u64 (kh_heap_end h + bytes) <? kh_heap_end h)
     || (u64 (kh_heap_start h + KHEAP_MAX_SIZE) <? u64 (kh_heap_end h + bytes))
  then Ret (false, h)
  else
    let block_address := kh_heap_end h in
    expand_loop (kh_pages h) (kh_heap_end h) bytes ≫= fun c =>
    match c with
    | Break s => Ret (false, with_pages h s)
    | Cont (s, _) =>
        let h := grow (with_pages h s) bytes in
        let block := block_address in
        let m := set_magic (kh_mem h) block HEAP_MAGIC in
        let m := set_free m block true in
        let m := set_size m block (u64 (bytes - block_overhead)) in
        let h := append_block (with_mem h m) block in
        let prev := blk_prev (kh_mem h) block in
        Ret (true, if negb (prev =? 0) && blk_free (kh_mem h) prev
                   then coalesce_with_next h prev else h)
    end.

(** The search from [block] on; [Some 0] is NULL. *)
Fixpoint find_free_from (fuel : nat) (m : mem) (block size : Z) : option Z :=
  match fuel with
  | O => None
  | S fuel =>
      if block =? 0 then Some 0
      else if blk_free m block && (size <=? blk_size m block) then Some block
      else find_free_from fuel m (blk_next m block) size
  end.

Definition find_free_block (h : kheap P) (size : Z) : res Z :=
  of_fuel (find_free_from heap_fuel (kh_mem h) (kh_first_block h) size).

(** [s] is the state of the page tables, [m] the memory at boot. *)
Definition kheap_init (s : P) (m : mem) : kheap P :=
  mk_kheap s m 0 0 KHEAP_BASE KHEAP_BASE 0 0 true.

Definition kmalloc (h : kheap P) (size : Z) : res (Z * kheap P) :=
  if negb (kh_initialized h) || (size =? 0) then Ret (0, h)
  else
    let size := align_up_size size HEAP_ALIGN in
    find_free_block h size ≫= fun block =>
    (if block =? 0 then
       expand_heap h size ≫= fun '(ok, h) =>
       if negb ok then Ret (0, h)
       else find_free_block h size ≫= fun block => Ret (block, h)
     else Ret (block, h)) ≫= fun '(block, h) =>
    if block =? 0 then Ret (0, h)
    else
      let h := split_block h block size in
      let h := with_mem h (set_free (kh_mem h) block false) in
      let h := with_allocated h (kh_allocated_bytes h + blk_size (kh_mem h) block) in
      Ret (block_payload block, h).

Definition kcalloc (h : kheap P) (count size : Z) : res (Z * kheap P) :=
  if negb (size =? 0) && (18446744073709551615 / size <? count) then Ret (0, h)
  else
    let bytes := u64 (count * size) in
    kmalloc h bytes ≫= fun '(ptr, h) =>
    Ret (ptr, if negb (ptr =? 0)
              then with_mem h (mem_fill (kh_mem h) ptr 0 (Z.to_nat bytes)) else h).

Definition kfree (h : kheap P) (ptr : Z) : res (kheap P) :=
  if ptr =? 0 then Ret h
  else
    let block := payload_block ptr in
    kassert (blk_magic (kh_mem h) block =? HEAP_MAGIC) ≫= fun _ =>
    kassert (negb (blk_free (kh_mem h) block)) ≫= fun _ =>
    let h := with_mem h (set_free (kh_mem h) block true) in
    let h := with_allocated h (kh_allocated_bytes h - blk_size (kh_mem h) block) in
    let h := coalesce_with_next h block in
    let prev := blk_prev (kh_mem h) block in
    Ret (if negb (prev =? 0) && blk_free (kh_mem h) prev
         then coalesce_with_next h prev else h).

(** [memcpy(dest, src, n)] for ranges that do not overlap. *)
Definition mem_copy (m : mem) (dest src : Z) (n : nat) : mem :=
  mem_write m dest (mem_read m src n).

Definition krealloc (h : kheap P) (ptr size : Z) : res (Z * kheap P) :=
  if ptr =? 0 then kmalloc h size
  else if size =? 0 then kfree h ptr ≫= fun h => Ret (0, h)
  else
    let block := payload_block ptr in
    kassert (blk_magic (kh_mem h) block =? HEAP_MAGIC) ≫= fun _ =>
    let aligned_size := align_up_size size HEAP_ALIGN in
    if aligned_size <=? blk_size (kh_mem h) block then
      let old_size := blk_size (kh_mem h) block in
      let h := split_block h block aligned_size in
      let next := blk_next (kh_mem h) block in
      let h := if negb (next =? 0) && blk_free (kh_mem h) next
               then coalesce_with_next h next else h in
      Ret (ptr, with_allocated h
                  (kh_allocated_bytes h - (old_size - blk_size (kh_mem h) block)))
    else
      kmalloc h size ≫= fun '(new_ptr, h) =>
      if new_ptr =? 0 then Ret (0, h)
      else
        let h := with_mem h (mem_copy (kh_mem h) new_ptr ptr
                   (Z.to_nat (blk_size (kh_mem h) block))) in
        kfree h ptr ≫= fun h => Ret (new_ptr, h).

Fixpoint sum_free_from (fuel : nat) (m : mem) (block free_bytes : Z) : option Z :=
  match fuel with
  | O => None
  | S fuel =>
      if block =? 0 then Some free_bytes
      else sum_free_from fuel m (blk_next m block)
             (if blk_free m block then u64 (free_bytes + blk_size m block) else free_bytes)
  end.

Definition kheap_get_stats (h : kheap P) : res heap_stats :=
  of_fuel (sum_free_from heap_fuel (kh_mem h) (kh_first_block h) 0) ≫= fun free_bytes =>
  Ret (mk_heap_stats (kh_mapped_bytes h) (kh_allocated_bytes h) free_bytes).

(** The loop of [kheap_validate]; it ends with [previous] and
    [calculated_allocated], or with [None] where the code returns false. *)
Fixpoint validate_from (fuel : nat) (h : kheap P) (block previous calculated : Z)
    : option (option (Z * Z)) :=
  match fuel with
  | O => None
  | S fuel =>
      if block =? 0 then Some (Some (previous, calculated))
      else
        let m := kh_mem h in
        let payload_address := block_payload block in
        let block_end := u64 (payload_address + blk_size m block) in
        if negb (blk_magic m block =? HEAP_MAGIC)
           || negb (blk_prev m block =? previous)
           || (block <? kh_heap_start h)
           || (kh_heap_end h <=? block)
           || (payload_address <? block)
           || (block_end <? payload_address)
           || (kh_heap_end h <? block_end)
           || negb (Z.land (blk_size m block) (HEAP_ALIGN - 1) =? 0)
        then Some None
        else if blk_free m block && negb (blk_next m block =? 0)
                && blk_free m (blk_next m block)
        then Some None
        else validate_from fuel h (blk_next m block) block
               (if blk_free m block then calculated
                else u64 (calculated + blk_size m block))
  end.

Definition kheap_validate (h : kheap P) : res bool :=
  if negb (kh_initialized h) then Ret false
  else
    of_fuel (validate_from heap_fuel h (kh_first_block h) 0 0) ≫= fun r =>
    Ret match r with
        | None => false
        | Some (previous, calculated_allocated) =>
            (previous =? kh_last_block h)
            && (calculated_allocated =? kh_allocated_bytes h)
        end.
End Ops.
