(* ===== verification/HeapBlocks.v ===== *)
(** * The kernel heap as a list of blocks

    The heap is a doubly linked list of headers ([hseg]) that tile the mapped
    region ([tiles]). Each lemma below says how one helper of heap.c changes the
    list of blocks: marking, splitting, coalescing, appending and searching. *)

From S2P Require Import Prelude Pmm Vmm Pages Heap.

(** ** Blocks *)

Record hblk : Type := mk_hblk {
  hb_addr : Z;
  hb_size : Z;
  hb_free : bool
}.

Definition hb_payload (x : hblk) : Z := hb_addr x + 32.
Definition hb_end (x : hblk) : Z := hb_addr x + 32 + hb_size x.
Definition hb_set_free (x : hblk) (f : bool) : hblk := mk_hblk (hb_addr x) (hb_size x) f.

(** The header at [b]. *)
Definition hdr : Type := Z * bool * Z * Z * Z.
Definition rd (m : mem) (b : Z) : hdr :=
  (blk_magic m b, blk_free m b, blk_size m b, blk_prev m b, blk_next m b).

(** The blocks [l] are linked: the first is at [cur] with predecessor [prev],
    and after the last the pair is [(prev', cur')]. *)
Fixpoint hseg (m : mem) (prev cur : Z) (l : list hblk) (prev' cur' : Z) : Prop :=
  match l with
  | [] => prev = prev' /\ cur = cur'
  | x :: r => cur = hb_addr x /\ exists next,
      rd m (hb_addr x) = (HEAP_MAGIC, hb_free x, hb_size x, prev, next)
      /\ hseg m (hb_addr x) next r prev' cur'
  end.

(** The blocks [l] tile the addresses from [pos] to [e]. *)
Fixpoint tiles (pos : Z) (l : list hblk) (e : Z) : Prop :=
  match l with
  | [] => pos = e
  | x :: r => hb_addr x = pos /\ 0 <= hb_size x /\ hb_size x mod 16 = 0
              /\ tiles (hb_end x) r e
  end.

Fixpoint no_adjacent_free (l : list hblk) : Prop :=
  match l with
  | x :: (y :: _) as r => (hb_free x && hb_free y = false) /\ no_adjacent_free r
  | _ => True
  end.

Definition is_live (x : hblk) : bool := negb (hb_free x).
Definition live_bytes (l : list hblk) : Z :=
  fold_right (fun x n => (if hb_free x then 0 else hb_size x) + n) 0 l.
Definition free_bytes (l : list hblk) : Z :=
  fold_right (fun x n => (if hb_free x then hb_size x else 0) + n) 0 l.

(** The live allocations: payload address and size. *)
Definition live (l : list hblk) : list (Z * Z) :=
  map (fun x => (hb_payload x, hb_size x)) (List.filter is_live l).

(** No byte of a payload of [l] differs. *)
Definition payload_same (m m' : mem) (l : list hblk) : Prop :=
  forall x a, In x l -> hb_payload x <= a < hb_end x -> m' a = m a.

(** ** Lemmas on headers *)

Ltac hdr_simpl :=
  unfold rd, blk_magic, blk_free, blk_size, blk_prev, blk_next,
    set_magic, set_free, set_size, set_prev, set_next;
  repeat first [ rewrite load_store_eq | rewrite load_store_disj by (simpl Z.of_nat; lia) ].

Lemma rd_store_other n m b b' off v :
  0 <= off -> off + Z.of_nat n <= 32 -> b + 32 <= b' \/ b' + 32 <= b ->
  rd (store n m (b + off) v) b' = rd m b'.
Proof. intros. hdr_simpl. reflexivity. Qed.

(** The header fields after each kind of write. *)
Definition h_prev (p : Z) (h : hdr) : hdr := let '(mg, f, s, _, n) := h in (mg, f, s, p, n).
Definition h_next (n : Z) (h : hdr) : hdr := let '(mg, f, s, p, _) := h in (mg, f, s, p, n).
Definition h_size (s : Z) (h : hdr) : hdr := let '(mg, f, _, p, n) := h in (mg, f, s, p, n).
Definition h_free (f : bool) (h : hdr) : hdr := let '(mg, _, s, p, n) := h in (mg, f, s, p, n).

Lemma rd_set_prev m b v : is_u64 v -> rd (set_prev m b v) b = h_prev v (rd m b).
Proof. intros. hdr_simpl. cbn. do 2 f_equal. apply u64_id. assumption. Qed.

Lemma rd_set_next m b v : is_u64 v -> rd (set_next m b v) b = h_next v (rd m b).
Proof. intros. hdr_simpl. cbn. f_equal. apply u64_id. assumption. Qed.

Lemma rd_set_size m b v : is_u64 v -> rd (set_size m b v) b = h_size v (rd m b).
Proof. intros. hdr_simpl. cbn. do 3 f_equal. apply u64_id. assumption. Qed.

Lemma rd_set_free m b v : rd (set_free m b v) b = h_free v (rd m b).
Proof. hdr_simpl. cbn. destruct v; reflexivity. Qed.

Lemma rd_fresh m b f s :
  is_u64 s ->
  rd (set_size (set_free (set_magic m b HEAP_MAGIC) b f) b s) b
  = (HEAP_MAGIC, f, s, blk_prev m b, blk_next m b).
Proof.
  intros Hs. hdr_simpl. rewrite (Z.mod_small s) by (unfold is_u64 in Hs; simpl; lia).
  destruct f; reflexivity.
Qed.

(** All header writes, as stores inside the header. *)
Lemma rd_set_other m b b' :
  b + 32 <= b' \/ b' + 32 <= b ->
  (forall v, rd (set_magic m b v) b' = rd m b')
  /\ (forall v, rd (set_free m b v) b' = rd m b')
  /\ (forall v, rd (set_size m b v) b' = rd m b')
  /\ (forall v, rd (set_prev m b v) b' = rd m b')
  /\ (forall v, rd (set_next m b v) b' = rd m b').
Proof.
  intros D. split_and!; intros v;
    [|apply rd_store_other; simpl; lia|apply rd_store_other; simpl; lia
     |apply rd_store_other; simpl; lia|apply rd_store_other; simpl; lia].
  unfold set_magic. rewrite <- (Z.add_0_r b). apply rd_store_other; simpl; lia.
Qed.

(** Bytes outside the header of [b] are kept by every write to it. *)
Lemma set_byte_other m b a :
  a < b \/ b + 32 <= a ->
  (forall v, set_magic m b v a = m a) /\ (forall v, set_free m b v a = m a)
  /\ (forall v, set_size m b v a = m a) /\ (forall v, set_prev m b v a = m a)
  /\ (forall v, set_next m b v a = m a).
Proof.
  intros D. split_and!; intros v;
    unfold set_magic, set_free, set_size, set_prev, set_next, store;
    apply mem_write_out; rewrite le_bytes_length; simpl; lia.
Qed.

Ltac rd_other :=
  repeat match goal with
  | |- context [rd (set_magic ?m ?b ?v) ?b'] =>
      rewrite (proj1 (rd_set_other m b b' ltac:(lia)) v)
  | |- context [rd (set_free ?m ?b ?v) ?b'] =>
      rewrite (proj1 (proj2 (rd_set_other m b b' ltac:(lia))) v)
  | |- context [rd (set_size ?m ?b ?v) ?b'] =>
      rewrite (proj1 (proj2 (proj2 (rd_set_other m b b' ltac:(lia)))) v)
  | |- context [rd (set_prev ?m ?b ?v) ?b'] =>
      rewrite (proj1 (proj2 (proj2 (proj2 (rd_set_other m b b' ltac:(lia))))) v)
  | |- context [rd (set_next ?m ?b ?v) ?b'] =>
      rewrite (proj2 (proj2 (proj2 (proj2 (rd_set_other m b b' ltac:(lia))))) v)
  end.

Ltac byte_other :=
  repeat match goal with
  | |- context [set_magic ?m ?b ?v ?a] => rewrite (proj1 (set_byte_other m b a ltac:(lia)) v)
  | |- context [set_free ?m ?b ?v ?a] =>
      rewrite (proj1 (proj2 (set_byte_other m b a ltac:(lia))) v)
  | |- context [set_size ?m ?b ?v ?a] =>
      rewrite (proj1 (proj2 (proj2 (set_byte_other m b a ltac:(lia)))) v)
  | |- context [set_prev ?m ?b ?v ?a] =>
      rewrite (proj1 (proj2 (proj2 (proj2 (set_byte_other m b a ltac:(lia))))) v)
  | |- context [set_next ?m ?b ?v ?a] =>
      rewrite (proj2 (proj2 (proj2 (proj2 (set_byte_other m b a ltac:(lia))))) v)
  end.

(** ** Lemmas on lists of blocks *)

Lemma tiles_app pos l1 l2 e :
  tiles pos (l1 ++ l2) e <-> exists mid, tiles pos l1 mid /\ tiles mid l2 e.
Proof.
  revert pos; induction l1 as [|x l1 IH]; intros pos; cbn [app tiles].
  - split; [eauto|]. intros (? & -> & ?). assumption.
  - rewrite IH. split.
    + intros (-> & H1 & H2 & mid & H3 & H4). eauto 10.
    + intros (mid & (-> & H1 & H2 & H3) & H4). eauto 10.
Qed.

Lemma tiles_bounds pos l e :
  tiles pos l e ->
  pos + 32 * Z.of_nat (length l) <= e
  /\ forall x, In x l -> pos <= hb_addr x /\ 0 <= hb_size x /\ hb_end x <= e.
Proof.
  revert pos; induction l as [|x l IH]; intros pos; cbn [tiles length In].
  - intros ->. split; [lia|intros ? []].
  - intros (<- & H1 & _ & H3). apply IH in H3 as [H4 H5]. unfold hb_end in *.
    split; [lia|]. intros y [<-|Hy]; [lia|]. specialize (H5 y Hy). lia.
Qed.

Lemma hseg_app m p c l1 l2 p' c' :
  hseg m p c (l1 ++ l2) p' c'
  <-> exists p1 c1, hseg m p c l1 p1 c1 /\ hseg m p1 c1 l2 p' c'.
Proof.
  revert p c; induction l1 as [|x l1 IH]; intros p c; cbn [app hseg].
  - split; [eauto|]. intros (? & ? & [-> ->] & ?). assumption.
  - split.
    + intros (-> & n & H1 & H2). apply IH in H2 as (p1 & c1 & H3 & H4). eauto 10.
    + intros (p1 & c1 & (-> & n & H1 & H2) & H3). split; [reflexivity|].
      exists n. split; [exact H1|]. apply IH. eauto.
Qed.

Lemma hseg_frame m m' p c l p' c' :
  (forall x, In x l -> rd m' (hb_addr x) = rd m (hb_addr x)) ->
  hseg m p c l p' c' -> hseg m' p c l p' c'.
Proof.
  revert p c; induction l as [|x l IH]; intros p c Hr; cbn [hseg]; [auto|].
  intros (-> & n & H1 & H2). split; [reflexivity|]. exists n. split.
  - rewrite Hr by (left; reflexivity). exact H1.
  - apply IH; [|exact H2]. intros y Hy. apply Hr. right. exact Hy.
Qed.

(** The predecessor link of the first block changes from [p] to [q]. *)
Lemma hseg_relink m m' p q c x l p' c' :
  rd m' (hb_addr x) = h_prev q (rd m (hb_addr x)) ->
  (forall y, In y l -> rd m' (hb_addr y) = rd m (hb_addr y)) ->
  hseg m p c (x :: l) p' c' -> hseg m' q c (x :: l) p' c'.
Proof.
  intros Hx Hl. cbn [hseg]. intros (-> & n & H1 & H2). split; [reflexivity|].
  exists n. split; [rewrite Hx, H1; reflexivity|]. eapply hseg_frame; eauto.
Qed.

(** Where the list starts and ends. *)
Lemma hseg_first m p c l p' : hseg m p c l p' 0 -> c = match l with [] => 0 | x :: _ => hb_addr x end.
Proof. destruct l as [|x l]; cbn [hseg]; [intros [_ ->]|intros [-> _]]; reflexivity. Qed.

Lemma hseg_snoc_last m p c l x p' c' : hseg m p c (l ++ [x]) p' c' -> p' = hb_addr x.
Proof.
  intros H. apply hseg_app in H as (p1 & c1 & _ & H). cbn [hseg] in H.
  destruct H as (_ & n & _ & -> & _). reflexivity.
Qed.

Lemma live_app l1 l2 : live (l1 ++ l2) = live l1 ++ live l2.
Proof. unfold live. rewrite List.filter_app, map_app. reflexivity. Qed.

Lemma live_elt l1 x l2 :
  hb_free x = false ->
  live (l1 ++ x :: l2) = live l1 ++ (hb_payload x, hb_size x) :: live l2.
Proof. intros Hx. rewrite live_app. unfold live. cbn. unfold is_live at 2. rewrite Hx. reflexivity. Qed.

Lemma live_bytes_app l1 l2 : live_bytes (l1 ++ l2) = live_bytes l1 + live_bytes l2.
Proof. induction l1 as [|x l1 IH]; cbn [app live_bytes fold_right]; [reflexivity|].
  fold (live_bytes (l1 ++ l2)). fold (live_bytes l1). rewrite IH. lia. Qed.

Lemma bytes_bound pos l e :
  tiles pos l e -> 0 <= live_bytes l /\ 0 <= free_bytes l
  /\ live_bytes l + free_bytes l <= e - pos.
Proof.
  revert pos; induction l as [|x l IH]; intros pos; cbn [tiles live_bytes free_bytes fold_right].
  - intros ->. lia.
  - intros (<- & H1 & _ & H3). apply IH in H3 as (H4 & H5 & H6).
    fold (live_bytes l) (free_bytes l). unfold hb_end in H6. destruct (hb_free x); lia.
Qed.

Lemma no_adjacent_app l1 x l2 :
  no_adjacent_free (l1 ++ x :: l2)
  <-> no_adjacent_free (l1 ++ [x]) /\ no_adjacent_free (x :: l2).
Proof.
  induction l1 as [|y l1 IH]; cbn [app].
  - cbn [no_adjacent_free]. tauto.
  - destruct l1 as [|z l1]; cbn [app no_adjacent_free] in *; tauto.
Qed.

(** Which blocks an address-disjointness fact separates. *)
Lemma tiles_split_disj pos l1 x l2 e :
  tiles pos (l1 ++ x :: l2) e ->
  (forall y, In y l1 -> pos <= hb_addr y /\ 0 <= hb_size y /\ hb_end y <= hb_addr x)
  /\ pos <= hb_addr x /\ 0 <= hb_size x /\ hb_size x mod 16 = 0 /\ hb_end x <= e
  /\ (forall y, In y l2 -> hb_end x <= hb_addr y /\ 0 <= hb_size y /\ hb_end y <= e).
Proof.
  intros H. apply tiles_app in H as (mid & H1 & H2). cbn [tiles] in H2.
  destruct H2 as (E & H3 & H4 & H5).
  apply tiles_bounds in H1 as [B1 F1]. apply tiles_bounds in H5 as [B2 F2].
  rewrite <- E in *. split_and!; auto; try lia.
Qed.

Lemma rd_fields m b mg f s p n :
  rd m b = (mg, f, s, p, n) ->
  blk_magic m b = mg /\ blk_free m b = f /\ blk_size m b = s
  /\ blk_prev m b = p /\ blk_next m b = n.
Proof. unfold rd. intros [= -> -> -> -> ->]. auto. Qed.

(** Writing all five fields of a header. *)
Definition write_header (m : mem) (b s p n : Z) : mem :=
  set_next (set_prev (set_size (set_free (set_magic m b HEAP_MAGIC) b true) b s) b p) b n.

Lemma write_header_spec m b s p n :
  is_u64 s -> is_u64 p -> is_u64 n ->
  rd (write_header m b s p n) b = (HEAP_MAGIC, true, s, p, n)
  /\ (forall b', b + 32 <= b' \/ b' + 32 <= b -> rd (write_header m b s p n) b' = rd m b')
  /\ (forall a, a < b \/ b + 32 <= a -> write_header m b s p n a = m a).
Proof.
  intros Hs Hp Hn. unfold write_header. split_and!.
  - rewrite rd_set_next, rd_set_prev, rd_fresh by assumption. reflexivity.
  - intros b' D. rd_other. reflexivity.
  - intros a D. byte_other. reflexivity.
Qed.

(** Unfold the constants of the heap for [lia]. *)
Ltac heap_consts := unfold KHEAP_BASE, KHEAP_MAX_SIZE, hb_end, hb_payload, is_u64 in *.

Section Blocks.
Context {P : Type} `{PageLaws P}.
Implicit Types (h : kheap P) (l : list hblk).

(** The list of blocks and the region it tiles. *)
Record heap_list h l : Prop := {
  hl_init : kh_initialized h = true;
  hl_start : kh_heap_start h = KHEAP_BASE;
  hl_seg : hseg (kh_mem h) 0 (kh_first_block h) l (kh_last_block h) 0;
  hl_tiles : tiles KHEAP_BASE l (kh_heap_end h);
  hl_end : kh_heap_end h <= KHEAP_BASE + KHEAP_MAX_SIZE
}.

(** The fields of [kheap] that the list helpers never touch. *)
Record same_statics h h' : Prop := {
  ss_pages : kh_pages h' = kh_pages h;
  ss_end : kh_heap_end h' = kh_heap_end h;
  ss_mapped : kh_mapped_bytes h' = kh_mapped_bytes h;
  ss_alloc : kh_allocated_bytes h' = kh_allocated_bytes h
}.

(** The neighbourhood of a block [x] in a well-formed heap. *)
Lemma heap_list_at h l1 x l2 :
  heap_list h (l1 ++ x :: l2) ->
  exists p n,
    hseg (kh_mem h) 0 (kh_first_block h) l1 p (hb_addr x)
    /\ rd (kh_mem h) (hb_addr x) = (HEAP_MAGIC, hb_free x, hb_size x, p, n)
    /\ hseg (kh_mem h) (hb_addr x) n l2 (kh_last_block h) 0
    /\ KHEAP_BASE <= hb_addr x /\ 0 <= hb_size x /\ hb_size x mod 16 = 0
    /\ hb_end x <= KHEAP_BASE + KHEAP_MAX_SIZE
    /\ (forall y, In y l1 -> KHEAP_BASE <= hb_addr y /\ 0 <= hb_size y /\ hb_end y <= hb_addr x)
    /\ (forall y, In y l2 -> hb_end x <= hb_addr y /\ 0 <= hb_size y
                             /\ hb_end y <= KHEAP_BASE + KHEAP_MAX_SIZE).
Proof.
  intros [_ _ S T E]. apply hseg_app in S as (p & c & S1 & S2). cbn [hseg] in S2.
  destruct S2 as (-> & n & R & S2). apply tiles_split_disj in T as (D1 & B1 & B2 & B3 & B4 & D2).
  exists p, n. split_and!; auto; try lia.
  intros y Hy. destruct (D2 y Hy) as (? & ? & ?). split_and!; auto. lia.
Qed.

Lemma block_payload_at b : KHEAP_BASE <= b -> b <= KHEAP_BASE + KHEAP_MAX_SIZE ->
  block_payload b = b + 32.
Proof.
  intros H1 H2. unfold block_payload. change block_overhead with 32.
  apply u64_id. heap_consts. lia.
Qed.

Lemma payload_block_at b : KHEAP_BASE <= b -> b <= KHEAP_BASE + KHEAP_MAX_SIZE ->
  payload_block (b + 32) = b.
Proof.
  intros H1 H2. unfold payload_block. change block_overhead with 32.
  rewrite u64_id; [lia|]. heap_consts. lia.
Qed.

(** *** Marking a block *)

Lemma set_free_spec h l1 x l2 f :
  heap_list h (l1 ++ x :: l2) ->
  let h' := with_mem h (set_free (kh_mem h) (hb_addr x) f) in
  heap_list h' (l1 ++ hb_set_free x f :: l2) /\ same_statics h h'
  /\ payload_same (kh_mem h) (kh_mem h') (l1 ++ x :: l2).
Proof.
  intros Hl h'. destruct (heap_list_at _ _ _ _ Hl) as (p & n & S1 & R & S2 & B1 & B2 & B3 & B4 & D1 & D2).
  destruct Hl as [I0 I1 S T E]. unfold h'. split; [|split; [split; reflexivity|]].
  - split; cbn [with_mem kh_initialized kh_heap_start kh_mem kh_first_block kh_last_block kh_heap_end];
      auto.
    + apply hseg_app. exists p, (hb_addr x). split.
      * eapply hseg_frame; [|exact S1]. intros y Hy. specialize (D1 y Hy). heap_consts. rd_other. reflexivity.
      * cbn [hseg hb_set_free hb_addr hb_free hb_size]. split; [reflexivity|]. exists n. split.
        { rewrite rd_set_free, R. reflexivity. }
        eapply hseg_frame; [|exact S2]. intros y Hy. specialize (D2 y Hy). heap_consts. rd_other. reflexivity.
    + apply tiles_app in T as (mid & T1 & T2). apply tiles_app. exists mid. auto.
  - intros y a Hy Ha. cbn [with_mem kh_mem]. apply in_app_or in Hy as [Hy|[<-|Hy]].
    + specialize (D1 y Hy). heap_consts. byte_other. reflexivity.
    + heap_consts. byte_other. reflexivity.
    + specialize (D2 y Hy). heap_consts. byte_other. reflexivity.
Qed.

(** [if (n != NULL) n->prev = q; else last_block = q], where the blocks from
    [n] on tile the addresses from [pos]. *)
Lemma relink_spec h b q n l2 pos :
  hseg (kh_mem h) b n l2 (kh_last_block h) 0 -> tiles pos l2 (kh_heap_end h) ->
  0 < pos -> is_u64 q ->
  let h' := if negb (n =? 0) then with_mem h (set_prev (kh_mem h) n q) else with_last h q in
  hseg (kh_mem h') q n l2 (kh_last_block h') 0
  /\ (forall b', b' + 32 <= pos -> rd (kh_mem h') b' = rd (kh_mem h) b')
  /\ (forall a, a < pos \/ (exists y, In y l2 /\ hb_payload y <= a < hb_end y) ->
        kh_mem h' a = kh_mem h a)
  /\ kh_first_block h' = kh_first_block h /\ kh_heap_start h' = kh_heap_start h
  /\ kh_initialized h' = kh_initialized h /\ same_statics h h'.
Proof.
  intros S T Hpos Hq h'. unfold h'. destruct l2 as [|z l2].
  { destruct S as [_ ->]. cbn [Z.eqb negb]. split_and!; try reflexivity; split; reflexivity. }
  pose proof (hseg_first _ _ _ _ _ S) as ->. pose proof (tiles_split_disj _ [] _ _ _ T) as (_ & B1 & B2 & _ & _ & D).
  assert (Hz : (hb_addr z =? 0) = false) by (apply Z.eqb_neq; lia). rewrite Hz.
  cbn [negb with_mem kh_mem kh_last_block]. split_and!; try reflexivity.
  - eapply hseg_relink; [apply rd_set_prev, Hq| |exact S].
    intros y Hy. specialize (D y Hy). unfold hb_end in *. rd_other. reflexivity.
  - intros b' Hb'. rd_other. reflexivity.
  - intros a Ha. unfold hb_end, hb_payload in *. destruct Ha as [Ha|(y & [<-|Hy] & Ha)];
      [| |specialize (D y Hy)]; byte_other; reflexivity.
  - split; reflexivity.
Qed.

(** *** Splitting a block *)

Definition split_blocks (x : hblk) (size : Z) : list hblk :=
  if hb_size x <? size + 48 then [x]
  else [mk_hblk (hb_addr x) size (hb_free x);
        mk_hblk (hb_addr x + 32 + size) (hb_size x - size - 32) true].

(** A block replaced by others that tile the same addresses. *)
Lemma heap_replace h h' l1 x old mid l2 p q n :
  heap_list h (l1 ++ (x :: old) ++ l2) -> hseg (kh_mem h) 0 (kh_first_block h) l1 p (hb_addr x) ->
  (forall e, tiles (hb_addr x) (x :: old) e -> tiles (hb_addr x) mid e) ->
  hseg (kh_mem h') p (hb_addr x) mid q n -> hseg (kh_mem h') q n l2 (kh_last_block h') 0 ->
  (forall b', b' + 32 <= hb_addr x -> rd (kh_mem h') b' = rd (kh_mem h) b') ->
  kh_first_block h' = kh_first_block h -> kh_heap_start h' = kh_heap_start h ->
  kh_initialized h' = kh_initialized h -> same_statics h h' ->
  heap_list h' (l1 ++ mid ++ l2).
Proof.
  intros [I0 I1 S T E] S1 Ht Sm S2 Hr F1 F2 F3 [_ Fe _ _]. apply tiles_app in T as (mid0 & T1 & T2).
  assert (Hx : hb_addr x = mid0) by apply T2. subst mid0. split.
  - congruence.
  - congruence.
  - rewrite F1. apply hseg_app. exists p, (hb_addr x). split.
    + eapply hseg_frame; [|exact S1]. intros y Hy. apply Hr.
      apply tiles_bounds in T1 as [_ B]. specialize (B y Hy). unfold hb_end in B. lia.
    + apply hseg_app. eauto.
  - rewrite Fe. apply tiles_app. exists (hb_addr x). split; [exact T1|].
    apply tiles_app in T2 as (e & T2 & T3). apply tiles_app. exists e. split; [exact (Ht e T2) | exact T3].
  - rewrite Fe. exact E.
Qed.

(** A write that keeps what is below [b], and the payloads from there on. *)
Lemma payload_replace m m' l1 mid l2 b :
  (forall y, In y l1 -> hb_end y <= b) -> (forall a, a < b -> m' a = m a) ->
  payload_same m m' mid -> payload_same m m' l2 -> payload_same m m' (l1 ++ mid ++ l2).
Proof.
  intros Hl Hb Hm H2 y a Hy Ha. apply in_app_or in Hy as [Hy|Hy]; [|apply in_app_or in Hy as [Hy|Hy]; eauto].
  apply Hb. specialize (Hl y Hy). lia.
Qed.

(** [split_block] where it splits: the new header at [sp], the successor linked
    to it, then the block itself. *)
Lemma split_block_eq h l1 x l2 size n :
  heap_list h (l1 ++ x :: l2) -> 0 <= size <= KHEAP_MAX_SIZE -> size + 48 <= hb_size x ->
  blk_next (kh_mem h) (hb_addr x) = n -> is_u64 n ->
  let b := hb_addr x in
  let sp := b + 32 + size in
  let h5 := with_mem h (write_header (kh_mem h) sp (hb_size x - size - 32) b n) in
  let h6 := if negb (n =? 0) then with_mem h5 (set_prev (kh_mem h5) n sp) else with_last h5 sp in
  split_block h b size = with_mem h6 (set_next (set_size (kh_mem h6) b size) b sp).
Proof.
  intros Hl Hs Hc Hnx Hn b sp h5 h6.
  destruct (heap_list_at _ _ _ _ Hl) as (p & n' & _ & R & _ & B1 & B2 & B3 & B4 & _).
  destruct (rd_fields _ _ _ _ _ _ _ R) as (_ & _ & Fs & _ & Fn). rewrite Hnx in Fn. subst n'. fold b in R, Fs.
  unfold split_block. change block_overhead with 32. unfold HEAP_ALIGN. fold b in B1.
  rewrite Fs, !(u64_id (size + 32)), u64_id by (heap_consts; lia).
  destruct (Z.ltb_spec (hb_size x) (size + 32 + 16)) as [|_]; [lia|].
  rewrite block_payload_at, (u64_id (b + 32 + size)) by (heap_consts; lia). fold sp.
  assert (W2 : rd (set_free (set_magic (kh_mem h) sp HEAP_MAGIC) sp true) b = rd (kh_mem h) b)
    by (unfold sp; rd_other; reflexivity).
  rewrite R in W2. destruct (rd_fields _ _ _ _ _ _ _ W2) as (_ & _ & -> & _ & _).
  rewrite (u64_id (hb_size x - size)), (u64_id (hb_size x - size - 32)) by (heap_consts; lia). cbv zeta.
  set (m4 := set_prev _ sp b).
  assert (W4 : rd m4 b = rd (kh_mem h) b) by (unfold m4, sp; rd_other; reflexivity).
  rewrite R in W4. destruct (rd_fields _ _ _ _ _ _ _ W4) as (_ & _ & _ & _ & ->). unfold m4. clear W2 W4 m4.
  destruct (write_header_spec (kh_mem h) sp (hb_size x - size - 32) b n) as (W1 & _);
    [heap_consts; lia|heap_consts; lia|exact Hn|].
  unfold h6, h5. fold (write_header (kh_mem h) sp (hb_size x - size - 32) b n).
  destruct (rd_fields _ _ _ _ _ _ _ W1) as (_ & _ & _ & _ & ->). reflexivity.
Qed.

(** The successor link of a block in the list. *)
Lemma next_u64 h x l2 n e :
  hseg (kh_mem h) (hb_addr x) n l2 (kh_last_block h) 0 -> tiles e l2 (kh_heap_end h) -> 0 <= e ->
  kh_heap_end h <= KHEAP_BASE + KHEAP_MAX_SIZE -> is_u64 n.
Proof.
  intros S T He E. apply hseg_first in S as ->. destruct l2 as [|z l2]; [heap_consts; lia|].
  apply tiles_bounds in T as [_ B]. specialize (B z (or_introl eq_refl)). heap_consts. lia.
Qed.

Lemma split_block_spec h l1 x l2 size :
  heap_list h (l1 ++ x :: l2) -> 0 <= size <= KHEAP_MAX_SIZE -> size mod 16 = 0 ->
  let h' := split_block h (hb_addr x) size in
  heap_list h' (l1 ++ split_blocks x size ++ l2) /\ same_statics h h'
  /\ payload_same (kh_mem h) (kh_mem h') (l1 ++ split_blocks x size ++ l2).
Proof.
  intros Hl Hs Hm h'.
  destruct (heap_list_at _ _ _ _ Hl) as (p & n & S1 & R & S2 & B1 & B2 & B3 & B4 & D1 & D2).
  destruct (rd_fields _ _ _ _ _ _ _ R) as (_ & _ & Fs & _ & Fn). unfold split_blocks.
  destruct (Z.ltb_spec (hb_size x) (size + 48)) as [Hc|Hc].
  { assert (E : h' = h).
    { unfold h', split_block. change block_overhead with 32. unfold HEAP_ALIGN.
      rewrite Fs, !(u64_id (size + 32)), u64_id by (heap_consts; lia).
      destruct (Z.ltb_spec (hb_size x) (size + 32 + 16)); [reflexivity|lia]. }
    rewrite E. split; [exact Hl|]. split; [split; reflexivity|]. intros ? ? _ _. reflexivity. }
  assert (T2 : tiles (hb_end x) l2 (kh_heap_end h)).
  { destruct Hl as [_ _ _ T _]. apply tiles_app in T as (mid & _ & _ & _ & _ & T). exact T. }
  assert (Hn : is_u64 n) by (apply (next_u64 h x l2 n (hb_end x) S2 T2); [heap_consts; lia|apply Hl]).
  unfold h'. rewrite (split_block_eq h l1 x l2 size n Hl Hs Hc Fn Hn). clear h'.
  set (b := hb_addr x) in *. set (sp := b + 32 + size) in *. set (m := kh_mem h) in *.
  destruct (write_header_spec m sp (hb_size x - size - 32) b n) as (W1 & W2 & W3);
    [heap_consts; lia|heap_consts; lia|exact Hn|].
  set (h5 := with_mem h (write_header m sp (hb_size x - size - 32) b n)) in *. fold (kh_mem h5) in W1, W2, W3.
  change (write_header m sp (hb_size x - size - 32) b n) with (kh_mem h5) in W1, W2, W3.
  assert (S5 : hseg (kh_mem h5) b n l2 (kh_last_block h5) 0).
  { eapply hseg_frame; [|exact S2]. intros y Hy. apply W2. specialize (D2 y Hy). heap_consts. lia. }
  destruct (relink_spec h5 b sp n l2 (hb_end x) S5 T2) as (F1 & F2 & F3 & F4 & F5 & F6 & F7);
    [heap_consts; lia|heap_consts; lia|].
  set (h6 := if negb (n =? 0) then _ else _) in *. set (h7 := with_mem h6 _).
  assert (Hsp : is_u64 sp) by (heap_consts; lia).
  assert (E7 : forall b', b' + 32 <= b \/ b + 32 <= b' -> rd (kh_mem h7) b' = rd (kh_mem h6) b')
    by (intros b' D; unfold h7; cbn [with_mem kh_mem]; rd_other; reflexivity).
  assert (Hend : hb_end x = sp + 32 + (hb_size x - size - 32)) by (unfold hb_end, sp; fold b; lia).
  split; [|split].
  - apply (heap_replace h h7 l1 x [] _ l2 p sp n Hl S1).
    + intros e (_ & _ & _ & Ee). cbn [tiles] in Ee |- *. unfold hb_end in *. cbn [hb_addr hb_size] in *. fold b in Ee |- *.
      split_and!; auto; try lia. clear -B3 Hm. zlia.
    + cbn [hseg hb_addr hb_size hb_free]. split; [reflexivity|]. exists sp. split.
      { unfold h7. cbn [with_mem kh_mem]. rewrite rd_set_next, rd_set_size, F2, W2, R by (heap_consts; lia). reflexivity. }
      split; [reflexivity|]. exists n. split; [|auto]. rewrite E7, F2 by lia. exact W1.
    + eapply hseg_frame; [|exact F1]. intros y Hy. specialize (D2 y Hy). apply E7. heap_consts. lia.
    + intros b' Hb'. rewrite E7, F2 by (heap_consts; lia). apply W2. fold b in Hb'. lia.
    + exact F4.
    + exact F5.
    + exact F6.
    + destruct F7. split; assumption.
  - destruct F7. split; assumption.
  - assert (E8 : forall a, a < b \/ b + 32 <= a -> kh_mem h7 a = kh_mem h6 a)
      by (intros a D; unfold h7; cbn [with_mem kh_mem]; byte_other; reflexivity).
    apply (payload_replace _ _ _ _ _ b).
    + intros y Hy. apply (D1 y Hy).
    + intros a Ha. rewrite E8, F3 by (lia || left; heap_consts; lia). apply W3. lia.
    + intros y a [<-|[<-|[]]] Ha; unfold hb_end, hb_payload in Ha; cbn [hb_addr hb_size] in Ha;
        (rewrite E8, F3 by (lia || left; heap_consts; lia); apply W3; lia).
    + intros y a Hy Ha. specialize (D2 y Hy). rewrite E8 by (heap_consts; lia). rewrite F3 by eauto.
      apply W3. heap_consts. lia.
Qed.

(** *** Coalescing *)

Definition merge_next (x : hblk) (l2 : list hblk) : list hblk :=
  match l2 with
  | z :: r => if hb_free z
              then mk_hblk (hb_addr x) (hb_size x + 32 + hb_size z) (hb_free x) :: r
              else x :: z :: r
  | [] => [x]
  end.

(** The size and the successor of [b] rewritten. *)
Lemma rd_merged m b s n mg f s0 p n0 :
  rd m b = (mg, f, s0, p, n0) -> is_u64 s -> is_u64 n ->
  let m' := set_next (set_size m b s) b n in
  rd m' b = (mg, f, s, p, n)
  /\ (forall b', b + 32 <= b' \/ b' + 32 <= b -> rd m' b' = rd m b')
  /\ (forall a, a < b \/ b + 32 <= a -> m' a = m a).
Proof.
  intros R Hs Hn m'. unfold m'. split_and!.
  - rewrite rd_set_next, rd_set_size, R by assumption. reflexivity.
  - intros b' D. rd_other. reflexivity.
  - intros a D. byte_other. reflexivity.
Qed.

(** [coalesce_with_next] where the next block is free. *)
Lemma coalesce_eq h l1 x z r n2 :
  heap_list h (l1 ++ x :: z :: r) -> hb_free z = true -> blk_next (kh_mem h) (hb_addr z) = n2 -> is_u64 n2 ->
  let b := hb_addr x in
  let h2 := with_mem h (set_next (set_size (kh_mem h) b (hb_size x + 32 + hb_size z)) b n2) in
  coalesce_with_next h b
  = if negb (n2 =? 0) then with_mem h2 (set_prev (kh_mem h2) n2 b) else with_last h2 b.
Proof.
  intros Hl Hz Hnx Hn b h2.
  destruct (heap_list_at _ _ _ _ Hl) as (p & n & _ & R & S2 & B1 & B2 & B3 & B4 & D1 & D2). fold b in R.
  destruct (rd_fields _ _ _ _ _ _ _ R) as (_ & _ & Fs & _ & Fn).
  cbn [hseg] in S2. destruct S2 as (-> & n' & R2 & _). destruct (rd_fields _ _ _ _ _ _ _ R2) as (_ & Ff2 & Fs2 & _ & Fn2).
  rewrite Hnx in Fn2. subst n'. specialize (D2 z (or_introl eq_refl)). fold b in B1.
  unfold coalesce_with_next. rewrite Fn, Fs, Ff2, Fs2, Hz. change block_overhead with 32.
  destruct (Z.eqb_spec (hb_addr z) 0) as [?|_]; [heap_consts; lia|]. cbn [orb negb].
  assert (Hb : hb_end x = b + 32 + hb_size x) by reflexivity.
  rewrite (u64_id (32 + _)), (u64_id (hb_size x + _)) by (heap_consts; lia). cbv zeta.
  replace (hb_size x + (32 + hb_size z)) with (hb_size x + 32 + hb_size z) by lia.
  set (m1 := set_size (kh_mem h) b _).
  assert (W0 : rd m1 (hb_addr z) = rd (kh_mem h) (hb_addr z)) by (unfold m1; heap_consts; rd_other; reflexivity).
  rewrite R2 in W0. destruct (rd_fields _ _ _ _ _ _ _ W0) as (_ & _ & _ & _ & ->).
  destruct (rd_merged (kh_mem h) b (hb_size x + 32 + hb_size z) n2 _ _ _ _ _ R) as (W1 & _); [heap_consts; lia|exact Hn|].
  fold m1 in W1. destruct (rd_fields _ _ _ _ _ _ _ W1) as (_ & _ & _ & _ & ->). reflexivity.
Qed.

Lemma coalesce_free_spec h l1 x z r :
  heap_list h (l1 ++ x :: z :: r) -> hb_free z = true ->
  let h' := coalesce_with_next h (hb_addr x) in
  let y := mk_hblk (hb_addr x) (hb_size x + 32 + hb_size z) (hb_free x) in
  heap_list h' (l1 ++ [y] ++ r) /\ same_statics h h' /\ payload_same (kh_mem h) (kh_mem h') (l1 ++ [y] ++ r).
Proof.
  intros Hl Hz h' y. unfold h'. clear h'.
  destruct (heap_list_at _ _ _ _ Hl) as (p & n & S1 & R & S2 & B1 & B2 & B3 & B4 & D1 & D2).
  cbn [hseg] in S2. destruct S2 as (-> & n2 & R2 & S2). destruct (rd_fields _ _ _ _ _ _ _ R2) as (_ & _ & _ & _ & Fn2).
  assert (T0 := hl_tiles _ _ Hl). apply tiles_app in T0 as (mid & _ & T2). cbn [tiles] in T2.
  destruct T2 as (_ & _ & _ & T3 & _ & T4 & T5). pose proof (proj2 (tiles_bounds _ _ _ T5)) as Dr.
  specialize (D2 z (or_introl eq_refl)).
  assert (Hn2 : is_u64 n2) by (apply (next_u64 h z r n2 (hb_end z) S2 T5); [heap_consts; lia|apply Hl]).
  rewrite (coalesce_eq h l1 x z r n2 Hl Hz Fn2 Hn2). set (b := hb_addr x) in *.
  assert (Hb : hb_end x = b + 32 + hb_size x) by reflexivity.
  assert (Hbz : hb_end z = hb_addr z + 32 + hb_size z) by reflexivity.
  destruct (rd_merged (kh_mem h) b (hb_size x + 32 + hb_size z) n2 _ _ _ _ _ R) as (W1 & W2 & W3);
    [heap_consts; lia|exact Hn2|].
  set (h2 := with_mem h _). change (set_next _ b n2) with (kh_mem h2) in W1, W2, W3.
  assert (S5 : hseg (kh_mem h2) (hb_addr z) n2 r (kh_last_block h2) 0).
  { eapply hseg_frame; [|exact S2]. intros w Hw. apply W2. specialize (Dr w Hw). heap_consts. lia. }
  destruct (relink_spec h2 (hb_addr z) b n2 r (hb_end z) S5 T5) as (F1 & F2 & F3 & F4 & F5 & F6 & F7);
    [heap_consts; lia|heap_consts; lia|].
  set (h6 := if negb (n2 =? 0) then _ else _) in *.
  split; [|split].
  - apply (heap_replace h h6 l1 x [z] [y] r p b n2 Hl S1).
    + intros e (_ & _ & _ & _ & _ & _ & Ee). cbn [tiles] in Ee |- *. unfold y. cbn [hb_addr hb_size]. split_and!; auto; [lia| |].
      * clear -B3 T4. zlia.
      * rewrite <- Ee, Hbz. unfold hb_end. cbn [hb_addr hb_size]. fold b. lia.
    + cbn [hseg y hb_addr hb_size hb_free]. split; [reflexivity|]. exists n2. split; [|auto].
      rewrite F2 by (heap_consts; lia). exact W1.
    + exact F1.
    + intros b' Hb'. rewrite F2 by (fold b in Hb'; lia). apply W2. lia.
    + exact F4.
    + exact F5.
    + exact F6.
    + destruct F7. split; assumption.
  - destruct F7. split; assumption.
  - apply (payload_replace _ _ _ _ _ b).
    + intros w Hw. apply (D1 w Hw).
    + intros a Ha. rewrite F3 by lia. apply W3. lia.
    + intros w a [<-|[]] Ha. unfold hb_end, hb_payload in Ha. cbn [y hb_addr hb_size] in Ha.
      rewrite F3 by lia. apply W3. lia.
    + intros w a Hw Ha. specialize (Dr w Hw). rewrite F3 by eauto. apply W3. heap_consts. lia.
Qed.

Lemma coalesce_spec h l1 x l2 :
  heap_list h (l1 ++ x :: l2) ->
  let h' := coalesce_with_next h (hb_addr x) in
  heap_list h' (l1 ++ merge_next x l2) /\ same_statics h h'
  /\ payload_same (kh_mem h) (kh_mem h') (l1 ++ merge_next x l2).
Proof.
  intros Hl h'.
  destruct (heap_list_at _ _ _ _ Hl) as (p & n & _ & R & S2 & _ & _ & _ & _ & _ & D2).
  destruct (rd_fields _ _ _ _ _ _ _ R) as (_ & _ & _ & _ & Fn).
  destruct l2 as [|z r]; cbn [merge_next].
  { destruct S2 as [_ ->]. unfold h', coalesce_with_next. rewrite Fn.
    split; [exact Hl|]. split; [split; reflexivity|]. intros ? ? _ _. reflexivity. }
  destruct (hb_free z) eqn:Hz; [exact (coalesce_free_spec h l1 x z r Hl Hz)|].
  cbn [hseg] in S2. destruct S2 as (-> & n2 & R2 & _). destruct (rd_fields _ _ _ _ _ _ _ R2) as (_ & Ff2 & _).
  unfold h', coalesce_with_next. rewrite Fn, Ff2, Hz. cbn [negb]. rewrite orb_true_r.
  split; [exact Hl|]. split; [split; reflexivity|]. intros ? ? _ _. reflexivity.
Qed.

(** *** Appending a block at the end of the grown heap *)

Definition fresh_header (m : mem) (b size : Z) : mem :=
  set_size (set_free (set_magic m b HEAP_MAGIC) b true) b size.

(** The last block and the field that points to it. *)
Lemma last_block m first l last e :
  hseg m 0 first l last 0 -> tiles KHEAP_BASE l e ->
  last = 0 /\ l = [] /\ first = 0 \/ last <> 0 /\ exists l' y, l = l' ++ [y] /\ last = hb_addr y.
Proof.
  intros S T. destruct l as [|y l' _] using rev_ind; [destruct S as [<- ->]; auto|].
  apply hseg_snoc_last in S as Ey. apply tiles_bounds in T as [_ B].
  specialize (B y ltac:(apply in_or_app; right; left; reflexivity)). right. split; [heap_consts; lia|]. eauto.
Qed.

(** The new header linked behind the last block. *)
Lemma append_linked m m1 first l' y b size :
  hseg m 0 first (l' ++ [y]) (hb_addr y) 0 -> tiles KHEAP_BASE (l' ++ [y]) b -> 0 <= b < 18446744073709551616 ->
  rd m1 b = (HEAP_MAGIC, true, size, hb_addr y, 0) ->
  (forall b', b + 32 <= b' \/ b' + 32 <= b -> rd m1 b' = rd m b') ->
  (forall a, a < b \/ b + 32 <= a -> m1 a = m a) ->
  let m2 := set_next m1 (hb_addr y) b in
  let x := mk_hblk b size true in
  hseg m2 0 first ((l' ++ [y]) ++ [x]) b 0 /\ payload_same m m2 ((l' ++ [y]) ++ [x]).
Proof.
  intros S T Hb W1 W2 W3 m2 x. destruct (tiles_split_disj _ _ _ _ _ T) as (D1 & B1 & B2 & _ & B4 & _).
  apply hseg_app in S as (p & c & S1 & S2). cbn [hseg] in S2. destruct S2 as (-> & n & R & _).
  rewrite <- app_assoc. unfold hb_end in *. split.
  - apply hseg_app. exists p, (hb_addr y). split.
    { eapply hseg_frame; [|exact S1]. intros w Hw. specialize (D1 w Hw). unfold m2. rd_other. apply W2. lia. }
    cbn [app hseg x hb_addr hb_free hb_size]. split; [reflexivity|]. exists b. split.
    { unfold m2. rewrite rd_set_next, W2, R by (unfold is_u64; lia). reflexivity. }
    split; [reflexivity|]. exists 0. split; [|auto]. unfold m2. rd_other. exact W1.
  - apply (payload_replace _ _ _ [y] [x] (hb_addr y)).
    + intros w Hw. apply (D1 w Hw).
    + intros a Ha. unfold m2. byte_other. apply W3. lia.
    + intros w a [<-|[]] Ha. unfold hb_payload, hb_end in Ha. unfold m2. byte_other. apply W3. lia.
    + intros w a [<-|[]] Ha. unfold hb_payload, hb_end in Ha. cbn [x hb_addr hb_size] in Ha. unfold m2. byte_other.
      apply W3. lia.
Qed.

Lemma append_spec h l s bytes :
  heap_list h l -> 32 <= bytes -> bytes mod 16 = 0 ->
  kh_heap_end h + bytes <= KHEAP_BASE + KHEAP_MAX_SIZE ->
  let h1 := grow (with_pages h s) bytes in
  let h' := append_block (with_mem h1 (fresh_header (kh_mem h1) (kh_heap_end h) (bytes - 32)))
              (kh_heap_end h) in
  let x := mk_hblk (kh_heap_end h) (bytes - 32) true in
  heap_list h' (l ++ [x])
  /\ kh_pages h' = s /\ kh_heap_end h' = kh_heap_end h + bytes
  /\ kh_mapped_bytes h' = u64 (kh_mapped_bytes h + bytes)
  /\ kh_allocated_bytes h' = kh_allocated_bytes h
  /\ payload_same (kh_mem h) (kh_mem h') (l ++ [x]).
Proof.
  intros Hl Hb1 Hb2 Hb3 h1 h' x. destruct Hl as [I0 I1 S T E]. pose proof (tiles_bounds _ _ _ T) as [T1 T2].
  pose proof (last_block _ _ _ _ _ S T) as Hla.
  set (b := kh_heap_end h) in *. set (m := kh_mem h) in *. set (la := kh_last_block h) in *.
  assert (Hla1 : is_u64 la).
  { destruct Hla as [(-> & _)|(_ & l' & y & -> & ->)]; [heap_consts; lia|].
    specialize (T2 y ltac:(apply in_or_app; right; left; reflexivity)). heap_consts. lia. }
  destruct (write_header_spec m b (bytes - 32) la 0) as (W1 & W2 & W3); [heap_consts; lia|exact Hla1|heap_consts; lia|].
  set (m1 := write_header m b (bytes - 32) la 0) in *.
  assert (Eh : h' = with_last
      (if negb (la =? 0) then with_mem (with_mem h1 m1) (set_next m1 la b)
       else with_first (with_mem h1 m1) b) b) by reflexivity.
  rewrite Eh. clear Eh h'.
  assert (Hend : kh_heap_end h1 = b + bytes).
  { cbn [h1 grow kh_heap_end with_pages]. fold b. apply u64_id. heap_consts. lia. }
  assert (Tx : tiles KHEAP_BASE (l ++ [x]) (b + bytes)).
  { apply tiles_app. exists b. split; [exact T|]. unfold x, hb_end. cbn [tiles hb_addr hb_size].
    unfold hb_end. cbn [hb_addr hb_size]. split_and!; try lia. clear -Hb2. zlia. }
  destruct Hla as [(E0 & -> & Ef)|(Hnz & l' & y & -> & Ey)].
  - rewrite E0. cbn [Z.eqb negb]. split_and!; try (reflexivity || exact Hend).
    + split; try assumption; cbn [with_last with_first with_mem kh_heap_end]; rewrite ?Hend; auto.
      cbn [app hseg x hb_addr hb_free hb_size]. split; [reflexivity|]. exists 0. rewrite <- E0 at 1.
      split; [exact W1|auto].
    + intros w a [<-|[]] Ha. apply W3. heap_consts. cbn [hb_addr x hb_size] in Ha. lia.
  - apply Z.eqb_neq in Hnz. rewrite Hnz. cbn [negb]. rewrite Ey in *.
    destruct (append_linked m m1 (kh_first_block h) l' y b (bytes - 32) S T) as [Sx Px]; auto; [heap_consts; lia|].
    split_and!; try (reflexivity || exact Hend); [|exact Px].
    split; try assumption; cbn [with_last with_mem kh_heap_end]; rewrite ?Hend; auto.
Qed.

(** *** Searching *)

Definition fits (size : Z) (x : hblk) : bool := hb_free x && (size <=? hb_size x).

Lemma find_free_from_spec m size fuel : forall prev cur l last,
  hseg m prev cur l last 0 -> (forall x, In x l -> hb_addr x <> 0) -> (length l < fuel)%nat ->
  find_free_from fuel m cur size
  = Some (match List.find (fits size) l with Some x => hb_addr x | None => 0 end).
Proof.
  induction fuel as [|fuel IH]; intros prev cur l last S Hz Hf; [lia|].
  cbn [find_free_from]. destruct l as [|x l]; cbn [hseg List.find length] in *.
  { destruct S as [_ ->]. reflexivity. }
  destruct S as (-> & n & R & S). destruct (rd_fields _ _ _ _ _ _ _ R) as (_ & -> & -> & _ & ->).
  destruct (Z.eqb_spec (hb_addr x) 0) as [E|_]; [exfalso; exact (Hz x (or_introl eq_refl) E)|].
  fold (fits size x). destruct (fits size x); [reflexivity|].
  eapply IH; [exact S| |lia]. intros y Hy. apply Hz. right. exact Hy.
Qed.

Lemma heap_list_facts h l :
  heap_list h l ->
  (length l < heap_fuel)%nat
  /\ forall x, In x l -> hb_addr x <> 0 /\ KHEAP_BASE <= hb_addr x /\ 0 <= hb_size x
       /\ hb_end x <= KHEAP_BASE + KHEAP_MAX_SIZE.
Proof.
  intros [_ _ _ T E]. apply tiles_bounds in T as [T1 T2]. split.
  - apply Nat2Z.inj_lt. unfold heap_fuel. rewrite Z2Nat.id by (vm_compute; discriminate).
    change (KHEAP_MAX_SIZE / sizeof_heap_block + 1) with 2097153. heap_consts. lia.
  - intros x Hx. specialize (T2 x Hx). heap_consts. lia.
Qed.

Lemma find_free_block_spec h l size :
  heap_list h l ->
  find_free_block h size
  = Ret (match List.find (fits size) l with Some x => hb_addr x | None => 0 end).
Proof.
  intros Hl. destruct (heap_list_facts _ _ Hl) as [F1 F2]. unfold find_free_block.
  rewrite (find_free_from_spec _ size heap_fuel 0 _ l (kh_last_block h)).
  - reflexivity.
  - apply Hl.
  - intros x Hx. apply F2, Hx.
  - exact F1.
Qed.

Lemma find_split (f : hblk -> bool) l x :
  List.find f l = Some x -> exists l1 l2, l = l1 ++ x :: l2 /\ f x = true.
Proof.
  intros E. apply List.find_some in E as [E1 E2].
  apply List.in_split in E1 as (l1 & l2 & ->). eauto.
Qed.

End Blocks.
