(* ===== verification/HeapProofs.v ===== *)
(** * The kernel heap: invariant and theorems

    The pages below the blocks of HeapBlocks.v, growing the heap, and the
    contract of [kmalloc], [kfree] and [krealloc]: disjoint live blocks whose
    contents nobody else changes. *)

From S2P Require Import Prelude Pmm Vmm Pages Heap HeapBlocks.

Section HeapInv.
Context {P : Type} `{PageLaws P}.
Implicit Types (h : kheap P) (l : list hblk).

(** *** Pages of the heap *)

(** The frames [fr] are mapped one after the other from [start] on. *)
Definition mapped_run (s : P) (start : Z) (fr : list Z) : Prop :=
  forall i p, fr !! i = Some p -> pages_leaf s (start + 4096 * Z.of_nat i) = Some p.

(** The mappings outside the [n] pages from [start] on are those of [s]. *)
Definition same_outside (s s' : P) (start : Z) (n : nat) : Prop :=
  forall va, (forall i, (i < n)%nat -> vpn va <> vpn (start + 4096 * Z.of_nat i)) ->
    pages_leaf s' va = pages_leaf s va.

Lemma vpn_run start i j :
  start mod 4096 = 0 -> 0 <= i < 1048576 -> 0 <= j < 1048576 ->
  vpn (start + 4096 * i) = vpn (start + 4096 * j) -> i = j.
Proof. intros Hs Hi Hj. unfold vpn. intros E. zlia. Qed.

Lemma trips_pages n : trips 0 (4096 * Z.of_nat n) 4096 = n.
Proof.
  unfold trips. replace (4096 * Z.of_nat n - 0 + 4096 - 1) with (4095 + Z.of_nat n * 4096) by lia.
  rewrite Z.div_add by lia. change (4095 / 4096) with 0. lia.
Qed.

Lemma rollback_spec s start fr held :
  pages_ok s (fr ++ held) -> mapped_run s start fr -> start mod 4096 = 0 ->
  0 <= start -> Z.of_nat (length fr) < 1048576 ->
  start + 4096 * Z.of_nat (length fr) < 18446744073709551616 ->
  exists s', rollback_heap_mapping s start (4096 * Z.of_nat (length fr)) = Ret s'
    /\ pages_ok s' held /\ same_outside s s' start (length fr).
Proof.
  intros Hok Hrun Ha H0' Hlen Hfit. unfold rollback_heap_mapping, mrange, VMM_PAGE_SIZE.
  rewrite trips_pages.
  edestruct (mfor_ind (R := P) (fun off s' => exists k, off = 4096 * Z.of_nat k
      /\ pages_ok s' (drop k fr ++ held)
      /\ (forall i p, (k <= i)%nat -> fr !! i = Some p ->
            pages_leaf s' (start + 4096 * Z.of_nat i) = Some p)
      /\ same_outside s s' start (length fr))
    (fun c => exists s', c = Cont s' /\ pages_ok s' held /\ same_outside s s' start (length fr)))
    as (c & E & s' & -> & Q); cycle 3.
  { rewrite E. exists s'. split; [reflexivity|exact Q]. }
  - exists 0%nat. split_and!; [lia|exact Hok|eauto|]. intros va _. reflexivity.
  - intros k0 s1 Hk (k & Ek & Ik & Rk & Ok). assert (k0 = Z.of_nat k) as -> by lia.
    assert (Hkl : (k < length fr)%nat) by lia.
    destruct (lookup_lt_is_Some_2 fr k Hkl) as [p Hp].
    replace (0 + Z.of_nat k * 4096) with (4096 * Z.of_nat k) by lia.
    rewrite u64_id by (unfold is_u64; lia). set (va := start + 4096 * Z.of_nat k).
    assert (Hva : va mod 4096 = 0) by (unfold va; clear -Ha; zlia).
    specialize (Rk k p ltac:(lia) Hp) as Hleaf. fold va in Hleaf.
    rewrite (virt_to_phys_law s1 _ va p Ik Hleaf), Hva, Z.add_0_r. cbn [mbind res_bind].
    destruct (unmap_law s1 _ va p Ik Hva Hleaf) as (s2 & -> & I2 & L2). cbn [mbind res_bind].
    rewrite (drop_S _ _ _ Hp) in I2. cbn [app] in I2.
    destruct (free_law s2 _ p I2) as [I3 L3].
    eexists. split; [reflexivity|]. exists (Datatypes.S k). split_and!; auto; [lia| |].
    + intros i q Hi Hq. rewrite L3, L2, decide_False; [apply Rk; [lia|exact Hq]|].
      unfold va. intros Hv. apply lookup_lt_Some in Hq.
      apply vpn_run in Hv; [lia|exact Ha|lia|lia].
    + intros v Hv. rewrite L3, L2, decide_False; [apply Ok, Hv|]. apply Hv, Hkl.
  - intros s1 (k & Ek & Ik & _ & Ok). exists s1. split; [reflexivity|]. split; [|exact Ok].
    rewrite drop_ge in Ik by lia. exact Ik.
Qed.

Lemma writable_flags : is_u64 VMM_WRITABLE /\ Z.land VMM_WRITABLE PTE_ADDR_MASK = 0.
Proof. unfold is_u64, VMM_WRITABLE. split; [lia|reflexivity]. Qed.

(** One more frame at the end of a run. *)
Lemma mapped_run_snoc s s' start fr p :
  mapped_run s start fr -> start mod 4096 = 0 -> Z.of_nat (length fr) < 1048575 ->
  (forall va, pages_leaf s' va
     = if decide (true = true /\ vpn va = vpn (start + 4096 * Z.of_nat (length fr)))
       then Some p else pages_leaf s va) ->
  mapped_run s' start (fr ++ [p]).
Proof.
  intros Hrun Ha Hlen HL i q Hi. rewrite HL.
  destruct (decide (i < length fr)%nat) as [Hlt|Hge].
  - rewrite lookup_app_l in Hi by lia. rewrite decide_False; [apply Hrun, Hi|].
    intros [_ Hv]. apply vpn_run in Hv; lia.
  - rewrite lookup_app_r in Hi by lia. apply list_lookup_singleton_Some in Hi as [Hi ->].
    rewrite decide_True; [reflexivity|]. split; [reflexivity|]. do 3 f_equal. lia.
Qed.

Lemma expand_loop_spec s start n held :
  pages_ok s held -> start mod 4096 = 0 -> 0 <= start -> Z.of_nat n < 1048576 ->
  start + 4096 * Z.of_nat n < 18446744073709551616 ->
  exists c, expand_loop s start (4096 * Z.of_nat n) = Ret c /\
    match c with
    | Cont (s', _) => exists fr, length fr = n /\ pages_ok s' (fr ++ held)
        /\ mapped_run s' start fr /\ same_outside s s' start n
    | Break s' => pages_ok s' held /\ same_outside s s' start n
    end.
Proof.
  intros Hok Ha H0' Hlen Hfit. unfold expand_loop, mrange, VMM_PAGE_SIZE. rewrite trips_pages.
  apply (mfor_ind (fun off '(s', mp) => exists fr, off = 4096 * Z.of_nat (length fr) /\ mp = off
      /\ pages_ok s' (fr ++ held) /\ mapped_run s' start fr /\ same_outside s s' start n)).
  - exists []. split_and!; [reflexivity|reflexivity|exact Hok| |].
    + intros i p Hi. discriminate.
    + intros va _. reflexivity.
  - intros k0 [s1 mp] Hk (fr & Ek & -> & I1 & R1 & O1).
    assert (k0 = Z.of_nat (length fr)) as -> by lia.
    destruct (alloc_law s1 _ I1) as (p & s2 & -> & I2 & L2).
    assert (R2 : mapped_run s2 start fr) by (intros i q Hq; rewrite L2; apply R1, Hq).
    assert (Hback : forall s3, pages_ok s3 (fr ++ held) -> (forall va, pages_leaf s3 va = pages_leaf s1 va) ->
      exists s4, rollback_heap_mapping s3 start (0 + Z.of_nat (length fr) * 4096) = Ret s4
        /\ pages_ok s4 held /\ same_outside s s4 start n).
    { intros s3 I3 L3. replace (0 + _ * 4096) with (4096 * Z.of_nat (length fr)) by lia.
      destruct (rollback_spec s3 start fr held) as (s4 & E4 & I4 & O4); auto; try lia.
      - intros i q Hq. rewrite L3. apply R1, Hq.
      - exists s4. split_and!; auto. intros va Hva. rewrite O4, L3; [apply O1, Hva|].
        intros i Hi. apply Hva. lia. }
    destruct (Z.eqb_spec p 0) as [->|Hp0].
    { destruct (Hback s2 I2 L2) as (s4 & -> & Q). eexists. split; [reflexivity|exact Q]. }
    destruct (pages_frame s2 _ p I2 ltac:(left; reflexivity)) as [_ Hpp].
    destruct writable_flags as [Wf1 Wf2].
    replace (0 + Z.of_nat (length fr) * 4096) with (4096 * Z.of_nat (length fr)) by lia.
    set (va := start + 4096 * Z.of_nat (length fr)).
    rewrite (u64_id va) by (unfold is_u64, va; lia).
    destruct (map_law s2 _ va p VMM_WRITABLE I2 ltac:(unfold va; clear -Ha; zlia) Hpp Wf1 Wf2)
      as (ok & s3 & -> & I3 & L3). cbn [mbind res_bind]. destruct ok; cbn [negb].
    + eexists. split; [reflexivity|]. exists (fr ++ [p]). rewrite length_app. cbn [length].
      split_and!; [lia|rewrite u64_id; unfold is_u64; lia| | |].
      * eapply pages_perm; [|exact I3]. rewrite <- app_assoc. apply Permutation_middle.
      * eapply mapped_run_snoc; [exact R2|exact Ha|lia|exact L3].
      * intros v Hv. rewrite L3, decide_False, L2; [apply O1, Hv|]. intros [_ E].
        eapply (Hv (length fr)); [lia|exact E].
    + destruct (free_law s3 _ p I3) as [I4 L4].
      destruct (Hback (po_free s3 p) I4) as (s5 & E5 & Q).
      { intros v. rewrite L4, L3, decide_False by (intros [? _]; discriminate). apply L2. }
      replace (0 + Z.of_nat (length fr) * 4096) with (4096 * Z.of_nat (length fr)) in E5 by lia.
      rewrite E5. eexists. split; [reflexivity|exact Q].
  - intros [s1 mp] (fr & Ek & _ & I1 & R1 & O1). exists fr. split_and!; auto. lia.
Qed.

(** ** The invariant of the heap *)

(** [l] are the blocks, [fr] the frames mapped under the heap, in order, and
    [others] the frames the rest of the kernel owns. *)
Record heap_ok h l (fr others : list Z) : Prop := {
  ho_list : heap_list h l;
  ho_merged : no_adjacent_free l;
  ho_alloc : kh_allocated_bytes h = live_bytes l;
  ho_mapped : kh_mapped_bytes h = kh_heap_end h - KHEAP_BASE;
  ho_frames : kh_heap_end h - KHEAP_BASE = 4096 * Z.of_nat (length fr);
  ho_pages : pages_ok (kh_pages h) (fr ++ others);
  ho_run : mapped_run (kh_pages h) KHEAP_BASE fr
}.

(** The bytes of the allocations [ps] are the same in both memories. *)
Definition contents_same (m m' : mem) (ps : list (Z * Z)) : Prop :=
  forall p sz a, In (p, sz) ps -> p <= a < p + sz -> m' a = m a.

Lemma in_live l p sz :
  In (p, sz) (live l) <->
  exists x, In x l /\ hb_free x = false /\ p = hb_payload x /\ sz = hb_size x.
Proof.
  unfold live. rewrite in_map_iff. split.
  - intros (x & [= <- <-] & Hx). apply filter_In in Hx as [H1 H2].
    exists x. unfold is_live in H2. apply negb_true_iff in H2. auto.
  - intros (x & H1 & H2 & -> & ->). exists x. split; [reflexivity|]. apply filter_In.
    unfold is_live. rewrite H2. auto.
Qed.

Lemma payload_same_live m m' l : payload_same m m' l -> contents_same m m' (live l).
Proof.
  intros Hp p sz a Hin Ha. apply in_live in Hin as (x & H1 & _ & -> & ->).
  apply (Hp x a H1). unfold hb_end, hb_payload in *. lia.
Qed.

Lemma contents_same_trans m1 m2 m3 ps :
  contents_same m1 m2 ps -> contents_same m2 m3 ps -> contents_same m1 m3 ps.
Proof. intros H1 H2 p sz a Hin Ha. rewrite (H2 p sz a Hin Ha). eapply H1; eauto. Qed.

Lemma contents_same_incl m m' ps qs :
  (forall q, In q qs -> In q ps) -> contents_same m m' ps -> contents_same m m' qs.
Proof. intros Hi Hc p sz a Hin Ha. eapply Hc; eauto. Qed.

(** Changing only the list: everything the pages see stays. *)
Lemma heap_ok_same_statics h h' l l' fr others :
  heap_ok h l fr others -> same_statics h h' -> heap_list h' l' -> no_adjacent_free l' ->
  live_bytes l' = live_bytes l -> heap_ok h' l' fr others.
Proof.
  intros [A B C D E F G] [S1 S2 S3 S4] Hl Hn Hb.
  split; rewrite ?S1, ?S2, ?S3, ?S4, ?Hb; auto.
Qed.

Lemma no_adjacent_snoc l0 y x :
  no_adjacent_free ((l0 ++ [y]) ++ [x])
  <-> no_adjacent_free (l0 ++ [y]) /\ hb_free y && hb_free x = false.
Proof. rewrite <- app_assoc. cbn [app]. rewrite no_adjacent_app. cbn. tauto. Qed.

(** The blocks after [heap_end] has moved: the new space joins a free block at
    the end of the list. *)
Definition grown (l : list hblk) (b size : Z) : list hblk :=
  match rev l with
  | y :: r => if hb_free y
              then rev r ++ [mk_hblk (hb_addr y) (hb_size y + 32 + size) true]
              else l ++ [mk_hblk b size true]
  | [] => [mk_hblk b size true]
  end.

Lemma live_free_snoc l b s : live (l ++ [mk_hblk b s true]) = live l.
Proof. rewrite live_app. cbn. apply app_nil_r. Qed.

Lemma live_bytes_free_snoc l b s : live_bytes (l ++ [mk_hblk b s true]) = live_bytes l.
Proof. rewrite live_bytes_app. cbn. lia. Qed.

Lemma grown_spec l b size :
  no_adjacent_free l ->
  no_adjacent_free (grown l b size) /\ live (grown l b size) = live l
  /\ live_bytes (grown l b size) = live_bytes l
  /\ (0 <= size -> (forall x, In x l -> 0 <= hb_size x) ->
      exists x, In x (grown l b size) /\ fits size x = true).
Proof.
  intros Hn. unfold grown. destruct l as [|y r _] using rev_ind.
  - cbn. split_and!; auto. intros Hs _. eexists. split; [left; reflexivity|].
    unfold fits. cbn. apply Z.leb_le. lia.
  - rewrite rev_app_distr. cbn [rev app]. destruct (hb_free y) eqn:Hy.
    + rewrite rev_involutive. split_and!.
      * destruct r as [|w r _] using rev_ind; [cbn; auto|].
        apply no_adjacent_snoc in Hn as [Hn1 Hn2]. apply no_adjacent_snoc. split; [exact Hn1|].
        rewrite Hy in Hn2. exact Hn2.
      * rewrite live_free_snoc, live_app. cbn. unfold is_live. rewrite Hy. cbn. symmetry. apply app_nil_r.
      * rewrite live_bytes_free_snoc, live_bytes_app. cbn. rewrite Hy. lia.
      * intros Hs Hx. specialize (Hx y ltac:(apply in_or_app; right; left; reflexivity)).
        eexists. split; [apply in_or_app; right; left; reflexivity|].
        unfold fits. cbn. apply Z.leb_le. lia.
    + split_and!.
      * apply no_adjacent_snoc. rewrite Hy. auto.
      * apply live_free_snoc.
      * apply live_bytes_free_snoc.
      * intros Hs _. eexists. split; [apply in_or_app; right; left; reflexivity|].
        unfold fits. cbn. apply Z.leb_le. lia.
Qed.

Lemma append_grown_spec h l s bytes :
  heap_list h l -> 32 <= bytes -> bytes mod 16 = 0 ->
  kh_heap_end h + bytes <= KHEAP_BASE + KHEAP_MAX_SIZE ->
  let b := kh_heap_end h in
  let h1 := grow (with_pages h s) bytes in
  let h2 := append_block (with_mem h1 (fresh_header (kh_mem h1) b (bytes - 32))) b in
  let prev := blk_prev (kh_mem h2) b in
  let h' := if negb (prev =? 0) && blk_free (kh_mem h2) prev
            then coalesce_with_next h2 prev else h2 in
  heap_list h' (grown l b (bytes - 32))
  /\ kh_pages h' = s /\ kh_heap_end h' = b + bytes
  /\ kh_mapped_bytes h' = u64 (kh_mapped_bytes h + bytes)
  /\ kh_allocated_bytes h' = kh_allocated_bytes h
  /\ contents_same (kh_mem h) (kh_mem h') (live l).
Proof.
  intros Hl Hb1 Hb2 Hb3 b h1 h2 prev h'.
  destruct (append_spec h l s bytes Hl Hb1 Hb2 Hb3) as (L2 & P2 & E2 & M2 & A2 & C2).
  fold b in L2, P2, E2, M2, A2, C2. fold h1 in L2, P2, E2, M2, A2, C2. fold h2 in L2, P2, E2, M2, A2, C2.
  set (x := mk_hblk b (bytes - 32) true) in *.
  assert (Cl : contents_same (kh_mem h) (kh_mem h2) (live l)).
  { apply payload_same_live in C2. unfold x in C2. rewrite live_free_snoc in C2. exact C2. }
  assert (Rx := heap_list_at _ l x [] L2). destruct Rx as (p & n & S1 & R & _).
  destruct (rd_fields _ _ _ _ _ _ _ R) as (_ & _ & _ & Fp & _).
  change (hb_addr x) with b in Fp. unfold h', prev. rewrite Fp. clear h' prev.
  destruct l as [|y r _] using rev_ind.
  { destruct S1 as [<- _]. cbn [Z.eqb negb andb]. split_and!; auto. }
  pose proof (hseg_snoc_last _ _ _ _ _ _ _ S1) as ->.
  rewrite <- app_assoc in L2. cbn [app] in L2.
  destruct (heap_list_at _ _ _ _ L2) as (p & n' & _ & Ry & _ & By & _).
  destruct (rd_fields _ _ _ _ _ _ _ Ry) as (_ & -> & _).
  assert (Hy0 : (hb_addr y =? 0) = false) by (apply Z.eqb_neq; heap_consts; lia).
  rewrite Hy0. cbn [negb andb]. unfold grown. rewrite rev_app_distr. cbn [rev app].
  destruct (hb_free y) eqn:Hy.
  - destruct (coalesce_spec h2 r y [x] L2) as (L3 & [P3 E3 M3 A3] & C3).
    cbn [merge_next x hb_free] in L3, C3. rewrite Hy in L3, C3.
    rewrite rev_involutive. split_and!; try congruence.
    + exact L3.
    + eapply contents_same_trans; [exact Cl|]. apply payload_same_live in C3.
      eapply contents_same_incl; [|exact C3]. intros q. rewrite live_free_snoc, live_app.
      cbn. unfold is_live. rewrite Hy. cbn. rewrite app_nil_r. auto.
  - rewrite <- app_assoc. split_and!; auto.
Qed.

(** The size of an expansion. *)
Lemma expand_bytes size :
  0 <= size -> size + 32 + 65536 <= 18446744073709551616 ->
  let bytes := align_up_size (u64 (size + block_overhead)) KHEAP_CHUNK_SIZE in
  size + 32 <= bytes < size + 32 + 65536 /\ bytes mod 65536 = 0 /\ 0 <= bytes.
Proof.
  intros H1 H2 bytes. unfold bytes, align_up_size. change block_overhead with 32.
  change KHEAP_CHUNK_SIZE with (2 ^ 16). rewrite u64_id by (unfold is_u64; lia).
  rewrite align_up_spec by (simpl; lia). change (2 ^ 16) with 65536. zlia.
Qed.

Lemma same_outside_run s s' n fr :
  same_outside s s' (KHEAP_BASE + 4096 * Z.of_nat (length fr)) n ->
  Z.of_nat (length fr) + Z.of_nat n < 1048576 ->
  mapped_run s KHEAP_BASE fr -> mapped_run s' KHEAP_BASE fr.
Proof.
  intros Ho Hlt Hr i p Hi. rewrite Ho; [apply Hr, Hi|]. intros j Hj Hv.
  apply lookup_lt_Some in Hi. rewrite <- Z.add_assoc, <- Z.mul_add_distr_l in Hv.
  apply vpn_run in Hv; [lia|reflexivity|lia|lia].
Qed.

Lemma mapped_run_app s start fr1 fr2 :
  mapped_run s start fr1 -> mapped_run s (start + 4096 * Z.of_nat (length fr1)) fr2 ->
  mapped_run s start (fr1 ++ fr2).
Proof.
  intros H1 H2 i p Hi. apply lookup_app_Some in Hi as [Hi|[Hge Hi]]; [apply H1, Hi|].
  specialize (H2 _ _ Hi). rewrite <- H2. f_equal. lia.
Qed.

(** Why [expand_heap] gives up: the region of the heap is used up, or a page
    could not be had or not be mapped. *)
Definition cannot_grow (h : kheap P) (size : Z) : Prop :=
  let bytes := align_up_size (u64 (size + block_overhead)) KHEAP_CHUNK_SIZE in
  KHEAP_BASE + KHEAP_MAX_SIZE < kh_heap_end h + bytes
  \/ exists s, expand_loop (kh_pages h) (kh_heap_end h) bytes = Ret (Break s).

(** The new pages become a free block, joined with a free one before it. *)
Lemma grown_heap_ok h l fr others s bytes size fr2 :
  heap_ok h l fr others -> 0 <= size -> size + 32 <= bytes -> bytes mod 4096 = 0 ->
  kh_heap_end h + bytes <= KHEAP_BASE + KHEAP_MAX_SIZE -> Z.of_nat (length fr2) = bytes / 4096 ->
  pages_ok s (fr2 ++ fr ++ others) -> mapped_run s (kh_heap_end h) fr2 ->
  same_outside (kh_pages h) s (kh_heap_end h) (Z.to_nat (bytes / 4096)) ->
  let h0 := grow (with_pages h s) bytes in
  let h1 := append_block (with_mem h0 (fresh_header (kh_mem h0) (kh_heap_end h) (bytes - 32))) (kh_heap_end h) in
  let prev := blk_prev (kh_mem h1) (kh_heap_end h) in
  let h' := if negb (prev =? 0) && blk_free (kh_mem h1) prev then coalesce_with_next h1 prev else h1 in
  let l' := grown l (kh_heap_end h) (bytes - 32) in
  heap_ok h' l' (fr ++ fr2) others /\ live l' = live l /\ contents_same (kh_mem h) (kh_mem h') (live l)
  /\ exists x, In x l' /\ fits size x = true.
Proof.
  intros Hok Hs Hb1 Hb2 Hfit Hlen I2 R2 O2 h0 h1 prev h' l'.
  pose proof Hok as [Hl Hn Ha Hmp Hf Hp Hr]. pose proof Hl as [I0 I1 _ T E]. destruct (tiles_bounds _ _ _ T) as [T1 Tx].
  assert (Hb3 : bytes mod 16 = 0) by (clear -Hb2; zlia).
  destruct (append_grown_spec h l s bytes Hl ltac:(lia) Hb3 Hfit) as (L3 & P3 & E3 & M3 & A3 & C3).
  destruct (grown_spec l (kh_heap_end h) (bytes - 32) Hn) as (G1 & G2 & G3 & G4).
  assert (Hn4 : bytes = 4096 * Z.of_nat (length fr2)) by (clear -Hlen Hb2; zlia).
  fold h0 in L3, P3, E3, M3, A3, C3. fold h1 in L3, P3, E3, M3, A3, C3. fold prev in L3, P3, E3, M3, A3, C3.
  fold h' l' in L3, P3, E3, M3, A3, C3, G1, G2, G3, G4.
  assert (He : kh_heap_end h = KHEAP_BASE + 4096 * Z.of_nat (length fr)) by lia.
  rewrite <- Hlen, Nat2Z.id, He in O2.
  split_and!; auto.
  - split; [exact L3|exact G1|congruence| | | |].
    + rewrite M3, E3, Hmp, u64_id; [lia|]. heap_consts. lia.
    + rewrite E3, length_app. lia.
    + rewrite P3. eapply pages_perm; [|exact I2]. rewrite app_assoc. apply Permutation_app_tail, Permutation_app_comm.
    + rewrite P3. apply mapped_run_app; [eapply same_outside_run; [exact O2|heap_consts; lia|exact Hr]|].
      rewrite <- He. exact R2.
  - destruct G4 as (x & X1 & X2); [lia|intros y Hy; apply Tx, Hy|]. exists x. split; [exact X1|].
    unfold fits in *. apply andb_true_iff in X2 as [X2 X3]. rewrite X2. apply Z.leb_le in X3. apply Z.leb_le. lia.
Qed.

Lemma expand_heap_spec h l fr others size :
  heap_ok h l fr others -> 0 <= size -> size + 32 + 65536 <= 18446744073709551616 ->
  size mod 16 = 0 ->
  exists ok h' l' fr', expand_heap h size = Ret (ok, h')
    /\ heap_ok h' l' fr' others /\ live l' = live l
    /\ contents_same (kh_mem h) (kh_mem h') (live l)
    /\ (if ok then exists x, In x l' /\ fits size x = true else cannot_grow h size).
Proof.
  intros Hok Hs1 Hs2 Hm. destruct (expand_bytes size Hs1 Hs2) as (Hb1 & Hb2 & _).
  pose proof Hok as [Hl Hn Ha Hmp Hf Hp Hr]. pose proof Hl as [I0 I1 _ T E].
  destruct (tiles_bounds _ _ _ T) as [T1 Tx].
  unfold expand_heap, cannot_grow. set (bytes := align_up_size _ KHEAP_CHUNK_SIZE) in *. cbv zeta.
  rewrite I1, (u64_id (KHEAP_BASE + _)) by (heap_consts; lia).
  destruct (_ || _) eqn:Hg.
  { exists false, h, l, fr. split_and!; auto; [intros ? ? ? _ _; reflexivity|]. left.
    apply orb_true_iff in Hg as [Hg|Hg]; apply Z.ltb_lt in Hg; clear -Hg T1 E Hb1 Hs1 Hs2; heap_consts; zlia. }
  b2p. assert (Hfit : kh_heap_end h + bytes <= KHEAP_BASE + KHEAP_MAX_SIZE)
    by (clear -H1 H2 T1 E Hb1 Hs2; heap_consts; zlia).
  set (n := Z.to_nat (bytes / 4096)).
  assert (Hbn : bytes = 4096 * Z.of_nat n) by (unfold n; clear -Hb1 Hb2 Hs1; zlia).
  assert (He : kh_heap_end h = KHEAP_BASE + 4096 * Z.of_nat (length fr)) by lia.
  assert (He4 : kh_heap_end h mod 4096 = 0) by (rewrite He; unfold KHEAP_BASE; clear; zlia).
  destruct (expand_loop_spec (kh_pages h) (kh_heap_end h) n (fr ++ others) Hp He4) as (c & Ec & Hc); try (heap_consts; lia).
  rewrite <- Hbn in Ec. rewrite Ec. cbn [mbind res_bind]. destruct c as [[s mp]|s].
  - destruct Hc as (fr2 & Hl2 & I2 & R2 & O2). change block_overhead with 32. rewrite (u64_id (bytes - 32)) by (heap_consts; lia).
    exists true. eexists _, _, (fr ++ fr2). split; [reflexivity|].
    apply grown_heap_ok; auto; try lia; clear -Hb2 Hl2 Hbn Hb1; unfold n in *; zlia.
  - destruct Hc as [I2 O2]. exists false, (with_pages h s), l, fr. split; [reflexivity|].
    split_and!; auto; [|intros ? ? ? _ _; reflexivity|eauto].
    split; auto.
    + destruct Hl; split; auto.
    + rewrite He in O2. eapply same_outside_run; [exact O2|heap_consts; lia|exact Hr].
Qed.

(** ** Allocation *)

Lemma with_allocated_list h l n : heap_list h l -> heap_list (with_allocated h n) l.
Proof. intros [A B C D E]. split; auto. Qed.

Lemma no_adjacent_replace l1 x l2 ys y r :
  no_adjacent_free (l1 ++ x :: l2) -> ys = y :: r ->
  (hb_free y = false \/ hb_free y = hb_free x) ->
  no_adjacent_free (ys ++ l2) -> no_adjacent_free (l1 ++ ys ++ l2).
Proof.
  intros Hn -> Hy Hr. cbn [app] in *. apply no_adjacent_app. split; [|exact Hr].
  apply no_adjacent_app in Hn as [Hn _].
  destruct l1 as [|w l1 _] using rev_ind; [exact I|].
  apply no_adjacent_snoc in Hn as [H1 H2]. apply no_adjacent_snoc. split; [exact H1|].
  destruct Hy as [->| ->]; [apply andb_false_r|exact H2].
Qed.

Lemma no_adjacent_live_head x l :
  hb_free x = false -> no_adjacent_free l -> no_adjacent_free (x :: l).
Proof. intros Hx Hn. destruct l as [|y l]; cbn; [auto|]. rewrite Hx. auto. Qed.

Lemma no_adjacent_tail x l : no_adjacent_free (x :: l) -> no_adjacent_free l.
Proof. destruct l; cbn; tauto. Qed.

Lemma no_adjacent_suffix l1 l2 : no_adjacent_free (l1 ++ l2) -> no_adjacent_free l2.
Proof. induction l1 as [|x l1 IH]; [auto|]. intros Hn. apply IH. exact (no_adjacent_tail _ _ Hn). Qed.

Lemma no_adjacent_same_head x y l :
  hb_free x = hb_free y -> no_adjacent_free (x :: l) -> no_adjacent_free (y :: l).
Proof. intros E. destruct l; cbn; [auto|]. rewrite E. auto. Qed.

(** Another list of blocks over the same pages. *)
Lemma heap_ok_relist h h' l l' fr others :
  heap_ok h l fr others -> heap_list h' l' -> no_adjacent_free l' -> kh_allocated_bytes h' = live_bytes l' ->
  kh_pages h' = kh_pages h -> kh_heap_end h' = kh_heap_end h -> kh_mapped_bytes h' = kh_mapped_bytes h ->
  heap_ok h' l' fr others.
Proof. intros [_ _ _ Hmp Hf Hp Hr] Hl Hn Ha E1 E2 E3. split; rewrite ?E1, ?E2, ?E3; auto. Qed.

Lemma live_middle l1 x l2 :
  hb_free x = false -> Permutation (live (l1 ++ x :: l2)) ((hb_payload x, hb_size x) :: live l1 ++ live l2).
Proof. intros Hx. rewrite (live_elt _ _ _ Hx). symmetry. apply Permutation_middle. Qed.

Lemma live_free_middle l1 x l2 : hb_free x = true -> live (l1 ++ x :: l2) = live l1 ++ live l2.
Proof. intros Hx. rewrite live_app. unfold live. cbn. unfold is_live at 2. rewrite Hx. reflexivity. Qed.

Lemma live_bytes_middle l1 x l2 :
  live_bytes (l1 ++ x :: l2) = live_bytes l1 + live_bytes l2 + (if hb_free x then 0 else hb_size x).
Proof. rewrite live_bytes_app. cbn [live_bytes fold_right]. fold (live_bytes l2). lia. Qed.

(** Splitting a free block keeps the live ones. *)
Lemma split_blocks_free x size :
  hb_free x = true -> exists sz rest,
    split_blocks x size = mk_hblk (hb_addr x) sz true :: rest /\ live rest = [] /\ live_bytes rest = 0
    /\ (size <= hb_size x -> size <= sz <= hb_size x /\ sz < size + 48)
    /\ forall l2, no_adjacent_free (x :: l2) -> no_adjacent_free (rest ++ l2).
Proof.
  intros Hx. unfold split_blocks. rewrite Hx. destruct (Z.ltb_spec (hb_size x) (size + 48)).
  - exists (hb_size x), []. destruct x as [b s f]; cbn in *; subst f. split_and!; auto; [lia|].
    intros l2. apply (no_adjacent_tail (mk_hblk b s true)).
  - eexists size, [_]. split; [reflexivity|]. split_and!; [reflexivity|reflexivity|lia|].
    intros l2 Hn. exact (no_adjacent_same_head x (mk_hblk (hb_addr x + 32 + size) (hb_size x - size - 32) true) l2 Hx Hn).
Qed.

Lemma take_block h l1 x l2 fr others size :
  heap_ok h (l1 ++ x :: l2) fr others -> hb_free x = true -> 0 <= size <= hb_size x ->
  size mod 16 = 0 ->
  let h1 := split_block h (hb_addr x) size in
  let h2 := with_mem h1 (set_free (kh_mem h1) (hb_addr x) false) in
  let h' := with_allocated h2 (kh_allocated_bytes h2 + blk_size (kh_mem h2) (hb_addr x)) in
  exists l' sz, heap_ok h' l' fr others /\ size <= sz < size + 48
    /\ Permutation (live l') ((hb_payload x, sz) :: live (l1 ++ x :: l2))
    /\ contents_same (kh_mem h) (kh_mem h') (live (l1 ++ x :: l2)).
Proof.
  intros Hok Hx Hs Hm h1 h2 h'. pose proof Hok as [Hl Hn Ha _ _ _ _].
  assert (Hmax : size <= KHEAP_MAX_SIZE).
  { destruct (heap_list_facts _ _ Hl) as [_ F]. specialize (F x (in_elt x l1 l2)). heap_consts. lia. }
  destruct (split_block_spec h l1 x l2 size Hl ltac:(lia) Hm) as (L1 & Q1 & C1). fold h1 in L1, Q1, C1.
  destruct (split_blocks_free x size Hx) as (sz & rest & Esp & Hr1 & Hr2 & Hsz & Hadj). rewrite Esp in L1, C1.
  specialize (Hsz (proj2 Hs)). specialize (Hadj l2 (no_adjacent_suffix _ _ Hn)).
  set (x1 := mk_hblk (hb_addr x) sz true) in *. cbn [app] in L1, C1.
  destruct (set_free_spec h1 l1 x1 (rest ++ l2) false L1) as (L2 & Q2 & C2).
  change (hb_addr x1) with (hb_addr x) in L2, Q2, C2. fold h2 in L2, Q2, C2.
  set (x2 := hb_set_free x1 false) in *.
  destruct (heap_list_at _ _ _ _ L2) as (p & n & _ & R2 & _).
  destruct (rd_fields _ _ _ _ _ _ _ R2) as (_ & _ & Fs & _ & _).
  change (hb_addr x2) with (hb_addr x) in Fs. change (hb_size x2) with sz in Fs.
  assert (Hlb : live_bytes (l1 ++ x2 :: rest ++ l2) = live_bytes (l1 ++ x :: l2) + sz)
    by (rewrite !live_bytes_middle, live_bytes_app, Hr2, Hx; cbn; lia).
  assert (Hlv : live (l1 ++ x :: l2) = live l1 ++ live (rest ++ l2))
    by (rewrite (live_free_middle _ _ _ Hx), (live_app rest), Hr1; reflexivity).
  destruct Q1 as [P1 E1 M1 A1], Q2 as [P2 E2 M2 A2].
  exists (l1 ++ x2 :: rest ++ l2), sz. split_and!; try lia.
  - apply (heap_ok_relist h _ _ _ _ _ Hok); cbn [h' with_allocated kh_pages kh_heap_end kh_mapped_bytes kh_allocated_bytes];
      try congruence.
    + apply with_allocated_list. exact L2.
    + apply (no_adjacent_replace l1 x l2 (x2 :: rest) x2 rest Hn eq_refl); [left; reflexivity|].
      apply no_adjacent_live_head; [reflexivity | exact Hadj].
    + rewrite Fs, A2, A1, Ha, <- Hlb. apply u64_id.
      destruct (bytes_bound _ _ _ (hl_tiles _ _ L2)) as (? & ? & ?). pose proof (hl_end _ _ L2). heap_consts. lia.
  - rewrite (live_middle l1 x2) by reflexivity. rewrite Hlv. reflexivity.
  - apply payload_same_live in C1, C2. rewrite live_free_middle in C1, C2 by reflexivity. rewrite Hlv.
    exact (contents_same_trans _ _ _ _ C1 C2).
Qed.

(** Rounding a size up to the alignment of the heap. *)
Lemma align16 size :
  0 < size -> size + 15 < 18446744073709551616 ->
  let a := align_up_size size HEAP_ALIGN in size <= a < size + 16 /\ a mod 16 = 0.
Proof.
  intros H1 H2 a. unfold a, align_up_size, HEAP_ALIGN. change 16 with (2 ^ 4).
  rewrite align_up_spec by (simpl; lia). change (2 ^ 4) with 16. zlia.
Qed.

Lemma tiles_aligned pos l e x :
  tiles pos l e -> pos mod 16 = 0 -> In x l -> hb_addr x mod 16 = 0.
Proof.
  revert pos; induction l as [|y l IH]; intros pos; cbn [tiles In]; [tauto|].
  intros (<- & H1 & H2 & H3) Hp [<-|Hx]; [exact Hp|].
  eapply IH; [exact H3| |exact Hx]. unfold hb_end. clear -H2 Hp. zlia.
Qed.

Lemma find_exists (f : hblk -> bool) l x :
  In x l -> f x = true -> exists y, List.find f l = Some y.
Proof.
  intros Hx Hf. destruct (List.find f l) as [y|] eqn:E; [eauto|].
  rewrite (List.find_none _ _ E x Hx) in Hf. discriminate.
Qed.

(** What [kmalloc] does with the block it has found. *)
Lemma take_found h l fr others x size a :
  heap_ok h l fr others -> List.find (fits a) l = Some x -> 0 < size <= a -> a mod 16 = 0 ->
  exists p h' l', (if hb_addr x =? 0 then Ret (0, h) else
    let h1 := split_block h (hb_addr x) a in
    let h2 := with_mem h1 (set_free (kh_mem h1) (hb_addr x) false) in
    let h3 := with_allocated h2 (kh_allocated_bytes h2 + blk_size (kh_mem h2) (hb_addr x)) in
    Ret (block_payload (hb_addr x), h3)) = Ret (p, h') /\ heap_ok h' l' fr others
    /\ contents_same (kh_mem h) (kh_mem h') (live l)
    /\ exists sz, size <= sz /\ p mod 16 = 0 /\ Permutation (live l') ((p, sz) :: live l).
Proof.
  intros Hok Hfx Hs Ha2. destruct (heap_list_facts _ _ (ho_list _ _ _ _ Hok)) as [_ F].
  assert (Hal := hl_tiles _ _ (ho_list _ _ _ _ Hok)).
  apply find_split in Hfx as (l1 & l2 & -> & Hfx).
  unfold fits in Hfx. b2p. specialize (F x (in_elt x l1 l2)). destruct F as (F1 & F2 & F3 & F4).
  apply Z.eqb_neq in F1. rewrite F1, block_payload_at by (heap_consts; lia).
  destruct (take_block h l1 x l2 fr others a Hok H1 ltac:(lia) Ha2) as (l' & sz & K1 & K2 & K3 & K4).
  eexists _, _, l'. split; [reflexivity|]. split; [exact K1|]. split; [exact K4|].
  exists sz. split_and!; [lia| |exact K3].
  pose proof (tiles_aligned _ _ _ x Hal eq_refl (in_elt x l1 l2)) as Hx16. clear -Hx16. zlia.
Qed.

(** Why [kmalloc] returns NULL: no free block is large enough, and the heap
    cannot grow by one. *)
Definition no_room (h : kheap P) (size : Z) : Prop :=
  let a := align_up_size size HEAP_ALIGN in find_free_block h a = Ret 0 /\ cannot_grow h a.

Lemma kmalloc_spec h l fr others size :
  heap_ok h l fr others -> 0 < size -> size + 131072 <= 18446744073709551616 ->
  exists p h' l' fr', kmalloc h size = Ret (p, h') /\ heap_ok h' l' fr' others
    /\ contents_same (kh_mem h) (kh_mem h') (live l)
    /\ (p = 0 /\ live l' = live l /\ no_room h size
        \/ exists sz, size <= sz /\ p mod 16 = 0 /\ Permutation (live l') ((p, sz) :: live l)).
Proof.
  intros Hok Hs1 Hs2. unfold kmalloc, no_room. rewrite (hl_init _ _ (ho_list _ _ _ _ Hok)). cbn [negb orb].
  destruct (Z.eqb_spec size 0) as [?|_]; [lia|].
  destruct (align16 size Hs1 ltac:(lia)) as [Ha1 Ha2]. set (a := align_up_size size HEAP_ALIGN) in *.
  cbv zeta. rewrite (find_free_block_spec h l a (ho_list _ _ _ _ Hok)). cbn [mbind res_bind].
  destruct (List.find (fits a) l) as [x|] eqn:Hfx.
  - assert (Hx0 : (hb_addr x =? 0) = false).
    { apply Z.eqb_neq. apply (heap_list_facts _ _ (ho_list _ _ _ _ Hok)).
      apply List.find_some in Hfx. apply Hfx. }
    rewrite Hx0. cbn [mbind res_bind].
    destruct (take_found h l fr others x size a Hok Hfx ltac:(lia) Ha2) as (p & h' & l' & E & K1 & K2 & K3).
    exists p, h', l', fr. split_and!; auto.
  - cbn [Z.eqb].
    destruct (expand_heap_spec h l fr others a Hok ltac:(lia) ltac:(lia) Ha2)
      as (ok & h1 & l1 & fr1 & -> & K1 & K2 & K3 & K4). cbn [mbind res_bind].
    destruct ok; cbn [negb].
    + destruct K4 as (x & X1 & X2). destruct (find_exists _ _ _ X1 X2) as (y & Hy).
      rewrite (find_free_block_spec h1 l1 a (ho_list _ _ _ _ K1)), Hy. cbn [mbind res_bind].
      destruct (take_found h1 l1 fr1 others y size a K1 Hy ltac:(lia) Ha2) as (p & h' & l' & E & J1 & J2 & J3). rewrite K2 in J2, J3.
      exists p, h', l', fr1. split_and!; auto. eapply contents_same_trans; eauto.
    + exists 0, h1, l1, fr1. split_and!; auto.
Qed.

(** ** Freeing *)

Lemma merge_next_spec x l2 :
  hb_free x = true -> no_adjacent_free l2 ->
  exists x' r, merge_next x l2 = x' :: r /\ hb_addr x' = hb_addr x /\ hb_free x' = true
    /\ live r = live l2 /\ live_bytes r = live_bytes l2 /\ no_adjacent_free (x' :: r).
Proof.
  intros Hx Hn. destruct l2 as [|z r]; cbn [merge_next].
  { exists x, []. split_and!; auto; reflexivity. }
  destruct (hb_free z) eqn:Hz.
  - eexists _, r. split; [reflexivity|]. cbn [hb_addr hb_free]. split_and!; auto.
    + unfold live. cbn. unfold is_live at 2. rewrite Hz. reflexivity.
    + cbn. rewrite Hz. reflexivity.
    + eapply no_adjacent_same_head; [|exact Hn]. cbn. congruence.
  - exists x, (z :: r). do 5 (split; [auto|]).
    split; [rewrite Hz; apply andb_false_r|exact Hn].
Qed.

(** Coalescing with a free predecessor. *)
Definition merge_prev (l1 : list hblk) (x : hblk) (r : list hblk) : list hblk :=
  match rev l1 with
  | w :: l0 => if hb_free w
               then rev l0 ++ mk_hblk (hb_addr w) (hb_size w + 32 + hb_size x) true :: r
               else l1 ++ x :: r
  | [] => x :: r
  end.

Lemma merge_prev_spec h l1 x r :
  heap_list h (l1 ++ x :: r) -> hb_free x = true ->
  let prev := blk_prev (kh_mem h) (hb_addr x) in
  let h' := if negb (prev =? 0) && blk_free (kh_mem h) prev
            then coalesce_with_next h prev else h in
  heap_list h' (merge_prev l1 x r) /\ same_statics h h'
  /\ payload_same (kh_mem h) (kh_mem h') (merge_prev l1 x r).
Proof.
  intros Hl Hx prev h'. destruct (heap_list_at _ _ _ _ Hl) as (p & n & S1 & R & _).
  destruct (rd_fields _ _ _ _ _ _ _ R) as (_ & _ & _ & Fp & _).
  assert (Hsame : same_statics h h /\ forall l, payload_same (kh_mem h) (kh_mem h) l)
    by (split; [split; reflexivity|intros ? ? ? _ _; reflexivity]).
  unfold h', prev, merge_prev. rewrite Fp. destruct l1 as [|w l0 _] using rev_ind.
  { destruct S1 as [<- _]. cbn. split_and!; auto; apply Hsame. }
  pose proof (hseg_snoc_last _ _ _ _ _ _ _ S1) as ->.
  rewrite rev_app_distr. cbn [rev app]. rewrite <- app_assoc in Hl |- *. cbn [app] in *.
  destruct (heap_list_at _ _ _ _ Hl) as (p' & n' & _ & Rw & _ & Bw & _).
  destruct (rd_fields _ _ _ _ _ _ _ Rw) as (_ & -> & _).
  assert (Hw0 : (hb_addr w =? 0) = false) by (apply Z.eqb_neq; heap_consts; lia).
  rewrite Hw0. cbn [negb andb]. destruct (hb_free w) eqn:Hw.
  - destruct (coalesce_spec h l0 w (x :: r) Hl) as (L & Q & C). cbn [merge_next] in L, C.
    rewrite Hx, Hw in L, C. rewrite rev_involutive. auto.
  - split_and!; auto; apply Hsame.
Qed.

Lemma merge_prev_list l1 x r :
  hb_free x = true -> no_adjacent_free (x :: r) -> no_adjacent_free l1 ->
  no_adjacent_free (merge_prev l1 x r)
  /\ live (merge_prev l1 x r) = live l1 ++ live r
  /\ live_bytes (merge_prev l1 x r) = live_bytes l1 + live_bytes r.
Proof.
  intros Hx Hr H1. unfold merge_prev. destruct l1 as [|w l0 _] using rev_ind.
  { split; [exact Hr|]. unfold live. cbn. unfold is_live at 1. rewrite Hx. auto. }
  rewrite rev_app_distr. cbn [rev app]. destruct (hb_free w) eqn:Hw.
  - rewrite rev_involutive. split_and!.
    + apply no_adjacent_app. split; [|eapply no_adjacent_same_head; [|exact Hr]; exact Hx].
      destruct l0 as [|v l0 _] using rev_ind; [exact I|].
      apply no_adjacent_snoc in H1 as [G1 G2]. apply no_adjacent_snoc. split; [exact G1|].
      rewrite Hw in G2. exact G2.
    + change (?a :: r) with ([a] ++ r). rewrite !live_app. cbn. unfold is_live. rewrite Hw. cbn.
      rewrite app_nil_r. reflexivity.
    + change (?a :: r) with ([a] ++ r). rewrite !live_bytes_app. cbn. rewrite Hw. lia.
  - split_and!.
    + apply no_adjacent_app. split; [|exact Hr]. apply no_adjacent_snoc. rewrite Hw. auto.
    + rewrite live_app. f_equal. unfold live. cbn. unfold is_live at 1. rewrite Hx. reflexivity.
    + rewrite live_bytes_app. cbn. rewrite Hx. reflexivity.
Qed.

Lemma no_adjacent_prefix l1 l2 : no_adjacent_free (l1 ++ l2) -> no_adjacent_free l1.
Proof.
  destruct l2 as [|x l2]; [rewrite app_nil_r; auto|]. intros Hn.
  apply no_adjacent_app in Hn as [Hn _]. destruct l1 as [|w l1 _] using rev_ind; [exact I|].
  apply no_adjacent_snoc in Hn. apply Hn.
Qed.

Lemma heap_ok_allocated h l fr others (Hok : heap_ok h l fr others) :
  is_u64 (live_bytes l).
Proof.
  destruct Hok as [Hl _ _ _ _ _ _]. destruct (bytes_bound _ _ _ (hl_tiles _ _ Hl)) as (? & ? & ?).
  pose proof (hl_end _ _ Hl). heap_consts. lia.
Qed.

Lemma kfree_spec h l fr others p sz :
  heap_ok h l fr others -> In (p, sz) (live l) ->
  exists h' l', kfree h p = Ret h' /\ heap_ok h' l' fr others
    /\ Permutation (live l) ((p, sz) :: live l')
    /\ contents_same (kh_mem h) (kh_mem h') (live l').
Proof.
  intros Hok Hin. apply in_live in Hin as (x & Hx & Hxf & -> & ->).
  apply List.in_split in Hx as (l1 & l2 & ->).
  pose proof (heap_ok_allocated _ _ _ _ Hok) as Hau.
  pose proof Hok as [Hl Hn Ha _ _ _ _].
  destruct (heap_list_at _ _ _ _ Hl) as (p & n & _ & R & _ & B1 & B2 & _ & B4 & _).
  destruct (rd_fields _ _ _ _ _ _ _ R) as (Fm & Ff & Fs & _ & _).
  unfold kfree, hb_payload. destruct (Z.eqb_spec (hb_addr x + 32) 0) as [?|_]; [heap_consts; lia|].
  rewrite payload_block_at by (heap_consts; lia). rewrite Fm, Ff, Hxf, Z.eqb_refl.
  cbn [kassert negb mbind res_bind].
  destruct (set_free_spec h l1 x l2 true Hl) as (L1 & [P1 E1 M1 A1] & C1).
  set (h1 := with_mem h _) in *. set (x1 := hb_set_free x true) in *.
  destruct (heap_list_at _ _ _ _ L1) as (p1 & n1 & _ & R1 & _).
  destruct (rd_fields _ _ _ _ _ _ _ R1) as (_ & _ & Fs1 & _ & _).
  change (hb_addr x1) with (hb_addr x) in Fs1. change (hb_size x1) with (hb_size x) in Fs1.
  rewrite Fs1. set (h2 := with_allocated h1 _). cbv zeta.
  pose proof (with_allocated_list _ _ (kh_allocated_bytes h1 - hb_size x) L1) as L2. fold h2 in L2.
  destruct (coalesce_spec h2 l1 x1 l2 L2) as (L3 & [P3 E3 M3 A3] & C3).
  change (hb_addr x1) with (hb_addr x) in L3, P3, E3, M3, A3, C3.
  set (h3 := coalesce_with_next h2 (hb_addr x)) in *.
  assert (Hn2 : no_adjacent_free l2) by (apply no_adjacent_suffix in Hn; exact (no_adjacent_tail _ _ Hn)).
  destruct (merge_next_spec x1 l2 eq_refl Hn2) as (x' & r & Em & G1 & G2 & G3 & G4 & G5).
  rewrite Em in L3, C3. change (hb_addr x1) with (hb_addr x) in G1. rewrite <- G1.
  destruct (merge_prev_spec h3 l1 x' r L3 G2) as (L4 & [P4 E4 M4 A4] & C4).
  set (h4 := if negb _ && _ then _ else _) in *.
  destruct (merge_prev_list l1 x' r G2 G5 (no_adjacent_prefix _ _ Hn)) as (J1 & J2 & J3).
  exists h4, (merge_prev l1 x' r). split; [reflexivity|].
  assert (Hlv : live (merge_prev l1 x' r) = live l1 ++ live l2) by congruence.
  pose proof (live_bytes_middle l1 x l2) as Hlb. rewrite Hxf in Hlb. split_and!.
  - apply (heap_ok_relist h _ _ _ _ _ Hok); auto; rewrite ?A4, ?A3, ?P4, ?P3, ?E4, ?E3, ?M4, ?M3; auto.
    change (kh_allocated_bytes h2) with (u64 (kh_allocated_bytes h1 - hb_size x)). rewrite A1, Ha, J3, G4, Hlb.
    destruct (bytes_bound _ _ _ (hl_tiles _ _ L4)) as (? & _). rewrite J3, G4 in *.
    rewrite u64_id; [lia|]. rewrite Hlb in Hau. unfold is_u64 in *. lia.
  - rewrite Hlv, G1. exact (live_middle l1 x l2 Hxf).
  - apply payload_same_live in C1, C3, C4. rewrite Hlv in *.
    eapply contents_same_trans; [|eapply contents_same_trans; [|exact C4]].
    + eapply contents_same_incl; [|exact C1]. intros q Hq. rewrite (live_elt _ _ _ Hxf).
      apply in_app_or in Hq. rewrite in_app_iff. cbn [In]. tauto.
    + eapply contents_same_incl; [|exact C3]. intros q Hq. rewrite (live_free_middle _ _ _ G2), G3. exact Hq.
Qed.

(** ** Writing payloads *)

Lemma rd_write_other m a bs b :
  b + 32 <= a \/ a + Z.of_nat (length bs) <= b -> rd (mem_write m a bs) b = rd m b.
Proof.
  intros D. unfold rd, blk_magic, blk_free, blk_size, blk_prev, blk_next.
  rewrite !load_write_disj by (simpl Z.of_nat; lia). reflexivity.
Qed.

Lemma tiles_disjoint pos l e x y :
  tiles pos l e -> In x l -> In y l -> x <> y ->
  hb_end x <= hb_addr y \/ hb_end y <= hb_addr x.
Proof.
  revert pos; induction l as [|z l IH]; intros pos; cbn [tiles In]; [tauto|].
  intros (_ & _ & _ & T). pose proof (tiles_bounds _ _ _ T) as [_ B].
  intros [<-|Hx] [<-|Hy] Hne; [tauto| | |].
  - left. apply B, Hy. - right. apply B, Hx. - eapply IH; eauto.
Qed.

Lemma live_nodup pos l e : tiles pos l e -> List.NoDup (live l).
Proof.
  revert pos; induction l as [|x l IH]; intros pos; cbn [tiles]; [constructor|].
  intros (_ & H1 & _ & T). specialize (IH _ T). unfold live. cbn. unfold is_live at 1.
  destruct (hb_free x); cbn; [exact IH|]. constructor; [|exact IH]. fold (live l).
  intros Hin. apply in_live in Hin as (y & Hy & _ & E & _).
  apply tiles_bounds in T as [_ B]. specialize (B y Hy). unfold hb_payload, hb_end in *. lia.
Qed.

(** Distinct live allocations do not overlap. *)
Lemma live_disjoint h l p sz rest q s :
  heap_list h l -> Permutation (live l) ((p, sz) :: rest) -> In (q, s) rest ->
  p + sz <= q \/ q + s <= p.
Proof.
  intros Hl Hp Hq. pose proof (hl_tiles _ _ Hl) as T.
  assert (Hnd := Permutation_NoDup Hp (live_nodup _ _ _ T)). inversion Hnd as [|? ? Hni _]; subst.
  assert (Hx : In (p, sz) (live l)) by (eapply Permutation_in; [symmetry; exact Hp|left; reflexivity]).
  assert (Hy : In (q, s) (live l)) by (eapply Permutation_in; [symmetry; exact Hp|right; exact Hq]).
  apply in_live in Hx as (x & X1 & _ & -> & ->). apply in_live in Hy as (y & Y1 & _ & -> & ->).
  assert (x <> y) by (intros ->; auto).
  destruct (tiles_disjoint _ _ _ _ _ T X1 Y1 ltac:(assumption)) as [D|D];
    apply (tiles_bounds) in T as [_ B]; pose proof (B x X1); pose proof (B y Y1);
    unfold hb_end, hb_payload in *; lia.
Qed.

Lemma write_payload_ok h l fr others p sz a bs :
  heap_ok h l fr others -> In (p, sz) (live l) ->
  p <= a -> a + Z.of_nat (length bs) <= p + sz ->
  heap_ok (with_mem h (mem_write (kh_mem h) a bs)) l fr others.
Proof.
  intros [Hl Hn Ha Hmp Hf Hp Hr] Hin H1 H2. split; auto. destruct Hl as [I0 I1 S T E]. split; auto.
  cbn [with_mem kh_mem kh_first_block kh_last_block]. eapply hseg_frame; [|exact S].
  intros y Hy. apply rd_write_other. apply in_live in Hin as (x & Hx & _ & -> & ->).
  destruct (decide (hb_addr x = hb_addr y)) as [Exy|Nxy]; [unfold hb_payload in *; lia|].
  assert (x <> y) by congruence. pose proof (tiles_bounds _ _ _ T) as [_ B].
  pose proof (B x Hx). pose proof (B y Hy).
  destruct (tiles_disjoint _ _ _ _ _ T Hx Hy ltac:(assumption)); unfold hb_end, hb_payload in *; lia.
Qed.

(** Writing one allocation keeps the contents of the others. *)
Lemma write_payload_contents h l p sz rest a bs :
  heap_list h l -> Permutation (live l) ((p, sz) :: rest) ->
  p <= a -> a + Z.of_nat (length bs) <= p + sz ->
  contents_same (kh_mem h) (mem_write (kh_mem h) a bs) rest.
Proof.
  intros Hl Hp H1 H2 q s x Hq Hx. apply mem_write_out.
  pose proof (live_disjoint _ _ _ _ _ _ _ Hl Hp Hq). lia.
Qed.

(** The header of a live allocation, found from its pointer. *)
Lemma live_header h l p sz :
  heap_list h l -> In (p, sz) (live l) ->
  p <> 0 /\ KHEAP_BASE + 32 <= p /\ p + sz <= KHEAP_BASE + KHEAP_MAX_SIZE /\ 0 <= sz /\ sz mod 16 = 0
  /\ blk_magic (kh_mem h) (payload_block p) = HEAP_MAGIC
  /\ blk_size (kh_mem h) (payload_block p) = sz.
Proof.
  intros Hl Hin. apply in_live in Hin as (x & Hx & _ & -> & ->).
  apply List.in_split in Hx as (l1 & l2 & ->).
  destruct (heap_list_at _ _ _ _ Hl) as (p & n & _ & R & _ & B1 & B2 & B3 & B4 & _).
  destruct (rd_fields _ _ _ _ _ _ _ R) as (Fm & _ & Fs & _).
  unfold hb_payload. rewrite payload_block_at by (heap_consts; lia). heap_consts.
  split_and!; auto; lia.
Qed.

(** ** Resizing in place *)

(** What is behind a shrunk block [x]: the block of at least [a] bytes, and the
    same live blocks as before. *)
Definition shrunk h h2 l1 x l2 (a : Z) : Prop :=
  exists x1 r, heap_list h2 (l1 ++ x1 :: r) /\ same_statics h h2
    /\ hb_addr x1 = hb_addr x /\ hb_free x1 = false /\ a <= hb_size x1 <= hb_size x
    /\ live r = live l2 /\ live_bytes r = live_bytes l2 /\ no_adjacent_free (x1 :: r)
    /\ contents_same (kh_mem h) (kh_mem h2) (live (l1 ++ x1 :: r)).

(** Joining the block behind [x] with the one after it, if it is free. *)
Definition join_next h block : kheap P :=
  let next := blk_next (kh_mem h) block in
  if negb (next =? 0) && blk_free (kh_mem h) next then coalesce_with_next h next else h.

Lemma join_next_at h l1 x y r :
  heap_list h (l1 ++ x :: y :: r) ->
  join_next h (hb_addr x) = if hb_free y then coalesce_with_next h (hb_addr y) else h.
Proof.
  intros Hl. destruct (heap_list_at _ _ _ _ Hl) as (p & n & _ & R & S & _).
  destruct (rd_fields _ _ _ _ _ _ _ R) as (_ & _ & _ & _ & Fn). pose proof (hseg_first _ _ _ _ _ S) as ->.
  assert (Hl' : heap_list h ((l1 ++ [x]) ++ y :: r)) by (rewrite <- app_assoc; exact Hl).
  destruct (heap_list_at _ _ _ _ Hl') as (p2 & n2 & _ & R2 & _ & By & _).
  destruct (rd_fields _ _ _ _ _ _ _ R2) as (_ & Ff & _).
  unfold join_next. rewrite Fn, Ff. destruct (Z.eqb_spec (hb_addr y) 0); [heap_consts; lia | reflexivity].
Qed.

Lemma join_next_last h l1 x : heap_list h (l1 ++ [x]) -> join_next h (hb_addr x) = h.
Proof.
  intros Hl. destruct (heap_list_at _ _ _ _ Hl) as (p & n & _ & R & [_ ->] & _).
  destruct (rd_fields _ _ _ _ _ _ _ R) as (_ & _ & _ & _ & Fn). unfold join_next. rewrite Fn. reflexivity.
Qed.

(** Too small to split: the list stays as it is. *)
Lemma shrink_kept h h1 l1 x l2 a :
  heap_list h1 (l1 ++ x :: l2) -> same_statics h h1 -> payload_same (kh_mem h) (kh_mem h1) (l1 ++ x :: l2) ->
  no_adjacent_free (x :: l2) -> hb_free x = false -> a <= hb_size x -> shrunk h (join_next h1 (hb_addr x)) l1 x l2 a.
Proof.
  intros L1 Q1 C1 Hn Hx Ha. exists x, l2. apply payload_same_live in C1.
  destruct l2 as [|z r].
  { rewrite (join_next_last h1 l1 x L1). split_and!; auto; lia. }
  rewrite (join_next_at h1 l1 x z r L1). destruct (hb_free z) eqn:Hz; [|split_and!; auto; lia].
  assert (L1' : heap_list h1 ((l1 ++ [x]) ++ z :: r)) by (rewrite <- app_assoc; exact L1).
  destruct (coalesce_spec h1 (l1 ++ [x]) z r L1') as (L3 & Q3 & C3).
  assert (Em : merge_next z r = z :: r).
  { destruct r as [|w r]; [reflexivity|]. destruct Hn as [_ [Hzw _]]. cbn. rewrite Hz in Hzw. cbn in Hzw. rewrite Hzw. reflexivity. }
  rewrite Em, <- app_assoc in L3, C3. cbn [app] in L3, C3. apply payload_same_live in C3.
  split_and!; auto; try lia; [|eapply contents_same_trans; eauto]. destruct Q1, Q3. split; congruence.
Qed.

(** Split: the new block joins a free block behind it. *)
Lemma shrink_split h h1 l1 x l2 a :
  let x1 := mk_hblk (hb_addr x) a (hb_free x) in
  let y := mk_hblk (hb_addr x + 32 + a) (hb_size x - a - 32) true in
  heap_list h1 (l1 ++ x1 :: y :: l2) -> same_statics h h1 ->
  payload_same (kh_mem h) (kh_mem h1) (l1 ++ x1 :: y :: l2) -> no_adjacent_free (x :: l2) -> hb_free x = false ->
  a <= hb_size x -> shrunk h (join_next h1 (hb_addr x)) l1 x l2 a.
Proof.
  intros x1 y L1 Q1 C1 Hn Hx Ha. change (hb_addr x) with (hb_addr x1). rewrite (join_next_at h1 l1 x1 y l2 L1). cbn [y hb_free].
  assert (L1' : heap_list h1 ((l1 ++ [x1]) ++ y :: l2)) by (rewrite <- app_assoc; exact L1).
  destruct (coalesce_spec h1 (l1 ++ [x1]) y l2 L1') as (L3 & Q3 & C3).
  destruct (merge_next_spec y l2 eq_refl (no_adjacent_tail _ _ Hn)) as (y' & r & Em & _ & G2 & G3 & G4 & G5).
  rewrite Em, <- app_assoc in L3, C3. cbn [app] in L3, C3.
  assert (Hyl : live (y' :: r) = live l2) by (rewrite <- G3; exact (live_free_middle [] y' r G2)).
  exists x1, (y' :: r). change (hb_size x1) with a. split_and!; auto; try lia.
  - destruct Q1, Q3. split; congruence.
  - cbn. rewrite G2. exact G4.
  - apply no_adjacent_live_head; [exact Hx|exact G5].
  - apply payload_same_live in C1, C3. rewrite (live_elt l1 x1) in * by exact Hx. rewrite Hyl in *.
    change (live (y :: l2)) with (live l2) in C1. exact (contents_same_trans _ _ _ _ C1 C3).
Qed.

(** A heap with a shrunk block is well formed. *)
Lemma shrunk_ok h h2 l1 x l2 fr others a :
  heap_ok h (l1 ++ x :: l2) fr others -> hb_free x = false -> shrunk h h2 l1 x l2 a -> 
  let h' := with_allocated h2 (kh_allocated_bytes h2 - (hb_size x - blk_size (kh_mem h2) (hb_addr x))) in
  exists l' sz' rest, heap_ok h' l' fr others /\ a <= sz' <= hb_size x
    /\ Permutation (live (l1 ++ x :: l2)) ((hb_payload x, hb_size x) :: rest)
    /\ Permutation (live l') ((hb_payload x, sz') :: rest)
    /\ contents_same (kh_mem h) (kh_mem h') ((hb_payload x, sz') :: rest).
Proof.
  intros Hok Hxf (x1 & r & L2 & [P2 E2 M2 A2] & X1 & X2 & X3 & R1 & R2 & R3 & C2) h'.
  pose proof (heap_ok_allocated _ _ _ _ Hok) as Hau. pose proof Hok as [_ Hn Hal _ _ _ _].
  destruct (heap_list_at _ _ _ _ L2) as (p' & n' & _ & Rd & _).
  destruct (rd_fields _ _ _ _ _ _ _ Rd) as (_ & _ & Fs & _). rewrite X1 in Fs.
  pose proof (live_bytes_middle l1 x l2) as Hlb. pose proof (live_bytes_middle l1 x1 r) as Hlb2.
  rewrite Hxf in Hlb. rewrite X2, R2 in Hlb2.
  assert (Hperm2 : Permutation (live (l1 ++ x1 :: r)) ((hb_payload x, hb_size x1) :: live l1 ++ live l2))
    by (rewrite (live_middle _ _ _ X2), R1; unfold hb_payload; rewrite X1; reflexivity).
  exists (l1 ++ x1 :: r), (hb_size x1), (live l1 ++ live l2). split_and!; auto; try lia.
  - apply (heap_ok_relist h _ _ _ _ _ Hok); cbn [h' with_allocated kh_pages kh_heap_end kh_mapped_bytes kh_allocated_bytes];
      auto.
    + apply with_allocated_list, L2.
    + apply no_adjacent_app. split; [|exact R3]. destruct l1 as [|w l1 _] using rev_ind; [exact I|].
      apply no_adjacent_snoc. rewrite X2, andb_false_r. split; [|reflexivity]. exact (no_adjacent_prefix _ _ Hn).
    + rewrite Fs, A2, Hal, Hlb, Hlb2, u64_id; [lia|].
      destruct (bytes_bound _ _ _ (hl_tiles _ _ L2)) as (? & _). rewrite Hlb2 in *.
      rewrite Hlb in Hau. unfold is_u64 in *. lia.
  - exact (live_middle _ _ _ Hxf).
  - eapply contents_same_incl; [|exact C2]. intros q Hq. eapply Permutation_in; [symmetry; exact Hperm2|exact Hq].
Qed.

Lemma shrink_spec h l fr others p sz a :
  heap_ok h l fr others -> In (p, sz) (live l) -> 0 < a <= sz -> a mod 16 = 0 ->
  let block := payload_block p in
  let h2 := join_next (split_block h block a) block in
  let h' := with_allocated h2
              (kh_allocated_bytes h2 - (sz - blk_size (kh_mem h2) block)) in
  exists l' sz' rest, heap_ok h' l' fr others /\ a <= sz' <= sz
    /\ Permutation (live l) ((p, sz) :: rest) /\ Permutation (live l') ((p, sz') :: rest)
    /\ contents_same (kh_mem h) (kh_mem h') ((p, sz') :: rest).
Proof.
  intros Hok Hin Ha Hm. apply in_live in Hin as (x & Hx & Hxf & -> & ->). apply List.in_split in Hx as (l1 & l2 & ->).
  destruct (heap_list_at _ _ _ _ (ho_list _ _ _ _ Hok)) as (p & n & _ & _ & _ & B1 & B2 & B3 & B4 & _).
  intros block h2 h'.
  assert (Eb : block = hb_addr x) by (unfold block, hb_payload; apply payload_block_at; heap_consts; lia).
  clearbody block. subst block. apply shrunk_ok; auto.
  destruct (split_block_spec h l1 x l2 a (ho_list _ _ _ _ Hok) ltac:(heap_consts; lia) Hm) as (L1 & Q1 & C1).
  pose proof (no_adjacent_suffix _ _ (ho_merged _ _ _ _ Hok)) as Hn.
  unfold split_blocks in L1, C1. destruct (Z.ltb_spec (hb_size x) (a + 48)).
  - apply shrink_kept; auto. lia.
  - apply shrink_split; auto. lia.
Qed.

(** The first [n] bytes at [p'] after are those at [p] before. *)
Definition bytes_moved (m m' : mem) (p p' n : Z) : Prop :=
  forall i, 0 <= i < n -> u8 (m' (p' + i)) = u8 (m (p + i)).

Lemma mem_copy_moved m dest src n :
  bytes_moved m (mem_copy m dest src n) src dest (Z.of_nat n).
Proof.
  intros i Hi. unfold mem_copy. rewrite mem_write_in by (rewrite mem_read_length; lia).
  rewrite mem_read_nth by lia. rewrite u8_idem. do 3 f_equal. lia.
Qed.

Lemma realloc_move_spec h l fr others p sz size h1 p2 l2 fr2 sz2 :
  heap_ok h l fr others -> In (p, sz) (live l) ->
  heap_ok h1 l2 fr2 others -> contents_same (kh_mem h) (kh_mem h1) (live l) ->
  size <= sz2 -> sz <= sz2 -> Permutation (live l2) ((p2, sz2) :: live l) ->
  exists h' l' rest,
    kfree (with_mem h1 (mem_copy (kh_mem h1) p2 p (Z.to_nat sz))) p = Ret h'
    /\ heap_ok h' l' fr2 others
    /\ Permutation (live l) ((p, sz) :: rest) /\ Permutation (live l') ((p2, sz2) :: rest)
    /\ contents_same (kh_mem h) (kh_mem h') rest
    /\ bytes_moved (kh_mem h) (kh_mem h') p p2 sz.
Proof.
  intros Hok Hin Hok1 C1 Hs1 Hs2 Hp2.
  destruct (live_header _ _ _ _ (ho_list _ _ _ _ Hok) Hin) as (_ & _ & _ & Hsz & _).
  apply List.in_split in Hin as Hsp. destruct Hsp as (q1 & q2 & Hsp).
  assert (Hrest : Permutation (live l) ((p, sz) :: q1 ++ q2))
    by (rewrite Hsp; symmetry; apply Permutation_middle).
  assert (Hin2 : In (p2, sz2) (live l2))
    by (eapply Permutation_in; [symmetry; exact Hp2|left; reflexivity]).
  assert (Hin1 : In (p, sz) (live l2))
    by (eapply Permutation_in; [symmetry; exact Hp2|right; exact Hin]).
  set (bs := mem_read (kh_mem h1) p (Z.to_nat sz)).
  assert (Hbs : Z.of_nat (length bs) = sz) by (unfold bs; rewrite mem_read_length; lia).
  change (mem_copy (kh_mem h1) p2 p (Z.to_nat sz)) with (mem_write (kh_mem h1) p2 bs).
  set (h2 := with_mem h1 (mem_write (kh_mem h1) p2 bs)).
  assert (Hok2 : heap_ok h2 l2 fr2 others)
    by (apply (write_payload_ok _ _ _ _ p2 sz2); auto; lia).
  assert (C2 : contents_same (kh_mem h1) (kh_mem h2) (live l))
    by (apply (write_payload_contents h1 l2 p2 sz2); auto; [apply Hok1|lia|lia]).
  destruct (kfree_spec h2 l2 fr2 others p sz Hok2 Hin1) as (h3 & l3 & E3 & Hok3 & Hp3 & C3).
  assert (Hp4 : Permutation (live l3) ((p2, sz2) :: q1 ++ q2)).
  { apply (Permutation_cons_inv (a := (p, sz))). rewrite <- Hp3, Hp2, Hrest. apply perm_swap. }
  exists h3, l3, (q1 ++ q2). split_and!; auto.
  - assert (Hi : forall q, In q (q1 ++ q2) -> In q (live l))
      by (intros q Hq; eapply Permutation_in; [symmetry; exact Hrest|right; exact Hq]).
    eapply contents_same_trans; [eapply contents_same_incl; [exact Hi|exact C1]|].
    eapply contents_same_trans; [eapply contents_same_incl; [exact Hi|exact C2]|].
    eapply contents_same_incl; [|exact C3]. intros q Hq.
    eapply Permutation_in; [symmetry; exact Hp4|right; exact Hq].
  - intros i Hi. rewrite (C3 p2 sz2); [| |lia].
    2:{ eapply Permutation_in; [symmetry; exact Hp4|left; reflexivity]. }
    pose proof (mem_copy_moved (kh_mem h1) p2 p (Z.to_nat sz) i ltac:(lia)) as Hc.
    transitivity (u8 (kh_mem h1 (p + i))); [exact Hc|]. f_equal. apply (C1 p sz _ Hin). lia.
Qed.

(** The outcome of [krealloc] on a live allocation [(p, sz)]. *)
Definition realloc_outcome (m m' : mem) (ps ps' : list (Z * Z)) (p sz size p' : Z) : Prop :=
  (p' = 0 /\ ps' = ps /\ contents_same m m' ps)
  \/ exists sz' rest, p' <> 0 /\ size <= sz'
      /\ Permutation ps ((p, sz) :: rest) /\ Permutation ps' ((p', sz') :: rest)
      /\ contents_same m m' rest /\ bytes_moved m m' p p' (Z.min sz size).

Lemma krealloc_spec h l fr others p sz size :
  heap_ok h l fr others -> In (p, sz) (live l) ->
  0 < size -> size + 131072 <= 18446744073709551616 ->
  exists p' h' l' fr', krealloc h p size = Ret (p', h') /\ heap_ok h' l' fr' others
    /\ realloc_outcome (kh_mem h) (kh_mem h') (live l) (live l') p sz size p' /\ (p' = 0 -> no_room h size).
Proof.
  intros Hok Hin Hs1 Hs2.
  destruct (live_header _ _ _ _ (ho_list _ _ _ _ Hok) Hin) as (Hp0 & Hpb & Hpe & Hsz0 & Hsz & Fm & Fs).
  unfold krealloc. apply Z.eqb_neq in Hp0 as Hp0'. rewrite Hp0'.
  destruct (Z.eqb_spec size 0) as [?|_]; [lia|]. rewrite Fm, Z.eqb_refl, Fs.
  cbn [kassert mbind res_bind]. cbv zeta.
  destruct (align16 size Hs1 ltac:(lia)) as [Ha1 Ha2]. set (a := align_up_size size HEAP_ALIGN) in *.
  destruct (Z.leb_spec a sz) as [Hle|Hlt].
  - destruct (shrink_spec h l fr others p sz a Hok Hin ltac:(lia) Ha2)
      as (l' & sz' & rest & K1 & K2 & K3 & K4 & K5).
    eexists p, _, l', fr. split; [reflexivity|]. split; [exact K1|]. split; [|tauto]. right. exists sz', rest.
    split_and!; auto; [lia| |].
    + eapply contents_same_incl; [|exact K5]. intros q Hq. right. exact Hq.
    + intros i Hi. f_equal. apply (K5 p sz'); [left; reflexivity|lia].
  - destruct (kmalloc_spec h l fr others size Hok Hs1 Hs2) as (p2 & h1 & l1 & fr1 & -> & K1 & K2 & K3).
    cbn [mbind res_bind]. destruct (Z.eqb_spec p2 0) as [->|Hp2].
    + destruct K3 as [(_ & K3 & Kn)|(sz2 & _ & _ & K3)].
      * exists 0, h1, l1, fr1. split_and!; auto. left. auto.
      * exfalso. destruct (live_header h1 l1 0 sz2 (ho_list _ _ _ _ K1)) as [C _]; [|tauto].
        eapply Permutation_in; [symmetry; exact K3|left; reflexivity].
    + destruct K3 as [[? _]|(sz2 & K3 & _ & K4)]; [lia|].
      assert (Hin1 : In (p, sz) (live l1))
        by (eapply Permutation_in; [symmetry; exact K4|right; exact Hin]).
      assert (Hin2 : In (p2, sz2) (live l1))
        by (eapply Permutation_in; [symmetry; exact K4|left; reflexivity]).
      destruct (live_header _ _ _ _ (ho_list _ _ _ _ K1) Hin1) as (_ & _ & _ & _ & _ & _ & ->).
      destruct (live_header _ _ _ _ (ho_list _ _ _ _ K1) Hin2) as (_ & _ & _ & _ & H16 & _).
      assert (Hsz2 : sz <= sz2) by (clear -Ha1 Ha2 Hlt K3 H16 Hsz; zlia).
      destruct (realloc_move_spec h l fr others p sz size h1 p2 l1 fr1 sz2 Hok Hin K1 K2 K3 Hsz2 K4)
        as (h' & l' & rest & -> & J1 & J2 & J3 & J4 & J5). cbn [mbind res_bind].
      exists p2, h', l', fr1. split_and!; auto; [|tauto]. right. exists sz2, rest. split_and!; auto.
      intros i Hi. apply J5. lia.
Qed.

Lemma kcalloc_spec h l fr others count size :
  heap_ok h l fr others -> 0 < count -> 0 < size ->
  count < 18446744073709551616 -> size < 18446744073709551616 ->
  (count * size < 18446744073709551616 -> count * size + 131072 <= 18446744073709551616) ->
  exists p h' l' fr', kcalloc h count size = Ret (p, h') /\ heap_ok h' l' fr' others
    /\ contents_same (kh_mem h) (kh_mem h') (live l)
    /\ (p = 0 /\ live l' = live l
        \/ count * size < 18446744073709551616
           /\ exists sz, count * size <= sz /\ Permutation (live l') ((p, sz) :: live l)
              /\ forall i, 0 <= i < count * size -> u8 (kh_mem h' (p + i)) = 0).
Proof.
  intros Hok Hc Hs Hc64 Hs64 Hbig. unfold kcalloc. destruct (Z.eqb_spec size 0) as [?|_]; [lia|].
  cbn [negb andb]. destruct (Z.ltb_spec (18446744073709551615 / size) count) as [Hov|Hov].
  { exists 0, h, l, fr. split_and!; auto. intros ? ? ? _ _. reflexivity. }
  assert (Hlt : count * size < 18446744073709551616).
  { assert (count * size <= 18446744073709551615 / size * size) by (apply Z.mul_le_mono_nonneg_r; lia).
    pose proof (Z.mul_div_le 18446744073709551615 size Hs). lia. }
  assert (0 < count * size) by (apply Z.mul_pos_pos; lia).
  rewrite u64_id by (unfold is_u64; lia). specialize (Hbig Hlt).
  destruct (kmalloc_spec h l fr others (count * size) Hok ltac:(lia) Hbig)
    as (p & h1 & l1 & fr1 & -> & K1 & K2 & K3). cbn [mbind res_bind].
  destruct (Z.eqb_spec p 0) as [->|Hp]; cbn [negb].
  - destruct K3 as [(_ & K3 & _)|(sz & _ & _ & K3)].
    + exists 0, h1, l1, fr1. split_and!; auto.
    + exfalso. destruct (live_header h1 l1 0 sz (ho_list _ _ _ _ K1)) as [C _]; [|tauto].
      eapply Permutation_in; [symmetry; exact K3|left; reflexivity].
  - destruct K3 as [[? _]|(sz & K3 & _ & K4)]; [lia|].
    assert (Hin : In (p, sz) (live l1))
      by (eapply Permutation_in; [symmetry; exact K4|left; reflexivity]).
    set (bs := repeat (u8 0) (Z.to_nat (count * size))).
    assert (Hbs : Z.of_nat (length bs) = count * size) by (unfold bs; rewrite repeat_length; lia).
    exists p, (with_mem h1 (mem_write (kh_mem h1) p bs)), l1, fr1. split; [reflexivity|]. split_and!.
    + apply (write_payload_ok _ _ _ _ p sz); auto; lia.
    + eapply contents_same_trans; [exact K2|].
      apply (write_payload_contents h1 l1 p sz); auto; [apply K1|lia|lia].
    + right. split; [exact Hlt|]. exists sz. split_and!; auto. intros i Hi.
      cbn [with_mem kh_mem]. rewrite mem_write_in by lia. unfold bs. rewrite nth_repeat. reflexivity.
Qed.

(** ** Validation and statistics *)

Lemma validate_from_spec h e fuel : forall prev cur l pos calc,
  kh_heap_start h = KHEAP_BASE -> kh_heap_end h = e -> e <= KHEAP_BASE + KHEAP_MAX_SIZE ->
  KHEAP_BASE <= pos -> hseg (kh_mem h) prev cur l (kh_last_block h) 0 -> tiles pos l e ->
  no_adjacent_free l -> (length l < fuel)%nat ->
  0 <= calc -> calc + live_bytes l < 18446744073709551616 ->
  validate_from fuel h cur prev calc = Some (Some (kh_last_block h, calc + live_bytes l)).
Proof.
  induction fuel as [|fuel IH]; intros prev cur l pos calc Hs He Hm Hpos S T Hn Hf Hc0 Hc1; [lia|].
  cbn [validate_from]. destruct l as [|x l].
  { destruct S as [-> ->]. cbn. do 3 f_equal. lia. }
  cbn [hseg tiles length] in *. destruct S as (-> & n & R & S). destruct T as (<- & T1 & T2 & T3).
  destruct (rd_fields _ _ _ _ _ _ _ R) as (-> & -> & -> & -> & ->).
  pose proof (tiles_bounds _ _ _ T3) as [B1 _].
  destruct (bytes_bound _ _ _ T3) as (B2 & _).
  cbn [live_bytes fold_right] in *. fold (live_bytes l) in *.
  destruct (Z.eqb_spec (hb_addr x) 0) as [?|_]; [heap_consts; lia|].
  rewrite block_payload_at by (heap_consts; lia).
  rewrite (u64_id (hb_addr x + 32 + hb_size x)) by (heap_consts; lia).
  change (HEAP_ALIGN - 1) with (2 ^ 4 - 1). rewrite land_low by lia. change (2 ^ 4) with 16.
  rewrite T2, Hs, He, !Z.eqb_refl. cbn [negb orb].
  destruct (Z.ltb_spec (hb_addr x) KHEAP_BASE); [lia|].
  destruct (Z.leb_spec e (hb_addr x)); [heap_consts; lia|].
  destruct (Z.ltb_spec (hb_addr x + 32) (hb_addr x)); [lia|].
  destruct (Z.ltb_spec (hb_addr x + 32 + hb_size x) (hb_addr x + 32)); [lia|].
  destruct (Z.ltb_spec e (hb_addr x + 32 + hb_size x)); [heap_consts; lia|]. cbn [orb].
  assert (Hadj : hb_free x && negb (n =? 0) && blk_free (kh_mem h) n = false).
  { destruct l as [|y l]; [destruct S as [_ ->]; cbn; rewrite andb_false_r; reflexivity|].
    cbn [hseg] in S. destruct S as (-> & n' & R' & _).
    destruct (rd_fields _ _ _ _ _ _ _ R') as (_ & -> & _). destruct Hn as [Hn _].
    destruct (hb_free x); [|reflexivity]. cbn in Hn. rewrite Hn. apply andb_false_r. }
  rewrite Hadj, (IH _ _ l (hb_end x)); auto; try (heap_consts; lia).
  - do 3 f_equal. destruct (hb_free x); [lia|]. rewrite u64_id; [lia|]. unfold is_u64. lia.
  - exact (no_adjacent_tail _ _ Hn).
  - destruct (hb_free x); [lia|]. apply u64_range.
  - destruct (hb_free x); [lia|]. rewrite u64_id; [lia|]. unfold is_u64. lia.
Qed.

Lemma kheap_validate_spec h l fr others :
  heap_ok h l fr others -> kheap_validate h = Ret true.
Proof.
  intros Hok. pose proof (heap_ok_allocated _ _ _ _ Hok) as Hau.
  destruct Hok as [Hl Hn Ha _ _ _ _]. unfold kheap_validate. rewrite (hl_init _ _ Hl). cbn [negb].
  destruct (heap_list_facts _ _ Hl) as [Hf _]. destruct Hl as [I0 I1 S T E].
  rewrite (validate_from_spec h (kh_heap_end h) heap_fuel 0 _ l KHEAP_BASE 0);
    auto; try lia; try (unfold is_u64 in Hau; lia).
  cbn [of_fuel mbind res_bind]. rewrite Z.eqb_refl, Z.add_0_l, Ha, Z.eqb_refl. reflexivity.
Qed.

Lemma sum_free_from_spec m fuel : forall prev cur l last acc,
  hseg m prev cur l last 0 -> (forall x, In x l -> hb_addr x <> 0 /\ 0 <= hb_size x) ->
  (length l < fuel)%nat -> 0 <= acc -> acc + free_bytes l < 18446744073709551616 ->
  sum_free_from fuel m cur acc = Some (acc + free_bytes l).
Proof.
  induction fuel as [|fuel IH]; intros prev cur l last acc S Hz Hf H1 H2; [lia|].
  cbn [sum_free_from]. destruct l as [|x l]; cbn [hseg length] in *.
  { destruct S as [_ ->]. cbn. f_equal. lia. }
  destruct S as (-> & n & R & S). destruct (rd_fields _ _ _ _ _ _ _ R) as (_ & -> & -> & _ & ->).
  destruct (Hz x (or_introl eq_refl)) as [Hx0 Hxs].
  destruct (Z.eqb_spec (hb_addr x) 0) as [E|_]; [tauto|].
  assert (Hfb : 0 <= free_bytes l).
  { assert (Hz' : forall y, In y l -> 0 <= hb_size y) by (intros y Hy; apply Hz; right; exact Hy).
    clear -Hz'. induction l as [|y l IHl]; cbn; [lia|]. fold (free_bytes l).
    specialize (Hz' y (or_introl eq_refl)) as Hy.
    assert (0 <= free_bytes l) by (apply IHl; intros z Hz; apply Hz'; right; exact Hz).
    destruct (hb_free y); lia. }
  cbn [free_bytes fold_right] in *. fold (free_bytes l) in *.
  assert (Hz' : forall y, In y l -> hb_addr y <> 0 /\ 0 <= hb_size y)
    by (intros y Hy; apply Hz; right; exact Hy).
  destruct (hb_free x).
  - rewrite u64_id by (unfold is_u64; lia). rewrite (IH (hb_addr x) n l last); auto; try lia; f_equal; lia.
  - rewrite (IH (hb_addr x) n l last); auto; try lia; f_equal; lia.
Qed.

Lemma kheap_get_stats_spec h l fr others :
  heap_ok h l fr others ->
  kheap_get_stats h
  = Ret (mk_heap_stats (kh_heap_end h - KHEAP_BASE) (live_bytes l) (free_bytes l)).
Proof.
  intros [Hl Hn Ha Hm _ _ _]. unfold kheap_get_stats.
  destruct (heap_list_facts _ _ Hl) as [Hf Hx]. destruct Hl as [I0 I1 S T E].
  destruct (bytes_bound _ _ _ T) as (B1 & B2 & B3).
  rewrite (sum_free_from_spec _ heap_fuel 0 _ l (kh_last_block h)); auto; try lia.
  - cbn. rewrite Ha, Hm. reflexivity.
  - intros x Hi. specialize (Hx x Hi). tauto.
  - heap_consts. lia.
Qed.

(** ** The contract of the heap *)

(** A well-formed heap whose live allocations are [ps], in some order. *)
Definition heap_state h (ps : list (Z * Z)) (others : list Z) : Prop :=
  exists l fr, heap_ok h l fr others /\ Permutation (live l) ps.

Lemma heap_state_init s m others : pages_ok s others -> heap_state (kheap_init s m) [] others.
Proof.
  intros Hp. exists [], []. split; [|reflexivity]. split; try (reflexivity || exact Hp || exact I).
  - split; try reflexivity; [split; reflexivity|]. vm_compute. discriminate.
  - intros i p Hi. discriminate.
Qed.

Lemma heap_state_perm h ps ps' others :
  Permutation ps ps' -> heap_state h ps others -> heap_state h ps' others.
Proof. intros Hp (l & fr & H1 & H2). exists l, fr. split; [exact H1|]. rewrite H2. exact Hp. Qed.

(** Requests a size for which the size computations of heap.c do not wrap. *)
Definition request_ok (size : Z) : Prop := 0 < size /\ size + 131072 <= 18446744073709551616.

Lemma contents_same_perm m m' ps qs :
  Permutation ps qs -> contents_same m m' ps -> contents_same m m' qs.
Proof.
  intros Hp. apply contents_same_incl. intros q Hq. eapply Permutation_in; [symmetry; exact Hp|exact Hq].
Qed.

Lemma kmalloc_state h ps others size :
  heap_state h ps others -> request_ok size ->
  exists p h', kmalloc h size = Ret (p, h') /\ contents_same (kh_mem h) (kh_mem h') ps
    /\ (p = 0 /\ heap_state h' ps others /\ no_room h size
        \/ exists sz, size <= sz /\ p mod 16 = 0 /\ heap_state h' ((p, sz) :: ps) others).
Proof.
  intros (l & fr & Hok & Hp) [Hs1 Hs2].
  destruct (kmalloc_spec h l fr others size Hok Hs1 Hs2) as (p & h' & l' & fr' & E & K1 & K2 & K3).
  exists p, h'. split; [exact E|]. split; [eapply contents_same_perm; eauto|].
  destruct K3 as [(-> & K3 & Kn)|(sz & S1 & S2 & K3)].
  - left. split; [reflexivity|]. split; [|exact Kn]. exists l', fr'. rewrite K3. auto.
  - right. exists sz. split_and!; auto. exists l', fr'. split; [exact K1|]. rewrite K3, Hp. reflexivity.
Qed.

Lemma kfree_state h ps others p sz :
  heap_state h ((p, sz) :: ps) others ->
  exists h', kfree h p = Ret h' /\ heap_state h' ps others
    /\ contents_same (kh_mem h) (kh_mem h') ps.
Proof.
  intros (l & fr & Hok & Hp).
  destruct (kfree_spec h l fr others p sz Hok) as (h' & l' & E & K1 & K2 & K3).
  { eapply Permutation_in; [symmetry; exact Hp|left; reflexivity]. }
  assert (Hq : Permutation (live l') ps)
    by (apply (Permutation_cons_inv (a := (p, sz))); rewrite <- K2; exact Hp).
  exists h'. split_and!; auto; [exists l', fr; auto|eapply contents_same_perm; eauto].
Qed.

Lemma krealloc_state h ps others p sz size :
  heap_state h ((p, sz) :: ps) others -> request_ok size ->
  exists p' h', krealloc h p size = Ret (p', h') /\ contents_same (kh_mem h) (kh_mem h') ps
    /\ (p' = 0 /\ heap_state h' ((p, sz) :: ps) others
           /\ contents_same (kh_mem h) (kh_mem h') [(p, sz)] /\ no_room h size
        \/ exists sz', size <= sz' /\ heap_state h' ((p', sz') :: ps) others
           /\ bytes_moved (kh_mem h) (kh_mem h') p p' (Z.min sz size)).
Proof.
  intros (l & fr & Hok & Hp) [Hs1 Hs2].
  assert (Hin : In (p, sz) (live l)) by (eapply Permutation_in; [symmetry; exact Hp|left; reflexivity]).
  destruct (krealloc_spec h l fr others p sz size Hok Hin Hs1 Hs2)
    as (p' & h' & l' & fr' & E & K1 & [(-> & K2 & K3)|(sz' & rest & _ & K2 & K3 & K4 & K5 & K6)] & Kn).
  - exists 0, h'. split; [exact E|]. apply (contents_same_perm _ _ _ _ Hp) in K3. split.
    + eapply contents_same_incl; [|exact K3]. intros q Hq. right. exact Hq.
    + left. split_and!; auto; [exists l', fr'; rewrite K2; auto|].
      eapply contents_same_incl; [|exact K3]. intros q [<-|[]]. left. reflexivity.
  - assert (Hr : Permutation rest ps)
      by (apply (Permutation_cons_inv (a := (p, sz))); rewrite <- K3; exact Hp).
    exists p', h'. split; [exact E|]. split; [eapply contents_same_perm; eauto|]. right.
    exists sz'. split_and!; auto. exists l', fr'. split; [exact K1|]. rewrite K4, Hr. reflexivity.
Qed.

Lemma write_state h ps others p sz a bs :
  heap_state h ps others -> In (p, sz) ps -> p <= a -> a + Z.of_nat (length bs) <= p + sz ->
  heap_state (with_mem h (mem_write (kh_mem h) a bs)) ps others.
Proof.
  intros (l & fr & Hok & Hp) Hin H1 H2. exists l, fr. split; [|exact Hp].
  eapply write_payload_ok; eauto. eapply Permutation_in; [symmetry; exact Hp|exact Hin].
Qed.

(** What the kernel does with its heap; the second component lists the
    allocations it holds with the sizes it asked for. *)
Inductive heap_step : kheap P * list (Z * Z) -> kheap P * list (Z * Z) -> Prop :=
  | hs_malloc h h' ps size p :
      request_ok size -> kmalloc h size = Ret (p, h') -> p <> 0 ->
      heap_step (h, ps) (h', (p, size) :: ps)
  | hs_malloc_fail h h' ps size :
      request_ok size -> kmalloc h size = Ret (0, h') -> heap_step (h, ps) (h', ps)
  | hs_free h h' ps1 ps2 p size :
      kfree h p = Ret h' -> heap_step (h, ps1 ++ (p, size) :: ps2) (h', ps1 ++ ps2)
  | hs_realloc h h' ps1 ps2 p size p' size' :
      request_ok size' -> krealloc h p size' = Ret (p', h') -> p' <> 0 ->
      heap_step (h, ps1 ++ (p, size) :: ps2) (h', ps1 ++ (p', size') :: ps2)
  | hs_realloc_fail h h' ps1 ps2 p size size' :
      request_ok size' -> krealloc h p size' = Ret (0, h') ->
      heap_step (h, ps1 ++ (p, size) :: ps2) (h', ps1 ++ (p, size) :: ps2)
  | hs_write h ps p size a bs :
      In (p, size) ps -> p <= a -> a + Z.of_nat (length bs) <= p + size ->
      heap_step (h, ps) (with_mem h (mem_write (kh_mem h) a bs), ps).

(** The block behind an allocation is at least as large as was asked. *)
Definition covers (a q : Z * Z) : Prop := fst a = fst q /\ 0 < snd a <= snd q.

Definition heap_sys_inv (others : list Z) (c : kheap P * list (Z * Z)) : Prop :=
  exists qs, heap_state (fst c) qs others /\ Forall2 covers (snd c) qs.

Lemma heap_state_nonzero h q sz qs others : heap_state h ((q, sz) :: qs) others -> q <> 0.
Proof.
  intros (l & fr & Hok & Hp). eapply live_header; [apply Hok|].
  eapply Permutation_in; [symmetry; exact Hp|left; reflexivity].
Qed.

Lemma heap_step_inv others c c' : heap_sys_inv others c -> heap_step c c' -> heap_sys_inv others c'.
Proof.
  intros (qs & Hs & Hc) Hstep.
  assert (Hmid : forall ps1 p size ps2, Forall2 covers (ps1 ++ (p, size) :: ps2) qs ->
    exists q1 sz q2, qs = q1 ++ (p, sz) :: q2 /\ Forall2 covers ps1 q1 /\ Forall2 covers ps2 q2
      /\ size <= sz /\ heap_state (fst c) ((p, sz) :: q1 ++ q2) others).
  { intros ps1 p size ps2 Hf. apply Forall2_app_inv_l in Hf as (q1 & q2' & F1 & F2 & ->).
    inversion F2 as [|? [q sz] ? q2 [Eq Hle] F3]; subst. cbn in Eq, Hle. subst q.
    exists q1, sz, q2. split_and!; auto; [lia|]. eapply heap_state_perm; [|exact Hs].
    symmetry. apply Permutation_middle. }
  assert (Hback : forall h q1 a q2, heap_state h (a :: q1 ++ q2) others ->
    heap_state h (q1 ++ a :: q2) others)
    by (intros h q1 a q2; apply heap_state_perm, Permutation_middle).
  inversion Hstep; subst; cbn [fst snd] in *.
  - destruct (kmalloc_state _ _ _ _ Hs H1) as (p' & h2 & E & _ & K). rewrite E in *. simplify_eq.
    destruct K as [[? _]|(sz & K1 & _ & K2)]; [tauto|]. exists ((p, sz) :: qs). split; [exact K2|].
    constructor; [|exact Hc]. destruct H1. split; cbn; [reflexivity|lia].
  - destruct (kmalloc_state _ _ _ _ Hs H1) as (p' & h2 & E & _ & K). rewrite E in *. simplify_eq.
    destruct K as [(_ & K & _)|(sz & _ & _ & K)]; [exists qs; auto|].
    apply heap_state_nonzero in K. tauto.
  - destruct (Hmid _ _ _ _ Hc) as (q1 & sz & q2 & -> & F1 & F2 & Hle & Hs').
    destruct (kfree_state _ _ _ _ _ Hs') as (h2 & E & K & _). rewrite E in *. simplify_eq.
    exists (q1 ++ q2). split; [exact K|]. apply Forall2_app; assumption.
  - destruct (Hmid _ _ _ _ Hc) as (q1 & sz & q2 & -> & F1 & F2 & Hle & Hs').
    destruct (krealloc_state _ _ _ _ _ _ Hs' H1) as (p2 & h2 & E & _ & K). rewrite E in *. simplify_eq.
    destruct K as [[? _]|(sz' & K1 & K2 & _)]; [tauto|].
    exists (q1 ++ (p', sz') :: q2). split; [apply Hback, K2|]. apply Forall2_app; [exact F1|].
    constructor; [|exact F2]. destruct H1. split; cbn; [reflexivity|lia].
  - destruct (Hmid _ _ _ _ Hc) as (q1 & sz & q2 & Eq & F1 & F2 & Hle & Hs').
    destruct (krealloc_state _ _ _ _ _ _ Hs' H1) as (p2 & h2 & E & _ & K). rewrite E in *. simplify_eq.
    destruct K as [(_ & K & _)|(sz' & _ & K & _)].
    + exists (q1 ++ (p, sz) :: q2). split; [apply Hback, K|exact Hc].
    + apply heap_state_nonzero in K. tauto.
  - exists qs. split; [|exact Hc]. apply List.in_split in H1 as (ps1 & ps2 & ->).
    destruct (Hmid _ _ _ _ Hc) as (q1 & sz & q2 & -> & _ & _ & Hle & Hs').
    eapply (write_state _ _ _ p sz); [exact Hs|apply in_elt|lia|lia].
Qed.

Lemma heap_sys_reach others c c' :
  rtc heap_step c c' -> heap_sys_inv others c -> heap_sys_inv others c'.
Proof. induction 1; eauto using heap_step_inv. Qed.

(** Allocations that do not overlap. *)
Definition apart (a b : Z * Z) : Prop := fst a + snd a <= fst b \/ fst b + snd b <= fst a.

Lemma heap_state_apart h qs others : heap_state h qs others -> ForallOrdPairs apart qs.
Proof.
  intros (l & fr & Hok & Hp). assert (Hl := ho_list _ _ _ _ Hok).
  assert (Hgen : forall q1 q2, Permutation (live l) (q1 ++ q2) -> ForallOrdPairs apart q2).
  { intros q1 q2. revert q1; induction q2 as [|[q sz] q2 IH]; intros q1 Hq; constructor.
    - apply List.Forall_forall. intros [q' sz'] Hin. unfold apart. cbn.
      eapply live_disjoint; [exact Hl| |].
      + rewrite Hq. symmetry. apply Permutation_middle.
      + apply in_or_app. right. exact Hin.
    - apply (IH (q1 ++ [(q, sz)])). rewrite <- app_assoc. exact Hq. }
  apply (Hgen [] qs Hp).
Qed.

Lemma covers_apart ps qs : Forall2 covers ps qs -> ForallOrdPairs apart qs -> ForallOrdPairs apart ps.
Proof.
  induction 1 as [|a q ps qs [E1 E2] F IH]; intros Ho; [constructor|].
  inversion Ho as [|? ? Ho1 Ho2]; subst. constructor; [|auto]. clear IH Ho Ho2.
  induction F as [|b r ps qs [G1 G2] F IH]; constructor; inversion Ho1; subst; auto.
  unfold apart in *. rewrite E1, G1. lia.
Qed.

Lemma kmalloc_result h h' ps others size p :
  heap_state h ps others -> request_ok size -> kmalloc h size = Ret (p, h') -> p <> 0 ->
  exists sz, size <= sz /\ heap_state h' ((p, sz) :: ps) others.
Proof.
  intros Hs Hr E Hp. destruct (kmalloc_state h ps others size Hs Hr) as (p2 & h2 & E2 & _ & K).
  rewrite E2 in E. injection E as -> ->. destruct K as [[? _]|(sz & K1 & _ & K2)]; [tauto|eauto].
Qed.

(** ** Properties *)

(** C2. [kmalloc] on a well-formed heap, for every size whose rounding does not
    wrap: it returns without a panic; either NULL, the allocations are as before,
    no free block is large enough and the heap cannot grow by one, or a 16-byte
    aligned block of at least the size asked for that
    overlaps no allocation; and no byte of an existing allocation changes. The
    heap stays well formed: its blocks tile the mapped pages, no two free blocks
    are adjacent, and its pages are frames nobody else holds. *)
Theorem kmalloc_correct h ps others size :
  heap_state h ps others -> request_ok size ->
  exists p h', kmalloc h size = Ret (p, h') /\ contents_same (kh_mem h) (kh_mem h') ps
    /\ (p = 0 /\ heap_state h' ps others /\ no_room h size
        \/ exists sz, size <= sz /\ p mod 16 = 0 /\ heap_state h' ((p, sz) :: ps) others
             /\ Forall (apart (p, sz)) ps).
Proof.
  intros Hs Hr. destruct (kmalloc_state h ps others size Hs Hr) as (p & h' & E & C & K).
  exists p, h'. split_and!; auto. destruct K as [K|(sz & K1 & K2 & K3)]; [left; exact K|].
  right. exists sz. split_and!; auto. apply heap_state_apart in K3. inversion K3. assumption.
Qed.

(** C3. [kfree] of a live allocation passes both assertions, removes exactly
    that allocation and changes no byte of the others. *)
Theorem kfree_correct h ps others p sz :
  heap_state h ((p, sz) :: ps) others ->
  exists h', kfree h p = Ret h' /\ heap_state h' ps others
    /\ contents_same (kh_mem h) (kh_mem h') ps.
Proof. apply kfree_state. Qed.

(** C4. [krealloc] of a live allocation: on failure it returns NULL, there
    is no room for the new size and the old block is untouched; on success the block has at least the new size, its
    first bytes are those of the old block, and no other allocation changes. *)
Theorem krealloc_correct h ps others p sz size :
  heap_state h ((p, sz) :: ps) others -> request_ok size ->
  exists p' h', krealloc h p size = Ret (p', h') /\ contents_same (kh_mem h) (kh_mem h') ps
    /\ (p' = 0 /\ heap_state h' ((p, sz) :: ps) others
           /\ contents_same (kh_mem h) (kh_mem h') [(p, sz)] /\ no_room h size
        \/ exists sz', size <= sz' /\ heap_state h' ((p', sz') :: ps) others
           /\ bytes_moved (kh_mem h) (kh_mem h') p p' (Z.min sz size)).
Proof. apply krealloc_state. Qed.

(** [kcalloc] refuses a product that overflows, and otherwise returns NULL or
    a new block whose first [count * size] bytes are zero. *)
Theorem kcalloc_correct h ps others count size :
  heap_state h ps others -> 0 < count < 18446744073709551616 ->
  0 < size < 18446744073709551616 ->
  (count * size < 18446744073709551616 -> request_ok (count * size)) ->
  exists p h', kcalloc h count size = Ret (p, h') /\ contents_same (kh_mem h) (kh_mem h') ps
    /\ (p = 0 /\ heap_state h' ps others
        \/ count * size < 18446744073709551616
           /\ exists sz, count * size <= sz /\ heap_state h' ((p, sz) :: ps) others
              /\ forall i, 0 <= i < count * size -> u8 (kh_mem h' (p + i)) = 0).
Proof.
  intros (l & fr & Hok & Hp) Hc Hs Hr.
  destruct (kcalloc_spec h l fr others count size Hok) as (p & h' & l' & fr' & E & K1 & K2 & K3);
    try lia; [intros Hlt; apply Hr, Hlt|].
  exists p, h'. split_and!; auto; [eapply contents_same_perm; eauto|].
  destruct K3 as [[-> K3]|(Hlt & sz & K3 & K4 & K5)].
  - left. split; [reflexivity|]. exists l', fr'. rewrite K3. auto.
  - right. split; [exact Hlt|]. exists sz. split_and!; auto. exists l', fr'. split; [exact K1|].
    rewrite K4, Hp. reflexivity.
Qed.

(** C1. Every state the heap can reach from [kheap_init] by allocations, frees,
    reallocations and writes inside the blocks held: [kheap_validate] answers
    true, the blocks held do not overlap, [kfree] of any of them succeeds, and
    the statistics add up to the mapped region less the headers. *)
Theorem heap_reachable_valid s m others h ps :
  pages_ok s others -> rtc heap_step (kheap_init s m, []) (h, ps) ->
  kheap_validate h = Ret true /\ ForallOrdPairs apart ps
  /\ (forall p size, In (p, size) ps -> exists h', kfree h p = Ret h')
  /\ exists st, kheap_get_stats h = Ret st
       /\ hs_allocated_bytes st + hs_free_bytes st <= hs_mapped_bytes st.
Proof.
  intros Hp Hr.
  destruct (heap_sys_reach others _ _ Hr) as (qs & Hs & Hc).
  { exists []. split; [apply heap_state_init, Hp|constructor]. }
  cbn [fst snd] in Hs, Hc. split_and!.
  - destruct Hs as (l & fr & Hok & _). eapply kheap_validate_spec, Hok.
  - eapply covers_apart; [exact Hc|]. eapply heap_state_apart, Hs.
  - intros p size Hin. apply List.in_split in Hin as (ps1 & ps2 & ->).
    apply Forall2_app_inv_l in Hc as (q1 & q2 & F1 & F2 & ->).
    inversion F2 as [|? [q sz] ? q3 [Eq _] F3]; subst. cbn in Eq. subst q.
    destruct (kfree_state h (q1 ++ q3) others p sz) as (h' & E & _); [|eauto].
    eapply heap_state_perm; [|exact Hs]. symmetry. apply Permutation_middle.
  - destruct Hs as (l & fr & Hok & _). eexists. split; [eapply kheap_get_stats_spec, Hok|].
    cbn. destruct (bytes_bound _ _ _ (hl_tiles _ _ (ho_list _ _ _ _ Hok))). lia.
Qed.

(** The rounding of a request within 15 bytes of the largest size wraps to
    0: [kmalloc] then succeeds with a block of less than 48 bytes. *)
Theorem kmalloc_wraps h ps others size b :
  heap_state h ps others -> 18446744073709551601 <= size < 18446744073709551616 ->
  find_free_block h 0 = Ret b -> b <> 0 ->
  exists p h' sz, kmalloc h size = Ret (p, h') /\ p <> 0 /\ 0 <= sz < 48
    /\ heap_state h' ((p, sz) :: ps) others.
Proof.
  intros (l & fr & Hok & Hp) Hs Hf Hb. unfold kmalloc.
  rewrite (hl_init _ _ (ho_list _ _ _ _ Hok)). cbn [negb orb].
  destruct (Z.eqb_spec size 0) as [?|_]; [lia|].
  assert (Ha : align_up_size size HEAP_ALIGN = 0).
  { unfold align_up_size, align_up, HEAP_ALIGN.
    assert (Hw : u64 (size + 16 - 1) = size - 18446744073709551601) by zlia.
    rewrite Hw. change (16 - 1) with (2 ^ 4 - 1). rewrite land_not64 by (unfold is_u64; lia).
    change (2 ^ 4) with 16. zlia. }
  rewrite Ha, Hf. cbn [mbind res_bind]. apply Z.eqb_neq in Hb as Hb'. rewrite Hb'.
  cbn [mbind res_bind]. rewrite Hb'.
  rewrite (find_free_block_spec h l 0 (ho_list _ _ _ _ Hok)) in Hf. injection Hf as Hf.
  destruct (List.find (fits 0) l) as [x|] eqn:E; [|congruence]. subst b.
  apply find_split in E as (l1 & l2 & -> & Hx). unfold fits in Hx. b2p.
  destruct (heap_list_facts _ _ (ho_list _ _ _ _ Hok)) as [_ F].
  specialize (F x (in_elt x l1 l2)). destruct F as (_ & F2 & F3 & F4).
  destruct (take_block h l1 x l2 fr others 0 Hok H1 ltac:(lia) eq_refl) as (l' & sz & K1 & K2 & K3 & _).
  rewrite block_payload_at by (heap_consts; lia).
  eexists _, _, sz. split; [reflexivity|]. split_and!; try lia; [heap_consts; lia|].
  exists l', fr. split; [exact K1|]. rewrite K3, Hp. reflexivity.
Qed.
End HeapInv.

(** ** Witnesses: the heap over the demonstration page tables *)

Lemma demo_pages_state : pages_ok demo_vmm [].
Proof.
  split; [rewrite demo_vmm_pml4; exact demo_root_nonzero|].
  exists (rev demo_pages). rewrite demo_vmm_pml4. exact demo_vmm_inv.
Qed.

Definition demo_heap : kheap vmm := kheap_init demo_vmm (fun _ => 0).

Lemma demo_heap_state : heap_state demo_heap [] [].
Proof. apply heap_state_init, demo_pages_state. Qed.

Lemma demo_request : request_ok 100.
Proof. split; lia. Qed.

Definition demo_ptr : Z := KHEAP_BASE + 32.

(** The heap after [kmalloc(100)]. *)
Definition demo_heap1 : kheap vmm :=
  match kmalloc demo_heap 100 with Ret (_, h) => h | _ => demo_heap end.

Lemma demo_heap1_ok : kmalloc demo_heap 100 = Ret (demo_ptr, demo_heap1).
Proof.
  unfold demo_heap1.
  assert (Hp : match kmalloc demo_heap 100 with Ret (p, _) => p | _ => 0 end = demo_ptr)
    by (vm_compute; reflexivity).
  destruct (kmalloc demo_heap 100) as [[p h]| |]; [|discriminate|discriminate].
  rewrite Hp. reflexivity.
Qed.

Lemma demo_heap1_state : exists sz, heap_state demo_heap1 [(demo_ptr, sz)] [].
Proof.
  destruct (kmalloc_result demo_heap demo_heap1 [] [] 100 demo_ptr demo_heap_state demo_request
              demo_heap1_ok ltac:(discriminate)) as (sz & _ & Hs).
  exists sz. exact Hs.
Qed.

Lemma kmalloc_correct_witness : exists p h', kmalloc demo_heap 100 = Ret (p, h').
Proof.
  destruct (kmalloc_correct demo_heap [] [] 100 demo_heap_state demo_request) as (p & h' & E & _).
  exists p, h'. exact E.
Defined.

Lemma kfree_correct_witness : exists h', kfree demo_heap1 demo_ptr = Ret h'.
Proof.
  destruct demo_heap1_state as [sz Hs].
  destruct (kfree_correct demo_heap1 [] [] demo_ptr sz Hs) as (h' & E & _).
  exists h'. exact E.
Defined.

Lemma krealloc_correct_witness : exists p h', krealloc demo_heap1 demo_ptr 100 = Ret (p, h').
Proof.
  destruct demo_heap1_state as [sz Hs].
  destruct (krealloc_correct demo_heap1 [] [] demo_ptr sz 100 Hs demo_request) as (p & h' & E & _).
  exists p, h'. exact E.
Defined.

Lemma kcalloc_correct_witness : exists p h', kcalloc demo_heap 4 8 = Ret (p, h').
Proof.
  destruct (kcalloc_correct demo_heap [] [] 4 8 demo_heap_state) as (p & h' & E & _).
  - lia.
  - lia.
  - intros _. split; lia.
  - exists p, h'. exact E.
Defined.

Lemma heap_reachable_valid_witness :
  rtc heap_step (demo_heap, []) (demo_heap1, [(demo_ptr, 100)])
  /\ kheap_validate demo_heap1 = Ret true.
Proof.
  assert (Hr : rtc heap_step (demo_heap, []) (demo_heap1, [(demo_ptr, 100)])).
  { apply rtc_once. apply hs_malloc; [exact demo_request|exact demo_heap1_ok|discriminate]. }
  split; [exact Hr|].
  apply (heap_reachable_valid demo_vmm (fun _ => 0) [] demo_heap1 _ demo_pages_state Hr).
Defined.

Lemma demo_heap1_free : match find_free_block demo_heap1 0 with Ret b => negb (b =? 0) | _ => false end = true.
Proof. vm_compute. reflexivity. Qed.

Lemma kmalloc_wraps_witness :
  exists p h' sz, kmalloc demo_heap1 18446744073709551615 = Ret (p, h') /\ p <> 0 /\ 0 <= sz < 48.
Proof.
  destruct demo_heap1_state as [s Hs]. pose proof demo_heap1_free as Hb.
  destruct (find_free_block demo_heap1 0) as [b| |] eqn:Hf; [|discriminate|discriminate].
  apply negb_true_iff, Z.eqb_neq in Hb.
  destruct (kmalloc_wraps demo_heap1 _ [] 18446744073709551615 b Hs ltac:(lia) Hf Hb)
    as (p & h' & sz & E & H1 & H2 & _).
  exists p, h', sz. auto.
Defined.
