(* ===== verification/Libc.v ===== *)
(** * Kernel libc: strings and memory blocks (src/libc/string.c, src/libc/mem.c)

    The loops of the two files, byte by byte over the flat memory. A scan for
    the end of a string takes fuel, since it is unbounded on memory without a
    terminator; the theorems show that one step more than the length is enough.
    [int] results are plain integers: differences of two bytes. *)

From S2P Require Import Prelude.

(** ** string.c *)

Definition chr (m : mem) (a : Z) : Z := load8 m a.

Definition strlen (fuel : nat) (m : mem) (s : Z) : option Z :=
  match while_loop (R := Z) fuel (fun len => negb (chr m (s + len) =? 0))
          (fun len => Cont (u64 (len + 1))) 0 with
  | Some c => Some (loop_state c)
  | None => None
  end.

Definition strnlen (fuel : nat) (m : mem) (s maxlen : Z) : option Z :=
  match while_loop (R := Z) fuel (fun len => (len <? maxlen) && negb (chr m (s + len) =? 0))
          (fun len => Cont (u64 (len + 1))) 0 with
  | Some c => Some (loop_state c)
  | None => None
  end.

Definition strcmp (fuel : nat) (m : mem) (s1 s2 : Z) : option Z :=
  match while_loop (R := Z * Z) fuel
          (fun '(p1, p2) => negb (chr m p1 =? 0) && (chr m p1 =? chr m p2))
          (fun '(p1, p2) => Cont (p1 + 1, p2 + 1)) (s1, s2) with
  | Some c => let '(p1, p2) := loop_state c in Some (chr m p1 - chr m p2)
  | None => None
  end.

Definition strncmp (m : mem) (s1 s2 n : Z) : Z :=
  match range_loop 0 n 1 (fun i (_ : unit) =>
          let c1 := chr m (s1 + i) in
          let c2 := chr m (s2 + i) in
          if negb (c1 =? c2) || (c1 =? 0) then Break (c1 - c2) else Cont tt) tt with
  | Cont _ => 0
  | Break r => r
  end.

(** The loop of [strcpy]: copy a character, then stop if it was the terminator. *)
Fixpoint strcpy_loop (fuel : nat) (m : mem) (dest src : Z) : option mem :=
  match fuel with
  | O => None
  | S fuel =>
      let c := chr m src in
      let m := store8 m dest c in
      if negb (c =? 0) then strcpy_loop fuel m (dest + 1) (src + 1) else Some m
  end.

Definition strcpy (fuel : nat) (m : mem) (dest src : Z) : option (Z * mem) :=
  match strcpy_loop fuel m dest src with Some m => Some (dest, m) | None => None end.

(** The first loop of [strncpy] leaves with its counter at the terminator. *)
Definition strncpy (m : mem) (dest src n : Z) : Z * mem :=
  let '(i, m) :=
    loop_state (range_loop 0 n 1 (fun i '(_, m) =>
      if negb (chr m (src + i) =? 0) then Cont (i + 1, store8 m (dest + i) (chr m (src + i)))
      else Break (i, m)) (0, m)) in
  let m := loop_state (range_loop i n 1 (fun i m => Cont (store8 m (dest + i) 0)) m) in
  (dest, m).

(** 0 is NULL. *)
Fixpoint strchr (fuel : nat) (m : mem) (s c : Z) : option Z :=
  match fuel with
  | O => None
  | S fuel =>
      if chr m s =? u8 c then Some s
      else if chr m s =? 0 then Some 0
      else strchr fuel m (s + 1) c
  end.

Fixpoint strrchr_loop (fuel : nat) (m : mem) (s ch last : Z) : option Z :=
  match fuel with
  | O => None
  | S fuel =>
      let last := if chr m s =? ch then s else last in
      if chr m s =? 0 then Some last else strrchr_loop fuel m (s + 1) ch last
  end.

Definition strrchr (fuel : nat) (m : mem) (s c : Z) : option Z :=
  strrchr_loop fuel m s (u8 c) 0.

(** ** mem.c *)

Definition memcpy (m : mem) (dest src n : Z) : mem :=
  loop_state (range_loop 0 n 1 (fun i m => Cont (store8 m (dest + i) (chr m (src + i)))) m).

Definition memset (m : mem) (s c n : Z) : mem :=
  loop_state (range_loop 0 n 1 (fun i m => Cont (store8 m (s + i) c)) m).

Definition memmove (m : mem) (dest src n : Z) : mem :=
  if dest <? src then
    loop_state (range_loop 0 n 1 (fun i m => Cont (store8 m (dest + i) (chr m (src + i)))) m)
  else if src <? dest then
    (* for (i = n; i > 0; i--) *)
    loop_state (for_loop (Z.to_nat n) n (-1)
      (fun i m => Cont (store8 m (dest + (i - 1)) (chr m (src + (i - 1))))) m)
  else m.

Definition memcmp (m : mem) (s1 s2 n : Z) : Z :=
  match range_loop 0 n 1 (fun i (_ : unit) =>
          let c1 := chr m (s1 + i) in
          let c2 := chr m (s2 + i) in
          if negb (c1 =? c2) then Break (if c1 <? c2 then -1 else 1) else Cont tt) tt with
  | Cont _ => 0
  | Break r => r
  end.

(** ** Specification *)

(** The string [str] is stored at [s] with its terminator. *)
Fixpoint cstring (m : mem) (s : Z) (str : list Z) : Prop :=
  match str with
  | [] => chr m s = 0
  | c :: r => c <> 0 /\ chr m s = c /\ cstring m (s + 1) r
  end.

(** The lexicographic comparison of two byte strings by their first
    difference; a string is smaller than its extensions. *)
Fixpoint str_compare (a b : list Z) : comparison :=
  match a, b with
  | [], [] => Eq
  | [], _ :: _ => Lt
  | _ :: _, [] => Gt
  | x :: a', y :: b' => match x ?= y with Eq => str_compare a' b' | o => o end
  end.

(** ** Lemmas *)

Lemma chr_byte m a : chr m a = u8 (m a).
Proof.
  unfold chr, load, mem_read. cbn [map seq le_word]. change (Z.of_nat 0) with 0.
  rewrite ?Z.mul_0_r, !Z.add_0_r. reflexivity.
Qed.

Lemma chr_range m a : 0 <= chr m a < 256.
Proof. rewrite chr_byte. apply u8_range. Qed.

Lemma store8_at m a v x : store8 m a v x = if x =? a then u8 v else m x.
Proof.
  unfold store. cbn [le_bytes]. unfold mem_write. cbn [length].
  destruct (Z.eqb_spec x a) as [->|Hne].
  - rewrite (proj2 (Z.leb_le a a)), (proj2 (Z.ltb_lt a (a + Z.of_nat 1))) by lia.
    rewrite Z.sub_diag. reflexivity.
  - destruct (Z.leb_spec a x), (Z.ltb_spec x (a + Z.of_nat 1)); cbn [andb]; try reflexivity. lia.
Qed.

(** Copying upwards, as long as no byte is overwritten before it is read. *)
Lemma copy_up m dest src n x :
  0 <= n -> dest <= src \/ src + n <= dest ->
  let m' := loop_state (range_loop 0 n 1
              (fun i m => Cont (store8 m (dest + i) (chr m (src + i)))) m) in
  m' x = if (dest <=? x) && (x <? dest + n) then u8 (m (src + (x - dest))) else m x.
Proof.
  intros Hn Hd. unfold range_loop. rewrite trips_unit by lia.
  apply (for_loop_ind
    (fun i m' => forall x, m' x = if (dest <=? x) && (x <? dest + i)
                                  then u8 (m (src + (x - dest))) else m x)
    (fun c => loop_state c x = if (dest <=? x) && (x <? dest + n)
                               then u8 (m (src + (x - dest))) else m x)).
  - intros y. destruct (Z.leb_spec dest y), (Z.ltb_spec y (dest + 0)); cbn; lia || reflexivity.
  - intros k m' Hk IH y. rewrite store8_at, chr_byte, u8_idem.
    rewrite !Z.mul_1_r, !Z.add_0_l in *.
    destruct (Z.eqb_spec y (dest + k)) as [->|Hne].
    + destruct (Z.leb_spec dest (dest + k)), (Z.ltb_spec (dest + k) (dest + (k + 1))); cbn; try lia.
      rewrite IH. replace (dest + k - dest) with k by lia.
      destruct (Z.leb_spec dest (src + k)), (Z.ltb_spec (src + k) (dest + k)); cbn; lia || reflexivity.
    + rewrite IH. destruct (Z.leb_spec dest y), (Z.ltb_spec y (dest + k)),
        (Z.ltb_spec y (dest + (k + 1))); cbn; lia || reflexivity.
  - intros m' IH. cbn [loop_state]. rewrite IH. replace (0 + Z.of_nat (Z.to_nat n) * 1) with n by lia.
    reflexivity.
Qed.

(** Copying downwards. *)
Lemma copy_down m dest src n x :
  0 <= n -> src <= dest ->
  let m' := loop_state (for_loop (Z.to_nat n) n (-1)
              (fun i m => Cont (store8 m (dest + (i - 1)) (chr m (src + (i - 1))))) m) in
  m' x = if (dest <=? x) && (x <? dest + n) then u8 (m (src + (x - dest))) else m x.
Proof.
  intros Hn Hd.
  apply (for_loop_ind
    (fun i m' => forall x, m' x = if (dest + i <=? x) && (x <? dest + n)
                                  then u8 (m (src + (x - dest))) else m x)
    (fun c => loop_state c x = if (dest <=? x) && (x <? dest + n)
                               then u8 (m (src + (x - dest))) else m x)).
  - intros y. destruct (Z.leb_spec (dest + n) y), (Z.ltb_spec y (dest + n)); cbn; lia || reflexivity.
  - intros k m' Hk IH y. rewrite store8_at, chr_byte, u8_idem.
    set (j := n + k * -1) in *. replace (n + (k + 1) * -1) with (j - 1) by lia.
    destruct (Z.eqb_spec y (dest + (j - 1))) as [->|Hne].
    + destruct (Z.leb_spec (dest + (j - 1)) (dest + (j - 1))),
        (Z.ltb_spec (dest + (j - 1)) (dest + n)); cbn; try lia.
      rewrite IH. replace (dest + (j - 1) - dest) with (j - 1) by lia.
      destruct (Z.leb_spec (dest + j) (src + (j - 1))), (Z.ltb_spec (src + (j - 1)) (dest + n));
        cbn; lia || reflexivity.
    + rewrite IH. destruct (Z.leb_spec (dest + j) y), (Z.leb_spec (dest + (j - 1)) y),
        (Z.ltb_spec y (dest + n)); cbn; lia || reflexivity.
  - intros m' IH. cbn [loop_state]. rewrite IH.
    replace (n + Z.of_nat (Z.to_nat n) * -1) with 0 by lia. rewrite Z.add_0_r. reflexivity.
Qed.

(** What a block copy must do: the source as it was before, at the destination. *)
Definition block_moved (m m' : mem) (dest src n : Z) : Prop :=
  mem_read m' dest (Z.to_nat n) = mem_read m src (Z.to_nat n)
  /\ forall x, x < dest \/ dest + n <= x -> m' x = m x.

Lemma block_moved_at m m' dest src n :
  0 <= n ->
  (forall x, m' x = if (dest <=? x) && (x <? dest + n) then u8 (m (src + (x - dest))) else m x) ->
  block_moved m m' dest src n.
Proof.
  intros Hn H. split.
  - apply mem_read_ext. intros i Hi. rewrite H.
    destruct (Z.leb_spec dest (dest + i)), (Z.ltb_spec (dest + i) (dest + n)); cbn; try lia.
    rewrite u8_idem. do 3 f_equal. lia.
  - intros x Hx. rewrite H.
    destruct (Z.leb_spec dest x), (Z.ltb_spec x (dest + n)); cbn; lia || reflexivity.
Qed.

Lemma strlen_from m s str : forall k fuel,
  cstring m (s + k) str -> 0 <= k -> k + Z.of_nat (length str) < 18446744073709551616 ->
  (length str < fuel)%nat ->
  while_loop (R := Z) fuel (fun len => negb (chr m (s + len) =? 0))
    (fun len => Cont (u64 (len + 1))) k = Some (Cont (k + Z.of_nat (length str))).
Proof.
  induction str as [|c r IH]; intros k fuel Hs Hk Hb Hf; destruct fuel as [|fuel]; cbn [length] in *;
    try lia; cbn [while_loop cstring] in *.
  - rewrite Hs. cbn. do 2 f_equal. lia.
  - destruct Hs as (Hc & -> & Hs). apply Z.eqb_neq in Hc. rewrite Hc. cbn [negb].
    rewrite u64_id by (unfold is_u64; lia). rewrite (IH (k + 1) fuel); try lia.
    + do 2 f_equal. lia.
    + rewrite Z.add_assoc. exact Hs.
Qed.

Lemma strcmp_from m : forall a b p1 p2 fuel,
  cstring m p1 a -> cstring m p2 b -> (length a < fuel)%nat ->
  exists q1 q2, while_loop (R := Z * Z) fuel
      (fun '(p1, p2) => negb (chr m p1 =? 0) && (chr m p1 =? chr m p2))
      (fun '(p1, p2) => Cont (p1 + 1, p2 + 1)) (p1, p2) = Some (Cont (q1, q2))
    /\ (chr m q1 ?= chr m q2) = str_compare a b.
Proof.
  induction a as [|x a IH]; intros b p1 p2 fuel Ha Hb Hf; destruct fuel as [|fuel]; cbn [length] in *;
    try lia; cbn [while_loop cstring] in *.
  - rewrite Ha. cbn [Z.eqb negb andb]. exists p1, p2. split; [reflexivity|]. rewrite Ha.
    destruct b as [|y b]; cbn [cstring str_compare] in *; [rewrite Hb; reflexivity|].
    destruct Hb as (Hy & <- & _). apply Z.compare_lt_iff. pose proof (chr_range m p2). lia.
  - destruct Ha as (Hx & Ex & Ha). rewrite Ex. apply Z.eqb_neq in Hx as Hx'. rewrite Hx'. cbn [negb andb].
    destruct b as [|y b]; cbn [cstring str_compare] in *.
    + rewrite Hb, Hx'. exists p1, p2. split; [reflexivity|]. rewrite Ex, Hb.
      apply Z.compare_gt_iff. pose proof (chr_range m p1). lia.
    + destruct Hb as (Hy & Ey & Hb). rewrite Ey. destruct (Z.eqb_spec x y) as [->|Hne].
      * rewrite Z.compare_refl. apply IH; auto. lia.
      * exists p1, p2. split; [reflexivity|]. rewrite Ex, Ey.
        destruct (Z.compare_spec x y); congruence.
Qed.

Lemma str_compare_eq a b : str_compare a b = Eq <-> a = b.
Proof.
  revert b; induction a as [|x a IH]; intros [|y b]; cbn [str_compare]; try (split; congruence).
  destruct (Z.compare_spec x y) as [->|H|H]; try (split; [discriminate|intros [= E _]; lia]).
  rewrite IH. split; [intros ->; reflexivity|intros [= ->]; reflexivity].
Qed.

(** ** Properties *)

(** [memmove] moves the bytes the source held before the call, however the
    two ranges overlap, and changes nothing outside the destination; [memcpy]
    does the same when they do not overlap. *)
Theorem memmove_correct (m : mem) (dest src n : Z) :
  0 <= n ->
  block_moved m (memmove m dest src n) dest src n
  /\ (src + n <= dest \/ dest + n <= src -> block_moved m (memcpy m dest src n) dest src n).
Proof.
  intros Hn. split.
  - unfold memmove. destruct (Z.ltb_spec dest src) as [H1|H1].
    + apply block_moved_at; [exact Hn|]. intros x. apply copy_up; lia.
    + destruct (Z.ltb_spec src dest) as [H2|H2].
      * apply block_moved_at; [exact Hn|]. intros x. apply copy_down; lia.
      * assert (src = dest) as -> by lia. split; reflexivity.
  - intros Hd. apply block_moved_at; [exact Hn|]. intros x. apply copy_up; lia.
Qed.

(** [strlen] counts the characters before the terminator, and [strcmp] is
    the lexicographic order of the two strings as unsigned bytes: zero exactly
    on equal strings. One step of fuel more than the length is enough for both. *)
Theorem strcmp_correct (m : mem) (s1 s2 : Z) (a b : list Z) (fuel : nat) :
  cstring m s1 a -> cstring m s2 b -> (length a < fuel)%nat ->
  Z.of_nat (length a) < 18446744073709551616 ->
  strlen fuel m s1 = Some (Z.of_nat (length a))
  /\ exists r, strcmp fuel m s1 s2 = Some r /\ (r ?= 0) = str_compare a b /\ (r = 0 <-> a = b).
Proof.
  intros Ha Hb Hf Hlen. split.
  - unfold strlen. rewrite (strlen_from m s1 a 0 fuel); try lia; [reflexivity|].
    rewrite Z.add_0_r. exact Ha.
  - unfold strcmp. destruct (strcmp_from m a b s1 s2 fuel Ha Hb Hf) as (q1 & q2 & -> & E).
    cbn [loop_state]. eexists. split; [reflexivity|].
    assert (Hc : (chr m q1 - chr m q2 ?= 0) = str_compare a b).
    { rewrite <- E. rewrite Z.compare_sub, Z.sub_0_r, <- Z.compare_sub. reflexivity. }
    split; [exact Hc|]. rewrite <- str_compare_eq, <- Hc, Z.compare_eq_iff. reflexivity.
Qed.

(** ** Witnesses *)

(** "ab" at 100 and "ac" at 200. *)
Definition demo_strings : mem := mem_write (mem_write (fun _ => 0) 100 [97; 98; 0]) 200 [97; 99; 0].

Lemma memmove_correct_witness :
  0 <= 4 /\ mem_read (memmove demo_strings 102 100 4) 102 4 = [97; 98; 0; 0].
Proof.
  split; [lia|].
  destruct (memmove_correct demo_strings 102 100 4 ltac:(lia)) as [[E _] _].
  change (Z.to_nat 4) with 4%nat in E. rewrite E. reflexivity.
Defined.

Lemma strcmp_correct_witness : exists r, strcmp 10 demo_strings 100 200 = Some r /\ (r ?= 0) = Lt.
Proof.
  destruct (strcmp_correct demo_strings 100 200 [97; 98] [97; 99] 10) as [_ (r & E & C & _)].
  - repeat split; discriminate || reflexivity.
  - repeat split; discriminate || reflexivity.
  - cbn. lia.
  - cbn. lia.
  - exists r. split; [exact E|exact C].
Defined.
