(* ===== verification/Keyboard.v ===== *)
(** * Keyboard driver (src/drivers/keyboard.c)

    The scan-code decoder, its modifier state and the ring buffer of events that
    the interrupt handler fills and the readers empty. A scan code is the byte
    the handler reads from port 0x60. [keyboard_init] is the reset of the
    variables; draining the controller and unmasking the interrupt line are in
    Interrupts.v. *)

From S2P Require Import Prelude.

Definition KEYBOARD_BUFFER_SIZE : Z := 128.

Inductive keyboard_key : Type :=
  | KEYBOARD_KEY_NONE | KEYBOARD_KEY_CHAR | KEYBOARD_KEY_ESCAPE | KEYBOARD_KEY_BACKSPACE
  | KEYBOARD_KEY_TAB | KEYBOARD_KEY_ENTER | KEYBOARD_KEY_UP | KEYBOARD_KEY_DOWN
  | KEYBOARD_KEY_LEFT | KEYBOARD_KEY_RIGHT | KEYBOARD_KEY_HOME | KEYBOARD_KEY_END
  | KEYBOARD_KEY_DELETE.

#[export] Instance keyboard_key_eq_dec : EqDecision keyboard_key.
Proof. solve_decision. Defined.

Definition KEYBOARD_MOD_SHIFT : Z := 1.
Definition KEYBOARD_MOD_CTRL : Z := 2.
Definition KEYBOARD_MOD_ALT : Z := 4.
Definition KEYBOARD_MOD_CAPS : Z := 8.

Record keyboard_event : Type := mk_event {
  ev_key : keyboard_key;
  ev_ch : Z;
  ev_modifiers : Z
}.

#[export] Instance keyboard_event_inhabited : Inhabited keyboard_event :=
  populate (mk_event KEYBOARD_KEY_NONE 0 0).

(** A table with the entries given and 0 elsewhere. *)
Definition table_lookup (t : list (Z * Z)) (i : Z) : Z :=
  match List.find (fun e => fst e =? i) t with Some e => snd e | None => 0 end.

Definition base_map : Z -> Z := table_lookup
  [(0x02, 49); (0x03, 50); (0x04, 51); (0x05, 52); (0x06, 53); (0x07, 54); (0x08, 55);
   (0x09, 56); (0x0a, 57); (0x0b, 48); (0x0c, 45); (0x0d, 61); (0x10, 113); (0x11, 119);
   (0x12, 101); (0x13, 114); (0x14, 116); (0x15, 121); (0x16, 117); (0x17, 105); (0x18, 111);
   (0x19, 112); (0x1a, 91); (0x1b, 93); (0x1e, 97); (0x1f, 115); (0x20, 100); (0x21, 102);
   (0x22, 103); (0x23, 104); (0x24, 106); (0x25, 107); (0x26, 108); (0x27, 59); (0x28, 39);
   (0x29, 96); (0x2b, 92); (0x2c, 122); (0x2d, 120); (0x2e, 99); (0x2f, 118); (0x30, 98);
   (0x31, 110); (0x32, 109); (0x33, 44); (0x34, 46); (0x35, 47); (0x39, 32)].

Definition shifted_map : Z -> Z := table_lookup
  [(0x02, 33); (0x03, 64); (0x04, 35); (0x05, 36); (0x06, 37); (0x07, 94); (0x08, 38);
   (0x09, 42); (0x0a, 40); (0x0b, 41); (0x0c, 95); (0x0d, 43); (0x10, 81); (0x11, 87);
   (0x12, 69); (0x13, 82); (0x14, 84); (0x15, 89); (0x16, 85); (0x17, 73); (0x18, 79);
   (0x19, 80); (0x1a, 123); (0x1b, 125); (0x1e, 65); (0x1f, 83); (0x20, 68); (0x21, 70);
   (0x22, 71); (0x23, 72); (0x24, 74); (0x25, 75); (0x26, 76); (0x27, 58); (0x28, 34);
   (0x29, 126); (0x2b, 124); (0x2c, 90); (0x2d, 88); (0x2e, 67); (0x2f, 86); (0x30, 66);
   (0x31, 78); (0x32, 77); (0x33, 60); (0x34, 62); (0x35, 63); (0x39, 32)].

(** The modifier state. *)
Record kb_mods : Type := mk_mods {
  shift_down : bool;
  ctrl_down : bool;
  alt_down : bool;
  caps_lock : bool;
  extended_scancode : bool
}.

Record keyboard : Type := mk_keyboard {
  kb_read_index : Z;
  kb_write_index : Z;
  kb_buffer : list keyboard_event;
  kb_mod : kb_mods
}.

Definition is_letter (ch : Z) : bool := (97 <=? ch) && (ch <=? 122).

Definition current_modifiers (k : kb_mods) : Z :=
  let modifiers := 0 in
  let modifiers := if shift_down k then Z.lor modifiers KEYBOARD_MOD_SHIFT else modifiers in
  let modifiers := if ctrl_down k then Z.lor modifiers KEYBOARD_MOD_CTRL else modifiers in
  let modifiers := if alt_down k then Z.lor modifiers KEYBOARD_MOD_ALT else modifiers in
  if caps_lock k then Z.lor modifiers KEYBOARD_MOD_CAPS else modifiers.

Definition push_event (s : keyboard) (key : keyboard_key) (ch : Z) : keyboard :=
  let next := (kb_write_index s + 1) mod KEYBOARD_BUFFER_SIZE in
  if next =? kb_read_index s then s
  else
    {| kb_read_index := kb_read_index s;
       kb_write_index := next;
       kb_buffer := <[Z.to_nat (kb_write_index s) :=
                       mk_event key ch (current_modifiers (kb_mod s))]> (kb_buffer s);
       kb_mod := kb_mod s |}.

Definition extended_key_from_scancode (scancode : Z) : keyboard_key :=
  if scancode =? 0x47 then KEYBOARD_KEY_HOME
  else if scancode =? 0x48 then KEYBOARD_KEY_UP
  else if scancode =? 0x4b then KEYBOARD_KEY_LEFT
  else if scancode =? 0x4d then KEYBOARD_KEY_RIGHT
  else if scancode =? 0x4f then KEYBOARD_KEY_END
  else if scancode =? 0x50 then KEYBOARD_KEY_DOWN
  else if scancode =? 0x53 then KEYBOARD_KEY_DELETE
  else KEYBOARD_KEY_NONE.

Definition with_mod (s : keyboard) (k : kb_mods) : keyboard :=
  {| kb_read_index := kb_read_index s; kb_write_index := kb_write_index s;
     kb_buffer := kb_buffer s; kb_mod := k |}.

Definition set_shift (s : keyboard) (b : bool) : keyboard :=
  let k := kb_mod s in
  with_mod s (mk_mods b (ctrl_down k) (alt_down k) (caps_lock k) (extended_scancode k)).
Definition set_ctrl (s : keyboard) (b : bool) : keyboard :=
  let k := kb_mod s in
  with_mod s (mk_mods (shift_down k) b (alt_down k) (caps_lock k) (extended_scancode k)).
Definition set_alt (s : keyboard) (b : bool) : keyboard :=
  let k := kb_mod s in
  with_mod s (mk_mods (shift_down k) (ctrl_down k) b (caps_lock k) (extended_scancode k)).
Definition set_caps (s : keyboard) (b : bool) : keyboard :=
  let k := kb_mod s in
  with_mod s (mk_mods (shift_down k) (ctrl_down k) (alt_down k) b (extended_scancode k)).
Definition set_extended (s : keyboard) (b : bool) : keyboard :=
  let k := kb_mod s in
  with_mod s (mk_mods (shift_down k) (ctrl_down k) (alt_down k) (caps_lock k) b).

Definition keyboard_irq (s : keyboard) (scancode : Z) : keyboard :=
  if scancode =? 0xe0 then set_extended s true
  else if extended_scancode (kb_mod s) then
    let s := set_extended s false in
    let released := negb (Z.land scancode 0x80 =? 0) in
    let scancode := Z.land scancode 0x7f in
    if scancode =? 0x1d then set_ctrl s (negb released)
    else if scancode =? 0x38 then set_alt s (negb released)
    else if negb released then
      let key := extended_key_from_scancode scancode in
      if bool_decide (key <> KEYBOARD_KEY_NONE) then push_event s key 0 else s
    else s
  else
    let released := negb (Z.land scancode 0x80 =? 0) in
    let scancode := Z.land scancode 0x7f in
    if (scancode =? 0x2a) || (scancode =? 0x36) then set_shift s (negb released)
    else if scancode =? 0x1d then set_ctrl s (negb released)
    else if scancode =? 0x38 then set_alt s (negb released)
    else if released then s
    else if scancode =? 0x01 then push_event s KEYBOARD_KEY_ESCAPE 27
    else if scancode =? 0x0e then push_event s KEYBOARD_KEY_BACKSPACE 8
    else if scancode =? 0x0f then push_event s KEYBOARD_KEY_TAB 9
    else if scancode =? 0x1c then push_event s KEYBOARD_KEY_ENTER 10
    else if scancode =? 0x3a then set_caps s (negb (caps_lock (kb_mod s)))
    else
      let k := kb_mod s in
      let ch := if shift_down k then shifted_map scancode else base_map scancode in
      let ch := if is_letter (base_map scancode)
                then (let uppercase := xorb (shift_down k) (caps_lock k) in
                      if uppercase then shifted_map scancode else base_map scancode)
                else ch in
      let ch := if ctrl_down k && is_letter (base_map scancode)
                then base_map scancode - 97 + 1 else ch in
      if negb (ch =? 0) then push_event s KEYBOARD_KEY_CHAR ch else s.

(** The static variables after [keyboard_init]; the buffer keeps its contents. *)
Definition keyboard_init (s : keyboard) : keyboard :=
  mk_keyboard 0 0 (kb_buffer s) (mk_mods false false false false false).

Definition keyboard_read_event (s : keyboard) : option keyboard_event * keyboard :=
  if kb_read_index s =? kb_write_index s then (None, s)
  else
    let event := kb_buffer s !!! Z.to_nat (kb_read_index s) in
    (Some event,
     {| kb_read_index := (kb_read_index s + 1) mod KEYBOARD_BUFFER_SIZE;
        kb_write_index := kb_write_index s; kb_buffer := kb_buffer s; kb_mod := kb_mod s |}).

(** Each turn reads one event, so the buffer size bounds the loop. *)
Fixpoint read_char_loop (fuel : nat) (s : keyboard) : option (option Z * keyboard) :=
  match fuel with
  | O => None
  | S fuel =>
      match keyboard_read_event s with
      | (Some event, s) =>
          if negb (ev_ch event =? 0) then Some (Some (ev_ch event), s)
          else read_char_loop fuel s
      | (None, s) => Some (None, s)
      end
  end.

Definition keyboard_read_char (s : keyboard) : option (option Z * keyboard) :=
  read_char_loop (Z.to_nat KEYBOARD_BUFFER_SIZE) s.

(** ** Specification: a bounded queue of events *)

Record kb_inv (s : keyboard) : Prop := {
  ki_read : 0 <= kb_read_index s < 128;
  ki_write : 0 <= kb_write_index s < 128;
  ki_buffer : length (kb_buffer s) = 128%nat
}.

Definition kb_count (s : keyboard) : Z := (kb_write_index s - kb_read_index s) mod 128.

(** The events not yet read, oldest first. *)
Definition kb_queue (s : keyboard) : list keyboard_event :=
  map (fun i => kb_buffer s !!! Z.to_nat ((kb_read_index s + Z.of_nat i) mod 128))
      (seq 0 (Z.to_nat (kb_count s))).

(** Appending to a queue that holds at most 127 events. *)
Definition bounded_push (q es : list keyboard_event) : list keyboard_event :=
  if (length q <? 127)%nat then q ++ es else q.

(** The decoder alone: the handler on an empty buffer. *)
Definition empty_keyboard (k : kb_mods) : keyboard :=
  mk_keyboard 0 0 (repeat (mk_event KEYBOARD_KEY_NONE 0 0) 128) k.
Definition emitted (k : kb_mods) (scancode : Z) : list keyboard_event :=
  kb_queue (keyboard_irq (empty_keyboard k) scancode).
Definition next_mods (k : kb_mods) (scancode : Z) : kb_mods :=
  kb_mod (keyboard_irq (empty_keyboard k) scancode).

(** ** Lemmas *)

Lemma kb_queue_length s : length (kb_queue s) = Z.to_nat (kb_count s).
Proof. unfold kb_queue. rewrite length_map, length_seq. reflexivity. Qed.

Lemma push_event_queue s key ch :
  kb_inv s ->
  let e := mk_event key ch (current_modifiers (kb_mod s)) in
  kb_inv (push_event s key ch) /\ kb_mod (push_event s key ch) = kb_mod s
  /\ kb_queue (push_event s key ch) = bounded_push (kb_queue s) [e].
Proof.
  intros [Hr Hw Hb] e. unfold push_event, KEYBOARD_BUFFER_SIZE. fold e.
  unfold bounded_push. rewrite kb_queue_length.
  assert (Hc : 0 <= kb_count s < 128) by (unfold kb_count; apply Z.mod_pos_bound; lia).
  destruct (Z.eqb_spec ((kb_write_index s + 1) mod 128) (kb_read_index s)) as [E|E].
  - assert (kb_count s = 127) by (unfold kb_count; clear -E Hr Hw; zlia).
    destruct (Nat.ltb_spec (Z.to_nat (kb_count s)) 127); [lia|]. split_and!; auto. split; auto.
  - assert (Hlt : kb_count s < 127) by (unfold kb_count in *; clear -E Hr Hw; zlia).
    destruct (Nat.ltb_spec (Z.to_nat (kb_count s)) 127); [|lia]. split_and!; auto.
    + split; cbn; [exact Hr|apply Z.mod_pos_bound; lia|]. rewrite length_insert. exact Hb.
    + unfold kb_queue, kb_count at 1. cbn [kb_write_index kb_read_index kb_buffer].
      assert (Ec : ((kb_write_index s + 1) mod 128 - kb_read_index s) mod 128 = kb_count s + 1)
        by (unfold kb_count in *; clear -E Hr Hw; zlia).
      rewrite Ec, Z2Nat.inj_add, Nat.add_1_r, seq_S, map_app by lia. cbn [map Nat.add].
      f_equal.
      * apply map_ext_in. intros i Hi. apply in_seq in Hi.
        apply list_lookup_total_insert_ne. unfold kb_count in *. clear -Hi Hr Hw Hlt Hc.
        intros Heq. apply Z2Nat.inj in Heq; zlia.
      * f_equal. replace ((kb_read_index s + Z.of_nat (Z.to_nat (kb_count s))) mod 128)
          with (kb_write_index s) by (unfold kb_count in *; clear -Hr Hw; zlia).
        apply list_lookup_total_insert_eq. lia.
Qed.

Lemma read_event_queue s :
  kb_inv s ->
  match kb_queue s with
  | [] => keyboard_read_event s = (None, s)
  | e :: q => exists s', keyboard_read_event s = (Some e, s') /\ kb_inv s'
                /\ kb_queue s' = q /\ kb_mod s' = kb_mod s
  end.
Proof.
  intros [Hr Hw Hb]. unfold kb_queue at 1. unfold keyboard_read_event, KEYBOARD_BUFFER_SIZE.
  destruct (Z.eqb_spec (kb_read_index s) (kb_write_index s)) as [E|E].
  - unfold kb_count. rewrite E, Z.sub_diag. reflexivity.
  - assert (Hc : 0 < kb_count s < 128) by (unfold kb_count; clear -E Hr Hw; zlia).
    replace (Z.to_nat (kb_count s)) with (S (Z.to_nat (kb_count s - 1))) by lia.
    cbn [seq map]. eexists. split; [|split; [|split]].
    + do 2 f_equal. rewrite Z.add_0_r, Z.mod_small by lia. reflexivity.
    + split; cbn; [apply Z.mod_pos_bound; lia|exact Hw|exact Hb].
    + unfold kb_queue, kb_count at 1. cbn [kb_write_index kb_read_index kb_buffer].
      replace ((kb_write_index s - (kb_read_index s + 1) mod 128) mod 128) with (kb_count s - 1)
        by (unfold kb_count in *; clear -E Hr Hw; zlia).
      rewrite <- seq_shift, map_map. apply map_ext. intros i. f_equal. f_equal. zlia.
    + reflexivity.
Qed.

(** The handler acts on the buffer only by pushing at most one event, and what
    it pushes depends only on the modifier state and the scan code. *)
Definition kb_act (s : keyboard) (k : kb_mods) (o : option (keyboard_key * Z)) : keyboard :=
  match o with
  | None => with_mod s k
  | Some (key, ch) => push_event (with_mod s k) key ch
  end.

Lemma with_mod_same s : with_mod s (kb_mod s) = s.
Proof. destruct s; reflexivity. Qed.

Lemma keyboard_irq_act s s0 scancode :
  kb_mod s = kb_mod s0 ->
  exists k o, keyboard_irq s scancode = kb_act s k o /\ keyboard_irq s0 scancode = kb_act s0 k o.
Proof.
  intros E. unfold keyboard_irq, set_extended, set_ctrl, set_alt, set_shift, set_caps. rewrite E.
  assert (Hpush : forall t key ch, push_event t key ch = kb_act t (kb_mod t) (Some (key, ch)))
    by (intros; cbn; rewrite with_mod_same; reflexivity).
  assert (Hnone : forall t, t = kb_act t (kb_mod t) None)
    by (intros; cbn; symmetry; apply with_mod_same).
  repeat (case_goal; try (eexists _, None; split; reflexivity)); cbn [with_mod kb_mod] in *;
    first [ eexists _, None; split; [rewrite (Hnone s) at 1; rewrite E; reflexivity|apply Hnone]
          | eexists _, (Some (_, _)); split; reflexivity
          | eexists _, (Some (_, _)); split; [rewrite Hpush, E; reflexivity|apply Hpush] ].
Qed.

Lemma kb_act_queue s k o :
  kb_inv s ->
  kb_inv (kb_act s k o) /\ kb_mod (kb_act s k o) = k
  /\ kb_queue (kb_act s k o)
     = bounded_push (kb_queue s)
         (match o with None => [] | Some (key, ch) => [mk_event key ch (current_modifiers k)] end).
Proof.
  intros Hi. assert (Hw : kb_inv (with_mod s k)) by (destruct Hi; split; auto).
  destruct o as [[key ch]|]; cbn [kb_act].
  - apply (push_event_queue (with_mod s k) key ch Hw).
  - split_and!; auto. unfold bounded_push. rewrite app_nil_r. destruct (_ <? _)%nat; reflexivity.
Qed.

Lemma empty_keyboard_inv k : kb_inv (empty_keyboard k).
Proof. split; cbn; lia || reflexivity. Qed.

Lemma read_char_queue fuel : forall s,
  kb_inv s -> (length (kb_queue s) < fuel)%nat ->
  exists s', read_char_loop fuel s
    = Some (match List.find (fun e => negb (ev_ch e =? 0)) (kb_queue s) with
            | Some e => Some (ev_ch e) | None => None end, s')
    /\ kb_inv s' /\ kb_mod s' = kb_mod s
    /\ exists skipped, Forall (fun e => ev_ch e = 0) skipped
       /\ (kb_queue s = skipped ++ kb_queue s'
           \/ exists e, ev_ch e <> 0 /\ kb_queue s = skipped ++ e :: kb_queue s').
Proof.
  induction fuel as [|fuel IH]; intros s Hi Hf; [lia|]. cbn [read_char_loop].
  pose proof (read_event_queue s Hi) as Hq. destruct (kb_queue s) as [|e q] eqn:Eq.
  - rewrite Hq. exists s. cbn [List.find]. split_and!; auto. exists []. rewrite Eq. split; auto.
  - destruct Hq as (s1 & -> & I1 & Q1 & M1). cbn [List.find length] in *.
    destruct (Z.eqb_spec (ev_ch e) 0) as [E|E]; cbn [negb].
    + destruct (IH s1 I1) as (s2 & -> & I2 & M2 & sk & F & D); [rewrite Q1; lia|].
      exists s2. rewrite Q1 in *. split_and!; auto; [congruence|]. exists (e :: sk). split; [constructor; auto|].
      destruct D as [->|(e' & He' & ->)]; [left; reflexivity|right; exists e'; auto].
    + exists s1. split_and!; auto. exists []. split; [constructor|]. right. exists e. rewrite Q1. auto.
Qed.

(** The letter keys, checked on every scan code and modifier state. *)
#[export] Instance kb_mods_eq_dec : EqDecision kb_mods.
Proof. solve_decision. Defined.

Definition letter_check (k : kb_mods) (sc : Z) : bool :=
  if is_letter (base_map sc)
  then match emitted k sc with
       | [e] => (ev_ch e =? (if ctrl_down k then base_map sc - 96
                             else if xorb (shift_down k) (caps_lock k) then base_map sc - 32
                             else base_map sc))
                && bool_decide (next_mods k sc = k)
       | _ => false
       end
  else true.

Definition all_mods : list kb_mods :=
  flat_map (fun a => flat_map (fun b => flat_map (fun c => map (fun d => mk_mods a b c d false)
    [false; true]) [false; true]) [false; true]) [false; true].

Lemma letter_check_all :
  forallb (fun n => forallb (fun k => letter_check k (Z.of_nat n)) all_mods) (seq 0 128) = true.
Proof. vm_compute. reflexivity. Qed.

(** ** Properties *)

(** The interrupt handler is a decoder in front of a bounded queue: on any
    well-formed buffer it appends to the pending events exactly the at most one
    event it would produce on an empty buffer, or drops it when 127 events are
    pending, and the modifier state evolves independently of the buffer. *)
Theorem keyboard_irq_refines_queue (s : keyboard) (scancode : Z) :
  kb_inv s ->
  kb_inv (keyboard_irq s scancode)
  /\ kb_mod (keyboard_irq s scancode) = next_mods (kb_mod s) scancode
  /\ kb_queue (keyboard_irq s scancode)
     = bounded_push (kb_queue s) (emitted (kb_mod s) scancode)
  /\ (length (emitted (kb_mod s) scancode) <= 1)%nat.
Proof.
  intros Hi. unfold emitted, next_mods.
  destruct (keyboard_irq_act s (empty_keyboard (kb_mod s)) scancode eq_refl) as (k & o & -> & ->).
  destruct (kb_act_queue s k o Hi) as (I1 & M1 & Q1).
  destruct (kb_act_queue _ k o (empty_keyboard_inv (kb_mod s))) as (_ & M2 & Q2).
  change (kb_queue (empty_keyboard (kb_mod s))) with (@nil keyboard_event) in Q2.
  rewrite M1, M2, Q1, Q2. split_and!; auto. destruct o as [[key ch]|]; cbn; lia.
Qed.

(** The readers consume the queue from the front: [keyboard_read_event]
    returns the oldest event or reports an empty buffer, and [keyboard_read_char]
    returns, within as many turns as the buffer has slots, the first pending
    event that carries a character, discarding exactly those before it. *)
Theorem keyboard_read_fifo (s : keyboard) :
  kb_inv s ->
  match kb_queue s with
  | [] => keyboard_read_event s = (None, s)
  | e :: q => exists s', keyboard_read_event s = (Some e, s') /\ kb_inv s' /\ kb_queue s' = q
  end
  /\ exists s', keyboard_read_char s
      = Some (match List.find (fun e => negb (ev_ch e =? 0)) (kb_queue s) with
              | Some e => Some (ev_ch e) | None => None end, s')
    /\ kb_inv s' /\ exists skipped, Forall (fun e => ev_ch e = 0) skipped
       /\ (kb_queue s = skipped ++ kb_queue s'
           \/ exists e, ev_ch e <> 0 /\ kb_queue s = skipped ++ e :: kb_queue s').
Proof.
  intros Hi. split.
  - pose proof (read_event_queue s Hi) as Hq. destruct (kb_queue s); [exact Hq|].
    destruct Hq as (s' & E & I1 & Q1 & _). eauto.
  - destruct (read_char_queue (Z.to_nat KEYBOARD_BUFFER_SIZE) s Hi) as (s' & E & I1 & _ & K).
    + rewrite kb_queue_length. change (Z.to_nat KEYBOARD_BUFFER_SIZE) with 128%nat.
      assert (kb_count s < 128) by (unfold kb_count; apply Z.mod_pos_bound; lia). lia.
    + exists s'. split_and!; auto.
Qed.

(** Letters: for every scan code of a letter key pressed outside an extended
    sequence, the character is the control code of the letter when Ctrl is
    down, and otherwise the letter, upper case exactly when one of Shift and
    Caps Lock is active. *)
Theorem keyboard_letter_case (k : kb_mods) (scancode : Z) :
  0 <= scancode < 128 -> is_letter (base_map scancode) = true -> extended_scancode k = false ->
  map ev_ch (emitted k scancode)
  = [ if ctrl_down k then base_map scancode - 96
      else if xorb (shift_down k) (caps_lock k) then base_map scancode - 32
      else base_map scancode ]
  /\ next_mods k scancode = k.
Proof.
  intros Hs Hl He. pose proof letter_check_all as Hall.
  rewrite forallb_forall in Hall. specialize (Hall (Z.to_nat scancode)).
  rewrite in_seq, Z2Nat.id in Hall by lia. specialize (Hall ltac:(lia)).
  rewrite forallb_forall in Hall. destruct k as [a b c d e]. cbn in He. subst e.
  specialize (Hall (mk_mods a b c d false)). unfold letter_check in Hall. rewrite Hl in Hall.
  specialize (Hall ltac:(destruct a, b, c, d; cbn; tauto)). cbn [ctrl_down shift_down caps_lock] in *.
  destruct (emitted _ scancode) as [|e [|]]; try discriminate. b2p.
  apply bool_decide_eq_true in H0. split; [|exact H0]. cbn [map]. f_equal. exact H.
Qed.

(** ** Witnesses *)

Definition no_mods : kb_mods := mk_mods false false false false false.

Lemma keyboard_irq_refines_queue_witness :
  kb_inv (empty_keyboard no_mods)
  /\ map ev_ch (kb_queue (keyboard_irq (empty_keyboard no_mods) 0x1e)) = [97].
Proof.
  split; [apply empty_keyboard_inv|].
  destruct (keyboard_irq_refines_queue (empty_keyboard no_mods) 0x1e (empty_keyboard_inv no_mods))
    as (_ & _ & -> & _). vm_compute. reflexivity.
Defined.

Lemma keyboard_read_fifo_witness :
  exists s', keyboard_read_char (empty_keyboard no_mods) = Some (None, s').
Proof.
  destruct (keyboard_read_fifo (empty_keyboard no_mods) (empty_keyboard_inv no_mods))
    as [_ (s' & E & _)]. exists s'. exact E.
Defined.

Lemma keyboard_letter_case_witness :
  map ev_ch (emitted (mk_mods true false false false false) 0x1e) = [65].
Proof.
  destruct (keyboard_letter_case (mk_mods true false false false false) 0x1e ltac:(lia) eq_refl eq_refl)
    as [-> _]. reflexivity.
Defined.
