(* ===== verification/Elf.v ===== *)
(** * User address ranges and ELF validation
      (src/userspace/address_space.c, src/userspace/elf.c)

    An image is the memory its pointer names: byte [i] of the image is [img i],
    and header fields are little-endian loads at their offsets in the packed
    ELF64 layout. *)

From S2P Require Import Prelude Vmm.

Definition USERSPACE_MIN_VADDR : Z := 0x1000.
Definition USERSPACE_MAX_VADDR : Z := 0x00007fffffffffff.
Definition USERSPACE_IMAGE_BASE : Z := 0x400000.
Definition USERSPACE_HEAP_BASE : Z := 0x10000000.
Definition USERSPACE_HEAP_LIMIT : Z := 0x40000000.
Definition USERSPACE_STACK_TOP : Z := 0x00007ffffff00000.
Definition KERNELSPACE_BASE_VADDR : Z := 0xffff800000000000.

Definition userspace_range_is_valid (vaddr size : Z) : bool :=
  if (size =? 0) || (vaddr <? USERSPACE_MIN_VADDR) then false
  else
    let end_ := u64 (u64 (vaddr + size) - 1) in
    if end_ <? vaddr then false
    else end_ <=? USERSPACE_MAX_VADDR.

Definition sizeof_ehdr : Z := 64.
Definition sizeof_phdr : Z := 56.
Definition ET_EXEC : Z := 2.
Definition ET_DYN : Z := 3.
Definition EM_X86_64 : Z := 62.
Definition EV_CURRENT : Z := 1.
Definition ELF64_PT_LOAD : Z := 1.
Definition ELF64_PF_X : Z := 1.
Definition ELF64_PF_W : Z := 2.

Record elf64_ehdr : Type := mk_ehdr {
  e_ident : list Z;
  e_type : Z;
  e_machine : Z;
  e_version : Z;
  e_entry : Z;
  e_phoff : Z;
  e_ehsize : Z;
  e_phentsize : Z;
  e_phnum : Z
}.

Record elf64_phdr : Type := mk_phdr {
  p_type : Z;
  p_flags : Z;
  p_offset : Z;
  p_vaddr : Z;
  p_filesz : Z;
  p_memsz : Z;
  p_align : Z
}.

Record elf64_image : Type := mk_elf_image {
  ei_entry : Z;
  ei_phoff : Z;
  ei_phnum : Z;
  ei_phentsize : Z
}.

(** The fields of the two structures at their offsets. *)
Definition read_ehdr (img : mem) : elf64_ehdr :=
  mk_ehdr (mem_read img 0 16) (load16 img 16) (load16 img 18) (load32 img 20)
    (load64 img 24) (load64 img 32) (load16 img 52) (load16 img 54) (load16 img 56).

Definition read_phdr (img : mem) (at_ : Z) : elf64_phdr :=
  mk_phdr (load32 img at_) (load32 img (at_ + 4)) (load64 img (at_ + 8))
    (load64 img (at_ + 16)) (load64 img (at_ + 32)) (load64 img (at_ + 40))
    (load64 img (at_ + 48)).

Definition program_header_at (img : mem) (phoff phentsize index : Z) : elf64_phdr :=
  read_phdr img (u64 (phoff + phentsize * index)).

Definition range_within_image (offset size image_size : Z) : bool :=
  if size =? 0 then true
  else
    let end_ := u64 (u64 (offset + size) - 1) in
    (offset <=? end_) && (end_ <? image_size).

(** One turn of the loop over the program headers; its state is
    [entry_in_load_segment]. *)
Definition check_phdr (ehdr : elf64_ehdr) (image_size : Z) (phdr : elf64_phdr)
    (entry_in_load_segment : bool) : ctl bool unit :=
  if negb (p_type phdr =? ELF64_PT_LOAD) then Cont entry_in_load_segment
  else if p_memsz phdr =? 0 then Cont entry_in_load_segment
  else if (p_memsz phdr <? p_filesz phdr)
          || (negb (p_align phdr =? 0) && (p_align phdr <? VMM_PAGE_SIZE))
          || negb (range_within_image (p_offset phdr) (p_filesz phdr) image_size)
          || negb (userspace_range_is_valid (p_vaddr phdr) (p_memsz phdr))
  then Break tt
  else if (p_vaddr phdr <=? e_entry ehdr) && (e_entry ehdr <? u64 (p_vaddr phdr + p_memsz phdr))
  then Cont true
  else Cont entry_in_load_segment.

(** [image] is [None] for NULL; [None] is a false return. *)
Definition elf64_validate_user_image (image : option mem) (image_size : Z) : option elf64_image :=
  match image with
  | None => None
  | Some img =>
      if image_size <? sizeof_ehdr then None
      else
        let ehdr := read_ehdr img in
        let id i := nth i (e_ident ehdr) 0 in
        if negb (id 0%nat =? 0x7f) || negb (id 1%nat =? 69) || negb (id 2%nat =? 76)
           || negb (id 3%nat =? 70) || negb (id 4%nat =? 2) || negb (id 5%nat =? 1)
           || negb (id 6%nat =? EV_CURRENT)
        then None
        else if (negb (e_type ehdr =? ET_EXEC) && negb (e_type ehdr =? ET_DYN))
                || negb (e_machine ehdr =? EM_X86_64)
                || negb (e_version ehdr =? EV_CURRENT)
                || negb (e_ehsize ehdr =? sizeof_ehdr)
                || negb (e_phentsize ehdr =? sizeof_phdr)
                || (e_phnum ehdr =? 0)
        then None
        else if negb (userspace_range_is_valid (e_entry ehdr) 1) then None
        else if negb (range_within_image (e_phoff ehdr) (e_phentsize ehdr * e_phnum ehdr) image_size)
        then None
        else
          match range_loop 0 (e_phnum ehdr) 1 (fun i entry =>
                  check_phdr ehdr image_size
                    (program_header_at img (e_phoff ehdr) (e_phentsize ehdr) i) entry) false with
          | Cont true => Some (mk_elf_image (e_entry ehdr) (e_phoff ehdr) (e_phnum ehdr)
                                 (e_phentsize ehdr))
          | _ => None
          end
  end.

(** ** Specification *)

(** A non-empty range of user addresses. *)
Definition user_range (vaddr size : Z) : Prop :=
  0 < size /\ USERSPACE_MIN_VADDR <= vaddr /\ vaddr + size - 1 <= USERSPACE_MAX_VADDR.

Definition in_image (offset size image_size : Z) : Prop :=
  size = 0 \/ (0 < size /\ 0 <= offset /\ offset + size <= image_size).

(** A loadable segment the validator accepts. *)
Record segment_ok (phdr : elf64_phdr) (image_size : Z) : Prop := {
  so_file : p_filesz phdr <= p_memsz phdr;
  so_image : in_image (p_offset phdr) (p_filesz phdr) image_size;
  so_user : user_range (p_vaddr phdr) (p_memsz phdr);
  so_align : p_align phdr = 0 \/ VMM_PAGE_SIZE <= p_align phdr
}.

Definition loadable (phdr : elf64_phdr) : Prop :=
  p_type phdr = ELF64_PT_LOAD /\ p_memsz phdr <> 0.

(** ** Lemmas *)

Lemma user_range_spec vaddr size :
  is_u64 vaddr -> is_u64 size ->
  userspace_range_is_valid vaddr size = true <-> user_range vaddr size.
Proof.
  intros Hv Hs. unfold userspace_range_is_valid, user_range, USERSPACE_MIN_VADDR, USERSPACE_MAX_VADDR.
  destruct (Z.eqb_spec size 0) as [->|H0]; cbn [orb]; [split; [discriminate|lia]|].
  destruct (Z.ltb_spec vaddr 0x1000); [split; [discriminate|lia]|].
  destruct (Z.ltb_spec (u64 (u64 (vaddr + size) - 1)) vaddr) as [Hw|Hw].
  - split; [discriminate|]. intros (_ & _ & Hle). exfalso. zlia.
  - rewrite Z.leb_le. split; intros; zlia.
Qed.

Lemma range_within_image_spec offset size image_size :
  is_u64 offset -> is_u64 size -> is_u64 image_size ->
  range_within_image offset size image_size = true <-> in_image offset size image_size.
Proof.
  intros Ho Hs Hi. unfold range_within_image, in_image.
  destruct (Z.eqb_spec size 0) as [->|H0]; [tauto|].
  rewrite andb_true_iff, Z.leb_le, Z.ltb_lt. split; intros; zlia.
Qed.

Lemma load_u64 m a : is_u64 (load64 m a).
Proof. pose proof (load_range 8 m a) as H. simpl in H. exact H. Qed.

Lemma check_phdr_spec ehdr size phdr b :
  is_u64 size -> is_u64 (p_offset phdr) -> is_u64 (p_vaddr phdr) ->
  is_u64 (p_filesz phdr) -> is_u64 (p_memsz phdr) ->
  match check_phdr ehdr size phdr b with
  | Cont b' => (loadable phdr -> segment_ok phdr size)
      /\ (b' = true <-> b = true \/ (loadable phdr
            /\ p_vaddr phdr <= e_entry ehdr < p_vaddr phdr + p_memsz phdr))
  | Break _ => loadable phdr /\ ~ segment_ok phdr size
  end.
Proof.
  intros Hsz Ho Hv Hf Hm. unfold check_phdr, loadable, VMM_PAGE_SIZE.
  destruct (Z.eqb_spec (p_type phdr) ELF64_PT_LOAD) as [Ht|Ht]; cbn [negb]; [|tauto].
  destruct (Z.eqb_spec (p_memsz phdr) 0) as [Hz|Hz]; [tauto|].
  destruct (_ || _) eqn:Hc.
  - split; [auto|]. intros [S1 S2 S3 S4]. unfold VMM_PAGE_SIZE in S4.
    apply user_range_spec in S3; auto. apply range_within_image_spec in S2; auto.
    rewrite S2, S3, !orb_false_r in Hc. apply orb_true_iff in Hc as [Hc|Hc]; b2p; lia.
  - b2p. apply user_range_spec in H0; auto. apply range_within_image_spec in H1; auto.
    assert (Hseg : segment_ok phdr size).
    { split; auto. unfold VMM_PAGE_SIZE. apply andb_false_iff in H2 as [H2|H2]; b2p; auto. }
    assert (Hu : u64 (p_vaddr phdr + p_memsz phdr) = p_vaddr phdr + p_memsz phdr).
    { destruct H0 as (_ & _ & H0). unfold USERSPACE_MAX_VADDR in H0. apply u64_id. unfold is_u64 in *. lia. }
    clear H2. rewrite Hu.
    destruct ((p_vaddr phdr <=? e_entry ehdr) && (e_entry ehdr <? p_vaddr phdr + p_memsz phdr)) eqn:He.
    + b2p. split; [auto|]. split; auto.
    + split; [auto|]. split; [auto|]. intros [?|[_ Hr]]; [assumption|].
      apply andb_false_iff in He as [He|He]; b2p; lia.
Qed.

(** The header table, as the validator and the loader both read it. *)
Definition image_phdrs (img : mem) (im : elf64_image) : list elf64_phdr :=
  map (fun i => program_header_at img (ei_phoff im) (ei_phentsize im) (Z.of_nat i))
      (seq 0 (Z.to_nat (ei_phnum im))).

Lemma program_header_words img phoff phentsize i :
  let ph := program_header_at img phoff phentsize i in
  is_u64 (p_offset ph) /\ is_u64 (p_vaddr ph) /\ is_u64 (p_filesz ph) /\ is_u64 (p_memsz ph).
Proof. cbn. split_and!; apply load_u64. Qed.

Lemma check_loop_spec ehdr img size phoff phentsize n :
  is_u64 size ->
  forall k b,
  match for_loop n k 1 (fun i entry =>
          check_phdr ehdr size (program_header_at img phoff phentsize i) entry) b with
  | Cont b' =>
      (forall j, (j < n)%nat -> loadable (program_header_at img phoff phentsize (k + Z.of_nat j)) ->
         segment_ok (program_header_at img phoff phentsize (k + Z.of_nat j)) size)
      /\ (b' = true <-> b = true \/ exists j, (j < n)%nat
            /\ let ph := program_header_at img phoff phentsize (k + Z.of_nat j) in
               loadable ph /\ p_vaddr ph <= e_entry ehdr < p_vaddr ph + p_memsz ph)
  | Break _ => exists j, (j < n)%nat
      /\ let ph := program_header_at img phoff phentsize (k + Z.of_nat j) in
         loadable ph /\ ~ segment_ok ph size
  end.
Proof.
  intros Hsz. induction n as [|n IH]; intros k b; cbn [for_loop].
  { split; [lia|]. split; [auto|]. intros [?|(j & ? & _)]; [assumption|lia]. }
  destruct (program_header_words img phoff phentsize k) as (W1 & W2 & W3 & W4).
  pose proof (check_phdr_spec ehdr size (program_header_at img phoff phentsize k) b Hsz W1 W2 W3 W4) as C.
  assert (Hk : k + Z.of_nat 0 = k) by lia.
  assert (HS : forall j, k + Z.of_nat (S j) = k + 1 + Z.of_nat j) by lia.
  destruct (check_phdr _ _ _ b) as [b'|u].
  - destruct C as [C1 C2]. specialize (IH (k + 1) b'). destruct (for_loop _ _ _ _ b') as [b2|u].
    + destruct IH as [I1 I2]. split.
      * intros [|j] Hj; [rewrite Hk; exact C1|]. rewrite HS. apply I1. lia.
      * rewrite I2, C2. split.
        { intros [[?|?]|(j & Hj & J)]; [auto| |].
          - right. exists 0%nat. rewrite Hk. split; [lia|assumption].
          - right. exists (S j). rewrite HS. split; [lia|exact J]. }
        { intros [?|([|j] & Hj & J)]; [auto| |].
          - rewrite Hk in J. auto.
          - rewrite HS in J. right. exists j. split; [lia|exact J]. }
    + destruct IH as (j & Hj & J). exists (S j). rewrite HS. split; [lia|exact J].
  - exists 0%nat. rewrite Hk. split; [lia|exact C].
Qed.

Lemma range_loop_count {S R : Type} n (body : Z -> S -> ctl S R) s :
  0 <= n -> range_loop 0 n 1 body s = for_loop (Z.to_nat n) 0 1 body s.
Proof.
  intros Hn. unfold range_loop, trips. replace (n - 0 + 1 - 1) with n by lia.
  rewrite Z.div_1_r. reflexivity.
Qed.

(** The validator's checks, read off a run that accepts. *)
Lemma validate_accepts (img : mem) (size : Z) (im : elf64_image) :
  is_u64 size -> elf64_validate_user_image (Some img) size = Some im ->
  in_image (ei_phoff im) (56 * ei_phnum im) size /\ ei_phentsize im = 56
  /\ Forall (fun ph => loadable ph -> segment_ok ph size) (image_phdrs img im)
  /\ Exists (fun ph => loadable ph
              /\ p_vaddr ph <= ei_entry im < p_vaddr ph + p_memsz ph) (image_phdrs img im)
  /\ 0 <= ei_phnum im < 65536 /\ user_range (ei_entry im) 1.
Proof.
  intros Hsz. cbn [elf64_validate_user_image]. destruct (size <? sizeof_ehdr); [discriminate|].
  destruct (_ || _ || _ || _ || _ || _ || _); [discriminate|].
  destruct (_ || _) eqn:Hh; [discriminate|]. b2p.
  destruct (negb (userspace_range_is_valid _ _)) eqn:Hu; [discriminate|]. apply negb_false_iff in Hu.
  destruct (negb (range_within_image _ _ _)) eqn:Hr; [discriminate|]. b2p.
  set (eh := read_ehdr img) in *. set (phoff := e_phoff eh) in *.
  assert (Hn : 0 <= e_phnum eh < 65536) by (apply (load_range 2)).
  rewrite range_loop_count by lia.
  pose proof (check_loop_spec eh img size phoff (e_phentsize eh) (Z.to_nat (e_phnum eh)) Hsz 0 false) as C.
  destruct (for_loop _ 0 1 _ false) as [[|]|]; try discriminate.
  intros [= <-]. destruct C as [C1 C2]. unfold image_phdrs. cbn [ei_phoff ei_phnum ei_phentsize ei_entry].
  unfold sizeof_phdr in *.
  assert (Hps : e_phentsize eh = 56) by assumption. split_and!.
  - rewrite Hps in Hr. apply range_within_image_spec in Hr; auto; [apply load_u64|unfold is_u64; lia].
  - exact Hps.
  - apply List.Forall_forall. intros ph Hin. apply in_map_iff in Hin as (j & <- & Hj).
    change (load16 img 56) with (e_phnum eh) in Hj. apply in_seq in Hj. exact (C1 j ltac:(lia)).
  - destruct (proj1 C2 eq_refl) as [?|(j & Hj & J)]; [discriminate|].
    apply List.Exists_exists. exists (program_header_at img phoff (e_phentsize eh) (Z.of_nat j)).
    split; [|exact J]. apply (in_map (fun i => program_header_at img phoff (e_phentsize eh) (Z.of_nat i))).
    change (load16 img 56) with (e_phnum eh). apply in_seq. lia.
  - apply Hn.
  - apply Hn.
  - apply user_range_spec in Hu; [exact Hu|apply load_u64|unfold is_u64; lia].
Qed.

(** ** Properties *)

(** [userspace_range_is_valid] decides, without being fooled by a sum that
    wraps, whether a non-empty range lies inside the user half. *)
Theorem userspace_range_exact (vaddr size : Z) :
  is_u64 vaddr -> is_u64 size ->
  userspace_range_is_valid vaddr size = true
  <-> 0 < size /\ 0x1000 <= vaddr /\ vaddr + size <= 0x0000800000000000.
Proof.
  intros Hv Hs. rewrite (user_range_spec vaddr size Hv Hs).
  unfold user_range, USERSPACE_MIN_VADDR, USERSPACE_MAX_VADDR. lia.
Qed.

(** C20. An image the validator accepts is safe to load: its header table and the
    file part of every non-empty loadable segment lie inside the image, every
    such segment lies inside the user half without wrapping, and the entry
    point lies in one of them. *)
Theorem elf_validate_sound (img : mem) (size : Z) (im : elf64_image) :
  is_u64 size -> elf64_validate_user_image (Some img) size = Some im ->
  in_image (ei_phoff im) (56 * ei_phnum im) size /\ ei_phentsize im = 56
  /\ Forall (fun ph => loadable ph -> segment_ok ph size) (image_phdrs img im)
  /\ Exists (fun ph => loadable ph
              /\ p_vaddr ph <= ei_entry im < p_vaddr ph + p_memsz ph) (image_phdrs img im).
Proof. intros Hsz E. destruct (validate_accepts img size im Hsz E) as (H1 & H2 & H3 & H4 & _). auto. Qed.

(** ** Witnesses *)

(** A 64-byte header and [phdrs], 56 bytes each. *)
Definition demo_ehdr_bytes (entry phnum : Z) : list Z :=
  [0x7f; 69; 76; 70; 2; 1; 1; 0; 0; 0; 0; 0; 0; 0; 0; 0]
  ++ le_bytes 2 2 ++ le_bytes 2 62 ++ le_bytes 4 1 ++ le_bytes 8 entry ++ le_bytes 8 64
  ++ le_bytes 8 0 ++ le_bytes 4 0 ++ le_bytes 2 64 ++ le_bytes 2 56 ++ le_bytes 2 phnum
  ++ le_bytes 2 0 ++ le_bytes 2 0 ++ le_bytes 2 0.

Definition demo_phdr_bytes (flags offset vaddr filesz memsz : Z) : list Z :=
  le_bytes 4 1 ++ le_bytes 4 flags ++ le_bytes 8 offset ++ le_bytes 8 vaddr ++ le_bytes 8 0
  ++ le_bytes 8 filesz ++ le_bytes 8 memsz ++ le_bytes 8 4096.

Definition demo_image : mem :=
  mem_write (fun _ => 0) 0
    (demo_ehdr_bytes 0x400000 1 ++ demo_phdr_bytes 5 0 0x400000 120 200).

Lemma userspace_range_exact_witness : userspace_range_is_valid 0x400000 4096 = true.
Proof.
  apply (userspace_range_exact 0x400000 4096); unfold is_u64; lia.
Defined.

Lemma elf_validate_sound_witness :
  exists im, elf64_validate_user_image (Some demo_image) 120 = Some im
    /\ in_image (ei_phoff im) (56 * ei_phnum im) 120.
Proof.
  exists (mk_elf_image 0x400000 64 1 56).
  assert (E : elf64_validate_user_image (Some demo_image) 120 = Some (mk_elf_image 0x400000 64 1 56))
    by (vm_compute; reflexivity).
  split; [exact E|].
  assert (Hs : is_u64 120) by (unfold is_u64; lia).
  apply (elf_validate_sound demo_image 120 _ Hs E).
Defined.
