(* ===== verification/Fs.v ===== *)
(** * The file-system interface of the kernel (src/userspace/abi.h, src/fs/ext2.h)

    The operations that process.c and syscall.c call on the mounted file system,
    as a class over the file-system state, with the ABI structures they exchange
    with user space. Results are the [long] of the C functions. Paths are the
    characters of a C string, without the terminator. *)

From S2P Require Import Prelude.

Definition USER_FS_NAME_SIZE : Z := 64.
Definition USER_FS_PATH_SIZE : Z := 128.

Definition USER_ERR_AGAIN : Z := -1.
Definition USER_ERR_FAULT : Z := -2.
Definition USER_ERR_INVAL : Z := -3.
Definition USER_ERR_NOSYS : Z := -4.

Definition USER_FS_TYPE_UNKNOWN : Z := 0.
Definition USER_FS_TYPE_FILE : Z := 1.
Definition USER_FS_TYPE_DIR : Z := 2.

Definition USER_FS_STATUS_ABI_VERSION : Z := 1.

(** [struct user_fs_dirent]; [fd_name] is the 64-byte array up to its
    terminator. *)
Record user_fs_dirent : Type := mk_dirent {
  fd_inode : Z;
  fd_type : Z;
  fd_size : Z;
  fd_name : list Z
}.

Record user_fs_status : Type := mk_fs_status {
  us_abi_version : Z;
  us_mounted : Z;
  us_block_size : Z;
  us_blocks : Z;
  us_inodes : Z;
  us_free_blocks : Z;
  us_free_inodes : Z;
  us_volume_name : list Z
}.

(** A C string in an array of [n] bytes, padded with zeros. *)
Definition pad_to (n : nat) (s : list Z) : list Z := firstn n s ++ repeat 0 (n - length s).

(** The bytes of the two structures, as [copy_to_user] sees them. *)
Definition dirent_bytes (d : user_fs_dirent) : list Z :=
  le_bytes 4 (fd_inode d) ++ le_bytes 1 (fd_type d) ++ repeat 0 3 ++ le_bytes 8 (fd_size d)
  ++ pad_to 64 (fd_name d).

Definition fs_status_bytes (st : user_fs_status) : list Z :=
  le_bytes 4 (us_abi_version st) ++ le_bytes 1 (us_mounted st) ++ repeat 0 3
  ++ le_bytes 4 (us_block_size st) ++ repeat 0 4 ++ le_bytes 8 (us_blocks st)
  ++ le_bytes 8 (us_inodes st) ++ le_bytes 8 (us_free_blocks st)
  ++ le_bytes 8 (us_free_inodes st) ++ pad_to 16 (us_volume_name st).

(** The loops over a path that syscall.c and ext2.c share: past the slashes at
    the cursor, and past a name. *)
Fixpoint skip_slashes (cursor : list Z) : list Z :=
  match cursor with
  | c :: rest => if c =? 47 then skip_slashes rest else cursor
  | [] => []
  end.

(** The characters up to the next slash, and the rest. *)
Fixpoint take_name (cursor : list Z) : list Z * list Z :=
  match cursor with
  | c :: rest =>
      if c =? 47 then ([], cursor)
      else let '(name, rest) := take_name rest in (c :: name, rest)
  | [] => ([], [])
  end.

(** The file system as its callers see it. A read returns its result and the
    bytes it stored in the caller's buffer. *)
Class FsOps (F : Type) : Type := {
  fs_get_status : F -> user_fs_status;
  fs_stat : F -> list Z -> res (Z * user_fs_dirent);
  fs_list_dir : F -> list Z -> Z -> res (Z * list user_fs_dirent);
  fs_read_file : F -> list Z -> Z -> Z -> res (Z * list Z);
  fs_write_file : F -> list Z -> list Z -> Z -> res (Z * F);
  fs_create_file : F -> list Z -> res (Z * F);
  fs_mkdir : F -> list Z -> res (Z * F);
  fs_unlink : F -> list Z -> res (Z * F);
  fs_rmdir : F -> list Z -> res (Z * F);
  fs_truncate_file : F -> list Z -> Z -> res (Z * F)
}.

(** What the callers rely on: no operation panics, a read stores at most the
    bytes asked for and as many as it reports, and a listing at most the entries
    asked for. *)
Class FsLaws (F : Type) `{FsOps F} : Type := {
  fs_ok : F -> Prop;
  fs_stat_law f path : fs_ok f -> exists r, fs_stat f path = Ret r;
  fs_list_law f path max :
    fs_ok f -> exists n es, fs_list_dir f path max = Ret (n, es)
      /\ (0 <= n -> n <= Z.max 0 max /\ Z.of_nat (length es) = n);
  fs_read_law f path len off :
    fs_ok f -> exists n bs, fs_read_file f path len off = Ret (n, bs)
      /\ Z.of_nat (length bs) <= Z.max 0 len
      /\ (0 <= n -> n = Z.of_nat (length bs));
  fs_write_law f path bs off :
    fs_ok f -> exists n f', fs_write_file f path bs off = Ret (n, f') /\ fs_ok f';
  fs_create_law f path : fs_ok f -> exists n f', fs_create_file f path = Ret (n, f') /\ fs_ok f';
  fs_mkdir_law f path : fs_ok f -> exists n f', fs_mkdir f path = Ret (n, f') /\ fs_ok f';
  fs_unlink_law f path : fs_ok f -> exists n f', fs_unlink f path = Ret (n, f') /\ fs_ok f';
  fs_rmdir_law f path : fs_ok f -> exists n f', fs_rmdir f path = Ret (n, f') /\ fs_ok f';
  fs_truncate_law f path size :
    fs_ok f -> exists n f', fs_truncate_file f path size = Ret (n, f') /\ fs_ok f'
}.
