(* ===== verification/Ext2Image.v ===== *)
(** * The ext2 image: layout, inodes and bitmaps (src/fs/ext2.c)

    The mounted file system is one byte array. [x_image] gives the byte at each
    offset of it, and the superblock and the group descriptors are the words at
    their offsets, so that every alias of the C code is an alias here. A pointer
    into the image is an offset, [None] for NULL. A division by a field of the
    superblock that is zero raises a CPU exception, which halts the kernel: it
    is [Panic]. *)

From S2P Require Import Prelude.

Definition EXT2_SUPERBLOCK_OFFSET : Z := 1024.
Definition EXT2_SUPER_MAGIC : Z := 0xef53.
Definition EXT2_ROOT_INODE : Z := 2.
Definition EXT2_N_BLOCKS : Z := 15.
Definition EXT2_NAME_LEN : Z := 255.
Definition EXT2_DIRECT_BLOCKS : Z := 12.
Definition EXT2_S_IFDIR : Z := 0x4000.
Definition EXT2_S_IFREG : Z := 0x8000.
Definition EXT2_FILE_TYPE_REG : Z := 1.
Definition EXT2_FILE_TYPE_DIR : Z := 2.
Definition EXT2_NAME_OFFSET : Z := 8.

(** [struct ext2_superblock]: the fields of the superblock of an image. *)
Definition sb_field32 (m : mem) (offset : Z) : Z := load32 m (EXT2_SUPERBLOCK_OFFSET + offset).
Definition sb_inodes_count (m : mem) : Z := sb_field32 m 0.
Definition sb_blocks_count (m : mem) : Z := sb_field32 m 4.
Definition sb_free_blocks_count (m : mem) : Z := sb_field32 m 12.
Definition sb_free_inodes_count (m : mem) : Z := sb_field32 m 16.
Definition sb_first_data_block (m : mem) : Z := sb_field32 m 20.
Definition sb_log_block_size (m : mem) : Z := sb_field32 m 24.
Definition sb_blocks_per_group (m : mem) : Z := sb_field32 m 32.
Definition sb_inodes_per_group (m : mem) : Z := sb_field32 m 40.
Definition sb_magic (m : mem) : Z := load16 m (EXT2_SUPERBLOCK_OFFSET + 56).
Definition sb_first_ino (m : mem) : Z := sb_field32 m 84.
Definition sb_inode_size (m : mem) : Z := load16 m (EXT2_SUPERBLOCK_OFFSET + 88).
Definition sb_volume_name (m : mem) : list Z := mem_read m (EXT2_SUPERBLOCK_OFFSET + 120) 16.
Definition sizeof_superblock : Z := 136.

(** [struct ext2_group_desc] at offset [d]. *)
Definition gd_block_bitmap (m : mem) (d : Z) : Z := load32 m d.
Definition gd_inode_bitmap (m : mem) (d : Z) : Z := load32 m (d + 4).
Definition gd_inode_table (m : mem) (d : Z) : Z := load32 m (d + 8).
Definition gd_free_blocks_count (m : mem) (d : Z) : Z := load16 m (d + 12).
Definition gd_free_inodes_count (m : mem) (d : Z) : Z := load16 m (d + 14).
Definition gd_used_dirs_count (m : mem) (d : Z) : Z := load16 m (d + 16).
Definition sizeof_group_desc : Z := 32.

Record ext2_inode : Type := mk_inode {
  i_mode : Z; i_uid : Z; i_size : Z; i_atime : Z; i_ctime : Z; i_mtime : Z; i_dtime : Z;
  i_gid : Z; i_links_count : Z; i_blocks : Z; i_flags : Z; i_osd1 : Z;
  i_block : list Z;
  i_generation : Z; i_file_acl : Z; i_dir_acl : Z; i_faddr : Z;
  i_osd2 : list Z
}.

Definition sizeof_inode : Z := 128.

Definition zero_inode : ext2_inode :=
  mk_inode 0 0 0 0 0 0 0 0 0 0 0 0 (repeat 0 15) 0 0 0 0 (repeat 0 12).

(** The structure at offset [o], and the bytes of a structure. *)
Definition inode_at (m : mem) (o : Z) : ext2_inode :=
  mk_inode (load16 m o) (load16 m (o + 2)) (load32 m (o + 4)) (load32 m (o + 8))
    (load32 m (o + 12)) (load32 m (o + 16)) (load32 m (o + 20)) (load16 m (o + 24))
    (load16 m (o + 26)) (load32 m (o + 28)) (load32 m (o + 32)) (load32 m (o + 36))
    (map (fun k => load32 m (o + 40 + 4 * Z.of_nat k)) (seq 0 15))
    (load32 m (o + 100)) (load32 m (o + 104)) (load32 m (o + 108)) (load32 m (o + 112))
    (mem_read m (o + 116) 12).

Definition inode_bytes (i : ext2_inode) : list Z :=
  le_bytes 2 (i_mode i) ++ le_bytes 2 (i_uid i) ++ le_bytes 4 (i_size i) ++ le_bytes 4 (i_atime i)
  ++ le_bytes 4 (i_ctime i) ++ le_bytes 4 (i_mtime i) ++ le_bytes 4 (i_dtime i)
  ++ le_bytes 2 (i_gid i) ++ le_bytes 2 (i_links_count i) ++ le_bytes 4 (i_blocks i)
  ++ le_bytes 4 (i_flags i) ++ le_bytes 4 (i_osd1 i) ++ flat_map (le_bytes 4) (i_block i)
  ++ le_bytes 4 (i_generation i) ++ le_bytes 4 (i_file_acl i) ++ le_bytes 4 (i_dir_acl i)
  ++ le_bytes 4 (i_faddr i) ++ i_osd2 i.

Definition set_i_size (i : ext2_inode) (v : Z) : ext2_inode :=
  mk_inode (i_mode i) (i_uid i) v (i_atime i) (i_ctime i) (i_mtime i) (i_dtime i) (i_gid i)
    (i_links_count i) (i_blocks i) (i_flags i) (i_osd1 i) (i_block i) (i_generation i)
    (i_file_acl i) (i_dir_acl i) (i_faddr i) (i_osd2 i).

Definition set_i_links_count (i : ext2_inode) (v : Z) : ext2_inode :=
  mk_inode (i_mode i) (i_uid i) (i_size i) (i_atime i) (i_ctime i) (i_mtime i) (i_dtime i) (i_gid i)
    v (i_blocks i) (i_flags i) (i_osd1 i) (i_block i) (i_generation i)
    (i_file_acl i) (i_dir_acl i) (i_faddr i) (i_osd2 i).

Definition set_i_blocks (i : ext2_inode) (v : Z) : ext2_inode :=
  mk_inode (i_mode i) (i_uid i) (i_size i) (i_atime i) (i_ctime i) (i_mtime i) (i_dtime i) (i_gid i)
    (i_links_count i) v (i_flags i) (i_osd1 i) (i_block i) (i_generation i)
    (i_file_acl i) (i_dir_acl i) (i_faddr i) (i_osd2 i).

Definition set_i_mode (i : ext2_inode) (v : Z) : ext2_inode :=
  mk_inode v (i_uid i) (i_size i) (i_atime i) (i_ctime i) (i_mtime i) (i_dtime i) (i_gid i)
    (i_links_count i) (i_blocks i) (i_flags i) (i_osd1 i) (i_block i) (i_generation i)
    (i_file_acl i) (i_dir_acl i) (i_faddr i) (i_osd2 i).

(** [inode->block[k]], a read and a write. *)
Definition i_block_at (i : ext2_inode) (k : Z) : Z := nth (Z.to_nat k) (i_block i) 0.

Definition set_i_block (i : ext2_inode) (k v : Z) : ext2_inode :=
  mk_inode (i_mode i) (i_uid i) (i_size i) (i_atime i) (i_ctime i) (i_mtime i) (i_dtime i) (i_gid i)
    (i_links_count i) (i_blocks i) (i_flags i) (i_osd1 i) (<[Z.to_nat k := v]> (i_block i))
    (i_generation i) (i_file_acl i) (i_dir_acl i) (i_faddr i) (i_osd2 i).

(** The file-scope variables. [x_present] tells whether [fs_image] is set,
    [x_superblock] whether [superblock] is. The write-back function is a device:
    its verdict on an image, and the images it was given, newest first. *)
Record ext2 : Type := mk_ext2 {
  x_present : bool;
  x_image : mem;
  x_size : Z;
  x_superblock : bool;
  x_block_size : Z;
  x_group_count : Z;
  x_writeback : option (mem -> Z -> bool);
  x_written : list mem
}.

Definition set_image (x : ext2) (m : mem) : ext2 :=
  mk_ext2 (x_present x) m (x_size x) (x_superblock x) (x_block_size x) (x_group_count x)
    (x_writeback x) (x_written x).

(** ** Pointers into the image *)

Definition image_range_valid (x : ext2) (offset len : Z) : bool :=
  if (x_size x <? offset) || (x_size x - offset <? len) then false else true.

Definition image_ptr (x : ext2) (offset len : Z) : option Z :=
  if negb (image_range_valid x offset len) then None else Some offset.

Definition block_ptr (x : ext2) (block offset len : Z) : option Z :=
  let base := block * x_block_size x in
  if (x_block_size x <? offset) || (x_block_size x - offset <? len) then None
  else image_ptr x (base + offset) len.

Definition group_desc (x : ext2) (group : Z) : option Z :=
  if x_group_count x <=? group then None
  else
    let table := if x_block_size x =? 1024 then 2 else 1 in
    image_ptr x (table * x_block_size x + group * sizeof_group_desc) sizeof_group_desc.

(** ** Inodes *)

(** Unsigned division by a field of the image. *)
Definition udivmod (a b : Z) : res (Z * Z) := if b =? 0 then Panic else Ret (a / b, a mod b).

(** The offset of an inode, or [None] where the code returns false. *)
Definition inode_offset (x : ext2) (inode_number : Z) : res (option Z) :=
  let m := x_image x in
  if (inode_number =? 0) || (sb_inodes_count m <? inode_number) then Ret None
  else
    let index := inode_number - 1 in
    udivmod index (sb_inodes_per_group m) ≫= fun '(group, group_index) =>
    Ret match group_desc x group with
        | None => None
        | Some desc =>
            let inode_size := if negb (sb_inode_size m =? 0) then sb_inode_size m else 128 in
            let offset := gd_inode_table m desc * x_block_size x + group_index * inode_size in
            image_ptr x offset sizeof_inode
        end.

Definition read_inode (x : ext2) (inode_number : Z) : res (option ext2_inode) :=
  inode_offset x inode_number ≫= fun o => Ret (option_map (inode_at (x_image x)) o).

Definition write_inode (x : ext2) (inode_number : Z) (i : ext2_inode) : res (bool * ext2) :=
  inode_offset x inode_number ≫= fun o =>
  Ret match o with
      | None => (false, x)
      | Some offset => (true, set_image x (mem_write (x_image x) offset (inode_bytes i)))
      end.

Definition inode_size_bytes (i : ext2_inode) : Z := i_size i.

Definition dir_entry_min_len (name_len : Z) : Z :=
  u16 (Z.land (EXT2_NAME_OFFSET + name_len + 3) (not64 3)).

(** ** Bitmaps *)

Definition bitmap_get (m : mem) (bitmap index : Z) : bool :=
  negb (Z.land (load8 m (bitmap + index / 8)) (u8 (Z.shiftl 1 (index mod 8))) =? 0).

Definition bitmap_set (m : mem) (bitmap index : Z) (value : bool) : mem :=
  let mask := u8 (Z.shiftl 1 (index mod 8)) in
  let a := bitmap + index / 8 in
  if value then store8 m a (Z.lor (load8 m a) mask)
  else store8 m a (Z.land (load8 m a) (255 - mask)).

(** The entries of the indirect block at [p]. *)
Definition indirect_at (m : mem) (p i : Z) : Z := load32 m (p + 4 * i).

Definition inode_allocated_blocks (x : ext2) (i : ext2_inode) : Z :=
  let count := loop_state (range_loop 0 EXT2_DIRECT_BLOCKS 1 (fun k count =>
                 Cont (if negb (i_block_at i k =? 0) then u32 (count + 1) else count)) 0) in
  if negb (i_block_at i 12 =? 0) then
    let count := u32 (count + 1) in
    match block_ptr x (i_block_at i 12) 0 (x_block_size x) with
    | None => count
    | Some indirect =>
        let entries := x_block_size x / 4 in
        loop_state (range_loop 0 entries 1 (fun k count =>
          Cont (if negb (indirect_at (x_image x) indirect k =? 0) then u32 (count + 1) else count)) count)
    end
  else count.

Definition update_inode_block_count (x : ext2) (i : ext2_inode) : ext2_inode :=
  set_i_blocks i (u32 (inode_allocated_blocks x i * (x_block_size x / 512))).

(** Counters of the superblock and of the descriptor at [desc]. *)
Definition sb_set_free_blocks (m : mem) (v : Z) : mem := store32 m (EXT2_SUPERBLOCK_OFFSET + 12) v.
Definition sb_set_free_inodes (m : mem) (v : Z) : mem := store32 m (EXT2_SUPERBLOCK_OFFSET + 16) v.
Definition gd_set_free_blocks (m : mem) (d v : Z) : mem := store16 m (d + 12) v.
Definition gd_set_free_inodes (m : mem) (d v : Z) : mem := store16 m (d + 14) v.
Definition gd_set_used_dirs (m : mem) (d v : Z) : mem := store16 m (d + 16) v.

Definition mark_block_used (x : ext2) (block : Z) (used : bool) : res (bool * ext2) :=
  let m := x_image x in
  if sb_blocks_count m <=? block then Ret (false, x)
  else
    udivmod (u32 (block - sb_first_data_block m)) (sb_blocks_per_group m) ≫= fun '(group, group_index) =>
    Ret match group_desc x group with
        | None => (false, x)
        | Some desc =>
            match block_ptr x (gd_block_bitmap m desc) 0 (x_block_size x) with
            | None => (false, x)
            | Some bitmap =>
                let old := bitmap_get m bitmap group_index in
                if Bool.eqb old used then (true, x)
                else
                  let m := bitmap_set m bitmap group_index used in
                  let m :=
                    if used then
                      let m := if 0 <? sb_free_blocks_count m
                               then sb_set_free_blocks m (sb_free_blocks_count m - 1) else m in
                      if 0 <? gd_free_blocks_count m desc
                      then gd_set_free_blocks m desc (gd_free_blocks_count m desc - 1) else m
                    else
                      let m := sb_set_free_blocks m (sb_free_blocks_count m + 1) in
                      gd_set_free_blocks m desc (gd_free_blocks_count m desc + 1) in
                  (true, set_image x m)
            end
        end.

Definition mark_inode_used (x : ext2) (inode_number : Z) (used is_dir : bool) : res (bool * ext2) :=
  let m := x_image x in
  if (inode_number =? 0) || (sb_inodes_count m <? inode_number) then Ret (false, x)
  else
    let index := inode_number - 1 in
    udivmod index (sb_inodes_per_group m) ≫= fun '(group, group_index) =>
    Ret match group_desc x group with
        | None => (false, x)
        | Some desc =>
            match block_ptr x (gd_inode_bitmap m desc) 0 (x_block_size x) with
            | None => (false, x)
            | Some bitmap =>
                let old := bitmap_get m bitmap group_index in
                if Bool.eqb old used then (true, x)
                else
                  let m := bitmap_set m bitmap group_index used in
                  let m :=
                    if used then
                      let m := if 0 <? sb_free_inodes_count m
                               then sb_set_free_inodes m (sb_free_inodes_count m - 1) else m in
                      let m := if 0 <? gd_free_inodes_count m desc
                               then gd_set_free_inodes m desc (gd_free_inodes_count m desc - 1) else m in
                      if is_dir then gd_set_used_dirs m desc (gd_used_dirs_count m desc + 1) else m
                    else
                      let m := sb_set_free_inodes m (sb_free_inodes_count m + 1) in
                      let m := gd_set_free_inodes m desc (gd_free_inodes_count m desc + 1) in
                      if is_dir && (0 <? gd_used_dirs_count m desc)
                      then gd_set_used_dirs m desc (gd_used_dirs_count m desc - 1) else m in
                  (true, set_image x m)
            end
        end.

(** ** Allocation *)

(** The clear block found in a group: mark it and clear its contents. The
    result is the value [allocate_block] returns. *)
Definition take_block (x : ext2) (block : Z) : res (Z * ext2) :=
  mark_block_used x block true ≫= fun '(ok, x) =>
  if negb ok then Ret (0, x)
  else
    match block_ptr x block 0 (x_block_size x) with
    | None => mark_block_used x block false ≫= fun '(_, x) => Ret (0, x)
    | Some ptr =>
        Ret (block, set_image x (mem_fill (x_image x) ptr 0 (Z.to_nat (x_block_size x))))
    end.

(** The loop body of [allocate_block]. *)
Definition allocate_in_group (group : Z) (x : ext2) : res (ctl ext2 (Z * ext2)) :=
  let m := x_image x in
  match group_desc x group with
  | None => Ret (Cont x)
  | Some desc =>
      if gd_free_blocks_count m desc =? 0 then Ret (Cont x)
      else
        match block_ptr x (gd_block_bitmap m desc) 0 (x_block_size x) with
        | None => Ret (Break (0, x))
        | Some bitmap =>
            let group_base := u32 (sb_first_data_block m + u32 (group * sb_blocks_per_group m)) in
            let group_limit := sb_blocks_per_group m in
            let group_limit := if sb_blocks_count m <? u32 (group_base + group_limit)
                               then u32 (sb_blocks_count m - group_base) else group_limit in
            mrange 0 group_limit 1 (fun i x =>
              if negb (bitmap_get (x_image x) bitmap i) then
                take_block x (u32 (group_base + i)) ≫= fun r => Ret (Break r)
              else Ret (Cont x)) x
        end
  end.

Definition allocate_block (x : ext2) : res (Z * ext2) :=
  mrange 0 (x_group_count x) 1 allocate_in_group x ≫= fun c =>
  Ret match c with Break r => r | Cont x => (0, x) end.

Definition allocate_inode (x : ext2) (is_dir : bool) : res (Z * ext2) :=
  let m := x_image x in
  let first := if negb (sb_first_ino m =? 0) then sb_first_ino m else 11 in
  mrange first (sb_inodes_count m + 1) 1 (fun inode x =>
    let m := x_image x in
    let index := inode - 1 in
    udivmod index (sb_inodes_per_group m) ≫= fun '(group, group_index) =>
    match group_desc x group with
    | None => Ret (Cont x)
    | Some desc =>
        if gd_free_inodes_count m desc =? 0 then Ret (Cont x)
        else
          match block_ptr x (gd_inode_bitmap m desc) 0 (x_block_size x) with
          | None => Ret (Break (0, x))
          | Some bitmap =>
              if negb (bitmap_get m bitmap group_index) then
                mark_inode_used x inode true is_dir ≫= fun '(ok, x) =>
                if negb ok then Ret (Break (0, x))
                else write_inode x inode zero_inode ≫= fun '(_, x) => Ret (Break (inode, x))
              else Ret (Cont x)
          end
    end) x ≫= fun c =>
  Ret match c with Break r => r | Cont x => (0, x) end.
