(* ===== verification/Ext2.v ===== *)
(** * The ext2 file system (src/fs/ext2.c)

    File blocks, directories and the operations the kernel calls, over the image
    of Ext2Image.v. Inode structures on the C stack are values that are passed
    and returned. The 4096-byte block buffer on the stack is memory of its own;
    where C reads past its end, which a damaged directory can make it do, this
    memory reads as 0. *)

From S2P Require Import Prelude Fs Ext2Image.

(** ** File blocks *)

Definition block_id_at (x : ext2) (inode : ext2_inode) (file_block_index : Z) : Z :=
  if file_block_index <? EXT2_DIRECT_BLOCKS then i_block_at inode file_block_index
  else
    let file_block_index := file_block_index - EXT2_DIRECT_BLOCKS in
    let entries_per_block := x_block_size x / 4 in
    if (file_block_index <? entries_per_block) && negb (i_block_at inode 12 =? 0) then
      match block_ptr x (i_block_at inode 12) 0 (x_block_size x) with
      | Some indirect => indirect_at (x_image x) indirect file_block_index
      | None => 0
      end
    else 0.

Definition set_block_id_at (x : ext2) (inode : ext2_inode) (file_block_index block_id : Z)
    (allocate_metadata : bool) : res (bool * ext2_inode * ext2) :=
  if file_block_index <? EXT2_DIRECT_BLOCKS
  then Ret (true, set_i_block inode file_block_index block_id, x)
  else
    let file_block_index := file_block_index - EXT2_DIRECT_BLOCKS in
    let entries_per_block := x_block_size x / 4 in
    if entries_per_block <=? file_block_index then Ret (false, inode, x)
    else
      (if i_block_at inode 12 =? 0 then
         if negb allocate_metadata then Ret (false, inode, x)
         else
           allocate_block x ≫= fun '(b, x) =>
           Ret (negb (b =? 0), set_i_block inode 12 b, x)
       else Ret (true, inode, x)) ≫= fun '(ok, inode, x) =>
      if negb ok then Ret (false, inode, x)
      else
        match block_ptr x (i_block_at inode 12) 0 (x_block_size x) with
        | None => Ret (false, inode, x)
        | Some indirect =>
            Ret (true, inode,
                 set_image x (store32 (x_image x) (indirect + 4 * file_block_index) block_id))
        end.

(** The block, or [None] for a false return. *)
Definition ensure_file_block (x : ext2) (inode : ext2_inode) (file_block_index : Z)
    : res (option Z * ext2_inode * ext2) :=
  let block := block_id_at x inode file_block_index in
  if negb (block =? 0) then Ret (Some block, inode, x)
  else
    allocate_block x ≫= fun '(block, x) =>
    if block =? 0 then Ret (None, inode, x)
    else
      set_block_id_at x inode file_block_index block true ≫= fun '(ok, inode, x) =>
      if negb ok then mark_block_used x block false ≫= fun '(_, x) => Ret (None, inode, x)
      else Ret (Some block, update_inode_block_count x inode, x).

(** The loop of [read_inode_bytes]: its verdict and the bytes stored so far. *)
Fixpoint read_bytes_loop (fuel : nat) (x : ext2) (inode : ext2_inode) (offset len copied : Z)
    (out : list Z) : res (bool * list Z) :=
  if copied <? len then
    match fuel with
    | O => NoFuel
    | S fuel =>
        let file_offset := offset + copied in
        let file_block := u32 (file_offset / x_block_size x) in
        let block_offset := file_offset mod x_block_size x in
        let disk_block := block_id_at x inode file_block in
        let chunk := x_block_size x - block_offset in
        let chunk := if len - copied <? chunk then len - copied else chunk in
        if disk_block =? 0 then
          read_bytes_loop fuel x inode offset len (copied + chunk) (out ++ repeat 0 (Z.to_nat chunk))
        else
          match block_ptr x disk_block block_offset chunk with
          | None => Ret (false, out)
          | Some src =>
              read_bytes_loop fuel x inode offset len (copied + chunk)
                (out ++ mem_read (x_image x) src (Z.to_nat chunk))
          end
    end
  else Ret (true, out).

Definition read_inode_bytes (x : ext2) (inode : ext2_inode) (offset len : Z) : res (bool * list Z) :=
  let file_size := inode_size_bytes inode in
  if (file_size <? offset) || (file_size - offset <? len) then Ret (false, [])
  else read_bytes_loop (Z.to_nat (len / x_block_size x + 2)) x inode offset len 0 [].

Definition inode_is_dir (inode : ext2_inode) : bool :=
  Z.land (i_mode inode) EXT2_S_IFDIR =? EXT2_S_IFDIR.

Definition inode_is_file (inode : ext2_inode) : bool :=
  Z.land (i_mode inode) EXT2_S_IFREG =? EXT2_S_IFREG.

(** ** Directories *)

(** [struct ext2_dir_entry] at [p]. *)
Definition de_inode (m : mem) (p : Z) : Z := load32 m p.
Definition de_rec_len (m : mem) (p : Z) : Z := load16 m (p + 4).
Definition de_name_len (m : mem) (p : Z) : Z := load8 m (p + 6).
Definition de_file_type (m : mem) (p : Z) : Z := load8 m (p + 7).
Definition de_name (m : mem) (p : Z) (len : Z) : list Z := mem_read m (p + 8) (Z.to_nat len).

Definition names_equal (m : mem) (p : Z) (name : list Z) : bool :=
  (de_name_len m p =? Z.of_nat (length name))
  && bool_decide (de_name m p (Z.of_nat (length name)) = name).

(** "." and "..". *)
Definition entry_is_dot (m : mem) (p : Z) : bool :=
  ((de_name_len m p =? 1) && (load8 m (p + 8) =? 46))
  || ((de_name_len m p =? 2) && (load8 m (p + 8) =? 46) && (load8 m (p + 9) =? 46)).

(** The loop over the entries of a block that every directory function has:
    [Break None] is the return on a malformed entry. *)
Fixpoint scan_entries {S R : Type} (fuel : nat) (m : mem) (base limit pos : Z)
    (body : Z -> S -> ctl S R) (s : S) : option (ctl S (option R)) :=
  if pos + 8 <=? limit then
    match fuel with
    | O => None
    | Datatypes.S fuel =>
        let rec_len := de_rec_len m (base + pos) in
        if (rec_len <? 8) || (limit <? pos + rec_len) then Some (Break None)
        else
          match body (base + pos) s with
          | Break r => Some (Break (Some r))
          | Cont s => scan_entries fuel m base limit (pos + rec_len) body s
          end
    end
  else Some (Cont s).

(** Enough turns for a block: an entry takes at least eight bytes. *)
Definition scan_fuel (x : ext2) : nat := Z.to_nat (x_block_size x / 8 + 1).

(** The loop over the blocks of a directory that are read into the [block]
    buffer on the stack; a block that cannot be read, or an entry that is
    malformed, leaves with [fail_read] or [fail_entry]. *)
Definition scan_dir {S R : Type} (x : ext2) (dir : ext2_inode) (fail_read fail_entry : S -> R)
    (body : mem -> Z -> S -> ctl S R) (s : S) : res (ctl S R) :=
  let size := inode_size_bytes dir in
  mrange 0 size (x_block_size x) (fun offset '(block, s) =>
    let chunk := if size - offset <? x_block_size x then size - offset else x_block_size x in
    read_inode_bytes x dir offset chunk ≫= fun '(ok, bytes) =>
    let block := mem_write block 0 bytes in
    if negb ok then Ret (Break (fail_read s))
    else
      of_fuel (scan_entries (scan_fuel x) block 0 chunk 0 (fun p s =>
                 match body block p s with Cont s => Cont s | Break r => Break r end) s) ≫= fun c =>
      Ret match c with
          | Cont s => Cont (block, s)
          | Break (Some r) => Break r
          | Break None => Break (fail_entry s)
          end) (fun _ => 0, s) ≫= fun c =>
  Ret match c with Cont (_, s) => Cont s | Break r => Break r end.

(** The inode number found, or [None] for a false return. *)
Definition find_in_dir (x : ext2) (dir : ext2_inode) (name : list Z) : res (option Z) :=
  let name_len := Z.of_nat (length name) in
  if negb (inode_is_dir dir) || (name_len =? 0) || (EXT2_NAME_LEN <? name_len) then Ret None
  else if 4096 <? x_block_size x then Ret None
  else
    scan_dir x dir (fun _ => None) (fun _ => None) (fun m p (_ : unit) =>
      if negb (de_inode m p =? 0) && names_equal m p name then Break (Some (de_inode m p))
      else Cont tt) tt ≫= fun c =>
    Ret match c with Break r => r | Cont _ => None end.

Definition dir_is_empty (x : ext2) (dir : ext2_inode) : res bool :=
  if negb (inode_is_dir dir) then Ret false
  else if 4096 <? x_block_size x then Ret false
  else
    scan_dir x dir (fun _ => false) (fun _ => false) (fun m p (_ : unit) =>
      if negb (de_inode m p =? 0) && negb (entry_is_dot m p) then Break false else Cont tt) tt ≫= fun c =>
    Ret match c with Break r => r | Cont _ => true end.

Definition ext2_mounted (x : ext2) : bool := x_present x && x_superblock x.

Fixpoint lookup_loop (fuel : nat) (x : ext2) (cursor : list Z) (current : ext2_inode)
    (current_inode : Z) : res (option (ext2_inode * Z)) :=
  match cursor with
  | [] => Ret (Some (current, current_inode))
  | _ =>
      match fuel with
      | O => NoFuel
      | S fuel =>
          let '(name, rest) := take_name cursor in
          match name with
          | [] => lookup_loop fuel x (skip_slashes rest) current current_inode
          | _ =>
              find_in_dir x current name ≫= fun r =>
              match r with
              | None => Ret None
              | Some next_inode =>
                  read_inode x next_inode ≫= fun i =>
                  match i with
                  | None => Ret None
                  | Some next => lookup_loop fuel x (skip_slashes rest) next next_inode
                  end
              end
          end
      end
  end.

(** The inode found and its number, or [None] for a false return. *)
Definition path_lookup (x : ext2) (path : list Z) : res (option (ext2_inode * Z)) :=
  match path with
  | 47 :: _ =>
      if negb (ext2_mounted x) then Ret None
      else
        read_inode x EXT2_ROOT_INODE ≫= fun i =>
        match i with
        | None => Ret None
        | Some root => lookup_loop (length path) x (skip_slashes path) root EXT2_ROOT_INODE
        end
  | _ => Ret None
  end.

(** [while (len > 1 && path[len - 1] == '/') len--]. *)
Fixpoint strip_slashes (path : list Z) (len : nat) : nat :=
  match len with
  | S (S n as m) => if nth m path 0 =? 47 then strip_slashes path m else len
  | _ => len
  end.

(** [while (slash > 0 && path[slash] != '/') slash--]. *)
Fixpoint last_slash (path : list Z) (slash : nat) : nat :=
  match slash with
  | S n => if nth slash path 0 =? 47 then slash else last_slash path n
  | O => O
  end.

(** The parent's path and the name, or [None] for a false return. *)
Definition split_parent_path (path : list Z) (parent_size : Z) : option (list Z * list Z) :=
  match path with
  | 47 :: _ =>
      if parent_size =? 0 then None
      else
        let len := strip_slashes path (length path) in
        if (len <=? 1)%nat then None
        else
          let slash := last_slash path (len - 1) in
          let name_len := (len - slash - 1)%nat in
          let name := firstn name_len (skipn (slash + 1) path) in
          if (name_len =? 0)%nat || (EXT2_NAME_LEN <? Z.of_nat name_len) then None
          else if (slash =? 0)%nat then if parent_size <? 2 then None else Some ([47], name)
          else if parent_size <? Z.of_nat slash + 1 then None
          else Some (firstn slash path, name)
  | _ => None
  end.

(** The parent's inode, its number and the name. *)
Definition parent_lookup (x : ext2) (path : list Z) : res (option (ext2_inode * Z * list Z)) :=
  match split_parent_path path USER_FS_PATH_SIZE with
  | None => Ret None
  | Some (parent_path, name) =>
      path_lookup x parent_path ≫= fun r =>
      Ret match r with
          | None => None
          | Some (parent, number) =>
              if inode_is_dir parent then Some (parent, number, name) else None
          end
  end.

(** Fill an entry; its record length is already there. *)
Definition put_entry (m : mem) (p child : Z) (name : list Z) (file_type : Z) : mem :=
  let m := store32 m p child in
  let m := store8 m (p + 6) (Z.of_nat (length name)) in
  let m := store8 m (p + 7) file_type in
  mem_write m (p + 8) name.

(** The image after inserting into the entry at [p], whose record has room. *)
Definition insert_entry (m : mem) (p actual child : Z) (name : list Z) (file_type : Z) : mem :=
  let old_rec_len := de_rec_len m p in
  if negb (de_inode m p =? 0) then
    let m := store16 m (p + 4) actual in
    let p := p + actual in
    let m := store16 m (p + 4) (old_rec_len - actual) in
    put_entry m p child name file_type
  else put_entry m p child name file_type.

(** The search of one block for an entry with room. *)
Definition find_room (x : ext2) (block needed : Z) : option (ctl unit (option (Z * Z))) :=
  let m := x_image x in
  scan_entries (scan_fuel x) m block (x_block_size x) 0 (fun p (_ : unit) =>
    let actual := if negb (de_inode m p =? 0) then dir_entry_min_len (de_name_len m p) else 8 in
    if actual + needed <=? de_rec_len m p then Break (p, actual) else Cont tt) tt.

Definition add_dir_entry (x : ext2) (dir : ext2_inode) (dir_inode_number child_inode_number : Z)
    (name : list Z) (file_type : Z) : res (bool * ext2) :=
  let name_len := Z.of_nat (length name) in
  if negb (inode_is_dir dir) || (name_len =? 0) || (EXT2_NAME_LEN <? name_len) then Ret (false, x)
  else
    let needed := dir_entry_min_len name_len in
    let size := inode_size_bytes dir in
    let blocks := u32 (size + x_block_size x - 1) / x_block_size x in
    let blocks := if blocks =? 0 then 1 else blocks in
    mrange 0 blocks 1 (fun file_block '(dir, x) =>
      ensure_file_block x dir file_block ≫= fun '(b, dir, x) =>
      match b with
      | None => Ret (Break (false, x))
      | Some disk_block =>
          match block_ptr x disk_block 0 (x_block_size x) with
          | None => Ret (Break (false, x))
          | Some block =>
              of_fuel (find_room x block needed) ≫= fun c =>
              match c with
              | Break (Some (p, actual)) =>
                  let x := set_image x (insert_entry (x_image x) p actual child_inode_number name file_type) in
                  let dir := set_i_size dir (u32 (blocks * x_block_size x)) in
                  let dir := update_inode_block_count x dir in
                  write_inode x dir_inode_number dir ≫= fun r => Ret (Break r)
              | Break None => Ret (Break (false, x))
              | Cont _ => Ret (Cont (dir, x))
              end
          end
      end) (dir, x) ≫= fun c =>
    match c with
    | Break r => Ret r
    | Cont (dir, x) =>
        ensure_file_block x dir blocks ≫= fun '(b, dir, x) =>
        match b with
        | None => Ret (false, x)
        | Some disk_block =>
            match block_ptr x disk_block 0 (x_block_size x) with
            | None => Ret (false, x)
            | Some block =>
                let m := mem_fill (x_image x) block 0 (Z.to_nat (x_block_size x)) in
                let m := store16 m (block + 4) (x_block_size x) in
                let x := set_image x (put_entry m block child_inode_number name file_type) in
                let dir := set_i_size dir (u32 (u32 (blocks + 1) * x_block_size x)) in
                let dir := update_inode_block_count x dir in
                write_inode x dir_inode_number dir
            end
        end
    end.

(** The entry named [name] in a block and the used entry before it. *)
Definition find_entry (x : ext2) (block : Z) (name : list Z)
    : option (ctl (option Z) (option (Z * option Z))) :=
  let m := x_image x in
  scan_entries (scan_fuel x) m block (x_block_size x) 0 (fun p previous =>
    if negb (de_inode m p =? 0) && names_equal m p name then Break (p, previous)
    else Cont (if negb (de_inode m p =? 0) then Some p else previous)) None.

(** Whether an entry was removed, the inode it named and the new state. *)
Definition remove_dir_entry (x : ext2) (dir : ext2_inode) (dir_inode_number : Z) (name : list Z)
    : res (bool * Z * ext2) :=
  let name_len := Z.of_nat (length name) in
  if negb (inode_is_dir dir) || (name_len =? 0) || (EXT2_NAME_LEN <? name_len) then Ret (false, 0, x)
  else
    let size := inode_size_bytes dir in
    mrange 0 size (x_block_size x) (fun offset (_ : unit) =>
      let file_block := u32 (offset / x_block_size x) in
      let disk_block := block_id_at x dir file_block in
      if disk_block =? 0 then Ret (Cont tt)
      else
        match block_ptr x disk_block 0 (x_block_size x) with
        | None => Ret (Break (false, 0, x))
        | Some block =>
            of_fuel (find_entry x block name) ≫= fun c =>
            match c with
            | Break (Some (p, previous)) =>
                let m := x_image x in
                let removed := de_inode m p in
                let m := match previous with
                         | Some q => store16 m (q + 4) (de_rec_len m q + de_rec_len m p)
                         | None => store32 m p 0
                         end in
                write_inode (set_image x m) dir_inode_number dir ≫= fun '(ok, x) =>
                Ret (Break (ok, removed, x))
            | Break None => Ret (Break (false, 0, x))
            | Cont _ => Ret (Cont tt)
            end
        end) tt ≫= fun c =>
    Ret match c with Break r => r | Cont _ => (false, 0, x) end.

(** ** Sizes *)

Definition free_inode_blocks (x : ext2) (inode : ext2_inode) (keep_blocks : Z)
    : res (bool * ext2_inode * ext2) :=
  let entries_per_block := x_block_size x / 4 in
  let max_blocks := EXT2_DIRECT_BLOCKS + entries_per_block in
  if max_blocks <? keep_blocks then Ret (false, inode, x)
  else
    mrange keep_blocks EXT2_DIRECT_BLOCKS 1 (fun i '(inode, x) =>
      if negb (i_block_at inode i =? 0) then
        mark_block_used x (i_block_at inode i) false ≫= fun '(_, x) =>
        Ret (Cont (set_i_block inode i 0, x))
      else Ret (Cont (inode, x))) (inode, x) ≫= fun c =>
    let '(inode, x) := match c with Cont s => s | Break s => s end in
    if i_block_at inode 12 =? 0 then Ret (true, update_inode_block_count x inode, x)
    else
      match block_ptr x (i_block_at inode 12) 0 (x_block_size x) with
      | None => Ret (false, inode, x)
      | Some indirect =>
          let indirect_keep := if EXT2_DIRECT_BLOCKS <? keep_blocks
                               then keep_blocks - EXT2_DIRECT_BLOCKS else 0 in
          mrange indirect_keep entries_per_block 1 (fun i x =>
            let b := indirect_at (x_image x) indirect i in
            if negb (b =? 0) then
              mark_block_used x b false ≫= fun '(_, x) =>
              Ret (Cont (set_image x (store32 (x_image x) (indirect + 4 * i) 0)))
            else Ret (Cont x)) x ≫= fun c =>
          let x := match c with Cont x => x | Break x => x end in
          (if keep_blocks <=? EXT2_DIRECT_BLOCKS then
             mark_block_used x (i_block_at inode 12) false ≫= fun '(_, x) =>
             Ret (set_i_block inode 12 0, x)
           else Ret (inode, x)) ≫= fun '(inode, x) =>
          Ret (true, update_inode_block_count x inode, x)
      end.

Definition resize_inode_data (x : ext2) (inode : ext2_inode) (inode_number new_size : Z)
    : res (bool * ext2_inode * ext2) :=
  let bs := x_block_size x in
  let entries_per_block := bs / 4 in
  let max_size := (EXT2_DIRECT_BLOCKS + entries_per_block) * bs in
  if max_size <? new_size then Ret (false, inode, x)
  else
    let old_size := inode_size_bytes inode in
    let old_blocks := u32 ((old_size + bs - 1) / bs) in
    let new_blocks := u32 ((new_size + bs - 1) / bs) in
    (if old_blocks <? new_blocks then
       mrange old_blocks new_blocks 1 (fun i '(inode, x) =>
         ensure_file_block x inode i ≫= fun '(b, inode, x) =>
         Ret match b with None => Break (inode, x) | Some _ => Cont (inode, x) end) (inode, x) ≫= fun c =>
       Ret match c with Cont (inode, x) => (true, inode, x) | Break (inode, x) => (false, inode, x) end
     else if new_blocks <? old_blocks then free_inode_blocks x inode new_blocks
     else Ret (true, inode, x)) ≫= fun '(ok, inode, x) =>
    if negb ok then Ret (false, inode, x)
    else
      let inode := set_i_size inode (u32 new_size) in
      let x :=
        if (old_size <? new_size) && negb (old_size mod bs =? 0) then
          let file_block := u32 (old_size / bs) in
          let block_offset := old_size mod bs in
          let disk_block := block_id_at x inode file_block in
          let clear_len := bs - block_offset in
          match block_ptr x disk_block block_offset clear_len with
          | Some tail => set_image x (mem_fill (x_image x) tail 0 (Z.to_nat clear_len))
          | None => x
          end
        else x in
      let inode := update_inode_block_count x inode in
      write_inode x inode_number inode ≫= fun '(ok, x) => Ret (ok, inode, x).

Definition user_file_type (inode : ext2_inode) (dirent_type : Z) : Z :=
  if (dirent_type =? USER_FS_TYPE_DIR) || inode_is_dir inode then USER_FS_TYPE_DIR
  else if (dirent_type =? USER_FS_TYPE_FILE) || inode_is_file inode then USER_FS_TYPE_FILE
  else USER_FS_TYPE_UNKNOWN.
