(* ===== verification/Ext2Ops.v ===== *)
(** * The ext2 file system: the operations of ext2.h

    Mounting, write-back and the calls on paths; the instance of the interface
    of Fs.v. *)

From S2P Require Import Prelude Fs Ext2Image Ext2.

(** [image] is [None] for NULL. *)
Definition ext2_mount_internal (image : option mem) (image_size : Z)
    (writeback_fn : option (mem -> Z -> bool)) : bool * ext2 :=
  let x := mk_ext2 false (fun _ => 0) 0 false 0 0 None [] in
  match image with
  | None => (false, x)
  | Some m =>
      if image_size <? EXT2_SUPERBLOCK_OFFSET + sizeof_superblock then (false, x)
      else
        let x := mk_ext2 true m image_size false 0 0 None [] in
        let ok := match image_ptr x EXT2_SUPERBLOCK_OFFSET sizeof_superblock with
                  | Some _ => true | None => false end in
        if negb ok || negb (sb_magic m =? EXT2_SUPER_MAGIC) || (2 <? sb_log_block_size m)
           || (sb_blocks_per_group m =? 0) || (sb_inodes_per_group m =? 0)
        then (false, mk_ext2 false m image_size false 0 0 None [])
        else
          let block_size := u32 (Z.shiftl 1024 (sb_log_block_size m)) in
          let group_count := u32 (sb_blocks_count m + sb_blocks_per_group m - 1) / sb_blocks_per_group m in
          let x := mk_ext2 true m image_size true block_size group_count None [] in
          match group_desc x 0 with
          | None => (false, x)
          | Some _ => (true, mk_ext2 true m image_size true block_size group_count writeback_fn [])
          end
  end.

Definition ext2_mount (image : option mem) (image_size : Z) : bool * ext2 :=
  ext2_mount_internal image image_size None.

Definition ext2_mount_with_writeback (image : option mem) (image_size : Z)
    (writeback_fn : mem -> Z -> bool) : bool * ext2 :=
  ext2_mount_internal image image_size (Some writeback_fn).

Definition ext2_sync (x : ext2) : bool * ext2 :=
  if negb (ext2_mounted x) then (false, x)
  else
    match x_writeback x with
    | None => (true, x)
    | Some f =>
        (f (x_image x) (x_size x),
         mk_ext2 (x_present x) (x_image x) (x_size x) (x_superblock x) (x_block_size x)
           (x_group_count x) (x_writeback x) (x_image x :: x_written x))
    end.

Definition ext2_get_status (x : ext2) : user_fs_status :=
  if negb (ext2_mounted x) then mk_fs_status USER_FS_STATUS_ABI_VERSION 0 0 0 0 0 0 []
  else
    let m := x_image x in
    mk_fs_status USER_FS_STATUS_ABI_VERSION 1 (x_block_size x) (sb_blocks_count m)
      (sb_inodes_count m) (sb_free_blocks_count m) (sb_free_inodes_count m)
      (firstn 15 (sb_volume_name m)).

(** Report the entry at [p] of the buffer [m]. *)
Definition list_entry (x : ext2) (m : mem) (p : Z) : res user_fs_dirent :=
  read_inode x (de_inode m p) ≫= fun r =>
  let child := match r with Some i => i | None => zero_inode end in
  let name_len := if USER_FS_NAME_SIZE <=? de_name_len m p then USER_FS_NAME_SIZE - 1
                  else de_name_len m p in
  Ret (mk_dirent (de_inode m p) (user_file_type child (de_file_type m p)) (inode_size_bytes child)
         (de_name m p name_len)).

(** The entries of one block, from [pos] on; [inl] is a return of the function. *)
Fixpoint list_block (fuel : nat) (x : ext2) (m : mem) (limit pos max_entries : Z)
    (out : list user_fs_dirent) : res (Z * list user_fs_dirent + list user_fs_dirent) :=
  if pos + 8 <=? limit then
    match fuel with
    | O => NoFuel
    | S fuel =>
        let rec_len := de_rec_len m pos in
        if (rec_len <? 8) || (limit <? pos + rec_len) then Ret (inl (USER_ERR_FAULT, out))
        else if negb (de_inode m pos =? 0) && negb (entry_is_dot m pos) then
          if max_entries <=? Z.of_nat (length out) then Ret (inl (Z.of_nat (length out), out))
          else
            list_entry x m pos ≫= fun d =>
            list_block fuel x m limit (pos + rec_len) max_entries (out ++ [d])
        else list_block fuel x m limit (pos + rec_len) max_entries out
    end
  else Ret (inr out).

Definition ext2_list_dir (x : ext2) (path : list Z) (max_entries : Z)
    : res (Z * list user_fs_dirent) :=
  path_lookup x path ≫= fun r =>
  match r with
  | None => Ret (USER_ERR_INVAL, [])
  | Some (dir, _) =>
      if negb (inode_is_dir dir) then Ret (USER_ERR_INVAL, [])
      else if 4096 <? x_block_size x then Ret (USER_ERR_INVAL, [])
      else
        let size := inode_size_bytes dir in
        mrange 0 size (x_block_size x) (fun offset '(block, out) =>
          let chunk := if size - offset <? x_block_size x then size - offset else x_block_size x in
          read_inode_bytes x dir offset chunk ≫= fun '(ok, bytes) =>
          let block := mem_write block 0 bytes in
          if negb ok then Ret (Break (USER_ERR_FAULT, out))
          else
            list_block (scan_fuel x) x block chunk 0 max_entries out ≫= fun e =>
            Ret match e with inl r => Break r | inr out => Cont (block, out) end)
          (fun _ => 0, []) ≫= fun c =>
        Ret match c with Break r => r | Cont (_, out) => (Z.of_nat (length out), out) end
  end.

Definition ext2_read_file (x : ext2) (path : list Z) (len offset : Z) : res (Z * list Z) :=
  path_lookup x path ≫= fun r =>
  match r with
  | None => Ret (USER_ERR_INVAL, [])
  | Some (file, _) =>
      if negb (inode_is_file file) then Ret (USER_ERR_INVAL, [])
      else
        let size := inode_size_bytes file in
        if size <=? offset then Ret (0, [])
        else
          let len := if size - offset <? len then size - offset else len in
          read_inode_bytes x file offset len ≫= fun '(ok, bytes) =>
          Ret (if (ok : bool) then len else USER_ERR_FAULT, bytes)
  end.

(** A failure leaves the entry of the caller as it is; callers look at it only
    after a zero result. *)
Definition ext2_stat (x : ext2) (path : list Z) : res (Z * user_fs_dirent) :=
  path_lookup x path ≫= fun r =>
  Ret match r with
      | None => (USER_ERR_INVAL, mk_dirent 0 0 0 [])
      | Some (inode, inode_number) =>
          (0, mk_dirent inode_number
                (if inode_is_dir inode then USER_FS_TYPE_DIR
                 else if inode_is_file inode then USER_FS_TYPE_FILE else USER_FS_TYPE_UNKNOWN)
                (inode_size_bytes inode) [])
      end.

(** The loop of [ext2_write_file]: [None] for its error return. *)
Fixpoint write_bytes_loop (fuel : nat) (x : ext2) (file : ext2_inode) (bytes : list Z)
    (len offset written : Z) : res (option ext2_inode * ext2) :=
  if written <? len then
    match fuel with
    | O => NoFuel
    | S fuel =>
        let file_offset := offset + written in
        let file_block := u32 (file_offset / x_block_size x) in
        let block_offset := file_offset mod x_block_size x in
        ensure_file_block x file file_block ≫= fun '(b, file, x) =>
        match b with
        | None => Ret (None, x)
        | Some disk_block =>
            let chunk := x_block_size x - block_offset in
            let chunk := if len - written <? chunk then len - written else chunk in
            match block_ptr x disk_block block_offset chunk with
            | None => Ret (None, x)
            | Some dest =>
                let x := set_image x (mem_write (x_image x) dest
                           (firstn (Z.to_nat chunk) (skipn (Z.to_nat written) bytes))) in
                write_bytes_loop fuel x file bytes len offset (written + chunk)
            end
        end
    end
  else Ret (Some file, x).

Definition ext2_write_file (x : ext2) (path bytes : list Z) (offset : Z) : res (Z * ext2) :=
  let len := Z.of_nat (length bytes) in
  path_lookup x path ≫= fun r =>
  match r with
  | None => Ret (USER_ERR_INVAL, x)
  | Some (file, inode_number) =>
      if negb (inode_is_file file) then Ret (USER_ERR_INVAL, x)
      else
        let size := inode_size_bytes file in
        if (size <? offset) || (u64 (offset + len) <? offset) then Ret (USER_ERR_INVAL, x)
        else
          let end_ := offset + len in
          (if size <? end_ then resize_inode_data x file inode_number end_
           else Ret (true, file, x)) ≫= fun '(ok, file, x) =>
          if negb ok then Ret (USER_ERR_FAULT, x)
          else
            write_bytes_loop (Z.to_nat (len / x_block_size x + 2)) x file bytes len offset 0 ≫= fun '(f, x) =>
            match f with
            | None => Ret (USER_ERR_FAULT, x)
            | Some file =>
                write_inode x inode_number file ≫= fun '(ok, x) =>
                if negb ok then Ret (USER_ERR_FAULT, x)
                else let '(ok, x) := ext2_sync x in Ret (if ok then len else USER_ERR_FAULT, x)
            end
  end.

(** [return ext2_sync() ? 0 : USER_ERR_FAULT]. *)
Definition finish (x : ext2) : res (Z * ext2) :=
  let '(ok, x) := ext2_sync x in Ret (if ok then 0 else USER_ERR_FAULT, x).

Definition ext2_create_file (x : ext2) (path : list Z) : res (Z * ext2) :=
  path_lookup x path ≫= fun r =>
  match r with
  | Some _ => Ret (USER_ERR_INVAL, x)
  | None =>
      parent_lookup x path ≫= fun r =>
      match r with
      | None => Ret (USER_ERR_INVAL, x)
      | Some (parent, parent_inode_number, name) =>
          find_in_dir x parent name ≫= fun found =>
          match found with
          | Some _ => Ret (USER_ERR_INVAL, x)
          | None =>
              allocate_inode x false ≫= fun '(inode_number, x) =>
              if inode_number =? 0 then Ret (USER_ERR_FAULT, x)
              else
                let inode := set_i_mode zero_inode (Z.lor EXT2_S_IFREG 0x1a4) in
                let inode := set_i_links_count inode 1 in
                write_inode x inode_number inode ≫= fun '(ok, x) =>
                (if negb ok then Ret (false, x)
                 else add_dir_entry x parent parent_inode_number inode_number name
                        EXT2_FILE_TYPE_REG) ≫= fun '(ok, x) =>
                if negb ok then
                  mark_inode_used x inode_number false false ≫= fun '(_, x) => Ret (USER_ERR_FAULT, x)
                else finish x
          end
      end
  end.

(** The contents of a new directory's block. *)
Definition dir_block (m : mem) (data block_size inode_number parent_inode_number : Z) : mem :=
  let m := mem_fill m data 0 (Z.to_nat block_size) in
  let m := store32 m data inode_number in
  let m := store16 m (data + 4) (dir_entry_min_len 1) in
  let m := store8 m (data + 6) 1 in
  let m := store8 m (data + 7) EXT2_FILE_TYPE_DIR in
  let m := store8 m (data + 8) 46 in
  let dotdot := data + de_rec_len m data in
  let m := store32 m dotdot parent_inode_number in
  let m := store16 m (dotdot + 4) (block_size - de_rec_len m data) in
  let m := store8 m (dotdot + 6) 2 in
  let m := store8 m (dotdot + 7) EXT2_FILE_TYPE_DIR in
  let m := store8 m (dotdot + 8) 46 in
  store8 m (dotdot + 9) 46.

Definition ext2_mkdir (x : ext2) (path : list Z) : res (Z * ext2) :=
  path_lookup x path ≫= fun r =>
  match r with
  | Some _ => Ret (USER_ERR_INVAL, x)
  | None =>
      parent_lookup x path ≫= fun r =>
      match r with
      | None => Ret (USER_ERR_INVAL, x)
      | Some (parent, parent_inode_number, name) =>
          allocate_inode x true ≫= fun '(inode_number, x) =>
          allocate_block x ≫= fun '(block, x) =>
          if (inode_number =? 0) || (block =? 0) then
            (if negb (inode_number =? 0) then mark_inode_used x inode_number false true
             else Ret (true, x)) ≫= fun '(_, x) =>
            (if negb (block =? 0) then mark_block_used x block false else Ret (true, x)) ≫= fun '(_, x) =>
            Ret (USER_ERR_FAULT, x)
          else
            let inode := set_i_mode zero_inode (Z.lor EXT2_S_IFDIR 0x1ed) in
            let inode := set_i_size inode (x_block_size x) in
            let inode := set_i_links_count inode 2 in
            let inode := set_i_block inode 0 block in
            let inode := update_inode_block_count x inode in
            match block_ptr x block 0 (x_block_size x) with
            | None =>
                mark_block_used x block false ≫= fun '(_, x) =>
                mark_inode_used x inode_number false true ≫= fun '(_, x) => Ret (USER_ERR_FAULT, x)
            | Some data =>
                let x := set_image x (dir_block (x_image x) data (x_block_size x) inode_number
                                        parent_inode_number) in
                let parent := set_i_links_count parent (u16 (i_links_count parent + 1)) in
                write_inode x inode_number inode ≫= fun '(ok, x) =>
                (if negb ok then Ret (false, x) else write_inode x parent_inode_number parent) ≫= fun '(ok, x) =>
                (if negb ok then Ret (false, x)
                 else add_dir_entry x parent parent_inode_number inode_number name
                        EXT2_FILE_TYPE_DIR) ≫= fun '(ok, x) =>
                if negb ok then
                  mark_block_used x block false ≫= fun '(_, x) =>
                  mark_inode_used x inode_number false true ≫= fun '(_, x) => Ret (USER_ERR_FAULT, x)
                else finish x
            end
      end
  end.

(** What [unlink] and [rmdir] share after the entry is gone. *)
Definition drop_inode (x : ext2) (inode : ext2_inode) (inode_number : Z) (is_dir : bool)
    : res (Z * ext2) :=
  free_inode_blocks x inode 0 ≫= fun '(_, _, x) =>
  write_inode x inode_number zero_inode ≫= fun '(_, x) =>
  mark_inode_used x inode_number false is_dir ≫= fun '(_, x) =>
  finish x.

Definition ext2_unlink (x : ext2) (path : list Z) : res (Z * ext2) :=
  parent_lookup x path ≫= fun r =>
  match r with
  | None => Ret (USER_ERR_INVAL, x)
  | Some (parent, parent_inode_number, name) =>
      find_in_dir x parent name ≫= fun found =>
      match found with
      | None => Ret (USER_ERR_INVAL, x)
      | Some inode_number =>
          read_inode x inode_number ≫= fun i =>
          match i with
          | None => Ret (USER_ERR_INVAL, x)
          | Some inode =>
              if negb (inode_is_file inode) then Ret (USER_ERR_INVAL, x)
              else
                remove_dir_entry x parent parent_inode_number name ≫= fun '(ok, removed, x) =>
                if negb ok || negb (removed =? inode_number) then Ret (USER_ERR_FAULT, x)
                else drop_inode x inode inode_number false
          end
      end
  end.

Definition ext2_rmdir (x : ext2) (path : list Z) : res (Z * ext2) :=
  parent_lookup x path ≫= fun r =>
  match r with
  | None => Ret (USER_ERR_INVAL, x)
  | Some (parent, parent_inode_number, name) =>
      if bool_decide (name = [46]) || bool_decide (name = [46; 46]) then Ret (USER_ERR_INVAL, x)
      else
        find_in_dir x parent name ≫= fun found =>
        match found with
        | None => Ret (USER_ERR_INVAL, x)
        | Some inode_number =>
            read_inode x inode_number ≫= fun i =>
            match i with
            | None => Ret (USER_ERR_INVAL, x)
            | Some inode =>
                dir_is_empty x inode ≫= fun empty =>
                if negb (inode_is_dir inode) || negb empty then Ret (USER_ERR_INVAL, x)
                else
                  remove_dir_entry x parent parent_inode_number name ≫= fun '(ok, removed, x) =>
                  if negb ok || negb (removed =? inode_number) then Ret (USER_ERR_FAULT, x)
                  else
                    (if 0 <? i_links_count parent then
                       write_inode x parent_inode_number
                         (set_i_links_count parent (i_links_count parent - 1))
                     else Ret (true, x)) ≫= fun '(_, x) =>
                    drop_inode x inode inode_number true
            end
        end
  end.

Definition ext2_truncate_file (x : ext2) (path : list Z) (size : Z) : res (Z * ext2) :=
  path_lookup x path ≫= fun r =>
  match r with
  | None => Ret (USER_ERR_INVAL, x)
  | Some (file, inode_number) =>
      if negb (inode_is_file file) then Ret (USER_ERR_INVAL, x)
      else
        resize_inode_data x file inode_number size ≫= fun '(ok, _, x) =>
        if negb ok then Ret (USER_ERR_FAULT, x) else finish x
  end.

#[export] Instance ext2_ops : FsOps ext2 := {
  fs_get_status := ext2_get_status;
  fs_stat := ext2_stat;
  fs_list_dir := ext2_list_dir;
  fs_read_file := ext2_read_file;
  fs_write_file := ext2_write_file;
  fs_create_file := ext2_create_file;
  fs_mkdir := ext2_mkdir;
  fs_unlink := ext2_unlink;
  fs_rmdir := ext2_rmdir;
  fs_truncate_file := ext2_truncate_file
}.
