(* ===== verification/Ext2Codec.v ===== *)
(** * The ext2 image: the inode codec and bitmaps

    Bytes of an inode and back, and single bits of a bitmap. *)

From S2P Require Import Prelude Fs Ext2Image.

(** ** The inode codec *)

Definition is_u16 (v : Z) : Prop := 0 <= v < 65536.
Definition is_u32 (v : Z) : Prop := 0 <= v < 4294967296.

(** Every field is in the range of its type. *)
Record inode_wf (i : ext2_inode) : Prop := {
  iw_half : Forall is_u16 [i_mode i; i_uid i; i_gid i; i_links_count i];
  iw_word : Forall is_u32 [i_size i; i_atime i; i_ctime i; i_mtime i; i_dtime i; i_blocks i;
                           i_flags i; i_osd1 i; i_generation i; i_file_acl i; i_dir_acl i; i_faddr i];
  iw_block : Forall is_u32 (i_block i) /\ length (i_block i) = 15%nat;
  iw_osd2 : Forall is_byte (i_osd2 i) /\ length (i_osd2 i) = 12%nat
}.

Lemma list_length_S {A} (l : list A) n :
  length l = S n -> exists a l', l = a :: l' /\ length l' = n.
Proof. destruct l; intros E; [discriminate|]. injection E as E. eauto. Qed.

(** Name the elements of a list of known length. *)
Ltac list_elements l H :=
  repeat (apply list_length_S in H; let a := fresh "a" in let l' := fresh "l" in
          let E := fresh "E" in destruct H as (a & l' & E & H); rewrite E in *; clear E);
  apply length_zero_iff_nil in H; try rewrite H in *.

Lemma inode_bytes_byte i : Forall is_byte (i_osd2 i) -> Forall is_byte (inode_bytes i).
Proof.
  intros H. unfold inode_bytes.
  repeat (apply List.Forall_app; split); auto with memory.
  apply List.Forall_flat_map, List.Forall_forall. auto with memory.
Qed.

Lemma inode_bytes_length i :
  length (i_block i) = 15%nat -> length (i_osd2 i) = 12%nat -> length (inode_bytes i) = 128%nat.
Proof.
  intros Hb Ho. unfold inode_bytes.
  rewrite !length_app, !le_bytes_length, Ho, flat_map_constant_length with (c := 4%nat), Hb
    by (intros; apply le_bytes_length). reflexivity.
Qed.

Lemma load_write_field m o bs k n v :
  Forall is_byte bs -> 0 <= k -> k + Z.of_nat n <= Z.of_nat (length bs) ->
  firstn n (skipn (Z.to_nat k) bs) = le_bytes n v ->
  0 <= v < 256 ^ Z.of_nat n -> load n (mem_write m o bs) (o + k) = v.
Proof.
  intros Hb Hk Hl E Hv. unfold load. rewrite mem_read_write_sub by assumption.
  rewrite E, le_word_le_bytes. apply Z.mod_small. exact Hv.
Qed.

(** Reading back the bytes of an inode gives the inode. *)
Lemma inode_at_write m o i : inode_wf i -> inode_at (mem_write m o (inode_bytes i)) o = i.
Proof.
  intros [Hh Hw [Hb Lb] [Ho Lo]].
  pose proof (inode_bytes_byte i Ho) as HB. pose proof (inode_bytes_length i Lb Lo) as HL.
  destruct i as [mode uid size atime ctime mtime dtime gid links blocks flags osd1 block gen facl dacl
                 faddr osd2]; cbn [i_mode i_uid i_size i_atime i_ctime i_mtime i_dtime i_gid
    i_links_count i_blocks i_flags i_osd1 i_block i_generation i_file_acl i_dir_acl i_faddr i_osd2] in *.
  list_elements block Lb. list_elements osd2 Lo.
  rewrite !List.Forall_cons_iff in *. unfold is_u16, is_u32 in *.
  unfold inode_at. f_equal.
  1: rewrite <- (Z.add_0_r o) at 2.
  all: try (apply load_write_field; [exact HB | lia | rewrite HL; lia | reflexivity | lia]).
  - cbn [map seq]. rewrite <- !Z.add_assoc.
    repeat (apply (f_equal2 cons); [apply load_write_field; [exact HB | lia | rewrite HL; lia | reflexivity | lia]|]).
    reflexivity.
  - rewrite mem_read_write_sub by (rewrite ?HL; auto; lia). reflexivity.
Qed.

(** Reading an inode looks at its 128 bytes only. *)
Lemma inode_at_ext m m' o :
  (forall a, o <= a < o + sizeof_inode -> u8 (m' a) = u8 (m a)) -> inode_at m' o = inode_at m o.
Proof.
  intros H. unfold sizeof_inode in H. unfold inode_at, load.
  f_equal; try (f_equal; apply mem_read_ext; intros; apply H; lia).
  - apply map_ext_in. intros k Hk. apply in_seq in Hk. f_equal.
    apply mem_read_ext. intros. apply H. lia.
  - apply mem_read_ext. intros. apply H. lia.
Qed.

(** ** Bits *)

Lemma bit_mask i : 0 <= i -> u8 (Z.shiftl 1 (i mod 8)) = 2 ^ (i mod 8).
Proof.
  intros Hi. assert (Hm : 0 <= i mod 8 < 8) by (apply Z.mod_pos_bound; lia).
  rewrite Z.shiftl_mul_pow2, Z.mul_1_l by lia. apply u8_id. unfold is_byte.
  split; [lia|].
  change 256 with (2 ^ 8). apply Z.pow_lt_mono_r; lia.
Qed.

Lemma land_pow2_testbit b k : 0 <= k -> negb (Z.land b (2 ^ k) =? 0) = Z.testbit b k.
Proof.
  intros Hk. destruct (Z.testbit b k) eqn:E; [apply negb_true_iff, Z.eqb_neq | apply negb_false_iff, Z.eqb_eq].
  - intros H0. assert (T : Z.testbit (Z.land b (2 ^ k)) k = true)
      by (rewrite Z.land_spec, E, Z.pow2_bits_true by lia; reflexivity).
    rewrite H0, Z.bits_0 in T. discriminate.
  - apply Z.bits_inj'. intros n Hn. rewrite Z.land_spec, Z.bits_0, Z.pow2_bits_eqb by lia.
    destruct (Z.eqb_spec k n) as [->|]; rewrite ?E, ?andb_false_r; reflexivity.
Qed.

Lemma load8_byte m a : load8 m a = u8 (m a).
Proof.
  unfold load, mem_read. cbn [map seq le_word].
  replace (a + Z.of_nat 0) with a by lia. lia.
Qed.

(** [bitmap_get] is the bit of the byte. *)
Lemma bitmap_get_bit m bm i :
  0 <= i -> bitmap_get m bm i = Z.testbit (u8 (m (bm + i / 8))) (i mod 8).
Proof. intros Hi. unfold bitmap_get. rewrite bit_mask, land_pow2_testbit, load8_byte by zlia. reflexivity. Qed.

(** The byte [bitmap_set] stores. *)
Definition set_bit (b k : Z) (v : bool) : Z := if v then Z.lor b (2 ^ k) else Z.land b (255 - 2 ^ k).

Lemma bitmap_set_write m bm i v :
  0 <= i -> bitmap_set m bm i v
  = store8 m (bm + i / 8) (set_bit (u8 (m (bm + i / 8))) (i mod 8) v).
Proof.
  intros Hi. unfold bitmap_set, set_bit. rewrite bit_mask, load8_byte by zlia. destruct v; reflexivity.
Qed.

Lemma testbit_255_sub k n : 0 <= k < 8 -> 0 <= n < 8 ->
  Z.testbit (255 - 2 ^ k) n = negb (k =? n).
Proof.
  intros Hk Hn.
  assert (E : forall k, In k [0;1;2;3;4;5;6;7] -> forall n, In n [0;1;2;3;4;5;6;7] ->
                Z.testbit (255 - 2 ^ k) n = negb (k =? n)).
  { intros ? Hk' ? Hn'. cbn [In] in Hk', Hn'.
    repeat destruct Hk' as [<-|Hk']; try destruct Hk'; repeat destruct Hn' as [<-|Hn']; try destruct Hn'; reflexivity. }
  apply E; cbn [In]; lia.
Qed.

Lemma set_bit_testbit b k v n : 0 <= k < 8 -> 0 <= n < 8 ->
  Z.testbit (set_bit b k v) n = if k =? n then v else Z.testbit b n.
Proof.
  intros Hk Hn. unfold set_bit. destruct v.
  - rewrite Z.lor_spec, Z.pow2_bits_eqb by zlia. destruct (Z.eqb_spec k n); rewrite ?orb_true_r, ?orb_false_r; reflexivity.
  - rewrite Z.land_spec, testbit_255_sub by zlia. destruct (Z.eqb_spec k n); cbn; rewrite ?andb_false_r, ?andb_true_r; reflexivity.
Qed.

Lemma u8_testbit b n : 0 <= n < 8 -> Z.testbit (u8 b) n = Z.testbit b n.
Proof. intros Hn. unfold u8. change 256 with (2 ^ 8). apply Z.mod_pow2_bits_low. lia. Qed.

Lemma u8_store8 m a v x : u8 (store8 m a v x) = if x =? a then u8 v else u8 (m x).
Proof.
  unfold store. destruct (Z.eqb_spec x a) as [->|].
  - rewrite mem_write_in by (cbn; lia). rewrite Z.sub_diag. cbn. apply u8_idem.
  - rewrite mem_write_out by (cbn; lia). reflexivity.
Qed.

Lemma bitmap_get_set m bm i v j :
  0 <= i -> 0 <= j -> bitmap_get (bitmap_set m bm i v) bm j = if i =? j then v else bitmap_get m bm j.
Proof.
  intros Hi Hj. rewrite bitmap_set_write, !bitmap_get_bit, u8_store8 by zlia.
  destruct (Z.eqb_spec (bm + j / 8) (bm + i / 8)) as [E|E].
  - rewrite u8_testbit, set_bit_testbit by zlia.
    replace (bm + j / 8) with (bm + i / 8) by zlia.
    destruct (Z.eqb_spec i j), (Z.eqb_spec (i mod 8) (j mod 8)); try reflexivity; exfalso;
      zlia.
  - destruct (Z.eqb_spec i j); [subst; lia | reflexivity].
Qed.

(** Only one byte of the bitmap changes. *)
Lemma bitmap_set_out m bm i v x : 0 <= i -> x <> bm + i / 8 -> u8 (bitmap_set m bm i v x) = u8 (m x).
Proof.
  intros Hi Hx. rewrite bitmap_set_write, u8_store8 by zlia. destruct (Z.eqb_spec x (bm + i / 8)); [lia | reflexivity].
Qed.

Lemma bitmap_get_ext m m' bm i :
  0 <= i -> u8 (m' (bm + i / 8)) = u8 (m (bm + i / 8)) -> bitmap_get m' bm i = bitmap_get m bm i.
Proof. intros Hi E. rewrite !bitmap_get_bit, E by zlia. reflexivity. Qed.
