(* ===== verification/Ext2Layout.v ===== *)
(** * The layout of a sound ext2 image

    Where the metadata of an image is, the condition that its parts lie inside
    the image without overlapping, and that operations which change no byte of
    this geometry keep it. The block bitmap, the counters and the blocks that
    hold metadata agree in a sound image, [ext2_ok]. *)

From S2P Require Import Prelude Fs Ext2Image Ext2Codec.

(** ** Metadata regions *)

Definition inode_size_of (m : mem) : Z := if negb (sb_inode_size m =? 0) then sb_inode_size m else 128.

(** The groups that hold blocks; the loop of [allocate_block] visits one more
    when the first data block is block 1 and the last group is full. *)
Definition n_groups (m : mem) : Z :=
  (sb_blocks_count m - sb_first_data_block m + sb_blocks_per_group m - 1) / sb_blocks_per_group m.

Definition desc_off (x : ext2) (g : Z) : Z :=
  (if x_block_size x =? 1024 then 2 else 1) * x_block_size x + g * sizeof_group_desc.

Inductive region : Type :=
  | RSuper
  | RDesc
  | RBlockBitmap (g : Z)
  | RInodeBitmap (g : Z)
  | RInodeTable (g : Z).

Definition region_base (x : ext2) (r : region) : Z :=
  let m := x_image x in
  match r with
  | RSuper => EXT2_SUPERBLOCK_OFFSET
  | RDesc => desc_off x 0
  | RBlockBitmap g => gd_block_bitmap m (desc_off x g) * x_block_size x
  | RInodeBitmap g => gd_inode_bitmap m (desc_off x g) * x_block_size x
  | RInodeTable g => gd_inode_table m (desc_off x g) * x_block_size x
  end.

Definition region_len (x : ext2) (r : region) : Z :=
  let m := x_image x in
  match r with
  | RSuper => sizeof_superblock
  | RDesc => n_groups m * sizeof_group_desc
  | RBlockBitmap _ | RInodeBitmap _ => x_block_size x
  | RInodeTable _ => sb_inodes_per_group m * inode_size_of m
  end.

(** The regions of the groups there are. *)
Definition region_real (x : ext2) (r : region) : Prop :=
  match r with
  | RSuper | RDesc => True
  | RBlockBitmap g | RInodeBitmap g | RInodeTable g => 0 <= g < n_groups (x_image x)
  end.

Definition in_region (x : ext2) (r : region) (a : Z) : Prop :=
  region_base x r <= a < region_base x r + region_len x r.

Definition disjoint_ranges (a la b lb : Z) : Prop := a + la <= b \/ b + lb <= a.

Record layout (x : ext2) : Prop := {
  ly_bs : x_block_size x = 1024 \/ x_block_size x = 2048 \/ x_block_size x = 4096;
  ly_bpg : 0 < sb_blocks_per_group (x_image x) <= 8 * x_block_size x;
  ly_ipg : 0 < sb_inodes_per_group (x_image x) <= 8 * x_block_size x;
  ly_isize : 128 <= inode_size_of (x_image x);
  ly_first : sb_first_data_block (x_image x) = if x_block_size x =? 1024 then 1 else 0;
  ly_count : sb_first_data_block (x_image x) < sb_blocks_count (x_image x);
  ly_wrap : sb_blocks_count (x_image x) + sb_blocks_per_group (x_image x) < 4294967296;
  ly_groups : x_group_count x = (sb_blocks_count (x_image x) + sb_blocks_per_group (x_image x) - 1)
                                / sb_blocks_per_group (x_image x);
  ly_inodes : sb_inodes_count (x_image x) <= n_groups (x_image x) * sb_inodes_per_group (x_image x);
  ly_size : sb_blocks_count (x_image x) * x_block_size x <= x_size x;
  ly_inside : forall r, region_real x r -> 0 <= region_base x r /\ region_base x r + region_len x r <= x_size x;
  ly_disjoint : forall r r', region_real x r -> region_real x r' -> r <> r' ->
    disjoint_ranges (region_base x r) (region_len x r) (region_base x r') (region_len x r');
  ly_magic : sb_magic (x_image x) = EXT2_SUPER_MAGIC;
  ly_log : x_block_size x = Z.shiftl 1024 (sb_log_block_size (x_image x))
}.

(** ** Geometry *)

(** The bytes the layout depends on: the superblock but its two counters, and
    the three block numbers of each descriptor. *)
Definition static_byte (x : ext2) (a : Z) : Prop :=
  1024 <= a < 1036 \/ 1044 <= a < 1160
  \/ exists g, 0 <= g < n_groups (x_image x) /\ desc_off x g <= a < desc_off x g + 12.

Definition same_geom (x : ext2) (m' : mem) : Prop :=
  forall a, static_byte x a -> u8 (m' a) = u8 (x_image x a).

Record same_fields (x : ext2) (m' : mem) : Prop := {
  sf_magic : sb_magic m' = sb_magic (x_image x);
  sf_log : sb_log_block_size m' = sb_log_block_size (x_image x);
  sf_inodes : sb_inodes_count m' = sb_inodes_count (x_image x);
  sf_blocks : sb_blocks_count m' = sb_blocks_count (x_image x);
  sf_first : sb_first_data_block m' = sb_first_data_block (x_image x);
  sf_bpg : sb_blocks_per_group m' = sb_blocks_per_group (x_image x);
  sf_ipg : sb_inodes_per_group m' = sb_inodes_per_group (x_image x);
  sf_ino : sb_first_ino m' = sb_first_ino (x_image x);
  sf_isize : sb_inode_size m' = sb_inode_size (x_image x);
  sf_bitmap : forall g, 0 <= g < n_groups (x_image x) ->
    gd_block_bitmap m' (desc_off x g) = gd_block_bitmap (x_image x) (desc_off x g);
  sf_ibitmap : forall g, 0 <= g < n_groups (x_image x) ->
    gd_inode_bitmap m' (desc_off x g) = gd_inode_bitmap (x_image x) (desc_off x g);
  sf_itable : forall g, 0 <= g < n_groups (x_image x) ->
    gd_inode_table m' (desc_off x g) = gd_inode_table (x_image x) (desc_off x g)
}.

Lemma load_ext n m m' a :
  (forall b, a <= b < a + Z.of_nat n -> u8 (m' b) = u8 (m b)) -> load n m' a = load n m a.
Proof. intros H. unfold load. f_equal. apply mem_read_ext. intros. apply H. lia. Qed.

Lemma same_geom_fields x m' : same_geom x m' -> same_fields x m'.
Proof.
  intros H. split; try (intros g Hg);
    unfold sb_magic, sb_log_block_size, sb_inodes_count, sb_blocks_count, sb_first_data_block, sb_blocks_per_group,
      sb_inodes_per_group, sb_first_ino, sb_inode_size, sb_field32, gd_block_bitmap, gd_inode_bitmap,
      gd_inode_table; apply load_ext; intros b Hb; apply H; unfold static_byte, EXT2_SUPERBLOCK_OFFSET in *;
    try lia; right; right; exists g; lia.
Qed.

Section Frame.
Context (x : ext2) (m' : mem) (G : same_geom x m').

Lemma frame_n_groups : n_groups m' = n_groups (x_image x).
Proof. destruct (same_geom_fields _ _ G). unfold n_groups. congruence. Qed.

Lemma frame_isize : inode_size_of m' = inode_size_of (x_image x).
Proof. destruct (same_geom_fields _ _ G). unfold inode_size_of. rewrite sf_isize0. reflexivity. Qed.

Lemma frame_real r : region_real (set_image x m') r <-> region_real x r.
Proof. destruct r; cbn; rewrite ?frame_n_groups; reflexivity. Qed.

Lemma frame_base r : region_real x r -> region_base (set_image x m') r = region_base x r.
Proof.
  destruct (same_geom_fields _ _ G). destruct r as [| |g|g|g]; cbn [region_real region_base]; intros Hr;
    try reflexivity; change (desc_off (set_image x m') g) with (desc_off x g);
    change (x_image (set_image x m')) with m'; change (x_block_size (set_image x m')) with (x_block_size x);
    f_equal; auto.
Qed.

Lemma frame_len r : region_len (set_image x m') r = region_len x r.
Proof.
  destruct (same_geom_fields _ _ G). destruct r as [| |g|g|g]; cbn [region_len];
    change (x_image (set_image x m')) with m'; rewrite ?frame_n_groups, ?frame_isize, ?sf_ipg0; reflexivity.
Qed.

Lemma frame_layout : layout x -> layout (set_image x m').
Proof.
  intros []. pose proof frame_n_groups as EN. pose proof frame_isize as EI.
  destruct (same_geom_fields _ _ G).
  split; change (x_image (set_image x m')) with m'; change (x_block_size (set_image x m')) with (x_block_size x);
    change (x_group_count (set_image x m')) with (x_group_count x);
    change (x_size (set_image x m')) with (x_size x);
    rewrite ?EN, ?EI, ?sf_magic0, ?sf_log0, ?sf_bpg0, ?sf_ipg0, ?sf_first0, ?sf_blocks0, ?sf_inodes0; auto.
  - intros r Hr. apply frame_real in Hr. rewrite frame_base, frame_len by exact Hr. auto.
  - intros r r' Hr Hr' Hn. apply frame_real in Hr, Hr'. rewrite !frame_base, !frame_len by assumption. auto.
Qed.

Lemma frame_in_region r a : region_real x r -> in_region (set_image x m') r a <-> in_region x r a.
Proof. intros Hr. unfold in_region. rewrite frame_base, frame_len by exact Hr. reflexivity. Qed.
End Frame.

(** ** Pointers under the layout *)

Lemma load_nonneg n m a : 0 <= load n m a.
Proof. apply load_range. Qed.

#[export] Hint Resolve load_nonneg : memory.

Section Layout.
Context (x : ext2) (L : layout x).

Abbreviation m := (x_image x).
Abbreviation bs := (x_block_size x).
Abbreviation bpg := (sb_blocks_per_group m).
Abbreviation ipg := (sb_inodes_per_group m).
Abbreviation fdb := (sb_first_data_block m).
Abbreviation bc := (sb_blocks_count m).

Lemma bs_range : 1024 <= bs <= 4096.
Proof. destruct L as [[-> | [-> | ->]]]; lia. Qed.

Lemma fdb_range : 0 <= fdb <= 1.
Proof. destruct L. rewrite ly_first0. destruct (_ =? _); lia. Qed.

Lemma n_groups_pos : 0 < n_groups m.
Proof. destruct L. unfold n_groups. apply Z.div_str_pos. lia. Qed.

Lemma n_groups_le : n_groups m <= x_group_count x.
Proof. pose proof fdb_range. destruct L. rewrite ly_groups0. unfold n_groups. apply Z.div_le_mono; lia. Qed.

(** A block number belongs to a group there is. *)
Definition bgroup (b : Z) : Z := (b - fdb) / bpg.
Definition bindex (b : Z) : Z := (b - fdb) mod bpg.

Definition block_valid (b : Z) : Prop := fdb <= b < bc.

Lemma bgroup_range b : block_valid b -> 0 <= bgroup b < n_groups m.
Proof.
  intros [Hl Hh]. destruct L. unfold bgroup, n_groups. split; [apply Z.div_pos; lia|].
  apply Z.div_lt_upper_bound; [lia|].
  pose proof (Z.div_mod (bc - fdb + bpg - 1) bpg ltac:(lia)).
  pose proof (Z.mod_pos_bound (bc - fdb + bpg - 1) bpg ltac:(lia)). lia.
Qed.

Lemma bindex_range b : 0 <= bindex b < bpg.
Proof. destruct L. apply Z.mod_pos_bound. lia. Qed.

Lemma block_split b : b = fdb + bgroup b * bpg + bindex b.
Proof. destruct L. unfold bgroup, bindex. pose proof (Z.div_mod (b - fdb) bpg ltac:(lia)). lia. Qed.

Lemma block_unsplit g i : 0 <= i < bpg -> bgroup (fdb + g * bpg + i) = g /\ bindex (fdb + g * bpg + i) = i.
Proof.
  intros Hi. destruct L. unfold bgroup, bindex.
  replace (fdb + g * bpg + i - fdb) with (i + g * bpg) by lia.
  rewrite Z.div_add, Z.mod_add, Z.div_small, Z.mod_small by lia. lia.
Qed.

Lemma block_eq b b' : bgroup b = bgroup b' -> bindex b = bindex b' -> b = b'.
Proof. intros Hg Hi. rewrite (block_split b), (block_split b'), Hg, Hi. reflexivity. Qed.

Lemma image_ptr_in offset len :
  0 <= offset -> 0 <= len -> offset + len <= x_size x -> image_ptr x offset len = Some offset.
Proof.
  intros H0 H1 H2. unfold image_ptr, image_range_valid.
  destruct (Z.ltb_spec (x_size x) offset); [lia|]. destruct (Z.ltb_spec (x_size x - offset) len); [lia|].
  reflexivity.
Qed.

Lemma group_desc_real g : 0 <= g < n_groups m -> group_desc x g = Some (desc_off x g).
Proof.
  intros Hg. pose proof n_groups_le. unfold group_desc. destruct (Z.leb_spec (x_group_count x) g); [lia|].
  pose proof (ly_inside x L RDesc I) as [Hb He]. cbn [region_base region_len] in Hb, He.
  change (image_ptr x (desc_off x g) sizeof_group_desc = Some (desc_off x g)).
  unfold desc_off, sizeof_group_desc in *. apply image_ptr_in; lia.
Qed.

Lemma block_ptr_in b offset len :
  0 <= b -> 0 <= offset -> 0 <= len -> offset + len <= bs -> b * bs + bs <= x_size x ->
  block_ptr x b offset len = Some (b * bs + offset).
Proof.
  intros Hb H0 H1 H2 Hs. pose proof bs_range. unfold block_ptr.
  destruct (Z.ltb_spec bs offset); [lia|]. destruct (Z.ltb_spec (bs - offset) len); [lia|].
  cbn [orb]. apply image_ptr_in; lia.
Qed.

Lemma block_ptr_valid b offset len :
  block_valid b -> 0 <= offset -> 0 <= len -> offset + len <= bs ->
  block_ptr x b offset len = Some (b * bs + offset).
Proof.
  intros [Hl Hh] ? ? ?. pose proof fdb_range. pose proof bs_range. destruct L.
  apply block_ptr_in; try lia.
Qed.

Lemma bitmap_ptr g :
  0 <= g < n_groups m ->
  block_ptr x (gd_block_bitmap m (desc_off x g)) 0 bs = Some (region_base x (RBlockBitmap g)).
Proof.
  intros Hg. pose proof bs_range. pose proof (ly_inside x L (RBlockBitmap g) Hg) as [Hb He].
  cbn [region_base region_len] in *. pose proof (load_nonneg 4 m (desc_off x g)).
  unfold gd_block_bitmap in *. rewrite block_ptr_in by lia. f_equal. lia.
Qed.

(** ** Regions do not meet *)

Lemma region_unique r r' a :
  region_real x r -> region_real x r' -> in_region x r a -> in_region x r' a -> r = r'.
Proof.
  intros Hr Hr' Ha Ha'.
  assert (D : forall p q : region, {p = q} + {p <> q}) by (repeat decide equality).
  destruct (D r r') as [|Hn]; [assumption|].
  pose proof (ly_disjoint x L r r' Hr Hr' Hn). unfold in_region, disjoint_ranges in *. lia.
Qed.

Lemma desc_in_region g k : 0 <= g < n_groups m -> 0 <= k < 32 -> in_region x RDesc (desc_off x g + k).
Proof. intros Hg Hk. unfold in_region. cbn [region_base region_len]. unfold desc_off, sizeof_group_desc. lia. Qed.

Lemma super_in_region k : 0 <= k < 136 -> in_region x RSuper (1024 + k).
Proof. intros Hk. unfold in_region. cbn. unfold EXT2_SUPERBLOCK_OFFSET, sizeof_superblock. lia. Qed.

Lemma static_in_region a : static_byte x a -> in_region x RSuper a \/ in_region x RDesc a.
Proof.
  intros [Ha | [Ha | (g & Hg & Ha)]].
  - left. replace a with (1024 + (a - 1024)) by lia. apply super_in_region. lia.
  - left. replace a with (1024 + (a - 1024)) by lia. apply super_in_region. lia.
  - right. replace a with (desc_off x g + (a - desc_off x g)) by lia. apply desc_in_region; lia.
Qed.

(** Bytes of a bitmap, of an inode table or of no region are not geometry. *)
Lemma not_static a r :
  region_real x r -> r <> RSuper -> r <> RDesc -> in_region x r a -> ~ static_byte x a.
Proof.
  intros Hr H1 H2 Ha Hs. destruct (static_in_region a Hs) as [H|H].
  - apply H1. apply (region_unique r RSuper a); auto. exact I.
  - apply H2. apply (region_unique r RDesc a); auto. exact I.
Qed.

(** The counters are not geometry. *)
Lemma not_static_sb_counters a : 1036 <= a < 1044 -> ~ static_byte x a.
Proof.
  intros Ha [? | [? | (g & Hg & Hd)]]; [lia | lia|].
  assert (Hs : in_region x RSuper a) by (replace a with (1024 + (a - 1024)) by lia; apply super_in_region; lia).
  assert (Hd' : in_region x RDesc a)
    by (replace a with (desc_off x g + (a - desc_off x g)) by lia; apply desc_in_region; lia).
  pose proof (region_unique RSuper RDesc a I I Hs Hd') as E. discriminate.
Qed.

Lemma not_static_gd_counters g a :
  0 <= g < n_groups m -> desc_off x g + 12 <= a < desc_off x g + 32 -> ~ static_byte x a.
Proof.
  intros Hg Ha Hst.
  assert (Hd : in_region x RDesc a)
    by (replace a with (desc_off x g + (a - desc_off x g)) by lia; apply desc_in_region; lia).
  destruct Hst as [Hs | [Hs | (g' & Hg' & Hs)]].
  - assert (E : RDesc = RSuper); [|discriminate]. apply (region_unique _ _ a); auto; try exact I.
    replace a with (1024 + (a - 1024)) by lia. apply super_in_region. lia.
  - assert (E : RDesc = RSuper); [|discriminate]. apply (region_unique _ _ a); auto; try exact I.
    replace a with (1024 + (a - 1024)) by lia. apply super_in_region. lia.
  - unfold desc_off, sizeof_group_desc in *. assert (g = g' \/ g < g' \/ g' < g) by lia. lia.
Qed.
End Layout.
