(* ===== verification/Ext2Alloc.v ===== *)
(** * The block bitmap of a sound image

    [mark_block_used] and [allocate_block] against the set of used blocks. *)

From S2P Require Import Prelude Fs Ext2Image Ext2Codec Ext2Layout.

(** ** The set of used blocks *)

(** The bit of a block. *)
Definition block_used (x : ext2) (b : Z) : bool :=
  bitmap_get (x_image x) (region_base x (RBlockBitmap (bgroup x b))) (bindex x b).

Definition count_if (f : Z -> bool) (l : list Z) : Z := Z.of_nat (length (List.filter f l)).

Definition free_count (x : ext2) (lo hi : Z) : Z :=
  count_if (fun b => negb (block_used x b)) (seqZ lo (hi - lo)).

(** The blocks of a group. *)
Definition group_lo (x : ext2) (g : Z) : Z :=
  sb_first_data_block (x_image x) + g * sb_blocks_per_group (x_image x).
Definition group_hi (x : ext2) (g : Z) : Z :=
  Z.min (sb_blocks_count (x_image x)) (group_lo x g + sb_blocks_per_group (x_image x)).

(** The data of a block meets no metadata. *)
Definition data_block (x : ext2) (b : Z) : Prop :=
  forall r, region_real x r ->
    disjoint_ranges (b * x_block_size x) (x_block_size x) (region_base x r) (region_len x r).

(** A sound image: its layout, the blocks of the metadata are marked used, and
    the free counters count the clear bits. *)
Record ext2_ok (x : ext2) : Prop := {
  ok_layout : layout x;
  ok_free_data : forall b, block_valid x b -> block_used x b = false -> data_block x b;
  ok_sb_free : sb_free_blocks_count (x_image x)
               = free_count x (sb_first_data_block (x_image x)) (sb_blocks_count (x_image x));
  ok_gd_free : forall g, 0 <= g < n_groups (x_image x) ->
    gd_free_blocks_count (x_image x) (desc_off x g) = free_count x (group_lo x g) (group_hi x g)
}.

(** ** Counting *)

Lemma count_if_ext f g l : (forall a, In a l -> f a = g a) -> count_if f l = count_if g l.
Proof.
  intros H. unfold count_if. f_equal. f_equal. induction l as [|a l IH]; [reflexivity|].
  cbn [List.filter]. rewrite (H a), IH by (cbn; auto; intros; apply H; cbn; auto). reflexivity.
Qed.

Lemma count_if_bounds f l : 0 <= count_if f l <= Z.of_nat (length l).
Proof. unfold count_if. pose proof (List.filter_length_le f l). lia. Qed.

Lemma count_if_pos f l a : In a l -> f a = true -> 0 < count_if f l.
Proof.
  intros Hi Hf. unfold count_if.
  assert (H : In a (List.filter f l)) by (apply List.filter_In; auto).
  destruct (List.filter f l); [destruct H | cbn; lia].
Qed.

Lemma count_if_zero f l : count_if f l = 0 -> forall a, In a l -> f a = false.
Proof.
  intros H a Ha. destruct (f a) eqn:E; [|reflexivity]. pose proof (count_if_pos f l a Ha E). lia.
Qed.

(** Turning one element on adds one. *)
Lemma count_if_flip f g l b :
  List.NoDup l -> In b l -> (forall a, a <> b -> f a = g a) -> f b = false -> g b = true ->
  count_if g l = count_if f l + 1.
Proof.
  intros Hn. induction Hn as [|a l Ha Hn IH]; [intros []|].
  intros Hi Hfg Hf Hg. unfold count_if in *. cbn [List.filter].
  destruct Hi as [<- | Hi].
  - rewrite Hf, Hg. cbn [length].
    assert (E : count_if f l = count_if g l)
      by (apply count_if_ext; intros c Hc; apply Hfg; congruence).
    unfold count_if in E. lia.
  - rewrite (Hfg a) by congruence. specialize (IH Hi Hfg Hf Hg). destruct (g a); cbn [length]; lia.
Qed.

Lemma In_seqZ lo n b : In b (seqZ lo n) <-> lo <= b < lo + n.
Proof. rewrite <- list_elem_of_In, elem_of_seqZ. reflexivity. Qed.

Lemma NoDup_seqZ' lo n : List.NoDup (seqZ lo n).
Proof. apply NoDup_ListNoDup, NoDup_seqZ. Qed.

(** ** Geometry and the bitmap *)

Section Frame.
Context (x : ext2) (m' : mem) (G : same_geom x m').

Lemma frame_bgroup b : bgroup (set_image x m') b = bgroup x b.
Proof. destruct (same_geom_fields _ _ G). unfold bgroup. cbn [x_image set_image]. congruence. Qed.

Lemma frame_bindex b : bindex (set_image x m') b = bindex x b.
Proof. destruct (same_geom_fields _ _ G). unfold bindex. cbn [x_image set_image]. congruence. Qed.

Lemma frame_valid b : block_valid (set_image x m') b <-> block_valid x b.
Proof. destruct (same_geom_fields _ _ G). unfold block_valid. cbn [x_image set_image]. rewrite sf_first, sf_blocks. reflexivity. Qed.

Lemma frame_group_lo g : group_lo (set_image x m') g = group_lo x g.
Proof. destruct (same_geom_fields _ _ G). unfold group_lo. cbn [x_image set_image]. congruence. Qed.

Lemma frame_group_hi g : group_hi (set_image x m') g = group_hi x g.
Proof. destruct (same_geom_fields _ _ G). unfold group_hi. rewrite frame_group_lo. cbn [x_image set_image]. congruence. Qed.

Lemma frame_data_block b : data_block (set_image x m') b <-> data_block x b.
Proof.
  unfold data_block. cbn [x_block_size set_image].
  split; intros H r Hr.
  - rewrite <- (frame_base x m' G), <- (frame_len x m' G) by exact Hr. apply H, frame_real; assumption.
  - apply (frame_real x m' G) in Hr. rewrite (frame_base x m' G), (frame_len x m' G) by exact Hr. auto.
Qed.

(** The bit of a block is read from its byte of the bitmap. *)
Lemma frame_block_used b :
  layout x -> block_valid x b ->
  block_used (set_image x m') b = bitmap_get m' (region_base x (RBlockBitmap (bgroup x b))) (bindex x b).
Proof.
  intros L Hb. unfold block_used. rewrite frame_bgroup, frame_bindex, (frame_base x m' G).
  - reflexivity.
  - exact (bgroup_range x L b Hb).
Qed.
End Frame.

(** A memory that agrees on the geometry and the bitmaps has the same used blocks. *)
Lemma same_bitmap_used x m' b :
  layout x -> same_geom x m' -> block_valid x b ->
  (forall g a, 0 <= g < n_groups (x_image x) -> in_region x (RBlockBitmap g) a -> u8 (m' a) = u8 (x_image x a)) ->
  block_used (set_image x m') b = block_used x b.
Proof.
  intros L G Hb H. rewrite (frame_block_used _ _ G) by assumption. unfold block_used.
  pose proof (bindex_range x L b) as Hi. apply bitmap_get_ext; [lia|].
  apply (H (bgroup x b)); [exact (bgroup_range x L b Hb)|].
  unfold in_region. cbn [region_len]. destruct L. split; [zlia|].
  assert (bindex x b / 8 < x_block_size x) by (apply Z.div_lt_upper_bound; lia). lia.
Qed.

(** ** The writes of [mark_block_used] *)

Lemma bitmap_byte_in x g i :
  layout x -> 0 <= i < sb_blocks_per_group (x_image x) ->
  in_region x (RBlockBitmap g) (region_base x (RBlockBitmap g) + i / 8).
Proof.
  intros L Hi. unfold in_region. cbn [region_len]. destruct L.
  assert (i / 8 < x_block_size x) by (apply Z.div_lt_upper_bound; lia). zlia.
Qed.

Lemma store_out n m a v y : y < a \/ a + Z.of_nat n <= y -> store n m a v y = m y.
Proof. intros H. unfold store. apply mem_write_out. rewrite le_bytes_length. exact H. Qed.

Section Mark.
Context (x : ext2) (L : layout x) (b : Z) (Hb : block_valid x b) (used : bool).

Abbreviation m := (x_image x).
Abbreviation g := (bgroup x b).
Abbreviation i := (bindex x b).
Abbreviation bm := (region_base x (RBlockBitmap g)).
Abbreviation d := (desc_off x g).

Definition marked1 : mem := bitmap_set m bm i used.
Definition marked (vs vg : Z) : mem := gd_set_free_blocks (sb_set_free_blocks marked1 vs) d vg.

Lemma marked1_out a : ~ in_region x (RBlockBitmap g) a -> u8 (marked1 a) = u8 (m a).
Proof.
  intros Ha. pose proof (bindex_range x L b). apply bitmap_set_out; [lia|]. intros ->.
  apply Ha, bitmap_byte_in; auto.
Qed.

Lemma marked_out vs vg a :
  ~ 1036 <= a < 1040 -> ~ d + 12 <= a < d + 14 -> u8 (marked vs vg a) = u8 (marked1 a).
Proof.
  intros H1 H2. unfold marked, gd_set_free_blocks, sb_set_free_blocks, EXT2_SUPERBLOCK_OFFSET.
  rewrite !store_out by lia. reflexivity.
Qed.

(** A region other than the bitmap of the group. *)
Lemma other_region r a :
  region_real x r -> r <> RBlockBitmap g -> in_region x r a -> ~ in_region x (RBlockBitmap g) a.
Proof.
  intros Hr Hn Ha Hc. apply Hn. apply (region_unique x L r (RBlockBitmap g) a); auto.
  exact (bgroup_range x L b Hb).
Qed.

Lemma super_not_bitmap k : 0 <= k < 136 -> ~ in_region x (RBlockBitmap g) (1024 + k).
Proof. intros Hk. apply (other_region RSuper); [exact I | discriminate | apply super_in_region, Hk]. Qed.

Lemma desc_not_bitmap g' k :
  0 <= g' < n_groups m -> 0 <= k < 32 -> ~ in_region x (RBlockBitmap g) (desc_off x g' + k).
Proof. intros Hg Hk. apply (other_region RDesc); [exact I | discriminate | apply desc_in_region; assumption]. Qed.

Lemma marked1_super n k : 0 <= k -> k + Z.of_nat n <= 136 -> load n marked1 (1024 + k) = load n m (1024 + k).
Proof.
  intros H1 H2. apply load_ext. intros a Ha. apply marked1_out.
  replace a with (1024 + (a - 1024)) by lia. apply super_not_bitmap. lia.
Qed.

Lemma marked1_desc n g' k :
  0 <= g' < n_groups m -> 0 <= k -> k + Z.of_nat n <= 32 ->
  load n marked1 (desc_off x g' + k) = load n m (desc_off x g' + k).
Proof.
  intros Hg H1 H2. apply load_ext. intros a Ha. apply marked1_out.
  replace a with (desc_off x g' + (a - desc_off x g')) by lia. apply desc_not_bitmap; [exact Hg | lia].
Qed.

Lemma marked_geom vs vg : same_geom x (marked vs vg).
Proof.
  intros a Ha. pose proof (bgroup_range x L b Hb) as Hg.
  rewrite marked_out.
  - apply marked1_out. intros Hc.
    apply (not_static x L a (RBlockBitmap g)); auto; discriminate.
  - intros Hc. apply (not_static_sb_counters x L a); [lia | exact Ha].
  - intros Hc. apply (not_static_gd_counters x L g a); [exact Hg | lia | exact Ha].
Qed.

(** The superblock and the descriptors do not meet. *)
Lemma super_desc_apart g' : 0 <= g' < n_groups m -> 1160 <= desc_off x g' \/ desc_off x g' + 32 <= 1024.
Proof.
  intros Hg. pose proof (ly_disjoint x L RSuper RDesc I I ltac:(discriminate)) as D.
  unfold disjoint_ranges in D. cbn [region_base region_len] in D.
  unfold desc_off, sizeof_group_desc, sizeof_superblock, EXT2_SUPERBLOCK_OFFSET in *. lia.
Qed.

Lemma marked_sb_free vs vg : 0 <= vs < 4294967296 -> sb_free_blocks_count (marked vs vg) = vs.
Proof.
  intros Hv. pose proof (super_desc_apart g (bgroup_range x L b Hb)).
  unfold sb_free_blocks_count, sb_field32, marked, gd_set_free_blocks, sb_set_free_blocks, EXT2_SUPERBLOCK_OFFSET.
  rewrite load_store_disj by lia. rewrite load_store_eq. apply Z.mod_small. lia.
Qed.

Lemma marked_gd_free vs vg g' :
  0 <= vg < 65536 -> 0 <= g' < n_groups m ->
  gd_free_blocks_count (marked vs vg) (desc_off x g')
  = if g' =? g then vg else gd_free_blocks_count m (desc_off x g').
Proof.
  intros Hv Hg'. pose proof (super_desc_apart g' Hg').
  unfold gd_free_blocks_count, marked, gd_set_free_blocks, sb_set_free_blocks, EXT2_SUPERBLOCK_OFFSET.
  destruct (Z.eqb_spec g' g) as [->|Hn].
  - rewrite load_store_eq. apply Z.mod_small. lia.
  - rewrite load_store_disj by (unfold desc_off, sizeof_group_desc; lia).
    rewrite load_store_disj by lia. apply marked1_desc; lia.
Qed.

(** The bits. *)
Lemma marked_used vs vg b' :
  block_valid x b' ->
  block_used (set_image x (marked vs vg)) b' = if b' =? b then used else block_used x b'.
Proof.
  intros Hb'. pose proof (marked_geom vs vg) as G. pose proof (bgroup_range x L b' Hb') as Hg'.
  rewrite (frame_block_used _ _ G) by assumption.
  pose proof (bindex_range x L b') as Hi'. pose proof (bindex_range x L b) as Hi.
  pose proof (bitmap_byte_in x (bgroup x b') (bindex x b') L Hi') as Hin.
  rewrite (bitmap_get_ext marked1); [|lia|].
  - destruct (Z.eqb_spec b' b) as [->|Hn].
    + unfold marked1. rewrite bitmap_get_set by lia. rewrite Z.eqb_refl. reflexivity.
    + unfold block_used. destruct (Z.eq_dec (bgroup x b') g) as [Eg|Ng].
      * unfold marked1. rewrite Eg, bitmap_get_set by lia.
        destruct (Z.eqb_spec i (bindex x b')) as [Ei|]; [|reflexivity].
        exfalso. apply Hn. apply (block_eq x L); congruence.
      * apply bitmap_get_ext; [lia|]. apply marked1_out.
        apply (other_region (RBlockBitmap (bgroup x b'))); [exact Hg' | congruence | exact Hin].
  - apply marked_out.
    + intros Hc. assert (E : RSuper = RBlockBitmap (bgroup x b')); [|discriminate].
      eapply (region_unique x L); [exact I | exact Hg' | | exact Hin].
      replace (region_base x (RBlockBitmap (bgroup x b')) + bindex x b' / 8)
        with (1024 + (region_base x (RBlockBitmap (bgroup x b')) + bindex x b' / 8 - 1024)) by lia.
      apply super_in_region. lia.
    + intros Hc. assert (E : RDesc = RBlockBitmap (bgroup x b')); [|discriminate].
      eapply (region_unique x L); [exact I | exact Hg' | | exact Hin].
      replace (region_base x (RBlockBitmap (bgroup x b')) + bindex x b' / 8)
        with (d + (region_base x (RBlockBitmap (bgroup x b')) + bindex x b' / 8 - d)) by lia.
      apply desc_in_region; [exact (bgroup_range x L b Hb) | lia].
Qed.

(** Nothing but the superblock, the descriptors and the group's bitmap changes. *)
Lemma marked_frame vs vg a :
  ~ in_region x RSuper a -> ~ in_region x RDesc a -> ~ in_region x (RBlockBitmap g) a ->
  u8 (marked vs vg a) = u8 (m a).
Proof.
  intros H1 H2 H3. rewrite marked_out.
  - apply marked1_out, H3.
  - intros Hc. apply H1. replace a with (1024 + (a - 1024)) by lia. apply super_in_region. lia.
  - intros Hc. apply H2. replace a with (d + (a - d)) by lia.
    apply desc_in_region; [exact (bgroup_range x L b Hb) | lia].
Qed.
End Mark.

(** ** The counters *)

Lemma free_count_bounds x lo hi : lo <= hi -> 0 <= free_count x lo hi <= hi - lo.
Proof.
  intros H. unfold free_count. pose proof (count_if_bounds (fun b => negb (block_used x b)) (seqZ lo (hi - lo))) as B.
  rewrite length_seqZ in B. lia.
Qed.

Lemma free_count_ext x x' lo hi :
  (forall b, lo <= b < hi -> block_used x' b = block_used x b) -> free_count x' lo hi = free_count x lo hi.
Proof.
  intros H. apply count_if_ext. intros b Hb. apply In_seqZ in Hb. rewrite H by lia. reflexivity.
Qed.

Lemma free_count_take x x' lo hi b :
  lo <= b < hi -> block_used x b = false -> block_used x' b = true ->
  (forall b', lo <= b' < hi -> b' <> b -> block_used x' b' = block_used x b') ->
  free_count x lo hi = free_count x' lo hi + 1.
Proof.
  intros Hb Hu Hu' H.
  set (f := fun b' => if (lo <=? b') && (b' <? hi) then negb (block_used x' b') else negb (block_used x b')).
  assert (E : free_count x' lo hi = count_if f (seqZ lo (hi - lo))).
  { apply count_if_ext. intros b' Hb'. apply In_seqZ in Hb'. unfold f.
    destruct (Z.leb_spec lo b'), (Z.ltb_spec b' hi); try lia; reflexivity. }
  rewrite E. apply (count_if_flip f _ _ b).
  - apply NoDup_seqZ'.
  - apply In_seqZ. lia.
  - intros b' Hn. unfold f. destruct (Z.leb_spec lo b'), (Z.ltb_spec b' hi); cbn [andb]; try reflexivity.
    rewrite H by lia. reflexivity.
  - unfold f. destruct (Z.leb_spec lo b), (Z.ltb_spec b hi); try lia. cbn [andb]. rewrite Hu'. reflexivity.
  - rewrite Hu. reflexivity.
Qed.

Lemma group_bounds x g :
  layout x -> 0 <= g < n_groups (x_image x) ->
  sb_first_data_block (x_image x) <= group_lo x g < group_hi x g
  /\ group_hi x g <= sb_blocks_count (x_image x)
  /\ group_hi x g <= group_lo x g + sb_blocks_per_group (x_image x).
Proof.
  intros L Hg. destruct L. unfold group_hi, group_lo, n_groups in *.
  set (bpg := sb_blocks_per_group (x_image x)) in *. set (f := sb_first_data_block (x_image x)) in *.
  set (c := sb_blocks_count (x_image x)) in *.
  pose proof (Z.div_mod (c - f + bpg - 1) bpg ltac:(lia)) as D.
  pose proof (Z.mod_pos_bound (c - f + bpg - 1) bpg ltac:(lia)) as M.
  assert (g * bpg < c - f) by nia. assert (0 <= g * bpg) by nia. lia.
Qed.

Lemma block_in_group x b g :
  layout x -> block_valid x b -> 0 <= g < n_groups (x_image x) ->
  group_lo x g <= b < group_hi x g <-> g = bgroup x b.
Proof.
  intros L Hb Hg. pose proof (block_split x L b) as S. pose proof (bindex_range x L b) as I.
  unfold group_hi, group_lo. unfold block_valid in Hb. split.
  - intros Hin. symmetry. destruct L.
    pose proof (block_unsplit x ltac:(constructor; assumption) g
                  (b - sb_first_data_block (x_image x) - g * sb_blocks_per_group (x_image x)) ltac:(lia)) as [E _].
    rewrite <- E. f_equal. lia.
  - intros ->. lia.
Qed.

(** ** [mark_block_used] *)

Lemma udivmod_pos a b : 0 < b -> udivmod a b = Ret (a / b, a mod b).
Proof. intros H. unfold udivmod. destruct (Z.eqb_spec b 0); [lia | reflexivity]. Qed.

(** What it does, with the values it gives the counters. *)
Lemma mark_block_used_eq x b used :
  ext2_ok x -> block_valid x b ->
  mark_block_used x b used
  = if Bool.eqb (block_used x b) used then Ret (true, x)
    else
      let delta := if used then -1 else 1 in
      Ret (true, set_image x (marked x b used (sb_free_blocks_count (x_image x) + delta)
                   (gd_free_blocks_count (x_image x) (desc_off x (bgroup x b)) + delta))).
Proof.
  intros [L _ Os Og] Hb. pose proof (bgroup_range x L b Hb) as Hg. pose proof (fdb_range x L) as Hf.
  pose proof (group_bounds x _ L Hg) as GB. specialize (Og _ Hg).
  unfold mark_block_used. unfold block_valid in Hb.
  destruct (Z.leb_spec (sb_blocks_count (x_image x)) b); [lia|].
  rewrite u32_id by (destruct L; lia). rewrite udivmod_pos by (destruct L; lia).
  cbn [mbind res_bind]. fold (bgroup x b). fold (bindex x b).
  rewrite (group_desc_real x L) by exact Hg. rewrite (bitmap_ptr x L) by exact Hg.
  fold (block_used x b). destruct (Bool.eqb (block_used x b) used) eqn:E; [reflexivity|].
  pose proof (marked1_super x L b Hb used 4 12 ltac:(lia) ltac:(lia)) as E1.
  pose proof (marked1_desc x L b Hb used 2 _ 12 Hg ltac:(lia) ltac:(lia)) as E2.
  change (sb_free_blocks_count (marked1 x b used) = sb_free_blocks_count (x_image x)) in E1.
  change (gd_free_blocks_count (marked1 x b used) (desc_off x (bgroup x b))
          = gd_free_blocks_count (x_image x) (desc_off x (bgroup x b))) in E2.
  assert (E3 : forall v, gd_free_blocks_count (sb_set_free_blocks (marked1 x b used) v) (desc_off x (bgroup x b))
                         = gd_free_blocks_count (marked1 x b used) (desc_off x (bgroup x b))).
  { intros v. pose proof (super_desc_apart x L (bgroup x b) Hg). unfold gd_free_blocks_count, sb_set_free_blocks.
    apply load_store_disj. unfold EXT2_SUPERBLOCK_OFFSET. lia. }
  fold (marked1 x b used). unfold marked. cbn zeta. rewrite E1.
  destruct used; cbn [Bool.eqb] in E.
  - assert (Hu : block_used x b = false) by (destruct (block_used x b); [discriminate | reflexivity]).
    assert (P1 : 0 < sb_free_blocks_count (x_image x)).
    { rewrite Os. unfold free_count. apply (count_if_pos _ _ b); [apply In_seqZ; lia | rewrite Hu; reflexivity]. }
    assert (P2 : 0 < gd_free_blocks_count (x_image x) (desc_off x (bgroup x b))).
    { rewrite Og. unfold free_count. apply (count_if_pos _ _ b); [|rewrite Hu; reflexivity].
      apply In_seqZ. pose proof (proj2 (block_in_group x b _ L Hb Hg) eq_refl). lia. }
    destruct (Z.ltb_spec 0 (sb_free_blocks_count (x_image x))); [|lia].
    rewrite E3, E2. destruct (Z.ltb_spec 0 (gd_free_blocks_count (x_image x) (desc_off x (bgroup x b)))); [|lia].
    reflexivity.
  - rewrite E3, E2. reflexivity.
Qed.

Lemma set_image_id x : set_image x (x_image x) = x.
Proof. destruct x; reflexivity. Qed.

(** The image [m'] differs from that of [x] in the bitmap bits and counters only. *)
Definition bitmaps_only (x : ext2) (m' : mem) : Prop :=
  forall a, ~ in_region x RSuper a -> ~ in_region x RDesc a ->
    (forall g, 0 <= g < n_groups (x_image x) -> ~ in_region x (RBlockBitmap g) a) ->
    u8 (m' a) = u8 (x_image x a).

(** How one flipped bit changes the counts of a range. *)
Lemma free_count_flip x x' lo hi b used :
  block_used x b = negb used ->
  block_used x' b = used -> (forall b', lo <= b' < hi -> b' <> b -> block_used x' b' = block_used x b') ->
  free_count x' lo hi
  = free_count x lo hi + (if (lo <=? b) && (b <? hi) then if used then -1 else 1 else 0).
Proof.
  intros Hu Hu' H.
  destruct (Z.leb_spec lo b), (Z.ltb_spec b hi); cbn [andb];
    try (rewrite Z.add_0_r; apply free_count_ext; intros b' Hb'; apply H; lia).
  destruct used; cbn [negb] in Hu.
  - pose proof (free_count_take x x' lo hi b ltac:(lia) Hu Hu' H). lia.
  - pose proof (free_count_take x' x lo hi b ltac:(lia) Hu' Hu) as T. rewrite T; [lia|].
    intros b' Hb' Hn. symmetry. apply H; assumption.
Qed.

(** The flipped image is sound. *)
Lemma marked_ok x b used :
  ext2_ok x -> block_valid x b -> block_used x b = negb used -> (used = false -> data_block x b) ->
  let delta := if used then -1 else 1 in
  ext2_ok (set_image x (marked x b used (sb_free_blocks_count (x_image x) + delta)
                          (gd_free_blocks_count (x_image x) (desc_off x (bgroup x b)) + delta))).
Proof.
  intros [L Od Os Og] Hb Hu Hd delta. set (vs := _ + delta). set (vg := gd_free_blocks_count _ _ + delta).
  set (m' := marked x b used vs vg). pose proof (marked_geom x L b Hb used vs vg) as G. fold m' in G.
  pose proof (marked_used x L b Hb used vs vg) as U. fold m' in U.
  pose proof (bgroup_range x L b Hb) as Hg. pose proof (fdb_range x L) as Hf.
  pose proof (same_geom_fields _ _ G) as F.
  assert (C : forall lo hi, sb_first_data_block (x_image x) <= lo -> hi <= sb_blocks_count (x_image x) ->
    free_count (set_image x m') lo hi
    = free_count x lo hi + (if (lo <=? b) && (b <? hi) then delta else 0)).
  { intros lo hi Hlo Hhi. apply free_count_flip; [exact Hu | rewrite U by exact Hb; rewrite Z.eqb_refl; reflexivity|].
    intros b' Hb' Hn. rewrite U by (unfold block_valid; lia). destruct (Z.eqb_spec b' b); [contradiction | reflexivity]. }
  pose proof (C _ _ (Z.le_refl _) (Z.le_refl _)) as C0. unfold block_valid in Hb.
  destruct (Z.leb_spec (sb_first_data_block (x_image x)) b), (Z.ltb_spec b (sb_blocks_count (x_image x)));
    try lia. cbn [andb] in C0.
  pose proof (free_count_bounds (set_image x m') _ _ (Z.le_trans _ _ _ (proj1 Hb) (Z.lt_le_incl _ _ (proj2 Hb)))) as B0.
  split.
  - exact (frame_layout x m' G L).
  - intros b' Hb' Hu'. apply (frame_valid x m' G) in Hb'. apply (frame_data_block x m' G).
    rewrite U in Hu' by exact Hb'. destruct (Z.eqb_spec b' b) as [->|]; auto.
  - change (x_image (set_image x m')) with m'. rewrite (sf_first _ _ F), (sf_blocks _ _ F), C0, <- Os.
    apply marked_sb_free; [exact L | exact Hb|]. unfold vs. rewrite Os. destruct L. lia.
  - intros g' Hg'. change (x_image (set_image x m')) with m' in *.
    rewrite (frame_n_groups x m' G) in Hg'. change (desc_off (set_image x m') g') with (desc_off x g').
    rewrite (frame_group_lo x m' G), (frame_group_hi x m' G).
    pose proof (group_bounds x g' L Hg') as (B1 & B2 & B3).
    rewrite C by lia. pose proof (block_in_group x b g' L Hb Hg') as IG.
    pose proof (C (group_lo x g') (group_hi x g') ltac:(lia) ltac:(lia)) as Cg.
    pose proof (free_count_bounds (set_image x m') (group_lo x g') (group_hi x g') ltac:(lia)) as Bg.
    rewrite <- (Og g' Hg') in *.
    unfold m'. rewrite marked_gd_free; [|exact L | exact Hb | | exact Hg'].
    + destruct (Z.eqb_spec g' (bgroup x b)) as [E|E].
      * destruct (Z.leb_spec (group_lo x g') b), (Z.ltb_spec b (group_hi x g')); try lia. cbn [andb].
        unfold vg. rewrite E. reflexivity.
      * destruct (Z.leb_spec (group_lo x g') b), (Z.ltb_spec b (group_hi x g')); cbn [andb]; lia.
    + unfold vg. pose proof (group_bounds x _ L Hg) as (D1 & D2 & D3).
      pose proof (C (group_lo x (bgroup x b)) (group_hi x (bgroup x b)) ltac:(lia) ltac:(lia)) as Ch.
      pose proof (free_count_bounds (set_image x m') (group_lo x (bgroup x b)) (group_hi x (bgroup x b)) ltac:(lia)) as Bh.
      pose proof (proj2 (block_in_group x b _ L Hb Hg) eq_refl).
      destruct (Z.leb_spec (group_lo x (bgroup x b)) b), (Z.ltb_spec b (group_hi x (bgroup x b))); try lia.
      cbn [andb] in Ch. rewrite (Og _ Hg). pose proof (bs_range x L). destruct L. lia.
Qed.

Lemma mark_ok x b used :
  ext2_ok x -> block_valid x b -> (used = false -> data_block x b) ->
  exists m', mark_block_used x b used = Ret (true, set_image x m') /\ ext2_ok (set_image x m')
  /\ same_geom x m' /\ bitmaps_only x m'
  /\ (forall b', block_valid x b' ->
        block_used (set_image x m') b' = if b' =? b then used else block_used x b')
  /\ sb_free_blocks_count m' + Z.b2z (negb (block_used x b))
     = sb_free_blocks_count (x_image x) + Z.b2z (negb used)
  /\ (block_used x b = used -> m' = x_image x).
Proof.
  intros O Hb Hd. pose proof (ok_layout x O) as L. rewrite mark_block_used_eq by assumption.
  destruct (Bool.eqb (block_used x b) used) eqn:E.
  - apply Bool.eqb_prop in E. exists (x_image x). rewrite set_image_id.
    split; [reflexivity|]. split; [exact O|]. split; [intros a Ha; reflexivity|].
    split; [intros a _ _ _; reflexivity|]. split; [|rewrite E; auto].
    intros b' _. destruct (Z.eqb_spec b' b); congruence.
  - assert (Hu : block_used x b = negb used)
      by (destruct (block_used x b), used; try discriminate; reflexivity).
    pose proof (marked_ok x b used O Hb Hu Hd) as O'. cbn zeta in *. eexists.
    split; [reflexivity|]. split; [exact O'|]. split; [apply marked_geom; assumption|].
    split; [intros a H1 H2 H3; apply marked_frame; auto; apply H3, bgroup_range; assumption|].
    split; [apply marked_used; assumption|].
    split; [|rewrite Hu; destruct used; discriminate].
    rewrite marked_sb_free; [rewrite Hu; destruct used; cbn; lia | exact L | exact Hb|].
    pose proof (ok_sb_free _ O') as S. change (x_image (set_image x ?n)) with n in S.
    pose proof (fdb_range x L) as Hf. pose proof (ok_sb_free x O) as Ss.
    pose proof (free_count_bounds x (sb_first_data_block (x_image x)) (sb_blocks_count (x_image x))) as Bd.
    unfold block_valid in Hb. specialize (Bd ltac:(lia)). rewrite <- Ss in Bd.
    destruct used; [|destruct L; lia].
    pose proof (count_if_pos (fun c => negb (block_used x c))
      (seqZ (sb_first_data_block (x_image x)) (sb_blocks_count (x_image x) - sb_first_data_block (x_image x))) b) as Cp.
    unfold free_count in Ss. rewrite <- Ss in Cp. rewrite In_seqZ, Hu in Cp.
    specialize (Cp ltac:(lia) eq_refl). destruct L. lia.
Qed.

(** ** Writes that leave the superblock, the descriptors and the bitmaps alone *)

(** The bytes the soundness of an image depends on. *)
Definition meta_byte (x : ext2) (a : Z) : Prop :=
  in_region x RSuper a \/ in_region x RDesc a
  \/ exists g, 0 <= g < n_groups (x_image x) /\ in_region x (RBlockBitmap g) a.

(** The counters of the inodes: neither the layout nor the blocks depend on them. *)
Definition inode_counter (x : ext2) (a : Z) : Prop :=
  1040 <= a < 1044 \/ exists g, 0 <= g < n_groups (x_image x) /\ desc_off x g + 14 <= a < desc_off x g + 18.

(** A field of a descriptor that ends before these counters meets none. *)
Lemma desc_not_counter x g a :
  layout x -> 0 <= g < n_groups (x_image x) -> desc_off x g + 12 <= a < desc_off x g + 14 -> ~ inode_counter x a.
Proof.
  intros L Hg Ha [Hc | (g' & Hg' & Hc)]; [pose proof (super_desc_apart x L g Hg); lia|].
  unfold desc_off, sizeof_group_desc in *. assert (g = g' \/ g < g' \/ g' < g) by lia. lia.
Qed.

Lemma super_not_counter x a : layout x -> 1036 <= a < 1040 -> ~ inode_counter x a.
Proof.
  intros L Ha [Hc | (g & Hg & Hc)]; [lia|]. pose proof (super_desc_apart x L g Hg). lia.
Qed.

Lemma bitmap_not_counter x r a :
  layout x -> region_real x r -> r <> RSuper -> r <> RDesc -> in_region x r a -> ~ inode_counter x a.
Proof.
  intros L Hr Hs Hd Ha [Hc | (g & Hg & Hc)].
  - apply Hs. apply (region_unique x L r RSuper a Hr I Ha). replace a with (1024 + (a - 1024)) by lia. apply super_in_region. lia.
  - apply Hd. apply (region_unique x L r RDesc a Hr I Ha).
    replace a with (desc_off x g + (a - desc_off x g)) by lia. apply desc_in_region; lia.
Qed.

Section Keep.
Context (x : ext2) (m' : mem) (O : ext2_ok x).
Hypothesis K : forall a, meta_byte x a -> ~ inode_counter x a -> u8 (m' a) = u8 (x_image x a).

Lemma counters_geom : same_geom x m'.
Proof.
  pose proof (ok_layout x O) as L. intros a Ha. apply K.
  - unfold meta_byte. destruct (static_in_region x a Ha); auto.
  - intros [Hc | (g & Hg & Hc)]; [apply (not_static_sb_counters x L a); [lia | exact Ha]|].
    apply (not_static_gd_counters x L g a Hg); [lia | exact Ha].
Qed.

Lemma counters_used b : block_valid x b -> block_used (set_image x m') b = block_used x b.
Proof.
  intros Hb. apply same_bitmap_used; [exact (ok_layout x O) | exact counters_geom | exact Hb|].
  intros g a Hg Ha. apply K; [right; right; eauto|].
  apply (bitmap_not_counter x (RBlockBitmap g)); auto using ok_layout; discriminate.
Qed.

Lemma counters_ok : ext2_ok (set_image x m').
Proof.
  pose proof counters_geom as G. pose proof counters_used as U. destruct O as [L Od Os Og].
  pose proof (same_geom_fields _ _ G) as F. pose proof (fdb_range x L) as Hf.
  split.
  - exact (frame_layout x m' G L).
  - intros b Hb Hu. apply (frame_valid x m' G) in Hb. apply (frame_data_block x m' G).
    rewrite U in Hu by exact Hb. auto.
  - change (x_image (set_image x m')) with m'. rewrite (sf_first _ _ F), (sf_blocks _ _ F).
    transitivity (sb_free_blocks_count (x_image x)).
    + apply load_ext. intros a Ha. unfold EXT2_SUPERBLOCK_OFFSET in Ha. apply K; [left | apply super_not_counter; [exact L | lia]].
      replace a with (1024 + (a - 1024)) by lia. apply super_in_region. lia.
    + rewrite Os. symmetry. apply free_count_ext. intros b Hb. apply U. exact Hb.
  - intros g Hg. change (x_image (set_image x m')) with m' in *. rewrite (frame_n_groups x m' G) in Hg.
    change (desc_off (set_image x m') g) with (desc_off x g).
    rewrite (frame_group_lo x m' G), (frame_group_hi x m' G).
    transitivity (gd_free_blocks_count (x_image x) (desc_off x g)).
    + apply load_ext. intros a Ha. apply K; [right; left | apply (desc_not_counter x g); [exact L | exact Hg | lia]].
      replace a with (desc_off x g + (a - desc_off x g)) by lia. apply desc_in_region; [exact Hg | lia].
    + rewrite Og by exact Hg. symmetry. pose proof (group_bounds x g L Hg). apply free_count_ext.
      intros b Hb. apply U. unfold block_valid. lia.
Qed.
End Keep.

(** All of them kept. *)
Section KeepAll.
Context (x : ext2) (m' : mem).
Hypothesis K : forall a, meta_byte x a -> u8 (m' a) = u8 (x_image x a).

Lemma keep_geom : same_geom x m'.
Proof. intros a Ha. apply K. unfold meta_byte. destruct (static_in_region x a Ha); auto. Qed.

Lemma keep_used (O : ext2_ok x) b : block_valid x b -> block_used (set_image x m') b = block_used x b.
Proof. apply counters_used; auto. Qed.

Lemma keep_ok (O : ext2_ok x) : ext2_ok (set_image x m').
Proof. apply counters_ok; auto. Qed.
End KeepAll.

(** The data of a block that is not metadata. *)
Lemma data_not_meta x b a :
  data_block x b -> b * x_block_size x <= a < b * x_block_size x + x_block_size x -> ~ meta_byte x a.
Proof.
  intros D Ha Hm.
  assert (H : exists r, region_real x r /\ in_region x r a).
  { destruct Hm as [H | [H | (g & Hg & H)]]; [exists RSuper | exists RDesc | exists (RBlockBitmap g)]; auto;
      split; auto; exact I. }
  destruct H as (r & Hr & Hin). specialize (D r Hr). unfold in_region, disjoint_ranges in *. lia.
Qed.

Lemma meta_frame x m' a : same_geom x m' -> meta_byte (set_image x m') a <-> meta_byte x a.
Proof.
  intros G. unfold meta_byte.
  rewrite (frame_in_region x m' G RSuper), (frame_in_region x m' G RDesc) by exact I.
  change (x_image (set_image x m')) with m'. rewrite (frame_n_groups x m' G).
  split; (intros [H | [H | (g & Hg & H)]]; auto; right; right; exists g; split; [exact Hg|]);
    apply (frame_in_region x m' G (RBlockBitmap g)); assumption.
Qed.

(** ** [allocate_block] *)

(** What allocating the free block [b] does. *)
Definition allocated (x : ext2) (b : Z) (m' : mem) : Prop :=
  block_valid x b /\ block_used x b = false /\ data_block x b /\ b <> 0
  /\ ext2_ok (set_image x m') /\ same_geom x m'
  /\ (forall b', block_valid x b' ->
        block_used (set_image x m') b' = if b' =? b then true else block_used x b')
  /\ mem_read m' (b * x_block_size x) (Z.to_nat (x_block_size x)) = repeat 0 (Z.to_nat (x_block_size x))
  /\ (forall a, ~ meta_byte x a -> ~ (b * x_block_size x <= a < b * x_block_size x + x_block_size x) ->
        u8 (m' a) = u8 (x_image x a)).

(** Block 0 is never free: it precedes the first data block or holds the superblock. *)
Lemma data_block_nonzero x b : layout x -> block_valid x b -> data_block x b -> b <> 0.
Proof.
  intros L Hb D ->. specialize (D RSuper I). unfold disjoint_ranges in D. cbn [region_base region_len] in D.
  unfold EXT2_SUPERBLOCK_OFFSET, sizeof_superblock in D. pose proof (bs_range x L).
  unfold block_valid in Hb. destruct L. rewrite ly_first in Hb.
  destruct (Z.eqb_spec (x_block_size x) 1024); lia.
Qed.

Lemma mem_read_fill_zero m a n : mem_read (mem_fill m a 0 n) a n = repeat 0 n.
Proof.
  unfold mem_fill. apply mem_read_write_eq; [|rewrite repeat_length; reflexivity].
  apply List.Forall_forall. intros c Hc. apply repeat_spec in Hc. subst c. unfold is_byte. lia.
Qed.

Lemma mem_fill_out m a n y : y < a \/ a + Z.of_nat n <= y -> mem_fill m a 0 n y = m y.
Proof. intros H. unfold mem_fill. apply mem_write_out. rewrite repeat_length. exact H. Qed.

Lemma take_block_ok x b :
  ext2_ok x -> block_valid x b -> block_used x b = false ->
  exists m', take_block x b = Ret (b, set_image x m') /\ allocated x b m'.
Proof.
  intros O Hb Hu. pose proof (ok_layout x O) as L. pose proof (ok_free_data x O b Hb Hu) as D.
  destruct (mark_ok x b true O Hb ltac:(discriminate)) as (m1 & E & O1 & G1 & B1 & U1 & _ & _).
  pose proof (bs_range x L) as Hbs.
  unfold take_block. rewrite E. cbn [mbind res_bind negb].
  rewrite (block_ptr_valid (set_image x m1) (ok_layout _ O1)); cbn [x_block_size set_image]; try lia;
    [|apply frame_valid; assumption].
  eexists. split; [reflexivity|].
  change (set_image (set_image x m1)) with (set_image x). cbn [x_image set_image].
  rewrite Z.add_0_r. set (m' := mem_fill m1 _ 0 _).
  assert (Hout : forall a, ~ (b * x_block_size x <= a < b * x_block_size x + x_block_size x) -> m' a = m1 a)
    by (intros a Ha; apply mem_fill_out; lia).
  assert (K : forall a, meta_byte (set_image x m1) a -> u8 (m' a) = u8 (m1 a)).
  { intros a Ha. apply (meta_frame x m1 a G1) in Ha. rewrite Hout; [reflexivity|].
    intros Hc. exact (data_not_meta x b a D Hc Ha). }
  pose proof (keep_geom (set_image x m1) m' K) as G2.
  assert (G : same_geom x m').
  { intros a Ha. transitivity (u8 (m1 a)); [|apply G1, Ha]. apply K, (meta_frame x m1 a G1).
    destruct (static_in_region x a Ha); unfold meta_byte; auto. }
  split; [exact Hb|]. split; [exact Hu|]. split; [exact D|].
  split; [exact (data_block_nonzero x b L Hb D)|].
  split; [exact (keep_ok (set_image x m1) m' K O1)|]. split; [exact G|].
  split; [intros b' Hb'; rewrite <- U1 by exact Hb'; apply (keep_used (set_image x m1) m' K O1);
          apply frame_valid; assumption|].
  split; [apply mem_read_fill_zero|].
  intros a Hm Ha. rewrite Hout by exact Ha. apply B1; intros; intros Hc; apply Hm; unfold meta_byte; eauto.
Qed.

(** The outcome of a search: a block was taken, or every block seen is used. *)
Definition search_result (x : ext2) (seen : Z -> Prop) (c : ctl ext2 (Z * ext2)) : Prop :=
  match c with
  | Break (b, x') => exists m', x' = set_image x m' /\ allocated x b m'
  | Cont x' => x' = x /\ forall b, seen b -> block_used x b = true
  end.

(** The inner loop of [allocate_block]. *)
Lemma search_group x g :
  ext2_ok x -> 0 <= g < n_groups (x_image x) ->
  exists c, mrange 0 (group_hi x g - group_lo x g) 1 (fun i x' =>
      if negb (bitmap_get (x_image x') (region_base x (RBlockBitmap g)) i)
      then take_block x' (u32 (group_lo x g + i)) ≫= fun r => Ret (Break r)
      else Ret (Cont x')) x = Ret c
  /\ search_result x (fun b => group_lo x g <= b < group_hi x g) c.
Proof.
  intros O Hg. pose proof (ok_layout x O) as L. pose proof (group_bounds x g L Hg) as (B1 & B2 & B3).
  pose proof (fdb_range x L) as Hf. unfold mrange, trips.
  replace ((group_hi x g - group_lo x g - 0 + 1 - 1) / 1) with (group_hi x g - group_lo x g)
    by (rewrite Z.div_1_r; lia).
  apply mfor_ind with (P := fun i x' => x' = x /\ forall b, group_lo x g <= b < group_lo x g + i -> block_used x b = true).
  - split; [reflexivity | intros; lia].
  - intros k x' Hk (-> & Hs). replace (0 + k * 1) with k in * by lia. replace (0 + (k + 1) * 1) with (k + 1) by lia.
    set (b := group_lo x g + k).
    assert (Hb : block_valid x b) by (unfold block_valid, b; lia).
    assert (Ebit : bitmap_get (x_image x) (region_base x (RBlockBitmap g)) k = block_used x b).
    { unfold block_used, b. destruct (block_unsplit x L g k ltac:(lia)) as [E1 E2].
      unfold group_lo. rewrite E1, E2. reflexivity. }
    rewrite Ebit. destruct (block_used x b) eqn:Hu; cbn [negb].
    + eexists. split; [reflexivity|]. split; [reflexivity|]. intros b' Hb'.
      destruct (Z.eq_dec b' b) as [->|Hn]; [exact Hu | apply Hs; unfold b in Hn; lia].
    + fold b. rewrite u32_id by (unfold block_valid in Hb; destruct L; lia).
      destruct (take_block_ok x b O Hb Hu) as (m' & E & A). rewrite E. cbn [mbind res_bind].
      eexists. split; [reflexivity|]. cbn. eauto.
  - intros x' (-> & Hs). split; [reflexivity|]. intros b Hb. apply Hs. lia.
Qed.

(** The limit the code computes is the end of the group. *)
Lemma group_limit_eq x g :
  layout x -> 0 <= g < x_group_count x ->
  let m := x_image x in
  let group_base := u32 (sb_first_data_block m + u32 (g * sb_blocks_per_group m)) in
  group_base = group_lo x g /\
  (if sb_blocks_count m <? u32 (group_base + sb_blocks_per_group m)
   then u32 (sb_blocks_count m - group_base) else sb_blocks_per_group m)
  = group_hi x g - group_lo x g.
Proof.
  intros L Hg m. pose proof (fdb_range x L) as Hf. cbn zeta. unfold group_hi, group_lo. fold m in Hf |- *.
  destruct L as [_ Hbpg _ _ _ Hc Hw Hgc _ _ _ _]. fold m in Hbpg, Hc, Hw, Hgc.
  assert (Hlt : g * sb_blocks_per_group m < sb_blocks_count m).
  { pose proof (Z.div_mod (sb_blocks_count m + sb_blocks_per_group m - 1) (sb_blocks_per_group m) ltac:(lia)).
    pose proof (Z.mod_pos_bound (sb_blocks_count m + sb_blocks_per_group m - 1) (sb_blocks_per_group m) ltac:(lia)).
    nia. }
  assert (0 <= g * sb_blocks_per_group m) by nia.
  rewrite (u32_id (g * _)) by lia. rewrite (u32_id (sb_first_data_block m + _)) by lia.
  split; [reflexivity|]. rewrite (u32_id (_ + sb_blocks_per_group m)) by lia.
  destruct (Z.ltb_spec (sb_blocks_count m) (sb_first_data_block m + g * sb_blocks_per_group m + sb_blocks_per_group m)).
  - rewrite u32_id by lia. lia.
  - lia.
Qed.

Definition no_free_block (x : ext2) : Prop := forall b, block_valid x b -> block_used x b = true.

(** The loop body on a group that holds blocks. *)
Lemma allocate_in_real_group x g :
  ext2_ok x -> 0 <= g < n_groups (x_image x) ->
  exists c, allocate_in_group g x = Ret c
  /\ search_result x (fun b => block_valid x b /\ bgroup x b = g) c.
Proof.
  intros O Hg. pose proof (ok_layout x O) as L. pose proof (n_groups_le x L).
  pose proof (group_limit_eq x g L ltac:(lia)) as [Eb El]. cbn zeta in Eb, El.
  assert (Hseen : forall c, search_result x (fun b => group_lo x g <= b < group_hi x g) c ->
                            search_result x (fun b => block_valid x b /\ bgroup x b = g) c).
  { intros [x' | [r x']]; cbn; [|auto]. intros [-> Hall]. split; [reflexivity|]. intros b [Hb Eg].
    apply Hall, (block_in_group x b g L Hb Hg). congruence. }
  unfold allocate_in_group. rewrite (group_desc_real x L) by exact Hg.
  destruct (Z.eqb_spec (gd_free_blocks_count (x_image x) (desc_off x g)) 0) as [E0|E0].
  - eexists. split; [reflexivity|]. apply Hseen. split; [reflexivity|]. intros b Hb.
    rewrite (ok_gd_free x O g Hg) in E0. unfold free_count in E0.
    pose proof (count_if_zero _ _ E0 b) as Z0. rewrite In_seqZ in Z0.
    apply negb_false_iff, Z0. lia.
  - rewrite (bitmap_ptr x L) by exact Hg. cbn zeta. rewrite El, Eb.
    destruct (search_group x g O Hg) as (c & Ec & Rc). rewrite Ec. eauto.
Qed.

(** The loop body past the last group finds nothing to look at. *)
Lemma allocate_in_phantom_group x g :
  layout x -> n_groups (x_image x) <= g < x_group_count x ->
  exists c, allocate_in_group g x = Ret c /\ (c = Cont x \/ c = Break (0, x)).
Proof.
  intros L Hg. pose proof (n_groups_pos x L). pose proof (fdb_range x L).
  pose proof (group_limit_eq x g L ltac:(lia)) as [Eb El]. cbn zeta in Eb, El.
  assert (Hempty : group_hi x g - group_lo x g <= 0).
  { unfold group_hi, group_lo. destruct L. unfold n_groups in *.
    pose proof (Z.div_mod (sb_blocks_count (x_image x) - sb_first_data_block (x_image x)
                  + sb_blocks_per_group (x_image x) - 1) (sb_blocks_per_group (x_image x)) ltac:(lia)).
    pose proof (Z.mod_pos_bound (sb_blocks_count (x_image x) - sb_first_data_block (x_image x)
                  + sb_blocks_per_group (x_image x) - 1) (sb_blocks_per_group (x_image x)) ltac:(lia)).
    nia. }
  unfold allocate_in_group. destruct (group_desc x g) as [d|]; [|eauto].
  destruct (gd_free_blocks_count (x_image x) d =? 0); [eauto|].
  destruct (block_ptr x (gd_block_bitmap (x_image x) d) 0 (x_block_size x)) as [p|]; [|eauto].
  cbn zeta. rewrite El, Eb. unfold mrange, trips.
  replace (Z.to_nat ((group_hi x g - group_lo x g - 0 + 1 - 1) / 1)) with 0%nat
    by (rewrite Z.div_1_r; lia).
  eexists. split; [reflexivity | auto].
Qed.

Definition allocate_result (x : ext2) (r : Z) (x' : ext2) : Prop :=
  (r = 0 /\ x' = x /\ no_free_block x) \/ exists m', x' = set_image x m' /\ allocated x r m'.

Lemma allocate_block_ok x :
  ext2_ok x -> exists r x', allocate_block x = Ret (r, x') /\ allocate_result x r x'.
Proof.
  intros O. pose proof (ok_layout x O) as L. pose proof (n_groups_le x L) as Hn.
  unfold allocate_block, mrange, trips.
  replace ((x_group_count x - 0 + 1 - 1) / 1) with (x_group_count x) by (rewrite Z.div_1_r; lia).
  destruct (mfor_ind
    (fun g x' => x' = x /\ forall b, block_valid x b -> bgroup x b < g -> block_used x b = true)
    (fun c : ctl ext2 (Z * ext2) => match c with
              | Break (r, x') => allocate_result x r x'
              | Cont x' => x' = x /\ no_free_block x end)
    (Z.to_nat (x_group_count x)) 0 1 allocate_in_group x) as (c & -> & Hc).
  - split; [reflexivity|]. intros b Hb Hl. pose proof (bgroup_range x L b Hb). lia.
  - intros g x' Hg (-> & Hs). replace (0 + g * 1) with g in * by lia. replace (0 + (g + 1) * 1) with (g + 1) by lia.
    assert (Hall : n_groups (x_image x) <= g -> no_free_block x)
      by (intros Hp b Hb; apply Hs; [exact Hb | pose proof (bgroup_range x L b Hb); lia]).
    destruct (Z.lt_ge_cases g (n_groups (x_image x))) as [Hreal | Hphantom].
    + destruct (allocate_in_real_group x g O ltac:(lia)) as (c & -> & Rc). eexists. split; [reflexivity|].
      destruct c as [x' | [r x']]; cbn [search_result] in Rc; [|right; exact Rc].
      destruct Rc as [-> Hg']. split; [reflexivity|]. intros b Hb Hl.
      destruct (Z.eq_dec (bgroup x b) g); [apply Hg'; auto | apply Hs; [exact Hb | lia]].
    + destruct (allocate_in_phantom_group x g L ltac:(lia)) as (c & -> & [-> | ->]);
        (eexists; split; [reflexivity|]).
      * split; [reflexivity|]. intros b Hb _. exact (Hall Hphantom b Hb).
      * left. auto.
  - intros x' (-> & Hs). split; [reflexivity|]. intros b Hb. apply Hs; [exact Hb|].
    pose proof (bgroup_range x L b Hb). lia.
  - cbn [mbind res_bind]. destruct c as [x' | [r x']]; eexists _, _; (split; [reflexivity|]).
    + left. destruct Hc. auto.
    + exact Hc.
Qed.
