(* ===== verification/Ext2Sample.v ===== *)
(** * A small ext2 image

    Sixteen blocks of 1024 bytes in one group, labelled as a root file system:
    boot block, superblock, descriptors, the two bitmaps, eight inodes, the root
    directory with one file, and that file's block. The witnesses of the ext2 theorems use it. *)

From S2P Require Import Prelude Fs Ext2Image Ext2Codec Ext2Layout Ext2Alloc.

Fixpoint write_words (m : mem) (ws : list (nat * Z * Z)) : mem :=
  match ws with
  | [] => m
  | (n, a, v) :: ws => write_words (store n m a v) ws
  end.

Definition root_inode : ext2_inode :=
  mk_inode 0x41ed 0 1024 0 0 0 0 0 2 2 0 0 (6 :: repeat 0 14) 0 0 0 0 (repeat 0 12).

Definition file_inode : ext2_inode :=
  mk_inode 0x81a4 0 5 0 0 0 0 0 1 2 0 0 (7 :: repeat 0 14) 0 0 0 0 (repeat 0 12).

Definition sample_mem : mem :=
  let m := write_words (fun _ => 0)
    [ (4%nat, 1024, 8); (4%nat, 1028, 16); (4%nat, 1036, 8); (4%nat, 1040, 5); (4%nat, 1044, 1);
      (4%nat, 1056, 8192); (4%nat, 1064, 8); (2%nat, 1080, 0xef53); (4%nat, 1108, 4); (2%nat, 1112, 128);
      (4%nat, 1144, 0x52494857); (4%nat, 1148, 0x4f4f524c); (1%nat, 1152, 0x54);
      (4%nat, 2048, 3); (4%nat, 2052, 4); (4%nat, 2056, 5); (2%nat, 2060, 8); (2%nat, 2062, 5); (2%nat, 2064, 1);
      (1%nat, 3072, 0x7f); (1%nat, 4096, 0x07);
      (4%nat, 6144, 2); (2%nat, 6148, 12); (1%nat, 6150, 1); (1%nat, 6151, 2); (1%nat, 6152, 46);
      (4%nat, 6156, 2); (2%nat, 6160, 12); (1%nat, 6162, 2); (1%nat, 6163, 2); (2%nat, 6164, 0x2e2e);
      (4%nat, 6168, 3); (2%nat, 6172, 1000); (1%nat, 6174, 1); (1%nat, 6175, 1); (1%nat, 6176, 97) ] in
  let m := mem_write m 5248 (inode_bytes root_inode) in
  let m := mem_write m 5376 (inode_bytes file_inode) in
  mem_write m 7168 [104; 101; 108; 108; 111].

Definition sample : ext2 := mk_ext2 true sample_mem 16384 true 1024 1 None [].

Lemma sample_groups : n_groups (x_image sample) = 1.
Proof. vm_compute. reflexivity. Qed.

Definition sample_bases : list (region * Z * Z) :=
  [ (RSuper, 1024, 136); (RDesc, 2048, 32); (RBlockBitmap 0, 3072, 1024); (RInodeBitmap 0, 4096, 1024);
    (RInodeTable 0, 5120, 1024) ].

Lemma sample_region r :
  region_real sample r -> exists base len, In (r, base, len) sample_bases
    /\ region_base sample r = base /\ region_len sample r = len.
Proof.
  intros Hr. assert (H : In r (map (fun t => fst (fst t)) sample_bases)).
  { destruct r as [| |g|g|g]; cbn [region_real] in Hr; rewrite ?sample_groups in Hr;
      try (assert (g = 0) by lia; subst g); cbn; tauto. }
  cbn [map sample_bases fst] in H.
  repeat destruct H as [<- | H]; try destruct H;
    eexists _, _; (split; [cbn [In sample_bases]; eauto 8 | split; vm_compute; reflexivity]).
Qed.

Lemma sample_fields :
  sb_inodes_count (x_image sample) = 8 /\ sb_blocks_count (x_image sample) = 16
  /\ sb_first_data_block (x_image sample) = 1 /\ sb_blocks_per_group (x_image sample) = 8192
  /\ sb_inodes_per_group (x_image sample) = 8 /\ inode_size_of (x_image sample) = 128.
Proof. vm_compute. repeat split. Qed.

Lemma sample_layout : layout sample.
Proof.
  destruct sample_fields as (E1 & E2 & E3 & E4 & E5 & E6).
  split; rewrite ?E1, ?E2, ?E3, ?E4, ?E5, ?E6, ?sample_groups; change (x_block_size sample) with 1024;
    change (x_group_count sample) with 1; change (x_size sample) with 16384; try lia; try reflexivity.
  - intros r Hr. destruct (sample_region r Hr) as (b & l & Hi & -> & ->).
    change (x_size sample) with 16384. cbn [In sample_bases] in Hi.
    repeat destruct Hi as [Hi | Hi]; try injection Hi as <- <- <-; try destruct Hi; lia.
  - intros r r' Hr Hr' Hn.
    destruct (sample_region r Hr) as (b & l & Hi & -> & ->).
    destruct (sample_region r' Hr') as (b' & l' & Hi' & -> & ->).
    unfold disjoint_ranges. cbn [In sample_bases] in Hi, Hi'.
    repeat destruct Hi as [Hi | Hi]; try injection Hi as <- <- <-; try destruct Hi;
    repeat destruct Hi' as [Hi' | Hi']; try injection Hi' as <- <- <-; try destruct Hi'; try lia; contradiction.
Qed.

Lemma sample_data b : 6 <= b -> data_block sample b.
Proof.
  intros Hb r Hr. destruct (sample_region r Hr) as (base & len & Hi & -> & ->).
  change (x_block_size sample) with 1024. unfold disjoint_ranges. cbn [In sample_bases] in Hi.
  repeat destruct Hi as [Hi | Hi]; try injection Hi as <- <- <-; try destruct Hi; lia.
Qed.

Lemma sample_ok : ext2_ok sample.
Proof.
  split; [exact sample_layout | | vm_compute; reflexivity|].
  - intros b Hb Hu. apply sample_data. unfold block_valid in Hb.
    destruct sample_fields as (_ & E2 & E3 & _). rewrite E2, E3 in Hb.
    assert (E : forallb (fun b => block_used sample b || (6 <=? b)) (seqZ 1 15) = true)
      by (vm_compute; reflexivity).
    rewrite forallb_forall in E. specialize (E b ltac:(apply In_seqZ; lia)).
    rewrite Hu in E. cbn in E. b2p. exact E.
  - intros g Hg. rewrite sample_groups in Hg. assert (g = 0) by lia. subst g. vm_compute. reflexivity.
Qed.

(** An image of 4096-byte blocks, so that block 0 holds the superblock, with a
    file of five bytes, all in a hole. *)
Definition hole_inode : ext2_inode :=
  mk_inode 0x81a4 0 5 0 0 0 0 0 1 0 0 0 (repeat 0 15) 0 0 0 0 (repeat 0 12).

Definition root_inode_4k : ext2_inode :=
  mk_inode 0x41ed 0 4096 0 0 0 0 0 2 8 0 0 (5 :: repeat 0 14) 0 0 0 0 (repeat 0 12).

Definition hole_mem : mem :=
  let m := write_words (fun _ => 0)
    [ (4%nat, 1024, 8); (4%nat, 1028, 8); (4%nat, 1036, 2); (4%nat, 1040, 5); (4%nat, 1048, 2);
      (4%nat, 1056, 32768); (4%nat, 1064, 8); (2%nat, 1080, 0xef53); (4%nat, 1108, 4); (2%nat, 1112, 128);
      (4%nat, 4096, 2); (4%nat, 4100, 3); (4%nat, 4104, 4); (2%nat, 4108, 2); (2%nat, 4110, 5);
      (1%nat, 8192, 0x3f); (1%nat, 12288, 0x07);
      (4%nat, 20480, 3); (2%nat, 20484, 4096); (1%nat, 20486, 1); (1%nat, 20487, 1); (1%nat, 20488, 97) ] in
  let m := mem_write m 16512 (inode_bytes root_inode_4k) in
  mem_write m 16640 (inode_bytes hole_inode).

(** Superblocks that are not those of a file system: no blocks at all, and
    groups of more blocks than the bits of a bitmap block. *)
Definition empty_mem : mem :=
  write_words (fun _ => 0)
    [ (4%nat, 1024, 8); (4%nat, 1056, 8192); (4%nat, 1064, 8); (2%nat, 1080, 0xef53) ].

Definition wide_mem : mem :=
  write_words sample_mem [ (4%nat, 1028, 1048576); (4%nat, 1056, 1048576) ].
