(* ===== verification/Ext2Proofs.v ===== *)
(** * The ext2 file system: theorems on blocks, inodes and file contents *)

From S2P Require Import Prelude Fs Ext2Image Ext2Codec Ext2Layout Ext2Alloc.
From S2P Require Import Ext2 Ext2Ops Ext2Sample.

(** ** Blocks *)

(** In a sound image, marking a block of the file system used or free
    succeeds, gives that block's bit the value asked for and no other bit
    another one, keeps the image sound, so the free counters of the superblock
    and of the group still count the clear bits, and changes no byte outside the
    superblock, the descriptors and the bitmaps. A block number past the end is
    refused without a change. *)
Theorem mark_block_used_correct x b used :
  ext2_ok x -> (used = false -> block_valid x b -> data_block x b) ->
  (block_valid x b ->
     exists m', mark_block_used x b used = Ret (true, set_image x m')
     /\ ext2_ok (set_image x m') /\ bitmaps_only x m'
     /\ (forall b', block_valid x b' ->
           block_used (set_image x m') b' = if b' =? b then used else block_used x b')
     /\ sb_free_blocks_count m' + Z.b2z (negb (block_used x b))
        = sb_free_blocks_count (x_image x) + Z.b2z (negb used))
  /\ (sb_blocks_count (x_image x) <= b -> mark_block_used x b used = Ret (false, x)).
Proof.
  intros O Hd. split.
  - intros Hb. destruct (mark_ok x b used O Hb (fun H => Hd H Hb)) as (m' & E & O' & _ & B & U & S & _).
    exists m'. auto.
  - intros Hb. unfold mark_block_used. destruct (Z.leb_spec (sb_blocks_count (x_image x)) b); [reflexivity | lia].
Qed.

Lemma mark_block_used_correct_witness :
  exists m', mark_block_used sample 9 true = Ret (true, set_image sample m')
  /\ ext2_ok (set_image sample m') /\ bitmaps_only sample m'
  /\ (forall b', block_valid sample b' ->
        block_used (set_image sample m') b' = if b' =? 9 then true else block_used sample b')
  /\ sb_free_blocks_count m' + Z.b2z (negb (block_used sample 9))
     = sb_free_blocks_count (x_image sample) + Z.b2z (negb true).
Proof.
  apply (mark_block_used_correct sample 9 true sample_ok); [discriminate|].
  unfold block_valid. destruct sample_fields as (_ & -> & -> & _). lia.
Defined.

(** In a sound image, [allocate_block] always returns: either 0, with the
    image as it was and only when every block is in use; or a block number other
    than 0 whose block was free and holds no metadata. That block is then marked
    used and no other is, its contents are zero, the image is sound, and no byte
    outside the block, the superblock, the descriptors and the bitmaps has
    changed. *)
Theorem allocate_block_correct x :
  ext2_ok x ->
  exists r x', allocate_block x = Ret (r, x') /\ ext2_ok x'
  /\ (r = 0 <-> no_free_block x)
  /\ (r = 0 -> x' = x)
  /\ (r <> 0 -> block_valid x r /\ block_used x r = false /\ data_block x r
        /\ (forall b', block_valid x b' -> block_used x' b' = if b' =? r then true else block_used x b')
        /\ mem_read (x_image x') (r * x_block_size x) (Z.to_nat (x_block_size x))
           = repeat 0 (Z.to_nat (x_block_size x))
        /\ (forall a, ~ meta_byte x a ->
              ~ (r * x_block_size x <= a < r * x_block_size x + x_block_size x) ->
              u8 (x_image x' a) = u8 (x_image x a))).
Proof.
  intros O. destruct (allocate_block_ok x O) as (r & x' & E & [(-> & -> & Hn) | (m' & -> & A)]);
    exists r || exists 0; eexists; (split; [exact E|]).
  - split; [exact O|]. split; [split; auto|]. split; [auto | intros H; destruct (H eq_refl)].
  - destruct A as (Hb & Hu & D & Hz & O' & G & U & Z & F).
    split; [exact O'|]. split; [|split; [intros ->; contradiction | intros _; auto 8]].
    split; [intros ->; contradiction|]. intros Hn. rewrite (Hn r Hb) in Hu. discriminate.
Qed.

Lemma allocate_block_correct_witness :
  exists r x', allocate_block sample = Ret (r, x') /\ ext2_ok x'
  /\ (r = 0 <-> no_free_block sample)
  /\ (r = 0 -> x' = sample)
  /\ (r <> 0 -> block_valid sample r /\ block_used sample r = false /\ data_block sample r
        /\ (forall b', block_valid sample b' -> block_used x' b' = if b' =? r then true else block_used sample b')
        /\ mem_read (x_image x') (r * x_block_size sample) (Z.to_nat (x_block_size sample))
           = repeat 0 (Z.to_nat (x_block_size sample))
        /\ (forall a, ~ meta_byte sample a ->
              ~ (r * x_block_size sample <= a < r * x_block_size sample + x_block_size sample) ->
              u8 (x_image x' a) = u8 (x_image sample a))).
Proof. apply (allocate_block_correct sample sample_ok). Defined.

(** ** Inodes *)

Definition inode_valid (x : ext2) (n : Z) : Prop := 1 <= n <= sb_inodes_count (x_image x).

(** Where an inode is. *)
Definition inode_pos (x : ext2) (n : Z) : Z :=
  region_base x (RInodeTable ((n - 1) / sb_inodes_per_group (x_image x)))
  + (n - 1) mod sb_inodes_per_group (x_image x) * inode_size_of (x_image x).

Section Inodes.
Context (x : ext2) (L : layout x).

Abbreviation ipg := (sb_inodes_per_group (x_image x)).

Lemma inode_group n : inode_valid x n -> 0 <= (n - 1) / ipg < n_groups (x_image x).
Proof.
  intros [Hl Hh]. destruct L. split; [apply Z.div_pos; lia|]. apply Z.div_lt_upper_bound; [lia|].
  nia.
Qed.

Lemma inode_in_table n a :
  inode_valid x n -> inode_pos x n <= a < inode_pos x n + sizeof_inode ->
  in_region x (RInodeTable ((n - 1) / ipg)) a.
Proof.
  intros Hn Ha. unfold in_region, inode_pos, sizeof_inode in *. cbn [region_len].
  destruct L. pose proof (Z.mod_pos_bound (n - 1) ipg ltac:(lia)). nia.
Qed.

Lemma inode_offset_ok n : inode_valid x n -> inode_offset x n = Ret (Some (inode_pos x n)).
Proof.
  intros Hn. pose proof (inode_group n Hn) as Hg. pose proof Hn as [Hl Hh]. unfold inode_offset.
  destruct (Z.eqb_spec n 0); [lia|]. destruct (Z.ltb_spec (sb_inodes_count (x_image x)) n); [lia|].
  cbn [orb]. rewrite udivmod_pos by (destruct L; lia). cbn [mbind res_bind].
  rewrite (group_desc_real x L) by exact Hg.
  pose proof (ly_inside x L (RInodeTable ((n - 1) / ipg)) Hg) as [B1 B2].
  pose proof (inode_in_table n (inode_pos x n) Hn ltac:(unfold sizeof_inode; lia)) as I1.
  pose proof (inode_in_table n (inode_pos x n + 127) Hn ltac:(unfold sizeof_inode; lia)) as I2.
  f_equal. change (image_ptr x (inode_pos x n) sizeof_inode = Some (inode_pos x n)).
  unfold in_region in *. apply image_ptr_in; unfold sizeof_inode; lia.
Qed.

(** Two inodes do not overlap. *)
Lemma inode_disjoint n n' a :
  inode_valid x n -> inode_valid x n' -> n <> n' ->
  inode_pos x n <= a < inode_pos x n + sizeof_inode ->
  inode_pos x n' <= a < inode_pos x n' + sizeof_inode -> False.
Proof.
  intros Hn Hn' Hne Ha Ha'.
  pose proof (region_unique x L (RInodeTable ((n - 1) / ipg)) (RInodeTable ((n' - 1) / ipg)) a
                (inode_group n Hn) (inode_group n' Hn')
                (inode_in_table n a Hn Ha) (inode_in_table n' a Hn' Ha')) as E.
  injection E as E. unfold inode_pos, sizeof_inode in *. rewrite <- E in Ha'.
  assert (Hm : (n - 1) mod ipg <> (n' - 1) mod ipg).
  { intros Em. apply Hne. destruct L. pose proof (Z.div_mod (n - 1) ipg ltac:(lia)).
    pose proof (Z.div_mod (n' - 1) ipg ltac:(lia)). rewrite <- E, <- Em in *. lia. }
  destruct L. nia.
Qed.

Lemma inode_not_meta n a :
  inode_valid x n -> inode_pos x n <= a < inode_pos x n + sizeof_inode -> ~ meta_byte x a.
Proof.
  intros Hn Ha Hm. pose proof (inode_in_table n a Hn Ha) as Hi. pose proof (inode_group n Hn) as Hg.
  destruct Hm as [H | [H | (g & Hg' & H)]].
  - pose proof (region_unique x L RSuper (RInodeTable ((n - 1) / ipg)) a I Hg H Hi). discriminate.
  - pose proof (region_unique x L RDesc (RInodeTable ((n - 1) / ipg)) a I Hg H Hi). discriminate.
  - pose proof (region_unique x L (RBlockBitmap g) (RInodeTable ((n - 1) / ipg)) a Hg' Hg H Hi). discriminate.
Qed.
End Inodes.

Lemma frame_inode_pos x m' n :
  layout x -> same_geom x m' -> inode_valid x n -> inode_pos (set_image x m') n = inode_pos x n.
Proof.
  intros L G Hn. pose proof (same_geom_fields _ _ G) as F. pose proof (inode_group x L n Hn) as Hg.
  unfold inode_pos. change (x_image (set_image x m')) with m'. rewrite (sf_ipg _ _ F), (frame_isize x m' G).
  rewrite (frame_base x m' G); [reflexivity | exact Hg].
Qed.

Lemma frame_inode_valid x m' n : same_geom x m' -> inode_valid (set_image x m') n <-> inode_valid x n.
Proof.
  intros G. pose proof (same_geom_fields _ _ G) as F. unfold inode_valid.
  change (x_image (set_image x m')) with m'. rewrite (sf_inodes _ _ F). reflexivity.
Qed.

(** Writing an inode stores its 128 bytes and nothing else. *)
Lemma write_inode_ok x n i :
  ext2_ok x -> inode_wf i -> inode_valid x n ->
  exists m', write_inode x n i = Ret (true, set_image x m')
  /\ inode_at m' (inode_pos x n) = i
  /\ (forall a, ~ (inode_pos x n <= a < inode_pos x n + sizeof_inode) -> u8 (m' a) = u8 (x_image x a))
  /\ (forall a, meta_byte x a -> u8 (m' a) = u8 (x_image x a)).
Proof.
  intros O W Hn. pose proof (ok_layout x O) as L. unfold write_inode. rewrite (inode_offset_ok x L n Hn). cbn [mbind res_bind].
  set (m' := mem_write _ _ _). exists m'.
  assert (F : forall a, ~ (inode_pos x n <= a < inode_pos x n + sizeof_inode) -> u8 (m' a) = u8 (x_image x a)).
  { intros a Ha. unfold m', sizeof_inode in *. rewrite mem_write_out; [reflexivity|].
    destruct W as [_ _ [_ W1] [_ W2]]. rewrite inode_bytes_length by assumption. lia. }
  split; [reflexivity|]. split; [exact (inode_at_write _ _ i W)|]. split; [exact F|].
  intros a Ha. apply F. intros Hc. exact (inode_not_meta x L n a Hn Hc Ha).
Qed.

(** In a sound image, writing an inode whose fields are in range succeeds;
    reading it back gives that inode, every other inode reads as before, the
    image stays sound with the same blocks in use, and no byte outside the 128
    of the inode changes. An inode number that is zero or too large is refused
    without a change, by the read as by the write. *)
Theorem write_inode_correct x n i :
  ext2_ok x -> inode_wf i ->
  (inode_valid x n ->
     exists m', write_inode x n i = Ret (true, set_image x m')
     /\ ext2_ok (set_image x m')
     /\ read_inode (set_image x m') n = Ret (Some i)
     /\ (forall n', inode_valid x n' -> n' <> n -> read_inode (set_image x m') n' = read_inode x n')
     /\ (forall b, block_valid x b -> block_used (set_image x m') b = block_used x b)
     /\ (forall a, ~ (inode_pos x n <= a < inode_pos x n + sizeof_inode) -> u8 (m' a) = u8 (x_image x a)))
  /\ (n = 0 \/ sb_inodes_count (x_image x) < n ->
        write_inode x n i = Ret (false, x) /\ read_inode x n = Ret None).
Proof.
  intros O W. pose proof (ok_layout x O) as L. split.
  - intros Hn. destruct (write_inode_ok x n i O W Hn) as (m' & E & Ei & F & K). exists m'. rewrite E.
    pose proof (keep_geom x m' K) as G. pose proof (frame_layout x m' G L) as L'.
    assert (R : forall n', inode_valid x n' ->
              read_inode (set_image x m') n' = Ret (Some (inode_at m' (inode_pos x n')))).
    { intros n' Hn'. unfold read_inode. rewrite (inode_offset_ok _ L') by (apply frame_inode_valid; assumption).
      rewrite frame_inode_pos by assumption. reflexivity. }
    split; [reflexivity|]. split; [exact (keep_ok x m' K O)|].
    split; [rewrite R by exact Hn; rewrite Ei; reflexivity|].
    split; [|split; [intros b Hb; apply keep_used; assumption | exact F]].
    intros n' Hn' Hne. rewrite R by exact Hn'. unfold read_inode. rewrite (inode_offset_ok x L n' Hn').
    cbn [mbind res_bind option_map]. do 2 f_equal. apply inode_at_ext. intros a Ha. apply F.
    intros Hc. exact (inode_disjoint x L n n' a Hn Hn' (not_eq_sym Hne) Hc Ha).
  - intros Hbad. unfold write_inode, read_inode, inode_offset.
    destruct (Z.eqb_spec n 0), (Z.ltb_spec (sb_inodes_count (x_image x)) n); cbn [orb]; try lia; auto.
Qed.

Lemma write_inode_correct_witness :
  exists m', write_inode sample 4 file_inode = Ret (true, set_image sample m')
  /\ ext2_ok (set_image sample m')
  /\ read_inode (set_image sample m') 4 = Ret (Some file_inode)
  /\ (forall n', inode_valid sample n' -> n' <> 4 -> read_inode (set_image sample m') n' = read_inode sample n')
  /\ (forall b, block_valid sample b -> block_used (set_image sample m') b = block_used sample b)
  /\ (forall a, ~ (inode_pos sample 4 <= a < inode_pos sample 4 + sizeof_inode) -> u8 (m' a) = u8 (x_image sample a)).
Proof.
  apply (write_inode_correct sample 4 file_inode sample_ok).
  - split; cbn; repeat constructor; unfold is_u16, is_u32, is_byte; lia.
  - unfold inode_valid. destruct sample_fields as (-> & _). lia.
Defined.

(** ** File contents *)

(** The byte of a file at an offset; a block that is not allocated reads as zero. *)
Definition file_byte (x : ext2) (i : ext2_inode) (k : Z) : Z :=
  let b := block_id_at x i (k / x_block_size x) in
  if b =? 0 then 0 else u8 (x_image x (b * x_block_size x + k mod x_block_size x)).

(** The blocks of a file are blocks of the file system. *)
Definition readable (x : ext2) (i : ext2_inode) : Prop :=
  forall k, 0 <= k < i_size i ->
    let b := block_id_at x i (k / x_block_size x) in b = 0 \/ block_valid x b.

Definition file_bytes (x : ext2) (i : ext2_inode) (offset len : Z) : list Z :=
  map (file_byte x i) (seqZ offset len).

Lemma file_bytes_app x i offset l1 l2 :
  0 <= l1 -> 0 <= l2 -> file_bytes x i offset (l1 + l2) = file_bytes x i offset l1 ++ file_bytes x i (offset + l1) l2.
Proof. intros H1 H2. unfold file_bytes. rewrite seqZ_app, map_app by lia. reflexivity. Qed.

(** The bytes of a file inside one block. *)
Lemma file_bytes_chunk x i o n :
  0 < x_block_size x -> 0 <= o -> 0 <= n -> o mod x_block_size x + n <= x_block_size x ->
  file_bytes x i o n
  = let b := block_id_at x i (o / x_block_size x) in
    if b =? 0 then repeat 0 (Z.to_nat n)
    else mem_read (x_image x) (b * x_block_size x + o mod x_block_size x) (Z.to_nat n).
Proof.
  intros Hbs Ho Hn Hc. cbn zeta.
  assert (E : forall k, 0 <= k < n -> (o + k) / x_block_size x = o / x_block_size x
                                      /\ (o + k) mod x_block_size x = o mod x_block_size x + k).
  { intros k Hk. pose proof (Z.div_mod o (x_block_size x) ltac:(lia)).
    pose proof (Z.mod_pos_bound o (x_block_size x) Hbs).
    assert (D : o / x_block_size x = (o + k) / x_block_size x)
      by (apply (Z.div_unique _ _ _ (o mod x_block_size x + k)); lia).
    assert (M : o mod x_block_size x + k = (o + k) mod x_block_size x)
      by (apply (Z.mod_unique _ _ (o / x_block_size x)); lia). lia. }
  apply nth_ext with (d := 0) (d' := 0).
  - unfold file_bytes. rewrite length_map, length_seqZ.
    destruct (_ =? 0); rewrite ?repeat_length, ?mem_read_length; reflexivity.
  - intros k Hk. unfold file_bytes in *. rewrite length_map, length_seqZ in Hk.
    unfold seqZ. rewrite map_map. change (fmap ?f ?l) with (map f l). rewrite nth_map_seq by lia.
    destruct (E (Z.of_nat k) ltac:(lia)) as [E1 E2]. unfold file_byte.
    rewrite (Z.add_comm (Z.of_nat k)), E1, E2.
    destruct (_ =? 0); [rewrite nth_repeat; reflexivity | rewrite mem_read_nth by lia].
    do 2 f_equal. lia.
Qed.

(** The loop reads what is left, and its fuel is enough. *)
Lemma read_bytes_loop_ok x i offset len fuel : forall copied out,
  layout x -> readable x i -> 0 <= offset -> offset + len <= i_size i < 4294967296 ->
  0 <= copied <= len ->
  (copied < len -> (offset + copied) mod x_block_size x + (len - copied) <= Z.of_nat fuel * x_block_size x) ->
  read_bytes_loop fuel x i offset len copied out
  = Ret (true, out ++ file_bytes x i (offset + copied) (len - copied)).
Proof.
  induction fuel as [|fuel IH]; intros copied out L R Ho Hl Hc Hf;
    pose proof (bs_range x L) as Hbs;
    pose proof (Z.mod_pos_bound (offset + copied) (x_block_size x) ltac:(lia)) as Hm;
    cbn [read_bytes_loop]; destruct (Z.ltb_spec copied len) as [Hlt|Hge];
    try (replace (len - copied) with 0 by lia; unfold file_bytes; rewrite app_nil_r; reflexivity);
    specialize (Hf Hlt); [lia|].
  set (bo := (offset + copied) mod x_block_size x) in *.
  set (chunk := if len - copied <? x_block_size x - bo then len - copied else x_block_size x - bo).
  assert (Hck : 0 < chunk <= len - copied /\ bo + chunk <= x_block_size x
                /\ (chunk = x_block_size x - bo \/ chunk = len - copied))
    by (unfold chunk; destruct (Z.ltb_spec (len - copied) (x_block_size x - bo)); lia).
  pose proof (Z.div_pos (offset + copied) (x_block_size x) ltac:(lia) ltac:(lia)).
  pose proof (Z.div_le_upper_bound (offset + copied) (x_block_size x) (offset + copied) ltac:(lia) ltac:(nia)).
  rewrite u32_id by lia.
  clearbody chunk. replace (len - copied) with (chunk + (len - (copied + chunk))) by lia.
  rewrite file_bytes_app by lia. rewrite file_bytes_chunk by (fold bo; lia). fold bo. cbn zeta.
  replace (offset + copied + chunk) with (offset + (copied + chunk)) by lia.
  assert (Hnext : copied + chunk < len ->
      (offset + (copied + chunk)) mod x_block_size x + (len - (copied + chunk)) <= Z.of_nat fuel * x_block_size x).
  { intros Hmore. destruct Hck as (_ & _ & [Ec | Ec]); [|lia]. rewrite Ec.
    pose proof (Z.div_mod (offset + copied) (x_block_size x) ltac:(lia)) as D. fold bo in D.
    replace (offset + (copied + (x_block_size x - bo)))
      with (((offset + copied) / x_block_size x + 1) * x_block_size x) by lia.
    rewrite Z.mod_mul by lia. lia. }
  pose proof (R (offset + copied) ltac:(lia)) as Rb. cbn zeta in Rb.
  destruct (Z.eqb_spec (block_id_at x i ((offset + copied) / x_block_size x)) 0) as [E|E].
  - rewrite IH by (auto; lia). rewrite <- app_assoc. reflexivity.
  - destruct Rb as [Rb|Rb]; [contradiction|]. rewrite (block_ptr_valid x L) by (auto; lia).
    rewrite IH by (auto; lia). rewrite <- app_assoc. reflexivity.
Qed.

Lemma read_inode_bytes_ok x i offset len :
  layout x -> readable x i -> 0 <= offset -> 0 <= len -> offset + len <= i_size i < 4294967296 ->
  read_inode_bytes x i offset len = Ret (true, file_bytes x i offset len).
Proof.
  intros L R Ho Hl Hs. pose proof (bs_range x L) as Hbs. unfold read_inode_bytes, inode_size_bytes.
  destruct (Z.ltb_spec (i_size i) offset); [lia|]. destruct (Z.ltb_spec (i_size i - offset) len); [lia|].
  cbn [orb]. rewrite read_bytes_loop_ok; try assumption; try lia.
  - rewrite Z.add_0_r, Z.sub_0_r. reflexivity.
  - intros _. rewrite Z.add_0_r, Z.sub_0_r. pose proof (Z.mod_pos_bound offset (x_block_size x) ltac:(lia)).
    pose proof (Z.div_mod len (x_block_size x) ltac:(lia)). pose proof (Z.mod_pos_bound len (x_block_size x) ltac:(lia)).
    pose proof (Z.div_pos len (x_block_size x) ltac:(lia) ltac:(lia)). nia.
Qed.

Lemma inode_at_size m o : 0 <= i_size (inode_at m o) < 4294967296.
Proof. cbn [i_size inode_at]. apply (load_range 4). Qed.

(** [ext2_read_file] on a path that names a regular file whose blocks are in
    the file system: the result is the number of bytes there are between the
    offset and the end of the file, at most the length asked for, and the buffer
    receives exactly those bytes of the file, holes read as zeros; it never runs
    past the file. A path that names nothing or something else is refused. *)
Theorem read_file_correct x path len offset :
  layout x -> 0 <= offset -> 0 <= len ->
  match path_lookup x path with
  | Ret (Some (file, _)) =>
      inode_is_file file = true -> readable x file -> i_size file < 4294967296 ->
      let n := Z.max 0 (Z.min len (i_size file - offset)) in
      ext2_read_file x path len offset = Ret (n, file_bytes x file offset n)
  | Ret None => ext2_read_file x path len offset = Ret (USER_ERR_INVAL, [])
  | Panic => ext2_read_file x path len offset = Panic
  | NoFuel => ext2_read_file x path len offset = NoFuel
  end
  /\ (forall file n, path_lookup x path = Ret (Some (file, n)) -> inode_is_file file = false ->
        ext2_read_file x path len offset = Ret (USER_ERR_INVAL, [])).
Proof.
  intros L Ho Hl. unfold ext2_read_file.
  destruct (path_lookup x path) as [[[file n]|]| |]; cbn [mbind res_bind]; split; try reflexivity;
    try (intros; discriminate).
  - intros Hf R Hs. rewrite Hf. cbn [negb]. unfold inode_size_bytes. cbn zeta.
    destruct (Z.leb_spec (i_size file) offset).
    + replace (Z.max 0 (Z.min len (i_size file - offset))) with 0 by lia. reflexivity.
    + replace (if i_size file - offset <? len then i_size file - offset else len)
        with (Z.max 0 (Z.min len (i_size file - offset)))
        by (destruct (Z.ltb_spec (i_size file - offset) len); lia).
      rewrite read_inode_bytes_ok by (auto; lia). reflexivity.
  - intros f k E Hf. injection E as -> ->. rewrite Hf. reflexivity.
Qed.

Lemma read_file_correct_witness :
  match path_lookup sample [47; 97] with
  | Ret (Some (file, _)) =>
      inode_is_file file = true -> readable sample file -> i_size file < 4294967296 ->
      let n := Z.max 0 (Z.min 100 (i_size file - 1)) in
      ext2_read_file sample [47; 97] 100 1 = Ret (n, file_bytes sample file 1 n)
  | Ret None => ext2_read_file sample [47; 97] 100 1 = Ret (USER_ERR_INVAL, [])
  | Panic => ext2_read_file sample [47; 97] 100 1 = Panic
  | NoFuel => ext2_read_file sample [47; 97] 100 1 = NoFuel
  end
  /\ ext2_read_file sample [47; 97] 100 1 = Ret (4, [101; 108; 108; 111]).
Proof.
  split; [|vm_compute; reflexivity].
  apply (read_file_correct sample [47; 97] 100 1 sample_layout); lia.
Defined.

(** ** Where the code trusts the image *)

(** C28. Growing a file whose last block is a hole clears block 0 of the image.
    In a file system with blocks of 2048 or 4096 bytes, take a path to a file that
    ends in a hole, at an offset of at most 1024 into its block, and a larger size
    that needs no other block: [resize_inode_data] does not test the block number
    for zero before it clears the tail, so that block 0 is zero from that offset
    on, and the superblock with it; nothing else is changed, and the call fails. *)
Theorem resize_hole_wipes_superblock (x : ext2) path file n new_size :
  let bs := x_block_size x in let cut := i_size file mod bs in
  path_lookup x path = Ret (Some (file, n)) -> inode_is_file file = true -> 0 <= n ->
  bs = 2048 \/ bs = 4096 -> bs <= x_size x ->
  0 <= i_size file < new_size -> new_size <= (i_size file / bs + 1) * bs -> new_size <= (EXT2_DIRECT_BLOCKS + bs / 4) * bs ->
  0 < cut <= 1024 -> block_id_at x file (i_size file / bs) = 0 ->
  exists m', ext2_truncate_file x path new_size = Ret (USER_ERR_FAULT, set_image x m')
  /\ (forall a, m' a = if (cut <=? a) && (a <? bs) then 0 else x_image x a)
  /\ sb_magic m' = 0 /\ sb_inodes_count m' = 0 /\ sb_blocks_count m' = 0.
Proof.
  intros bs cut Hp Hf Hn Hbs Hsize Hold Hnew Hmax Hcut Hhole.
  assert (Ebs : x_block_size x = bs) by reflexivity. clearbody bs. pose proof (Z.div_mod (i_size file) bs ltac:(lia)) as Hdm. fold cut in Hdm.
  set (q := i_size file / bs) in *. assert (Hq : 0 <= q < 1036).
  { assert (E4 : bs / 4 <= 1024 /\ 0 < bs <= 4096) by (destruct Hbs as [-> | ->]; split; try lia; vm_compute; discriminate).
    unfold EXT2_DIRECT_BLOCKS in Hmax. nia. }
  set (m' := mem_fill (x_image x) cut 0 (Z.to_nat (bs - cut))).
  assert (M : forall a, m' a = if (cut <=? a) && (a <? bs) then 0 else x_image x a).
  { intros a. unfold m', mem_fill. destruct (Z.leb_spec cut a), (Z.ltb_spec a bs); cbn [andb];
      try (apply mem_write_out; rewrite repeat_length; lia). rewrite mem_write_in by (rewrite repeat_length; lia). apply nth_repeat. }
  assert (Z0 : forall k a, 1024 <= a -> a + Z.of_nat k <= 1160 -> load k m' a = 0).
  { intros k a Ha Hk. apply load_fill_zero; lia. }
  assert (E1 : forall v, q * bs < v <= (q + 1) * bs -> u32 ((v + bs - 1) / bs) = q + 1).
  { intros v Hv. replace ((v + bs - 1) / bs) with (q + 1) by (apply (Z.div_unique_pos _ bs _ (v - 1 - q * bs)); lia). unfold u32. apply Z.mod_small. lia. }
  exists m'. split; [|split; [exact M | split_and!; apply Z0; unfold EXT2_SUPERBLOCK_OFFSET; lia]].
  unfold ext2_truncate_file. rewrite Hp. cbn [mbind res_bind]. rewrite Hf. cbn [negb].
  assert (R : resize_inode_data x file n new_size = Ret (false, update_inode_block_count (set_image x m') (set_i_size file (u32 new_size)), set_image x m')).
  { unfold resize_inode_data, inode_size_bytes. cbv zeta. rewrite Ebs. fold cut. fold q. destruct (Z.ltb_spec ((EXT2_DIRECT_BLOCKS + bs / 4) * bs) new_size); [lia|].
    rewrite !E1 by lia. rewrite Z.ltb_irrefl. cbn [mbind res_bind negb]. destruct (Z.ltb_spec (i_size file) new_size); [|lia].
    destruct (Z.eqb_spec cut 0); [lia|]. cbn [negb andb]. replace (u32 q) with q by (unfold u32; rewrite Z.mod_small; lia).
    change (block_id_at x (set_i_size file (u32 new_size)) q) with (block_id_at x file q). rewrite Hhole.
    assert (Ep : block_ptr x 0 cut (bs - cut) = Some cut).
    { unfold block_ptr, image_ptr, image_range_valid. rewrite Ebs. destruct (Z.ltb_spec bs cut), (Z.ltb_spec (bs - cut) (bs - cut)); try lia.
      cbn [orb]. destruct (Z.ltb_spec (x_size x) (0 * bs + cut)), (Z.ltb_spec (x_size x - (0 * bs + cut)) (bs - cut)); try lia. reflexivity. }
    rewrite Ep. fold m'. unfold write_inode, inode_offset. change (x_image (set_image x m')) with m'.
    assert (Ei : sb_inodes_count m' = 0) by (apply Z0; unfold EXT2_SUPERBLOCK_OFFSET; lia). rewrite Ei.
    destruct (Z.eqb_spec n 0), (Z.ltb_spec 0 n); try lia; reflexivity. }
  rewrite R. reflexivity.
Qed.

Definition hole : ext2 := snd (ext2_mount (Some hole_mem) 32768).

Lemma resize_hole_wipes_superblock_witness :
  fst (ext2_mount (Some hole_mem) 32768) = true /\ sb_magic (x_image hole) = EXT2_SUPER_MAGIC
  /\ exists m', ext2_truncate_file hole [47; 97] 10 = Ret (USER_ERR_FAULT, set_image hole m') /\ sb_magic m' = 0.
Proof.
  split; [vm_compute; reflexivity|]. split; [vm_compute; reflexivity|].
  destruct (resize_hole_wipes_superblock hole [47; 97] hole_inode 3 10 ltac:(vm_compute; reflexivity) eq_refl ltac:(lia)
    ltac:(right; vm_compute; reflexivity) ltac:(vm_compute; discriminate) ltac:(cbn; lia) ltac:(vm_compute; discriminate)
    ltac:(vm_compute; discriminate) ltac:(vm_compute; split; [reflexivity | discriminate]) ltac:(vm_compute; reflexivity))
    as (m' & E & _ & Hm & _).
  exists m'. split; [exact E | exact Hm].
Defined.

(** Two gaps of [ext2_mount_internal]. When the first group descriptor is
    missing it returns false and leaves the pointers set, so the file system
    counts as mounted although the mount failed. And it does not bound the blocks
    per group, so that marking a block used may write outside the image. *)
Theorem mount_checks_incomplete :
  (let '(ok, x) := ext2_mount (Some empty_mem) 16384 in ok = false /\ ext2_mounted x = true)
  /\ let '(ok, x) := ext2_mount (Some wide_mem) 16384 in
     ok = true
     /\ match mark_block_used x 106497 true with
        | Ret (r, x') => r = true /\ u8 (x_image x' (x_size x)) <> u8 (x_image x (x_size x))
        | _ => False
        end.
Proof. vm_compute. repeat split. discriminate. Qed.
