(* ===== verification/Ext2Own.v ===== *)
(** * Who owns which block of an ext2 image

    An inode refers to blocks through its slots: twelve direct ones, the
    indirect block, and the entries of that block. In a sound file system every
    slot in use has a block of its own, marked used and clear of the metadata.
    [owned x V] states it for the inodes of a table [V], which is the table of
    the image with the inodes that the code holds in local variables put over
    it. Under it the contents of one inode are safe from writes to another. *)

From S2P Require Import Prelude Fs Ext2Image Ext2Codec Ext2Layout Ext2Alloc Ext2 Ext2Sample Ext2Proofs.

(** ** Slots *)

Definition n_slots (x : ext2) : Z := 13 + x_block_size x / 4.

Definition slot (x : ext2) (i : ext2_inode) (s : Z) : Z :=
  if s <=? 12 then i_block_at i s
  else if i_block_at i 12 =? 0 then 0
  else indirect_at (x_image x) (i_block_at i 12 * x_block_size x) (s - 13).

(** The slot of a block of the file. *)
Definition data_slot (q : Z) : Z := if q <? 12 then q else q + 1.

(** The blocks a file may have. *)
Definition max_blocks (x : ext2) : Z := EXT2_DIRECT_BLOCKS + x_block_size x / 4.

Definition itable : Type := Z -> ext2_inode.

Definition with_inode (V : itable) (n : Z) (i : ext2_inode) : itable := fun k => if k =? n then i else V k.

(** The table of the image. *)
Definition disk (x : ext2) : itable := fun n => inode_at (x_image x) (inode_pos x n).

Definition slot_of (x : ext2) (n s : Z) : Prop := inode_valid x n /\ 0 <= s < n_slots x.

Record owned (x : ext2) (V : itable) : Prop := {
  ow_ok : ext2_ok x;
  ow_wf : forall n, inode_valid x n -> inode_wf (V n);
  ow_block : forall n s, slot_of x n s -> let b := slot x (V n) s in
    b <> 0 -> block_valid x b /\ block_used x b = true /\ data_block x b;
  ow_inj : forall n s n' s', slot_of x n s -> slot_of x n' s' ->
    slot x (V n) s = slot x (V n') s' -> slot x (V n) s <> 0 -> n = n' /\ s = s'
}.

Definition unowned (x : ext2) (V : itable) (b : Z) : Prop := forall n s, slot_of x n s -> slot x (V n) s <> b.

Definition in_block (x : ext2) (b a : Z) : Prop := b * x_block_size x <= a < b * x_block_size x + x_block_size x.

Definition block_kept (x : ext2) (m' : mem) (b : Z) : Prop := forall a, in_block x b a -> u8 (m' a) = u8 (x_image x a).

(** The same blocks are in use. *)
Definition same_blocks (x x' : ext2) : Prop := forall b, block_valid x b -> block_used x' b = block_used x b.

(** The inode [i] has the block [b] in one of its slots. *)
Definition has_block (x : ext2) (i : ext2_inode) (b : Z) : Prop := b <> 0 /\ exists s, 0 <= s < n_slots x /\ slot x i s = b.

(** The blocks in use are those of before but for the ones of [i]. *)
Definition blocks_freed (x : ext2) (i : ext2_inode) (x' : ext2) : Prop :=
  forall b, block_valid x b -> block_used x' b = true <-> block_used x b = true /\ ~ has_block x i b.

Lemma same_blocks_trans x m1 x2 : same_geom x m1 -> same_blocks x (set_image x m1) -> same_blocks (set_image x m1) x2 -> same_blocks x x2.
Proof. intros G S1 S2 b Hb. rewrite (S2 b) by (apply frame_valid; assumption). exact (S1 b Hb). Qed.

Lemma with_inode_same V n i : with_inode V n i n = i.
Proof. unfold with_inode. rewrite Z.eqb_refl. reflexivity. Qed.

Lemma with_inode_other V n i k : k <> n -> with_inode V n i k = V k.
Proof. unfold with_inode. destruct (Z.eqb_spec k n); [contradiction | reflexivity]. Qed.

Lemma block_apart x b b' a : 0 < x_block_size x -> in_block x b a -> in_block x b' a -> b = b'.
Proof. unfold in_block. intros. nia. Qed.

Lemma bs_quarter x : layout x -> x_block_size x = 4 * (x_block_size x / 4).
Proof. intros L. destruct L as [[-> | [-> | ->]]]; reflexivity. Qed.

Lemma n_slots_range x : layout x -> 12 < n_slots x.
Proof. intros L. pose proof (bs_range x L). pose proof (bs_quarter x L). unfold n_slots. lia. Qed.

(** ** Frames *)

Section SlotFrame.
Context (x : ext2) (m' : mem) (L : layout x).

Lemma slot_frame i s :
  s < n_slots x -> (i_block_at i 12 <> 0 -> block_kept x m' (i_block_at i 12)) ->
  slot (set_image x m') i s = slot x i s.
Proof.
  intros Hs K. unfold slot. destruct (Z.leb_spec s 12); [reflexivity|].
  destruct (Z.eqb_spec (i_block_at i 12) 0) as [E|E]; [reflexivity|]. specialize (K E).
  change (x_image (set_image x m')) with m'. change (x_block_size (set_image x m')) with (x_block_size x).
  unfold indirect_at. apply load_ext. intros a Ha. apply K. unfold in_block, n_slots in *.
  pose proof (bs_quarter x L). lia.
Qed.

Lemma block_id_slot i q :
  (i_block_at i 12 <> 0 -> block_valid x (i_block_at i 12)) -> 0 <= q < max_blocks x ->
  block_id_at x i q = slot x i (data_slot q).
Proof.
  intros H12 Hq. pose proof (bs_range x L). unfold block_id_at, slot, data_slot, max_blocks, EXT2_DIRECT_BLOCKS in *.
  destruct (Z.ltb_spec q 12).
  - destruct (Z.leb_spec q 12); [reflexivity | lia].
  - destruct (Z.leb_spec (q + 1) 12); [lia|]. destruct (Z.ltb_spec (q - 12) (x_block_size x / 4)); [|lia].
    destruct (Z.eqb_spec (i_block_at i 12) 0) as [E|E]; [reflexivity|]. cbn [negb andb].
    rewrite (block_ptr_valid x L) by (auto; lia). f_equal; lia.
Qed.

Lemma block_id_beyond i q : max_blocks x <= q -> block_id_at x i q = 0.
Proof.
  intros Hq. pose proof (bs_range x L). unfold block_id_at, max_blocks, EXT2_DIRECT_BLOCKS in *.
  pose proof (bs_quarter x L). destruct (Z.ltb_spec q 12); [lia|].
  destruct (Z.ltb_spec (q - 12) (x_block_size x / 4)); [lia|]. reflexivity.
Qed.
End SlotFrame.

Lemma data_slot_range x q : layout x -> 0 <= q < max_blocks x -> 0 <= data_slot q < n_slots x /\ data_slot q <> 12.
Proof. intros L Hq. unfold data_slot, max_blocks, n_slots, EXT2_DIRECT_BLOCKS in *. destruct (Z.ltb_spec q 12); lia. Qed.

Lemma data_slot_inj q q' : data_slot q = data_slot q' -> q = q'.
Proof. unfold data_slot. destruct (Z.ltb_spec q 12), (Z.ltb_spec q' 12); lia. Qed.

(** ** Files of an owned table *)

Section Owned.
Context (x : ext2) (V : itable) (O : owned x V).

Lemma owned_layout : layout x.
Proof. exact (ok_layout x (ow_ok x V O)). Qed.

Lemma owned_12 n : inode_valid x n -> i_block_at (V n) 12 <> 0 -> block_valid x (i_block_at (V n) 12).
Proof.
  intros Hn Hz. pose proof (n_slots_range x owned_layout).
  destruct (ow_block x V O n 12) as [Hb _]; [split; [exact Hn | lia] | exact Hz | exact Hb].
Qed.

Lemma owned_block_id n q : inode_valid x n -> 0 <= q ->
  block_id_at x (V n) q = if q <? max_blocks x then slot x (V n) (data_slot q) else 0.
Proof.
  intros Hn Hq. destruct (Z.ltb_spec q (max_blocks x)).
  - apply block_id_slot; [exact owned_layout | exact (owned_12 n Hn) | lia].
  - apply block_id_beyond; [exact owned_layout | assumption].
Qed.

(** A block of a file comes from one of the inode's slots. *)
Lemma owned_block_slot n q :
  inode_valid x n -> 0 <= q -> block_id_at x (V n) q <> 0 ->
  0 <= q < max_blocks x /\ slot_of x n (data_slot q) /\ block_id_at x (V n) q = slot x (V n) (data_slot q).
Proof.
  intros Hn Hq Hz. rewrite owned_block_id in * by assumption.
  destruct (Z.ltb_spec q (max_blocks x)) as [Hl|]; [|contradiction].
  destruct (data_slot_range x q owned_layout ltac:(lia)) as [Hr _].
  split; [lia|]. split; [exact (conj Hn Hr) | reflexivity].
Qed.

Lemma owned_readable n : inode_valid x n -> readable x (V n).
Proof.
  intros Hn k Hk. cbv zeta. pose proof (bs_range x owned_layout) as Hbs.
  destruct (Z.eq_dec (block_id_at x (V n) (k / x_block_size x)) 0) as [|Hz]; [auto|]. right.
  destruct (owned_block_slot n (k / x_block_size x) Hn ltac:(apply Z.div_pos; lia) Hz) as (_ & Hs & E).
  rewrite E in *. exact (proj1 (ow_block x V O n _ Hs Hz)).
Qed.
End Owned.

(** ** What a step keeps *)

Lemma frame_slot_of x m' n s : same_geom x m' -> slot_of (set_image x m') n s <-> slot_of x n s.
Proof. intros G. unfold slot_of. rewrite (frame_inode_valid x m' n G). reflexivity. Qed.

(** The image [m'] is sound, the owned blocks are used in it and the indirect
    blocks have their contents: every slot is as it was. *)
Record stable (x : ext2) (V : itable) (m' : mem) : Prop := {
  st_ok : ext2_ok (set_image x m');
  st_geom : same_geom x m';
  st_used : forall n s, slot_of x n s -> slot x (V n) s <> 0 -> block_used (set_image x m') (slot x (V n) s) = true;
  st_indirect : forall n, inode_valid x n -> i_block_at (V n) 12 <> 0 -> block_kept x m' (i_block_at (V n) 12)
}.

Section Stable.
Context (x : ext2) (V : itable) (m' : mem) (O : owned x V) (Q : stable x V m').

Lemma stable_slot n s : slot_of x n s -> slot (set_image x m') (V n) s = slot x (V n) s.
Proof.
  intros [Hn Hs]. apply slot_frame; [exact (owned_layout x V O) | lia | exact (st_indirect x V m' Q n Hn)].
Qed.

Lemma stable_owned : owned (set_image x m') V.
Proof.
  pose proof (st_geom x V m' Q) as G. split.
  - exact (st_ok x V m' Q).
  - intros n Hn. apply (ow_wf x V O). apply (frame_inode_valid x m' n G). exact Hn.
  - intros n s Hs. apply (frame_slot_of x m' n s G) in Hs. rewrite (stable_slot n s Hs). cbv zeta. intros Hz.
    destruct (ow_block x V O n s Hs Hz) as (Hb & _ & D). pose proof (st_used x V m' Q n s Hs Hz) as Hu.
    split; [apply frame_valid; assumption|]. split; [exact Hu | apply frame_data_block; assumption].
  - intros n s n' s' Hs Hs'. apply (frame_slot_of x m' n s G) in Hs. apply (frame_slot_of x m' n' s' G) in Hs'.
    rewrite !stable_slot by assumption. apply (ow_inj x V O); assumption.
Qed.

Lemma stable_block_id n q : inode_valid x n -> 0 <= q -> block_id_at (set_image x m') (V n) q = block_id_at x (V n) q.
Proof.
  intros Hn Hq. rewrite (owned_block_id _ V stable_owned n)
    by (first [exact Hq | apply frame_inode_valid; [exact (st_geom x V m' Q) | exact Hn]]).
  rewrite (owned_block_id x V O n) by assumption. change (max_blocks (set_image x m')) with (max_blocks x).
  destruct (Z.ltb_spec q (max_blocks x)) as [Hl|]; [|reflexivity]. apply stable_slot. split; [exact Hn|].
  exact (proj1 (data_slot_range x _ (owned_layout x V O) (conj Hq Hl))).
Qed.

(** A byte of a file is as it was when its block has it. *)
Lemma stable_byte n k :
  inode_valid x n -> 0 <= k ->
  (slot_of x n (data_slot (k / x_block_size x)) -> let b := slot x (V n) (data_slot (k / x_block_size x)) in
     b <> 0 -> in_block x b (b * x_block_size x + k mod x_block_size x) ->
     u8 (m' (b * x_block_size x + k mod x_block_size x)) = u8 (x_image x (b * x_block_size x + k mod x_block_size x))) ->
  file_byte (set_image x m') (V n) k = file_byte x (V n) k.
Proof.
  intros Hn Hk H. pose proof (bs_range x (owned_layout x V O)) as Hbs.
  assert (Hq : 0 <= k / x_block_size x) by (apply Z.div_pos; lia).
  unfold file_byte. cbv zeta. change (x_block_size (set_image x m')) with (x_block_size x). rewrite stable_block_id by assumption.
  destruct (Z.eqb_spec (block_id_at x (V n) (k / x_block_size x)) 0) as [|Ez]; [reflexivity|].
  destruct (owned_block_slot x V O n _ Hn Hq Ez) as (_ & Hs & Es). rewrite Es in *.
  apply (H Hs Ez). pose proof (Z.mod_pos_bound k (x_block_size x) ltac:(lia)). unfold in_block. lia.
Qed.
End Stable.

(** The bytes of the inodes and of the bitmaps that tell which are in use. *)
Definition inode_byte (x : ext2) (a : Z) : Prop :=
  (exists n, inode_valid x n /\ inode_pos x n <= a < inode_pos x n + sizeof_inode)
  \/ exists g, 0 <= g < n_groups (x_image x) /\ in_region x (RInodeBitmap g) a.

(** Every owned block keeps its contents, and every inode. *)
Record quiet (x : ext2) (V : itable) (m' : mem) : Prop := {
  qt_ok : ext2_ok (set_image x m');
  qt_geom : same_geom x m';
  qt_used : forall n s, slot_of x n s -> let b := slot x (V n) s in
    b <> 0 -> block_used (set_image x m') b = true /\ block_kept x m' b;
  qt_table : forall a, inode_byte x a -> u8 (m' a) = u8 (x_image x a)
}.

Section Quiet.
Context (x : ext2) (V : itable) (m' : mem) (O : owned x V) (Q : quiet x V m').

Lemma quiet_stable : stable x V m'.
Proof.
  destruct Q as [O' G U _]. split; auto.
  - intros n s Hs Hz. exact (proj1 (U n s Hs Hz)).
  - intros n Hn Hz. pose proof (n_slots_range x (owned_layout x V O)).
    apply (U n 12); [split; [exact Hn | lia] | exact Hz].
Qed.

Lemma quiet_slot n s : slot_of x n s -> slot (set_image x m') (V n) s = slot x (V n) s.
Proof. exact (stable_slot x V m' O quiet_stable n s). Qed.

Lemma quiet_owned : owned (set_image x m') V.
Proof. exact (stable_owned x V m' O quiet_stable). Qed.

Lemma quiet_byte n k : inode_valid x n -> 0 <= k -> file_byte (set_image x m') (V n) k = file_byte x (V n) k.
Proof.
  intros Hn Hk. apply (stable_byte x V m' O quiet_stable n k Hn Hk). cbv zeta. intros Hs Hz Hin.
  exact (proj2 (qt_used x V m' Q n _ Hs Hz) _ Hin).
Qed.
End Quiet.

(** ** Blocks that are taken and given back *)

Lemma region_not_block x r b a :
  data_block x b -> region_real x r -> in_region x r a -> ~ in_block x b a.
Proof. intros D Hr Ha Hb. specialize (D r Hr). unfold in_region, in_block, disjoint_ranges in *. lia. Qed.

Lemma inode_not_block x n b a :
  layout x -> data_block x b -> inode_valid x n -> inode_pos x n <= a < inode_pos x n + sizeof_inode -> ~ in_block x b a.
Proof.
  intros L D Hn Ha. apply (region_not_block x (RInodeTable ((n - 1) / sb_inodes_per_group (x_image x)))); [exact D | |].
  - exact (inode_group x L n Hn).
  - exact (inode_in_table x L n a Hn Ha).
Qed.

Lemma inode_byte_not_block x b a : layout x -> data_block x b -> inode_byte x a -> ~ in_block x b a.
Proof.
  intros L D [(n & Hn & Ha) | (g & Hg & Ha)]; [exact (inode_not_block x n b a L D Hn Ha)|].
  exact (region_not_block x (RInodeBitmap g) b a D Hg Ha).
Qed.

Lemma inode_byte_not_meta x a : layout x -> inode_byte x a -> ~ meta_byte x a.
Proof.
  intros L [(n & Hn & Ha) | (g & Hg & Ha)]; [exact (inode_not_meta x L n a Hn Ha)|]. intros [H | [H | (g' & Hg' & H)]].
  - pose proof (region_unique x L RSuper (RInodeBitmap g) a I Hg H Ha). discriminate.
  - pose proof (region_unique x L RDesc (RInodeBitmap g) a I Hg H Ha). discriminate.
  - pose proof (region_unique x L (RBlockBitmap g') (RInodeBitmap g) a Hg' Hg H Ha). discriminate.
Qed.

Lemma frame_inode_byte x m' a : layout x -> same_geom x m' -> inode_byte (set_image x m') a <-> inode_byte x a.
Proof.
  intros L G. unfold inode_byte. change (x_image (set_image x m')) with m'. rewrite (frame_n_groups x m' G). split.
  - intros [(n & Hn & Ha) | (g & Hg & Ha)].
    + apply (frame_inode_valid x m' n G) in Hn. rewrite (frame_inode_pos x m' n L G Hn) in Ha. eauto.
    + right. exists g. split; [exact Hg|]. apply (frame_in_region x m' G (RInodeBitmap g)); assumption.
  - intros [(n & Hn & Ha) | (g & Hg & Ha)].
    + left. exists n. rewrite (frame_inode_pos x m' n L G Hn). split; [apply frame_inode_valid; assumption | exact Ha].
    + right. exists g. split; [exact Hg|]. apply (frame_in_region x m' G (RInodeBitmap g)); assumption.
Qed.

(** A change outside the metadata and the block [b], which no inode owns. *)
Lemma outside_quiet x V m' b :
  owned x V -> data_block x b -> unowned x V b -> ext2_ok (set_image x m') -> same_geom x m' ->
  (forall b', block_valid x b' -> b' <> b -> block_used x b' = true -> block_used (set_image x m') b' = true) ->
  (forall a, ~ meta_byte x a -> ~ in_block x b a -> u8 (m' a) = u8 (x_image x a)) ->
  quiet x V m'.
Proof.
  intros O D Un O' G U F. pose proof (owned_layout x V O) as L. pose proof (bs_range x L) as Hbs. split; [exact O' | exact G | |].
  - intros n s Hs b' Hz. destruct (ow_block x V O n s Hs Hz) as (Hv & Hu & Db). fold b' in Hv, Hu, Db.
    pose proof (Un n s Hs) as Hne. fold b' in Hne. split; [apply U; auto|].
    intros a Ha. apply F; [apply (data_not_meta x b' a Db); exact Ha|].
    intros Hb. apply Hne. apply (block_apart x b' b a); [lia | exact Ha | exact Hb].
  - intros a Ha. apply F; [exact (inode_byte_not_meta x a L Ha) | exact (inode_byte_not_block x b a L D Ha)].
Qed.

Lemma free_unowned x V b : owned x V -> block_used x b = false -> b <> 0 -> unowned x V b.
Proof.
  intros O Hu Hz n s Hs E. destruct (ow_block x V O n s Hs) as (_ & Hu' & _); [congruence|]. rewrite E in Hu'. congruence.
Qed.

Lemma allocated_quiet x V b m' : owned x V -> allocated x b m' -> quiet x V m' /\ unowned (set_image x m') V b.
Proof.
  intros O (Hb & Hu & D & Hz & O' & G & U & Zr & F).
  pose proof (free_unowned x V b O Hu Hz) as Un.
  assert (Q : quiet x V m').
  { apply (outside_quiet x V m' b); auto. intros b' Hb' Hne Hu'. rewrite U by exact Hb'.
    destruct (Z.eqb_spec b' b); [reflexivity | exact Hu']. }
  split; [exact Q|]. intros n s Hs. apply (frame_slot_of x m' n s G) in Hs. rewrite (quiet_slot x V m' O Q n s Hs).
  exact (Un n s Hs).
Qed.

Lemma unmark_quiet x V b :
  owned x V -> block_valid x b -> data_block x b -> unowned x V b ->
  exists m', mark_block_used x b false = Ret (true, set_image x m') /\ quiet x V m'
  /\ sb_free_blocks_count m' = sb_free_blocks_count (x_image x) + Z.b2z (block_used x b)
  /\ (forall b', block_valid x b' -> block_used (set_image x m') b' = if b' =? b then false else block_used x b').
Proof.
  intros O Hb D Un. destruct (mark_ok x b false (ow_ok x V O) Hb (fun _ => D)) as (m' & E & O' & G & B & U & C & _).
  exists m'. split; [exact E|]. split; [|split; [destruct (block_used x b); cbn in *; lia | exact U]].
  apply (outside_quiet x V m' b); auto.
  - intros b' Hb' Hne Hu. rewrite U by exact Hb'. destruct (Z.eqb_spec b' b); [contradiction | exact Hu].
  - intros a Hm _. apply B; intros; intros Hc; apply Hm; unfold meta_byte; eauto.
Qed.

(** ** Steps on behalf of one inode *)

(** From the table [V] over [x] to [V'] over [x']: only the inode [n] has
    changed, and every byte of every file is the same, but those of [n] at the
    offsets [P]. *)
Record moved (P : Z -> Prop) (n : Z) (x : ext2) (V : itable) (x' : ext2) (V' : itable) : Prop := {
  mv_image : exists m', x' = set_image x m' /\ same_geom x m';
  mv_table : forall a, inode_byte x a -> u8 (x_image x' a) = u8 (x_image x a);
  mv_other : forall k, k <> n -> V' k = V k;
  mv_mode : i_mode (V' n) = i_mode (V n);
  mv_slots : forall k s, k <> n -> slot_of x k s -> slot x' (V' k) s = slot x (V k) s;
  mv_bytes : forall k p, inode_valid x k -> 0 <= p -> (k = n -> ~ P p) -> file_byte x' (V' k) p = file_byte x (V k) p
}.

(** And what the inode referred to it still refers to. *)
Record kept (P : Z -> Prop) (n : Z) (x : ext2) (V : itable) (x' : ext2) (V' : itable) : Prop := {
  kp_moved : moved P n x V x' V';
  kp_slots : forall s, slot_of x n s -> slot x (V n) s <> 0 -> slot x' (V' n) s = slot x (V n) s
}.

Lemma moved_refl P n x V : moved P n x V x V.
Proof.
  split; auto. exists (x_image x). rewrite set_image_id. split; [reflexivity | intros a _; reflexivity].
Qed.

Lemma kept_refl P n x V : kept P n x V x V.
Proof. split; auto using moved_refl. Qed.

Lemma moved_weaken (P P' : Z -> Prop) n x V x' V' :
  (forall p, P p -> P' p) -> moved P n x V x' V' -> moved P' n x V x' V'.
Proof. intros HP []. split; auto. intros k p Hk Hp Hn. apply mv_bytes0; auto. intros E Hc. apply (Hn E), HP, Hc. Qed.

Lemma kept_weaken (P P' : Z -> Prop) n x V x' V' :
  (forall p, P p -> P' p) -> kept P n x V x' V' -> kept P' n x V x' V'.
Proof. intros HP [M S]. split; [exact (moved_weaken P P' n x V x' V' HP M) | exact S]. Qed.

Lemma same_geom_trans x m1 m2 : same_geom x m1 -> same_geom (set_image x m1) m2 -> same_geom x m2.
Proof.
  intros G1 G2 a Ha. transitivity (u8 (m1 a)); [|exact (G1 a Ha)]. apply (G2 a).
  unfold static_byte in *. change (x_image (set_image x m1)) with m1. rewrite (frame_n_groups x m1 G1). exact Ha.
Qed.

Lemma moved_trans P n x V x1 V1 x2 V2 :
  layout x -> moved P n x V x1 V1 -> moved P n x1 V1 x2 V2 -> moved P n x V x2 V2.
Proof.
  intros L K1 K2. destruct (mv_image _ _ _ _ _ _ K1) as (m1 & -> & G1).
  destruct (mv_image _ _ _ _ _ _ K2) as (m2 & -> & G2). split.
  - exists m2. split; [reflexivity | exact (same_geom_trans x m1 m2 G1 G2)].
  - intros a Ha. rewrite (mv_table _ _ _ _ _ _ K2 a), (mv_table _ _ _ _ _ _ K1 a); auto. apply frame_inode_byte; assumption.
  - intros k Hk. rewrite (mv_other _ _ _ _ _ _ K2), (mv_other _ _ _ _ _ _ K1) by exact Hk. reflexivity.
  - rewrite (mv_mode _ _ _ _ _ _ K2), (mv_mode _ _ _ _ _ _ K1). reflexivity.
  - intros k s Hk Hs. rewrite (mv_slots _ _ _ _ _ _ K2), (mv_slots _ _ _ _ _ _ K1); auto.
    apply frame_slot_of; assumption.
  - intros k p Hk Hp Hn. rewrite (mv_bytes _ _ _ _ _ _ K2), (mv_bytes _ _ _ _ _ _ K1); auto.
    apply frame_inode_valid; assumption.
Qed.

Lemma kept_trans P n x V x1 V1 x2 V2 :
  layout x -> kept P n x V x1 V1 -> kept P n x1 V1 x2 V2 -> kept P n x V x2 V2.
Proof.
  intros L [M1 S1] [M2 S2]. split; [exact (moved_trans P n x V x1 V1 x2 V2 L M1 M2)|].
  destruct (mv_image _ _ _ _ _ _ M1) as (m1 & -> & G1). intros s Hs Hz. pose proof (S1 s Hs Hz) as E1. rewrite <- E1.
  apply S2; [apply frame_slot_of; assumption | congruence].
Qed.

Lemma quiet_kept P n x V m' : owned x V -> quiet x V m' -> kept P n x V (set_image x m') V.
Proof.
  intros O Q. split; [split; auto|].
  - exists m'. split; [reflexivity | exact (qt_geom x V m' Q)].
  - exact (qt_table x V m' Q).
  - intros k s _ Hs. exact (quiet_slot x V m' O Q k s Hs).
  - intros k p Hk Hp _. exact (quiet_byte x V m' O Q k p Hk Hp).
  - intros s Hs _. exact (quiet_slot x V m' O Q n s Hs).
Qed.

(** The blocks of the other files. *)
Lemma moved_block_id P n x V x' V' k q :
  owned x V -> owned x' V' -> moved P n x V x' V' -> inode_valid x k -> k <> n -> 0 <= q ->
  block_id_at x' (V' k) q = block_id_at x (V k) q.
Proof.
  intros O O' M Hk Hne Hq. destruct (mv_image _ _ _ _ _ _ M) as (m' & Ex & G).
  rewrite (owned_block_id x V O k q Hk Hq).
  rewrite (owned_block_id x' V' O' k q) by (first [exact Hq | rewrite Ex; apply frame_inode_valid; assumption]).
  replace (max_blocks x') with (max_blocks x) by (rewrite Ex; reflexivity).
  destruct (Z.ltb_spec q (max_blocks x)) as [Hl|]; [|reflexivity]. apply (mv_slots _ _ _ _ _ _ M k _ Hne). split; [exact Hk|].
  exact (proj1 (data_slot_range x q (owned_layout x V O) (conj Hq Hl))).
Qed.

(** Blocks that are there stay. *)
Lemma kept_block_id P n x V x1 V1 q :
  owned x V -> owned x1 V1 -> kept P n x V x1 V1 -> inode_valid x n -> 0 <= q -> block_id_at x (V n) q <> 0 ->
  block_id_at x1 (V1 n) q = block_id_at x (V n) q.
Proof.
  intros O0 O1 K Hn Hq Hz. destruct (owned_block_slot x V O0 n q Hn Hq Hz) as (Hq' & Hs & E).
  destruct (mv_image _ _ _ _ _ _ (kp_moved _ _ _ _ _ _ K)) as (m1 & Ex & G).
  assert (Hn1 : inode_valid x1 n) by (rewrite Ex; apply frame_inode_valid; assumption).
  rewrite (owned_block_id x1 V1 O1 n q Hn1 Hq). replace (max_blocks x1) with (max_blocks x) by (rewrite Ex; reflexivity).
  destruct (Z.ltb_spec q (max_blocks x)); [|lia]. rewrite E. apply (kp_slots _ _ _ _ _ _ K); [exact Hs | congruence].
Qed.

(** The fields of [moved] for a kept table. *)
Section Kept.
Context (P : Z -> Prop) (n : Z) (x : ext2) (V : itable) (x' : ext2) (V' : itable) (K : kept P n x V x' V').
Definition kp_image := mv_image P n x V x' V' (kp_moved P n x V x' V' K).
Definition kp_table := mv_table P n x V x' V' (kp_moved P n x V x' V' K).
Definition kp_other := mv_other P n x V x' V' (kp_moved P n x V x' V' K).
Definition kp_mode := mv_mode P n x V x' V' (kp_moved P n x V x' V' K).
Definition kp_bytes := mv_bytes P n x V x' V' (kp_moved P n x V x' V' K).
End Kept.

(** The blocks of an inode are all that its contents depend on. *)
Lemma slot_blocks x i i' s : i_block i' = i_block i -> slot x i' s = slot x i s.
Proof. intros E. unfold slot, i_block_at. rewrite E. reflexivity. Qed.

Lemma block_id_blocks x i i' q : i_block i' = i_block i -> block_id_at x i' q = block_id_at x i q.
Proof. intros E. unfold block_id_at, i_block_at. rewrite E. reflexivity. Qed.

Lemma file_byte_blocks x i i' p : i_block i' = i_block i -> file_byte x i' p = file_byte x i p.
Proof. intros E. unfold file_byte. rewrite (block_id_blocks x i i' _ E). reflexivity. Qed.

Lemma owned_relabel x V V' :
  owned x V -> (forall k, i_block (V' k) = i_block (V k)) -> (forall k, inode_valid x k -> inode_wf (V' k)) -> owned x V'.
Proof.
  intros [O W B J] E W'. split; auto.
  - intros n s Hs. rewrite (slot_blocks x (V n) (V' n)) by apply E. exact (B n s Hs).
  - intros n s n' s' Hs Hs'. rewrite (slot_blocks x (V n) (V' n)), (slot_blocks x (V n') (V' n')) by apply E. auto.
Qed.

(** ** Tables *)

(** A table whose slots are some of those of an owned table. *)
Lemma owned_sub x V V' :
  owned x V' -> (forall k, inode_valid x k -> inode_wf (V k)) ->
  (forall k s, slot_of x k s -> slot x (V k) s = 0 \/ slot x (V k) s = slot x (V' k) s) -> owned x V.
Proof.
  intros [O W B J] W' S. split; auto.
  - intros k s Hs. cbv zeta. destruct (S k s Hs) as [-> | ->]; [contradiction | exact (B k s Hs)].
  - intros k s k' s' Hs Hs' E Hz. apply J; auto; destruct (S k s Hs), (S k' s' Hs'); congruence.
Qed.

Lemma owned_ext x V V' : owned x V -> (forall k, inode_valid x k -> V' k = V k) -> owned x V'.
Proof.
  intros O E. apply (owned_sub x V' V O).
  - intros k Hk. rewrite E by exact Hk. exact (ow_wf x V O k Hk).
  - intros k s [Hk _]. right. rewrite E by exact Hk. reflexivity.
Qed.

Lemma disk_wf x k : inode_wf (disk x k).
Proof.
  assert (H : forall a, is_u16 (load16 (x_image x) a)) by (intros a; exact (load_range 2 _ a)).
  assert (H' : forall a, is_u32 (load32 (x_image x) a)) by (intros a; exact (load_range 4 _ a)).
  unfold disk, inode_at. split; cbn [i_mode i_uid i_gid i_links_count i_size i_atime i_ctime i_mtime i_dtime i_blocks i_flags
    i_osd1 i_generation i_file_acl i_dir_acl i_faddr i_block i_osd2]; auto 20.
  - split; [|rewrite length_map, length_seq; reflexivity]. apply List.Forall_map, List.Forall_forall. auto.
  - split; [apply mem_read_byte | apply mem_read_length].
Qed.

(** What an inode held elsewhere becomes when it is given up: the old inode
    still has its blocks, and its bytes. *)
Section Revert.
Context (P : Z -> Prop) (n : Z) (x x' : ext2) (V V' : itable).
Context (O : owned x V) (O' : owned x' V') (K : kept P n x V x' V').

Lemma revert_slot s :
  slot_of x n s -> (slot x' (V n) s = 0 /\ slot x (V n) s = 0) \/ slot x' (V n) s = slot x' (V' n) s.
Proof.
  intros Hs. pose proof (kp_slots _ _ _ _ _ _ K) as Ks. pose proof (n_slots_range x (owned_layout x V O)) as Hns.
  destruct (kp_image _ _ _ _ _ _ K) as (m' & Ex & G).
  assert (E12 : forall t, 0 <= t <= 12 -> i_block_at (V n) t <> 0 -> i_block_at (V' n) t = i_block_at (V n) t).
  { intros t Ht Hz. assert (St : slot_of x n t) by (split; [apply Hs | lia]). specialize (Ks t St). unfold slot in Ks.
    destruct (Z.leb_spec t 12); [exact (Ks Hz) | lia]. }
  unfold slot at 1 2 3 4. destruct (Z.leb_spec s 12) as [Hl|Hl].
  - destruct (Z.eq_dec (i_block_at (V n) s) 0) as [Hz|Hz]; [auto|]. right. symmetry. apply E12; [destruct Hs; lia | exact Hz].
  - destruct (Z.eqb_spec (i_block_at (V n) 12) 0) as [Hz|Hz]; [auto|]. right.
    rewrite (E12 12) by (lia || exact Hz). destruct (Z.eqb_spec (i_block_at (V n) 12) 0); [contradiction | reflexivity].
Qed.

Lemma revert_owned : inode_valid x n -> owned x' V.
Proof.
  intros Hn. destruct (kp_image _ _ _ _ _ _ K) as (m' & Ex & G). apply (owned_sub x' V V' O').
  - intros k Hk. rewrite Ex in Hk. apply (frame_inode_valid x m' k G) in Hk. exact (ow_wf x V O k Hk).
  - intros k s Hs. rewrite Ex in Hs. apply (frame_slot_of x m' k s G) in Hs. destruct (Z.eq_dec k n) as [->|Hne].
    + destruct (revert_slot s Hs) as [[-> _] | ->]; auto.
    + right. rewrite (kp_other _ _ _ _ _ _ K k Hne). reflexivity.
Qed.

Lemma revert_block_id q :
  inode_valid x n -> 0 <= q -> block_id_at x (V n) q <> 0 -> block_id_at x' (V n) q = block_id_at x (V n) q.
Proof.
  intros Hn Hq Hz. destruct (owned_block_slot x V O n q Hn Hq Hz) as (Hq' & Hs & E).
  destruct (kp_image _ _ _ _ _ _ K) as (m' & Ex & G).
  assert (Hn' : inode_valid x' n) by (rewrite Ex; apply frame_inode_valid; assumption).
  rewrite (owned_block_id x' V (revert_owned Hn) n q Hn' Hq). replace (max_blocks x') with (max_blocks x) by (rewrite Ex; reflexivity).
  destruct (Z.ltb_spec q (max_blocks x)); [|lia]. rewrite E in *.
  destruct (revert_slot _ Hs) as [[_ R] | R]; [contradiction|]. rewrite R. exact (kp_slots _ _ _ _ _ _ K _ Hs Hz).
Qed.

Lemma revert_byte k p :
  inode_valid x n -> inode_valid x k -> 0 <= p -> (k = n -> ~ P p) -> file_byte x' (V k) p = file_byte x (V k) p.
Proof.
  intros Hn Hk Hp HP. rewrite <- (kp_bytes _ _ _ _ _ _ K k p Hk Hp HP).
  destruct (Z.eq_dec k n) as [->|Hne]; [|rewrite (kp_other _ _ _ _ _ _ K k Hne); reflexivity].
  destruct (kp_image _ _ _ _ _ _ K) as (m' & Ex & G). pose proof (bs_range x (owned_layout x V O)) as Hbs.
  pose proof (kp_bytes _ _ _ _ _ _ K n p Hk Hp HP) as Eb.
  assert (Hn' : inode_valid x' n) by (rewrite Ex; apply frame_inode_valid; assumption).
  assert (Ebs : x_block_size x' = x_block_size x) by (rewrite Ex; reflexivity).
  assert (Hq : 0 <= p / x_block_size x) by (apply Z.div_pos; lia).
  unfold file_byte in Eb |- *. cbv zeta in Eb |- *. rewrite Ebs in Eb |- *. set (q := p / x_block_size x) in *.
  pose proof (owned_block_id x' V (revert_owned Hn) n q Hn' Hq) as E1. pose proof (owned_block_id x' V' O' n q Hn' Hq) as E2.
  pose proof (owned_block_id x V O n q Hn Hq) as E3.
  assert (Emb : max_blocks x' = max_blocks x) by (rewrite Ex; reflexivity). rewrite Emb in E1, E2.
  destruct (Z.ltb_spec q (max_blocks x)) as [Hl|]; [|rewrite E1, E2; reflexivity].
  assert (Hs : slot_of x n (data_slot q)) by (split; [exact Hn | exact (proj1 (data_slot_range x q (owned_layout x V O) (conj Hq Hl)))]).
  destruct (revert_slot _ Hs) as [[R1 R2] | R]; [|rewrite E1, E2, R; reflexivity].
  rewrite Eb, E1, E3, R1, R2. reflexivity.
Qed.
End Revert.
