(* ===== verification/Ext2Link.v ===== *)
(** * Giving blocks to the inodes of an ext2 image

    Putting a block into an empty slot, and the functions that do it:
    [allocate_block], [set_block_id_at] and [ensure_file_block] over an owned
    table. *)

From S2P Require Import Prelude Fs Ext2Image Ext2Codec Ext2Layout Ext2Alloc Ext2 Ext2Proofs Ext2Own.

(** ** Blocks for an inode *)

(** A block ready to be linked: used, owned by nobody and zero. *)
Record fresh (x : ext2) (V : itable) (b : Z) : Prop := {
  fr_valid : block_valid x b;
  fr_used : block_used x b = true;
  fr_data : data_block x b;
  fr_unowned : unowned x V b;
  fr_zero : forall a, in_block x b a -> u8 (x_image x a) = 0
}.

(** The table [V'] over [m'] has the block [b] in the slot [s] of the inode [n],
    which was empty; no other slot and no block of a file has changed. *)
Record linked (x : ext2) (V : itable) (m' : mem) (V' : itable) (n s b : Z) : Prop := {
  lk_owned : owned x V;
  lk_slot : slot_of x n s;
  lk_empty : slot x (V n) s = 0;
  lk_fresh : fresh x V b;
  lk_ok : ext2_ok (set_image x m');
  lk_geom : same_geom x m';
  lk_other : forall k, k <> n -> V' k = V k;
  lk_wf : inode_wf (V' n);
  lk_mode : i_mode (V' n) = i_mode (V n);
  lk_slots : forall k t, slot_of x k t ->
    slot (set_image x m') (V' k) t = if (k =? n) && (t =? s) then b else slot x (V k) t;
  lk_used : forall b', block_valid x b' -> block_used (set_image x m') b' = block_used x b';
  lk_kept : forall k t, slot_of x k t -> t <> 12 -> slot x (V k) t <> 0 -> block_kept x m' (slot x (V k) t);
  lk_new : block_kept x m' b;
  lk_table : forall a, inode_byte x a -> u8 (m' a) = u8 (x_image x a)
}.

Section Link.
Context (P : Z -> Prop) (x : ext2) (V V' : itable) (m' : mem) (n s b : Z) (K : linked x V m' V' n s b).
Abbreviation x' := (set_image x m').

Lemma link_owned : owned x' V'.
Proof.
  destruct K as [O Hs S0 [Hb Hu D Un Zr] O' G Vo W _ Sl Us _ _ _].
  assert (Cases : forall k t, slot_of x k t -> (k = n /\ t = s /\ slot x' (V' k) t = b) \/ slot x' (V' k) t = slot x (V k) t).
  { intros k t Ht. rewrite Sl by exact Ht. destruct (Z.eqb_spec k n), (Z.eqb_spec t s); cbn; auto. }
  split.
  - exact O'.
  - intros k Hk. apply (frame_inode_valid x m' k G) in Hk.
    destruct (Z.eq_dec k n) as [->|Hne]; [exact W | rewrite Vo by exact Hne; exact (ow_wf x V O k Hk)].
  - intros k t Ht. apply (frame_slot_of x m' k t G) in Ht. cbv zeta. intros Hz.
    rewrite (frame_valid x m' G), (frame_data_block x m' G).
    destruct (Cases k t Ht) as [(-> & -> & ->) | E]; [rewrite Us by exact Hb; auto|].
    rewrite E in *. destruct (ow_block x V O k t Ht Hz) as (Hb' & Hu' & D'). rewrite Us by exact Hb'. auto.
  - intros k t k' t' Ht Ht'. apply (frame_slot_of x m' k t G) in Ht. apply (frame_slot_of x m' k' t' G) in Ht'. intros E Hz.
    destruct (Cases k t Ht) as [(-> & -> & E1) | E1], (Cases k' t' Ht') as [(-> & -> & E2) | E2]; rewrite E1, ?E2 in *.
    + auto.
    + destruct (Un k' t' Ht'). congruence.
    + destruct (Un k t Ht). congruence.
    + exact (ow_inj x V O k t k' t' Ht Ht' E Hz).
Qed.

Lemma link_byte k p : inode_valid x k -> 0 <= p -> file_byte x' (V' k) p = file_byte x (V k) p.
Proof.
  intros Hk Hp. pose proof (lk_owned _ _ _ _ _ _ _ K) as O. pose proof (lk_geom _ _ _ _ _ _ _ K) as G.
  pose proof (owned_layout x V O) as L. pose proof (bs_range x L) as Hbs.
  set (q := p / x_block_size x). assert (Hq : 0 <= q) by (apply Z.div_pos; lia).
  pose proof (owned_block_id x' V' link_owned k q ltac:(apply frame_inode_valid; assumption) Hq) as E'.
  pose proof (owned_block_id x V O k q Hk Hq) as E. change (max_blocks x') with (max_blocks x) in E'.
  unfold file_byte. cbv zeta. change (x_block_size x') with (x_block_size x). fold q.
  destruct (Z.ltb_spec q (max_blocks x)) as [Hl|]; rewrite E', E; [|reflexivity].
  destruct (data_slot_range x q L ltac:(lia)) as [Hr H12].
  pose proof (lk_slots _ _ _ _ _ _ _ K k (data_slot q) (conj Hk Hr)) as Es.
  pose proof (Z.mod_pos_bound p (x_block_size x) ltac:(lia)) as Hm.
  assert (Hold : slot x' (V' k) (data_slot q) = slot x (V k) (data_slot q) ->
    (if slot x' (V' k) (data_slot q) =? 0 then 0 else u8 (m' (slot x' (V' k) (data_slot q) * x_block_size x + p mod x_block_size x)))
    = (if slot x (V k) (data_slot q) =? 0 then 0 else u8 (x_image x (slot x (V k) (data_slot q) * x_block_size x + p mod x_block_size x)))).
  { intros ->. destruct (Z.eqb_spec (slot x (V k) (data_slot q)) 0) as [|Hz]; [reflexivity|].
    apply (lk_kept _ _ _ _ _ _ _ K _ _ (conj Hk Hr) H12 Hz). unfold in_block. lia. }
  destruct (Z.eqb_spec k n) as [->|]; [destruct (Z.eqb_spec (data_slot q) s) as [Eq|]|]; cbn [andb] in Es; auto.
  rewrite Es, Eq, (lk_empty _ _ _ _ _ _ _ K). cbn [Z.eqb]. destruct (Z.eqb_spec b 0); [reflexivity|].
  assert (Hin : in_block x b (b * x_block_size x + p mod x_block_size x)) by (unfold in_block; lia).
  change (x_image x') with m'. rewrite (lk_new _ _ _ _ _ _ _ K) by exact Hin. exact (fr_zero x V b (lk_fresh _ _ _ _ _ _ _ K) _ Hin).
Qed.

Lemma link_kept : kept P n x V x' V'.
Proof.
  split; [split|].
  - exists m'. split; [reflexivity | exact (lk_geom _ _ _ _ _ _ _ K)].
  - exact (lk_table _ _ _ _ _ _ _ K).
  - exact (lk_other _ _ _ _ _ _ _ K).
  - exact (lk_mode _ _ _ _ _ _ _ K).
  - intros k t Hk Ht. rewrite (lk_slots _ _ _ _ _ _ _ K) by exact Ht. destruct (Z.eqb_spec k n); [contradiction | reflexivity].
  - intros k p Hk Hp _. exact (link_byte k p Hk Hp).
  - intros t Ht Hz. rewrite (lk_slots _ _ _ _ _ _ _ K) by exact Ht. destruct (Z.eqb_spec t s) as [->|].
    + destruct Hz. exact (lk_empty _ _ _ _ _ _ _ K).
    + rewrite andb_false_r. reflexivity.
Qed.

(** What was fresh besides is fresh. *)
Lemma link_fresh b' :
  b' <> b -> fresh x V b' -> block_kept x m' b' -> fresh x' V' b'.
Proof.
  intros Hne [Bv Bu Bd Bn Bz] Kb. pose proof (lk_geom _ _ _ _ _ _ _ K) as G. split.
  - apply frame_valid; assumption.
  - rewrite (lk_used _ _ _ _ _ _ _ K); assumption.
  - apply frame_data_block; assumption.
  - intros k t Ht. apply (frame_slot_of x m' k t G) in Ht. rewrite (lk_slots _ _ _ _ _ _ _ K) by exact Ht.
    destruct ((k =? n) && (t =? s)); [congruence | exact (Bn k t Ht)].
  - intros a Ha. change (x_image x') with m'. rewrite (Kb a Ha). exact (Bz a Ha).
Qed.
End Link.

Lemma fresh_nonzero x V b : layout x -> fresh x V b -> b <> 0.
Proof. intros L F. exact (data_block_nonzero x b L (fr_valid x V b F) (fr_data x V b F)). Qed.

Lemma zero_block_bytes x m' b :
  0 < x_block_size x ->
  mem_read m' (b * x_block_size x) (Z.to_nat (x_block_size x)) = repeat 0 (Z.to_nat (x_block_size x)) ->
  forall a, in_block x b a -> u8 (m' a) = 0.
Proof.
  intros Hbs E a Ha. unfold in_block in Ha.
  pose proof (mem_read_nth m' (b * x_block_size x) (Z.to_nat (x_block_size x)) (Z.to_nat (a - b * x_block_size x)) ltac:(lia)) as H.
  rewrite E, nth_repeat in H. rewrite H. do 2 f_equal. lia.
Qed.

(** [allocate_block] over an owned table. A block that is fresh stays so. *)
Lemma allocate_owned x V :
  owned x V ->
  exists r x', allocate_block x = Ret (r, x') /\ owned x' V /\ (forall P n, kept P n x V x' V)
  /\ (forall k t, slot_of x k t -> slot x' (V k) t = slot x (V k) t)
  /\ (forall b, fresh x V b -> fresh x' V b /\ b <> r)
  /\ (if r =? 0 then x' = x /\ no_free_block x else fresh x' V r).
Proof.
  intros O. pose proof (owned_layout x V O) as L. pose proof (bs_range x L) as Hbs.
  destruct (allocate_block_ok x (ow_ok x V O)) as (r & x' & E & [(-> & -> & Hn) | (m' & -> & A)]).
  - exists 0, x. split; [exact E|]. split; [exact O|]. split; [intros; apply kept_refl|].
    split; [reflexivity|]. split; [intros b F; split; [exact F | exact (fresh_nonzero x V b L F)] | exact (conj eq_refl Hn)].
  - exists r, (set_image x m'). destruct (allocated_quiet x V r m' O A) as [Q Un]. split; [exact E|].
    split; [exact (quiet_owned x V m' O Q)|]. split; [intros; apply quiet_kept; assumption|].
    split; [exact (quiet_slot x V m' O Q)|].
    destruct A as (Hb & Hu & D & Hz & O' & G & U & Zr & F). split.
    + intros b [Bv Bu Bd Bn Bz]. assert (Hne : b <> r) by congruence. split; [|exact Hne]. split.
      * apply frame_valid; assumption.
      * rewrite U by exact Bv. destruct (Z.eqb_spec b r); [reflexivity | exact Bu].
      * apply frame_data_block; assumption.
      * intros k t Ht. apply (frame_slot_of x m' k t G) in Ht. rewrite (quiet_slot x V m' O Q k t Ht). exact (Bn k t Ht).
      * intros a Ha. change (x_image (set_image x m')) with m'. rewrite F; [exact (Bz a Ha) | exact (data_not_meta x b a Bd Ha)|].
        intros Hc. apply Hne. apply (block_apart x b r a); [lia | exact Ha | exact Hc].
    + destruct (Z.eqb_spec r 0); [contradiction|]. split.
      * apply frame_valid; assumption.
      * rewrite U, Z.eqb_refl by exact Hb. reflexivity.
      * apply frame_data_block; assumption.
      * exact Un.
      * exact (zero_block_bytes x m' r ltac:(lia) Zr).
Qed.

Lemma i_block_at_set i s b t :
  inode_wf i -> 0 <= s < 15 -> 0 <= t -> i_block_at (set_i_block i s b) t = if t =? s then b else i_block_at i t.
Proof.
  intros W Hs Ht. destruct (iw_block i W) as [_ Hl]. unfold i_block_at, set_i_block. cbn [i_block].
  rewrite !nth_lookup. destruct (Z.eqb_spec t s) as [->|Hne].
  - rewrite list_lookup_insert_eq by lia. reflexivity.
  - rewrite list_lookup_insert_ne by lia. reflexivity.
Qed.

Lemma set_i_block_wf i s b : inode_wf i -> is_u32 b -> inode_wf (set_i_block i s b).
Proof.
  intros [Wh Ww [Wb Wl] Wo] Hb. split; cbn [set_i_block i_mode i_uid i_size i_atime i_ctime i_mtime i_dtime i_gid
    i_links_count i_blocks i_flags i_osd1 i_block i_generation i_file_acl i_dir_acl i_faddr i_osd2]; auto.
  split; [|rewrite length_insert; exact Wl]. apply Forall_insert; auto.
Qed.

Lemma block_u32 x b : layout x -> block_valid x b -> is_u32 b.
Proof. intros L Hb. pose proof (fdb_range x L). unfold block_valid, is_u32 in *. destruct L. lia. Qed.

Lemma set_i_block_same i s b : inode_wf i -> 0 <= s < 15 -> i_block_at i s = b -> set_i_block i s b = i.
Proof.
  intros W Hs <-. destruct (iw_block i W) as [_ Hl]. destruct i as [c1 c2 c3 c4 c5 c6 c7 c8 c9 c10 c11 c12 bl c13 c14 c15 c16 c17].
  cbn [i_block] in Hl. unfold set_i_block, i_block_at.
  cbn [i_mode i_uid i_size i_atime i_ctime i_mtime i_dtime i_gid i_links_count i_blocks i_flags i_osd1 i_block
       i_generation i_file_acl i_dir_acl i_faddr i_osd2]. f_equal. apply list_insert_id. destruct (nth_lookup_or_length bl (Z.to_nat s) 0) as [E|]; [exact E | lia].
Qed.

Lemma update_count_wf x i : inode_wf i -> inode_wf (update_inode_block_count x i).
Proof.
  intros [Wh Ww Wb Wo]. split; auto. cbn [update_inode_block_count set_i_blocks i_size i_atime i_ctime i_mtime i_dtime i_blocks
    i_flags i_osd1 i_generation i_file_acl i_dir_acl i_faddr]. rewrite !List.Forall_cons_iff in *. unfold is_u32 in *.
  pose proof (u32_range (inode_allocated_blocks x i * (x_block_size x / 512))). tauto.
Qed.

Lemma set_i_size_wf i v : inode_wf i -> is_u32 v -> inode_wf (set_i_size i v).
Proof.
  intros [Wh Ww Wb Wo] Hv. split; auto. cbn [set_i_size i_size i_atime i_ctime i_mtime i_dtime i_blocks
    i_flags i_osd1 i_generation i_file_acl i_dir_acl i_faddr]. rewrite !List.Forall_cons_iff in *. tauto.
Qed.

Section File.
Context (P : Z -> Prop) (V : itable) (n : Z).
Abbreviation T i := (with_inode V n i).

(** Only the inode [n] has other slots. *)
Lemma table_slots x x' i i' s b :
  (forall k t, slot_of x k t -> k <> n -> slot x' (V k) t = slot x (V k) t) ->
  (forall t, slot_of x n t -> slot x' i' t = if t =? s then b else slot x i t) ->
  forall k t, slot_of x k t -> slot x' (T i' k) t = if (k =? n) && (t =? s) then b else slot x (T i k) t.
Proof.
  intros Ho Hn k t Ht. unfold with_inode. destruct (Z.eqb_spec k n) as [->|Hne]; cbn [andb]; [exact (Hn t Ht) | exact (Ho k t Ht Hne)].
Qed.

(** A slot of the inode itself. *)
Lemma direct_slots x i s b t :
  layout x -> inode_wf i -> 0 <= s <= 12 -> i_block_at i s = 0 -> b <> 0 ->
  (forall a, in_block x b a -> u8 (x_image x a) = 0) -> 0 <= t < n_slots x ->
  slot x (set_i_block i s b) t = if t =? s then b else slot x i t.
Proof.
  intros L W Hs S0 Hb Hz Ht. unfold slot. destruct (Z.leb_spec t 12).
  - rewrite i_block_at_set by (auto; lia). reflexivity.
  - destruct (Z.eqb_spec t s); [lia|]. rewrite i_block_at_set by (auto; lia).
    destruct (Z.eqb_spec 12 s) as [E|]; [|reflexivity]. subst s. rewrite S0. cbn [Z.eqb].
    destruct (Z.eqb_spec b 0); [contradiction|]. unfold indirect_at, load. rewrite <- (le_word_zeros 4). f_equal.
    apply nth_ext with (d := 0) (d' := 0); [rewrite mem_read_length; reflexivity|]. intros k Hk.
    rewrite mem_read_length in Hk. rewrite mem_read_nth, nth_repeat by lia. apply Hz.
    unfold in_block, n_slots in *. pose proof (bs_quarter x L). lia.
Qed.

Lemma link_direct x i s b :
  owned x (T i) -> inode_valid x n -> 0 <= s <= 12 -> i_block_at i s = 0 -> fresh x (T i) b ->
  linked x (T i) (x_image x) (T (set_i_block i s b)) n s b.
Proof.
  intros O Hn Hs S0 F. pose proof (owned_layout x _ O) as L. pose proof (n_slots_range x L) as Hns.
  pose proof (ow_wf x _ O n Hn) as W. rewrite with_inode_same in W. pose proof (fresh_nonzero x _ b L F) as Hz.
  split; rewrite ?set_image_id, ?with_inode_same; auto.
  - split; [exact Hn | lia].
  - unfold slot. destruct (Z.leb_spec s 12); [exact S0 | lia].
  - exact (ow_ok x _ O).
  - intros a _. reflexivity.
  - intros k Hk. rewrite !with_inode_other by exact Hk. reflexivity.
  - apply set_i_block_wf; [exact W | exact (block_u32 x b L (fr_valid x _ b F))].
  - apply table_slots; [reflexivity|]. intros t [_ Ht]. apply direct_slots; auto. exact (fr_zero x _ b F).
  - intros k t _ _ _ a _. reflexivity.
  - intros a _. reflexivity.
Qed.

(** Storing in a block of the file system that holds no metadata. *)
Lemma block_store_meta x m' b :
  layout x -> data_block x b -> (forall a, ~ in_block x b a -> u8 (m' a) = u8 (x_image x a)) ->
  (forall a, meta_byte x a -> u8 (m' a) = u8 (x_image x a))
  /\ (forall a, inode_byte x a -> u8 (m' a) = u8 (x_image x a))
  /\ (forall b', b' <> b -> block_kept x m' b').
Proof.
  intros L D F. pose proof (bs_range x L) as Hbs. split; [|split].
  - intros a Ha. apply F. intros Hc. exact (data_not_meta x b a D Hc Ha).
  - intros a Ha. apply F. exact (inode_byte_not_block x b a L D Ha).
  - intros b' Hne a Ha. apply F. intros Hc. apply Hne. apply (block_apart x b' b a); [lia | exact Ha | exact Hc].
Qed.

Lemma link_indirect x i e b :
  owned x (T i) -> inode_valid x n -> i_block_at i 12 <> 0 -> 0 <= e < x_block_size x / 4 ->
  slot x i (13 + e) = 0 -> fresh x (T i) b ->
  linked x (T i) (store32 (x_image x) (i_block_at i 12 * x_block_size x + 4 * e) b) (T i) n (13 + e) b.
Proof.
  intros O Hn Hi He S0 F. pose proof (owned_layout x _ O) as L. pose proof (n_slots_range x L) as Hns.
  pose proof (bs_quarter x L) as Hq. set (B := i_block_at i 12) in *.
  assert (SB : slot_of x n 12 /\ slot x (T i n) 12 = B) by (rewrite with_inode_same; split; [split; [exact Hn | lia] | reflexivity]).
  destruct SB as [SB EB]. destruct (ow_block x _ O n 12 SB ltac:(congruence)) as (Bv & _ & BD). rewrite EB in Bv, BD.
  set (m' := store32 _ _ _).
  assert (Out : forall a, ~ in_block x B a -> u8 (m' a) = u8 (x_image x a)).
  { intros a Ha. unfold m'. rewrite store_out; [reflexivity|]. unfold in_block in Ha. lia. }
  destruct (block_store_meta x m' B L BD Out) as (Meta & Table & Kp).
  assert (Own : forall k t, slot_of x k t -> slot x (T i k) t <> 0 -> ~ (k = n /\ t = 12) -> slot x (T i k) t <> B).
  { intros k t Ht Hz Hne E. apply Hne. apply (ow_inj x _ O k t n 12); auto. congruence. }
  pose proof (ow_wf x _ O n Hn) as W.
  split; auto.
  - split; [exact Hn | unfold n_slots; lia].
  - rewrite with_inode_same. exact S0.
  - exact (keep_ok x m' Meta (ow_ok x _ O)).
  - exact (keep_geom x m' Meta).
  - apply table_slots.
    + intros k t [Hk Ht] Hne. apply slot_frame; [exact L | lia|]. intros Hz. apply Kp.
      assert (Hk12 : slot_of x k 12) by (split; [exact Hk | lia]). pose proof (Own k 12 Hk12) as Ho. rewrite with_inode_other in Ho by exact Hne. apply Ho; auto. tauto.
    + intros t [_ Ht]. unfold slot. destruct (Z.leb_spec t 12); [destruct (Z.eqb_spec t (13 + e)); [lia | reflexivity]|].
      fold B. destruct (Z.eqb_spec B 0); [contradiction|]. unfold indirect_at. change (x_image (set_image x m')) with m'.
      change (x_block_size (set_image x m')) with (x_block_size x). unfold m'. destruct (Z.eqb_spec t (13 + e)) as [->|Hte].
      * replace (13 + e - 13) with e by lia. rewrite load_store_eq. apply Z.mod_small. exact (block_u32 x b L (fr_valid x _ b F)).
      * apply load_store_disj. lia.
  - intros b' Hb'. apply (keep_used x m' Meta (ow_ok x _ O)). exact Hb'.
  - intros k t Ht H12 Hz. apply Kp, Own; auto. tauto.
  - apply Kp. intros ->. exact (fr_unowned x _ B F n 12 SB EB).
Qed.
(** The part of [set_block_id_at] that provides the indirect block. *)
Lemma indirect_ok x i b :
  owned x (T i) -> inode_valid x n -> fresh x (T i) b ->
  exists ok i' x',
    (if i_block_at i 12 =? 0 then
       allocate_block x ≫= fun '(b, x) => Ret (negb (b =? 0), set_i_block i 12 b, x)
     else Ret (true, i, x)) = Ret (ok, i', x')
  /\ owned x' (T i') /\ kept P n x (T i) x' (T i') /\ i_size i' = i_size i /\ fresh x' (T i') b
  /\ (forall s, 12 < s < n_slots x -> slot x i s = 0 -> slot x' i' s = 0)
  /\ if (ok : bool) then i_block_at i' 12 <> 0 else no_free_block x'.
Proof.
  intros O Hn F. destruct (Z.eqb_spec (i_block_at i 12) 0) as [E12|E12].
  - destruct (allocate_owned x (T i) O) as (r & x1 & -> & O1 & K1 & _ & F1 & R1). cbn [mbind res_bind].
    pose proof (ow_wf x _ O n Hn) as W. rewrite with_inode_same in W.
    destruct (F1 b F) as [Fb Hbr]. destruct (kp_image _ _ _ _ _ _ (K1 P n)) as (m1 & E1 & G1).
    destruct (Z.eqb_spec r 0) as [->|Hr]; cbn [negb].
    + exists false, i, x1. rewrite set_i_block_same by (auto; lia). destruct R1 as [-> Hno].
      repeat (split; auto using kept_refl).
    + assert (Hn1 : inode_valid x1 n) by (rewrite E1; apply frame_inode_valid; assumption).
      pose proof (link_direct x1 i 12 r O1 Hn1 ltac:(lia) E12 R1) as K.
      pose proof (link_owned _ _ _ _ _ _ _ K) as O2. pose proof (link_kept P _ _ _ _ _ _ _ K) as K2.
      pose proof (link_fresh _ _ _ _ _ _ _ K b Hbr Fb ltac:(intros a _; reflexivity)) as F2.
      rewrite set_image_id in O2, K2, F2. exists true, (set_i_block i 12 r), x1.
      split; [reflexivity|]. split; [exact O2|]. split; [exact (kept_trans P n x _ x1 _ x1 _ (owned_layout x _ O) (K1 P n) K2)|].
      split; [reflexivity|]. split; [exact F2|]. split.
      * intros s Hs _. assert (Hs1 : 12 < s < n_slots x1) by (rewrite E1; exact Hs).
        rewrite direct_slots; auto; try lia; [|exact (owned_layout x1 _ O1) | exact (fr_zero x1 _ r R1)].
        destruct (Z.eqb_spec s 12); [lia|]. unfold slot. destruct (Z.leb_spec s 12); [lia|]. rewrite E12. reflexivity.
      * rewrite i_block_at_set by (auto; lia). exact Hr.
  - exists true, i, x. repeat (split; auto using kept_refl).
Qed.
(** A linked slot is the block of the file. *)
Lemma linked_block_id x U m' U' q b :
  linked x U m' U' n (data_slot q) b -> inode_valid x n -> 0 <= q < max_blocks x ->
  block_id_at (set_image x m') (U' n) q = b.
Proof.
  intros K Hn Hq. pose proof (lk_geom _ _ _ _ _ _ _ K) as G.
  rewrite (owned_block_id _ _ (link_owned _ _ _ _ _ _ _ K) n q) by (first [apply Hq | apply frame_inode_valid; assumption]).
  change (max_blocks (set_image x m')) with (max_blocks x). destruct (Z.ltb_spec q (max_blocks x)); [|lia].
  rewrite (lk_slots _ _ _ _ _ _ _ K) by exact (lk_slot _ _ _ _ _ _ _ K). rewrite !Z.eqb_refl. reflexivity.
Qed.

(** [set_block_id_at], which may first allocate the indirect block. *)
Lemma set_block_ok x i q b :
  owned x (T i) -> inode_valid x n -> 0 <= q < max_blocks x -> block_id_at x i q = 0 -> fresh x (T i) b ->
  exists ok i' x', set_block_id_at x i q b true = Ret (ok, i', x')
  /\ owned x' (T i') /\ kept P n x (T i) x' (T i') /\ i_size i' = i_size i
  /\ if (ok : bool) then block_id_at x' i' q = b else fresh x' (T i') b /\ no_free_block x'.
Proof.
  intros O Hn Hq H0 F. pose proof (owned_layout x _ O) as L. pose proof (bs_range x L) as Hbs.
  pose proof (owned_block_id x _ O n q Hn ltac:(lia)) as E. rewrite with_inode_same, H0 in E.
  destruct (Z.ltb_spec q (max_blocks x)); [|lia]. symmetry in E.
  unfold set_block_id_at, EXT2_DIRECT_BLOCKS. destruct (Z.ltb_spec q 12) as [Hd|Hi].
  - assert (S0 : data_slot q = q /\ i_block_at i q = 0).
    { unfold data_slot, slot in *. destruct (Z.ltb_spec q 12), (Z.leb_spec q 12); lia. }
    destruct S0 as [Eq S0]. pose proof (link_direct x i q b O Hn ltac:(lia) S0 F) as K.
    assert (K' : linked x (T i) (x_image x) (T (set_i_block i q b)) n (data_slot q) b) by (rewrite Eq; exact K). clear K; rename K' into K.
    pose proof (link_owned _ _ _ _ _ _ _ K) as O'. pose proof (link_kept P _ _ _ _ _ _ _ K) as Kp.
    pose proof (linked_block_id _ _ _ _ _ _ K Hn Hq) as Eb. rewrite with_inode_same in Eb.
    rewrite set_image_id in O', Kp, Eb. exists true, (set_i_block i q b), x. auto 6.
  - assert (Hd : data_slot q = 13 + (q - 12)) by (unfold data_slot; destruct (Z.ltb_spec q 12); lia).
    pose proof (data_slot_range x q L Hq) as [Hr _].
    unfold max_blocks, EXT2_DIRECT_BLOCKS in Hq. destruct (Z.leb_spec (x_block_size x / 4) (q - 12)); [lia|].
    destruct (indirect_ok x i b O Hn F) as (ok & i1 & x1 & E1 & O1 & K1 & Es1 & F1 & S1 & R1).
    destruct (kp_image _ _ _ _ _ _ K1) as (m1 & Ex1 & G1).
    assert (C : (if i_block_at i 12 =? 0 then if negb true then Ret (false, i, x)
                 else allocate_block x ≫= fun '(b, x) => Ret (negb (b =? 0), set_i_block i 12 b, x)
                 else Ret (true, i, x)) = Ret (ok, i1, x1)) by exact E1.
    rewrite C. cbn [mbind res_bind]. destruct ok; cbn [negb]; [|exists false, i1, x1; auto 6].
    pose proof (owned_layout x1 _ O1) as L1.
    assert (Hn1 : inode_valid x1 n) by (rewrite Ex1; apply frame_inode_valid; assumption).
    assert (Hq1 : 0 <= q < max_blocks x1) by (rewrite Ex1; unfold max_blocks, EXT2_DIRECT_BLOCKS; cbn [x_block_size set_image]; lia).
    pose proof (owned_12 x1 _ O1 n Hn1) as B12. rewrite with_inode_same in B12. specialize (B12 R1).
    rewrite (block_ptr_valid x1 L1) by (auto; rewrite ?Ex1; cbn [x_block_size set_image]; lia). rewrite Z.add_0_r.
    rewrite Hd in E, Hr. specialize (S1 (13 + (q - 12)) ltac:(lia) E).
    pose proof (link_indirect x1 i1 (q - 12) b O1 Hn1 R1 ltac:(rewrite Ex1; cbn [x_block_size set_image]; lia) S1 F1) as K.
    rewrite <- Hd in K. pose proof (linked_block_id _ _ _ _ _ _ K Hn1 Hq1) as Eb. rewrite with_inode_same in Eb.
    eexists true, i1, _. split; [reflexivity|]. split; [exact (link_owned _ _ _ _ _ _ _ K)|].
    split; [exact (kept_trans P n _ _ _ _ _ _ L K1 (link_kept P _ _ _ _ _ _ _ K))|]. auto.
Qed.

(** An image without a free block counts none. *)
Lemma no_free_count x : ext2_ok x -> no_free_block x -> sb_free_blocks_count (x_image x) = 0.
Proof.
  intros O H. rewrite (ok_sb_free x O). unfold free_count. rewrite <- (count_if_ext (fun _ => false)).
  - unfold count_if. induction (seqZ _ _) as [|c l IH]; [reflexivity | exact IH].
  - intros c Hc. apply In_seqZ in Hc. rewrite (H c); [reflexivity|]. unfold block_valid. lia.
Qed.

(** Changes of other fields of the inode that the code holds. *)
Lemma owned_fields x i i' :
  owned x (T i) -> i_block i' = i_block i -> inode_wf i' -> owned x (T i').
Proof.
  intros O E W. apply (owned_relabel x (T i)); auto; unfold with_inode; intros k; [|intros Hk]; destruct (Z.eqb_spec k n); auto.
  pose proof (ow_wf x _ O k Hk) as Wk. rewrite with_inode_other in Wk by assumption. exact Wk.
Qed.

Lemma kept_fields x i i' : i_block i' = i_block i -> i_mode i' = i_mode i -> kept P n x (T i) x (T i').
Proof.
  intros E Em. assert (Eb : forall k, i_block (T i' k) = i_block (T i k))
    by (intros k; unfold with_inode; destruct (Z.eqb_spec k n); auto).
  split; [split; auto|].
  - exists (x_image x). rewrite set_image_id. split; [reflexivity | intros a _; reflexivity].
  - intros k Hk. rewrite !with_inode_other by exact Hk. reflexivity.
  - rewrite !with_inode_same. exact Em.
  - intros k s _ _. apply slot_blocks, Eb.
  - intros k p _ _ _. apply file_byte_blocks, Eb.
  - intros s _ _. apply slot_blocks, Eb.
Qed.

(** [ensure_file_block]: the block of the file is there afterwards, or at most
    one block is free. *)
Lemma ensure_ok x i q :
  owned x (T i) -> inode_valid x n -> 0 <= q < max_blocks x ->
  exists r i' x', ensure_file_block x i q = Ret (r, i', x')
  /\ owned x' (T i') /\ kept P n x (T i) x' (T i') /\ i_size i' = i_size i
  /\ match r with
     | Some b => b <> 0 /\ block_id_at x' i' q = b
     | None => sb_free_blocks_count (x_image x') <= 1
     end.
Proof.
  intros O Hn Hq. pose proof (owned_layout x _ O) as L. unfold ensure_file_block.
  destruct (Z.eqb_spec (block_id_at x i q) 0) as [H0|H0]; cbn [negb].
  2: { exists (Some (block_id_at x i q)), i, x. split; [reflexivity|]. split; [exact O|]. split; [apply kept_refl|]. auto. }
  destruct (allocate_owned x (T i) O) as (b & x1 & -> & O1 & K1 & S1 & _ & R1). cbn [mbind res_bind].
  destruct (kp_image _ _ _ _ _ _ (K1 P n)) as (m1 & Ex1 & G1).
  destruct (Z.eqb_spec b 0) as [->|Hb].
  { destruct R1 as [-> Hno]. exists None, i, x. split; [reflexivity|]. split; [exact O|]. split; [apply kept_refl|].
    split; [reflexivity|]. rewrite (no_free_count x (ow_ok x _ O) Hno). lia. }
  assert (Hn1 : inode_valid x1 n) by (rewrite Ex1; apply frame_inode_valid; assumption).
  assert (Hq1 : 0 <= q < max_blocks x1) by (rewrite Ex1; exact Hq).
  assert (H1 : block_id_at x1 i q = 0).
  { pose proof (owned_block_id x1 _ O1 n q Hn1 ltac:(lia)) as E1. pose proof (owned_block_id x _ O n q Hn ltac:(lia)) as E.
    rewrite with_inode_same in E, E1. rewrite E1, <- H0, E. replace (max_blocks x1) with (max_blocks x) by (rewrite Ex1; reflexivity).
    destruct (q <? max_blocks x); [|reflexivity]. rewrite <- (with_inode_same V n i).
    apply S1. split; [exact Hn | exact (proj1 (data_slot_range x q L Hq))]. }
  destruct (set_block_ok x1 i q b O1 Hn1 Hq1 H1 R1) as (ok & i2 & x2 & -> & O2 & K2 & Es2 & R2). cbn [mbind res_bind].
  pose proof (kept_trans P n _ _ _ _ _ _ L (K1 P n) K2) as K12.
  destruct ok; cbn [negb].
  - exists (Some b), (update_inode_block_count x2 i2), x2. split; [reflexivity|].
    pose proof (ow_wf x2 _ O2 n) as W2. rewrite with_inode_same in W2. destruct (kp_image _ _ _ _ _ _ K12) as (m2 & Ex2 & G2).
    split; [apply (owned_fields x2 i2); [exact O2 | reflexivity | apply update_count_wf, W2; rewrite Ex2; apply frame_inode_valid; assumption]|].
    split; [exact (kept_trans P n _ _ _ _ _ _ L K12 (kept_fields x2 i2 (update_inode_block_count x2 i2) eq_refl eq_refl))|]. split; [exact Es2|].
    split; [exact Hb|]. exact R2.
  - destruct R2 as [F2 Hno].
    destruct (unmark_quiet x2 _ b O2 (fr_valid _ _ _ F2) (fr_data _ _ _ F2) (fr_unowned _ _ _ F2)) as (m3 & E3 & Q3 & C3 & _).
    rewrite E3. cbn [mbind res_bind]. exists None, i2, (set_image x2 m3). split; [reflexivity|].
    split; [exact (quiet_owned x2 _ m3 O2 Q3)|].
    split; [exact (kept_trans P n _ _ _ _ _ _ L K12 (quiet_kept P n x2 _ m3 O2 Q3))|]. split; [exact Es2|].
    change (x_image (set_image x2 m3)) with m3. rewrite C3, (no_free_count x2 (ow_ok x2 _ O2) Hno). destruct (block_used x2 b); cbn; lia.
Qed.
End File.
