(* ===== verification/Ext2Free.v ===== *)
(** * Taking blocks from the inodes of an ext2 image

    Emptying a slot and marking its block free, and [free_inode_blocks], which
    does it for every block past the ones to keep. *)

From S2P Require Import Prelude Fs Ext2Image Ext2Codec Ext2Layout Ext2Alloc Ext2 Ext2Proofs Ext2Own Ext2Link.

(** The table [V'] over [m'] has the slot [s] of the inode [n] empty; no other
    slot and no other block of a file has changed. *)
Record unlinked (x : ext2) (V : itable) (m' : mem) (V' : itable) (n s : Z) : Prop := {
  ul_owned : owned x V;
  ul_slot : slot_of x n s;
  ul_ok : ext2_ok (set_image x m');
  ul_geom : same_geom x m';
  ul_other : forall k, k <> n -> V' k = V k;
  ul_wf : inode_wf (V' n);
  ul_mode : i_mode (V' n) = i_mode (V n);
  ul_slots : forall k t, slot_of x k t ->
    slot (set_image x m') (V' k) t = if (k =? n) && (t =? s) then 0 else slot x (V k) t;
  ul_some : slot x (V n) s <> 0;
  ul_used : forall b', block_valid x b' -> block_used (set_image x m') b' = if b' =? slot x (V n) s then false else block_used x b';
  ul_kept : forall k t, slot_of x k t -> t <> 12 -> slot x (V k) t <> 0 -> block_kept x m' (slot x (V k) t);
  ul_table : forall a, inode_byte x a -> u8 (m' a) = u8 (x_image x a)
}.

Section Unlink.
Context (x : ext2) (V V' : itable) (m' : mem) (n s : Z) (K : unlinked x V m' V' n s).
Abbreviation x' := (set_image x m').

Lemma unlink_owned : owned x' V'.
Proof.
  destruct K as [O Hs O' G Vo W _ Sl Hsome Us _ _].
  assert (Cases : forall k t, slot_of x k t -> slot x' (V' k) t <> 0 ->
            slot x' (V' k) t = slot x (V k) t /\ slot x (V k) t <> slot x (V n) s).
  { intros k t Ht. rewrite Sl by exact Ht. destruct ((k =? n) && (t =? s)) eqn:E; [contradiction|]. intros Hz. split; [reflexivity|].
    intros Eb. destruct (ow_inj x V O k t n s Ht Hs Eb Hz) as [-> ->]. rewrite !Z.eqb_refl in E. discriminate. }
  split.
  - exact O'.
  - intros k Hk. apply (frame_inode_valid x m' k G) in Hk.
    destruct (Z.eq_dec k n) as [->|Hne]; [exact W | rewrite Vo by exact Hne; exact (ow_wf x V O k Hk)].
  - intros k t Ht. apply (frame_slot_of x m' k t G) in Ht. cbv zeta. intros Hz. destruct (Cases k t Ht Hz) as [E Hne]. rewrite E in *.
    destruct (ow_block x V O k t Ht Hz) as (Hv & Hu & D). rewrite (frame_valid x m' G), (frame_data_block x m' G), (Us _ Hv).
    destruct (Z.eqb_spec (slot x (V k) t) (slot x (V n) s)); [contradiction | auto].
  - intros k t k' t' Ht Ht' E Hz. apply (frame_slot_of x m' k t G) in Ht. apply (frame_slot_of x m' k' t' G) in Ht'.
    destruct (Cases k t Ht Hz) as [E1 _], (Cases k' t' Ht' ltac:(congruence)) as [E2 _].
    apply (ow_inj x V O k t k' t' Ht Ht'); congruence.
Qed.

Lemma unlink_moved P : (forall p, 0 <= p -> data_slot (p / x_block_size x) = s -> P p) -> moved P n x V x' V'.
Proof.
  intros HP. pose proof (ul_geom _ _ _ _ _ _ K) as G. pose proof (ul_owned _ _ _ _ _ _ K) as O.
  pose proof (owned_layout x V O) as L. pose proof (bs_range x L) as Hbs. split.
  - exists m'. split; [reflexivity | exact G].
  - exact (ul_table _ _ _ _ _ _ K).
  - exact (ul_other _ _ _ _ _ _ K).
  - exact (ul_mode _ _ _ _ _ _ K).
  - intros k t Hk Ht. rewrite (ul_slots _ _ _ _ _ _ K) by exact Ht. destruct (Z.eqb_spec k n); [contradiction | reflexivity].
  - intros k p Hk Hp Hn. set (q := p / x_block_size x). assert (Hq : 0 <= q) by (apply Z.div_pos; lia).
    pose proof (owned_block_id x' V' unlink_owned k q ltac:(apply frame_inode_valid; assumption) Hq) as E'.
    pose proof (owned_block_id x V O k q Hk Hq) as E. change (max_blocks x') with (max_blocks x) in E'.
    unfold file_byte. cbv zeta. change (x_block_size x') with (x_block_size x). fold q.
    destruct (Z.ltb_spec q (max_blocks x)) as [Hl|]; rewrite E', E; [|reflexivity].
    destruct (data_slot_range x q L ltac:(lia)) as [Hr H12].
    rewrite (ul_slots _ _ _ _ _ _ K) by (split; assumption).
    destruct (Z.eqb_spec k n) as [->|]; [destruct (Z.eqb_spec (data_slot q) s) as [Eq|]|]; cbn [andb];
      [destruct (Hn eq_refl); apply HP; assumption| |];
      (match goal with |- context [slot x (V ?k) (data_slot q)] => destruct (Z.eqb_spec (slot x (V k) (data_slot q)) 0) as [|Hz]; [reflexivity|];
         apply (ul_kept _ _ _ _ _ _ K k (data_slot q)); [split; assumption | exact H12 | exact Hz|] end);
      pose proof (Z.mod_pos_bound p (x_block_size x) ltac:(lia)); unfold in_block; lia.
Qed.
End Unlink.

(** ** Marking the block of a slot free *)

Section File.
Context (V : itable) (n : Z).
Abbreviation T i := (with_inode V n i).

(** Marking an owned block free succeeds and changes no block of a file. *)
Lemma mark_owned x U k s :
  owned x U -> slot_of x k s -> slot x (U k) s <> 0 ->
  exists m', mark_block_used x (slot x (U k) s) false = Ret (true, set_image x m')
  /\ ext2_ok (set_image x m') /\ same_geom x m'
  /\ (forall b', block_valid x b' -> block_used (set_image x m') b' = if b' =? slot x (U k) s then false else block_used x b')
  /\ (forall j t, slot_of x j t -> slot x (U j) t <> 0 -> block_kept x m' (slot x (U j) t))
  /\ (forall a, inode_byte x a -> u8 (m' a) = u8 (x_image x a)).
Proof.
  intros O Hs Hz. pose proof (owned_layout x U O) as L. destruct (ow_block x U O k s Hs Hz) as (Hv & Hu & D).
  destruct (mark_ok x _ false (ow_ok x U O) Hv (fun _ => D)) as (m' & E & O' & G & B & Us & _).
  assert (F : forall a, ~ meta_byte x a -> u8 (m' a) = u8 (x_image x a)).
  { intros a Hm. apply B; intros; intros Hc; apply Hm; unfold meta_byte; eauto. }
  exists m'. split; [exact E|]. split; [exact O'|]. split; [exact G|]. split; [exact Us|]. split.
  - intros j t Ht Hzt a Ha. apply F. destruct (ow_block x U O j t Ht Hzt) as (_ & _ & Dt). exact (data_not_meta x _ a Dt Ha).
  - intros a Ha. apply F. exact (inode_byte_not_meta x a L Ha).
Qed.

(** A slot of the inode itself; the indirect block only when it is empty. *)
Lemma release_direct x i s :
  owned x (T i) -> inode_valid x n -> 0 <= s <= 12 -> i_block_at i s <> 0 ->
  (s = 12 -> forall t, 12 < t < n_slots x -> slot x i t = 0) ->
  exists m', mark_block_used x (i_block_at i s) false = Ret (true, set_image x m')
  /\ unlinked x (T i) m' (T (set_i_block i s 0)) n s.
Proof.
  intros O Hn Hs Hz H12. pose proof (owned_layout x _ O) as L. pose proof (n_slots_range x L) as Hns.
  pose proof (ow_wf x _ O n Hn) as W. rewrite with_inode_same in W.
  assert (Hsn : slot_of x n s) by (split; [exact Hn | lia]).
  assert (Es : slot x (T i n) s = i_block_at i s).
  { rewrite with_inode_same. unfold slot. destruct (Z.leb_spec s 12); [reflexivity | lia]. }
  destruct (mark_owned x (T i) n s O Hsn ltac:(congruence)) as (m' & E & O' & G & Us & Kp & Tb). rewrite Es in E, Us.
  exists m'. split; [exact E|]. rewrite with_inode_same in Es. split; rewrite ?with_inode_same, ?Es; auto.
  - intros k Hk. rewrite !with_inode_other by exact Hk. reflexivity.
  - apply set_i_block_wf; [exact W | unfold is_u32; lia].
  - assert (Fr : forall k t, slot_of x k t -> slot (set_image x m') (T i k) t = slot x (T i k) t).
    { intros k t [Hk Ht]. apply slot_frame; [exact L | lia|]. intros Hz12. apply (Kp k 12); [split; [exact Hk | lia] | exact Hz12]. }
    apply table_slots.
    + intros k t Ht Hne. pose proof (Fr k t Ht) as Ef. rewrite with_inode_other in Ef by exact Hne. exact Ef.
    + intros t Ht. pose proof (Fr n t Ht) as Ef. rewrite with_inode_same in Ef.
      unfold slot in Ef |- *. destruct (Z.leb_spec t 12).
      * rewrite i_block_at_set by (auto; destruct Ht; lia). reflexivity.
      * destruct (Z.eqb_spec t s); [lia|]. rewrite i_block_at_set by (auto; lia). destruct (Z.eqb_spec 12 s) as [<-|]; [|exact Ef].
        specialize (H12 eq_refl t ltac:(destruct Ht; lia)). unfold slot in H12. destruct (Z.leb_spec t 12); [lia|]. symmetry. exact H12.
Qed.

(** An entry of the indirect block. *)
Lemma release_indirect x i e :
  owned x (T i) -> inode_valid x n -> i_block_at i 12 <> 0 -> 0 <= e < x_block_size x / 4 -> slot x i (13 + e) <> 0 ->
  exists m', mark_block_used x (slot x i (13 + e)) false = Ret (true, set_image x m')
  /\ unlinked x (T i) (store32 m' (i_block_at i 12 * x_block_size x + 4 * e) 0) (T i) n (13 + e).
Proof.
  intros O Hn Hi He Hz. pose proof (owned_layout x _ O) as L. pose proof (n_slots_range x L) as Hns. pose proof (bs_quarter x L) as Hq.
  assert (Hsn : slot_of x n (13 + e)) by (split; [exact Hn | unfold n_slots; lia]).
  assert (SB : slot_of x n 12) by (split; [exact Hn | lia]).
  pose proof (ow_wf x _ O n Hn) as W.
  destruct (mark_owned x (T i) n (13 + e) O Hsn ltac:(rewrite with_inode_same; exact Hz)) as (m1 & E & O1 & G1 & Us & Kp & Tb).
  rewrite with_inode_same in E, Us. exists m1. split; [exact E|].
  set (B := i_block_at i 12) in *.
  assert (EB : slot x (T i n) 12 = B) by (rewrite with_inode_same; reflexivity).
  destruct (ow_block x _ O n 12 SB ltac:(congruence)) as (Bv & _ & BD). rewrite EB in Bv, BD.
  assert (BD1 : data_block (set_image x m1) B) by (apply frame_data_block; assumption).
  set (m' := store32 m1 _ 0). pose proof (ok_layout _ O1) as L1.
  assert (Out : forall a, ~ in_block (set_image x m1) B a -> u8 (m' a) = u8 (m1 a)).
  { intros a Ha. unfold m'. rewrite store_out; [reflexivity|]. unfold in_block in Ha. change (x_block_size (set_image x m1)) with (x_block_size x) in Ha. lia. }
  destruct (block_store_meta (set_image x m1) m' B L1 BD1 Out) as (Meta & Table & Kp1).
  assert (G' : same_geom x m') by exact (same_geom_trans x m1 m' G1 (keep_geom _ m' Meta)).
  assert (Own : forall k t, slot_of x k t -> slot x (T i k) t <> 0 -> ~ (k = n /\ t = 12) -> slot x (T i k) t <> B).
  { intros k t Ht Hzt Hne Eb. apply Hne. apply (ow_inj x _ O k t n 12); auto. congruence. }
  assert (Kp' : forall k t, slot_of x k t -> slot x (T i k) t <> 0 -> ~ (k = n /\ t = 12) -> block_kept x m' (slot x (T i k) t)).
  { intros k t Ht Hzt Hne a Ha. transitivity (u8 (m1 a)); [|exact (Kp k t Ht Hzt a Ha)].
    exact (Kp1 _ (Own k t Ht Hzt Hne) a Ha). }
  split; auto.
  - exact (keep_ok (set_image x m1) m' Meta O1).
  - apply table_slots.
    + intros k t [Hk Ht] Hne. apply slot_frame; [exact L | lia|]. intros Hz12.
      assert (Hk12 : slot_of x k 12) by (split; [exact Hk | lia]). pose proof (Kp' k 12 Hk12) as Ho.
      rewrite with_inode_other in Ho by exact Hne. apply Ho; [exact Hz12 | tauto].
    + intros t [_ Ht]. unfold slot. destruct (Z.leb_spec t 12); [destruct (Z.eqb_spec t (13 + e)); [lia | reflexivity]|].
      fold B. destruct (Z.eqb_spec B 0); [contradiction|]. unfold indirect_at. change (x_image (set_image x m')) with m'.
      change (x_block_size (set_image x m')) with (x_block_size x). destruct (Z.eqb_spec t (13 + e)) as [->|Hte].
      * replace (13 + e - 13) with e by lia. unfold m'. rewrite load_store_eq. reflexivity.
      * unfold m'. rewrite load_store_disj by lia. apply load_ext. intros a Ha.
        assert (HB : block_kept x m1 B) by (rewrite <- EB; apply (Kp n 12 SB); congruence).
        apply HB. unfold in_block, n_slots in *. lia.
  - rewrite with_inode_same. exact Hz.
  - intros b' Hb'. rewrite with_inode_same. pose proof (keep_used (set_image x m1) m' Meta O1 b') as Ku.
    change (set_image (set_image x m1) m') with (set_image x m') in Ku. rewrite Ku by (apply frame_valid; assumption). exact (Us b' Hb').
  - intros k t Ht Ht12 Hzt. apply Kp'; auto. tauto.
  - intros a Ha. rewrite <- (Tb a Ha). apply (Table a). apply frame_inode_byte; assumption.
Qed.

(** ** [free_inode_blocks] *)

Section Free.
Context (x : ext2) (i : ext2_inode) (keep : Z).
Context (L : layout x) (Hn : inode_valid x n) (Hkeep : 0 <= keep <= max_blocks x).

Abbreviation past := (fun p => keep <= p / x_block_size x).

(** The inode [i1] over [x1] is [i] over [x] with some blocks past [keep] gone. *)
Record freeing (x1 : ext2) (i1 : ext2_inode) : Prop := {
  fg_owned : owned x1 (T i1);
  fg_moved : moved past n x (T i) x1 (T i1);
  fg_size : i_size i1 = i_size i;
  fg_blocks : forall q, 0 <= q < keep -> block_id_at x1 i1 q = block_id_at x i q;
  fg_slots : forall s, 0 <= s < n_slots x -> slot x1 i1 s = slot x i s \/ slot x1 i1 s = 0;
  fg_used : forall b, block_valid x b -> block_used x1 b = true <-> block_used x b = true /\ (has_block x i b -> has_block x1 i1 b)
}.

Lemma freeing_valid x1 i1 : freeing x1 i1 -> inode_valid x1 n /\ x_block_size x1 = x_block_size x.
Proof.
  intros Fg. destruct (mv_image _ _ _ _ _ _ (fg_moved _ _ Fg)) as (m1 & -> & G).
  split; [apply frame_inode_valid; assumption | reflexivity].
Qed.

Lemma unlinked_slot x1 i1 m2 i2 s t :
  unlinked x1 (T i1) m2 (T i2) n s -> 0 <= t < n_slots x1 -> inode_valid x1 n ->
  slot (set_image x1 m2) i2 t = if t =? s then 0 else slot x1 i1 t.
Proof.
  intros U Ht Hn1. pose proof (ul_slots _ _ _ _ _ _ U n t (conj Hn1 Ht)) as E. rewrite !with_inode_same, Z.eqb_refl in E. exact E.
Qed.

(** The blocks in use after one more is gone. *)
Lemma freeing_used x1 i1 m2 i2 s :
  freeing x1 i1 -> unlinked x1 (T i1) m2 (T i2) n s ->
  forall b, block_valid x b -> block_used (set_image x1 m2) b = true <-> block_used x b = true /\ (has_block x i b -> has_block (set_image x1 m2) i2 b).
Proof.
  intros Fg U. destruct (freeing_valid x1 i1 Fg) as [Hn1 Ebs]. destruct Fg as [O1 M1 _ _ S1 F1].
  destruct (mv_image _ _ _ _ _ _ M1) as (m1 & Ex1 & G1). pose proof (ul_slot _ _ _ _ _ _ U) as [_ Hs].
  pose proof (ul_some _ _ _ _ _ _ U) as Hz. pose proof (ul_used _ _ _ _ _ _ U) as Us. rewrite with_inode_same in Hz, Us.
  assert (Ens : n_slots x1 = n_slots x) by (unfold n_slots; rewrite Ebs; reflexivity). rewrite <- Ens in S1.
  assert (Sl : forall t, 0 <= t < n_slots x1 -> slot (set_image x1 m2) i2 t = if t =? s then 0 else slot x1 i1 t)
    by (intros t Ht; exact (unlinked_slot _ _ _ _ _ _ U Ht Hn1)).
  assert (Inj : forall t, 0 <= t < n_slots x1 -> slot x1 i1 t = slot x1 i1 s -> t = s).
  { intros t Ht E. apply (ow_inj x1 _ O1 n t n s (conj Hn1 Ht) (conj Hn1 Hs)); rewrite with_inode_same; congruence. }
  unfold has_block in *. change (n_slots (set_image x1 m2)) with (n_slots x1). rewrite Ens in *.
  intros b Hb. rewrite Us by (rewrite Ex1; apply frame_valid; assumption). destruct (Z.eqb_spec b (slot x1 i1 s)) as [->|Hne].
  - split; [discriminate|]. intros [_ H]. destruct (S1 s Hs) as [E|E]; [|contradiction].
    destruct H as [_ (t & Ht & Et)]; [split; [exact Hz | exists s; auto]|]. rewrite (Sl t Ht) in Et.
    destruct (Z.eqb_spec t s) as [|Hts]; [congruence|]. destruct (Hts (Inj t Ht Et)).
  - rewrite (F1 b Hb). split; intros [Hu H]; (split; [exact Hu|]); intros Hi; destruct (H Hi) as [Hbz (t & Ht & Et)]; (split; [exact Hbz|]); exists t.
    + split; [exact Ht|]. rewrite (Sl t Ht). destruct (Z.eqb_spec t s); [congruence | exact Et].
    + split; [exact Ht|]. rewrite (Sl t Ht) in Et. destruct (Z.eqb_spec t s); [congruence | exact Et].
Qed.

Lemma freeing_step x1 i1 m2 i2 s :
  freeing x1 i1 -> unlinked x1 (T i1) m2 (T i2) n s -> (forall q, data_slot q = s -> keep <= q) -> i_size i2 = i_size i1 ->
  freeing (set_image x1 m2) i2.
Proof.
  intros Fg U Hq Hs. pose proof (freeing_used x1 i1 m2 i2 s Fg U) as Fu. destruct (freeing_valid x1 i1 Fg) as [Hn1 Ebs]. destruct Fg as [O1 M1 E1 B1 S1 _]. split.
  - exact (unlink_owned _ _ _ _ _ _ U).
  - apply (moved_trans past n x _ x1 _ _ _ L M1). apply (unlink_moved _ _ _ _ _ _ U). cbv beta. rewrite Ebs. intros p _ E. exact (Hq _ E).
  - congruence.
  - intros q Hqk. rewrite <- B1 by exact Hqk. pose proof (ul_geom _ _ _ _ _ _ U) as G2.
    pose proof (owned_block_id _ _ (unlink_owned _ _ _ _ _ _ U) n q ltac:(apply frame_inode_valid; assumption) ltac:(lia)) as E2.
    pose proof (owned_block_id x1 _ O1 n q Hn1 ltac:(lia)) as Eq1. rewrite with_inode_same in E2, Eq1. rewrite E2, Eq1.
    change (max_blocks (set_image x1 m2)) with (max_blocks x1). destruct (Z.ltb_spec q (max_blocks x1)) as [Hl|]; [|reflexivity].
    destruct (data_slot_range x1 q (owned_layout x1 _ O1) ltac:(lia)) as [Hr _].
    rewrite (unlinked_slot _ _ _ _ _ _ U Hr Hn1). destruct (Z.eqb_spec (data_slot q) s) as [E|]; [specialize (Hq q E); lia | reflexivity].
  - intros t Ht. assert (Ht1 : 0 <= t < n_slots x1) by (unfold n_slots in *; rewrite Ebs; exact Ht).
    rewrite (unlinked_slot _ _ _ _ _ _ U Ht1 Hn1). destruct (t =? s); [auto | exact (S1 t Ht)].
  - exact Fu.
Qed.

Lemma freeing_refl : owned x (T i) -> freeing x i.
Proof. intros O. split; auto; [apply moved_refl | tauto]. Qed.

(** The direct blocks. *)
Lemma free_direct_ok :
  owned x (T i) ->
  exists i1 x1, mrange keep EXT2_DIRECT_BLOCKS 1 (fun k '(inode, x) =>
      if negb (i_block_at inode k =? 0) then
        mark_block_used x (i_block_at inode k) false ≫= fun '(_, x) => Ret (Cont (set_i_block inode k 0, x))
      else Ret (Cont (inode, x))) (i, x) = Ret (Cont (i1, x1) : ctl (ext2_inode * ext2) (ext2_inode * ext2))
  /\ freeing x1 i1 /\ i_block_at i1 12 = i_block_at i 12 /\ (forall q, keep <= q < 12 -> i_block_at i1 q = 0).
Proof.
  intros O. set (I := fun k (s : ext2_inode * ext2) => freeing (snd s) (fst s) /\ i_block_at (fst s) 12 = i_block_at i 12
                       /\ forall q, keep <= q < k -> q < 12 -> i_block_at (fst s) q = 0).
  unfold mrange, trips, EXT2_DIRECT_BLOCKS. replace ((12 - keep + 1 - 1) / 1) with (12 - keep) by (rewrite Z.div_1_r; lia).
  match goal with |- context [mfor ?n0 ?lo ?st ?body ?s0] =>
    destruct (mfor_ind I (fun c => match c with Cont s => I (keep + Z.of_nat (Z.to_nat (12 - keep))) s | Break _ => False end) n0 lo st body s0) as (c & -> & Hc) end.
  - split; [exact (freeing_refl O)|]. split; [reflexivity | intros; lia].
  - intros k [i1 x1] Hk (Fg & E12 & Z0). cbn [fst snd] in *. destruct (freeing_valid x1 i1 Fg) as [Hn1 _].
    replace (keep + k * 1) with (keep + k) in * by lia. replace (keep + (k + 1) * 1) with (keep + k + 1) by lia.
    destruct (Z.eqb_spec (i_block_at i1 (keep + k)) 0) as [Ez|Ez]; cbn [negb].
    + eexists. split; [reflexivity|]. split; [exact Fg|]. split; [exact E12|]. cbn [fst]. intros q Hq Hq'.
      destruct (Z.eq_dec q (keep + k)) as [->|]; [exact Ez | apply Z0; lia].
    + destruct (release_direct x1 i1 (keep + k) (fg_owned _ _ Fg) Hn1 ltac:(lia) Ez ltac:(lia)) as (m2 & -> & U). cbn [mbind res_bind].
      pose proof (ow_wf _ _ (fg_owned _ _ Fg) n Hn1) as W. rewrite with_inode_same in W.
      eexists. split; [reflexivity|]. split; cbn [fst snd].
      * apply (freeing_step x1 i1 m2 _ _ Fg U); [|reflexivity]. intros q Hq. unfold data_slot in Hq. destruct (Z.ltb_spec q 12); lia.
      * split; [rewrite i_block_at_set by (auto; lia); destruct (Z.eqb_spec 12 (keep + k)); [lia | exact E12]|].
        intros q Hq Hq'. rewrite i_block_at_set by (auto; lia). destruct (Z.eqb_spec q (keep + k)); [reflexivity | apply Z0; lia].
  - intros s Hs. replace (keep + Z.of_nat (Z.to_nat (12 - keep)) * 1) with (keep + Z.of_nat (Z.to_nat (12 - keep))) in Hs by lia. exact Hs.
  - destruct c as [[i1 x1]|]; [|destruct Hc]. destruct Hc as (Fg & E12 & Z0). cbn [fst snd] in *. exists i1, x1.
    split; [reflexivity|]. split; [exact Fg|]. split; [exact E12|]. intros q Hq. apply Z0; lia.
Qed.

(** The entries of the indirect block. *)
Lemma free_entries_ok x1 i1 lo :
  freeing x1 i1 -> i_block_at i1 12 <> 0 -> 0 <= lo <= x_block_size x / 4 -> keep <= 12 + lo ->
  exists x2, mrange lo (x_block_size x / 4) 1 (fun e x =>
      let b := indirect_at (x_image x) (i_block_at i1 12 * x_block_size x1) e in
      if negb (b =? 0) then
        mark_block_used x b false ≫= fun '(_, x) =>
        Ret (Cont (set_image x (store32 (x_image x) (i_block_at i1 12 * x_block_size x1 + 4 * e) 0)))
      else Ret (Cont x)) x1 = Ret (Cont x2 : ctl ext2 ext2)
  /\ freeing x2 i1 /\ (forall e, lo <= e < x_block_size x / 4 -> slot x2 i1 (13 + e) = 0).
Proof.
  intros Fg1 H12 Hlo Hk12. set (I := fun k x2 => freeing x2 i1 /\ forall e, lo <= e < k -> slot x2 i1 (13 + e) = 0).
  unfold mrange, trips. replace ((x_block_size x / 4 - lo + 1 - 1) / 1) with (x_block_size x / 4 - lo) by (rewrite Z.div_1_r; lia).
  match goal with |- context [mfor ?n0 ?lo0 ?st ?body ?s0] =>
    destruct (mfor_ind I (fun c => match c with Cont s => I (x_block_size x / 4) s | Break _ => False end) n0 lo0 st body s0) as (c & -> & Hc) end.
  - split; [exact Fg1 | intros; lia].
  - intros k x2 Hk (Fg & Z0). destruct (freeing_valid x2 i1 Fg) as [Hn2 Ebs2]. destruct (freeing_valid x1 i1 Fg1) as [_ Ebs1].
    replace (lo + k * 1) with (lo + k) in * by lia. replace (lo + (k + 1) * 1) with (lo + k + 1) by lia. set (e := lo + k) in *.
    assert (Es : indirect_at (x_image x2) (i_block_at i1 12 * x_block_size x1) e = slot x2 i1 (13 + e)).
    { unfold slot. destruct (Z.leb_spec (13 + e) 12); [lia|]. destruct (Z.eqb_spec (i_block_at i1 12) 0); [contradiction|].
      rewrite Ebs1, Ebs2. f_equal; lia. }
    cbv zeta. rewrite Es. destruct (Z.eqb_spec (slot x2 i1 (13 + e)) 0) as [Ez|Ez]; cbn [negb].
    + eexists. split; [reflexivity|]. split; [exact Fg|]. intros e' He'. destruct (Z.eq_dec e' e) as [->|]; [exact Ez | apply Z0; lia].
    + destruct (release_indirect x2 i1 e (fg_owned _ _ Fg) Hn2 H12 ltac:(rewrite Ebs2; lia) Ez) as (m2 & -> & U). cbn [mbind res_bind].
      rewrite Ebs2, <- Ebs1 in U. eexists. split; [reflexivity|].
      change (set_image (set_image x2 m2)) with (set_image x2). cbn [x_image set_image]. split.
      * apply (freeing_step x2 i1 _ i1 _ Fg U); [|reflexivity]. intros q Hq. unfold data_slot in Hq. destruct (Z.ltb_spec q 12); lia.
      * intros e' He'. rewrite (unlinked_slot _ _ _ _ _ _ U) by (first [exact Hn2 | unfold n_slots; rewrite Ebs2; lia]).
        destruct (Z.eqb_spec (13 + e') (13 + e)); [reflexivity | apply Z0; lia].
  - intros s Hs. replace (lo + Z.of_nat (Z.to_nat (x_block_size x / 4 - lo)) * 1) with (x_block_size x / 4) in Hs by lia. exact Hs.
  - destruct c as [x2|]; [|destruct Hc]. destruct Hc as (Fg & Z0). exists x2. auto.
Qed.
(** The inode with its count brought up to date. *)
Lemma freeing_fields x1 i1 i2 :
  freeing x1 i1 -> i_block i2 = i_block i1 -> i_mode i2 = i_mode i1 -> i_size i2 = i_size i1 -> inode_wf i2 -> freeing x1 i2.
Proof.
  intros [O1 M1 E1 B1 S1 F1] Eb Em Es W.
  assert (Sl : forall s, slot x1 i2 s = slot x1 i1 s) by (intros s; unfold slot, i_block_at; rewrite Eb; reflexivity).
  split; [exact (owned_fields V n x1 i1 i2 O1 Eb W) | | congruence | | |].
  2: { intros q Hq. rewrite (block_id_blocks x1 i1 i2 q Eb). exact (B1 q Hq). }
  2: { intros s Hs. rewrite Sl. exact (S1 s Hs). }
  2: { intros b Hb. rewrite (F1 b Hb). unfold has_block. setoid_rewrite Sl. reflexivity. }
  apply (moved_trans past n x _ x1 _ _ _ L M1). exact (kp_moved _ _ _ _ _ _ (kept_fields past V n x1 i1 i2 Eb Em)).
Qed.

(** No block is left past the ones to keep. *)
Definition trimmed_at (x1 : ext2) (i1 : ext2_inode) : Prop := forall q, keep <= q -> block_id_at x1 i1 q = 0.

Lemma freeing_trimmed x1 i1 :
  freeing x1 i1 -> (forall q, keep <= q < 12 -> i_block_at i1 q = 0) ->
  (forall e, 0 <= e < x_block_size x / 4 -> keep <= 12 + e -> slot x1 i1 (13 + e) = 0) -> trimmed_at x1 i1.
Proof.
  intros Fg Hd He q Hq. destruct (freeing_valid x1 i1 Fg) as [Hn1 Ebs].
  pose proof (owned_block_id x1 _ (fg_owned _ _ Fg) n q Hn1 ltac:(lia)) as E. rewrite with_inode_same in E. rewrite E.
  destruct (Z.ltb_spec q (max_blocks x1)) as [Hl|]; [|reflexivity]. unfold max_blocks, EXT2_DIRECT_BLOCKS in Hl. rewrite Ebs in Hl.
  unfold data_slot. destruct (Z.ltb_spec q 12).
  - unfold slot. destruct (Z.leb_spec q 12); [apply Hd; lia | lia].
  - replace (q + 1) with (13 + (q - 12)) by lia. apply He; lia.
Qed.

(** When none is to be kept, all of them are free. *)
Lemma freeing_all x1 i1 : freeing x1 i1 -> trimmed_at x1 i1 -> i_block_at i1 12 = 0 -> keep = 0 -> blocks_freed x i x1.
Proof.
  intros Fg Z1 Z12 ->. destruct (freeing_valid x1 i1 Fg) as [Hn1 Ebs]. pose proof (owned_layout _ _ (fg_owned _ _ Fg)) as L1.
  assert (Sl : forall s, 0 <= s < n_slots x1 -> slot x1 i1 s = 0).
  { intros s Hs. unfold slot. destruct (Z.leb_spec s 12) as [Hle|Hgt]; [|rewrite Z12; reflexivity].
    destruct (Z.eq_dec s 12) as [->|]; [exact Z12|]. pose proof (Z1 s ltac:(lia)) as E. unfold block_id_at, EXT2_DIRECT_BLOCKS in E.
    destruct (Z.ltb_spec s 12); [exact E | lia]. }
  intros b Hb. rewrite (fg_used _ _ Fg b Hb). split; intros [Hu Hin]; (split; [exact Hu|]); intros Hi; [|destruct (Hin Hi)].
  destruct (Hin Hi) as [Hz (s & Hs & E)]. rewrite (Sl s Hs) in E. congruence.
Qed.

(** [free_inode_blocks] frees the blocks past [keep]. *)
Lemma free_inode_blocks_ok :
  owned x (T i) ->
  exists i' x', free_inode_blocks x i keep = Ret (true, i', x') /\ freeing x' i' /\ trimmed_at x' i'
  /\ (keep <= 12 -> i_block_at i' 12 = 0).
Proof.
  intros O. pose proof (bs_range x L) as Hbs. pose proof (bs_quarter x L) as Hbq. unfold free_inode_blocks. fold (max_blocks x).
  destruct (Z.ltb_spec (max_blocks x) keep); [lia|].
  destruct (free_direct_ok O) as (i1 & x1 & E1 & Fg1 & E12 & Z1). rewrite E1. cbn [mbind res_bind].
  destruct (freeing_valid x1 i1 Fg1) as [Hn1 Ebs1].
  assert (Upd : forall x2 i2, freeing x2 i2 -> freeing x2 (update_inode_block_count x2 i2)).
  { intros x2 i2 Fg2. destruct (freeing_valid x2 i2 Fg2) as [Hn2 _]. pose proof (ow_wf _ _ (fg_owned _ _ Fg2) n Hn2) as W.
    rewrite with_inode_same in W. apply (freeing_fields x2 i2); auto. apply update_count_wf, W. }
  destruct (Z.eqb_spec (i_block_at i1 12) 0) as [Ez|Ez].
  - exists (update_inode_block_count x1 i1), x1. split; [reflexivity|]. split; [exact (Upd x1 i1 Fg1)|].
    split; [|intros _; exact Ez]. apply (freeing_trimmed x1 i1 Fg1 Z1). intros e He _. unfold slot.
    destruct (Z.leb_spec (13 + e) 12); [lia|]. rewrite Ez. reflexivity.
  - pose proof (owned_12 _ _ (fg_owned _ _ Fg1) n Hn1) as Bv. rewrite with_inode_same in Bv. specialize (Bv Ez).
    rewrite (block_ptr_valid x1 (owned_layout _ _ (fg_owned _ _ Fg1))) by (auto; rewrite ?Ebs1; lia). rewrite Z.add_0_r.
    set (lo := if EXT2_DIRECT_BLOCKS <? keep then keep - EXT2_DIRECT_BLOCKS else 0).
    assert (Hlo : 0 <= lo <= x_block_size x / 4 /\ lo = Z.max 0 (keep - 12)).
    { unfold lo, max_blocks, EXT2_DIRECT_BLOCKS in *. destruct (Z.ltb_spec 12 keep); lia. }
    destruct (free_entries_ok x1 i1 lo Fg1 Ez ltac:(lia) ltac:(lia)) as (x2 & E2 & Fg2 & Z2). cbv zeta in E2. rewrite E2. cbn [mbind res_bind].
    destruct (freeing_valid x2 i1 Fg2) as [Hn2 Ebs2].
    unfold EXT2_DIRECT_BLOCKS. destruct (Z.leb_spec keep 12) as [Hk|Hk].
    + destruct (release_direct x2 i1 12 (fg_owned _ _ Fg2) Hn2 ltac:(lia) Ez) as (m3 & -> & U).
      { intros _ t Ht. unfold n_slots in Ht. rewrite Ebs2 in Ht. replace t with (13 + (t - 13)) by lia. apply Z2. lia. }
      cbn [mbind res_bind]. pose proof (freeing_step x2 i1 m3 _ 12 Fg2 U) as Fg3.
      assert (Fg3' : freeing (set_image x2 m3) (set_i_block i1 12 0)).
      { apply Fg3; [|reflexivity]. intros q Hq. unfold data_slot in Hq. destruct (Z.ltb_spec q 12); lia. }
      pose proof (ow_wf _ _ (fg_owned _ _ Fg2) n Hn2) as W. rewrite with_inode_same in W.
      assert (Z12 : i_block_at (set_i_block i1 12 0) 12 = 0) by (rewrite i_block_at_set by (auto; lia); reflexivity).
      eexists _, _. split; [reflexivity|]. split; [exact (Upd _ _ Fg3')|]. split; [|intros _; exact Z12].
      apply (freeing_trimmed _ (set_i_block i1 12 0) Fg3').
      * intros q Hq. rewrite i_block_at_set by (auto; lia). destruct (Z.eqb_spec q 12); [lia | exact (Z1 q Hq)].
      * intros e He _. unfold slot. destruct (Z.leb_spec (13 + e) 12); [lia|]. rewrite Z12. reflexivity.
    + cbn [mbind res_bind]. eexists _, _. split; [reflexivity|]. split; [exact (Upd _ _ Fg2)|]. split; [|lia].
      apply (freeing_trimmed _ i1 Fg2 Z1). intros e He Hke. apply Z2. lia.
Qed.
End Free.
End File.
