(* ===== verification/Ext2Write.v ===== *)
(** * Writing files of the ext2 file system *)

From S2P Require Import Prelude Fs Ext2Image Ext2Codec Ext2Layout Ext2Alloc Ext2 Ext2Ops Ext2Sample Ext2Proofs.
From S2P Require Import Ext2Own Ext2Link Ext2Free.

(** ** Bytes into a block of a file *)

Section File.
Context (V : itable) (n : Z).
Abbreviation T i := (with_inode V n i).

(** The bytes of one block of a file. *)
Lemma offset_in_block bs q bo k : 0 <= bo < bs -> bo + k < bs -> 0 <= k -> (q * bs + bo + k) / bs = q /\ (q * bs + bo + k) mod bs = bo + k.
Proof.
  intros Hb Hk H0. split.
  - symmetry. apply (Z.div_unique _ _ _ (bo + k)); lia.
  - symmetry. apply (Z.mod_unique _ _ q); lia.
Qed.

(** Any change inside one block of a file. *)
Lemma block_update_ok (P : Z -> Prop) x i q m' :
  owned x (T i) -> inode_valid x n -> 0 <= q -> block_id_at x i q <> 0 ->
  let b := block_id_at x i q in
  let x' := set_image x m' in
  (forall a, ~ in_block x b a -> u8 (m' a) = u8 (x_image x a)) ->
  (forall p, p / x_block_size x = q -> ~ P p ->
     u8 (m' (b * x_block_size x + p mod x_block_size x)) = u8 (x_image x (b * x_block_size x + p mod x_block_size x))) ->
  owned x' (T i) /\ kept P n x (T i) x' (T i) /\ block_id_at x' i q = b
  /\ (forall p, p / x_block_size x = q -> file_byte x' i p = u8 (m' (b * x_block_size x + p mod x_block_size x))).
Proof.
  intros O Hn Hq Hz b x' Out HP. pose proof (owned_layout x _ O) as L. pose proof (bs_range x L) as Hbs.
  pose proof (owned_block_slot x _ O n q Hn Hq) as Sl. rewrite with_inode_same in Sl.
  destruct (Sl Hz) as (Hq' & Hs & Es). clear Sl. fold b in Hz, Es.
  destruct (ow_block x _ O n _ Hs ltac:(rewrite with_inode_same; congruence)) as (Bv & _ & BD).
  rewrite with_inode_same, <- Es in Bv, BD.
  destruct (block_store_meta x m' b L BD Out) as (Meta & Table & Kp).
  assert (Own : forall k t, slot_of x k t -> slot x (T i k) t = b -> k = n /\ t = data_slot q).
  { intros k t Ht E. apply (ow_inj x _ O k t n (data_slot q) Ht Hs); rewrite ?with_inode_same; congruence. }
  destruct (data_slot_range x q L Hq') as [Hr H12].
  assert (St : stable x (T i) m').
  { split.
    - exact (keep_ok x m' Meta (ow_ok x _ O)).
    - exact (keep_geom x m' Meta).
    - intros k t Ht Hzt. destruct (ow_block x _ O k t Ht Hzt) as (Hv & Hu & _).
      rewrite (keep_used x m' Meta (ow_ok x _ O)) by exact Hv. exact Hu.
    - intros k Hk Hz12. apply Kp. intros E. pose proof (n_slots_range x L).
      destruct (Own k 12 (conj Hk (conj (Zle_0_pos 12) H)) E) as [_ E12]. congruence. }
  pose proof (stable_owned x _ m' O St) as O'. pose proof (stable_block_id x _ m' O St n q Hn Hq) as Eb. rewrite with_inode_same in Eb.
  fold x' b in Eb. split; [exact O'|]. split; [split; [split|] | split; [exact Eb|]].
  - exists m'. split; [reflexivity | exact (st_geom _ _ _ St)].
  - exact Table.
  - reflexivity.
  - reflexivity.
  - intros k t _ Ht. exact (stable_slot x _ m' O St k t Ht).
  - intros k p Hk Hp Hnp. apply (stable_byte x _ m' O St k p Hk Hp). cbv zeta. intros Ht Hzt Hin.
    destruct (Z.eq_dec (slot x (T i k) (data_slot (p / x_block_size x))) b) as [E|Hne]; [|exact (Kp _ Hne _ Hin)].
    destruct (Own _ _ Ht E) as [-> Eq]. apply data_slot_inj in Eq. rewrite E. apply HP; [exact Eq | exact (Hnp eq_refl)].
  - intros t Ht _. exact (stable_slot x _ m' O St n t Ht).
  - intros p Ep. unfold file_byte. cbv zeta. change (x_block_size x') with (x_block_size x). rewrite Ep, Eb.
    destruct (Z.eqb_spec b 0); [contradiction | reflexivity].
Qed.

Lemma data_write_ok x i q bo bytes :
  owned x (T i) -> inode_valid x n -> 0 <= q -> block_id_at x i q <> 0 -> 0 <= bo < x_block_size x ->
  bo + Z.of_nat (length bytes) <= x_block_size x ->
  let start := q * x_block_size x + bo in
  let x' := set_image x (mem_write (x_image x) (block_id_at x i q * x_block_size x + bo) bytes) in
  owned x' (T i)
  /\ kept (fun p => start <= p < start + Z.of_nat (length bytes)) n x (T i) x' (T i)
  /\ (forall p, start <= p < start + Z.of_nat (length bytes) -> file_byte x' i p = u8 (nth (Z.to_nat (p - start)) bytes 0)).
Proof.
  intros O Hn Hq Hz Hbo Hlen start x'. pose proof (bs_range x (owned_layout x _ O)) as Hbs.
  destruct (block_update_ok (fun p => start <= p < start + Z.of_nat (length bytes)) x i q
    (mem_write (x_image x) (block_id_at x i q * x_block_size x + bo) bytes) O Hn Hq Hz) as (O' & K & _ & B).
  - intros a Ha. unfold in_block in Ha. rewrite mem_write_out by lia. reflexivity.
  - intros p Ep Hp. pose proof (Z.div_mod p (x_block_size x) ltac:(lia)). rewrite mem_write_out by (unfold start in Hp; lia). reflexivity.
  - split; [exact O'|]. split; [exact K|]. intros p Hp.
    destruct (offset_in_block (x_block_size x) q bo (p - start) Hbo ltac:(lia) ltac:(lia)) as [Ed Em].
    replace (q * x_block_size x + bo + (p - start)) with p in Ed, Em by (unfold start; lia).
    rewrite (B p Ed : file_byte x' i p = _), Em, mem_write_in by lia. do 2 f_equal. lia.
Qed.
End File.

(** ** The loop of [ext2_write_file] *)

(** The bytes of the file [i] from [offset] on are [bytes]. *)
Definition holds (x : ext2) (i : ext2_inode) (offset : Z) (bytes : list Z) : Prop :=
  forall p, offset <= p < offset + Z.of_nat (length bytes) -> file_byte x i p = nth (Z.to_nat (p - offset)) bytes 0.

Definition within (lo len p : Z) : Prop := lo <= p < lo + len.

Lemma size_block x size p :
  layout x -> 0 <= p < size -> size <= max_blocks x * x_block_size x -> 0 <= p / x_block_size x < max_blocks x.
Proof. intros L Hp Hs. pose proof (bs_range x L). split; [apply Z.div_pos; lia | apply Z.div_lt_upper_bound; lia]. Qed.

Lemma u32_small_div p bs : 0 <= p < 4294967296 -> 0 < bs -> u32 (p / bs) = p / bs.
Proof.
  intros Hp Hb. apply u32_id. split; [apply Z.div_pos; lia|].
  apply (Z.le_lt_trans _ p); [apply Z.div_le_upper_bound; nia | lia].
Qed.

Lemma max_size_small x : layout x -> max_blocks x * x_block_size x < 4294967296.
Proof. intros L. unfold max_blocks, EXT2_DIRECT_BLOCKS. destruct L as [[-> | [-> | ->]]]; reflexivity. Qed.

Section Loop.
Context (V : itable) (n : Z) (bytes : list Z) (offset : Z).
Abbreviation T i := (with_inode V n i).
Abbreviation len := (Z.of_nat (length bytes)).
Context (Hbytes : Forall is_byte bytes) (Hoffset : 0 <= offset).

(** What the loop has done when [written] bytes are in the file. *)
Record written_so_far (x : ext2) (i : ext2_inode) (x' : ext2) (i' : ext2_inode) (written : Z) : Prop := {
  wr_owned : owned x' (T i');
  wr_kept : kept (within offset len) n x (T i) x' (T i');
  wr_size : i_size i' = i_size i;
  wr_bytes : holds x' i' offset (firstn (Z.to_nat written) bytes)
}.

(** A step that changes no byte. *)
Lemma written_step x i x1 i1 x2 i2 written :
  layout x -> inode_valid x n -> written_so_far x i x1 i1 written ->
  owned x2 (T i2) -> kept (fun _ => False) n x1 (T i1) x2 (T i2) -> i_size i2 = i_size i1 ->
  written_so_far x i x2 i2 written.
Proof.
  intros L Hn [O1 K1 E1 B1] O2 K2 E2. destruct (kp_image _ _ _ _ _ _ K1) as (m1 & Ex1 & G1). split.
  - exact O2.
  - apply (kept_trans _ n x _ x1 _ _ _ L K1). eapply kept_weaken; [|exact K2]. intros p [].
  - congruence.
  - intros p Hp. pose proof (kp_bytes _ _ _ _ _ _ K2 n p) as Kb. rewrite !with_inode_same in Kb.
    rewrite Kb; [exact (B1 p Hp) | rewrite Ex1; apply frame_inode_valid; assumption | lia | tauto].
Qed.

Lemma write_chunk_ok x i x1 i1 written chunk q bo :
  layout x -> inode_valid x n -> written_so_far x i x1 i1 written -> 0 <= written -> 0 < chunk -> written + chunk <= len ->
  0 <= q -> block_id_at x1 i1 q <> 0 -> 0 <= bo -> bo + chunk <= x_block_size x1 -> offset + written = q * x_block_size x1 + bo ->
  written_so_far x i
    (set_image x1 (mem_write (x_image x1) (block_id_at x1 i1 q * x_block_size x1 + bo)
                     (firstn (Z.to_nat chunk) (skipn (Z.to_nat written) bytes)))) i1 (written + chunk).
Proof.
  intros L Hn [O1 K1 E1 B1] Hw Hc Hwc Hq Hz Hbo Hbc Ho.
  destruct (kp_image _ _ _ _ _ _ K1) as (m1 & Ex1 & G1).
  assert (Hn1 : inode_valid x1 n) by (rewrite Ex1; apply frame_inode_valid; assumption).
  set (data := firstn _ (skipn _ bytes)).
  assert (Hdl : Z.of_nat (length data) = chunk) by (unfold data; rewrite length_firstn, length_skipn; lia).
  destruct (data_write_ok V n x1 i1 q bo data O1 Hn1 Hq Hz ltac:(lia) ltac:(lia)) as (O2 & K2 & B2).
  rewrite Hdl, <- Ho in K2, B2. split.
  - exact O2.
  - apply (kept_trans _ n x _ x1 _ _ _ L K1). eapply kept_weaken; [|exact K2]. unfold within. cbv beta. intros p Hp. lia.
  - exact E1.
  - intros p Hp. rewrite length_firstn in Hp. rewrite nth_firstn.
    destruct (Nat.ltb_spec (Z.to_nat (p - offset)) (Z.to_nat (written + chunk))); [|lia].
    destruct (Z.lt_ge_cases p (offset + written)) as [Hlt|Hge].
    + pose proof (kp_bytes _ _ _ _ _ _ K2 n p Hn1 ltac:(lia)) as Kb. rewrite !with_inode_same in Kb.
      rewrite Kb by lia. rewrite B1 by (rewrite length_firstn; lia). rewrite nth_firstn.
      destruct (Nat.ltb_spec (Z.to_nat (p - offset)) (Z.to_nat written)); [reflexivity | lia].
    + rewrite B2 by lia. unfold data. rewrite nth_firstn.
      destruct (Nat.ltb_spec (Z.to_nat (p - (offset + written))) (Z.to_nat chunk)); [|lia].
      rewrite nth_skipn. replace (Z.to_nat written + Z.to_nat (p - (offset + written)))%nat with (Z.to_nat (p - offset)) by lia.
      apply u8_id. eapply List.Forall_forall; [exact Hbytes|]. apply nth_In. lia.
Qed.

Lemma write_loop_ok x i fuel : forall x1 i1 written,
  layout x -> inode_valid x n -> offset + len <= max_blocks x * x_block_size x ->
  written_so_far x i x1 i1 written -> 0 <= written <= len ->
  (written < len -> (offset + written) mod x_block_size x + (len - written) <= Z.of_nat fuel * x_block_size x) ->
  exists r x2 i2, write_bytes_loop fuel x1 i1 bytes len offset written = Ret (r, x2)
  /\ match r with
     | Some f => f = i2 /\ written_so_far x i x2 i2 len
     | None => sb_free_blocks_count (x_image x2) <= 1 /\ exists w, written_so_far x i x2 i2 w
     end.
Proof.
  induction fuel as [|fuel IH]; intros x1 i1 written L Hn Hmax Wr Hw Hf; pose proof (bs_range x L) as Hbs;
    pose proof (Z.mod_pos_bound (offset + written) (x_block_size x) ltac:(lia)) as Hm;
    cbn [write_bytes_loop]; destruct (Z.ltb_spec written len) as [Hlt|Hge];
    try (exists (Some i1), x1, i1; replace written with len in Wr by lia; auto);
    specialize (Hf Hlt); [lia|].
  destruct (kp_image _ _ _ _ _ _ (wr_kept _ _ _ _ _ Wr)) as (m1 & Ex1 & G1).
  assert (Ebs : x_block_size x1 = x_block_size x) by (rewrite Ex1; reflexivity). rewrite Ebs.
  assert (Emb : max_blocks x1 = max_blocks x) by (rewrite Ex1; reflexivity).
  assert (Hn1 : inode_valid x1 n) by (rewrite Ex1; apply frame_inode_valid; assumption).
  pose proof (max_size_small x L) as Hmx. rewrite u32_small_div by lia.
  pose proof (size_block x (offset + len) (offset + written) L ltac:(lia) Hmax) as Hq.
  pose proof (Z.div_mod (offset + written) (x_block_size x) ltac:(lia)) as Hdm.
  set (q := (offset + written) / x_block_size x) in *. set (bo := (offset + written) mod x_block_size x) in *.
  set (chunk := if len - written <? x_block_size x - bo then len - written else x_block_size x - bo).
  assert (Hck : 0 < chunk <= len - written /\ bo + chunk <= x_block_size x /\ (chunk = x_block_size x - bo \/ chunk = len - written))
    by (unfold chunk; destruct (Z.ltb_spec (len - written) (x_block_size x - bo)); lia).
  destruct (ensure_ok (fun _ => False) V n x1 i1 q (wr_owned _ _ _ _ _ Wr) Hn1 ltac:(rewrite Emb; exact Hq))
    as (r & i2 & x2 & -> & O2 & K2 & E2 & R2). cbn [mbind res_bind].
  destruct (kp_image _ _ _ _ _ _ K2) as (m2 & Ex2 & G2).
  assert (Wr2 : written_so_far x i x2 i2 written)
    by (apply (written_step x i x1 i1); assumption).
  destruct r as [b|]; [|exists None, x2, i2; eauto].
  destruct R2 as [Hb Eb]. rewrite <- Eb in Hb |- *.
  pose proof (owned_layout x2 _ O2) as L2. pose proof (owned_readable x2 _ O2 n) as Rd.
  assert (Hn2 : inode_valid x2 n) by (rewrite Ex2; apply frame_inode_valid; assumption).
  assert (Ebs2 : x_block_size x2 = x_block_size x) by (rewrite Ex2; exact Ebs).
  assert (Hv : block_valid x2 (block_id_at x2 i2 q)).
  { pose proof (owned_block_slot x2 _ O2 n q Hn2 ltac:(lia)) as Sl. rewrite with_inode_same in Sl.
    destruct (Sl Hb) as (_ & Ht & Es). pose proof (ow_block x2 _ O2 n _ Ht) as Bv. rewrite with_inode_same, <- Es in Bv. apply Bv, Hb. }
  rewrite Ebs2. fold chunk. clearbody chunk. rewrite (block_ptr_valid x2 L2) by (auto; lia).
  assert (Hnext : written + chunk < len ->
      (offset + (written + chunk)) mod x_block_size x + (len - (written + chunk)) <= Z.of_nat fuel * x_block_size x).
  { intros Hmore. destruct Hck as (_ & _ & [Ec | Ec]); [|lia].
    replace (offset + (written + chunk)) with ((q + 1) * x_block_size x) by lia. rewrite Z.mod_mul by lia. lia. }
  apply IH; auto; [|lia].
  apply (write_chunk_ok x i x2 i2 written chunk q bo); auto; try lia.
Qed.
End Loop.

(** ** From one file system to the next *)

(** The file system of [x'] is that of [x] but for the inode [n], which has kept
    its mode; every byte of every file is the same, but those of [n] at [P]. *)
Record changed (P : Z -> Prop) (n : Z) (x x' : ext2) : Prop := {
  ch_image : exists m', x' = set_image x m' /\ same_geom x m';
  ch_bitmap : forall g a, 0 <= g < n_groups (x_image x) -> in_region x (RInodeBitmap g) a -> u8 (x_image x' a) = u8 (x_image x a);
  ch_other : forall k, inode_valid x k -> k <> n -> disk x' k = disk x k;
  ch_mode : i_mode (disk x' n) = i_mode (disk x n);
  ch_blocks : forall k q, inode_valid x k -> k <> n -> 0 <= q -> block_id_at x' (disk x' k) q = block_id_at x (disk x k) q;
  ch_bytes : forall k p, inode_valid x k -> 0 <= p -> (k = n -> ~ P p) ->
    file_byte x' (disk x' k) p = file_byte x (disk x k) p
}.

Lemma changed_trans P n x x1 x2 : layout x -> changed P n x x1 -> changed P n x1 x2 -> changed P n x x2.
Proof.
  intros L [(m1 & -> & G1) Z1 O1 M1 I1 B1] [(m2 & -> & G2) Z2 O2 M2 I2 B2].
  assert (Hv : forall k, inode_valid x k -> inode_valid (set_image x m1) k) by (intros; apply frame_inode_valid; assumption).
  split.
  - exists m2. split; [reflexivity | exact (same_geom_trans x m1 m2 G1 G2)].
  - intros g a Hg Ha. rewrite (Z2 g a), (Z1 g a); auto; [change (x_image (set_image x m1)) with m1; rewrite (frame_n_groups x m1 G1); exact Hg|].
    apply (frame_in_region x m1 G1 (RInodeBitmap g)); assumption.
  - intros k Hk Hne. rewrite O2, O1 by auto. reflexivity.
  - rewrite M2, M1. reflexivity.
  - intros k q Hk Hne Hq. rewrite I2, I1 by auto. reflexivity.
  - intros k p Hk Hp HP. rewrite B2, B1 by auto. reflexivity.
Qed.

Lemma changed_weaken (P P' : Z -> Prop) n x x' : (forall p, P p -> P' p) -> changed P n x x' -> changed P' n x x'.
Proof. intros HP [I Z O M Bl B]. split; auto. intros k p Hk Hp Hn. apply B; auto. intros E Hc. apply (Hn E), HP, Hc. Qed.

(** And the blocks that [n] had it still has. *)
Record grown (P : Z -> Prop) (n : Z) (x x' : ext2) : Prop := {
  gr_changed : changed P n x x';
  gr_blocks : forall q, 0 <= q -> block_id_at x (disk x n) q <> 0 -> block_id_at x' (disk x' n) q = block_id_at x (disk x n) q
}.

Lemma changed_refl P n x : changed P n x x.
Proof. split; auto. exists (x_image x). rewrite set_image_id. split; [reflexivity | intros a _; reflexivity]. Qed.

Lemma grown_refl P n x : grown P n x x.
Proof. split; auto using changed_refl. Qed.

Lemma grown_trans P n x x1 x2 : layout x -> grown P n x x1 -> grown P n x1 x2 -> grown P n x x2.
Proof.
  intros L [C1 B1] [C2 B2]. split; [exact (changed_trans P n x x1 x2 L C1 C2)|]. intros q Hq Hz.
  rewrite <- (B1 q Hq Hz). apply B2; [exact Hq|]. rewrite (B1 q Hq Hz). exact Hz.
Qed.

Lemma grown_weaken (P P' : Z -> Prop) n x x' : (forall p, P p -> P' p) -> grown P n x x' -> grown P' n x x'.
Proof. intros HP [C B]. split; [exact (changed_weaken P P' n x x' HP C) | exact B]. Qed.

(** Two steps one after the other. *)
Lemma both_grown P P' n x x1 x2 :
  layout x -> grown P n x x1 -> grown P' n x1 x2 -> grown (fun p => P p \/ P' p) n x x2.
Proof.
  intros L C1 C2. apply (grown_trans _ n x x1 x2 L).
  - eapply grown_weaken; [|exact C1]. auto.
  - eapply grown_weaken; [|exact C2]. auto.
Qed.

Section Commit.
Context (P : Z -> Prop) (n : Z) (x : ext2) (Hn : inode_valid x n).
Abbreviation T i := (with_inode (disk x) n i).

Lemma moved_disk x1 V V1 k : layout x -> moved P n x V x1 V1 -> inode_valid x k -> disk x1 k = disk x k.
Proof.
  intros L K Hk. destruct (mv_image _ _ _ _ _ _ K) as (m1 & Ex & G). unfold disk. rewrite Ex.
  rewrite frame_inode_pos by assumption. apply inode_at_ext. intros a Ha.
  pose proof (mv_table _ _ _ _ _ _ K a (or_introl (ex_intro _ k (conj Hk Ha)))) as E. rewrite Ex in E. exact E.
Qed.

Lemma disk_self : owned x (disk x) -> owned x (T (disk x n)).
Proof.
  intros O. apply (owned_ext x (disk x) _ O). intros k _. unfold with_inode. destruct (Z.eqb_spec k n) as [->|]; reflexivity.
Qed.

(** Writing the inode that the code holds. *)
Lemma commit_ok x1 i :
  owned x (disk x) -> owned x1 (T i) -> moved P n x (T (disk x n)) x1 (T i) ->
  exists x2, write_inode x1 n i = Ret (true, x2) /\ owned x2 (disk x2) /\ disk x2 n = i /\ changed P n x x2
  /\ (forall p, 0 <= p -> file_byte x2 i p = file_byte x1 i p)
  /\ (forall q, 0 <= q -> block_id_at x2 i q = block_id_at x1 i q) /\ same_blocks x1 x2.
Proof.
  intros O O1 K. pose proof (owned_layout x _ O) as L. pose proof (owned_layout x1 _ O1) as L1.
  destruct (mv_image _ _ _ _ _ _ K) as (m1 & Ex & G1).
  assert (Hn1 : inode_valid x1 n) by (rewrite Ex; apply frame_inode_valid; assumption).
  pose proof (ow_wf x1 _ O1 n Hn1) as W. rewrite with_inode_same in W.
  destruct (write_inode_ok x1 n i (ow_ok x1 _ O1) W Hn1) as (m2 & E & Ei & F & Meta).
  set (x2 := set_image x1 m2). pose proof (keep_geom x1 m2 Meta) as G2. exists x2.
  assert (Q : stable x1 (T i) m2).
  { assert (Kp : forall k s, slot_of x1 k s -> slot x1 (T i k) s <> 0 -> block_kept x1 m2 (slot x1 (T i k) s)).
    { intros k s Hs Hz a Ha. apply F. intros Hc. destruct (ow_block x1 _ O1 k s Hs Hz) as (_ & _ & D).
      exact (inode_not_block x1 n _ a L1 D Hn1 Hc Ha). }
    split; [exact (keep_ok x1 m2 Meta (ow_ok x1 _ O1)) | exact G2 | |].
    - intros k s Hs Hz. destruct (ow_block x1 _ O1 k s Hs Hz) as (Hv & Hu & _).
      rewrite (keep_used x1 m2 Meta (ow_ok x1 _ O1)) by exact Hv. exact Hu.
    - intros k Hk Hz. pose proof (n_slots_range x1 L1). apply (Kp k 12); [split; [exact Hk | lia] | exact Hz]. }
  assert (By : forall k p, inode_valid x1 k -> 0 <= p -> file_byte x2 (T i k) p = file_byte x1 (T i k) p).
  { intros k p Hk Hp. apply (stable_byte x1 _ m2 O1 Q k p Hk Hp). cbv zeta. intros Hs Hz Ha. apply F. intros Hc.
    destruct (ow_block x1 _ O1 k _ Hs Hz) as (_ & _ & D). exact (inode_not_block x1 n _ _ L1 D Hn1 Hc Ha). }
  assert (D2 : forall k, inode_valid x1 k -> disk x2 k = T i k).
  { intros k Hk. change (disk x2 k) with (inode_at m2 (inode_pos x2 k)). unfold x2. rewrite frame_inode_pos by assumption.
    destruct (Z.eq_dec k n) as [->|Hne]; [rewrite with_inode_same; exact Ei|]. rewrite with_inode_other by exact Hne.
    assert (Hkx : inode_valid x k) by (rewrite Ex in Hk; apply (frame_inode_valid x m1 k G1); exact Hk).
    rewrite <- (moved_disk x1 _ _ k L K Hkx). apply inode_at_ext. intros a Ha. apply F. intros Hc.
    exact (inode_disjoint x1 L1 k n a Hk Hn1 Hne Ha Hc). }
  assert (Hv : forall k, inode_valid x k -> inode_valid x1 k) by (intros k Hk; rewrite Ex; apply frame_inode_valid; assumption).
  split; [exact E|]. split; [|split; [|split; [|split; [|split]]]].
  - apply (owned_ext x2 (T i)); [exact (stable_owned x1 _ m2 O1 Q)|]. intros k Hk. apply D2. apply (frame_inode_valid x1 m2 k G2). exact Hk.
  - rewrite (D2 n Hn1). apply with_inode_same.
  - split.
    + exists m2. unfold x2. rewrite Ex. split; [reflexivity|]. apply (same_geom_trans x m1 m2 G1). rewrite <- Ex. exact G2.
    + intros g a Hg Ha. transitivity (u8 (x_image x1 a)); [|apply (mv_table _ _ _ _ _ _ K); right; eauto].
      apply F. intros Hc.
      assert (Hg1 : 0 <= g < n_groups (x_image x1)) by (rewrite Ex; change (x_image (set_image x m1)) with m1; rewrite (frame_n_groups x m1 G1); exact Hg).
      assert (Ha1 : in_region x1 (RInodeBitmap g) a) by (rewrite Ex; apply (frame_in_region x m1 G1 (RInodeBitmap g)); assumption).
      pose proof (region_unique x1 L1 (RInodeBitmap g) (RInodeTable ((n - 1) / sb_inodes_per_group (x_image x1))) a Hg1 (inode_group x1 L1 n Hn1) Ha1 (inode_in_table x1 L1 n a Hn1 Hc)) as Er. discriminate Er.
    + intros k Hk Hne. rewrite (D2 k (Hv k Hk)). apply with_inode_other. exact Hne.
    + rewrite (D2 n Hn1). pose proof (mv_mode _ _ _ _ _ _ K) as Em. rewrite !with_inode_same in *. exact Em.
    + intros k q Hk Hne Hq. rewrite (D2 k (Hv k Hk)).
      transitivity (block_id_at x1 (T i k) q); [exact (stable_block_id x1 _ m2 O1 Q k q (Hv k Hk) Hq)|].
      rewrite (moved_block_id _ _ _ _ _ _ k q (disk_self O) O1 K Hk Hne Hq), with_inode_other by exact Hne. reflexivity.
    + intros k p Hk Hp HP. rewrite (D2 k (Hv k Hk)), By by auto. rewrite (mv_bytes _ _ _ _ _ _ K k p Hk Hp HP).
      unfold with_inode. destruct (Z.eqb_spec k n) as [->|]; reflexivity.
  - intros p Hp. pose proof (By n p Hn1 Hp) as Eb. rewrite with_inode_same in Eb. exact Eb.
  - intros q Hq. pose proof (stable_block_id x1 _ m2 O1 Q n q Hn1 Hq) as Eb. rewrite with_inode_same in Eb. exact Eb.
  - intros b Hb. exact (keep_used x1 m2 Meta (ow_ok x1 _ O1) b Hb).
Qed.

Lemma commit_grown x1 i :
  owned x (disk x) -> owned x1 (T i) -> kept P n x (T (disk x n)) x1 (T i) ->
  exists x2, write_inode x1 n i = Ret (true, x2) /\ owned x2 (disk x2) /\ disk x2 n = i /\ grown P n x x2
  /\ (forall p, 0 <= p -> file_byte x2 i p = file_byte x1 i p)
  /\ (forall q, 0 <= q -> block_id_at x2 i q = block_id_at x1 i q).
Proof.
  intros O O1 K. destruct (commit_ok x1 i O O1 (kp_moved _ _ _ _ _ _ K)) as (x2 & E & O2 & D & C & B & I & _).
  exists x2. repeat (split; [assumption|]). split; [|auto]. split; [exact C|]. intros q Hq Hz. rewrite D, I by exact Hq.
  pose proof (kept_block_id P n x _ x1 _ q (disk_self O) O1 K Hn Hq) as Kb. rewrite !with_inode_same in Kb. exact (Kb Hz).
Qed.

(** Giving the inode up. *)
Lemma abandon_ok x1 i :
  owned x (disk x) -> owned x1 (T i) -> kept P n x (T (disk x n)) x1 (T i) ->
  owned x1 (disk x1) /\ grown P n x x1 /\ disk x1 n = disk x n.
Proof.
  intros O O1 K. pose proof (owned_layout x _ O) as L. pose proof (disk_self O) as O0.
  assert (T0 : forall k, T (disk x n) k = disk x k) by (intros k; unfold with_inode; destruct (Z.eqb_spec k n) as [->|]; reflexivity).
  destruct (kp_image _ _ _ _ _ _ K) as (m1 & Ex & G1).
  assert (D1 : forall k, inode_valid x k -> disk x1 k = disk x k) by (intros k Hk; exact (moved_disk x1 _ _ k L (kp_moved _ _ _ _ _ _ K) Hk)).
  split; [|split; [|exact (D1 n Hn)]].
  - apply (owned_ext x1 (T (disk x n))); [exact (revert_owned P n x x1 _ _ O0 O1 K Hn)|]. intros k Hk.
    rewrite T0. apply D1. rewrite Ex in Hk. apply (frame_inode_valid x m1 k G1). exact Hk.
  - split; [split|].
    + eauto.
    + intros g a Hg Ha. apply (mv_table _ _ _ _ _ _ (kp_moved _ _ _ _ _ _ K)). right. eauto.
    + intros k Hk _. exact (D1 k Hk).
    + rewrite (D1 n Hn). reflexivity.
    + intros k q Hk Hne Hq. rewrite (D1 k Hk), <- (T0 k).
      rewrite <- (moved_block_id _ _ _ _ _ _ k q O0 O1 (kp_moved _ _ _ _ _ _ K) Hk Hne Hq), !with_inode_other by exact Hne. reflexivity.
    + intros k p Hk Hp HP. rewrite (D1 k Hk), <- (T0 k). exact (revert_byte P n x x1 _ _ O0 O1 K k p Hn Hk Hp HP).
    + intros q Hq Hz. rewrite (D1 n Hn). pose proof (revert_block_id P n x x1 _ _ O0 O1 K q Hn Hq) as Rb.
      rewrite with_inode_same in Rb. exact (Rb Hz).
Qed.
End Commit.

(** ** Growing a file *)

(** The number of blocks that [size] bytes take. *)
Definition blocks_of (x : ext2) (size : Z) : Z := (size + x_block_size x - 1) / x_block_size x.

(** The last block of the file is there when it is in use in part. *)
Definition tail_present (x : ext2) (i : ext2_inode) : Prop :=
  i_size i mod x_block_size x <> 0 -> block_id_at x i (i_size i / x_block_size x) <> 0.

Lemma blocks_of_range x size :
  layout x -> 0 <= size <= max_blocks x * x_block_size x ->
  0 <= blocks_of x size <= max_blocks x /\ u32 (blocks_of x size) = blocks_of x size.
Proof.
  intros L Hs. pose proof (bs_range x L) as Hbs. pose proof (max_size_small x L) as Hm.
  assert (H : 0 <= blocks_of x size <= max_blocks x).
  { unfold blocks_of. split; [apply Z.div_pos; lia|].
    apply Z.lt_succ_r, Z.div_lt_upper_bound; [lia|]. lia. }
  split; [exact H|]. apply u32_id. split; [lia|].
  apply (Z.le_lt_trans _ (max_blocks x)); [lia|]. assert (max_blocks x * 1 <= max_blocks x * x_block_size x) by (apply Z.mul_le_mono_nonneg_l; lia). lia.
Qed.

Section Grow.
Context (n : Z) (x : ext2) (Hn : inode_valid x n) (O : owned x (disk x)).
Abbreviation T i := (with_inode (disk x) n i).
Abbreviation i := (disk x n).

(** The loop of [resize_inode_data] that provides the new blocks. *)
Lemma grow_loop_ok lo hi :
  0 <= lo <= hi -> hi <= max_blocks x ->
  exists ok i1 x1,
    (mrange lo hi 1 (fun q '(inode, x) =>
       ensure_file_block x inode q ≫= fun '(b, inode, x) =>
       Ret match b with None => Break (inode, x) | Some _ => Cont (inode, x) end) (i, x) ≫= fun c =>
     Ret match c with Cont (inode, x) => (true, inode, x) | Break (inode, x) => (false, inode, x) end)
    = Ret (ok, i1, x1)
  /\ owned x1 (T i1) /\ kept (fun _ => False) n x (T i) x1 (T i1) /\ i_size i1 = i_size i
  /\ (if (ok : bool) then forall q, lo <= q < hi -> block_id_at x1 i1 q <> 0 else sb_free_blocks_count (x_image x1) <= 1).
Proof.
  intros Hlo Hhi. pose proof (owned_layout x _ O) as L.
  set (J := fun (s : ext2_inode * ext2) => owned (snd s) (T (fst s)) /\ kept (fun _ => False) n x (T i) (snd s) (T (fst s)) /\ i_size (fst s) = i_size i).
  set (I := fun k s => J s /\ forall q, lo <= q < k -> block_id_at (snd s) (fst s) q <> 0).
  unfold mrange, trips. replace ((hi - lo + 1 - 1) / 1) with (hi - lo) by (rewrite Z.div_1_r; lia).
  destruct (mfor_ind I
    (fun c => match c with Cont s => I hi s | Break s => J s /\ sb_free_blocks_count (x_image (snd s)) <= 1 end)
    (Z.to_nat (hi - lo)) lo 1
    (fun q '(inode, x) =>
       ensure_file_block x inode q ≫= fun '(b, inode, x) =>
       Ret match b with None => Break (inode, x) | Some _ => Cont (inode, x) end) (i, x)) as (c & -> & Hc).
  - split; [|intros; lia]. split; [exact (disk_self n x O)|]. split; [apply kept_refl | reflexivity].
  - intros k [i1 x1] Hk ((O1 & K1 & E1) & B1). cbn [fst snd] in *.
    destruct (kp_image _ _ _ _ _ _ K1) as (m1 & Ex & G).
    assert (Hn1 : inode_valid x1 n) by (rewrite Ex; apply frame_inode_valid; assumption).
    destruct (ensure_ok (fun _ => False) (disk x) n x1 i1 (lo + k * 1) O1 Hn1 ltac:(rewrite Ex; change (max_blocks (set_image x m1)) with (max_blocks x); lia))
      as (r & i2 & x2 & -> & O2 & K2 & E2 & R2). cbn [mbind res_bind].
    assert (HJ : J (i2, x2)).
    { split; [exact O2|]. split; [exact (kept_trans _ n x _ x1 _ x2 _ L K1 K2) | cbn [fst]; congruence]. }
    destruct r as [b|]; (eexists; split; [reflexivity|]); [|exact (conj HJ R2)].
    split; [exact HJ|]. cbn [fst snd]. intros q Hq. destruct (Z.eq_dec q (lo + k * 1)) as [->|Hne]; [destruct R2; congruence|].
    pose proof (kept_block_id _ n x1 _ x2 _ q O1 O2 K2 Hn1 ltac:(lia)) as Kb. rewrite !with_inode_same in Kb.
    rewrite Kb; apply B1; lia.
  - intros s Hs. replace (lo + Z.of_nat (Z.to_nat (hi - lo)) * 1) with hi in Hs by lia. exact Hs.
  - cbn [mbind res_bind]. destruct c as [[i1 x1] | [i1 x1]]; destruct Hc as [(O1 & K1 & E1) Hf];
      eexists _, i1, x1; (split; [reflexivity|]); cbn [fst snd] in *; auto.
Qed.

(** The end of the last block is cleared when the file grows. *)
Definition clear_tail (x1 : ext2) (i1 : ext2_inode) (old new : Z) : ext2 :=
  if (old <? new) && negb (old mod x_block_size x =? 0) then
    match block_ptr x1 (block_id_at x1 i1 (u32 (old / x_block_size x))) (old mod x_block_size x)
            (x_block_size x - old mod x_block_size x) with
    | Some tail => set_image x1 (mem_fill (x_image x1) tail 0 (Z.to_nat (x_block_size x - old mod x_block_size x)))
    | None => x1
    end
  else x1.

(** The bytes from [old] on in its block, for a file that grows, and those of
    them that growing clears. *)
Definition rest_of_block (old new p : Z) : Prop := old < new /\ old <= p /\ p / x_block_size x = old / x_block_size x.

Definition cleared (old p : Z) : bool := (p / x_block_size x =? old / x_block_size x) && negb (old mod x_block_size x =? 0).

Lemma clear_tail_ok x1 i1 new :
  owned x1 (T i1) -> kept (fun _ => False) n x (T i) x1 (T i1) -> tail_present x i -> new <= max_blocks x * x_block_size x ->
  let x2 := clear_tail x1 i1 (i_size i) new in
  owned x2 (T i1) /\ kept (rest_of_block (i_size i) new) n x1 (T i1) x2 (T i1)
  /\ (forall p, i_size i <= p < new -> file_byte x2 i1 p = if cleared (i_size i) p then 0 else file_byte x1 i1 p).
Proof.
  intros O1 K1 Tail Hmax x2. pose proof (owned_layout x _ O) as L. pose proof (bs_range x L) as Hbs.
  destruct (kp_image _ _ _ _ _ _ K1) as (m1 & Ex & G1).
  assert (Hn1 : inode_valid x1 n) by (rewrite Ex; apply frame_inode_valid; assumption).
  assert (Ebs : x_block_size x1 = x_block_size x) by (rewrite Ex; reflexivity).
  assert (Hsz : 0 <= i_size i < 4294967296) by apply inode_at_size.
  pose proof (max_size_small x L) as Hms. unfold x2, clear_tail, cleared.
  destruct (Z.ltb_spec (i_size i) new) as [Hlt|Hge]; cbn [andb].
  2: { split; [exact O1|]. split; [apply kept_refl|]. intros; lia. }
  set (q := i_size i / x_block_size x) in *. set (bo := i_size i mod x_block_size x) in *.
  pose proof (Z.mod_pos_bound (i_size i) (x_block_size x) ltac:(lia)) as Hbo. fold bo in Hbo.
  pose proof (Z.div_mod (i_size i) (x_block_size x) ltac:(lia)) as Hdm. fold q bo in Hdm.
  destruct (Z.eqb_spec bo 0) as [Hz|Hz]; cbn [negb].
  { split; [exact O1|]. split; [apply kept_refl|]. intros p _. rewrite andb_false_r. reflexivity. }
  assert (Hq : 0 <= q) by (apply Z.div_pos; lia).
  unfold q at 1 2 3. rewrite (u32_small_div (i_size i)) by lia. fold q.
  pose proof (kept_block_id _ n x (T i) x1 (T i1) q (disk_self n x O) O1 K1 Hn Hq) as Eb. rewrite !with_inode_same in Eb.
  specialize (Eb (Tail Hz)). assert (Hb : block_id_at x1 i1 q <> 0) by (rewrite Eb; exact (Tail Hz)).
  pose proof (owned_block_slot x1 _ O1 n q Hn1 Hq) as Sl. rewrite with_inode_same in Sl. destruct (Sl Hb) as (_ & Ht & Es).
  pose proof (ow_block x1 _ O1 n _ Ht) as Bv. rewrite with_inode_same, <- Es in Bv. destruct (Bv Hb) as [Hv _].
  rewrite (block_ptr_valid x1 (owned_layout x1 _ O1)) by (auto; lia).
  set (zeros := repeat 0 (Z.to_nat (x_block_size x - bo))).
  assert (Hlen : Z.of_nat (length zeros) = x_block_size x - bo) by (unfold zeros; rewrite repeat_length; lia).
  destruct (data_write_ok (disk x) n x1 i1 q bo zeros O1 Hn1 Hq Hb ltac:(lia) ltac:(lia)) as (O2 & K2 & B2).
  cbv zeta in O2, K2, B2. rewrite Hlen in K2, B2. rewrite Ebs in O2, K2, B2 |- *. rewrite (Z.mul_comm q), <- Hdm in K2, B2.
  split; [exact O2|]. split.
  { eapply kept_weaken; [|exact K2]. cbv beta. intros p Hp. split; [exact Hlt|]. split; [lia|]. fold q. symmetry.
    apply (Z.div_unique _ _ _ (p - q * x_block_size x)); lia. }
  intros p Hp. assert (Hpq : 0 <= p) by lia. pose proof (Z.div_mod p (x_block_size x) ltac:(lia)) as Hdp.
  pose proof (Z.mod_pos_bound p (x_block_size x) ltac:(lia)) as Hmp. destruct (Z.eqb_spec (p / x_block_size x) q) as [Eq|Hne]; cbn [andb].
  - rewrite B2 by (rewrite Eq in Hdp; lia). unfold zeros. rewrite nth_repeat. reflexivity.
  - pose proof (kp_bytes _ _ _ _ _ _ K2 n p Hn1 Hpq) as Kb. rewrite !with_inode_same in Kb. apply Kb. intros _ Hc.
    apply Hne. symmetry. apply (Z.div_unique _ _ _ (p - q * x_block_size x)); lia.
Qed.
(** [resize_inode_data] to a size that is not smaller. *)
Lemma resize_grow_ok new :
  i_size i <= new -> tail_present x i ->
  exists ok i' x', resize_inode_data x i n new = Ret (ok, i', x') /\ owned x' (disk x')
  /\ if (ok : bool)
     then grown (rest_of_block (i_size i) new) n x x' /\ disk x' n = i' /\ i_size i' = new /\ new <= max_blocks x * x_block_size x
          /\ (forall q, blocks_of x (i_size i) <= q < blocks_of x new -> block_id_at x' i' q <> 0)
          /\ (forall p, i_size i <= p < new -> file_byte x' i' p = if cleared (i_size i) p then 0 else file_byte x i p)
     else grown (fun _ => False) n x x' /\ disk x' n = i
          /\ (max_blocks x * x_block_size x < new \/ sb_free_blocks_count (x_image x') <= 1).
Proof.
  intros Hnew Tail. pose proof (owned_layout x _ O) as L. pose proof (bs_range x L) as Hbs.
  assert (Hsz : 0 <= i_size i < 4294967296) by apply inode_at_size. pose proof (max_size_small x L) as Hms.
  unfold resize_inode_data, inode_size_bytes. fold (max_blocks x).
  destruct (Z.ltb_spec (max_blocks x * x_block_size x) new) as [Hbig|Hfit].
  { exists false, i, x. split; [reflexivity|]. split; [exact O|]. split; [apply grown_refl | auto]. }
  fold (blocks_of x (i_size i)). fold (blocks_of x new).
  destruct (blocks_of_range x (i_size i) L ltac:(lia)) as [Hob ->]. destruct (blocks_of_range x new L ltac:(lia)) as [Hnb ->].
  assert (Hle : blocks_of x (i_size i) <= blocks_of x new) by (apply Z.div_le_mono; lia).
  destruct (grow_loop_ok (blocks_of x (i_size i)) (blocks_of x new) ltac:(lia) ltac:(lia)) as (ok & i1 & x1 & E & O1 & K1 & E1 & R1).
  assert (C : (if blocks_of x (i_size i) <? blocks_of x new
      then mrange (blocks_of x (i_size i)) (blocks_of x new) 1 (fun q '(inode, x) =>
         ensure_file_block x inode q ≫= fun '(b, inode, x) =>
         Ret match b with None => Break (inode, x) | Some _ => Cont (inode, x) end) (i, x) ≫= fun c =>
       Ret match c with Cont (inode, x) => (true, inode, x) | Break (inode, x) => (false, inode, x) end
      else if blocks_of x new <? blocks_of x (i_size i) then free_inode_blocks x i (blocks_of x new) else Ret (true, i, x))
      = Ret (ok, i1, x1)).
  { destruct (Z.ltb_spec (blocks_of x (i_size i)) (blocks_of x new)); [exact E|].
    destruct (Z.ltb_spec (blocks_of x new) (blocks_of x (i_size i))); [lia|]. rewrite <- E. unfold mrange, trips.
    replace (blocks_of x new - blocks_of x (i_size i) + 1 - 1) with 0 by lia. reflexivity. }
  rewrite C. cbn [mbind res_bind]. clear C E. destruct ok; cbn [negb].
  2: { destruct (abandon_ok _ n x Hn x1 i1 O O1 K1) as (O2 & Ch & D). exists false, i1, x1. split; [reflexivity|]. split; [exact O2|].
       split; [exact Ch | auto]. }
  destruct (clear_tail_ok x1 i1 new O1 K1 Tail Hfit) as (O2 & K2 & B2). cbv zeta in O2, K2, B2.
  destruct (kp_image _ _ _ _ _ _ K1) as (m1 & Ex1 & G1).
  assert (Hn1 : inode_valid x1 n) by (rewrite Ex1; apply frame_inode_valid; assumption).
  set (x2 := clear_tail x1 i1 (i_size i) new) in *.
  rewrite (u32_id new) by lia.
  match goal with |- context [write_inode ?y n (update_inode_block_count ?y ?j)] => change y with x2; set (i2 := update_inode_block_count x2 j) end.
  pose proof (kept_trans _ n x _ x1 _ x2 _ L (kept_weaken _ (rest_of_block (i_size i) new) _ _ _ _ _ (fun p (f : False) => match f with end) K1) K2) as K12.
  destruct (kp_image _ _ _ _ _ _ K12) as (m2 & Ex2 & G2).
  assert (Hn2 : inode_valid x2 n) by (rewrite Ex2; apply frame_inode_valid; assumption).
  assert (W2 : inode_wf i2).
  { pose proof (ow_wf x2 _ O2 n Hn2) as W. rewrite with_inode_same in W.
    exact (update_count_wf x2 _ (set_i_size_wf i1 new W ltac:(unfold is_u32; lia))). }
  pose proof (owned_fields (disk x) n x2 i1 i2 O2 eq_refl W2) as O3.
  pose proof (kept_trans _ n x _ x2 _ x2 _ L K12 (kept_fields _ (disk x) n x2 i1 i2 eq_refl eq_refl)) as K3.
  destruct (commit_grown _ n x Hn x2 i2 O O3 K3) as (x3 & -> & O4 & D & Ch & B3 & I3). cbn [mbind res_bind].
  exists true, i2, x3. split; [reflexivity|]. split; [exact O4|]. split; [exact Ch|].
  split; [exact D|]. split; [reflexivity|]. split; [exact Hfit|]. split.
  { intros q Hq. rewrite I3 by lia. change (block_id_at x2 i2 q) with (block_id_at x2 i1 q).
    pose proof (kept_block_id _ n x1 _ x2 _ q O1 O2 K2 Hn1 ltac:(lia)) as Kb. rewrite !with_inode_same in Kb.
    rewrite Kb; apply R1; lia. }
  intros p Hp. rewrite B3 by lia.
  rewrite (file_byte_blocks x2 i1 i2 p eq_refl), (B2 p Hp). destruct (cleared (i_size i) p); [reflexivity|].
  pose proof (kp_bytes _ _ _ _ _ _ K1 n p Hn ltac:(lia)) as Kb. rewrite !with_inode_same in Kb. apply Kb. tauto.
Qed.

(** ** Shrinking a file *)

Lemma blocks_of_u32 size : 0 <= size < 4294967296 -> u32 (blocks_of x size) = blocks_of x size /\ 0 <= blocks_of x size.
Proof.
  intros Hs. pose proof (bs_range x (owned_layout x _ O)) as Hbs. unfold blocks_of.
  assert (H : 0 <= (size + x_block_size x - 1) / x_block_size x < 4294967296).
  { split; [apply Z.div_pos; lia | apply Z.div_lt_upper_bound; nia]. }
  split; [apply u32_id|]; lia.
Qed.

(** The bytes of blocks that go away. *)
Definition past_blocks (new p : Z) : Prop := blocks_of x new <= p / x_block_size x /\ blocks_of x new < blocks_of x (i_size i).

(** [resize_inode_data] to a smaller size. *)
Lemma resize_shrink_ok new :
  0 <= new < i_size i -> new <= max_blocks x * x_block_size x ->
  exists i' x', resize_inode_data x i n new = Ret (true, i', x') /\ owned x' (disk x')
  /\ changed (past_blocks new) n x x' /\ disk x' n = i' /\ i_size i' = new
  /\ (forall q, 0 <= q < blocks_of x new -> block_id_at x' i' q = block_id_at x i q)
  /\ (blocks_of x new < blocks_of x (i_size i) -> forall q, blocks_of x new <= q -> block_id_at x' i' q = 0).
Proof.
  intros Hnew Hfit. pose proof (owned_layout x _ O) as L. pose proof (bs_range x L) as Hbs.
  assert (Hsz : 0 <= i_size i < 4294967296) by apply inode_at_size.
  unfold resize_inode_data, inode_size_bytes. fold (max_blocks x).
  destruct (Z.ltb_spec (max_blocks x * x_block_size x) new); [lia|].
  fold (blocks_of x (i_size i)). fold (blocks_of x new).
  destruct (blocks_of_u32 (i_size i) Hsz) as [-> Hob]. destruct (blocks_of_u32 new ltac:(lia)) as [-> Hnb].
  assert (Hle : blocks_of x new <= blocks_of x (i_size i)) by (apply Z.div_le_mono; lia).
  destruct (Z.ltb_spec (blocks_of x (i_size i)) (blocks_of x new)); [lia|].
  destruct (blocks_of_range x new L ltac:(lia)) as [Hnr _].
  assert (St : exists i1 x1,
    (if blocks_of x new <? blocks_of x (i_size i) then free_inode_blocks x i (blocks_of x new) else Ret (true, i, x)) = Ret (true, i1, x1)
    /\ owned x1 (T i1) /\ moved (past_blocks new) n x (T i) x1 (T i1)
    /\ (forall q, 0 <= q < blocks_of x new -> block_id_at x1 i1 q = block_id_at x i q)
    /\ (blocks_of x new < blocks_of x (i_size i) -> forall q, blocks_of x new <= q -> block_id_at x1 i1 q = 0)).
  { destruct (Z.ltb_spec (blocks_of x new) (blocks_of x (i_size i))) as [Hlt|Hge].
    - destruct (free_inode_blocks_ok (disk x) n x i (blocks_of x new) L Hn Hnr (disk_self n x O)) as (i1 & x1 & E & [O1 M1 E1 B1 _ _] & Z1 & _).
      exists i1, x1. split; [exact E|]. split; [exact O1|].
      split; [eapply moved_weaken; [|exact M1]; cbv beta; unfold past_blocks; auto|]. split; [exact B1|]. intros _. exact Z1.
    - exists i, x. split; [reflexivity|]. split; [exact (disk_self n x O)|]. split; [apply moved_refl|]. split; [reflexivity | lia]. }
  destruct St as (i1 & x1 & -> & O1 & M1 & B1 & Z1). cbn [mbind res_bind negb].
  destruct (Z.ltb_spec (i_size i) new); [lia|]. cbn [andb]. rewrite (u32_id new) by lia.
  destruct (mv_image _ _ _ _ _ _ M1) as (m1 & Ex1 & G1).
  assert (Hn1 : inode_valid x1 n) by (rewrite Ex1; apply frame_inode_valid; assumption).
  set (i2 := update_inode_block_count x1 (set_i_size i1 new)).
  assert (W2 : inode_wf i2).
  { pose proof (ow_wf x1 _ O1 n Hn1) as W. rewrite with_inode_same in W.
    exact (update_count_wf x1 _ (set_i_size_wf i1 new W ltac:(unfold is_u32; lia))). }
  pose proof (owned_fields (disk x) n x1 i1 i2 O1 eq_refl W2) as O2.
  pose proof (moved_trans _ n x _ x1 _ x1 _ L M1 (kp_moved _ _ _ _ _ _ (kept_fields _ (disk x) n x1 i1 i2 eq_refl eq_refl))) as M2.
  destruct (commit_ok _ n x Hn x1 i2 O O2 M2) as (x3 & -> & O3 & D & Ch & B3 & I3 & _). cbn [mbind res_bind].
  exists i2, x3. split; [reflexivity|]. split; [exact O3|]. split; [exact Ch|]. split; [exact D|]. split; [reflexivity|].
  split; [intros q Hq; rewrite I3 by lia; exact (B1 q Hq) | intros Hlt q Hq; rewrite I3 by lia; exact (Z1 Hlt q Hq)].
Qed.
End Grow.
