(* ===== verification/Process.v ===== *)
(** * Processes and program loading (src/userspace/process.c)

    The process table, the loader that builds an address space from an ELF image
    and [sbrk]. The loader works on the page tables of Vmm.v: it allocates
    frames, fills them through the direct map and maps them in the new space.
    Creating a process from a file goes through the kernel heap (Heap.v) and the
    file-system interface (Fs.v). *)

From S2P Require Import Prelude Pmm Vmm Pages Heap Elf Fs.

Definition PROCESS_NAME_SIZE : Z := 32.
Definition USERSPACE_MAX_PROCESSES : Z := 8.

Inductive process_state : Type :=
  | PROCESS_EMPTY | PROCESS_NEW | PROCESS_READY | PROCESS_RUNNING | PROCESS_EXITED.

Inductive thread_state : Type :=
  | THREAD_EMPTY | THREAD_NEW | THREAD_READY | THREAD_RUNNING | THREAD_BLOCKED | THREAD_EXITED.

#[export] Instance process_state_eq_dec : EqDecision process_state.
Proof. solve_decision. Defined.
#[export] Instance thread_state_eq_dec : EqDecision thread_state.
Proof. solve_decision. Defined.

Record user_registers : Type := mk_regs {
  r_rip : Z; r_rsp : Z; r_rflags : Z;
  r_rax : Z; r_rbx : Z; r_rcx : Z; r_rdx : Z; r_rsi : Z; r_rdi : Z; r_rbp : Z;
  r_r8 : Z; r_r9 : Z; r_r10 : Z; r_r11 : Z; r_r12 : Z; r_r13 : Z; r_r14 : Z; r_r15 : Z
}.

Definition zero_regs : user_registers := mk_regs 0 0 0 0 0 0 0 0 0 0 0 0 0 0 0 0 0 0.

Record thread : Type := mk_thread {
  t_tid : Z;
  t_owner_pid : Z;
  t_state : thread_state;
  t_regs : user_registers
}.

Record process : Type := mk_process {
  pr_pid : Z;
  pr_state : process_state;
  pr_pml4_phys : Z;
  pr_entry : Z;
  pr_user_stack_top : Z;
  pr_heap_start : Z;
  pr_heap_current : Z;
  pr_heap_end : Z;
  pr_main_thread : thread;
  pr_name : list Z;
  pr_cwd : list Z
}.

(** A zeroed [struct process]. *)
Definition empty_process : process :=
  mk_process 0 PROCESS_EMPTY 0 0 0 0 0 0 (mk_thread 0 0 THREAD_EMPTY zero_regs) [] [].

#[export] Instance process_inhabited : Inhabited process := populate empty_process.

Definition set_states (p : process) (ps : process_state) (ts : thread_state) : process :=
  let t := pr_main_thread p in
  mk_process (pr_pid p) ps (pr_pml4_phys p) (pr_entry p) (pr_user_stack_top p)
    (pr_heap_start p) (pr_heap_current p) (pr_heap_end p)
    (mk_thread (t_tid t) (t_owner_pid t) ts (t_regs t)) (pr_name p) (pr_cwd p).

Definition set_pr_state (p : process) (ps : process_state) : process :=
  set_states p ps (t_state (pr_main_thread p)).

Definition set_heap_current (p : process) (v : Z) : process :=
  mk_process (pr_pid p) (pr_state p) (pr_pml4_phys p) (pr_entry p) (pr_user_stack_top p)
    (pr_heap_start p) v (pr_heap_end p) (pr_main_thread p) (pr_name p) (pr_cwd p).

Definition set_cwd (p : process) (cwd : list Z) : process :=
  mk_process (pr_pid p) (pr_state p) (pr_pml4_phys p) (pr_entry p) (pr_user_stack_top p)
    (pr_heap_start p) (pr_heap_current p) (pr_heap_end p) (pr_main_thread p) (pr_name p) cwd.

(** ** The loader *)

Definition segment_map_flags (phdr : elf64_phdr) : Z :=
  let flags := VMM_USER in
  let flags := if negb (Z.land (p_flags phdr) ELF64_PF_W =? 0)
               then Z.lor flags VMM_WRITABLE else flags in
  if Z.land (p_flags phdr) ELF64_PF_X =? 0 then Z.lor flags VMM_NOEXEC else flags.

(** [img] is the image: byte [i] at [image + i]. *)
Definition load_segment_page (s : vmm) (pml4_phys : Z) (img : mem) (phdr : elf64_phdr)
    (page_vaddr : Z) : res (bool * vmm) :=
  let '(page_phys, pm) := pmm_alloc_page (vm_pmm s) in
  let s := set_vm_pmm s pm in
  if page_phys =? 0 then Ret (false, s)
  else
    let page := pmm_phys_to_virt (vm_pmm s) page_phys in
    let s := set_vm_mem s (mem_fill (vm_mem s) page 0 (Z.to_nat VMM_PAGE_SIZE)) in
    let file_start := p_vaddr phdr in
    let file_end := u64 (p_vaddr phdr + p_filesz phdr) in
    let page_end := u64 (page_vaddr + VMM_PAGE_SIZE) in
    let copy_start := if file_start <? page_vaddr then page_vaddr else file_start in
    let copy_end := if page_end <? file_end then page_end else file_end in
    let s :=
      if copy_start <? copy_end then
        let page_offset := u64 (copy_start - page_vaddr) in
        let file_offset := u64 (p_offset phdr + copy_start - p_vaddr phdr) in
        set_vm_mem s (mem_write (vm_mem s) (u64 (page + page_offset))
          (mem_read img file_offset (Z.to_nat (copy_end - copy_start))))
      else s in
    vmm_map_page_in_space s pml4_phys page_vaddr page_phys (segment_map_flags phdr).

Definition load_user_segment (s : vmm) (pml4_phys : Z) (img : mem) (phdr : elf64_phdr)
    : res (bool * vmm) :=
  if negb (p_type phdr =? ELF64_PT_LOAD) then Ret (true, s)
  else
    let segment_end := u64 (p_vaddr phdr + p_memsz phdr) in
    if segment_end <? p_vaddr phdr then Ret (false, s)
    else
      let first_page := align_down (p_vaddr phdr) VMM_PAGE_SIZE in
      let end_page := align_up segment_end VMM_PAGE_SIZE in
      mrange first_page end_page VMM_PAGE_SIZE (fun page_vaddr s =>
        load_segment_page s pml4_phys img phdr page_vaddr ≫= fun '(ok, s) =>
        Ret (if negb ok then Break s else Cont s)) s ≫= fun c =>
      Ret match c with Cont s => (true, s) | Break s => (false, s) end.

Definition load_user_image_segments (s : vmm) (pml4_phys : Z) (img : mem) (elf : elf64_image)
    : res (bool * vmm) :=
  mrange 0 (ei_phnum elf) 1 (fun i s =>
    load_user_segment s pml4_phys img
      (program_header_at img (ei_phoff elf) (ei_phentsize elf) i) ≫= fun '(ok, s) =>
    Ret (if negb ok then Break s else Cont s)) s ≫= fun c =>
  Ret match c with Cont s => (true, s) | Break s => (false, s) end.

Definition process_prepare_user_image (pid : Z) (name : option (list Z)) (pml4_phys : Z)
    (image : elf64_image) : option process :=
  if pml4_phys =? 0 then None
  else if negb (userspace_range_is_valid (ei_entry image) 1)
          || negb (userspace_range_is_valid (USERSPACE_STACK_TOP - 1) 1)
  then None
  else
    let name := match name with Some n => n | None => [117; 115; 101; 114] end in
    let regs := mk_regs (ei_entry image) USERSPACE_STACK_TOP 0x202
                  0 0 0 0 0 0 0 0 0 0 0 0 0 0 0 in
    Some (mk_process pid PROCESS_NEW pml4_phys (ei_entry image) USERSPACE_STACK_TOP
            USERSPACE_HEAP_BASE USERSPACE_HEAP_BASE USERSPACE_HEAP_LIMIT
            (mk_thread 1 pid THREAD_NEW regs)
            (firstn (Z.to_nat (PROCESS_NAME_SIZE - 1)) name) []).

(** [None] for a NULL path; the second component tells whether it was set. *)
Definition process_set_cwd (p : process) (path : option (list Z)) : bool * process :=
  match path with
  | Some (47 :: _ as path) =>
      (true, set_cwd p (firstn (Z.to_nat (USER_FS_PATH_SIZE - 1)) path))
  | _ => (false, p)
  end.

Definition USER_STACK_FLAGS : Z := Z.lor (Z.lor VMM_USER VMM_WRITABLE) VMM_NOEXEC.

(** The new contents of the process slot, or [None] for a false return. *)
Definition process_load_user_image_bytes (s : vmm) (pid : Z) (name : option (list Z))
    (img : mem) (image_size : Z) (cwd : option (list Z)) : res (option process * vmm) :=
  vmm_create_address_space s ≫= fun '(pml4_phys, s) =>
  let '(stack_phys, pm) := pmm_alloc_page (vm_pmm s) in
  let s := set_vm_pmm s pm in
  if (pml4_phys =? 0) || (stack_phys =? 0) then Ret (None, s)
  else
    let stack_page := pmm_phys_to_virt (vm_pmm s) stack_phys in
    match elf64_validate_user_image (Some img) image_size with
    | None => Ret (None, s)
    | Some image =>
        let s := set_vm_mem s (mem_fill (vm_mem s) stack_page 0 (Z.to_nat VMM_PAGE_SIZE)) in
        load_user_image_segments s pml4_phys img image ≫= fun '(ok, s) =>
        if negb ok then Ret (None, s)
        else
          vmm_map_page_in_space s pml4_phys (USERSPACE_STACK_TOP - VMM_PAGE_SIZE)
            stack_phys USER_STACK_FLAGS ≫= fun '(ok, s) =>
          if negb ok then Ret (None, s)
          else
            match process_prepare_user_image pid name pml4_phys image with
            | None => Ret (None, s)
            | Some p =>
                let cwd := match cwd with Some c => c | None => [47] end in
                let p := snd (process_set_cwd p (Some cwd)) in
                Ret (Some (set_states p PROCESS_READY THREAD_READY), s)
            end
    end.

(** ** sbrk *)

(** [None] is a false return; otherwise the old break. *)
Definition process_sbrk (s : vmm) (p : process) (increment : Z)
    : res (option Z * process * vmm) :=
  let old_break := pr_heap_current p in
  if increment =? 0 then Ret (Some old_break, p, s)
  else if increment <? 0 then Ret (None, p, s)
  else
    let amount := increment in
    let new_break := u64 (pr_heap_current p + amount) in
    if (new_break <? pr_heap_current p) || (pr_heap_end p <? new_break) then Ret (None, p, s)
    else
      let old_page_end := align_up (pr_heap_current p) VMM_PAGE_SIZE in
      let new_page_end := align_up new_break VMM_PAGE_SIZE in
      mrange old_page_end new_page_end VMM_PAGE_SIZE (fun vaddr s =>
        let '(page_phys, pm) := pmm_alloc_page (vm_pmm s) in
        let s := set_vm_pmm s pm in
        if page_phys =? 0 then Ret (Break s)
        else
          let page := pmm_phys_to_virt (vm_pmm s) page_phys in
          let s := set_vm_mem s (mem_fill (vm_mem s) page 0 (Z.to_nat VMM_PAGE_SIZE)) in
          vmm_map_page_in_space s (pr_pml4_phys p) vaddr page_phys USER_STACK_FLAGS ≫= fun '(ok, s) =>
          Ret (if negb ok then Break s else Cont s)) s ≫= fun c =>
      Ret match c with
          | Break s => (None, p, s)
          | Cont s => (Some old_break, set_heap_current p new_break, s)
          end.

(** ** The process table *)

Record proc_sys (F : Type) : Type := mk_proc_sys {
  sy_heap : kheap vmm;
  sy_fs : F;
  sy_processes : list process;
  sy_next_pid : Z
}.
Arguments mk_proc_sys {F}.
Arguments sy_heap {F}.
Arguments sy_fs {F}.
Arguments sy_processes {F}.
Arguments sy_next_pid {F}.

Section Table.
Context {F : Type} `{FsOps F}.

Definition with_heap (y : proc_sys F) (h : kheap vmm) : proc_sys F :=
  mk_proc_sys h (sy_fs y) (sy_processes y) (sy_next_pid y).
Definition with_fs (y : proc_sys F) (f : F) : proc_sys F :=
  mk_proc_sys (sy_heap y) f (sy_processes y) (sy_next_pid y).
Definition with_process (y : proc_sys F) (i : nat) (p : process) : proc_sys F :=
  mk_proc_sys (sy_heap y) (sy_fs y) (<[i := p]> (sy_processes y)) (sy_next_pid y).
Definition take_pid (y : proc_sys F) : proc_sys F :=
  mk_proc_sys (sy_heap y) (sy_fs y) (sy_processes y) (u64 (sy_next_pid y + 1)).

Definition process_table_init (y : proc_sys F) : proc_sys F :=
  mk_proc_sys (sy_heap y) (sy_fs y)
    (repeat empty_process (Z.to_nat USERSPACE_MAX_PROCESSES)) 1.

(** The slot of the first process, or [None] for NULL. *)
Definition process_first (y : proc_sys F) : option nat :=
  if bool_decide (pr_state (sy_processes y !!! 0%nat) = PROCESS_EMPTY) then None else Some 0%nat.

(** Read the file into a fresh heap block: its address, or [None] on failure. *)
Definition read_program (y : proc_sys F) (path : list Z)
    : res (option (Z * Z) * proc_sys F) :=
  fs_stat (sy_fs y) path ≫= fun '(st, file) =>
  if negb (st =? 0) || negb (fd_type file =? USER_FS_TYPE_FILE) || (fd_size file =? 0)
  then Ret (None, y)
  else
    kmalloc (sy_heap y) (fd_size file) ≫= fun '(image, h) =>
    let y := with_heap y h in
    if image =? 0 then Ret (None, y)
    else
      fs_read_file (sy_fs y) path (fd_size file) 0 ≫= fun '(read, bytes) =>
      let y := with_heap y (with_mem (sy_heap y) (mem_write (kh_mem (sy_heap y)) image bytes)) in
      if (read <? 0) || negb (read =? fd_size file) then
        kfree (sy_heap y) image ≫= fun h => Ret (None, with_heap y h)
      else Ret (Some (image, fd_size file), y).

(** The last component of a path, as the [strrchr] of the code finds it. *)
Fixpoint after_last_slash (path : list Z) (best : option (list Z)) : option (list Z) :=
  match path with
  | [] => best
  | c :: r => after_last_slash r (if c =? 47 then Some r else best)
  end.

Definition program_name (path : list Z) : list Z :=
  match after_last_slash path None with
  | Some (c :: r) => c :: r
  | _ => path
  end.

(** Load the image at [image] into slot [i]; a failure empties the slot. *)
Definition load_into_slot (y : proc_sys F) (i : nat) (name : list Z) (image size : Z)
    (cwd : list Z) : res (bool * proc_sys F) :=
  let pid := sy_next_pid y in
  let y := take_pid y in
  let img := fun k => kh_mem (sy_heap y) (image + k) in
  process_load_user_image_bytes (kh_pages (sy_heap y)) pid (Some name) img size (Some cwd)
    ≫= fun '(r, s) =>
  let y := with_heap y (with_pages (sy_heap y) s) in
  match r with
  | None => Ret (false, with_process y i (set_pr_state (sy_processes y !!! i) PROCESS_EMPTY))
  | Some p => Ret (true, with_process y i p)
  end.

(** The search for a slot: the first empty or exited one from index 1 on. *)
Definition find_slot (ps : list process) : option nat :=
  match range_loop 1 USERSPACE_MAX_PROCESSES 1 (fun i (_ : unit) =>
          let st := pr_state (ps !!! Z.to_nat i) in
          if bool_decide (st = PROCESS_EMPTY) || bool_decide (st = PROCESS_EXITED)
          then Break (Z.to_nat i) else Cont tt) tt with
  | Break i => Some i
  | Cont _ => None
  end.

Definition process_create_filesystem_process (y : proc_sys F) (path cwd : option (list Z))
    : res (option nat * proc_sys F) :=
  match path with
  | None => Ret (None, y)
  | Some path =>
      read_program y path ≫= fun '(r, y) =>
      match r with
      | None => Ret (None, y)
      | Some (image, size) =>
          match find_slot (sy_processes y) with
          | Some i =>
              let cwd := match cwd with Some c => c | None => [47] end in
              load_into_slot y i (program_name path) image size cwd ≫= fun '(ok, y) =>
              kfree (sy_heap y) image ≫= fun h =>
              Ret (if (ok : bool) then Some i else None, with_heap y h)
          | None => kfree (sy_heap y) image ≫= fun h => Ret (None, with_heap y h)
          end
      end
  end.

Definition process_create_filesystem_init (y : proc_sys F) (path : option (list Z))
    : res (bool * proc_sys F) :=
  match path with
  | None => Ret (false, y)
  | Some path =>
      read_program y path ≫= fun '(r, y) =>
      match r with
      | None => Ret (false, y)
      | Some (image, size) =>
          load_into_slot y 0 [105; 110; 105; 116] image size [47] ≫= fun '(ok, y) =>
          kfree (sy_heap y) image ≫= fun h => Ret (ok, with_heap y h)
      end
  end.
End Table.

Definition process_state_name (s : process_state) : list Z :=
  match s with
  | PROCESS_EMPTY => [101; 109; 112; 116; 121]
  | PROCESS_NEW => [110; 101; 119]
  | PROCESS_READY => [114; 101; 97; 100; 121]
  | PROCESS_RUNNING => [114; 117; 110; 110; 105; 110; 103]
  | PROCESS_EXITED => [101; 120; 105; 116; 101; 100]
  end.

Definition thread_state_name (s : thread_state) : list Z :=
  match s with
  | THREAD_EMPTY => [101; 109; 112; 116; 121]
  | THREAD_NEW => [110; 101; 119]
  | THREAD_READY => [114; 101; 97; 100; 121]
  | THREAD_RUNNING => [114; 117; 110; 110; 105; 110; 103]
  | THREAD_BLOCKED => [98; 108; 111; 99; 107; 101; 100]
  | THREAD_EXITED => [101; 120; 105; 116; 101; 100]
  end.
