(* ===== verification/ProcessProofs.v ===== *)
(** * Processes: theorems

    What the loader and [sbrk] do to an address space, stated with [user_byte]:
    the byte a program running there reads at a virtual address. Both loops are
    instances of one rule, [map_pages_spec], about mapping freshly filled frames
    at consecutive pages. *)

From S2P Require Import Prelude Pmm Vmm AddressSpace Pages Heap Elf Fs Process.

(** The byte at [va] in the space rooted at [root]. *)
Definition user_byte (s : vmm) (root va : Z) : option Z :=
  match translate s root va with
  | Some pa => Some (u8 (vm_mem s (vm_base s + pa)))
  | None => None
  end.

(** The page of [va] is unmapped or backed by a held frame. *)
Definition backed (s : vmm) (root : Z) (held : list Z) (va : Z) : Prop :=
  forall pa, translate s root va = Some pa -> exists p, In p held /\ p <= pa < p + 4096.

Abbreviation lookup_in s root va := (pt_lookup (vm_mem s) (vm_base s) root level_shifts va).

(** ** Lemmas *)

Lemma user_byte_same s s' root held va :
  vm_base s' = vm_base s -> lookup_in s' root va = lookup_in s root va ->
  held_same s s' held -> backed s root held va ->
  user_byte s' root va = user_byte s root va.
Proof.
  intros Hb Hl Hh Hk. unfold user_byte. rewrite (translate_lookup s' s root va Hl).
  destruct (translate s root va) as [pa|] eqn:E; [|reflexivity].
  destruct (Hk pa E) as (p & Hin & Hr). rewrite Hb. do 2 f_equal.
  specialize (Hh p (pa - p) Hin ltac:(lia)).
  replace (vm_base s + p + (pa - p)) with (vm_base s + pa) in Hh by lia. exact Hh.
Qed.

Lemma user_byte_entry s root va p flags :
  phys_ok p -> is_u64 flags -> Z.land flags PTE_ADDR_MASK = 0 ->
  lookup_in s root va = Some (page_entry p flags, 12) ->
  user_byte s root va = Some (u8 (vm_mem s (vm_base s + p + va mod 4096))).
Proof.
  intros Hp Hf Hm E. unfold user_byte. rewrite (page_entry_translate _ _ _ _ _ Hp Hf Hm E).
  do 3 f_equal. lia.
Qed.

Lemma held_same_refl s held : held_same s s held.
Proof. intros p o _ _. reflexivity. Qed.

Lemma held_same_incl s s' held held' :
  (forall p, In p held' -> In p held) -> held_same s s' held -> held_same s s' held'.
Proof. intros Hi H p o Hp Ho. apply H; auto. Qed.

Lemma lookup_vpn s root va va' :
  vpn va' = vpn va -> lookup_in s root va' = lookup_in s root va.
Proof.
  intros E. apply vpn_indices in E. unfold level_shifts in *. rewrite !List.Forall_cons_iff in E.
  destruct E as (E1 & E2 & E3 & E4 & _). cbn [pt_lookup]. rewrite E1, E2, E3, E4. reflexivity.
Qed.

(** No mapping is lost or changed. *)
Definition kept (root : Z) (s s' : vmm) : Prop :=
  forall va e, lookup_in s root va = Some e -> lookup_in s' root va = Some e.

Lemma mappings_kept_trans root s1 s2 s3 : kept root s1 s2 -> kept root s2 s3 -> kept root s1 s3.
Proof. intros H1 H2 va e E. auto. Qed.

Lemma kept_same root s s' :
  (forall va, lookup_in s' root va = lookup_in s root va) -> kept root s s'.
Proof. intros H va e E. rewrite H. exact E. Qed.

(** ** Mapping fresh frames *)

(** What one page of a mapping loop does: it maps at the page of [va] a fresh
    frame with the bytes [c], or fails without changing a mapping. *)
Record page_step (root flags : Z) (c : Z -> Z) (s s' : vmm) (va : Z) (held : list Z)
    (ok : bool) (new : list Z) : Prop := {
  st_base : vm_base s' = vm_base s;
  st_inv : exists free, pt_inv s' root (new ++ held) free;
  st_held : held_same s s' held;
  st_kept : kept root s s';
  st_map : if ok
           then exists p, new = [p] /\ phys_ok p
             /\ (forall o, 0 <= o < 4096 -> u8 (vm_mem s' (vm_base s' + p + o)) = c (va + o))
             /\ forall va', lookup_in s' root va'
                  = if decide (vpn va' = vpn va) then Some (page_entry p flags, 12)
                    else lookup_in s root va'
           else (forall va', lookup_in s' root va' = lookup_in s root va')
             /\ (lookup_in s root va <> None \/ pt_inv s' root (new ++ held) [])
}.

Definition steps_ok (step : vmm -> Z -> res (bool * vmm)) (pml4_phys flags : Z) (c : Z -> Z)
    (lo hi : Z) : Prop :=
  forall s va held free, pt_inv s (pmm_phys_to_virt (vm_pmm s) pml4_phys) held free ->
    pmm_phys_to_virt (vm_pmm s) pml4_phys <> 0 ->
    va mod 4096 = 0 -> lo <= va < hi ->
    exists ok s' new, step s va = Ret (ok, s')
      /\ page_step (pmm_phys_to_virt (vm_pmm s) pml4_phys) flags c s s' va held ok new.

(** After a mapping loop over the [n] pages from [first] on. *)
Record pages_mapped (root flags : Z) (c : Z -> Z) (s s' : vmm) (first : Z) (n : nat)
    (held new : list Z) : Prop := {
  pm_base : vm_base s' = vm_base s;
  pm_inv : exists free, pt_inv s' root (new ++ held) free;
  pm_held : held_same s s' held;
  pm_kept : kept root s s';
  pm_other : forall va, (forall i, (i < n)%nat -> vpn va <> vpn (first + 4096 * Z.of_nat i)) ->
    lookup_in s' root va = lookup_in s root va;
  pm_pages : forall i, (i < n)%nat -> exists p, In p new /\ phys_ok p
    /\ lookup_in s' root (first + 4096 * Z.of_nat i) = Some (page_entry p flags, 12)
    /\ forall o, 0 <= o < 4096 ->
         u8 (vm_mem s' (vm_base s' + p + o)) = c (first + 4096 * Z.of_nat i + o)
}.

Lemma vpn_step first i j :
  first mod 4096 = 0 -> 0 <= i < 68719476736 -> 0 <= j < 68719476736 ->
  vpn (first + 4096 * i) = vpn (first + 4096 * j) -> i = j.
Proof. intros Hs Hi Hj. unfold vpn. intros E. zlia. Qed.

Lemma pages_mapped_nil root flags c s first held free :
  pt_inv s root held free -> pages_mapped root flags c s s first 0 held [].
Proof.
  intros Hi. split; [reflexivity|eauto|apply held_same_refl|intros va e E; exact E|reflexivity|].
  intros i Hlt. lia.
Qed.

Lemma root_same s s' pml4 :
  vm_base s' = vm_base s ->
  pmm_phys_to_virt (vm_pmm s') pml4 = pmm_phys_to_virt (vm_pmm s) pml4.
Proof. unfold pmm_phys_to_virt, vm_base. intros ->. reflexivity. Qed.

Lemma pages_mapped_snoc root flags c s s1 s2 first n held new p :
  first mod 4096 = 0 -> Z.of_nat n < 68719476736 ->
  pages_mapped root flags c s s1 first n held new ->
  page_step root flags c s1 s2 (first + 4096 * Z.of_nat n) (new ++ held) true [p] ->
  pages_mapped root flags c s s2 first (S n) held (p :: new).
Proof.
  intros Ha Hn [B1 _ H1 K1 O1 P1] [B2 I2 H2 K2 (p' & [= <-] & Pp & C2 & L2)].
  assert (Hne : forall i, (i < n)%nat ->
      vpn (first + 4096 * Z.of_nat i) <> vpn (first + 4096 * Z.of_nat n)).
  { intros i Hi E. apply vpn_step in E; lia. }
  split.
  - congruence.
  - exact I2.
  - eapply held_same_trans; [exact B1|exact H1|].
    eapply held_same_incl; [|exact H2]. intros q Hq. apply in_or_app. auto.
  - eapply mappings_kept_trans; eauto.
  - intros va Hva. rewrite L2, decide_False; [apply O1; intros i Hi; apply Hva; lia|].
    apply (Hva n). lia.
  - intros i Hi. destruct (decide (i = n)) as [->|Hin].
    + exists p. split; [left; reflexivity|]. split; [exact Pp|]. rewrite L2, decide_True by reflexivity.
      split; [reflexivity|exact C2].
    + destruct (P1 i ltac:(lia)) as (q & Q1 & Q2 & Q3 & Q4). exists q.
      split; [right; exact Q1|]. split; [exact Q2|].
      rewrite L2, decide_False by (apply Hne; lia). split; [exact Q3|].
      intros o Ho. rewrite B2. rewrite H2; [|apply in_or_app; auto|exact Ho]. apply Q4, Ho.
Qed.

(** The rule of the mapping loops. *)
Lemma map_pages_spec step pml4_phys flags c s first n held free :
  let root := pmm_phys_to_virt (vm_pmm s) pml4_phys in
  pt_inv s root held free -> root <> 0 -> first mod 4096 = 0 -> Z.of_nat n < 68719476736 ->
  steps_ok step pml4_phys flags c first (first + 4096 * Z.of_nat n) ->
  exists r, mfor n first 4096 (fun va s => step s va ≫= fun '(ok, s) =>
              Ret (if negb ok then Break s else Cont s)) s = Ret r
    /\ match r with
       | Cont s' => exists new, pages_mapped root flags c s s' first n held new
       | Break s' => exists k new, (k < n)%nat /\ vm_base s' = vm_base s
           /\ (exists free, pt_inv s' root (new ++ held) free) /\ held_same s s' held
           /\ kept root s s' /\ (forall va, (forall i, (i < k)%nat -> vpn va <> vpn (first + 4096 * Z.of_nat i)) ->
                lookup_in s' root va = lookup_in s root va)
           /\ ((exists i, (i < n)%nat /\ lookup_in s root (first + 4096 * Z.of_nat i) <> None)
               \/ pt_inv s' root (new ++ held) [])
       end.
Proof.
  intros root Hinv Hnz Ha Hn Hstep.
  apply (mfor_ind (fun va s1 => exists k new, va = first + 4096 * Z.of_nat k
           /\ pages_mapped root flags c s s1 first k held new)).
  - exists 0%nat, []. split; [lia|]. eapply pages_mapped_nil, Hinv.
  - intros k0 s1 Hk (k & new & Ek & M). assert (k0 = Z.of_nat k) as -> by lia.
    replace (first + Z.of_nat k * 4096) with (first + 4096 * Z.of_nat k) by lia.
    destruct (pm_inv _ _ _ _ _ _ _ _ _ M) as [free1 I1].
    assert (Er : pmm_phys_to_virt (vm_pmm s1) pml4_phys = root)
      by (apply root_same; exact (pm_base _ _ _ _ _ _ _ _ _ M)).
    destruct (Hstep s1 (first + 4096 * Z.of_nat k) (new ++ held) free1) as (ok & s2 & new2 & E & St);
      try (rewrite Er; assumption).
    { clear -Ha. zlia. } { lia. }
    rewrite Er in St. rewrite E. cbn [mbind res_bind]. eexists. split; [reflexivity|].
    destruct ok; cbn [negb].
    + pose proof (st_map _ _ _ _ _ _ _ _ _ St) as (p & Ep & _). subst new2.
      exists (S k), (p :: new). split; [lia|].
      eapply pages_mapped_snoc; [exact Ha|lia|exact M|exact St].
    + destruct St as [B2 I2 H2 K2 [L2 R2]]. destruct M as [B1 _ H1 K1 O1 _].
      exists k, (new2 ++ new). split_and!; [lia|congruence| | |eapply mappings_kept_trans; eauto| |].
      * rewrite <- app_assoc. exact I2.
      * eapply held_same_trans; [exact B1|exact H1|].
        eapply held_same_incl; [|exact H2]. intros q Hq. apply in_or_app. auto.
      * intros va Hva. rewrite L2. apply O1, Hva.
      * destruct R2 as [R2|R2]; [left|right; rewrite <- app_assoc; exact R2].
        exists k. split; [lia|]. rewrite O1 in R2; [exact R2|].
        intros i Hi E2. apply vpn_step in E2; lia.
  - intros s1 (k & new & Ek & M). assert (k = n) as -> by lia. eauto.
Qed.

(** Mapping a frame the caller has just filled. *)
Lemma map_filled_step s pml4_phys held free p va flags c :
  let root := pmm_phys_to_virt (vm_pmm s) pml4_phys in
  pt_inv s root (p :: held) free -> pml4_phys <> 0 -> root <> 0 -> va mod 4096 = 0 ->
  is_u64 flags -> Z.land flags PTE_ADDR_MASK = 0 ->
  (forall o, 0 <= o < 4096 -> u8 (vm_mem s (vm_base s + p + o)) = c (va + o)) ->
  exists ok s', vmm_map_page_in_space s pml4_phys va p flags = Ret (ok, s')
    /\ page_step root flags c s s' va held ok [p].
Proof.
  intros root Hinv Hp4 Hnz Hva Hf Hm Hc. unfold vmm_map_page_in_space.
  apply Z.eqb_neq in Hp4. rewrite Hp4.
  assert (Hp : frame_ok (vm_base s) p).
  { eapply List.Forall_forall; [apply (pt_frames _ _ _ _ Hinv)|]. apply in_elt. }
  destruct (map_at_level_page s root va p flags _ free Hinv Hnz Hva (proj1 Hp) Hf Hm)
    as (ok & s' & free' & E & I & _ & B & L & F & _ & H & N).
  exists ok, s'. split; [exact E|]. split; [exact B|eauto| | |].
  - eapply held_same_incl; [|exact H]. intros q Hq. right. exact Hq.
  - intros va' e Ee. rewrite L. destruct (decide _) as [[-> V]|]; [|exact Ee].
    rewrite (lookup_vpn s root va va' V), (N eq_refl) in Ee. discriminate.
  - destruct ok.
    + exists p. split; [reflexivity|]. split; [apply Hp|]. split.
      * intros o Ho. rewrite B, (H p o (or_introl eq_refl) Ho). apply Hc, Ho.
      * intros va'. rewrite L. destruct (decide (vpn va' = vpn va)), (decide (true = true /\ _)); tauto.
    + split; [intros va'; rewrite L; apply decide_False; intros [? _]; discriminate|].
      destruct (F eq_refl) as [F1| ->]; [left; exact F1|right; exact I].
Qed.

(** A step may start with changes that no mapping sees. *)
Lemma page_step_pre root flags c s s1 s2 va held ok new :
  vm_base s1 = vm_base s -> (forall va', lookup_in s1 root va' = lookup_in s root va') ->
  held_same s s1 held ->
  page_step root flags c s1 s2 va held ok new -> page_step root flags c s s2 va held ok new.
Proof.
  intros Hb Hl Hh [B I H K M]. split; [congruence|exact I| | |].
  - eapply held_same_trans; eauto.
  - eapply mappings_kept_trans; [apply kept_same, Hl|exact K].
  - destruct ok.
    + destruct M as (p & -> & Hp & C & L). exists p. split_and!; auto.
      intros va'. rewrite L. destruct (decide _); [reflexivity|apply Hl].
    + destruct M as [M1 M2]. split; [intros va'; rewrite M1; apply Hl|]. rewrite <- Hl. exact M2.
Qed.

(** Filling a held frame with a page of zeros. *)
Lemma zero_page_spec s root held free p :
  pt_inv s root (p :: held) free ->
  let s' := set_vm_mem s (mem_fill (vm_mem s) (vm_base s + p) 0 (Z.to_nat VMM_PAGE_SIZE)) in
  pt_inv s' root (p :: held) free
  /\ (forall va, lookup_in s' root va = lookup_in s root va)
  /\ (forall o, 0 <= o < 4096 -> vm_mem s' (vm_base s + p + o) = 0)
  /\ (List.NoDup (free ++ p :: held) -> held_same s s' held).
Proof.
  intros Hinv s'.
  pose proof (pt_inv_write s root (p :: held) free p 0 (repeat (u8 0) (Z.to_nat VMM_PAGE_SIZE)) Hinv
    ltac:(left; reflexivity) ltac:(lia) ltac:(rewrite repeat_length; unfold VMM_PAGE_SIZE; lia)) as [I L].
  rewrite Z.add_0_r in I, L. split; [exact I|]. split; [exact L|]. split.
  - intros o Ho. unfold s', mem_fill. change (vm_mem (set_vm_mem s ?m)) with m.
    rewrite mem_write_in by (rewrite repeat_length; unfold VMM_PAGE_SIZE; lia).
    apply nth_repeat.
  - intros Hn q o Hq Ho. unfold s', mem_fill. change (vm_mem (set_vm_mem s ?m)) with m.
    apply mem_write_out. rewrite repeat_length. unfold VMM_PAGE_SIZE.
    pose proof (pt_frames _ _ _ _ Hinv) as Hf.
    assert (Hp : frame_ok (vm_base s) p) by (eapply List.Forall_forall; [exact Hf|apply in_elt]).
    assert (Hqf : frame_ok (vm_base s) q).
    { eapply List.Forall_forall; [exact Hf|]. apply in_or_app. right. right. exact Hq. }
    assert (p <> q).
    { intros ->. apply List.NoDup_app_remove_l in Hn. inversion Hn; auto. }
    destruct (page_disjoint (vm_base s) p q); try apply Hp; try apply Hqf; auto; lia.
Qed.

(** Writing inside a held frame keeps the other frames. *)
Lemma write_page_held s root held free p off bs :
  pt_inv s root (p :: held) free -> 0 <= off -> off + Z.of_nat (length bs) <= 4096 ->
  held_same s (set_vm_mem s (mem_write (vm_mem s) (vm_base s + p + off) bs)) held.
Proof.
  intros Hinv Ho1 Ho2 q o Hq Ho. change (vm_mem (set_vm_mem s ?m)) with m.
  apply mem_write_out. pose proof (pt_frames _ _ _ _ Hinv) as Hf.
  assert (Hp : frame_ok (vm_base s) p) by (eapply List.Forall_forall; [exact Hf|apply in_elt]).
  assert (Hqf : frame_ok (vm_base s) q).
  { eapply List.Forall_forall; [exact Hf|]. apply in_or_app. right. right. exact Hq. }
  assert (p <> q).
  { intros ->. pose proof (pt_nodup _ _ _ _ Hinv) as Hn.
    apply List.NoDup_app_remove_l in Hn. inversion Hn; auto. }
  destruct (page_disjoint (vm_base s) p q); try apply Hp; try apply Hqf; auto; lia.
Qed.

Lemma pt_inv_empty_step root flags c s va held :
  pt_inv s root held [] -> page_step root flags c s s va held false [].
Proof.
  intros Hi. split; [reflexivity|exists []; exact Hi|apply held_same_refl|intros va' e E; exact E|split; [reflexivity|right; exact Hi]].
Qed.

(** ** Loading a segment *)

(** The byte a loaded segment has at [va]: the file's, and zero past its end. *)
Definition segment_byte (img : mem) (ph : elf64_phdr) (va : Z) : Z :=
  if (p_vaddr ph <=? va) && (va <? p_vaddr ph + p_filesz ph)
  then u8 (img (p_offset ph + (va - p_vaddr ph))) else 0.

Lemma segment_map_flags_ok ph :
  is_u64 (segment_map_flags ph) /\ Z.land (segment_map_flags ph) PTE_ADDR_MASK = 0.
Proof.
  unfold segment_map_flags.
  destruct (negb _), (_ =? 0); split; unfold is_u64; vm_compute; auto; split; congruence.
Qed.

(** The copy of the part of the file that lies in the page [p] for [va], from
    [cs] to [ce]; the page was zero before. *)
Lemma fill_segment_page s root img ph size va p held free cs ce :
  segment_ok ph size -> is_u64 size -> is_u64 (p_offset ph) -> 0 <= p_filesz ph ->
  pt_inv s root (p :: held) free -> 0 < p -> 0 <= vm_base s -> vm_base s + p + 4096 <= 18446744073709551616 ->
  0 <= va < 0x0000800000000000 ->
  (forall o, 0 <= o < 4096 -> u8 (vm_mem s (vm_base s + p + o)) = 0) ->
  cs = Z.max va (p_vaddr ph) -> ce = Z.min (va + 4096) (p_vaddr ph + p_filesz ph) ->
  let s' := if cs <? ce
            then set_vm_mem s (mem_write (vm_mem s) (u64 (vm_base s + p + u64 (cs - va)))
                   (mem_read img (u64 (p_offset ph + cs - p_vaddr ph)) (Z.to_nat (ce - cs))))
            else s in
  pt_inv s' root (p :: held) free /\ vm_base s' = vm_base s
  /\ (forall va', lookup_in s' root va' = lookup_in s root va')
  /\ held_same s s' held
  /\ forall o, 0 <= o < 4096 -> u8 (vm_mem s' (vm_base s' + p + o)) = segment_byte img ph (va + o).
Proof.
  intros [_ Si Su _] Hsz Hoff Hfz Hinv Hp Hbase Hfit Hva Hz Hcs Hce s'. unfold s'.
  destruct Su as (U1 & U2 & U3). unfold USERSPACE_MIN_VADDR, USERSPACE_MAX_VADDR in *.
  destruct (Z.ltb_spec cs ce) as [Hc|Hc].
  - assert (Hfi : p_offset ph + p_filesz ph <= size /\ 0 <= p_offset ph) by (destruct Si as [?|(? & ? & ?)]; lia).
    rewrite (u64_id (cs - va)), (u64_id (p_offset ph + cs - p_vaddr ph)) by (unfold is_u64 in *; lia).
    rewrite (u64_id (vm_base s + p + (cs - va))) by (unfold is_u64; lia).
    set (bs := mem_read img _ _).
    assert (Hbs : Z.of_nat (length bs) = ce - cs) by (unfold bs; rewrite mem_read_length; lia).
    destruct (pt_inv_write s _ (p :: held) free p (cs - va) bs Hinv ltac:(left; reflexivity)) as [I3 L3]; [lia|lia|].
    split; [exact I3|]. split; [reflexivity|]. split; [exact L3|]. split.
    + eapply (write_page_held s _ held free p); [exact Hinv|lia|lia].
    + intros o Ho. change (vm_base (set_vm_mem s _)) with (vm_base s).
      change (vm_mem (set_vm_mem s ?m)) with m. unfold segment_byte.
      destruct (Z.leb_spec (p_vaddr ph) (va + o)) as [C1|C1],
        (Z.ltb_spec (va + o) (p_vaddr ph + p_filesz ph)) as [C2|C2]; cbn [andb].
      * rewrite mem_write_in by lia. unfold bs. rewrite mem_read_nth by lia.
        rewrite u8_idem. do 2 f_equal. lia.
      * rewrite mem_write_out by lia. apply Hz, Ho.
      * rewrite mem_write_out by lia. apply Hz, Ho.
      * lia.
  - split; [exact Hinv|]. split; [reflexivity|]. split; [reflexivity|]. split; [apply held_same_refl|].
    intros o Ho. rewrite Hz by exact Ho. unfold segment_byte.
    destruct (Z.leb_spec (p_vaddr ph) (va + o)), (Z.ltb_spec (va + o) (p_vaddr ph + p_filesz ph));
      cbn [andb]; lia || reflexivity.
Qed.

Lemma load_segment_page_spec pml4_phys img ph size lo hi :
  pml4_phys <> 0 -> segment_ok ph size -> is_u64 size -> is_u64 (p_offset ph) ->
  0 <= p_filesz ph -> 0 <= lo -> hi <= 0x0000800000000000 ->
  steps_ok (fun s va => load_segment_page s pml4_phys img ph va) pml4_phys
    (segment_map_flags ph) (segment_byte img ph) lo hi.
Proof.
  intros Hp4 Hseg Hsz Hoff Hfz Hlo Hhi s va held free Hinv Hnz Hva Hr.
  pose proof Hseg as [Sf _ (U1 & U2 & U3) _]. unfold USERSPACE_MIN_VADDR, USERSPACE_MAX_VADDR in *.
  destruct (segment_map_flags_ok ph) as [Hf1 Hf2].
  unfold load_segment_page. pose proof (pt_inv_alloc _ _ _ _ Hinv) as Ha.
  destruct free as [|p free].
  { rewrite Ha. cbn [Z.eqb]. exists false, (set_vm_pmm s (vm_pmm s)), []. split; [reflexivity|].
    destruct s; apply pt_inv_empty_step; exact Hinv. }
  destruct Ha as (pm & -> & I1 & Hm & Hb & Hp0 & Hp). set (s1 := set_vm_pmm s pm) in *.
  apply Z.eqb_neq in Hp0 as Hp0'. rewrite Hp0'.
  assert (Hb1 : vm_base s1 = vm_base s) by exact Hb.
  assert (Hv : pmm_phys_to_virt (vm_pmm s1) p = vm_base s1 + p).
  { unfold pmm_phys_to_virt. apply page_ok_virt; [apply (pi_base _ _ (pt_pmm _ _ _ _ I1))|].
    fold (vm_base s1). rewrite Hb1. apply Hp. }
  rewrite Hv. destruct (zero_page_spec s1 _ held free p I1) as (I2 & L2 & Z2 & H2).
  specialize (H2 (pt_nodup _ _ _ _ I1)). set (s2 := set_vm_mem s1 _) in *.
  destruct Hp as [_ (Hppos & _ & Hfit)]. rewrite <- Hb1 in Hfit.
  unfold VMM_PAGE_SIZE. rewrite (u64_id (p_vaddr ph + p_filesz ph)), (u64_id (va + 4096)) by (unfold is_u64; lia).
  cbv zeta. set (cs := if p_vaddr ph <? va then va else p_vaddr ph).
  set (ce := if va + 4096 <? p_vaddr ph + p_filesz ph then va + 4096 else p_vaddr ph + p_filesz ph).
  destruct (fill_segment_page s2 _ img ph size va p held free cs ce Hseg Hsz Hoff Hfz I2 Hppos
    (pi_base _ _ (pt_pmm _ _ _ _ I1)) Hfit ltac:(lia) (fun o Ho => f_equal u8 (Z2 o Ho))) as (I3 & B3 & L3 & H3 & C3).
  { unfold cs. destruct (Z.ltb_spec (p_vaddr ph) va); lia. }
  { unfold ce. destruct (Z.ltb_spec (va + 4096) (p_vaddr ph + p_filesz ph)); lia. }
  change (vm_base s2) with (vm_base s1) in *.
  set (s3 := if cs <? ce then _ else s2) in *. clearbody s3. rewrite Hb1 in B3.
  assert (Er : pmm_phys_to_virt (vm_pmm s3) pml4_phys = pmm_phys_to_virt (vm_pmm s) pml4_phys)
    by (apply root_same; exact B3).
  destruct (map_filled_step s3 pml4_phys held free p va (segment_map_flags ph) (segment_byte img ph))
    as (ok & s4 & E4 & St); rewrite ?Er; auto.
  exists ok, s4, [p]. split; [exact E4|]. rewrite Er in St.
  eapply page_step_pre; [exact B3| | |exact St].
  - intros va'. rewrite L3, L2. unfold s1, vm_mem, vm_base. cbn [vm_pmm set_vm_pmm].
    rewrite Hb, Hm. reflexivity.
  - assert (H1 : held_same s s1 held).
    { intros q o _ _. change (vm_mem s1) with (pm_mem pm). rewrite Hm. reflexivity. }
    eapply held_same_trans; [exact Hb1|exact H1|].
    apply (held_same_trans s1 s2 s3 held eq_refl H2 H3).
Qed.

(** ** The segment loop *)

(** The page allocator has nothing to give. *)
Definition no_page_left (s : vmm) : Prop := fst (pmm_alloc_page (vm_pmm s)) = 0.

Lemma pt_inv_no_page s root held : pt_inv s root held [] -> no_page_left s.
Proof. intros I. unfold no_page_left. rewrite (pt_inv_alloc _ _ _ _ I : pmm_alloc_page _ = _). reflexivity. Qed.

(** The pages of a non-empty segment. *)
Definition in_segment_pages (ph : elf64_phdr) (va : Z) : Prop :=
  p_vaddr ph / 4096 <= va / 4096 <= (p_vaddr ph + p_memsz ph - 1) / 4096.

Lemma page_index first n va :
  0 <= va < 281474976710656 -> 0 <= first -> first mod 4096 = 0 ->
  first + 4096 * Z.of_nat n <= 281474976710656 ->
  (first <= va < first + 4096 * Z.of_nat n ->
     exists i, (i < n)%nat /\ va = first + 4096 * Z.of_nat i + va mod 4096
               /\ vpn va = vpn (first + 4096 * Z.of_nat i))
  /\ (~ first <= va < first + 4096 * Z.of_nat n ->
     forall i, (i < n)%nat -> vpn va <> vpn (first + 4096 * Z.of_nat i)).
Proof.
  intros Hva Hf Ha Hn. unfold vpn. split.
  - intros Hr. exists (Z.to_nat ((va - first) / 4096)). rewrite Z2Nat.id by zlia.
    split; [|split; [zlia|f_equal; zlia]]. apply Nat2Z.inj_lt. rewrite Z2Nat.id; zlia.
  - intros Hr i Hi E. apply Hr. zlia.
Qed.

(** Every page of the segment is mapped, with the segment's permissions, to a
    held frame that has the segment's bytes. *)
Definition segment_loaded (s : vmm) (root : Z) (held : list Z) (img : mem) (ph : elf64_phdr) : Prop :=
  forall va, in_segment_pages ph va -> exists p, In p held /\ phys_ok p
    /\ lookup_in s root va = Some (page_entry p (segment_map_flags ph), 12)
    /\ u8 (vm_mem s (vm_base s + p + va mod 4096)) = segment_byte img ph va.

(** The state after loading, where only addresses in [pages] may be new. *)
Record load_post (root : Z) (s s' : vmm) (held new : list Z) (pages : Z -> Prop) : Prop := {
  lp_base : vm_base s' = vm_base s;
  lp_inv : exists free, pt_inv s' root (new ++ held) free;
  lp_held : held_same s s' held;
  lp_kept : kept root s s';
  lp_other : forall va, 0 <= va < 281474976710656 -> ~ pages va ->
    lookup_in s' root va = lookup_in s root va
}.

Lemma load_post_refl root s held free pages :
  pt_inv s root held free -> load_post root s s held [] pages.
Proof.
  intros Hi. split; [reflexivity|eauto|apply held_same_refl|intros va e E; exact E|reflexivity].
Qed.

Lemma load_post_trans root s1 s2 s3 held new1 new2 (pages1 pages2 pages : Z -> Prop) :
  load_post root s1 s2 held new1 pages1 -> load_post root s2 s3 (new1 ++ held) new2 pages2 ->
  (forall va, pages1 va -> pages va) -> (forall va, pages2 va -> pages va) ->
  load_post root s1 s3 held (new2 ++ new1) pages.
Proof.
  intros [B1 _ H1 K1 O1] [B2 I2 H2 K2 O2] P1 P2. split.
  - congruence.
  - rewrite <- app_assoc. exact I2.
  - eapply held_same_trans; [exact B1|exact H1|].
    eapply held_same_incl; [|exact H2]. intros q Hq. apply in_or_app. auto.
  - eapply mappings_kept_trans; eauto.
  - intros va Hva Hn. rewrite O2, O1; auto.
Qed.

Lemma load_post_weaken root s s' held new (pages pages' : Z -> Prop) :
  load_post root s s' held new pages -> (forall va, pages va -> pages' va) -> load_post root s s' held new pages'.
Proof. intros [B I H K O] P. split; auto. Qed.

(** A loaded segment stays loaded while other segments are. *)
Lemma segment_loaded_mono root s s' held new pages img ph :
  load_post root s s' held new pages ->
  segment_loaded s root held img ph -> segment_loaded s' root (new ++ held) img ph.
Proof.
  intros [B _ H K _] L va Hva. destruct (L va Hva) as (p & P1 & P2 & P3 & P4).
  exists p. split; [apply in_or_app; auto|]. split; [exact P2|]. split; [apply K, P3|].
  rewrite B, H; [exact P4|exact P1|]. apply Z.mod_pos_bound. lia.
Qed.

Lemma segment_loaded_byte s root held img ph va :
  segment_loaded s root held img ph -> in_segment_pages ph va ->
  user_byte s root va = Some (segment_byte img ph va).
Proof.
  intros L Hva. destruct (L va Hva) as (p & _ & P2 & P3 & P4).
  destruct (segment_map_flags_ok ph) as [F1 F2].
  rewrite (user_byte_entry _ _ _ _ _ P2 F1 F2 P3), P4. reflexivity.
Qed.

Lemma trips_exact first n : trips first (first + 4096 * Z.of_nat n) 4096 = n.
Proof.
  unfold trips. replace (first + 4096 * Z.of_nat n - first + 4096 - 1) with (4095 + Z.of_nat n * 4096) by lia.
  rewrite Z.div_add by lia. change (4095 / 4096) with 0. lia.
Qed.

Lemma load_user_segment_spec s pml4_phys img ph size held free :
  let root := pmm_phys_to_virt (vm_pmm s) pml4_phys in
  pt_inv s root held free -> pml4_phys <> 0 -> root <> 0 ->
  loadable ph -> segment_ok ph size -> is_u64 size -> is_u64 (p_offset ph) -> 0 <= p_filesz ph ->
  exists ok s' new, load_user_segment s pml4_phys img ph = Ret (ok, s')
    /\ load_post root s s' held new (in_segment_pages ph)
    /\ if (ok : bool) then segment_loaded s' root (new ++ held) img ph
       else (exists va, in_segment_pages ph va /\ lookup_in s root va <> None) \/ no_page_left s'.
Proof.
  intros root Hinv Hp4 Hnz [Ht Hm] Hok Hsz Hoff Hfz. unfold load_user_segment.
  rewrite Ht. change (negb (ELF64_PT_LOAD =? ELF64_PT_LOAD)) with false. cbn iota.
  pose proof (so_user _ _ Hok) as (U1 & U2 & U3). unfold USERSPACE_MIN_VADDR, USERSPACE_MAX_VADDR in *.
  rewrite u64_id by (unfold is_u64; lia).
  destruct (Z.ltb_spec (p_vaddr ph + p_memsz ph) (p_vaddr ph)) as [|_]; [lia|].
  unfold mrange. change VMM_PAGE_SIZE with (2 ^ 12).
  rewrite align_down_spec, align_up_spec by (unfold is_u64; lia).
  change (2 ^ 12) with 4096.
  set (first := p_vaddr ph - p_vaddr ph mod 4096).
  set (n := Z.to_nat ((p_vaddr ph + p_memsz ph - 1) / 4096 - p_vaddr ph / 4096 + 1)).
  assert (Hend : p_vaddr ph + p_memsz ph + 4096 - 1 - (p_vaddr ph + p_memsz ph + 4096 - 1) mod 4096
                 = first + 4096 * Z.of_nat n).
  { unfold n, first. rewrite Z2Nat.id by zlia. zlia. }
  assert (Hfirst : first mod 4096 = 0 /\ 0 <= first /\ first = 4096 * (p_vaddr ph / 4096))
    by (unfold first; zlia).
  assert (Hn : Z.of_nat n = (p_vaddr ph + p_memsz ph - 1) / 4096 - p_vaddr ph / 4096 + 1)
    by (unfold n; rewrite Z2Nat.id; zlia).
  assert (Hmax : first + 4096 * Z.of_nat n <= 140737488355328) by (clearbody n first; zlia).
  assert (Hpages : forall va, in_segment_pages ph va <-> first <= va < first + 4096 * Z.of_nat n).
  { intros va. unfold in_segment_pages. clearbody n first. split; intros; zlia. }
  rewrite Hend, trips_exact. clearbody n first. destruct Hfirst as (Hf1 & Hf2 & _).
  destruct (map_pages_spec (fun s va => load_segment_page s pml4_phys img ph va) pml4_phys
      (segment_map_flags ph) (segment_byte img ph) s first n held free Hinv Hnz Hf1)
    as (r & Er & Hr); [lia| |].
  { eapply load_segment_page_spec; eauto. }
  rewrite Er. cbn [mbind res_bind]. clear Er.
  assert (Hout : forall va, 0 <= va < 281474976710656 -> ~ in_segment_pages ph va ->
    forall i, (i < n)%nat -> vpn va <> vpn (first + 4096 * Z.of_nat i)).
  { intros va Hva Hni. apply (page_index first n va Hva Hf2 Hf1); [lia|]. rewrite <- Hpages. exact Hni. }
  destruct r as [s'|s'].
  - destruct Hr as (new & [B I H K O P]). exists true, s', new. split; [reflexivity|]. split.
    { split; auto. }
    intros va Hva. pose proof (proj1 (Hpages va) Hva) as Hr.
    destruct (proj1 (page_index first n va ltac:(lia) Hf2 Hf1 ltac:(lia)) Hr) as (i & Hi & Ei & Ev).
    destruct (P i Hi) as (p & P1 & P2 & P3 & P4). exists p.
    split; [apply in_or_app; auto|]. split; [exact P2|]. split.
    + rewrite (lookup_vpn _ _ _ _ Ev). exact P3.
    + rewrite P4 by (apply Z.mod_pos_bound; lia). rewrite <- Ei. reflexivity.
  - destruct Hr as (k & new & Hk & B & I & H & K & O & Why). exists false, s', new.
    split; [reflexivity|]. split; [split; auto|].
    + intros va Hva Hni. apply O. intros i Hi. apply (Hout va Hva Hni). lia.
    + destruct Why as [(i & Hi & Hw) | Hw]; [left | right; exact (pt_inv_no_page _ _ _ Hw)].
      exists (first + 4096 * Z.of_nat i). split; [apply Hpages; lia | exact Hw].
Qed.

(** ** The header loop *)

Definition header (img : mem) (im : elf64_image) (i : Z) : elf64_phdr :=
  program_header_at img (ei_phoff im) (ei_phentsize im) i.

Definition image_pages (img : mem) (im : elf64_image) (va : Z) : Prop :=
  Exists (fun ph => loadable ph /\ in_segment_pages ph va) (image_phdrs img im).

Lemma in_image_phdrs img im j :
  0 <= ei_phnum im -> (j < Z.to_nat (ei_phnum im))%nat ->
  In (header img im (Z.of_nat j)) (image_phdrs img im).
Proof.
  intros Hn Hj. unfold image_phdrs. apply (in_map (fun i => header img im (Z.of_nat i))).
  apply in_seq. lia.
Qed.

#[export] Instance loadable_dec ph : Decision (loadable ph).
Proof. unfold loadable. apply _. Defined.

#[export] Instance in_segment_pages_dec ph va : Decision (in_segment_pages ph va).
Proof. unfold in_segment_pages. apply _. Defined.

(** Pages of the first [k] segments. *)
Definition pages_before (img : mem) (im : elf64_image) (k : nat) (va : Z) : Prop :=
  Exists (fun ph => loadable ph /\ in_segment_pages ph va) (take k (image_phdrs img im)).

#[export] Instance pages_before_dec img im k va : Decision (pages_before img im k va).
Proof. unfold pages_before. apply _. Defined.

Lemma pages_before_image img im k va : pages_before img im k va -> image_pages img im va.
Proof. intros H. unfold image_pages. rewrite <- (take_drop k (image_phdrs img im)). apply Exists_app. left. exact H. Qed.

Lemma lookup_image_phdrs img im k :
  (k < Z.to_nat (ei_phnum im))%nat -> image_phdrs img im !! k = Some (header img im (Z.of_nat k)).
Proof. intros Hk. unfold image_phdrs. change (map ?f ?l) with (f <$> l). rewrite list_lookup_fmap, lookup_seq_lt by exact Hk. reflexivity. Qed.

(** One segment more. *)
Lemma pages_before_S img im k va ph :
  image_phdrs img im !! k = Some ph -> pages_before img im k va \/ (loadable ph /\ in_segment_pages ph va) -> pages_before img im (S k) va.
Proof.
  intros Hk H. unfold pages_before. rewrite (take_S_r _ _ _ Hk). apply Exists_app. destruct H as [H | H]; [left; exact H | right; constructor; exact H].
Qed.

(** Two segments of the image share a page. *)
Definition segments_overlap (img : mem) (im : elf64_image) : Prop :=
  exists k ph va, image_phdrs img im !! k = Some ph /\ loadable ph /\ in_segment_pages ph va /\ pages_before img im k va.

Lemma load_user_image_segments_spec s pml4_phys img im size held free :
  let root := pmm_phys_to_virt (vm_pmm s) pml4_phys in
  pt_inv s root held free -> pml4_phys <> 0 -> root <> 0 -> is_u64 size -> 0 <= ei_phnum im ->
  Forall (fun ph => loadable ph -> segment_ok ph size) (image_phdrs img im) ->
  Forall (fun ph => p_type ph = ELF64_PT_LOAD -> p_memsz ph <> 0) (image_phdrs img im) ->
  exists ok s' new, load_user_image_segments s pml4_phys img im = Ret (ok, s')
    /\ load_post root s s' held new (image_pages img im)
    /\ if (ok : bool)
       then Forall (fun ph => loadable ph -> segment_loaded s' root (new ++ held) img ph) (image_phdrs img im)
       else segments_overlap img im \/ (exists va, 0 <= va < 140737488355328 /\ image_pages img im va /\ lookup_in s root va <> None) \/ no_page_left s'.
Proof.
  intros root Hinv Hp4 Hnz Hsz Hn Hok Hne. unfold load_user_image_segments, mrange.
  rewrite List.Forall_forall in Hok, Hne.
  assert (Ht : trips 0 (ei_phnum im) 1 = Z.to_nat (ei_phnum im))
    by (unfold trips; rewrite Z.div_1_r; f_equal; lia).
  rewrite Ht. set (n := Z.to_nat (ei_phnum im)) in *.
  set (failure := fun s' => segments_overlap img im \/ (exists va, 0 <= va < 140737488355328 /\ image_pages img im va /\ lookup_in s root va <> None) \/ no_page_left s').
  edestruct (mfor_ind (R := vmm) (fun i s1 => exists k new, i = Z.of_nat k
      /\ load_post root s s1 held new (pages_before img im k)
      /\ forall j, (j < k)%nat -> loadable (header img im (Z.of_nat j)) ->
           segment_loaded s1 root (new ++ held) img (header img im (Z.of_nat j)))
    (fun c => match c with
       | Cont s' => exists new, load_post root s s' held new (image_pages img im)
           /\ forall j, (j < n)%nat -> loadable (header img im (Z.of_nat j)) ->
                segment_loaded s' root (new ++ held) img (header img im (Z.of_nat j))
       | Break s' => exists new, load_post root s s' held new (image_pages img im) /\ failure s'
       end)) as (c & -> & Hc); cbn [mbind res_bind].
  - exists 0%nat, []. split; [reflexivity|]. split; [eapply load_post_refl, Hinv|]. lia.
  - intros k s1 Hk (k' & new & Ek & L & A). assert (k = Z.of_nat k') as -> by lia.
    replace (0 + Z.of_nat k' * 1) with (Z.of_nat k') in * by lia.
    set (ph := program_header_at img (ei_phoff im) (ei_phentsize im) (Z.of_nat k')).
    assert (Hin : In ph (image_phdrs img im)) by (apply in_image_phdrs; [exact Hn|fold n; lia]).
    destruct (Z.eqb_spec (p_type ph) ELF64_PT_LOAD) as [Hty|Hty].
    + assert (Hl : loadable ph) by (split; [exact Hty|apply Hne; auto]).
      destruct (program_header_words img (ei_phoff im) (ei_phentsize im) (Z.of_nat k')) as (W1 & _ & W3 & _).
      destruct (lp_inv _ _ _ _ _ _ L) as [free1 I1].
      pose proof (root_same s s1 pml4_phys (lp_base _ _ _ _ _ _ L)) as Er. fold root in Er.
      destruct (load_user_segment_spec s1 pml4_phys img ph size (new ++ held) free1)
        as (ok & s2 & new2 & E & L2 & S2); rewrite ?Er; auto; [apply W3|].
      rewrite Er in L2, S2.
      rewrite E. cbn [mbind res_bind]. eexists. split; [reflexivity|].
      assert (Hph : image_phdrs img im !! k' = Some ph) by (apply lookup_image_phdrs; fold n; lia).
      assert (L3 : load_post root s s2 held (new2 ++ new) (pages_before img im (S k'))).
      { eapply load_post_trans; [exact L|exact L2| |]; intros va Hva; apply (pages_before_S _ _ _ _ ph Hph); auto. }
      destruct ok; cbn [negb].
      2:{ exists (new2 ++ new). split; [apply (load_post_weaken _ _ _ _ _ _ _ L3), pages_before_image|].
          destruct S2 as [(va & Hva & Hl') | Hno]; [|right; right; exact Hno].
          destruct (decide (pages_before img im k' va)) as [Hb|Hb]; [left; exists k', ph, va; auto | right; left; exists va].
          destruct (so_user _ _ (Hok ph Hin Hl)) as (U1 & U2 & U3). unfold USERSPACE_MIN_VADDR, USERSPACE_MAX_VADDR in *.
          assert (Hr : 0 <= va < 140737488355328) by (clear -Hva U1 U2 U3; unfold in_segment_pages in Hva; zlia).
          split; [exact Hr|]. split; [apply (pages_before_image _ _ (S k')), (pages_before_S _ _ _ _ ph Hph); auto|].
          rewrite <- (lp_other _ _ _ _ _ _ L va ltac:(lia) Hb). exact Hl'. }
      exists (S k'), (new2 ++ new). split; [lia|]. split; [exact L3|].
      intros j Hj Hjl. rewrite <- app_assoc. destruct (decide (j = k')) as [->|Hjk]; [exact S2|].
      eapply segment_loaded_mono; [exact L2|]. apply A; [lia|exact Hjl].
    + unfold load_user_segment. apply Z.eqb_neq in Hty as Hty'. rewrite Hty'.
      cbn [negb mbind res_bind]. eexists. split; [reflexivity|]. cbn iota.
      exists (S k'), new. split; [lia|]. split; [|intros j Hj Hjl].
      { apply (load_post_weaken _ _ _ _ _ _ _ L). intros va Hva. apply (pages_before_S _ _ _ _ ph); [apply lookup_image_phdrs; fold n; lia | auto]. }
      apply A; [|exact Hjl]. enough (j <> k') by lia. intros ->. apply Hty, Hjl.
  - intros s1 (k & new & Ek & L & A). assert (k = n) as -> by lia. exists new. split; [|exact A].
    apply (load_post_weaken _ _ _ _ _ _ _ L), pages_before_image.
  - destruct c as [s'|s'].
    + destruct Hc as (new & L & A). exists true, s', new. split; [reflexivity|]. split; [exact L|].
      apply List.Forall_forall. intros ph Hin Hl. apply in_map_iff in Hin as (j & <- & Hj).
      apply in_seq in Hj. apply A; [fold n in Hj; lia|exact Hl].
    + destruct Hc as (new & L & Hf). exists false, s', new. split; [reflexivity|]. split; [exact L|exact Hf].
Qed.

(** ** Building a process *)

(** Mapping a frame the kernel holds. *)
Lemma map_held_page s pml4_phys held free p va flags :
  let root := pmm_phys_to_virt (vm_pmm s) pml4_phys in
  pt_inv s root held free -> pml4_phys <> 0 -> root <> 0 -> va mod 4096 = 0 ->
  0 <= va < 281474976710656 -> In p held -> is_u64 flags -> Z.land flags PTE_ADDR_MASK = 0 ->
  exists ok s', vmm_map_page_in_space s pml4_phys va p flags = Ret (ok, s')
    /\ load_post root s s' held [] (fun va' => va' / 4096 = va / 4096)
    /\ if (ok : bool) then lookup_in s' root va = Some (page_entry p flags, 12)
       else lookup_in s root va <> None \/ no_page_left s'.
Proof.
  intros root Hinv Hp4 Hnz Hva Hr Hin Hf Hm. unfold vmm_map_page_in_space.
  apply Z.eqb_neq in Hp4. rewrite Hp4.
  assert (Hp : frame_ok (vm_base s) p).
  { eapply List.Forall_forall; [apply (pt_frames _ _ _ _ Hinv)|]. apply in_or_app. auto. }
  destruct (map_at_level_page s root va p flags _ free Hinv Hnz Hva (proj1 Hp) Hf Hm)
    as (ok & s' & free' & E & I & _ & B & L & Fl & _ & H & N).
  exists ok, s'. split; [exact E|]. split.
  - split; [exact B|eauto|exact H| |].
    + intros va' e Ee. rewrite L. destruct (decide _) as [[-> V]|]; [|exact Ee].
      rewrite (lookup_vpn s root va va' V), (N eq_refl) in Ee. discriminate.
    + intros va' Hva' Hne. rewrite L. apply decide_False. intros [_ V]. unfold vpn in V.
      apply Hne. zlia.
  - destruct ok; [rewrite L; apply decide_True; auto|]. destruct (Fl eq_refl) as [F1 | ->]; [left; exact F1 | right; exact (pt_inv_no_page _ _ _ I)].
Qed.

Lemma user_not_kernel_half va : 0 <= va < 140737488355328 -> kernel_half va = false.
Proof.
  intros Hva. unfold kernel_half. rewrite table_index_div by lia. change (2 ^ 39) with 549755813888. apply Z.leb_gt. zlia.
Qed.

(** The kernel half of a space, and nothing of its user half but [pages]. *)
Definition space_is (s0 s : vmm) (root : Z) (pages : Z -> Prop) : Prop :=
  forall va, 0 <= va < 281474976710656 -> ~ pages va ->
    translate s root va = if kernel_half va then translate s0 (vm_pml4 s0) va else None.

(** The registers a new program starts with. *)
Definition start_regs (entry : Z) : user_registers :=
  mk_regs entry USERSPACE_STACK_TOP 0x202 0 0 0 0 0 0 0 0 0 0 0 0 0 0 0.

Definition in_stack_page (va : Z) : Prop := USERSPACE_STACK_TOP - 4096 <= va < USERSPACE_STACK_TOP.

(** A process whose space holds the image, as the program will see it. *)
Record process_loaded (s0 s : vmm) (img : mem) (im : elf64_image) (pid : Z) (p : process) : Prop := {
  pl_pid : pr_pid p = pid;
  pl_state : pr_state p = PROCESS_READY /\ t_state (pr_main_thread p) = THREAD_READY;
  pl_regs : t_regs (pr_main_thread p) = start_regs (ei_entry im);
  pl_heap : pr_heap_start p = USERSPACE_HEAP_BASE /\ pr_heap_current p = USERSPACE_HEAP_BASE
            /\ pr_heap_end p = USERSPACE_HEAP_LIMIT;
  pl_root : pr_pml4_phys p <> 0;
  pl_segments : Forall (fun ph => loadable ph -> forall va, in_segment_pages ph va ->
      user_byte s (pmm_phys_to_virt (vm_pmm s) (pr_pml4_phys p)) va = Some (segment_byte img ph va))
    (image_phdrs img im);
  pl_stack : forall va, in_stack_page va ->
    user_byte s (pmm_phys_to_virt (vm_pmm s) (pr_pml4_phys p)) va = Some 0;
  pl_space : space_is s0 s (pmm_phys_to_virt (vm_pmm s) (pr_pml4_phys p))
    (fun va => image_pages img im va \/ in_stack_page va)
}.

Lemma prepare_ok pid name pml4 im :
  pml4 <> 0 -> user_range (ei_entry im) 1 -> is_u64 (ei_entry im) ->
  exists p, process_prepare_user_image pid name pml4 im = Some p /\ pr_pid p = pid
    /\ pr_pml4_phys p = pml4 /\ t_regs (pr_main_thread p) = start_regs (ei_entry im)
    /\ pr_heap_start p = USERSPACE_HEAP_BASE /\ pr_heap_current p = USERSPACE_HEAP_BASE
    /\ pr_heap_end p = USERSPACE_HEAP_LIMIT.
Proof.
  intros Hp Hr Hw. unfold process_prepare_user_image. apply Z.eqb_neq in Hp. rewrite Hp.
  apply user_range_spec in Hr; [|exact Hw|unfold is_u64; lia]. rewrite Hr.
  change (userspace_range_is_valid (USERSPACE_STACK_TOP - 1) 1) with true. cbn [negb orb].
  eexists. split; [reflexivity|]. split_and!; reflexivity.
Qed.

Lemma set_cwd_fields p cwd :
  let q := snd (process_set_cwd p cwd) in
  pr_pid q = pr_pid p /\ pr_pml4_phys q = pr_pml4_phys p /\ pr_main_thread q = pr_main_thread p
  /\ pr_heap_start q = pr_heap_start p /\ pr_heap_current q = pr_heap_current p
  /\ pr_heap_end q = pr_heap_end p.
Proof.
  unfold process_set_cwd. repeat (case_goal; cbn [snd]); split_and!; reflexivity.
Qed.

Lemma stack_flags_ok : is_u64 USER_STACK_FLAGS /\ Z.land USER_STACK_FLAGS PTE_ADDR_MASK = 0.
Proof. split; [unfold is_u64; vm_compute; split; congruence|reflexivity]. Qed.

Lemma stack_page_vpn va :
  in_stack_page va -> va / 4096 = (USERSPACE_STACK_TOP - 4096) / 4096.
Proof. unfold in_stack_page, USERSPACE_STACK_TOP. intros H. zlia. Qed.

(** Two parts of the program want the same page: two segments, or a segment and
    the stack. *)
Definition pages_clash (img : mem) (im : elf64_image) : Prop :=
  segments_overlap img im \/ exists va, image_pages img im va /\ in_stack_page va.

#[export] Instance image_pages_dec img im va : Decision (image_pages img im va).
Proof. unfold image_pages. apply _. Defined.

(** Why an image is not loaded: it is not valid, parts of it clash, or the pages
    are used up. *)
Definition not_loadable (img : mem) (size : Z) (s' : vmm) : Prop :=
  (forall im, elf64_validate_user_image (Some img) size = Some im -> pages_clash img im) \/ no_page_left s'.

(** The loader from the point where both pages are allocated: [s] is the state
    with the root [pml4] and the cleared stack page [sp]. *)
Lemma load_into_space s pml4 sp img im size held free :
  let root := pmm_phys_to_virt (vm_pmm s) pml4 in
  pt_inv s root (sp :: held) free -> pml4 <> 0 -> root <> 0 -> is_u64 size -> 0 <= ei_phnum im ->
  (forall o, 0 <= o < 4096 -> vm_mem s (vm_base s + sp + o) = 0) ->
  Forall (fun ph => loadable ph -> segment_ok ph size) (image_phdrs img im) ->
  Forall (fun ph => p_type ph = ELF64_PT_LOAD -> p_memsz ph <> 0) (image_phdrs img im) ->
  (forall va, 0 <= va < 140737488355328 -> lookup_in s root va = None) ->
  exists ok s1, load_user_image_segments s pml4 img im = Ret (ok, s1)
    /\ vm_base s1 = vm_base s /\ held_same s s1 (sp :: held)
    /\ (ok = false -> pages_clash img im \/ no_page_left s1)
    /\ (ok = true -> exists ok2 s2,
        vmm_map_page_in_space s1 pml4 (USERSPACE_STACK_TOP - VMM_PAGE_SIZE) sp USER_STACK_FLAGS
          = Ret (ok2, s2)
        /\ vm_base s2 = vm_base s /\ held_same s s2 (sp :: held)
        /\ (ok2 = false -> pages_clash img im \/ no_page_left s2)
        /\ (ok2 = true ->
            Forall (fun ph => loadable ph -> forall va, in_segment_pages ph va ->
                user_byte s2 root va = Some (segment_byte img ph va)) (image_phdrs img im)
            /\ (forall va, in_stack_page va -> user_byte s2 root va = Some 0)
            /\ forall va, 0 <= va < 281474976710656 -> ~ (image_pages img im va \/ in_stack_page va) ->
                 lookup_in s2 root va = lookup_in s root va)).
Proof.
  intros root Hinv Hp4 Hnz Hsz Hn Hz Hok Hne Fresh.
  destruct (load_user_image_segments_spec s pml4 img im size _ _ Hinv Hp4 Hnz Hsz Hn Hok Hne)
    as (ok & s1 & new & E1 & L1 & S1).
  fold root in L1, S1. pose proof L1 as [B1 (free1 & I1) H1 K1 O1].
  exists ok, s1. split; [exact E1|]. split; [exact B1|]. split; [exact H1|].
  split; [intros ->; destruct S1 as [S1 | [(va & Hva & _ & Hl) | S1]]; [left; left; exact S1 | destruct (Hl (Fresh va Hva)) | right; exact S1]|].
  intros ->.
  destruct stack_flags_ok as [F1 F2].
  pose proof (root_same s s1 pml4 B1) as Er. fold root in Er.
  destruct (map_held_page s1 pml4 (new ++ sp :: held) free1 sp (USERSPACE_STACK_TOP - VMM_PAGE_SIZE)
    USER_STACK_FLAGS) as (ok2 & s2 & E2 & L2 & M2); rewrite ?Er; auto;
    [apply in_elt|].
  rewrite Er in L2, M2. pose proof L2 as [B2 _ H2 K2 O2].
  assert (H12 : held_same s s2 (sp :: held)).
  { eapply held_same_trans; [exact B1|exact H1|]. eapply held_same_incl; [|exact H2].
    intros q Hq. apply in_or_app. auto. }
  exists ok2, s2. split; [exact E2|]. split; [congruence|]. split; [exact H12|]. split.
  { intros ->. destruct M2 as [M2 | M2]; [left; right | right; exact M2]. exists (USERSPACE_STACK_TOP - VMM_PAGE_SIZE).
    split; [|unfold in_stack_page, USERSPACE_STACK_TOP, VMM_PAGE_SIZE; lia].
    destruct (decide (image_pages img im (USERSPACE_STACK_TOP - VMM_PAGE_SIZE))) as [Hp|Hp]; [exact Hp|]. destruct M2.
    rewrite O1 by (exact Hp || (unfold USERSPACE_STACK_TOP, VMM_PAGE_SIZE; lia)). apply Fresh. unfold USERSPACE_STACK_TOP, VMM_PAGE_SIZE. lia. }
  intros ->. split; [|split].
  - eapply List.Forall_impl; [|exact S1]. intros ph Hseg Hl va Hva. cbv beta in Hseg.
    eapply segment_loaded_byte; [|exact Hva].
    eapply segment_loaded_mono; [exact L2|]. apply Hseg, Hl.
  - intros va Hva. apply stack_page_vpn in Hva.
    assert (Hsp : frame_ok (vm_base s1) sp).
    { eapply List.Forall_forall; [apply (pt_frames _ _ _ _ I1)|]. apply in_or_app. right. apply in_elt. }
    rewrite (user_byte_entry s2 root va sp USER_STACK_FLAGS (proj1 Hsp) F1 F2).
    + replace (vm_base s2) with (vm_base s) by congruence. rewrite H12.
      * rewrite Hz; [reflexivity|apply Z.mod_pos_bound; lia].
      * left. reflexivity.
      * apply Z.mod_pos_bound. lia.
    + rewrite <- M2. apply lookup_vpn. unfold vpn. f_equal. exact Hva.
  - intros va Hva Hno. rewrite O2, O1; auto. intros Ev. apply Hno. right.
    unfold in_stack_page, USERSPACE_STACK_TOP, VMM_PAGE_SIZE in *. zlia.
Qed.

(** The loader, whole. *)
Lemma load_user_image_ok (s : vmm) (pid : Z) (name : option (list Z)) (img : mem) (size : Z)
    (cwd : option (list Z)) (held free : list Z) :
  pt_inv s (vm_pml4 s) held free -> vm_pml4 s <> 0 -> is_u64 size ->
  (forall im, elf64_validate_user_image (Some img) size = Some im ->
     Forall (fun ph => p_type ph = ELF64_PT_LOAD -> p_memsz ph <> 0) (image_phdrs img im)) ->
  exists r s', process_load_user_image_bytes s pid name img size cwd = Ret (r, s')
    /\ held_same s s' held
    /\ match r with
       | None => not_loadable img size s'
       | Some p => exists im, elf64_validate_user_image (Some img) size = Some im
                     /\ process_loaded s s' img im pid p
       end.
Proof.
  intros Hinv Hnz Hsz Hne. unfold process_load_user_image_bytes.
  pose proof (create_space_spec s held free Hinv Hnz) as C. destruct free as [|pml4 free].
  { rewrite C. cbn [mbind res_bind]. rewrite (pt_inv_alloc _ _ _ _ Hinv : pmm_alloc_page _ = _).
    cbn [Z.eqb orb]. eexists _, _. split; [reflexivity|]. split; [intros q o _ _; reflexivity|].
    right. replace (set_vm_pmm s (vm_pmm s)) with s by (destruct s; reflexivity). exact (pt_inv_no_page _ _ _ Hinv). }
  destruct C as (s1 & -> & [I1 _ L1 _ H1 B1 (P1 & _) [Hp4 Hr1]]). cbn [mbind res_bind].
  apply Z.eqb_neq in Hp4 as Hp4'. pose proof (pt_inv_alloc _ _ _ _ I1) as Ha. destruct free as [|sp free].
  { rewrite Ha, Hp4'. cbn [Z.eqb orb]. eexists _, _. split; [reflexivity|]. split; [exact H1|].
    right. replace (set_vm_pmm s1 (vm_pmm s1)) with s1 by (destruct s1; reflexivity). exact (pt_inv_no_page _ _ _ I1). }
  destruct Ha as (pm & -> & I2 & Hm & Hb & Hsp0 & Hsp). apply Z.eqb_neq in Hsp0. rewrite Hp4', Hsp0.
  cbn [orb]. set (s2 := set_vm_pmm s1 pm) in *.
  assert (B2 : vm_base s2 = vm_base s1) by exact Hb.
  assert (H2 : held_same s s2 held).
  { eapply held_same_trans; [exact B1|exact H1|]. intros q o _ _.
    change (vm_mem s2) with (pm_mem pm). rewrite Hm. reflexivity. }
  destruct (elf64_validate_user_image (Some img) size) as [im|] eqn:Hval;
    [|eexists _, _; split; [reflexivity|]; split; [exact H2|left; intros im E; congruence]].
  destruct (validate_accepts img size im Hsz Hval) as (_ & _ & Hsegs & _ & Hn & Hu).
  assert (Hv : pmm_phys_to_virt (vm_pmm s2) sp = vm_base s2 + sp).
  { unfold pmm_phys_to_virt. apply page_ok_virt; [apply (pi_base _ _ (pt_pmm _ _ _ _ I2))|].
    fold (vm_base s2). rewrite B2. apply Hsp. }
  rewrite Hv. destruct (zero_page_spec s2 _ held free sp I2) as (I3 & L3 & Z3 & H3).
  specialize (H3 (pt_nodup _ _ _ _ I2)). set (s3 := set_vm_mem s2 _) in *.
  set (root := pmm_phys_to_virt (vm_pmm s1) pml4) in *.
  assert (Er : pmm_phys_to_virt (vm_pmm s3) pml4 = root) by (apply root_same; exact B2).
  destruct (load_into_space s3 pml4 sp img im size held free) as (ok & s4 & -> & B4 & H4 & N4 & K4);
    rewrite ?Er; auto; [lia | |].
  { intros va Hva. rewrite L3. change (vm_mem s2) with (pm_mem pm). rewrite Hm, B2, L1. rewrite user_not_kernel_half by exact Hva. reflexivity. }
  rewrite Er in K4.
  assert (Why : forall t, pages_clash img im \/ no_page_left t -> not_loadable img size t).
  { intros t [Hc | Hc]; [left | right; exact Hc]. intros im' E. congruence. }
  assert (Hh : forall t, vm_base t = vm_base s3 -> held_same s3 t (sp :: held) -> held_same s t held).
  { intros t Bt Ht. apply (held_same_trans s s3 t held); [transitivity (vm_base s1); [exact B2|exact B1]| |].
    - apply (held_same_trans s s2 s3 held); [congruence|exact H2|exact H3].
    - eapply held_same_incl; [|exact Ht]. intros q Hq. right. exact Hq. }
  cbn [mbind res_bind]. destruct ok; cbn [negb]; [|eexists _, _; split; [reflexivity|]; split; auto].
  destruct (K4 eq_refl) as (ok2 & s5 & -> & B5 & H5 & N5 & K5). cbn [mbind res_bind].
  destruct ok2; cbn [negb]; [|eexists _, _; split; [reflexivity|]; split; auto].
  destruct (K5 eq_refl) as (Segs & Stk & Oth).
  assert (Hw : is_u64 (ei_entry im)) by (destruct Hu as (? & ? & ?); unfold is_u64, USERSPACE_MIN_VADDR, USERSPACE_MAX_VADDR in *; lia).
  destruct (prepare_ok pid name pml4 im Hp4 Hu Hw) as (p & -> & Q1 & Q2 & Q3 & Q4 & Q5 & Q6).
  eexists _, _. split; [reflexivity|]. split; [auto|]. exists im. split; [reflexivity|].
  set (cw := Some match cwd with Some c => c | None => [47] end).
  destruct (set_cwd_fields p cw) as (R1 & R2 & R3 & R4 & R5 & R6).
  assert (Er5 : pmm_phys_to_virt (vm_pmm s5) pml4 = root) by (apply root_same; rewrite B5; exact B2).
  split; cbn [set_states pr_pid pr_state pr_main_thread t_state t_regs pr_heap_start pr_heap_current
    pr_heap_end pr_pml4_phys]; rewrite ?R1, ?R2, ?R3, ?R4, ?R5, ?R6, ?Q2, ?Er5; auto.
  intros va Hva Hno. unfold translate. rewrite (Oth va Hva Hno), L3.
  change (vm_mem s2) with (pm_mem pm). rewrite Hm, B2, L1. destruct (kernel_half va); reflexivity.
Qed.

(** Loading a program builds exactly the address space its image describes.
    For every valid image without empty loadable segments, if the loader returns
    a process, then in the new space every page of every loadable segment holds
    the file's bytes at their addresses and zeros after them, the stack page is
    zero, no other user address is mapped, the kernel half is the active space's,
    and the thread is ready to start at the entry point with an empty stack.
    Whatever the outcome, the call returns and frames held by others keep their
    contents, and an image the validator refuses gives no process. *)
Theorem load_user_image_correct (s : vmm) (pid : Z) (name : option (list Z)) (img : mem) (size : Z)
    (cwd : option (list Z)) (held free : list Z) :
  pt_inv s (vm_pml4 s) held free -> vm_pml4 s <> 0 -> is_u64 size ->
  (forall im, elf64_validate_user_image (Some img) size = Some im ->
     Forall (fun ph => p_type ph = ELF64_PT_LOAD -> p_memsz ph <> 0) (image_phdrs img im)) ->
  exists r s', process_load_user_image_bytes s pid name img size cwd = Ret (r, s')
    /\ held_same s s' held
    /\ match r with
       | None => not_loadable img size s'
       | Some p => exists im, elf64_validate_user_image (Some img) size = Some im
                     /\ process_loaded s s' img im pid p
       end.
Proof. apply load_user_image_ok. Qed.

(** ** sbrk *)

Lemma mfor_ext {S R : Type} (f g : Z -> S -> res (ctl S R)) n i step s :
  (forall k t, f k t = g k t) -> mfor n i step f s = mfor n i step g s.
Proof.
  intros H. revert i s. induction n as [|n IH]; intros i s; [reflexivity|]. cbn [mfor].
  rewrite H. destruct (g i s) as [[s'|r]| |]; cbn [mbind res_bind]; auto.
Qed.

(** One turn of the loop of [sbrk]. *)
Definition sbrk_page (pml4_phys : Z) (s : vmm) (vaddr : Z) : res (bool * vmm) :=
  let '(page_phys, pm) := pmm_alloc_page (vm_pmm s) in
  let s := set_vm_pmm s pm in
  if page_phys =? 0 then Ret (false, s)
  else
    let page := pmm_phys_to_virt (vm_pmm s) page_phys in
    let s := set_vm_mem s (mem_fill (vm_mem s) page 0 (Z.to_nat VMM_PAGE_SIZE)) in
    vmm_map_page_in_space s pml4_phys vaddr page_phys USER_STACK_FLAGS.

Lemma sbrk_page_spec pml4_phys lo hi :
  pml4_phys <> 0 -> steps_ok (sbrk_page pml4_phys) pml4_phys USER_STACK_FLAGS (fun _ => 0) lo hi.
Proof.
  intros Hp4 s va held free Hinv Hnz Hva Hr. destruct stack_flags_ok as [Hf1 Hf2].
  unfold sbrk_page. pose proof (pt_inv_alloc _ _ _ _ Hinv) as Ha. destruct free as [|p free].
  { rewrite Ha. cbn [Z.eqb]. exists false, (set_vm_pmm s (vm_pmm s)), []. split; [reflexivity|].
    destruct s; apply pt_inv_empty_step; exact Hinv. }
  destruct Ha as (pm & -> & I1 & Hm & Hb & Hp0 & Hp). set (s1 := set_vm_pmm s pm) in *.
  apply Z.eqb_neq in Hp0 as Hp0'. rewrite Hp0'. assert (Hb1 : vm_base s1 = vm_base s) by exact Hb.
  assert (Hv : pmm_phys_to_virt (vm_pmm s1) p = vm_base s1 + p).
  { unfold pmm_phys_to_virt. apply page_ok_virt; [apply (pi_base _ _ (pt_pmm _ _ _ _ I1))|].
    fold (vm_base s1). rewrite Hb1. apply Hp. }
  rewrite Hv. destruct (zero_page_spec s1 _ held free p I1) as (I2 & L2 & Z2 & H2).
  specialize (H2 (pt_nodup _ _ _ _ I1)). set (s2 := set_vm_mem s1 _) in *.
  assert (Er : pmm_phys_to_virt (vm_pmm s2) pml4_phys = pmm_phys_to_virt (vm_pmm s) pml4_phys)
    by (apply root_same; exact Hb1).
  destruct (map_filled_step s2 pml4_phys held free p va USER_STACK_FLAGS (fun _ => 0))
    as (ok & s4 & E4 & St); rewrite ?Er; auto.
  { intros o Ho. change (vm_base s2) with (vm_base s1). rewrite Z2 by exact Ho. reflexivity. }
  exists ok, s4, [p]. split; [exact E4|]. rewrite Er in St. eapply page_step_pre; [| | |exact St].
  - exact Hb1.
  - intros va'. rewrite L2. unfold s1, vm_mem, vm_base. cbn [vm_pmm set_vm_pmm]. rewrite Hb, Hm. reflexivity.
  - apply (held_same_trans s s1 s2 held); [exact Hb1| |exact H2].
    intros q o _ _. change (vm_mem s1) with (pm_mem pm). rewrite Hm. reflexivity.
Qed.

(** The pages between two breaks. *)
Definition between_breaks (old new va : Z) : Prop :=
  (old + 4095) / 4096 <= va / 4096 < (new + 4095) / 4096.

(** The pages between two breaks are those of the loop of [process_sbrk]. *)
Lemma break_pages cur new :
  0 <= cur <= new -> new <= 0x00007ffffffff000 ->
  exists first n, align_up cur VMM_PAGE_SIZE = first
    /\ align_up new VMM_PAGE_SIZE = first + 4096 * Z.of_nat n
    /\ 0 <= first /\ first mod 4096 = 0 /\ first + 4096 * Z.of_nat n <= 140737488355328
    /\ forall va, between_breaks cur new va <-> first <= va < first + 4096 * Z.of_nat n.
Proof.
  intros Hc Hn. change VMM_PAGE_SIZE with (2 ^ 12). rewrite !align_up_spec by lia. change (2 ^ 12) with 4096.
  set (first := cur + 4096 - 1 - (cur + 4096 - 1) mod 4096).
  set (n := Z.to_nat ((new + 4095) / 4096 - (cur + 4095) / 4096)).
  assert (En : Z.of_nat n = (new + 4095) / 4096 - (cur + 4095) / 4096) by (unfold n; rewrite Z2Nat.id; zlia).
  assert (Ef : first = 4096 * ((cur + 4095) / 4096)) by (unfold first; zlia).
  exists first, n. unfold between_breaks. clearbody n first. split_and!; try zlia. intros va. split; intros; zlia.
Qed.

(** C19. [sbrk] is what a program expects of it. It returns; it fails only on a
    shrink, a break past the limit, when a page of the new range is mapped
    already or when memory has run out, and then the break does not move. When it succeeds it returns the old break, moves the
    break by the increment, and every page between the two breaks reads as
    zero. No existing mapping changes in either case, and frames held by others
    keep their contents. *)
Theorem process_sbrk_correct (s : vmm) (p : process) (increment : Z) (held free : list Z) :
  let root := pmm_phys_to_virt (vm_pmm s) (pr_pml4_phys p) in
  pt_inv s root held free -> pr_pml4_phys p <> 0 -> root <> 0 ->
  0 <= pr_heap_current p <= pr_heap_end p -> pr_heap_end p <= 0x00007ffffffff000 ->
  - 0x8000000000000000 <= increment < 0x8000000000000000 ->
  exists r p' s', process_sbrk s p increment = Ret (r, p', s')
    /\ held_same s s' held /\ kept root s s'
    /\ (forall va, 0 <= va < 281474976710656 ->
          ~ between_breaks (pr_heap_current p) (pr_heap_current p + increment) va ->
          lookup_in s' root va = lookup_in s root va)
    /\ match r with
       | Some b => b = pr_heap_current p /\ 0 <= increment
           /\ pr_heap_current p + increment <= pr_heap_end p
           /\ p' = set_heap_current p (pr_heap_current p + increment)
           /\ forall va, between_breaks (pr_heap_current p) (pr_heap_current p + increment) va ->
                user_byte s' root va = Some 0
       | None => p' = p /\ (increment < 0 \/ pr_heap_end p < pr_heap_current p + increment
           \/ (exists va, between_breaks (pr_heap_current p) (pr_heap_current p + increment) va
                 /\ lookup_in s root va <> None)
           \/ exists held', pt_inv s' root held' [])
       end.
Proof.
  intros root Hinv Hp4 Hnz Hcur Hend Hi. unfold process_sbrk.
  set (cur := pr_heap_current p) in *.
  assert (Hid : held_same s s held /\ kept root s s)
    by (split; [apply held_same_refl|intros va e E; exact E]).
  destruct Hid as [Hid1 Hid2].
  destruct (Z.eqb_spec increment 0) as [->|H0].
  { eexists _, _, s. split; [reflexivity|]. rewrite Z.add_0_r. split_and!; auto; try lia.
    - destruct p; reflexivity.
    - intros va Hva. unfold between_breaks in Hva. lia. }
  destruct (Z.ltb_spec increment 0) as [Hneg|Hpos];
    [eexists _, _, s; split; [reflexivity|]; split_and!; auto|].
  rewrite u64_id by (unfold is_u64; lia).
  destruct (Z.ltb_spec (cur + increment) cur) as [|_]; [lia|].
  destruct (Z.ltb_spec (pr_heap_end p) (cur + increment)) as [Hlim|Hlim]; cbn [orb];
    [eexists _, _, s; split; [reflexivity|]; split_and!; auto|].
  destruct (break_pages cur (cur + increment) ltac:(lia) ltac:(lia))
    as (first & n & -> & -> & Hf2 & Hf1 & Hmax & Hpages).
  unfold mrange. change VMM_PAGE_SIZE with 4096. rewrite trips_exact.
  rewrite (mfor_ext _ (fun va s => sbrk_page (pr_pml4_phys p) s va ≫= fun '(ok, s) =>
              Ret (if negb ok then Break s else Cont s))).
  2:{ intros va t. unfold sbrk_page. destruct (pmm_alloc_page (vm_pmm t)) as [pp pm].
      destruct (pp =? 0); reflexivity. }
  destruct (map_pages_spec (sbrk_page (pr_pml4_phys p)) (pr_pml4_phys p) USER_STACK_FLAGS (fun _ => 0)
      s first n held free Hinv Hnz Hf1 ltac:(lia) (sbrk_page_spec _ _ _ Hp4)) as (r & -> & Hr).
  fold root in Hr. cbn [mbind res_bind].
  assert (Hout : forall va, 0 <= va < 281474976710656 -> ~ between_breaks cur (cur + increment) va ->
    forall i, (i < n)%nat -> vpn va <> vpn (first + 4096 * Z.of_nat i)).
  { intros va Hva Hni. apply (page_index first n va Hva Hf2 Hf1); [lia|]. rewrite <- Hpages. exact Hni. }
  destruct r as [s'|s'].
  - destruct Hr as (new & [B I' H K O P]). eexists _, _, s'. split; [reflexivity|].
    split_and!; auto. intros va Hva. pose proof (proj1 (Hpages va) Hva) as Hr.
    destruct (proj1 (page_index first n va ltac:(lia) Hf2 Hf1 ltac:(lia)) Hr) as (i & Hilt & Ei & Ev).
    destruct (P i Hilt) as (q & _ & P2 & P3 & P4). destruct stack_flags_ok as [F1 F2].
    rewrite (user_byte_entry s' root va q USER_STACK_FLAGS P2 F1 F2).
    + rewrite P4 by (apply Z.mod_pos_bound; lia). reflexivity.
    + rewrite (lookup_vpn _ _ _ _ Ev). exact P3.
  - destruct Hr as (k & new & Hk & B & I' & H & K & O & R). eexists _, _, s'. split; [reflexivity|].
    split_and!; auto; [intros va Hva Hni; apply O; intros i Hilt; apply (Hout va Hva Hni); lia|].
    right. right. destruct R as [(i & Hilt & R)|R]; [left|right; eauto].
    exists (first + 4096 * Z.of_nat i). split; [apply Hpages; lia|exact R].
Qed.

(** ** Witnesses *)

Definition is_some_process (x : res (option process * vmm)) : bool :=
  match x with Ret (Some _, _) => true | _ => false end.

Lemma demo_load_some :
  is_some_process (process_load_user_image_bytes demo_vmm 7 None demo_image 200 None) = true.
Proof. vm_compute. reflexivity. Qed.

Definition demo_elf : elf64_image := mk_elf_image 0x400000 64 1 56.

Lemma demo_validate : elf64_validate_user_image (Some demo_image) 200 = Some demo_elf.
Proof. vm_compute. reflexivity. Qed.

Lemma demo_phdrs : image_phdrs demo_image demo_elf = [mk_phdr 1 5 0 0x400000 120 200 4096].
Proof. vm_compute. reflexivity. Qed.

(** The demonstration image loads, and the program reads its first byte. *)
Lemma load_user_image_correct_witness :
  exists p s', process_load_user_image_bytes demo_vmm 7 None demo_image 200 None = Ret (Some p, s')
    /\ user_byte s' (pmm_phys_to_virt (vm_pmm s') (pr_pml4_phys p)) 0x400000 = Some 0x7f.
Proof.
  destruct (load_user_image_correct demo_vmm 7 None demo_image 200 None [] (rev demo_pages))
    as (r & s' & E & _ & H).
  - rewrite demo_vmm_pml4. exact demo_vmm_inv.
  - rewrite demo_vmm_pml4. exact demo_root_nonzero.
  - unfold is_u64. lia.
  - intros im Hv. rewrite demo_validate in Hv. injection Hv as <-. rewrite demo_phdrs.
    constructor; [discriminate|constructor].
  - pose proof demo_load_some as D. rewrite E in D. destruct r as [p|]; [|discriminate].
    exists p, s'. split; [exact E|]. destruct H as (im & Hv & L). rewrite demo_validate in Hv.
    injection Hv as <-. pose proof (pl_segments _ _ _ _ _ _ L) as Hs. rewrite demo_phdrs in Hs.
    inversion Hs as [|? ? H1 _]; subst. rewrite H1.
    + f_equal.
    + split; [reflexivity|discriminate].
    + split; reflexivity || (vm_compute; discriminate).
Defined.

(** A process that runs in the demonstration space. *)
Definition demo_process : process :=
  mk_process 1 PROCESS_RUNNING 135168 0x400000 USERSPACE_STACK_TOP USERSPACE_HEAP_BASE
    USERSPACE_HEAP_BASE USERSPACE_HEAP_LIMIT (mk_thread 1 1 THREAD_RUNNING zero_regs) [] [47].

Lemma process_sbrk_correct_witness :
  exists r p' s', process_sbrk demo_vmm demo_process 5000 = Ret (r, p', s').
Proof.
  destruct (process_sbrk_correct demo_vmm demo_process 5000 [] (rev demo_pages))
    as (r & p' & s' & E & _).
  - exact demo_vmm_inv.
  - discriminate.
  - exact demo_root_nonzero.
  - split; vm_compute; discriminate.
  - vm_compute. discriminate.
  - lia.
  - eauto.
Defined.

(** ** Counterexamples to stronger claims *)

(** The demonstration image with a second loadable header: it is empty in
    memory, and its address is in the kernel half. *)
Definition stray_image : mem :=
  mem_write (fun _ => 0) 0
    (demo_ehdr_bytes 0x400000 2 ++ demo_phdr_bytes 5 0 0x400000 120 200
     ++ demo_phdr_bytes 6 0 0xffff900000000010 0 0).

Definition stray_va : Z := 0xffff900000000000.

Definition maps_user_page (x : res (option process * vmm)) (va : Z) : bool :=
  match x with
  | Ret (Some p, s') =>
      match lookup_in s' (pmm_phys_to_virt (vm_pmm s') (pr_pml4_phys p)) va with
      | Some (e, _) => negb (Z.land e VMM_USER =? 0)
      | None => false
      end
  | _ => false
  end.

(** A loadable segment with no memory is skipped by the validator but not by
    the loader: this image is accepted although its second segment names a
    kernel-half address, and the process it gives has a page mapped there,
    accessible to the program, where the kernel had mapped nothing. *)
Theorem empty_segment_escapes_validation :
  (exists im, elf64_validate_user_image (Some stray_image) 200 = Some im)
  /\ userspace_range_is_valid stray_va 1 = false
  /\ translate demo_vmm (vm_pml4 demo_vmm) stray_va = None
  /\ exists p s' e sh, process_load_user_image_bytes demo_vmm 7 None stray_image 200 None = Ret (Some p, s')
       /\ lookup_in s' (pmm_phys_to_virt (vm_pmm s') (pr_pml4_phys p)) stray_va = Some (e, sh)
       /\ Z.land e VMM_USER <> 0.
Proof.
  split_and!; [eexists; vm_compute; reflexivity|reflexivity|vm_compute; reflexivity|].
  assert (H : maps_user_page (process_load_user_image_bytes demo_vmm 7 None stray_image 200 None)
                stray_va = true) by (vm_compute; reflexivity).
  destruct (process_load_user_image_bytes _ _ _ _ _ _) as [[[p|] s']| |]; try discriminate.
  cbn [maps_user_page] in H. destruct (lookup_in _ _ _) as [[e sh]|] eqn:E; [|discriminate].
  apply negb_true_iff, Z.eqb_neq in H. exists p, s', e, sh. auto.
Qed.

(** Run [sbrk] twice, pages being freed by others between the calls. *)
Definition sbrk_twice (first second : Z) (freed : list Z)
    : option (option Z * option Z * Z) :=
  match process_sbrk demo_vmm demo_process first with
  | Ret (r1, p1, s1) =>
      let s1 := set_vm_pmm s1 (fold_left pmm_free_page freed (vm_pmm s1)) in
      match process_sbrk s1 p1 second with
      | Ret (r2, p2, _) => Some (r1, r2, pr_heap_current p2)
      | _ => None
      end
  | _ => None
  end.

(** A failed [sbrk] is not undone: after a request that runs out of memory
    half way, the pages mapped so far stay mapped although the break did not
    move, so that a later request for a single page fails even when memory is
    available again; the same later request succeeds after a small first one. *)
Theorem sbrk_failure_sticks :
  sbrk_twice 0x40000 4096 [0x400000; 0x401000; 0x402000; 0x403000; 0x404000]
    = Some (None, None, USERSPACE_HEAP_BASE)
  /\ sbrk_twice 4096 4096 [0x400000; 0x401000; 0x402000; 0x403000; 0x404000]
    = Some (Some USERSPACE_HEAP_BASE, Some (USERSPACE_HEAP_BASE + 4096), USERSPACE_HEAP_BASE + 8192).
Proof. vm_compute. auto. Qed.
