(* ===== verification/Scheduler.v ===== *)
(** * The scheduler (src/userspace/scheduler.c)

    One user process runs at a time. A process that starts another one blocks
    until the child exits: its registers wait on the [blocking_runs] stack, and
    the child's exit system call returns through a frame that holds them. The
    functions that do not return to their caller give the [transfer] of control
    they end in. *)

From S2P Require Import Prelude Pmm Vmm Pages Heap Fs Elf Process.

(** [struct interrupt_frame] (src/arch/x86_64/idt.h). *)
Record interrupt_frame : Type := mk_iframe {
  if_r15 : Z; if_r14 : Z; if_r13 : Z; if_r12 : Z; if_r11 : Z; if_r10 : Z; if_r9 : Z; if_r8 : Z;
  if_rbp : Z; if_rdi : Z; if_rsi : Z; if_rdx : Z; if_rcx : Z; if_rbx : Z; if_rax : Z;
  if_vector : Z; if_error_code : Z; if_rip : Z; if_cs : Z; if_rflags : Z;
  if_user_rsp : Z; if_user_ss : Z
}.

(** [struct syscall_frame] (src/userspace/syscall.h). *)
Record syscall_frame : Type := mk_sframe {
  sf_number : Z;
  sf_arg0 : Z; sf_arg1 : Z; sf_arg2 : Z; sf_arg3 : Z; sf_arg4 : Z; sf_arg5 : Z;
  sf_rbx : Z; sf_rcx : Z; sf_rbp : Z;
  sf_r11 : Z; sf_r12 : Z; sf_r13 : Z; sf_r14 : Z; sf_r15 : Z;
  sf_user_rip : Z; sf_user_rsp : Z; sf_rflags : Z
}.

(** [parent] is [None] for NULL, otherwise the slot of the process. *)
Record blocking_run : Type := mk_run {
  br_parent : option nat;
  br_parent_regs : user_registers
}.

Definition empty_run : blocking_run := mk_run None zero_regs.

(** The file-scope variables; [sc_return_context] tells whether the pointer is
    set. *)
Record sched : Type := mk_sched {
  sc_current : option nat;
  sc_return_context : bool;
  sc_initialized : bool;
  sc_preemptive_enabled : bool;
  sc_ticks : Z;
  sc_user_preemptions : Z;
  sc_launches : Z;
  sc_exits : Z;
  sc_last_exit_status : Z;
  sc_blocking_runs : list blocking_run;
  sc_blocking_run_depth : Z
}.

Record scheduler_status : Type := mk_sched_status {
  ss_initialized : bool;
  ss_preemptive_enabled : bool;
  ss_user_task_active : bool;
  ss_ticks : Z;
  ss_user_preemptions : Z;
  ss_launches : Z;
  ss_exits : Z;
  ss_last_exit_status : Z;
  ss_current_pid : Z;
  ss_current_process_state : process_state;
  ss_current_thread_state : thread_state
}.

Inductive transfer : Type :=
  | EnterUser (rip rsp : Z)
  | RestoreKernel (value : Z).

Definition frame_is_from_user (frame : option interrupt_frame) : bool :=
  match frame with
  | Some f => Z.land (if_cs f) 3 =? 3
  | None => false
  end.

Definition save_user_frame (t : thread) (f : interrupt_frame) : thread :=
  mk_thread (t_tid t) (t_owner_pid t) (t_state t)
    (mk_regs (if_rip f) (if_user_rsp f) (if_rflags f) (if_rax f) (if_rbx f) (if_rcx f)
       (if_rdx f) (if_rsi f) (if_rdi f) (if_rbp f) (if_r8 f) (if_r9 f) (if_r10 f) (if_r11 f)
       (if_r12 f) (if_r13 f) (if_r14 f) (if_r15 f)).

Definition registers_from_syscall_frame (f : syscall_frame) : user_registers :=
  mk_regs (sf_user_rip f) (sf_user_rsp f) (sf_rflags f) 0 (sf_rbx f) (sf_rcx f)
    (sf_arg2 f) (sf_arg1 f) (sf_arg0 f) (sf_rbp f) (sf_arg4 f) (sf_arg5 f) (sf_arg3 f)
    (sf_r11 f) (sf_r12 f) (sf_r13 f) (sf_r14 f) (sf_r15 f).

Definition syscall_frame_from_registers (f : syscall_frame) (r : user_registers) : syscall_frame :=
  mk_sframe (sf_number f) (r_rdi r) (r_rsi r) (r_rdx r) (r_r10 r) (r_r8 r) (r_r9 r)
    (r_rbx r) (r_rcx r) (r_rbp r) (r_r11 r) (r_r12 r) (r_r13 r) (r_r14 r) (r_r15 r)
    (r_rip r) (r_rsp r) (r_rflags r).

Definition scheduler_init : sched :=
  mk_sched None false true true 0 0 0 0 0
    (repeat empty_run (Z.to_nat USERSPACE_MAX_PROCESSES)) 0.

Definition set_current (c : sched) (p : option nat) : sched :=
  mk_sched p (sc_return_context c) (sc_initialized c) (sc_preemptive_enabled c) (sc_ticks c)
    (sc_user_preemptions c) (sc_launches c) (sc_exits c) (sc_last_exit_status c)
    (sc_blocking_runs c) (sc_blocking_run_depth c).

Definition set_runs (c : sched) (runs : list blocking_run) (depth : Z) : sched :=
  mk_sched (sc_current c) (sc_return_context c) (sc_initialized c) (sc_preemptive_enabled c)
    (sc_ticks c) (sc_user_preemptions c) (sc_launches c) (sc_exits c) (sc_last_exit_status c)
    runs depth.

Definition count_launch (c : sched) : sched :=
  mk_sched (sc_current c) (sc_return_context c) (sc_initialized c) (sc_preemptive_enabled c)
    (sc_ticks c) (sc_user_preemptions c) (u64 (sc_launches c + 1)) (sc_exits c)
    (sc_last_exit_status c) (sc_blocking_runs c) (sc_blocking_run_depth c).

Definition count_exit (c : sched) (status : Z) : sched :=
  mk_sched (sc_current c) (sc_return_context c) (sc_initialized c) (sc_preemptive_enabled c)
    (sc_ticks c) (sc_user_preemptions c) (sc_launches c) (u64 (sc_exits c + 1))
    status (sc_blocking_runs c) (sc_blocking_run_depth c).

Section Scheduler.
Context {F : Type}.

(** The process table and the scheduler's variables. *)
Record user_sys : Type := mk_user_sys {
  u_sys : proc_sys F;
  u_sched : sched
}.

Definition proc_at (u : user_sys) (i : nat) : process := sy_processes (u_sys u) !!! i.

Definition put_process (u : user_sys) (i : nat) (p : process) : user_sys :=
  mk_user_sys (with_process (u_sys u) i p) (u_sched u).

Definition put_states (u : user_sys) (i : nat) (ps : process_state) (ts : thread_state) : user_sys :=
  put_process u i (set_states (proc_at u i) ps ts).

Definition with_sched (u : user_sys) (c : sched) : user_sys := mk_user_sys (u_sys u) c.

Definition activate (u : user_sys) (pml4_phys : Z) : user_sys :=
  let h := sy_heap (u_sys u) in
  mk_user_sys (with_heap (u_sys u)
                 (with_pages h (vmm_activate_address_space (kh_pages h) pml4_phys))) (u_sched u).

Definition is_ready (u : user_sys) (i : nat) : bool :=
  bool_decide (pr_state (proc_at u i) = PROCESS_READY)
  && bool_decide (t_state (pr_main_thread (proc_at u i)) = THREAD_READY).

(** [return_context] tells whether the pointer is not NULL. *)
Definition scheduler_prepare_launch (u : user_sys) (process : option nat) (return_context : bool)
    : bool * user_sys :=
  match process with
  | Some i =>
      if negb (sc_initialized (u_sched u)) || negb return_context || negb (is_ready u i)
      then (false, u)
      else
        let c := set_current (u_sched u) (Some i) in
        (true, with_sched u
          (mk_sched (sc_current c) return_context (sc_initialized c) (sc_preemptive_enabled c)
             (sc_ticks c) (sc_user_preemptions c) (sc_launches c) (sc_exits c)
             (sc_last_exit_status c) (sc_blocking_runs c) (sc_blocking_run_depth c)))
  | None => (false, u)
  end.

Definition scheduler_enter_current (u : user_sys) : res (transfer * user_sys) :=
  match sc_current (u_sched u) with
  | Some i =>
      if negb (sc_return_context (u_sched u)) then Panic
      else
        let u := with_sched u (count_launch (u_sched u)) in
        let u := put_states u i PROCESS_RUNNING THREAD_RUNNING in
        let u := activate u (pr_pml4_phys (proc_at u i)) in
        let regs := t_regs (pr_main_thread (proc_at u i)) in
        Ret (EnterUser (r_rip regs) (r_rsp regs), u)
  | None => Panic
  end.

Definition scheduler_run_process_blocking (u : user_sys) (process : option nat)
    (parent_frame : option syscall_frame) : res (transfer * user_sys) :=
  match sc_current (u_sched u), process, parent_frame with
  | Some parent, Some i, Some frame =>
      if negb (sc_initialized (u_sched u)) || negb (is_ready u i)
         || (USERSPACE_MAX_PROCESSES <=? sc_blocking_run_depth (u_sched u))
      then Panic
      else
        let u := put_states u parent PROCESS_READY THREAD_BLOCKED in
        let c := u_sched u in
        let depth := sc_blocking_run_depth c in
        let c := set_runs c
          (<[Z.to_nat depth := mk_run (Some parent) (registers_from_syscall_frame frame)]>
             (sc_blocking_runs c)) (depth + 1) in
        scheduler_enter_current (with_sched u (set_current c (Some i)))
  | _, _, _ => Panic
  end.

Definition exit_process (u : user_sys) : user_sys :=
  match sc_current (u_sched u) with
  | Some i => put_states u i PROCESS_EXITED THREAD_EXITED
  | None => u
  end.

Definition scheduler_finish_blocking_exit (u : user_sys) (status : Z)
    (return_frame : option syscall_frame) : bool * user_sys * option syscall_frame :=
  match return_frame with
  | None => (false, u, return_frame)
  | Some frame =>
      let c := u_sched u in
      if sc_blocking_run_depth c =? 0 then (false, u, return_frame)
      else
        let depth := sc_blocking_run_depth c - 1 in
        let run := nth (Z.to_nat depth) (sc_blocking_runs c) empty_run in
        let u := with_sched u (set_runs c (<[Z.to_nat depth := empty_run]> (sc_blocking_runs c)) depth) in
        match br_parent run with
        | None => (false, u, return_frame)
        | Some parent =>
            let u := exit_process u in
            let u := with_sched u (set_current (count_exit (u_sched u) status) (Some parent)) in
            let u := put_states u parent PROCESS_RUNNING THREAD_RUNNING in
            let u := activate u (pr_pml4_phys (proc_at u parent)) in
            (true, u, Some (syscall_frame_from_registers frame (br_parent_regs run)))
        end
  end.

Definition scheduler_exit_current (u : user_sys) (status : Z) : res (transfer * user_sys) :=
  let u := exit_process u in
  let u := with_sched u (set_current (count_exit (u_sched u) status) None) in
  let u := activate u 0 in
  if negb (sc_return_context (u_sched u)) then Panic
  else Ret (RestoreKernel 1, u).

Definition scheduler_tick (u : user_sys) (frame : option interrupt_frame) : user_sys :=
  let c := u_sched u in
  let u := with_sched u
    (mk_sched (sc_current c) (sc_return_context c) (sc_initialized c) (sc_preemptive_enabled c)
       (u64 (sc_ticks c + 1)) (sc_user_preemptions c) (sc_launches c) (sc_exits c)
       (sc_last_exit_status c) (sc_blocking_runs c) (sc_blocking_run_depth c)) in
  let c := u_sched u in
  match sc_current c, frame with
  | Some i, Some f =>
      if negb (sc_preemptive_enabled c) || negb (frame_is_from_user frame) then u
      else
        let p := proc_at u i in
        let u := put_process u i
          (mk_process (pr_pid p) (pr_state p) (pr_pml4_phys p) (pr_entry p) (pr_user_stack_top p)
             (pr_heap_start p) (pr_heap_current p) (pr_heap_end p)
             (save_user_frame (pr_main_thread p) f) (pr_name p) (pr_cwd p)) in
        with_sched u
          (mk_sched (sc_current c) (sc_return_context c) (sc_initialized c)
             (sc_preemptive_enabled c) (sc_ticks c) (u64 (sc_user_preemptions c + 1))
             (sc_launches c) (sc_exits c) (sc_last_exit_status c)
             (sc_blocking_runs c) (sc_blocking_run_depth c))
  | _, _ => u
  end.

Definition scheduler_get_status (u : user_sys) : scheduler_status :=
  let c := u_sched u in
  mk_sched_status (sc_initialized c) (sc_preemptive_enabled c)
    (match sc_current c with Some _ => true | None => false end)
    (sc_ticks c) (sc_user_preemptions c) (sc_launches c) (sc_exits c) (sc_last_exit_status c)
    (match sc_current c with Some i => pr_pid (proc_at u i) | None => 0 end)
    (match sc_current c with Some i => pr_state (proc_at u i) | None => PROCESS_EMPTY end)
    (match sc_current c with Some i => t_state (pr_main_thread (proc_at u i)) | None => THREAD_EMPTY end).

Definition scheduler_current_process (u : user_sys) : option nat := sc_current (u_sched u).
End Scheduler.
Arguments user_sys : clear implicits.
