(* ===== verification/SchedulerProofs.v ===== *)
(** * The scheduler: theorems

    The control state is a stack: the running process on top of the parents that
    wait for it. [sched_inv] relates the process table and the [blocking_runs]
    array to that stack, every step of the system keeps it, and a blocking call
    behaves like a procedure call. *)

From S2P Require Import Prelude Pmm Vmm Pages Heap Fs Elf Process Scheduler.

Section Sched.
Context {F : Type}.
Implicit Types u : user_sys F.

Definition slots : nat := Z.to_nat USERSPACE_MAX_PROCESSES.

Definition in_states (p : process) (ps : process_state) (ts : thread_state) : Prop :=
  pr_state p = ps /\ t_state (pr_main_thread p) = ts /\ pr_pml4_phys p <> 0.

Definition active_cr3 u : Z := vm_cr3 (kh_pages (sy_heap (u_sys u))).

(** What holds whether or not a process runs: the shape of the arrays, and the
    frames of the stack, which is listed from the bottom. *)
Record sched_shape u (stack : list (nat * user_registers)) : Prop := {
  si_procs : length (sy_processes (u_sys u)) = slots;
  si_runs : length (sc_blocking_runs (u_sched u)) = slots;
  si_ready : sc_initialized (u_sched u) = true;
  si_depth : sc_blocking_run_depth (u_sched u) = Z.of_nat (length stack);
  si_frames : forall k i r, stack !! k = Some (i, r) ->
    sc_blocking_runs (u_sched u) !! k = Some (mk_run (Some i) r)
}.

(** Process [c] runs and the processes of [stack] wait, each for the next one. *)
Record sched_inv u (c : nat) (stack : list (nat * user_registers)) : Prop := {
  si_shape : sched_shape u stack;
  si_context : sc_return_context (u_sched u) = true;
  si_current : sc_current (u_sched u) = Some c;
  si_distinct : List.NoDup (c :: map fst stack);
  si_bounds : Forall (fun i => (i < slots)%nat) (c :: map fst stack);
  si_running : in_states (proc_at u c) PROCESS_RUNNING THREAD_RUNNING;
  si_blocked : Forall (fun i => in_states (proc_at u i) PROCESS_READY THREAD_BLOCKED) (map fst stack);
  si_space : active_cr3 u = pr_pml4_phys (proc_at u c)
}.

(** No process runs. *)
Definition sched_idle u : Prop := sched_shape u [] /\ sc_current (u_sched u) = None.

(** ** Steps *)

(** A change that touches neither the scheduler nor a process state: what a
    system call or the program itself may do to memory, files and break. *)
Record same_control u u' : Prop := {
  sm_sched : u_sched u' = u_sched u;
  sm_len : length (sy_processes (u_sys u')) = length (sy_processes (u_sys u));
  sm_proc : forall i, pr_state (proc_at u' i) = pr_state (proc_at u i)
    /\ t_state (pr_main_thread (proc_at u' i)) = t_state (pr_main_thread (proc_at u i))
    /\ pr_pml4_phys (proc_at u' i) = pr_pml4_phys (proc_at u i);
  sm_cr3 : active_cr3 u' = active_cr3 u
}.

(** A fresh process [p] is put in the slot found for it and run, the caller
    blocking with its registers in [frame]. *)
Definition spawns u (frame : syscall_frame) u' : Prop :=
  exists i p t, find_slot (sy_processes (u_sys u)) = Some i
    /\ in_states p PROCESS_READY THREAD_READY
    /\ scheduler_run_process_blocking (put_process u i p) (Some i) (Some frame) = Ret (t, u').

(** ** Lemmas *)

Lemma proc_at_put u i j p :
  (i < length (sy_processes (u_sys u)))%nat ->
  proc_at (put_process u i p) j = if decide (j = i) then p else proc_at u j.
Proof.
  intros Hi. unfold proc_at, put_process. cbn [u_sys with_process sy_processes].
  destruct (decide (j = i)) as [->|Hne].
  - apply list_lookup_total_insert_eq. exact Hi.
  - apply list_lookup_total_insert_ne. auto.
Qed.

Lemma put_len u i p :
  length (sy_processes (u_sys (put_process u i p))) = length (sy_processes (u_sys u)).
Proof. cbn. apply length_insert. Qed.

(** The slot search finds a slot that is not in use. *)
Lemma find_slot_free (ps : list process) i :
  find_slot ps = Some i ->
  (i < slots)%nat /\ (pr_state (ps !!! i) = PROCESS_EMPTY \/ pr_state (ps !!! i) = PROCESS_EXITED).
Proof.
  unfold find_slot, range_loop. intros H.
  pose proof (for_loop_ind (R := nat) (fun _ (_ : unit) => True) (fun c => match c with
    | Break i => (i < slots)%nat /\ (pr_state (ps !!! i) = PROCESS_EMPTY \/ pr_state (ps !!! i) = PROCESS_EXITED)
    | Cont _ => True end) (trips 1 USERSPACE_MAX_PROCESSES 1) 1 1
    (fun i (_ : unit) =>
       let st := pr_state (ps !!! Z.to_nat i) in
       if bool_decide (st = PROCESS_EMPTY) || bool_decide (st = PROCESS_EXITED)
       then Break (Z.to_nat i) else Cont tt) tt I) as L.
  cbv zeta in *. destruct (for_loop _ _ _ _ _) as [|j]; [discriminate|].
  injection H as ->. apply L; [|auto].
  intros k [] Hk _. destruct (bool_decide _ || _) eqn:E; [|exact I].
  change (trips 1 USERSPACE_MAX_PROCESSES 1) with 7%nat in Hk. split; [unfold slots, USERSPACE_MAX_PROCESSES; lia|].
  apply orb_true_iff in E as [E|E]; apply bool_decide_eq_true in E; auto.
Qed.

Lemma inv_slot_lt u c stack i : sched_inv u c stack -> In i (c :: map fst stack) -> (i < slots)%nat.
Proof. intros H Hi. eapply List.Forall_forall in Hi; [|apply (si_bounds _ _ _ H)]. exact Hi. Qed.

(** The stack holds at most seven parents: eight slots, one of them running. *)
Lemma inv_depth u c stack : sched_inv u c stack -> (length stack < slots)%nat.
Proof.
  intros H. pose proof (NoDup_incl_length (si_distinct _ _ _ H) (l' := seq 0 slots)) as L.
  rewrite length_seq in L. cbn [length] in L. rewrite length_map in L. apply L.
  intros i Hi. apply in_seq. pose proof (inv_slot_lt _ _ _ _ H Hi). lia.
Qed.

(** A free slot is not on the stack. *)
Lemma free_slot_out u c stack i :
  sched_inv u c stack ->
  pr_state (proc_at u i) = PROCESS_EMPTY \/ pr_state (proc_at u i) = PROCESS_EXITED ->
  ~ In i (c :: map fst stack).
Proof.
  intros H Hf [<-|Hin].
  - destruct (si_running _ _ _ H) as (E & _). destruct Hf; congruence.
  - pose proof (si_blocked _ _ _ H) as B. rewrite List.Forall_forall in B.
    destruct (B i Hin) as (E & _). destruct Hf; congruence.
Qed.

Lemma same_control_inv u u' c stack :
  same_control u u' -> sched_inv u c stack -> sched_inv u' c stack.
Proof.
  intros [S1 S2 S3 S4] [[P1 P2 P3 P4 P5] I1 I2 I3 I4 I5 I6 I7].
  assert (Hs : forall i ps ts, in_states (proc_at u i) ps ts -> in_states (proc_at u' i) ps ts).
  { intros i ps ts (E1 & E2 & E3). destruct (S3 i) as (T1 & T2 & T3). unfold in_states.
    rewrite T1, T2, T3. auto. }
  split; rewrite ?S1; auto.
  - split; rewrite ?S1, ?S2; auto.
  - eapply List.Forall_impl; [|exact I6]. auto.
  - rewrite S4, I7. symmetry. apply S3.
Qed.

Lemma activate_cr3 u pml4 : pml4 <> 0 -> active_cr3 (activate u pml4) = pml4.
Proof.
  intros H. apply Z.eqb_neq in H. unfold active_cr3, activate, vmm_activate_address_space.
  cbn [u_sys with_heap sy_heap with_pages kh_pages vm_cr3]. rewrite H. reflexivity.
Qed.

Lemma is_ready_spec u i p :
  (i < length (sy_processes (u_sys u)))%nat -> in_states p PROCESS_READY THREAD_READY ->
  is_ready (put_process u i p) i = true.
Proof.
  intros Hi (E1 & E2 & _). unfold is_ready. rewrite proc_at_put, decide_True by auto.
  rewrite E1, E2. reflexivity.
Qed.

(** Rewrites a process slot of an updated system. *)
Lemma put_states_at u i j ps ts :
  (i < length (sy_processes (u_sys u)))%nat ->
  proc_at (put_states u i ps ts) j = if decide (j = i) then set_states (proc_at u i) ps ts else proc_at u j.
Proof. apply proc_at_put. Qed.

Lemma put_states_len u i ps ts :
  length (sy_processes (u_sys (put_states u i ps ts))) = length (sy_processes (u_sys u)).
Proof. apply put_len. Qed.

(** Two slots given new states one after the other. *)
Lemma put_states_two u s c i psc tsc ps ts j :
  (c < length (sy_processes (u_sys u)))%nat -> (i < length (sy_processes (u_sys u)))%nat -> i <> c ->
  proc_at (put_states (mk_user_sys (u_sys (put_states u c psc tsc)) s) i ps ts) j
  = if decide (j = i) then set_states (proc_at u i) ps ts
    else if decide (j = c) then set_states (proc_at u c) psc tsc else proc_at u j.
Proof.
  intros Hc Hi Hne.
  assert (Hin : forall k, proc_at (mk_user_sys (u_sys (put_states u c psc tsc)) s) k
    = if decide (k = c) then set_states (proc_at u c) psc tsc else proc_at u k).
  { intros k. change (proc_at (mk_user_sys (u_sys ?x) s) k) with (proc_at x k). apply put_states_at, Hc. }
  rewrite put_states_at by (cbn [u_sys]; rewrite put_states_len; exact Hi). rewrite !Hin.
  rewrite (decide_False (P := i = c)) by exact Hne. reflexivity.
Qed.

(** Running a fresh process pushes the caller. *)
Lemma spawn_inv u c stack i p frame :
  sched_inv u c stack -> find_slot (sy_processes (u_sys u)) = Some i ->
  in_states p PROCESS_READY THREAD_READY ->
  exists t u', scheduler_run_process_blocking (put_process u i p) (Some i) (Some frame) = Ret (t, u')
    /\ sched_inv u' i (stack ++ [(c, registers_from_syscall_frame frame)]).
Proof.
  intros H Hf Hp. apply find_slot_free in Hf as [Hi Hfree].
  pose proof (free_slot_out _ _ _ _ H Hfree) as Hout. pose proof (inv_depth _ _ _ H) as Hd.
  pose proof H as [[L1 L2 L3 L4 L5] L3' C D B R K Sp].
  assert (Hci : i <> c) by (intros ->; apply Hout; left; reflexivity).
  assert (Hc : (c < slots)%nat) by (eapply inv_slot_lt; [exact H|left; reflexivity]).
  unfold scheduler_run_process_blocking. cbn [u_sched put_process]. rewrite C, L3.
  rewrite is_ready_spec by (rewrite ?L1; auto). cbn [negb orb]. rewrite L4.
  destruct (Z.leb_spec USERSPACE_MAX_PROCESSES (Z.of_nat (length stack))) as [Hb|_];
    [unfold slots in Hd; lia|].
  change (u_sched (put_states (put_process u i p) c PROCESS_READY THREAD_BLOCKED)) with (u_sched u).
  unfold scheduler_enter_current. cbn [u_sched with_sched set_current set_runs sc_current sc_return_context].
  rewrite L3', L4, Nat2Z.id. cbn [negb]. eexists _, _. split; [reflexivity|].
  set (s1 := put_process u i p). set (regs := registers_from_syscall_frame frame).
  assert (Hat : forall j ps ts (c2 : sched),
    proc_at (put_states (mk_user_sys (u_sys (put_states s1 c PROCESS_READY THREAD_BLOCKED)) c2) i ps ts) j
    = if decide (j = i) then set_states p ps ts
      else if decide (j = c) then set_states (proc_at u c) PROCESS_READY THREAD_BLOCKED else proc_at u j).
  { intros j ps ts c2. rewrite put_states_two by (auto; unfold s1; rewrite put_len, L1; assumption).
    unfold s1. rewrite !proc_at_put by (rewrite L1; exact Hi). rewrite (decide_True (P := i = i)) by reflexivity.
    rewrite (decide_False (P := c = i)) by auto. destruct (decide (j = i)); reflexivity. }
  unfold with_sched. cbn [u_sched set_current set_runs].
  split.
  - split; cbn [activate u_sys u_sched with_heap sy_processes put_states put_process with_process
      count_launch set_current set_runs sc_blocking_runs sc_blocking_run_depth sc_initialized sc_return_context].
    + rewrite length_insert. change (length (sy_processes (u_sys (put_states s1 c PROCESS_READY THREAD_BLOCKED))) = slots).
      unfold put_states, s1. rewrite !put_len. exact L1.
    + rewrite length_insert. exact L2.
    + exact L3.
    + rewrite length_app. cbn [length]. lia.
    + intros k j r E. apply lookup_app_Some in E as [E|[Hk E]].
      * rewrite list_lookup_insert_ne; [apply L5, E|]. apply lookup_lt_Some in E. lia.
      * destruct (k - length stack)%nat as [|n] eqn:Ek; [|destruct n; discriminate].
        injection E as <- <-. assert (k = length stack) as -> by lia.
        apply list_lookup_insert_eq. rewrite L2. lia.
  - exact L3'.
  - reflexivity.
  - rewrite map_app. cbn [map fst]. apply (Permutation_NoDup (l := i :: c :: map fst stack)).
    + apply perm_skip, Permutation_cons_append.
    + constructor; assumption.
  - rewrite map_app. cbn [map fst]. apply List.Forall_cons; [exact Hi|].
    apply List.Forall_app. inversion B; subst. split; [assumption|]. constructor; [exact Hc|constructor].
  - change (proc_at (activate ?x ?y) i) with (proc_at x i). rewrite Hat, decide_True by reflexivity.
    destruct Hp as (_ & _ & Hp). split_and!; [reflexivity|reflexivity|exact Hp].
  - rewrite map_app. apply List.Forall_app. cbn [map fst]. split.
    + apply List.Forall_forall. intros j Hj. change (proc_at (activate ?x ?y) j) with (proc_at x j).
      rewrite Hat. rewrite decide_False by (intros ->; apply Hout; right; exact Hj).
      rewrite decide_False by (intros ->; inversion D; auto). rewrite List.Forall_forall in K. apply K, Hj.
    + constructor; [|constructor]. change (proc_at (activate ?x ?y) c) with (proc_at x c).
      rewrite Hat, decide_False, decide_True by auto. destruct R as (_ & _ & R).
      split_and!; [reflexivity|reflexivity|exact R].
  - rewrite activate_cr3; [reflexivity|]. rewrite Hat, decide_True by reflexivity. apply Hp.
Qed.

(** The frame on top of the stack, and who it belongs to. *)
Lemma top_frame u c stack par regs :
  sched_inv u c (stack ++ [(par, regs)]) ->
  (c < slots)%nat /\ (par < slots)%nat /\ par <> c /\ ~ In par (map fst stack) /\ ~ In c (map fst stack)
  /\ (length stack < slots)%nat
  /\ nth (length stack) (sc_blocking_runs (u_sched u)) empty_run = mk_run (Some par) regs.
Proof.
  intros H. pose proof H as [[L1 L2 L3 L4 L5] L3' C D B R K Sp]. rewrite map_app in D, B. cbn [map fst] in D, B.
  inversion D as [|? ? Hn D']; subst. pose proof (List.NoDup_remove_2 _ _ _ D') as Hps. rewrite app_nil_r in Hps.
  pose proof (inv_depth _ _ _ H) as Hd. rewrite length_app in Hd. cbn [length] in Hd.
  split_and!; auto.
  - inversion B; assumption.
  - eapply inv_slot_lt; [exact H|]. right. rewrite map_app. apply in_elt.
  - intros ->. apply Hn, in_elt.
  - intros Hin. apply Hn, in_or_app. auto.
  - lia.
  - apply nth_lookup_Some. apply L5. rewrite lookup_app_r by lia. rewrite Nat.sub_diag. reflexivity.
Qed.

(** The exit of a child pops its parent. *)
Lemma exit_inv u c stack par regs status frame :
  sched_inv u c (stack ++ [(par, regs)]) ->
  exists u', scheduler_finish_blocking_exit u status (Some frame)
      = (true, u', Some (syscall_frame_from_registers frame regs))
    /\ sched_inv u' par stack /\ pr_state (proc_at u' c) = PROCESS_EXITED
    /\ sc_last_exit_status (u_sched u') = status.
Proof.
  intros H. pose proof H as [[L1 L2 L3 L4 L5] L3' C D B R K Sp].
  rewrite length_app in L4. cbn [length] in L4. rewrite map_app in D, B, K. cbn [map fst] in D, B, K.
  destruct (top_frame _ _ _ _ _ H) as (Hc & Hp & Hpc & Hps & Hcs & Hlen & Hrun).
  unfold scheduler_finish_blocking_exit. rewrite L4.
  destruct (Z.eqb_spec (Z.of_nat (length stack + 1)) 0); [lia|].
  replace (Z.of_nat (length stack + 1) - 1) with (Z.of_nat (length stack)) by lia.
  rewrite Nat2Z.id, Hrun. cbn [br_parent br_parent_regs]. unfold exit_process.
  cbn [with_sched u_sched set_runs sc_current]. rewrite C.
  set (runs' := <[length stack := empty_run]> (sc_blocking_runs (u_sched u))).
  eexists. split; [reflexivity|].
  set (u1 := mk_user_sys (u_sys u) (set_runs (u_sched u) runs' (Z.of_nat (length stack)))).
  set (u2 := put_states u1 c PROCESS_EXITED THREAD_EXITED).
  change (u_sched u2) with (u_sched u1).
  set (u3 := mk_user_sys (u_sys u2) (set_current (count_exit (u_sched u1) status) (Some par))).
  assert (Hat : forall j, proc_at (put_states u3 par PROCESS_RUNNING THREAD_RUNNING) j
    = if decide (j = par) then set_states (proc_at u par) PROCESS_RUNNING THREAD_RUNNING
      else if decide (j = c) then set_states (proc_at u c) PROCESS_EXITED THREAD_EXITED else proc_at u j).
  { intros j. apply (put_states_two u1); auto; change (u_sys u1) with (u_sys u); rewrite L1; assumption. }
  change (proc_at (activate ?x ?y) c) with (proc_at x c).
  split; [|split; [rewrite Hat, decide_False, decide_True by auto; reflexivity|reflexivity]].
  split.
  - split.
    + change (length (sy_processes (u_sys (put_states u3 par PROCESS_RUNNING THREAD_RUNNING))) = slots).
      rewrite put_states_len. change (u_sys u3) with (u_sys u2). unfold u2. rewrite put_states_len. exact L1.
    + change (length runs' = slots). unfold runs'. rewrite length_insert. exact L2.
    + exact L3.
    + reflexivity.
    + intros k j r E. change (runs' !! k = Some (mk_run (Some j) r)). unfold runs'. rewrite list_lookup_insert_ne.
      * apply L5. rewrite lookup_app_l; [exact E|]. apply lookup_lt_Some in E. exact E.
      * apply lookup_lt_Some in E. lia.
  - exact L3'.
  - reflexivity.
  - inversion D as [|? ? Hn D']. constructor; [exact Hps|]. apply List.NoDup_remove_1 in D'.
    rewrite app_nil_r in D'. exact D'.
  - constructor; [exact Hp|]. inversion B as [|? ? _ B']. apply List.Forall_app in B' as [B' _]. exact B'.
  - change (proc_at (activate ?x ?y) par) with (proc_at x par). rewrite Hat, decide_True by reflexivity.
    apply List.Forall_app in K as [_ K]. inversion K as [|? ? (_ & _ & Kp) _]; subst.
    split_and!; [reflexivity|reflexivity|exact Kp].
  - apply List.Forall_forall. intros j Hj. change (proc_at (activate ?x ?y) j) with (proc_at x j).
    rewrite Hat, !decide_False by (intros ->; auto). apply List.Forall_app in K as [K _].
    rewrite List.Forall_forall in K. apply K, Hj.
  - rewrite activate_cr3; [reflexivity|]. rewrite Hat, decide_True by reflexivity.
    apply List.Forall_app in K as [_ K]. inversion K as [|? ? (_ & _ & Kp) _]; subst. exact Kp.
Qed.

(** The exit of the last process gives control back to the kernel. *)
Lemma exit_last u c status frame :
  sched_inv u c [] ->
  scheduler_finish_blocking_exit u status (Some frame) = (false, u, Some frame)
  /\ exists u', scheduler_exit_current u status = Ret (RestoreKernel 1, u') /\ sched_idle u'
       /\ pr_state (proc_at u' c) = PROCESS_EXITED /\ sc_last_exit_status (u_sched u') = status.
Proof.
  intros H. pose proof H as [[L1 L2 L3 L4 L5] L3' C D B R K Sp].
  assert (Hc : (c < slots)%nat) by (inversion B; assumption).
  unfold scheduler_finish_blocking_exit. rewrite L4. split; [reflexivity|].
  unfold scheduler_exit_current, exit_process. rewrite C.
  cbn [u_sched put_states put_process with_sched activate count_exit set_current sc_return_context].
  rewrite L3'. cbn [negb]. eexists. split; [reflexivity|]. split; [|split].
  - split; [|reflexivity]. split; cbn; auto. rewrite length_insert. exact L1.
  - change (pr_state (proc_at (put_states u c PROCESS_EXITED THREAD_EXITED) c) = PROCESS_EXITED).
    rewrite put_states_at, decide_True by (rewrite ?L1; auto). reflexivity.
  - reflexivity.
Qed.

(** A clock tick only saves the registers of the running process. *)
Lemma tick_inv u c stack frame : sched_inv u c stack -> sched_inv (scheduler_tick u frame) c stack.
Proof.
  intros H. pose proof H as [[L1 L2 L3 L4 L5] L3' C D B R K Sp].
  assert (Hc : (c < slots)%nat) by (inversion B; assumption).
  unfold scheduler_tick. cbn [with_sched u_sched sc_current sc_preemptive_enabled]. rewrite C.
  destruct frame as [f|]; [destruct (_ || _)|].
  1,3: split; [split; auto| | | | | | |]; auto.
  set (u1 := put_process _ _ _).
  assert (Hat : forall j, pr_state (proc_at u1 j) = pr_state (proc_at u j)
    /\ t_state (pr_main_thread (proc_at u1 j)) = t_state (pr_main_thread (proc_at u j))
    /\ pr_pml4_phys (proc_at u1 j) = pr_pml4_phys (proc_at u j)).
  { intros j. unfold u1. rewrite proc_at_put
      by (change (c < length (sy_processes (u_sys u)))%nat; rewrite L1; exact Hc).
    destruct (decide (j = c)) as [->|]; auto. }
  assert (Hs : forall i ps ts, in_states (proc_at u i) ps ts -> in_states (proc_at u1 i) ps ts).
  { intros i ps ts (E1 & E2 & E3). destruct (Hat i) as (T1 & T2 & T3). unfold in_states.
    rewrite T1, T2, T3. auto. }
  split; [split| | | | | | |]; auto.
  - cbn [with_sched u_sys]. unfold u1. rewrite put_len. exact L1.
  - apply Hs, R.
  - eapply List.Forall_impl; [|exact K]. intros i. apply Hs.
  - change (active_cr3 u = pr_pml4_phys (proc_at u1 c)). rewrite (proj2 (proj2 (Hat c))). exact Sp.
Qed.

(** Entering user mode from the kernel. *)
Lemma launch_inv u i :
  sched_idle u -> (i < slots)%nat -> in_states (proc_at u i) PROCESS_READY THREAD_READY ->
  exists t u1 u2, scheduler_prepare_launch u (Some i) true = (true, u1)
    /\ scheduler_enter_current u1 = Ret (t, u2) /\ sched_inv u2 i [].
Proof.
  intros [[L1 L2 L3 L4 L5] C] Hi (E1 & E2 & E3). unfold scheduler_prepare_launch, is_ready.
  rewrite L3, E1, E2. cbn [negb orb bool_decide andb]. rewrite !bool_decide_eq_true_2 by reflexivity.
  cbn [andb negb]. eexists _, _, _. split; [reflexivity|].
  unfold scheduler_enter_current. cbn [with_sched u_sched sc_current set_current sc_return_context negb].
  split; [reflexivity|]. set (c1 := mk_sched _ _ _ _ _ _ _ _ _ _ _).
  assert (Hat : proc_at (put_states (with_sched u (count_launch c1)) i PROCESS_RUNNING THREAD_RUNNING) i
    = set_states (proc_at u i) PROCESS_RUNNING THREAD_RUNNING).
  { rewrite put_states_at, decide_True; [reflexivity|reflexivity|]. cbn [with_sched u_sys]. rewrite L1. exact Hi. }
  split; auto.
  - split; auto. cbn. rewrite length_insert. exact L1.
  - constructor; [intros []|constructor].
  - change (in_states (proc_at (put_states (with_sched u (count_launch c1)) i PROCESS_RUNNING THREAD_RUNNING) i)
      PROCESS_RUNNING THREAD_RUNNING).
    rewrite Hat. split_and!; [reflexivity|reflexivity|exact E3].
  - apply activate_cr3.
    change (pr_pml4_phys (proc_at (put_states (with_sched u (count_launch c1)) i PROCESS_RUNNING THREAD_RUNNING) i) <> 0).
    rewrite Hat. exact E3.
Qed.

Lemma tick_idle u frame : sched_idle u -> sched_idle (scheduler_tick u frame).
Proof.
  intros [[L1 L2 L3 L4 L5] C]. unfold scheduler_tick. cbn [with_sched u_sched sc_current]. rewrite C.
  destruct frame; (split; [split; auto|reflexivity]).
Qed.

Lemma same_control_idle u u' : same_control u u' -> sched_idle u -> sched_idle u'.
Proof.
  intros [S1 S2 S3 S4] [[L1 L2 L3 L4 L5] C]. split; [split|]; rewrite ?S1, ?S2; auto.
Qed.

(** ** The system as a step relation *)

Inductive control_step : user_sys F -> user_sys F -> Prop :=
  | step_load u i p : sc_current (u_sched u) = None -> control_step u (put_process u i p)
  | step_launch u i t u1 u2 :
      sc_current (u_sched u) = None -> (i < slots)%nat ->
      in_states (proc_at u i) PROCESS_READY THREAD_READY ->
      scheduler_prepare_launch u (Some i) true = (true, u1) ->
      scheduler_enter_current u1 = Ret (t, u2) -> control_step u u2
  | step_spawn u frame u' : spawns u frame u' -> control_step u u'
  | step_exit u status frame u' frame' :
      sc_current (u_sched u) <> None ->
      scheduler_finish_blocking_exit u status (Some frame) = (true, u', frame') -> control_step u u'
  | step_quit u status frame u1 frame' t u' :
      sc_current (u_sched u) <> None ->
      scheduler_finish_blocking_exit u status (Some frame) = (false, u1, frame') ->
      scheduler_exit_current u1 status = Ret (t, u') -> control_step u u'
  | step_tick u frame : control_step u (scheduler_tick u frame)
  | step_local u u' : same_control u u' -> control_step u u'.

Definition sched_ok u : Prop := sched_idle u \/ exists c stack, sched_inv u c stack.

Lemma control_step_ok u u' : control_step u u' -> sched_ok u -> sched_ok u'.
Proof.
  intros St Hok. destruct St as [u i p Hn|u i t u1 u2 Hn Hi Hr E1 E2|u frame u' (i & p & t & Hf & Hp & E)
    |u status frame u' f' Hn E|u status frame u1 f' t u' Hn E1 E2|u frame|u u' Hs].
  - destruct Hok as [[[L1 L2 L3 L4 L5] C]|(c & st & H)]; [|pose proof (si_current _ _ _ H); congruence].
    left. split; [split; auto|exact C]. rewrite put_len. exact L1.
  - destruct Hok as [Hid|(c & st & H)]; [|pose proof (si_current _ _ _ H); congruence].
    destruct (launch_inv u i Hid Hi Hr) as (t' & v1 & v2 & G1 & G2 & G3).
    rewrite E1 in G1. injection G1 as <-. rewrite E2 in G2. injection G2 as <- <-. right. eauto.
  - destruct Hok as [[_ C]|(c & st & H)].
    + unfold scheduler_run_process_blocking in E. cbn [u_sched put_process] in E. rewrite C in E. discriminate.
    + destruct (spawn_inv u c st i p frame H Hf Hp) as (t' & u2 & G & Hi). rewrite E in G.
      injection G as <- <-. right. eauto.
  - destruct Hok as [[_ C]|(c & st & H)]; [congruence|].
    destruct (last_cases st) as [->|([par regs] & st' & ->)].
    + destruct (exit_last u c status frame H) as [G _]. rewrite E in G. discriminate.
    + destruct (exit_inv u c st' par regs status frame H) as (u2 & G & Hi & _). rewrite E in G.
      injection G as <- _. right. eauto.
  - destruct Hok as [[_ C]|(c & st & H)]; [congruence|].
    destruct (last_cases st) as [->|([par regs] & st' & ->)].
    + destruct (exit_last u c status frame H) as [G (u2 & G2 & Hi & _)]. rewrite E1 in G.
      injection G as -> _. rewrite E2 in G2. injection G2 as _ ->. left. exact Hi.
    + destruct (exit_inv u c st' par regs status frame H) as (u2 & G & _). rewrite E1 in G. discriminate.
  - destruct Hok as [Hid|(c & st & H)]; [left; apply tick_idle, Hid|right; eauto using tick_inv].
  - destruct Hok as [Hid|(c & st & H)]; [left; eapply same_control_idle; eauto|
      right; eauto using same_control_inv].
Qed.

Lemma reachable_ok u0 u : sched_idle u0 -> rtc control_step u0 u -> sched_ok u.
Proof.
  intros Hid R. assert (H0 : sched_ok u0) by (left; exact Hid). clear Hid.
  induction R; eauto using control_step_ok.
Qed.

(** What the running process may ask for without the scheduler panicking. *)
Record never_stuck u (c : nat) (stack : list (nat * user_registers)) : Prop := {
  ns_depth : (length stack <= 7)%nat;
  ns_spawn : forall i p frame, find_slot (sy_processes (u_sys u)) = Some i ->
    in_states p PROCESS_READY THREAD_READY ->
    exists t u', scheduler_run_process_blocking (put_process u i p) (Some i) (Some frame) = Ret (t, u');
  ns_exit : forall status frame,
    (exists u' frame', scheduler_finish_blocking_exit u status (Some frame) = (true, u', frame'))
    \/ (scheduler_finish_blocking_exit u status (Some frame) = (false, u, Some frame)
        /\ exists u', scheduler_exit_current u status = Ret (RestoreKernel 1, u'))
}.

Lemma inv_never_stuck u c stack : sched_inv u c stack -> never_stuck u c stack.
Proof.
  intros H. split.
  - pose proof (inv_depth _ _ _ H) as Hd. unfold slots, USERSPACE_MAX_PROCESSES in Hd. lia.
  - intros i p frame Hf Hp. destruct (spawn_inv u c stack i p frame H Hf Hp) as (t & u' & E & _). eauto.
  - intros status frame. destruct (last_cases stack) as [->|([par regs] & st' & ->)].
    + right. destruct (exit_last u c status frame H) as [E (u' & E2 & _)]. eauto.
    + left. destruct (exit_inv u c st' par regs status frame H) as (u' & E & _). eauto.
Qed.

(** ** Balanced runs *)

(** The steps a process takes, with the complete runs of its children. *)
Inductive child_runs : user_sys F -> user_sys F -> Prop :=
  | runs_none u : child_runs u u
  | runs_tick u frame u' : child_runs (scheduler_tick u frame) u' -> child_runs u u'
  | runs_local u u1 u' : same_control u u1 -> child_runs u1 u' -> child_runs u u'
  | runs_child u frame u1 u2 status eframe u3 rframe u' :
      spawns u frame u1 -> child_runs u1 u2 ->
      scheduler_finish_blocking_exit u2 status (Some eframe) = (true, u3, rframe) ->
      child_runs u3 u' -> child_runs u u'.

Lemma child_runs_inv u u' : child_runs u u' -> forall c stack, sched_inv u c stack -> sched_inv u' c stack.
Proof.
  induction 1 as [u|u frame u' _ IH|u u1 u' Hs _ IH
    |u frame u1 u2 status ef u3 rf u' (i & p & t & Hf & Hp & Es) _ IH1 Ee _ IH2]; intros c stack Hi.
  - exact Hi.
  - apply IH, tick_inv, Hi.
  - eapply IH, same_control_inv; eauto.
  - destruct (spawn_inv u c stack i p frame Hi Hf Hp) as (t' & v & Es' & Hi1). rewrite Es in Es'.
    injection Es' as <- <-. apply IH1 in Hi1.
    destruct (exit_inv u2 i stack c _ status ef Hi1) as (w & Ee' & Hi3 & _). rewrite Ee in Ee'.
    injection Ee' as <- _. apply IH2, Hi3.
Qed.
End Sched.

Lemma frame_registers f r :
  registers_from_syscall_frame (syscall_frame_from_registers f (registers_from_syscall_frame r))
  = registers_from_syscall_frame r.
Proof. reflexivity. Qed.

(** ** Properties *)

(** C5. From boot on, whatever programs run, are started by others, exit, are
    interrupted by the clock or call the kernel: at most one process runs and the
    others that wait for a child form a stack of distinct slots, at most seven
    deep, with the running process's address space active. So the scheduler's
    panics are unreachable: a program started in a slot found for it always
    runs, and an exit always goes to the waiting parent or back to the kernel. *)
Theorem scheduler_reachable_ok {F : Type} (u0 u : user_sys F) :
  sched_idle u0 -> rtc control_step u0 u ->
  sched_idle u \/ exists c stack, sched_inv u c stack /\ never_stuck u c stack.
Proof.
  intros Hid R. destruct (reachable_ok u0 u Hid R) as [H|(c & stack & H)]; [left; exact H|].
  right. exists c, stack. split; [exact H|]. apply inv_never_stuck, H.
Qed.

(** C6. Starting a program is a procedure call. When process [c] starts a child
    and the child, after running for any time and having started and outlived
    any children of its own, exits, the exit succeeds and resumes [c]: it is the
    running process again, in its own address space, and the frame the exit
    returns through holds exactly the registers [c] had at its call. *)
Theorem blocking_run_returns {F : Type} (u u1 u2 : user_sys F) (c : nat)
    (stack : list (nat * user_registers)) (call_frame exit_frame : syscall_frame) (status : Z) :
  sched_inv u c stack -> spawns u call_frame u1 -> child_runs u1 u2 ->
  exists u3 frame, scheduler_finish_blocking_exit u2 status (Some exit_frame) = (true, u3, Some frame)
    /\ registers_from_syscall_frame frame = registers_from_syscall_frame call_frame
    /\ sched_inv u3 c stack /\ sc_last_exit_status (u_sched u3) = status.
Proof.
  intros Hi (i & p & t & Hf & Hp & Es) R.
  destruct (spawn_inv u c stack i p call_frame Hi Hf Hp) as (t' & v & Es' & Hi1).
  rewrite Es in Es'. injection Es' as <- <-.
  apply (child_runs_inv _ _ R) in Hi1.
  destruct (exit_inv u2 i stack c _ status exit_frame Hi1) as (u3 & E & Hi3 & _ & Hst).
  exists u3, (syscall_frame_from_registers exit_frame (registers_from_syscall_frame call_frame)).
  split; [exact E|]. split; [apply frame_registers|]. auto.
Qed.

(** ** Witnesses *)

(** A booted system with no process, and a program ready to run. *)
Definition demo_idle : user_sys unit :=
  mk_user_sys (process_table_init (mk_proc_sys (kheap_init demo_vmm (fun _ => 0)) tt [] 0)) scheduler_init.

Definition demo_program : process :=
  mk_process 1 PROCESS_READY 135168 0x400000 USERSPACE_STACK_TOP USERSPACE_HEAP_BASE
    USERSPACE_HEAP_BASE USERSPACE_HEAP_LIMIT (mk_thread 1 1 THREAD_READY zero_regs) [] [47].

Definition demo_frame : syscall_frame := mk_sframe 27 1 2 3 4 5 6 7 8 9 10 11 12 13 14 0x400123 0x7fffff 0x202.

Lemma demo_idle_ok : sched_idle demo_idle.
Proof. split; [split|]; try reflexivity. intros k i r E. rewrite lookup_nil in E. discriminate. Qed.

Lemma demo_program_ready : in_states demo_program PROCESS_READY THREAD_READY.
Proof. split_and!; [reflexivity|reflexivity|discriminate]. Qed.

Definition demo_loaded : user_sys unit := put_process demo_idle 0 demo_program.

Lemma demo_loaded_idle : sched_idle demo_loaded.
Proof. destruct demo_idle_ok as [[L1 L2 L3 L4 L5] C]. split; [split; auto|exact C]. Qed.

Lemma demo_running : exists u, rtc control_step demo_idle u /\ sched_inv u 0 []
  /\ find_slot (sy_processes (u_sys u)) = Some 1%nat.
Proof.
  assert (Hlt : (0 < slots)%nat) by (unfold slots, USERSPACE_MAX_PROCESSES; lia).
  destruct (launch_inv demo_loaded 0 demo_loaded_idle Hlt demo_program_ready) as (t & u1 & u2 & E1 & E2 & H).
  exists u2. split; [|split; [exact H|]].
  - eapply rtc_l; [exact (step_load demo_idle 0 demo_program eq_refl)|]. apply rtc_once.
    eapply step_launch; [|exact Hlt|exact demo_program_ready|exact E1|exact E2]. reflexivity.
  - unfold scheduler_prepare_launch in E1. injection E1 as <-.
    unfold scheduler_enter_current in E2. injection E2 as <- <-. reflexivity.
Qed.

Lemma scheduler_reachable_ok_witness :
  exists u : user_sys unit, sched_idle u \/ exists c stack, sched_inv u c stack /\ never_stuck u c stack.
Proof.
  destruct demo_running as (u & R & _). exists u.
  exact (scheduler_reachable_ok demo_idle u demo_idle_ok R).
Defined.

Lemma blocking_run_returns_witness :
  exists (u2 u3 : user_sys unit) frame,
    scheduler_finish_blocking_exit u2 42 (Some demo_frame) = (true, u3, Some frame)
    /\ registers_from_syscall_frame frame = registers_from_syscall_frame demo_frame.
Proof.
  destruct demo_running as (u & _ & Hi & Hf).
  destruct (spawn_inv u 0 [] 1 demo_program demo_frame Hi Hf demo_program_ready) as (t & u1 & E & _).
  assert (Hs : spawns u demo_frame u1) by (exists 1%nat, demo_program, t; auto using demo_program_ready).
  destruct (blocking_run_returns u u1 u1 0 [] demo_frame demo_frame 42 Hi Hs (runs_none u1))
    as (u3 & frame & E3 & Er & _).
  exists u1, u3, frame. auto.
Defined.
