(* ===== verification/Kernel.v ===== *)
(** * The running kernel (src/userspace/userspace.c, src/kernel/console.c,
      src/kernel/boot_info.c, src/drivers/timer.c)

    The state the system-call and interrupt handlers work on: the user side
    (Scheduler.v), the kernel log, the keyboard, the timer. The terminal below
    console.c is a device: [k_terminal] is the trace of the calls made to it,
    newest first. *)

From S2P Require Import Prelude Klog Pmm Vmm Pages Heap Fs Elf Keyboard Process Scheduler.

(** The calls of src/kernel/terminal.h. *)
Inductive terminal_call : Type :=
  | TermPutchar (ch : Z)
  | TermWrite (s : list Z)
  | TermClear
  | TermSetColor (red green blue : Z)
  | TermSetBackground (red green blue : Z)
  | TermSetDefaultColors.

(** The fields of [struct limine_framebuffer] the status call reports. *)
Record framebuffer_info : Type := mk_fb {
  fb_width : Z;
  fb_height : Z;
  fb_pitch : Z;
  fb_bpp : Z;
  fb_address : Z
}.

Record kernel (F : Type) : Type := mk_kernel {
  k_user : user_sys F;
  k_klog : klog;
  k_terminal : list terminal_call;
  k_keyboard : keyboard;
  k_timer_ticks : Z;
  k_timer_frequency : Z;
  k_boot_framebuffer : option framebuffer_info;
  k_dispatch_ready : bool;
  k_initialized : bool;
  k_init_process_ready : bool
}.
Arguments mk_kernel {F}.
Arguments k_user {F}.
Arguments k_klog {F}.
Arguments k_terminal {F}.
Arguments k_keyboard {F}.
Arguments k_timer_ticks {F}.
Arguments k_timer_frequency {F}.
Arguments k_boot_framebuffer {F}.
Arguments k_dispatch_ready {F}.
Arguments k_initialized {F}.
Arguments k_init_process_ready {F}.

Section Kernel.
Context {F : Type} `{FsOps F}.

Definition with_user (k : kernel F) (u : user_sys F) : kernel F :=
  mk_kernel u (k_klog k) (k_terminal k) (k_keyboard k) (k_timer_ticks k) (k_timer_frequency k)
    (k_boot_framebuffer k) (k_dispatch_ready k) (k_initialized k) (k_init_process_ready k).

Definition with_log (k : kernel F) (l : klog) (t : list terminal_call) : kernel F :=
  mk_kernel (k_user k) l t (k_keyboard k) (k_timer_ticks k) (k_timer_frequency k)
    (k_boot_framebuffer k) (k_dispatch_ready k) (k_initialized k) (k_init_process_ready k).

Definition with_keyboard (k : kernel F) (kb : keyboard) : kernel F :=
  mk_kernel (k_user k) (k_klog k) (k_terminal k) kb (k_timer_ticks k) (k_timer_frequency k)
    (k_boot_framebuffer k) (k_dispatch_ready k) (k_initialized k) (k_init_process_ready k).

Definition with_timer (k : kernel F) (ticks frequency : Z) : kernel F :=
  mk_kernel (k_user k) (k_klog k) (k_terminal k) (k_keyboard k) ticks frequency
    (k_boot_framebuffer k) (k_dispatch_ready k) (k_initialized k) (k_init_process_ready k).

Definition with_flags (k : kernel F) (dispatch_ready initialized init_ready : bool) : kernel F :=
  mk_kernel (k_user k) (k_klog k) (k_terminal k) (k_keyboard k) (k_timer_ticks k)
    (k_timer_frequency k) (k_boot_framebuffer k) dispatch_ready initialized init_ready.

(** The active page tables, the kernel heap and the file system of a kernel. *)
Definition k_sys (k : kernel F) : proc_sys F := u_sys (k_user k).
Definition k_vmm (k : kernel F) : vmm := kh_pages (sy_heap (k_sys k)).
Definition k_fs (k : kernel F) : F := sy_fs (k_sys k).

Definition with_sys (k : kernel F) (y : proc_sys F) : kernel F :=
  with_user k (mk_user_sys y (u_sched (k_user k))).
Definition with_vmm (k : kernel F) (s : vmm) : kernel F :=
  with_sys k (with_heap (k_sys k) (with_pages (sy_heap (k_sys k)) s)).
Definition with_kfs (k : kernel F) (f : F) : kernel F := with_sys k (with_fs (k_sys k) f).

(** ** console.c *)

Definition call_terminal (k : kernel F) (c : terminal_call) : kernel F :=
  with_log k (k_klog k) (c :: k_terminal k).

Definition console_putchar (k : kernel F) (ch : Z) : kernel F :=
  call_terminal (with_log k (klog_putchar (k_klog k) ch) (k_terminal k)) (TermPutchar ch).

Definition console_write (k : kernel F) (s : list Z) : kernel F :=
  call_terminal (with_log k (klog_write (k_klog k) s) (k_terminal k)) (TermWrite s).

(** The argument is a C string without its terminator. *)
Definition console_write_string (k : kernel F) (s : list Z) : kernel F := console_write k s.

Definition console_clear (k : kernel F) : kernel F := call_terminal k TermClear.
Definition console_set_color (k : kernel F) (r g b : Z) : kernel F := call_terminal k (TermSetColor r g b).
Definition console_set_background (k : kernel F) (r g b : Z) : kernel F :=
  call_terminal k (TermSetBackground r g b).
Definition console_set_default_colors (k : kernel F) : kernel F := call_terminal k TermSetDefaultColors.

(** ** boot_info.c *)

(** The bytes of [struct user_framebuffer_status]. *)
Definition boot_info_get_framebuffer_status (k : kernel F) : list Z :=
  match k_boot_framebuffer k with
  | None => repeat 0 48
  | Some fb =>
      [1] ++ repeat 0 7 ++ le_bytes 8 (fb_width fb) ++ le_bytes 8 (fb_height fb)
      ++ le_bytes 8 (fb_pitch fb) ++ le_bytes 8 (fb_bpp fb) ++ le_bytes 8 (fb_address fb)
  end.

(** ** timer.c *)

Definition PIT_INPUT_HZ : Z := 1193182.

Definition timer_irq (k : kernel F) (frame : option interrupt_frame) : kernel F :=
  let k := with_timer k (u64 (k_timer_ticks k + 1)) (k_timer_frequency k) in
  with_user k (scheduler_tick (k_user k) frame).

(** The divisor of the PIT for a requested frequency. *)
Definition timer_divisor (frequency_hz : Z) : Z :=
  let frequency_hz := if frequency_hz =? 0 then 100 else frequency_hz in
  let divisor := PIT_INPUT_HZ / frequency_hz in
  if divisor =? 0 then 1 else if 0xffff <? divisor then 0xffff else divisor.

Definition timer_init (k : kernel F) (frequency_hz : Z) : kernel F :=
  with_timer k 0 (PIT_INPUT_HZ / timer_divisor frequency_hz).

Definition timer_ticks (k : kernel F) : Z := k_timer_ticks k.
Definition timer_frequency (k : kernel F) : Z := k_timer_frequency k.

(** ** userspace.c *)

Definition syscall_init (k : kernel F) : kernel F :=
  with_flags k true (k_initialized k) (k_init_process_ready k).
Definition syscall_dispatch_ready (k : kernel F) : bool := k_dispatch_ready k.

(** "/bin/init". *)
Definition init_path : list Z := [47; 98; 105; 110; 47; 105; 110; 105; 116].

Definition userspace_init (k : kernel F) : res (kernel F) :=
  let k := with_sys k (process_table_init (k_sys k)) in
  let k := with_user k (mk_user_sys (k_sys k) scheduler_init) in
  let k := syscall_init k in
  process_create_filesystem_init (k_sys k) (Some init_path) ≫= fun '(ok, y) =>
  let k := with_flags (with_sys k y) (k_dispatch_ready k) (k_initialized k) ok in
  kassert ok ≫= fun _ =>
  Ret (with_flags k (k_dispatch_ready k) true (k_init_process_ready k)).

Record userspace_status : Type := mk_us_status {
  uss_initialized : bool;
  uss_syscall_dispatch_ready : bool;
  uss_init_process_ready : bool;
  uss_scheduler_ready : bool;
  uss_preemptive_enabled : bool;
  uss_user_task_active : bool;
  uss_user_min : Z;
  uss_user_max : Z;
  uss_image_base : Z;
  uss_user_stack_top : Z;
  uss_kernel_base : Z;
  uss_init_entry : Z;
  uss_init_pml4 : Z;
  uss_scheduler_ticks : Z;
  uss_user_preemptions : Z;
  uss_launches : Z;
  uss_exits : Z;
  uss_last_exit_status : Z;
  uss_app_count : Z
}.

Definition userspace_get_status (k : kernel F) : userspace_status :=
  let init := process_first (k_sys k) in
  let sc := scheduler_get_status (k_user k) in
  mk_us_status (k_initialized k) (syscall_dispatch_ready k) (k_init_process_ready k)
    (ss_initialized sc) (ss_preemptive_enabled sc) (ss_user_task_active sc)
    USERSPACE_MIN_VADDR USERSPACE_MAX_VADDR USERSPACE_IMAGE_BASE USERSPACE_STACK_TOP
    KERNELSPACE_BASE_VADDR
    (match init with Some i => pr_entry (proc_at (k_user k) i) | None => 0 end)
    (match init with Some i => pr_pml4_phys (proc_at (k_user k) i) | None => 0 end)
    (ss_ticks sc) (ss_user_preemptions sc) (ss_launches sc) (ss_exits sc)
    (ss_last_exit_status sc) 0.

Definition userspace_can_launch_init (k : kernel F) : bool :=
  k_initialized k && k_init_process_ready k
  && match process_first (k_sys k) with Some _ => true | None => false end.

(** Up to entering user mode. When the program exits, the saved context returns
    a second time and the function just enables interrupts and returns. *)
Definition userspace_launch_init (k : kernel F) : res (transfer * kernel F) :=
  kassert (userspace_can_launch_init k) ≫= fun _ =>
  (if bool_decide (pr_state (proc_at (k_user k) 0) = PROCESS_EXITED) then
     process_create_filesystem_init (k_sys k) (Some init_path) ≫= fun '(ok, y) =>
     kassert ok ≫= fun _ =>
     Ret (with_flags (with_sys k y) (k_dispatch_ready k) (k_initialized k) ok)
   else Ret k) ≫= fun k =>
  let init := process_first (k_sys k) in
  kassert (k_init_process_ready k && match init with Some _ => true | None => false end) ≫= fun _ =>
  let '(ok, u) := scheduler_prepare_launch (k_user k) init true in
  kassert ok ≫= fun _ =>
  scheduler_enter_current u ≫= fun '(t, u) => Ret (t, with_user k u).
End Kernel.
