(* ===== verification/Syscall.v ===== *)
(** * System calls (src/userspace/syscall.c, src/arch/x86_64/idt.c)

    User memory is reached through the active page tables and the direct map;
    C strings and buffers are lists of bytes. [syscall_dispatch] ends by
    returning a value through its frame, or by a [transfer] to another program
    or to the kernel. *)

From S2P Require Import Prelude Klog Pmm Vmm Pages Heap Fs Elf Keyboard Process Scheduler Kernel.

Definition USER_WRITE_CHUNK : Z := 1024.
Definition USER_KLOG_READ_MAX : Z := 4096.
Definition USER_FS_PATH_MAX : Z := 128.
Definition USER_FS_LIST_MAX : Z := 32.
Definition USER_FS_READ_MAX : Z := 4096.

(** The error values of syscall.h. *)
Definition SYSCALL_ERR_AGAIN : Z := USER_ERR_AGAIN.
Definition SYSCALL_ERR_FAULT : Z := USER_ERR_FAULT.
Definition SYSCALL_ERR_INVAL : Z := USER_ERR_INVAL.
Definition SYSCALL_ERR_NOSYS : Z := USER_ERR_NOSYS.

(** ** User memory *)

(** How much of the page at [physical_address] a copy may use. *)
Definition user_chunk (physical_address len copied : Z) : Z :=
  let page_bytes := VMM_PAGE_SIZE - Z.land physical_address (VMM_PAGE_SIZE - 1) in
  if len - copied <? page_bytes then len - copied else page_bytes.

Fixpoint read_user_loop (fuel : nat) (s : vmm) (user_address len copied : Z) (out : list Z)
    : res (option (list Z)) :=
  if copied <? len then
    match fuel with
    | O => NoFuel
    | S fuel =>
        vmm_virt_to_phys s (u64 (user_address + copied)) ≫= fun r =>
        match r with
        | None => Ret None
        | Some physical_address =>
            let chunk := user_chunk physical_address len copied in
            read_user_loop fuel s user_address len (copied + chunk)
              (out ++ mem_read (vm_mem s) (pmm_phys_to_virt (vm_pmm s) physical_address) (Z.to_nat chunk))
        end
    end
  else Ret (Some out).

(** [None] is a false return. *)
Definition read_user_bytes (s : vmm) (user_address len : Z) : res (option (list Z)) :=
  read_user_loop (Z.to_nat len) s user_address len 0 [].

Fixpoint write_user_loop (fuel : nat) (s : vmm) (user_address : Z) (src : list Z) (len copied : Z)
    : res (bool * vmm) :=
  if copied <? len then
    match fuel with
    | O => NoFuel
    | S fuel =>
        vmm_virt_to_phys s (u64 (user_address + copied)) ≫= fun r =>
        match r with
        | None => Ret (false, s)
        | Some physical_address =>
            let chunk := user_chunk physical_address len copied in
            let s := set_vm_mem s (mem_write (vm_mem s) (pmm_phys_to_virt (vm_pmm s) physical_address)
                       (firstn (Z.to_nat chunk) (skipn (Z.to_nat copied) src))) in
            write_user_loop fuel s user_address src len (copied + chunk)
        end
    end
  else Ret (true, s).

Definition write_user_bytes (s : vmm) (user_address : Z) (src : list Z) : res (bool * vmm) :=
  let len := Z.of_nat (length src) in
  write_user_loop (Z.to_nat len) s user_address src len 0.

Definition copy_to_user (s : vmm) (user_address : Z) (src : list Z) : res (bool * vmm) :=
  let len := Z.of_nat (length src) in
  if len =? 0 then Ret (true, s)
  else if negb (userspace_range_is_valid user_address len) then Ret (false, s)
  else write_user_bytes s user_address src.

(** The string copied, without its terminator. *)
Definition copy_user_string (s : vmm) (user_address dest_size : Z) : res (option (list Z)) :=
  if dest_size =? 0 then Ret None
  else
    mrange 0 dest_size 1 (fun i dest =>
      if negb (userspace_range_is_valid (u64 (user_address + i)) 1) then Ret (Break None)
      else
        read_user_bytes s (u64 (user_address + i)) 1 ≫= fun r =>
        Ret match r with
            | Some (c :: _) => if c =? 0 then Break (Some dest) else Cont (dest ++ [c])
            | _ => Break None
            end) [] ≫= fun c =>
    Ret match c with Break r => r | Cont _ => None end.

(** ** Paths *)

(** The absolute text a path stands for, before it is normalised. *)
Definition combine_path (cwd path : list Z) : option (list Z) :=
  match path with
  | 47 :: _ => Some (firstn (Z.to_nat (USER_FS_PATH_MAX - 1)) path)
  | _ =>
      let cwd_len := Z.of_nat (length cwd) in
      let path_len := Z.of_nat (length path) in
      let needs_slash := (1 <? cwd_len) && negb (nth (Z.to_nat (cwd_len - 1)) cwd 0 =? 47) in
      if USER_FS_PATH_MAX <? cwd_len + (if needs_slash then 1 else 0) + path_len + 1 then None
      else Some (cwd ++ (if needs_slash then [47] else []) ++ path)
  end.

(** [while (out_len > 1 && out[out_len - 1] != '/') out_len--]. *)
Fixpoint strip_name (out : list Z) (out_len : nat) : nat :=
  match out_len with
  | S (S n as m) => if nth m out 0 =? 47 then out_len else strip_name out m
  | _ => out_len
  end.

Definition pop_name (out : list Z) : list Z :=
  if (1 <? length out)%nat then
    let out_len := strip_name out (length out) in
    firstn (if (1 <? out_len)%nat then out_len - 1 else out_len) out
  else out.

Definition push_name (out name : list Z) (out_size : Z) : option (list Z) :=
  let long := (1 <? length out)%nat in
  let needed := Z.of_nat (length out) + (if long then 1 else 0) + Z.of_nat (length name) + 1 in
  if out_size <? needed then None
  else Some (out ++ (if long then [47] else []) ++ name).

Definition resolve_name (out name : list Z) (out_size : Z) : option (list Z) :=
  match name with
  | [46] => Some out
  | [46; 46] => Some (pop_name out)
  | [] => Some out
  | _ => push_name out name out_size
  end.

Fixpoint resolve_loop (fuel : nat) (cursor out : list Z) (out_size : Z) : res (option (list Z)) :=
  match cursor with
  | [] => Ret (Some out)
  | _ =>
      match fuel with
      | O => NoFuel
      | S fuel =>
          let '(name, rest) := take_name cursor in
          match resolve_name out name out_size with
          | None => Ret None
          | Some out => resolve_loop fuel (skip_slashes rest) out out_size
          end
      end
  end.

(** [cwd] is the working directory of the current process, "/" when there is
    none; the result is the text of [out]. *)
Definition resolve_path (cwd path : list Z) (out_size : Z) : res (option (list Z)) :=
  if (out_size =? 0) || match path with [] => true | _ => false end then Ret None
  else
    match combine_path cwd path with
    | None => Ret None
    | Some combined =>
        if out_size <? 2 then Ret None
        else resolve_loop (length combined) (skip_slashes combined) [47] out_size
    end.

Section Calls.
Context {F : Type} `{FsOps F}.

Definition current_process (k : kernel F) : option process :=
  match scheduler_current_process (k_user k) with
  | Some i => Some (proc_at (k_user k) i)
  | None => None
  end.

Definition current_cwd (k : kernel F) : list Z :=
  match current_process k with
  | Some p => match pr_cwd p with [] => [47] | cwd => cwd end
  | None => [47]
  end.

Definition resolve_path_for_current (k : kernel F) (path : list Z) (out_size : Z)
    : res (option (list Z)) :=
  resolve_path (current_cwd k) path out_size.

Definition copy_and_resolve_user_path (k : kernel F) (user_address : Z) : res (option (list Z)) :=
  copy_user_string (k_vmm k) user_address USER_FS_PATH_MAX ≫= fun r =>
  match r with
  | None => Ret None
  | Some path => resolve_path_for_current k path USER_FS_PATH_MAX
  end.

(** The loop of [write_user_string]. *)
Fixpoint write_string_loop (fuel : nat) (k : kernel F) (user_address len written : Z)
    : res (Z * kernel F) :=
  if written <? len then
    match fuel with
    | O => NoFuel
    | S fuel =>
        let chunk := if USER_WRITE_CHUNK <? len - written then USER_WRITE_CHUNK else len - written in
        read_user_bytes (k_vmm k) (u64 (user_address + written)) chunk ≫= fun r =>
        match r with
        | None => Ret (SYSCALL_ERR_FAULT, k)
        | Some bytes => write_string_loop fuel (console_write k bytes) user_address len (written + chunk)
        end
    end
  else Ret (s64 len, k).

Definition write_user_string (k : kernel F) (user_address len : Z) : res (Z * kernel F) :=
  if len =? 0 then Ret (0, k)
  else if negb (userspace_range_is_valid user_address len) then Ret (SYSCALL_ERR_FAULT, k)
  else write_string_loop (Z.to_nat (len / USER_WRITE_CHUNK + 1)) k user_address len 0.

Definition flag (b : bool) : list Z := [if b then 1 else 0].

(** The bytes of [struct user_userspace_status]; padding is zero. *)
Definition make_user_userspace_status (k : kernel F) : list Z :=
  let st := userspace_get_status k in
  let cur f := match current_process k with Some p => f p | None => 0 end in
  le_bytes 4 1 ++ flag (uss_initialized st) ++ flag (uss_syscall_dispatch_ready st)
  ++ flag (uss_init_process_ready st) ++ flag (uss_scheduler_ready st)
  ++ flag (uss_preemptive_enabled st) ++ flag (uss_user_task_active st) ++ repeat 0 6
  ++ flat_map (le_bytes 8)
       [uss_user_min st; uss_user_max st; uss_image_base st; uss_user_stack_top st;
        uss_kernel_base st; uss_init_entry st; uss_init_pml4 st; uss_scheduler_ticks st;
        uss_user_preemptions st; uss_launches st; uss_exits st; uss_last_exit_status st;
        cur pr_heap_start; cur pr_heap_current; cur pr_heap_end; uss_app_count st].

(** How a system call ends. *)
Inductive outcome : Type :=
  | Returns (value : Z) (frame : syscall_frame)
  | Transfers (t : transfer).

(** Copy a structure or buffer to the user and return [value]. *)
Definition copy_out (k : kernel F) (frame : syscall_frame) (user_address : Z) (bytes : list Z)
    (value : Z) : res (outcome * kernel F) :=
  copy_to_user (k_vmm k) user_address bytes ≫= fun '(ok, s) =>
  let k := with_vmm k s in
  Ret (Returns (if (ok : bool) then value else SYSCALL_ERR_FAULT) frame, k).

(** Run [body] on the resolved path at [user_address]. *)
Definition with_user_path (k : kernel F) (frame : syscall_frame) (user_address : Z)
    (body : list Z -> res (outcome * kernel F)) : res (outcome * kernel F) :=
  copy_and_resolve_user_path k user_address ≫= fun r =>
  match r with
  | None => Ret (Returns SYSCALL_ERR_FAULT frame, k)
  | Some path => body path
  end.

(** Call a file-system operation that changes it. *)
Definition fs_update (k : kernel F) (frame : syscall_frame) (x : res (Z * F))
    : res (outcome * kernel F) :=
  x ≫= fun '(r, f) => Ret (Returns r frame, with_kfs k f).

(** "[user exit]\n". *)
Definition user_exit_text : list Z := [91; 117; 115; 101; 114; 32; 101; 120; 105; 116; 93; 10].

Definition sys_exit (k : kernel F) (frame : syscall_frame) : res (outcome * kernel F) :=
  let k := console_write_string k user_exit_text in
  let status := s64 (sf_arg0 frame) in
  match scheduler_finish_blocking_exit (k_user k) status (Some frame) with
  | (true, u, Some frame') => Ret (Returns status frame', with_user k u)
  | (_, u, _) =>
      scheduler_exit_current u status ≫= fun '(t, u) => Ret (Transfers t, with_user k u)
  end.

Definition key_code (key : keyboard_key) : Z :=
  match key with
  | KEYBOARD_KEY_NONE => 0 | KEYBOARD_KEY_CHAR => 1 | KEYBOARD_KEY_ESCAPE => 2
  | KEYBOARD_KEY_BACKSPACE => 3 | KEYBOARD_KEY_TAB => 4 | KEYBOARD_KEY_ENTER => 5
  | KEYBOARD_KEY_UP => 6 | KEYBOARD_KEY_DOWN => 7 | KEYBOARD_KEY_LEFT => 8
  | KEYBOARD_KEY_RIGHT => 9 | KEYBOARD_KEY_HOME => 10 | KEYBOARD_KEY_END => 11
  | KEYBOARD_KEY_DELETE => 12
  end.

Definition sys_read_char (k : kernel F) (frame : syscall_frame) : res (outcome * kernel F) :=
  of_fuel (keyboard_read_char (k_keyboard k)) ≫= fun '(r, kb) =>
  Ret (Returns match r with Some ch => u8 ch | None => SYSCALL_ERR_AGAIN end frame,
       with_keyboard k kb).

Definition sys_read_event (k : kernel F) (frame : syscall_frame) : res (outcome * kernel F) :=
  let '(r, kb) := keyboard_read_event (k_keyboard k) in
  Ret (Returns
         match r with
         | Some ev => Z.lor (Z.lor (key_code (ev_key ev)) (Z.shiftl (u8 (ev_ch ev)) 8))
                        (Z.shiftl (ev_modifiers ev) 16)
         | None => SYSCALL_ERR_AGAIN
         end frame,
       with_keyboard k kb).

Definition sys_sbrk (k : kernel F) (frame : syscall_frame) : res (outcome * kernel F) :=
  match scheduler_current_process (k_user k) with
  | None => Ret (Returns SYSCALL_ERR_FAULT frame, k)
  | Some i =>
      process_sbrk (k_vmm k) (proc_at (k_user k) i) (s64 (sf_arg0 frame)) ≫= fun '(r, p, s) =>
      let k := with_vmm k s in
      let k := with_user k (put_process (k_user k) i p) in
      Ret (Returns match r with Some b => s64 b | None => SYSCALL_ERR_FAULT end frame, k)
  end.

Definition sys_memory_status (k : kernel F) (frame : syscall_frame) : res (outcome * kernel F) :=
  let memory := pmm_get_stats (vm_pmm (k_vmm k)) in
  copy_out k frame (sf_arg0 frame)
    (flat_map (le_bytes 8)
       [ps_total_bytes memory / 1024; ps_free_bytes memory / 1024; ps_used_bytes memory / 1024;
        pmm_hhdm_offset (vm_pmm (k_vmm k))]) 0.

Definition sys_klog_status (k : kernel F) (frame : syscall_frame) : res (outcome * kernel F) :=
  let l := k_klog k in
  copy_out k frame (sf_arg0 frame)
    (flat_map (le_bytes 8) [klog_size l; KLOG_CAPACITY; klog_total_written l; klog_dropped l]) 0.

Definition sys_klog_read (k : kernel F) (frame : syscall_frame) : res (outcome * kernel F) :=
  let requested := if USER_KLOG_READ_MAX <? sf_arg1 frame then USER_KLOG_READ_MAX else sf_arg1 frame in
  let bytes := klog_copy_tail (k_klog k) requested in
  copy_out k frame (sf_arg0 frame) bytes (Z.of_nat (length bytes)).

Definition sys_timer_status (k : kernel F) (frame : syscall_frame) : res (outcome * kernel F) :=
  copy_out k frame (sf_arg0 frame)
    (le_bytes 8 (timer_ticks k) ++ le_bytes 4 (timer_frequency k) ++ repeat 0 4) 0.

Definition sys_heap_status (k : kernel F) (frame : syscall_frame) : res (outcome * kernel F) :=
  let h := sy_heap (k_sys k) in
  kheap_get_stats h ≫= fun st =>
  kheap_validate h ≫= fun valid =>
  copy_out k frame (sf_arg0 frame)
    (flat_map (le_bytes 8) [hs_mapped_bytes st; hs_allocated_bytes st; hs_free_bytes st]
     ++ flag valid ++ repeat 0 7) 0.

Definition sys_app_run_path (k : kernel F) (frame : syscall_frame) : res (outcome * kernel F) :=
  with_user_path k frame (sf_arg0 frame) (fun path =>
    let cwd := match current_process k with Some p => pr_cwd p | None => [47] end in
    process_create_filesystem_process (k_sys k) (Some path) (Some cwd) ≫= fun '(r, y) =>
    let k := with_sys k y in
    match r with
    | None => Ret (Returns SYSCALL_ERR_INVAL frame, k)
    | Some i =>
        scheduler_run_process_blocking (k_user k) (Some i) (Some frame) ≫= fun '(t, u) =>
        Ret (Transfers t, with_user k u)
    end).

Definition sys_fs_list (k : kernel F) (frame : syscall_frame) : res (outcome * kernel F) :=
  with_user_path k frame (sf_arg0 frame) (fun path =>
    let max := if USER_FS_LIST_MAX <? sf_arg2 frame then USER_FS_LIST_MAX else sf_arg2 frame in
    fs_list_dir (k_fs k) path max ≫= fun '(count, entries) =>
    if count <? 0 then Ret (Returns count frame, k)
    else copy_out k frame (sf_arg1 frame) (flat_map dirent_bytes entries) count).

Definition sys_fs_read (k : kernel F) (frame : syscall_frame) : res (outcome * kernel F) :=
  with_user_path k frame (sf_arg0 frame) (fun path =>
    let requested := if USER_FS_READ_MAX <? sf_arg2 frame then USER_FS_READ_MAX else sf_arg2 frame in
    fs_read_file (k_fs k) path requested (sf_arg3 frame) ≫= fun '(copied, bytes) =>
    if copied <? 0 then Ret (Returns copied frame, k)
    else copy_out k frame (sf_arg1 frame) bytes copied).

Definition sys_fs_getcwd (k : kernel F) (frame : syscall_frame) : res (outcome * kernel F) :=
  let cwd := current_cwd k in
  let len := Z.of_nat (length cwd) + 1 in
  if sf_arg1 frame <? len then Ret (Returns SYSCALL_ERR_INVAL frame, k)
  else copy_out k frame (sf_arg0 frame) (cwd ++ [0]) 0.

Definition sys_fs_chdir (k : kernel F) (frame : syscall_frame) : res (outcome * kernel F) :=
  with_user_path k frame (sf_arg0 frame) (fun path =>
    fs_stat (k_fs k) path ≫= fun '(st, entry) =>
    if negb (st =? 0) || negb (fd_type entry =? USER_FS_TYPE_DIR)
    then Ret (Returns SYSCALL_ERR_INVAL frame, k)
    else
      match scheduler_current_process (k_user k) with
      | None => Ret (Returns SYSCALL_ERR_INVAL frame, k)
      | Some i =>
          let '(ok, p) := process_set_cwd (proc_at (k_user k) i) (Some path) in
          if (ok : bool) then Ret (Returns 0 frame, with_user k (put_process (k_user k) i p))
          else Ret (Returns SYSCALL_ERR_INVAL frame, k)
      end).

Definition sys_fs_write (k : kernel F) (frame : syscall_frame) : res (outcome * kernel F) :=
  with_user_path k frame (sf_arg0 frame) (fun path =>
    let requested := if USER_FS_READ_MAX <? sf_arg2 frame then USER_FS_READ_MAX else sf_arg2 frame in
    read_user_bytes (k_vmm k) (sf_arg1 frame) requested ≫= fun r =>
    match r with
    | None => Ret (Returns SYSCALL_ERR_FAULT frame, k)
    | Some bytes => fs_update k frame (fs_write_file (k_fs k) path bytes (sf_arg3 frame))
    end).

Definition syscall_dispatch (k : kernel F) (frame : syscall_frame) : res (outcome * kernel F) :=
  let arg0 := sf_arg0 frame in
  let done k := Ret (Returns 0 frame, k) in
  let path_op op := with_user_path k frame arg0 (fun path => fs_update k frame (op (k_fs k) path)) in
  match sf_number frame with
  | 1 => done (console_putchar k (u8 arg0))
  | 2 => sys_exit k frame
  | 3 => sys_read_char k frame
  | 4 => sys_read_event k frame
  | 5 => done (console_clear k)
  | 6 => done (console_set_color k (u8 arg0) (u8 (sf_arg1 frame)) (u8 (sf_arg2 frame)))
  | 7 => done (console_set_background k (u8 arg0) (u8 (sf_arg1 frame)) (u8 (sf_arg2 frame)))
  | 8 => done (console_set_default_colors k)
  | 9 => sys_memory_status k frame
  | 10 => write_user_string k arg0 (sf_arg1 frame) ≫= fun '(r, k) => Ret (Returns r frame, k)
  | 11 => copy_out k frame arg0 (make_user_userspace_status k) 0
  | 12 => sys_sbrk k frame
  | 13 => sys_klog_status k frame
  | 14 => sys_klog_read k frame
  | 15 => sys_timer_status k frame
  | 16 => copy_out k frame arg0 (boot_info_get_framebuffer_status k) 0
  | 17 => sys_heap_status k frame
  | 18 => done k
  | 19 => Ret (Returns SYSCALL_ERR_INVAL frame, k)
  | 20 => Ret (Returns SYSCALL_ERR_INVAL frame, k)
  | 21 => copy_out k frame arg0 (fs_status_bytes (fs_get_status (k_fs k))) 0
  | 22 => sys_fs_list k frame
  | 23 => sys_fs_read k frame
  | 24 => sys_fs_getcwd k frame
  | 25 => sys_fs_chdir k frame
  | 26 => sys_fs_write k frame
  | 27 => sys_app_run_path k frame
  | 28 => path_op fs_create_file
  | 29 => path_op fs_mkdir
  | 30 => path_op fs_unlink
  | 31 => path_op fs_rmdir
  | 32 => path_op (fun f path => fs_truncate_file f path (sf_arg1 frame))
  | _ => Ret (Returns SYSCALL_ERR_NOSYS frame, k)
  end.

(** ** Interrupt entry (idt.c) *)

Definition SYSCALL_VECTOR : Z := 0x80.
Definition PIC_REMAP_OFFSET : Z := 0x20.

Definition syscall_frame_of (f : interrupt_frame) : syscall_frame :=
  mk_sframe (if_rax f) (if_rdi f) (if_rsi f) (if_rdx f) (if_r10 f) (if_r8 f) (if_r9 f)
    (if_rbx f) (if_rcx f) (if_rbp f) (if_r11 f) (if_r12 f) (if_r13 f) (if_r14 f) (if_r15 f)
    (if_rip f) (if_user_rsp f) (if_rflags f).

Definition interrupt_return (f : interrupt_frame) (value : Z) (s : syscall_frame) : interrupt_frame :=
  mk_iframe (sf_r15 s) (sf_r14 s) (sf_r13 s) (sf_r12 s) (sf_r11 s) (sf_arg3 s) (sf_arg5 s)
    (sf_arg4 s) (sf_rbp s) (sf_arg0 s) (sf_arg1 s) (sf_arg2 s) (sf_rcx s) (sf_rbx s) (u64 value)
    (if_vector f) (if_error_code f) (sf_user_rip s) (if_cs f) (sf_rflags s) (sf_user_rsp s)
    (if_user_ss f).

(** What an interrupt handler does: returns through the frame, leaves it for
    another context, or halts the machine. *)
Inductive interrupt_end : Type :=
  | Resumes (f : interrupt_frame)
  | Leaves (t : transfer)
  | Halts.

Definition exception_dispatch (k : kernel F) (f : interrupt_frame)
    : res (interrupt_end * kernel F) :=
  if if_vector f =? SYSCALL_VECTOR then
    syscall_dispatch k (syscall_frame_of f) ≫= fun '(o, k) =>
    Ret (match o with
         | Returns value s => Resumes (interrupt_return f value s)
         | Transfers t => Leaves t
         end, k)
  else Ret (Halts, k).

(** The handlers the drivers register; the keyboard's reads its scancode from a
    port. *)
Inductive irq_handler : Type := TimerIrq | KeyboardIrq (scancode : Z).

Definition irq_dispatch (handlers : list (option irq_handler)) (k : kernel F) (f : interrupt_frame)
    : kernel F :=
  let vector := if_vector f in
  if (vector <? PIC_REMAP_OFFSET) || (PIC_REMAP_OFFSET + 16 <=? vector) then k
  else
    match nth (Z.to_nat (vector - PIC_REMAP_OFFSET)) handlers None with
    | Some TimerIrq => timer_irq k (Some f)
    | Some (KeyboardIrq scancode) => with_keyboard k (keyboard_irq (k_keyboard k) scancode)
    | None => k
    end.
End Calls.
