(* ===== verification/PathProofs.v ===== *)
(** * Path resolution: theorems

    [resolve_path] of Syscall.v against a reference: split the text into names,
    run the names on a stack, print the stack. *)

From S2P Require Import Prelude Klog Pmm Vmm Pages Heap Fs Elf Keyboard Process Scheduler Kernel Syscall.

(** ** Reference *)

Definition emit (cur : list Z) : list (list Z) := match cur with [] => [] | _ => [cur] end.

(** The non-empty names of a text; [cur] is the name being read. *)
Fixpoint names_from (cur text : list Z) : list (list Z) :=
  match text with
  | [] => emit cur
  | c :: rest => if c =? 47 then emit cur ++ names_from [] rest else names_from (cur ++ [c]) rest
  end.

Definition names (text : list Z) : list (list Z) := names_from [] text.

Definition name_step (stack : list (list Z)) (name : list Z) : list (list Z) :=
  match name with
  | [46] => stack
  | [46; 46] => removelast stack
  | _ => stack ++ [name]
  end.

Definition normalise (ns : list (list Z)) : list (list Z) := fold_left name_step ns [].

Definition print_path (stack : list (list Z)) : list Z :=
  match stack with [] => [47] | _ => concat (map (cons 47) stack) end.

(** A name that can stay in a normal path. *)
Definition plain_name (n : list Z) : Prop := n <> [] /\ ~ In 47 n /\ n <> [46] /\ n <> [46; 46].

(** ** Lemmas *)

Lemma take_name_spec cursor name rest :
  take_name cursor = (name, rest) ->
  cursor = name ++ rest /\ ~ In 47 name /\ match rest with [] => True | c :: _ => c = 47 end.
Proof.
  revert name rest; induction cursor as [|c cursor IH]; intros name rest; cbn [take_name].
  - intros [= <- <-]. auto.
  - destruct (Z.eqb_spec c 47) as [->|Hc]; [intros [= <- <-]; auto|].
    destruct (take_name cursor) as [n r]. intros [= <- <-].
    destruct (IH n r eq_refl) as (-> & Hn & Hr). split; [reflexivity|]. split; [|exact Hr].
    intros [?|?]; auto.
Qed.

Lemma names_from_app cur name rest :
  ~ In 47 name -> names_from cur (name ++ rest) = names_from (cur ++ name) rest.
Proof.
  revert cur; induction name as [|c name IH]; intros cur Hn; [rewrite app_nil_r; reflexivity|].
  cbn [app names_from]. destruct (Z.eqb_spec c 47) as [->|_]; [destruct Hn; left; reflexivity|].
  rewrite IH by (intros Hi; apply Hn; right; exact Hi). rewrite <- app_assoc. reflexivity.
Qed.

Lemma names_take cursor name rest :
  take_name cursor = (name, rest) -> name <> [] -> names cursor = name :: names rest.
Proof.
  intros H Hne. destruct (take_name_spec _ _ _ H) as (-> & Hn & Hr). unfold names.
  rewrite names_from_app by exact Hn. cbn [app]. destruct rest as [|c rest].
  - cbn. destruct name; [congruence|reflexivity].
  - subst c. cbn [names_from]. change (47 =? 47) with true. cbn iota.
    destruct name; [congruence|reflexivity].
Qed.

Lemma names_skip text : names (skip_slashes text) = names text.
Proof.
  induction text as [|c text IH]; [reflexivity|]. cbn [skip_slashes].
  destruct (Z.eqb_spec c 47) as [->|]; [exact IH|reflexivity].
Qed.

Lemma skip_slashes_head text c rest : skip_slashes text = c :: rest -> c <> 47.
Proof.
  induction text as [|d text IH]; [discriminate|]. cbn [skip_slashes].
  destruct (Z.eqb_spec d 47) as [->|Hd]; [exact IH|]. intros [= <- _]. exact Hd.
Qed.

Lemma skip_slashes_length text : (length (skip_slashes text) <= length text)%nat.
Proof. induction text as [|c text IH]; [auto|]. cbn [skip_slashes length]. destruct (c =? 47); cbn [length]; lia. Qed.

(** Text that ends at a name boundary. *)
Lemma names_app_slash a b : names (a ++ 47 :: b) = names a ++ names b.
Proof.
  unfold names. generalize (@nil Z) at 1 2 as cur.
  induction a as [|c a IH]; intros cur; [reflexivity|]. cbn [app names_from].
  destruct (c =? 47); [rewrite IH, app_assoc; reflexivity|apply IH].
Qed.

Lemma names_snoc_slash a : names (a ++ [47]) = names a.
Proof. rewrite names_app_slash. apply app_nil_r. Qed.

Lemma removelast_app_one {A} (l : list A) x : removelast (l ++ [x]) = l.
Proof. rewrite removelast_app by discriminate. cbn. apply app_nil_r. Qed.

(** *** The three cases of a name *)

Lemma print_snoc stack name :
  print_path (stack ++ [name]) = (match stack with [] => [] | _ => print_path stack end) ++ 47 :: name.
Proof.
  destruct stack as [|n stack]; [cbn; rewrite app_nil_r; reflexivity|].
  unfold print_path. cbn [app]. rewrite map_cons, map_app. cbn [concat]. rewrite concat_app.
  cbn [map concat]. rewrite app_nil_r, app_assoc. reflexivity.
Qed.

Lemma print_length stack :
  Forall plain_name stack -> (1 <? length (print_path stack))%nat = negb (match stack with [] => true | _ => false end).
Proof.
  intros H. destruct stack as [|n stack]; [reflexivity|]. cbn [negb]. apply Nat.ltb_lt.
  inversion H as [|? ? (Hn & _) _]; subst. cbn. rewrite length_app. destruct n; [congruence|cbn; lia].
Qed.

Lemma strip_name_step out n :
  strip_name out (S (S n)) = if nth (S n) out 0 =? 47 then S (S n) else strip_name out (S n).
Proof. reflexivity. Qed.

Lemma strip_name_spec out p name :
  out = p ++ 47 :: name -> ~ In 47 name ->
  forall k, (k <= length name)%nat -> strip_name out (length p + 1 + k) = (length p + 1)%nat.
Proof.
  intros -> Hn k. induction k as [|k IH]; intros Hk.
  - rewrite Nat.add_0_r. destruct p as [|c p]; [reflexivity|]. cbn [length Nat.add].
    replace (length p + 1)%nat with (S (length p)) by lia. rewrite strip_name_step.
    rewrite app_nth2 by (cbn; lia). replace (S (length p) - length (c :: p))%nat with 0%nat by (cbn; lia).
    cbn [nth]. change (47 =? 47) with true. cbn iota. lia.
  - replace (length p + 1 + S k)%nat with (S (S (length p + k))) by lia. rewrite strip_name_step.
    replace (S (length p + k)) with (length p + 1 + k)%nat by lia.
    rewrite app_nth2 by lia. replace (length p + 1 + k - length p)%nat with (S k) by lia. cbn [nth].
    destruct (Z.eqb_spec (nth k name 0) 47) as [E|_]; [|apply IH; lia].
    destruct Hn. rewrite <- E. apply nth_In. lia.
Qed.

Lemma pop_print stack :
  Forall plain_name stack -> pop_name (print_path stack) = print_path (removelast stack).
Proof.
  intros H. unfold pop_name. rewrite print_length by exact H.
  destruct (last_cases stack) as [->|(name & st & ->)]; [reflexivity|].
  apply List.Forall_app in H as [Hst Hn]. inversion Hn as [|? ? (Hne & Hns & _) _]; subst.
  rewrite removelast_app_one. destruct (st ++ [name]) as [|x l] eqn:E; [destruct st; discriminate|].
  rewrite <- E. cbn [negb]. clear E x l. rewrite print_snoc.
  set (p := match st with [] => [] | _ => print_path st end).
  pose proof (strip_name_spec _ p name eq_refl Hns (length name) (le_n _)) as S.
  replace (length (p ++ 47 :: name)) with (length p + 1 + length name)%nat
    by (rewrite length_app; cbn [length]; lia).
  rewrite S. destruct st as [|n st]; [reflexivity|].
  assert (Hp : (1 <? length p)%nat = true) by (exact (print_length (n :: st) Hst)).
  apply Nat.ltb_lt in Hp. destruct (Nat.ltb_spec 1 (length p + 1)); [|lia].
  replace (length p + 1 - 1)%nat with (length p) by lia. rewrite firstn_app, firstn_all, Nat.sub_diag.
  apply app_nil_r.
Qed.

Lemma push_print stack name size :
  Forall plain_name stack ->
  push_name (print_path stack) name size
  = if size <? Z.of_nat (length (print_path (stack ++ [name]))) + 1 then None
    else Some (print_path (stack ++ [name])).
Proof.
  intros H. unfold push_name. rewrite print_length by exact H. rewrite print_snoc, length_app.
  destruct stack as [|n stack]; cbn [negb app length print_path].
  - replace (Z.of_nat 1 + 0 + Z.of_nat (length name) + 1) with (Z.of_nat (0 + S (length name)) + 1) by lia.
    reflexivity.
  - match goal with |- context [Z.of_nat ?a + 1 + Z.of_nat (length name) + 1] =>
      replace (Z.of_nat a + 1 + Z.of_nat (length name) + 1) with (Z.of_nat (a + S (length name)) + 1) by lia end.
    destruct (size <? _); [reflexivity|]. reflexivity.
Qed.

(** *** The loop *)

Lemma name_step_plain stack name :
  Forall plain_name stack -> name <> [] -> ~ In 47 name -> Forall plain_name (name_step stack name).
Proof.
  intros H Hne Hs.
  assert (Hrl : Forall plain_name (removelast stack)).
  { destruct (last_cases stack) as [->|(x & l & ->)]; [constructor|].
    rewrite removelast_app_one. apply List.Forall_app in H as [H _]. exact H. }
  destruct (decide (name = [46])) as [->|H1]; [exact H|].
  destruct (decide (name = [46; 46])) as [->|H2]; [exact Hrl|].
  assert (E : name_step stack name = stack ++ [name]).
  { unfold name_step. repeat case_match; congruence. }
  rewrite E. apply List.Forall_app. split; [exact H|]. constructor; [|constructor]. split_and!; auto.
Qed.

(** One name: the printed stack is stepped, or the name does not fit. *)
Lemma resolve_name_step stack name size :
  Forall plain_name stack -> name <> [] -> ~ In 47 name ->
  Z.of_nat (length (print_path stack)) + 1 <= size ->
  match resolve_name (print_path stack) name size with
  | Some out => out = print_path (name_step stack name) /\ Z.of_nat (length out) + 1 <= size
  | None => size < Z.of_nat (length (print_path (name_step stack name))) + 1
  end.
Proof.
  intros H Hne Hs Hfit.
  destruct (decide (name = [46])) as [->|H1]; [split; [reflexivity|exact Hfit]|].
  destruct (decide (name = [46; 46])) as [->|H2].
  - cbn [resolve_name name_step]. rewrite pop_print by exact H. split; [reflexivity|].
    destruct (last_cases stack) as [->|(x & l & ->)]; [exact Hfit|]. rewrite removelast_app_one.
    rewrite print_snoc, length_app in Hfit. destruct l; cbn [length print_path] in *; lia.
  - assert (E : name_step stack name = stack ++ [name]) by (unfold name_step; repeat case_match; congruence).
    assert (E2 : resolve_name (print_path stack) name size = push_name (print_path stack) name size)
      by (unfold resolve_name; repeat case_match; congruence).
    rewrite E, E2, push_print by exact H.
    destruct (Z.ltb_spec size (Z.of_nat (length (print_path (stack ++ [name]))) + 1)); auto.
Qed.

Lemma resolve_loop_spec size fuel : forall cursor stack,
  (length cursor <= fuel)%nat -> match cursor with c :: _ => c <> 47 | [] => True end ->
  Forall plain_name stack -> Z.of_nat (length (print_path stack)) + 1 <= size ->
  exists r, resolve_loop fuel cursor (print_path stack) size = Ret r
    /\ match r with
       | Some out => out = print_path (fold_left name_step (names cursor) stack)
           /\ Forall plain_name (fold_left name_step (names cursor) stack)
           /\ Z.of_nat (length out) + 1 <= size
       | None => exists pre suf, names cursor = pre ++ suf
           /\ size < Z.of_nat (length (print_path (fold_left name_step pre stack))) + 1
       end.
Proof.
  induction fuel as [|fuel IH]; intros cursor stack Hf Hh Hp Hfit.
  { destruct cursor; [|cbn in Hf; lia]. eexists. split; [reflexivity|]. cbv iota. split_and!; auto. }
  destruct cursor as [|c cursor]; [eexists; split; [reflexivity|]; cbv iota; split_and!; auto|].
  cbn [resolve_loop]. destruct (take_name (c :: cursor)) as [name rest] eqn:Et.
  destruct (take_name_spec _ _ _ Et) as (Ec & Hns & Hr).
  assert (Hne : name <> []).
  { intros ->. cbn [app] in Ec. rewrite <- Ec in Hr. exact (Hh Hr). }
  rewrite (names_take _ _ _ Et Hne). cbn [fold_left].
  pose proof (resolve_name_step stack name size Hp Hne Hns Hfit) as S.
  destruct (resolve_name _ name size) as [out|].
  - destruct S as [-> Hfit']. rewrite <- (names_skip rest).
    destruct (IH (skip_slashes rest) (name_step stack name)) as (r & E & R); auto.
    + pose proof (skip_slashes_length rest) as L. apply (f_equal length) in Ec. rewrite length_app in Ec.
      cbn [length] in *. destruct name; [congruence|cbn [length] in Ec; lia].
    + destruct (skip_slashes rest) eqn:Es; [exact I|]. eapply skip_slashes_head, Es.
    + apply name_step_plain; assumption.
    + exists r. split; [exact E|]. destruct r as [out|]; [exact R|].
      destruct R as (pre & suf & En & Hs). exists (name :: pre), suf. rewrite En. split; [reflexivity|exact Hs].
  - eexists. split; [reflexivity|]. exists [name], (names rest). split; [reflexivity|exact S].
Qed.

(** The names of the combined text. *)
Definition path_names (cwd path : list Z) : list (list Z) :=
  match path with 47 :: _ => names path | _ => names cwd ++ names path end.

Lemma combine_names cwd path combined :
  match cwd with c :: _ => c = 47 | [] => False end -> (length path <= 127)%nat ->
  combine_path cwd path = Some combined -> names combined = path_names cwd path.
Proof.
  intros Hc Hl. unfold combine_path, path_names.
  assert (Hrel : (if USER_FS_PATH_MAX <? Z.of_nat (length cwd) +
        (if (1 <? Z.of_nat (length cwd)) && negb (nth (Z.to_nat (Z.of_nat (length cwd) - 1)) cwd 0 =? 47) then 1 else 0)
        + Z.of_nat (length path) + 1 then None
      else Some (cwd ++ (if (1 <? Z.of_nat (length cwd)) && negb (nth (Z.to_nat (Z.of_nat (length cwd) - 1)) cwd 0 =? 47)
                         then [47] else []) ++ path)) = Some combined ->
      names combined = names cwd ++ names path).
  { destruct (_ <? _); [discriminate|]. intros [= <-].
    destruct ((_ <? _) && _) eqn:E; cbn [app]; [apply names_app_slash|].
    destruct (last_cases cwd) as [->|(x & l & ->)]; [destruct Hc|].
    assert (x = 47) as ->.
    { apply andb_false_iff in E as [E|E].
      - apply Z.ltb_ge in E. rewrite length_app in E. cbn [length] in E.
        destruct l; [exact Hc|cbn [length] in E; lia].
      - apply negb_false_iff, Z.eqb_eq in E. rewrite length_app in E. cbn [length] in E.
        replace (Z.to_nat (Z.of_nat (length l + 1) - 1)) with (length l) in E by lia.
        rewrite app_nth2, Nat.sub_diag in E by lia. exact E. }
    rewrite <- app_assoc. cbn [app]. rewrite names_snoc_slash. apply names_app_slash. }
  destruct path as [|c path]; [exact Hrel|].
  destruct (decide (c = 47)) as [->|Hne].
  - intros [= <-]. rewrite firstn_all2; [reflexivity|]. unfold USER_FS_PATH_MAX. cbn [length] in *. lia.
  - intros H. assert (Hn : forall A (x y : A), match c with 47 => x | _ => y end = y) by (intros; repeat case_match; congruence).
    rewrite Hn. apply Hrel. rewrite <- H. symmetry. apply Hn.
Qed.

(** A path too long to resolve: the combined text does not fit, or the normal
    form of a prefix of its names. *)
Definition path_too_long (cwd path : list Z) (size : Z) : Prop :=
  128 <= Z.of_nat (length cwd + length path) + 1
  \/ exists pre suf, path_names cwd path = pre ++ suf /\ size < Z.of_nat (length (print_path (normalise pre))) + 1.

Lemma resolve_path_ok (cwd path : list Z) (size : Z) :
  match cwd with c :: _ => c = 47 | [] => False end ->
  path <> [] -> (length path <= 127)%nat -> 2 <= size ->
  exists r, resolve_path cwd path size = Ret r
    /\ match r with
       | Some out => out = print_path (normalise (path_names cwd path))
           /\ Forall plain_name (normalise (path_names cwd path))
           /\ Z.of_nat (length out) + 1 <= size
       | None => path_too_long cwd path size
       end.
Proof.
  intros Hc Hne Hl Hs. unfold resolve_path, path_too_long.
  replace (size =? 0) with false by (symmetry; apply Z.eqb_neq; lia).
  destruct path as [|c path]; [congruence|]. cbn [orb].
  destruct (combine_path cwd (c :: path)) as [combined|] eqn:Ec.
  - destruct (Z.ltb_spec size 2) as [|_]; [lia|].
    rewrite <- (combine_names cwd (c :: path) combined Hc Hl Ec). rewrite <- (names_skip combined).
    change [47] with (print_path []).
    destruct (resolve_loop_spec size (length combined) (skip_slashes combined) []) as (r & E & R).
    + apply skip_slashes_length.
    + destruct (skip_slashes combined) eqn:Es; [exact I|]. eapply skip_slashes_head, Es.
    + constructor.
    + cbn. lia.
    + exists r. split; [exact E|]. destruct r as [out|]; [exact R|]. right. exact R.
  - eexists. split; [reflexivity|]. left. unfold combine_path in Ec.
    repeat (case_match; try discriminate Ec);
      repeat match goal with H : (_ <? _) = true |- _ => apply Z.ltb_lt in H end;
      unfold USER_FS_PATH_MAX in *; cbn [length] in *; lia.
Qed.

(** The names of a path are parts of it. *)
Lemma names_bytes text : Forall is_byte text -> Forall (Forall is_byte) (names text).
Proof.
  intros Ht. unfold names. assert (G : forall cur, Forall is_byte cur -> Forall (Forall is_byte) (names_from cur text)).
  2: { apply G. constructor. }
  assert (Em : forall cur, Forall is_byte cur -> Forall (Forall is_byte) (emit cur)) by (intros [|c cur] Hc; cbn [emit]; [constructor | constructor; [exact Hc | constructor]]).
  induction Ht as [|c text Hc _ IH]; intros cur Hcur; cbn [names_from]; [exact (Em cur Hcur)|].
  destruct (c =? 47); [apply List.Forall_app; split; [exact (Em cur Hcur) | exact (IH [] (List.Forall_nil _))]|].
  apply IH, List.Forall_app. split; [exact Hcur | exact (List.Forall_cons _ _ _ Hc (List.Forall_nil _))].
Qed.

Lemma normalise_bytes ns : Forall (Forall is_byte) ns -> Forall (Forall is_byte) (normalise ns).
Proof.
  unfold normalise. assert (G : forall st, Forall (Forall is_byte) ns -> Forall (Forall is_byte) st -> Forall (Forall is_byte) (fold_left name_step ns st)).
  2: { intros Hn. apply G; [exact Hn | constructor]. }
  induction ns as [|n ns IH]; intros st Hn Hst; cbn [fold_left]; [exact Hst|]. inversion Hn as [|? ? Hn1 Hns]; subst. apply IH; [exact Hns|].
  assert (Hpop : Forall (Forall is_byte) (removelast st)).
  { destruct (last_cases st) as [->|(x & l & ->)]; [constructor|]. rewrite removelast_app_one. apply List.Forall_app in Hst as [Hst _]. exact Hst. }
  assert (Hpush : Forall (Forall is_byte) (st ++ [n])) by (apply List.Forall_app; auto).
  unfold name_step. repeat (case_match; try assumption).
Qed.

Lemma print_path_bytes st : Forall (Forall is_byte) st -> Forall is_byte (print_path st).
Proof.
  intros H. assert (S : is_byte 47) by (unfold is_byte; lia). unfold print_path. destruct st as [|n st]; [exact (List.Forall_cons _ _ _ S (List.Forall_nil _))|].
  induction H as [|m l Hm _ IH]; [constructor|]. cbn [map concat]. constructor; [exact S|]. apply List.Forall_app. split; [exact Hm | exact IH].
Qed.

Lemma path_names_bytes cwd path : Forall is_byte cwd -> Forall is_byte path -> Forall (Forall is_byte) (path_names cwd path).
Proof.
  intros Hc Hp. assert (Hr : Forall (Forall is_byte) (names cwd ++ names path)) by (apply List.Forall_app; split; apply names_bytes; assumption).
  unfold path_names. repeat (case_match; try exact Hr). apply names_bytes, Hp.
Qed.

(** ** Property *)

(** C14. A path is resolved to its normal form. For a working directory that
    starts with a slash, [resolve_path] always returns; a result is the printed
    form of the names of the directory and the path with every dot removed and
    every dot-dot cancelled against the name before it (and dropped at the
    root), so it is absolute, no name of it is empty, dot or dot-dot, and it
    fits its buffer with the terminator. It fails only when the text, or a
    normalised prefix of it, does not fit. *)
Theorem resolve_path_normalises (cwd path : list Z) (size : Z) :
  match cwd with c :: _ => c = 47 | [] => False end ->
  path <> [] -> (length path <= 127)%nat -> 2 <= size ->
  exists r, resolve_path cwd path size = Ret r
    /\ match r with
       | Some out => out = print_path (normalise (path_names cwd path))
           /\ Forall plain_name (normalise (path_names cwd path))
           /\ Z.of_nat (length out) + 1 <= size
       | None => 128 <= Z.of_nat (length cwd + length path) + 1
           \/ exists pre suf, path_names cwd path = pre ++ suf
                /\ size < Z.of_nat (length (print_path (normalise pre))) + 1
       end.
Proof. exact (resolve_path_ok cwd path size). Qed.

Lemma resolve_path_normalises_witness :
  (* /bin and ../etc/./motd *)
  resolve_path [47; 98; 105; 110] [46; 46; 47; 101; 116; 99; 47; 46; 47; 109] 128
  = Ret (Some [47; 101; 116; 99; 47; 109]).
Proof.
  destruct (resolve_path_normalises [47; 98; 105; 110] [46; 46; 47; 101; 116; 99; 47; 46; 47; 109] 128)
    as (r & E & R); [reflexivity|discriminate|cbn; lia|lia|].
  rewrite E. vm_compute in E. injection E as <-. reflexivity.
Defined.
