(* ===== verification/UserMemProofs.v ===== *)
(** * User memory: theorems

    The copies between kernel buffers and user memory (Syscall.v) against the
    bytes the user program sees ([user_byte]). *)

From S2P Require Import Prelude Klog Pmm Vmm AddressSpace Pages Heap Fs Elf Keyboard Process.
From S2P Require Import ProcessProofs Scheduler Kernel Syscall.

(** The bytes at [a], [a + 1], ..., when all of them are mapped. *)
Fixpoint user_bytes (s : vmm) (root a : Z) (n : nat) : option (list Z) :=
  match n with
  | O => Some []
  | S n =>
      match user_byte s root a, user_bytes s root (a + 1) n with
      | Some b, Some bs => Some (b :: bs)
      | _, _ => None
      end
  end.

(** ** Lemmas *)

Lemma lookup_shift m base t va e sh :
  pt_lookup m base t level_shifts va = Some (e, sh) -> sh = 12 \/ sh = 21 \/ sh = 30.
Proof.
  unfold level_shifts. cbn [pt_lookup].
  repeat (case_match; try discriminate); intros [= <- <-]; auto;
    match goal with H : is_huge_entry _ 39 = true |- _ => discriminate H | _ => idtac end; auto.
Qed.

Lemma mask_aligned e sh : sh = 12 \/ sh = 21 \/ sh = 30 ->
  let mask := if sh =? 30 then PTE_HUGE_1G_ADDR_MASK
              else if sh =? 21 then PTE_HUGE_2M_ADDR_MASK else PTE_ADDR_MASK in
  Z.land e mask mod 2 ^ sh = 0.
Proof.
  intros H mask. rewrite <- Z.land_ones by lia. rewrite <- Z.land_assoc.
  replace (Z.land mask (Z.ones sh)) with 0; [apply Z.land_0_r|].
  destruct H as [->|[->| ->]]; reflexivity.
Qed.

(** Inside a page, the translation is an offset. *)
Lemma translate_offset s root va pa k :
  translate s root va = Some pa -> 0 <= k -> va mod 4096 + k < 4096 ->
  translate s root (va + k) = Some (pa + k) /\ pa mod 4096 = va mod 4096.
Proof.
  intros E Hk Hp. unfold translate in *.
  assert (Hv : vpn (va + k) = vpn va) by (unfold vpn; f_equal; zlia).
  rewrite (lookup_vpn s root va (va + k) Hv).
  destruct (pt_lookup _ _ _ _ va) as [[e sh]|] eqn:El; [|discriminate].
  apply lookup_shift in El. pose proof (mask_aligned e sh El) as Hm. cbv zeta in Hm.
  set (fr := Z.land e _) in *. injection E as <-.
  assert (Hsh : Z.shiftl 1 sh - 1 = 2 ^ sh - 1) by (rewrite Z.shiftl_1_l; reflexivity).
  rewrite Hsh, !land_low by lia.
  assert (Hd : exists q, 2 ^ sh = 4096 * q /\ 0 < q).
  { exists (2 ^ (sh - 12)). split; [|apply Z.pow_pos_nonneg; lia].
    change 4096 with (2 ^ 12). rewrite <- Z.pow_add_r by lia. f_equal. lia. }
  destruct Hd as (q & Hq & Hq0).
  assert (Hmod : (va + k) mod 2 ^ sh = va mod 2 ^ sh + k).
  { rewrite Hq. rewrite !Z.rem_mul_r by lia.
    replace ((va + k) / 4096) with (va / 4096) by zlia.
    replace ((va + k) mod 4096) with (va mod 4096 + k) by zlia. lia. }
  rewrite !(lor_low_add _ _ sh) by (lia || assumption || (apply Z.mod_pos_bound; lia)).
  rewrite Hmod. split; [f_equal; lia|].
  rewrite Z.add_mod by lia.
  replace (fr mod 4096) with 0.
  - rewrite Z.add_0_l, Z.mod_mod by lia. rewrite Hq, Z.rem_mul_r by lia.
    rewrite Z.add_mod, (Z.mul_comm 4096), Z.mod_mul, Z.add_0_r, !Z.mod_mod by lia. reflexivity.
  - apply Z.div_exact in Hm; [|lia]. rewrite Hm, Hq.
    rewrite <- Z.mul_assoc, (Z.mul_comm 4096), Z.mod_mul by lia. reflexivity.
Qed.

Lemma user_bytes_app s root a n m :
  user_bytes s root a (n + m)
  = match user_bytes s root a n, user_bytes s root (a + Z.of_nat n) m with
    | Some b1, Some b2 => Some (b1 ++ b2)
    | _, _ => None
    end.
Proof.
  revert a; induction n as [|n IH]; intros a; cbn [user_bytes Nat.add].
  - rewrite Z.add_0_r. destruct (user_bytes s root a m); reflexivity.
  - rewrite IH. replace (a + 1 + Z.of_nat n) with (a + Z.of_nat (S n)) by lia.
    destruct (user_byte s root a), (user_bytes s root (a + 1) n), (user_bytes s root (a + Z.of_nat (S n)) m);
      reflexivity.
Qed.

Lemma user_bytes_page s root a pa n :
  translate s root a = Some pa -> a mod 4096 + Z.of_nat n <= 4096 ->
  user_bytes s root a n = Some (mem_read (vm_mem s) (vm_base s + pa) n).
Proof.
  revert a pa; induction n as [|n IH]; intros a pa E Hn; [reflexivity|]. cbn [user_bytes].
  unfold user_byte. rewrite E. destruct n as [|n].
  - cbn. rewrite Z.add_0_r. reflexivity.
  - destruct (translate_offset s root a pa 1 E) as [E1 _]; [lia|lia|].
    rewrite (IH (a + 1) (pa + 1) E1) by zlia.
    change (S (S n)) with (1 + S n)%nat. rewrite mem_read_split.
    replace (vm_base s + (pa + 1)) with (vm_base s + pa + Z.of_nat 1) by lia.
    set (l := mem_read _ _ (S n)). unfold mem_read. cbn [seq map app].
    replace (vm_base s + pa + Z.of_nat 0) with (vm_base s + pa) by lia. reflexivity.
Qed.

(** The physical page of a mapped address is inside the direct map. *)
Definition in_direct_map (s : vmm) (root a len : Z) : Prop :=
  forall va pa, a <= va < a + len -> translate s root va = Some pa -> is_u64 (vm_base s + pa).

Lemma user_chunk_spec pa len copied :
  copied < len ->
  let n := user_chunk pa len copied in
  0 < n <= len - copied /\ pa mod 4096 + n <= 4096.
Proof.
  intros H. unfold user_chunk, VMM_PAGE_SIZE. change (4096 - 1) with (2 ^ 12 - 1).
  rewrite land_low by lia. change (2 ^ 12) with 4096. cbv zeta.
  pose proof (Z.mod_pos_bound pa 4096).
  destruct (Z.ltb_spec (len - copied) (4096 - pa mod 4096)); lia.
Qed.

Lemma direct_virt s root a len va pa :
  in_direct_map s root a len -> a <= va < a + len -> translate s root va = Some pa ->
  pmm_phys_to_virt (vm_pmm s) pa = vm_base s + pa.
Proof. intros Hd Hr E. unfold pmm_phys_to_virt. apply u64_id. exact (Hd va pa Hr E). Qed.

Lemma read_user_loop_spec s a len fuel : forall copied out,
  vm_pml4 s <> 0 -> 0 <= a -> a + len <= 18446744073709551616 ->
  in_direct_map s (vm_pml4 s) a len ->
  0 <= copied <= len -> len - copied <= Z.of_nat fuel ->
  read_user_loop fuel s a len copied out
  = Ret match user_bytes s (vm_pml4 s) (a + copied) (Z.to_nat (len - copied)) with
        | Some bs => Some (out ++ bs)
        | None => None
        end.
Proof.
  induction fuel as [|fuel IH]; intros copied out Hnz Ha Hend Hd Hc Hf; cbn [read_user_loop].
  - destruct (Z.ltb_spec copied len); [lia|].
    replace (Z.to_nat (len - copied)) with 0%nat by lia. cbn [user_bytes]. rewrite app_nil_r. reflexivity.
  - destruct (Z.ltb_spec copied len) as [Hlt|Hge].
    2:{ replace (Z.to_nat (len - copied)) with 0%nat by lia. cbn [user_bytes].
        rewrite app_nil_r. reflexivity. }
    rewrite u64_id by (unfold is_u64; lia). rewrite virt_to_phys_translate by exact Hnz.
    cbn [mbind res_bind]. destruct (translate s (vm_pml4 s) (a + copied)) as [pa|] eqn:E.
    + destruct (user_chunk_spec pa len copied Hlt) as [Hn Hp]. set (n := user_chunk pa len copied) in *.
      destruct (translate_offset s (vm_pml4 s) (a + copied) pa 0 E) as [_ Hm]; [lia|zlia|].
      rewrite (direct_virt s (vm_pml4 s) a len (a + copied) pa Hd ltac:(lia) E).
      rewrite IH by (assumption || lia).
      replace (Z.to_nat (len - copied)) with (Z.to_nat n + Z.to_nat (len - (copied + n)))%nat by lia.
      rewrite user_bytes_app, (user_bytes_page s _ (a + copied) pa) by (assumption || lia).
      replace (a + copied + Z.of_nat (Z.to_nat n)) with (a + (copied + n)) by lia.
      destruct (user_bytes _ _ (a + (copied + n)) _); [rewrite app_assoc; reflexivity|reflexivity].
    + replace (Z.to_nat (len - copied)) with (S (Z.to_nat (len - copied - 1))) by lia.
      cbn [user_bytes]. unfold user_byte at 1. rewrite E. reflexivity.
Qed.

(** ** Writing *)

(** Bytes of [s'] outside the images of [a .. a + n - 1] are those of [s]. *)
Definition only_range (s s' : vmm) (root a n : Z) : Prop :=
  forall x, (forall i pa, 0 <= i < n -> translate s root (a + i) = Some pa -> x <> vm_base s + pa) ->
    vm_mem s' x = vm_mem s x.

(** A state reached by writing user memory only: same tables, same translation. *)
Record user_write (s s' : vmm) (root : Z) (held free : list Z) (a n : Z) : Prop := {
  uw_inv : pt_inv s' root held free;
  uw_base : vm_base s' = vm_base s;
  uw_pml4 : vm_pml4 s' = vm_pml4 s;
  uw_map : forall va, translate s' root va = translate s root va;
  uw_only : only_range s s' root a n
}.

(** No two addresses of the range name the same byte. *)
Definition unaliased (s : vmm) (root a len : Z) : Prop :=
  forall i j pa, 0 <= i < len -> 0 <= j < len ->
    translate s root (a + i) = Some pa -> translate s root (a + j) = Some pa -> i = j.

Lemma write_chunk s root held free a n va pa bs :
  pt_inv s root held free -> backed s root held va -> translate s root va = Some pa ->
  va = a + n -> 0 <= n -> va mod 4096 + Z.of_nat (length bs) <= 4096 -> (0 < length bs)%nat ->
  let s' := set_vm_mem s (mem_write (vm_mem s) (vm_base s + pa) bs) in
  user_write s s' root held free a (n + Z.of_nat (length bs)).
Proof.
  intros Hinv Hb E -> Hn Hl Hl0 s'. destruct (Hb pa E) as (p & Hp & Hr).
  assert (Hf : frame_ok (vm_base s) p).
  { eapply List.Forall_forall; [apply (pt_frames _ _ _ _ Hinv)|]. apply in_or_app. auto. }
  destruct (translate_offset s root (a + n) pa 0 E) as [_ Hm]; [lia|lia|].
  assert (Hpo : pa - p = pa mod 4096) by (destruct Hf as [[_ Hf] _]; zlia).
  destruct (pt_inv_write s root held free p (pa - p) bs Hinv Hp ltac:(lia) ltac:(lia)) as [I L].
  replace (vm_base s + p + (pa - p)) with (vm_base s + pa) in I, L by lia. fold s' in I, L.
  split; [exact I|reflexivity|reflexivity| |].
  - intros va. apply translate_lookup. apply L.
  - intros x Hx. unfold s'. change (vm_mem (set_vm_mem s ?m)) with m. apply mem_write_out.
    destruct (Z.lt_ge_cases x (vm_base s + pa)) as [|Hge]; [lia|].
    destruct (Z.lt_ge_cases x (vm_base s + pa + Z.of_nat (length bs))) as [Hlt|]; [exfalso|lia].
    destruct (translate_offset s root (a + n) pa (x - vm_base s - pa) E) as [E2 _]; [lia|lia|].
    apply (Hx (n + (x - vm_base s - pa)) (pa + (x - vm_base s - pa))); [lia| |lia].
    rewrite Z.add_assoc. exact E2.
Qed.

Lemma user_write_trans s1 s2 s3 root held free a n m :
  0 <= n <= m -> user_write s1 s2 root held free a n -> user_write s2 s3 root held free a m ->
  user_write s1 s3 root held free a m.
Proof.
  intros Hnm [I1 B1 P1 M1 O1] [I2 B2 P2 M2 O2]. split; [exact I2|congruence|congruence| |].
  - intros va. rewrite M2. apply M1.
  - intros x Hx. rewrite O2; [apply O1|].
    + intros i pa Hi. apply Hx. lia.
    + intros i pa Hi E. rewrite B1. rewrite M1 in E. apply (Hx i pa Hi E).
Qed.

Lemma user_write_refl s root held free a : pt_inv s root held free -> user_write s s root held free a 0.
Proof. intros Hi. split; auto. intros x _. reflexivity. Qed.

(** A byte written before the chunk at [n] survives it. *)
Lemma chunk_keeps s root a len n pa bs i b :
  unaliased s root a len -> translate s root (a + n) = Some pa ->
  (a + n) mod 4096 + Z.of_nat (length bs) <= 4096 -> 0 <= i < n -> n + Z.of_nat (length bs) <= len ->
  let s' := set_vm_mem s (mem_write (vm_mem s) (vm_base s + pa) bs) in
  (forall va, translate s' root va = translate s root va) ->
  user_byte s root (a + i) = Some b -> user_byte s' root (a + i) = Some b.
Proof.
  intros Hal E Hp Hi Hl s' Ht Hb. unfold user_byte in *. rewrite Ht.
  destruct (translate s root (a + i)) as [pi|] eqn:Ei; [|discriminate].
  change (vm_base s') with (vm_base s). rewrite <- Hb. do 2 f_equal.
  apply mem_write_out.
  destruct (Z.lt_ge_cases pi pa) as [|Hge]; [lia|].
  destruct (Z.lt_ge_cases pi (pa + Z.of_nat (length bs))) as [Hlt|]; [exfalso|lia].
  destruct (translate_offset s root (a + n) pa (pi - pa) E) as [E2 _]; [lia|lia|].
  replace (pa + (pi - pa)) with pi in E2 by lia.
  assert (i = n + (pi - pa)); [|lia].
  eapply Hal; [lia|lia|exact Ei|]. rewrite Z.add_assoc. exact E2.
Qed.

Lemma write_user_loop_spec s root held free a src fuel :
  let len := Z.of_nat (length src) in
  vm_pml4 s = root -> root <> 0 -> 0 <= a -> a + len <= 18446744073709551616 ->
  in_direct_map s root a len -> unaliased s root a len ->
  (forall va, a <= va < a + len -> backed s root held va) ->
  forall copied s1, user_write s s1 root held free a copied ->
  0 <= copied <= len -> len - copied <= Z.of_nat fuel ->
  (forall i, 0 <= i < copied -> user_byte s1 root (a + i) = Some (u8 (nth (Z.to_nat i) src 0))) ->
  exists ok s2, write_user_loop fuel s1 a src len copied = Ret (ok, s2)
    /\ user_write s s2 root held free a len
    /\ (ok = true -> forall i, 0 <= i < len -> user_byte s2 root (a + i) = Some (u8 (nth (Z.to_nat i) src 0)))
    /\ (ok = true <-> forall i, copied <= i < len -> translate s root (a + i) <> None).
Proof.
  intros len Hpml Hnz Ha Hend Hd Hal Hback. induction fuel as [|fuel IH]; intros copied s1 W Hc Hf Hbytes;
    cbn [write_user_loop]; (destruct (Z.ltb_spec copied len) as [Hlt|Hge];
      [|assert (copied = len) as -> by lia; exists true, s1; split; [reflexivity|]; split; [exact W|];
        split; [intros _; exact Hbytes|split; [lia|reflexivity]]]); [lia|].
  pose proof W as [I B P M O].
  rewrite u64_id by (unfold is_u64; lia). rewrite virt_to_phys_translate by congruence.
  rewrite P, Hpml, M. cbn [mbind res_bind].
  destruct (translate s root (a + copied)) as [pa|] eqn:E.
  2:{ exists false, s1. split; [reflexivity|]. split; [|split; [discriminate|split; [discriminate|]]].
      - destruct W as [I' B' P' M' O']. split; auto. intros x Hx. apply O'. intros i q Hi. apply Hx. lia.
      - intros H. destruct (H copied ltac:(lia) E). }
  destruct (user_chunk_spec pa len copied Hlt) as [Hn Hp]. set (n := user_chunk pa len copied) in *.
  destruct (translate_offset s root (a + copied) pa 0 E) as [_ Hm]; [lia|zlia|].
  assert (Hv : pmm_phys_to_virt (vm_pmm s1) pa = vm_base s1 + pa).
  { unfold pmm_phys_to_virt. apply u64_id. fold (vm_base s1). rewrite B. apply (Hd (a + copied)); [lia|exact E]. }
  rewrite Hv. set (bs := firstn (Z.to_nat n) (skipn (Z.to_nat copied) src)).
  assert (Hbs : Z.of_nat (length bs) = n).
  { unfold bs. rewrite length_firstn, length_skipn. unfold len in *. lia. }
  assert (E1 : translate s1 root (a + copied) = Some pa) by (rewrite M; exact E).
  assert (Hb1 : backed s1 root held (a + copied)).
  { intros q Hq. rewrite M in Hq. apply (Hback (a + copied)); [lia|exact Hq]. }
  pose proof (write_chunk s1 root held free a copied (a + copied) pa bs I Hb1 E1 eq_refl ltac:(lia)
    ltac:(lia) ltac:(lia)) as W2.
  rewrite Hbs in W2. set (s2 := set_vm_mem s1 _) in *.
  assert (W3 : user_write s s2 root held free a (copied + n)) by (eapply user_write_trans; [|exact W|exact W2]; lia).
  assert (Hmap : forall va, translate s2 root va = translate s1 root va) by apply (uw_map _ _ _ _ _ _ _ W2).
  destruct (IH (copied + n) s2 W3 ltac:(lia) ltac:(lia)) as (ok & s3 & E3 & W4 & B4 & K4).
  - intros i Hi. destruct (Z.lt_ge_cases i copied) as [Hic|Hic].
    + eapply (chunk_keeps s1 root a len copied pa bs); [|exact E1|lia|lia|lia|exact Hmap|apply Hbytes; lia].
      intros x y q Hx Hy Ex Ey. rewrite M in Ex, Ey. apply (Hal x y q Hx Hy Ex Ey).
    + destruct (translate_offset s1 root (a + copied) pa (i - copied) E1) as [E4 _]; [lia|lia|].
      replace (a + copied + (i - copied)) with (a + i) in E4 by lia.
      unfold user_byte. rewrite Hmap, E4. change (vm_base s2) with (vm_base s1).
      do 2 f_equal. unfold s2. change (vm_mem (set_vm_mem s1 ?m)) with m.
      rewrite mem_write_in by lia. unfold bs.
      replace (Z.to_nat (vm_base s1 + (pa + (i - copied)) - (vm_base s1 + pa))) with (Z.to_nat (i - copied)) by lia.
      rewrite nth_firstn. destruct (Nat.ltb_spec (Z.to_nat (i - copied)) (Z.to_nat n)); [|lia].
      rewrite nth_skipn. f_equal. lia.
  - exists ok, s3. split; [exact E3|]. split; [exact W4|]. split; [exact B4|]. rewrite K4. split.
    + intros H i Hi. destruct (Z.lt_ge_cases i (copied + n)); [|apply H; lia].
      destruct (translate_offset s root (a + copied) pa (i - copied) E) as [E4 _]; [lia|lia|].
      replace (a + copied + (i - copied)) with (a + i) in E4 by lia. rewrite E4. discriminate.
    + intros H i Hi. apply H. lia.
Qed.

(** What the kernel assumes of the active space: its user half is backed by
    frames the processes hold, inside the direct map, no two user addresses
    naming the same byte. *)
Record user_half_ok (s : vmm) (root : Z) (held free : list Z) : Prop := {
  uh_inv : pt_inv s root held free;
  uh_root : root <> 0;
  uh_backed : forall va, user_range va 1 -> backed s root held va;
  uh_unaliased : forall va va' pa, user_range va 1 -> user_range va' 1 ->
    translate s root va = Some pa -> translate s root va' = Some pa -> va = va'
}.

Lemma user_half_direct s root held free a len :
  user_half_ok s root held free -> user_range a len -> in_direct_map s root a len.
Proof.
  intros U (Hl & H1 & H2) va pa Hr E.
  destruct (uh_backed _ _ _ _ U va ltac:(unfold user_range; lia) pa E) as (p & Hp & Hpr).
  pose proof (uh_inv _ _ _ _ U) as I.
  assert (Hf : frame_ok (vm_base s) p).
  { eapply List.Forall_forall; [apply (pt_frames _ _ _ _ I)|]. apply in_or_app. auto. }
  pose proof (pi_base _ _ (pt_pmm _ _ _ _ I)) as Hb. fold (vm_base s) in Hb.
  destruct Hf as [[? _] (_ & _ & ?)]. unfold is_u64. lia.
Qed.

(** ** Strings *)

(** The string at [a] as programs see it: the bytes before the first zero, when
    they and the zero are among the next [n] and all of them are in the user
    half and mapped. *)
Fixpoint user_string (s : vmm) (root a : Z) (n : nat) : option (list Z) :=
  match n with
  | O => None
  | S n =>
      if (USERSPACE_MIN_VADDR <=? a) && (a <=? USERSPACE_MAX_VADDR) then
        c ← user_byte s root a; if c =? 0 then Some [] else cons c <$> user_string s root (a + 1) n
      else None
  end.

Lemma user_string_spec s root n : forall a str,
  user_string s root a n = Some str -> Forall is_byte str /\ (length str < n)%nat.
Proof.
  induction n as [|n IH]; intros a str; cbn [user_string]; [discriminate|]. destruct (_ && _); [|discriminate].
  unfold user_byte. destruct (translate s root a); cbn [mbind option_bind]; [|discriminate].
  destruct (_ =? 0); [intros [= <-]; split; [constructor | cbn; lia]|].
  destruct (user_string s root (a + 1) n) as [str'|] eqn:E; cbn [fmap option_fmap option_map]; [|discriminate].
  intros [= <-]. destruct (IH _ _ E) as [Hb Hl]. split; [constructor; [apply Z.mod_pos_bound; lia | exact Hb] | cbn; lia].
Qed.

Lemma user_bytes_byte s root n : forall a bs, user_bytes s root a n = Some bs -> Forall is_byte bs /\ length bs = n.
Proof.
  induction n as [|n IH]; intros a bs; cbn [user_bytes]; [intros [= <-]; split; [constructor | reflexivity]|].
  destruct (user_byte s root a) as [c|] eqn:Ec; [|discriminate]. destruct (user_bytes s root (a + 1) n) as [bs'|] eqn:E; [|discriminate].
  intros [= <-]. destruct (IH _ _ E) as [Hb Hl]. unfold user_byte in Ec. destruct (translate s root a); [|discriminate].
  injection Ec as <-. split; [constructor; [apply Z.mod_pos_bound; lia | exact Hb] | cbn; lia].
Qed.

Lemma user_address_valid a :
  is_u64 a -> userspace_range_is_valid a 1 = (USERSPACE_MIN_VADDR <=? a) && (a <=? USERSPACE_MAX_VADDR).
Proof.
  intros Ha. pose proof (user_range_spec a 1 Ha ltac:(unfold is_u64; lia)) as Hv. unfold user_range in Hv.
  destruct (userspace_range_is_valid a 1), (Z.leb_spec USERSPACE_MIN_VADDR a), (Z.leb_spec a USERSPACE_MAX_VADDR); cbn [andb];
    try reflexivity; intuition (congruence || lia).
Qed.

Section Reading.
Context (s : vmm) (held free : list Z) (U : user_half_ok s (vm_pml4 s) held free).

Lemma read_user_ok a len :
  len = 0 \/ user_range a len -> is_u64 a -> 0 <= len ->
  read_user_bytes s a len = Ret (user_bytes s (vm_pml4 s) a (Z.to_nat len)).
Proof.
  intros Hr Ha Hl. unfold read_user_bytes, is_u64, user_range, USERSPACE_MAX_VADDR in *.
  rewrite read_user_loop_spec; try lia.
  - rewrite Z.add_0_r, Z.sub_0_r. destruct (user_bytes _ _ _ _); reflexivity.
  - exact (uh_root _ _ _ _ U).
  - destruct Hr as [-> | Hr]; [intros va pa Hva; lia | exact (user_half_direct s _ held free a len U Hr)].
Qed.

(** [copy_user_string] reads the string. *)
Lemma copy_user_string_ok a n :
  is_u64 a -> 0 < n -> copy_user_string s a n = Ret (user_string s (vm_pml4 s) a (Z.to_nat n)).
Proof.
  intros Ha Hn. unfold copy_user_string, mrange. destruct (Z.eqb_spec n 0); [lia|]. rewrite trips_unit by lia.
  match goal with |- (mfor _ _ _ ?f _ ≫= _) = _ => set (body := f) end.
  assert (B : forall i dest, is_u64 (a + i) -> body i dest =
    Ret (if (USERSPACE_MIN_VADDR <=? a + i) && (a + i <=? USERSPACE_MAX_VADDR) then
           match user_byte s (vm_pml4 s) (a + i) with
           | Some c => if c =? 0 then Break (Some dest) else Cont (dest ++ [c])
           | None => Break None
           end
         else Break None)).
  { intros i dest Hi. unfold body. rewrite u64_id, <- user_address_valid by exact Hi.
    destruct (userspace_range_is_valid (a + i) 1) eqn:Ev; cbn [negb]; [|reflexivity].
    apply user_range_spec in Ev; [|exact Hi | unfold is_u64; lia].
    rewrite read_user_ok by (auto || lia). change (Z.to_nat 1) with 1%nat. cbn [user_bytes mbind res_bind].
    destruct (user_byte s (vm_pml4 s) (a + i)); reflexivity. }
  clearbody body.
  assert (L : forall t i dest, is_u64 (a + i) ->
    (mfor t i 1 body dest ≫= fun c => Ret match c with Break r => r | Cont _ => None end)
    = Ret (app dest <$> user_string s (vm_pml4 s) (a + i) t)).
  { induction t as [|t IH]; intros i dest Hi; cbn [mfor user_string]; [reflexivity|]. rewrite B by exact Hi. cbn [mbind res_bind].
    destruct (_ && _) eqn:Er; cbn [mbind res_bind]; [|reflexivity]. b2p.
    destruct (user_byte s (vm_pml4 s) (a + i)) as [c|]; cbn [mbind option_bind]; [|reflexivity].
    destruct (c =? 0); cbn [mbind res_bind]; [cbn [fmap option_fmap option_map]; rewrite app_nil_r; reflexivity|].
    rewrite IH by (unfold is_u64, USERSPACE_MIN_VADDR, USERSPACE_MAX_VADDR in *; lia). rewrite Z.add_assoc.
    destruct (user_string s (vm_pml4 s) (a + i + 1) t); cbn [fmap option_fmap option_map]; [rewrite <- app_assoc|]; reflexivity. }
  rewrite L by (rewrite Z.add_0_r; exact Ha). rewrite Z.add_0_r. destruct (user_string _ _ _ _); reflexivity.
Qed.
End Reading.

Lemma copy_to_user_ok (s : vmm) (a : Z) (src : list Z) (held free : list Z) :
  let root := vm_pml4 s in let len := Z.of_nat (length src) in
  user_half_ok s root held free -> is_u64 a -> is_u64 len ->
  exists ok s', copy_to_user s a src = Ret (ok, s')
    /\ pt_inv s' root held free /\ vm_base s' = vm_base s /\ vm_pml4 s' = vm_pml4 s
    /\ (forall va, translate s' root va = translate s root va)
    /\ (ok = true <-> src = [] \/ (user_range a len
          /\ forall i, 0 <= i < len -> translate s root (a + i) <> None))
    /\ (ok = true -> forall i, 0 <= i < len ->
          user_byte s' root (a + i) = Some (u8 (nth (Z.to_nat i) src 0)))
    /\ only_range s s' root a (if userspace_range_is_valid a len then len else 0).
Proof.
  intros root len U Ha Hl. pose proof (uh_inv _ _ _ _ U) as I. unfold copy_to_user. fold len.
  destruct (Z.eqb_spec len 0) as [H0|H0].
  { exists true, s. split; [reflexivity|]. assert (src = []) by (destruct src; [reflexivity|cbn in len; lia]).
    split_and!; auto; [tauto|intros _ i Hi; lia|intros x _; reflexivity]. }
  assert (Hne : src <> []) by (intros ->; apply H0; reflexivity).
  pose proof (user_range_spec a len Ha Hl) as Hv.
  destruct (userspace_range_is_valid a len); cbn [negb].
  - pose proof (proj1 Hv eq_refl) as Hr. pose proof Hr as (R1 & R2 & R3).
    unfold USERSPACE_MIN_VADDR, USERSPACE_MAX_VADDR in R2, R3.
    destruct (write_user_loop_spec s root held free a src (Z.to_nat len) eq_refl (uh_root _ _ _ _ U))
      with (copied := 0) (s1 := s) as (ok & s' & E & [I' B' P' M' O'] & Hb & Hk); fold len;
      try lia; [eapply user_half_direct; eauto| | |apply user_write_refl, I|].
    + intros i j pa Hi Hj Ei Ej.
      assert (a + i = a + j); [|lia].
      eapply (uh_unaliased _ _ _ _ U); [| |exact Ei|exact Ej]; unfold user_range, USERSPACE_MIN_VADDR, USERSPACE_MAX_VADDR; lia.
    + intros va Hva. apply (uh_backed _ _ _ _ U). unfold user_range, USERSPACE_MIN_VADDR, USERSPACE_MAX_VADDR. lia.
    + unfold write_user_bytes. fold len in E, O', Hb, Hk |- *. exists ok, s'.
      split; [exact E|]. split_and!; auto. rewrite Hk. split; [auto|]. intros [?|[_ H]]; [congruence|exact H].
  - exists false, s. split; [reflexivity|]. split_and!; auto; try discriminate; [|intros x _; reflexivity].
    split; [discriminate|]. intros [?|[H _]]; [congruence|]. apply Hv in H. discriminate.
Qed.

(** ** Properties *)

(** C10. [copy_to_user] is safe and exact. It returns; it succeeds exactly when the
    destination is empty, or lies in the user half with every byte mapped; then
    the program reads the copied bytes there. Whatever happens, the page tables
    and all translations are unchanged, and the only memory that may change is
    the memory the destination addresses name, none at all when the range is
    refused. *)
Theorem copy_to_user_correct (s : vmm) (a : Z) (src : list Z) (held free : list Z) :
  let root := vm_pml4 s in let len := Z.of_nat (length src) in
  user_half_ok s root held free -> is_u64 a -> is_u64 len ->
  exists ok s', copy_to_user s a src = Ret (ok, s')
    /\ pt_inv s' root held free
    /\ (forall va, translate s' root va = translate s root va)
    /\ (ok = true <-> src = [] \/ (user_range a len
          /\ forall i, 0 <= i < len -> translate s root (a + i) <> None))
    /\ (ok = true -> forall i, 0 <= i < len ->
          user_byte s' root (a + i) = Some (u8 (nth (Z.to_nat i) src 0)))
    /\ only_range s s' root a (if userspace_range_is_valid a len then len else 0).
Proof.
  intros root len U Ha Hl. destruct (copy_to_user_ok s a src held free U Ha Hl) as (ok & s' & E & I & _ & _ & M & Hk & Hb & Ho).
  exists ok, s'. exact (conj E (conj I (conj M (conj Hk (conj Hb Ho))))).
Qed.

(** ** Witnesses *)

(** Maps a fresh frame at one user address of the space rooted at [pml4]. *)
Definition map_fresh (s : vmm) (pml4 : Z) : res (bool * vmm) :=
  let '(p, pm) := pmm_alloc_page (vm_pmm s) in
  vmm_map_page_in_space (set_vm_pmm s pm) pml4 0x400000 p 6.

(** In an empty space it makes a user half of one page. *)
Lemma map_fresh_half s pml4 p free s' :
  let root := pmm_phys_to_virt (vm_pmm s) pml4 in
  pt_inv s root [] (p :: free) -> pml4 <> 0 -> root <> 0 ->
  (forall va, lookup_in s root va = None) -> map_fresh s pml4 = Ret (true, s') ->
  (exists free', user_half_ok s' root [p] free')
  /\ forall va, 0x400000 <= va < 0x401000 -> translate s' root va = Some (p + va mod 4096).
Proof.
  intros root Hinv Hp4 Hnz Hempty E. unfold map_fresh in E.
  destruct (pt_inv_alloc _ _ _ _ Hinv) as (pm & Ea & I & Hm & Hb & _ & Hp). rewrite Ea in E.
  set (s1 := set_vm_pmm s pm) in *. pose proof (root_same s s1 pml4 Hb) as Er. fold root in Er.
  destruct (map_held_page s1 pml4 [p] free p 0x400000 6) as (ok & s2 & Es & L & M); rewrite ?Er; auto;
    [lia|left; reflexivity|unfold is_u64; lia|].
  rewrite Es in E. injection E as -> ->. cbv iota in M. rewrite Er in L, M.
  destruct L as [B [free' I'] _ _ O].
  assert (T : forall va, 0 <= va < 281474976710656 -> translate s' root va
    = if decide (va / 4096 = 1024) then Some (p + va mod 4096) else None).
  { intros va Hva. destruct (decide (va / 4096 = 1024)) as [Hq|Hq].
    - apply page_entry_translate with (flags := 6); [apply Hp|unfold is_u64; lia|reflexivity|].
      rewrite <- M. apply lookup_vpn. unfold vpn. rewrite Hq. reflexivity.
    - unfold translate. rewrite O by (exact Hva || exact Hq).
      change (vm_mem s1) with (pm_mem pm). change (vm_base s1) with (pm_hhdm_base pm).
      rewrite Hm, Hb, Hempty. reflexivity. }
  assert (Hu : forall va, user_range va 1 -> 0 <= va < 281474976710656)
    by (intros va (_ & H1 & H2); unfold USERSPACE_MIN_VADDR, USERSPACE_MAX_VADDR in *; lia).
  split; [exists free'; split; [exact I'|exact Hnz| |]|].
  - intros va Hva pa E. rewrite T in E by (apply Hu, Hva). destruct (decide _); [|discriminate].
    injection E as <-. exists p. split; [left; reflexivity|]. pose proof (Z.mod_pos_bound va 4096). lia.
  - intros va va' pa Hva Hva' E E'. rewrite T in E by (apply Hu, Hva). rewrite T in E' by (apply Hu, Hva').
    destruct (decide (va / 4096 = 1024)), (decide (va' / 4096 = 1024)); try discriminate.
    injection E as <-. injection E' as E'. zlia.
  - intros va Hva. rewrite T, decide_True by zlia. reflexivity.
Qed.

Lemma demo_empty va : lookup_in demo_vmm demo_root va = None.
Proof.
  unfold level_shifts. cbn [pt_lookup].
  change (vm_mem demo_vmm) with (mem_fill (pm_mem (snd (pmm_alloc_page demo_boot))) demo_root 0
    (Z.to_nat VMM_PAGE_SIZE)).
  pose proof (table_index_ok va 39) as Hi. unfold index_ok in Hi.
  rewrite load_fill_zero by (unfold VMM_PAGE_SIZE; lia). reflexivity.
Qed.

Lemma demo_fresh : exists s, map_fresh demo_vmm 135168 = Ret (true, s) /\ vm_pml4 s = demo_root.
Proof.
  assert (H : match map_fresh demo_vmm 135168 with Ret (b, s) => b && (vm_pml4 s =? demo_root) | _ => false end
              = true) by (vm_compute; reflexivity).
  destruct (map_fresh demo_vmm 135168) as [[[|] s]| |]; try discriminate.
  exists s. split; [reflexivity|]. apply Z.eqb_eq, H.
Qed.

Lemma demo_pages_cons : exists p free, rev demo_pages = p :: free.
Proof. vm_compute. eauto. Qed.

Lemma demo_user : exists s p free, vm_pml4 s = demo_root /\ user_half_ok s demo_root [p] free
  /\ forall va, 0x400000 <= va < 0x401000 -> translate s demo_root va = Some (p + va mod 4096).
Proof.
  destruct demo_fresh as (s & E & Hs). destruct demo_pages_cons as (p & free & Ep).
  pose proof demo_vmm_inv as I. rewrite Ep in I.
  destruct (map_fresh_half demo_vmm 135168 p free s I ltac:(discriminate) demo_root_nonzero demo_empty E)
    as [[free' U] T].
  exists s, p, free'. auto.
Qed.

Lemma copy_to_user_correct_witness :
  exists s s', copy_to_user s 0x400ff0 [7; 8; 9] = Ret (true, s')
    /\ user_byte s' demo_root 0x400ff1 = Some 8.
Proof.
  destruct demo_user as (s & p & free & Hs & U & T). rewrite <- Hs in U, T |- *.
  destruct (copy_to_user_correct s 0x400ff0 [7; 8; 9] [p] free U)
    as (ok & s' & E & _ & _ & K & B & _); [unfold is_u64; lia|unfold is_u64; cbn; lia|].
  assert (ok = true) as ->.
  { apply K. right. cbn [length]. split.
    - unfold user_range, USERSPACE_MIN_VADDR, USERSPACE_MAX_VADDR. lia.
    - intros i Hi. rewrite T by lia. discriminate. }
  exists s, s'. split; [exact E|]. apply (B eq_refl 1). cbn [length]. lia.
Defined.

(** ** A program that has a string in its memory *)

Lemma user_half_kept s s' root held free free' :
  pt_inv s' root held free' -> vm_base s' = vm_base s -> (forall va, translate s' root va = translate s root va) ->
  user_half_ok s root held free -> user_half_ok s' root held free'.
Proof.
  intros I B M [_ R K A]. split; [exact I | exact R | |].
  - intros va Hva pa Hpa. rewrite M in Hpa. exact (K va Hva pa Hpa).
  - intros va va' pa Hva Hva' E E'. rewrite M in E, E'. exact (A va va' pa Hva Hva' E E').
Qed.

(** A string with its terminator is read back. *)
Lemma user_string_at s root text : forall a n,
  USERSPACE_MIN_VADDR <= a -> a + Z.of_nat (length text) <= USERSPACE_MAX_VADDR -> (length text < n)%nat ->
  Forall (fun c => c <> 0) text ->
  (forall i, 0 <= i <= Z.of_nat (length text) -> user_byte s root (a + i) = Some (nth (Z.to_nat i) text 0)) ->
  user_string s root a n = Some text.
Proof.
  induction text as [|c text IH]; intros a n Hlo Hhi Hn Hz Hb; (destruct n as [|n]; [cbn in Hn; lia|]); cbn [user_string length] in *.
  - pose proof (Hb 0 ltac:(lia)) as E. rewrite Z.add_0_r in E.
    destruct (Z.leb_spec USERSPACE_MIN_VADDR a), (Z.leb_spec a USERSPACE_MAX_VADDR); try lia. cbn [andb]. rewrite E. reflexivity.
  - pose proof (Hb 0 ltac:(lia)) as E. rewrite Z.add_0_r in E. inversion Hz as [|? ? Hc Hz']; subst.
    destruct (Z.leb_spec USERSPACE_MIN_VADDR a), (Z.leb_spec a USERSPACE_MAX_VADDR); try lia. cbn [andb]. rewrite E.
    change (nth (Z.to_nat 0) (c :: text) 0) with c. cbn [mbind option_bind]. destruct (Z.eqb_spec c 0); [contradiction|].
    rewrite (IH (a + 1) n); [reflexivity | lia | lia | lia | exact Hz' |]. intros i Hi.
    pose proof (Hb (i + 1) ltac:(lia)) as Ei. replace (Z.to_nat (i + 1)) with (S (Z.to_nat i)) in Ei by lia.
    replace (a + 1 + i) with (a + (i + 1)) by lia. exact Ei.
Qed.

Lemma demo_user_string text :
  Forall (fun c => 0 < c < 256) text -> (length text < 4096)%nat ->
  exists s p free, vm_pml4 s = demo_root /\ user_half_ok s demo_root [p] free
  /\ (forall n, (length text < n)%nat -> user_string s demo_root 0x400000 n = Some text)
  /\ forall va, 0x400000 <= va < 0x401000 -> translate s demo_root va <> None.
Proof.
  intros Ht Hl. destruct demo_user as (s & p & free & Hs & U & T).
  destruct (copy_to_user_ok s 0x400000 (text ++ [0]) [p] free) as (ok & s' & _ & I & B & P & M & Hk & Hb & _);
    [rewrite Hs; exact U | unfold is_u64; lia | unfold is_u64; rewrite length_app; cbn; lia|].
  rewrite Hs in *. rewrite length_app in *. cbn [length] in *.
  assert (ok = true) as ->.
  { apply Hk. right. split; [unfold user_range, USERSPACE_MIN_VADDR, USERSPACE_MAX_VADDR; lia|].
    intros i Hi. rewrite T by lia. discriminate. }
  assert (R : forall n, (length text < n)%nat -> user_string s' demo_root 0x400000 n = Some text).
  { intros n Hn. apply user_string_at; try exact Hn; try (unfold USERSPACE_MIN_VADDR, USERSPACE_MAX_VADDR; lia).
    - apply (List.Forall_impl (P := fun c => 0 < c < 256)); [intros c Hc; lia | exact Ht].
    - intros i Hi. rewrite (Hb eq_refl i) by lia. f_equal. destruct (Z.eq_dec i (Z.of_nat (length text))) as [->|Hne].
      + rewrite Nat2Z.id, app_nth2, Nat.sub_diag, (nth_overflow text) by lia. reflexivity.
      + rewrite app_nth1 by lia. rewrite List.Forall_forall in Ht. specialize (Ht (nth (Z.to_nat i) text 0) ltac:(apply nth_In; lia)).
        unfold u8. apply Z.mod_small. lia. }
  exists s', p, free. split; [exact P|]. split; [exact (user_half_kept s s' _ _ _ _ I B M U)|].
  split; [exact R|]. intros va Hva. rewrite M, T by exact Hva. discriminate.
Qed.
