(* ===== verification/SyscallProofs.v ===== *)
(** * System calls: theorems

    What the dispatcher does to the caller's registers, how an exit resumes the
    parent, and a call that reads memory it should not. *)

From S2P Require Import Prelude Klog Pmm Vmm AddressSpace Pages Heap Fs Elf Keyboard Process.
From S2P Require Import ProcessProofs Scheduler SchedulerProofs Kernel Syscall UserMemProofs.

(** ** Frames *)

Section Frames.
Context {F : Type} `{FsOps F}.

(** A computation that returns through the frame it was given, unchanged. *)
Definition keeps_frame (frame : syscall_frame) (x : res (outcome * kernel F)) : Prop :=
  forall v f' k', x = Ret (Returns v f', k') -> f' = frame.

Lemma keeps_returns frame v k : keeps_frame frame (Ret (Returns v frame, k)).
Proof. intros v' f' k' [= _ <- _]. reflexivity. Qed.

Lemma keeps_transfers frame t k : keeps_frame frame (Ret (Transfers t, k)).
Proof. intros v f' k' [=]. Qed.

Lemma keeps_bind {A} frame (x : res A) f :
  (forall a, keeps_frame frame (f a)) -> keeps_frame frame (x ≫= f).
Proof. intros Hf v f' k' E. destruct x as [a| |]; try discriminate E. exact (Hf a v f' k' E). Qed.

Lemma keeps_path frame k a body :
  (forall path, keeps_frame frame (body path)) -> keeps_frame frame (with_user_path k frame a body).
Proof.
  intros Hb. apply keeps_bind. intros [path|]; [apply Hb|apply keeps_returns].
Qed.

Lemma keeps_copy_out frame k a bytes v : keeps_frame frame (copy_out k frame a bytes v).
Proof. apply keeps_bind. intros [ok s]. apply keeps_returns. Qed.

Lemma keeps_update frame k x : keeps_frame frame (fs_update k frame x).
Proof. apply keeps_bind. intros [r f]. apply keeps_returns. Qed.
End Frames.

Create HintDb frames.
#[export] Hint Resolve keeps_returns keeps_transfers keeps_copy_out keeps_update : frames.

(** Walks through a handler to the places where it returns. *)
Ltac frame_cases :=
  repeat (intros; auto with frames;
    first [ apply keeps_path | apply keeps_bind
          | match goal with
            | |- keeps_frame _ (let '(_, _) := ?x in _) => destruct x
            | |- keeps_frame _ (match ?x with _ => _ end) => destruct x
            end ]);
  auto with frames.

Section Calls.
Context {F : Type} `{FsOps F}.

Lemma app_run_keeps (k : kernel F) frame : keeps_frame frame (sys_app_run_path k frame).
Proof. unfold sys_app_run_path. frame_cases. Qed.

Lemma fs_list_keeps (k : kernel F) frame : keeps_frame frame (sys_fs_list k frame).
Proof. unfold sys_fs_list. frame_cases. Qed.

Lemma fs_read_keeps (k : kernel F) frame : keeps_frame frame (sys_fs_read k frame).
Proof. unfold sys_fs_read. frame_cases. Qed.

Lemma fs_write_keeps (k : kernel F) frame : keeps_frame frame (sys_fs_write k frame).
Proof. unfold sys_fs_write. frame_cases. Qed.

Lemma fs_chdir_keeps (k : kernel F) frame : keeps_frame frame (sys_fs_chdir k frame).
Proof. unfold sys_fs_chdir. frame_cases. Qed.

Lemma fs_getcwd_keeps (k : kernel F) frame : keeps_frame frame (sys_fs_getcwd k frame).
Proof. unfold sys_fs_getcwd. frame_cases. Qed.

Lemma sbrk_keeps (k : kernel F) frame : keeps_frame frame (sys_sbrk k frame).
Proof. unfold sys_sbrk. frame_cases. Qed.

Lemma read_char_keeps (k : kernel F) frame : keeps_frame frame (sys_read_char k frame).
Proof. unfold sys_read_char. frame_cases. Qed.

Lemma read_event_keeps (k : kernel F) frame : keeps_frame frame (sys_read_event k frame).
Proof. unfold sys_read_event. frame_cases. Qed.

Lemma heap_status_keeps (k : kernel F) frame : keeps_frame frame (sys_heap_status k frame).
Proof. unfold sys_heap_status. frame_cases. Qed.

Lemma status_keeps (k : kernel F) frame :
  keeps_frame frame (sys_memory_status k frame) /\ keeps_frame frame (sys_klog_status k frame)
  /\ keeps_frame frame (sys_klog_read k frame) /\ keeps_frame frame (sys_timer_status k frame).
Proof. split_and!; apply keeps_copy_out. Qed.
End Calls.

#[export] Hint Resolve app_run_keeps fs_list_keeps fs_read_keeps fs_write_keeps fs_chdir_keeps
  fs_getcwd_keeps sbrk_keeps read_char_keeps read_event_keeps heap_status_keeps : frames.

Lemma dispatch_keeps {F : Type} `{FsOps F} (k : kernel F) frame :
  sf_number frame <> 2 -> keeps_frame frame (syscall_dispatch k frame).
Proof.
  intros Hne. destruct (status_keeps k frame) as (S1 & S2 & S3 & S4). unfold syscall_dispatch.
  destruct (sf_number frame) as [|p|p]; auto with frames.
  do 6 (try destruct p as [p|p|]; auto with frames; try congruence;
        try (apply keeps_path; solve [auto with frames]);
        try (apply keeps_bind; intros []; solve [auto with frames])).
Qed.

(** A frame that differs from [f] in [rax] only. *)
Definition set_rax (f : interrupt_frame) (v : Z) : interrupt_frame :=
  mk_iframe (if_r15 f) (if_r14 f) (if_r13 f) (if_r12 f) (if_r11 f) (if_r10 f) (if_r9 f) (if_r8 f)
    (if_rbp f) (if_rdi f) (if_rsi f) (if_rdx f) (if_rcx f) (if_rbx f) v
    (if_vector f) (if_error_code f) (if_rip f) (if_cs f) (if_rflags f) (if_user_rsp f) (if_user_ss f).

(** The registers of the program that traps with [f]; [rax] is left out. *)
Definition caller_registers (f : interrupt_frame) : user_registers :=
  registers_from_syscall_frame (syscall_frame_of f).

(** ** Properties *)

(** C11. The system-call convention: every call but EXIT that comes back to its
    caller resumes it with all registers, the instruction and stack pointers and
    the flags as they were, except [rax], which holds the result. *)
Theorem syscall_preserves_registers {F : Type} `{FsOps F} (k k' : kernel F) (f f' : interrupt_frame) :
  if_vector f = 0x80 -> if_rax f <> 2 ->
  exception_dispatch k f = Ret (Resumes f', k') ->
  exists v, f' = set_rax f (u64 v).
Proof.
  intros Hv Hr E. unfold exception_dispatch in E. rewrite Hv in E. cbn [Z.eqb SYSCALL_VECTOR Pos.eqb] in E.
  destruct (syscall_dispatch k (syscall_frame_of f)) as [[[v s|t] k1]| |] eqn:D; try discriminate E.
  pose proof (dispatch_keeps k (syscall_frame_of f) Hr v s k1 D) as ->.
  cbn [mbind res_bind] in E. injection E as <- _. exists v. reflexivity.
Qed.

(** C12. EXIT resumes the parent. When a process that a parent waits for exits,
    its trap comes back, but into the parent: the frame holds the registers the
    parent had when it started the child, with the exit status in [rax], and
    the parent is the running process again in its own address space. *)
Theorem exit_resumes_parent {F : Type} `{FsOps F} (k : kernel F) (f : interrupt_frame) (c par : nat)
    (stack : list (nat * user_registers)) (regs : user_registers) :
  if_vector f = 0x80 -> if_rax f = 2 -> is_u64 (if_rdi f) -> r_rax regs = 0 ->
  sched_inv (k_user k) c (stack ++ [(par, regs)]) ->
  exists f' k', exception_dispatch k f = Ret (Resumes f', k')
    /\ caller_registers f' = regs /\ if_rax f' = if_rdi f
    /\ if_cs f' = if_cs f /\ if_user_ss f' = if_user_ss f
    /\ sched_inv (k_user k') par stack
    /\ pr_state (proc_at (k_user k') c) = PROCESS_EXITED.
Proof.
  intros Hv Hr Hst Hrax Hi. unfold exception_dispatch. rewrite Hv. cbn [Z.eqb SYSCALL_VECTOR Pos.eqb].
  unfold syscall_dispatch. change (sf_number (syscall_frame_of f)) with (if_rax f). rewrite Hr.
  unfold sys_exit. change (k_user (console_write_string k user_exit_text)) with (k_user k).
  destruct (exit_inv (k_user k) c stack par regs (s64 (sf_arg0 (syscall_frame_of f)))
    (syscall_frame_of f) Hi) as (u & -> & Hu & Hx & _).
  cbn [mbind res_bind]. eexists _, _. split; [reflexivity|]. split; [|split; [|auto]].
  - destruct regs. cbn in Hrax. subst. reflexivity.
  - cbn [interrupt_return if_rax]. change (sf_arg0 (syscall_frame_of f)) with (if_rdi f).
    clear -Hst. unfold s64, u64, is_u64 in *. case_goal; zlia.
Qed.

(** ** Witnesses *)

(** A file system that only remembers the bytes last written to it. *)
Definition no_status : user_fs_status := mk_fs_status 1 1 0 0 0 0 0 [].
Definition no_entry : user_fs_dirent := mk_dirent 0 0 0 [].

#[export] Instance sink_fs : FsOps (list Z) := {
  fs_get_status _ := no_status;
  fs_stat _ _ := Ret (USER_ERR_INVAL, no_entry);
  fs_list_dir _ _ _ := Ret (USER_ERR_INVAL, []);
  fs_read_file _ _ _ _ := Ret (USER_ERR_INVAL, []);
  fs_write_file _ _ bytes _ := Ret (Z.of_nat (length bytes), bytes);
  fs_create_file f _ := Ret (USER_ERR_INVAL, f);
  fs_mkdir f _ := Ret (USER_ERR_INVAL, f);
  fs_unlink f _ := Ret (USER_ERR_INVAL, f);
  fs_rmdir f _ := Ret (USER_ERR_INVAL, f);
  fs_truncate_file f _ _ := Ret (USER_ERR_INVAL, f)
}.

(** A kernel over the page tables [s] and the scheduler state [u0]. *)
Definition kernel_with {F : Type} (fs : F) (s : vmm) (c : sched) (ps : list process) : kernel F :=
  mk_kernel (mk_user_sys (mk_proc_sys (kheap_init s (fun _ => 0)) fs ps 1) c) klog_zero []
    (mk_keyboard 0 0 [] (mk_mods false false false false false)) 0 100 None true true true.

Definition demo_kernel : kernel (list Z) :=
  kernel_with [] demo_vmm scheduler_init (repeat empty_process 8).

Definition trap (rax rdi rsi rdx r10 : Z) : interrupt_frame :=
  mk_iframe 15 14 13 12 11 r10 9 8 7 rdi rsi rdx 3 2 rax 0x80 0 0x400100 0x23 0x202 0x7fff00 0x1b.

(** FS_GETCWD with a buffer that is too small returns an error. *)
Lemma syscall_preserves_registers_witness :
  exists f' k' v, exception_dispatch demo_kernel (trap 24 0x400000 1 0 0) = Ret (Resumes f', k')
    /\ f' = set_rax (trap 24 0x400000 1 0 0) v.
Proof.
  assert (E : exists f' k', exception_dispatch demo_kernel (trap 24 0x400000 1 0 0) = Ret (Resumes f', k')).
  { eexists _, _. cbn. reflexivity. }
  destruct E as (f' & k' & E).
  destruct (syscall_preserves_registers demo_kernel k' (trap 24 0x400000 1 0 0) f' eq_refl
              ltac:(discriminate) E) as [v Hv].
  exists f', k', (u64 v). split; [exact E|exact Hv].
Defined.

Definition demo_exit_kernel (u : user_sys unit) : kernel (list Z) :=
  mk_kernel (mk_user_sys (mk_proc_sys (sy_heap (u_sys u)) [] (sy_processes (u_sys u)) (sy_next_pid (u_sys u)))
               (u_sched u)) klog_zero []
    (mk_keyboard 0 0 [] (mk_mods false false false false false)) 0 100 None true true true.

Lemma demo_exit_inv u c stack : sched_inv u c stack -> sched_inv (k_user (demo_exit_kernel u)) c stack.
Proof.
  intros [[L1 L2 L3 L4 L5] I1 I2 I3 I4 I5 I6 I7].
  split; [split; auto| | | | | | |]; auto.
Qed.

(** A child that exits with status 42. *)
Lemma exit_resumes_parent_witness :
  exists (k : kernel (list Z)) f' k', exception_dispatch k (trap 2 42 0 0 0) = Ret (Resumes f', k')
    /\ caller_registers f' = registers_from_syscall_frame demo_frame /\ if_rax f' = 42.
Proof.
  destruct demo_running as (u & _ & Hi & Hf).
  destruct (spawn_inv u 0 [] 1 demo_program demo_frame Hi Hf demo_program_ready) as (t & u1 & E & Hi1).
  apply demo_exit_inv in Hi1.
  destruct (exit_resumes_parent (demo_exit_kernel u1) (trap 2 42 0 0 0) 1 0 []
    (registers_from_syscall_frame demo_frame) eq_refl eq_refl ltac:(unfold is_u64; cbn; lia) eq_refl Hi1)
    as (f' & k' & E2 & Er & Ex & _).
  exists (demo_exit_kernel u1), f', k'. auto.
Defined.

(** ** A call that reads kernel memory *)

(** The demonstration space with a user page that holds the path "/x" and a
    kernel page that holds a secret. *)
Definition secret_va : Z := 0xffff900000000000.

Definition secret_vmm : vmm :=
  match vmm_map_page demo_vmm 0x400000 0x50000 VMM_USER with
  | Ret (true, s) =>
      match vmm_map_page s secret_va 0x51000 VMM_WRITABLE with
      | Ret (true, s) =>
          set_vm_mem (set_vm_mem s (mem_write (vm_mem s) (vm_base s + 0x50000) [47; 120; 0]))
            (mem_write (mem_write (vm_mem s) (vm_base s + 0x50000) [47; 120; 0])
               (vm_base s + 0x51000) [83; 69; 67; 82; 69; 84])
      | _ => s
      end
  | _ => demo_vmm
  end.

Definition secret_kernel : kernel (list Z) :=
  kernel_with [] secret_vmm scheduler_init (repeat empty_process 8).

(** The same trap as a DEBUG_WRITE of the source. *)
Definition debug_write_of (f : interrupt_frame) : interrupt_frame :=
  mk_iframe (if_r15 f) (if_r14 f) (if_r13 f) (if_r12 f) (if_r11 f) (if_r10 f) (if_r9 f) (if_r8 f)
    (if_rbp f) (if_rsi f) (if_rdx f) (if_rdx f) (if_rcx f) (if_rbx f) 10
    (if_vector f) (if_error_code f) (if_rip f) (if_cs f) (if_rflags f) (if_user_rsp f) (if_user_ss f).

(** C16. FS_WRITE does not check its source. Take any source of at most 4096 bytes
    that is not in the user half but mapped, with the contents [secret]:
    DEBUG_WRITE refuses it and does nothing else, but FS_WRITE hands its bytes to
    the file system, to be written to the file the program names. *)
Theorem fs_write_discloses_kernel_memory {F : Type} `{FsOps F} (k : kernel F) (f : interrupt_frame) path secret :
  if_vector f = 0x80 -> if_rax f = 26 -> copy_and_resolve_user_path k (if_rdi f) = Ret (Some path) ->
  0 <= if_rsi f -> 0 < if_rdx f <= 4096 -> if_rsi f + if_rdx f <= 18446744073709551616 ->
  vm_pml4 (k_vmm k) <> 0 -> in_direct_map (k_vmm k) (vm_pml4 (k_vmm k)) (if_rsi f) (if_rdx f) ->
  ~ user_range (if_rsi f) (if_rdx f) ->
  user_bytes (k_vmm k) (vm_pml4 (k_vmm k)) (if_rsi f) (Z.to_nat (if_rdx f)) = Some secret ->
  exception_dispatch k (debug_write_of f) = Ret (Resumes (set_rax (debug_write_of f) (u64 SYSCALL_ERR_FAULT)), k)
  /\ exception_dispatch k f
     = (fs_write_file (k_fs k) path secret (if_r10 f) ≫= fun '(r, fs) => Ret (Resumes (set_rax f (u64 r)), with_kfs k fs)).
Proof.
  intros Hv Hn Ep Ha Hl Hend Hp4 Hd Hu Hs. unfold exception_dispatch. cbn [debug_write_of if_vector]. rewrite Hv.
  change (0x80 =? SYSCALL_VECTOR) with true. cbn iota. unfold syscall_dispatch.
  change (sf_number (syscall_frame_of f)) with (if_rax f). rewrite Hn.
  change (sf_number (syscall_frame_of (debug_write_of f))) with 10. split.
  - change (sf_arg0 (syscall_frame_of (debug_write_of f))) with (if_rsi f).
    change (sf_arg1 (syscall_frame_of (debug_write_of f))) with (if_rdx f). unfold write_user_string.
    destruct (Z.eqb_spec (if_rdx f) 0); [lia|].
    destruct (userspace_range_is_valid (if_rsi f) (if_rdx f)) eqn:Er; [|reflexivity].
    apply user_range_spec in Er; [contradiction | unfold is_u64; lia | unfold is_u64; lia].
  - unfold sys_fs_write, with_user_path. change (sf_arg0 (syscall_frame_of f)) with (if_rdi f). rewrite Ep. cbn [mbind res_bind].
    change (sf_arg1 (syscall_frame_of f)) with (if_rsi f). change (sf_arg2 (syscall_frame_of f)) with (if_rdx f).
    change (sf_arg3 (syscall_frame_of f)) with (if_r10 f). unfold USER_FS_READ_MAX. destruct (Z.ltb_spec 4096 (if_rdx f)); [lia|].
    unfold read_user_bytes. rewrite read_user_loop_spec by (assumption || lia). rewrite Z.add_0_r, Z.sub_0_r, Hs. cbn [mbind res_bind app].
    unfold fs_update. destruct (fs_write_file (k_fs k) path secret (if_r10 f)) as [[r fs]| |]; reflexivity.
Qed.

(** What a trap returns, and what it left in the file system. *)
Definition trap_result (f : interrupt_frame) : option (Z * list Z) :=
  match exception_dispatch secret_kernel f with
  | Ret (Resumes f', k') => Some (if_rax f', k_fs k')
  | _ => None
  end.

Lemma secret_mapped : in_direct_map secret_vmm (vm_pml4 secret_vmm) secret_va 6.
Proof.
  intros va pa Hva. assert (Cases : List.In va (map (fun i => secret_va + Z.of_nat i) (seq 0 6))).
  { apply in_map_iff. exists (Z.to_nat (va - secret_va)). rewrite in_seq. lia. }
  cbn [map seq] in Cases. repeat (destruct Cases as [<-|Cases]; [intros E; vm_compute in E; injection E as <-; vm_compute; split; congruence|]).
  destruct Cases.
Qed.

Lemma fs_write_discloses_kernel_memory_witness :
  trap_result (trap 26 0x400000 secret_va 6 0) = Some (6, [83; 69; 67; 82; 69; 84])
  /\ trap_result (trap 10 secret_va 6 6 0) = Some (u64 SYSCALL_ERR_FAULT, []).
Proof.
  destruct (fs_write_discloses_kernel_memory secret_kernel (trap 26 0x400000 secret_va 6 0) [47; 120] [83; 69; 67; 82; 69; 84] eq_refl eq_refl
    ltac:(vm_compute; reflexivity) ltac:(vm_compute; discriminate) ltac:(cbn; lia) ltac:(vm_compute; discriminate) ltac:(vm_compute; discriminate)
    secret_mapped ltac:(unfold user_range; vm_compute; intros (_ & _ & E); exact (E eq_refl)) ltac:(vm_compute; reflexivity)) as [E1 E2].
  unfold trap_result. split; [rewrite E2; reflexivity|].
  change (trap 10 secret_va 6 6 0) with (debug_write_of (trap 26 0x400000 secret_va 6 0)). rewrite E1. reflexivity.
Defined.
