(* ===== verification/SyscallTypes.v ===== *)
(** * What the kernel hands out is well typed

    abi.h promises that a system call returns a non-negative value or one of the
    stable error values, and the registers of programs are 64-bit words. Both
    follow from a typing of the kernel's own records that every interrupt keeps:
    the saved registers are words, the break of a process lies in its heap, the
    queued key events hold a byte and small modifiers. *)

From S2P Require Import Prelude Klog Pmm Vmm AddressSpace Pages Heap Fs Elf Keyboard Process.
From S2P Require Import ProcessProofs Scheduler Kernel Syscall UserMemProofs SyscallProofs Ext2Image Ext2 Ext2Ops.

(** ** Types *)

(** The policy of abi.h for results, which are signed 64-bit values. *)
Definition abi_result (v : Z) : Prop :=
  0 <= v < 9223372036854775808 \/ List.In v [USER_ERR_AGAIN; USER_ERR_FAULT; USER_ERR_INVAL; USER_ERR_NOSYS].

Definition words (l : list Z) : Prop := List.Forall is_u64 l.

Definition regs_typed (r : user_registers) : Prop :=
  words [r_rip r; r_rsp r; r_rflags r; r_rax r; r_rbx r; r_rcx r; r_rdx r; r_rsi r; r_rdi r; r_rbp r;
         r_r8 r; r_r9 r; r_r10 r; r_r11 r; r_r12 r; r_r13 r; r_r14 r; r_r15 r].

Definition sframe_typed (f : syscall_frame) : Prop :=
  words [sf_number f; sf_arg0 f; sf_arg1 f; sf_arg2 f; sf_arg3 f; sf_arg4 f; sf_arg5 f; sf_rbx f; sf_rcx f; sf_rbp f;
         sf_r11 f; sf_r12 f; sf_r13 f; sf_r14 f; sf_r15 f; sf_user_rip f; sf_user_rsp f; sf_rflags f].

Definition iframe_typed (f : interrupt_frame) : Prop :=
  words [if_r15 f; if_r14 f; if_r13 f; if_r12 f; if_r11 f; if_r10 f; if_r9 f; if_r8 f; if_rbp f; if_rdi f; if_rsi f;
         if_rdx f; if_rcx f; if_rbx f; if_rax f; if_vector f; if_error_code f; if_rip f; if_cs f; if_rflags f;
         if_user_rsp f; if_user_ss f].

Definition process_typed (p : process) : Prop :=
  regs_typed (t_regs (pr_main_thread p)) /\ 0 <= pr_heap_current p <= USERSPACE_HEAP_LIMIT
  /\ pr_heap_end p <= USERSPACE_HEAP_LIMIT.

Definition event_typed (e : keyboard_event) : Prop := is_byte (ev_ch e) /\ 0 <= ev_modifiers e < 16.

Definition users_typed {F} (u : user_sys F) : Prop :=
  List.Forall process_typed (sy_processes (u_sys u))
  /\ List.Forall (fun r => regs_typed (br_parent_regs r)) (sc_blocking_runs (u_sched u)).

Definition kernel_typed {F} (k : kernel F) : Prop :=
  users_typed (k_user k) /\ List.Forall event_typed (kb_buffer (k_keyboard k)).

(** ** Results of the file system *)

(** Whatever [x] returns has a result in the policy. *)
Definition gives {A} (x : res (Z * A)) : Prop := forall v a, x = Ret (v, a) -> abi_result v.

Class FsResults (F : Type) `{FsOps F} : Prop := {
  fs_list_result f path max : 0 <= max <= 4096 -> gives (fs_list_dir f path max);
  fs_read_result f path len off : 0 <= len <= 4096 -> gives (fs_read_file f path len off);
  fs_write_result f path bytes off : Z.of_nat (length bytes) <= 4096 -> gives (fs_write_file f path bytes off);
  fs_create_result f path : gives (fs_create_file f path);
  fs_mkdir_result f path : gives (fs_mkdir f path);
  fs_unlink_result f path : gives (fs_unlink f path);
  fs_rmdir_result f path : gives (fs_rmdir f path);
  fs_truncate_result f path size : gives (fs_truncate_file f path size)
}.

Lemma abi_error v : List.In v [USER_ERR_AGAIN; USER_ERR_FAULT; USER_ERR_INVAL; USER_ERR_NOSYS] -> abi_result v.
Proof. right. assumption. Qed.

Lemma abi_nonneg v : 0 <= v < 9223372036854775808 -> abi_result v.
Proof. left. assumption. Qed.

Ltac abi := first [apply abi_error; cbn [List.In]; tauto | apply abi_nonneg; lia].

Lemma gives_ret {A} v (a : A) : abi_result v -> gives (Ret (v, a)).
Proof. intros Hv v' a' [= <- _]. exact Hv. Qed.

Lemma gives_bind {A B} (x : res B) (f : B -> res (Z * A)) : (forall b, gives (f b)) -> gives (x ≫= f).
Proof. intros Hf v a E. destruct x as [b| |]; try discriminate E. exact (Hf b v a E). Qed.

(** Walks through a function to its returns. *)
Ltac gives_cases :=
  repeat (intros; cbv zeta;
    first [ apply gives_ret; abi | apply gives_bind
          | match goal with
            | |- gives (let '(_, _) := ?x in _) => destruct x
            | |- gives (match ?x with _ => _ end) => destruct x eqn:?
            | |- gives (Ret (if ?b then _ else _, _)) => destruct b eqn:?
            end ]).

Lemma finish_gives x : gives (finish x).
Proof. unfold finish. gives_cases. Qed.

Lemma list_block_gives fuel x m limit max : 0 <= max <= 4096 -> forall pos out, Z.of_nat (length out) <= max ->
  match list_block fuel x m limit pos max out with
  | Ret (inl (v, _)) => abi_result v
  | Ret (inr out') => Z.of_nat (length out') <= max
  | _ => True
  end.
Proof.
  intros Hmax. induction fuel as [|fuel IH]; intros pos out Ho; cbn [list_block]; destruct (pos + 8 <=? limit); try exact I; try exact Ho.
  cbv zeta. destruct (_ || _); [abi|]. destruct (_ && _); [|apply IH; exact Ho].
  destruct (Z.leb_spec max (Z.of_nat (length out))); [abi|]. destruct (list_entry x m pos) as [d| |]; cbn [mbind res_bind]; try exact I.
  apply IH. rewrite length_app. cbn. lia.
Qed.

Lemma list_dir_gives x path max : 0 <= max <= 4096 -> gives (ext2_list_dir x path max).
Proof.
  intros Hmax. unfold ext2_list_dir. apply gives_bind. intros [[dir n]|]; [|apply gives_ret; abi].
  destruct (negb _); [apply gives_ret; abi|]. destruct (_ <? _); [apply gives_ret; abi|]. cbv zeta.
  unfold mrange.
  match goal with |- context [mfor ?n 0 ?step ?body ?start] =>
    assert (L : forall t i s, Z.of_nat (length (snd s)) <= max ->
      match mfor t i step body s with Ret (Break (v, _)) => abi_result v | Ret (Cont (_, out)) => Z.of_nat (length out) <= max | _ => True end);
      [|specialize (L n 0 start); destruct (mfor n 0 step body start) as [[[block out]|[v out]]| |]; cbn [mbind res_bind snd length] in L |- *;
        [apply gives_ret; specialize (L ltac:(lia)); abi | apply gives_ret; exact (L ltac:(lia)) | intros ? ? [=] | intros ? ? [=]]]
  end.
  intros t. induction t as [|t IH]; intros i [block out] Ho; cbn [mfor]; [exact Ho|].
  destruct (read_inode_bytes x dir i _) as [[ok bytes]| |]; cbn [mbind res_bind]; try exact I.
  destruct (negb ok); cbn [mbind res_bind]; [abi|].
  match goal with |- context [list_block ?f ?x ?m ?l ?p ?mx ?o] => pose proof (list_block_gives f x m l mx Hmax p o Ho) as L;
    destruct (list_block f x m l p mx o) as [[[v es]|es]| |]; cbn [mbind res_bind] end; try exact I; [exact L | apply IH; exact L].
Qed.

#[export] Instance ext2_results : FsResults ext2.
Proof.
  split; cbn [fs_list_dir fs_read_file fs_write_file fs_create_file fs_mkdir fs_unlink fs_rmdir fs_truncate_file ext2_ops].
  - exact list_dir_gives.
  - unfold ext2_read_file. gives_cases; b2p; abi.
  - unfold ext2_write_file. gives_cases; b2p; abi.
  - unfold ext2_create_file. gives_cases; apply finish_gives.
  - unfold ext2_mkdir. gives_cases; apply finish_gives.
  - unfold ext2_unlink. gives_cases; apply finish_gives.
  - unfold ext2_rmdir. gives_cases; apply finish_gives.
  - unfold ext2_truncate_file. gives_cases; apply finish_gives.
Qed.

(** ** Updates of the kernel that keep the types *)

Lemma words_in l v : words l -> List.In v l -> is_u64 v.
Proof. intros Hl. rewrite (List.Forall_forall is_u64 l) in Hl. apply Hl. Qed.

(** Word by word. *)
Ltac each_word tac := repeat first [apply List.Forall_nil | apply List.Forall_cons; [solve [tac] |]].
Ltac small_word := unfold is_u64, USERSPACE_STACK_TOP; cbn; lia.
Ltac word_of H := apply (words_in _ _ H); cbn [List.In]; tauto.

Section Types.
Context {F : Type} `{FsOps F}.

Lemma process_at_typed (ps : list process) i : List.Forall process_typed ps -> process_typed (ps !!! i).
Proof.
  intros Hp. destruct (ps !! i) as [p|] eqn:E.
  - rewrite (list_lookup_total_correct _ _ _ E). rewrite List.Forall_forall in Hp. apply Hp.
    apply list_elem_of_In, (list_elem_of_lookup_2 _ i _ E).
  - rewrite list_lookup_total_alt, E. cbn. split; [|unfold USERSPACE_HEAP_LIMIT; cbn; lia].
    each_word small_word.
Qed.

Lemma insert_typed {A} (P : A -> Prop) (l : list A) i a : List.Forall P l -> P a -> List.Forall P (<[i := a]> l).
Proof. intros Hl Ha. apply Forall_insert; assumption. Qed.

Lemma put_process_typed (u : user_sys F) i p : users_typed u -> process_typed p -> users_typed (put_process u i p).
Proof. intros [Hp Hr] H1. split; [apply insert_typed; assumption | exact Hr]. Qed.

Lemma put_states_typed (u : user_sys F) i ps ts : users_typed u -> users_typed (put_states u i ps ts).
Proof. intros Hu. apply put_process_typed; [exact Hu|]. exact (process_at_typed _ i (proj1 Hu)). Qed.

Lemma regs_of_sframe f : sframe_typed f -> regs_typed (registers_from_syscall_frame f).
Proof.
  intros Hf. unfold regs_typed. cbn. each_word ltac:(first [small_word | word_of Hf]).
Qed.

Lemma sframe_of_regs f r : sframe_typed f -> regs_typed r -> sframe_typed (syscall_frame_from_registers f r).
Proof.
  intros Hf Hr. unfold sframe_typed. cbn. each_word ltac:(first [word_of Hr | word_of Hf]).
Qed.

Lemma sframe_of_iframe f : iframe_typed f -> sframe_typed (syscall_frame_of f).
Proof.
  intros Hf. unfold sframe_typed. cbn. each_word ltac:(word_of Hf).
Qed.

Lemma iframe_of_sframe f v s : iframe_typed f -> sframe_typed s -> iframe_typed (interrupt_return f v s).
Proof.
  intros Hf Hs. unfold iframe_typed. cbn. each_word ltac:(first [apply u64_range | word_of Hs | word_of Hf]).
Qed.

(** ** The scheduler *)

Lemma enter_current_typed (u : user_sys F) t u' :
  users_typed u -> scheduler_enter_current u = Ret (t, u') -> users_typed u'.
Proof.
  intros Hu. unfold scheduler_enter_current. destruct (sc_current _); [|intros [=]]. destruct (negb _); [intros [=]|].
  cbv zeta. intros [= _ <-]. exact (put_states_typed (with_sched u (count_launch (u_sched u))) _ _ _ Hu).
Qed.

Lemma run_blocking_typed (u : user_sys F) i frame t u' :
  users_typed u -> sframe_typed frame ->
  scheduler_run_process_blocking u (Some i) (Some frame) = Ret (t, u') -> users_typed u'.
Proof.
  intros Hu Hf. unfold scheduler_run_process_blocking. destruct (sc_current _) as [parent|]; [|intros [=]].
  destruct (_ || _); [intros [=]|]. cbv zeta. apply enter_current_typed.
  pose proof (put_states_typed u parent PROCESS_READY THREAD_BLOCKED Hu) as [Hp Hr]. split; [exact Hp|].
  cbn [with_sched u_sched set_current set_runs sc_blocking_runs]. apply insert_typed; [exact Hr | exact (regs_of_sframe _ Hf)].
Qed.

Lemma exit_process_typed (u : user_sys F) : users_typed u -> users_typed (exit_process u).
Proof. intros Hu. unfold exit_process. destruct (sc_current _); [apply put_states_typed|]; exact Hu. Qed.

Lemma exit_current_typed (u : user_sys F) status t u' :
  users_typed u -> scheduler_exit_current u status = Ret (t, u') -> users_typed u'.
Proof.
  intros Hu. unfold scheduler_exit_current. cbv zeta. destruct (negb _); [intros [=]|]. intros [= _ <-].
  exact (exit_process_typed u Hu).
Qed.

Lemma finish_exit_typed (u : user_sys F) status frame :
  users_typed u -> sframe_typed frame ->
  let '(_, u', f') := scheduler_finish_blocking_exit u status (Some frame) in
  users_typed u' /\ match f' with Some f' => sframe_typed f' | None => True end.
Proof.
  intros Hu Hf. unfold scheduler_finish_blocking_exit. destruct (_ =? 0); [auto|]. cbv zeta.
  set (depth := sc_blocking_run_depth (u_sched u) - 1). set (run := nth _ _ _).
  assert (Hrun : regs_typed (br_parent_regs run)).
  { unfold run. destruct (nth_in_or_default (Z.to_nat depth) (sc_blocking_runs (u_sched u)) empty_run) as [Hin| ->].
    - destruct Hu as [_ Hr]. rewrite List.Forall_forall in Hr. exact (Hr _ Hin).
    - each_word small_word. }
  match goal with |- context [with_sched u ?c] => set (u1 := with_sched u c) end.
  assert (Hu1 : users_typed u1).
  { destruct Hu as [Hp Hr]. split; [exact Hp|]. apply insert_typed; [exact Hr|]. each_word small_word. }
  destruct (br_parent run) as [parent|]; [|auto]. split; [|exact (sframe_of_regs _ _ Hf Hrun)].
  pose proof (exit_process_typed u1 Hu1) as Hu2.
  exact (put_states_typed (with_sched (exit_process u1) (set_current (count_exit (u_sched (exit_process u1)) status) (Some parent)))
    parent PROCESS_RUNNING THREAD_RUNNING Hu2).
Qed.

Lemma tick_typed (u : user_sys F) f : users_typed u -> iframe_typed f -> users_typed (scheduler_tick u (Some f)).
Proof.
  intros Hu Hf. unfold scheduler_tick. cbv zeta. destruct (sc_current _) as [i|]; [|exact Hu]. destruct (_ || _); [exact Hu|].
  destruct Hu as [Hp Hr]. split; [|exact Hr]. apply insert_typed; [exact Hp|].
  destruct (process_at_typed (sy_processes (u_sys u)) i Hp) as (_ & H1 & H2). split; [|split; [exact H1 | exact H2]].
  unfold regs_typed. cbn. each_word ltac:(word_of Hf).
Qed.

(** ** Processes *)

Lemma range_valid_word v size : userspace_range_is_valid v size = true -> is_u64 v.
Proof.
  unfold userspace_range_is_valid, USERSPACE_MIN_VADDR, USERSPACE_MAX_VADDR.
  destruct (_ || _) eqn:E; [discriminate|]. cbv zeta. destruct (_ <? v) eqn:E2; [discriminate|]. intros E3. b2p.
  unfold is_u64. lia.
Qed.

Lemma set_cwd_typed p path : process_typed p -> process_typed (snd (process_set_cwd p path)).
Proof.
  intros Hp. unfold process_set_cwd.
  repeat match goal with |- context [match ?x with _ => _ end] => destruct x end; exact Hp.
Qed.

Lemma prepare_typed pid name pml4 image p : process_prepare_user_image pid name pml4 image = Some p -> process_typed p.
Proof.
  unfold process_prepare_user_image. destruct (pml4 =? 0); [discriminate|].
  destruct (userspace_range_is_valid (ei_entry image) 1) eqn:He; [|discriminate]. destruct (_ || _); [discriminate|].
  intros E. injection E as <-. split; [|unfold USERSPACE_HEAP_BASE, USERSPACE_HEAP_LIMIT; cbn; lia].
  each_word ltac:(first [exact (range_valid_word _ _ He) | small_word]).
Qed.

Lemma load_process_typed s pid name img size cwd :
  match process_load_user_image_bytes s pid name img size cwd with Ret (Some p, _) => process_typed p | _ => True end.
Proof.
  unfold process_load_user_image_bytes.
  destruct (vmm_create_address_space s) as [[pml4 s1]| |]; cbn [mbind res_bind]; try exact I.
  destruct (pmm_alloc_page _) as [stack pm]. cbv zeta. destruct (_ || _); [exact I|].
  destruct (elf64_validate_user_image _ _) as [image|]; [|exact I].
  destruct (load_user_image_segments _ _ _ _) as [[ok s2]| |]; cbn [mbind res_bind]; try exact I.
  destruct (negb ok); [exact I|].
  destruct (vmm_map_page_in_space _ _ _ _ _) as [[ok2 s3]| |]; cbn [mbind res_bind]; try exact I.
  destruct (negb ok2); [exact I|]. destruct (process_prepare_user_image pid name pml4 image) as [p|] eqn:E; [|exact I].
  exact (set_cwd_typed p _ (prepare_typed _ _ _ _ _ E)).
Qed.

Lemma sbrk_typed s p increment r p' s' :
  process_typed p -> process_sbrk s p increment = Ret (r, p', s') ->
  process_typed p' /\ match r with Some b => b = pr_heap_current p | None => True end.
Proof.
  intros Hp. unfold process_sbrk. destruct (_ =? 0); [intros [= <- <- _]; auto|]. destruct (_ <? 0); [intros [= <- <- _]; auto|].
  cbv zeta. destruct (_ || _) eqn:E; [intros [= <- <- _]; auto|].
  destruct (mrange _ _ _ _ _) as [[s1|s1]| |]; cbn [mbind res_bind]; intros [= <- <- _]; [|auto].
  destruct Hp as (Hr & H1 & H2). split; [|reflexivity]. split; [exact Hr|]. split; [|exact H2].
  b2p. cbn [set_heap_current pr_heap_current]. lia.
Qed.

Definition procs_typed (y : proc_sys F) : Prop := List.Forall process_typed (sy_processes y).

Lemma read_program_procs (y : proc_sys F) path r y' : read_program y path = Ret (r, y') -> sy_processes y' = sy_processes y.
Proof.
  unfold read_program. destruct (fs_stat _ _) as [[st file]| |]; cbn [mbind res_bind]; [|intros [=]|intros [=]].
  destruct (_ || _); [intros [= _ <-]; reflexivity|].
  destruct (kmalloc _ _) as [[image h]| |]; cbn [mbind res_bind]; [|intros [=]|intros [=]].
  destruct (image =? 0); [intros [= _ <-]; reflexivity|].
  destruct (fs_read_file _ _ _ _) as [[n bytes]| |]; cbn [mbind res_bind]; [|intros [=]|intros [=]]. cbv zeta.
  destruct (_ || _); [|intros [= _ <-]; reflexivity].
  destruct (kfree _ _) as [h2| |]; cbn [mbind res_bind]; [intros [= _ <-]; reflexivity | intros [=] | intros [=]].
Qed.

Lemma load_into_slot_typed (y : proc_sys F) i name image size cwd ok y' :
  procs_typed y -> load_into_slot y i name image size cwd = Ret (ok, y') -> procs_typed y'.
Proof.
  intros Hy. unfold load_into_slot. cbv zeta.
  match goal with |- context [process_load_user_image_bytes ?s ?pid ?n ?img ?size ?cwd] =>
    pose proof (load_process_typed s pid n img size cwd) as L;
    destruct (process_load_user_image_bytes s pid n img size cwd) as [[[p|] s1]| |] end;
    cbn [mbind res_bind]; [| |intros [=]|intros [=]]; intros [= _ <-]; (apply insert_typed; [exact Hy|]).
  - exact L.
  - exact (process_at_typed _ i Hy).
Qed.

Lemma create_process_typed (y : proc_sys F) path cwd r y' :
  procs_typed y -> process_create_filesystem_process y path cwd = Ret (r, y') -> procs_typed y'.
Proof.
  intros Hy. unfold process_create_filesystem_process. destruct path as [path|]; [|intros [= _ <-]; exact Hy].
  destruct (read_program y path) as [[o y1]| |] eqn:E1; cbn [mbind res_bind]; [|intros [=]|intros [=]].
  assert (Hy1 : procs_typed y1) by (unfold procs_typed; rewrite (read_program_procs _ _ _ _ E1); exact Hy).
  destruct o as [[image size]|]; [|intros [= _ <-]; exact Hy1]. destruct (find_slot _) as [i|].
  - destruct (load_into_slot _ _ _ _ _ _) as [[ok y2]| |] eqn:E2; cbn [mbind res_bind]; [|intros [=]|intros [=]].
    destruct (kfree _ _) as [h| |]; cbn [mbind res_bind]; [|intros [=]|intros [=]]. intros [= _ <-].
    exact (load_into_slot_typed _ _ _ _ _ _ _ _ Hy1 E2).
  - destruct (kfree _ _) as [h| |]; cbn [mbind res_bind]; [|intros [=]|intros [=]]. intros [= _ <-]. exact Hy1.
Qed.
End Types.

(** ** The keyboard *)

Lemma table_byte t i : forallb (fun e => (0 <=? snd e) && (snd e <? 128)) t = true -> 0 <= table_lookup t i < 128.
Proof.
  intros Ht. unfold table_lookup. destruct (List.find _ t) as [e|] eqn:E; [|lia].
  apply List.find_some in E as [Hin _]. rewrite forallb_forall in Ht. specialize (Ht e Hin). b2p. lia.
Qed.

Lemma modifiers_small k : 0 <= current_modifiers k < 16.
Proof. unfold current_modifiers. destruct (shift_down k), (ctrl_down k), (alt_down k), (caps_lock k); vm_compute; (split; [discriminate | reflexivity]). Qed.

Lemma push_event_typed s key ch :
  List.Forall event_typed (kb_buffer s) -> is_byte ch -> List.Forall event_typed (kb_buffer (push_event s key ch)).
Proof.
  intros Hs Hc. unfold push_event. cbv zeta. destruct (_ =? _); [exact Hs|]. apply insert_typed; [exact Hs|].
  split; [exact Hc | apply modifiers_small].
Qed.

Lemma keyboard_irq_typed s scancode :
  List.Forall event_typed (kb_buffer s) -> List.Forall event_typed (kb_buffer (keyboard_irq s scancode)).
Proof.
  intros Hs. unfold keyboard_irq. cbv zeta.
  assert (Hb : forall i, 0 <= base_map i < 128) by (intros i; apply table_byte; reflexivity).
  assert (Hh : forall i, 0 <= shifted_map i < 128) by (intros i; apply table_byte; reflexivity).
  repeat match goal with
  | |- List.Forall _ (kb_buffer (if ?b then _ else _)) => destruct b
  | |- List.Forall _ (kb_buffer (push_event _ _ _)) => apply push_event_typed
  end; try exact Hs; try (unfold is_byte; lia).
  specialize (Hb (Z.land scancode 127)). specialize (Hh (Z.land scancode 127)).
  destruct (ctrl_down _ && is_letter _) eqn:E.
  - unfold is_letter in E. b2p. unfold is_byte. lia.
  - unfold is_byte. repeat match goal with |- context [if ?b then _ else _] => destruct b end; lia.
Qed.

Lemma read_event_typed s :
  List.Forall event_typed (kb_buffer s) ->
  let '(r, s') := keyboard_read_event s in
  kb_buffer s' = kb_buffer s /\ match r with Some e => event_typed e | None => True end.
Proof.
  intros Hs. unfold keyboard_read_event. destruct (_ =? _); [auto|]. split; [reflexivity|].
  set (i := Z.to_nat (kb_read_index s)). destruct (kb_buffer s !! i) as [e|] eqn:E.
  - rewrite (list_lookup_total_correct _ _ _ E). rewrite List.Forall_forall in Hs. apply Hs.
    apply list_elem_of_In, (list_elem_of_lookup_2 _ i _ E).
  - rewrite list_lookup_total_alt, E. cbn. unfold event_typed, is_byte. cbn. lia.
Qed.

Lemma read_char_typed fuel : forall s r s',
  read_char_loop fuel s = Some (r, s') -> kb_buffer s' = kb_buffer s.
Proof.
  induction fuel as [|fuel IH]; intros s r s'; cbn [read_char_loop]; [intros [=]|].
  destruct (keyboard_read_event s) as [[e|] s1] eqn:E.
  - assert (Hb : kb_buffer s1 = kb_buffer s).
    { unfold keyboard_read_event in E. destruct (_ =? _); [discriminate E|]. injection E as _ <-. reflexivity. }
    destruct (negb _); [intros [= _ <-]; exact Hb|]. intros E2. rewrite (IH _ _ _ E2). exact Hb.
  - unfold keyboard_read_event in E. destruct (_ =? _); [|discriminate E]. injection E as <-. intros [= _ <-]. reflexivity.
Qed.

(** ** System calls *)

Lemma read_user_length fuel s a len : forall copied out bytes,
  read_user_loop fuel s a len copied out = Ret (Some bytes) -> copied <= len ->
  Z.of_nat (length bytes) = Z.of_nat (length out) + (len - copied).
Proof.
  induction fuel as [|fuel IH]; intros copied out bytes; cbn [read_user_loop]; destruct (Z.ltb_spec copied len) as [Hlt|];
    [intros [=] | intros [= <-] Hc; lia | | intros [= <-] Hc; lia].
  destruct (vmm_virt_to_phys s _) as [[pa|]| |]; cbn [mbind res_bind]; [|intros [=]|intros [=]|intros [=]]. cbv zeta.
  intros E Hc0. destruct (user_chunk_spec pa len copied Hlt) as [Hc _]. clear Hc0.
  apply IH in E; [|lia]. rewrite E, length_app, mem_read_length. lia.
Qed.

Section Calls.
Context {F : Type} `{FsResults F}.

(** A handler that ends in a typed kernel, with a result in the policy. *)
Definition safe (x : res (outcome * kernel F)) : Prop :=
  forall o k', x = Ret (o, k') -> kernel_typed k' /\ match o with Returns v _ => abi_result v | Transfers _ => True end.

Lemma safe_returns v frame k : kernel_typed k -> abi_result v -> safe (Ret (Returns v frame, k)).
Proof. intros Hk Hv o k' [= <- <-]. auto. Qed.

Lemma safe_bind {A} (x : res A) f : (forall a, x = Ret a -> safe (f a)) -> safe (x ≫= f).
Proof. intros Hf o k' E. destruct x as [a| |]; try discriminate E. exact (Hf a eq_refl o k' E). Qed.

Lemma safe_copy_out k frame a bytes v : kernel_typed k -> abi_result v -> safe (copy_out k frame a bytes v).
Proof.
  intros Hk Hv. apply safe_bind. intros [ok s] _. apply safe_returns; [exact Hk|]. destruct ok; [exact Hv | abi].
Qed.

Lemma safe_path k frame a body :
  kernel_typed k -> (forall path, safe (body path)) -> safe (with_user_path k frame a body).
Proof. intros Hk Hb. apply safe_bind. intros [path|] _; [apply Hb | apply safe_returns; [exact Hk | abi]]. Qed.

Lemma safe_update k frame x : kernel_typed k -> gives x -> safe (fs_update k frame x).
Proof. intros Hk Hx. apply safe_bind. intros [v f] E. apply safe_returns; [exact Hk | exact (Hx v f E)]. Qed.

Variable k : kernel F.
Variable frame : syscall_frame.
Hypothesis Hk : kernel_typed k.
Hypothesis Hf : sframe_typed frame.

Lemma path_op_safe op : (forall f path, gives (op f path)) ->
  safe (with_user_path k frame (sf_arg0 frame) (fun path => fs_update k frame (op (k_fs k) path))).
Proof. intros Hop. apply safe_path; [exact Hk|]. intros path. apply safe_update; [exact Hk | apply Hop]. Qed.

Lemma read_char_safe : safe (sys_read_char k frame).
Proof.
  apply safe_bind. intros [r kb] E. unfold keyboard_read_char, of_fuel in E.
  destruct (read_char_loop _ _) as [[r1 kb1]|] eqn:E1; [|discriminate E]. injection E as <- <-. apply safe_returns.
  - destruct Hk as [Hu Hb]. split; [exact Hu|]. cbn [with_keyboard k_keyboard]. rewrite (read_char_typed _ _ _ _ E1). exact Hb.
  - destruct r1 as [ch|]; [apply abi_nonneg; pose proof (u8_range ch) as R; unfold is_byte in R; lia | abi].
Qed.

Lemma read_event_safe : safe (sys_read_event k frame).
Proof.
  unfold sys_read_event. pose proof (read_event_typed (k_keyboard k) (proj2 Hk)) as L.
  destruct (keyboard_read_event (k_keyboard k)) as [r kb]. destruct L as [Eb He]. apply safe_returns.
  - destruct Hk as [Hu Hb]. split; [exact Hu|]. cbn [with_keyboard k_keyboard]. rewrite Eb. exact Hb.
  - destruct r as [e|]; [|abi]. apply abi_nonneg. destruct He as [_ Hm]. pose proof (u8_range (ev_ch e)) as R. unfold is_byte in R.
    change 9223372036854775808 with (2 ^ 63). rewrite !Z.shiftl_mul_pow2 by lia.
    assert (Hkey : 0 <= key_code (ev_key e) < 16) by (destruct (ev_key e); cbn [key_code]; lia).
    repeat apply lor_lt_pow2; lia.
Qed.

Lemma sbrk_safe : safe (sys_sbrk k frame).
Proof.
  unfold sys_sbrk. destruct (scheduler_current_process (k_user k)) as [i|]; [|apply safe_returns; [exact Hk | abi]].
  apply safe_bind. intros [[r p] s] E.
  pose proof (process_at_typed (sy_processes (u_sys (k_user k))) i (proj1 (proj1 Hk))) as Hp.
  destruct (sbrk_typed _ _ _ _ _ _ Hp E) as [Hp' Hr]. cbv zeta. apply safe_returns.
  - split; [|exact (proj2 Hk)]. exact (put_process_typed _ i p (proj1 Hk) Hp').
  - destruct r as [b|]; [|abi]. subst b. apply abi_nonneg. destruct Hp as (_ & Hc & _). unfold USERSPACE_HEAP_LIMIT in Hc.
    unfold proc_at. unfold s64. rewrite u64_id by (unfold is_u64; lia).
    destruct (Z.ltb_spec (pr_heap_current (sy_processes (u_sys (k_user k)) !!! i)) 9223372036854775808); lia.
Qed.

Lemma write_string_loop_safe fuel : forall (k1 : kernel F) a len written v (k' : kernel F),
  kernel_typed k1 -> 0 <= s64 len < 9223372036854775808 -> write_string_loop fuel k1 a len written = Ret (v, k') ->
  kernel_typed k' /\ abi_result v.
Proof.
  induction fuel as [|fuel IH]; intros k1 a len written v k' H1 Hl; cbn [write_string_loop]; destruct (written <? len).
  - intros [=].
  - intros [= <- <-]. split; [exact H1 | abi].
  - cbv zeta. destruct (read_user_bytes _ _ _) as [[bytes|]| |]; cbn [mbind res_bind]; [|intros [= <- <-]; split; [exact H1 | abi]|intros [=]|intros [=]].
    apply IH; [exact H1 | exact Hl].
  - intros [= <- <-]. split; [exact H1 | abi].
Qed.

Lemma write_user_string_safe a len : is_u64 a -> is_u64 len ->
  safe (write_user_string k a len ≫= fun '(r, k) => Ret (Returns r frame, k)).
Proof.
  intros Ha Hl. apply safe_bind. intros [v k'] E. unfold write_user_string in E.
  destruct (len =? 0); [injection E as <- <-; apply safe_returns; [exact Hk | abi]|].
  destruct (userspace_range_is_valid a len) eqn:Er; cbn [negb] in E; [|injection E as <- <-; apply safe_returns; [exact Hk | abi]].
  apply user_range_spec in Er; [|exact Ha|exact Hl]. unfold user_range, USERSPACE_MIN_VADDR, USERSPACE_MAX_VADDR in Er.
  assert (Hs : 0 <= s64 len < 9223372036854775808).
  { unfold s64. rewrite u64_id by exact Hl. unfold is_u64 in *. destruct (Z.ltb_spec len 9223372036854775808); lia. }
  destruct (write_string_loop_safe _ k a len 0 v k' Hk Hs E) as [H1 H2]. apply safe_returns; assumption.
Qed.

Lemma heap_status_safe : safe (sys_heap_status k frame).
Proof. apply safe_bind. intros st _. apply safe_bind. intros v _. apply safe_copy_out; [exact Hk | abi]. Qed.

Lemma fs_list_safe : safe (sys_fs_list k frame).
Proof.
  apply safe_path; [exact Hk|]. intros path. cbv zeta. apply safe_bind. intros [n es] E.
  assert (Hn : abi_result n).
  { refine (fs_list_result _ _ _ _ n es E). assert (H2 : is_u64 (sf_arg2 frame)) by (word_of Hf).
    unfold is_u64, USER_FS_LIST_MAX in *. destruct (Z.ltb_spec 32 (sf_arg2 frame)); lia. } destruct (n <? 0); [apply safe_returns | apply safe_copy_out]; assumption.
Qed.

Lemma requested_range v : is_u64 v -> 0 <= (if USER_FS_READ_MAX <? v then USER_FS_READ_MAX else v) <= 4096.
Proof. intros Hv. unfold is_u64, USER_FS_READ_MAX in *. destruct (Z.ltb_spec 4096 v); lia. Qed.

Lemma fs_read_safe : safe (sys_fs_read k frame).
Proof.
  apply safe_path; [exact Hk|]. intros path. cbv zeta. apply safe_bind. intros [n bytes] E.
  assert (Hn : abi_result n) by (refine (fs_read_result _ _ _ _ (requested_range _ _) n bytes E); word_of Hf).
  destruct (n <? 0); [apply safe_returns | apply safe_copy_out]; assumption.
Qed.

Lemma fs_getcwd_safe : safe (sys_fs_getcwd k frame).
Proof. unfold sys_fs_getcwd. cbv zeta. destruct (_ <? _); [apply safe_returns | apply safe_copy_out]; first [exact Hk | abi]. Qed.

Lemma fs_chdir_safe : safe (sys_fs_chdir k frame).
Proof.
  apply safe_path; [exact Hk|]. intros path. apply safe_bind. intros [st entry] _.
  destruct (_ || _); [apply safe_returns; [exact Hk | abi]|].
  destruct (scheduler_current_process (k_user k)) as [i|]; [|apply safe_returns; [exact Hk | abi]].
  pose proof (set_cwd_typed _ (Some path) (process_at_typed (sy_processes (u_sys (k_user k))) i (proj1 (proj1 Hk)))) as Hp.
  unfold proc_at. destruct (process_set_cwd _ (Some path)) as [ok p]. destruct ok; [|apply safe_returns; [exact Hk | abi]].
  apply safe_returns; [|abi]. split; [exact (put_process_typed _ i p (proj1 Hk) Hp) | exact (proj2 Hk)].
Qed.

Lemma fs_write_safe : safe (sys_fs_write k frame).
Proof.
  apply safe_path; [exact Hk|]. intros path. cbv zeta. apply safe_bind. intros [bytes|] E.
  - apply safe_update; [exact Hk | apply fs_write_result].
    assert (H2 : is_u64 (sf_arg2 frame)) by (word_of Hf). pose proof (requested_range _ H2) as Hr.
    unfold read_user_bytes in E. apply read_user_length in E; [cbn [length] in E; lia | lia].
  - apply safe_returns; [exact Hk | abi].
Qed.

Lemma app_run_safe : safe (sys_app_run_path k frame).
Proof.
  apply safe_path; [exact Hk|]. intros path. cbv zeta. apply safe_bind. intros [r y] E.
  pose proof (create_process_typed _ _ _ _ _ (proj1 (proj1 Hk)) E) as Hy.
  assert (Hk1 : kernel_typed (with_sys k y)) by (split; [split; [exact Hy | exact (proj2 (proj1 Hk))] | exact (proj2 Hk)]).
  destruct r as [i|]; [|apply safe_returns; [exact Hk1 | abi]]. apply safe_bind. intros [t u] E2.
  intros o k' [= <- <-]. split; [|exact I]. split; [|exact (proj2 Hk)].
  exact (run_blocking_typed _ _ _ _ _ (proj1 Hk1) Hf E2).
Qed.

Lemma klog_read_length n : is_u64 n -> Z.of_nat (length (klog_copy_tail (k_klog k) (if USER_KLOG_READ_MAX <? n then USER_KLOG_READ_MAX else n))) <= 4096.
Proof.
  intros Hn. unfold klog_copy_tail, is_u64, USER_KLOG_READ_MAX in *. destruct (_ || _); [cbn; lia|]. cbv zeta.
  rewrite length_map, length_seq. destruct (Z.ltb_spec 4096 n);
    match goal with |- context [?a <? ?b] => destruct (Z.ltb_spec a b) end; lia.
Qed.

Lemma status_safe :
  safe (sys_memory_status k frame) /\ safe (sys_klog_status k frame) /\ safe (sys_klog_read k frame)
  /\ safe (sys_timer_status k frame).
Proof.
  split_and!; (apply safe_copy_out; [exact Hk | try abi]).
  pose proof (klog_read_length (sf_arg1 frame) ltac:(word_of Hf)) as Hl. abi.
Qed.

(** EXIT, whose result is what the program says. *)
Lemma exit_typed o k' : sys_exit k frame = Ret (o, k') ->
  kernel_typed k' /\ match o with Returns _ f' => sframe_typed f' | Transfers _ => True end.
Proof.
  unfold sys_exit. cbv zeta. change (k_user (console_write_string k user_exit_text)) with (k_user k).
  pose proof (finish_exit_typed (k_user k) (s64 (sf_arg0 frame)) frame (proj1 Hk) Hf) as L.
  destruct (scheduler_finish_blocking_exit _ _ _) as [[ok u] r]. destruct L as [Hu Hr].
  destruct ok; [destruct r as [f'|]|].
  1: intros [= <- <-]; (split; [split; [exact Hu | exact (proj2 Hk)] | exact Hr]).
  all: destruct (scheduler_exit_current u _) as [[t u']| |] eqn:E; cbn [mbind res_bind]; [|intros [=]|intros [=]];
    intros [= <- <-]; (split; [split; [exact (exit_current_typed _ _ _ _ Hu E) | exact (proj2 Hk)] | exact I]).
Qed.

Lemma done_safe k1 : kernel_typed k1 -> safe (Ret (Returns 0 frame, k1)).
Proof. intros H1. apply safe_returns; [exact H1 | abi]. Qed.

Lemma dispatch_safe : sf_number frame <> 2 -> safe (syscall_dispatch k frame).
Proof.
  intros Hne. destruct status_safe as (S1 & S2 & S3 & S4).
  pose proof (write_user_string_safe (sf_arg0 frame) (sf_arg1 frame) ltac:(word_of Hf) ltac:(word_of Hf)) as Hw.
  unfold syscall_dispatch. cbv zeta.
  destruct (sf_number frame) as [|p|p]; [apply safe_returns; [exact Hk | abi] | | apply safe_returns; [exact Hk | abi]].
  do 6 (try destruct p as [p|p|]); try (apply safe_returns; [exact Hk | abi]); try contradiction;
  first [ exact S1 | exact S2 | exact S3 | exact S4 | exact Hw | exact read_char_safe | exact read_event_safe
        | exact sbrk_safe | exact heap_status_safe | exact fs_list_safe | exact fs_read_safe | exact fs_getcwd_safe
        | exact fs_chdir_safe | exact fs_write_safe | exact app_run_safe
        | apply (path_op_safe fs_create_file), fs_create_result | apply (path_op_safe fs_mkdir), fs_mkdir_result
        | apply (path_op_safe fs_unlink), fs_unlink_result | apply (path_op_safe fs_rmdir), fs_rmdir_result
        | apply (path_op_safe (fun f path => fs_truncate_file f path (sf_arg1 frame))); intros; apply fs_truncate_result
        | apply done_safe; exact Hk | apply safe_copy_out; [exact Hk | abi] ].
Qed.
End Calls.

Lemma abi_signed v : abi_result v -> s64 (u64 v) = v.
Proof.
  intros Hv. unfold s64. assert (E : u64 (u64 v) = u64 v) by (apply u64_id, u64_range). rewrite E.
  assert (R : - 4 <= v < 9223372036854775808).
  { destruct Hv as [Hv | Hv]; [lia|]. cbn [List.In] in Hv.
    unfold USER_ERR_AGAIN, USER_ERR_FAULT, USER_ERR_INVAL, USER_ERR_NOSYS in Hv. lia. }
  destruct (Z.ltb_spec (u64 v) 9223372036854775808) as [Hl|Hl]; unfold u64 in *; zlia.
Qed.

(** ** Property *)

(** C15. The kernel stays well typed, and keeps the policy of abi.h. In a kernel
    whose records are well typed, a trap of a program with 64-bit registers leads
    to a well typed kernel and, if it comes back, to 64-bit registers; the result
    of every system call but EXIT, the signed value of [rax], is not negative or
    one of the four error values of abi.h. The timer and the keyboard keep the types
    too. *)
Theorem interrupts_keep_types {F : Type} `{FsResults F} (k : kernel F) (f : interrupt_frame) :
  kernel_typed k -> iframe_typed f ->
  (forall e k', exception_dispatch k f = Ret (e, k') ->
     kernel_typed k'
     /\ match e with
        | Resumes f' => iframe_typed f' /\ (if_rax f <> 2 -> abi_result (s64 (if_rax f')))
        | _ => True
        end)
  /\ (forall handlers, kernel_typed (irq_dispatch handlers k f)).
Proof.
  intros Hk Hf. pose proof (sframe_of_iframe f Hf) as Hs. split.
  - intros e k'. unfold exception_dispatch. destruct (_ =? _); [|intros [= <- <-]; auto].
    destruct (syscall_dispatch k (syscall_frame_of f)) as [[o k1]| |] eqn:D; cbn [mbind res_bind]; [|intros [=]|intros [=]].
    intros E. destruct (Z.eq_dec (if_rax f) 2) as [E2|Hne].
    + assert (Dx : sys_exit k (syscall_frame_of f) = Ret (o, k1)).
      { rewrite <- D. unfold syscall_dispatch. change (sf_number (syscall_frame_of f)) with (if_rax f). rewrite E2. reflexivity. }
      destruct (exit_typed k _ Hk Hs o k1 Dx) as [Hk1 Ho]. destruct o as [v s|t]; injection E as <- <-; [|auto].
      split; [exact Hk1|]. split; [exact (iframe_of_sframe _ _ _ Hf Ho) | contradiction].
    + destruct (dispatch_safe k _ Hk Hs Hne o k1 D) as [Hk1 Ho].
      destruct o as [v s|t]; injection E as <- <-; [|auto]. split; [exact Hk1|].
      pose proof (dispatch_keeps k (syscall_frame_of f) Hne v s k1 D) as ->.
      split; [exact (iframe_of_sframe _ _ _ Hf Hs)|]. intros _. change (if_rax _) with (u64 v). rewrite abi_signed; exact Ho.
  - intros handlers. unfold irq_dispatch. cbv zeta. destruct (_ || _); [exact Hk|].
    destruct (nth _ handlers None) as [[|scancode]|]; [| |exact Hk].
    + split; [|exact (proj2 Hk)]. exact (tick_typed _ f (proj1 Hk) Hf).
    + split; [exact (proj1 Hk)|]. exact (keyboard_irq_typed _ scancode (proj2 Hk)).
Qed.

Lemma demo_kernel_typed : kernel_typed demo_kernel.
Proof.
  split; [split|constructor].
  - cbn. repeat (constructor; [split; [each_word small_word | cbn; unfold USERSPACE_HEAP_LIMIT; lia]|]). constructor.
  - cbn. repeat (constructor; [each_word small_word|]). constructor.
Qed.

Lemma trap_typed rax rdi rsi rdx r10 : words [rax; rdi; rsi; rdx; r10] -> iframe_typed (trap rax rdi rsi rdx r10).
Proof. intros Hw. unfold iframe_typed. cbn. each_word ltac:(first [small_word | word_of Hw]). Qed.

#[export] Instance sink_results : FsResults (list Z).
Proof.
  split; cbn [fs_list_dir fs_read_file fs_write_file fs_create_file fs_mkdir fs_unlink fs_rmdir fs_truncate_file sink_fs];
    intros; apply gives_ret; abi.
Qed.

(** A path that cannot be read, and the result of it. *)
Lemma interrupts_keep_types_witness :
  exists f' k', exception_dispatch demo_kernel (trap 28 0 0 0 0) = Ret (Resumes f', k')
    /\ kernel_typed k' /\ iframe_typed f' /\ abi_result (s64 (if_rax f')).
Proof.
  assert (E : exists f' k', exception_dispatch demo_kernel (trap 28 0 0 0 0) = Ret (Resumes f', k'))
    by (eexists _, _; cbn; reflexivity).
  destruct E as (f' & k' & E). exists f', k'.
  destruct (interrupts_keep_types demo_kernel (trap 28 0 0 0 0) demo_kernel_typed
    (trap_typed 28 0 0 0 0 ltac:(each_word small_word))) as [L _].
  destruct (L _ _ E) as (Hk & Hf & Hv). split; [exact E|]. split; [exact Hk|]. split; [exact Hf | exact (Hv ltac:(cbn; discriminate))].
Defined.
