(* ===== verification/Ext2Dir.v ===== *)
(** * Directories and paths of the ext2 file system

    A directory is specified as the list of its entries, parsed block by block
    from its contents, and a path as the walk along its names from the root. The
    scanning loops of ext2.c compute exactly that on directories that parse. *)

From S2P Require Import Prelude Klog Pmm Vmm Pages Heap Fs Elf Keyboard Process Scheduler Kernel Syscall PathProofs.
From S2P Require Import Ext2Image Ext2Codec Ext2Layout Ext2Alloc Ext2 Ext2Ops Ext2Sample Ext2Proofs.

(** ** The entries of a directory *)

Record dir_entry : Type := mk_entry { en_inode : Z; en_type : Z; en_name : list Z }.

Definition entry_at (m : mem) (p : Z) : dir_entry :=
  mk_entry (de_inode m p) (de_file_type m p) (de_name m p (de_name_len m p)).

(** The entries of a block up to [limit]; [None] when a record is shorter than
    its header and name or leaves the block. *)
Fixpoint parse_block (fuel : nat) (m : mem) (limit pos : Z) : option (list dir_entry) :=
  if pos + 8 <=? limit then
    match fuel with
    | O => None
    | S fuel =>
        let len := de_rec_len m pos in
        if (len <? 8 + de_name_len m pos) || (limit <? pos + len) then None
        else es ← parse_block fuel m limit (pos + len); Some (entry_at m pos :: es)
    end
  else Some [].

(** Block [k] of a directory as memory of its own. *)
Definition dir_block_mem (x : ext2) (dir : ext2_inode) (k : Z) : mem :=
  mem_write (fun _ => 0) 0 (file_bytes x dir (k * x_block_size x)
    (Z.min (x_block_size x) (i_size dir - k * x_block_size x))).

Definition block_entries (x : ext2) (dir : ext2_inode) (k : Z) : option (list dir_entry) :=
  parse_block (scan_fuel x) (dir_block_mem x dir k) (Z.min (x_block_size x) (i_size dir - k * x_block_size x)) 0.

Definition dir_blocks (x : ext2) (dir : ext2_inode) : Z := (i_size dir + x_block_size x - 1) / x_block_size x.

(** All entries, the unused ones included; [None] for a damaged directory. *)
Definition dir_entries (x : ext2) (dir : ext2_inode) : option (list dir_entry) :=
  option_map (@concat dir_entry) (mapM (block_entries x dir) (seqZ 0 (dir_blocks x dir))).

(** The entry of a name: the first one in use. *)
Definition lookup_name (es : list dir_entry) (name : list Z) : option dir_entry :=
  List.find (fun e => negb (en_inode e =? 0) && bool_decide (en_name e = name)) es.

Definition is_dot_name (name : list Z) : bool := bool_decide (name = [46]) || bool_decide (name = [46; 46]).

(** ** Reading entries *)

(** An entry is read from the bytes of its record only. *)
Lemma entry_at_ext m m' p len :
  8 + de_name_len m p <= len -> (forall a, p <= a < p + len -> u8 (m' a) = u8 (m a)) ->
  entry_at m' p = entry_at m p /\ de_rec_len m' p = de_rec_len m p /\ de_name_len m' p = de_name_len m p.
Proof.
  intros Hl Hm. pose proof (load_range 1 m (p + 6)) as Hn. fold (de_name_len m p) in Hn.
  assert (Hld : forall w a, p <= a -> a + Z.of_nat w <= p + len -> load w m' a = load w m a).
  { intros w a Ha Hw. unfold load. f_equal. apply mem_read_ext. intros k Hk. apply Hm. lia. }
  change (0 <= de_name_len m p < 256) in Hn.
  assert (En : de_name_len m' p = de_name_len m p) by (apply (Hld 1%nat); lia).
  split; [|split; [apply (Hld 2%nat); lia | exact En]].
  unfold entry_at. rewrite En. f_equal; [apply (Hld 4%nat); lia | apply (Hld 1%nat); lia |].
  apply mem_read_ext. intros k Hk. apply Hm. lia.
Qed.

Lemma names_equal_entry m p name : names_equal m p name = bool_decide (en_name (entry_at m p) = name).
Proof.
  unfold names_equal, entry_at. cbn [en_name]. pose proof (load_range 1 m (p + 6)) as Hn.
  change (0 <= de_name_len m p < 256) in Hn.
  destruct (Z.eqb_spec (de_name_len m p) (Z.of_nat (length name))) as [E|E]; cbn [andb].
  - rewrite E. reflexivity.
  - symmetry. apply bool_decide_eq_false_2. intros Hc. apply E. rewrite <- Hc. unfold de_name.
    rewrite mem_read_length. lia.
Qed.

(** ** Scanning a block *)

(** A loop over a list of entries that may stop early. *)
Fixpoint scan_list {S R : Type} (g : dir_entry -> S -> ctl S R) (es : list dir_entry) (s : S) : ctl S R :=
  match es with
  | [] => Cont s
  | e :: es => match g e s with Cont s => scan_list g es s | Break r => Break r end
  end.

Lemma scan_list_app {S R : Type} (g : dir_entry -> S -> ctl S R) a b s :
  scan_list g (a ++ b) s = match scan_list g a s with Cont s => scan_list g b s | Break r => Break r end.
Proof. revert s. induction a as [|e a IH]; intros s; cbn; [reflexivity|]. destruct (g e s); auto. Qed.

Definition stop {S R : Type} (c : ctl S R) : ctl S (option R) :=
  match c with Cont s => Cont s | Break r => Break (Some r) end.

(** On a block that parses, the loop is the loop over its entries. *)
Lemma scan_entries_parse {S R : Type} (g : dir_entry -> S -> ctl S R) body m m0 limit :
  (forall p s, body p s = g (entry_at m p) s) ->
  (forall a, 0 <= a < limit -> u8 (m a) = u8 (m0 a)) ->
  forall fuel pos es s, 0 <= pos -> parse_block fuel m0 limit pos = Some es ->
  scan_entries fuel m 0 limit pos body s = Some (stop (scan_list g es s)).
Proof.
  intros Hb Hm. induction fuel as [|fuel IH]; intros pos es s Hp; cbn [parse_block scan_entries];
    destruct (Z.leb_spec (pos + 8) limit); try discriminate; try (intros [= <-]; reflexivity).
  rewrite !Z.add_0_l. pose proof (load_range 1 m0 (pos + 6)) as Hn. change (0 <= de_name_len m0 pos < 256) in Hn.
  destruct (Z.ltb_spec (de_rec_len m0 pos) (8 + de_name_len m0 pos)) as [|Hlen]; cbn [orb]; [discriminate|].
  destruct (Z.ltb_spec limit (pos + de_rec_len m0 pos)) as [|Hlim]; [discriminate|].
  destruct (entry_at_ext m0 m pos (de_rec_len m0 pos) Hlen) as (Ee & El & _).
  { intros a Ha. apply Hm. lia. }
  rewrite El. destruct (Z.ltb_spec (de_rec_len m0 pos) 8); [lia|]. destruct (Z.ltb_spec limit (pos + de_rec_len m0 pos)); [lia|].
  cbn [orb]. destruct (parse_block fuel m0 limit (pos + de_rec_len m0 pos)) as [es'|] eqn:E; cbn [mbind option_bind]; [|discriminate].
  intros [= <-]. rewrite Hb, Ee. cbn [scan_list]. destruct (g (entry_at m0 pos) s) as [s'|r]; [|reflexivity].
  apply IH; [lia | exact E].
Qed.

(** ** Scanning a directory *)

Section Scan.
Context (x : ext2) (L : layout x) (dir : ext2_inode) (R : readable x dir) (Hsize : 0 <= i_size dir < 4294967296).

Lemma scan_blocks {S T : Type} (g : dir_entry -> S -> ctl S T) body (fail_read fail_entry : S -> T) :
  (forall m p s, body m p s = g (entry_at m p) s) ->
  forall n k block s ess, 0 <= k -> (k + Z.of_nat n - 1) * x_block_size x < i_size dir ->
  mapM (block_entries x dir) (seqZ k (Z.of_nat n)) = Some ess ->
  exists block',
    mfor n (k * x_block_size x) (x_block_size x) (fun offset '(block, s) =>
      let chunk := if i_size dir - offset <? x_block_size x then i_size dir - offset else x_block_size x in
      read_inode_bytes x dir offset chunk ≫= fun '(ok, bytes) =>
      let block := mem_write block 0 bytes in
      if negb ok then Ret (Break (fail_read s))
      else
        of_fuel (scan_entries (scan_fuel x) block 0 chunk 0 (fun p s =>
                   match body block p s with Cont s => Cont s | Break r => Break r end) s) ≫= fun c =>
        Ret match c with
            | Cont s => Cont (block, s)
            | Break (Some r) => Break r
            | Break None => Break (fail_entry s)
            end) (block, s)
    = Ret (match scan_list g (concat ess) s with Cont s => Cont (block', s) | Break r => Break r end).
Proof.
  intros Hb. pose proof (bs_range x L) as Hbs.
  induction n as [|n IH]; intros k block s ess Hk Hn Hm.
  - cbn in Hm. injection Hm as <-. exists block. reflexivity.
  - rewrite seqZ_cons in Hm by lia. cbn [mapM] in Hm. replace (Z.pred (Z.of_nat (Datatypes.S n))) with (Z.of_nat n) in Hm by lia.
    destruct (block_entries x dir k) as [es|] eqn:Ek; [|discriminate].
    destruct (mapM (block_entries x dir) (seqZ (Z.succ k) (Z.of_nat n))) as [ess'|] eqn:Em; [|discriminate].
    cbn in Hm. injection Hm as <-. cbn [mfor concat].
    assert (Hoff : k * x_block_size x < i_size dir) by nia.
    set (chunk := if i_size dir - k * x_block_size x <? x_block_size x then i_size dir - k * x_block_size x else x_block_size x).
    assert (Hc : chunk = Z.min (x_block_size x) (i_size dir - k * x_block_size x))
      by (unfold chunk; destruct (Z.ltb_spec (i_size dir - k * x_block_size x) (x_block_size x)); lia).
    rewrite (read_inode_bytes_ok x dir (k * x_block_size x) chunk) by (auto; nia). cbn [mbind res_bind negb].
    rewrite Hc. set (bytes := file_bytes x dir _ _).
    assert (Hlen : length bytes = Z.to_nat chunk) by (unfold bytes, file_bytes; rewrite length_map, length_seqZ, Hc; reflexivity).
    unfold block_entries, dir_block_mem in Ek. fold bytes in Ek.
    assert (Hbody : forall m p s0, match body m p s0 with Cont s => Cont s | Break r => Break r end = g (entry_at m p) s0)
      by (intros; rewrite Hb; destruct (g _ _); reflexivity).
    assert (Hmem : forall a, 0 <= a < Z.min (x_block_size x) (i_size dir - k * x_block_size x) ->
              u8 (mem_write block 0 bytes a) = u8 (mem_write (fun _ => 0) 0 bytes a)).
    { intros a Ha. unfold mem_write. rewrite Hlen, Hc.
      destruct (Z.leb_spec 0 a), (Z.ltb_spec a (0 + Z.of_nat (Z.to_nat (Z.min (x_block_size x) (i_size dir - k * x_block_size x)))));
        lia || reflexivity. }
    rewrite (scan_entries_parse g _ _ _ _ (fun p s0 => Hbody _ p s0) Hmem _ _ es s (Z.le_refl 0) Ek).
    cbn [of_fuel mbind res_bind]. rewrite scan_list_app.
    destruct (scan_list g es s) as [s'|r]; cbn [stop]; [|exists block; reflexivity].
    replace (k * x_block_size x + x_block_size x) with (Z.succ k * x_block_size x) by lia. apply IH; auto; lia.
Qed.

(** A directory function's loop is the loop over the entries. *)
Lemma scan_dir_entries {S T : Type} (g : dir_entry -> S -> ctl S T) body (fail_read fail_entry : S -> T) s es :
  (forall m p s, body m p s = g (entry_at m p) s) -> dir_entries x dir = Some es ->
  scan_dir x dir fail_read fail_entry body s = Ret (scan_list g es s).
Proof.
  intros Hb He. unfold dir_entries in He. pose proof (bs_range x L) as Hbs.
  destruct (mapM (block_entries x dir) (seqZ 0 (dir_blocks x dir))) as [ess|] eqn:Em; [|discriminate].
  cbn in He. injection He as <-.
  assert (Hblocks : 0 <= dir_blocks x dir) by (apply Z.div_pos; lia).
  assert (Hn : (dir_blocks x dir - 1) * x_block_size x < i_size dir).
  { unfold dir_blocks in *. pose proof (Z.mul_div_le (i_size dir + x_block_size x - 1) (x_block_size x) ltac:(lia)). nia. }
  destruct (scan_blocks g body fail_read fail_entry Hb (Z.to_nat (dir_blocks x dir)) 0 (fun _ => 0) s ess) as (block' & E).
  - lia.
  - rewrite Z2Nat.id by lia. exact Hn.
  - rewrite Z2Nat.id by lia. exact Em.
  - rewrite Z.mul_0_l in E. unfold scan_dir, mrange, trips. rewrite Z.sub_0_r.
    refine (eq_trans (f_equal (fun r => r ≫= fun c => Ret match c with Cont (_, s) => Cont s | Break r => Break r end) E) _).
    cbn [mbind res_bind]. destruct (scan_list g (concat ess) s); reflexivity.
Qed.
End Scan.

(** ** The directory functions *)

(** The directories that the theorems are about: blocks in the file system, and
    records that fit them. *)
Record dir_ok (x : ext2) (dir : ext2_inode) (es : list dir_entry) : Prop := {
  do_is_dir : inode_is_dir dir = true;
  do_readable : readable x dir;
  do_size : 0 <= i_size dir < 4294967296;
  do_entries : dir_entries x dir = Some es
}.

(** [find_in_dir] finds the first entry in use that has the name. *)
Lemma find_in_dir_correct x dir es name :
  layout x -> dir_ok x dir es -> name <> [] -> Z.of_nat (length name) <= EXT2_NAME_LEN ->
  find_in_dir x dir name = Ret (option_map en_inode (lookup_name es name)).
Proof.
  intros L D Hne Hlen. unfold find_in_dir. rewrite (do_is_dir _ _ _ D). cbn [negb orb].
  destruct (Z.eqb_spec (Z.of_nat (length name)) 0); [destruct name; cbn in *; [congruence | lia]|].
  destruct (Z.ltb_spec EXT2_NAME_LEN (Z.of_nat (length name))); [lia|]. cbn [orb].
  pose proof (bs_range x L). destruct (Z.ltb_spec 4096 (x_block_size x)); [lia|].
  rewrite (scan_dir_entries x L dir (do_readable _ _ _ D) (do_size _ _ _ D)
    (fun e _ => if negb (en_inode e =? 0) && bool_decide (en_name e = name) then Break (Some (en_inode e)) else Cont tt)
    _ _ _ tt es); [|intros m p s; rewrite names_equal_entry; reflexivity | exact (do_entries _ _ _ D)].
  cbn [mbind res_bind]. f_equal. unfold lookup_name. induction es as [|e es IH] in |- *; cbn [scan_list List.find]; [reflexivity|].
  destruct (_ && _); [reflexivity | exact IH].
Qed.

Lemma one_byte m p : [u8 (m (p + 8))] = de_name m p 1.
Proof.
  unfold de_name, mem_read. change (Z.to_nat 1) with 1%nat. cbn [map seq]. change (Z.of_nat 0) with 0.
  rewrite Z.add_0_r. reflexivity.
Qed.

Lemma two_bytes m p : [u8 (m (p + 8)); u8 (m (p + 9))] = de_name m p 2.
Proof.
  unfold de_name, mem_read. change (Z.to_nat 2) with 2%nat. cbn [map seq]. change (Z.of_nat 0) with 0.
  change (Z.of_nat 1) with 1. rewrite Z.add_0_r. replace (p + 8 + 1) with (p + 9) by lia. reflexivity.
Qed.

Lemma entry_is_dot_name m p : entry_is_dot m p = is_dot_name (en_name (entry_at m p)).
Proof.
  unfold entry_is_dot, is_dot_name, entry_at. cbn [en_name]. pose proof (load_range 1 m (p + 6)) as Hn.
  change (0 <= de_name_len m p < 256) in Hn.
  assert (Hl : length (de_name m p (de_name_len m p)) = Z.to_nat (de_name_len m p)) by apply mem_read_length.
  rewrite !load8_byte.
  destruct (Z.eqb_spec (de_name_len m p) 1) as [E1|E1]; [|destruct (Z.eqb_spec (de_name_len m p) 2) as [E2|E2]].
  - rewrite E1. cbn [andb orb Z.eqb Pos.eqb].
    replace (de_name m p 1) with [u8 (m (p + 8))] by (apply one_byte).
    rewrite (bool_decide_eq_false_2 ([_] = [46; 46])) by discriminate.
    rewrite !orb_false_r. destruct (Z.eqb_spec (u8 (m (p + 8))) 46) as [->|Hd]; [reflexivity|].
    symmetry. apply bool_decide_eq_false_2. congruence.
  - rewrite E2. cbn [andb orb Z.eqb Pos.eqb].
    replace (de_name m p 2) with [u8 (m (p + 8)); u8 (m (p + 9))]
      by (apply two_bytes).
    rewrite (bool_decide_eq_false_2 ([_; _] = [46])) by discriminate. cbn [orb].
    destruct (Z.eqb_spec (u8 (m (p + 8))) 46) as [->|Hd], (Z.eqb_spec (u8 (m (p + 9))) 46) as [->|Hd']; try reflexivity;
      symmetry; apply bool_decide_eq_false_2; congruence.
  - cbn [andb orb]. symmetry. apply orb_false_iff.
    split; apply bool_decide_eq_false_2; intros Hc; rewrite Hc in Hl; cbn [length] in Hl; lia.
Qed.

(** A directory counts as empty when its entries in use are "." and "..". *)
Lemma dir_is_empty_correct x dir es :
  layout x -> dir_ok x dir es ->
  dir_is_empty x dir = Ret (forallb (fun e => (en_inode e =? 0) || is_dot_name (en_name e)) es).
Proof.
  intros L D. unfold dir_is_empty. rewrite (do_is_dir _ _ _ D). cbn [negb].
  pose proof (bs_range x L). destruct (Z.ltb_spec 4096 (x_block_size x)); [lia|].
  rewrite (scan_dir_entries x L dir (do_readable _ _ _ D) (do_size _ _ _ D)
    (fun e _ => if negb (en_inode e =? 0) && negb (is_dot_name (en_name e)) then Break false else Cont tt)
    _ _ _ tt es); [|intros m p s; rewrite entry_is_dot_name; reflexivity | exact (do_entries _ _ _ D)].
  cbn [mbind res_bind]. f_equal. induction es as [|e es IH] in |- *; cbn [scan_list forallb]; [reflexivity|].
  destruct (en_inode e =? 0); cbn [negb andb orb]; [exact IH|]. destruct (is_dot_name (en_name e)); [exact IH | reflexivity].
Qed.

(** ** Paths *)

(** The inode of a number. *)
Definition inode_numbered (x : ext2) (n : Z) : option ext2_inode :=
  if (1 <=? n) && (n <=? sb_inodes_count (x_image x)) then Some (inode_at (x_image x) (inode_pos x n)) else None.

Lemma read_inode_numbered x n : layout x -> 0 <= n -> read_inode x n = Ret (inode_numbered x n).
Proof.
  intros L Hn. unfold read_inode, inode_numbered.
  destruct (Z.leb_spec 1 n); [destruct (Z.leb_spec n (sb_inodes_count (x_image x)))|]; cbn [andb].
  - rewrite (inode_offset_ok x L n) by (split; assumption). reflexivity.
  - unfold inode_offset. destruct (Z.ltb_spec (sb_inodes_count (x_image x)) n); [|lia]. rewrite orb_true_r. reflexivity.
  - unfold inode_offset. destruct (Z.eqb_spec n 0); [reflexivity | lia].
Qed.

(** The walk along names from the inode [cur] of number [n]. *)
Fixpoint walk (x : ext2) (path : list (list Z)) (cur : ext2_inode) (n : Z) : option (ext2_inode * Z) :=
  match path with
  | [] => Some (cur, n)
  | name :: path =>
      if negb (inode_is_dir cur) then None
      else
        es ← dir_entries x cur;
        e ← lookup_name es name;
        next ← inode_numbered x (en_inode e);
        walk x path next (en_inode e)
  end.

(** What a path names: the inode and its number. *)
Definition named (x : ext2) (path : list Z) : option (ext2_inode * Z) :=
  match path with
  | 47 :: _ => root ← inode_numbered x EXT2_ROOT_INODE; walk x (names path) root EXT2_ROOT_INODE
  | _ => None
  end.

(** A mounted image in which every file has its blocks in the file system and
    every directory parses. *)
Record fs_sound (x : ext2) : Prop := {
  fs_layout : layout x;
  fs_mounted : ext2_mounted x = true;
  fs_readable n i : inode_numbered x n = Some i -> readable x i;
  fs_dirs n i : inode_numbered x n = Some i -> inode_is_dir i = true -> exists es, dir_entries x i = Some es
}.

Lemma numbered_size x n i : inode_numbered x n = Some i -> 0 <= i_size i < 4294967296.
Proof. unfold inode_numbered. destruct (_ && _); [|discriminate]. intros [= <-]. apply inode_at_size. Qed.

Lemma sound_dir x n dir :
  fs_sound x -> inode_numbered x n = Some dir -> inode_is_dir dir = true -> exists es, dir_ok x dir es.
Proof.
  intros F Hn Hd. destruct (fs_dirs x F n dir Hn Hd) as (es & He). exists es.
  split; [exact Hd | exact (fs_readable x F n dir Hn) | exact (numbered_size x n dir Hn) | exact He].
Qed.

Lemma parse_block_entries fuel : forall m limit pos es e,
  parse_block fuel m limit pos = Some es -> In e es -> exists p, e = entry_at m p.
Proof.
  induction fuel as [|fuel IH]; intros m limit pos es e; cbn [parse_block]; destruct (_ <=? _); try discriminate;
    try (intros [= <-] []).
  destruct (_ || _); [discriminate|]. destruct (parse_block fuel m limit _) as [es'|] eqn:E; [|discriminate].
  cbn. intros [= <-] [<-|Hi]; [eauto | exact (IH _ _ _ _ _ E Hi)].
Qed.

(** Every entry comes from memory, so its name has at most 255 characters and
    its inode number is not negative. *)
Lemma dir_entry_range x dir es e :
  dir_entries x dir = Some es -> In e es -> Z.of_nat (length (en_name e)) <= EXT2_NAME_LEN /\ 0 <= en_inode e.
Proof.
  unfold dir_entries. destruct (mapM _ _) as [ess|] eqn:Em; [|discriminate]. cbn. intros [= <-] Hi.
  apply in_concat in Hi as (l & Hl & Hi). apply list_elem_of_In, list_elem_of_lookup in Hl as (k & Hk).
  apply mapM_Some in Em. destruct (Forall2_lookup_r _ _ _ _ _ Em Hk) as (j & _ & Ej).
  destruct (parse_block_entries _ _ _ _ _ _ Ej Hi) as (p & ->). unfold entry_at. cbn [en_name en_inode].
  split; [|apply (load_range 4)]. unfold de_name. rewrite mem_read_length.
  pose proof (load_range 1 (dir_block_mem x dir j) (p + 6)) as Hn. unfold EXT2_NAME_LEN, de_name_len.
  change (0 <= load8 (dir_block_mem x dir j) (p + 6) < 256) in Hn. lia.
Qed.

Lemma lookup_name_in es name e : lookup_name es name = Some e -> In e es /\ en_name e = name.
Proof.
  unfold lookup_name. intros H. apply find_some in H as [Hi Hb]. split; [exact Hi|].
  apply andb_true_iff in Hb as [_ Hb]. apply bool_decide_eq_true in Hb. exact Hb.
Qed.

(** What a walk finds has the number it says. *)
Lemma walk_finds x path : forall cur n file n',
  inode_numbered x n = Some cur -> walk x path cur n = Some (file, n') -> inode_numbered x n' = Some file.
Proof.
  induction path as [|name path IH]; intros cur n file n' Hn; cbn [walk]; [congruence|].
  destruct (negb _); [discriminate|]. destruct (dir_entries x cur) as [es|]; [|discriminate]. cbn [mbind option_bind].
  destruct (lookup_name es name) as [e|]; [|discriminate]. cbn [mbind option_bind].
  destruct (inode_numbered x (en_inode e)) as [next|] eqn:E; [|discriminate]. cbn [mbind option_bind].
  intros H. exact (IH _ _ _ _ E H).
Qed.

Lemma walk_numbered x path file n : named x path = Some (file, n) -> inode_numbered x n = Some file.
Proof.
  unfold named. destruct path as [|c path]; [discriminate|]. intros H.
  destruct (decide (c = 47)) as [->|Hc].
  - destruct (inode_numbered x EXT2_ROOT_INODE) as [root|] eqn:E; [|discriminate]. exact (walk_finds _ _ _ _ _ _ E H).
  - exfalso. destruct c as [|p|p]; try discriminate. do 6 (destruct p as [p|p|]; try discriminate). congruence.
Qed.

(** One name of a path. *)
Lemma find_in_dir_sound x n cur name :
  fs_sound x -> inode_numbered x n = Some cur -> name <> [] ->
  find_in_dir x cur name
  = Ret (if inode_is_dir cur then es ← dir_entries x cur; e ← lookup_name es name; Some (en_inode e) else None).
Proof.
  intros F Hn Hne. destruct (inode_is_dir cur) eqn:Hd.
  - destruct (sound_dir x n cur F Hn Hd) as (es & D). rewrite (do_entries _ _ _ D). cbn [mbind option_bind].
    destruct (Z_le_gt_dec (Z.of_nat (length name)) EXT2_NAME_LEN) as [Hl|Hl].
    + rewrite (find_in_dir_correct x cur es name (fs_layout x F) D Hne Hl). destruct (lookup_name es name); reflexivity.
    + destruct (lookup_name es name) as [e|] eqn:E.
      * destruct (lookup_name_in _ _ _ E) as [Hi <-]. pose proof (dir_entry_range _ _ _ _ (do_entries _ _ _ D) Hi). lia.
      * unfold find_in_dir. rewrite Hd. destruct (Z.ltb_spec EXT2_NAME_LEN (Z.of_nat (length name))); [|lia].
        rewrite orb_true_r. reflexivity.
  - unfold find_in_dir. rewrite Hd. reflexivity.
Qed.

Lemma lookup_loop_walk x fuel : fs_sound x -> forall cursor cur n,
  (length cursor <= fuel)%nat -> inode_numbered x n = Some cur ->
  lookup_loop fuel x (skip_slashes cursor) cur n = Ret (walk x (names cursor) cur n).
Proof.
  intros F. induction fuel as [|fuel IH]; intros cursor cur n Hf Hn.
  { destruct cursor; [reflexivity | cbn in Hf; lia]. }
  pose proof (skip_slashes_length cursor) as Hsl. rewrite <- (names_skip cursor).
  destruct (skip_slashes cursor) as [|c rest] eqn:Es; [reflexivity|].
  pose proof (skip_slashes_head _ _ _ Es) as Hc. cbn [lookup_loop].
  destruct (take_name (c :: rest)) as [name rest'] eqn:Et.
  assert (Hne : name <> []).
  { cbn [take_name] in Et. destruct (Z.eqb_spec c 47); [contradiction|]. destruct (take_name rest). injection Et as <- _. discriminate. }
  destruct (take_name_spec _ _ _ Et) as (Hsplit & _). rewrite (names_take _ _ _ Et Hne). cbn [walk].
  assert (Hlen : (length rest' <= fuel)%nat).
  { apply (f_equal (@length Z)) in Hsplit. rewrite length_app in Hsplit. destruct name; [congruence|]. cbn [length] in *. lia. }
  destruct name as [|a name]; [congruence|]. rewrite (find_in_dir_sound x n cur (a :: name) F Hn Hne). cbn [mbind res_bind].
  destruct (inode_is_dir cur); cbn [negb]; [|reflexivity].
  destruct (dir_entries x cur) as [es|] eqn:Ee; cbn [mbind option_bind]; [|reflexivity].
  destruct (lookup_name es (a :: name)) as [e|] eqn:El; cbn [mbind option_bind]; [|reflexivity].
  destruct (lookup_name_in _ _ _ El) as [Hi _]. pose proof (dir_entry_range _ _ _ _ Ee Hi) as [_ Hpos].
  rewrite (read_inode_numbered x _ (fs_layout x F) Hpos). cbn [mbind res_bind].
  destruct (inode_numbered x (en_inode e)) as [next|] eqn:Enx; cbn [mbind option_bind]; [|reflexivity].
  apply IH; assumption.
Qed.

(** A path lookup ends, and finds what the path names. *)
Lemma path_lookup_named x path : fs_sound x -> path_lookup x path = Ret (named x path).
Proof.
  intros F. unfold path_lookup, named. destruct path as [|c path]; [reflexivity|].
  destruct (decide (c = 47)) as [->|Hc].
  - rewrite (fs_mounted x F). cbn [negb]. rewrite read_inode_numbered by (exact (fs_layout x F) || (unfold EXT2_ROOT_INODE; lia)).
    cbn [mbind res_bind]. destruct (inode_numbered x EXT2_ROOT_INODE) as [root|] eqn:Er; [|reflexivity].
    cbn [mbind option_bind]. apply lookup_loop_walk; auto.
  - destruct c as [|p|p]; try reflexivity. do 6 (destruct p as [p|p|]; try reflexivity). congruence.
Qed.

(** Reading the file that a path names. *)
Lemma read_named_ok x path file n len offset :
  fs_sound x -> 0 <= offset -> 0 <= len -> named x path = Some (file, n) -> inode_is_file file = true ->
  ext2_read_file x path len offset
  = Ret (let k := Z.max 0 (Z.min len (i_size file - offset)) in (k, file_bytes x file offset k)).
Proof.
  intros F Ho Hl En Ef. pose proof (walk_numbered x path file n En) as Hn.
  destruct (read_file_correct x path len offset (fs_layout x F) Ho Hl) as [H1 _].
  rewrite (path_lookup_named x path F), En in H1.
  apply H1; [exact Ef | exact (fs_readable x F n file Hn) | exact (proj2 (numbered_size x n file Hn))].
Qed.

(** C21. Reading a file by its path: on a sound image [ext2_read_file] walks the
    names of the path from the root through the entries of the directories, and
    yields exactly the bytes of the file there from the offset on, as many as
    were asked for and exist; it refuses a path that names nothing or no file,
    and it always ends. *)
Theorem read_path_correct x path len offset :
  fs_sound x -> 0 <= offset -> 0 <= len ->
  ext2_read_file x path len offset
  = Ret match named x path with
        | Some (file, _) =>
            if inode_is_file file
            then let n := Z.max 0 (Z.min len (i_size file - offset)) in (n, file_bytes x file offset n)
            else (USER_ERR_INVAL, [])
        | None => (USER_ERR_INVAL, [])
        end.
Proof.
  intros F Ho Hl. pose proof (path_lookup_named x path F) as Ep.
  destruct (read_file_correct x path len offset (fs_layout x F) Ho Hl) as [H1 H2]. rewrite Ep in H1, H2.
  destruct (named x path) as [[file n]|] eqn:En; [|exact H1].
  destruct (inode_is_file file) eqn:Ef; [exact (read_named_ok x path file n len offset F Ho Hl En Ef) | exact (H2 file n eq_refl Ef)].
Qed.

(** The sample image is sound: its eight inodes are inspected one by one. *)
Definition inode_fine (x : ext2) (n : Z) : bool :=
  let i := inode_at (x_image x) (inode_pos x n) in
  forallb (fun q => let b := block_id_at x i q in
             (b =? 0) || ((sb_first_data_block (x_image x) <=? b) && (b <? sb_blocks_count (x_image x))))
    (seqZ 0 (dir_blocks x i))
  && (negb (inode_is_dir i) || bool_decide (is_Some (dir_entries x i))).

Lemma inodes_fine_sound x :
  layout x -> ext2_mounted x = true ->
  forallb (inode_fine x) (seqZ 1 (sb_inodes_count (x_image x))) = true -> fs_sound x.
Proof.
  intros L M H. rewrite forallb_forall in H. pose proof (bs_range x L) as Hbs.
  assert (Hn : forall n i, inode_numbered x n = Some i -> inode_fine x n = true /\ i = inode_at (x_image x) (inode_pos x n)).
  { intros n i. unfold inode_numbered. destruct (_ && _) eqn:E; [|discriminate]. intros [= <-]. b2p.
    split; [apply H, In_seqZ; lia | reflexivity]. }
  split; [exact L | exact M | |]; intros n i Hi; destruct (Hn n i Hi) as [Hf ->]; apply andb_true_iff in Hf as [Hb Hd].
  - intros k Hk. rewrite forallb_forall in Hb. specialize (Hb (k / x_block_size x)).
    assert (Hq : In (k / x_block_size x) (seqZ 0 (dir_blocks x (inode_at (x_image x) (inode_pos x n))))).
    { apply In_seqZ. unfold dir_blocks. split; [apply Z.div_pos; lia|]. rewrite Z.add_0_l.
      apply Z.div_lt_upper_bound; [lia|]. zlia. }
    apply Hb in Hq. cbv zeta in Hq |- *. apply orb_true_iff in Hq as [Hq|Hq]; [left; lia|].
    right. apply andb_true_iff in Hq as [? ?]. split; lia.
  - intros Hdir. rewrite Hdir in Hd. cbn [negb orb] in Hd. apply bool_decide_eq_true in Hd. exact Hd.
Qed.

Lemma sample_sound : fs_sound sample.
Proof. apply inodes_fine_sound; [exact sample_layout | reflexivity | vm_compute; reflexivity]. Qed.

Lemma read_path_correct_witness :
  ext2_read_file sample [47; 97] 100 1
  = Ret match named sample [47; 97] with
        | Some (file, _) =>
            if inode_is_file file
            then let n := Z.max 0 (Z.min 100 (i_size file - 1)) in (n, file_bytes sample file 1 n)
            else (USER_ERR_INVAL, [])
        | None => (USER_ERR_INVAL, [])
        end
  /\ ext2_read_file sample [47; 97] 100 1 = Ret (4, [101; 108; 108; 111]).
Proof. split; [apply (read_path_correct sample [47; 97] 100 1 sample_sound); lia | vm_compute; reflexivity]. Defined.
