(* ===== verification/Ext2Files.v ===== *)
(** * Files by their paths: what a write does to what every path reads

    The file system as its users see it: each path names an inode or nothing,
    and an inode has contents. *)

From S2P Require Import Prelude Klog Pmm Vmm Pages Heap Fs Elf Keyboard Process Scheduler Kernel Syscall PathProofs.
From S2P Require Import Ext2Image Ext2Codec Ext2Layout Ext2Alloc Ext2 Ext2Ops Ext2Sample Ext2Proofs Ext2Dir Ext2Own Ext2Link Ext2Write.

Definition contents (x : ext2) (n : Z) : list Z := file_bytes x (disk x n) 0 (i_size (disk x n)).

(** The inode number that a path names. *)
Definition number (x : ext2) (path : list Z) : option Z := option_map snd (named x path).

(** A mounted image in which the inodes own their blocks and the directories
    parse. *)
Record owned_fs (x : ext2) : Prop := {
  fo_owned : owned x (disk x);
  fo_mounted : ext2_mounted x = true;
  fo_dirs : forall n, inode_valid x n -> inode_is_dir (disk x n) = true -> exists es, dir_entries x (disk x n) = Some es
}.

Lemma inode_numbered_disk x n : inode_numbered x n = if (1 <=? n) && (n <=? sb_inodes_count (x_image x)) then Some (disk x n) else None.
Proof. reflexivity. Qed.

Lemma inode_numbered_valid x n i : inode_numbered x n = Some i <-> inode_valid x n /\ i = disk x n.
Proof.
  rewrite inode_numbered_disk. unfold inode_valid. destruct (Z.leb_spec 1 n), (Z.leb_spec n (sb_inodes_count (x_image x))); cbn [andb];
    (split; [intros [= <-] || discriminate | intros [Hv ->]]); try lia; auto.
Qed.

Lemma fs_ok_sound x : owned_fs x -> fs_sound x.
Proof.
  intros [O M D]. split; [exact (owned_layout x _ O) | exact M | |]; intros n i Hi; apply inode_numbered_valid in Hi as [Hn ->].
  - exact (owned_readable x _ O n Hn).
  - exact (D n Hn).
Qed.

(** ** Names are stable *)

Lemma file_bytes_ext x x' i i' offset len :
  0 <= offset -> (forall p, 0 <= p -> file_byte x' i' p = file_byte x i p) -> file_bytes x' i' offset len = file_bytes x i offset len.
Proof. intros Ho H. unfold file_bytes. apply map_ext_in. intros p Hp. apply In_seqZ in Hp. apply H. lia. Qed.

(** Inodes of one size with the same bytes have the same entries. *)
Lemma dir_entries_same x x' i i' :
  0 < x_block_size x -> x_block_size x' = x_block_size x -> i_size i' = i_size i ->
  (forall p, 0 <= p -> file_byte x' i' p = file_byte x i p) -> dir_entries x' i' = dir_entries x i.
Proof.
  intros Hbs E Es H. unfold dir_entries, dir_blocks. rewrite E, Es. f_equal.
  assert (Em : forall k, In k (seqZ 0 ((i_size i + x_block_size x - 1) / x_block_size x)) -> block_entries x' i' k = block_entries x i k).
  { intros k Hk. apply In_seqZ in Hk. unfold block_entries, dir_block_mem, scan_fuel. rewrite E, Es.
    rewrite (file_bytes_ext x x' i i') by (auto; lia). reflexivity. }
  revert Em. generalize (seqZ 0 ((i_size i + x_block_size x - 1) / x_block_size x)). intros l Em.
  induction l as [|k l IH]; [reflexivity|]. cbn [mapM]. rewrite (Em k) by (left; reflexivity). rewrite IH by (intros; apply Em; right; assumption).
  reflexivity.
Qed.

Lemma dir_entries_ext x x' i :
  0 < x_block_size x -> x_block_size x' = x_block_size x ->
  (forall p, 0 <= p -> file_byte x' i p = file_byte x i p) -> dir_entries x' i = dir_entries x i.
Proof. intros Hbs E. exact (dir_entries_same x x' i i Hbs E eq_refl). Qed.

Section Names.
Context (P : Z -> Prop) (n : Z) (x x' : ext2) (F : owned_fs x) (Hn : inode_valid x n) (C : changed P n x x').
Context (Hdir : inode_is_dir (disk x n) = false).

Lemma changed_valid k : inode_valid x' k <-> inode_valid x k.
Proof. destruct (ch_image _ _ _ _ C) as (m' & -> & G). apply frame_inode_valid. exact G. Qed.

Lemma changed_bs : x_block_size x' = x_block_size x.
Proof. destruct (ch_image _ _ _ _ C) as (m' & -> & _). reflexivity. Qed.

Lemma changed_is_dir k : inode_valid x k -> inode_is_dir (disk x' k) = inode_is_dir (disk x k).
Proof.
  intros Hk. destruct (Z.eq_dec k n) as [->|Hne]; [|rewrite (ch_other _ _ _ _ C k Hk Hne); reflexivity].
  unfold inode_is_dir. rewrite (ch_mode _ _ _ _ C). reflexivity.
Qed.

Lemma changed_entries k :
  inode_valid x k -> inode_is_dir (disk x k) = true -> dir_entries x' (disk x' k) = dir_entries x (disk x k).
Proof.
  intros Hk Hd. assert (Hne : k <> n) by congruence.
  rewrite (ch_other _ _ _ _ C k Hk Hne). pose proof (bs_range x (owned_layout x _ (fo_owned x F))).
  apply dir_entries_ext; [lia | exact changed_bs|]. intros p Hp.
  pose proof (ch_bytes _ _ _ _ C k p Hk Hp) as E. rewrite (ch_other _ _ _ _ C k Hk Hne) in E. apply E. tauto.
Qed.

Lemma changed_numbered k : inode_numbered x' k = if inode_numbered x k then Some (disk x' k) else None.
Proof.
  destruct (inode_numbered x k) as [i|] eqn:E.
  - apply inode_numbered_valid in E as [Hk _]. apply inode_numbered_valid. split; [apply changed_valid; exact Hk | reflexivity].
  - destruct (inode_numbered x' k) as [i'|] eqn:E'; [|reflexivity]. apply inode_numbered_valid in E' as [Hk _]. apply changed_valid in Hk.
    assert (E2 : inode_numbered x k = Some (disk x k)) by (apply inode_numbered_valid; auto). congruence.
Qed.

Lemma changed_walk path : forall k, inode_valid x k ->
  option_map snd (walk x' path (disk x' k) k) = option_map snd (walk x path (disk x k) k).
Proof.
  induction path as [|name path IH]; intros k Hk; cbn [walk]; [reflexivity|].
  rewrite changed_is_dir by exact Hk. destruct (inode_is_dir (disk x k)) eqn:Hd; cbn [negb]; [|reflexivity].
  rewrite changed_entries by assumption. destruct (dir_entries x (disk x k)) as [es|]; cbn [mbind option_bind]; [|reflexivity].
  destruct (lookup_name es name) as [e|]; cbn [mbind option_bind]; [|reflexivity].
  rewrite changed_numbered. destruct (inode_numbered x (en_inode e)) as [i|] eqn:E; cbn [mbind option_bind]; [|reflexivity].
  apply inode_numbered_valid in E as [He ->]. apply IH. exact He.
Qed.

Lemma changed_number path : number x' path = number x path.
Proof.
  unfold number, named. destruct path as [|c path]; [reflexivity|]. destruct (decide (c = 47)) as [->|Hc].
  - rewrite changed_numbered. destruct (inode_numbered x EXT2_ROOT_INODE) as [i|] eqn:E; cbn [mbind option_bind]; [|reflexivity].
    apply inode_numbered_valid in E as [He ->]. apply changed_walk. exact He.
  - destruct c as [|p|p]; try reflexivity. do 6 (destruct p as [p|p|]; try reflexivity). congruence.
Qed.

Lemma changed_ok : owned x' (disk x') -> owned_fs x'.
Proof.
  intros O'. split; [exact O' | |].
  - destruct (ch_image _ _ _ _ C) as (m' & -> & _). exact (fo_mounted x F).
  - intros k Hk. apply changed_valid in Hk. rewrite changed_is_dir by exact Hk. intros Hd.
    rewrite changed_entries by assumption. exact (fo_dirs x F k Hk Hd).
Qed.

(** The other files have their contents. *)
Lemma changed_contents k : inode_valid x k -> k <> n -> contents x' k = contents x k.
Proof.
  intros Hk Hne. unfold contents. rewrite (ch_other _ _ _ _ C k Hk Hne). apply file_bytes_ext; [lia|]. intros p Hp.
  pose proof (ch_bytes _ _ _ _ C k p Hk Hp) as E. rewrite (ch_other _ _ _ _ C k Hk Hne) in E. apply E. tauto.
Qed.
End Names.

(** ** Write-back *)

(** [ext2_sync] changes nothing but the record of images written back. *)
Definition synced (x : ext2) : ext2 := snd (ext2_sync x).

Definition sync_fine (x : ext2) : bool := fst (ext2_sync x).

Lemma finish_eq x : finish x = Ret (if sync_fine x then 0 else USER_ERR_FAULT, synced x).
Proof. unfold finish, sync_fine, synced. destruct (ext2_sync x). reflexivity. Qed.

Lemma synced_cases x : synced x = x \/ synced x = mk_ext2 (x_present x) (x_image x) (x_size x) (x_superblock x) (x_block_size x)
           (x_group_count x) (x_writeback x) (x_image x :: x_written x).
Proof. unfold synced, ext2_sync. destruct (ext2_mounted x); cbn [negb]; [|auto]. destruct (x_writeback x); auto. Qed.

(** The same file system with another way to write it back. *)
Definition rewired (x : ext2) (writeback : option (mem -> Z -> bool)) (written : list mem) : ext2 :=
  mk_ext2 (x_present x) (x_image x) (x_size x) (x_superblock x) (x_block_size x) (x_group_count x) writeback written.

Section Rewired.
Context (x : ext2) (wb : option (mem -> Z -> bool)) (wr : list mem).
Abbreviation y := (rewired x wb wr).

Lemma rewired_owned V : owned x V -> owned y V.
Proof. intros [[[] ? ? ?] ? ? ?]. split; auto. split; auto. split; auto. Qed.

Lemma rewired_entries i : 0 < x_block_size x -> dir_entries y i = dir_entries x i.
Proof. intros Hbs. apply dir_entries_ext; [exact Hbs | reflexivity | reflexivity]. Qed.

Lemma rewired_walk names : 0 < x_block_size x -> forall i k, walk y names i k = walk x names i k.
Proof.
  intros Hbs. induction names as [|name names IH]; intros i k; cbn [walk]; [reflexivity|].
  rewrite rewired_entries by exact Hbs. destruct (negb _); [reflexivity|].
  destruct (dir_entries x i) as [es|]; [|reflexivity]. cbn [mbind option_bind]. destruct (lookup_name es name) as [e|]; [|reflexivity].
  cbn [mbind option_bind]. change (inode_numbered y (en_inode e)) with (inode_numbered x (en_inode e)).
  destruct (inode_numbered x (en_inode e)); [apply IH | reflexivity].
Qed.

Lemma rewired_named path : 0 < x_block_size x -> named y path = named x path.
Proof.
  intros Hbs. unfold named. destruct path as [|c path]; [reflexivity|].
  change (inode_numbered y EXT2_ROOT_INODE) with (inode_numbered x EXT2_ROOT_INODE).
  destruct (inode_numbered x EXT2_ROOT_INODE); cbn [mbind option_bind]; [rewrite rewired_walk by exact Hbs|]; reflexivity.
Qed.

Lemma rewired_ok : owned_fs x -> owned_fs y.
Proof.
  intros [O M D]. pose proof (bs_range x (owned_layout x _ O)) as Hbs.
  split; [exact (rewired_owned _ O) | exact M|]. intros n Hn. rewrite rewired_entries by lia. exact (D n Hn).
Qed.
End Rewired.

Lemma rewired_id x : rewired x (x_writeback x) (x_written x) = x.
Proof. destruct x. reflexivity. Qed.

Lemma synced_rewired x : exists wb wr, synced x = rewired x wb wr.
Proof. destruct (synced_cases x) as [-> | ->]; [exists (x_writeback x), (x_written x); symmetry; apply rewired_id | eexists _, _; reflexivity]. Qed.

Section Synced.
Context (x : ext2).

Lemma synced_disk k : disk (synced x) k = disk x k.
Proof. destruct (synced_rewired x) as (wb & wr & ->). reflexivity. Qed.

Lemma synced_contents k : contents (synced x) k = contents x k.
Proof. destruct (synced_rewired x) as (wb & wr & ->). reflexivity. Qed.

Lemma synced_named path : 0 < x_block_size x -> named (synced x) path = named x path.
Proof. destruct (synced_rewired x) as (wb & wr & ->). apply rewired_named. Qed.

Lemma synced_ok : owned_fs x -> owned_fs (synced x).
Proof. destruct (synced_rewired x) as (wb & wr & ->). apply rewired_ok. Qed.
End Synced.

(** ** Contents after a write *)

Definition splice (c : list Z) (offset : Z) (bytes : list Z) : list Z :=
  firstn (Z.to_nat offset) c ++ bytes ++ skipn (Z.to_nat offset + length bytes) c.

Lemma file_bytes_length x i offset len : length (file_bytes x i offset len) = Z.to_nat len.
Proof. unfold file_bytes. rewrite length_map, length_seqZ. reflexivity. Qed.

Lemma file_bytes_firstn x i offset len k :
  0 <= k <= len -> firstn (Z.to_nat k) (file_bytes x i offset len) = file_bytes x i offset k.
Proof.
  intros Hk. replace len with (k + (len - k)) by lia. rewrite file_bytes_app by lia.
  rewrite firstn_app, file_bytes_length, Nat.sub_diag, firstn_O, app_nil_r. apply firstn_all2. rewrite file_bytes_length. lia.
Qed.

Lemma file_bytes_skipn x i offset len k :
  0 <= k <= len -> skipn (Z.to_nat k) (file_bytes x i offset len) = file_bytes x i (offset + k) (len - k).
Proof.
  intros Hk. replace len with (k + (len - k)) at 1 by lia. rewrite file_bytes_app by lia.
  rewrite skipn_app, file_bytes_length, Nat.sub_diag, skipn_O, skipn_all2; [reflexivity|]. rewrite file_bytes_length. lia.
Qed.

Lemma file_bytes_same x i x' i' offset len :
  (forall p, offset <= p < offset + len -> file_byte x' i' p = file_byte x i p) -> file_bytes x' i' offset len = file_bytes x i offset len.
Proof. intros H. unfold file_bytes. apply map_ext_in. intros p Hp. apply In_seqZ in Hp. auto. Qed.

Lemma file_bytes_holds x i offset bytes : holds x i offset bytes -> file_bytes x i offset (Z.of_nat (length bytes)) = bytes.
Proof.
  intros H. apply nth_ext with (d := 0) (d' := 0); [rewrite file_bytes_length; lia|].
  intros k Hk. rewrite file_bytes_length in Hk. unfold file_bytes, seqZ. rewrite map_map.
  change (fmap ?f ?l) with (map f l). rewrite nth_map_seq by lia. rewrite H by lia. f_equal. lia.
Qed.

Lemma contents_splice x i x' i' offset bytes :
  let size := i_size i in let len := Z.of_nat (length bytes) in
  0 <= offset <= size -> i_size i' = Z.max size (offset + len) ->
  (forall p, 0 <= p < size -> ~ (offset <= p < offset + len) -> file_byte x' i' p = file_byte x i p) -> holds x' i' offset bytes ->
  file_bytes x' i' 0 (i_size i') = splice (file_bytes x i 0 size) offset bytes.
Proof.
  cbv zeta. intros Ho Hs Hb Hh. set (len := Z.of_nat (length bytes)) in *. rewrite Hs. unfold splice.
  rewrite file_bytes_firstn by lia.
  replace (Z.max (i_size i) (offset + len)) with (offset + (len + (Z.max (i_size i) (offset + len) - (offset + len)))) by lia.
  rewrite !file_bytes_app by lia. f_equal; [apply file_bytes_same; intros p Hp; apply Hb; lia|].
  f_equal; [rewrite Z.add_0_l; apply file_bytes_holds, Hh|].
  destruct (Z.le_gt_cases (offset + len) (i_size i)) as [Hle|Hgt].
  - replace (Z.to_nat offset + length bytes)%nat with (Z.to_nat (offset + len)) by lia. rewrite file_bytes_skipn by lia.
    replace (Z.max (i_size i) (offset + len) - (offset + len)) with (i_size i - (offset + len)) by lia.
    rewrite Z.add_0_l. apply file_bytes_same. intros p Hp. apply Hb; lia.
  - replace (Z.max (i_size i) (offset + len) - (offset + len)) with 0 by lia.
    rewrite skipn_all2 by (rewrite file_bytes_length; lia). reflexivity.
Qed.

(** ** [ext2_write_file] *)

Lemma named_number x path i n : named x path = Some (i, n) -> number x path = Some n /\ inode_valid x n /\ i = disk x n.
Proof.
  intros H. pose proof (walk_numbered x path i n H) as Hw. apply inode_numbered_valid in Hw as [Hn ->].
  unfold number. rewrite H. auto.
Qed.

(** A file without holes, with nothing past its end. *)
Record file_ok (x : ext2) (i : ext2_inode) : Prop := {
  fl_size : i_size i <= max_blocks x * x_block_size x;
  fl_dense : forall q, 0 <= q < blocks_of x (i_size i) -> block_id_at x i q <> 0;
  fl_tail : forall p, blocks_of x (i_size i) * x_block_size x <= p -> file_byte x i p = 0
}.

Lemma blocks_of_bounds x size :
  0 < x_block_size x -> 0 <= size ->
  size <= blocks_of x size * x_block_size x < size + x_block_size x /\ size / x_block_size x <= blocks_of x size
  /\ (forall p, blocks_of x size * x_block_size x <= p -> blocks_of x size <= p / x_block_size x).
Proof.
  intros Hbs Hs. unfold blocks_of.
  pose proof (Z.div_mod (size + x_block_size x - 1) (x_block_size x) ltac:(lia)) as D.
  pose proof (Z.mod_pos_bound (size + x_block_size x - 1) (x_block_size x) Hbs) as M.
  split; [lia|]. split; [apply Z.div_le_mono; lia|]. intros p Hp. apply Z.div_le_lower_bound; lia.
Qed.

Lemma file_ok_tail_present x i : layout x -> 0 <= i_size i -> file_ok x i -> tail_present x i.
Proof.
  intros L Hs FO Hm. pose proof (bs_range x L) as Hbs. apply (fl_dense x i FO). unfold blocks_of.
  pose proof (Z.div_mod (i_size i) (x_block_size x) ltac:(lia)) as D.
  pose proof (Z.mod_pos_bound (i_size i) (x_block_size x) ltac:(lia)) as M.
  split; [apply Z.div_pos; lia|]. apply Z.lt_le_trans with (i_size i / x_block_size x + 1); [lia|].
  apply Z.div_le_lower_bound; lia.
Qed.

Lemma disk_size x n : 0 <= i_size (disk x n) < 4294967296.
Proof. apply inode_at_size. Qed.

(** A file that has grown, or has not. *)
Lemma grown_file_ok P x n x' size' :
  layout x -> inode_valid x n -> file_ok x (disk x n) -> grown P n x x' -> i_size (disk x' n) = size' ->
  i_size (disk x n) <= size' <= max_blocks x * x_block_size x ->
  (forall q, blocks_of x (i_size (disk x n)) <= q < blocks_of x size' -> block_id_at x' (disk x' n) q <> 0) ->
  (forall p, blocks_of x size' * x_block_size x <= p -> ~ P p) -> file_ok x' (disk x' n).
Proof.
  intros L Hn [Fs Fd Ft] [C G] Es Hs Hnew HP. pose proof (bs_range x L) as Hbs.
  destruct (ch_image _ _ _ _ C) as (m' & Ex & _). pose proof (disk_size x n) as Hsz.
  assert (Ebs : x_block_size x' = x_block_size x) by (rewrite Ex; reflexivity).
  assert (Emb : max_blocks x' = max_blocks x) by (rewrite Ex; reflexivity).
  assert (Ebo : forall s, blocks_of x' s = blocks_of x s) by (intros s; unfold blocks_of; rewrite Ebs; reflexivity).
  split; rewrite Es, ?Emb, ?Ebo, ?Ebs.
  - lia.
  - intros q Hq. destruct (Z.lt_ge_cases q (blocks_of x (i_size (disk x n)))) as [Hl|Hg]; [|apply Hnew; lia].
    pose proof (Fd q ltac:(lia)) as Hz. rewrite G by (lia || exact Hz). exact Hz.
  - intros p Hp. pose proof (proj1 (blocks_of_bounds x size' ltac:(lia) ltac:(lia))) as Hb.
    rewrite (ch_bytes _ _ _ _ C n p Hn) by (lia || (intros _; exact (HP p Hp))). apply Ft.
    apply Z.le_trans with (blocks_of x size' * x_block_size x); [|exact Hp].
    apply Z.mul_le_mono_nonneg_r; [lia|]. apply Z.div_le_mono; lia.
Qed.

(** The loop of [ext2_write_file] leaves a file that is in order. *)
Lemma within_file_ok x n offset len x' :
  layout x -> inode_valid x n -> file_ok x (disk x n) -> offset + len <= i_size (disk x n) ->
  grown (within offset len) n x x' -> i_size (disk x' n) = i_size (disk x n) -> file_ok x' (disk x' n).
Proof.
  intros L Hn FO Hs C Es. pose proof (bs_range x L) as Hbs. pose proof (disk_size x n) as Hsz. pose proof (fl_size x _ FO) as Fs.
  apply (grown_file_ok _ x n x' (i_size (disk x n)) L Hn FO C Es); [lia | lia|].
  intros p Hp. pose proof (proj1 (blocks_of_bounds x (i_size (disk x n)) ltac:(lia) ltac:(lia))). unfold within. lia.
Qed.

(** What growing clears lies before the new end. *)
Lemma rest_of_block_end x n size :
  layout x -> forall p, blocks_of x size * x_block_size x <= p -> ~ rest_of_block x (i_size (disk x n)) size p.
Proof.
  intros L p Hp (Hlt & Hpo & E). pose proof (bs_range x L) as Hbs. pose proof (disk_size x n) as Hsz.
  destruct (blocks_of_bounds x size ltac:(lia) ltac:(lia)) as (Hb1 & _ & Hb2). specialize (Hb2 p Hp). rewrite E in Hb2.
  pose proof (Z.div_mod (i_size (disk x n)) (x_block_size x) ltac:(lia)).
  pose proof (Z.mod_pos_bound (i_size (disk x n)) (x_block_size x) ltac:(lia)). nia.
Qed.

Section Write.
Context (x : ext2) (F : owned_fs x) (n : Z) (Hn : inode_valid x n).
Abbreviation i := (disk x n).

(** The first part of [ext2_write_file]: room for the bytes up to [end_]. *)
Lemma make_room_ok end_ :
  0 <= end_ -> file_ok x i ->
  exists ok i1 x1,
    (if i_size i <? end_ then resize_inode_data x i n end_ else Ret (true, i, x)) = Ret (ok, i1, x1)
  /\ owned x1 (disk x1) /\ grown (rest_of_block x (i_size i) end_) n x x1
  /\ file_ok x1 (disk x1 n)
  /\ if (ok : bool)
     then disk x1 n = i1 /\ i_size i1 = Z.max (i_size i) end_ /\ end_ <= max_blocks x * x_block_size x
     else disk x1 n = i /\ contents x1 n = contents x n
          /\ (max_blocks x * x_block_size x < end_ \/ sb_free_blocks_count (x_image x1) <= 1).
Proof.
  intros He FO. pose proof (owned_layout x _ (fo_owned x F)) as L. pose proof (bs_range x L) as Hbs. pose proof (disk_size x n) as Hsz.
  destruct (Z.ltb_spec (i_size i) end_) as [Hlt|Hge].
  - destruct (resize_grow_ok n x Hn (fo_owned x F) end_ ltac:(lia) (file_ok_tail_present x i L ltac:(lia) FO)) as (ok & i1 & x1 & E & O1 & R).
    exists ok, i1, x1. split; [exact E|]. split; [exact O1|]. destruct ok.
    + destruct R as (C1 & D & Es & Hm & Hd & _).
      split; [exact C1|]. split; [|split; [exact D|]; split; [lia | exact Hm]].
      apply (grown_file_ok _ x n x1 end_ L Hn FO C1); [rewrite D; exact Es | lia | rewrite D; exact Hd|].
      exact (rest_of_block_end x n end_ L).
    + destruct R as (C1 & D & R). split; [eapply grown_weaken; [|exact C1]; tauto|]. split.
      * apply (grown_file_ok _ x n x1 (i_size i) L Hn FO C1); [rewrite D; reflexivity | destruct FO; lia | lia | tauto].
      * split; [exact D|]. split; [|exact R]. unfold contents. rewrite D. apply file_bytes_same. intros p Hp.
        pose proof (ch_bytes _ _ _ _ (gr_changed _ _ _ _ C1) n p Hn ltac:(lia)) as Eb. rewrite D in Eb. apply Eb. tauto.
  - exists true, i, x. split; [reflexivity|]. split; [exact (fo_owned x F)|]. split; [apply grown_refl|]. split; [exact FO|].
    split; [reflexivity|]. split; [lia | destruct FO; lia].
Qed.

(** A change of the inode [n] and its blocks, perhaps written back. *)
Inductive file_step : ext2 -> Prop :=
  | stepped y : changed (fun _ => True) n x y -> owned y (disk y) -> file_step y
  | stepped_back y : changed (fun _ => True) n x y -> owned y (disk y) -> file_step (synced y).

(** The inode [n] is the only one whose contents may have changed. *)
Record only_file (x' : ext2) : Prop := {
  of_step : file_step x';
  of_ok : owned_fs x';
  of_number : forall path, number x' path = number x path;
  of_valid : forall k, inode_valid x' k <-> inode_valid x k;
  of_mode : forall k, inode_valid x k -> i_mode (disk x' k) = i_mode (disk x k);
  of_contents : forall k, inode_valid x k -> k <> n -> contents x' k = contents x k;
  of_files : forall k, inode_valid x k -> k <> n -> file_ok x (disk x k) -> file_ok x' (disk x' k)
}.

Lemma changed_only P x' : inode_is_dir i = false -> changed P n x x' -> owned x' (disk x') -> only_file x'.
Proof.
  intros Hd C O'. pose proof (bs_range x (owned_layout x _ (fo_owned x F))) as Hbs. split.
  - apply stepped; [exact (changed_weaken P _ n x x' (fun _ _ => I) C) | exact O'].
  - exact (changed_ok P n x x' F C Hd O').
  - exact (changed_number P n x x' F C Hd).
  - exact (changed_valid P n x x' C).
  - intros k Hk. destruct (Z.eq_dec k n) as [->|Hne]; [exact (ch_mode _ _ _ _ C) | rewrite (ch_other _ _ _ _ C k Hk Hne); reflexivity].
  - exact (changed_contents P n x x' C).
  - intros k Hk Hne [Fs Fd Ft]. destruct (ch_image _ _ _ _ C) as (m' & Ex & _). pose proof (disk_size x k) as Hsz.
    assert (Ebs : x_block_size x' = x_block_size x) by (rewrite Ex; reflexivity).
    pose proof (proj1 (blocks_of_bounds x (i_size (disk x k)) ltac:(lia) ltac:(lia))) as Hb.
    pose proof (ch_other _ _ _ _ C k Hk Hne) as Ed.
    split; unfold blocks_of, max_blocks; rewrite ?Ebs, Ed; [exact Fs | |].
    + intros q Hq. pose proof (ch_blocks _ _ _ _ C k q Hk Hne ltac:(lia)) as Eb. rewrite Ed in Eb. rewrite Eb. exact (Fd q Hq).
    + intros p Hp. fold (blocks_of x (i_size (disk x k))) in Hp.
      pose proof (ch_bytes _ _ _ _ C k p Hk ltac:(lia)) as Eb. rewrite Ed in Eb. rewrite Eb by tauto. exact (Ft p Hp).
Qed.

Lemma synced_file_ok y k : file_ok y (disk y k) -> file_ok (synced y) (disk (synced y) k).
Proof. destruct (synced_cases y) as [-> | ->]; intros []; split; assumption. Qed.

Lemma synced_only P x' : inode_is_dir i = false -> changed P n x x' -> owned x' (disk x') -> only_file (synced x').
Proof.
  intros Hd Ch O'. destruct (changed_only P x' Hd Ch O') as [_ O N V M C Fl]. pose proof (bs_range x' (owned_layout x' _ (fo_owned x' O))) as Hbs. split.
  - apply stepped_back; [exact (changed_weaken P _ n x x' (fun _ _ => I) Ch) | exact O'].
  - exact (synced_ok x' O).
  - intros path. unfold number. rewrite synced_named by lia. apply N.
  - intros k. rewrite <- V. destruct (synced_cases x') as [-> | ->]; reflexivity.
  - intros k Hk. rewrite synced_disk. exact (M k Hk).
  - intros k Hk Hne. rewrite synced_contents. exact (C k Hk Hne).
  - intros k Hk Hne Fo. apply synced_file_ok. exact (Fl k Hk Hne Fo).
Qed.

(** How a write ends: the bytes are in the file, or there was no room for all of
    them; then some may be there. A write-back that fails is reported after the
    bytes are in the image. *)
Inductive write_outcome (offset : Z) (bytes : list Z) : Z -> ext2 -> Prop :=
  | write_done x' :
      contents x' n = splice (contents x n) offset bytes ->
      write_outcome offset bytes (if sync_fine x' then Z.of_nat (length bytes) else USER_ERR_FAULT) (synced x')
  | write_no_room x' :
      max_blocks x * x_block_size x < offset + Z.of_nat (length bytes) \/ sb_free_blocks_count (x_image x') <= 1 ->
      (length (contents x n) <= length (contents x' n))%nat ->
      (forall p, 0 <= p < Z.of_nat (length (contents x n)) -> ~ within offset (Z.of_nat (length bytes)) p ->
         nth (Z.to_nat p) (contents x' n) 0 = nth (Z.to_nat p) (contents x n) 0) ->
      write_outcome offset bytes USER_ERR_FAULT x'.

Lemma contents_length y k : Z.of_nat (length (contents y k)) = i_size (disk y k).
Proof. unfold contents. rewrite file_bytes_length. pose proof (inode_at_size (x_image y) (inode_pos y k)) as H. unfold disk. lia. Qed.

Lemma contents_nth y k p : 0 <= p < i_size (disk y k) -> nth (Z.to_nat p) (contents y k) 0 = file_byte y (disk y k) p.
Proof.
  intros Hp. unfold contents, file_bytes, seqZ. rewrite map_map. change (fmap ?f ?l) with (map f l).
  rewrite nth_map_seq by lia. f_equal. lia.
Qed.

(** What [ext2_write_file] does from the inode it has found. *)
Definition write_found (bytes : list Z) (offset : Z) : res (Z * ext2) :=
  let len := Z.of_nat (length bytes) in
  (if i_size i <? offset + len then resize_inode_data x i n (offset + len) else Ret (true, i, x)) ≫= fun '(ok, file, x) =>
  if negb ok then Ret (USER_ERR_FAULT, x)
  else
    write_bytes_loop (Z.to_nat (len / x_block_size x + 2)) x file bytes len offset 0 ≫= fun '(f, x) =>
    match f with
    | None => Ret (USER_ERR_FAULT, x)
    | Some file =>
        write_inode x n file ≫= fun '(ok, x) =>
        if negb ok then Ret (USER_ERR_FAULT, x)
        else let '(ok, x) := ext2_sync x in Ret (if ok then len else USER_ERR_FAULT, x)
    end.

Lemma write_found_ok bytes offset :
  inode_is_dir i = false -> file_ok x i -> Forall is_byte bytes -> 0 <= offset <= i_size i ->
  exists r x', write_found bytes offset = Ret (r, x') /\ only_file x' /\ file_ok x' (disk x' n) /\ write_outcome offset bytes r x'.
Proof.
  intros Hd FO Hb Ho. pose proof (owned_layout x _ (fo_owned x F)) as L. pose proof (bs_range x L) as Hbs.
  unfold write_found. cbv zeta. set (len := Z.of_nat (length bytes)) in *.
  destruct (make_room_ok (offset + len) ltac:(lia) FO) as (ok & i1 & x1 & -> & O1 & C1 & FO1 & R1). cbn [mbind res_bind].
  destruct (ch_image _ _ _ _ (gr_changed _ _ _ _ C1)) as (m1 & Ex1 & G1).
  assert (Hn1 : inode_valid x1 n) by (apply (changed_valid _ _ _ _ (gr_changed _ _ _ _ C1)); exact Hn).
  destruct ok; cbn [negb].
  2: { destruct R1 as (D1 & Ec & R1). exists USER_ERR_FAULT, x1. split; [reflexivity|].
       split; [exact (changed_only _ x1 Hd (gr_changed _ _ _ _ C1) O1)|]. split; [exact FO1|].
       apply write_no_room; [exact R1 | rewrite Ec; lia | intros; rewrite Ec; reflexivity]. }
  destruct R1 as (D1 & Es1 & Hfit). replace (len / x_block_size x1) with (len / x_block_size x) by (rewrite Ex1; reflexivity).
  assert (L1 : layout x1) by exact (owned_layout x1 _ O1).
  assert (W0 : written_so_far (disk x1) n bytes offset x1 i1 x1 i1 0).
  { split; [rewrite <- D1; exact (disk_self n x1 O1) | apply kept_refl | reflexivity|].
    intros p Hp. change (Z.to_nat 0) with 0%nat in Hp. rewrite firstn_O in Hp. cbn [length] in Hp. lia. }
  destruct (write_loop_ok (disk x1) n bytes offset Hb (proj1 Ho) x1 i1 (Z.to_nat (len / x_block_size x + 2)) x1 i1 0 L1 Hn1)
    as (r & x2 & i2 & E2 & R2).
  - rewrite Ex1. exact Hfit.
  - exact W0.
  - lia.
  - intros _. rewrite Z.add_0_r, Z.sub_0_r. replace (x_block_size x1) with (x_block_size x) by (rewrite Ex1; reflexivity).
    pose proof (Z.mod_pos_bound offset (x_block_size x) ltac:(lia)). pose proof (Z.div_mod len (x_block_size x) ltac:(lia)).
    pose proof (Z.mod_pos_bound len (x_block_size x) ltac:(lia)). pose proof (Z.div_pos len (x_block_size x) ltac:(lia) ltac:(lia)).
    rewrite Z2Nat.id by lia. lia.
  - fold len in E2, R2. rewrite E2. cbn [mbind res_bind]. rewrite <- D1 in R2, Es1. destruct r as [f|].
    + destruct R2 as [-> [O2 K2 Es2 B2]].
      destruct (commit_grown _ n x1 Hn1 x2 i2 O1 O2 K2) as (x3 & -> & O3 & D3 & C3 & B3 & I3). cbn [mbind res_bind negb].
      destruct (ext2_sync x3) as [okw x4] eqn:Es. exists (if okw then len else USER_ERR_FAULT), x4. split; [reflexivity|].
      replace x4 with (synced x3) by (unfold synced; rewrite Es; reflexivity).
      replace okw with (sync_fine x3) by (unfold sync_fine; rewrite Es; reflexivity).
      pose proof (gr_changed _ _ _ _ (both_grown _ _ n x x1 x3 L C1 C3)) as C13.
      split; [exact (synced_only _ x3 Hd C13 O3)|]. split; [apply synced_file_ok|].
      * apply (within_file_ok x1 n offset len x3 L1 Hn1 FO1); [lia | exact C3 | rewrite D3; lia].
      * apply write_done. unfold contents. rewrite D3.
        apply contents_splice; fold len; [lia | lia | |].
        -- intros p Hp Hout. pose proof (ch_bytes _ _ _ _ C13 n p Hn ltac:(lia)) as Eb. rewrite D3 in Eb. apply Eb.
           unfold within, rest_of_block. lia.
        -- intros p Hp. rewrite B3 by lia. rewrite firstn_all2 in B2 by lia. exact (B2 p Hp).
    + destruct R2 as [Hfree (w & [O2 K2 Es2 B2])].
      destruct (abandon_ok _ n x1 Hn1 x2 i2 O1 O2 K2) as (O3 & C3 & D3).
      pose proof (gr_changed _ _ _ _ (both_grown _ _ n x x1 x2 L C1 C3)) as C13.
      exists USER_ERR_FAULT, x2. split; [reflexivity|]. split; [exact (changed_only _ x2 Hd C13 O3)|]. split.
      * apply (within_file_ok x1 n offset len x2 L1 Hn1 FO1); [lia | exact C3 | rewrite D3; reflexivity].
      * pose proof (contents_length x n) as Hl. pose proof (contents_length x2 n) as Hl2. rewrite D3 in Hl2.
        apply write_no_room; [right; exact Hfree | lia|]. intros p Hp Hout. rewrite !contents_nth by (rewrite ?D3; lia).
        apply (ch_bytes _ _ _ _ C13 n p Hn); [lia|]. fold len in Hout. unfold within, rest_of_block in *. lia.
Qed.
End Write.

(** ** Reads *)

(** What reading at most [len] bytes of [c] from [offset] on gives. *)
Definition read_slice (c : list Z) (len offset : Z) : Z * list Z :=
  let k := Z.max 0 (Z.min len (Z.of_nat (length c) - offset)) in
  (k, firstn (Z.to_nat k) (skipn (Z.to_nat offset) c)).

(** A read by path in terms of contents. *)
Lemma read_contents x path n len offset :
  owned_fs x -> 0 <= offset -> 0 <= len -> number x path = Some n -> inode_is_file (disk x n) = true ->
  ext2_read_file x path len offset = Ret (read_slice (contents x n) len offset).
Proof.
  intros F Ho Hl Hnum Hf. unfold number in Hnum. destruct (named x path) as [[file k]|] eqn:En; [|discriminate].
  injection Hnum as ->. destruct (named_number x path file n En) as (_ & Hn & ->).
  rewrite (read_named_ok x path (disk x n) n len offset (fs_ok_sound x F) Ho Hl En Hf). unfold read_slice. cbv zeta.
  rewrite contents_length. set (k := Z.max 0 (Z.min len (i_size (disk x n) - offset))). do 2 f_equal.
  destruct (Z.le_gt_cases offset (i_size (disk x n))) as [Hle|Hgt].
  - unfold contents. rewrite file_bytes_skipn by lia. rewrite file_bytes_firstn by lia. rewrite Z.add_0_l. reflexivity.
  - replace k with 0 by lia. reflexivity.
Qed.

Lemma write_file_ok x path n bytes offset :
  owned_fs x -> named x path = Some (disk x n, n) -> inode_is_file (disk x n) = true -> inode_is_dir (disk x n) = false ->
  file_ok x (disk x n) -> Forall is_byte bytes -> 0 <= offset <= i_size (disk x n) ->
  offset + Z.of_nat (length bytes) < 18446744073709551616 ->
  exists r x', ext2_write_file x path bytes offset = Ret (r, x')
  /\ only_file x n x' /\ file_ok x' (disk x' n) /\ write_outcome x n offset bytes r x'.
Proof.
  intros F En Hf Hd FO Hb Ho Hsum. destruct (named_number x path _ n En) as (_ & Hn & _).
  unfold ext2_write_file. rewrite (path_lookup_named x path (fs_ok_sound x F)), En. cbn [mbind res_bind].
  rewrite Hf. cbn [negb]. unfold inode_size_bytes.
  destruct (Z.ltb_spec (i_size (disk x n)) offset) as [Hlt|Hge]; [lia|]. cbn [orb].
  rewrite u64_id by (unfold is_u64; lia). destruct (Z.ltb_spec (offset + Z.of_nat (length bytes)) offset); [lia|].
  exact (write_found_ok x F n Hn bytes offset Hd FO Hb Ho).
Qed.

(** C22. Writing a file by its path and reading it back. On a file system whose
    inodes own their blocks, a write at an offset within a regular file ends,
    and leaves a file system of that kind in which every path names what it
    named and every other file has its contents. Either the file's contents are
    the old ones with the bytes put in at the offset, a longer file when they
    reach past its end, and the result is their number unless the write-back to
    the disk failed; or the file would be too large, or at most one block is
    free, the error is reported, and the contents outside the range are the old
    ones. What a later read by any path to any file gives is a slice of the
    contents so described. A write that starts past the end is refused. *)
Theorem write_file_correct x path i n bytes offset :
  owned_fs x -> named x path = Some (i, n) -> inode_is_file i = true -> inode_is_dir i = false ->
  file_ok x i ->
  Forall is_byte bytes -> 0 <= offset -> offset + Z.of_nat (length bytes) < 18446744073709551616 ->
  if i_size i <? offset then ext2_write_file x path bytes offset = Ret (USER_ERR_INVAL, x)
  else
    exists r x', ext2_write_file x path bytes offset = Ret (r, x')
    /\ only_file x n x' /\ file_ok x' (disk x' n) /\ write_outcome x n offset bytes r x'
    /\ (forall path' k len' offset', 0 <= offset' -> 0 <= len' -> number x path' = Some k -> inode_is_file (disk x k) = true ->
          ext2_read_file x' path' len' offset' = Ret (read_slice (contents x' k) len' offset')).
Proof.
  intros F En Hf Hd FO Hb Ho Hsum. destruct (named_number x path i n En) as (_ & Hn & ->).
  destruct (Z.ltb_spec (i_size (disk x n)) offset) as [Hlt|Hge].
  { unfold ext2_write_file. rewrite (path_lookup_named x path (fs_ok_sound x F)), En. cbn [mbind res_bind].
    rewrite Hf. cbn [negb]. unfold inode_size_bytes. destruct (Z.ltb_spec (i_size (disk x n)) offset); [reflexivity | lia]. }
  destruct (write_file_ok x path n bytes offset F En Hf Hd FO Hb ltac:(lia) Hsum) as (r & x' & E & Only & FO' & Out).
  exists r, x'. split; [exact E|]. split; [exact Only|]. split; [exact FO'|]. split; [exact Out|].
  intros path' k len' offset' Ho' Hl' Hk Hkf. apply read_contents; auto; [exact (of_ok _ _ _ Only) | rewrite (of_number _ _ _ Only); exact Hk|].
  assert (Hkv : inode_valid x k).
  { unfold number in Hk. destruct (named x path') as [[j k']|] eqn:E'; [|discriminate]. injection Hk as ->.
    apply (named_number x path' j k E'). }
  unfold inode_is_file in *. rewrite (of_mode _ _ _ Only k Hkv). exact Hkf.
Qed.

(** ** [ext2_truncate_file] *)

(** [c] cut or filled up with zeros to [size] bytes. *)
Definition resized (c : list Z) (size : Z) : list Z :=
  firstn (Z.to_nat size) c ++ repeat 0 (Z.to_nat size - length c).

Lemma file_bytes_zeros x i offset len :
  (forall p, offset <= p < offset + len -> file_byte x i p = 0) -> file_bytes x i offset len = repeat 0 (Z.to_nat len).
Proof.
  intros H. unfold file_bytes. rewrite (map_ext_in _ (fun _ => 0)) by (intros p Hp; apply In_seqZ in Hp; auto).
  rewrite map_const, length_seqZ. reflexivity.
Qed.

Lemma contents_resized x i x' i' :
  0 <= i_size i -> 0 <= i_size i' ->
  (forall p, 0 <= p < Z.min (i_size i) (i_size i') -> file_byte x' i' p = file_byte x i p) ->
  (forall p, i_size i <= p < i_size i' -> file_byte x' i' p = 0) ->
  file_bytes x' i' 0 (i_size i') = resized (file_bytes x i 0 (i_size i)) (i_size i').
Proof.
  intros Hi Hi' Hb Hz. unfold resized. rewrite file_bytes_length.
  destruct (Z.le_gt_cases (i_size i) (i_size i')) as [Hle|Hgt].
  - replace (i_size i') with (i_size i + (i_size i' - i_size i)) at 1 by lia. rewrite file_bytes_app by lia.
    rewrite firstn_all2 by (rewrite file_bytes_length; lia). f_equal; [apply file_bytes_same; intros p Hp; apply Hb; lia|].
    rewrite file_bytes_zeros by (intros p Hp; apply Hz; lia). f_equal. lia.
  - rewrite file_bytes_firstn by lia. replace (Z.to_nat (i_size i') - Z.to_nat (i_size i))%nat with 0%nat by lia.
    cbn [repeat]. rewrite app_nil_r. apply file_bytes_same. intros p Hp. apply Hb. lia.
Qed.

Section Truncate.
Context (x : ext2) (F : owned_fs x) (n : Z) (Hn : inode_valid x n).
Abbreviation i := (disk x n).

Inductive truncate_outcome (size : Z) : Z -> ext2 -> Prop :=
  | truncate_done x' :
      contents x' n = resized (contents x n) size ->
      truncate_outcome size (if sync_fine x' then 0 else USER_ERR_FAULT) (synced x')
  | truncate_no_room x' :
      max_blocks x * x_block_size x < size \/ sb_free_blocks_count (x_image x') <= 1 -> contents x' n = contents x n ->
      truncate_outcome size USER_ERR_FAULT x'.

(** The blocks past the end of the file have no byte. *)
Lemma no_bytes_past q' p : (forall q, blocks_of x q' <= q -> block_id_at x i q = 0) -> blocks_of x q' <= p / x_block_size x -> file_byte x i p = 0.
Proof. intros H Hp. unfold file_byte. cbv zeta. rewrite H by exact Hp. reflexivity. Qed.

(** Growing shows zeros. *)
Lemma grown_zeros p : file_ok x i -> i_size i <= p -> (if cleared x (i_size i) p then 0 else file_byte x i p) = 0.
Proof.
  intros FO Hp. pose proof (bs_range x (owned_layout x _ (fo_owned x F))) as Hbs. pose proof (disk_size x n) as Hsz.
  unfold cleared. pose proof (Z.mod_pos_bound (i_size i) (x_block_size x) ltac:(lia)) as M.
  pose proof (Z.div_mod (i_size i) (x_block_size x) ltac:(lia)) as D.
  pose proof (Z.mod_pos_bound p (x_block_size x) ltac:(lia)) as Mp. pose proof (Z.div_mod p (x_block_size x) ltac:(lia)) as Dp.
  pose proof (blocks_of_bounds x (i_size i) ltac:(lia) ltac:(lia)) as (B & _ & _).
  destruct B as [B1 B2].
  assert (Bk : blocks_of x (i_size i) < i_size i / x_block_size x + 2) by (apply (Z.mul_lt_mono_pos_r (x_block_size x)); lia).
  assert (Lt : p < blocks_of x (i_size i) * x_block_size x -> p / x_block_size x = i_size i / x_block_size x /\ i_size i mod x_block_size x <> 0).
  { intros Hlt. assert (p < (i_size i / x_block_size x + 1) * x_block_size x).
    { apply (Z.lt_le_trans _ _ _ Hlt), Z.mul_le_mono_nonneg_r; lia. }
    split; [symmetry; apply (Z.div_unique _ _ _ (p - i_size i / x_block_size x * x_block_size x)); lia|].
    intros E. assert (blocks_of x (i_size i) < i_size i / x_block_size x + 1) by (apply (Z.mul_lt_mono_pos_r (x_block_size x)); lia).
    assert (blocks_of x (i_size i) * x_block_size x <= i_size i / x_block_size x * x_block_size x) by (apply Z.mul_le_mono_nonneg_r; lia). lia. }
  destruct (Z.lt_ge_cases p (blocks_of x (i_size i) * x_block_size x)) as [Hlt|Hge].
  - destruct (Lt Hlt) as [-> Hne]. rewrite Z.eqb_refl. destruct (Z.eqb_spec (i_size i mod x_block_size x) 0); [contradiction | reflexivity].
  - rewrite (fl_tail x i FO p Hge). destruct (_ && _); reflexivity.
Qed.

(** Growing, by [resize_inode_data]. *)
Lemma truncate_grow size :
  inode_is_dir i = false -> file_ok x i -> i_size i <= size ->
  exists r x', (resize_inode_data x i n size ≫= fun '(ok, _, x) => if negb ok then Ret (USER_ERR_FAULT, x) else finish x) = Ret (r, x')
  /\ only_file x n x' /\ file_ok x' (disk x' n) /\ truncate_outcome size r x'.
Proof.
  intros Hd FO Hs. pose proof (owned_layout x _ (fo_owned x F)) as L. pose proof (disk_size x n) as Hsz.
  destruct (resize_grow_ok n x Hn (fo_owned x F) size Hs (file_ok_tail_present x i L ltac:(lia) FO)) as (ok & i1 & x1 & -> & O1 & R).
  cbn [mbind res_bind]. destruct ok; cbn [negb].
  - destruct R as (C & D & Es & Hm & Hnew & B). pose proof (gr_changed _ _ _ _ C) as C1.
    assert (FO1 : file_ok x1 (disk x1 n)).
    { apply (grown_file_ok _ x n x1 size L Hn FO C); [rewrite D; exact Es | lia | rewrite D; exact Hnew|].
      exact (rest_of_block_end x n size L). }
    unfold finish. destruct (ext2_sync x1) as [okw x2] eqn:E. exists (if okw then 0 else USER_ERR_FAULT), x2. split; [reflexivity|].
    replace x2 with (synced x1) by (unfold synced; rewrite E; reflexivity).
    replace okw with (sync_fine x1) by (unfold sync_fine; rewrite E; reflexivity).
    split; [exact (synced_only _ F _ _ _ Hd C1 O1)|]. split; [apply synced_file_ok, FO1|].
    apply truncate_done. unfold contents. rewrite D, <- Es. apply contents_resized; [lia | lia | |].
    + intros p Hp. pose proof (ch_bytes _ _ _ _ C1 n p Hn ltac:(lia)) as Eb. rewrite D in Eb. apply Eb. unfold rest_of_block. lia.
    + intros p Hp. rewrite B by lia. apply grown_zeros; [exact FO | lia].
  - destruct R as (C & D & R). pose proof (gr_changed _ _ _ _ C) as C1. exists USER_ERR_FAULT, x1. split; [reflexivity|].
    split; [exact (changed_only _ F _ _ _ Hd C1 O1)|]. split.
    + apply (grown_file_ok _ x n x1 (i_size i) L Hn FO C); [rewrite D; reflexivity | destruct FO; lia | lia | tauto].
    + apply truncate_no_room; [exact R|]. unfold contents. rewrite D. apply file_bytes_same. intros p Hp.
      pose proof (ch_bytes _ _ _ _ C1 n p Hn ltac:(lia)) as Eb. rewrite D in Eb. apply Eb. tauto.
Qed.

(** A file that has lost its last blocks. *)
Lemma shrunk_file_ok x' size :
  file_ok x i -> changed (past_blocks n x size) n x x' -> i_size (disk x' n) = size -> 0 <= size < i_size i ->
  (forall q, 0 <= q < blocks_of x size -> block_id_at x' (disk x' n) q = block_id_at x i q) ->
  (blocks_of x size < blocks_of x (i_size i) -> forall q, blocks_of x size <= q -> block_id_at x' (disk x' n) q = 0) ->
  file_ok x' (disk x' n).
Proof.
  intros [Fs Fd Ft] C Es Hs Bl Bz. pose proof (bs_range x (owned_layout x _ (fo_owned x F))) as Hbs. pose proof (disk_size x n) as Hsz.
  destruct (ch_image _ _ _ _ C) as (m' & Ex & _).
  assert (Ebs : x_block_size x' = x_block_size x) by (rewrite Ex; reflexivity).
  assert (Emb : max_blocks x' = max_blocks x) by (rewrite Ex; reflexivity).
  assert (Ebo : forall s, blocks_of x' s = blocks_of x s) by (intros s; unfold blocks_of; rewrite Ebs; reflexivity).
  assert (Hle : blocks_of x size <= blocks_of x (i_size i)) by (apply Z.div_le_mono; lia).
  split; rewrite Es, ?Emb, ?Ebo, ?Ebs; [lia | |].
  - intros q Hq. rewrite Bl by exact Hq. apply Fd. lia.
  - intros p Hp. destruct (blocks_of_bounds x size ltac:(lia) ltac:(lia)) as (B & _ & Hpq). specialize (Hpq p Hp).
    destruct (Z.eq_dec (blocks_of x size) (blocks_of x (i_size i))) as [E|Hne].
    + rewrite (ch_bytes _ _ _ _ C n p Hn) by (unfold past_blocks; lia). apply Ft. rewrite <- E. exact Hp.
    + unfold file_byte. cbv zeta. rewrite Ebs, Bz by lia. reflexivity.
Qed.

(** Shrinking, by [resize_inode_data]. *)
Lemma truncate_shrink size :
  inode_is_dir i = false -> file_ok x i -> 0 <= size < i_size i ->
  exists r x', (resize_inode_data x i n size ≫= fun '(ok, _, x) => if negb ok then Ret (USER_ERR_FAULT, x) else finish x) = Ret (r, x')
  /\ only_file x n x' /\ file_ok x' (disk x' n) /\ truncate_outcome size r x'.
Proof.
  intros Hd FO Hs. pose proof (bs_range x (owned_layout x _ (fo_owned x F))) as Hbs.
  destruct (resize_shrink_ok n x Hn (fo_owned x F) size Hs ltac:(destruct FO; lia)) as (i1 & x1 & -> & O1 & C & D & Es & Bl & Bz).
  cbn [mbind res_bind negb]. rewrite <- D in Es, Bl, Bz.
  unfold finish. destruct (ext2_sync x1) as [okw x2] eqn:E. exists (if okw then 0 else USER_ERR_FAULT), x2. split; [reflexivity|].
  replace x2 with (synced x1) by (unfold synced; rewrite E; reflexivity).
  replace okw with (sync_fine x1) by (unfold sync_fine; rewrite E; reflexivity).
  split; [exact (synced_only _ F _ _ _ Hd C O1)|].
  split; [apply synced_file_ok; exact (shrunk_file_ok x1 size FO C Es Hs Bl Bz)|].
  apply truncate_done. unfold contents. rewrite <- Es. apply contents_resized; [lia | lia | |lia].
  intros p Hp. apply (ch_bytes _ _ _ _ C n p Hn); [lia|]. intros _ [Hc _].
  assert (p / x_block_size x < blocks_of x size); [|lia]. apply Z.div_lt_upper_bound; [lia|].
  pose proof (proj1 (blocks_of_bounds x size ltac:(lia) ltac:(lia))). lia.
Qed.
End Truncate.

(** C23. Changing the size of a file by its path. On a file system whose inodes
    own their blocks, [ext2_truncate_file] of a regular file ends, and leaves a
    file system of that kind in which every path names what it named and every
    other file has its contents. Either the file's contents are the old ones cut
    off at the new size, or followed by zeros up to it (also where an earlier cut
    had left bytes in its last block), and the result is 0 unless the write-back
    to the disk failed; or the size is too large, or at most one block is free,
    the error is reported, and the contents are the old ones. The file still has
    no holes and nothing past its last block, so that it can be written and
    resized again. *)
Theorem truncate_file_correct x path i n size :
  owned_fs x -> named x path = Some (i, n) -> inode_is_file i = true -> inode_is_dir i = false -> file_ok x i -> 0 <= size ->
  exists r x', ext2_truncate_file x path size = Ret (r, x')
  /\ only_file x n x' /\ file_ok x' (disk x' n) /\ truncate_outcome x n size r x'.
Proof.
  intros F En Hf Hd FO Hs. destruct (named_number x path i n En) as (_ & Hn & ->).
  unfold ext2_truncate_file. rewrite (path_lookup_named x path (fs_ok_sound x F)), En. cbn [mbind res_bind]. rewrite Hf. cbn [negb].
  destruct (Z.le_gt_cases (i_size (disk x n)) size).
  - apply truncate_grow; assumption.
  - apply truncate_shrink; auto.
Qed.

(** ** The sample image *)

(** The slots in use: the inode, the slot and the block. *)
Definition used_slots (x : ext2) : list (Z * Z * Z) :=
  List.filter (fun t => negb (snd t =? 0))
    (flat_map (fun n => let i := disk x n in map (fun s => (n, s, slot x i s)) (seqZ 0 (n_slots x))) (seqZ 1 (sb_inodes_count (x_image x)))).

Lemma used_slots_in x n s : slot_of x n s -> slot x (disk x n) s <> 0 -> In (n, s, slot x (disk x n) s) (used_slots x).
Proof.
  intros [Hn Hs] Hz. unfold used_slots. apply List.filter_In. split.
  - apply in_flat_map. exists n. split; [apply In_seqZ; unfold inode_valid in Hn; lia|].
    apply in_map_iff. exists s. split; [reflexivity | apply In_seqZ; lia].
  - cbn [snd]. destruct (Z.eqb_spec (slot x (disk x n) s) 0); [contradiction | reflexivity].
Qed.

Lemma NoDup_snd_inj {A B} (l : list (A * B)) a a' b :
  List.NoDup (map snd l) -> In (a, b) l -> In (a', b) l -> a = a'.
Proof.
  induction l as [|[c d] l IH]; [intros _ []|]. cbn [map snd]. intros Hn. inversion Hn as [|? ? Hd Hn']; subst.
  intros [[= -> ->] | Hi] [[= ->] | Hi']; auto.
  - destruct Hd. apply in_map_iff. exists (a', b). auto.
  - destruct Hd. apply in_map_iff. exists (a, b). auto.
Qed.

Lemma owned_listed x :
  ext2_ok x -> List.NoDup (map snd (used_slots x)) ->
  Forall (fun t => block_valid x (snd t) /\ block_used x (snd t) = true /\ data_block x (snd t)) (used_slots x) ->
  owned x (disk x).
Proof.
  intros O Nd Fa. rewrite List.Forall_forall in Fa. split.
  - exact O.
  - intros n _. apply disk_wf.
  - intros n s Hs b Hb. exact (Fa _ (used_slots_in x n s Hs Hb)).
  - intros n s n' s' Hs Hs' E Hz. pose proof (used_slots_in x n s Hs Hz) as H1.
    pose proof (used_slots_in x n' s' Hs' ltac:(congruence)) as H2. rewrite <- E in H2.
    pose proof (NoDup_snd_inj _ _ _ _ Nd H1 H2) as H. injection H as -> ->. auto.
Qed.

Lemma sample_ok_fs : owned_fs sample.
Proof.
  assert (E : used_slots sample = [(2, 0, 6); (3, 0, 7)]) by (vm_compute; reflexivity).
  split.
  - apply owned_listed; rewrite ?E.
    + exact sample_ok.
    + repeat constructor; cbn; intuition lia.
    + assert (B : forall b, 6 <= b < 16 -> block_used sample b = true ->
                    block_valid sample b /\ block_used sample b = true /\ data_block sample b).
      { intros b Hb Hu. destruct sample_fields as (_ & E2 & E3 & _). unfold block_valid. rewrite E2, E3.
        split; [lia|]. split; [exact Hu | apply sample_data; lia]. }
      constructor; [|constructor; [|constructor]]; (apply B; [cbn [snd]; lia | vm_compute; reflexivity]).
  - reflexivity.
  - intros n Hn Hd. apply (fs_dirs sample sample_sound n); [apply inode_numbered_valid; auto | exact Hd].
Qed.

(** A file of direct blocks is in order when its first blocks are the ones it has. *)
Lemma direct_file_ok x i :
  i_size i <= max_blocks x * x_block_size x -> i_block_at i 12 = 0 -> 0 <= blocks_of x (i_size i) <= 12 -> 0 < x_block_size x ->
  forallb (fun q => negb (i_block_at i q =? 0)) (seqZ 0 (blocks_of x (i_size i))) = true ->
  forallb (fun q => i_block_at i q =? 0) (seqZ (blocks_of x (i_size i)) (12 - blocks_of x (i_size i))) = true -> file_ok x i.
Proof.
  intros Hs H12 Hb Hbs Hd Hz. rewrite !forallb_forall in *.
  assert (Bl : forall q, 0 <= q < 12 -> block_id_at x i q = i_block_at i q).
  { intros q Hq. unfold block_id_at, EXT2_DIRECT_BLOCKS. destruct (Z.ltb_spec q 12); [reflexivity | lia]. }
  split; [exact Hs | |].
  - intros q Hq. rewrite Bl by lia. specialize (Hd q ltac:(apply In_seqZ; lia)). destruct (Z.eqb_spec (i_block_at i q) 0); [discriminate | assumption].
  - intros p Hp. assert (Hq : blocks_of x (i_size i) <= p / x_block_size x) by (apply Z.div_le_lower_bound; lia).
    unfold file_byte. cbv zeta. replace (block_id_at x i (p / x_block_size x)) with 0; [reflexivity|].
    destruct (Z.lt_ge_cases (p / x_block_size x) 12) as [Hlt|Hge].
    + rewrite Bl by lia. specialize (Hz (p / x_block_size x) ltac:(apply In_seqZ; lia)). lia.
    + unfold block_id_at, EXT2_DIRECT_BLOCKS. destruct (Z.ltb_spec (p / x_block_size x) 12); [lia|]. rewrite H12.
      rewrite andb_false_r. reflexivity.
Qed.

Lemma sample_named : named sample [47; 97] = Some (file_inode, 3).
Proof. vm_compute. reflexivity. Qed.

Lemma sample_file_ok : file_ok sample file_inode.
Proof.
  apply direct_file_ok; try reflexivity; [vm_compute; discriminate|]. split; vm_compute; discriminate.
Qed.

Lemma write_file_correct_witness :
  (exists r x', ext2_write_file sample [47; 97] [74; 33; 35] 4 = Ret (r, x')
   /\ only_file sample 3 x' /\ file_ok x' (disk x' 3) /\ write_outcome sample 3 4 [74; 33; 35] r x'
   /\ (forall path' k len' offset', 0 <= offset' -> 0 <= len' -> number sample path' = Some k -> inode_is_file (disk sample k) = true ->
         ext2_read_file x' path' len' offset' = Ret (read_slice (contents x' k) len' offset')))
  /\ splice (contents sample 3) 4 [74; 33; 35] = [104; 101; 108; 108; 74; 33; 35].
Proof.
  split; [|vm_compute; reflexivity].
  apply (write_file_correct sample [47; 97] file_inode 3 [74; 33; 35] 4 sample_ok_fs sample_named); try reflexivity; try (cbn; lia).
  - exact sample_file_ok.
  - repeat constructor; unfold is_byte; lia.
Defined.

Lemma truncate_file_correct_witness :
  (exists r x', ext2_truncate_file sample [47; 97] 7 = Ret (r, x')
   /\ only_file sample 3 x' /\ file_ok x' (disk x' 3) /\ truncate_outcome sample 3 7 r x')
  /\ resized (contents sample 3) 7 = [104; 101; 108; 108; 111; 0; 0] /\ resized (contents sample 3) 2 = [104; 101].
Proof.
  split; [|split; vm_compute; reflexivity].
  apply (truncate_file_correct sample [47; 97] file_inode 3 7 sample_ok_fs sample_named); [reflexivity | reflexivity | exact sample_file_ok | lia].
Defined.
