(* ===== verification/Ext2Inodes.v ===== *)
(** * The inode bitmap: [mark_inode_used] and [allocate_inode]

    Which inodes are in use, and what taking one does to the file system: the
    counters and a bit of the bitmap change, the new inode is zero, and every
    other inode and every file stays. *)

From S2P Require Import Prelude Fs Ext2Image Ext2Codec Ext2Layout Ext2Alloc Ext2 Ext2Sample Ext2Proofs.
From S2P Require Import Ext2Own Ext2Link Ext2Free Ext2Write.

(** ** The set of used inodes *)

Definition igroup (x : ext2) (n : Z) : Z := (n - 1) / sb_inodes_per_group (x_image x).
Definition iindex (x : ext2) (n : Z) : Z := (n - 1) mod sb_inodes_per_group (x_image x).
Definition ibitmap (x : ext2) (n : Z) : Z := region_base x (RInodeBitmap (igroup x n)).

Definition inode_used (x : ext2) (n : Z) : bool := bitmap_get (x_image x) (ibitmap x n) (iindex x n).

Section Layout.
Context (x : ext2) (L : layout x).

Lemma igroup_range n : inode_valid x n -> 0 <= igroup x n < n_groups (x_image x).
Proof. exact (inode_group x L n). Qed.

Lemma iindex_range n : 0 <= iindex x n < sb_inodes_per_group (x_image x).
Proof. destruct L. apply Z.mod_pos_bound. lia. Qed.

Lemma inode_eq n n' : igroup x n = igroup x n' -> iindex x n = iindex x n' -> n = n'.
Proof.
  unfold igroup, iindex. intros Eg Ei. destruct L.
  pose proof (Z.div_mod (n - 1) (sb_inodes_per_group (x_image x)) ltac:(lia)).
  pose proof (Z.div_mod (n' - 1) (sb_inodes_per_group (x_image x)) ltac:(lia)).
  rewrite Eg, Ei in *. lia.
Qed.

Lemma ibitmap_ptr g :
  0 <= g < n_groups (x_image x) ->
  block_ptr x (gd_inode_bitmap (x_image x) (desc_off x g)) 0 (x_block_size x) = Some (region_base x (RInodeBitmap g)).
Proof.
  intros Hg. pose proof (bs_range x L). pose proof (ly_inside x L (RInodeBitmap g) Hg) as [Hb He].
  cbn [region_base region_len] in *. pose proof (load_nonneg 4 (x_image x) (desc_off x g + 4)).
  unfold gd_inode_bitmap in *. rewrite block_ptr_in by (auto; lia). f_equal. lia.
Qed.

(** The byte with the bit of an inode. *)
Lemma inode_bit_byte n : inode_valid x n -> in_region x (RInodeBitmap (igroup x n)) (ibitmap x n + iindex x n / 8).
Proof.
  intros Hn. pose proof (iindex_range n) as Hi. pose proof (bs_range x L). unfold in_region, ibitmap. cbn [region_len]. destruct L.
  assert (iindex x n / 8 < x_block_size x) by (apply Z.div_lt_upper_bound; lia).
  assert (0 <= iindex x n / 8) by (apply Z.div_pos; lia). lia.
Qed.
End Layout.

Lemma frame_inode_used x m' n :
  layout x -> same_geom x m' -> inode_valid x n ->
  inode_used (set_image x m') n = bitmap_get m' (ibitmap x n) (iindex x n).
Proof.
  intros L G Hn. pose proof (same_geom_fields _ _ G) as F. unfold inode_used, ibitmap, igroup, iindex.
  change (x_image (set_image x m')) with m'. rewrite (sf_ipg _ _ F), (frame_base x m' G); [reflexivity|].
  exact (igroup_range x L n Hn).
Qed.

Lemma same_ibitmap_used x m' n :
  layout x -> same_geom x m' -> inode_valid x n ->
  (forall a, in_region x (RInodeBitmap (igroup x n)) a -> u8 (m' a) = u8 (x_image x a)) ->
  inode_used (set_image x m') n = inode_used x n.
Proof.
  intros L G Hn H. rewrite frame_inode_used by assumption. pose proof (iindex_range x L n).
  apply bitmap_get_ext; [lia|]. apply H, inode_bit_byte; assumption.
Qed.

(** The bitmap of the inodes is no metadata of the blocks. *)
Lemma meta_not_ibitmap x (L : layout x) n (Hn : inode_valid x n) a : meta_byte x a -> ~ in_region x (RInodeBitmap (igroup x n)) a.
Proof.
  intros Hm Hr. pose proof (igroup_range x L n Hn) as Hg. destruct Hm as [H | [H | (g' & Hg' & H)]].
  - pose proof (region_unique x L RSuper (RInodeBitmap (igroup x n)) a I Hg H Hr) as E. discriminate E.
  - pose proof (region_unique x L RDesc (RInodeBitmap (igroup x n)) a I Hg H Hr) as E. discriminate E.
  - pose proof (region_unique x L (RBlockBitmap g') (RInodeBitmap (igroup x n)) a Hg' Hg H Hr) as E. discriminate E.
Qed.

(** ** [mark_inode_used] *)

(** Stores to the counters of the inodes. *)
Definition counters_only (x : ext2) (m m' : mem) : Prop := forall a, ~ inode_counter x a -> u8 (m' a) = u8 (m a).

#[export] Instance counters_only_refl x : Reflexive (counters_only x).
Proof. intros m a _. reflexivity. Qed.

#[export] Instance counters_only_trans x : Transitive (counters_only x).
Proof. intros m1 m2 m3 H1 H2 a Ha. rewrite (H2 a Ha). exact (H1 a Ha). Qed.

Section Counters.
Context (x : ext2) (g : Z) (Hg : 0 <= g < n_groups (x_image x)).

Lemma sb_inodes_only m v : counters_only x m (sb_set_free_inodes m v).
Proof.
  intros a Ha. unfold sb_set_free_inodes, EXT2_SUPERBLOCK_OFFSET. rewrite store_out; [reflexivity|].
  unfold inode_counter in Ha. lia.
Qed.

Lemma gd_counter_only m k v : 14 <= k -> k + 2 <= 18 -> counters_only x m (store16 m (desc_off x g + k) v).
Proof.
  intros H1 H2 a Ha. rewrite store_out; [reflexivity|].
  assert (H : ~ desc_off x g + 14 <= a < desc_off x g + 18) by (intros Hc; apply Ha; right; eauto). lia.
Qed.

Lemma gd_inodes_only m v : counters_only x m (gd_set_free_inodes m (desc_off x g) v).
Proof. apply gd_counter_only; lia. Qed.

Lemma gd_dirs_only m v : counters_only x m (gd_set_used_dirs m (desc_off x g) v).
Proof. apply gd_counter_only; lia. Qed.
End Counters.

(** A chain of such stores. *)
Ltac counter_stores :=
  match goal with
  | |- counters_only _ ?m ?m => reflexivity
  | |- counters_only _ _ (sb_set_free_inodes ?m _) => transitivity m; [counter_stores | apply sb_inodes_only]
  | |- counters_only _ _ (gd_set_free_inodes ?m _ _) => transitivity m; [counter_stores | apply gd_inodes_only; assumption]
  | |- counters_only _ _ (gd_set_used_dirs ?m _ _) => transitivity m; [counter_stores | apply gd_dirs_only; assumption]
  end.

(** What marking an inode does. *)
Record inode_marked (x : ext2) (n : Z) (used : bool) (m' : mem) : Prop := {
  im_ok : ext2_ok (set_image x m');
  im_geom : same_geom x m';
  im_used : forall k, inode_valid x k -> inode_used (set_image x m') k = if k =? n then used else inode_used x k;
  im_frame : forall a, ~ inode_counter x a -> ~ in_region x (RInodeBitmap (igroup x n)) a -> u8 (m' a) = u8 (x_image x a)
}.

Section Mark.
Context (x : ext2) (O : ext2_ok x) (n : Z) (Hn : inode_valid x n) (used : bool).

Lemma flipped_marked m' :
  counters_only x (bitmap_set (x_image x) (ibitmap x n) (iindex x n) used) m' -> inode_marked x n used m'.
Proof.
  intros Hc. pose proof (ok_layout x O) as L. pose proof (iindex_range x L n) as Hi. pose proof (igroup_range x L n Hn) as Hg.
  assert (F : forall a, ~ inode_counter x a -> ~ in_region x (RInodeBitmap (igroup x n)) a -> u8 (m' a) = u8 (x_image x a)).
  { intros a Ha Hr. rewrite (Hc a Ha). apply bitmap_set_out; [lia|]. intros ->. exact (Hr (inode_bit_byte x L n Hn)). }
  assert (K : forall a, meta_byte x a -> ~ inode_counter x a -> u8 (m' a) = u8 (x_image x a))
    by (intros a Hm Ha; exact (F a Ha (meta_not_ibitmap x L n Hn a Hm))).
  pose proof (counters_geom x m' O K) as G.
  split; [exact (counters_ok x m' O K) | exact G | | exact F].
  intros k Hk. rewrite frame_inode_used by assumption. pose proof (iindex_range x L k) as Hik. pose proof (inode_bit_byte x L k Hk) as Hbk.
  assert (Hnc : ~ inode_counter x (ibitmap x k + iindex x k / 8)).
  { apply (bitmap_not_counter x (RInodeBitmap (igroup x k))); [exact L | exact (igroup_range x L k Hk) | discriminate | discriminate | exact Hbk]. }
  rewrite (bitmap_get_ext (bitmap_set (x_image x) (ibitmap x n) (iindex x n) used)) by first [lia | exact (Hc _ Hnc)].
  destruct (Z.eqb_spec k n) as [->|Hne]; [rewrite bitmap_get_set by lia; rewrite Z.eqb_refl; reflexivity|].
  unfold inode_used. destruct (Z.eq_dec (igroup x k) (igroup x n)) as [Eg|Eg].
  - unfold ibitmap in *. rewrite Eg, bitmap_get_set by lia. destruct (Z.eqb_spec (iindex x n) (iindex x k)) as [Ei|]; [|reflexivity].
    destruct Hne. apply (inode_eq x L); congruence.
  - apply bitmap_get_ext; [lia|]. apply bitmap_set_out; [lia|]. intros E. apply Eg.
    pose proof (region_unique x L (RInodeBitmap (igroup x k)) (RInodeBitmap (igroup x n)) _ (igroup_range x L k Hk) Hg Hbk) as U.
    rewrite E in U. specialize (U (inode_bit_byte x L n Hn)). congruence.
Qed.

Lemma mark_inode_ok is_dir :
  exists m', mark_inode_used x n used is_dir = Ret (true, set_image x m') /\ inode_marked x n used m'.
Proof.
  pose proof (ok_layout x O) as L. pose proof (igroup_range x L n Hn) as Hg. pose proof Hn as [Hl Hh]. unfold mark_inode_used.
  destruct (Z.eqb_spec n 0); [lia|]. destruct (Z.ltb_spec (sb_inodes_count (x_image x)) n); [lia|]. cbn [orb].
  rewrite udivmod_pos by (destruct L; lia). cbn [mbind res_bind]. fold (igroup x n) (iindex x n).
  rewrite (group_desc_real x L) by exact Hg. rewrite (ibitmap_ptr x L) by exact Hg. fold (ibitmap x n).
  change (bitmap_get (x_image x) (ibitmap x n) (iindex x n)) with (inode_used x n).
  destruct (Bool.eqb (inode_used x n) used) eqn:E.
  - exists (x_image x). rewrite set_image_id. split; [reflexivity|].
    split; rewrite ?set_image_id; auto; [intros a _; reflexivity|]. intros k _. apply Bool.eqb_prop in E.
    destruct (Z.eqb_spec k n) as [->|]; congruence.
  - eexists. split; [reflexivity|]. apply flipped_marked. cbv zeta.
    destruct used; repeat match goal with |- context [if ?c then _ else _] => destruct c end; counter_stores.
Qed.
End Mark.

(** ** [allocate_inode] *)

Lemma zero_inode_wf : inode_wf zero_inode.
Proof.
  assert (H : forall P : Z -> Prop, P 0 -> forall n, Forall P (repeat 0 n)).
  { intros P H n. apply List.Forall_forall. intros v Hv. apply repeat_spec in Hv. subst v. exact H. }
  split; [apply (H is_u16 ltac:(unfold is_u16; lia) 4%nat) | apply (H is_u32 ltac:(unfold is_u32; lia) 12%nat) | |];
    split; try reflexivity; apply H; unfold is_u32, is_byte; lia.
Qed.

(** What taking the free inode [n] does. *)
Record inode_taken (x : ext2) (n : Z) (m' : mem) : Prop := {
  it_valid : inode_valid x n;
  it_free : inode_used x n = false;
  it_ok : ext2_ok (set_image x m');
  it_geom : same_geom x m';
  it_used : forall k, inode_valid x k -> inode_used (set_image x m') k = if k =? n then true else inode_used x k;
  it_new : inode_at m' (inode_pos x n) = zero_inode;
  it_frame : forall a, ~ inode_counter x a -> ~ in_region x (RInodeBitmap (igroup x n)) a ->
    ~ inode_pos x n <= a < inode_pos x n + sizeof_inode -> u8 (m' a) = u8 (x_image x a)
}.

Definition first_inode (x : ext2) : Z := if negb (sb_first_ino (x_image x) =? 0) then sb_first_ino (x_image x) else 11.

(** No inode to give out: each is used, or its group counts none free. *)
Definition no_free_inode (x : ext2) : Prop :=
  forall n, first_inode x <= n -> inode_valid x n ->
    inode_used x n = true \/ gd_free_inodes_count (x_image x) (desc_off x (igroup x n)) = 0.

(** An inode lies outside the bitmaps of the inodes. *)
Lemma inode_not_ibitmap x n g a :
  layout x -> inode_valid x n -> 0 <= g < n_groups (x_image x) -> inode_pos x n <= a < inode_pos x n + sizeof_inode ->
  ~ in_region x (RInodeBitmap g) a.
Proof.
  intros L Hn Hg Ha Hr.
  pose proof (region_unique x L (RInodeBitmap g) (RInodeTable (igroup x n)) a Hg (igroup_range x L n Hn) Hr (inode_in_table x L n a Hn Ha)) as E.
  discriminate E.
Qed.

Lemma inode_not_counter x n a :
  layout x -> inode_valid x n -> inode_pos x n <= a < inode_pos x n + sizeof_inode -> ~ inode_counter x a.
Proof.
  intros L Hn Ha. apply (bitmap_not_counter x (RInodeTable (igroup x n))); [exact L | exact (igroup_range x L n Hn) | discriminate | discriminate|].
  exact (inode_in_table x L n a Hn Ha).
Qed.

Lemma take_inode_ok x n is_dir :
  ext2_ok x -> inode_valid x n -> inode_used x n = false ->
  exists m', (mark_inode_used x n true is_dir ≫= fun '(ok, x) =>
              if negb ok then Ret (Break (0, x))
              else write_inode x n zero_inode ≫= fun '(_, x) => Ret (Break (n, x)))
             = Ret (Break (n, set_image x m') : ctl ext2 (Z * ext2)) /\ inode_taken x n m'.
Proof.
  intros O Hn Hu. pose proof (ok_layout x O) as L.
  destruct (mark_inode_ok x O n Hn true is_dir) as (m1 & -> & [O1 G1 U1 F1]). cbn [mbind res_bind negb].
  assert (Hn1 : inode_valid (set_image x m1) n) by (apply frame_inode_valid; assumption).
  destruct (write_inode_ok (set_image x m1) n zero_inode O1 zero_inode_wf Hn1) as (m2 & -> & E2 & F2 & M2). cbn [mbind res_bind].
  pose proof (keep_geom _ _ M2) as G2. pose proof (frame_inode_pos x m1 n L G1 Hn) as Ep. rewrite Ep in E2, F2.
  exists m2. split; [reflexivity|]. change (set_image (set_image x m1)) with (set_image x) in *. split; auto.
  - exact (keep_ok _ _ M2 O1).
  - exact (same_geom_trans x m1 m2 G1 G2).
  - intros k Hk. rewrite <- U1 by exact Hk. assert (Hk1 : inode_valid (set_image x m1) k) by (apply frame_inode_valid; assumption).
    apply (same_ibitmap_used (set_image x m1) m2 k (ok_layout _ O1) G2 Hk1). intros a Ha. apply F2. intros Hc.
    rewrite <- Ep in Hc. revert Ha. apply inode_not_ibitmap with (n := n); auto using ok_layout. exact (igroup_range _ (ok_layout _ O1) k Hk1).
  - intros a H1 H2 H3. rewrite (F2 a H3). exact (F1 a H1 H2).
Qed.

Definition allocated_inode (x : ext2) (r : Z) (x' : ext2) : Prop :=
  (r = 0 /\ x' = x /\ no_free_inode x) \/ exists m', x' = set_image x m' /\ inode_taken x r m'.

Lemma allocate_inode_ok x is_dir :
  ext2_ok x -> exists r x', allocate_inode x is_dir = Ret (r, x') /\ allocated_inode x r x'.
Proof.
  intros O. pose proof (ok_layout x O) as L. unfold allocate_inode. cbv zeta. fold (first_inode x).
  set (first := first_inode x).
  assert (Hfirst : 1 <= first).
  { pose proof (load_nonneg 4 (x_image x) (EXT2_SUPERBLOCK_OFFSET + 84)) as H. fold (sb_field32 (x_image x) 84) in H. fold (sb_first_ino (x_image x)) in H.
    unfold first, first_inode. destruct (Z.eqb_spec (sb_first_ino (x_image x)) 0); cbn [negb]; lia. }
  unfold mrange, trips. replace (sb_inodes_count (x_image x) + 1 - first + 1 - 1) with (sb_inodes_count (x_image x) + 1 - first) by lia.
  rewrite Z.div_1_r.
  match goal with |- exists r x', mbind _ (mfor ?turns ?i ?s ?body ?st) = _ /\ _ =>
    destruct (mfor_ind
      (fun k x' => x' = x /\ forall n, first <= n < k -> inode_valid x n ->
         inode_used x n = true \/ gd_free_inodes_count (x_image x) (desc_off x (igroup x n)) = 0)
      (fun c : ctl ext2 (Z * ext2) => match c with Break (r, x') => allocated_inode x r x' | Cont x' => x' = x /\ no_free_inode x end)
      turns i s body st) as (c & -> & Hc) end.
  - split; [reflexivity|]. intros; lia.
  - intros k x' Hk (-> & Hs). replace (first + k * 1) with (first + k) in * by lia. replace (first + (k + 1) * 1) with (first + k + 1) by lia.
    set (n := first + k) in *. assert (Hn : inode_valid x n) by (unfold inode_valid; lia).
    pose proof (igroup_range x L n Hn) as Hg. rewrite udivmod_pos by (destruct L; lia). cbn [mbind res_bind].
    fold (igroup x n) (iindex x n). rewrite (group_desc_real x L) by exact Hg.
    assert (Step : inode_used x n = true \/ gd_free_inodes_count (x_image x) (desc_off x (igroup x n)) = 0 ->
              forall n', first <= n' < n + 1 -> inode_valid x n' ->
              inode_used x n' = true \/ gd_free_inodes_count (x_image x) (desc_off x (igroup x n')) = 0).
    { intros Hd n' Hn' Hv. destruct (Z.eq_dec n' n) as [->|]; [exact Hd | apply Hs; [lia | exact Hv]]. }
    destruct (Z.eqb_spec (gd_free_inodes_count (x_image x) (desc_off x (igroup x n))) 0) as [E0|E0]; [eexists; split; [reflexivity | split; [reflexivity | apply Step; auto]]|].
    rewrite (ibitmap_ptr x L) by exact Hg. change (bitmap_get (x_image x) (region_base x (RInodeBitmap (igroup x n))) (iindex x n)) with (inode_used x n).
    destruct (inode_used x n) eqn:Hu; cbn [negb]; [eexists; split; [reflexivity | split; [reflexivity | apply Step; auto]]|].
    destruct (take_inode_ok x n is_dir O Hn Hu) as (m' & -> & T). eexists. split; [reflexivity|]. right. eauto.
  - intros x' (-> & Hs). split; [reflexivity|]. intros n Hn Hv. apply Hs; [|exact Hv].
    unfold inode_valid in Hv. lia.
  - cbn [mbind res_bind]. destruct c as [x' | [r x']].
    + destruct Hc as [-> Hno]. exists 0, x. split; [reflexivity|]. left. auto.
    + exists r, x'. split; [reflexivity | exact Hc].
Qed.

(** ** From one file system to the next *)

(** The two file systems agree on every inode but those of [S]: whether it is
    used, its fields, its blocks and its bytes. *)
Record touched (S : Z -> Prop) (x x' : ext2) : Prop := {
  tc_image : exists m', x' = set_image x m' /\ same_geom x m';
  tc_used : forall k, inode_valid x k -> ~ S k -> inode_used x' k = inode_used x k;
  tc_disk : forall k, inode_valid x k -> ~ S k -> disk x' k = disk x k;
  tc_blocks : forall k q, inode_valid x k -> ~ S k -> 0 <= q -> block_id_at x' (disk x' k) q = block_id_at x (disk x k) q;
  tc_bytes : forall k p, inode_valid x k -> ~ S k -> 0 <= p -> file_byte x' (disk x' k) p = file_byte x (disk x k) p
}.

Lemma touched_refl S x : touched S x x.
Proof. split; auto. exists (x_image x). rewrite set_image_id. split; [reflexivity | intros a _; reflexivity]. Qed.

Lemma touched_weaken (S S' : Z -> Prop) x x' : (forall k, S k -> S' k) -> touched S x x' -> touched S' x x'.
Proof. intros H [I U D B C]. split; auto. Qed.

Lemma touched_valid S x x' k : touched S x x' -> inode_valid x' k <-> inode_valid x k.
Proof. intros [(m' & -> & G) _ _ _ _]. apply frame_inode_valid. exact G. Qed.

Lemma touched_bs S x x' : touched S x x' -> x_block_size x' = x_block_size x.
Proof. intros [(m' & -> & _) _ _ _ _]. reflexivity. Qed.

Lemma touched_trans S x x1 x2 : touched S x x1 -> touched S x1 x2 -> touched S x x2.
Proof.
  intros T1 T2. assert (Hv : forall k, inode_valid x k -> inode_valid x1 k) by (intros k; apply (touched_valid S x x1 k T1)).
  destruct T1 as [(m1 & -> & G1) U1 D1 B1 C1], T2 as [(m2 & -> & G2) U2 D2 B2 C2]. split.
  - exists m2. split; [reflexivity | exact (same_geom_trans x m1 m2 G1 G2)].
  - intros k Hk Hs. rewrite U2, U1 by auto. reflexivity.
  - intros k Hk Hs. rewrite D2, D1 by auto. reflexivity.
  - intros k q Hk Hs Hq. rewrite B2, B1 by auto. reflexivity.
  - intros k p Hk Hs Hp. rewrite C2, C1 by auto. reflexivity.
Qed.

Lemma changed_used P n x x' k : layout x -> changed P n x x' -> inode_valid x k -> inode_used x' k = inode_used x k.
Proof.
  intros L C Hk. destruct (ch_image _ _ _ _ C) as (m' & E & G). pose proof (ch_bitmap _ _ _ _ C) as Bm. rewrite E in *.
  apply same_ibitmap_used; auto. intros a Ha. apply (Bm (igroup x k)); [exact (igroup_range x L k Hk) | exact Ha].
Qed.

Lemma changed_touched P n x x' : layout x -> changed P n x x' -> touched (eq n) x x'.
Proof.
  intros L C. split.
  - exact (ch_image _ _ _ _ C).
  - intros k Hk _. exact (changed_used P n x x' k L C Hk).
  - intros k Hk Hne. apply (ch_other _ _ _ _ C k Hk). congruence.
  - intros k q Hk Hne. apply (ch_blocks _ _ _ _ C k q Hk). congruence.
  - intros k p Hk Hne Hp. apply (ch_bytes _ _ _ _ C k p Hk Hp). congruence.
Qed.

(** A step that changes the inode [n], the bitmap of the inodes of its group
    and the counters. *)
Section InodeStep.
Context (x : ext2) (V : itable) (n : Z) (m' : mem) (O : owned x V) (Hn : inode_valid x n).
Context (O' : ext2_ok (set_image x m')) (G : same_geom x m').
Context (F : forall a, ~ inode_counter x a -> ~ in_region x (RInodeBitmap (igroup x n)) a ->
               ~ inode_pos x n <= a < inode_pos x n + sizeof_inode -> u8 (m' a) = u8 (x_image x a)).
Abbreviation x' := (set_image x m').

Lemma step_block_kept b : data_block x b -> block_kept x m' b.
Proof.
  intros D a Ha. pose proof (owned_layout x _ O) as L. apply F.
  - intros [Hc | (g & Hg & Hc)].
    + revert Ha. apply (region_not_block x RSuper b a D I). replace a with (1024 + (a - 1024)) by lia. apply super_in_region. lia.
    + revert Ha. apply (region_not_block x RDesc b a D I).
      replace a with (desc_off x g + (a - desc_off x g)) by lia. apply desc_in_region; lia.
  - intros Hc. revert Ha. exact (region_not_block x (RInodeBitmap (igroup x n)) b a D (igroup_range x L n Hn) Hc).
  - intros Hc. revert Ha. exact (inode_not_block x n b a L D Hn Hc).
Qed.

Lemma step_used b : block_valid x b -> block_used x' b = block_used x b.
Proof.
  intros Hb. pose proof (owned_layout x _ O) as L. apply same_bitmap_used; auto. intros g a Hg Ha. apply F.
  - apply (bitmap_not_counter x (RBlockBitmap g)); auto; discriminate.
  - intros Hc. pose proof (region_unique x L (RBlockBitmap g) (RInodeBitmap (igroup x n)) a Hg (igroup_range x L n Hn) Ha Hc) as E. discriminate E.
  - intros Hc. apply (inode_not_meta x L n a Hn Hc). right. right. eauto.
Qed.

Lemma step_stable : stable x V m'.
Proof.
  split; auto.
  - intros k s Hs Hz. destruct (ow_block x _ O k s Hs Hz) as (Hv & Hu & _). rewrite step_used by exact Hv. exact Hu.
  - intros k Hk Hz. pose proof (n_slots_range x (owned_layout x _ O)).
    destruct (ow_block x _ O k 12 (conj Hk (conj (Zle_0_pos 12) H)) Hz) as (_ & _ & D). exact (step_block_kept _ D).
Qed.

Lemma step_disk k : inode_valid x k -> k <> n -> disk x' k = disk x k.
Proof.
  intros Hk Hne. pose proof (owned_layout x _ O) as L. unfold disk. rewrite (frame_inode_pos x m' k L G Hk).
  apply inode_at_ext. intros a Ha. apply F.
  - exact (inode_not_counter x k a L Hk Ha).
  - exact (inode_not_ibitmap x k _ a L Hk (igroup_range x L n Hn) Ha).
  - intros Hc. exact (inode_disjoint x L k n a Hk Hn Hne Ha Hc).
Qed.

Lemma step_bytes k p : inode_valid x k -> 0 <= p -> file_byte x' (V k) p = file_byte x (V k) p.
Proof.
  intros Hk Hp. apply (stable_byte x V m' O step_stable k p Hk Hp). cbv zeta. intros Hs Hz Hin.
  destruct (ow_block x _ O k _ Hs Hz) as (_ & _ & D). exact (step_block_kept _ D _ Hin).
Qed.

End InodeStep.

(** When it is done to the image alone. *)
Section DiskStep.
Context (x : ext2) (n : Z) (m' : mem) (O : owned x (disk x)) (Hn : inode_valid x n).
Context (O' : ext2_ok (set_image x m')) (G : same_geom x m').
Context (F : forall a, ~ inode_counter x a -> ~ in_region x (RInodeBitmap (igroup x n)) a ->
               ~ inode_pos x n <= a < inode_pos x n + sizeof_inode -> u8 (m' a) = u8 (x_image x a)).
Abbreviation x' := (set_image x m').
Abbreviation same_disk := (step_disk x (disk x) n m' O Hn G F).
Abbreviation same_stable := (step_stable x (disk x) n m' O Hn O' G F).

Lemma step_touched :
  (forall k, inode_valid x k -> k <> n -> inode_used x' k = inode_used x k) -> touched (eq n) x x'.
Proof.
  intros U. split.
  - exists m'. auto.
  - intros k Hk Hne. apply U; congruence.
  - intros k Hk Hne. apply same_disk; congruence.
  - intros k q Hk Hne Hq. rewrite same_disk by congruence. exact (stable_block_id x _ m' O same_stable k q Hk Hq).
  - intros k p Hk Hne Hp. rewrite same_disk by congruence. exact (step_bytes x (disk x) n m' O Hn O' G F k p Hk Hp).
Qed.

(** The inode [n] may only lose blocks. *)
Lemma step_owned :
  (forall s, slot_of x n s -> slot x' (disk x' n) s = 0 \/ slot x' (disk x' n) s = slot x' (disk x n) s) -> owned x' (disk x').
Proof.
  intros S. apply (owned_sub x' (disk x') (disk x)).
  - exact (stable_owned x _ m' O same_stable).
  - intros k _. apply disk_wf.
  - intros k s Hs. apply (frame_slot_of x m' k s G) in Hs. destruct (Z.eq_dec k n) as [->|Hne]; [exact (S s Hs)|].
    right. rewrite same_disk by (auto; apply Hs). reflexivity.
Qed.
End DiskStep.

Lemma used_others x n used m' :
  (forall k, inode_valid x k -> inode_used (set_image x m') k = if k =? n then used else inode_used x k) ->
  forall k, inode_valid x k -> k <> n -> inode_used (set_image x m') k = inode_used x k.
Proof. intros U k Hk Hne. rewrite U by exact Hk. destruct (Z.eqb_spec k n); [contradiction | reflexivity]. Qed.

Lemma zero_slot x s : slot x zero_inode s = 0.
Proof.
  unfold slot. assert (Z : forall k, i_block_at zero_inode k = 0) by (intros k; exact (nth_repeat 0 15 (Z.to_nat k))).
  rewrite !Z. destruct (s <=? 12); reflexivity.
Qed.

Lemma inode_taken_step x n m' :
  owned x (disk x) -> inode_taken x n m' ->
  owned (set_image x m') (disk (set_image x m')) /\ touched (eq n) x (set_image x m') /\ disk (set_image x m') n = zero_inode.
Proof.
  intros O [Hn _ O' G U E F].
  pose proof (used_others x n _ m' U) as U'.
  assert (D : disk (set_image x m') n = zero_inode).
  { unfold disk. rewrite (frame_inode_pos x m' n (owned_layout x _ O) G Hn). exact E. }
  split; [|split; [exact (step_touched x n m' O Hn O' G F U') | exact D]].
  apply (step_owned x n m' O Hn O' G F). intros s _. rewrite D. left. apply zero_slot.
Qed.

Lemma inode_marked_step x n used m' :
  owned x (disk x) -> inode_valid x n -> inode_marked x n used m' ->
  owned (set_image x m') (disk (set_image x m')) /\ touched (eq n) x (set_image x m') /\ disk (set_image x m') n = disk x n.
Proof.
  intros O Hn [O' G U F].
  assert (F' : forall a, ~ inode_counter x a -> ~ in_region x (RInodeBitmap (igroup x n)) a ->
                 ~ inode_pos x n <= a < inode_pos x n + sizeof_inode -> u8 (m' a) = u8 (x_image x a)) by auto.
  pose proof (used_others x n _ m' U) as U'.
  assert (D : disk (set_image x m') n = disk x n).
  { pose proof (owned_layout x _ O) as L. unfold disk. rewrite (frame_inode_pos x m' n L G Hn). apply inode_at_ext. intros a Ha.
    apply F; [exact (inode_not_counter x n a L Hn Ha) | exact (inode_not_ibitmap x n _ a L Hn (igroup_range x L n Hn) Ha)]. }
  split; [|split; [exact (step_touched x n m' O Hn O' G F' U') | exact D]].
  apply (step_owned x n m' O Hn O' G F'). intros s _. right. rewrite D. reflexivity.
Qed.

Lemma inode_marked_free x n used m' :
  layout x -> inode_valid x n -> inode_marked x n used m' -> sb_free_blocks_count m' = sb_free_blocks_count (x_image x).
Proof.
  intros L Hn [_ _ _ F]. apply load_ext. unfold EXT2_SUPERBLOCK_OFFSET. intros a Ha. apply F; [apply super_not_counter; [exact L | lia]|].
  intros Hc. assert (Hs : in_region x RSuper a) by (replace a with (1024 + (a - 1024)) by lia; apply super_in_region; lia).
  pose proof (region_unique x L RSuper (RInodeBitmap (igroup x n)) a I (igroup_range x L n Hn) Hs Hc) as E. discriminate E.
Qed.

Lemma inode_marked_blocks x n used m' : ext2_ok x -> inode_valid x n -> inode_marked x n used m' -> same_blocks x (set_image x m').
Proof.
  intros O Hn [_ _ _ F] b Hb. apply (counters_used x m' O); [|exact Hb]. intros a Hm Ha.
  exact (F a Ha (meta_not_ibitmap x (ok_layout x O) n Hn a Hm)).
Qed.

(** ** Writing an inode that the code holds *)

(** Only the inode itself matters where every byte of it may change. *)
Lemma moved_relabel n x V x' i i' j j' :
  moved (fun _ => True) n x (with_inode V n i) x' (with_inode V n i') -> i_mode j' = i_mode j ->
  moved (fun _ => True) n x (with_inode V n j) x' (with_inode V n j').
Proof.
  intros [Im Tb _ _ Sl By] Em. split; auto.
  - intros k Hk. rewrite !with_inode_other by exact Hk. reflexivity.
  - rewrite !with_inode_same. exact Em.
  - intros k s Hk Hs. specialize (Sl k s Hk Hs). rewrite !with_inode_other in * by exact Hk. exact Sl.
  - intros k p Hk Hp Hn. destruct (Z.eq_dec k n) as [->|Hne]; [destruct (Hn eq_refl I)|].
    specialize (By k p Hk Hp Hn). rewrite !with_inode_other in * by exact Hne. exact By.
Qed.

Lemma moved_used P n x V x' V' j : layout x -> moved P n x V x' V' -> inode_valid x j -> inode_used x' j = inode_used x j.
Proof.
  intros L K Hj. destruct (mv_image _ _ _ _ _ _ K) as (m' & E & G). pose proof (mv_table _ _ _ _ _ _ K) as Mt. rewrite E in *.
  apply same_ibitmap_used; auto. intros a Ha. apply (Mt a). right. exists (igroup x j). split; [exact (igroup_range x L j Hj) | exact Ha].
Qed.

(** From [x], where the code holds [i0] for the inode [k], to [x2], where it
    holds [i], and then a change of that inode, its bit and the counters. *)
Section HeldStep.
Context (x : ext2) (k : Z) (Hk : inode_valid x k) (i0 i : ext2_inode).
Abbreviation T i := (with_inode (disk x) k i).
Context (O0 : owned x (T i0)) (x2 : ext2) (O2 : owned x2 (T i)) (K : moved (fun _ => True) k x (T i0) x2 (T i)).

Lemma held_valid j : inode_valid x2 j <-> inode_valid x j.
Proof. destruct (mv_image _ _ _ _ _ _ K) as (m2 & E & G2). rewrite E. apply frame_inode_valid. exact G2. Qed.

Context (m3 : mem) (O3 : ext2_ok (set_image x2 m3)) (G3 : same_geom x2 m3).
Context (F : forall a, ~ inode_counter x2 a -> ~ in_region x2 (RInodeBitmap (igroup x2 k)) a ->
               ~ inode_pos x2 k <= a < inode_pos x2 k + sizeof_inode -> u8 (m3 a) = u8 (x_image x2 a)).
Abbreviation x3 := (set_image x2 m3).
Abbreviation Hk2 := (proj2 (held_valid k) Hk).

Lemma held_disk j : inode_valid x j -> j <> k -> disk x3 j = disk x j.
Proof.
  intros Hj Hne. rewrite (step_disk x2 _ k m3 O2 Hk2 G3 F j (proj2 (held_valid j) Hj) Hne).
  exact (moved_disk _ _ x x2 _ _ j (owned_layout x _ O0) K Hj).
Qed.

Lemma held_touched :
  (forall j, inode_valid x2 j -> j <> k -> inode_used x3 j = inode_used x2 j) -> touched (eq k) x x3.
Proof.
  intros U. pose proof (owned_layout x _ O0) as L. pose proof (step_stable x2 _ k m3 O2 Hk2 O3 G3 F) as St.
  destruct (mv_image _ _ _ _ _ _ K) as (m2 & Ex2 & G2).
  assert (Dn : forall j, inode_valid x j -> k <> j -> disk x3 j = disk x j) by (intros j Hj Hne; apply held_disk; congruence).
  split; auto.
  - exists m3. rewrite Ex2. split; [reflexivity|]. apply (same_geom_trans x m2 m3 G2). rewrite <- Ex2. exact G3.
  - intros j Hj Hne. rewrite U by (first [apply held_valid; exact Hj | congruence]).
    exact (moved_used _ _ _ _ _ _ j L K Hj).
  - intros j q Hj Hne Hq. rewrite (Dn j Hj Hne). pose proof (stable_block_id x2 _ m3 O2 St j q (proj2 (held_valid j) Hj) Hq) as Eb.
    rewrite with_inode_other in Eb by congruence. rewrite Eb.
    pose proof (moved_block_id _ _ _ _ _ _ j q O0 O2 K Hj ltac:(congruence) Hq) as Em. rewrite !with_inode_other in Em by congruence. exact Em.
  - intros j p Hj Hne Hp. rewrite (Dn j Hj Hne). pose proof (step_bytes x2 _ k m3 O2 Hk2 O3 G3 F j p (proj2 (held_valid j) Hj) Hp) as Eb.
    rewrite with_inode_other in Eb by congruence. rewrite Eb.
    pose proof (mv_bytes _ _ _ _ _ _ K j p Hj Hp) as Em. rewrite !with_inode_other in Em by congruence. apply Em. congruence.
Qed.

Lemma held_owned : disk x3 k = i -> owned x3 (disk x3).
Proof.
  intros D. pose proof (step_stable x2 _ k m3 O2 Hk2 O3 G3 F) as St.
  apply (owned_ext x3 (T i)); [exact (stable_owned x2 _ m3 O2 St)|]. intros j Hj. apply (frame_inode_valid x2 m3 j G3), held_valid in Hj.
  destruct (Z.eq_dec j k) as [->|Hne]; [rewrite with_inode_same; exact D | rewrite with_inode_other by exact Hne; apply held_disk; assumption].
Qed.

Lemma held_byte p : 0 <= p -> file_byte x3 i p = file_byte x2 i p.
Proof. intros Hp. pose proof (step_bytes x2 _ k m3 O2 Hk2 O3 G3 F k p Hk2 Hp) as E. rewrite !with_inode_same in E. exact E. Qed.
End HeldStep.

(** Writing the inode that the code holds to the image, of any mode. *)
Lemma held_write_ok x k i0 i x2 :
  inode_valid x k -> owned x (with_inode (disk x) k i0) -> owned x2 (with_inode (disk x) k i) ->
  moved (fun _ => True) k x (with_inode (disk x) k i0) x2 (with_inode (disk x) k i) ->
  exists x3, write_inode x2 k i = Ret (true, x3) /\ owned x3 (disk x3) /\ touched (eq k) x x3 /\ disk x3 k = i
  /\ inode_used x3 k = inode_used x2 k /\ (forall p, 0 <= p -> file_byte x3 i p = file_byte x2 i p) /\ same_blocks x2 x3.
Proof.
  intros Hk O0 O2 K. pose proof (owned_layout x2 _ O2) as L2. pose proof (proj2 (held_valid x k i0 i x2 K k) Hk) as Hk2.
  pose proof (ow_wf x2 _ O2 k Hk2) as W. rewrite with_inode_same in W.
  destruct (write_inode_ok x2 k i (ow_ok x2 _ O2) W Hk2) as (m3 & E & Ei & F & Meta).
  pose proof (keep_geom x2 m3 Meta) as G3. pose proof (keep_ok x2 m3 Meta (ow_ok x2 _ O2)) as O3.
  assert (F' : forall a, ~ inode_counter x2 a -> ~ in_region x2 (RInodeBitmap (igroup x2 k)) a ->
                 ~ inode_pos x2 k <= a < inode_pos x2 k + sizeof_inode -> u8 (m3 a) = u8 (x_image x2 a)) by auto.
  assert (D : disk (set_image x2 m3) k = i) by (unfold disk; rewrite (frame_inode_pos x2 m3 k L2 G3 Hk2); exact Ei).
  assert (U : forall j, inode_valid x2 j -> inode_used (set_image x2 m3) j = inode_used x2 j).
  { intros j Hj. apply same_ibitmap_used; auto. intros a Ha. apply F. intros Hc.
    exact (inode_not_ibitmap x2 k (igroup x2 j) a L2 Hk2 (igroup_range x2 L2 j Hj) Hc Ha). }
  exists (set_image x2 m3). split; [exact E|]. split; [exact (held_owned x k Hk i0 i O0 x2 O2 K m3 O3 G3 F' D)|].
  split; [exact (held_touched x k Hk i0 i O0 x2 O2 K m3 O3 G3 F' (fun j Hj _ => U j Hj))|]. split; [exact D|].
  split; [exact (U k Hk2)|]. split; [|intros b Hb; exact (keep_used x2 m3 Meta (ow_ok x2 _ O2) b Hb)].
  intros p Hp. exact (held_byte x k Hk i0 i x2 O2 K m3 O3 G3 F' p Hp).
Qed.

(** A step for nobody's sake: no inode and no file has changed. *)
Lemma idle_step x x' :
  owned x (disk x) -> owned x' (disk x) -> (forall n, kept (fun _ => False) n x (disk x) x' (disk x)) ->
  owned x' (disk x') /\ touched (fun _ => False) x x'.
Proof.
  intros O O' K. pose proof (owned_layout x _ O) as L. destruct (kp_image _ _ _ _ _ _ (K 0)) as (m' & Ex & G).
  assert (D : forall k, inode_valid x k -> disk x' k = disk x k) by (intros k Hk; exact (moved_disk _ _ x x' _ _ k L (kp_moved _ _ _ _ _ _ (K 0)) Hk)).
  split.
  - apply (owned_ext x' (disk x) _ O'). intros k Hk. apply D. rewrite Ex in Hk. apply (frame_inode_valid x m' k G). exact Hk.
  - split; [eauto | | auto | |].
    + intros k Hk _. exact (moved_used _ _ _ _ _ _ k L (kp_moved _ _ _ _ _ _ (K 0)) Hk).
    + intros k q Hk _ Hq. rewrite (D k Hk). exact (moved_block_id _ _ _ _ _ _ k q O O' (kp_moved _ _ _ _ _ _ (K (k + 1))) Hk ltac:(lia) Hq).
    + intros k p Hk _ Hp. rewrite (D k Hk). apply (kp_bytes _ _ _ _ _ _ (K 0) k p Hk Hp). tauto.
Qed.
