(* ===== verification/Ext2Names.v ===== *)
(** * Entries of ext2 directories: what [add_dir_entry] does to them

    The bytes of one block of a directory as the list of its records, the
    insertion of a record into it, and [add_dir_entry] on a whole directory. *)

From S2P Require Import Prelude Klog Pmm Vmm Pages Heap Fs Elf Keyboard Process Scheduler Kernel Syscall PathProofs.
From S2P Require Import Ext2Image Ext2Codec Ext2Layout Ext2Alloc Ext2 Ext2Ops Ext2Sample Ext2Proofs Ext2Dir Ext2Own Ext2Link Ext2Write Ext2Files.

(** ** The records of a block *)

(** The records from [pos] on fill the block up to its last seven bytes. *)
Inductive parses (m : mem) (limit : Z) : Z -> list dir_entry -> Prop :=
  | parses_end pos : limit < pos + 8 -> parses m limit pos []
  | parses_entry pos es :
      pos + 8 <= limit -> 8 + de_name_len m pos <= de_rec_len m pos -> pos + de_rec_len m pos <= limit ->
      parses m limit (pos + de_rec_len m pos) es -> parses m limit pos (entry_at m pos :: es).

Lemma name_len_range m p : 0 <= de_name_len m p < 256.
Proof. exact (load_range 1 m (p + 6)). Qed.

Lemma parse_block_sound fuel : forall m limit pos es, parse_block fuel m limit pos = Some es -> parses m limit pos es.
Proof.
  induction fuel as [|fuel IH]; intros m limit pos es; cbn [parse_block]; destruct (Z.leb_spec (pos + 8) limit);
    try discriminate; try (intros [= <-]; apply parses_end; lia).
  destruct (_ || _) eqn:E; [discriminate|]. b2p.
  destruct (parse_block fuel m limit (pos + de_rec_len m pos)) as [es'|] eqn:Ep; cbn [mbind option_bind]; [|discriminate].
  intros [= <-]. apply parses_entry; auto; lia.
Qed.

Lemma parse_block_complete m limit pos es :
  parses m limit pos es -> forall fuel, limit - pos < 8 * Z.of_nat fuel + 8 -> parse_block fuel m limit pos = Some es.
Proof.
  induction 1 as [pos Hend | pos es Hpos Hlen Hlim _ IH]; intros fuel Hf.
  - destruct fuel; cbn [parse_block]; destruct (Z.leb_spec (pos + 8) limit); lia || reflexivity.
  - pose proof (name_len_range m pos). destruct fuel as [|fuel]; cbn [parse_block]; destruct (Z.leb_spec (pos + 8) limit); try lia.
    destruct (Z.ltb_spec (de_rec_len m pos) (8 + de_name_len m pos)); [lia|].
    destruct (Z.ltb_spec limit (pos + de_rec_len m pos)); [lia|]. cbn [orb]. rewrite IH by lia. reflexivity.
Qed.

(** The list depends on the bytes of the block from [pos] on only. *)
Lemma parses_ext m m' limit pos es :
  parses m limit pos es -> (forall a, pos <= a < limit -> u8 (m' a) = u8 (m a)) -> parses m' limit pos es.
Proof.
  induction 1 as [pos Hend | pos es Hpos Hlen Hlim _ IH]; intros Hm; [apply parses_end; assumption|].
  pose proof (name_len_range m pos) as Hn.
  destruct (entry_at_ext m m' pos (de_rec_len m pos) Hlen) as (Ee & Er & En); [intros a Ha; apply Hm; lia|].
  rewrite <- Ee. apply parses_entry; rewrite ?En, ?Er; auto. apply IH. intros a Ha. apply Hm. lia.
Qed.

Lemma parses_zero m limit pos es : (forall a, pos <= a < pos + 8 -> u8 (m a) = 0) -> pos + 8 <= limit -> ~ parses m limit pos es.
Proof.
  intros Hz Hp H. destruct H as [pos Hend | pos es _ Hlen _ _]; [lia|]. pose proof (name_len_range m pos).
  assert (E : de_rec_len m pos = load 2 (fun _ => 0) (pos + 4)) by (apply load_ext; intros a Ha; rewrite Hz by lia; reflexivity).
  change (de_rec_len m pos = 0) in E. lia.
Qed.

(** ** Filling in an entry *)

Lemma min_len_range n : 0 <= n <= EXT2_NAME_LEN -> 8 + n <= dir_entry_min_len n <= n + 11.
Proof.
  intros Hn. assert (H : forallb (fun n => (8 + n <=? dir_entry_min_len n) && (dir_entry_min_len n <=? n + 11)) (seqZ 0 256) = true)
    by (vm_compute; reflexivity).
  rewrite forallb_forall in H. specialize (H n). rewrite In_seqZ in H. unfold EXT2_NAME_LEN in Hn. specialize (H ltac:(lia)). lia.
Qed.

(** A name that an entry can hold. *)
Record good_name (name : list Z) : Prop := {
  gn_bytes : Forall is_byte name;
  gn_length : 1 <= Z.of_nat (length name) <= EXT2_NAME_LEN
}.

Section Put.
Context (child : Z) (name : list Z) (file_type : Z).
Context (Hchild : is_u32 child) (Hname : good_name name) (Htype : is_byte file_type).
Abbreviation new := (mk_entry child file_type name).
Abbreviation len := (Z.of_nat (length name)).

Lemma put_entry_ok m p :
  let m' := put_entry m p child name file_type in
  entry_at m' p = new /\ de_name_len m' p = len /\ de_rec_len m' p = de_rec_len m p
  /\ forall a, ~ (p <= a < p + 8 + len) -> m' a = m a.
Proof.
  cbv zeta. destruct Hname as [Hb Hl]. unfold EXT2_NAME_LEN in Hl. unfold put_entry. set (m1 := store8 _ (p + 7) _).
  assert (Rest : forall w k, 0 <= k -> k + Z.of_nat w <= 8 -> load w (mem_write m1 (p + 8) name) (p + k) = load w m1 (p + k)).
  { intros w k H1 H2. apply load_ext. intros a Ha. rewrite mem_write_out by lia. reflexivity. }
  assert (Ei : load32 m1 p = child).
  { unfold m1. rewrite !load_store_disj by lia. rewrite load_store_eq. apply Z.mod_small. exact Hchild. }
  assert (El : load8 m1 (p + 6) = len).
  { unfold m1. rewrite load_store_disj by lia. rewrite load_store_eq. apply Z.mod_small. lia. }
  assert (Et : load8 m1 (p + 7) = file_type).
  { unfold m1. rewrite load_store_eq. apply Z.mod_small. exact Htype. }
  assert (Er : load16 m1 (p + 4) = load16 m (p + 4)) by (unfold m1; rewrite !load_store_disj by lia; reflexivity).
  assert (En : de_name_len (mem_write m1 (p + 8) name) p = len) by (unfold de_name_len; rewrite Rest by lia; exact El).
  split; [|split; [exact En | split; [unfold de_rec_len; rewrite Rest by lia; exact Er|]]].
  - unfold entry_at. rewrite En. f_equal.
    + unfold de_inode. pose proof (Rest 4%nat 0 ltac:(lia) ltac:(lia)) as R. rewrite Z.add_0_r in R. rewrite R. exact Ei.
    + unfold de_file_type. rewrite Rest by lia. exact Et.
    + unfold de_name. rewrite Nat2Z.id. apply mem_read_write_eq; [exact Hb | reflexivity].
  - intros a Ha. rewrite mem_write_out by lia. unfold m1. rewrite !store_out by lia. reflexivity.
Qed.

(** ** Inserting into a record with room *)

(** [es'] is [es] with the new entry put in somewhere, perhaps in the place of an unused one. *)
Definition inserted (es es' : list dir_entry) : Prop :=
  exists a o b, es = a ++ o ++ b /\ es' = a ++ new :: b /\ Forall (fun u => en_inode u = 0) o.

Lemma inserted_app l r es es' : inserted es es' -> inserted (l ++ es ++ r) (l ++ es' ++ r).
Proof.
  intros (a & o & b & -> & -> & Ho). exists (l ++ a), o, (b ++ r). rewrite <- !app_assoc. auto.
Qed.

Lemma inserted_cons e es es' : inserted es es' -> inserted (e :: es) (e :: es').
Proof. intros H. pose proof (inserted_app [e] [] es es' H) as H'. rewrite !app_nil_r in H'. exact H'. Qed.

Definition actual_len (m : mem) (p : Z) : Z := if negb (de_inode m p =? 0) then dir_entry_min_len (de_name_len m p) else 8.

Lemma insert_used_ok m limit p es :
  let A := dir_entry_min_len (de_name_len m p) in
  de_inode m p <> 0 -> A + dir_entry_min_len len <= de_rec_len m p ->
  p + de_rec_len m p <= limit -> parses m limit (p + de_rec_len m p) es ->
  parses (put_entry (store16 (store16 m (p + 4) A) (p + A + 4) (de_rec_len m p - A)) (p + A) child name file_type) limit p
    (entry_at m p :: new :: es).
Proof.
  cbv zeta. intros Hi Hroom Hlim Hp. pose proof (name_len_range m p) as Hnl. pose proof (gn_length _ Hname) as Hl.
  pose proof (min_len_range (de_name_len m p) ltac:(unfold EXT2_NAME_LEN; lia)) as HA.
  pose proof (min_len_range len ltac:(lia)) as HN. set (A := dir_entry_min_len (de_name_len m p)) in *.
  pose proof (load_range 2 m (p + 4)) as Hrec. change (0 <= de_rec_len m p < 65536) in Hrec.
  set (m1 := store16 (store16 m (p + 4) A) (p + A + 4) (de_rec_len m p - A)).
  destruct (put_entry_ok m1 (p + A)) as (En & Eln & Erec & F).
  set (m' := put_entry m1 (p + A) child name file_type) in *.
  assert (Erec1 : de_rec_len m1 (p + A) = de_rec_len m p - A).
  { unfold de_rec_len, m1. rewrite load_store_eq. apply Z.mod_small. unfold de_rec_len in *. lia. }
  assert (Out : forall a, ~ (p + 4 <= a < p + 6) -> ~ (p + A + 4 <= a < p + A + 6) -> ~ (p + A <= a < p + A + 8 + len) -> m' a = m a).
  { intros a H1 H2 H3. rewrite F by exact H3. unfold m1. rewrite !store_out by lia. reflexivity. }
  assert (Efirst : de_rec_len m' p = A).
  { unfold de_rec_len. transitivity (load16 m1 (p + 4)); [apply load_ext; intros a Ha; rewrite F by lia; reflexivity|].
    unfold m1. rewrite load_store_disj by lia. rewrite load_store_eq. apply Z.mod_small. lia. }
  assert (Eln' : de_name_len m' p = de_name_len m p).
  { apply load_ext. intros a Ha. rewrite Out by lia. reflexivity. }
  assert (Ee : entry_at m' p = entry_at m p).
  { unfold entry_at. rewrite Eln'. unfold de_inode, de_file_type, de_name.
    f_equal; [apply load_ext | apply load_ext | apply mem_read_ext]; intros a Ha; rewrite Out by lia; reflexivity. }
  rewrite <- Ee. apply parses_entry; rewrite ?Efirst, ?Eln'; try lia. rewrite <- En.
  apply parses_entry; rewrite ?Erec, ?Erec1, ?Eln; try lia.
  replace (p + A + (de_rec_len m p - A)) with (p + de_rec_len m p) by lia.
  apply (parses_ext m); [exact Hp|]. intros a Ha. rewrite Out by lia. reflexivity.
Qed.

Lemma insert_unused_ok m limit p es :
  8 + dir_entry_min_len len <= de_rec_len m p ->
  p + de_rec_len m p <= limit -> parses m limit (p + de_rec_len m p) es ->
  parses (put_entry m p child name file_type) limit p (new :: es).
Proof.
  intros Hroom Hlim Hp. pose proof (gn_length _ Hname) as Hl. pose proof (min_len_range len ltac:(lia)) as HN.
  destruct (put_entry_ok m p) as (En & Eln & Erec & F). rewrite <- En.
  apply parses_entry; rewrite ?Erec, ?Eln; try lia. apply (parses_ext m); [exact Hp|]. intros a Ha. rewrite F by lia. reflexivity.
Qed.
End Put.

(** ** The search for room *)

Section Room.
Context (child : Z) (name : list Z) (file_type : Z).
Context (Hchild : is_u32 child) (Hname : good_name name) (Htype : is_byte file_type).
Abbreviation needed := (dir_entry_min_len (Z.of_nat (length name))).
Abbreviation insert m p := (insert_entry m p (actual_len m p) child name file_type).

(** The insertion touches only the record it is made in. *)
Lemma insert_entry_out m p a :
  actual_len m p + needed <= de_rec_len m p -> ~ (p <= a < p + de_rec_len m p) -> insert m p a = m a.
Proof.
  intros Hroom Ha. pose proof (gn_length _ Hname) as Hl. pose proof (min_len_range (Z.of_nat (length name)) ltac:(lia)) as HN.
  pose proof (name_len_range m p) as Hnl. pose proof (min_len_range (de_name_len m p) ltac:(unfold EXT2_NAME_LEN; lia)) as HA.
  unfold insert_entry, actual_len in *. destruct (Z.eqb_spec (de_inode m p) 0); cbn [negb] in *.
  - destruct (put_entry_ok child name file_type Hchild Hname Htype m p) as (_ & _ & _ & F). apply F. lia.
  - match goal with |- put_entry ?m1 ?q _ _ _ a = _ => destruct (put_entry_ok child name file_type Hchild Hname Htype m1 q) as (_ & _ & _ & F) end.
    rewrite F by lia. rewrite !store_out by lia. reflexivity.
Qed.

Lemma insert_entry_ok m limit p es :
  actual_len m p + needed <= de_rec_len m p -> 8 + de_name_len m p <= de_rec_len m p -> p + de_rec_len m p <= limit ->
  parses m limit (p + de_rec_len m p) es ->
  exists es', parses (insert m p) limit p es' /\ inserted child name file_type (entry_at m p :: es) es'.
Proof.
  intros Hroom Hlen Hlim Hp. unfold insert_entry, actual_len in *. destruct (Z.eqb_spec (de_inode m p) 0) as [Hi|Hi]; cbn [negb] in *.
  - exists (mk_entry child file_type name :: es). split; [apply insert_unused_ok; auto|].
    exists [], [entry_at m p], es. repeat constructor. exact Hi.
  - eexists. split; [apply insert_used_ok; eauto|]. exists [entry_at m p], [], es. repeat constructor.
Qed.

(** The body of the loop of [find_room]. *)
Definition room_body (m : mem) (p : Z) (_ : unit) : ctl unit (Z * Z) :=
  let actual := if negb (de_inode m p =? 0) then dir_entry_min_len (de_name_len m p) else 8 in
  if actual + needed <=? de_rec_len m p then Break (p, actual) else Cont tt.

Lemma scan_room_ok m base limit : forall fuel pos es,
  parses m (base + limit) (base + pos) es -> limit - pos < 8 * Z.of_nat fuel + 8 ->
  scan_entries fuel m base limit pos (room_body m) tt = Some (Cont tt)
  \/ exists p es', scan_entries fuel m base limit pos (room_body m) tt = Some (Break (Some (p, actual_len m p)))
     /\ base + pos <= p /\ p + de_rec_len m p <= base + limit /\ actual_len m p + needed <= de_rec_len m p
     /\ parses (insert m p) (base + limit) (base + pos) es' /\ inserted child name file_type es es'.
Proof.
  induction fuel as [|fuel IH]; intros pos es Hp Hf; cbn [scan_entries]; destruct (Z.leb_spec (pos + 8) limit) as [Hpos|]; auto; [lia|].
  inversion Hp as [q Hend Eq Ees|q es0 H8 Hlen Hlim Hrest Eq Ees]; [lia|]. subst q es. pose proof (name_len_range m (base + pos)) as Hnl.
  destruct (Z.ltb_spec (de_rec_len m (base + pos)) 8); [lia|]. destruct (Z.ltb_spec limit (pos + de_rec_len m (base + pos))); [lia|]. cbn [orb].
  unfold room_body at 1 3. fold (actual_len m (base + pos)).
  destruct (Z.leb_spec (actual_len m (base + pos) + needed) (de_rec_len m (base + pos))) as [Hroom|Hfull].
  - right. destruct (insert_entry_ok m (base + limit) (base + pos) es0 Hroom Hlen Hlim Hrest) as (es' & Hes' & Ins).
    exists (base + pos), es'. split; [reflexivity|]. repeat (split; [lia|]). auto.
  - rewrite <- Z.add_assoc in Hrest. destruct (IH (pos + de_rec_len m (base + pos)) es0 Hrest ltac:(lia)) as [E | (p & es' & E & H1 & H2 & H3 & H4 & H5)];
      [left; exact E|]. right. exists p, (entry_at m (base + pos) :: es'). split; [exact E|]. repeat (split; [lia|]).
    split; [|apply inserted_cons; exact H5].
    assert (Out : forall a, base + pos <= a < base + pos + de_rec_len m (base + pos) -> u8 (insert m p a) = u8 (m a))
      by (intros a Ha; rewrite insert_entry_out by lia; reflexivity).
    destruct (entry_at_ext m (insert m p) (base + pos) (de_rec_len m (base + pos)) Hlen Out) as (Ee & Er & En).
    rewrite <- Ee. apply parses_entry; rewrite ?En, ?Er; auto. rewrite <- Z.add_assoc. exact H4.
Qed.
End Room.

(** ** The blocks of a directory *)

(** Block [k] of a file, from address 0 on. *)
Definition file_view (x : ext2) (i : ext2_inode) (k : Z) : mem := fun a => file_byte x i (k * x_block_size x + a).

Lemma parses_shift m b limit pos es : parses (fun a => m (b + a)) limit pos es <-> parses m (b + limit) (b + pos) es.
Proof.
  assert (Ld : forall w a, load w (fun a => m (b + a)) a = load w m (b + a)).
  { intros w a. unfold load, mem_read. f_equal. apply map_ext. intros k. f_equal. f_equal. lia. }
  assert (Er : forall p, de_rec_len (fun a => m (b + a)) p = de_rec_len m (b + p)) by (intros p; unfold de_rec_len; rewrite Ld; f_equal; lia).
  assert (En : forall p, de_name_len (fun a => m (b + a)) p = de_name_len m (b + p)) by (intros p; unfold de_name_len; rewrite Ld; f_equal; lia).
  assert (Ee : forall p, entry_at (fun a => m (b + a)) p = entry_at m (b + p)).
  { intros p. unfold entry_at. rewrite En. unfold de_inode, de_file_type, de_name. rewrite !Ld. f_equal; [f_equal; lia|].
    unfold mem_read. apply map_ext. intros k. do 2 f_equal. lia. }
  split.
  - induction 1 as [pos Hend | pos es H1 H2 H3 _ IH]; [apply parses_end; lia|]. rewrite Er, ?En, ?Ee in *.
    apply parses_entry; try lia. rewrite <- Z.add_assoc. exact IH.
  - remember (b + limit) as lim eqn:El. remember (b + pos) as q eqn:Eq. intros H. revert pos Eq.
    induction H as [q Hend | q es H1 H2 H3 _ IH]; intros pos ->; [apply parses_end; lia|]. rewrite <- Ee.
    apply parses_entry; rewrite ?Er, ?En; try lia. apply IH. lia.
Qed.

Lemma file_byte_range x i p : 0 <= file_byte x i p < 256.
Proof. unfold file_byte. cbv zeta. destruct (_ =? 0); [lia | apply u8_range]. Qed.

Lemma file_view_block x i k a :
  0 < x_block_size x -> 0 <= a < x_block_size x -> block_id_at x i k <> 0 ->
  file_view x i k a = u8 (x_image x (block_id_at x i k * x_block_size x + a)).
Proof.
  intros Hbs Ha Hz. unfold file_view. destruct (offset_in_block (x_block_size x) k 0 a ltac:(lia) ltac:(lia) ltac:(lia)) as [Ed Em].
  rewrite !Z.add_0_r, Z.add_0_l in *. unfold file_byte. cbv zeta. rewrite Ed, Em. destruct (Z.eqb_spec (block_id_at x i k) 0); [contradiction | reflexivity].
Qed.

Lemma file_view_hole x i k a : 0 < x_block_size x -> 0 <= a < x_block_size x -> block_id_at x i k = 0 -> file_view x i k a = 0.
Proof.
  intros Hbs Ha Hz. unfold file_view. destruct (offset_in_block (x_block_size x) k 0 a ltac:(lia) ltac:(lia) ltac:(lia)) as [Ed Em].
  rewrite !Z.add_0_r in *. unfold file_byte. cbv zeta. rewrite Ed, Hz. reflexivity.
Qed.

(** The records of the blocks of a directory. *)
Definition block_lists (x : ext2) (dir : ext2_inode) (n : Z) (ess : list (list dir_entry)) : Prop :=
  length ess = Z.to_nat n
  /\ forall k b, ess !! k = Some b -> parses (file_view x dir (Z.of_nat k)) (x_block_size x) 0 b.

Lemma dir_entries_blocks x dir n es :
  layout x -> 0 <= n -> i_size dir = n * x_block_size x ->
  dir_entries x dir = Some es <-> exists ess, es = concat ess /\ block_lists x dir n ess.
Proof.
  intros L Hn Hs. pose proof (bs_range x L) as Hbs.
  assert (Ek : forall k b, (Z.of_nat k < n) -> block_entries x dir (Z.of_nat k) = Some b
             <-> parses (file_view x dir (Z.of_nat k)) (x_block_size x) 0 b).
  { intros k b Hk. unfold block_entries. replace (Z.min (x_block_size x) (i_size dir - Z.of_nat k * x_block_size x)) with (x_block_size x) by nia.
    assert (Em : forall a, 0 <= a < x_block_size x -> u8 (dir_block_mem x dir (Z.of_nat k) a) = u8 (file_view x dir (Z.of_nat k) a)).
    { intros a Ha. unfold dir_block_mem. replace (Z.min (x_block_size x) (i_size dir - Z.of_nat k * x_block_size x)) with (x_block_size x) by nia.
      rewrite mem_write_in by (unfold file_bytes; rewrite length_map, length_seqZ; lia). f_equal.
      unfold file_bytes, seqZ. rewrite map_map. change (fmap ?f ?l) with (map f l). rewrite nth_map_seq by lia.
      unfold file_view. f_equal. lia. }
    split; intros H.
    - apply parse_block_sound in H. apply (parses_ext _ _ _ _ _ H). intros a Ha. rewrite Em by lia. reflexivity.
    - apply parse_block_complete; [|unfold scan_fuel; pose proof (Z.div_mod (x_block_size x) 8 ltac:(lia)); pose proof (Z.mod_pos_bound (x_block_size x) 8 ltac:(lia)); lia].
      apply (parses_ext _ _ _ _ _ H). intros a Ha. rewrite Em by lia. reflexivity. }
  assert (Ed : dir_blocks x dir = n).
  { unfold dir_blocks. rewrite Hs. symmetry. apply (Z.div_unique _ _ _ (x_block_size x - 1)); lia. }
  unfold dir_entries. rewrite Ed. unfold block_lists.
  assert (M : forall ess, mapM (block_entries x dir) (seqZ 0 n) = Some ess
    <-> length ess = Z.to_nat n /\ forall k b, ess !! k = Some b -> parses (file_view x dir (Z.of_nat k)) (x_block_size x) 0 b).
  { intros ess. rewrite mapM_Some, Forall2_same_length_lookup, length_seqZ. split.
    - intros [Hl H]. split; [congruence|]. intros k b Hb. pose proof (lookup_lt_Some _ _ _ Hb) as Hlt.
      apply Ek; [lia|]. apply (H k); [apply lookup_seqZ; lia | exact Hb].
    - intros [Hl H]. split; [congruence|]. intros k j b Hj Hb. apply lookup_seqZ in Hj as [-> Hlt]. rewrite Z.add_0_l. apply Ek; [lia | exact (H k b Hb)]. }
  destruct (mapM (block_entries x dir) (seqZ 0 n)) as [ess|]; cbn [option_map]; split.
  - intros [= <-]. exists ess. split; [reflexivity | apply M; reflexivity].
  - intros (ess' & -> & H). apply M in H. injection H as ->. reflexivity.
  - discriminate.
  - intros (ess' & -> & H). apply M in H. discriminate H.
Qed.

(** ** [add_dir_entry] *)

(** A directory of [n] whole blocks with the entries [es]. *)
Record dir_sound (x : ext2) (dir : ext2_inode) (n : Z) (es : list dir_entry) : Prop := {
  ds_dir : inode_is_dir dir = true;
  ds_blocks : 1 <= n <= max_blocks x;
  ds_size : i_size dir = n * x_block_size x;
  ds_entries : dir_entries x dir = Some es
}.

(** A block that parses is there. *)
Lemma parsed_block_present x dir n ess k b :
  layout x -> block_lists x dir n ess -> ess !! k = Some b -> block_id_at x dir (Z.of_nat k) <> 0.
Proof.
  intros L [_ Hp] Hb Hz. pose proof (bs_range x L) as Hbs. apply (parses_zero (file_view x dir (Z.of_nat k)) (x_block_size x) 0 b); [|lia | exact (Hp k b Hb)].
  intros a Ha. rewrite file_view_hole by (auto; lia). reflexivity.
Qed.

Lemma block_lists_lookup x dir n ess k : block_lists x dir n ess -> 0 <= k < n -> exists b, ess !! Z.to_nat k = Some b.
Proof.
  intros [Hl _] Hk. destruct (lookup_lt_is_Some_2 ess (Z.to_nat k) ltac:(lia)) as [b Hb]. eauto.
Qed.

(** The records of a block in the image. *)
Lemma block_lists_image x dir n ess k b :
  layout x -> block_lists x dir n ess -> ess !! k = Some b ->
  let base := block_id_at x dir (Z.of_nat k) * x_block_size x in parses (x_image x) (base + x_block_size x) (base + 0) b.
Proof.
  intros L Bl Hb base. pose proof (bs_range x L) as Hbs. pose proof (parsed_block_present x dir n ess k b L Bl Hb) as Hz.
  apply parses_shift. apply (parses_ext _ _ _ _ _ (proj2 Bl k b Hb)). intros a Ha.
  rewrite file_view_block by (auto; lia). symmetry. apply u8_idem.
Qed.

Lemma dir_size_small x n : layout x -> 0 <= n <= max_blocks x -> n * x_block_size x + x_block_size x <= 4294967295.
Proof.
  intros L Hn. pose proof (bs_range x L) as Hbs. assert (n * x_block_size x <= max_blocks x * x_block_size x) by (apply Z.mul_le_mono_nonneg_r; lia).
  unfold max_blocks, EXT2_DIRECT_BLOCKS in *. destruct L as [[E | [E | E]]]; rewrite E in *;
    [change (1024 / 4) with 256 in * | change (2048 / 4) with 512 in * | change (4096 / 4) with 1024 in *]; lia.
Qed.

(** A block past the end of the largest file is refused; the block taken for it is given back. *)
Lemma ensure_full P x V n i q :
  owned x (with_inode V n i) -> inode_valid x n -> max_blocks x <= q ->
  exists x', ensure_file_block x i q = Ret (None, i, x')
  /\ owned x' (with_inode V n i) /\ kept P n x (with_inode V n i) x' (with_inode V n i).
Proof.
  intros O Hn Hq. pose proof (owned_layout x _ O) as L. unfold ensure_file_block. rewrite (block_id_beyond x L) by exact Hq.
  cbn [Z.eqb negb]. destruct (allocate_owned x _ O) as (b & x1 & -> & O1 & K1 & _ & _ & R1). cbn [mbind res_bind].
  destruct (Z.eqb_spec b 0) as [->|Hb].
  { destruct R1 as [-> _]. exists x. split; [reflexivity|]. split; [exact O | apply kept_refl]. }
  destruct (kp_image _ _ _ _ _ _ (K1 P n)) as (m1 & Ex1 & _). unfold max_blocks, EXT2_DIRECT_BLOCKS in Hq.
  pose proof (bs_quarter x L). pose proof (bs_range x L).
  unfold set_block_id_at, EXT2_DIRECT_BLOCKS. destruct (Z.ltb_spec q 12); [lia|].
  replace (x_block_size x1) with (x_block_size x) by (rewrite Ex1; reflexivity).
  destruct (Z.leb_spec (x_block_size x / 4) (q - 12)); [|lia]. cbn [mbind res_bind negb].
  destruct (unmark_quiet x1 _ b O1 (fr_valid _ _ _ R1) (fr_data _ _ _ R1) (fr_unowned _ _ _ R1)) as (m3 & -> & Q3 & _).
  cbn [mbind res_bind]. exists (set_image x1 m3). split; [reflexivity|]. split; [exact (quiet_owned x1 _ m3 O1 Q3)|].
  exact (kept_trans P n _ _ _ _ _ _ L (K1 P n) (quiet_kept P n x1 _ m3 O1 Q3)).
Qed.

Section WriteDir.
Context (x : ext2) (O : owned x (disk x)) (d : Z) (Hd : inode_valid x d).
Abbreviation T i := (with_inode (disk x) d i).
Abbreviation dir := (disk x d).
Abbreviation bs := (x_block_size x).
Abbreviation all := (fun _ : Z => True).

(** Writing the inode after a block of the directory has changed. *)
Lemma write_dir_ok x1 i q m2 dir' :
  owned x1 (T i) -> kept all d x (T dir) x1 (T i) -> 0 <= q -> block_id_at x1 i q <> 0 ->
  i_block dir' = i_block i -> i_mode dir' = i_mode i -> inode_wf dir' ->
  (forall a, ~ in_block x1 (block_id_at x1 i q) a -> u8 (m2 a) = u8 (x_image x1 a)) ->
  let x2 := set_image x1 m2 in
  exists x3, write_inode x2 d dir' = Ret (true, x3) /\ owned x3 (disk x3) /\ disk x3 d = dir' /\ changed all d x x3
  /\ (forall k a, 0 <= k -> k <> q -> 0 <= a < bs -> file_view x3 dir' k a = file_view x1 i k a)
  /\ (forall a, 0 <= a < bs -> file_view x3 dir' q a = u8 (m2 (block_id_at x1 i q * bs + a)))
  /\ same_blocks x1 x3.
Proof.
  intros O1 K1 Hq Hz Eb Emd W' Out x2. pose proof (owned_layout x _ O) as L. pose proof (bs_range x L) as Hbs.
  destruct (kp_image _ _ _ _ _ _ K1) as (m1 & Ex1 & G1).
  assert (Hd1 : inode_valid x1 d) by (rewrite Ex1; apply frame_inode_valid; assumption).
  assert (Ebs : x_block_size x1 = bs) by (rewrite Ex1; reflexivity).
  destruct (block_update_ok (disk x) d (fun p => p / bs = q) x1 i q m2 O1 Hd1 Hq Hz Out) as (O2 & K2 & E2 & B2).
  { intros p Ep Hn. rewrite Ebs in Ep. contradiction. }
  fold x2 in O2, K2, E2, B2.
  assert (M2 : forall a, meta_byte x1 a -> u8 (m2 a) = u8 (x_image x1 a)).
  { pose proof (owned_block_slot x1 _ O1 d q Hd1 Hq) as Sl. rewrite with_inode_same in Sl. destruct (Sl Hz) as (_ & Hs & Es).
    destruct (ow_block x1 _ O1 d _ Hs ltac:(rewrite with_inode_same; congruence)) as (_ & _ & BD). rewrite with_inode_same, <- Es in BD.
    exact (proj1 (block_store_meta x1 m2 _ (owned_layout x1 _ O1) BD Out)). }
  destruct (kp_image _ _ _ _ _ _ K2) as (m2' & Ex2 & G2).
  assert (Hd2 : inode_valid x2 d) by (rewrite Ex2; apply frame_inode_valid; assumption).
  assert (O3 : owned x2 (T dir')) by (apply (owned_fields (disk x) d x2 i); [exact O2 | exact Eb | exact W']).
  assert (K12 : kept all d x (T dir) x2 (T i))
    by (apply (kept_trans all d x _ x1 _ x2 _ L K1); eapply kept_weaken; [|exact K2]; auto).
  pose proof (kept_trans all d x _ x2 _ x2 _ L K12 (kept_fields all (disk x) d x2 i dir' Eb Emd)) as K3.
  destruct (commit_ok all d x Hd x2 dir' O O3 (kp_moved _ _ _ _ _ _ K3)) as (x3 & E & O4 & D & C & B & _ & Sb).
  destruct (ch_image _ _ _ _ C) as (m3 & Ex3 & _).
  exists x3. split; [exact E|]. split; [exact O4|]. split; [exact D|]. split; [exact C|].
  assert (V : forall p, 0 <= p -> file_byte x3 dir' p = file_byte x2 i p).
  { intros p Hp. rewrite B by exact Hp. apply file_byte_blocks. exact Eb. }
  split; [|split].
  - intros k a Hk Hne Ha. unfold file_view. rewrite Ebs. replace (x_block_size x3) with bs by (rewrite Ex3; reflexivity).
    rewrite V by nia. pose proof (kp_bytes _ _ _ _ _ _ K2 d (k * bs + a) Hd1 ltac:(nia)) as Kb. rewrite !with_inode_same in Kb. apply Kb.
    intros _ Ek. apply Hne. rewrite <- Ek. apply (Z.div_unique _ _ _ a); lia.
  - intros a Ha. unfold file_view. replace (x_block_size x3) with bs by (rewrite Ex3; reflexivity). rewrite V by nia.
    destruct (offset_in_block bs q 0 a ltac:(lia) ltac:(lia) ltac:(lia)) as [Ed Em]. rewrite !Z.add_0_r, Z.add_0_l in *.
    rewrite Ebs in B2. rewrite (B2 _ Ed), Em. reflexivity.
  - exact (same_blocks_trans x1 m2 x3 (keep_geom x1 m2 M2) (fun b Hb => keep_used x1 m2 M2 (ow_ok x1 _ O1) b Hb) Sb).
Qed.


Lemma dir_sound_after x3 n' ess :
  changed all d x x3 -> inode_is_dir dir = true -> 1 <= n' <= max_blocks x -> i_size (disk x3 d) = n' * bs ->
  block_lists x3 (disk x3 d) n' ess -> dir_sound x3 (disk x3 d) n' (concat ess).
Proof.
  intros C Hdir Hn Hs Bl. destruct (ch_image _ _ _ _ C) as (m3 & Ex3 & G3). pose proof (owned_layout x _ O) as L.
  assert (L3 : layout x3) by (rewrite Ex3; exact (frame_layout x m3 G3 L)).
  assert (Ebs : x_block_size x3 = bs) by (rewrite Ex3; reflexivity).
  split.
  - unfold inode_is_dir. rewrite (ch_mode _ _ _ _ C). exact Hdir.
  - replace (max_blocks x3) with (max_blocks x) by (rewrite Ex3; reflexivity). exact Hn.
  - rewrite Ebs. exact Hs.
  - apply (dir_entries_blocks x3 (disk x3 d) n' (concat ess) L3); [lia | rewrite Ebs; exact Hs | eauto].
Qed.

End WriteDir.

Section AddEntry.
Context (x : ext2) (O : owned x (disk x)) (d : Z) (Hd : inode_valid x d).
Context (child : Z) (name : list Z) (file_type : Z).
Context (Hchild : is_u32 child) (Hname : good_name name) (Htype : is_byte file_type).
Abbreviation T i := (with_inode (disk x) d i).
Abbreviation dir := (disk x d).
Abbreviation bs := (x_block_size x).
Abbreviation all := (fun _ : Z => True).

(** What [add_dir_entry] comes to. *)
Definition entry_outcome (n : Z) (es : list dir_entry) (ok : bool) (x' : ext2) : Prop :=
  owned x' (disk x') /\ changed all d x x'
  /\ if ok then exists n' es', dir_sound x' (disk x' d) n' es' /\ inserted child name file_type es es'
     else dir_sound x' (disk x' d) n es /\ (n = max_blocks x \/ sb_free_blocks_count (x_image x') <= 1).

(** A record with room was found in block [k]. *)
Lemma entry_into_block n ess k b p es' :
  inode_is_dir dir = true -> 1 <= n <= max_blocks x -> i_size dir = n * bs -> block_lists x dir n ess ->
  0 <= k < n -> ess !! Z.to_nat k = Some b ->
  let m := x_image x in
  let base := block_id_at x dir k * bs in
  base <= p -> p + de_rec_len m p <= base + bs -> actual_len m p + dir_entry_min_len (Z.of_nat (length name)) <= de_rec_len m p ->
  parses (insert_entry m p (actual_len m p) child name file_type) (base + bs) (base + 0) es' -> inserted child name file_type b es' ->
  let x2 := set_image x (insert_entry m p (actual_len m p) child name file_type) in
  exists x3, write_inode x2 d (update_inode_block_count x2 (set_i_size dir (u32 (n * bs)))) = Ret (true, x3)
  /\ entry_outcome n (concat ess) true x3.
Proof.
  intros Hdir Hn Hs Bl Hk Hb m base Hp1 Hp2 Hroom Hes Ins x2. pose proof (owned_layout x _ O) as L. pose proof (bs_range x L) as Hbs.
  pose proof (dir_size_small x n L ltac:(lia)) as Hsm. assert (Hnb : 0 <= n * bs) by nia. rewrite u32_id by lia.
  pose proof (parsed_block_present x dir n ess (Z.to_nat k) b L Bl Hb) as Hz. rewrite Z2Nat.id in Hz by lia.
  destruct (write_dir_ok x O d Hd x dir k (insert_entry m p (actual_len m p) child name file_type)
    (update_inode_block_count x2 (set_i_size dir (n * bs)))) as (x3 & E & O3 & D & C & V & Vk & _).
  - exact (disk_self d x O).
  - apply kept_refl.
  - lia.
  - exact Hz.
  - reflexivity.
  - reflexivity.
  - apply update_count_wf, set_i_size_wf; [apply disk_wf | unfold is_u32; lia].
  - intros a Ha. rewrite insert_entry_out by (auto; unfold in_block in Ha; fold base in Ha; lia). reflexivity.
  - exists x3. split; [exact E|]. split; [exact O3|]. split; [exact C|]. exists n, (concat (<[Z.to_nat k := es']> ess)). split.
    + apply (dir_sound_after x O d); auto; [rewrite D; reflexivity|]. destruct (ch_image _ _ _ _ C) as (m3 & Ex3 & _).
      destruct Bl as [Hl Hp]. split; [rewrite length_insert; exact Hl|]. replace (x_block_size x3) with bs by (rewrite Ex3; reflexivity).
      rewrite D. intros j c Hj. apply list_lookup_insert_Some in Hj as [(<- & <- & _) | (Hne & Hj)].
      * rewrite Z2Nat.id by lia. apply (parses_shift _ base) in Hes. apply (parses_ext _ _ _ _ _ Hes). intros a Ha.
        rewrite (Vk a Ha : file_view x3 _ k a = _). apply u8_idem.
      * apply (parses_ext _ _ _ _ _ (Hp j c Hj)). intros a Ha. rewrite V by lia. reflexivity.
    + rewrite <- (take_drop_middle ess (Z.to_nat k) b Hb) at 1. rewrite insert_take_drop by (apply lookup_lt_Some in Hb; exact Hb).
      rewrite !concat_app. cbn [concat]. apply inserted_app. exact Ins.
Qed.

(** No block has room: a new one. *)
Lemma entry_into_new_block n ess x1 i1 :
  inode_is_dir dir = true -> 1 <= n < max_blocks x -> block_lists x dir n ess ->
  owned x1 (T i1) -> kept (fun _ => False) d x (T dir) x1 (T i1) -> block_id_at x1 i1 n <> 0 ->
  let block := block_id_at x1 i1 n * bs in
  let x2 := set_image x1 (put_entry (store16 (mem_fill (x_image x1) block 0 (Z.to_nat bs)) (block + 4) bs) block child name file_type) in
  exists x3, write_inode x2 d (update_inode_block_count x2 (set_i_size i1 (u32 (u32 (n + 1) * bs)))) = Ret (true, x3)
  /\ entry_outcome n (concat ess) true x3.
Proof.
  intros Hdir Hn Bl O1 K1 Hz block x2. pose proof (owned_layout x _ O) as L. pose proof (bs_range x L) as Hbs.
  pose proof (dir_size_small x (n + 1) L ltac:(lia)) as Hsm. assert (Hnb : 0 <= (n + 1) * bs /\ n + 1 <= (n + 1) * bs) by nia. rewrite !u32_id by (rewrite ?u32_id; lia).
  destruct (kp_image _ _ _ _ _ _ K1) as (m1 & Ex1 & G1).
  assert (Ebs : x_block_size x1 = bs) by (rewrite Ex1; reflexivity).
  pose proof (gn_length _ Hname) as Hl. unfold EXT2_NAME_LEN in Hl.
  set (mz := store16 _ (block + 4) bs) in x2. destruct (put_entry_ok child name file_type Hchild Hname Htype mz block) as (En & Eln & Er & F).
  assert (Er' : de_rec_len mz block = bs) by (unfold de_rec_len, mz; rewrite load_store_eq; apply Z.mod_small; lia).
  rewrite Er' in Er. set (m2 := put_entry mz block child name file_type) in *.
  pose proof (ow_wf x1 _ O1 d ltac:(rewrite Ex1; apply frame_inode_valid; assumption)) as W1. rewrite with_inode_same in W1.
  destruct (write_dir_ok x O d Hd x1 i1 n m2 (update_inode_block_count x2 (set_i_size i1 ((n + 1) * bs)))) as (x3 & E & O3 & D & C & V & Vn & _); auto; try lia.
  - eapply kept_weaken; [|exact K1]. auto.
  - apply update_count_wf, set_i_size_wf; [exact W1 | unfold is_u32; lia].
  - intros a Ha. unfold in_block in Ha. rewrite Ebs in Ha. fold block in Ha. rewrite F by lia. unfold mz. rewrite store_out by lia.
    rewrite mem_fill_out by lia. reflexivity.
  - exists x3. split; [exact E|]. split; [exact O3|]. split; [exact C|]. destruct (ch_image _ _ _ _ C) as (m3 & Ex3 & _).
    exists (n + 1), (concat (ess ++ [[mk_entry child file_type name]])). split.
    + apply (dir_sound_after x O d); auto; [lia | rewrite D; reflexivity|]. destruct Bl as [Hel Hp]. split; [rewrite length_app; cbn [length]; lia|].
      replace (x_block_size x3) with bs by (rewrite Ex3; reflexivity). rewrite D. intros j c Hj.
      assert (Hj' : (j < length ess)%nat /\ ess !! j = Some c \/ Z.of_nat j = n /\ c = [mk_entry child file_type name]).
      { apply lookup_app_Some in Hj as [Hj | [Hge Hj]]; [left; split; [exact (lookup_lt_Some _ _ _ Hj) | exact Hj]|]. right.
        apply list_lookup_singleton_Some in Hj as [Ej <-]. split; [lia | reflexivity]. }
      destruct Hj' as [[Hlt Hj'] | [-> ->]].
      * apply (parses_ext _ _ _ _ _ (Hp j c Hj')). intros a Ha. rewrite V by lia.
        unfold file_view. rewrite Ebs. f_equal. pose proof (kp_bytes _ _ _ _ _ _ K1 d (Z.of_nat j * bs + a) Hd ltac:(nia)) as Kb.
        rewrite !with_inode_same in Kb. apply Kb. tauto.
      * assert (Pn : parses m2 (block + bs) (block + 0) [mk_entry child file_type name]).
        { rewrite Z.add_0_r, <- En. apply parses_entry; rewrite ?Er, ?Eln; try lia. apply parses_end. lia. }
        apply (parses_shift _ block) in Pn. apply (parses_ext _ _ _ _ _ Pn). intros a Ha.
        rewrite (Vn a Ha : file_view x3 _ n a = _). apply u8_idem.
    + rewrite concat_app. cbn [concat]. rewrite app_nil_r. exists (concat ess), [], []. rewrite !app_nil_r. auto.
Qed.

(** The entry could not be added: the directory is as it was. *)
Lemma entry_not_added n es x1 i1 :
  dir_sound x dir n es -> owned x1 (T i1) -> kept (fun _ => False) d x (T dir) x1 (T i1) ->
  n = max_blocks x \/ sb_free_blocks_count (x_image x1) <= 1 -> entry_outcome n es false x1.
Proof.
  intros [Hdir Hn Hs He] O1 K1 R. pose proof (owned_layout x _ O) as L. pose proof (bs_range x L) as Hbs.
  destruct (abandon_ok _ d x Hd x1 i1 O O1 K1) as (O1' & C & D).
  pose proof (changed_weaken _ all _ _ _ (fun _ _ => I) (gr_changed _ _ _ _ C)) as C'. destruct (ch_image _ _ _ _ C') as (m1 & Ex1 & _).
  split; [exact O1'|]. split; [exact C'|]. split; [|exact R]. rewrite D.
  assert (Ebs : x_block_size x1 = bs) by (rewrite Ex1; reflexivity).
  split; auto.
  - replace (max_blocks x1) with (max_blocks x) by (rewrite Ex1; reflexivity). exact Hn.
  - rewrite Ebs. exact Hs.
  - rewrite (dir_entries_ext x x1) by (auto; try lia; intros p Hp;
      pose proof (ch_bytes _ _ _ _ (gr_changed _ _ _ _ C) d p Hd Hp) as Eb; rewrite D in Eb; apply Eb; tauto). exact He.
Qed.

Lemma dir_block_ptr n ess k b :
  block_lists x dir n ess -> ess !! Z.to_nat k = Some b -> 0 <= k ->
  block_id_at x dir k <> 0 /\ block_ptr x (block_id_at x dir k) 0 bs = Some (block_id_at x dir k * bs).
Proof.
  intros Bl Hb Hk. pose proof (owned_layout x _ O) as L. pose proof (bs_range x L) as Hbs.
  pose proof (parsed_block_present x dir n ess (Z.to_nat k) b L Bl Hb) as Hz. rewrite Z2Nat.id in Hz by lia. split; [exact Hz|].
  destruct (owned_block_slot x _ O d k Hd Hk Hz) as (_ & Hs & Es). rewrite Es in *.
  destruct (ow_block x _ O d _ Hs Hz) as (Hv & _). rewrite (block_ptr_valid x L) by (auto; lia). f_equal. lia.
Qed.

Lemma add_dir_entry_ok n es :
  dir_sound x dir n es ->
  exists ok x', add_dir_entry x dir d child name file_type = Ret (ok, x') /\ entry_outcome n es ok x'.
Proof.
  intros Hds. pose proof Hds as [Hdir Hn Hs He]. pose proof (owned_layout x _ O) as L. pose proof (bs_range x L) as Hbs.
  apply (dir_entries_blocks x dir n es L) in He as (ess & -> & Bl); [|lia | exact Hs].
  pose proof (gn_length _ Hname) as Hl. pose proof (dir_size_small x n L ltac:(lia)) as Hsm. assert (Hnb : 0 <= n * bs) by nia.
  unfold add_dir_entry. rewrite Hdir. cbn [negb orb]. destruct (Z.eqb_spec (Z.of_nat (length name)) 0); [lia|].
  destruct (Z.ltb_spec EXT2_NAME_LEN (Z.of_nat (length name))); [lia|]. cbn [orb]. unfold inode_size_bytes. rewrite Hs.
  assert (En : u32 (n * bs + bs - 1) / bs = n).
  { rewrite u32_id by lia. symmetry. apply (Z.div_unique _ _ _ (bs - 1)); lia. }
  rewrite En. destruct (Z.eqb_spec n 0); [lia|]. unfold mrange, trips. replace ((n - 0 + 1 - 1) / 1) with n by (rewrite Z.div_1_r; lia).
  match goal with |- exists ok x', mbind _ (mfor ?turns ?i0 ?s0 ?body ?st) = _ /\ _ =>
    destruct (mfor_ind (fun _ s => s = (dir, x))
      (fun c : ctl (ext2_inode * ext2) (bool * ext2) =>
         match c with Cont s => s = (dir, x) | Break (ok, x') => entry_outcome n (concat ess) ok x' end) turns i0 s0 body st)
      as (c & -> & Hc) end; auto.
  - intros k s Hk ->. replace (0 + k * 1) with k by lia. destruct (block_lists_lookup x dir n ess k Bl ltac:(lia)) as (b & Hb).
    destruct (dir_block_ptr n ess k b Bl Hb ltac:(lia)) as (Hz & Ep).
    unfold ensure_file_block. destruct (Z.eqb_spec (block_id_at x dir k) 0); [contradiction|]. cbn [negb mbind res_bind]. rewrite Ep.
    pose proof (block_lists_image x dir n ess (Z.to_nat k) b L Bl Hb) as Pb. cbv zeta in Pb. rewrite Z2Nat.id in Pb by lia.
    destruct (scan_room_ok child name file_type Hchild Hname Htype (x_image x) (block_id_at x dir k * bs) bs (scan_fuel x) 0 b Pb)
      as [E | (p & es' & E & H1 & H2 & H3 & H4 & H5)].
    + unfold scan_fuel. pose proof (Z.div_mod bs 8 ltac:(lia)). pose proof (Z.mod_pos_bound bs 8 ltac:(lia)). lia.
    + change (find_room x (block_id_at x dir k * bs) (dir_entry_min_len (Z.of_nat (length name))))
        with (scan_entries (scan_fuel x) (x_image x) (block_id_at x dir k * bs) bs 0 (room_body name (x_image x)) tt).
      rewrite E. cbn [of_fuel mbind res_bind]. eexists. split; [reflexivity | reflexivity].
    + change (find_room x (block_id_at x dir k * bs) (dir_entry_min_len (Z.of_nat (length name))))
        with (scan_entries (scan_fuel x) (x_image x) (block_id_at x dir k * bs) bs 0 (room_body name (x_image x)) tt).
      rewrite E. cbn [of_fuel mbind res_bind].
      destruct (entry_into_block n ess k b p es' Hdir Hn Hs Bl ltac:(lia) Hb ltac:(lia) H2 H3 H4 H5) as (x3 & E3 & Out).
      exists (Break (true, x3)). split; [exact (f_equal (fun r => r ≫= fun r => Ret (Break r)) E3) | exact Out].
  - cbn [mbind res_bind]. destruct c as [s | [ok x']]; [subst s | eauto].
    destruct (Z.eq_dec n (max_blocks x)) as [Hmax|Hmax].
    + destruct (ensure_full (fun _ => False) x (disk x) d dir n (disk_self d x O) Hd ltac:(lia)) as (x1 & -> & O1 & K1). cbn [mbind res_bind].
      exists false, x1. split; [reflexivity|]. apply (entry_not_added n _ x1 dir Hds O1 K1). auto.
    + destruct (ensure_ok (fun _ => False) (disk x) d x dir n (disk_self d x O) Hd ltac:(lia)) as (r & i1 & x1 & -> & O1 & K1 & Es1 & R1).
      cbn [mbind res_bind]. destruct r as [blk|]; [|exists false, x1; split; [reflexivity | apply (entry_not_added n _ x1 i1 Hds O1 K1); auto]].
      destruct R1 as [Hb Eb]. rewrite <- Eb in Hb |- *. destruct (kp_image _ _ _ _ _ _ K1) as (m1 & Ex1 & G1).
      assert (Ebs : x_block_size x1 = bs) by (rewrite Ex1; reflexivity).
      assert (Hd1 : inode_valid x1 d) by (rewrite Ex1; apply frame_inode_valid; assumption).
      pose proof (owned_block_slot x1 _ O1 d n Hd1 ltac:(lia)) as Sl. rewrite with_inode_same in Sl. destruct (Sl Hb) as (_ & Ht & Et).
      pose proof (ow_block x1 _ O1 d _ Ht) as Bv. rewrite with_inode_same, <- Et in Bv. destruct (Bv Hb) as (Hv & _).
      rewrite (block_ptr_valid x1 (owned_layout x1 _ O1)) by (auto; lia). rewrite Z.add_0_r, Ebs.
      destruct (entry_into_new_block n ess x1 i1 Hdir ltac:(lia) Bl O1 K1 Hb) as (x3 & E3 & Out).
      exists true, x3. split; [|exact Out]. match goal with |- context [x_block_size (set_image x1 ?m)] =>
        change (x_block_size (set_image x1 m)) with (x_block_size x1) end. rewrite Ebs. exact E3.
Qed.
End AddEntry.
