(* ===== verification/Ext2Tree.v ===== *)
(** * The file system as a tree

    The abstraction of an ext2 image that its users see: a finite map from inode
    numbers to directories, which map names to numbers, and files, which are
    byte strings. A path is resolved in this map alone. *)

From S2P Require Import Prelude Klog Pmm Vmm Pages Heap Fs Elf Keyboard Process Scheduler Kernel Syscall PathProofs.
From S2P Require Import Ext2Image Ext2Codec Ext2Layout Ext2Alloc Ext2 Ext2Ops Ext2Sample Ext2Proofs Ext2Dir Ext2Own Ext2Link Ext2Write Ext2Files.
From S2P Require Import Ext2Inodes Ext2Names.

Inductive node : Type :=
  | Dir (entries : gmap (list Z) Z)
  | File (bytes : list Z)
  | Special.

Abbreviation tree_map := (gmap Z node).

(** ** Paths in a tree *)

Fixpoint resolve (t : tree_map) (path : list (list Z)) (n : Z) : option Z :=
  match path with
  | [] => Some n
  | name :: path =>
      match t !! n with
      | Some (Dir entries) => k ← entries !! name; resolve t path k
      | _ => None
      end
  end.

Definition tree_path (t : tree_map) (path : list Z) : option Z :=
  match path with 47 :: _ => resolve t (names path) EXT2_ROOT_INODE | _ => None end.

Lemma resolve_app t p q : forall n, resolve t (p ++ q) n = (k ← resolve t p n; resolve t q k).
Proof.
  induction p as [|name p IH]; intros n; cbn [app resolve mbind option_bind]; [reflexivity|].
  destruct (t !! n) as [[es | |]|]; try reflexivity. cbn [mbind option_bind]. destruct (es !! name); cbn [mbind option_bind]; [apply IH | reflexivity].
Qed.

(** ** The tree of an image *)

Definition live (x : ext2) (n : Z) : Prop := inode_valid x n /\ inode_used x n = true.

Definition used_entries (es : list dir_entry) : list dir_entry := List.filter (fun e => negb (en_inode e =? 0)) es.

Definition dir_map (es : list dir_entry) : gmap (list Z) Z :=
  list_to_map (map (fun e => (en_name e, en_inode e)) (used_entries es)).

Definition node_at (x : ext2) (n : Z) : node :=
  let i := disk x n in
  if inode_is_dir i then match dir_entries x i with Some es => Dir (dir_map es) | None => Special end
  else if inode_is_file i then File (contents x n) else Special.

Definition node_of (x : ext2) (n : Z) : option node :=
  if (1 <=? n) && (n <=? sb_inodes_count (x_image x)) && inode_used x n then Some (node_at x n) else None.

Definition tree (x : ext2) : tree_map :=
  list_to_map (omap (fun n => pair n <$> node_of x n) (seqZ 1 (sb_inodes_count (x_image x)))).

Lemma omap_nodes_lookup (f : Z -> option node) l n :
  NoDup l -> (list_to_map (omap (fun n => pair n <$> f n) l) : tree_map) !! n = if decide (n ∈ l) then f n else None.
Proof.
  induction 1 as [|b l Hb Hn IH]; [reflexivity|].
  assert (H : (list_to_map (omap (fun n => pair n <$> f n) (b :: l)) : tree_map) !! n
              = if decide (n = b) then f b else (list_to_map (omap (fun n => pair n <$> f n) l) : tree_map) !! n).
  { cbn [omap list_omap]. destruct (f b) as [v|] eqn:Ef; cbn [fmap option_fmap option_map list_to_map foldr].
    - destruct (decide (n = b)) as [->|Hne]; [apply lookup_insert_eq | apply lookup_insert_ne; intros E; apply Hne; symmetry; exact E].
    - destruct (decide (n = b)) as [->|Hne]; [|reflexivity]. refine (eq_trans IH _). destruct (decide (b ∈ l)); [contradiction | reflexivity]. }
  rewrite H, IH. destruct (decide (n = b)) as [->|Hne].
  - rewrite decide_True by (left; reflexivity || apply list_elem_of_here). reflexivity.
  - destruct (decide (n ∈ l)) as [Hi|Hi]; [rewrite decide_True by (apply list_elem_of_further; exact Hi) | rewrite decide_False by (intros Hc; apply elem_of_cons in Hc; tauto)]; reflexivity.
Qed.

Lemma lookup_tree x n : tree x !! n = node_of x n.
Proof.
  unfold tree. rewrite omap_nodes_lookup by apply NoDup_seqZ. unfold node_of. destruct (decide _) as [Hi|Hi]; rewrite elem_of_seqZ in Hi;
    destruct (Z.leb_spec 1 n), (Z.leb_spec n (sb_inodes_count (x_image x))); cbn [andb]; lia || reflexivity.
Qed.

Lemma node_of_live x n : live x n -> node_of x n = Some (node_at x n).
Proof.
  intros [Hn Hu]. unfold node_of, inode_valid in *. destruct (Z.leb_spec 1 n), (Z.leb_spec n (sb_inodes_count (x_image x))); try lia.
  rewrite Hu. reflexivity.
Qed.

Lemma node_of_some x n v : node_of x n = Some v -> live x n /\ v = node_at x n.
Proof.
  unfold node_of, live, inode_valid. destruct (Z.leb_spec 1 n), (Z.leb_spec n (sb_inodes_count (x_image x))); cbn [andb]; try discriminate.
  destruct (inode_used x n); [|discriminate]. intros [= <-]. auto.
Qed.

Lemma node_of_none x n : inode_used x n = false -> node_of x n = None.
Proof. intros H. unfold node_of. rewrite H, andb_false_r. reflexivity. Qed.

(** A name is looked up in the map of its directory. *)
Lemma lookup_dir_map es name : dir_map es !! name = option_map en_inode (lookup_name es name).
Proof.
  unfold dir_map, used_entries, lookup_name. induction es as [|e es IH]; [reflexivity|]. cbn [List.filter List.find].
  destruct (negb (en_inode e =? 0)); cbn [andb]; [|exact IH]. cbn [map list_to_map foldr fst snd].
  destruct (bool_decide_reflect (en_name e = name)) as [->|Hne]; [apply lookup_insert_eq|].
  refine (eq_trans (lookup_insert_ne _ _ _ _ Hne) _). exact IH.
Qed.

(** ** Sound trees *)

(** The names of a directory differ, and name inodes in use. *)
Record entries_ok (x : ext2) (es : list dir_entry) : Prop := {
  eo_names : List.NoDup (map en_name (used_entries es));
  eo_live : forall e, In e (used_entries es) -> live x (en_inode e)
}.

(** A directory of whole blocks, or a file in order, and not both. *)
Record node_ok (x : ext2) (n : Z) : Prop := {
  no_entries : inode_is_dir (disk x n) = true -> exists es, dir_entries x (disk x n) = Some es;
  no_dir : live x n -> inode_is_dir (disk x n) = true -> exists b es, dir_sound x (disk x n) b es /\ entries_ok x es;
  no_kind : live x n -> inode_is_dir (disk x n) = true -> inode_is_file (disk x n) = false;
  no_file : live x n -> inode_is_file (disk x n) = true -> file_ok x (disk x n)
}.

Record tree_ok (x : ext2) : Prop := {
  to_owned : owned x (disk x);
  to_mounted : ext2_mounted x = true;
  to_root : live x EXT2_ROOT_INODE;
  to_nodes : forall n, inode_valid x n -> node_ok x n
}.

Lemma tree_ok_fs x : tree_ok x -> owned_fs x.
Proof. intros [O M _ N]. split; [exact O | exact M | intros n Hn; exact (no_entries x n (N n Hn))]. Qed.

Lemma tree_dir x n es : tree_ok x -> live x n -> dir_entries x (disk x n) = Some es -> inode_is_dir (disk x n) = true -> entries_ok x es.
Proof.
  intros T Hn He Hd. destruct (no_dir x n (to_nodes x T n (proj1 Hn)) Hn Hd) as (b & es' & D & E).
  pose proof (ds_entries _ _ _ _ D) as He'. congruence.
Qed.

(** The inode of an entry in use is in use. *)
Lemma entry_live x n es name e :
  tree_ok x -> live x n -> inode_is_dir (disk x n) = true -> dir_entries x (disk x n) = Some es -> lookup_name es name = Some e ->
  live x (en_inode e).
Proof.
  intros T Hn Hd He Hl. apply (eo_live x es (tree_dir x n es T Hn He Hd)). unfold lookup_name in Hl.
  apply find_some in Hl as [Hi Hb]. apply andb_true_iff in Hb as [Hz _]. apply List.filter_In. auto.
Qed.

(** Walking along names in the image is resolving them in the tree. *)
Lemma walk_resolve x : tree_ok x -> forall p n, live x n ->
  option_map snd (walk x p (disk x n) n) = resolve (tree x) p n
  /\ forall k, resolve (tree x) p n = Some k -> live x k.
Proof.
  intros T. induction p as [|name p IH]; intros n Hn; cbn [walk resolve]; [split; [reflexivity | intros k [= <-]; exact Hn]|].
  rewrite lookup_tree, (node_of_live x n Hn). unfold node_at. destruct (inode_is_dir (disk x n)) eqn:Hd; cbn [negb].
  2: { destruct (inode_is_file (disk x n)); split; try reflexivity; discriminate. }
  destruct (dir_entries x (disk x n)) as [es|] eqn:He; cbn [mbind option_bind]; [|split; [reflexivity | discriminate]].
  rewrite lookup_dir_map. destruct (lookup_name es name) as [e|] eqn:El; cbn [mbind option_bind option_map]; [|split; [reflexivity | discriminate]].
  pose proof (entry_live x n es name e T Hn Hd He El) as Hl. pose proof (proj1 Hl) as Hv.
  assert (En : inode_numbered x (en_inode e) = Some (disk x (en_inode e))) by (apply inode_numbered_valid; auto).
  rewrite En. cbn [mbind option_bind]. exact (IH (en_inode e) Hl).
Qed.

Lemma number_resolve x path : tree_ok x -> number x path = tree_path (tree x) path.
Proof.
  intros T. unfold number, named, tree_path. destruct path as [|c path]; [reflexivity|]. destruct (decide (c = 47)) as [->|Hc].
  - pose proof (to_root x T) as Hr. pose proof (proj1 Hr) as Hv.
    assert (En : inode_numbered x EXT2_ROOT_INODE = Some (disk x EXT2_ROOT_INODE)) by (apply inode_numbered_valid; auto).
    rewrite En. cbn [mbind option_bind]. apply walk_resolve; assumption.
  - destruct c as [|q|q]; try reflexivity. do 6 (destruct q as [q|q|]; try reflexivity). congruence.
Qed.

Lemma tree_path_live x path k : tree_ok x -> tree_path (tree x) path = Some k -> live x k.
Proof.
  intros T. unfold tree_path. destruct path as [|c path]; [discriminate|]. destruct (decide (c = 47)) as [->|Hc].
  - apply walk_resolve; [exact T | exact (to_root x T)].
  - destruct c as [|q|q]; try discriminate. do 6 (destruct q as [q|q|]; try discriminate). congruence.
Qed.

(** ** Steps that touch a few inodes *)

Section Touched.
Context (S : Z -> Prop) (x x' : ext2) (L : layout x) (T : touched S x x').

Lemma touched_entries k : inode_valid x k -> ~ S k -> dir_entries x' (disk x' k) = dir_entries x (disk x k).
Proof.
  intros Hk Hs. rewrite (tc_disk _ _ _ T k Hk Hs). pose proof (bs_range x L). apply dir_entries_ext; [lia | exact (touched_bs S x x' T)|].
  intros p Hp. pose proof (tc_bytes _ _ _ T k p Hk Hs Hp) as E. rewrite (tc_disk _ _ _ T k Hk Hs) in E. exact E.
Qed.

Lemma touched_contents k : inode_valid x k -> ~ S k -> contents x' k = contents x k.
Proof.
  intros Hk Hs. unfold contents. rewrite (tc_disk _ _ _ T k Hk Hs). apply file_bytes_ext; [lia|].
  intros p Hp. pose proof (tc_bytes _ _ _ T k p Hk Hs Hp) as E. rewrite (tc_disk _ _ _ T k Hk Hs) in E. exact E.
Qed.

Lemma touched_live k : ~ S k -> live x' k <-> live x k.
Proof.
  intros Hs. unfold live. rewrite (touched_valid S x x' k T). split; intros [Hk Hu]; (split; [exact Hk|]);
    [rewrite <- (tc_used _ _ _ T k Hk Hs) | rewrite (tc_used _ _ _ T k Hk Hs)]; exact Hu.
Qed.

Lemma touched_inodes_count : sb_inodes_count (x_image x') = sb_inodes_count (x_image x).
Proof. destruct (tc_image _ _ _ T) as (m' & -> & G). exact (sf_inodes _ _ (same_geom_fields _ _ G)). Qed.

Lemma touched_node k : ~ S k -> node_of x' k = node_of x k.
Proof.
  intros Hs. unfold node_of. rewrite touched_inodes_count.
  destruct (Z.leb_spec 1 k), (Z.leb_spec k (sb_inodes_count (x_image x))); cbn [andb]; try reflexivity.
  assert (Hk : inode_valid x k) by (unfold inode_valid; lia). rewrite (tc_used _ _ _ T k Hk Hs). unfold node_at.
  rewrite touched_entries, touched_contents, (tc_disk _ _ _ T k Hk Hs) by assumption. reflexivity.
Qed.

Lemma touched_max : max_blocks x' = max_blocks x.
Proof. destruct (tc_image _ _ _ T) as (m' & -> & _). reflexivity. Qed.

Lemma touched_dir_sound k b es : inode_valid x k -> ~ S k -> dir_sound x (disk x k) b es -> dir_sound x' (disk x' k) b es.
Proof.
  intros Hk Hs [D N Z E]. rewrite <- (touched_entries k Hk Hs) in E. rewrite (tc_disk _ _ _ T k Hk Hs) in *.
  split; rewrite ?touched_max, ?(touched_bs S x x' T); assumption.
Qed.

Lemma touched_file_ok k : inode_valid x k -> ~ S k -> file_ok x (disk x k) -> file_ok x' (disk x' k).
Proof.
  intros Hk Hs [Fs Fd Ft]. pose proof (bs_range x L) as Hbs. pose proof (disk_size x k) as Hsz.
  pose proof (proj1 (blocks_of_bounds x (i_size (disk x k)) ltac:(lia) ltac:(lia))) as Hb.
  pose proof (tc_disk _ _ _ T k Hk Hs) as Ed. pose proof (tc_blocks _ _ _ T k) as Bk. pose proof (tc_bytes _ _ _ T k) as By. rewrite Ed in *.
  split; unfold blocks_of; rewrite ?touched_max, ?(touched_bs S x x' T); fold (blocks_of x (i_size (disk x k))).
  - exact Fs.
  - intros q Hq. rewrite Bk by (auto; lia). exact (Fd q Hq).
  - intros p Hp. rewrite By by (auto; lia). exact (Ft p Hp).
Qed.

(** A node stays sound when the inodes that its entries name stay in use. *)
Lemma touched_node_ok k :
  inode_valid x k -> ~ S k -> node_ok x k ->
  (forall es e, live x k -> inode_is_dir (disk x k) = true -> dir_entries x (disk x k) = Some es -> In e (used_entries es) ->
     live x (en_inode e) -> live x' (en_inode e)) ->
  node_ok x' k.
Proof.
  intros Hk Hs [E D K F] He. pose proof (tc_disk _ _ _ T k Hk Hs) as Ed. pose proof (touched_live k Hs) as Lv. split.
  - rewrite (touched_entries k Hk Hs), Ed. exact E.
  - rewrite Lv, Ed. intros Hl Hd. destruct (D Hl Hd) as (b & es & Ds & [Nd El]). exists b, es. rewrite <- Ed.
    split; [exact (touched_dir_sound k b es Hk Hs Ds)|]. split; [exact Nd|]. intros e Hi. apply (He es e Hl Hd (ds_entries _ _ _ _ Ds) Hi), El, Hi.
  - rewrite Lv, Ed. exact K.
  - rewrite Lv, Ed. intros Hl Hf. rewrite <- Ed. exact (touched_file_ok k Hk Hs (F Hl Hf)).
Qed.

Lemma touched_mounted : ext2_mounted x' = ext2_mounted x.
Proof. destruct (tc_image _ _ _ T) as (m' & -> & _). reflexivity. Qed.

(** A step that takes no inode away keeps a tree sound when its inodes end up sound. *)
Lemma touched_tree_ok :
  tree_ok x -> owned x' (disk x') -> (forall k, live x k -> live x' k) ->
  (forall k, S k -> inode_valid x k -> node_ok x' k) -> (forall k, {S k} + {~ S k}) -> tree_ok x'.
Proof.
  intros [O M R N] O' Hl Hn Dec. split.
  - exact O'.
  - rewrite touched_mounted. exact M.
  - exact (Hl _ R).
  - intros k Hk. apply (touched_valid S x x' k T) in Hk. destruct (Dec k) as [Hs|Hs]; [exact (Hn k Hs Hk)|].
    apply touched_node_ok; auto.
Qed.
End Touched.

(** ** Write-back *)

Section Rewired.
Context (x : ext2) (wb : option (mem -> Z -> bool)) (wr : list mem).
Abbreviation y := (rewired x wb wr).

Lemma rewired_tree : 0 < x_block_size x -> tree y = tree x.
Proof.
  intros Hbs. apply map_eq. intros n. rewrite !lookup_tree. unfold node_of, node_at. rewrite rewired_entries by exact Hbs. reflexivity.
Qed.

Lemma rewired_tree_ok : tree_ok x -> tree_ok y.
Proof.
  intros [O M R N]. pose proof (bs_range x (owned_layout x _ O)) as Hbs. split; [exact (rewired_owned x wb wr _ O) | exact M | exact R|].
  intros k Hk. destruct (N k Hk) as [E D K F]. split; [rewrite rewired_entries by lia; exact E | | exact K |].
  - intros Hl Hd. destruct (D Hl Hd) as (b & es & [Dd Dn Dz De] & [Nd El]). exists b, es. split; [|split; [exact Nd | exact El]].
    split; [exact Dd | exact Dn | exact Dz | rewrite rewired_entries by lia; exact De].
  - intros Hl Hf. destruct (F Hl Hf). split; assumption.
Qed.
End Rewired.

Lemma synced_tree x : 0 < x_block_size x -> tree (synced x) = tree x.
Proof. destruct (synced_rewired x) as (wb & wr & ->). apply rewired_tree. Qed.

Lemma synced_tree_ok x : tree_ok x -> tree_ok (synced x).
Proof. destruct (synced_rewired x) as (wb & wr & ->). apply rewired_tree_ok. Qed.

(** ** Names of a directory *)

Lemma used_entries_app a b : used_entries (a ++ b) = used_entries a ++ used_entries b.
Proof. apply List.filter_app. Qed.

Lemma used_entries_unused o : Forall (fun u => en_inode u = 0) o -> used_entries o = [].
Proof. induction 1 as [|u o Hu _ IH]; [reflexivity|]. unfold used_entries in *. cbn [List.filter]. rewrite Hu. exact IH. Qed.

Lemma lookup_name_none es name : lookup_name es name = None <-> ~ In name (map en_name (used_entries es)).
Proof.
  unfold lookup_name, used_entries. induction es as [|e es IH]; [cbn; tauto|]. cbn [List.find List.filter].
  destruct (negb (en_inode e =? 0)); cbn [andb]; [|exact IH]. cbn [map In].
  destruct (bool_decide_reflect (en_name e = name)) as [E|E]; [split; [discriminate | intros H; destruct H; left; exact E]|]. rewrite IH. tauto.
Qed.

(** Inserting an entry inserts its name. *)
Lemma inserted_names child name ft es es' :
  inserted child name ft es es' -> child <> 0 -> exists a b, used_entries es = a ++ b /\ used_entries es' = a ++ mk_entry child ft name :: b.
Proof.
  intros (a & o & b & -> & -> & Ho) Hc. exists (used_entries a), (used_entries b). rewrite !used_entries_app.
  rewrite (used_entries_unused o Ho). split; [reflexivity|]. f_equal. unfold used_entries at 1. cbn [List.filter en_inode].
  destruct (Z.eqb_spec child 0); [contradiction | reflexivity].
Qed.

Lemma inserted_dir_map child name ft es es' :
  inserted child name ft es es' -> child <> 0 -> lookup_name es name = None -> dir_map es' = <[name := child]> (dir_map es).
Proof.
  intros Hi Hc Hn. destruct (inserted_names _ _ _ _ _ Hi Hc) as (a & b & Ea & Eb). apply lookup_name_none in Hn. unfold dir_map. rewrite Ea, Eb in *. clear Hi Ea Eb.
  induction a as [|e a IH]; [reflexivity|]. cbn [app map list_to_map foldr fst snd].
  refine (eq_trans (f_equal _ (IH _)) _); [intros H; apply Hn; right; exact H|].
  apply insert_insert_ne. intros E. apply Hn. left. exact E.
Qed.

Lemma inserted_entries_ok x child name ft es es' :
  inserted child name ft es es' -> child <> 0 -> live x child -> lookup_name es name = None -> entries_ok x es -> entries_ok x es'.
Proof.
  intros Hi Hc Hl Hn [Nd El]. destruct (inserted_names _ _ _ _ _ Hi Hc) as (a & b & Ea & Eb). apply lookup_name_none in Hn. rewrite Ea in *.
  split; rewrite Eb.
  - rewrite map_app in *. cbn [map en_name]. apply (Permutation_NoDup (l := name :: map en_name a ++ map en_name b)); [apply Permutation_middle|].
    constructor; assumption.
  - intros e He. apply in_app_iff in He as [He | [<- | He]]; [apply El, in_app_iff; auto | exact Hl | apply El, in_app_iff; auto].
Qed.
