(* ===== verification/Ext2Create.v ===== *)
(** * Creating files: [ext2_create_file] on the tree *)

From S2P Require Import Prelude Klog Pmm Vmm Pages Heap Fs Elf Keyboard Process Scheduler Kernel Syscall PathProofs.
From S2P Require Import Ext2Image Ext2Codec Ext2Layout Ext2Alloc Ext2 Ext2Ops Ext2Sample Ext2Proofs Ext2Dir Ext2Own Ext2Link Ext2Write Ext2Files.
From S2P Require Import Ext2Inodes Ext2Names Ext2Tree.

(** ** The last name of a path *)

Lemma lookup_nth (l : list Z) (k : nat) v : (k < length l)%nat -> nth k l 0 = v -> l !! k = Some v.
Proof.
  intros Hk E. destruct (lookup_lt_is_Some_2 l k Hk) as [w Hw]. rewrite nth_lookup, Hw in E. cbn in E. congruence.
Qed.

Lemma strip_slashes_spec path : forall len, (len <= length path)%nat -> (0 < len)%nat ->
  let n := strip_slashes path len in
  (0 < n <= len)%nat /\ firstn len path = firstn n path ++ repeat 47 (len - n) /\ ((1 < n)%nat -> nth (n - 1) path 0 <> 47).
Proof.
  induction len as [|len IH]; intros Hl Hp; [lia|]. destruct len as [|len].
  - cbn. split; [lia|]. split; [symmetry; apply app_nil_r | lia].
  - change (strip_slashes path (S (S len))) with (if nth (S len) path 0 =? 47 then strip_slashes path (S len) else S (S len)). destruct (Z.eqb_spec (nth (S len) path 0) 47) as [E|E].
    + destruct (IH ltac:(lia) ltac:(lia)) as (H1 & H2 & H3). cbv zeta in *. set (n := strip_slashes path (S len)) in *.
      split; [lia|]. split; [|exact H3]. rewrite (take_S_r path (S len) 47).
      * rewrite H2, <- app_assoc. f_equal. replace (S (S len) - n)%nat with (S (S len - n)) by lia. symmetry. apply repeat_cons.
      * exact (lookup_nth path (S len) 47 ltac:(lia) E).
    + cbv zeta. split; [lia|]. split; [rewrite Nat.sub_diag; symmetry; apply app_nil_r|]. intros _. exact E.
Qed.

Lemma last_slash_spec path : forall k, nth 0 path 0 = 47 ->
  let n := last_slash path k in
  (n <= k)%nat /\ nth n path 0 = 47 /\ forall j, (n < j <= k)%nat -> nth j path 0 <> 47.
Proof.
  induction k as [|k IH]; intros H0; cbn [last_slash].
  - split; [lia|]. split; [exact H0 | lia].
  - destruct (Z.eqb_spec (nth (S k) path 0) 47) as [E|E].
    + split; [lia|]. split; [exact E | lia].
    + destruct (IH H0) as (H1 & H2 & H3). split; [lia|]. split; [exact H2|]. intros j Hj.
      destruct (Nat.eq_dec j (S k)) as [->|]; [exact E | apply H3; lia].
Qed.

Lemma names_slashes a n : names (a ++ repeat 47 n) = names a.
Proof.
  induction n as [|n IH]; [f_equal; apply app_nil_r|]. rewrite <- IH. cbn [repeat]. rewrite repeat_cons, app_assoc. apply names_snoc_slash.
Qed.

Lemma names_single name : name <> [] -> ~ In 47 name -> names name = [name].
Proof.
  intros Hne Hn. pose proof (names_from_app [] name [] Hn) as E. rewrite app_nil_r in E. unfold names. rewrite E. cbn [app names_from].
  destruct name; [congruence | reflexivity].
Qed.

(** A path that is split is that of the parent and the name. *)
Lemma split_parent_names path size parent name :
  split_parent_path path size = Some (parent, name) ->
  names path = names parent ++ [name] /\ hd 0 path = 47 /\ hd 0 parent = 47
  /\ 1 <= Z.of_nat (length name) <= EXT2_NAME_LEN /\ incl name path.
Proof.
  unfold split_parent_path. destruct path as [|c path]; [discriminate|].
  destruct (decide (c = 47)) as [->|Hc]; [|destruct c as [|q|q]; try discriminate; do 6 (destruct q as [q|q|]; try discriminate); congruence].
  set (p := 47 :: path). destruct (size =? 0); [discriminate|].
  destruct (strip_slashes_spec p (length p) (Nat.le_refl _) ltac:(cbn; lia)) as (H1 & H2 & H3). cbv zeta in *.
  set (n := strip_slashes p (length p)) in *. destruct (Nat.leb_spec n 1); [discriminate|].
  destruct (last_slash_spec p (n - 1) eq_refl) as (K1 & K2 & K3). cbv zeta in *. set (s := last_slash p (n - 1)) in *.
  rewrite firstn_all in H2. specialize (H3 ltac:(lia)). assert (Hs : (s < n - 1)%nat) by (destruct (Nat.eq_dec s (n - 1)%nat); [congruence | lia]).
  set (nm := firstn (n - s - 1) (skipn (s + 1) p)).
  assert (Hlen : length nm = (n - s - 1)%nat) by (unfold nm; rewrite length_firstn, length_skipn; lia).
  destruct (Nat.eqb_spec (n - s - 1)%nat 0%nat); [lia|]. destruct (Z.ltb_spec EXT2_NAME_LEN (Z.of_nat (n - s - 1)%nat)) as [|Hnl]; [discriminate|]. cbn [orb].
  assert (Hno : ~ In 47 nm).
  { intros Hi. apply list_elem_of_In, list_elem_of_lookup in Hi as (j & Hj). pose proof (lookup_lt_Some _ _ _ Hj) as Hjl. rewrite Hlen in Hjl.
    unfold nm in Hj. rewrite lookup_take_lt, lookup_drop in Hj by lia. apply (K3 (s + 1 + j)%nat); [lia|]. rewrite nth_lookup, Hj. reflexivity. }
  assert (Esplit : p = firstn s p ++ 47 :: nm ++ repeat 47 (length p - n)).
  { rewrite H2 at 1. replace (firstn n p) with (firstn s p ++ 47 :: nm); [rewrite <- app_assoc; reflexivity|].
    rewrite <- (firstn_skipn s (firstn n p)) at 1. rewrite firstn_firstn, Nat.min_l by lia. f_equal.
    rewrite skipn_firstn_comm. pose proof (lookup_nth p s 47 ltac:(lia) K2) as Ep.
    rewrite (drop_S p 47 s Ep). replace (n - s)%nat with (S (n - s - 1)) by lia. cbn [firstn]. unfold nm. rewrite Nat.add_1_r. reflexivity. }
  assert (En : names p = names (firstn s p) ++ [nm]).
  { rewrite Esplit at 1. rewrite names_app_slash, names_slashes, (names_single nm); [reflexivity | intros E; apply (f_equal (@length Z)) in E; rewrite Hlen in E; contradiction | exact Hno]. }
  assert (Hincl : incl nm p).
  { intros a Ha. rewrite Esplit. apply in_app_iff. right. right. apply in_app_iff. left. exact Ha. }
  destruct (Nat.eqb_spec s 0%nat) as [Es|Es].
  - destruct (size <? 2); [discriminate|]. intros [= <- <-]. rewrite En, Es. cbn [firstn]. repeat (split; [reflexivity|]). split; [lia | exact Hincl].
  - destruct (size <? _); [discriminate|]. intros [= <- <-]. split; [exact En|]. split; [reflexivity|].
    split; [destruct s; [lia | reflexivity]|]. split; [lia | exact Hincl].
Qed.

(** ** A new inode *)

(** Writing an inode without blocks. *)
Lemma write_empty_inode_ok x k i :
  owned x (disk x) -> inode_valid x k -> inode_wf i -> (forall y s, slot y i s = 0) ->
  exists x', write_inode x k i = Ret (true, x') /\ owned x' (disk x') /\ touched (eq k) x x' /\ disk x' k = i
  /\ inode_used x' k = inode_used x k.
Proof.
  intros O Hk W Hz. pose proof (owned_layout x _ O) as L.
  destruct (write_inode_ok x k i (ow_ok x _ O) W Hk) as (m' & E & Ei & F & M).
  pose proof (keep_ok x m' M (ow_ok x _ O)) as O'. pose proof (keep_geom x m' M) as G.
  assert (U : forall j, inode_valid x j -> inode_used (set_image x m') j = inode_used x j).
  { intros j Hj. apply same_ibitmap_used; auto. intros a Ha. apply F. intros Hc.
    exact (inode_not_ibitmap x k (igroup x j) a L Hk (igroup_range x L j Hj) Hc Ha). }
  assert (D : disk (set_image x m') k = i) by (unfold disk; rewrite (frame_inode_pos x m' k L G Hk); exact Ei).
  exists (set_image x m'). split; [exact E|]. split; [|split; [|split; [exact D | exact (U k Hk)]]].
  - apply (step_owned x k m' O Hk O' G); [intros a _ _; exact (F a)|]. intros s _. rewrite D. left. apply Hz.
  - apply (step_touched x k m' O Hk O' G); [intros a _ _; exact (F a) | auto].
Qed.

Definition new_file : ext2_inode := set_i_links_count (set_i_mode zero_inode (Z.lor EXT2_S_IFREG 0x1a4)) 1.

Lemma new_file_wf : inode_wf new_file.
Proof.
  destruct zero_inode_wf as [H W B O]. split; [|exact W | exact B | exact O].
  repeat (apply List.Forall_cons; [split; vm_compute; congruence|]). apply List.Forall_nil.
Qed.

Lemma new_file_ok x k : 0 < x_block_size x -> disk x k = new_file -> file_ok x (disk x k) /\ contents x k = [] /\ inode_is_dir (disk x k) = false /\ inode_is_file (disk x k) = true.
Proof.
  intros Hbs D. unfold contents. rewrite D. split; [|repeat (split; [reflexivity|]); reflexivity].
  assert (Z0 : forall q, block_id_at x new_file q = 0).
  { intros q. unfold block_id_at. assert (Z : forall j, i_block_at new_file j = 0) by (intros j; exact (nth_repeat 0 15 (Z.to_nat j))).
    rewrite !Z. destruct (q <? EXT2_DIRECT_BLOCKS); [reflexivity|]. rewrite andb_false_r. reflexivity. }
  split.
  - cbn [new_file set_i_links_count set_i_mode zero_inode i_size]. unfold max_blocks, EXT2_DIRECT_BLOCKS.
    pose proof (Z.div_pos (x_block_size x) 4 ltac:(lia) ltac:(lia)). nia.
  - intros q Hq. unfold blocks_of in Hq. cbn [new_file set_i_links_count set_i_mode zero_inode i_size] in Hq.
    rewrite Z.div_small in Hq by lia. lia.
  - intros p _. unfold file_byte. cbv zeta. rewrite Z0. reflexivity.
Qed.

(** ** Reading *)

Lemma tree_file_node x k c :
  tree x !! k = Some (File c) -> live x k /\ inode_is_dir (disk x k) = false /\ inode_is_file (disk x k) = true /\ contents x k = c.
Proof.
  intros H. rewrite lookup_tree in H. apply node_of_some in H as [Hl E]. unfold node_at in E.
  destruct (inode_is_dir (disk x k)); [destruct (dir_entries x (disk x k)); discriminate E|].
  destruct (inode_is_file (disk x k)); [|discriminate E]. injection E as ->. auto.
Qed.

(** Reading by path is reading in the tree. *)
Lemma tree_read x path k c len offset :
  tree_ok x -> 0 <= offset -> 0 <= len -> tree_path (tree x) path = Some k -> tree x !! k = Some (File c) ->
  ext2_read_file x path len offset = Ret (read_slice c len offset).
Proof.
  intros T Ho Hl Hp Hf. destruct (tree_file_node x k c Hf) as (_ & _ & Hfile & <-).
  apply (read_contents x path k len offset (tree_ok_fs x T) Ho Hl); [rewrite number_resolve by exact T; exact Hp | exact Hfile].
Qed.

(** ** [ext2_create_file] *)

(** The directory that the file of a path belongs into, its number and the name. *)
Definition parent_dir (t : tree_map) (path : list Z) : option (gmap (list Z) Z * Z * list Z) :=
  '(parent, name) ← split_parent_path path USER_FS_PATH_SIZE;
  d ← tree_path t parent;
  match t !! d with Some (Dir entries) => Some (entries, d, name) | _ => None end.

(** How a creation ends: it is refused and nothing changes; or there is no
    inode or no room for it and the tree is as it was; or the tree has an empty
    file more, of a number that was not in it. A write-back that fails is
    reported after the file is in the image. *)
Inductive create_outcome (x : ext2) (path : list Z) : Z -> ext2 -> Prop :=
  | create_refused :
      tree_path (tree x) path <> None \/ parent_dir (tree x) path = None -> create_outcome x path USER_ERR_INVAL x
  | create_no_inode : no_free_inode x -> create_outcome x path USER_ERR_FAULT x
  | create_no_room entries d name x' :
      parent_dir (tree x) path = Some (entries, d, name) -> tree x' = tree x ->
      i_size (disk x d) = max_blocks x * x_block_size x \/ sb_free_blocks_count (x_image x') <= 1 ->
      create_outcome x path USER_ERR_FAULT x'
  | create_done entries d name k x' :
      parent_dir (tree x) path = Some (entries, d, name) -> entries !! name = None -> tree x !! k = None -> tree_ok x' ->
      tree x' = <[k := File []]> (<[d := Dir (<[name := k]> entries)]> (tree x)) ->
      create_outcome x path (if sync_fine x' then 0 else USER_ERR_FAULT) (synced x').

(** [parent_lookup] finds that directory. *)
Lemma tree_dir_node x d entries :
  tree_ok x -> tree x !! d = Some (Dir entries) ->
  live x d /\ inode_is_dir (disk x d) = true
  /\ exists b es, dir_sound x (disk x d) b es /\ entries_ok x es /\ dir_entries x (disk x d) = Some es /\ entries = dir_map es.
Proof.
  intros T H. rewrite lookup_tree in H. apply node_of_some in H as [Hl E]. unfold node_at in E.
  destruct (inode_is_dir (disk x d)) eqn:Hd; [|destruct (inode_is_file (disk x d)); discriminate].
  destruct (no_dir x d (to_nodes x T d (proj1 Hl)) Hl Hd) as (b & es & Ds & Eo). rewrite (ds_entries _ _ _ _ Ds) in E. injection E as ->.
  split; [exact Hl|]. split; [reflexivity|]. exists b, es. pose proof (ds_entries _ _ _ _ Ds). auto.
Qed.

Lemma tree_path_named x path : tree_ok x -> named x path = option_map (fun n => (disk x n, n)) (tree_path (tree x) path).
Proof.
  intros T. rewrite <- number_resolve by exact T. unfold number. destruct (named x path) as [[i n]|] eqn:E; [|reflexivity].
  destruct (named_number x path i n E) as (_ & _ & ->). reflexivity.
Qed.

Lemma parent_lookup_ok x path :
  tree_ok x ->
  parent_lookup x path = Ret (option_map (fun '(_, d, name) => (disk x d, d, name)) (parent_dir (tree x) path)).
Proof.
  intros T. unfold parent_lookup, parent_dir. destruct (split_parent_path path USER_FS_PATH_SIZE) as [[pp name]|]; [|reflexivity].
  rewrite (path_lookup_named x pp (fs_ok_sound x (tree_ok_fs x T))), (tree_path_named x pp T). cbn [mbind res_bind option_bind].
  destruct (tree_path (tree x) pp) as [d|] eqn:Ed; cbn [option_map mbind option_bind]; [|reflexivity].
  rewrite lookup_tree, (node_of_live x d (tree_path_live x pp d T Ed)). unfold node_at.
  destruct (inode_is_dir (disk x d)) eqn:Hd; [|destruct (inode_is_file (disk x d)); reflexivity].
  pose proof (tree_path_live x pp d T Ed) as Hl.
  destruct (no_entries x d (to_nodes x T d (proj1 Hl)) Hd) as (es & ->). reflexivity.
Qed.

(** A path is its parent's and a name. *)
Lemma parent_dir_path t path entries d name :
  parent_dir t path = Some (entries, d, name) ->
  t !! d = Some (Dir entries) /\ tree_path t path = entries !! name /\ 1 <= Z.of_nat (length name) <= EXT2_NAME_LEN /\ incl name path
  /\ exists p, names path = p ++ [name] /\ resolve t p EXT2_ROOT_INODE = Some d.
Proof.
  unfold parent_dir. destruct (split_parent_path path USER_FS_PATH_SIZE) as [[pp nm]|] eqn:Es; [|discriminate]. cbn [mbind option_bind].
  destruct (split_parent_names _ _ _ _ Es) as (En & H0 & H1 & Hl & Hi). destruct (tree_path t pp) as [d'|] eqn:Ed; cbn [mbind option_bind]; [|discriminate].
  destruct (t !! d') as [[es | |]|] eqn:Et; try discriminate. intros [= -> -> ->]. split; [exact Et|].
  destruct path as [|c path]; [discriminate H0|]. destruct pp as [|c' pp]; [discriminate H1|]. cbn [hd] in H0, H1. subst c c'.
  cbn [tree_path] in Ed |- *. split; [|split; [exact Hl|]; split; [exact Hi|]; eauto].
  rewrite En, resolve_app, Ed. cbn [mbind option_bind resolve]. rewrite Et. destruct (entries !! name); reflexivity.
Qed.

(** The directory of a path, and what the code finds in it. *)
Lemma parent_entry_ok x path entries d name :
  tree_ok x -> parent_dir (tree x) path = Some (entries, d, name) ->
  live x d /\ inode_is_dir (disk x d) = true /\ 1 <= Z.of_nat (length name) <= EXT2_NAME_LEN
  /\ find_in_dir x (disk x d) name = Ret (entries !! name)
  /\ exists b es, dir_sound x (disk x d) b es /\ entries_ok x es /\ entries = dir_map es.
Proof.
  intros T Hp. pose proof (fs_ok_sound x (tree_ok_fs x T)) as FS. destruct (parent_dir_path _ _ _ _ _ Hp) as (Hd & _ & Hl & _).
  destruct (tree_dir_node x d entries T Hd) as (Lv & Hdir & b & es & Ds & Eo & He & ->).
  assert (Hnum : inode_numbered x d = Some (disk x d)) by (apply inode_numbered_valid; split; [apply Lv | reflexivity]).
  repeat (split; [assumption|]). split; [|eauto].
  rewrite (find_in_dir_sound x d (disk x d) name FS Hnum) by (intros E; rewrite E in Hl; cbn in Hl; lia).
  rewrite Hdir, He, lookup_dir_map. cbn [mbind option_bind]. destruct (lookup_name es name); reflexivity.
Qed.

(** ** The tree after an entry was added *)

Definition either (k d : Z) (j : Z) : Prop := j = k \/ j = d.

Lemma either_dec k d j : {either k d j} + {~ either k d j}.
Proof. unfold either. destruct (Z.eq_dec j k), (Z.eq_dec j d); [left | left | left | right]; tauto. Qed.

Lemma tree_eq S x x' (Dec : forall k, {S k} + {~ S k}) (t : tree_map) :
  layout x -> touched S x x' -> (forall k, S k -> node_of x' k = t !! k) -> (forall k, ~ S k -> t !! k = tree x !! k) -> tree x' = t.
Proof.
  intros L T Hs Ht. apply map_eq. intros k. change (tree x' !! k = t !! k). rewrite lookup_tree. destruct (Dec k) as [H|H]; [exact (Hs k H)|].
  rewrite (Ht k H), lookup_tree. exact (touched_node S x x' L T k H).
Qed.

(** A directory with sound entries is a node of the tree. *)
Lemma dir_node_ok x x3 d n' es' :
  tree_ok x -> live x d -> inode_is_dir (disk x d) = true -> live x3 d -> i_mode (disk x3 d) = i_mode (disk x d) ->
  dir_sound x3 (disk x3 d) n' es' -> entries_ok x3 es' -> node_ok x3 d /\ node_of x3 d = Some (Dir (dir_map es')).
Proof.
  intros T Hd Hdir Hl Hmode D3 E3. pose proof (ds_dir _ _ _ _ D3) as Hd3. pose proof (ds_entries _ _ _ _ D3) as He3.
  assert (Hf : inode_is_file (disk x3 d) = false).
  { unfold inode_is_file. rewrite Hmode. exact (no_kind x d (to_nodes x T d (proj1 Hd)) Hd Hdir). }
  split; [split; eauto; congruence|]. rewrite (node_of_live x3 d Hl). unfold node_at. rewrite Hd3, He3. reflexivity.
Qed.

Lemma dir_node_plain x n b es : inode_is_file (disk x n) = false -> dir_sound x (disk x n) b es -> entries_ok x es -> node_ok x n.
Proof. intros Hf Ds Eo. split; [intros _; exists es; exact (ds_entries _ _ _ _ Ds) | eauto | auto | congruence]. Qed.

Lemma old_not_new x k j : inode_used x k = false -> live x j -> j <> k.
Proof. intros Hf [_ Hu] ->. congruence. Qed.

(** A step on the new inode, and then one on the directory. *)
Lemma unlinked_step x d k i :
  live x d -> inode_valid x k -> inode_used x k = false -> forall x2 x3,
  touched (eq k) x x2 -> disk x2 k = i -> inode_used x2 k = true -> changed (fun _ => True) d x2 x3 -> owned x2 (disk x2) ->
  touched (either k d) x x3 /\ disk x3 k = i /\ inode_used x3 k = true
  /\ i_mode (disk x3 d) = i_mode (disk x d) /\ inode_used x3 d = inode_used x d.
Proof.
  intros Hd Hk Hf x2 x3 T2 D2 U2 C O2. pose proof (owned_layout x2 _ O2) as L2. pose proof (proj1 Hd) as Hdv.
  pose proof (old_not_new x k d Hf Hd) as Hne.
  assert (Hk2 : inode_valid x2 k) by (apply (touched_valid _ _ _ k T2); exact Hk).
  assert (Hd2 : inode_valid x2 d) by (apply (touched_valid _ _ _ d T2); exact Hdv).
  split; [|split; [|split; [|split]]].
  - apply (touched_trans _ x x2 x3); [apply (touched_weaken (eq k)); [unfold either; auto | exact T2]|].
    apply (touched_weaken (eq d)); [unfold either; auto | exact (changed_touched _ d x2 x3 L2 C)].
  - rewrite (ch_other _ _ _ _ C k Hk2) by congruence. exact D2.
  - rewrite (changed_used _ d x2 x3 k L2 C Hk2). exact U2.
  - rewrite (ch_mode _ _ _ _ C), (tc_disk _ _ _ T2 d Hdv) by congruence. reflexivity.
  - rewrite (changed_used _ d x2 x3 d L2 C Hd2). apply (tc_used _ _ _ T2 d Hdv). congruence.
Qed.

Section Added.
Context (x : ext2) (T : tree_ok x) (d : Z) (b : Z) (es : list dir_entry) (k : Z).
Context (Hd : live x d) (Hdir : inode_is_dir (disk x d) = true) (Ds : dir_sound x (disk x d) b es) (Eo : entries_ok x es).
Context (Hk : inode_valid x k) (Hfree : inode_used x k = false).

Section After.
Context (x3 : ext2) (T3 : touched (either k d) x x3) (O3 : owned x3 (disk x3)).
Context (Hmode : i_mode (disk x3 d) = i_mode (disk x d)) (Hused : inode_used x3 d = inode_used x d) (Nk : node_ok x3 k).

Lemma added_live j : live x j -> live x3 j.
Proof.
  intros Hj. destruct (either_dec k d j) as [[-> | ->]|Hn]; [destruct (old_not_new x k k Hfree Hj); reflexivity | |].
  - destruct Hj as [Hv Hu]. split; [apply (touched_valid _ _ _ d T3); exact Hv | congruence].
  - apply (touched_live _ x x3 T3 j Hn). exact Hj.
Qed.

Lemma added_dir_node n' es' : dir_sound x3 (disk x3 d) n' es' -> entries_ok x3 es' -> node_ok x3 d /\ node_of x3 d = Some (Dir (dir_map es')).
Proof. exact (dir_node_ok x x3 d n' es' T Hd Hdir (added_live d Hd) Hmode). Qed.

Lemma added_tree_ok n' es' : dir_sound x3 (disk x3 d) n' es' -> entries_ok x3 es' -> tree_ok x3.
Proof.
  intros D3 E3. apply (touched_tree_ok (either k d) x x3 (owned_layout x _ (to_owned x T)) T3 T O3 added_live); [|exact (either_dec k d)].
  intros j [-> | ->] _; [exact Nk | exact (proj1 (added_dir_node n' es' D3 E3))].
Qed.

(** The entry is there. *)
Lemma entry_added name ft n' es' :
  dir_sound x3 (disk x3 d) n' es' -> inserted k name ft es es' -> lookup_name es name = None -> live x3 k ->
  tree_ok x3 /\ tree x3 = <[k := node_at x3 k]> (<[d := Dir (<[name := k]> (dir_map es))]> (tree x)).
Proof.
  intros D3 Ins Hn Hl. assert (Hz : k <> 0) by (unfold inode_valid in Hk; lia).
  assert (E3 : entries_ok x3 es').
  { apply (inserted_entries_ok x3 k name ft es es' Ins Hz Hl Hn). destruct Eo as [Nd El]. split; [exact Nd|]. intros e He. apply added_live, El, He. }
  split; [exact (added_tree_ok n' es' D3 E3)|].
  apply (tree_eq (either k d) x x3 (either_dec k d)); [exact (owned_layout x _ (to_owned x T)) | exact T3 | |].
  - intros j [-> | ->].
    + rewrite (node_of_live x3 k Hl). symmetry. apply lookup_insert_eq.
    + rewrite (proj2 (added_dir_node n' es' D3 E3)), (inserted_dir_map k name ft es es' Ins Hz Hn). pose proof (old_not_new x k d Hfree Hd).
      rewrite lookup_insert_ne by congruence. symmetry. apply lookup_insert_eq.
  - intros j Hj. unfold either in Hj. rewrite !lookup_insert_ne by (intros E; apply Hj; subst; auto). reflexivity.
Qed.

(** The entry is not there, and the inode was given back. *)
Lemma kept_entries_ok : entries_ok x3 es.
Proof. destruct Eo as [Nd El]. split; [exact Nd|]. intros e He. apply added_live, El, He. Qed.

Lemma refused_tree n' : dir_sound x3 (disk x3 d) n' es -> inode_used x3 k = false -> tree x3 = tree x.
Proof.
  intros D3 Hu. apply (tree_eq (either k d) x x3 (either_dec k d)); [exact (owned_layout x _ (to_owned x T)) | exact T3 | |auto].
  intros j [-> | ->]; rewrite lookup_tree; [rewrite !node_of_none by assumption; reflexivity|].
  rewrite (proj2 (added_dir_node n' es D3 kept_entries_ok)), (node_of_live x d Hd). unfold node_at. rewrite Hdir, (ds_entries _ _ _ _ Ds). reflexivity.
Qed.

Lemma entry_refused n' :
  dir_sound x3 (disk x3 d) n' es -> inode_used x3 k = false -> tree_ok x3 /\ tree x3 = tree x.
Proof. intros D3 Hu. split; [exact (added_tree_ok n' es D3 kept_entries_ok) | exact (refused_tree n' D3 Hu)]. Qed.
End After.
End Added.

(** The inode is taken and written. *)
Lemma new_inode_ok x k m1 i :
  owned x (disk x) -> inode_taken x k m1 -> inode_wf i -> (forall y s, slot y i s = 0) ->
  exists x2, write_inode (set_image x m1) k i = Ret (true, x2) /\ owned x2 (disk x2) /\ touched (eq k) x x2
  /\ disk x2 k = i /\ inode_used x2 k = true.
Proof.
  intros O Tk W Hz. destruct (inode_taken_step x k m1 O Tk) as (O1 & T1 & _). pose proof (it_valid _ _ _ Tk) as Hk.
  assert (Hk1 : inode_valid (set_image x m1) k) by (apply frame_inode_valid; [exact (it_geom _ _ _ Tk) | exact Hk]).
  destruct (write_empty_inode_ok (set_image x m1) k i O1 Hk1 W Hz) as (x2 & E & O2 & T2 & D & U).
  exists x2. split; [exact E|]. split; [exact O2|]. split; [exact (touched_trans _ _ _ _ T1 T2)|]. split; [exact D|].
  rewrite U, (it_used _ _ _ Tk k Hk), Z.eqb_refl. reflexivity.
Qed.

Lemma no_slots_new_file y s : slot y new_file s = 0.
Proof. rewrite (slot_blocks y zero_inode new_file s eq_refl). apply zero_slot. Qed.

(** What follows the allocation of the inode [k]. *)
Section Create.
Context (x : ext2) (T : tree_ok x) (d k : Z) (m1 : mem) (b : Z) (es : list dir_entry) (name : list Z).
Context (Hd : live x d) (Hdir : inode_is_dir (disk x d) = true) (Ds : dir_sound x (disk x d) b es) (Eo : entries_ok x es).
Context (Tk : inode_taken x k m1) (Hname : good_name name) (Hnew : lookup_name es name = None).

Definition create_rest : res (Z * ext2) :=
  write_inode (set_image x m1) k new_file ≫= fun '(ok, x') =>
  (if negb ok then Ret (false, x') else add_dir_entry x' (disk x d) d k name EXT2_FILE_TYPE_REG) ≫= fun '(ok, x') =>
  if negb ok then mark_inode_used x' k false false ≫= fun '(_, x') => Ret (USER_ERR_FAULT, x') else finish x'.

Lemma create_rest_ok :
  exists r x', create_rest = Ret (r, x')
  /\ ((tree_ok x' /\ tree x' = tree x /\ r = USER_ERR_FAULT
       /\ (b = max_blocks x \/ sb_free_blocks_count (x_image x') <= 1))
      \/ exists x3, tree_ok x3 /\ tree x3 = <[k := File []]> (<[d := Dir (<[name := k]> (dir_map es))]> (tree x))
         /\ r = (if sync_fine x3 then 0 else USER_ERR_FAULT) /\ x' = synced x3).
Proof.
  pose proof (it_valid _ _ _ Tk) as Hk. pose proof (it_free _ _ _ Tk) as Hfree. pose proof (proj1 Hd) as Hdv.
  pose proof (old_not_new x k d Hfree Hd) as Hne. pose proof (owned_layout x _ (to_owned x T)) as L. unfold create_rest.
  destruct (new_inode_ok x k m1 new_file (to_owned x T) Tk new_file_wf no_slots_new_file) as (x2 & -> & O2 & T2 & D2 & U2).
  cbn [mbind res_bind negb]. rewrite <- (tc_disk _ _ _ T2 d Hdv) by congruence.
  assert (Hd2 : inode_valid x2 d) by (apply (touched_valid _ _ _ d T2); exact Hdv).
  assert (Ds2 : dir_sound x2 (disk x2 d) b es) by (apply (touched_dir_sound _ x x2 L T2); auto).
  assert (Hk32 : is_u32 k).
  { pose proof (load_range 4 (x_image x) EXT2_SUPERBLOCK_OFFSET) as R. unfold inode_valid in Hk. unfold is_u32.
    change (load32 (x_image x) EXT2_SUPERBLOCK_OFFSET) with (sb_inodes_count (x_image x)) in R. lia. }
  destruct (add_dir_entry_ok x2 O2 d Hd2 k name EXT2_FILE_TYPE_REG Hk32 Hname ltac:(unfold is_byte, EXT2_FILE_TYPE_REG; lia) b es Ds2)
    as (ok & x3 & -> & O3 & C3 & R3). cbn [mbind res_bind].
  destruct (unlinked_step x d k new_file Hd Hk Hfree x2 x3 T2 D2 U2 C3 O2) as (T3 & D3 & U3 & M3 & V3).
  assert (Hk3 : inode_valid x3 k) by (apply (touched_valid _ _ _ k T3); exact Hk).
  pose proof (bs_range x3 (owned_layout x3 _ O3)) as Hbs3. destruct (new_file_ok x3 k ltac:(lia) D3) as (F3 & Ct3 & Nd3 & Nf3).
  assert (Nk : node_ok x3 k) by (split; congruence || auto). destruct ok; cbn [negb].
  - destruct R3 as (n' & es' & Ds3 & Ins). assert (Lk : live x3 k) by (split; assumption).
    destruct (entry_added x T d b es k Hd Hdir Ds Eo Hk Hfree x3 T3 O3 M3 V3 Nk name _ n' es' Ds3 Ins Hnew Lk) as [Tr Et].
    rewrite finish_eq. eexists _, _. split; [reflexivity|]. right. exists x3. split; [exact Tr|]. split; [|auto].
    unfold node_at in Et. rewrite Nd3, Nf3, Ct3 in Et. exact Et.
  - destruct R3 as [Ds3 Full]. destruct (mark_inode_ok x3 (ow_ok x3 _ O3) k Hk3 false false) as (m4 & -> & Mk). cbn [mbind res_bind].
    destruct (inode_marked_step x3 k false m4 O3 Hk3 Mk) as (O4 & T4 & D4).
    pose proof (inode_marked_free x3 k false m4 (owned_layout x3 _ O3) Hk3 Mk) as E4. set (x4 := set_image x3 m4) in *.
    exists USER_ERR_FAULT, x4. split; [reflexivity|]. left.
    assert (Hd3 : inode_valid x3 d) by (apply (touched_valid _ _ _ d T3); exact Hdv).
    assert (Ds4 : dir_sound x4 (disk x4 d) b es) by (apply (touched_dir_sound _ x3 x4 (owned_layout x3 _ O3) T4); auto; congruence).
    assert (U4 : inode_used x4 k = false) by (unfold x4; rewrite (im_used _ _ _ _ Mk k Hk3), Z.eqb_refl; reflexivity).
    assert (Nk4 : node_ok x4 k) by (split; [rewrite D4; congruence | intros [_ H]; congruence..]).
    destruct (entry_refused x T d b es k Hd Hdir Ds Eo Hfree x4) with (n' := b) as [Tr Et]; auto.
    + apply (touched_trans _ x x3 x4 T3), (touched_weaken (eq k)); [unfold either; auto | exact T4].
    + rewrite (tc_disk _ _ _ T4 d Hd3) by congruence. exact M3.
    + rewrite (tc_used _ _ _ T4 d Hd3) by congruence. exact V3.
    + split; [exact Tr|]. split; [exact Et|]. split; [reflexivity|].
      destruct Full as [Full | Full]; [left | right; change (x_image x4) with m4; lia].
      rewrite Full. rewrite <- (touched_max _ _ _ T2). reflexivity.
Qed.
End Create.

(** ** Paths after a creation *)

Section Extended.
Context (t : tree_map) (d k : Z) (m : gmap (list Z) Z) (name : list Z) (v : node).
Context (Hd : t !! d = Some (Dir m)) (Hm : m !! name = None) (Hk : t !! k = None).
Abbreviation t' := (<[k := v]> (<[d := Dir (<[name := k]> m)]> t)).

Lemma extended_dir : t' !! d = Some (Dir (<[name := k]> m)).
Proof. rewrite lookup_insert_ne by congruence. apply lookup_insert_eq. Qed.

(** What a path named it still names. *)
Lemma extended_resolve p : forall n j, resolve t p n = Some j -> resolve t' p n = Some j.
Proof.
  induction p as [|nm p IH]; intros n j; cbn [resolve]; [auto|].
  destruct (t !! n) as [[es | |]|] eqn:En; try discriminate. destruct (es !! nm) as [i|] eqn:Ei; cbn [mbind option_bind]; [|discriminate].
  intros H. destruct (decide (n = d)) as [->|Hnd].
  - rewrite extended_dir. rewrite Hd in En. injection En as <-. rewrite lookup_insert_ne by congruence. rewrite Ei. cbn [mbind option_bind]. auto.
  - rewrite !lookup_insert_ne by congruence. rewrite En, Ei. cbn [mbind option_bind]. auto.
Qed.

Lemma extended_path path j : tree_path t path = Some j -> tree_path t' path = Some j.
Proof.
  unfold tree_path. destruct path as [|c path]; [discriminate|]. destruct (decide (c = 47)) as [->|Hc]; [apply extended_resolve|].
  destruct c as [|q|q]; try discriminate. do 6 (destruct q as [q|q|]; try discriminate). congruence.
Qed.
End Extended.

Lemma created_path t path entries d name k v :
  parent_dir t path = Some (entries, d, name) -> entries !! name = None -> t !! k = None ->
  tree_path (<[k := v]> (<[d := Dir (<[name := k]> entries)]> t)) path = Some k.
Proof.
  intros Hp Hn Hk. destruct (parent_dir_path t path entries d name Hp) as (Hd & _ & _ & _ & p & En & Ep).
  assert (H0 : hd 0 path = 47).
  { unfold parent_dir in Hp. destruct (split_parent_path path USER_FS_PATH_SIZE) as [[pp nm]|] eqn:Es; [|discriminate].
    exact (proj1 (proj2 (split_parent_names _ _ _ _ Es))). }
  destruct path as [|c path]; [discriminate H0|]. cbn [hd] in H0. subst c. cbn [tree_path]. rewrite En, resolve_app.
  rewrite (extended_resolve t d k entries name v Hd Hn Hk p _ d Ep). cbn [mbind option_bind resolve].
  rewrite (extended_dir t d k entries name v Hd Hk), lookup_insert_eq. reflexivity.
Qed.

(** A name of a path that is made of bytes. *)
Lemma parent_good_name t path entries d name :
  Forall is_byte path -> parent_dir t path = Some (entries, d, name) -> good_name name.
Proof.
  intros Hb Hp. destruct (parent_dir_path t path entries d name Hp) as (_ & _ & Hl & Hi & _). split; [|exact Hl].
  rewrite List.Forall_forall in *. intros a Ha. apply Hb, Hi, Ha.
Qed.

Lemma create_cases x path :
  tree_ok x -> Forall is_byte path ->
  exists r x', ext2_create_file x path = Ret (r, x') /\ tree_ok x' /\ create_outcome x path r x'.
Proof.
  intros T Hb. pose proof (tree_ok_fs x T) as F. pose proof (fs_ok_sound x F) as FS.
  unfold ext2_create_file. rewrite (path_lookup_named x path FS), (tree_path_named x path T). cbn [mbind res_bind].
  destruct (tree_path (tree x) path) as [n0|] eqn:Ep; cbn [option_map].
  { exists USER_ERR_INVAL, x. split; [reflexivity|]. split; [exact T|]. apply create_refused. left. congruence. }
  rewrite (parent_lookup_ok x path T). cbn [mbind res_bind]. destruct (parent_dir (tree x) path) as [[[entries d] name]|] eqn:Ed; cbn [option_map].
  2: { exists USER_ERR_INVAL, x. split; [reflexivity|]. split; [exact T|]. apply create_refused. right. exact Ed. }
  destruct (parent_dir_path _ _ _ _ _ Ed) as (Hd & En & _). rewrite Ep in En. symmetry in En.
  pose proof (parent_good_name _ _ _ _ _ Hb Ed) as Gn.
  destruct (parent_entry_ok x path entries d name T Ed) as (Lv & Hdir & _ & -> & b & es & Ds & Eo & ->). cbn [mbind res_bind].
  rewrite En. pose proof En as Enm. rewrite lookup_dir_map in Enm. destruct (lookup_name es name) as [e|] eqn:El; [discriminate|].
  destruct (allocate_inode_ok x false (ow_ok x _ (to_owned x T))) as (k & x1 & -> & Al). cbn [mbind res_bind].
  destruct Al as [(-> & -> & Hno) | (m1 & -> & Tk)].
  { cbn [Z.eqb]. exists USER_ERR_FAULT, x. split; [reflexivity|]. split; [exact T | apply create_no_inode; exact Hno]. }
  pose proof (it_valid _ _ _ Tk) as Hk. destruct (Z.eqb_spec k 0) as [->|_]; [unfold inode_valid in Hk; lia|].
  destruct (create_rest_ok x T d k m1 b es name Lv Hdir Ds Eo Tk Gn El) as (r & x' & E & Out).
  exists r, x'. split; [exact E|]. assert (Hk0 : tree x !! k = None) by (rewrite lookup_tree; apply node_of_none; exact (it_free _ _ _ Tk)).
  destruct Out as [(Tr & Et & -> & Why) | (x3 & Tr3 & Et & -> & ->)].
  - split; [exact Tr|]. apply (create_no_room x path _ d name x' Ed Et). destruct Why as [Why|Why]; [left | right; exact Why]. rewrite (ds_size _ _ _ _ Ds), Why. reflexivity.
  - split; [exact (synced_tree_ok x3 Tr3) | exact (create_done x path _ d name k x3 Ed En Hk0 Tr3 Et)].
Qed.

(** C24. Creating a file by its path is an operation on the tree that the image
    stands for. On a sound tree [ext2_create_file] ends, with a sound tree: a
    path that names something, or whose parent is not a directory, is refused
    and nothing changes; when no inode is free, or no block for a directory
    that is full, or the directory has its largest size, the error is reported
    and the tree is the same, the inode given back; otherwise the tree has one
    empty file more, under the name in the directory, with a number that named
    nothing. Every path names what it named; after a success the path names the
    new file, and reading it gives nothing. *)
Theorem create_file_correct x path :
  tree_ok x -> Forall is_byte path ->
  exists r x', ext2_create_file x path = Ret (r, x') /\ tree_ok x' /\ create_outcome x path r x'
  /\ (forall p n, number x p = Some n -> number x' p = Some n)
  /\ (r = 0 -> number x path = None /\ exists n, number x' path = Some n /\ number x' path <> number x path
        /\ forall len offset, 0 <= len -> 0 <= offset -> ext2_read_file x' path len offset = Ret (0, [])).
Proof.
  intros T Hb. destruct (create_cases x path T Hb) as (r & x' & E & T' & Out). exists r, x'. split; [exact E|]. split; [exact T'|]. split; [exact Out|].
  destruct Out as [H | H | ? ? ? x' _ Et _ | entries d name k x3 Ed En Hk T3 Et].
  1-3: split; [intros p n; rewrite !number_resolve by assumption; rewrite ?Et; auto | intros E'; discriminate E'].
  pose proof (bs_range x3 (owned_layout x3 _ (to_owned x3 T3))) as Hbs. pose proof (synced_tree x3 ltac:(lia)) as Es.
  destruct (parent_dir_path _ _ _ _ _ Ed) as (Hd & Ep & _). pose proof (created_path _ _ _ _ _ k (File []) Ed En Hk) as Pk. split.
  - intros p n. rewrite !number_resolve, Es, Et by assumption. apply extended_path; assumption.
  - intros _. rewrite number_resolve by exact T. split; [congruence|]. exists k. rewrite number_resolve, Es, Et, Pk by exact T'.
    split; [reflexivity|]. split; [congruence|]. intros len offset Hlen Hoff.
    rewrite (tree_read (synced x3) path k [] len offset T' Hoff Hlen) by (rewrite Es, Et; exact Pk || apply lookup_insert_eq).
    unfold read_slice. cbn [length]. rewrite Z.sub_0_l. replace (Z.max 0 (Z.min len (- offset))) with 0 by lia. reflexivity.
Qed.

(** ** The sample image *)

Lemma sample_live n : forallb (inode_used sample) [n] = true -> 1 <= n <= 8 -> live sample n.
Proof.
  intros Hu Hn. cbn [forallb] in Hu. rewrite andb_true_r in Hu. split; [|exact Hu]. unfold inode_valid. destruct sample_fields as (-> & _). exact Hn.
Qed.

Definition sample_entries : list dir_entry := [mk_entry 2 2 [46]; mk_entry 2 2 [46; 46]; mk_entry 3 1 [97]].

Lemma sample_dir_sound : dir_sound sample (disk sample 2) 1 sample_entries /\ entries_ok sample sample_entries.
Proof.
  split; [split|split].
  - vm_compute. reflexivity.
  - vm_compute. split; congruence.
  - vm_compute. reflexivity.
  - vm_compute. reflexivity.
  - cbn. repeat constructor; cbn; intuition discriminate.
  - intros e He. cbn in He. repeat destruct He as [<- | He]; try destruct He; apply sample_live; cbn [en_inode]; try lia; vm_compute; reflexivity.
Qed.

Lemma plain_node_ok x n : inode_is_dir (disk x n) = false -> inode_is_file (disk x n) = false -> node_ok x n.
Proof. intros Hd Hf. split; congruence. Qed.

Lemma sample_tree_ok : tree_ok sample.
Proof.
  split; [exact (fo_owned _ sample_ok_fs) | reflexivity | apply sample_live; [vm_compute; reflexivity | unfold EXT2_ROOT_INODE; lia]|].
  intros n Hn. unfold inode_valid in Hn. destruct sample_fields as (E8 & _). rewrite E8 in Hn.
  assert (Cases : n = 2 \/ n = 3 \/ In n [1; 4; 5; 6; 7; 8]) by (cbn; lia). destruct Cases as [-> | [-> | Hi]].
  - destruct sample_dir_sound as [Ds Eo]. split; [intros _; exists sample_entries; exact (ds_entries _ _ _ _ Ds) | intros _ _; exists 1, sample_entries; exact (conj Ds Eo) | intros _ _; vm_compute; reflexivity|].
    intros _ H. vm_compute in H. discriminate H.
  - assert (D : disk sample 3 = file_inode) by (vm_compute; reflexivity).
    split; rewrite D; [discriminate | discriminate | discriminate|]. intros _ _. exact sample_file_ok.
  - assert (H : forallb (fun n => negb (inode_is_dir (disk sample n)) && negb (inode_is_file (disk sample n))) [1; 4; 5; 6; 7; 8] = true) by (vm_compute; reflexivity).
    rewrite forallb_forall in H. specialize (H n Hi). apply andb_true_iff in H as [H1 H2]. apply plain_node_ok; apply negb_true_iff; assumption.
Qed.

Lemma create_file_correct_witness :
  (exists r x', ext2_create_file sample [47; 98] = Ret (r, x') /\ tree_ok x' /\ create_outcome sample [47; 98] r x'
   /\ (forall p n, number sample p = Some n -> number x' p = Some n)
   /\ (r = 0 -> number sample [47; 98] = None /\ exists n, number x' [47; 98] = Some n /\ number x' [47; 98] <> number sample [47; 98]
         /\ forall len offset, 0 <= len -> 0 <= offset -> ext2_read_file x' [47; 98] len offset = Ret (0, [])))
  /\ match ext2_create_file sample [47; 98] with
     | Ret (r, x') => (r, number x' [47; 98], number x' [47; 97]) = (0, Some 4, Some 3)
     | _ => False
     end.
Proof.
  split.
  - apply (create_file_correct sample [47; 98] sample_tree_ok). repeat constructor; unfold is_byte; lia.
  - vm_compute. reflexivity.
Defined.
