(* ===== verification/Ext2Mkdir.v ===== *)
(** * Creating directories: [ext2_mkdir] on the tree *)

From S2P Require Import Prelude Klog Pmm Vmm Pages Heap Fs Elf Keyboard Process Scheduler Kernel Syscall PathProofs.
From S2P Require Import Ext2Image Ext2Codec Ext2Layout Ext2Alloc Ext2 Ext2Ops Ext2Sample Ext2Proofs Ext2Dir Ext2Own Ext2Link Ext2Free Ext2Write Ext2Files.
From S2P Require Import Ext2Inodes Ext2Names Ext2Tree Ext2Create.

(** ** The block of a new directory *)

(** Its two entries: itself and its parent. *)
Definition dot_entries (k d : Z) : list dir_entry := [mk_entry k EXT2_FILE_TYPE_DIR [46]; mk_entry d EXT2_FILE_TYPE_DIR [46; 46]].

(** The stores of [dir_block], with the place of the second record. *)
Definition dots (m : mem) (p bs k d : Z) : mem :=
  let m := mem_fill m p 0 (Z.to_nat bs) in
  let m := store8 (store8 (store8 (store16 (store32 m p k) (p + 4) 12) (p + 6) 1) (p + 7) EXT2_FILE_TYPE_DIR) (p + 8) 46 in
  store8 (store8 (store8 (store8 (store16 (store32 m (p + 12) d) (p + 12 + 4) (bs - 12)) (p + 12 + 6) 2) (p + 12 + 7) EXT2_FILE_TYPE_DIR) (p + 12 + 8) 46) (p + 12 + 9) 46.

Lemma dir_block_dots m p bs k d : dir_block m p bs k d = dots m p bs k d.
Proof.
  unfold dir_block, dots. change (dir_entry_min_len 1) with 12. cbv zeta. set (m5 := store8 _ (p + 8) 46).
  assert (E : de_rec_len m5 p = 12).
  { unfold de_rec_len, m5. rewrite !load_store_disj by lia. rewrite load_store_eq. reflexivity. }
  rewrite E. assert (E' : de_rec_len (store32 m5 (p + 12) d) p = 12) by (unfold de_rec_len in *; rewrite load_store_disj by lia; exact E).
  rewrite E'. reflexivity.
Qed.

Ltac stored := repeat rewrite load_store_disj by lia; rewrite load_store_eq; reflexivity.

Lemma dir_block_parses m p bs k d :
  is_u32 k -> is_u32 d -> 24 <= bs <= 4096 -> parses (dir_block m p bs k d) (p + bs) (p + 0) (dot_entries k d).
Proof.
  intros Hk Hd Hbs. rewrite dir_block_dots, Z.add_0_r. set (m' := dots m p bs k d).
  assert (L1 : de_inode m' p = k) by (unfold de_inode, m', dots; cbv zeta; repeat rewrite load_store_disj by lia; rewrite load_store_eq; apply Z.mod_small; exact Hk).
  assert (L2 : de_inode m' (p + 12) = d) by (unfold de_inode, m', dots; cbv zeta; repeat rewrite load_store_disj by lia; rewrite load_store_eq; apply Z.mod_small; exact Hd).
  assert (R1 : de_rec_len m' p = 12) by (unfold de_rec_len, m', dots; cbv zeta; stored).
  assert (R2 : de_rec_len m' (p + 12) = bs - 12).
  { unfold de_rec_len, m', dots; cbv zeta; repeat rewrite load_store_disj by lia. rewrite load_store_eq. apply Z.mod_small. change (256 ^ Z.of_nat 2) with 65536. lia. }
  assert (N1 : de_name_len m' p = 1) by (unfold de_name_len, m', dots; cbv zeta; stored).
  assert (N2 : de_name_len m' (p + 12) = 2) by (unfold de_name_len, m', dots; cbv zeta; stored).
  assert (T1 : de_file_type m' p = EXT2_FILE_TYPE_DIR) by (unfold de_file_type, m', dots; cbv zeta; stored).
  assert (T2 : de_file_type m' (p + 12) = EXT2_FILE_TYPE_DIR) by (unfold de_file_type, m', dots; cbv zeta; stored).
  assert (B : forall j, (j = 8 \/ j = 20 \/ j = 21) -> u8 (m' (p + j)) = 46).
  { intros j Hj. rewrite <- load8_byte. destruct Hj as [-> | [-> | ->]]; [|replace (p + 20) with (p + 12 + 8) by lia | replace (p + 21) with (p + 12 + 9) by lia];
      unfold m', dots; cbv zeta; stored. }
  assert (E1 : entry_at m' p = mk_entry k EXT2_FILE_TYPE_DIR [46]).
  { unfold entry_at. rewrite L1, T1, N1. f_equal. unfold de_name, mem_read. change (Z.to_nat 1) with 1%nat. cbn [map seq].
    replace (p + 8 + Z.of_nat 0) with (p + 8) by lia. rewrite B by auto. reflexivity. }
  assert (E2 : entry_at m' (p + 12) = mk_entry d EXT2_FILE_TYPE_DIR [46; 46]).
  { unfold entry_at. rewrite L2, T2, N2. f_equal. unfold de_name, mem_read. change (Z.to_nat 2) with 2%nat. cbn [map seq].
    replace (p + 12 + 8 + Z.of_nat 0) with (p + 20) by lia. replace (p + 12 + 8 + Z.of_nat 1) with (p + 21) by lia. rewrite !B by auto. reflexivity. }
  unfold dot_entries. rewrite <- E1, <- E2. apply parses_entry; rewrite ?R1, ?N1; try lia. apply parses_entry; rewrite ?R2, ?N2; try lia.
  apply parses_end. lia.
Qed.

Lemma dir_block_out m p bs k d a : 24 <= bs -> ~ (p <= a < p + bs) -> dir_block m p bs k d a = m a.
Proof. intros Hbs Ha. rewrite dir_block_dots. unfold dots. cbv zeta. rewrite !store_out by lia. apply mem_fill_out. lia. Qed.

(** ** The inode of a new directory *)

Definition new_dir (bs : Z) : ext2_inode := set_i_links_count (set_i_size (set_i_mode zero_inode (Z.lor EXT2_S_IFDIR 0x1ed)) bs) 2.

Lemma new_dir_wf bs : 0 <= bs <= 4096 -> inode_wf (new_dir bs).
Proof.
  intros Hb. destruct zero_inode_wf as [H W B O]. split; [| |exact B | exact O].
  - repeat (apply List.Forall_cons; [split; vm_compute; congruence|]). apply List.Forall_nil.
  - rewrite !List.Forall_cons_iff in W |- *. cbn [new_dir set_i_links_count set_i_size set_i_mode i_size i_atime i_ctime i_mtime i_dtime i_blocks
      i_flags i_osd1 i_generation i_file_acl i_dir_acl i_faddr] in *. unfold is_u32 in *. intuition lia.
Qed.

Section NewDir.
Context (x : ext2) (O : owned x (disk x)) (k d : Z) (Hk : inode_valid x k) (Zk : disk x k = zero_inode).
Context (Hk32 : is_u32 k) (Hd32 : is_u32 d).
Abbreviation T i := (with_inode (disk x) k i).
Abbreviation bs := (x_block_size x).
Abbreviation i0 := (new_dir bs).

Lemma new_dir_owned : owned x (T i0).
Proof.
  pose proof (bs_range x (owned_layout x _ O)) as Hbs. apply (owned_fields (disk x) k x (disk x k) i0 (disk_self k x O)).
  - rewrite Zk. reflexivity.
  - apply new_dir_wf. lia.
Qed.

(** The inode with its block and the two entries in it. *)
Lemma new_dir_ok x2 b :
  owned x2 (T i0) -> kept (fun _ => True) k x (T i0) x2 (T i0) -> fresh x2 (T i0) b ->
  let i := update_inode_block_count x2 (set_i_block i0 0 b) in
  let x3 := set_image x2 (dir_block (x_image x2) (b * bs) bs k d) in
  exists x4, write_inode x3 k i = Ret (true, x4) /\ owned x4 (disk x4) /\ touched (eq k) x x4 /\ disk x4 k = i
  /\ inode_used x4 k = inode_used x k /\ dir_sound x4 (disk x4 k) 1 (dot_entries k d) /\ inode_is_file (disk x4 k) = false.
Proof.
  intros O2 K2 Fb i x3. pose proof (owned_layout x _ O) as L. pose proof (bs_range x L) as Hbs. pose proof (owned_layout x2 _ O2) as L2.
  destruct (kp_image _ _ _ _ _ _ K2) as (m2 & Ex2 & G2). assert (Ebs : x_block_size x2 = bs) by (rewrite Ex2; reflexivity).
  assert (Hk2 : inode_valid x2 k) by (rewrite Ex2; apply frame_inode_valid; assumption).
  pose proof (new_dir_wf bs ltac:(lia)) as W0. pose proof (fr_valid _ _ _ Fb) as Bv.
  pose proof (link_direct (disk x) k x2 i0 0 b O2 Hk2 ltac:(lia) eq_refl Fb) as Lk.
  pose proof (link_owned _ _ _ _ _ _ _ Lk) as O2'. pose proof (link_kept (fun _ => True) _ _ _ _ _ _ _ Lk) as K2'.
  pose proof (linked_block_id k x2 _ _ _ 0 b Lk Hk2) as Eb. rewrite set_image_id in O2', K2', Eb. rewrite with_inode_same in Eb.
  assert (Hmb : 0 <= 0 < max_blocks x2) by (unfold max_blocks, EXT2_DIRECT_BLOCKS; pose proof (Z.div_pos (x_block_size x2) 4 ltac:(lia) ltac:(lia)); lia).
  specialize (Eb Hmb). set (i1 := set_i_block i0 0 b) in *.
  assert (W1 : inode_wf i1) by (apply set_i_block_wf; [exact W0 | exact (block_u32 x2 b L2 Bv)]).
  pose proof (owned_fields (disk x) k x2 i1 i O2' eq_refl (update_count_wf x2 i1 W1)) as Oi.
  assert (Ebi : block_id_at x2 i 0 = b) by (rewrite (block_id_blocks x2 i1 i 0 eq_refl); exact Eb).
  assert (Hbz : b <> 0) by exact (fresh_nonzero x2 _ b L2 Fb).
  destruct (block_update_ok (disk x) k (fun _ => True) x2 i 0 (dir_block (x_image x2) (b * bs) bs k d) Oi Hk2 ltac:(lia) ltac:(congruence)) as (O3 & K3 & _ & B3).
  { intros a Ha. rewrite dir_block_out; [reflexivity | lia|]. unfold in_block in Ha. rewrite Ebi, Ebs in Ha. lia. }
  { intros p _ []. exact I. }
  fold x3 in O3, K3, B3. rewrite Ebi, Ebs in B3.
  assert (M : moved (fun _ => True) k x (T i0) x3 (T i)).
  { apply (kp_moved _ _ _ _ _ _ (kept_trans _ k _ _ x2 (T i) _ _ L (kept_trans _ k _ _ x2 (T i1) _ _ L (kept_trans _ k _ _ x2 (T i0) _ _ L K2 K2')
      (kept_fields _ (disk x) k x2 i1 i eq_refl eq_refl)) K3)). }
  destruct (held_write_ok x k i0 i x3 Hk new_dir_owned O3 M) as (x4 & E & O4 & T4 & D4 & U4 & B4 & _).
  exists x4. split; [exact E|]. split; [exact O4|]. split; [exact T4|]. split; [exact D4|].
  split; [rewrite U4; exact (moved_used _ _ _ _ _ _ k L M Hk)|]. rewrite D4. split; [|reflexivity].
  assert (Ebs4 : x_block_size x4 = bs) by (exact (touched_bs _ _ _ T4)).
  assert (Emb : max_blocks x4 = max_blocks x2) by (unfold max_blocks; rewrite Ebs4, Ebs; reflexivity).
  split; [reflexivity | rewrite Emb; lia | rewrite Ebs4; symmetry; apply Z.mul_1_l|].
  apply (dir_entries_blocks x4 i 1 _ (owned_layout x4 _ O4)); [lia | rewrite Ebs4; symmetry; apply Z.mul_1_l|].
  exists [dot_entries k d]. split; [symmetry; apply app_nil_r|]. split; [reflexivity|]. intros j c Hj.
  apply list_lookup_singleton_Some in Hj as [-> <-]. rewrite Ebs4.
  pose proof (dir_block_parses (x_image x2) (b * bs) bs k d Hk32 Hd32 ltac:(lia)) as Pd. apply (parses_shift _ (b * bs)) in Pd.
  apply (parses_ext _ _ _ _ _ Pd). intros a Ha. unfold file_view. rewrite Ebs4. change (Z.of_nat 0) with 0. rewrite Z.mul_0_l, Z.add_0_l.
  rewrite B4 by lia. rewrite B3 by (apply Z.div_small; lia). rewrite u8_idem, Z.mod_small by lia. reflexivity.
Qed.
End NewDir.

(** ** The links of a directory *)

Lemma set_links_wf i v : inode_wf i -> is_u16 v -> inode_wf (set_i_links_count i v).
Proof.
  intros [H W B O] Hv. split; [|exact W | exact B | exact O].
  rewrite !List.Forall_cons_iff in H |- *. tauto.
Qed.

Lemma links_range x d : 0 <= i_links_count (disk x d) < 65536.
Proof. pose proof (iw_half _ (disk_wf x d)) as Hh. rewrite !List.Forall_cons_iff in Hh. unfold is_u16 in Hh. tauto. Qed.

Lemma set_links_ok x d v b es :
  owned x (disk x) -> inode_valid x d -> is_u16 v -> dir_sound x (disk x d) b es ->
  exists x', write_inode x d (set_i_links_count (disk x d) v) = Ret (true, x')
  /\ owned x' (disk x') /\ changed (fun _ => True) d x x' /\ disk x' d = set_i_links_count (disk x d) v /\ dir_sound x' (disk x' d) b es
  /\ same_blocks x x'.
Proof.
  intros O Hd Hv Ds. pose proof (owned_layout x _ O) as L. pose proof (bs_range x L) as Hbs. set (i := set_i_links_count (disk x d) v).
  assert (Wi : inode_wf i) by (apply set_links_wf; [apply disk_wf | exact Hv]).
  destruct (commit_ok (fun _ => True) d x Hd x i O) as (x' & E & O' & D & C & B & _ & Sb).
  - exact (owned_fields (disk x) d x (disk x d) i (disk_self d x O) eq_refl Wi).
  - exact (kp_moved _ _ _ _ _ _ (kept_fields _ (disk x) d x (disk x d) i eq_refl eq_refl)).
  - exists x'. split; [exact E|]. split; [exact O'|]. split; [exact C|]. split; [exact D|]. split; [|exact Sb].
    rewrite D. destruct (ch_image _ _ _ _ C) as (m' & Ex & G).
    destruct Ds as [Dd Dn Dz De]. split; [exact Dd | rewrite Ex; exact Dn | rewrite Ex; exact Dz|]. rewrite <- De.
    apply dir_entries_same; [lia | rewrite Ex; reflexivity | reflexivity|]. intros p Hp. rewrite B by exact Hp. apply file_byte_blocks. reflexivity.
Qed.

(** ** Giving back *)

(** The new inode and its block are given back when there is no room for the
    entry: the inode keeps its number of the block, so that only the tree is
    sound afterwards. *)
Lemma give_back_ok x k b :
  owned x (disk x) -> inode_valid x k -> slot x (disk x k) 0 = b -> b <> 0 ->
  exists x1 x2, mark_block_used x b false = Ret (true, x1) /\ mark_inode_used x1 k false true = Ret (true, x2)
  /\ ext2_ok x2 /\ touched (eq k) x x2 /\ inode_used x2 k = false
  /\ sb_free_blocks_count (x_image x2) <= sb_free_blocks_count (x_image x) + 1.
Proof.
  intros O Hk Eb Hb. pose proof (owned_layout x _ O) as L. pose proof (n_slots_range x L) as Hns.
  assert (Hs : slot_of x k 0) by (split; [exact Hk | lia]). destruct (ow_block x _ O k 0 Hs) as (Bv & Bu & Bd); [congruence|]. rewrite Eb in Bv, Bu, Bd.
  set (V := with_inode (disk x) k zero_inode).
  assert (OV : owned x V).
  { apply (owned_sub x V (disk x) O); intros l; unfold V, with_inode; destruct (Z.eqb_spec l k); intros;
      [exact zero_inode_wf | apply disk_wf | left; apply zero_slot | right; reflexivity]. }
  assert (Un : unowned x V b).
  { intros n s Hns' E. unfold V, with_inode in E. destruct (Z.eqb_spec n k) as [->|Hne]; [rewrite zero_slot in E; congruence|].
    apply Hne. apply (ow_inj x _ O n s k 0 Hns' Hs); congruence. }
  destruct (unmark_quiet x V b OV Bv Bd Un) as (m1 & E1 & Q1 & C1 & _). exists (set_image x m1).
  pose proof (quiet_owned x V m1 OV Q1) as O1. pose proof (kp_moved _ _ _ _ _ _ (quiet_kept (fun _ => True) k x V m1 OV Q1)) as M1.
  pose proof (proj2 (held_valid x k _ _ _ M1 k) Hk) as Hk1.
  destruct (mark_inode_ok (set_image x m1) (ow_ok _ _ O1) k Hk1 false true) as (m2 & E2 & Mk). exists (set_image (set_image x m1) m2).
  split; [exact E1|]. split; [exact E2|]. split; [exact (im_ok _ _ _ _ Mk)|].
  split; [|split; [rewrite (im_used _ _ _ _ Mk k Hk1), Z.eqb_refl; reflexivity|]].
  - apply (held_touched x k Hk zero_inode zero_inode OV _ O1 M1 m2 (im_ok _ _ _ _ Mk) (im_geom _ _ _ _ Mk)).
    + intros a H1 H2 _. exact (im_frame _ _ _ _ Mk a H1 H2).
    + exact (used_others _ k false m2 (im_used _ _ _ _ Mk)).
  - change (x_image (set_image (set_image x m1) m2)) with m2. rewrite (inode_marked_free _ k false m2 (owned_layout _ _ O1) Hk1 Mk).
    change (x_image (set_image x m1)) with m1. rewrite C1, Bu. cbn. lia.
Qed.

(** A free inode that was taken and is given back leaves the tree. *)
Lemma unchanged_tree_ok x S x' (Dec : forall k, {S k} + {~ S k}) :
  tree_ok x -> touched S x x' -> owned x' (disk x') ->
  (forall k, S k -> inode_used x k = false /\ inode_used x' k = false /\ node_ok x' k) -> tree_ok x' /\ tree x' = tree x.
Proof.
  intros T Tc O' H. pose proof (owned_layout x _ (to_owned x T)) as L. split.
  - apply (touched_tree_ok S x x' L Tc T O'); [|intros k Hs _; apply H, Hs | exact Dec].
    intros k Hl. apply (touched_live S x x' Tc); [|exact Hl]. intros Hs. destruct (H k Hs) as (Hf & _). destruct Hl. congruence.
  - apply (tree_eq S x x' Dec); [exact L | exact Tc | | auto]. intros k Hs. destruct (H k Hs) as (Hf & Hf' & _).
    rewrite lookup_tree, !node_of_none by assumption. reflexivity.
Qed.

(** ** [ext2_mkdir] *)

(** The contents of a new directory. *)
Definition dot_map (k d : Z) : gmap (list Z) Z := <[[46] := k]> {[[46; 46] := d]}.

(** How it ends: refused and nothing changes; or no inode or no block is free
    and the tree is as it was; or there is no room for the entry, and the tree
    is the same; or the tree has a directory more. *)
Inductive mkdir_outcome (x : ext2) (path : list Z) : Z -> ext2 -> Prop :=
  | mkdir_refused :
      tree_path (tree x) path <> None \/ parent_dir (tree x) path = None -> mkdir_outcome x path USER_ERR_INVAL x
  | mkdir_nothing_free x' :
      tree_ok x' -> tree x' = tree x -> no_free_inode x \/ sb_free_blocks_count (x_image x') = 0 -> mkdir_outcome x path USER_ERR_FAULT x'
  | mkdir_no_room entries d name x' :
      parent_dir (tree x) path = Some (entries, d, name) -> ext2_ok x' -> tree x' = tree x ->
      i_size (disk x d) = max_blocks x * x_block_size x \/ sb_free_blocks_count (x_image x') <= 2 ->
      mkdir_outcome x path USER_ERR_FAULT x'
  | mkdir_done entries d name k x' :
      parent_dir (tree x) path = Some (entries, d, name) -> entries !! name = None -> tree x !! k = None -> tree_ok x' ->
      tree x' = <[k := Dir (dot_map k d)]> (<[d := Dir (<[name := k]> entries)]> (tree x)) ->
      mkdir_outcome x path (if sync_fine x' then 0 else USER_ERR_FAULT) (synced x').

(** The part of it that takes an inode and a block. *)
Definition mkdir_rest (x : ext2) (d : Z) (name : list Z) (k b : Z) : ext2 -> res (Z * ext2) := fun x2 =>
  if (k =? 0) || (b =? 0) then
    (if negb (k =? 0) then mark_inode_used x2 k false true else Ret (true, x2)) ≫= fun '(_, x) =>
    (if negb (b =? 0) then mark_block_used x b false else Ret (true, x)) ≫= fun '(_, x) => Ret (USER_ERR_FAULT, x)
  else
    let inode := update_inode_block_count x2 (set_i_block (new_dir (x_block_size x2)) 0 b) in
    match block_ptr x2 b 0 (x_block_size x2) with
    | None =>
        mark_block_used x2 b false ≫= fun '(_, x) =>
        mark_inode_used x k false true ≫= fun '(_, x) => Ret (USER_ERR_FAULT, x)
    | Some data =>
        let x3 := set_image x2 (dir_block (x_image x2) data (x_block_size x2) k d) in
        let parent := set_i_links_count (disk x d) (u16 (i_links_count (disk x d) + 1)) in
        write_inode x3 k inode ≫= fun '(ok, x) =>
        (if negb ok then Ret (false, x) else write_inode x d parent) ≫= fun '(ok, x) =>
        (if negb ok then Ret (false, x) else add_dir_entry x parent d k name EXT2_FILE_TYPE_DIR) ≫= fun '(ok, x) =>
        if negb ok then
          mark_block_used x b false ≫= fun '(_, x) =>
          mark_inode_used x k false true ≫= fun '(_, x) => Ret (USER_ERR_FAULT, x)
        else finish x
    end.

Section Mkdir.
Context (x : ext2) (T : tree_ok x) (d b : Z) (es : list dir_entry) (name : list Z).
Context (Hd : live x d) (Hdir : inode_is_dir (disk x d) = true) (Ds : dir_sound x (disk x d) b es) (Eo : entries_ok x es).
Context (Hname : good_name name) (Hnew : lookup_name es name = None).

(** No inode is free. *)
Lemma mkdir_no_inode r x2 :
  allocate_block x = Ret (r, x2) -> exists x', mkdir_rest x d name 0 r x2 = Ret (USER_ERR_FAULT, x') /\ tree_ok x' /\ tree x' = tree x.
Proof.
  intros E. pose proof (to_owned x T) as O. destruct (allocate_owned x (disk x) O) as (r' & x2' & E' & O2 & K2 & _ & _ & R2).
  rewrite E in E'. injection E' as <- <-. unfold mkdir_rest. cbn [Z.eqb orb negb mbind res_bind].
  destruct (Z.eqb_spec r 0) as [->|Hr]; cbn [negb].
  - destruct R2 as [-> _]. exists x. split; [reflexivity|]. auto.
  - destruct (unmark_quiet x2 (disk x) r O2 (fr_valid _ _ _ R2) (fr_data _ _ _ R2) (fr_unowned _ _ _ R2)) as (m3 & -> & Q3 & _).
    cbn [mbind res_bind]. exists (set_image x2 m3). split; [reflexivity|].
    destruct (idle_step x (set_image x2 m3) O (quiet_owned x2 _ m3 O2 Q3)) as [O3 T3].
    { intros n. exact (kept_trans _ n x _ x2 _ _ _ (owned_layout x _ O) (K2 _ n) (quiet_kept _ n x2 _ m3 O2 Q3)). }
    apply (unchanged_tree_ok x (fun _ => False) _ (fun _ => right (fun H => H)) T T3 O3). intros k [].
Qed.

Section Taken.
Context (k : Z) (m1 : mem) (Tk : inode_taken x k m1).
Abbreviation x1 := (set_image x m1).

Lemma taken_u32 j : inode_valid x j -> is_u32 j.
Proof.
  intros Hj. pose proof (load_range 4 (x_image x) EXT2_SUPERBLOCK_OFFSET) as R. unfold inode_valid in Hj. unfold is_u32.
  change (load32 (x_image x) EXT2_SUPERBLOCK_OFFSET) with (sb_inodes_count (x_image x)) in R. lia.
Qed.

(** No block is free. *)
Lemma mkdir_no_block : no_free_block x1 ->
  exists x', mkdir_rest x d name k 0 x1 = Ret (USER_ERR_FAULT, x') /\ tree_ok x' /\ tree x' = tree x /\ sb_free_blocks_count (x_image x') = 0.
Proof.
  intros Hno. destruct (inode_taken_step x k m1 (to_owned x T) Tk) as (O1 & T1 & D1). pose proof (it_valid _ _ _ Tk) as Hk.
  assert (Hk1 : inode_valid x1 k) by (apply (touched_valid _ _ _ k T1); exact Hk). unfold mkdir_rest.
  destruct (Z.eqb_spec k 0) as [E|_]; [unfold inode_valid in Hk; lia|]. cbn [Z.eqb orb negb].
  destruct (mark_inode_ok x1 (ow_ok _ _ O1) k Hk1 false true) as (m2 & -> & Mk). cbn [mbind res_bind].
  destruct (inode_marked_step x1 k false m2 O1 Hk1 Mk) as (O2 & T2 & D2). exists (set_image x1 m2). split; [reflexivity|]. apply and_assoc. split.
  - apply (unchanged_tree_ok x (eq k)); [exact (Z.eq_dec k) | exact T | exact (touched_trans _ _ _ _ T1 T2) | exact O2|].
    intros j <-. split; [exact (it_free _ _ _ Tk)|]. split; [rewrite (im_used _ _ _ _ Mk k Hk1), Z.eqb_refl; reflexivity|].
    assert (D : disk (set_image x1 m2) k = zero_inode) by congruence. split; rewrite D; discriminate.
  - change (x_image (set_image x1 m2)) with m2. rewrite (inode_marked_free x1 k false m2 (owned_layout _ _ O1) Hk1 Mk).
    exact (no_free_count x1 (ow_ok _ _ O1) Hno).
Qed.

(** The inode is written, and the parent counts it. *)
Lemma mkdir_written r x2 :
  allocate_block x1 = Ret (r, x2) -> r <> 0 ->
  exists x5, mkdir_rest x d name k r x2
    = (add_dir_entry x5 (disk x5 d) d k name EXT2_FILE_TYPE_DIR ≫= fun '(ok, x) =>
       if negb ok then
         mark_block_used x r false ≫= fun '(_, x) =>
         mark_inode_used x k false true ≫= fun '(_, x) => Ret (USER_ERR_FAULT, x)
       else finish x)
  /\ owned x5 (disk x5) /\ dir_sound x5 (disk x5 d) b es
  /\ exists x4, owned x4 (disk x4) /\ touched (eq k) x x4 /\ changed (fun _ => True) d x4 x5 /\ inode_used x4 k = true
     /\ slot x4 (disk x4 k) 0 = r /\ dir_sound x4 (disk x4 k) 1 (dot_entries k d) /\ inode_is_file (disk x4 k) = false.
Proof.
  intros E Hr. destruct (inode_taken_step x k m1 (to_owned x T) Tk) as (O1 & T1 & D1). pose proof (it_valid _ _ _ Tk) as Hk.
  pose proof (proj1 Hd) as Hdv. pose proof (old_not_new x k d (it_free _ _ _ Tk) Hd) as Hne.
  assert (Hk1 : inode_valid x1 k) by (apply (touched_valid _ _ _ k T1); exact Hk).
  pose proof (new_dir_owned x1 O1 k D1) as O1'. set (i0 := new_dir (x_block_size x1)) in *.
  destruct (allocate_owned x1 _ O1') as (r' & x2' & E' & O2 & K2 & _ & _ & R2). rewrite E in E'. injection E' as <- <-.
  destruct (Z.eqb_spec r 0) as [|_]; [contradiction|]. destruct (kp_image _ _ _ _ _ _ (K2 (fun _ => True) k)) as (m2 & Ex2 & _).
  assert (Ebs : x_block_size x2 = x_block_size x1) by (rewrite Ex2; reflexivity). pose proof (bs_range x1 (owned_layout x1 _ O1)) as Hbs.
  unfold mkdir_rest. destruct (Z.eqb_spec k 0) as [Ez|_]; [unfold inode_valid in Hk; lia|]. destruct (Z.eqb_spec r 0); [contradiction|]. cbn [orb].
  rewrite (block_ptr_valid x2 (owned_layout x2 _ O2)) by (first [exact (fr_valid _ _ _ R2) | lia]). rewrite Z.add_0_r, Ebs. cbv zeta.
  destruct (new_dir_ok x1 O1 k d Hk1 D1 (taken_u32 k Hk) (taken_u32 d Hdv) x2 r O2 (K2 _ k) R2) as (x4 & E4 & O4 & T4 & D4 & U4 & Ds4 & F4).
  cbv zeta in E4. rewrite E4. cbn [mbind res_bind negb].
  pose proof (touched_trans _ _ _ _ T1 T4) as T14. assert (Hd4 : inode_valid x4 d) by (apply (touched_valid _ _ _ d T14); exact Hdv).
  assert (Dd : disk x4 d = disk x d) by (apply (tc_disk _ _ _ T14 d Hdv); congruence).
  assert (Dd4 : dir_sound x4 (disk x4 d) b es) by (apply (touched_dir_sound _ x x4 (owned_layout x _ (to_owned x T)) T14); auto).
  destruct (set_links_ok x4 d (u16 (i_links_count (disk x d) + 1)) b es O4 Hd4 (u16_range _) Dd4) as (x5 & E5 & O5 & C5 & D5 & Ds5 & _).
  rewrite Dd in E5, D5. rewrite E5. cbn [mbind res_bind negb]. exists x5. rewrite <- D5. split; [reflexivity|]. split; [exact O5|]. split; [exact Ds5|].
  exists x4. split; [exact O4|]. split; [exact T14|]. split; [exact C5|].
  split; [rewrite U4, (it_used _ _ _ Tk k Hk), Z.eqb_refl; reflexivity|]. split; [rewrite D4; reflexivity|]. auto.
Qed.

Lemma mkdir_taken_ok r x2 :
  allocate_block x1 = Ret (r, x2) -> r <> 0 ->
  exists res x', mkdir_rest x d name k r x2 = Ret (res, x')
  /\ ((ext2_ok x' /\ tree x' = tree x /\ res = USER_ERR_FAULT
       /\ (b = max_blocks x \/ sb_free_blocks_count (x_image x') <= 2))
      \/ exists x3, tree_ok x3 /\ tree x3 = <[k := Dir (dot_map k d)]> (<[d := Dir (<[name := k]> (dir_map es))]> (tree x))
         /\ res = (if sync_fine x3 then 0 else USER_ERR_FAULT) /\ x' = synced x3).
Proof.
  intros E Hr. pose proof (it_valid _ _ _ Tk) as Hk. pose proof (it_free _ _ _ Tk) as Hfree. pose proof (proj1 Hd) as Hdv.
  pose proof (old_not_new x k d Hfree Hd) as Hne. pose proof (owned_layout x _ (to_owned x T)) as L.
  destruct (mkdir_written r x2 E Hr) as (x5 & -> & O5 & Ds5 & x4 & O4 & T4 & C5 & U4 & S4 & Dk4 & Fk4).
  assert (Hd5 : inode_valid x5 d) by (apply (touched_valid _ _ _ d (changed_touched _ d x4 x5 (owned_layout x4 _ O4) C5)), (touched_valid _ _ _ d T4); exact Hdv).
  destruct (add_dir_entry_ok x5 O5 d Hd5 k name EXT2_FILE_TYPE_DIR (taken_u32 k Hk) Hname ltac:(unfold is_byte, EXT2_FILE_TYPE_DIR; lia) b es Ds5)
    as (ok & x6 & -> & O6 & C6 & R6). cbn [mbind res_bind].
  pose proof (changed_trans _ d _ _ _ (owned_layout x4 _ O4) C5 C6) as C46.
  destruct (unlinked_step x d k (disk x4 k) Hd Hk Hfree x4 x6 T4 eq_refl U4 C46 O4) as (T6 & D6 & U6 & M6 & V6).
  pose proof (changed_touched _ d x4 x6 (owned_layout x4 _ O4) C46) as T46.
  assert (Hk4 : inode_valid x4 k) by (apply (touched_valid _ _ _ k T4); exact Hk).
  assert (Hk6 : inode_valid x6 k) by (apply (touched_valid _ _ _ k T6); exact Hk).
  pose proof (touched_dir_sound _ x4 x6 (owned_layout x4 _ O4) T46 k 1 _ Hk4 Hne Dk4) as Dk6.
  assert (Lk : live x6 k) by (split; assumption).
  assert (Ld : live x6 d) by (split; [apply (touched_valid _ _ _ d T6); exact Hdv | rewrite V6; apply Hd]).
  assert (Ek : entries_ok x6 (dot_entries k d)).
  { unfold inode_valid in Hk, Hdv. split; unfold dot_entries, used_entries; cbn [List.filter en_inode]; destruct (Z.eqb_spec k 0), (Z.eqb_spec d 0); try lia; cbn [negb map en_name].
    - constructor; [intros [H | []]; discriminate H | constructor; [intros [] | constructor]].
    - intros e [<- | [<- | []]]; assumption. }
  assert (Nk : node_ok x6 k) by (apply (dir_node_plain x6 k 1 (dot_entries k d)); [rewrite D6; exact Fk4 | exact Dk6 | exact Ek]).
  destruct ok; cbn [negb].
  - destruct R6 as (n' & es' & Ds6 & Ins).
    destruct (entry_added x T d b es k Hd Hdir Ds Eo Hk Hfree x6 T6 O6 M6 V6 Nk name _ n' es' Ds6 Ins Hnew Lk) as [Tr Et].
    rewrite finish_eq. eexists _, _. split; [reflexivity|]. right. exists x6. split; [exact Tr|]. split; [|auto].
    rewrite Et. unfold node_at. rewrite (ds_dir _ _ _ _ Dk6), (ds_entries _ _ _ _ Dk6). do 2 f_equal. apply map_eq. intros nm. unfold dot_map.
    unfold inode_valid in Hk, Hdv. unfold dir_map, used_entries, dot_entries. cbn [List.filter en_inode].
    destruct (Z.eqb_spec k 0), (Z.eqb_spec d 0); try lia. reflexivity.
  - destruct R6 as [Ds6 Full]. assert (S6 : slot x6 (disk x6 k) 0 = r) by (rewrite D6; exact S4).
    destruct (give_back_ok x6 k r O6 Hk6 S6 Hr) as (x7 & x8 & -> & E8 & OK8 & T8 & U8 & C8). cbn [mbind res_bind]. rewrite E8. cbn [mbind res_bind].
    exists USER_ERR_FAULT, x8. split; [reflexivity|]. left. split; [exact OK8|].
    assert (Hd6 : inode_valid x6 d) by (apply (touched_valid _ _ _ d T6); exact Hdv).
    assert (Ds8 : dir_sound x8 (disk x8 d) b es) by (apply (touched_dir_sound _ x6 x8 (owned_layout x6 _ O6) T8); auto; congruence).
    split; [|split; [reflexivity|]].
    + apply (refused_tree x T d b es k Hd Hdir Ds Eo Hfree x8) with (n' := b); auto.
      * apply (touched_trans _ x x6 x8 T6), (touched_weaken (eq k)); [unfold either; auto | exact T8].
      * rewrite (tc_disk _ _ _ T8 d Hd6) by congruence. exact M6.
      * rewrite (tc_used _ _ _ T8 d Hd6) by congruence. exact V6.
    + destruct Full as [Full | Full]; [left | right; lia]. rewrite Full, <- (touched_max _ _ _ T4).
      destruct (ch_image _ _ _ _ C5) as (m5 & -> & _). reflexivity.
Qed.
End Taken.
End Mkdir.

Lemma mkdir_cases x path entries d name :
  tree_ok x -> Forall is_byte path -> tree_path (tree x) path = None -> parent_dir (tree x) path = Some (entries, d, name) ->
  exists r x', ext2_mkdir x path = Ret (r, x') /\ mkdir_outcome x path r x'.
Proof.
  intros T Hb Ep Ed. destruct (parent_dir_path _ _ _ _ _ Ed) as (Hd & En & _). rewrite Ep in En. symmetry in En.
  pose proof (parent_good_name _ _ _ _ _ Hb Ed) as Gn.
  unfold ext2_mkdir. rewrite (path_lookup_named x path (fs_ok_sound x (tree_ok_fs x T))), (tree_path_named x path T), Ep. cbn [mbind res_bind option_map].
  rewrite (parent_lookup_ok x path T), Ed. cbn [mbind res_bind option_map].
  destruct (parent_entry_ok x path entries d name T Ed) as (Lv & Hdir & _ & _ & b & es & Ds & Eo & ->).
  pose proof En as Enm. rewrite lookup_dir_map in Enm. destruct (lookup_name es name) as [e|] eqn:El; [discriminate Enm|].
  destruct (allocate_inode_ok x true (ow_ok x _ (to_owned x T))) as (k & x1 & -> & Al). cbn [mbind res_bind].
  destruct Al as [(-> & -> & Hno) | (m1 & -> & Tk)].
  - destruct (allocate_owned x _ (to_owned x T)) as (r & x2 & E & _). rewrite E. cbn [mbind res_bind].
    destruct (mkdir_no_inode x T d name r x2 E) as (x' & E' & T' & Et).
    exists USER_ERR_FAULT, x'. split; [exact E' | apply mkdir_nothing_free; auto].
  - destruct (inode_taken_step x k m1 (to_owned x T) Tk) as (O1 & _ & D1).
    destruct (allocate_owned (set_image x m1) _ O1) as (r & x2 & E & _ & _ & _ & _ & R2). rewrite E. cbn [mbind res_bind].
    destruct (Z.eqb_spec r 0) as [->|Hr].
    + destruct R2 as [-> Hno]. destruct (mkdir_no_block x T d name k m1 Tk Hno) as (x' & E' & T' & Et & C').
      exists USER_ERR_FAULT, x'. split; [exact E' | apply mkdir_nothing_free; auto].
    + destruct (mkdir_taken_ok x T d b es name Lv Hdir Ds Eo Gn El k m1 Tk r x2 E Hr) as (res & x' & E' & Out).
      assert (Hk0 : tree x !! k = None) by (rewrite lookup_tree; apply node_of_none; exact (it_free _ _ _ Tk)).
      exists res, x'. split; [pose proof Hr as Hr'; unfold mkdir_rest in E'; destruct (Z.eqb_spec r 0); [contradiction | exact E']|].
      destruct Out as [(OK & Et & -> & Why) | (x3 & Tr3 & Et & -> & ->)].
      * apply (mkdir_no_room x path _ d name x' Ed OK Et). destruct Why as [Why|Why]; [left | right; exact Why]. rewrite (ds_size _ _ _ _ Ds), Why. reflexivity.
      * exact (mkdir_done x path _ d name k x3 Ed En Hk0 Tr3 Et).
Qed.

Lemma mkdir_all_cases x path :
  tree_ok x -> Forall is_byte path -> exists r x', ext2_mkdir x path = Ret (r, x') /\ mkdir_outcome x path r x'.
Proof.
  intros T Hb. destruct (tree_path (tree x) path) as [n0|] eqn:Ep; [|destruct (parent_dir (tree x) path) as [[[entries d] name]|] eqn:Ed];
    [| exact (mkdir_cases x path entries d name T Hb Ep Ed) |]; exists USER_ERR_INVAL, x.
  all: split; [unfold ext2_mkdir; rewrite (path_lookup_named x path (fs_ok_sound x (tree_ok_fs x T))), (tree_path_named x path T), Ep;
    cbn [mbind res_bind option_map]; rewrite ?(parent_lookup_ok x path T), ?Ed; reflexivity|].
  - apply mkdir_refused. left. congruence.
  - apply mkdir_refused. right. exact Ed.
Qed.

(** C25. Creating a directory by its path is an operation on the tree that the
    image stands for. On a sound tree [ext2_mkdir] ends: a path that names
    something, or whose parent is not a directory, is refused and nothing
    changes; when no inode or no block is free the error is reported and the
    tree is sound and the same; when there is no room for the entry the tree is
    the same; otherwise the tree is sound and has one directory more, with its
    own two links in it, under the name in the parent and with a number that
    named nothing. Every path names what it named, and after a success the path
    names the new directory. *)
Theorem mkdir_correct x path :
  tree_ok x -> Forall is_byte path ->
  exists r x', ext2_mkdir x path = Ret (r, x') /\ mkdir_outcome x path r x'
  /\ (tree_ok x' -> forall p n, number x p = Some n -> number x' p = Some n)
  /\ (r = 0 -> tree_ok x' /\ number x path = None
        /\ exists n d, number x' path = Some n /\ tree x !! n = None /\ tree x' !! n = Some (Dir (dot_map n d))).
Proof.
  intros T Hb. destruct (mkdir_all_cases x path T Hb) as (r & x' & E & Out). exists r, x'. split; [exact E|]. split; [exact Out|].
  destruct Out as [H | x' T' Et _ | ? ? ? x' _ _ Et _ | entries' d' name' k x3 Ed' En Hk T3 Et].
  - split; [auto | intros H'; discriminate H'].
  - split; [|intros H'; discriminate H']. intros _ p n. rewrite !number_resolve, Et by assumption. auto.
  - split; [|intros H'; discriminate H']. intros T' p n. rewrite !number_resolve, Et by assumption. auto.
  - pose proof (bs_range x3 (owned_layout x3 _ (to_owned x3 T3))) as Hbs. pose proof (synced_tree_ok x3 T3) as T4. pose proof (synced_tree x3 ltac:(lia)) as Es.
    destruct (parent_dir_path _ _ _ _ _ Ed') as (Hd & Ep & _). split.
    + intros _ p n. rewrite !number_resolve, Es, Et by assumption. apply extended_path; assumption.
    + intros _. split; [exact T4|]. split; [rewrite number_resolve by exact T; congruence|]. exists k, d'.
      rewrite number_resolve, Es, Et by exact T4. split; [exact (created_path _ _ _ _ _ k _ Ed' En Hk)|]. split; [exact Hk|]. apply lookup_insert_eq.
Qed.

Lemma mkdir_correct_witness :
  (exists r x', ext2_mkdir sample [47; 100] = Ret (r, x') /\ mkdir_outcome sample [47; 100] r x'
   /\ (tree_ok x' -> forall p n, number sample p = Some n -> number x' p = Some n)
   /\ (r = 0 -> tree_ok x' /\ number sample [47; 100] = None
        /\ exists n d, number x' [47; 100] = Some n /\ tree sample !! n = None /\ tree x' !! n = Some (Dir (dot_map n d))))
  /\ match ext2_mkdir sample [47; 100] with
     | Ret (r, x') => (r, number x' [47; 100], number x' [47; 97], number x' [47; 100; 47; 46; 46]) = (0, Some 4, Some 3, Some 2)
     | _ => False
     end.
Proof.
  split.
  - apply (mkdir_correct sample [47; 100] sample_tree_ok). repeat constructor; unfold is_byte; lia.
  - vm_compute. reflexivity.
Defined.
