(* ===== verification/Ext2Unlink.v ===== *)
(** * Removing files: [ext2_unlink] on the tree *)

From S2P Require Import Prelude Klog Pmm Vmm Pages Heap Fs Elf Keyboard Process Scheduler Kernel Syscall PathProofs.
From S2P Require Import Ext2Image Ext2Codec Ext2Layout Ext2Alloc Ext2 Ext2Ops Ext2Sample Ext2Proofs Ext2Dir Ext2Own Ext2Link Ext2Free Ext2Write Ext2Files.
From S2P Require Import Ext2Inodes Ext2Names Ext2Tree Ext2Create.

(** ** Taking a record out of a block *)

Abbreviation unused := (fun u : dir_entry => en_inode u = 0).

(** [es'] is [es] without its first entry of the name, which was in use. *)
Definition removed (k : Z) (name : list Z) (es es' : list dir_entry) : Prop :=
  exists a e b o, es = a ++ e :: b /\ es' = a ++ o ++ b /\ en_inode e = k /\ k <> 0 /\ en_name e = name
  /\ lookup_name a name = None /\ Forall unused o.

(** What follows a used entry is used. *)
Definition packed (es : list dir_entry) : Prop :=
  forall a u w b, es = a ++ u :: w :: b -> en_inode u <> 0 -> en_inode w <> 0.

Section Find.
Context (name : list Z) (m : mem) (base limit : Z).
Abbreviation parses' m := (parses m (base + limit)).

(** From [pos] on the entries [a] come before [p], also in a memory that
    differs from [p] on. *)
Definition before (pos p : Z) (a : list dir_entry) : Prop :=
  base + pos <= p /\ (a = [] -> p = base + pos)
  /\ forall m' b, (forall y, base + pos <= y < p -> u8 (m' y) = u8 (m y)) -> parses' m' p b -> parses' m' (base + pos) (a ++ b).

Lemma before_nil pos : before pos (base + pos) [].
Proof. split; [lia|]. split; [auto | intros m' b _ H; exact H]. Qed.

Lemma before_cons pos p a :
  base + pos + 8 <= base + limit -> 8 + de_name_len m (base + pos) <= de_rec_len m (base + pos) ->
  base + pos + de_rec_len m (base + pos) <= base + limit ->
  before (pos + de_rec_len m (base + pos)) p a -> before pos p (entry_at m (base + pos) :: a).
Proof.
  intros H8 Hlen Hlim (Hp & _ & Hb). pose proof (name_len_range m (base + pos)). split; [lia|]. split; [discriminate|]. intros m' b Hm Hpb.
  destruct (entry_at_ext m m' (base + pos) (de_rec_len m (base + pos)) Hlen) as (Ee & Er & En); [intros y Hy; apply Hm; lia|].
  cbn [app]. rewrite <- Ee. apply parses_entry; rewrite ?Er, ?En; auto. rewrite <- Z.add_assoc. apply Hb; [|exact Hpb]. intros y Hy. apply Hm. lia.
Qed.

(** The used entry that the search has seen last. *)
Inductive last_used (pos p : Z) (prev : option Z) (a : list dir_entry) : option Z -> Prop :=
  | last_none : Forall unused a -> last_used pos p prev a prev
  | last_some q a1 a2 :
      a = a1 ++ entry_at m q :: a2 -> Forall unused a2 -> de_inode m q <> 0 -> before pos q a1 ->
      8 + de_name_len m q <= de_rec_len m q -> q + de_rec_len m q <= p -> (a2 = [] -> q + de_rec_len m q = p) ->
      last_used pos p prev a (Some q).

Definition find_body (p : Z) (previous : option Z) : ctl (option Z) (Z * option Z) :=
  if negb (de_inode m p =? 0) && names_equal m p name then Break (p, previous)
  else Cont (if negb (de_inode m p =? 0) then Some p else previous).

Lemma scan_find_ok : forall fuel pos es prev,
  parses' m (base + pos) es -> limit - pos < 8 * Z.of_nat fuel + 8 ->
  (lookup_name es name = None /\ exists prev', scan_entries fuel m base limit pos find_body prev = Some (Cont prev'))
  \/ exists p previous a b, scan_entries fuel m base limit pos find_body prev = Some (Break (Some (p, previous)))
     /\ es = a ++ entry_at m p :: b /\ de_inode m p <> 0 /\ en_name (entry_at m p) = name /\ lookup_name a name = None
     /\ 8 + de_name_len m p <= de_rec_len m p /\ p + de_rec_len m p <= base + limit /\ parses' m (p + de_rec_len m p) b
     /\ before pos p a /\ last_used pos p prev a previous.
Proof.
  induction fuel as [|fuel IH]; intros pos es prev Hp Hf; cbn [scan_entries]; destruct (Z.leb_spec (pos + 8) limit) as [Hpos|];
    [lia | left; inversion Hp; [eauto | lia] | | left; inversion Hp; [eauto | lia]].
  inversion Hp as [q Hend Eq Ees|q es0 H8 Hlen Hlim Hrest Eq Ees]; [lia|]. subst q es. pose proof (name_len_range m (base + pos)) as Hnl.
  destruct (Z.ltb_spec (de_rec_len m (base + pos)) 8); [lia|]. destruct (Z.ltb_spec limit (pos + de_rec_len m (base + pos))); [lia|]. cbn [orb].
  unfold find_body at 1 3. rewrite names_equal_entry.
  destruct (negb (de_inode m (base + pos) =? 0) && bool_decide (en_name (entry_at m (base + pos)) = name)) eqn:Ef.
  - right. apply andb_true_iff in Ef as [Hu Hn]. apply bool_decide_eq_true in Hn. b2p. exists (base + pos), prev, [], es0.
    split; [reflexivity|]. split; [reflexivity|]. split; [exact Hu|]. split; [exact Hn|]. split; [reflexivity|]. split; [exact Hlen|].
    split; [exact Hlim|]. split; [exact Hrest|]. split; [apply before_nil | apply last_none; constructor].
  - rewrite <- Z.add_assoc in Hrest. set (prev' := if negb (de_inode m (base + pos) =? 0) then Some (base + pos) else prev).
    assert (Hl : forall l, lookup_name (entry_at m (base + pos) :: l) name = lookup_name l name).
    { intros l. unfold lookup_name. cbn [List.find]. change (en_inode (entry_at m (base + pos))) with (de_inode m (base + pos)). rewrite Ef. reflexivity. }
    destruct (IH (pos + de_rec_len m (base + pos)) es0 prev' Hrest ltac:(lia)) as [[En E] | (p & previous & a & b & E & -> & H1 & H2 & H3 & H4 & H5 & H6 & H7 & H8')];
      [left; split; [rewrite Hl; exact En | exact E]|].
    right. exists p, previous, (entry_at m (base + pos) :: a), b. split; [exact E|]. split; [reflexivity|]. split; [exact H1|]. split; [exact H2|].
    split; [rewrite Hl; exact H3|]. split; [exact H4|]. split; [exact H5|]. split; [exact H6|].
    split; [apply before_cons; auto|]. destruct H7 as (Hle & Hnil & _). destruct H8' as [Hun | q a1 a2 -> Hun Hq Hbq Hl8 Hqp Hadj].
    + unfold prev'. destruct (Z.eqb_spec (de_inode m (base + pos)) 0) as [Hz|Hz]; cbn [negb].
      * apply last_none. constructor; assumption.
      * apply (last_some _ _ _ _ (base + pos) [] a); auto; [apply before_nil | lia | intros ->; specialize (Hnil eq_refl); lia].
    + apply (last_some _ _ _ _ q (entry_at m (base + pos) :: a1) a2); auto. apply before_cons; auto.
Qed.
End Find.

(** The image after the entry at [p] is taken out. *)
Definition remove_at (m : mem) (p : Z) (previous : option Z) : mem :=
  match previous with
  | Some q => store16 m (q + 4) (de_rec_len m q + de_rec_len m p)
  | None => store32 m p 0
  end.

Section Removal.
Context (name : list Z) (m : mem) (base limit : Z) (Hlim : 0 <= limit <= 4096).
Context (p : Z) (previous : option Z) (a b : list dir_entry).
Context (Hu : de_inode m p <> 0) (Hn : en_name (entry_at m p) = name) (Ha : lookup_name a name = None).
Context (Hlen : 8 + de_name_len m p <= de_rec_len m p) (Hend : p + de_rec_len m p <= base + limit).
Context (Hb : parses m (base + limit) (p + de_rec_len m p) b) (Hbef : before m base limit 0 p a).
Context (Hlast : last_used m base limit 0 p None a previous).

Lemma remove_at_out y : ~ (base <= y < base + limit) -> remove_at m p previous y = m y.
Proof.
  intros Hy. pose proof (name_len_range m p). destruct Hbef as (Hp & _). unfold remove_at.
  destruct Hlast as [_ | q a1 a2 _ _ _ (Hq & _) Hl Hqp _]; [rewrite store_out by lia; reflexivity|].
  pose proof (name_len_range m q). rewrite store_out by lia. reflexivity.
Qed.

(** The first entry in use of its block is marked unused. *)
Lemma remove_first : parses (store32 m p 0) (base + limit) (base + 0) (a ++ entry_at (store32 m p 0) p :: b) /\ en_inode (entry_at (store32 m p 0) p) = 0.
Proof.
  pose proof (name_len_range m p) as Hnl. set (m' := store32 m p 0).
  assert (Out : forall y, ~ (p <= y < p + 4) -> m' y = m y) by (intros y Hy; unfold m'; rewrite store_out by lia; reflexivity).
  assert (Er : de_rec_len m' p = de_rec_len m p) by (apply load_ext; intros y Hy; rewrite Out by lia; reflexivity).
  assert (Enl : de_name_len m' p = de_name_len m p) by (apply load_ext; intros y Hy; rewrite Out by lia; reflexivity).
  split.
  - destruct Hbef as (_ & _ & Pre). apply Pre; [intros y Hy; rewrite Out by lia; reflexivity|].
    apply parses_entry; rewrite ?Er, ?Enl; try lia. apply (parses_ext m); [exact Hb|]. intros y Hy. rewrite Out by lia. reflexivity.
  - cbn [entry_at en_inode]. unfold de_inode, m'. rewrite load_store_eq. reflexivity.
Qed.

(** Another one is joined to the used entry right before it. *)
Lemma remove_joined q a1 :
  before m base limit 0 q a1 -> 8 + de_name_len m q <= de_rec_len m q -> q + de_rec_len m q = p ->
  parses (store16 m (q + 4) (de_rec_len m q + de_rec_len m p)) (base + limit) (base + 0) (a1 ++ entry_at m q :: b).
Proof.
  intros (Hq & _ & Pre) Hl Hadj. pose proof (name_len_range m p) as Hnl. pose proof (name_len_range m q) as Hnq.
  set (m' := store16 m _ _).
  assert (Out : forall y, ~ (q + 4 <= y < q + 6) -> m' y = m y) by (intros y Hy; unfold m'; rewrite store_out by lia; reflexivity).
  assert (Er : de_rec_len m' q = de_rec_len m q + de_rec_len m p).
  { unfold de_rec_len at 1, m'. rewrite load_store_eq. apply Z.mod_small. change (256 ^ Z.of_nat 2) with 65536. lia. }
  assert (Enl : de_name_len m' q = de_name_len m q) by (apply load_ext; intros y Hy; rewrite Out by lia; reflexivity).
  assert (Ee : entry_at m' q = entry_at m q).
  { unfold entry_at. rewrite Enl. unfold de_inode, de_file_type, de_name.
    f_equal; [apply load_ext | apply load_ext | apply mem_read_ext]; intros y Hy; rewrite Out by lia; reflexivity. }
  apply Pre; [intros y Hy; rewrite Out by lia; reflexivity|]. rewrite <- Ee.
  apply parses_entry; rewrite ?Er, ?Enl; try lia. replace (q + (de_rec_len m q + de_rec_len m p)) with (p + de_rec_len m p) by lia.
  apply (parses_ext m); [exact Hb|]. intros y Hy. rewrite Out by lia. reflexivity.
Qed.

Lemma remove_at_ok :
  packed (a ++ entry_at m p :: b) ->
  exists es', parses (remove_at m p previous) (base + limit) (base + 0) es' /\ removed (de_inode m p) name (a ++ entry_at m p :: b) es'.
Proof.
  intros Pk. unfold remove_at. destruct Hlast as [_ | q a1 a2 Ea Hun Hq Hbq Hl Hqp Hadj].
  - destruct remove_first as [P0 E0]. eexists. split; [exact P0|]. exists a, (entry_at m p), b, [entry_at (store32 m p 0) p]. repeat (split; [reflexivity || assumption|]).
    constructor; [exact E0 | constructor].
  - assert (Ha2 : a2 = []).
    { destruct a2 as [|w a2]; [reflexivity|]. inversion Hun as [|? ? Hw _]; subst. exfalso. revert Hw.
      apply (Pk a1 (entry_at m q) w (a2 ++ entry_at m p :: b)); [rewrite <- app_assoc; reflexivity | exact Hq]. }
    exists (a1 ++ entry_at m q :: b). split; [apply remove_joined; auto|].
    exists a, (entry_at m p), b, []. split; [reflexivity|]. split; [rewrite Ea, Ha2, <- app_assoc; reflexivity|]. repeat (split; [reflexivity || assumption|]). constructor.
Qed.
End Removal.

(** ** The names after a removal *)

Lemma removed_app k name l r es es' :
  lookup_name l name = None -> removed k name es es' -> removed k name (l ++ es ++ r) (l ++ es' ++ r).
Proof.
  intros Hl (a & e & b & o & -> & -> & E & Hz & En & Ha & Ho). exists (l ++ a), e, (b ++ r), o. rewrite <- !app_assoc. cbn [app].
  repeat (split; [reflexivity || assumption|]). split; [|exact Ho].
  rewrite lookup_name_none in *. rewrite used_entries_app, map_app, in_app_iff. tauto.
Qed.

Lemma lookup_name_app a b name : lookup_name a name = None -> lookup_name (a ++ b) name = lookup_name b name.
Proof.
  unfold lookup_name. induction a as [|e a IH]; [auto|]. cbn [app List.find]. destruct (_ && _); [discriminate | exact IH].
Qed.

Lemma removed_lookup k name es es' : removed k name es es' -> exists e, lookup_name es name = Some e /\ en_inode e = k.
Proof.
  intros (a & e & b & o & -> & _ & E & Hz & En & Ha & _). exists e. split; [|exact E]. rewrite lookup_name_app by exact Ha.
  unfold lookup_name. cbn [List.find]. rewrite bool_decide_eq_true_2 by exact En. destruct (Z.eqb_spec (en_inode e) 0); [congruence | reflexivity].
Qed.

Lemma removed_names k name es es' :
  removed k name es es' -> exists a e b, used_entries es = a ++ e :: b /\ used_entries es' = a ++ b /\ en_inode e = k /\ en_name e = name.
Proof.
  intros (a & e & b & o & -> & -> & E & Hz & En & _ & Ho). exists (used_entries a), e, (used_entries b). rewrite !used_entries_app, (used_entries_unused o Ho).
  split; [|auto]. f_equal. unfold used_entries at 1. cbn [List.filter]. destruct (Z.eqb_spec (en_inode e) 0); [congruence | reflexivity].
Qed.

Lemma removed_dir_map k name x es es' : removed k name es es' -> entries_ok x es -> dir_map es' = delete name (dir_map es).
Proof.
  intros R [Nd _]. destruct (removed_names _ _ _ _ R) as (a & e & b & Ea & Eb & _ & En). unfold dir_map. rewrite Ea, Eb in *. clear R Ea Eb.
  rewrite !map_app in *. cbn [map] in *. pose proof (NoDup_remove_2 _ _ _ Nd) as Hn. rewrite En in *.
  assert (H : list_to_map (map (fun e => (en_name e, en_inode e)) a ++ (name, en_inode e) :: map (fun e => (en_name e, en_inode e)) b)
              = <[name := en_inode e]> (list_to_map (map (fun e => (en_name e, en_inode e)) a ++ map (fun e => (en_name e, en_inode e)) b) : gmap (list Z) Z)).
  { clear Nd. induction a as [|e' a IH]; [reflexivity|]. cbn [app map list_to_map foldr fst snd]. cbn [app map In] in Hn.
    refine (eq_trans (f_equal _ (IH _)) _); [tauto|]. apply insert_insert_ne. intros E. apply Hn. left. exact E. }
 rewrite H. symmetry. apply delete_insert_id. apply not_elem_of_list_to_map_1. intros Hi. apply Hn.
  rewrite <- map_app in Hi. apply list_elem_of_In in Hi. rewrite <- map_app. change (fmap ?f ?l) with (map f l) in Hi. rewrite map_map in Hi. exact Hi.
Qed.

Lemma removed_entries_ok x x' k name es es' :
  removed k name es es' -> entries_ok x es -> (forall e, In e (used_entries es) -> en_name e <> name -> live x' (en_inode e)) -> entries_ok x' es'.
Proof.
  intros R [Nd _] Hl. destruct (removed_names _ _ _ _ R) as (a & e & b & Ea & Eb & _ & En). rewrite Ea in *.
  rewrite map_app in Nd. cbn [map] in Nd. split; rewrite Eb.
  - rewrite map_app. exact (NoDup_remove_1 _ _ _ Nd).
  - intros e' Hi. apply Hl; [rewrite in_app_iff in *; cbn; tauto|]. intros E. apply (NoDup_remove_2 _ _ _ Nd). rewrite En, <- E, <- map_app. apply in_map. exact Hi.
Qed.

(** ** [remove_dir_entry] *)

(** The directory's blocks are packed. *)
Definition packed_dir (x : ext2) (dir : ext2_inode) (n : Z) : Prop := exists ess, block_lists x dir n ess /\ Forall packed ess.

Lemma lookup_name_concat name ess k :
  (forall j b, (j < k)%nat -> ess !! j = Some b -> lookup_name b name = None) -> lookup_name (concat (take k ess)) name = None.
Proof.
  revert ess. induction k as [|k IH]; intros ess H; [reflexivity|]. destruct ess as [|b ess]; [reflexivity|]. cbn [firstn concat].
  rewrite lookup_name_app by (apply (H 0%nat); [lia | reflexivity]). apply IH. intros j c Hj Hc. apply (H (S j)); [lia | exact Hc].
Qed.

Section RemoveEntry.
Context (x : ext2) (O : owned x (disk x)) (d : Z) (Hd : inode_valid x d) (name : list Z).
Abbreviation T i := (with_inode (disk x) d i).
Abbreviation dir := (disk x d).
Abbreviation bs := (x_block_size x).
Abbreviation all := (fun _ : Z => True).

(** The block with the entry has been changed. *)
Lemma entry_out_of_block n ess k b p previous a c :
  inode_is_dir dir = true -> 1 <= n <= max_blocks x -> i_size dir = n * bs -> block_lists x dir n ess ->
  0 <= k < n -> ess !! Z.to_nat k = Some b -> packed b -> lookup_name (concat (take (Z.to_nat k) ess)) name = None ->
  let m := x_image x in
  let base := block_id_at x dir k * bs in
  b = a ++ entry_at m p :: c -> de_inode m p <> 0 -> en_name (entry_at m p) = name -> lookup_name a name = None ->
  8 + de_name_len m p <= de_rec_len m p -> p + de_rec_len m p <= base + bs -> parses m (base + bs) (p + de_rec_len m p) c ->
  before m base bs 0 p a -> last_used m base bs 0 p None a previous ->
  exists x3, write_inode (set_image x (remove_at m p previous)) d dir = Ret (true, x3)
  /\ owned x3 (disk x3) /\ changed all d x x3 /\ disk x3 d = dir /\ same_blocks x x3
  /\ exists es', dir_sound x3 dir n es' /\ removed (de_inode m p) name (concat ess) es'.
Proof.
  intros Hdir Hn Hs Bl Hk Hb Pk Hpre m base Eb Hu Hnm Ha Hlen Hend Hc Hbef Hlast.
  pose proof (owned_layout x _ O) as L. pose proof (bs_range x L) as Hbs.
  pose proof (parsed_block_present x dir n ess (Z.to_nat k) b L Bl Hb) as Hz. rewrite Z2Nat.id in Hz by lia. subst b.
  destruct (remove_at_ok name m base bs ltac:(lia) p previous a c Hu Hnm Ha Hlen Hend Hc Hbef Hlast Pk) as (es' & Hes & R).
  destruct (write_dir_ok x O d Hd x dir k (remove_at m p previous) dir) as (x3 & E & O3 & D & C & V & Vk & Sb).
  - exact (disk_self d x O).
  - apply kept_refl.
  - lia.
  - exact Hz.
  - reflexivity.
  - reflexivity.
  - apply disk_wf.
  - intros y Hy. unfold in_block in Hy. fold base in Hy. rewrite (remove_at_out m base bs p previous a Hlen Hend Hbef Hlast y Hy). reflexivity.
  - exists x3. split; [exact E|]. split; [exact O3|]. split; [exact C|]. split; [exact D|]. split; [exact Sb|].
    exists (concat (<[Z.to_nat k := es']> ess)). split.
    + rewrite <- D. apply (dir_sound_after x O d); auto; [rewrite D; exact Hs|]. destruct (ch_image _ _ _ _ C) as (m3 & Ex3 & _).
      destruct Bl as [Hl Hp]. split; [rewrite length_insert; exact Hl|]. replace (x_block_size x3) with bs by (rewrite Ex3; reflexivity).
      rewrite D. intros j e Hj. apply list_lookup_insert_Some in Hj as [(<- & <- & _) | (Hne & Hj)].
      * rewrite Z2Nat.id by lia. apply (parses_shift _ base) in Hes. apply (parses_ext _ _ _ _ _ Hes). intros y Hy.
        rewrite (Vk y Hy : file_view x3 dir k y = _). apply u8_idem.
      * apply (parses_ext _ _ _ _ _ (Hp j e Hj)). intros y Hy. rewrite V by lia. reflexivity.
    + rewrite <- (take_drop_middle ess (Z.to_nat k) _ Hb) at 1. rewrite insert_take_drop by (apply lookup_lt_Some in Hb; exact Hb).
      rewrite !concat_app. cbn [concat]. apply removed_app; [exact Hpre | exact R].
Qed.

Lemma remove_dir_entry_ok n es e :
  dir_sound x dir n es -> packed_dir x dir n -> lookup_name es name = Some e -> 1 <= Z.of_nat (length name) <= EXT2_NAME_LEN ->
  exists x', remove_dir_entry x dir d name = Ret (true, en_inode e, x')
  /\ owned x' (disk x') /\ changed all d x x' /\ disk x' d = dir /\ same_blocks x x'
  /\ exists es', dir_sound x' dir n es' /\ removed (en_inode e) name es es'.
Proof.
  intros [Hdir Hn Hs He] (ess & Bl & Pk) Hlook Hl. pose proof (owned_layout x _ O) as L. pose proof (bs_range x L) as Hbs.
  assert (Ees : es = concat ess).
  { assert (H : dir_entries x dir = Some (concat ess)) by (apply (dir_entries_blocks x dir n _ L); [lia | exact Hs | eauto]). congruence. }
  subst es. pose proof (dir_size_small x n L ltac:(lia)) as Hsm. unfold remove_dir_entry. rewrite Hdir. cbn [negb orb].
  destruct (Z.eqb_spec (Z.of_nat (length name)) 0); [lia|]. destruct (Z.ltb_spec EXT2_NAME_LEN (Z.of_nat (length name))); [lia|]. cbn [orb].
  unfold inode_size_bytes. rewrite Hs. unfold mrange, trips.
  replace ((n * bs - 0 + bs - 1) / bs) with n by (apply (Z.div_unique _ _ _ (bs - 1)); lia).
  set (Found := fun (r : bool * Z * ext2) => let '(ok, removed_inode, x') := r in ok = true /\ removed_inode = en_inode e
     /\ owned x' (disk x') /\ changed all d x x' /\ disk x' d = dir /\ same_blocks x x'
     /\ exists es', dir_sound x' dir n es' /\ removed (en_inode e) name (concat ess) es').
  match goal with |- exists x', mbind _ (mfor ?turns ?i0 ?s0 ?body ?st) = _ /\ _ =>
    destruct (mfor_ind (fun off _ => exists k, off = k * bs /\ 0 <= k <= n /\ lookup_name (concat (take (Z.to_nat k) ess)) name = None)
      (fun c : ctl unit (bool * Z * ext2) => match c with Cont _ => lookup_name (concat ess) name = None | Break r => Found r end)
      turns i0 s0 body st) as (c & -> & Hc) end.
  - exists 0. split; [lia|]. split; [lia | reflexivity].
  - intros k [] Hk (k' & Ek & Hk' & Hpre). replace k' with k in * by nia. clear Ek k'. replace (0 + k * bs) with (k * bs) by lia.
    rewrite u32_id, Z.div_mul by (rewrite ?Z.div_mul by lia; nia). destruct (block_lists_lookup x dir n ess k Bl ltac:(lia)) as (b & Hb).
    destruct (dir_block_ptr x O d Hd n ess k b Bl Hb ltac:(lia)) as (Hz & Ep). destruct (Z.eqb_spec (block_id_at x dir k) 0); [contradiction|]. rewrite Ep.
    pose proof (block_lists_image x dir n ess (Z.to_nat k) b L Bl Hb) as Pb. cbv zeta in Pb. rewrite Z2Nat.id in Pb by lia.
    change (find_entry x (block_id_at x dir k * bs) name)
      with (scan_entries (scan_fuel x) (x_image x) (block_id_at x dir k * bs) bs 0 (find_body name (x_image x)) None).
    destruct (scan_find_ok name (x_image x) (block_id_at x dir k * bs) bs (scan_fuel x) 0 b None Pb)
      as [[En (prev' & E)] | (p & previous & a & c & E & H1 & H2 & H3 & H4 & H5 & H6 & H7 & H8 & H9)].
    + unfold scan_fuel. pose proof (Z.div_mod bs 8 ltac:(lia)). pose proof (Z.mod_pos_bound bs 8 ltac:(lia)). lia.
    + rewrite E. cbn [of_fuel mbind res_bind]. eexists. split; [reflexivity|]. exists (k + 1). split; [lia|]. split; [lia|].
      replace (Z.to_nat (k + 1)) with (S (Z.to_nat k)) by lia. rewrite (take_S_r ess (Z.to_nat k) b Hb), concat_app.
      rewrite lookup_name_app by exact Hpre. cbn [concat]. rewrite app_nil_r. exact En.
    + rewrite E. cbn [of_fuel mbind res_bind].
      assert (Pkb : packed b) by (rewrite List.Forall_forall in Pk; apply Pk, list_elem_of_In, list_elem_of_lookup; eauto).
      destruct (entry_out_of_block n ess k b p previous a c Hdir Hn Hs Bl ltac:(lia) Hb Pkb Hpre H1 H2 H3 H4 H5 H6 H7 H8 H9) as (x3 & E3 & O3 & C3 & D3 & Sb & es' & Ds & R).
      exists (Break (true, de_inode (x_image x) p, x3)). split.
      * destruct previous; exact (f_equal (fun r => r ≫= fun '(ok, y) => Ret (Break (ok, de_inode (x_image x) p, y))) E3).
      * destruct (removed_lookup _ _ _ _ R) as (e' & He' & Ei). replace e' with e in Ei by congruence. cbn [x_image] in Ei. rewrite <- Ei in *.
        unfold Found. eauto 9.
  - intros [] (k & Ek & Hk & Hpre). replace k with n in * by nia. destruct Bl as [Hel _]. rewrite <- Hel, firstn_all in Hpre. exact Hpre.
  - cbn [mbind res_bind]. destruct c as [u | [[ok removed_inode] x']]; [congruence|]. destruct Hc as (-> & -> & Hr). exists x'. split; [reflexivity | exact Hr].
Qed.
End RemoveEntry.

(** ** [drop_inode] *)

(** Its blocks are freed, it is zeroed and its bit is cleared. *)
Section Drop.
Context (x : ext2) (O : owned x (disk x)) (k : Z) (Hk : inode_valid x k).
Abbreviation T i := (with_inode (disk x) k i).
Abbreviation all := (fun _ : Z => True).

Lemma drop_inode_ok is_dir :
  exists x', drop_inode x (disk x k) k is_dir = finish x' /\ owned x' (disk x') /\ touched (eq k) x x' /\ disk x' k = zero_inode /\ inode_used x' k = false
  /\ blocks_freed x (disk x k) x'.
Proof.
  pose proof (owned_layout x _ O) as L. pose proof (bs_range x L) as Hbs. unfold drop_inode.
  assert (Hm : 0 <= 0 <= max_blocks x) by (unfold max_blocks, EXT2_DIRECT_BLOCKS; pose proof (Z.div_pos (x_block_size x) 4 ltac:(lia) ltac:(lia)); lia).
  destruct (free_inode_blocks_ok (disk x) k x (disk x k) 0 L Hk Hm (disk_self k x O)) as (i' & x2 & -> & Fg & Z1 & Z12). cbn [mbind res_bind].
  pose proof (freeing_all (disk x) k x (disk x k) 0 Hk Hm x2 i' Fg Z1 (Z12 ltac:(lia)) eq_refl) as Fr. destruct Fg as [O2 M2 _ _ _ _].
  assert (M2' : moved all k x (T (disk x k)) x2 (T i')) by (destruct M2 as [? ? ? ? ? B]; split; auto; intros j p Hj Hp Hn; apply B; auto; intros E _; exact (Hn E I)).
  assert (Sub : forall y j, owned y (T j) -> owned y (T zero_inode)).
  { intros y j Oy. apply (owned_sub y _ (T j) Oy); intros l; unfold with_inode; destruct (Z.eqb_spec l k); intros;
      [exact zero_inode_wf | apply disk_wf | left; apply zero_slot | right; reflexivity]. }
  destruct (held_write_ok x k zero_inode zero_inode x2 Hk (Sub x _ (disk_self k x O)) (Sub x2 i' O2)
    (moved_relabel k x _ x2 _ _ _ _ M2' eq_refl)) as (x3 & -> & O3 & T3 & D3 & _ & _ & Sb3). cbn [mbind res_bind].
  assert (Hk3 : inode_valid x3 k) by (apply (touched_valid _ _ _ k T3); exact Hk).
  destruct (mark_inode_ok x3 (ow_ok x3 _ O3) k Hk3 false is_dir) as (m4 & -> & Mk). cbn [mbind res_bind].
  destruct (inode_marked_step x3 k false m4 O3 Hk3 Mk) as (O4 & T4 & D4). exists (set_image x3 m4).
  split; [reflexivity|]. split; [exact O4|]. split; [exact (touched_trans _ _ _ _ T3 T4)|]. split; [congruence|].
  split; [rewrite (im_used _ _ _ _ Mk k Hk3), Z.eqb_refl; reflexivity|].
  destruct (mv_image _ _ _ _ _ _ M2) as (m2 & Ex2 & G2). destruct (tc_image _ _ _ T3) as (m3 & Ex3 & G3).
  intros b Hb. rewrite (inode_marked_blocks x3 k false m4 (ow_ok x3 _ O3) Hk3 Mk) by (rewrite Ex3; apply frame_valid; assumption).
  rewrite (Sb3 b) by (rewrite Ex2; apply frame_valid; assumption). exact (Fr b Hb).
Qed.
End Drop.

(** ** The tree without a node *)

(** No directory but [k] itself names [k], except [d] by [name]. *)
Definition sole_link (t : tree_map) (k d : Z) (name : list Z) : Prop :=
  forall n m nm, t !! n = Some (Dir m) -> m !! nm = Some k -> n = k \/ (n = d /\ nm = name).

Abbreviation pruned t k d entries name := (delete k (<[d := Dir (delete name entries)]> t)).

Section Pruned.
Context (t : tree_map) (d k : Z) (m : gmap (list Z) Z) (name : list Z).
Context (Hd : t !! d = Some (Dir m)) (Hm : m !! name = Some k) (Hne : d <> k) (Hk : forall es, t !! k <> Some (Dir es)).

Lemma pruned_dir : pruned t k d m name !! d = Some (Dir (delete name m)).
Proof. rewrite lookup_delete_ne by congruence. apply lookup_insert_eq. Qed.

(** A path to another node still leads to it. *)
Lemma pruned_resolve p : forall n j, resolve t p n = Some j -> j <> k -> resolve (pruned t k d m name) p n = Some j.
Proof.
  induction p as [|nm p IH]; intros n j; cbn [resolve]; [auto|].
  destruct (t !! n) as [[es | |]|] eqn:En; try discriminate. destruct (es !! nm) as [i|] eqn:Ei; cbn [mbind option_bind]; [|discriminate].
  intros H Hj. destruct (decide (n = d)) as [->|Hnd].
  - rewrite pruned_dir. rewrite Hd in En. injection En as <-. destruct (decide (nm = name)) as [->|Hnm].
    + exfalso. rewrite Hm in Ei. injection Ei as <-. destruct p as [|nm' p]; cbn [resolve] in H; [congruence|].
      destruct (t !! k) as [[es | |]|] eqn:Et; try discriminate. exact (Hk es eq_refl).
    + rewrite lookup_delete_ne by congruence. rewrite Ei. cbn [mbind option_bind]. auto.
  - assert (Hnk : n <> k) by (intros ->; exact (Hk _ En)). rewrite lookup_delete_ne, lookup_insert_ne by congruence.
    rewrite En, Ei. cbn [mbind option_bind]. auto.
Qed.

Lemma pruned_path path j : tree_path t path = Some j -> j <> k -> tree_path (pruned t k d m name) path = Some j.
Proof.
  unfold tree_path. destruct path as [|c path]; [discriminate|]. destruct (decide (c = 47)) as [->|Hc]; [apply pruned_resolve|].
  destruct c as [|q|q]; try discriminate. do 6 (destruct q as [q|q|]; try discriminate). congruence.
Qed.
End Pruned.

(** What a path still leads to it led to before. *)
Lemma pruned_sub t d k m name p : t !! d = Some (Dir m) -> forall n j,
  resolve (pruned t k d m name) p n = Some j -> resolve t p n = Some j.
Proof.
  intros Hd. induction p as [|nm p IH]; intros n j; cbn [resolve]; [auto|].
  destruct (decide (n = k)) as [->|Hnk]; [rewrite lookup_delete_eq; discriminate|]. rewrite lookup_delete_ne by congruence.
  destruct (decide (n = d)) as [->|Hnd]; [rewrite lookup_insert_eq, Hd | rewrite lookup_insert_ne by congruence].
  - destruct (decide (nm = name)) as [->|Hnm]; [rewrite lookup_delete_eq; discriminate|]. rewrite lookup_delete_ne by congruence.
    destruct (m !! nm); cbn [mbind option_bind]; [apply IH | discriminate].
  - destruct (t !! n) as [[es | |]|]; try discriminate. destruct (es !! nm); cbn [mbind option_bind]; [apply IH | discriminate].
Qed.

(** The path itself names nothing. *)
Lemma removed_path t path entries d name k :
  parent_dir t path = Some (entries, d, name) -> d <> k -> tree_path (pruned t k d entries name) path = None.
Proof.
  intros Hp Hne. destruct (parent_dir_path t path entries d name Hp) as (Hd & _ & _ & _ & p & En & Ep).
  destruct path as [|c path]; [reflexivity|]. cbn [tree_path].
  destruct (decide (c = 47)) as [->|Hc]; [|destruct c as [|q|q]; try reflexivity; do 6 (destruct q as [q|q|]; try reflexivity); congruence].
  rewrite En, resolve_app. destruct (resolve (pruned t k d entries name) p EXT2_ROOT_INODE) as [d'|] eqn:E'; cbn [mbind option_bind]; [|reflexivity].
  apply (pruned_sub _ _ _ _ _ _ Hd) in E'. replace d' with d by congruence. cbn [resolve].
  rewrite (pruned_dir t d k entries name Hne), lookup_delete_eq. reflexivity.
Qed.

Lemma entries_lookup x es e : entries_ok x es -> In e (used_entries es) -> dir_map es !! en_name e = Some (en_inode e).
Proof.
  intros [Nd _] Hi. unfold dir_map. apply elem_of_list_to_map_1.
  - apply NoDup_ListNoDup. change (fmap ?f ?l) with (map f l). rewrite map_map. exact Nd.
  - apply list_elem_of_In. apply in_map_iff. eauto.
Qed.

Section Unlinked.
Context (x : ext2) (T : tree_ok x) (d k : Z) (es : list dir_entry) (name : list Z).
Context (Hd : live x d) (Hdir : inode_is_dir (disk x d) = true) (He : dir_entries x (disk x d) = Some es) (Eo : entries_ok x es).
Context (Hk : inode_valid x k) (Hne : d <> k) (Hroot : k <> EXT2_ROOT_INODE) (Sole : sole_link (tree x) k d name).
Context (x3 : ext2) (T3 : touched (either k d) x x3) (O3 : owned x3 (disk x3)).
Context (Hmode : i_mode (disk x3 d) = i_mode (disk x d)) (Hused : inode_used x3 d = inode_used x d).
Context (Dk : disk x3 k = zero_inode) (Uk : inode_used x3 k = false).
Context (n' : Z) (es' : list dir_entry) (D3 : dir_sound x3 (disk x3 d) n' es') (R : removed k name es es').

Lemma unlinked_live j : j <> k -> live x j -> live x3 j.
Proof.
  intros Hj Hl. destruct (either_dec k d j) as [[-> | ->]|Hn]; [congruence | |].
  - destruct Hl as [Hv Hu]. split; [apply (touched_valid _ _ _ d T3); exact Hv | congruence].
  - apply (touched_live _ x x3 T3 j Hn). exact Hl.
Qed.

(** An entry of another name or another directory is of another inode. *)
Lemma other_entry n l e :
  live x n -> inode_is_dir (disk x n) = true -> dir_entries x (disk x n) = Some l -> In e (used_entries l) -> n <> k ->
  n <> d \/ en_name e <> name -> en_inode e <> k.
Proof.
  intros Hl Hdn Hen Hi Hn Ho E. pose proof (tree_dir x n l T Hl Hen Hdn) as Eon.
  destruct (Sole n (dir_map l) (en_name e)) as [|[-> Enm]]; [| |contradiction | tauto].
  - rewrite lookup_tree, (node_of_live x n Hl). unfold node_at. rewrite Hdn, Hen. reflexivity.
  - rewrite <- E. exact (entries_lookup x l e Eon Hi).
Qed.

Lemma unlinked_entries_ok : entries_ok x3 es'.
Proof.
  apply (removed_entries_ok x x3 k name es es' R Eo). intros e Hi Hn. apply unlinked_live; [|exact (eo_live x es Eo e Hi)].
  exact (other_entry d es e Hd Hdir He Hi Hne (or_intror Hn)).
Qed.

Lemma node_removed : tree_ok x3 /\ tree x3 = pruned (tree x) k d (dir_map es) name.
Proof.
  pose proof (owned_layout x _ (to_owned x T)) as L.
  destruct (dir_node_ok x x3 d n' es' T Hd Hdir (unlinked_live d Hne Hd) Hmode D3 unlinked_entries_ok) as [Nd Ed]. split.
  - split; [exact O3 | rewrite (touched_mounted _ _ _ T3); exact (to_mounted x T) | apply unlinked_live; [congruence | exact (to_root x T)]|].
    intros j Hj. apply (touched_valid _ _ _ j T3) in Hj. destruct (either_dec k d j) as [[-> | ->]|Hn]; [|exact Nd|].
    + apply plain_node_ok; rewrite Dk; reflexivity.
    + apply (touched_node_ok (either k d) x x3 L T3 j Hj Hn (to_nodes x T j Hj)). intros l e Hl Hdj Hej Hi Hle. apply unlinked_live; [|exact Hle].
      unfold either in Hn. apply (other_entry j l e Hl Hdj Hej Hi); [intros ->; tauto | left; intros ->; tauto].
  - apply (tree_eq (either k d) x x3 (either_dec k d)); [exact L | exact T3 | |].
    + intros j [-> | ->]; [rewrite node_of_none by exact Uk; symmetry; apply lookup_delete_eq|].
      rewrite Ed, (removed_dir_map k name x es es' R Eo). symmetry. apply pruned_dir. exact Hne.
    + intros j Hj. unfold either in Hj. rewrite lookup_delete_ne, lookup_insert_ne by (intros E; apply Hj; subst; auto). reflexivity.
Qed.
End Unlinked.

(** ** [ext2_unlink] *)

(** The file that a path removes: its directory, its name and its number. *)
Definition doomed_file (t : tree_map) (path : list Z) : option (gmap (list Z) Z * Z * list Z * Z) :=
  '(entries, d, name) ← parent_dir t path;
  k ← entries !! name;
  match t !! k with
  | Some (File _) => Some (entries, d, name, k)
  | _ => None
  end.

(** What taking the name of an inode out of a directory needs: it is the only
    link of the inode, and the blocks of the directory are packed. *)
Definition detachable (x : ext2) (k d : Z) (name : list Z) : Prop :=
  sole_link (tree x) k d name /\ packed_dir x (disk x d) (i_size (disk x d) / x_block_size x).

(** The file that the path removes, if there is one, is detachable. *)
Definition removable_file (x : ext2) (path : list Z) : Prop :=
  forall entries d name k, doomed_file (tree x) path = Some (entries, d, name, k) -> detachable x k d name.

(** The inode [k] of [x] is given back: it is cleared and free, its blocks are
    free, and no other block is. *)
Record given_back (x : ext2) (k : Z) (x' : ext2) : Prop := {
  gb_zero : disk x' k = zero_inode;
  gb_free : inode_used x' k = false;
  gb_blocks : blocks_freed x (disk x k) x'
}.

(** Either nothing is removed, or the file is, with its name. *)
Inductive unlink_outcome (x : ext2) (path : list Z) : Z -> ext2 -> Prop :=
  | unlink_refused : doomed_file (tree x) path = None -> unlink_outcome x path USER_ERR_INVAL x
  | unlink_done entries d name k x' :
      doomed_file (tree x) path = Some (entries, d, name, k) ->
      tree x' = pruned (tree x) k d entries name -> given_back x k x' ->
      unlink_outcome x path (if sync_fine x' then 0 else USER_ERR_FAULT) (synced x').

Lemma parent_root t path r : parent_dir t path = Some r -> exists m, t !! EXT2_ROOT_INODE = Some (Dir m).
Proof.
  destruct r as [[entries d] name]. intros Hp. destruct (parent_dir_path t path entries d name Hp) as (Hd & _ & _ & _ & p & _ & Ep).
  destruct p as [|nm p]; cbn [resolve] in Ep; [injection Ep as <-; eauto|].
  destruct (t !! EXT2_ROOT_INODE) as [[es | |]|]; try discriminate. eauto.
Qed.

(** What follows the removal of the entry, for files and for directories. *)
Section Dropped.
Context (x : ext2) (T : tree_ok x) (path : list Z) (d k : Z) (es : list dir_entry) (b : Z) (name : list Z).
Context (Hp : parent_dir (tree x) path = Some (dir_map es, d, name)) (Hd : live x d) (Hdir : inode_is_dir (disk x d) = true).
Context (Ds : dir_sound x (disk x d) b es) (Eo : entries_ok x es) (Hk : live x k) (Hne : d <> k).
Context (Hroot : k <> EXT2_ROOT_INODE) (Sole : sole_link (tree x) k d name).

(** An inode with the same blocks has the same slots. *)
Lemma same_slots x1 :
  owned x1 (disk x1) -> touched (eq d) x x1 -> forall s, slot_of x k s -> slot x1 (disk x k) s = slot x (disk x k) s.
Proof.
  intros O1 T1 s [_ Hs]. pose proof (owned_layout x _ (to_owned x T)) as L. pose proof (proj1 Hk) as Hkv. pose proof (touched_bs _ _ _ T1) as Ebs.
  pose proof (tc_disk _ _ _ T1 k Hkv Hne) as Ek. destruct (Z.eq_dec s 12) as [->|H12]; [reflexivity|].
  set (q := if s <? 12 then s else s - 1).
  assert (Hq : 0 <= q < max_blocks x /\ data_slot q = s).
  { pose proof (Z.div_pos (x_block_size x) 4 ltac:(pose proof (bs_range x L); lia) ltac:(lia)).
    unfold q, data_slot, max_blocks, n_slots, EXT2_DIRECT_BLOCKS in *. destruct (Z.ltb_spec s 12) as [Hlt|Hge].
    - destruct (Z.ltb_spec s 12); lia.
    - destruct (Z.ltb_spec (s - 1) 12); lia. }
  destruct Hq as [Hq Es]. clearbody q. subst s. pose proof (tc_blocks _ _ _ T1 k q Hkv Hne ltac:(lia)) as E. rewrite Ek in E.
  assert (Hk1 : inode_valid x1 k) by (apply (touched_valid _ _ _ k T1); exact Hkv).
  rewrite <- (block_id_slot x L _ q (owned_12 x _ (to_owned x T) k Hkv) Hq), <- E. symmetry.
  apply (block_id_slot x1 (owned_layout x1 _ O1)); [rewrite <- Ek; exact (owned_12 x1 _ O1 k Hk1) | unfold max_blocks in *; rewrite Ebs; exact Hq].
Qed.

(** Freeing what an inode had before another one was changed. *)
Lemma freed_before P x1 x3 :
  changed P d x x1 -> same_blocks x x1 -> (forall s, slot_of x k s -> slot x1 (disk x k) s = slot x (disk x k) s) ->
  blocks_freed x1 (disk x k) x3 -> blocks_freed x (disk x k) x3.
Proof.
  intros C Sb Sl Fr b' Hb. destruct (ch_image _ _ _ _ C) as (m1 & Ex & G).
  rewrite (Fr b') by (rewrite Ex; apply frame_valid; assumption). rewrite (Sb b' Hb).
  assert (E : has_block x1 (disk x k) b' <-> has_block x (disk x k) b').
  { unfold has_block. replace (n_slots x1) with (n_slots x) by (rewrite Ex; reflexivity).
    split; intros [Hz (s & Hs & Es)]; (split; [exact Hz|]); exists s; (split; [exact Hs|]); [rewrite <- Sl | rewrite Sl]; auto; split; auto; apply Hk. }
  rewrite E. reflexivity.
Qed.

Lemma dropped_ok x1 es' is_dir :
  owned x1 (disk x1) -> changed (fun _ => True) d x x1 -> dir_sound x1 (disk x1 d) b es' -> removed k name es es' -> same_blocks x x1 ->
  exists x3, drop_inode x1 (disk x k) k is_dir = finish x3 /\ tree_ok x3 /\ tree x3 = pruned (tree x) k d (dir_map es) name
  /\ disk x3 d = disk x1 d /\ given_back x k x3.
Proof.
  intros O1 C1 Ds1 R Sb. pose proof (owned_layout x _ (to_owned x T)) as L. pose proof (proj1 Hk) as Hkv. pose proof (proj1 Hd) as Hdv.
  pose proof (changed_touched _ d x x1 L C1) as T1. pose proof (ch_other _ _ _ _ C1 k Hkv ltac:(congruence)) as Ek. rewrite <- Ek.
  assert (Hk1 : inode_valid x1 k) by (apply (touched_valid _ _ _ k T1); exact Hkv).
  assert (Hd1 : inode_valid x1 d) by (apply (touched_valid _ _ _ d T1); exact Hdv).
  destruct (drop_inode_ok x1 O1 k Hk1 is_dir) as (x3 & E & O3 & T3 & D3 & U3 & Fr). exists x3. split; [exact E|]. apply and_assoc.
  split; [|split; [apply (tc_disk _ _ _ T3 d Hd1); congruence | split; [exact D3 | exact U3|]]].
  2: { rewrite Ek in Fr. exact (freed_before _ x1 x3 C1 Sb (same_slots x1 O1 T1) Fr). }
  apply (node_removed x T d k es name Hd Hdir (ds_entries _ _ _ _ Ds) Eo Hkv Hne Hroot Sole x3) with (n' := b) (es' := es'); auto.
  - apply (touched_trans _ x x1 x3); [apply (touched_weaken (eq d)) | apply (touched_weaken (eq k))]; unfold either; auto.
  - rewrite (tc_disk _ _ _ T3 d Hd1) by congruence. exact (ch_mode _ _ _ _ C1).
  - rewrite (tc_used _ _ _ T3 d Hd1) by congruence. exact (changed_used _ d x x1 d L C1 Hdv).
  - apply (touched_dir_sound (eq k) x1 x3 (owned_layout x1 _ O1) T3); auto.
Qed.
End Dropped.

(** The entry of a name and its inode, as the code reads it. *)
Lemma entry_inode_ok x d es name e :
  tree_ok x -> live x d -> inode_is_dir (disk x d) = true -> dir_entries x (disk x d) = Some es -> lookup_name es name = Some e ->
  live x (en_inode e) /\ read_inode x (en_inode e) = Ret (Some (disk x (en_inode e))).
Proof.
  intros T Hd Hdir He El. pose proof (entry_live x d es name e T Hd Hdir He El) as Lk. pose proof (proj1 Lk) as Hk. split; [exact Lk|].
  rewrite (read_inode_numbered x _ (owned_layout x _ (to_owned x T))) by (unfold inode_valid in Hk; lia).
  rewrite (proj2 (inode_numbered_valid x _ _) (conj Hk eq_refl)). reflexivity.
Qed.

(** The file of a path that is not removed is none. *)
Lemma doomed_file_some t path entries d name k :
  doomed_file t path = Some (entries, d, name, k) ->
  parent_dir t path = Some (entries, d, name) /\ entries !! name = Some k /\ exists c, t !! k = Some (File c).
Proof.
  unfold doomed_file. destruct (parent_dir t path) as [[[es d'] nm]|]; [|discriminate]. cbn [mbind option_bind].
  destruct (es !! nm) as [k'|] eqn:En; [|discriminate]. cbn [mbind option_bind]. destruct (t !! k') as [[m|c|]|] eqn:Ek; try discriminate.
  intros [= <- <- <- <-]. eauto.
Qed.

Lemma unlink_cases x path :
  tree_ok x -> removable_file x path ->
  exists r x', ext2_unlink x path = Ret (r, x')
  /\ ((r = USER_ERR_INVAL /\ x' = x /\ doomed_file (tree x) path = None)
      \/ exists entries d name k x3, doomed_file (tree x) path = Some (entries, d, name, k)
         /\ d <> k /\ tree_ok x3 /\ tree x3 = pruned (tree x) k d entries name /\ given_back x k x3
         /\ r = (if sync_fine x3 then 0 else USER_ERR_FAULT) /\ x' = synced x3).
Proof.
  intros T Rm. pose proof (bs_range x (owned_layout x _ (to_owned x T))) as Hbs. unfold ext2_unlink, doomed_file. rewrite (parent_lookup_ok x path T). cbn [mbind res_bind].
  assert (Refused : forall A : Z -> ext2 -> Prop, exists r x', Ret (USER_ERR_INVAL, x) = Ret (r, x') /\ ((r = USER_ERR_INVAL /\ x' = x /\ @None (gmap (list Z) Z * Z * list Z * Z) = None) \/ A r x')).
  { intros A. exists USER_ERR_INVAL, x. split; [reflexivity|]. left. auto. }
  destruct (parent_dir (tree x) path) as [[[entries d] name]|] eqn:Ed; cbn [option_map mbind option_bind]; [|apply Refused].
  destruct (parent_dir_path _ _ _ _ _ Ed) as (_ & En & _).
  destruct (parent_entry_ok x path entries d name T Ed) as (Lv & Hdir & Hl & -> & b & es & Ds & Eo & ->). cbn [mbind res_bind].
  pose proof (ds_entries _ _ _ _ Ds) as He. destruct (dir_map es !! name) as [k|] eqn:Hent; unfold option_bind; [|apply Refused].
  pose proof Hent as El. rewrite lookup_dir_map in El. destruct (lookup_name es name) as [e|] eqn:Elk; cbn [option_map] in El; [|discriminate El]. injection El as Ek.
  destruct (entry_inode_ok x d es name e T Lv Hdir He Elk) as (Lk & Rk). rewrite Ek in Lk, Rk. rewrite Rk. cbn [mbind res_bind]. pose proof (proj1 Lk) as Hkv.
  destruct (inode_is_file (disk x k)) eqn:Hf; cbn [negb].
  2: { destruct (tree x !! k) as [[m|c|]|] eqn:Hk; try apply Refused. destruct (tree_file_node x k c Hk) as (_ & _ & Hf' & _). congruence. }
  assert (Hne : d <> k) by (intros <-; rewrite (no_kind x d (to_nodes x T d Hkv) Lk Hdir) in Hf; discriminate Hf).
  assert (Hnd : inode_is_dir (disk x k) = false).
  { destruct (inode_is_dir (disk x k)) eqn:Hk; [|reflexivity]. rewrite (no_kind x k (to_nodes x T k Hkv) Lk Hk) in Hf. discriminate Hf. }
  assert (Hkn : tree x !! k = Some (File (contents x k))) by (rewrite lookup_tree, (node_of_live x k Lk); unfold node_at; rewrite Hnd, Hf; reflexivity).
  assert (Hroot : k <> EXT2_ROOT_INODE) by (destruct (parent_root _ _ _ Ed) as (m & Hm); intros E; rewrite E in Hkn; congruence).
  rewrite Hkn. destruct (Rm (dir_map es) d name k) as [Sole Pk].
  { unfold doomed_file. rewrite Ed. cbn [mbind option_bind]. rewrite Hent. cbn [mbind option_bind]. rewrite Hkn. reflexivity. }
  rewrite (ds_size _ _ _ _ Ds), Z.div_mul in Pk by lia.
  destruct (remove_dir_entry_ok x (to_owned x T) d (proj1 Lv) name b es e Ds Pk Elk Hl) as (x1 & -> & O1 & C1 & D1 & Sb & es' & Ds1 & R).
  rewrite Ek in *. cbn [mbind res_bind negb orb]. rewrite Z.eqb_refl. cbn [negb].
  destruct (dropped_ok x T d k es b name Lv Hdir Ds Eo Lk Hne Hroot Sole x1 es' false O1 C1 ltac:(rewrite D1; exact Ds1) R Sb) as (x3 & -> & T3 & E3 & _ & Gb).
  rewrite finish_eq. eexists _, _. split; [reflexivity|]. right. exists (dir_map es), d, name, k, x3. split; [reflexivity|]. repeat (split; [assumption|]). split; reflexivity.
Qed.

(** C26. Removing a file by its path is an operation on the tree that the image
    stands for. On a sound tree, [ext2_unlink] ends with a sound tree: a path
    that names no file is refused and nothing changes; otherwise the tree is
    without the file and without its name, the inode is cleared and free, and
    the blocks in use are those of before without the blocks of the file, direct
    ones, the indirect one and those it lists ([given_back]), so that the free
    count of a sound image has grown by as many. Afterwards the path names
    nothing and every path of another node names what it named. The condition is
    on a file that is there to be removed: the name is its only link (the code
    frees the inode whatever its link count says) and the records of its
    directory are packed (else the code damages the directory). *)
Theorem unlink_correct x path :
  tree_ok x -> removable_file x path ->
  exists r x', ext2_unlink x path = Ret (r, x') /\ tree_ok x' /\ unlink_outcome x path r x'
  /\ (r = 0 -> number x' path = None
        /\ exists k, number x path = Some k /\ forall p n, number x p = Some n -> n <> k -> number x' p = Some n).
Proof.
  intros T Rm. destruct (unlink_cases x path T Rm) as (r & x' & E & [(-> & -> & Why) | (entries & d & name & k & x3 & Df & Hne & T3 & E3 & Gb & -> & ->)]).
  { exists USER_ERR_INVAL, x. split; [exact E|]. split; [exact T|]. split; [exact (unlink_refused x path Why) | intros H; discriminate H]. }
  eexists _, _. split; [exact E|]. pose proof (synced_tree_ok x3 T3) as T4. destruct (doomed_file_some _ _ _ _ _ _ Df) as (Ed & Hent & c & Hk).
  pose proof (bs_range x3 (owned_layout x3 _ (to_owned x3 T3))) as Hbs3. pose proof (synced_tree x3 ltac:(lia)) as Et. rewrite E3 in Et.
  destruct (parent_dir_path _ _ _ _ _ Ed) as (Hd & Ep & _).
  split; [exact T4|]. split; [exact (unlink_done x path entries d name k x3 Df E3 Gb)|].
  intros _. rewrite !number_resolve, Et by assumption. split; [exact (removed_path _ _ _ _ _ _ Ed Hne)|].
  exists k. split; [congruence|]. intros p n Hpn Hn. rewrite number_resolve, Et by assumption. rewrite number_resolve in Hpn by exact T.
  apply pruned_path; auto. congruence.
Qed.

(** ** The sample image *)

Lemma sample_tree_dirs n m : tree sample !! n = Some (Dir m) -> n = 2 /\ m = dir_map sample_entries.
Proof.
  intros H. destruct (tree_dir_node sample n m sample_tree_ok H) as (Lv & Hdir & b & es & _ & _ & He & ->).
  assert (Cases : n = 2 \/ In n [1; 3; 4; 5; 6; 7; 8]).
  { pose proof (proj1 Lv) as Hv. unfold inode_valid in Hv. destruct sample_fields as (E8 & _). rewrite E8 in Hv. cbn. lia. }
  destruct Cases as [-> | Hi].
  - destruct sample_dir_sound as [Ds _]. pose proof (ds_entries _ _ _ _ Ds) as He'. split; [reflexivity | congruence].
  - exfalso. assert (Hb : forallb (fun n => negb (inode_is_dir (disk sample n))) [1; 3; 4; 5; 6; 7; 8] = true) by (vm_compute; reflexivity).
    rewrite forallb_forall in Hb. specialize (Hb n Hi). rewrite Hdir in Hb. discriminate Hb.
Qed.

(** A directory of one block with used entries only is packed. *)
Lemma one_block_packed x dir es :
  tree_ok x -> dir_sound x dir 1 es -> Forall (fun e => en_inode e <> 0) es -> packed_dir x dir 1.
Proof.
  intros T [_ _ Hs He] Hu. apply (dir_entries_blocks x dir 1 _ (owned_layout _ _ (to_owned _ T))) in He as (ess & Ec & Bl); [|lia | exact Hs].
  exists ess. split; [exact Bl|]. destruct Bl as [Hl _]. destruct ess as [|l [|]]; try discriminate Hl. cbn [concat] in Ec. rewrite app_nil_r in Ec.
  constructor; [|constructor]. intros a u w b E _. rewrite List.Forall_forall in Hu. apply Hu. rewrite Ec, E. apply in_app_iff. cbn. auto.
Qed.

Lemma sample_removable : removable_file sample [47; 97].
Proof.
  intros entries d name k Df. destruct (doomed_file_some _ _ _ _ _ _ Df) as (Hp & Hn & _). clear Df. destruct (parent_dir_path _ _ _ _ _ Hp) as (Hd & _ & _ & _ & p & En & _).
  destruct (sample_tree_dirs d entries Hd) as [-> ->]. change [[97]] with ([] ++ [[97]]) in En. apply app_inj_tail in En as [_ <-].
  rewrite lookup_dir_map in Hn. vm_compute in Hn. injection Hn as <-. split.
  - intros n m nm Hm Hk. destruct (sample_tree_dirs n m Hm) as [-> ->]. right. split; [reflexivity|]. rewrite lookup_dir_map in Hk.
    destruct (lookup_name sample_entries nm) as [e|] eqn:El; [|discriminate Hk]. destruct (lookup_name_in _ _ _ El) as [Hi <-].
    cbn in Hi. repeat destruct Hi as [<- | Hi]; try destruct Hi; cbn in Hk |- *; first [discriminate Hk | reflexivity].
  - replace (i_size (disk sample 2) / x_block_size sample) with 1 by (vm_compute; reflexivity).
    apply (one_block_packed sample _ sample_entries sample_tree_ok (proj1 sample_dir_sound)). cbn. repeat constructor; cbn; lia.
Qed.

Lemma unlink_correct_witness :
  (exists r x', ext2_unlink sample [47; 97] = Ret (r, x') /\ tree_ok x' /\ unlink_outcome sample [47; 97] r x'
   /\ (r = 0 -> number x' [47; 97] = None
        /\ exists k, number sample [47; 97] = Some k /\ forall p n, number sample p = Some n -> n <> k -> number x' p = Some n))
  /\ match ext2_unlink sample [47; 97] with
     | Ret (r, x') => (r, number sample [47; 97], number x' [47; 97], inode_used x' 3, block_used sample 7, block_used x' 7) = (0, Some 3, None, false, true, false)
     | _ => False
     end.
Proof.
  split.
  - exact (unlink_correct sample [47; 97] sample_tree_ok sample_removable).
  - vm_compute. reflexivity.
Defined.
