(* ===== verification/Ext2Rmdir.v ===== *)
(** * Removing directories: [ext2_rmdir] on the tree *)

From S2P Require Import Prelude Klog Pmm Vmm Pages Heap Fs Elf Keyboard Process Scheduler Kernel Syscall PathProofs.
From S2P Require Import Ext2Image Ext2Codec Ext2Layout Ext2Alloc Ext2 Ext2Ops Ext2Sample Ext2Proofs Ext2Dir Ext2Own Ext2Link Ext2Free Ext2Write Ext2Files.
From S2P Require Import Ext2Inodes Ext2Names Ext2Tree Ext2Create Ext2Mkdir Ext2Unlink.

(** A directory with nothing in it but its own links. *)
Definition empty_dir (entries : gmap (list Z) Z) : Prop := map_Forall (fun name _ => is_dot_name name = true) entries.

#[export] Instance empty_dir_dec entries : Decision (empty_dir entries).
Proof. unfold empty_dir. apply _. Defined.

(** The directory that a path removes: the one of the name, unless the name is
    a link of its own, the name is of no directory, or it is not empty. *)
Definition doomed_dir (t : tree_map) (path : list Z) : option (gmap (list Z) Z * Z * list Z * Z) :=
  '(entries, d, name) ← parent_dir t path;
  if is_dot_name name then None else
  k ← entries !! name;
  match t !! k with
  | Some (Dir m) => if decide (empty_dir m) then Some (entries, d, name, k) else None
  | _ => None
  end.

Lemma doomed_dir_some t path entries d name k :
  doomed_dir t path = Some (entries, d, name, k) ->
  parent_dir t path = Some (entries, d, name) /\ entries !! name = Some k /\ exists m, t !! k = Some (Dir m).
Proof.
  unfold doomed_dir. destruct (parent_dir t path) as [[[es d'] nm]|]; [|discriminate]. cbn [mbind option_bind].
  destruct (is_dot_name nm); [discriminate|]. destruct (es !! nm) as [k'|] eqn:En; [|discriminate]. cbn [mbind option_bind].
  destruct (t !! k') as [[m| |]|] eqn:Ek; try discriminate. destruct (decide (empty_dir m)); [|discriminate]. intros [= <- <- <- <-]. eauto.
Qed.

Lemma dir_is_empty_ok x k b es :
  owned x (disk x) -> inode_valid x k -> dir_sound x (disk x k) b es -> entries_ok x es ->
  dir_is_empty x (disk x k) = Ret (bool_decide (empty_dir (dir_map es))).
Proof.
  intros O Hk [Hd Hb Hs He] Eo. rewrite (dir_is_empty_correct x (disk x k) es (owned_layout x _ O)).
  2: { split; [exact Hd | exact (owned_readable x _ O k Hk) | exact (disk_size x k) | exact He]. }
  f_equal. apply eq_true_iff_eq. rewrite bool_decide_eq_true, forallb_forall. unfold empty_dir. split.
  - intros H nm i Hi. rewrite lookup_dir_map in Hi. destruct (lookup_name es nm) as [e|] eqn:El; [|discriminate].
    destruct (lookup_name_in _ _ _ El) as [Hin <-]. specialize (H e Hin). unfold lookup_name in El. apply find_some in El as [_ El].
    apply andb_true_iff in El as [Hz _]. destruct (en_inode e =? 0); [discriminate Hz | exact H].
  - intros H e Hin. destruct (Z.eqb_spec (en_inode e) 0) as [|Hz]; [reflexivity|]. cbn [orb]. apply (H _ (en_inode e)), (entries_lookup x es e Eo).
    apply List.filter_In. split; [exact Hin|]. destruct (Z.eqb_spec (en_inode e) 0); [contradiction | reflexivity].
Qed.

(** ** The links of the parent *)

Definition fewer_links (i : ext2_inode) : ext2_inode := if 0 <? i_links_count i then set_i_links_count i (i_links_count i - 1) else i.

Lemma fewer_links_ok x d b es :
  owned x (disk x) -> inode_valid x d -> dir_sound x (disk x d) b es ->
  exists x', (if 0 <? i_links_count (disk x d) then write_inode x d (set_i_links_count (disk x d) (i_links_count (disk x d) - 1)) else Ret (true, x))
             = Ret (true, x')
  /\ owned x' (disk x') /\ changed (fun _ => True) d x x' /\ disk x' d = fewer_links (disk x d) /\ dir_sound x' (disk x' d) b es
  /\ same_blocks x x'.
Proof.
  intros O Hd Ds. pose proof (links_range x d). unfold fewer_links. destruct (Z.ltb_spec 0 (i_links_count (disk x d))).
  - apply set_links_ok; auto. unfold is_u16. lia.
  - exists x. split; [reflexivity|]. split; [exact O|]. split; [apply changed_refl|]. split; [reflexivity|]. split; [exact Ds | intros b' _; reflexivity].
Qed.

(** ** [ext2_rmdir] *)

(** The directory that the path removes, if there is one, is detachable, and not
    the root. *)
Definition removable_dir (x : ext2) (path : list Z) : Prop :=
  forall entries d name k, doomed_dir (tree x) path = Some (entries, d, name, k) -> detachable x k d name /\ k <> EXT2_ROOT_INODE.

(** Either nothing is removed, or the directory is, with its name and the link
    to its parent. *)
Inductive rmdir_outcome (x : ext2) (path : list Z) : Z -> ext2 -> Prop :=
  | rmdir_refused : doomed_dir (tree x) path = None -> rmdir_outcome x path USER_ERR_INVAL x
  | rmdir_done entries d name k x' :
      doomed_dir (tree x) path = Some (entries, d, name, k) -> tree x' = pruned (tree x) k d entries name -> given_back x k x' ->
      i_links_count (disk x' d) = Z.max 0 (i_links_count (disk x d) - 1) ->
      rmdir_outcome x path (if sync_fine x' then 0 else USER_ERR_FAULT) (synced x').

(** An empty directory is not its own parent. *)
Lemma empty_not_parent entries name k : entries !! name = Some k -> is_dot_name name = false -> ~ empty_dir entries.
Proof. intros Hn Hd He. specialize (He name k Hn). cbn in He. congruence. Qed.

Lemma rmdir_cases x path :
  tree_ok x -> removable_dir x path ->
  exists r x', ext2_rmdir x path = Ret (r, x')
  /\ ((r = USER_ERR_INVAL /\ x' = x /\ doomed_dir (tree x) path = None)
      \/ exists entries d name k x3, doomed_dir (tree x) path = Some (entries, d, name, k) /\ parent_dir (tree x) path = Some (entries, d, name)
         /\ d <> k /\ tree_ok x3 /\ tree x3 = pruned (tree x) k d entries name /\ given_back x k x3
         /\ i_links_count (disk x3 d) = Z.max 0 (i_links_count (disk x d) - 1)
         /\ r = (if sync_fine x3 then 0 else USER_ERR_FAULT) /\ x' = synced x3).
Proof.
  intros T Rm. pose proof (owned_layout x _ (to_owned x T)) as L. pose proof (bs_range x L) as Hbs.
  unfold ext2_rmdir, doomed_dir. rewrite (parent_lookup_ok x path T). cbn [mbind res_bind].
  assert (Refused : forall A : Z -> ext2 -> Prop, exists r x', Ret (USER_ERR_INVAL, x) = Ret (r, x') /\ ((r = USER_ERR_INVAL /\ x' = x /\ @None (gmap (list Z) Z * Z * list Z * Z) = None) \/ A r x')).
  { intros A. exists USER_ERR_INVAL, x. split; [reflexivity|]. left. auto. }
  destruct (parent_dir (tree x) path) as [[[entries d] name]|] eqn:Ed; cbn [option_map mbind option_bind]; [|apply Refused].
  destruct (parent_dir_path _ _ _ _ _ Ed) as (Hdn & En & _).
  change (bool_decide (name = [46]) || bool_decide (name = [46; 46])) with (is_dot_name name). destruct (is_dot_name name) eqn:Hdot; [apply Refused|].
  destruct (parent_entry_ok x path entries d name T Ed) as (Lv & Hdir & Hl & -> & b & es & Ds & Eo & ->). cbn [mbind res_bind].
  pose proof (ds_entries _ _ _ _ Ds) as He. destruct (dir_map es !! name) as [k|] eqn:Hent; unfold option_bind; [|apply Refused].
  pose proof Hent as El. rewrite lookup_dir_map in El. destruct (lookup_name es name) as [e|] eqn:Elk; cbn [option_map] in El; [|discriminate El]. injection El as Ek.
  destruct (entry_inode_ok x d es name e T Lv Hdir He Elk) as (Lk & Rk). rewrite Ek in Lk, Rk. rewrite Rk. cbn [mbind res_bind]. pose proof (proj1 Lk) as Hkv.
  destruct (inode_is_dir (disk x k)) eqn:Hkd.
  2: { unfold dir_is_empty. rewrite Hkd. cbn [negb mbind res_bind orb]. rewrite lookup_tree, (node_of_live x k Lk). unfold node_at. rewrite Hkd.
       destruct (inode_is_file (disk x k)); apply Refused. }
  destruct (no_dir x k (to_nodes x T k Hkv) Lk Hkd) as (bk & esk & Dsk & Eok).
  rewrite (dir_is_empty_ok x k bk esk (to_owned x T) Hkv Dsk Eok). cbn [mbind res_bind negb orb].
  assert (Hkn : tree x !! k = Some (Dir (dir_map esk))) by (rewrite lookup_tree, (node_of_live x k Lk); unfold node_at; rewrite Hkd, (ds_entries _ _ _ _ Dsk); reflexivity).
  rewrite Hkn. destruct (decide (empty_dir (dir_map esk))) as [Hem|Hem].
  2: { rewrite bool_decide_eq_false_2 by exact Hem. cbn [negb]. apply Refused. }
  rewrite bool_decide_eq_true_2 by exact Hem. cbn [negb].
  assert (Hne : d <> k) by (intros <-; rewrite Hdn in Hkn; injection Hkn as Em; apply (empty_not_parent _ _ _ Hent Hdot); rewrite Em; exact Hem).
  destruct (Rm (dir_map es) d name k) as [[Sole Pk] Hr].
  { unfold doomed_dir. rewrite Ed. cbn [mbind option_bind]. rewrite Hdot, Hent. cbn [mbind option_bind]. rewrite Hkn, decide_True by exact Hem. reflexivity. }
  rewrite (ds_size _ _ _ _ Ds), Z.div_mul in Pk by lia.
  destruct (remove_dir_entry_ok x (to_owned x T) d (proj1 Lv) name b es e Ds Pk Elk Hl) as (x1 & -> & O1 & C1 & D1 & Sb1 & es' & Ds1 & R).
  rewrite Ek in *. cbn [mbind res_bind negb orb]. rewrite Z.eqb_refl. cbn [negb]. rewrite <- D1 in Ds1 |- *.
  assert (Hd1 : inode_valid x1 d) by (destruct (ch_image _ _ _ _ C1) as (m1 & Ex1 & G1); rewrite Ex1; apply frame_inode_valid; [exact G1 | apply Lv]).
  destruct (fewer_links_ok x1 d b es' O1 Hd1 Ds1) as (x2 & -> & O2 & C2 & D2 & Ds2 & Sb2). cbn [mbind res_bind].
  assert (Sb : same_blocks x x2) by (destruct (ch_image _ _ _ _ C1) as (m1 & Ex1 & G1); rewrite Ex1 in *; exact (same_blocks_trans x m1 x2 G1 Sb1 Sb2)).
  destruct (dropped_ok x T d k es b name Lv Hdir Ds Eo Lk Hne Hr Sole x2 es' true O2 (changed_trans _ d x x1 x2 L C1 C2) Ds2 R Sb) as (x3 & -> & T3 & E3 & D3 & Gb).
  rewrite finish_eq. eexists _, _. split; [reflexivity|]. right. exists (dir_map es), d, name, k, x3.
  split; [reflexivity|]. split; [reflexivity|]. repeat (split; [assumption|]). split; [|split; reflexivity].
  pose proof (links_range x1 d). rewrite D3, D2, <- D1. unfold fewer_links. destruct (Z.ltb_spec 0 (i_links_count (disk x1 d))); cbn [set_i_links_count i_links_count]; lia.
Qed.

(** C27. Removing a directory by its path is an operation on the tree that the
    image stands for. On a sound tree, [ext2_rmdir] ends with a sound tree: a path whose
    last name is [.] or [..], that names no directory, or one with other names
    than these, is refused and nothing changes ([doomed_dir] is [None], whatever
    the links and the records are); otherwise the tree is without the directory
    and without its name, its inode is cleared and free, the blocks in use are
    those of before without its own, and the parent counts one link less.
    Afterwards the path names nothing, and no path names something it did not
    name before. The conditions are on an empty directory that is there to be
    removed: the name is its only link apart from its own, the records of its
    parent are packed, and it is not the root. *)
Theorem rmdir_correct x path :
  tree_ok x -> removable_dir x path ->
  exists r x', ext2_rmdir x path = Ret (r, x') /\ tree_ok x' /\ rmdir_outcome x path r x'
  /\ (forall p n, number x' p = Some n -> number x p = Some n) /\ (r = 0 -> number x' path = None).
Proof.
  intros T Rm. destruct (rmdir_cases x path T Rm) as (r & x' & E & [(-> & -> & Why) | (entries & d & name & k & x3 & Ed & Hp & Hne & T3 & E3 & Gb & Hl & -> & ->)]).
  { exists USER_ERR_INVAL, x. split; [exact E|]. split; [exact T|]. split; [exact (rmdir_refused x path Why)|]. split; [auto | intros H; discriminate H]. }
  eexists _, _. split; [exact E|]. pose proof (synced_tree_ok x3 T3) as T4.
  pose proof (bs_range x3 (owned_layout x3 _ (to_owned x3 T3))) as Hbs3. pose proof (synced_tree x3 ltac:(lia)) as Et. rewrite E3 in Et.
  split; [exact T4|]. split; [exact (rmdir_done x path entries d name k x3 Ed E3 Gb Hl)|].
  pose proof (proj1 (parent_dir_path _ _ _ _ _ Hp)) as Hd. split.
  - intros p n. rewrite !number_resolve, Et by assumption. unfold tree_path. destruct p as [|c p]; [discriminate|].
    destruct (decide (c = 47)) as [->|Hc]; [exact (pruned_sub _ d k entries name _ Hd _ _)|].
    destruct c as [|q|q]; try discriminate. do 6 (destruct q as [q|q|]; try discriminate). congruence.
  - intros _. rewrite number_resolve, Et by assumption. exact (removed_path _ _ _ _ _ _ Hp Hne).
Qed.

(** ** A sample image with a directory *)

Definition empty_dir_inode : ext2_inode :=
  mk_inode 0x41ed 0 1024 0 0 0 0 0 2 2 0 0 (7 :: repeat 0 14) 0 0 0 0 (repeat 0 12).

Definition sample_dir_mem : mem :=
  write_words (mem_write sample_mem 5376 (inode_bytes empty_dir_inode))
    [ (4%nat, 7168, 3); (2%nat, 7172, 12); (1%nat, 7174, 1); (1%nat, 7175, 2); (1%nat, 7176, 46);
      (4%nat, 7180, 2); (2%nat, 7184, 1012); (1%nat, 7186, 2); (1%nat, 7187, 2); (2%nat, 7188, 0x2e2e) ].

(** The sample with a directory in place of the file. *)
Definition sample_dirs : ext2 := set_image sample sample_dir_mem.

Lemma sample_dir_out a : ~ 5376 <= a < 5504 -> ~ 7168 <= a < 7190 -> sample_dir_mem a = sample_mem a.
Proof.
  intros H1 H2. unfold sample_dir_mem. cbn [write_words]. rewrite !store_out by lia. apply mem_write_out.
  change (Z.of_nat (length (inode_bytes empty_dir_inode))) with 128. lia.
Qed.

Lemma sample_dir_meta a : meta_byte sample a -> u8 (sample_dir_mem a) = u8 (x_image sample a).
Proof.
  intros Hm. rewrite sample_dir_out; [reflexivity | |].
  - intros Ha. apply (inode_not_meta sample sample_layout 3 a); [| |exact Hm].
    + destruct sample_fields as (E & _). unfold inode_valid. rewrite E. lia.
    + replace (inode_pos sample 3) with 5376 by (vm_compute; reflexivity). unfold sizeof_inode. lia.
  - intros Ha. apply (data_not_meta sample 7 a (sample_data 7 ltac:(lia))); [|exact Hm]. change (x_block_size sample) with 1024. lia.
Qed.

Lemma sample_dirs_geom : same_geom sample sample_dir_mem.
Proof. apply (keep_geom sample); [exact sample_dir_meta]. Qed.

Lemma sample_dirs_owned : owned sample_dirs (disk sample_dirs).
Proof.
  assert (E : used_slots sample_dirs = [(2, 0, 6); (3, 0, 7)]) by (vm_compute; reflexivity). pose proof sample_dirs_geom as G.
  apply owned_listed; rewrite ?E.
  - exact (keep_ok sample _ sample_dir_meta sample_ok).
  - repeat constructor; cbn; intuition lia.
  - assert (B : forall b, 6 <= b < 16 -> block_used sample_dirs b = true ->
                  block_valid sample_dirs b /\ block_used sample_dirs b = true /\ data_block sample_dirs b).
    { intros b Hb Hu. split; [apply (frame_valid sample _ G); destruct sample_fields as (_ & E2 & E3 & _); unfold block_valid; rewrite E2, E3; lia|].
      split; [exact Hu | apply (frame_data_block sample _ G), sample_data; lia]. }
    constructor; [|constructor; [|constructor]]; (apply B; [cbn [snd]; lia | vm_compute; reflexivity]).
Qed.

Definition sub_entries : list dir_entry := [mk_entry 3 2 [46]; mk_entry 2 2 [46; 46]].

Lemma sample_dirs_live n : n = 2 \/ n = 3 -> live sample_dirs n.
Proof. intros [-> | ->]; split; vm_compute; try reflexivity; split; discriminate. Qed.

Lemma sample_dirs_sound :
  (dir_sound sample_dirs (disk sample_dirs 2) 1 sample_entries /\ entries_ok sample_dirs sample_entries)
  /\ dir_sound sample_dirs (disk sample_dirs 3) 1 sub_entries /\ entries_ok sample_dirs sub_entries.
Proof.
  split; (split; [split; vm_compute; first [reflexivity | split; discriminate] | split; [cbn; repeat constructor; cbn; intuition discriminate|]]);
    intros e He; cbn in He; repeat destruct He as [<- | He]; try destruct He; apply sample_dirs_live; cbn [en_inode]; auto.
Qed.

Lemma sample_dirs_cases n : inode_valid sample_dirs n -> n = 2 \/ n = 3 \/ inode_is_dir (disk sample_dirs n) = false /\ inode_is_file (disk sample_dirs n) = false.
Proof.
  intros Hn. assert (Cases : n = 2 \/ n = 3 \/ In n [1; 4; 5; 6; 7; 8]).
  { pose proof (proj1 (frame_inode_valid sample sample_dir_mem n sample_dirs_geom) Hn) as Hv. unfold inode_valid in Hv. destruct sample_fields as (E8 & _). rewrite E8 in Hv. cbn. lia. }
  destruct Cases as [-> | [-> | Hi]]; auto. right. right.
  assert (H : forallb (fun n => negb (inode_is_dir (disk sample_dirs n)) && negb (inode_is_file (disk sample_dirs n))) [1; 4; 5; 6; 7; 8] = true) by (vm_compute; reflexivity).
  rewrite forallb_forall in H. specialize (H n Hi). apply andb_true_iff in H as [H1 H2]. split; apply negb_true_iff; assumption.
Qed.

Lemma sample_dirs_tree_ok : tree_ok sample_dirs.
Proof.
  destruct sample_dirs_sound as [[D2 E2] [D3 E3]].
  split; [exact sample_dirs_owned | reflexivity | apply sample_dirs_live; auto|].
  intros n Hn. destruct (sample_dirs_cases n Hn) as [-> | [-> | [Hd Hf]]]; [| |exact (plain_node_ok _ _ Hd Hf)].
  - apply (dir_node_plain _ _ 1 sample_entries); [vm_compute; reflexivity | exact D2 | exact E2].
  - apply (dir_node_plain _ _ 1 sub_entries); [vm_compute; reflexivity | exact D3 | exact E3].
Qed.

Lemma sample_dirs_nodes n m : tree sample_dirs !! n = Some (Dir m) -> n = 2 /\ m = dir_map sample_entries \/ n = 3 /\ m = dir_map sub_entries.
Proof.
  intros H. destruct (tree_dir_node sample_dirs n m sample_dirs_tree_ok H) as (Lv & Hdir & b & es & _ & _ & He & ->).
  destruct sample_dirs_sound as [[D2 _] [D3 _]]. destruct (sample_dirs_cases n (proj1 Lv)) as [-> | [-> | [Hd _]]].
  - left. pose proof (ds_entries _ _ _ _ D2) as He'. split; [reflexivity | congruence].
  - right. pose proof (ds_entries _ _ _ _ D3) as He'. split; [reflexivity | congruence].
  - rewrite Hdir in Hd. discriminate Hd.
Qed.

Lemma sample_dirs_removable : removable_dir sample_dirs [47; 97].
Proof.
  intros entries d name k Df. destruct (doomed_dir_some _ _ _ _ _ _ Df) as (Hp & Hn & _). clear Df. destruct (parent_dir_path _ _ _ _ _ Hp) as (Hd & _ & _ & _ & p & En & Ep).
  change [[97]] with ([] ++ [[97]]) in En. apply app_inj_tail in En as [<- <-]. cbn [resolve] in Ep. injection Ep as <-.
  destruct (sample_dirs_nodes _ entries Hd) as [[_ ->] | [E _]]; [|discriminate E].
  rewrite lookup_dir_map in Hn. vm_compute in Hn. injection Hn as <-. split; [|discriminate]. split.
  - intros n m nm Hm Hk. destruct (sample_dirs_nodes n m Hm) as [[-> ->] | [-> ->]]; [right; split; [reflexivity|] | left; reflexivity]. rewrite lookup_dir_map in Hk.
    destruct (lookup_name sample_entries nm) as [e|] eqn:El; [|discriminate Hk]. destruct (lookup_name_in _ _ _ El) as [Hi <-].
    cbn in Hi. repeat destruct Hi as [<- | Hi]; try destruct Hi; cbn in Hk |- *; first [discriminate Hk | reflexivity].
  - replace (i_size (disk sample_dirs EXT2_ROOT_INODE) / x_block_size sample_dirs) with 1 by (vm_compute; reflexivity).
    destruct sample_dirs_sound as [[Ds _] _]. apply (one_block_packed sample_dirs _ sample_entries sample_dirs_tree_ok Ds).
    cbn. repeat constructor; cbn; lia.
Qed.

Lemma rmdir_correct_witness :
  (exists r x', ext2_rmdir sample_dirs [47; 97] = Ret (r, x') /\ tree_ok x' /\ rmdir_outcome sample_dirs [47; 97] r x'
   /\ (forall p n, number x' p = Some n -> number sample_dirs p = Some n) /\ (r = 0 -> number x' [47; 97] = None))
  /\ match ext2_rmdir sample_dirs [47; 97] with
     | Ret (r, x') => (r, number sample_dirs [47; 97], number x' [47; 97], inode_used x' 3, i_links_count (disk x' 2), block_used x' 7) = (0, Some 3, None, false, 1, false)
     | _ => False
     end.
Proof.
  split.
  - exact (rmdir_correct sample_dirs [47; 97] sample_dirs_tree_ok sample_dirs_removable).
  - vm_compute. reflexivity.
Defined.
