(* ===== verification/Ext2History.v ===== *)
(** * Histories of the file system

    The specification of the operations that change an ext2 file system, as
    functions of the tree alone, and the refinement: the code run on an image
    does to the image's tree what the specification allows, one operation or a
    sequence of them. *)

From S2P Require Import Prelude Klog Pmm Vmm Pages Heap Fs Elf Keyboard Process Scheduler Kernel Syscall PathProofs.
From S2P Require Import Ext2Image Ext2Codec Ext2Layout Ext2Alloc Ext2 Ext2Ops Ext2Sample Ext2Proofs Ext2Dir Ext2Own Ext2Link Ext2Free Ext2Write Ext2Files.
From S2P Require Import Ext2Inodes Ext2Names Ext2Tree Ext2Create Ext2Mkdir Ext2Unlink Ext2Rmdir.

(** ** The specification *)

Inductive fs_op : Type :=
  | OpWrite (path bytes : list Z) (offset : Z)
  | OpTruncate (path : list Z) (size : Z)
  | OpCreate (path : list Z)
  | OpMkdir (path : list Z)
  | OpUnlink (path : list Z)
  | OpRmdir (path : list Z).

Definition file_at (t : tree_map) (path : list Z) : option (Z * list Z) :=
  n ← tree_path t path; match t !! n with Some (File c) => Some (n, c) | _ => None end.

(** A new node [v] by the path. *)
Definition tree_add (t : tree_map) (path : list Z) (k : Z) (v : Z -> node) : option tree_map :=
  match tree_path t path with
  | Some _ => None
  | None => '(entries, d, name) ← parent_dir t path; Some (<[k := v d]> (<[d := Dir (<[name := k]> entries)]> t))
  end.

(** The tree after an operation; a new node gets the number [k]. [None] for an
    operation that is refused. *)
Definition op_effect (t : tree_map) (op : fs_op) (k : Z) : option tree_map :=
  match op with
  | OpWrite path bytes offset =>
      '(n, c) ← file_at t path; if offset <=? Z.of_nat (length c) then Some (<[n := File (splice c offset bytes)]> t) else None
  | OpTruncate path size => '(n, c) ← file_at t path; Some (<[n := File (resized c size)]> t)
  | OpCreate path => tree_add t path k (fun _ => File [])
  | OpMkdir path => tree_add t path k (fun d => Dir (dot_map k d))
  | OpUnlink path =>
      '(entries, d, name) ← parent_dir t path; '(n, _) ← file_at t path; Some (pruned t n d entries name)
  | OpRmdir path => '(entries, d, name, n) ← doomed_dir t path; Some (pruned t n d entries name)
  end.

(** What an operation returns when it is done. *)
Definition op_value (op : fs_op) : Z := match op with OpWrite _ bytes _ => Z.of_nat (length bytes) | _ => 0 end.

(** The write-back of the image, if there is one, reports success. *)
Definition writes_back (x : ext2) : bool :=
  match x_writeback x with None => true | Some f => f (x_image x) (x_size x) end.

Abbreviation free_blocks x := (sb_free_blocks_count (x_image x)).
Abbreviation max_size x := (max_blocks x * x_block_size x).

(** The directory of a path has as many blocks as a file can have. *)
Definition full_parent (x : ext2) (path : list Z) : Prop :=
  exists entries d name, parent_dir (tree x) path = Some (entries, d, name) /\ i_size (disk x d) = max_size x.

(** Why there was no room for an operation: a file would exceed the size of the
    largest one, the directory cannot grow, no inode is free, or the blocks are
    used up, but for one or, after a directory has given its own back, two. A
    removal needs no room. *)
Definition no_room (x : ext2) (op : fs_op) (x' : ext2) : Prop :=
  match op with
  | OpWrite _ bytes offset => max_size x < offset + Z.of_nat (length bytes) \/ free_blocks x' <= 1
  | OpTruncate _ size => max_size x < size \/ free_blocks x' <= 1
  | OpCreate path => no_free_inode x \/ full_parent x path \/ free_blocks x' <= 1
  | OpMkdir path => no_free_inode x \/ full_parent x path \/ free_blocks x' <= 2
  | OpUnlink _ | OpRmdir _ => False
  end.

(** The tree when there was no room: the same, but for the bytes that a write
    was about and for what it has added to the file. *)
Inductive out_of_room (t : tree_map) : fs_op -> tree_map -> Prop :=
  | room_same op : out_of_room t op t
  | room_write path bytes offset n c c' :
      file_at t path = Some (n, c) -> (length c <= length c')%nat ->
      (forall p, 0 <= p < Z.of_nat (length c) -> ~ within offset (Z.of_nat (length bytes)) p -> nth (Z.to_nat p) c' 0 = nth (Z.to_nat p) c 0) ->
      out_of_room t (OpWrite path bytes offset) (<[n := File c']> t).

(** The results the specification allows: done, and then reported as an error
    exactly when the write-back fails; refused, which is what has no effect on
    the tree; or it has one and there was no room for it. *)
Inductive op_result (x : ext2) (op : fs_op) : Z -> ext2 -> Prop :=
  | result_done k x' :
      tree x !! k = None -> op_effect (tree x) op k = Some (tree x') ->
      op_result x op (if writes_back x' then op_value op else USER_ERR_FAULT) x'
  | result_refused : (forall k, op_effect (tree x) op k = None) -> op_result x op USER_ERR_INVAL x
  | result_no_room k t' x' :
      op_effect (tree x) op k = Some t' -> no_room x op x' -> out_of_room (tree x) op (tree x') -> op_result x op USER_ERR_FAULT x'.

(** What the write-back reports. *)
Lemma sync_fine_writes_back y : tree_ok (synced y) -> sync_fine y = writes_back (synced y).
Proof.
  intros T. pose proof (to_mounted _ T) as M. unfold synced, sync_fine, writes_back, ext2_sync in *.
  destruct (ext2_mounted y) eqn:E; cbn [negb fst snd] in *; [|congruence].
  destruct (x_writeback y) as [f|] eqn:Ew; cbn [fst snd x_writeback x_image x_size] in *; [reflexivity | rewrite Ew; reflexivity].
Qed.

(** ** One operation *)

Definition run_op (x : ext2) (op : fs_op) : res (Z * ext2) :=
  match op with
  | OpWrite path bytes offset => ext2_write_file x path bytes offset
  | OpTruncate path size => ext2_truncate_file x path size
  | OpCreate path => ext2_create_file x path
  | OpMkdir path => ext2_mkdir x path
  | OpUnlink path => ext2_unlink x path
  | OpRmdir path => ext2_rmdir x path
  end.

(** What an operation needs: arguments of the widths of the code and paths of
    bytes; for a removal, what [removable_file] and [removable_dir] say. *)
Definition op_ok (x : ext2) (op : fs_op) : Prop :=
  match op with
  | OpWrite _ bytes offset => Forall is_byte bytes /\ 0 <= offset /\ Z.of_nat (length bytes) < 9223372036854775808
  | OpTruncate _ size => 0 <= size
  | OpCreate path | OpMkdir path => Forall is_byte path
  | OpUnlink path => removable_file x path
  | OpRmdir path => removable_dir x path
  end.

(** A change of one file is a change of its node. *)
Lemma changed_file_tree x n y :
  tree_ok x -> live x n -> inode_is_dir (disk x n) = false -> inode_is_file (disk x n) = true ->
  changed (fun _ => True) n x y -> owned y (disk y) -> file_ok y (disk y n) ->
  tree_ok y /\ tree y = <[n := File (contents y n)]> (tree x).
Proof.
  intros T Ln Hd Hf C O' FO. pose proof (owned_layout x _ (to_owned x T)) as L. pose proof (changed_touched _ n x y L C) as Tc.
  assert (Hd' : inode_is_dir (disk y n) = false) by (unfold inode_is_dir in *; rewrite (ch_mode _ _ _ _ C); exact Hd).
  assert (Hf' : inode_is_file (disk y n) = true) by (unfold inode_is_file in *; rewrite (ch_mode _ _ _ _ C); exact Hf).
  assert (Lv : forall k, live x k -> live y k).
  { intros k [Hk Hu]. split; [apply (touched_valid _ _ _ k Tc); exact Hk | rewrite (changed_used _ n x y k L C Hk); exact Hu]. }
  split.
  - apply (touched_tree_ok (eq n) x y L Tc T O' Lv); [|exact (Z.eq_dec n)]. intros k <- _. split; congruence || auto.
  - apply (tree_eq (eq n) x y (Z.eq_dec n)); [exact L | exact Tc | |].
    + intros k <-. rewrite (node_of_live y n (Lv n Ln)). unfold node_at. rewrite Hd', Hf'. symmetry. apply lookup_insert_eq.
    + intros k Hk. rewrite lookup_insert_ne by congruence. reflexivity.
Qed.

Lemma file_step_tree x n x' :
  tree_ok x -> live x n -> inode_is_dir (disk x n) = false -> inode_is_file (disk x n) = true ->
  file_step x n x' -> file_ok x' (disk x' n) -> tree_ok x' /\ tree x' = <[n := File (contents x' n)]> (tree x).
Proof.
  intros T Ln Hd Hf [y C O' | y C O'] FO; [exact (changed_file_tree x n y T Ln Hd Hf C O' FO)|].
  assert (FO' : file_ok y (disk y n)) by (rewrite synced_disk in FO; destruct (synced_cases y) as [E | E]; rewrite E in FO; destruct FO; split; assumption).
  destruct (changed_file_tree x n y T Ln Hd Hf C O' FO') as [Ty Ey]. pose proof (bs_range y (owned_layout y _ O')) as Hbs.
  split; [exact (synced_tree_ok y Ty)|]. rewrite synced_tree by lia. rewrite synced_contents. exact Ey.
Qed.

(** The file of a path, in the tree and for the code. *)
Lemma file_at_some x path n c :
  tree_ok x -> file_at (tree x) path = Some (n, c) ->
  live x n /\ inode_is_dir (disk x n) = false /\ inode_is_file (disk x n) = true /\ c = contents x n
  /\ named x path = Some (disk x n, n) /\ file_ok x (disk x n) /\ tree_path (tree x) path = Some n /\ tree x !! n = Some (File c).
Proof.
  intros T H. unfold file_at in H. destruct (tree_path (tree x) path) as [k|] eqn:Ep; [|discriminate H]. cbn [mbind option_bind] in H.
  destruct (tree x !! k) as [[|c'|]|] eqn:Ek; try discriminate H. injection H as -> ->.
  destruct (tree_file_node x n c Ek) as (Lv & Hd & Hf & <-). repeat (split; [assumption || reflexivity|]).
  split; [rewrite (tree_path_named x path T), Ep; reflexivity|]. split; [exact (no_file x n (to_nodes x T n (proj1 Lv)) Lv Hf)|]. auto.
Qed.

Lemma file_at_none x path :
  tree_ok x -> file_at (tree x) path = None ->
  named x path = None \/ exists i n, named x path = Some (i, n) /\ inode_is_file i = false.
Proof.
  intros T H. unfold file_at in H. rewrite (tree_path_named x path T). destruct (tree_path (tree x) path) as [k|] eqn:Ep; cbn [option_map]; [|auto].
  right. exists (disk x k), k. split; [reflexivity|]. cbn [mbind option_bind] in H. pose proof (tree_path_live x path k T Ep) as Lk.
  rewrite lookup_tree, (node_of_live x k Lk) in H. unfold node_at in H. destruct (inode_is_dir (disk x k)) eqn:Hd.
  - exact (no_kind x k (to_nodes x T k (proj1 Lk)) Lk Hd).
  - destruct (inode_is_file (disk x k)); [discriminate H | reflexivity].
Qed.

(** Numbers that are not in the tree. *)
Lemma tree_zero x : tree x !! 0 = None.
Proof. rewrite lookup_tree. unfold node_of. reflexivity. Qed.

Section Step.
Context (x : ext2) (T : tree_ok x).
Abbreviation t := (tree x).

(** What one operation must come to. *)
Definition step_result (op : fs_op) (r : Z) (x' : ext2) : Prop :=
  op_result x op r x' /\ (tree_ok x' \/ exists path, op = OpMkdir path /\ r = USER_ERR_FAULT).

Lemma refused_step op : (forall k, op_effect t op k = None) -> step_result op USER_ERR_INVAL x.
Proof. intros H. split; [exact (result_refused x op H) | left; exact T]. Qed.

Lemma done_step op k y v :
  t !! k = None -> tree_ok y -> op_effect t op k = Some (tree y) -> v = op_value op -> step_result op (if sync_fine y then v else USER_ERR_FAULT) (synced y).
Proof.
  intros Hk Ty E ->. pose proof (bs_range y (owned_layout y _ (to_owned y Ty))) as Hbs. split; [|left; exact (synced_tree_ok y Ty)].
  rewrite (sync_fine_writes_back y (synced_tree_ok y Ty)). rewrite <- (synced_tree y ltac:(lia)) in E. exact (result_done x op k _ Hk E).
Qed.

Lemma write_step path bytes offset :
  op_ok x (OpWrite path bytes offset) ->
  exists r x', run_op x (OpWrite path bytes offset) = Ret (r, x') /\ step_result (OpWrite path bytes offset) r x'.
Proof.
  intros (Hb & Ho & Hs). cbn [run_op]. pose proof (tree_ok_fs x T) as F. destruct (file_at t path) as [[n c]|] eqn:Ef.
  - destruct (file_at_some x path n c T Ef) as (Lv & Hd & Hf & -> & En & FO & _ & Ht). pose proof (contents_length x n) as Hlen.
    destruct (Z.leb_spec offset (i_size (disk x n))) as [Hle|Hgt].
    + pose proof (disk_size x n) as Hsz.
      destruct (write_file_ok x path n bytes offset F En Hf Hd FO Hb (conj Ho Hle) ltac:(lia)) as (r & x' & E & Only & FO' & Out).
      exists r, x'. split; [exact E|]. destruct (file_step_tree x n x' T Lv Hd Hf (of_step _ _ _ Only) FO') as [Tx' Et]. split; [|left; exact Tx'].
      assert (Eff : forall c, op_effect t (OpWrite path bytes offset) c = Some (<[n := File (splice (contents x n) offset bytes)]> t)).
      { intros c. cbn [op_effect]. rewrite Ef. cbn [mbind option_bind]. destruct (Z.leb_spec offset (Z.of_nat (length (contents x n)))); [reflexivity | lia]. }
      destruct Out as [y Ec | y Why Hl Hc].
      * rewrite (sync_fine_writes_back y Tx'). apply (result_done x (OpWrite path bytes offset) 0); [apply tree_zero|]. rewrite Eff, Et, synced_contents, Ec. reflexivity.
      * apply (result_no_room x (OpWrite path bytes offset) 0 _ y (Eff 0) Why). rewrite Et. exact (room_write _ path bytes offset n (contents x n) (contents y n) Ef Hl Hc).
    + exists USER_ERR_INVAL, x. split.
      * unfold ext2_write_file. rewrite (path_lookup_named x path (fs_ok_sound x F)), En. cbn [mbind res_bind]. rewrite Hf. cbn [negb].
        unfold inode_size_bytes. destruct (Z.ltb_spec (i_size (disk x n)) offset); [reflexivity | lia].
      * apply refused_step. intros k. cbn [op_effect]. rewrite Ef. cbn [mbind option_bind].
        destruct (Z.leb_spec offset (Z.of_nat (length (contents x n)))); [lia | reflexivity].
  - exists USER_ERR_INVAL, x. split; [|apply refused_step; intros k; cbn [op_effect]; rewrite Ef; reflexivity].
    unfold ext2_write_file. rewrite (path_lookup_named x path (fs_ok_sound x F)). destruct (file_at_none x path T Ef) as [-> | (i & n & -> & Hf)]; cbn [mbind res_bind]; rewrite ?Hf; reflexivity.
Qed.

Lemma truncate_step path size :
  op_ok x (OpTruncate path size) ->
  exists r x', run_op x (OpTruncate path size) = Ret (r, x') /\ step_result (OpTruncate path size) r x'.
Proof.
  intros Hs. cbn [run_op op_ok] in *. pose proof (tree_ok_fs x T) as F. unfold ext2_truncate_file. rewrite (path_lookup_named x path (fs_ok_sound x F)).
  destruct (file_at t path) as [[n c]|] eqn:Ef.
  - destruct (file_at_some x path n c T Ef) as (Lv & Hd & Hf & -> & En & FO & _ & Ht). rewrite En. cbn [mbind res_bind]. rewrite Hf. cbn [negb].
    assert (R : exists r x', (resize_inode_data x (disk x n) n size ≫= fun '(ok, _, x) => if negb ok then Ret (USER_ERR_FAULT, x) else finish x) = Ret (r, x')
      /\ only_file x n x' /\ file_ok x' (disk x' n) /\ truncate_outcome x n size r x').
    { destruct (Z.le_gt_cases (i_size (disk x n)) size); [apply truncate_grow | apply truncate_shrink]; auto; apply Lv. }
    destruct R as (r & x' & E & Only & FO' & Out). exists r, x'. split; [exact E|].
    destruct (file_step_tree x n x' T Lv Hd Hf (of_step _ _ _ Only) FO') as [Tx' Et]. split; [|left; exact Tx'].
    assert (Eff : forall c, op_effect t (OpTruncate path size) c = Some (<[n := File (resized (contents x n) size)]> t)) by (intros c; cbn [op_effect]; rewrite Ef; reflexivity).
    destruct Out as [y Ec | y Why Ec].
    + rewrite (sync_fine_writes_back y Tx'). apply (result_done x (OpTruncate path size) 0); [apply tree_zero|]. rewrite Eff, Et, synced_contents, Ec. reflexivity.
    + apply (result_no_room x (OpTruncate path size) 0 _ y (Eff 0) Why). rewrite Et, Ec, insert_id by exact Ht. apply room_same.
  - exists USER_ERR_INVAL, x. split; [|apply refused_step; intros k; cbn [op_effect]; rewrite Ef; reflexivity].
    destruct (file_at_none x path T Ef) as [-> | (i & n & -> & Hf)]; cbn [mbind res_bind]; rewrite ?Hf; reflexivity.
Qed.

(** A path that cannot be added. *)
Lemma tree_add_refused path k v : tree_path t path <> None \/ parent_dir t path = None -> tree_add t path k v = None.
Proof. unfold tree_add. intros [H | ->]; destruct (tree_path t path); try reflexivity. congruence. Qed.

Lemma tree_add_done path k v entries d name :
  parent_dir t path = Some (entries, d, name) -> entries !! name = None ->
  tree_add t path k v = Some (<[k := v d]> (<[d := Dir (<[name := k]> entries)]> t)).
Proof.
  intros Ed En. unfold tree_add. destruct (parent_dir_path _ _ _ _ _ Ed) as (_ & Ep & _). rewrite Ep, En, Ed. reflexivity.
Qed.

(** A path that can be added, or one that the code refuses. *)
Lemma addable path :
  (exists entries d name, tree_path t path = None /\ parent_dir t path = Some (entries, d, name))
  \/ (forall k v, tree_add t path k v = None) /\ ext2_create_file x path = Ret (USER_ERR_INVAL, x) /\ ext2_mkdir x path = Ret (USER_ERR_INVAL, x).
Proof.
  destruct (tree_path t path) as [n0|] eqn:Ep; [|destruct (parent_dir t path) as [[[entries d] name]|] eqn:Ed]; [| left; eauto |]; right.
  all: split; [intros k v; apply tree_add_refused; rewrite Ep; auto; left; discriminate|].
  all: unfold ext2_create_file, ext2_mkdir; rewrite (path_lookup_named x path (fs_ok_sound x (tree_ok_fs x T))), (tree_path_named x path T), Ep;
    cbn [mbind res_bind option_map]; rewrite ?(parent_lookup_ok x path T), ?Ed; split; reflexivity.
Qed.

Lemma tree_add_some path k v entries d name :
  tree_path t path = None -> parent_dir t path = Some (entries, d, name) ->
  tree_add t path k v = Some (<[k := v d]> (<[d := Dir (<[name := k]> entries)]> t)).
Proof. intros Ep Ed. unfold tree_add. rewrite Ep, Ed. reflexivity. Qed.

Lemma full_parent_size path entries d name (P : Prop) :
  parent_dir t path = Some (entries, d, name) -> i_size (disk x d) = max_blocks x * x_block_size x \/ P -> full_parent x path \/ P.
Proof. intros Ed [E | H]; [left; exists entries, d, name; auto | right; exact H]. Qed.

Lemma create_step path :
  op_ok x (OpCreate path) -> exists r x', run_op x (OpCreate path) = Ret (r, x') /\ step_result (OpCreate path) r x'.
Proof.
  intros Hb. cbn [run_op]. destruct (addable path) as [(entries0 & d0 & name0 & Ep & Ed0) | (No & Ec & _)].
  2: { exists USER_ERR_INVAL, x. split; [exact Ec|]. apply refused_step. intros k. apply No. }
  pose proof (tree_add_some path 0 (fun _ => File []) entries0 d0 name0 Ep Ed0) as Eff.
  destruct (create_cases x path T Hb) as (r & x' & E & T' & Out). exists r, x'. split; [exact E|].
  destruct Out as [[H | H] | H | entries d name x' Ed Et Why | entries d name k y Ed En Hk Ty Et]; try congruence.
  - split; [exact (result_no_room x (OpCreate path) 0 _ x Eff (or_introl H) (room_same t _)) | left; exact T].
  - split; [|left; exact T']. apply (result_no_room x (OpCreate path) 0 _ x' Eff); [right; exact (full_parent_size _ _ _ _ _ Ed Why) | rewrite Et; apply room_same].
  - apply (done_step (OpCreate path) k y 0 Hk Ty); [|reflexivity]. cbn [op_effect]. rewrite Et. exact (tree_add_done path k _ entries d name Ed En).
Qed.

Lemma mkdir_step path :
  op_ok x (OpMkdir path) -> exists r x', run_op x (OpMkdir path) = Ret (r, x') /\ step_result (OpMkdir path) r x'.
Proof.
  intros Hb. cbn [run_op]. destruct (addable path) as [(entries0 & d0 & name0 & Ep & Ed0) | (No & _ & Ec)].
  2: { exists USER_ERR_INVAL, x. split; [exact Ec|]. apply refused_step. intros k. apply No. }
  pose proof (tree_add_some path 0 (fun d => Dir (dot_map 0 d)) entries0 d0 name0 Ep Ed0) as Eff.
  destruct (mkdir_all_cases x path T Hb) as (r & x' & E & Out). exists r, x'. split; [exact E|].
  destruct Out as [[H | H] | x' T' Et Why | entries d name x' Ed _ Et Why | entries d name k y Ed En Hk Ty Et]; try congruence.
  - split; [|left; exact T']. apply (result_no_room x (OpMkdir path) 0 _ x' Eff); [|rewrite Et; apply room_same]. cbn [no_room]. destruct Why as [H | ->]; [left; exact H | right; right; lia].
  - split; [|right; eauto]. apply (result_no_room x (OpMkdir path) 0 _ x' Eff); [right; exact (full_parent_size _ _ _ _ _ Ed Why) | rewrite Et; apply room_same].
  - apply (done_step (OpMkdir path) k y 0 Hk Ty); [|reflexivity]. cbn [op_effect]. rewrite Et. exact (tree_add_done path k _ entries d name Ed En).
Qed.

(** The file that a path removes is the one it names. *)
Lemma doomed_file_at path :
  doomed_file t path = '(entries, d, name) ← parent_dir t path; '(n, _) ← file_at t path; Some (entries, d, name, n).
Proof.
  unfold doomed_file, file_at. destruct (parent_dir t path) as [[[entries d] name]|] eqn:Ed; [|reflexivity]. cbn [mbind option_bind].
  destruct (parent_dir_path _ _ _ _ _ Ed) as (_ & -> & _). destruct (entries !! name) as [k|]; [|reflexivity]. cbn [mbind option_bind].
  destruct (t !! k) as [[m|c|]|]; reflexivity.
Qed.

Lemma unlink_effect path k :
  op_effect t (OpUnlink path) k = '(entries, d, name, n) ← doomed_file t path; Some (pruned t n d entries name).
Proof.
  rewrite doomed_file_at. cbn [op_effect]. destruct (parent_dir t path) as [[[entries d] name]|]; [|reflexivity]. cbn [mbind option_bind].
  destruct (file_at t path) as [[n c]|]; reflexivity.
Qed.

Lemma unlink_step path :
  op_ok x (OpUnlink path) -> exists r x', run_op x (OpUnlink path) = Ret (r, x') /\ step_result (OpUnlink path) r x'.
Proof.
  intros Rm. destruct (unlink_cases x path T Rm) as (r & x' & E & [(-> & -> & Why) | (entries & d & name & k & y & Df & Hne & Ty & Ey & _ & -> & ->)]).
  - exists USER_ERR_INVAL, x. split; [exact E|]. apply refused_step. intros k. rewrite unlink_effect, Why. reflexivity.
  - eexists _, _. split; [exact E|]. apply (done_step (OpUnlink path) 0 y 0 (tree_zero x) Ty); [|reflexivity].
    rewrite unlink_effect, Df. cbn [mbind option_bind]. rewrite Ey. reflexivity.
Qed.

Lemma rmdir_step path :
  op_ok x (OpRmdir path) -> exists r x', run_op x (OpRmdir path) = Ret (r, x') /\ step_result (OpRmdir path) r x'.
Proof.
  intros Rm. destruct (rmdir_cases x path T Rm) as (r & x' & E & [(-> & -> & Why) | (entries & d & name & k & y & Ed & _ & Hne & Ty & Ey & _ & _ & -> & ->)]).
  - exists USER_ERR_INVAL, x. split; [exact E|]. apply refused_step. intros k. cbn [op_effect]. rewrite Why. reflexivity.
  - eexists _, _. split; [exact E|]. apply (done_step (OpRmdir path) 0 y 0 (tree_zero x) Ty); [|reflexivity]. cbn [op_effect]. rewrite Ed. cbn [mbind option_bind].
    rewrite Ey. reflexivity.
Qed.

Lemma op_step op : op_ok x op -> exists r x', run_op x op = Ret (r, x') /\ step_result op r x'.
Proof. destruct op; [apply write_step | apply truncate_step | apply create_step | apply mkdir_step | apply unlink_step | apply rmdir_step]. Qed.
End Step.

(** ** Sequences of operations *)

Fixpoint run_ops (x : ext2) (ops : list fs_op) : res (list Z * ext2) :=
  match ops with
  | [] => Ret ([], x)
  | op :: ops => run_op x op ≫= fun '(r, x) => run_ops x ops ≫= fun '(rs, x) => Ret (r :: rs, x)
  end.

(** The histories that the specification allows. *)
Inductive history : ext2 -> list fs_op -> list Z -> ext2 -> Prop :=
  | history_nil x : history x [] [] x
  | history_cons x op r x1 ops rs x' : op_result x op r x1 -> history x1 ops rs x' -> history x (op :: ops) (r :: rs) x'.

(** Each operation has what it needs when its turn comes, and nothing follows a
    directory that could not be made. *)
Fixpoint ops_ok (x : ext2) (ops : list fs_op) : Prop :=
  match ops with
  | [] => True
  | op :: rest =>
      op_ok x op /\ forall r x', run_op x op = Ret (r, x') ->
        ops_ok x' rest /\ (forall path, op = OpMkdir path -> r = USER_ERR_FAULT -> False)
  end.

(** C7. Refinement of a file tree. From an image whose tree is sound, the code of
    any sequence of writes, truncations, creations of files and directories, and
    removals of them that meets [ops_ok] ends, with a sound tree, and the images
    form a history of the specification ([op_result]). Each operation is refused
    when it has no effect on the tree; or it has done to the tree what the
    specification says, and reports an error exactly when the write-back of the
    image fails; or there was no room, for a reason that [no_room] gives and
    never for a removal, and the tree is the same but for the part of a file
    that a write was about. Whatever path is read from the last image gives the
    bytes that its tree has for it. [ops_ok] asks for arguments of their widths,
    that a file or an empty directory that a path removes has no other name,
    lies in a directory with packed records and is not the root, and that
    nothing follows a directory that could not be made: in these cases the code
    damages the directory, frees what other names still use, or leaves an inode
    that is free with a block to its name. *)
Theorem ext2_refines_tree x ops :
  tree_ok x -> ops_ok x ops ->
  exists rs x', run_ops x ops = Ret (rs, x') /\ tree_ok x' /\ history x ops rs x'
  /\ forall path len offset, 0 <= len -> 0 <= offset ->
       forall n c, file_at (tree x') path = Some (n, c) -> ext2_read_file x' path len offset = Ret (read_slice c len offset).
Proof.
  intros T. revert x T. induction ops as [|op ops IH]; intros x T Hok; cbn [run_ops].
  - exists [], x. split; [reflexivity|]. split; [exact T|]. split; [apply history_nil|]. intros path len offset Hl Ho n c Hf.
    destruct (file_at_some x path n c T Hf) as (_ & _ & _ & _ & _ & _ & Hp & Ht). exact (tree_read x path n c len offset T Ho Hl Hp Ht).
  - destruct Hok as [Ho Hnext]. destruct (op_step x T op Ho) as (r & x1 & E & Hres & Hok1). destruct (Hnext r x1 E) as [Hops Hdir].
    destruct Hok1 as [T1 | (path & -> & Hr)]; [|destruct (Hdir path eq_refl Hr)].
    destruct (IH x1 T1 Hops) as (rs & x' & E' & T' & H' & Hread). rewrite E. cbn [mbind res_bind]. rewrite E'. cbn [mbind res_bind].
    exists (r :: rs), x'. split; [reflexivity|]. split; [exact T'|]. split; [exact (history_cons _ _ _ _ _ _ _ Hres H') | exact Hread].
Qed.

(** Writes, truncations and creations of files need nothing of the image. *)
Definition edit_ok (op : fs_op) : Prop :=
  match op with
  | OpWrite _ bytes offset => Forall is_byte bytes /\ 0 <= offset /\ Z.of_nat (length bytes) < 9223372036854775808
  | OpTruncate _ size => 0 <= size
  | OpCreate path => Forall is_byte path
  | _ => False
  end.

Lemma edits_ok ops : Forall edit_ok ops -> forall x, ops_ok x ops.
Proof.
  induction 1 as [|op ops H _ IH]; intros x; cbn [ops_ok]; [exact I|]. split; [destruct op; exact H || destruct H|].
  intros r x' _. split; [apply IH|]. intros path ->. destruct H.
Qed.

Definition sample_ops : list fs_op :=
  [OpUnlink [47; 97]; OpCreate [47; 98]; OpWrite [47; 98] [72; 105; 33] 0; OpWrite [47; 98] [111] 1; OpTruncate [47; 98] 2; OpCreate [47; 98]; OpWrite [47; 97] [1] 0].

Lemma ext2_refines_tree_witness :
  (exists rs x', run_ops sample sample_ops = Ret (rs, x') /\ tree_ok x' /\ history sample sample_ops rs x'
   /\ forall path len offset, 0 <= len -> 0 <= offset ->
        forall n c, file_at (tree x') path = Some (n, c) -> ext2_read_file x' path len offset = Ret (read_slice c len offset))
  /\ match run_ops sample sample_ops with
     | Ret (rs, x') => (rs, ext2_read_file x' [47; 98] 10 0, ext2_read_file x' [47; 97] 10 0)
                       = ([0; 0; 3; 1; 0; USER_ERR_INVAL; USER_ERR_INVAL], Ret (2, [72; 111]), Ret (USER_ERR_INVAL, []))
     | _ => False
     end.
Proof.
  split.
  - apply (ext2_refines_tree sample sample_ops sample_tree_ok). split; [exact sample_removable|]. intros r x' _. split; [|discriminate].
    apply edits_ok. repeat constructor; unfold is_byte; cbn; lia.
  - vm_compute. reflexivity.
Defined.
