(* ===== verification/FsCalls.v ===== *)
(** * File system calls of programs

    The calls on files, from the trap to the tree: the path is copied
    from user memory and resolved against the working directory, the operation
    is run by ext2.c, and what happens to the tree is an operation of the
    specification of Ext2History.v. A read copies the bytes of a file out. *)

From S2P Require Import Prelude Klog Pmm Vmm Pages Heap Fs Elf Keyboard Process ProcessProofs Scheduler Kernel Syscall PathProofs UserMemProofs SyscallProofs.
From S2P Require Import Ext2Image Ext2Layout Ext2 Ext2Ops Ext2Sample Ext2Proofs Ext2Dir Ext2Own Ext2Files Ext2Tree Ext2Create Ext2Unlink Ext2History.

(** ** What a program asks for *)

Section Asked.
Context (k : kernel ext2) (f : interrupt_frame).

(** The string in [rdi], resolved. *)
Definition asked_path (path : list Z) : Prop :=
  exists text, user_string (k_vmm k) (vm_pml4 (k_vmm k)) (if_rdi f) 128 = Some text /\ text <> []
  /\ path = print_path (normalise (path_names (current_cwd k) text)) /\ (length path <= 127)%nat.

(** There is no string, it is empty, or it does not resolve to a path that fits. *)
Definition no_path : Prop :=
  match user_string (k_vmm k) (vm_pml4 (k_vmm k)) (if_rdi f) 128 with
  | Some text => text = [] \/ path_too_long (current_cwd k) text 128
  | None => True
  end.

(** The bytes in [rsi] that a write is about, at most 4096. *)
Definition source_size : Z := if USER_FS_READ_MAX <? if_rdx f then USER_FS_READ_MAX else if_rdx f.

Definition source : option (list Z) := user_bytes (k_vmm k) (vm_pml4 (k_vmm k)) (if_rsi f) (Z.to_nat source_size).

(** The operation by the number of the call; [None] when the source of a write
    is not mapped. *)
Definition asked_op (path : list Z) : option fs_op :=
  match if_rax f with
  | 26 => bytes ← source; Some (OpWrite path bytes (if_r10 f))
  | 28 => Some (OpCreate path)
  | 29 => Some (OpMkdir path)
  | 30 => Some (OpUnlink path)
  | 31 => Some (OpRmdir path)
  | 32 => Some (OpTruncate path (if_rsi f))
  | _ => None
  end.

(** The result of a call and the file system after it. *)
Inductive call_outcome : Z -> ext2 -> Prop :=
  | call_no_path : no_path -> call_outcome USER_ERR_FAULT (k_fs k)
  | call_no_source path : asked_path path -> asked_op path = None -> call_outcome USER_ERR_FAULT (k_fs k)
  | call_done path op r fs : asked_path path -> asked_op path = Some op -> op_result (k_fs k) op r fs -> call_outcome r fs.

Lemma outcome_done r fs :
  call_outcome r fs -> ~ no_path -> (forall path, asked_path path -> exists op, asked_op path = Some op) ->
  exists path op, asked_path path /\ asked_op path = Some op /\ op_result (k_fs k) op r fs.
Proof.
  intros [No | path Ap Ao | path op r' fs' Ap Ao Res] Hn Ho; [contradiction | | eauto].
  destruct (Ho path Ap) as [op Eo]. congruence.
Qed.

(** The call changes files. The source of a write is anywhere, also in the kernel
    half, which the code does not check; what is mapped of it is memory, and it
    does not wrap around. What is removed can be removed. *)
Record call_ok : Prop := {
  co_vector : if_vector f = 0x80;
  co_number : List.In (if_rax f) [26; 28; 29; 30; 31; 32];
  co_words : is_u64 (if_rdi f) /\ is_u64 (if_rsi f) /\ is_u64 (if_rdx f) /\ is_u64 (if_r10 f);
  co_source : if_rax f = 26 ->
    in_direct_map (k_vmm k) (vm_pml4 (k_vmm k)) (if_rsi f) source_size /\ if_rsi f + source_size <= 18446744073709551616;
  co_unlink : forall path, if_rax f = 30 -> asked_path path -> op_ok (k_fs k) (OpUnlink path);
  co_rmdir : forall path, if_rax f = 31 -> asked_path path -> op_ok (k_fs k) (OpRmdir path)
}.
End Asked.

(** The kernel: the page tables of the program and its working directory are in
    order, the file system is sound. *)
Record calls_ready (k : kernel ext2) (held free : list Z) : Prop := {
  cr_memory : user_half_ok (k_vmm k) (vm_pml4 (k_vmm k)) held free;
  cr_cwd : match current_cwd k with c :: _ => c = 47 | [] => False end;
  cr_cwd_bytes : Forall is_byte (current_cwd k);
  cr_tree : tree_ok (k_fs k)
}.

(** ** The path *)

Section Path.
Context (k : kernel ext2) (f : interrupt_frame) (held free : list Z) (R : calls_ready k held free) (Ha : is_u64 (if_rdi f)).

Lemma resolve_asked :
  (copy_and_resolve_user_path k (if_rdi f) = Ret None /\ no_path k f)
  \/ exists path, copy_and_resolve_user_path k (if_rdi f) = Ret (Some path) /\ asked_path k f path.
Proof.
  unfold copy_and_resolve_user_path, no_path, asked_path.
  rewrite (copy_user_string_ok _ held free (cr_memory _ _ _ R)) by (exact Ha || (unfold USER_FS_PATH_MAX; lia)).
  change (Z.to_nat USER_FS_PATH_MAX) with 128%nat. cbn [mbind res_bind].
  destruct (user_string _ _ _ 128) as [text|] eqn:Es; [|left; auto].
  destruct (user_string_spec _ _ _ _ _ Es) as [_ Hl]. unfold resolve_path_for_current.
  destruct text as [|c text]; [left; auto|].
  destruct (resolve_path_ok (current_cwd k) (c :: text) USER_FS_PATH_MAX (cr_cwd _ _ _ R) ltac:(discriminate) ltac:(lia) ltac:(unfold USER_FS_PATH_MAX; lia))
    as ([path|] & -> & Hr); [right | left; auto]. destruct Hr as (-> & _ & Hfit). unfold USER_FS_PATH_MAX in Hfit.
  eexists. split; [reflexivity|]. eexists. split; [reflexivity|]. split; [discriminate|]. split; [reflexivity | lia].
Qed.

Lemma asked_path_bytes path : asked_path k f path -> Forall is_byte path.
Proof.
  intros (text & Es & _ & -> & _). apply user_string_spec in Es as [Hb _].
  apply print_path_bytes, normalise_bytes, path_names_bytes; [exact (cr_cwd_bytes _ _ _ R) | exact Hb].
Qed.
End Path.

(** ** The call *)

Lemma with_kfs_id (k : kernel ext2) : with_kfs k (k_fs k) = k.
Proof. destruct k as [[[] ?] ? ? ? ? ? ? ? ? ?]. reflexivity. Qed.

Section Call.
Context (k : kernel ext2) (f : interrupt_frame) (held free : list Z) (R : calls_ready k held free) (C : call_ok k f).
Abbreviation frame := (syscall_frame_of f).

(** A goal for each number of a call. *)
Ltac each_call :=
  let Hn := fresh "Hn" in destruct (co_number _ _ C) as [Hn|[Hn|[Hn|[Hn|[Hn|[Hn|[]]]]]]]; rewrite <- Hn in *.

(** Either the call is refused before the file system is asked, or it is the
    operation asked for. *)
Inductive dispatched : Prop :=
  | dispatched_refused :
      syscall_dispatch k frame = Ret (Returns USER_ERR_FAULT frame, k) ->
      call_outcome k f USER_ERR_FAULT (k_fs k) -> dispatched
  | dispatched_op path op :
      asked_path k f path -> asked_op k f path = Some op -> op_ok (k_fs k) op ->
      syscall_dispatch k frame = fs_update k frame (run_op (k_fs k) op) -> dispatched.

Lemma source_ok : if_rax f = 26 -> read_user_bytes (k_vmm k) (if_rsi f) (source_size f) = Ret (source k f).
Proof.
  intros Hn. destruct (co_words _ _ C) as (_ & Hs & Hd & _). destruct (co_source _ _ C Hn) as [Hm Hw].
  assert (Hl : 0 <= source_size f) by (unfold source_size, USER_FS_READ_MAX, is_u64 in *; destruct (_ <? _); lia).
  unfold read_user_bytes, source. unfold is_u64 in Hs. pose proof (uh_root _ _ _ _ (cr_memory _ _ _ R)) as Hr.
  rewrite read_user_loop_spec by (assumption || lia). rewrite Z.add_0_r, Z.sub_0_r. destruct (user_bytes _ _ _ _); reflexivity.
Qed.

Lemma source_bytes bytes : source k f = Some bytes -> Forall is_byte bytes /\ Z.of_nat (length bytes) < 9223372036854775808.
Proof.
  intros E. destruct (user_bytes_byte _ _ _ _ _ E) as [Hb Hl]. split; [exact Hb|]. destruct (co_words _ _ C) as (_ & _ & Hd & _).
  rewrite Hl. unfold source_size, USER_FS_READ_MAX, is_u64 in *. destruct (Z.ltb_spec 4096 (if_rdx f)); lia.
Qed.

(** The dispatcher once the path is known. *)
Lemma dispatch_path path :
  copy_and_resolve_user_path k (if_rdi f) = Ret (Some path) ->
  syscall_dispatch k frame = match if_rax f with
    | 26 => match source k f with
            | None => Ret (Returns SYSCALL_ERR_FAULT frame, k)
            | Some bytes => fs_update k frame (ext2_write_file (k_fs k) path bytes (if_r10 f))
            end
    | 28 => fs_update k frame (ext2_create_file (k_fs k) path)
    | 29 => fs_update k frame (ext2_mkdir (k_fs k) path)
    | 30 => fs_update k frame (ext2_unlink (k_fs k) path)
    | 31 => fs_update k frame (ext2_rmdir (k_fs k) path)
    | _ => fs_update k frame (ext2_truncate_file (k_fs k) path (if_rsi f))
    end.
Proof.
  intros Ep. unfold syscall_dispatch, sys_fs_write, with_user_path. pose proof source_ok as So.
  change (sf_number frame) with (if_rax f). change (sf_arg0 frame) with (if_rdi f). change (sf_arg1 frame) with (if_rsi f).
  change (sf_arg2 frame) with (if_rdx f). change (sf_arg3 frame) with (if_r10 f). fold (source_size f). rewrite Ep.
  each_call; cbn [mbind res_bind]; try reflexivity. rewrite So by reflexivity. reflexivity.
Qed.

Lemma dispatch_op path op :
  copy_and_resolve_user_path k (if_rdi f) = Ret (Some path) -> asked_path k f path -> asked_op k f path = Some op ->
  op_ok (k_fs k) op /\ syscall_dispatch k frame = fs_update k frame (run_op (k_fs k) op).
Proof.
  intros Ep Hp. rewrite (dispatch_path path Ep). pose proof (asked_path_bytes k f held free R path Hp) as Hb.
  destruct (co_words _ _ C) as (_ & H2 & _ & H4). unfold is_u64 in H2, H4.
  pose proof (co_unlink _ _ C path) as Cu. pose proof (co_rmdir _ _ C path) as Cr. pose proof source_bytes as Sb.
  unfold asked_op. each_call.
  - destruct (source k f) as [bytes|]; cbn [mbind option_bind]; intros [= <-]. split; [|reflexivity].
    destruct (Sb bytes eq_refl) as [S1 S2]. cbn [op_ok]. split_and!; auto; lia.
  - intros [= <-]. split; [exact Hb | reflexivity].
  - intros [= <-]. split; [exact Hb | reflexivity].
  - intros [= <-]. split; [exact (Cu eq_refl Hp) | reflexivity].
  - intros [= <-]. split; [exact (Cr eq_refl Hp) | reflexivity].
  - intros [= <-]. split; [cbn [op_ok]; lia | reflexivity].
Qed.

Lemma dispatch_cases : dispatched.
Proof.
  destruct (resolve_asked k f held free R (proj1 (co_words _ _ C))) as [[Ep Hno] | (path & Ep & Hp)].
  - apply dispatched_refused; [|exact (call_no_path k f Hno)]. unfold syscall_dispatch, sys_fs_write, with_user_path.
    change (sf_number frame) with (if_rax f). change (sf_arg0 frame) with (if_rdi f). rewrite Ep. each_call; reflexivity.
  - destruct (asked_op k f path) as [op|] eqn:Eo.
    + destruct (dispatch_op path op Ep Hp Eo) as [O1 O2]. exact (dispatched_op path op Hp Eo O1 O2).
    + apply dispatched_refused; [|exact (call_no_source k f path Hp Eo)]. rewrite (dispatch_path path Ep). unfold asked_op in Eo.
      each_call; try discriminate Eo. destruct (source k f); [discriminate Eo | reflexivity].
Qed.
End Call.

(** ** Reading *)

(** What a read comes to: the result, and the memory after it. *)
Inductive read_outcome (k : kernel ext2) (f : interrupt_frame) : Z -> vmm -> Prop :=
  | read_no_path : no_path k f -> read_outcome k f USER_ERR_FAULT (k_vmm k)
  | read_no_file path :
      asked_path k f path -> file_at (tree (k_fs k)) path = None -> read_outcome k f USER_ERR_INVAL (k_vmm k)
  | read_bytes path n c len bytes s' :
      asked_path k f path -> file_at (tree (k_fs k)) path = Some (n, c) ->
      read_slice c (source_size f) (if_r10 f) = (len, bytes) ->
      (forall i, 0 <= i < len -> user_byte s' (vm_pml4 (k_vmm k)) (if_rsi f + i) = Some (nth (Z.to_nat i) bytes 0)) ->
      only_range (k_vmm k) s' (vm_pml4 (k_vmm k)) (if_rsi f) len ->
      read_outcome k f len s'
  | read_no_destination path n c len bytes s' :
      asked_path k f path -> file_at (tree (k_fs k)) path = Some (n, c) ->
      read_slice c (source_size f) (if_r10 f) = (len, bytes) -> 0 < len ->
      ~ (user_range (if_rsi f) len /\ forall i, 0 <= i < len -> translate (k_vmm k) (vm_pml4 (k_vmm k)) (if_rsi f + i) <> None) ->
      only_range (k_vmm k) s' (vm_pml4 (k_vmm k)) (if_rsi f) len ->
      read_outcome k f USER_ERR_FAULT s'.

Lemma with_vmm_id (k : kernel ext2) : with_vmm k (k_vmm k) = k.
Proof. destruct k as [[[[] ? ? ?] ?] ? ? ? ? ? ? ? ? ?]. reflexivity. Qed.

Lemma only_range_weaken s s' root a n n' : n <= n' -> only_range s s' root a n -> only_range s s' root a n'.
Proof. intros Hn H x Hx. apply H. intros i pa Hi. apply Hx. lia. Qed.

Lemma contents_bytes x n : Forall is_byte (contents x n).
Proof.
  apply List.Forall_map, List.Forall_forall. intros p _. unfold file_byte.
  destruct (_ =? 0); [unfold is_byte; lia | apply Z.mod_pos_bound; lia].
Qed.

Lemma read_slice_bytes c len offset : Forall is_byte c ->
  let '(k, bytes) := read_slice c len offset in 0 <= offset -> k = Z.of_nat (length bytes) /\ Forall is_byte bytes.
Proof.
  intros Hc. unfold read_slice. intros Ho. split.
  - rewrite length_firstn, length_skipn. lia.
  - apply Forall_take, Forall_drop, Hc.
Qed.

Section Read.
Context (k : kernel ext2) (f : interrupt_frame) (held free : list Z) (R : calls_ready k held free).
Context (Ha : is_u64 (if_rdi f)) (Hs : is_u64 (if_rsi f)) (Hd : is_u64 (if_rdx f)) (Ho : is_u64 (if_r10 f)).
Abbreviation frame := (syscall_frame_of f).
Abbreviation root := (vm_pml4 (k_vmm k)).

Lemma source_size_range : 0 <= source_size f <= 4096.
Proof. unfold source_size, USER_FS_READ_MAX, is_u64 in *. destruct (Z.ltb_spec 4096 (if_rdx f)); lia. Qed.

Lemma file_read path : asked_path k f path ->
  match file_at (tree (k_fs k)) path with
  | None => ext2_read_file (k_fs k) path (source_size f) (if_r10 f) = Ret (USER_ERR_INVAL, [])
  | Some (_, c) => exists bytes, read_slice c (source_size f) (if_r10 f) = (Z.of_nat (length bytes), bytes)
      /\ ext2_read_file (k_fs k) path (source_size f) (if_r10 f) = Ret (Z.of_nat (length bytes), bytes)
      /\ Forall is_byte bytes /\ is_u64 (Z.of_nat (length bytes))
  end.
Proof.
  intros Hp. pose proof (cr_tree _ _ _ R) as T. pose proof source_size_range as Hsize. unfold is_u64 in Ho.
  destruct (file_at (tree (k_fs k)) path) as [[n c]|] eqn:Ef.
  - destruct (file_at_some _ path n c T Ef) as (_ & _ & _ & Ec & _ & _ & Hpath & Ht).
    rewrite (tree_read _ path n c (source_size f) (if_r10 f) T ltac:(lia) ltac:(lia) Hpath Ht).
    pose proof (read_slice_bytes c (source_size f) (if_r10 f) ltac:(rewrite Ec; apply contents_bytes)) as Hb.
    destruct (read_slice c (source_size f) (if_r10 f)) as [len bytes] eqn:Es. destruct (Hb ltac:(lia)) as [-> Hbytes].
    exists bytes. split_and!; auto. unfold read_slice in Es. injection Es as El _. unfold is_u64. lia.
  - unfold ext2_read_file. rewrite (path_lookup_named _ path (fs_ok_sound _ (tree_ok_fs _ T))).
    destruct (file_at_none _ path T Ef) as [-> | (i & n & -> & Hf)]; cbn [mbind res_bind]; rewrite ?Hf; reflexivity.
Qed.

(** The bytes go to the program. *)
Lemma copy_out_ok path n c bytes :
  asked_path k f path -> file_at (tree (k_fs k)) path = Some (n, c) ->
  read_slice c (source_size f) (if_r10 f) = (Z.of_nat (length bytes), bytes) -> Forall is_byte bytes -> is_u64 (Z.of_nat (length bytes)) ->
  exists r s', copy_out k frame (if_rsi f) bytes (Z.of_nat (length bytes)) = Ret (Returns r frame, with_vmm k s') /\ read_outcome k f r s'
  /\ vm_base s' = vm_base (k_vmm k) /\ vm_pml4 s' = root
  /\ (forall va, translate s' root va = translate (k_vmm k) root va) /\ pt_inv s' root held free.
Proof.
  intros Hp Ef Es Hb Hl. unfold copy_out.
  destruct (copy_to_user_ok (k_vmm k) (if_rsi f) bytes held free (cr_memory _ _ _ R) Hs Hl)
    as (ok & s' & -> & I & B & P & M & Hk & Hread & Only). cbn [mbind res_bind].
  assert (Only' : only_range (k_vmm k) s' root (if_rsi f) (Z.of_nat (length bytes)))
    by (eapply only_range_weaken; [|exact Only]; destruct (userspace_range_is_valid _ _); lia).
  exists (if ok then Z.of_nat (length bytes) else SYSCALL_ERR_FAULT), s'. split; [reflexivity|].
  split; [|auto]. destruct ok.
  - apply (read_bytes k f path n c _ bytes); auto. intros i Hi. rewrite (Hread eq_refl i Hi). f_equal.
    rewrite List.Forall_forall in Hb. specialize (Hb (nth (Z.to_nat i) bytes 0) ltac:(apply nth_In; lia)). apply Z.mod_small, Hb.
  - assert (Hn : bytes <> []) by (intros ->; discriminate (proj2 Hk (or_introl eq_refl))).
    apply (read_no_destination k f path n c (Z.of_nat (length bytes)) bytes); auto.
    + destruct bytes; [congruence | cbn; lia].
    + intros Hd'. discriminate (proj2 Hk (or_intror Hd')).
Qed.

Lemma read_call_ok :
  exists r s', sys_fs_read k frame = Ret (Returns r frame, with_vmm k s') /\ read_outcome k f r s'
  /\ vm_base s' = vm_base (k_vmm k) /\ vm_pml4 s' = root
  /\ (forall va, translate s' root va = translate (k_vmm k) root va) /\ pt_inv s' root held free.
Proof.
  pose proof (uh_inv _ _ _ _ (cr_memory _ _ _ R)) as I. unfold sys_fs_read, with_user_path.
  change (sf_arg0 frame) with (if_rdi f). change (sf_arg1 frame) with (if_rsi f).
  change (sf_arg2 frame) with (if_rdx f). change (sf_arg3 frame) with (if_r10 f). fold (source_size f).
  destruct (resolve_asked k f held free R Ha) as [[-> Hno] | (path & -> & Hp)]; cbn [mbind res_bind].
  { exists USER_ERR_FAULT, (k_vmm k). rewrite with_vmm_id. split_and!; eauto using read_no_path. }
  pose proof (file_read path Hp) as E. cbn [fs_read_file ext2_ops]. destruct (file_at (tree (k_fs k)) path) as [[n c]|] eqn:Ef.
  2: { rewrite E. cbn [mbind res_bind]. exists USER_ERR_INVAL, (k_vmm k). rewrite with_vmm_id. split_and!; eauto using read_no_file. }
  destruct E as (bytes & Es & -> & Hb & Hl). cbn [mbind res_bind].
  destruct (Z.ltb_spec (Z.of_nat (length bytes)) 0); [lia|]. exact (copy_out_ok path n c bytes Hp Ef Es Hb Hl).
Qed.
End Read.

(** C8. File system calls refine the tree. In a kernel whose file system is
    sound, a call that writes, truncates, creates or removes a file or a
    directory comes back to the program, with all registers but [rax] as they
    were and nothing in the kernel changed but the file system. Either there is
    no path or a source that is not mapped, and the file system is as it was; or
    the operation asked for has come to one of the results of the specification
    ([op_result]) on the resolved path: done to the tree, refused because it has
    no effect on the tree, or out of room for a reason that the image gives. The
    result is in [rax], and the kernel is ready for the next call (unless a new
    directory found no room). [call_ok] asks of a write that its source, in the
    user half or not, does not wrap and is memory where it is mapped, and of a
    removal what [ops_ok] asks: no other name, packed records, not the root. *)
Theorem fs_calls_refine_tree (k : kernel ext2) (f : interrupt_frame) held free :
  calls_ready k held free -> call_ok k f ->
  exists r fs, exception_dispatch k f = Ret (Resumes (set_rax f (u64 r)), with_kfs k fs)
  /\ call_outcome k f r fs /\ (calls_ready (with_kfs k fs) held free \/ if_rax f = 29 /\ r = USER_ERR_FAULT).
Proof.
  intros R C. pose proof (cr_tree _ _ _ R) as T. unfold exception_dispatch. rewrite (co_vector _ _ C).
  change (0x80 =? SYSCALL_VECTOR) with true. cbn iota.
  destruct (dispatch_cases k f held free R C) as [E Out | path op Hp Eo Ok E]; rewrite E.
  - exists USER_ERR_FAULT, (k_fs k). rewrite with_kfs_id. auto.
  - destruct (op_step (k_fs k) T op Ok) as (r & fs & Er & Res & Tr). exists r, fs. unfold fs_update. rewrite Er.
    split; [reflexivity|]. split; [exact (call_done k f path op r fs Hp Eo Res)|].
    destruct Tr as [Tr | (p & -> & Hr)]; [left; destruct R; split; assumption | right]. split; [|exact Hr].
    unfold asked_op in Eo. destruct (co_number _ _ C) as [Hn|[Hn|[Hn|[Hn|[Hn|[Hn|[]]]]]]]; rewrite <- Hn in *; try discriminate Eo; [|reflexivity].
    destruct (source k f); discriminate Eo.
Qed.

(** C9. A call that reads a file gives the program the bytes of the file: it
    comes back with all registers but [rax] as they were and nothing changed but
    memory at the destination. If the path names a file, the result is the
    number of bytes of the file from the offset on, at most 4096 and at most as
    many as asked for, and the program finds exactly these at the destination;
    or the destination is not memory of the program. *)
Theorem fs_read_call_correct (k : kernel ext2) (f : interrupt_frame) held free :
  calls_ready k held free -> if_vector f = 0x80 -> if_rax f = 23 ->
  is_u64 (if_rdi f) -> is_u64 (if_rsi f) -> is_u64 (if_rdx f) -> is_u64 (if_r10 f) ->
  exists r s', exception_dispatch k f = Ret (Resumes (set_rax f (u64 r)), with_vmm k s')
  /\ read_outcome k f r s' /\ calls_ready (with_vmm k s') held free.
Proof.
  intros R Hv Hn H1 H2 H3 H4. destruct (read_call_ok k f held free R H1 H2 H3 H4) as (r & s' & E & Out & B & P & M & I).
  exists r, s'. unfold exception_dispatch. rewrite Hv. change (0x80 =? SYSCALL_VECTOR) with true. cbn iota.
  unfold syscall_dispatch. change (sf_number (syscall_frame_of f)) with (if_rax f). rewrite Hn, E.
  split; [reflexivity|]. split; [exact Out|]. pose proof R as [Rm Rc Rb Rt].
  split; [change (k_vmm (with_vmm k s')) with s'; rewrite P; exact (user_half_kept _ s' _ held free free I B M Rm) | exact Rc | exact Rb | exact Rt].
Qed.

(** ** A program that makes a file *)

(** A call with the path of a file in memory. *)
Section Demo.
Context (s : vmm) (free : list Z) (p : Z) (text : list Z).
Context (Hs : vm_pml4 s = demo_root) (U : user_half_ok s demo_root [p] free).
Context (Ht : user_string s demo_root 0x400000 128 = Some text).
Abbreviation k := (kernel_with sample s scheduler_init (repeat empty_process 8)).

Lemma demo_ready : calls_ready k [p] free.
Proof.
  split; [change (k_vmm k) with s; rewrite Hs; exact U | reflexivity | | exact sample_tree_ok].
  apply List.Forall_cons; [unfold is_byte; lia | apply List.Forall_nil].
Qed.

Lemma demo_path f path : if_rdi f = 0x400000 -> asked_path k f path -> path = print_path (normalise (path_names [47] text)).
Proof.
  intros Hd (t & Et & _ & -> & _). change (k_vmm k) with s in Et. rewrite Hs, Hd, Ht in Et. injection Et as <-. reflexivity.
Qed.
End Demo.

Lemma fs_calls_refine_tree_witness : exists k r fs,
  exception_dispatch k (trap 28 0x400000 0 0 0) = Ret (Resumes (set_rax (trap 28 0x400000 0 0 0) (u64 r)), with_kfs k fs)
  /\ k_fs k = sample /\ tree_ok fs
  /\ op_result sample (OpCreate [47; 98]) r fs.
Proof.
  destruct (demo_user_string [47; 46; 47; 98]) as (s & p & free & Hs & U & Ht & _);
    [repeat apply List.Forall_cons; try lia; apply List.Forall_nil | cbn; lia|].
  specialize (Ht 128%nat ltac:(cbn; lia)). pose proof (demo_ready s free p Hs U) as R.
  pose proof (demo_path s [47; 46; 47; 98] Hs Ht (trap 28 0x400000 0 0 0)) as Hp.
  destruct (fs_calls_refine_tree _ (trap 28 0x400000 0 0 0) [p] free R) as (r & fs & E & Out & T).
  - split; try discriminate; [reflexivity | cbn; tauto | unfold is_u64; cbn; lia].
  - eexists _, r, fs. split; [exact E|]. split; [reflexivity|].
    split; [destruct T as [T | [T _]]; [exact (cr_tree _ _ _ T) | discriminate T]|].
    assert (No : ~ no_path (kernel_with sample s scheduler_init (repeat empty_process 8)) (trap 28 0x400000 0 0 0)).
    { unfold no_path. change (k_vmm _) with s. change (if_rdi _) with 0x400000. rewrite Hs, Ht.
      intros [No | [No | (pre & suf & Epre & Hlong)]]; [discriminate No | cbn in No; lia|].
      change (path_names _ [47; 46; 47; 98]) with [[46]; [98]] in Epre.
      destruct pre as [|a [|b [|c pre]]]; try discriminate Epre; [cbn in Hlong; lia | |];
        [injection Epre as <- _ | injection Epre as <- <- _]; cbn in Hlong; lia. }
    destruct (outcome_done _ _ _ _ Out No) as (path & op & Ap & Ao & Res); [intros path _; eexists; reflexivity|].
    rewrite (Hp path eq_refl Ap) in Ao. injection Ao as <-. exact Res.
Defined.


(** A program reads the file into the page that its path is in. *)
Lemma fs_read_call_correct_witness : exists k r s' root,
  exception_dispatch k (trap 23 0x400000 0x400100 10 0) = Ret (Resumes (set_rax (trap 23 0x400000 0x400100 10 0) (u64 r)), with_vmm k s')
  /\ r = 5 /\ forall i, 0 <= i < 5 -> user_byte s' root (0x400100 + i) = Some (nth (Z.to_nat i) [104; 101; 108; 108; 111] 0).
Proof.
  destruct (demo_user_string [47; 97]) as (s & p & free & Hs & U & Ht & Mapped);
    [repeat apply List.Forall_cons; try lia; apply List.Forall_nil | cbn; lia|].
  specialize (Ht 128%nat ltac:(cbn; lia)). pose proof (demo_ready s free p Hs U) as R.
  pose proof (demo_path s [47; 97] Hs Ht (trap 23 0x400000 0x400100 10 0)) as Hp.
  destruct (fs_read_call_correct _ (trap 23 0x400000 0x400100 10 0) [p] free R eq_refl eq_refl) as (r & s' & E & Out & _);
    try (unfold is_u64; cbn; lia).
  eexists _, r, s', demo_root. split; [exact E|]. clear E R.
  assert (File : file_at (tree sample) [47; 97] = Some (3, [104; 101; 108; 108; 111])) by (vm_compute; reflexivity).
  destruct Out as [No | path Ap Af | path n c len bytes s' Ap Af Es Hb _ | path n c len bytes s' Ap Af Es _ Hd _].
  - exfalso. unfold no_path in No. change (k_vmm _) with s in No. change (if_rdi _) with 0x400000 in No. rewrite Hs, Ht in No.
    destruct No as [No | [No | (pre & suf & Epre & Hlong)]]; [discriminate No | cbn in No; lia|].
    change (path_names _ [47; 97]) with [[97]] in Epre.
    destruct pre as [|a [|b pre]]; try discriminate Epre; [|injection Epre as <- _]; cbn in Hlong; lia.
  - rewrite (Hp path eq_refl Ap) in Af. change (k_fs _) with sample in Af. change (print_path _) with [47; 97] in Af. congruence.
  - rewrite (Hp path eq_refl Ap) in Af. change (k_fs _) with sample in Af. change (print_path _) with [47; 97] in Af.
    rewrite File in Af. injection Af as <- <-. injection Es as <- <-. split; [reflexivity|]. intros i Hi.
    change (k_vmm _) with s in Hb. rewrite Hs in Hb. exact (Hb i Hi).
  - rewrite (Hp path eq_refl Ap) in Af. change (k_fs _) with sample in Af. change (print_path _) with [47; 97] in Af.
    rewrite File in Af. injection Af as <- <-. injection Es as <- <-. exfalso. apply Hd. change (k_vmm _) with s. rewrite Hs.
    split; [unfold user_range, USERSPACE_MIN_VADDR, USERSPACE_MAX_VADDR; cbn; lia|]. intros i Hi. apply Mapped. cbn. lia.
Defined.
