(* ===== verification/Ext2Remount.v ===== *)
(** * The bytes of an image are the whole file system

    ext2.c keeps nothing about the files outside the image: mounting memory
    with the same bytes, wherever it is and whatever lies behind them, succeeds
    and gives the same tree. *)

From S2P Require Import Prelude Fs Ext2Image Ext2Codec Ext2Layout Ext2Alloc Ext2 Ext2Ops Ext2Proofs Ext2Dir Ext2Own Ext2Files Ext2Inodes Ext2Names Ext2Tree.

(** The memory holds the bytes of the image. *)
Definition same_bytes (x : ext2) (m' : mem) : Prop := forall a, 0 <= a < x_size x -> u8 (m' a) = u8 (x_image x a).

Lemma mem_read_same_bytes x m' : mem_read m' 0 (Z.to_nat (x_size x)) = mem_read (x_image x) 0 (Z.to_nat (x_size x)) -> same_bytes x m'.
Proof.
  intros E a Ha. pose proof (f_equal (fun l => nth (Z.to_nat a) l 0) E) as N. cbn beta in N.
  rewrite !mem_read_nth in N by lia. rewrite Z2Nat.id in N by lia. exact N.
Qed.

Lemma layout_log_small x : layout x -> sb_log_block_size (x_image x) <= 2.
Proof.
  intros L. pose proof (ly_log x L) as E. pose proof (bs_range x L) as Hbs.
  assert (Hl : 0 <= sb_log_block_size (x_image x)) by apply load_range.
  rewrite Z.shiftl_mul_pow2 in E by lia.
  destruct (Z.le_gt_cases (sb_log_block_size (x_image x)) 2) as [|Hgt]; [assumption|].
  pose proof (Z.pow_le_mono_r 2 3 (sb_log_block_size (x_image x)) ltac:(lia) ltac:(lia)). lia.
Qed.

Section SameBytes.
Context (x : ext2) (m' : mem) (T : tree_ok x) (B : same_bytes x m').

Let O : owned x (disk x) := to_owned x T.
Let L : layout x := owned_layout x _ O.

Lemma region_same r a : region_real x r -> in_region x r a -> u8 (m' a) = u8 (x_image x a).
Proof. intros Hr Ha. apply B. pose proof (ly_inside x L r Hr). unfold in_region in Ha. lia. Qed.

Lemma meta_same a : meta_byte x a -> u8 (m' a) = u8 (x_image x a).
Proof.
  intros [Ha | [Ha | (g & Hg & Ha)]]; [exact (region_same RSuper a I Ha) | exact (region_same RDesc a I Ha)|].
  exact (region_same (RBlockBitmap g) a Hg Ha).
Qed.

Lemma block_same b : block_valid x b -> block_kept x m' b.
Proof.
  intros [Hl Hh] a Ha. apply B. unfold in_block in Ha. pose proof (fdb_range x L). pose proof (bs_range x L).
  pose proof (ly_size x L). nia.
Qed.

Lemma inode_bytes_same a : inode_byte x a -> u8 (m' a) = u8 (x_image x a).
Proof.
  intros [(n & Hn & Ha) | (g & Hg & Ha)]; [|exact (region_same (RInodeBitmap g) a Hg Ha)].
  exact (region_same (RInodeTable ((n - 1) / sb_inodes_per_group (x_image x))) a (inode_group x L n Hn) (inode_in_table x L n a Hn Ha)).
Qed.

Lemma bytes_quiet : quiet x (disk x) m'.
Proof.
  pose proof (ow_ok x _ O) as Ok. split.
  - exact (keep_ok x m' meta_same Ok).
  - exact (keep_geom x m' meta_same).
  - intros n s Hs b Hz. destruct (ow_block x _ O n s Hs Hz) as (Hv & Hu & _).
    split; [rewrite (keep_used x m' meta_same Ok) by exact Hv; exact Hu | exact (block_same _ Hv)].
  - exact inode_bytes_same.
Qed.

Abbreviation y := (set_image x m').

Lemma bytes_disk n : inode_valid x n -> disk y n = disk x n.
Proof.
  intros Hn. unfold disk. rewrite (frame_inode_pos x m' n L (qt_geom _ _ _ bytes_quiet) Hn). apply inode_at_ext.
  intros a Ha. apply inode_bytes_same. left. eauto.
Qed.

Lemma bytes_touched : touched (fun _ => False) x y.
Proof.
  pose proof bytes_quiet as Q. pose proof (quiet_stable x _ m' O Q) as St. pose proof (qt_geom _ _ _ Q) as G. split.
  - exists m'. auto.
  - intros k Hk _. apply same_ibitmap_used; auto. intros a Ha. exact (region_same (RInodeBitmap _) a (igroup_range x L k Hk) Ha).
  - intros k Hk _. exact (bytes_disk k Hk).
  - intros k q Hk _ Hq. rewrite bytes_disk by exact Hk. exact (stable_block_id x _ m' O St k q Hk Hq).
  - intros k p Hk _ Hp. rewrite bytes_disk by exact Hk. exact (quiet_byte x _ m' O Q k p Hk Hp).
Qed.

Lemma bytes_tree : tree_ok y /\ tree y = tree x.
Proof.
  pose proof bytes_touched as Tc. pose proof (qt_geom _ _ _ bytes_quiet) as G. split.
  - apply (touched_tree_ok (fun _ => False) x y L Tc T); auto.
    + apply (owned_ext y (disk x)); [exact (quiet_owned x _ m' O bytes_quiet)|].
      intros k Hk. apply bytes_disk. apply (frame_inode_valid x m' k G). exact Hk.
    + intros k Hl. apply (touched_live _ x y Tc); [tauto | exact Hl].
    + intros k [].
  - apply map_eq. intros n. rewrite !lookup_tree. apply (touched_node _ x y L Tc). tauto.
Qed.

(** Mounting them sets the variables of ext2.c as they were. *)
Lemma bytes_mount verdict :
  ext2_mount_with_writeback (Some m') (x_size x) verdict = (true, rewired y (Some verdict) []).
Proof.
  pose proof (qt_geom _ _ _ bytes_quiet) as G. pose proof (same_geom_fields x m' G) as F. pose proof L as Lx.
  pose proof (to_mounted x T) as M. unfold ext2_mounted in M. apply andb_true_iff in M as [Mp Ms].
  pose proof (ly_inside x L RSuper I) as [_ Hs]. cbn [region_base region_len] in Hs.
  pose proof (bs_range x L) as Hbs. pose proof (n_groups_pos x L) as Hng. pose proof (n_groups_le x L) as Hgl.
  pose proof (layout_log_small x L) as Hl2.
  pose proof (image_ptr_in (mk_ext2 true m' (x_size x) false 0 0 None []) EXT2_SUPERBLOCK_OFFSET sizeof_superblock) as Eptr.
  cbn [x_size] in Eptr.
  assert (Ed : group_desc (mk_ext2 true m' (x_size x) true (x_block_size x) (x_group_count x) None []) 0 = Some (desc_off x 0)).
  { pose proof (group_desc_real x L 0 ltac:(lia)) as E. exact E. }
  unfold ext2_mount_with_writeback, ext2_mount_internal.
  destruct (Z.ltb_spec (x_size x) (EXT2_SUPERBLOCK_OFFSET + sizeof_superblock)); [lia|]. cbv zeta. rewrite Eptr by (unfold EXT2_SUPERBLOCK_OFFSET, sizeof_superblock in *; lia).
  rewrite (sf_magic _ _ F), (sf_log _ _ F), (sf_bpg _ _ F), (sf_ipg _ _ F), (sf_blocks _ _ F), (ly_magic x L), Z.eqb_refl.
  destruct (Z.ltb_spec 2 (sb_log_block_size (x_image x))); [lia|].
  destruct (Z.eqb_spec (sb_blocks_per_group (x_image x)) 0); [destruct Lx; lia|].
  destruct (Z.eqb_spec (sb_inodes_per_group (x_image x)) 0); [destruct Lx; lia|]. cbn [negb orb].
  assert (Eg : u32 (sb_blocks_count (x_image x) + sb_blocks_per_group (x_image x) - 1) / sb_blocks_per_group (x_image x) = x_group_count x).
  { rewrite (ly_groups x L). f_equal. unfold u32. apply Z.mod_small. pose proof (fdb_range x L). pose proof (ly_wrap x L). pose proof (ly_count x L). pose proof (ly_bpg x L). lia. }
  assert (Eb : u32 (Z.shiftl 1024 (sb_log_block_size (x_image x))) = x_block_size x).
  { rewrite <- (ly_log x L). unfold u32. apply Z.mod_small. lia. }
  rewrite Eg, Eb, Ed. unfold rewired, set_image. cbn [x_present x_image x_size x_superblock x_block_size x_group_count].
  rewrite Mp, Ms. reflexivity.
Qed.

Lemma remount_tree verdict :
  exists y, ext2_mount_with_writeback (Some m') (x_size x) verdict = (true, y) /\ tree_ok y /\ tree y = tree x.
Proof.
  eexists. split; [exact (bytes_mount verdict)|]. destruct bytes_tree as [Ty Ey]. pose proof (bs_range x L) as Hbs.
  split; [exact (rewired_tree_ok _ _ _ Ty)|]. rewrite rewired_tree by (cbn; lia). exact Ey.
Qed.
End SameBytes.
