(* ===== verification/ProgramStart.v ===== *)
(** * The start of a program from a file

    process.c reads the program through the file system into a block of the
    kernel heap, loads it from there into a new address space, and gives the
    block back. Here the parts come together: ext2, the heap, the ELF validator,
    the page tables and the loader. *)

From S2P Require Import Prelude Klog Pmm Vmm Pages Heap HeapProofs Elf Fs Keyboard Process ProcessProofs Scheduler SchedulerProofs Kernel Syscall UserMemProofs SyscallProofs.
From S2P Require Import Ext2Image Ext2Layout Ext2 Ext2Ops Ext2Sample Ext2Proofs Ext2Dir Ext2Own Ext2Files.

(** ** An image is its bytes *)

Definition bytes_mem (c : list Z) : mem := fun a => nth (Z.to_nat a) c 0.

Section Image.
Context (img img' : mem) (size : Z) (Hsize : is_u64 size).
Context (Same : forall a, 0 <= a < size -> u8 (img' a) = u8 (img a)).

Lemma image_load n a : 0 <= a -> a + Z.of_nat n <= size -> load n img' a = load n img a.
Proof. intros Ha Hn. apply load_ext. intros b Hb. apply Same. lia. Qed.

Lemma image_ehdr : sizeof_ehdr <= size -> read_ehdr img' = read_ehdr img.
Proof.
  unfold sizeof_ehdr. intros H. unfold read_ehdr.
  rewrite !image_load by lia. f_equal. apply mem_read_ext. intros i Hi. apply Same. lia.
Qed.

Lemma image_phdr phoff n i :
  0 <= phoff -> in_image phoff (56 * n) size -> 0 <= i < n -> program_header_at img' phoff 56 i = program_header_at img phoff 56 i.
Proof.
  intros Hp [Hz | (_ & _ & Hle)] Hi; [lia|]. unfold program_header_at, is_u64 in *. rewrite u64_id by (unfold is_u64; lia).
  unfold read_phdr. rewrite !image_load by lia. reflexivity.
Qed.

Lemma for_loop_ext {S R : Type} (f g : Z -> S -> ctl S R) n : forall i s,
  (forall k t, i <= k < i + Z.of_nat n -> f k t = g k t) -> for_loop n i 1 f s = for_loop n i 1 g s.
Proof.
  induction n as [|n IH]; intros i s H; [reflexivity|]. cbn [for_loop]. rewrite H by lia.
  destruct (g i s) as [t|r]; [|reflexivity]. apply IH. intros k u Hk. apply H. lia.
Qed.

(** The validator and the headers it has checked. *)
Lemma image_validate : elf64_validate_user_image (Some img') size = elf64_validate_user_image (Some img) size.
Proof.
  cbn [elf64_validate_user_image]. destruct (Z.ltb_spec size sizeof_ehdr) as [|Hs]; [reflexivity|].
  rewrite image_ehdr by exact Hs. set (eh := read_ehdr img).
  destruct (_ || _ || _ || _ || _ || _ || _); [reflexivity|]. destruct (_ || _) eqn:Hh; [reflexivity|].
  destruct (negb (userspace_range_is_valid _ _)); [reflexivity|].
  destruct (negb (range_within_image _ _ _)) eqn:Hr; [reflexivity|]. b2p. unfold sizeof_phdr in *.
  assert (Hn : 0 <= e_phnum eh < 65536) by (apply (load_range 2)).
  assert (Hps : e_phentsize eh = 56) by assumption. rewrite Hps in *.
  apply range_within_image_spec in Hr; [|apply load_u64 | unfold is_u64; lia | exact Hsize].
  rewrite !range_loop_count by lia. erewrite for_loop_ext; [reflexivity|]. intros k t Hk. cbv beta.
  rewrite (image_phdr _ (e_phnum eh)) by (apply load_u64 || exact Hr || lia). reflexivity.
Qed.

Lemma image_headers im : elf64_validate_user_image (Some img) size = Some im -> image_phdrs img' im = image_phdrs img im.
Proof.
  intros Hv. destruct (validate_accepts img size im Hsize Hv) as (Hi & E & _ & _ & Hn & _).
  unfold image_phdrs. apply map_ext_in. intros j Hj. apply in_seq in Hj. rewrite E.
  destruct Hi as [Hz | Hi]; [lia|]. apply (image_phdr _ (ei_phnum im)); [lia | right; exact Hi | lia].
Qed.

Lemma image_not_loadable s : not_loadable img' size s -> not_loadable img size s.
Proof.
  intros [H | H]; [left | right; exact H]. intros im Hv. pose proof (image_headers im Hv) as Eh.
  rewrite <- image_validate in Hv. specialize (H im Hv). unfold pages_clash, segments_overlap, pages_before, image_pages in *. rewrite Eh in H. exact H.
Qed.

Lemma image_segment_byte im ph va :
  elf64_validate_user_image (Some img) size = Some im -> In ph (image_phdrs img im) -> loadable ph ->
  segment_byte img' ph va = segment_byte img ph va.
Proof.
  intros Hv Hin Hl. destruct (validate_accepts img size im Hsize Hv) as (_ & _ & Hs & _).
  rewrite List.Forall_forall in Hs. destruct (Hs ph Hin Hl) as [_ Hi _ _]. unfold segment_byte.
  destruct (_ && _) eqn:E; [|reflexivity]. b2p. destruct Hi as [Hz | (_ & Ho & Hle)]; [lia|]. apply Same. lia.
Qed.

Lemma image_loaded s0 s im pid p :
  elf64_validate_user_image (Some img) size = Some im -> process_loaded s0 s img' im pid p -> process_loaded s0 s img im pid p.
Proof.
  intros Hv [P1 P2 P3 P4 Pr P5 P6 P7]. pose proof (image_headers im Hv) as Eh. rewrite Eh in P5. split; auto.
  - rewrite List.Forall_forall in *. intros ph Hin Hl va Hva. rewrite (P5 ph Hin Hl va Hva).
    f_equal. apply (image_segment_byte im); assumption.
  - unfold image_pages in *. rewrite Eh in P7. exact P7.
Qed.
End Image.

(** ** The heap does not look at the pages when it frees *)

Lemma kfree_pages (h : kheap vmm) s p :
  kfree (with_pages h s) p = (kfree h p ≫= fun h' => Ret (with_pages h' s)).
Proof.
  unfold kfree. destruct (p =? 0); [reflexivity|]. change (kh_mem (with_pages h s)) with (kh_mem h).
  destruct (_ =? HEAP_MAGIC); [|reflexivity]. destruct (negb (blk_free _ _)); [|reflexivity].
  cbn [kassert mbind res_bind]. f_equal.
  set (b := payload_block p).
  assert (C : forall k a, coalesce_with_next (with_pages k s) a = with_pages (coalesce_with_next k a) s).
  { intros k a. unfold coalesce_with_next. change (kh_mem (with_pages k s)) with (kh_mem k).
    destruct (_ || _); [reflexivity|]. cbn [kh_mem with_mem with_pages]. destruct (negb _); reflexivity. }
  change (with_mem (with_pages h s) (set_free (kh_mem h) b true)) with (with_pages (with_mem h (set_free (kh_mem h) b true)) s).
  set (h1 := with_mem h _). change (kh_allocated_bytes (with_pages h1 s)) with (kh_allocated_bytes h1).
  change (kh_mem (with_pages h1 s)) with (kh_mem h1).
  change (with_allocated (with_pages h1 s) (kh_allocated_bytes h1 - blk_size (kh_mem h1) b))
    with (with_pages (with_allocated h1 (kh_allocated_bytes h1 - blk_size (kh_mem h1) b)) s).
  rewrite C. set (h2 := coalesce_with_next _ _). change (kh_mem (with_pages h2 s)) with (kh_mem h2).
  destruct (_ && _); [apply C | reflexivity].
Qed.

Lemma kfree_same_pages (h h' : kheap vmm) p : kfree h p = Ret h' -> kh_pages h' = kh_pages h.
Proof.
  intros E. assert (Eh : with_pages h (kh_pages h) = h) by (destruct h; reflexivity).
  pose proof (kfree_pages h (kh_pages h) p) as K. rewrite Eh, E in K. cbn [mbind res_bind] in K.
  injection K as K. rewrite K. reflexivity.
Qed.

(** ** Reading the program *)

Lemma stat_file x path i n :
  fs_sound x -> named x path = Some (i, n) -> inode_is_file i = true -> inode_is_dir i = false ->
  ext2_stat x path = Ret (0, mk_dirent n USER_FS_TYPE_FILE (i_size i) []).
Proof.
  intros F En Hf Hd. unfold ext2_stat. rewrite (path_lookup_named x path F), En. cbn [mbind res_bind].
  rewrite Hd, Hf. reflexivity.
Qed.

Lemma bytes_mem_write m a c k : 0 <= k < Z.of_nat (length c) -> u8 (mem_write m a c (a + k)) = u8 (bytes_mem c k).
Proof. intros Hk. rewrite mem_write_in by lia. unfold bytes_mem. do 3 f_equal. lia. Qed.

Section Start.
Context (y : proc_sys ext2) (path : list Z) (n : Z) (ps : list (Z * Z)) (others : list Z).
Abbreviation i := (disk (sy_fs y) n).
Abbreviation c := (contents (sy_fs y) n).
Context (F : owned_fs (sy_fs y)) (En : named (sy_fs y) path = Some (i, n)) (Hf : inode_is_file i = true) (Hd : inode_is_dir i = false).
Context (Hz : 0 < i_size i) (H0 : heap_state (sy_heap y) ps others).

Record image_read (a sz : Z) (y1 : proc_sys ext2) : Prop := {
  rd_heap : heap_state (sy_heap y1) ((a, sz) :: ps) others;
  rd_fs : sy_fs y1 = sy_fs y;
  rd_table : sy_processes y1 = sy_processes y /\ sy_next_pid y1 = sy_next_pid y;
  rd_same : contents_same (kh_mem (sy_heap y)) (kh_mem (sy_heap y1)) ps;
  rd_bytes : forall k, 0 <= k < i_size i -> u8 (kh_mem (sy_heap y1) (a + k)) = u8 (bytes_mem c k)
}.

Lemma read_program_ok :
  exists r y1, read_program y path = Ret (r, y1)
  /\ match r with
     | None => no_room (sy_heap y) (i_size i) /\ sy_fs y1 = sy_fs y /\ sy_processes y1 = sy_processes y
               /\ contents_same (kh_mem (sy_heap y)) (kh_mem (sy_heap y1)) ps
     | Some (a, size) => size = i_size i /\ exists sz, image_read a sz y1
     end.
Proof.
  pose proof (fs_ok_sound _ F) as S. pose proof (disk_size (sy_fs y) n) as Hsz. unfold read_program. cbn [fs_stat ext2_ops].
  rewrite (stat_file _ path i n S En Hf Hd). cbn [mbind res_bind fd_type fd_size].
  change (USER_FS_TYPE_FILE =? USER_FS_TYPE_FILE) with true. rewrite Z.eqb_refl.
  destruct (Z.eqb_spec (i_size i) 0); [lia|]. cbn [negb orb Z.eqb].
  destruct (kmalloc_state (sy_heap y) ps others (i_size i) H0 ltac:(split; lia)) as (a & h1 & -> & C1 & K). cbn [mbind res_bind].
  assert (Hnz : a = 0 /\ no_room (sy_heap y) (i_size i) \/ a <> 0 /\ exists sz, i_size i <= sz /\ heap_state h1 ((a, sz) :: ps) others).
  { destruct K as [(-> & _ & K) | (sz & K1 & _ & K2)]; [left; auto|]. right. split; [exact (heap_state_nonzero _ _ _ _ _ K2) | eauto]. }
  destruct Hnz as [[-> K1] | [Hnz (sz & K1 & K2)]].
  { exists None, (with_heap y h1). split; [reflexivity|]. auto. }
  destruct (Z.eqb_spec a 0); [contradiction|]. cbn [fs_read_file ext2_ops sy_fs with_heap].
  rewrite (read_contents (sy_fs y) path n (i_size i) 0 F) by (lia || exact Hf || (unfold number; rewrite En; reflexivity)).
  unfold read_slice. rewrite contents_length, Z.sub_0_r, Z.min_id, Z.max_r by lia. cbn [skipn Z.to_nat mbind res_bind].
  assert (Ec : firstn (Z.to_nat (i_size i)) c = c) by (apply firstn_all2; pose proof (contents_length (sy_fs y) n); lia).
  change (Z.to_nat 0) with 0%nat. rewrite skipn_O. rewrite Ec, Z.eqb_refl. destruct (Z.ltb_spec (i_size i) 0); [lia|]. cbn [negb orb].
  pose proof (contents_length (sy_fs y) n) as Hl. eexists _, _. split; [reflexivity|]. split; [reflexivity|]. exists sz.
  assert (K3 : heap_state (with_mem h1 (mem_write (kh_mem h1) a c)) ((a, sz) :: ps) others)
    by (apply (write_state _ _ _ a sz); [exact K2 | left; reflexivity | lia | lia]).
  split; [exact K3 | reflexivity | split; reflexivity | |].
  - apply (contents_same_trans _ (kh_mem h1)); [exact C1|]. intros p' s' b Hin Hb.
    apply mem_write_out. pose proof (heap_state_apart _ _ _ K2) as Ap. inversion Ap as [|? ? Hap _]; subst.
    rewrite List.Forall_forall in Hap. specialize (Hap (p', s') Hin). unfold apart in Hap. cbn [fst snd] in Hap. lia.
  - intros k Hk. apply bytes_mem_write. lia.
Qed.

(** Why a program was not started: there is no room in the heap for the file, or
    no slot for the process; or the image cannot be loaded, and then the slot
    has lost the process that had ended in it. *)
Definition start_failed (y' : proc_sys ext2) : Prop :=
  sy_processes y' = sy_processes y /\ (no_room (sy_heap y) (i_size i) \/ find_slot (sy_processes y) = None)
  \/ exists k, find_slot (sy_processes y) = Some k
       /\ sy_processes y' = <[k := set_pr_state (sy_processes y !!! k) PROCESS_EMPTY]> (sy_processes y)
       /\ not_loadable (bytes_mem c) (i_size i) (kh_pages (sy_heap y')).

(** The program was valid and has its slot, or it was not started. *)
Definition start_outcome (r : option nat) (y' : proc_sys ext2) : Prop :=
  match r with
  | Some k =>
      find_slot (sy_processes y) = Some k
      /\ exists s0 im p, elf64_validate_user_image (Some (bytes_mem c)) (i_size i) = Some im
         /\ process_loaded s0 (kh_pages (sy_heap y')) (bytes_mem c) im (sy_next_pid y) p
         /\ held_same s0 (kh_pages (sy_heap y')) others
         /\ heap_state (with_pages (sy_heap y') s0) ps others
         /\ sy_processes y' = <[k := p]> (sy_processes y)
  | None => start_failed y'
  end.

(** Every loadable segment has memory. *)
Definition no_empty_segments : Prop :=
  forall im, elf64_validate_user_image (Some (bytes_mem c)) (i_size i) = Some im ->
    Forall (fun ph => p_type ph = ELF64_PT_LOAD -> p_memsz ph <> 0) (image_phdrs (bytes_mem c) im).

Lemma load_into_slot_ok y1 a sz k name cwd :
  no_empty_segments -> image_read a sz y1 ->
  exists ok y2 s, load_into_slot y1 k name a (i_size i) cwd = Ret (ok, y2)
  /\ sy_heap y2 = with_pages (sy_heap y1) s /\ held_same (kh_pages (sy_heap y1)) s others /\ sy_fs y2 = sy_fs y
  /\ if (ok : bool)
     then exists im p, elf64_validate_user_image (Some (bytes_mem c)) (i_size i) = Some im
          /\ process_loaded (kh_pages (sy_heap y1)) s (bytes_mem c) im (sy_next_pid y) p /\ sy_processes y2 = <[k := p]> (sy_processes y)
     else sy_processes y2 = <[k := set_pr_state (sy_processes y !!! k) PROCESS_EMPTY]> (sy_processes y)
          /\ not_loadable (bytes_mem c) (i_size i) s.
Proof.
  intros Hne [R1 R2 [R3 R4] R5 R6]. pose proof (disk_size (sy_fs y) n) as Hsz.
  assert (Hu : is_u64 (i_size i)) by (unfold is_u64; lia).
  unfold load_into_slot. set (img := fun k0 => kh_mem (sy_heap (take_pid y1)) (a + k0)).
  assert (Same : forall b, 0 <= b < i_size i -> u8 (img b) = u8 (bytes_mem c b)) by (intros b Hb; exact (R6 b Hb)).
  destruct R1 as (l & fr & [_ _ _ _ _ (Hp4 & free & Hinv) _] & _).
  destruct (load_user_image_ok (kh_pages (sy_heap y1)) (sy_next_pid y1) (Some name) img (i_size i) (Some cwd) (fr ++ others) free Hinv Hp4 Hu)
    as (r & s & E & Hs & Hr).
  { intros im Hv. rewrite (image_validate _ img _ Hu Same) in Hv. rewrite (image_headers _ img _ Hu Same im Hv). exact (Hne im Hv). }
  change (kh_pages (sy_heap (take_pid y1))) with (kh_pages (sy_heap y1)). rewrite E. cbn [mbind res_bind].
  assert (Ho : held_same (kh_pages (sy_heap y1)) s others) by (eapply held_same_incl; [|exact Hs]; intros q Hq; apply in_or_app; auto).
  destruct r as [p|]; eexists _, _, s; (split; [reflexivity|]); cbn [with_process with_heap take_pid sy_heap sy_fs sy_processes];
    rewrite R2, R3; (split; [reflexivity|]); (split; [exact Ho|]); (split; [reflexivity|]);
    [|split; [reflexivity | exact (image_not_loadable _ img _ Hu Same s Hr)]].
  destruct Hr as (im & Hv & Hl). rewrite (image_validate _ img _ Hu Same) in Hv. exists im, p. split; [exact Hv|].
  split; [|reflexivity]. rewrite <- R4. exact (image_loaded _ img _ Hu Same _ _ im _ p Hv Hl).
Qed.

Lemma create_process_ok cwd :
  no_empty_segments ->
  exists r y', process_create_filesystem_process y (Some path) cwd = Ret (r, y')
  /\ sy_fs y' = sy_fs y /\ contents_same (kh_mem (sy_heap y)) (kh_mem (sy_heap y')) ps /\ start_outcome r y'.
Proof.
  intros Hne. unfold process_create_filesystem_process. destruct read_program_ok as (r & y1 & -> & R). cbn [mbind res_bind].
  destruct r as [[a size]|]; [|destruct R as (R1 & R2 & R3 & R4); exists None, y1; split_and!; auto; left; auto].
  destruct R as (-> & sz & R). pose proof (rd_table _ _ _ R) as [Et _]. rewrite Et.
  destruct (kfree_state _ _ _ _ _ (rd_heap _ _ _ R)) as (h2 & E2 & S2 & C2).
  pose proof (contents_same_trans _ _ _ _ (rd_same _ _ _ R) C2) as C12.
  destruct (find_slot (sy_processes y)) as [k|] eqn:Ek.
  - destruct (load_into_slot_ok y1 a sz k (program_name path) (match cwd with Some c => c | None => [47] end) Hne R)
      as (ok & y2 & s & -> & Eh & Hs & Ef & K). cbn [mbind res_bind].
    rewrite Eh, kfree_pages, E2. cbn [mbind res_bind]. eexists _, _. split; [reflexivity|].
    cbn [with_heap sy_fs sy_heap]. split; [exact Ef|]. split; [exact C12|]. destruct ok; cbn [start_outcome]; [|right; exists k; destruct K as [K1 K2]; split_and!; assumption]. rewrite Ek.
    split; [reflexivity|]. destruct K as (im & p & Hv & Hl & Hp). exists (kh_pages (sy_heap y1)), im, p.
    split; [exact Hv|]. split; [exact Hl|]. split; [exact Hs|]. split; [|exact Hp].
    cbn [with_heap sy_heap]. replace (with_pages (with_pages h2 s) (kh_pages (sy_heap y1))) with h2; [exact S2|].
    rewrite <- (kfree_same_pages _ _ _ E2). destruct h2; reflexivity.
  - rewrite E2. cbn [mbind res_bind]. eexists _, _. split; [reflexivity|]. cbn [with_heap sy_fs sy_heap].
    split; [exact (rd_fs _ _ _ R)|]. split; [exact C12|]. left. split; [exact Et | right; exact Ek].
Qed.
End Start.

(** ** Running it *)

(** The space rooted at [pml4] holds the image: its segments, a cleared stack
    page, the kernel half of the space it was made from, and nothing else. *)
Record image_space (s0 s : vmm) (img : mem) (im : elf64_image) (pml4 : Z) : Prop := {
  is_segments : Forall (fun ph => loadable ph -> forall va, in_segment_pages ph va ->
      user_byte s (pmm_phys_to_virt (vm_pmm s) pml4) va = Some (segment_byte img ph va)) (image_phdrs img im);
  is_stack : forall va, in_stack_page va -> user_byte s (pmm_phys_to_virt (vm_pmm s) pml4) va = Some 0;
  is_rest : space_is s0 s (pmm_phys_to_virt (vm_pmm s) pml4) (fun va => image_pages img im va \/ in_stack_page va)
}.

Lemma loaded_space s0 s img im pid p a :
  process_loaded s0 s img im pid p -> image_space s0 (vmm_activate_address_space s a) img im (pr_pml4_phys p).
Proof. intros [_ _ _ _ _ P5 P6 P7]. split; assumption. Qed.

Section Run.
Context {F : Type}.
Implicit Types u : user_sys F.

(** Which space is active makes no difference to the start of another one. *)
Lemma run_activate u a i p frame :
  scheduler_run_process_blocking (put_process (activate u a) i p) (Some i) (Some frame)
  = scheduler_run_process_blocking (put_process u i p) (Some i) (Some frame).
Proof.
  unfold scheduler_run_process_blocking. change (u_sched (put_process (activate u a) i p)) with (u_sched (put_process u i p)).
  destruct (sc_current (u_sched (put_process u i p))) as [c|]; [|reflexivity].
  change (is_ready (put_process (activate u a) i p) i) with (is_ready (put_process u i p) i).
  destruct (_ || _); [reflexivity|]. unfold scheduler_enter_current. cbn [u_sched with_sched set_current set_runs put_states put_process sc_current sc_return_context activate].
  destruct (negb _); reflexivity.
Qed.

(** Where the run starts. *)
Lemma run_enters u c i p frame t u' :
  sc_current (u_sched u) = Some c -> c <> i -> (i < length (sy_processes (u_sys u)))%nat ->
  scheduler_run_process_blocking (put_process u i p) (Some i) (Some frame) = Ret (t, u') ->
  t = EnterUser (r_rip (t_regs (pr_main_thread p))) (r_rsp (t_regs (pr_main_thread p)))
  /\ proc_at u' i = set_states p PROCESS_RUNNING THREAD_RUNNING
  /\ kh_pages (sy_heap (u_sys u')) = vmm_activate_address_space (kh_pages (sy_heap (u_sys u))) (pr_pml4_phys p)
  /\ sy_fs (u_sys u') = sy_fs (u_sys u) /\ kh_mem (sy_heap (u_sys u')) = kh_mem (sy_heap (u_sys u)).
Proof.
  intros Hc Hne Hi. unfold scheduler_run_process_blocking. change (u_sched (put_process u i p)) with (u_sched u). rewrite Hc.
  destruct (_ || _); [discriminate|]. unfold scheduler_enter_current.
  cbn [u_sched with_sched set_current set_runs sc_current sc_return_context].
  destruct (negb _); [discriminate|]. intros [= <- <-].
  set (l := sy_processes (u_sys u)) in *. set (q := set_states (proc_at (put_process u i p) c) PROCESS_READY THREAD_BLOCKED).
  assert (E1 : <[c := q]> (<[i := p]> l) !!! i = p).
  { rewrite list_lookup_total_insert_ne by exact Hne. apply list_lookup_total_insert_eq. exact Hi. }
  set (l1 := <[c := q]> (<[i := p]> l)) in *. set (p' := set_states p PROCESS_RUNNING THREAD_RUNNING).
  assert (E2 : <[i := p']> l1 !!! i = p') by (apply list_lookup_total_insert_eq; unfold l1; rewrite !length_insert; exact Hi).
  set (u2 := activate _ _).
  assert (E3 : proc_at u2 i = p').
  { change (<[i := set_states (l1 !!! i) PROCESS_RUNNING THREAD_RUNNING]> l1 !!! i = p'). rewrite E1. exact E2. }
  rewrite E3. split; [reflexivity|]. split; [reflexivity|]. split; [|split; reflexivity].
  unfold u2. cbn [activate u_sys with_heap sy_heap with_pages kh_pages]. f_equal.
  change (pr_pml4_phys (<[i := set_states (l1 !!! i) PROCESS_RUNNING THREAD_RUNNING]> l1 !!! i) = pr_pml4_phys p).
  rewrite E1. fold p'. rewrite E2. reflexivity.
Qed.
End Run.

Section AppRun.
Context (k : kernel ext2) (frame : syscall_frame) (path : list Z) (n : Z) (c0 : nat) (stack : list (nat * user_registers)).
Abbreviation x := (k_fs k).
Abbreviation i := (disk x n).

(** How the call ends: the program runs on top of its caller, or the caller
    goes on with an error. *)
Definition app_run_outcome (o : outcome) (k' : kernel ext2) : Prop :=
  match o with
  | Transfers t =>
      exists j im s0,
        find_slot (sy_processes (k_sys k)) = Some j
        /\ elf64_validate_user_image (Some (bytes_mem (contents x n))) (i_size i) = Some im
        /\ t = EnterUser (ei_entry im) USERSPACE_STACK_TOP
        /\ sched_inv (k_user k') j (stack ++ [(c0, registers_from_syscall_frame frame)])
        /\ t_regs (pr_main_thread (proc_at (k_user k') j)) = start_regs (ei_entry im)
        /\ image_space s0 (k_vmm k') (bytes_mem (contents x n)) im (pr_pml4_phys (proc_at (k_user k') j))
  | Returns v f =>
      v = SYSCALL_ERR_INVAL /\ f = frame /\ u_sched (k_user k') = u_sched (k_user k) /\ start_failed (k_sys k) n (k_sys k')
      /\ forall j, (j = c0 \/ In j (map fst stack)) -> proc_at (k_user k') j = proc_at (k_user k) j
  end.

Lemma process_put (u : user_sys ext2) (y' : proc_sys ext2) j p :
  sy_processes y' = <[j := p]> (sy_processes (u_sys u)) ->
  mk_user_sys y' (u_sched u)
  = put_process (mk_user_sys (mk_proc_sys (sy_heap y') (sy_fs y') (sy_processes (u_sys u)) (sy_next_pid y')) (u_sched u)) j p.
Proof. intros E. unfold put_process, with_process. cbn. rewrite <- E. destruct y'; reflexivity. Qed.

Lemma app_run_ok ps others :
  sched_inv (k_user k) c0 stack -> copy_and_resolve_user_path k (sf_arg0 frame) = Ret (Some path) ->
  heap_state (sy_heap (k_sys k)) ps others -> owned_fs x -> named x path = Some (i, n) ->
  inode_is_file i = true -> inode_is_dir i = false -> 0 < i_size i -> no_empty_segments (k_sys k) n ->
  exists o k', sys_app_run_path k frame = Ret (o, k') /\ k_fs k' = x
  /\ contents_same (kh_mem (sy_heap (k_sys k))) (kh_mem (sy_heap (k_sys k'))) ps /\ app_run_outcome o k'.
Proof.
  intros Inv Ep H0 F En Hf Hd Hz Hne. unfold sys_app_run_path, with_user_path. rewrite Ep. cbn [mbind res_bind]. cbv zeta.
  match goal with |- context [process_create_filesystem_process _ _ ?w] => set (cwd := w) end.
  destruct (create_process_ok (k_sys k) path n ps others F En Hf Hd Hz H0 cwd Hne) as (r & y' & -> & Ef & Cs & Out).
  cbn [mbind res_bind]. destruct r as [j|]; cbn [start_outcome] in Out.
  - destruct Out as (Ej & s0 & im & p & Hv & Hl & _ & _ & Hp).
    set (u0 := mk_user_sys (mk_proc_sys (sy_heap y') (sy_fs y') (sy_processes (k_sys k)) (sy_next_pid y')) (u_sched (k_user k))).
    change (k_user (with_sys k y')) with (mk_user_sys y' (u_sched (k_user k))).
    rewrite (process_put (k_user k) y' j p Hp). fold u0.
    set (a := pr_pml4_phys (proc_at (k_user k) c0)). rewrite <- (run_activate u0 a).
    assert (Inv' : sched_inv (activate u0 a) c0 stack).
    { apply (same_control_inv (k_user k)); [|exact Inv]. split; try reflexivity; [split; [reflexivity | split; reflexivity]|].
      rewrite activate_cr3; [symmetry; apply (si_space _ _ _ Inv)|]. apply (si_running _ _ _ Inv). }
    assert (Hready : in_states p PROCESS_READY THREAD_READY).
    { destruct (pl_state _ _ _ _ _ _ Hl). split_and!; auto. exact (pl_root _ _ _ _ _ _ Hl). }
    destruct (spawn_inv (activate u0 a) c0 stack j p frame Inv' Ej Hready) as (t & u' & E & Hi). rewrite E. cbn [mbind res_bind].
    destruct (find_slot_free _ _ Ej) as [Hj Hfree].
    assert (Hcj : c0 <> j).
    { intros <-. apply (free_slot_out _ _ _ _ Inv Hfree). left. reflexivity. }
    rewrite run_activate in E. 
    destruct (run_enters u0 c0 j p frame t u') as (-> & Ep' & Eg & Efs & Em); [exact (si_current _ _ _ Inv) | exact Hcj | | exact E|].
    { cbn [u0 u_sys sy_processes]. change (k_sys k) with (u_sys (k_user k)). rewrite (si_procs _ _ (si_shape _ _ _ Inv)). exact Hj. }
    exists (Transfers (EnterUser (ei_entry im) USERSPACE_STACK_TOP)), (with_user (with_sys k y') u').
    rewrite (pl_regs _ _ _ _ _ _ Hl). split; [reflexivity|].
    split; [change (sy_fs (u_sys u') = x); rewrite Efs; exact Ef|].
    split; [change (contents_same (kh_mem (sy_heap (k_sys k))) (kh_mem (sy_heap (u_sys u'))) ps); rewrite Em; exact Cs|].
    exists j, im, s0. split; [exact Ej|]. split; [exact Hv|]. split; [reflexivity|]. split; [exact Hi|].
    change (k_user (with_user (with_sys k y') u')) with u'. rewrite Ep'. split; [exact (pl_regs _ _ _ _ _ _ Hl)|].
    change (k_vmm (with_user (with_sys k y') u')) with (kh_pages (sy_heap (u_sys u'))). rewrite Eg.
    exact (loaded_space _ _ _ _ _ _ _ Hl).
  - exists (Returns SYSCALL_ERR_INVAL frame), (with_sys k y'). split; [reflexivity|]. split; [exact Ef|]. split; [exact Cs|].
    split; [reflexivity|]. split; [reflexivity|]. split; [reflexivity|]. split; [exact Out|].
    intros j Hj. change (sy_processes y' !!! j = sy_processes (k_sys k) !!! j).
    destruct Out as [[-> _] | (l & El & -> & _)]; [reflexivity|]. apply list_lookup_total_insert_ne. intros ->.
    destruct (find_slot_free _ _ El) as [_ Hfree]. apply (free_slot_out _ _ _ _ Inv Hfree). destruct Hj as [-> | Hj]; [left | right]; auto.
Qed.
End AppRun.

(** C13. RUN_PATH starts the program that the file holds. On a system in order
    (a process runs on top of those that wait, the heap and the file system keep
    their invariants), for the path of a regular file that is not empty and has
    no empty loadable segment, the call ends. Either the file is a valid image
    and the machine enters user mode at its entry point with an empty stack, in a
    fresh space that holds exactly the segments as the file's bytes say, the new
    process on top of its caller, whose registers are kept for its return. Or the
    caller gets an error, and [start_failed] says why: the heap has no room for
    the file, no slot is free, the image is not valid, two of its parts want the
    same page, or no page is left. Then the scheduler, the caller and those that
    wait are as before; a slot of a process that had ended may be emptied, pages
    taken for the new space are lost and its number is used up. In both cases
    the file system is the same, and so are the contents of every heap block. *)
Theorem app_run_correct (k : kernel ext2) frame path i n c stack ps others :
  sched_inv (k_user k) c stack -> copy_and_resolve_user_path k (sf_arg0 frame) = Ret (Some path) ->
  heap_state (sy_heap (k_sys k)) ps others -> owned_fs (k_fs k) -> named (k_fs k) path = Some (i, n) ->
  inode_is_file i = true -> inode_is_dir i = false -> 0 < i_size i -> no_empty_segments (k_sys k) n ->
  exists o k', sys_app_run_path k frame = Ret (o, k') /\ k_fs k' = k_fs k
  /\ contents_same (kh_mem (sy_heap (k_sys k))) (kh_mem (sy_heap (k_sys k'))) ps
  /\ app_run_outcome k frame n c stack o k'.
Proof.
  intros Inv Ep H0 F En Hf Hd Hz Hne. pose proof (named_number _ _ _ _ En) as (_ & _ & ->).
  exact (app_run_ok k frame path n c stack ps others Inv Ep H0 F En Hf Hd Hz Hne).
Qed.

(** ** A system that starts a program *)

(** Sixty-four pages, the last of which is the root table. *)
Definition wide_pages : list Z :=
  Eval vm_compute in map (fun i => 8192 + 4096 * Z.of_nat i) (seq 0 63).

Definition wide_boot : pmm :=
  pmm_init (fun _ => 0) (Some [ {| me_base := 8192; me_length := 262144; me_type := 0 |} ]) (Some 18446603336221196288).

Definition wide_root : Z := 18446603336221196288 + 266240.

Definition wide_vmm : vmm :=
  let pm := snd (pmm_alloc_page wide_boot) in
  {| vm_pmm := set_pm_mem pm (mem_fill (pm_mem pm) wide_root 0 (Z.to_nat VMM_PAGE_SIZE));
     vm_kernel_cr3 := 266240; vm_pml4 := wide_root; vm_cr3 := 266240; vm_invlpg := [] |}.

Lemma wide_vmm_inv : pt_inv wide_vmm wide_root [] (rev wide_pages).
Proof.
  assert (Hp : page_ok 18446603336221196288 266240) by solve_page_ok.
  assert (Hn : ~ In 266240 (rev wide_pages)) by (cbn; lia).
  assert (Hb : pmm_inv (snd (pmm_alloc_page wide_boot)) (rev wide_pages)).
  { constructor.
    - vm_compute. discriminate.
    - repeat (constructor; [solve_page_ok|]). constructor.
    - repeat (constructor; [cbn; lia|]). constructor.
    - vm_compute. repeat split; reflexivity.
    - vm_compute. reflexivity. }
  split.
  - exact (pmm_inv_fill _ _ 266240 0 (Z.to_nat VMM_PAGE_SIZE) Hb Hp Hn ltac:(unfold VMM_PAGE_SIZE; lia)).
  - reflexivity.
  - repeat (constructor; [split; [split; [lia|reflexivity]|solve_page_ok]|]). constructor.
  - rewrite app_nil_r. exact (pi_nodup _ _ Hb).
  - rewrite app_nil_r. exact (empty_root_tree _ 18446603336221196288 266240 _ Hp Hn).
Qed.

Lemma wide_empty va : lookup_in wide_vmm wide_root va = None.
Proof.
  unfold level_shifts. cbn [pt_lookup].
  change (vm_mem wide_vmm) with (mem_fill (pm_mem (snd (pmm_alloc_page wide_boot))) wide_root 0 (Z.to_nat VMM_PAGE_SIZE)).
  pose proof (table_index_ok va 39) as Hi. unfold index_ok in Hi.
  rewrite load_fill_zero by (unfold VMM_PAGE_SIZE; lia). reflexivity.
Qed.

(** The caller's page, with the path in it. *)
Definition caller_vmm : vmm :=
  match map_fresh wide_vmm 266240 with
  | Ret (_, s) => set_vm_mem s (mem_write (vm_mem s) (vm_base s + hd 0 (rev wide_pages) + 0) [47; 97; 0])
  | _ => wide_vmm
  end.

Lemma caller_fresh : exists s, map_fresh wide_vmm 266240 = Ret (true, s) /\ vm_pml4 s = wide_root
  /\ caller_vmm = set_vm_mem s (mem_write (vm_mem s) (vm_base s + hd 0 (rev wide_pages) + 0) [47; 97; 0]).
Proof.
  unfold caller_vmm.
  assert (H : match map_fresh wide_vmm 266240 with Ret (b, s) => b && (vm_pml4 s =? wide_root) | _ => false end = true)
    by (vm_compute; reflexivity).
  destruct (map_fresh wide_vmm 266240) as [[[|] s]| |]; [|discriminate H|discriminate H|discriminate H].
  exists s. split; [reflexivity|]. split; [apply Z.eqb_eq, H | reflexivity].
Qed.

Lemma caller_pages : pages_ok caller_vmm [hd 0 (rev wide_pages)].
Proof.
  destruct caller_fresh as (s & E & H & ->).
  pose proof wide_vmm_inv as I. set (p := hd 0 (rev wide_pages)). assert (Ep : rev wide_pages = p :: tl (rev wide_pages)) by reflexivity.
  rewrite Ep in I.
  destruct (map_fresh_half wide_vmm 266240 p _ s I ltac:(discriminate) ltac:(discriminate) wide_empty E) as [[free' U] _].
  destruct (pt_inv_write s wide_root [p] free' p 0 [47; 97; 0] (uh_inv _ _ _ _ U) ltac:(left; reflexivity) ltac:(lia) ltac:(cbn; lia)) as [I' _].
  set (s' := set_vm_mem s _) in *. change (vm_pml4 s) with (vm_pml4 s') in H.
  split; [rewrite H; discriminate|]. exists free'. rewrite H. exact I'.
Qed.

(** The image as a file: [demo_image] written over the sample's file. *)
Definition program_bytes : list Z := mem_read demo_image 0 200.

Definition program_fs : ext2 :=
  match ext2_write_file sample [47; 97] program_bytes 0 with Ret (_, x) => x | _ => sample end.

Lemma program_contents : contents program_fs 3 = program_bytes.
Proof. vm_compute. reflexivity. Qed.

Lemma program_written : exists r, ext2_write_file sample [47; 97] program_bytes 0 = Ret (r, program_fs).
Proof.
  unfold program_fs.
  assert (H : match ext2_write_file sample [47; 97] program_bytes 0 with Ret _ => true | _ => false end = true) by (vm_compute; reflexivity).
  destruct (ext2_write_file sample [47; 97] program_bytes 0) as [[r x]| |]; [eauto|discriminate H|discriminate H].
Qed.

(** The caller runs in slot 0. *)
Definition caller : process :=
  mk_process 1 PROCESS_RUNNING 266240 0x400000 USERSPACE_STACK_TOP USERSPACE_HEAP_BASE
    USERSPACE_HEAP_BASE USERSPACE_HEAP_LIMIT (mk_thread 1 1 THREAD_RUNNING zero_regs) [] [47].

Definition caller_sched : sched :=
  mk_sched (Some 0%nat) true true true 0 0 1 0 0 (repeat empty_run 8) 0.

Definition caller_kernel : kernel ext2 :=
  kernel_with program_fs caller_vmm caller_sched (caller :: repeat empty_process 7).

Definition run_frame : syscall_frame := mk_sframe 27 0x400000 0 0 0 0 0 6 7 8 9 10 11 12 13 0x400123 0x7fffff 0x202.

Lemma caller_inv : sched_inv (k_user caller_kernel) 0 [].
Proof.
  split.
  - split; try reflexivity. intros k i r E. rewrite lookup_nil in E. discriminate.
  - reflexivity.
  - reflexivity.
  - constructor; [intros []|constructor].
  - constructor; [vm_compute; lia|constructor].
  - split_and!; [reflexivity|reflexivity|discriminate].
  - constructor.
  - vm_compute. reflexivity.
Qed.

Lemma caller_path : copy_and_resolve_user_path caller_kernel (sf_arg0 run_frame) = Ret (Some [47; 97]).
Proof. vm_compute. reflexivity. Qed.

Lemma ret_state {A B : Type} (a b : A) (s t : B) : Ret (a, s) = Ret (b, t) -> s = t.
Proof. intros [= _ E]. exact E. Qed.

Lemma sample_file : disk sample 3 = file_inode.
Proof. vm_compute. reflexivity. Qed.

Lemma write_sample bytes :
  Forall is_byte bytes -> Z.of_nat (length bytes) < 4294967296 ->
  exists r x', ext2_write_file sample [47; 97] bytes 0 = Ret (r, x') /\ only_file sample 3 x'.
Proof.
  intros Hb Hl.
  pose proof sample_named as En. pose proof sample_file_ok as FO. rewrite <- sample_file in En, FO.
  destruct (write_file_ok sample [47; 97] 3 bytes 0 sample_ok_fs En) as (r & x' & E & Only & _).
  - rewrite sample_file. reflexivity.
  - rewrite sample_file. reflexivity.
  - exact FO.
  - exact Hb.
  - rewrite sample_file. cbn [file_inode i_size]. lia.
  - lia.
  - exists r, x'. exact (conj E Only).
Qed.

Lemma program_only : only_file sample 3 program_fs.
Proof.
  destruct (write_sample program_bytes) as (r & x' & E & Only); [apply mem_read_byte | vm_compute; reflexivity|].
  destruct program_written as [r' E']. rewrite <- (ret_state _ _ _ _ (eq_trans (eq_sym E) E')). exact Only.
Qed.

Lemma only_named x x' path n k : only_file x n x' -> number x path = Some k -> named x' path = Some (disk x' k, k).
Proof.
  intros Only Hk. rewrite <- (of_number _ _ _ Only) in Hk. unfold number in Hk.
  destruct (named x' path) as [[j m]|] eqn:E; [|discriminate Hk]. injection Hk as ->.
  destruct (named_number _ _ _ _ E) as (_ & _ & ->). reflexivity.
Qed.

Lemma program_fs_ok :
  owned_fs program_fs /\ named program_fs [47; 97] = Some (disk program_fs 3, 3) /\ i_mode (disk program_fs 3) = i_mode (disk sample 3).
Proof.
  pose proof program_only as Only. split; [exact (of_ok _ _ _ Only)|]. split.
  - apply (only_named sample program_fs _ 3 _ Only). unfold number. rewrite sample_named. reflexivity.
  - apply (of_mode _ _ _ Only). split; vm_compute; discriminate.
Qed.

Lemma program_segments : no_empty_segments (k_sys caller_kernel) 3.
Proof.
  intros im. change (sy_fs (k_sys caller_kernel)) with program_fs. rewrite program_contents.
  replace (i_size (disk program_fs 3)) with 200 by (vm_compute; reflexivity). intros Hv.
  assert (E : elf64_validate_user_image (Some (bytes_mem program_bytes)) 200 = Some demo_elf) by (vm_compute; reflexivity).
  rewrite E in Hv. injection Hv as <-. vm_compute. constructor; [discriminate | constructor].
Qed.

Definition enters_at (r : res (outcome * kernel ext2)) : option Z :=
  match r with Ret (Transfers (EnterUser e _), _) => Some e | _ => None end.

Lemma run_starts : enters_at (sys_app_run_path caller_kernel run_frame) = Some 0x400000.
Proof. vm_compute. reflexivity. Qed.

Lemma caller_fs : k_fs caller_kernel = program_fs.
Proof. reflexivity. Qed.

Lemma regular_mode j : i_mode j = i_mode file_inode -> inode_is_file j = true /\ inode_is_dir j = false.
Proof. intros E. unfold inode_is_file, inode_is_dir. rewrite E. split; reflexivity. Qed.

Lemma app_run_correct_witness :
  (exists o k', sys_app_run_path caller_kernel run_frame = Ret (o, k') /\ k_fs k' = program_fs
   /\ app_run_outcome caller_kernel run_frame 3 0 [] o k')
  /\ enters_at (sys_app_run_path caller_kernel run_frame) = Some 0x400000.
Proof.
  split; [|exact run_starts]. destruct program_fs_ok as (F & En & Em).
  rewrite sample_file in Em. destruct (regular_mode _ Em) as [Hf Hd]. rewrite <- caller_fs in F, En, Hf, Hd |- *.
  destruct (app_run_correct caller_kernel run_frame [47; 97] (disk (k_fs caller_kernel) 3) 3 0 [] [] [hd 0 (rev wide_pages)]
    caller_inv caller_path (heap_state_init _ _ _ caller_pages) F En Hf Hd ltac:(vm_compute; reflexivity) program_segments)
    as (o & k' & E & Ef & _ & Out).
  exists o, k'. exact (conj E (conj Ef Out)).
Defined.
