(* ===== verification/UserApi.v ===== *)
(** * System calls as programs see them (src/userspace/abi.h, src/libc/user/)

    The class [UserApi] is what a program relies on: one operation per wrapper
    of src/libc/user/syscall.c that the programs call (UserSyscalls.v), on the state of the world
    outside the program. A pointer argument becomes the string or structure
    behind it. [user_malloc] and its companions are src/libc/user/stdlib.c, on
    the program's memory. *)

From Stdlib Require Import String Ascii.
From S2P Require Import Prelude Fs Stdio.

(** The characters of a literal. *)
Definition str (s : string) : list Z := map (fun c => Z.of_nat (nat_of_ascii c)) (list_ascii_of_string s).

(** A literal with a newline after it. *)
Definition text_line (s : string) : list Z := str s ++ [10].

(** ** The structures of abi.h *)

Record user_input_event : Type := mk_input { ie_key : Z; ie_ch : Z; ie_modifiers : Z }.

Record user_memory_status : Type := mk_memory_status {
  ms_total_kib : Z; ms_free_kib : Z; ms_used_kib : Z; ms_hhdm_offset : Z }.

Record user_klog_status : Type := mk_klog_status {
  ks_size : Z; ks_capacity : Z; ks_total_written : Z; ks_dropped : Z }.

Record user_timer_status : Type := mk_timer_status { ts_ticks : Z; ts_frequency_hz : Z }.

Record user_framebuffer_status : Type := mk_framebuffer_status {
  fs_available : Z; fs_width : Z; fs_height : Z; fs_pitch : Z; fs_bpp : Z; fs_address : Z }.

Record user_kernel_heap_status : Type := mk_kernel_heap_status {
  kh_mapped : Z; kh_allocated : Z; kh_free : Z; kh_valid : Z }.

Record user_userspace_status : Type := mk_userspace_status {
  ut_abi_version : Z; ut_initialized : Z; ut_syscall_dispatch_ready : Z; ut_scheduler_ready : Z;
  ut_preemptive_enabled : Z; ut_user_task_active : Z; ut_launches : Z; ut_exits : Z;
  ut_scheduler_ticks : Z; ut_app_count : Z; ut_heap_start : Z; ut_heap_current : Z; ut_heap_end : Z }.

Definition USERSPACE_STATUS_ABI_VERSION : Z := 1.

(** A structure the kernel fills is [None] when the call fails. *)
Class UserApi (W : Type) : Type := {
  api_write : W -> list Z -> W;
  api_clear : W -> W;
  api_set_color : W -> Z -> Z -> Z -> W;
  api_set_background : W -> Z -> Z -> Z -> W;
  api_reset_colors : W -> W;
  api_memory_status : W -> option user_memory_status * W;
  api_userspace_status : W -> option user_userspace_status * W;
  api_klog_status : W -> option user_klog_status * W;
  api_timer_status : W -> option user_timer_status * W;
  api_framebuffer_status : W -> option user_framebuffer_status * W;
  api_kernel_heap_status : W -> option user_kernel_heap_status * W;
  api_fs_status : W -> option Fs.user_fs_status * W;
  api_klog_read : W -> Z -> Z * list Z * W;
  api_app_run_path : W -> list Z -> Z * W;
  api_fs_list : W -> list Z -> Z -> Z * list user_fs_dirent * W;
  api_fs_read : W -> list Z -> Z -> Z -> Z * list Z * W;
  api_fs_getcwd : W -> Z -> Z * list Z * W;
  api_fs_chdir : W -> list Z -> Z * W;
  api_fs_write : W -> list Z -> list Z -> Z -> Z * W;
  api_fs_create : W -> list Z -> Z * W;
  api_fs_mkdir : W -> list Z -> Z * W;
  api_fs_unlink : W -> list Z -> Z * W;
  api_fs_rmdir : W -> list Z -> Z * W;
  api_fs_truncate : W -> list Z -> Z -> Z * W;
  api_sbrk : W -> Z -> Z * W
}.

(** What [user_read_event] makes of the value of the system call; [None] where the
    wrapper passes the error on. *)
Definition unpack_event (packed : Z) : option user_input_event :=
  if packed <? 0 then None
  else Some (mk_input (Z.land packed 0xff) (Z.land (Z.shiftr packed 8) 0xff)
               (Z.land (Z.shiftr packed 16) 0xff)).

Section Stdlib.
Context {W : Type} `{UserApi W}.

(** [user_sbrk]: 0 is NULL. *)
Definition user_sbrk (w : W) (increment : Z) : Z * W :=
  let '(result, w) := api_sbrk w increment in (if result <? 0 then 0 else result, w).

(** ** stdlib.c *)

Definition USER_MALLOC_ALIGN : Z := 16.
Definition sizeof_allocation_header : Z := 8.

Definition user_malloc (m : mem) (w : W) (size : Z) : Z * mem * W :=
  if size =? 0 then (0, m, w)
  else
    let aligned := align_up size USER_MALLOC_ALIGN in
    let total := u64 (sizeof_allocation_header + aligned) in
    let '(header, w) := user_sbrk w (s64 total) in
    if header =? 0 then (0, m, w)
    else (header + sizeof_allocation_header, store64 m header aligned, w).

Definition user_free (m : mem) (ptr : Z) : mem := m.

Definition user_calloc (m : mem) (w : W) (nmemb size : Z) : Z * mem * W :=
  if negb (size =? 0) && (18446744073709551615 / size <? nmemb) then (0, m, w)
  else
    let total := u64 (nmemb * size) in
    let '(ptr, m, w) := user_malloc m w total in
    (ptr, if negb (ptr =? 0) then mem_fill m ptr 0 (Z.to_nat total) else m, w).

Definition user_realloc (m : mem) (w : W) (ptr size : Z) : Z * mem * W :=
  if ptr =? 0 then user_malloc m w size
  else if size =? 0 then (0, user_free m ptr, w)
  else
    let old_header := ptr - sizeof_allocation_header in
    let '(new_ptr, m, w) := user_malloc m w size in
    if new_ptr =? 0 then (0, m, w)
    else
      let to_copy := if load64 m old_header <? size then load64 m old_header else size in
      (new_ptr, mem_write m new_ptr (mem_read m ptr (Z.to_nat to_copy)), w).

(** ** Output (src/libc/platform.c): a stdio function yields the strings it
    hands to [whrlibc_write] *)

Definition whrlibc_write (w : W) (s : list Z) : W := api_write w s.

Definition emit (w : W) (r : Z * list (list Z)) : W := fold_left whrlibc_write (snd r) w.
End Stdlib.
