(* ===== verification/Shell.v ===== *)
(** * The userspace shell (src/userspace/app/app.c)

    The editing state of the shell is the record [shell]; the world outside is
    [sh_world], used through [UserApi] only. C strings are the lists of their
    characters; cutting a token by storing a terminator is splitting the list.
    Characters are unsigned. The one unbounded loop, that of [cat], takes fuel. *)

From Stdlib Require Import String.
From S2P Require Import Prelude Fs Stdio UserApi.

Definition LINE_SIZE : Z := 128.
Definition HISTORY_SIZE : Z := 8.
Definition LOG_DUMP_MAX : Z := 4096.
Definition FS_LIST_MAX : Z := 32.
Definition FS_READ_CHUNK : Z := 1024.

Record named_color : Type := mk_named { nc_name : list Z; nc_red : Z; nc_green : Z; nc_blue : Z }.

Definition named_colors : list named_color := [
  mk_named (str "black") 0x00 0x00 0x00; mk_named (str "white") 0xff 0xff 0xff;
  mk_named (str "gray") 0x80 0x80 0x80; mk_named (str "red") 0xff 0x5c 0x5c;
  mk_named (str "green") 0x5c 0xff 0x5c; mk_named (str "yellow") 0xff 0xff 0x5c;
  mk_named (str "blue") 0x5c 0x5c 0xff; mk_named (str "magenta") 0xff 0x5c 0xff;
  mk_named (str "cyan") 0x5c 0xff 0xff; mk_named (str "whirl") 0x00 0x75 0x73 ].

(** [strcmp(a, b) == 0]. *)
Definition str_eq (a b : list Z) : bool := bool_decide (a = b).

(** ** Words of a command line *)

Definition is_space (ch : Z) : bool := (ch =? 32) || (ch =? 9) || (ch =? 13) || (ch =? 10).

Fixpoint skip_spaces (s : list Z) : list Z :=
  match s with
  | ch :: rest => if is_space ch then skip_spaces rest else s
  | [] => []
  end.

(** The string up to its first space, and the rest from that space on. *)
Fixpoint take_word (s : list Z) : list Z * list Z :=
  match s with
  | ch :: rest => if is_space ch then ([], s) else let '(w, r) := take_word rest in (ch :: w, r)
  | [] => ([], [])
  end.

(** [while (len > 0 && is_space(s[len - 1])) s[--len] = 0]. *)
Fixpoint trim_loop (n : nat) (s : list Z) : list Z :=
  match n with
  | O => s
  | S n => if is_space (nth n s 0) then trim_loop n (firstn n s) else s
  end.

Definition trim_right (s : list Z) : list Z := trim_loop (List.length s) s.

(** Cut off a word: the word, and the rest after the space that ended it. *)
Definition cut_word (s : list Z) : list Z * list Z :=
  let '(w, rest) := take_word s in
  (w, match rest with _ :: rest => rest | [] => [] end).

Definition split_command (input : list Z) : option (list Z * list Z) :=
  let input := trim_right (skip_spaces input) in
  match input with
  | [] => None
  | _ => let '(command, rest) := cut_word input in Some (command, skip_spaces rest)
  end.

Fixpoint decimal_loop (s : list Z) (value : Z) : option Z :=
  match s with
  | [] => Some value
  | ch :: s =>
      if (ch <? 48) || (57 <? ch) then None
      else
        let next := u64 (value * 10 + (ch - 48)) in
        if next <? value then None else decimal_loop s next
  end.

Definition parse_decimal_size (s : list Z) : option Z :=
  match s with [] => None | _ => decimal_loop s 0 end.

Fixpoint byte_loop (s : list Z) (value : Z) : option Z :=
  match s with
  | [] => Some value
  | ch :: s =>
      if (ch <? 48) || (57 <? ch) then None
      else
        let value := value * 10 + (ch - 48) in
        if 255 <? value then None else byte_loop s value
  end.

Definition parse_decimal_byte (s : list Z) : option Z :=
  match s with [] => None | _ => byte_loop s 0 end.

(** The colour and the arguments left, or [None]. *)
Definition parse_color_token (args : list Z) : option (Z * Z * Z * list Z) :=
  match args with
  | [] => None
  | _ =>
      let '(name, args) := cut_word args in
      let args := skip_spaces args in
      match List.find (fun c => str_eq name (nc_name c)) named_colors with
      | Some c => Some (nc_red c, nc_green c, nc_blue c, args)
      | None =>
          let '(green_token, args) := cut_word args in
          let args := skip_spaces args in
          let '(blue_token, args) := cut_word args in
          let args := skip_spaces args in
          match parse_decimal_byte name, parse_decimal_byte green_token, parse_decimal_byte blue_token with
          | Some r, Some g, Some b => Some (r, g, b, args)
          | _, _, _ => None
          end
      end
  end.

(** ** Numbers *)

Fixpoint dec_digits (fuel : nat) (value : Z) (acc : list Z) : list Z :=
  match fuel with
  | O => acc
  | S fuel =>
      let acc := (48 + value mod 10) :: acc in
      if value / 10 =? 0 then acc else dec_digits fuel (value / 10) acc
  end.

Definition hex_digit (d : Z) : Z := nth (Z.to_nat d) (str "0123456789abcdef") 0.

Fixpoint hex_digits (fuel : nat) (value : Z) (acc : list Z) : list Z :=
  match fuel with
  | O => acc
  | S fuel =>
      let acc := hex_digit (Z.land value 0xf) :: acc in
      if Z.shiftr value 4 =? 0 then acc else hex_digits fuel (Z.shiftr value 4) acc
  end.

Section Shell.
Context {W : Type} `{UserApi W}.

Definition say (w : W) (s : list Z) : W := emit w (fputs s).
Definition say_char (w : W) (ch : Z) : W := emit w (putchar ch).
Definition println (w : W) (s : list Z) : W := say_char (say w s) 10.

(** The buffer holds 20 digits and the terminator: enough for 64 bits. *)
Definition print_u64_dec (w : W) (value : Z) : W := say w (dec_digits 20 value []).
Definition print_u64_hex (w : W) (value : Z) : W := say (say w (str "0x")) (hex_digits 16 value []).
Definition print_bool (w : W) (value : Z) : W := say w (if negb (value =? 0) then str "yes" else str "no").

(** A labelled number: [fputs(label); print_u64_dec(value)]. *)
Definition say_dec (w : W) (label : string) (value : Z) : W := print_u64_dec (say w (str label)) value.
Definition say_hex (w : W) (label : string) (value : Z) : W := print_u64_hex (say w (str label)) value.
Definition say_bool (w : W) (label : string) (value : Z) : W := print_bool (say w (str label)) value.

Definition prompt (w : W) : W := say w (str "u> ").

(** ** Commands *)

Definition command_help (w : W) : W := fold_left println (map str [
  "commands:";
  "  help      show this command list";
  "  about     print userspace status";
  "  userspace print scheduler and address-space stats";
  "  apps      list filesystem userspace programs";
  "  run       run a filesystem userspace program";
  "  mem       print physical memory stats";
  "  kheap     print kernel heap stats";
  "  heap      test userspace malloc/sbrk";
  "  fb        print framebuffer info";
  "  log       print recent kernel log output";
  "  ticks     print timer state";
  "  fs        print filesystem status";
  "  pwd       print current directory";
  "  cd        change current directory";
  "  ls        list directory contents";
  "  cat       print a file";
  "  touch     create a file";
  "  mkdir     create a directory";
  "  rm        remove a file";
  "  rmdir     remove a directory if it's empty";
  "  truncate  resize a file";
  "  edit      edit a file";
  "  echo      print command arguments";
  "  color     set framebuffer text color";
  "  clear     clear the terminal";
  "  exit      return to the kernel shell"]%string) w.

Definition command_mem (w : W) : W :=
  let '(r, w) := api_memory_status w in
  match r with
  | None => println w (str "memory: syscall failed")
  | Some m =>
      let w := say_dec w "memory: total=" (ms_total_kib m) in
      let w := say_dec w " KiB free=" (ms_free_kib m) in
      let w := say_dec w " KiB used=" (ms_used_kib m) in
      say_char (say_hex w " KiB hhdm=" (ms_hhdm_offset m)) 10
  end.

Definition command_about (w : W) : W :=
  let w := fold_left println (map str [
    "userspace shell"; "  running in ring 3"; "  input: keyboard event syscall";
    "  output: console putchar syscall"; "  editing: backspace, ctrl-l, history up/down"]%string) w in
  let '(r, w) := api_timer_status w in
  let w := match r with
           | Some t =>
               let w := say_dec w "timer: ticks=" (ts_ticks t) in
               let w := say_dec w " frequency=" (ts_frequency_hz t) in
               println w (str " Hz")
           | None => w
           end in
  command_mem w.

Definition command_kheap (w : W) : W :=
  let '(r, w) := api_kernel_heap_status w in
  match r with
  | None => println w (str "kheap: syscall failed")
  | Some h =>
      let w := say_dec w "kheap: mapped=" (kh_mapped h) in
      let w := say_dec w " allocated=" (kh_allocated h) in
      let w := say_dec w " free=" (kh_free h) in
      say_char (say_bool w " valid=" (kh_valid h)) 10
  end.

Definition command_ticks (w : W) : W :=
  let '(r, w) := api_timer_status w in
  match r with
  | None => println w (str "ticks: syscall failed")
  | Some t =>
      let w := say_dec w "ticks: " (ts_ticks t) in
      let w := say_dec w " frequency=" (ts_frequency_hz t) in
      println w (str " Hz")
  end.

Definition command_framebuffer (w : W) : W :=
  let '(r, w) := api_framebuffer_status w in
  match r with
  | Some f =>
      if fs_available f =? 0 then println w (str "framebuffer: unavailable")
      else
        let w := say_dec w "framebuffer: " (fs_width f) in
        let w := say_dec w "x" (fs_height f) in
        let w := say_dec w " pitch=" (fs_pitch f) in
        let w := say_dec w " bpp=" (fs_bpp f) in
        say_char (say_hex w " addr=" (fs_address f)) 10
  | None => println w (str "framebuffer: unavailable")
  end.

Definition read_userspace_status (w : W) : option user_userspace_status * W :=
  let '(r, w) := api_userspace_status w in
  match r with
  | None => (None, println w (str "userspace: status syscall failed"))
  | Some st =>
      if negb (ut_abi_version st =? USERSPACE_STATUS_ABI_VERSION)
      then (None, println w (str "userspace: unsupported status abi"))
      else (Some st, w)
  end.

Definition command_userspace (w : W) : W :=
  let '(r, w) := read_userspace_status w in
  match r with
  | None => w
  | Some st =>
      let w := say_bool w "userspace: initialized=" (ut_initialized st) in
      let w := say_char (say_bool w " syscall-dispatch=" (ut_syscall_dispatch_ready st)) 10 in
      let w := say_bool w "userspace: scheduler=" (ut_scheduler_ready st) in
      let w := say_bool w " preemptive=" (ut_preemptive_enabled st) in
      let w := say_char (say_bool w " active=" (ut_user_task_active st)) 10 in
      let w := say_dec w "userspace: launches=" (ut_launches st) in
      let w := say_dec w " exits=" (ut_exits st) in
      let w := say_dec w " ticks=" (ut_scheduler_ticks st) in
      let w := say_char (say_dec w " apps=" (ut_app_count st)) 10 in
      let w := say_hex w "userspace: heap=" (ut_heap_start st) in
      let w := say_hex w "-" (ut_heap_current st) in
      say_char (say_hex w " limit=" (ut_heap_end st)) 10
  end.

Definition command_apps (w : W) : W :=
  let '(count, entries, w) := api_fs_list w (str "/bin") FS_LIST_MAX in
  if count <? 0 then println w (str "apps: cannot list /bin")
  else
    let w := say_char (say_dec w "apps: " (u64 count)) 10 in
    fold_left (fun w e =>
      let w := say (say w (str "  ")) (fd_name e) in
      say_char (say_dec w " size=" (fd_size e)) 10) (firstn (Z.to_nat count) entries) w.

Definition command_run (w : W) (args : list Z) : W :=
  match skip_spaces args with
  | [] => println w (str "usage: run <app-name|path>")
  | args =>
      let '(args, _) := take_word args in
      let name_len := Z.of_nat (List.length args) in
      let slash := existsb (fun ch => ch =? 47) args in
      if negb slash && (USER_FS_PATH_SIZE <? name_len + 6) then println w (str "run: name too long")
      else
        let path := if slash then args else str "/bin/" ++ args in
        let w := println (say (say w (str "running ")) args) (str "...") in
        let '(status, w) := api_app_run_path w path in
        if status <? 0 then say_char (say_dec w "run: syscall failed " (u64 (- status))) 10
        else say_char (say_dec w "run: exited with status " (u64 status)) 10
  end.

Definition command_heap (m : mem) (w : W) : mem * W :=
  let '(before, w) := read_userspace_status w in
  match before with
  | None => (m, w)
  | Some before =>
      let '(buffer, m, w) := user_malloc m w 32 in
      if buffer =? 0 then (m, println w (str "heap: malloc failed"))
      else
        let text := str "heap allocation ok" in
        let m := mem_write m buffer (text ++ [0]) in
        let w := println w (mem_read m buffer (List.length text)) in
        let '(after, w) := read_userspace_status w in
        match after with
        | None => (m, w)
        | Some after =>
            let w := say_hex w "heap: before=" (ut_heap_current before) in
            let w := say_char (say_hex w " after=" (ut_heap_current after)) 10 in
            (user_free m buffer, w)
        end
  end.

Definition command_log (w : W) (args : list Z) : W :=
  let '(r, w) := api_klog_status w in
  match r with
  | None => println w (str "log: status syscall failed")
  | Some status =>
      let args := skip_spaces args in
      let requested :=
        match args with
        | [] => Some 2048
        | _ => if str_eq args (str "all") then Some LOG_DUMP_MAX else parse_decimal_size args
        end in
      match requested with
      | None => println w (str "usage: log [bytes|all]")
      | Some requested =>
          let requested := if LOG_DUMP_MAX <? requested then LOG_DUMP_MAX else requested in
          let '(copied, log_dump, w) := api_klog_read w requested in
          if copied <? 0 then println w (str "log: read syscall failed")
          else
            let w := say_dec w "klog: showing " (u64 copied) in
            let w := say_dec w "/" (ks_size status) in
            let w := say_dec w " bytes, dropped=" (ks_dropped status) in
            let w := say_char (say_dec w " total=" (ks_total_written status)) 10 in
            let shown := firstn (Z.to_nat copied) log_dump in
            let w := fold_left say_char shown w in
            if (copied =? 0) || negb (List.last shown 0 =? 10) then say_char w 10 else w
      end
  end.

Definition command_fs (w : W) : W :=
  let '(r, w) := api_fs_status w in
  match r with
  | None => println w (str "fs: status syscall failed")
  | Some st =>
      if negb (us_abi_version st =? USER_FS_STATUS_ABI_VERSION) then println w (str "fs: status syscall failed")
      else if us_mounted st =? 0 then println w (str "fs: no rootfs mounted")
      else
        let w := say w (str "fs: ext2 mounted") in
        let w := match us_volume_name st with
                 | [] => w
                 | name => say (say w (str " volume=")) name
                 end in
        let w := say_char w 10 in
        let w := say_dec w "fs: block-size=" (us_block_size st) in
        let w := say_dec w " blocks=" (us_blocks st) in
        let w := say_char (say_dec w " free=" (us_free_blocks st)) 10 in
        let w := say_dec w "fs: inodes=" (us_inodes st) in
        say_char (say_dec w " free=" (us_free_inodes st)) 10
  end.

Definition command_pwd (w : W) : W :=
  let '(r, cwd_buffer, w) := api_fs_getcwd w USER_FS_PATH_SIZE in
  if negb (r =? 0) then println w (str "pwd: syscall failed") else println w cwd_buffer.

Definition command_cd (w : W) (args : list Z) : W :=
  let args := match skip_spaces args with [] => str "/" | args => args end in
  let '(r, w) := api_fs_chdir w args in
  if negb (r =? 0) then println (say w (str "cd: cannot enter ")) args else w.

Definition command_ls (w : W) (args : list Z) : W :=
  let args := match skip_spaces args with [] => str "." | args => args end in
  let '(count, entries, w) := api_fs_list w args FS_LIST_MAX in
  if count <? 0 then println (say w (str "ls: cannot read ")) args
  else
    fold_left (fun w e =>
      let w := say_char w (if fd_type e =? USER_FS_TYPE_DIR then 47 else 32) in
      let w := say w (fd_name e) in
      say_char (say_dec w "  " (fd_size e)) 10) (firstn (Z.to_nat count) entries) w.
Definition command_edit (w : W) (args : list Z) : W :=
  match skip_spaces args with
  | [] => println w (str "usage: edit <path> <text>")
  | args =>
      let '(path, args) := take_word args in
      match args with
      | [] => println w (str "usage: edit <path> <text>")
      | _ :: args =>
          let args := skip_spaces args in
          let len := Z.of_nat (List.length args) in
          let '(r, w) := api_fs_truncate w path len in
          if negb (r =? 0) then println (say w (str "edit: cannot resize ")) path
          else
            let '(written, w) := api_fs_write w path args 0 in
            if (written <? 0) || negb (written =? len) then println (say w (str "edit: cannot write ")) path
            else println w (str "edit: wrote file")
      end
  end.

(** The commands that apply one call to one path. *)
Definition path_command (call : W -> list Z -> Z * W) (usage failed done : string) (w : W) (args : list Z) : W :=
  match skip_spaces args with
  | [] => println w (str usage)
  | args =>
      let '(r, w) := call w args in
      if negb (r =? 0) then println (say w (str failed)) args else println w (str done)
  end.

Definition command_touch : W -> list Z -> W :=
  path_command api_fs_create "usage: touch <path>" "touch: cannot create " "touch: created file".

Definition command_mkdir : W -> list Z -> W :=
  path_command api_fs_mkdir "usage: mkdir <path>" "mkdir: cannot create " "mkdir: created directory".

Definition command_rm : W -> list Z -> W :=
  path_command api_fs_unlink "usage: rm <path>" "rm: cannot remove " "rm: removed file".

Definition command_rmdir : W -> list Z -> W :=
  path_command api_fs_rmdir "usage: rmdir <path>" "rmdir: cannot remove " "rmdir: removed directory".

Definition command_truncate (w : W) (args : list Z) : W :=
  match skip_spaces args with
  | [] => println w (str "usage: truncate <path> <size>")
  | args =>
      let '(path, args) := take_word args in
      match args with
      | [] => println w (str "usage: truncate <path> <size>")
      | _ :: args =>
          match parse_decimal_size (skip_spaces args) with
          | None => println w (str "usage: truncate <path> <size>")
          | Some size =>
              let '(r, w) := api_fs_truncate w path size in
              if negb (r =? 0) then println (say w (str "truncate: cannot resize ")) path
              else println w (str "truncate: resized file")
          end
      end
  end.

(** The loop of [command_cat]: [None] is a read that failed. *)
Fixpoint cat_loop (fuel : nat) (w : W) (path : list Z) (offset last : Z) : res (option (Z * Z) * W) :=
  match fuel with
  | O => NoFuel
  | S fuel =>
      let '(copied, buffer, w) := api_fs_read w path FS_READ_CHUNK offset in
      if copied <? 0 then Ret (None, w)
      else if copied =? 0 then Ret (Some (offset, last), w)
      else
        let shown := firstn (Z.to_nat copied) buffer in
        cat_loop fuel (fold_left say_char shown w) path (u64 (offset + copied)) (List.last shown last)
  end.

Definition command_cat (fuel : nat) (w : W) (args : list Z) : res W :=
  match skip_spaces args with
  | [] => Ret (println w (str "usage: cat <path>"))
  | args =>
      cat_loop fuel w args 0 0 ≫= fun '(r, w) =>
      Ret match r with
          | None => println (say w (str "cat: cannot read ")) args
          | Some (offset, last) =>
              if negb (offset =? 0) && negb (last =? 10) then say_char w 10 else w
          end
  end.

Definition command_colors (w : W) : W :=
  let w := say w (str "colors:") in
  let w := fold_left (fun w c => say (say_char w 32) (nc_name c)) named_colors w in
  let w := say_char w 10 in
  let w := println w (str "usage: color reset | color list | color <fg> [bg]") in
  println w (str "       color <r> <g> <b> [bg-r bg-g bg-b]").

Definition command_color (w : W) (args : list Z) : W :=
  let args := skip_spaces args in
  if str_eq args [] || str_eq args (str "list") then command_colors w
  else if str_eq args (str "reset") then println (api_reset_colors w) (str "framebuffer colors reset")
  else
    match parse_color_token args with
    | None => command_colors (println w (str "invalid color"))
    | Some (r, g, b, args) =>
        let w := api_set_color w r g b in
        match args with
        | [] => println w (str "framebuffer color updated")
        | _ =>
            match parse_color_token args with
            | None => command_colors (println w (str "invalid background color"))
            | Some (r, g, b, _) => println (api_set_background w r g b) (str "framebuffer color updated")
            end
        end
    end.

(** ** The line editor *)

(** The file-scope variables: the characters of [line] before [line_len], the
    used rows of [history], [history_cursor], and the program's memory. *)
Record shell : Type := mk_shell {
  sh_line : list Z;
  sh_history : list (list Z);
  sh_cursor : Z;
  sh_mem : mem;
  sh_world : W
}.

Definition with_line (s : shell) (line : list Z) (w : W) : shell :=
  mk_shell line (sh_history s) (sh_cursor s) (sh_mem s) w.

Definition with_history (s : shell) (history : list (list Z)) (cursor : Z) : shell :=
  mk_shell (sh_line s) history cursor (sh_mem s) (sh_world s).

Definition with_world (s : shell) (w : W) : shell := with_line s (sh_line s) w.

Definition rub_out : list Z := [8; 32; 8].

Definition clear_line (s : shell) : shell :=
  with_line s [] (loop_state (range_loop 0 (Z.of_nat (List.length (sh_line s))) 1 (fun _ w =>
                    Cont (say w rub_out)) (sh_world s))).

(** The line [text], echoed; what does not fit is dropped. *)
Definition set_line (s : shell) (text : list Z) : shell :=
  let s := clear_line s in
  let kept := firstn (Z.to_nat (LINE_SIZE - 1)) text in
  with_line s kept (fold_left say_char kept (sh_world s)).

Definition history_count (s : shell) : Z := Z.of_nat (List.length (sh_history s)).

Definition history_at (s : shell) (i : Z) : list Z := nth (Z.to_nat i) (sh_history s) [].

Definition push_history (s : shell) (text : list Z) : shell :=
  if str_eq text [] then s
  else if (0 <? history_count s) && str_eq (history_at s (history_count s - 1)) text
  then with_history s (sh_history s) (history_count s)
  else if history_count s <? HISTORY_SIZE
  then with_history s (sh_history s ++ [text]) (history_count s + 1)
  else
    let history := loop_state (range_loop 1 HISTORY_SIZE 1 (fun i h =>
                     Cont (<[Z.to_nat (i - 1) := nth (Z.to_nat i) h []]> h)) (sh_history s)) in
    with_history s (<[Z.to_nat (HISTORY_SIZE - 1) := text]> history) (history_count s).

Definition history_previous (s : shell) : shell :=
  if history_count s =? 0 then s
  else
    let cursor := if 0 <? sh_cursor s then sh_cursor s - 1 else sh_cursor s in
    set_line (with_history s (sh_history s) cursor) (history_at s cursor).

Definition history_next (s : shell) : shell :=
  if (history_count s =? 0) || (history_count s <=? sh_cursor s) then s
  else
    let cursor := sh_cursor s + 1 in
    let s := with_history s (sh_history s) cursor in
    if cursor =? history_count s then set_line s [] else set_line s (history_at s cursor).

(** ** Running a line *)

(** The commands whose name alone decides what they do to the world. *)
Definition dispatch (fuel : nat) (command args : list Z) (m : mem) (w : W) : res (bool * mem * W) :=
  let cmd name := str_eq command (str name) in
  let done w := Ret (false, m, w) in
  if cmd "help"%string then done (command_help w)
  else if cmd "about"%string then done (command_about w)
  else if cmd "mem"%string then done (command_mem w)
  else if cmd "kheap"%string then done (command_kheap w)
  else if cmd "userspace"%string then done (command_userspace w)
  else if cmd "apps"%string then done (command_apps w)
  else if cmd "run"%string then done (command_run w args)
  else if cmd "heap"%string then (let '(m, w) := command_heap m w in Ret (false, m, w))
  else if cmd "fb"%string then done (command_framebuffer w)
  else if cmd "log"%string then done (command_log w args)
  else if cmd "ticks"%string then done (command_ticks w)
  else if cmd "fs"%string then done (command_fs w)
  else if cmd "pwd"%string then done (command_pwd w)
  else if cmd "cd"%string then done (command_cd w args)
  else if cmd "ls"%string then done (command_ls w args)
  else if cmd "cat"%string then (command_cat fuel w args ≫= fun w => done w)
  else if cmd "touch"%string then done (command_touch w args)
  else if cmd "mkdir"%string then done (command_mkdir w args)
  else if cmd "rm"%string then done (command_rm w args)
  else if cmd "rmdir"%string then done (command_rmdir w args)
  else if cmd "truncate"%string then done (command_truncate w args)
  else if cmd "edit"%string then done (command_edit w args)
  else if cmd "clear"%string then done (api_clear w)
  else if cmd "color"%string then done (command_color w args)
  else if cmd "exit"%string then Ret (true, m, println w (str "leaving userspace shell"))
  else if cmd "echo"%string then done (println w args)
  else done (println (say w (str "unknown command: ")) command).

Definition run_command (fuel : nat) (s : shell) (input : list Z) : res (bool * shell) :=
  let input := trim_right (skip_spaces input) in
  match input with
  | [] => Ret (false, s)
  | _ =>
      let s := push_history s input in
      match split_command input with
      | None => Ret (false, s)
      | Some (command, args) =>
          dispatch fuel command args (sh_mem s) (sh_world s) ≫= fun '(r, m, w) =>
          Ret (r, mk_shell (sh_line s) (sh_history s) (sh_cursor s) m w)
      end
  end.

Definition handle_char (fuel : nat) (s : shell) (ch : Z) : res (bool * shell) :=
  if ch =? 8 then
    Ret (false, match sh_line s with
                | [] => s
                | _ => with_line s (removelast (sh_line s)) (say (sh_world s) rub_out)
                end)
  else if ch =? 10 then
    let command_line := sh_line s in
    let s := with_line s [] (say_char (sh_world s) 10) in
    run_command fuel s command_line ≫= fun '(r, s) =>
    if (r : bool) then Ret (true, s) else Ret (false, with_world s (prompt (sh_world s)))
  else if ch =? 3 then Ret (false, with_line s [] (prompt (println (sh_world s) (str "^C"))))
  else if ch =? 12 then
    let w := prompt (api_clear (sh_world s)) in
    Ret (false, with_world s (match sh_line s with [] => w | line => say w line end))
  else if (ch <? 32) || (LINE_SIZE <=? Z.of_nat (List.length (sh_line s)) + 1) then Ret (false, s)
  else Ret (false, with_line s (sh_line s ++ [ch]) (say_char (sh_world s) ch)).

Definition USER_KEYBOARD_KEY_ESCAPE : Z := 2.
Definition USER_KEYBOARD_KEY_UP : Z := 6.
Definition USER_KEYBOARD_KEY_DOWN : Z := 7.

Definition handle_event (fuel : nat) (s : shell) (event : user_input_event) : res (bool * shell) :=
  if negb (ie_ch event =? 0) then handle_char fuel s (ie_ch event)
  else
    Ret (false,
      if ie_key event =? USER_KEYBOARD_KEY_UP then history_previous s
      else if ie_key event =? USER_KEYBOARD_KEY_DOWN then history_next s
      else if ie_key event =? USER_KEYBOARD_KEY_ESCAPE then clear_line s
      else s).

(** The loop of [app_main] over the events that arrive: whether the shell has
    left, and its state when they are used up. *)
Fixpoint event_loop (fuel : nat) (s : shell) (events : list user_input_event) : res (bool * shell) :=
  match events with
  | [] => Ret (false, s)
  | e :: events =>
      handle_event fuel s e ≫= fun '(leave, s) =>
      if (leave : bool) then Ret (true, s) else event_loop fuel s events
  end.

Definition shell_start (m : mem) (w : W) : shell :=
  mk_shell [] [] 0 m (prompt (println w (str "userspace shell ready"))).

Definition app_main (fuel : nat) (m : mem) (w : W) (events : list user_input_event) : res (bool * shell) :=
  event_loop fuel (shell_start m w) events.
End Shell.
Arguments shell W : clear implicits.
