(* ===== verification/ShellProofs.v ===== *)
(** * The userspace shell: what is on the screen is what will be executed

    The laws of [ConsoleApi] say what the shell relies on of the system calls:
    the screen is the text grid of TextGrid.v, output is printed on it as the
    framebuffer console prints, clearing empties it, the other calls leave its
    characters alone. Under them the row of the cursor reads as the prompt
    followed by the line being edited as long as the two fit in a row, and the
    buffers of the shell are within their bounds whatever is typed. A longer line
    is broken by the console, and a backspace does not go back over the break
    (framebuffer.c), so that the row shows something else until the next Enter,
    Ctrl-C or Ctrl-L. *)

From Stdlib Require Import String.
From S2P Require Import Prelude Fs Stdio UserApi Framebuffer TextGrid Shell.

(** ** The row of the cursor *)

(** The cursor is in the grid and the rows below it are blank. *)
Definition text_fine (rows cols : Z) (t : text) : Prop :=
  0 <= tx_row t < rows /\ 0 <= tx_col t < cols
  /\ forall row col, tx_row t < row -> ce_ch (tx_cells t row col) = 32.

(** The row of the cursor reads [s], the cursor is just right of it, and the
    rest of the row is blank. *)
Definition row_reads (cols : Z) (t : text) (s : list Z) : Prop :=
  tx_col t = Z.of_nat (List.length s)
  /\ forall col, 0 <= col < cols -> ce_ch (tx_cells t (tx_row t) col) = nth (Z.to_nat col) s 32.

Definition printable (ch : Z) : Prop := 32 <= ch < 256.

Section Grid.
Context (rows cols : Z).
Hypothesis Hgrid : 0 < rows /\ 0 < cols.

Abbreviation fine := (text_fine rows cols).
Abbreviation reads := (row_reads cols).

Lemma newline_fine t : fine t -> fine (text_newline rows t) /\ reads (text_newline rows t) [].
Proof.
  intros (Hr & Hc & Hb). unfold text_newline. destruct (Z.ltb_spec (tx_row t + 1) rows).
  - split; [split_and!; cbn; try lia; intros; apply Hb; lia|]. split; [reflexivity|]. intros col _. cbn.
    rewrite Hb by lia. destruct (Z.to_nat col); reflexivity.
  - split; [split_and!; cbn; try lia; intros row col Hrow|].
    + destruct (_ =? _); [reflexivity|]. apply Hb. lia.
    + split; [reflexivity|]. intros col _. cbn. rewrite Z.eqb_refl. destruct (Z.to_nat col); reflexivity.
Qed.

Lemma set_fine t row col cell : row <= tx_row t -> fine t -> fine (text_set t row col cell).
Proof.
  intros Hrow (Hr & Hc & Hb). split_and!; cbn; try lia. intros r k Hrk. unfold put_cell.
  destruct (Z.eqb_spec r row); [lia|]. apply Hb, Hrk.
Qed.

Lemma print_fine t ch : fine t -> fine (text_print rows cols t ch).
Proof.
  intros Ht. pose proof (set_fine t (tx_row t) (tx_col t) (mk_cell ch (tx_fg t) (tx_bg t)) ltac:(lia) Ht) as Hs.
  unfold text_print. destruct (Z.ltb_spec (tx_col t + 1) cols); [|apply newline_fine, Hs].
  destruct Ht as (Hr & Hc & _). destruct Hs as (_ & _ & Hb). split_and!; cbn in *; try lia. exact Hb.
Qed.

Lemma plain_fine t ch : fine t -> fine (text_plain rows cols t ch).
Proof.
  intros Ht. pose proof Ht as (Hr & Hc & Hb). unfold text_plain. destruct (_ =? 10); [apply newline_fine, Ht|].
  destruct (_ =? 13); [split_and!; cbn; auto; lia|]. destruct (_ =? 8).
  - destruct (Z.ltb_spec 0 (tx_col t)); [|exact Ht]. apply set_fine; [cbn; lia|]. split_and!; cbn; auto; lia.
  - destruct (_ <? _); [exact Ht | apply print_fine, Ht].
Qed.

Lemma put_fine t ch t' : fine t -> text_put rows cols t ch = Some t' -> fine t'.
Proof.
  intros Ht. unfold text_put. destruct (_ =? 9); [|intros [= <-]; apply plain_fine, Ht]. cbv zeta.
  destruct (_ <? _); [|discriminate]. intros [= <-]. generalize (Z.to_nat (tab_stop (tx_col t) - tx_col t)) as n.
  intros n. revert t Ht. induction n as [|n IH]; intros t Ht; [exact Ht | apply IH, print_fine, Ht].
Qed.

(** Whatever is printed, the rows below the cursor stay blank. *)
Lemma write_fine s : forall t t', fine t -> text_write rows cols t s = Some t' -> fine t'.
Proof.
  induction s as [|ch s IH]; intros t t' Ht; cbn [text_write]; [intros [= <-]; exact Ht|].
  destruct (text_put rows cols t ch) as [t1|] eqn:E; [|discriminate]. exact (IH _ _ (put_fine _ _ _ Ht E)).
Qed.

Lemma text_write_app a b : forall t,
  text_write rows cols t (a ++ b) = t ← text_write rows cols t a; text_write rows cols t b.
Proof.
  induction a as [|ch a IH]; intros t; cbn [app text_write]; [reflexivity|].
  destruct (text_put rows cols t ch); [apply IH | reflexivity].
Qed.

Lemma put_plain t ch : ch <> 9 -> text_put rows cols t ch = Some (text_plain rows cols t ch).
Proof. intros Hc. unfold text_put. destruct (Z.eqb_spec ch 9); [contradiction | reflexivity]. Qed.

Lemma reads_put t s ch :
  printable ch -> Z.of_nat (List.length s) + 1 < cols -> reads t s ->
  exists t', text_put rows cols t ch = Some t' /\ reads t' (s ++ [ch]).
Proof.
  intros Hp Hl (Hc & Hs). unfold printable in Hp. rewrite put_plain by lia. eexists. split; [reflexivity|].
  unfold text_plain. destruct (Z.eqb_spec ch 10), (Z.eqb_spec ch 13), (Z.eqb_spec ch 8), (Z.ltb_spec ch 32); try lia.
  unfold text_print. destruct (Z.ltb_spec (tx_col t + 1) cols); [|lia]. split; [cbn; rewrite length_app; cbn; lia|].
  intros col Hcol. cbn. unfold put_cell. rewrite Z.eqb_refl. cbn [andb]. destruct (Z.eqb_spec col (tx_col t)) as [->|Hne].
  - rewrite Hc, Nat2Z.id, nth_middle. reflexivity.
  - rewrite Hs by exact Hcol. destruct (Nat.lt_ge_cases (Z.to_nat col) (List.length s)).
    + rewrite app_nth1 by assumption. reflexivity.
    + rewrite !nth_overflow; [reflexivity | rewrite length_app; cbn; lia | lia].
Qed.

Lemma reads_write s : List.Forall printable s -> forall t a,
  Z.of_nat (List.length (a ++ s)) < cols -> reads t a ->
  exists t', text_write rows cols t s = Some t' /\ reads t' (a ++ s).
Proof.
  induction 1 as [|ch s Hc Hs IH]; intros t a Hl Ha; cbn [text_write]; [rewrite app_nil_r; eauto|].
  rewrite length_app in Hl. cbn [List.length] in Hl.
  destruct (reads_put t a ch Hc ltac:(lia) Ha) as (t1 & -> & Ht1).
  destruct (IH t1 (a ++ [ch])) as (t2 & E & Ht2); [rewrite !length_app; cbn; lia | exact Ht1|].
  rewrite <- app_assoc in Ht2. eauto.
Qed.

Lemma reads_back t s a :
  reads t (s ++ [a]) -> exists t', text_put rows cols t 8 = Some t' /\ reads t' s.
Proof.
  intros (Hc & Hs). rewrite length_app in Hc. cbn [List.length] in Hc. rewrite put_plain by lia.
  eexists. split; [reflexivity|]. unfold text_plain. cbn [Z.eqb Pos.eqb].
  destruct (Z.ltb_spec 0 (tx_col t)); [|lia]. split; [cbn; lia|]. intros col Hcol. cbn. unfold put_cell.
  rewrite Z.eqb_refl. cbn [andb]. destruct (Z.eqb_spec col (tx_col t - 1)) as [->|Hne].
  - rewrite nth_overflow by lia. reflexivity.
  - rewrite Hs by exact Hcol. destruct (Nat.lt_ge_cases (Z.to_nat col) (List.length s)).
    + rewrite app_nth1 by assumption. reflexivity.
    + rewrite !nth_overflow; [reflexivity | lia | rewrite length_app; cbn; lia].
Qed.

Lemma reads_rub_out t s a :
  fine t -> reads t (s ++ [a]) -> exists t', text_write rows cols t rub_out = Some t' /\ reads t' s.
Proof.
  intros (_ & Hb & _) Ht. assert (Hl : Z.of_nat (List.length s) + 1 < cols).
  { destruct Ht as [Hc _]. rewrite length_app in Hc. cbn [List.length] in Hc. lia. }
  unfold rub_out. cbn [text_write]. destruct (reads_back t s a Ht) as (t1 & -> & H1').
  destruct (reads_put t1 s 32 ltac:(unfold printable; lia) Hl H1') as (t2 & -> & H2').
  destruct (reads_back t2 s 32 H2') as (t3 & -> & H3'). eauto.
Qed.
End Grid.

(** The calls that do not print. *)
Inductive quiet_call {W} `{UserApi W} (w : W) : W -> Prop :=
  | quiet_color r g b : quiet_call w (api_set_color w r g b)
  | quiet_background r g b : quiet_call w (api_set_background w r g b)
  | quiet_reset : quiet_call w (api_reset_colors w)
  | quiet_memory : quiet_call w (snd (api_memory_status w))
  | quiet_userspace : quiet_call w (snd (api_userspace_status w))
  | quiet_klog : quiet_call w (snd (api_klog_status w))
  | quiet_timer : quiet_call w (snd (api_timer_status w))
  | quiet_framebuffer : quiet_call w (snd (api_framebuffer_status w))
  | quiet_heap : quiet_call w (snd (api_kernel_heap_status w))
  | quiet_fs : quiet_call w (snd (api_fs_status w))
  | quiet_klog_read n : quiet_call w (snd (api_klog_read w n))
  | quiet_list p n : quiet_call w (snd (api_fs_list w p n))
  | quiet_read p n o : quiet_call w (snd (api_fs_read w p n o))
  | quiet_getcwd n : quiet_call w (snd (api_fs_getcwd w n))
  | quiet_chdir p : quiet_call w (snd (api_fs_chdir w p))
  | quiet_write p b o : quiet_call w (snd (api_fs_write w p b o))
  | quiet_create p : quiet_call w (snd (api_fs_create w p))
  | quiet_mkdir p : quiet_call w (snd (api_fs_mkdir w p))
  | quiet_unlink p : quiet_call w (snd (api_fs_unlink w p))
  | quiet_rmdir p : quiet_call w (snd (api_fs_rmdir w p))
  | quiet_truncate p n : quiet_call w (snd (api_fs_truncate w p n))
  | quiet_sbrk n : quiet_call w (snd (api_sbrk w n)).

(** The size of a file is a 32-bit field of its inode. *)
Definition MAX_FILE_SIZE : Z := 4294967296.

Definition recolor (fg bg : Z) (t : text) : text := mk_text (tx_cells t) (tx_col t) (tx_row t) fg bg.

(** [screen w]: the text grid that the console shows, of [screen_rows] by
    [screen_cols] characters; [None] once the console has stopped to answer (a
    tab whose stop is not before the last column, see TextGrid.v). *)
Class ConsoleApi (W : Type) `{UserApi W} : Type := {
  screen_rows : Z;
  screen_cols : Z;
  screen_grid : 0 < screen_rows /\ 0 < screen_cols;
  screen : W -> option text;
  screen_fine w t : screen w = Some t -> text_fine screen_rows screen_cols t;
  screen_write w s : screen (api_write w s) = t ← screen w; text_write screen_rows screen_cols t s;
  screen_clear w : exists fg bg, screen (api_clear w) = (fun _ => text_clear fg bg) <$> screen w;
  screen_quiet w w' : quiet_call w w' -> exists fg bg, screen w' = recolor fg bg <$> screen w;
  read_bound w path n offset : 0 <= n -> fst (fst (api_fs_read w path n offset)) <= n;
  read_past_end w path n offset : MAX_FILE_SIZE <= offset -> fst (fst (api_fs_read w path n offset)) <= 0
}.

Section Proofs.
Context {W : Type} `{ConsoleApi W}.

(** As long as the console answers, the row of the cursor reads [s]. *)
Definition shows (w : W) (s : list Z) : Prop := forall t, screen w = Some t -> row_reads screen_cols t s.

(** The cursor is at the start of a blank row. *)
Definition fresh (w : W) : Prop := shows w [].

Lemma screen_say w s : screen (say w s) = t ← screen w; text_write screen_rows screen_cols t s.
Proof. unfold say, emit. cbn. unfold whrlibc_write. apply screen_write. Qed.

Lemma screen_say_char w ch :
  0 <= ch < 256 -> screen (say_char w ch) = t ← screen w; text_put screen_rows screen_cols t ch.
Proof.
  intros Hc. unfold say_char, emit, putchar. cbn [fst snd fold_left]. unfold whrlibc_write.
  rewrite screen_write, u8_id by exact Hc. destruct (screen w); [|reflexivity]. cbn.
  destruct (text_put _ _ _ _); reflexivity.
Qed.

Lemma fresh_newline w : fresh (say_char w 10).
Proof.
  intros t. rewrite screen_say_char by lia. destruct (screen w) as [t0|] eqn:E; [|discriminate]. cbn. intros [= <-].
  apply newline_fine, (screen_fine w t0 E). exact screen_grid.
Qed.

Lemma fresh_println w s : fresh (println w s).
Proof. apply fresh_newline. Qed.

Lemma fresh_clear w : fresh (api_clear w).
Proof.
  intros t. destruct (screen_clear w) as (fg & bg & ->). destruct (screen w); [|discriminate]. intros [= <-].
  split; [reflexivity|]. intros col _. cbn. destruct (Z.to_nat col); reflexivity.
Qed.

Lemma shows_quiet w w' s : quiet_call w w' -> shows w s -> shows w' s.
Proof.
  intros Hq Hw t. destruct (screen_quiet w w' Hq) as (fg & bg & ->). destruct (screen w) as [t0|] eqn:E; [|discriminate].
  intros [= <-]. exact (Hw t0 E).
Qed.

Lemma fresh_lines (l : list (list Z)) : forall w, fresh w -> fresh (fold_left println l w).
Proof. induction l as [|a l IH]; intros w Hw; [exact Hw|]. apply IH, fresh_println. Qed.

Lemma fresh_quiet w w' : quiet_call w w' -> fresh w -> fresh w'.
Proof. apply shows_quiet. Qed.
End Proofs.

Create HintDb shell.
#[export] Hint Resolve fresh_println fresh_newline fresh_clear fresh_lines : shell.
#[export] Hint Constructors quiet_call : shell.

(** Split the matches of the goal, then close by the row of the last print. *)
Ltac fresh_cases :=
  cbv zeta; repeat (case_goal; cbv zeta); auto with shell.

Section Commands.
Context {W : Type} `{ConsoleApi W}.

Lemma fresh_entries (f : W -> user_fs_dirent -> W) l :
  (forall w e, fresh (f w e)) -> forall w, fresh w -> fresh (fold_left f l w).
Proof. intros Hf. induction l as [|e l IH]; intros w Hw; [exact Hw|]. apply IH, Hf. Qed.

Lemma fresh_path_command call usage failed done w args : fresh (path_command (W:=W) call usage failed done w args).
Proof. unfold path_command. fresh_cases. Qed.

Lemma fresh_cd w args : fresh w -> fresh (command_cd w args).
Proof.
  intros Hw. unfold command_cd. set (a := match skip_spaces args with [] => _ | _ => _ end).
  pose proof (fresh_quiet w _ (quiet_chdir w a) Hw) as Hq.
  destruct (api_fs_chdir w a) as [r w']. fresh_cases.
Qed.

Lemma fresh_ls w args : fresh w -> fresh (command_ls w args).
Proof.
  intros Hw. unfold command_ls. set (a := match skip_spaces args with [] => _ | _ => _ end).
  pose proof (fresh_quiet w _ (quiet_list w a FS_LIST_MAX) Hw) as Hq.
  destruct (api_fs_list w a FS_LIST_MAX) as [[count entries] w']. cbn [snd] in Hq.
  destruct (count <? 0); [auto with shell|]. apply fresh_entries; [intros; apply fresh_newline | exact Hq].
Qed.

Lemma fresh_command_mem w : fresh (command_mem w).
Proof. unfold command_mem. fresh_cases. Qed.

Lemma fresh_no_status w w' : read_userspace_status w = (None, w') -> fresh w'.
Proof.
  unfold read_userspace_status. destruct (api_userspace_status w) as [[st|] w1]; [destruct (negb _)|];
    intros [= <-]; apply fresh_println.
Qed.

Lemma fresh_command_heap m w : fresh (snd (command_heap m w)).
Proof.
  unfold command_heap. destruct (read_userspace_status w) as [[st|] w1] eqn:E1; [|exact (fresh_no_status _ _ E1)].
  destruct (user_malloc m w1 32) as [[b m1] w2]. destruct (b =? 0); [apply fresh_println|]. cbv zeta.
  destruct (read_userspace_status (println w2 _)) as [[st2|] w3] eqn:E2; [|exact (fresh_no_status _ _ E2)].
  apply fresh_newline.
Qed.

Lemma fresh_command_userspace w : fresh w -> fresh (command_userspace w).
Proof.
  intros Hw. unfold command_userspace. destruct (read_userspace_status w) as [[st|] w1] eqn:E1; [|exact (fresh_no_status _ _ E1)].
  apply fresh_newline.
Qed.

Lemma fresh_command_apps w : fresh (command_apps w).
Proof.
  unfold command_apps. destruct (api_fs_list w _ _) as [[count entries] w1].
  destruct (count <? 0); [auto with shell|]. apply fresh_entries; [intros; apply fresh_newline | apply fresh_newline].
Qed.

Lemma fresh_chars l w : List.last l 0 = 10 -> fresh (fold_left say_char l w).
Proof.
  destruct (last_cases l) as [->|(a & l' & ->)]; [discriminate|]. rewrite List.last_last. intros ->.
  rewrite fold_left_app. apply fresh_newline.
Qed.

Lemma fresh_command_log w args : fresh (command_log w args).
Proof.
  unfold command_log. destruct (api_klog_status w) as [[st|] w1]; [|auto with shell].
  cbv zeta. destruct (match skip_spaces args with [] => _ | _ => _ end) as [n|]; [|auto with shell].
  destruct (api_klog_read w1 _) as [[copied dump] w2]. destruct (copied <? 0); [auto with shell|].
  destruct (_ || negb (List.last _ 0 =? 10)) eqn:E; [apply fresh_newline|]. b2p.
  apply fresh_chars. assumption.
Qed.

Lemma fresh_command_color w args : fresh (command_color w args).
Proof. unfold command_color, command_colors. fresh_cases. Qed.

(** What the loop of [cat] knows of the row. *)
Definition cat_row (w : W) (offset last : Z) : Prop :=
  0 <= offset /\ (offset = 0 -> fresh w) /\ (last = 10 -> fresh w).

Lemma cat_loop_row path fuel : forall w offset last r w',
  offset + Z.of_nat fuel * FS_READ_CHUNK < 18446744073709551616 -> cat_row w offset last ->
  cat_loop fuel w path offset last = Ret (r, w') ->
  match r with Some (offset', last') => cat_row w' offset' last' | None => True end.
Proof.
  unfold FS_READ_CHUNK. induction fuel as [|fuel IH]; intros w offset last r w' Hf Hrow; cbn [cat_loop]; [discriminate|].
  pose proof (fresh_quiet w _ (quiet_read w path FS_READ_CHUNK offset)) as Hq.
  pose proof (read_bound w path FS_READ_CHUNK offset ltac:(unfold FS_READ_CHUNK; lia)) as Hb. unfold FS_READ_CHUNK in *.
  destruct (api_fs_read w path 1024 offset) as [[copied buffer] w1]. cbn [fst snd] in *.
  destruct Hrow as (Hr0 & Hr1 & Hr2).
  destruct (Z.ltb_spec copied 0); [intros [= <- <-]; exact I|].
  destruct (Z.eqb_spec copied 0) as [->|]; [intros [= <- <-]; refine (conj Hr0 (conj _ _)); auto|].
  rewrite u64_id by (unfold is_u64; lia).
  apply IH; [lia|]. refine (conj _ (conj _ _)); [lia | lia |]. intros Hl.
  destruct (last_cases (firstn (Z.to_nat copied) buffer)) as [E|(a & l & E)]; rewrite E in *.
  - cbn in *. auto.
  - rewrite List.last_last in Hl. apply fresh_chars. rewrite List.last_last. exact Hl.
Qed.

(** Enough fuel for [cat]: a turn for every byte a file can have, and so little
    that the offset cannot wrap. *)
Definition cat_fuel_ok (fuel : nat) : Prop :=
  MAX_FILE_SIZE < Z.of_nat fuel /\ Z.of_nat fuel * FS_READ_CHUNK < 18446744073709551616.

Lemma cat_loop_total path fuel : forall w offset last,
  0 <= offset -> 1 <= Z.of_nat fuel -> MAX_FILE_SIZE + 1 - offset <= Z.of_nat fuel ->
  offset + Z.of_nat fuel * FS_READ_CHUNK < 18446744073709551616 ->
  exists r w', cat_loop fuel w path offset last = Ret (r, w').
Proof.
  unfold FS_READ_CHUNK. induction fuel as [|fuel IH]; intros w offset last H0' H1' H2' H3'; [lia|]. cbn [cat_loop].
  pose proof (read_bound w path 1024 offset ltac:(lia)) as Hb. pose proof (read_past_end w path 1024 offset) as He.
  unfold FS_READ_CHUNK. destruct (api_fs_read w path 1024 offset) as [[copied buffer] w1]. cbn [fst snd] in *.
  destruct (Z.ltb_spec copied 0); [eauto|]. destruct (Z.eqb_spec copied 0); [eauto|].
  destruct (Z.leb_spec MAX_FILE_SIZE offset) as [Hpast|Hin]; [specialize (He Hpast); lia|].
  rewrite u64_id by (unfold is_u64; lia). apply IH; lia.
Qed.

Lemma command_cat_total fuel w args : cat_fuel_ok fuel -> exists w', command_cat fuel w args = Ret w'.
Proof.
  intros [Hf1 Hf2]. unfold command_cat. destruct (skip_spaces args) as [|a rest]; [eauto|].
  unfold MAX_FILE_SIZE in Hf1.
  destruct (cat_loop_total (a :: rest) fuel w 0 0) as (r & w' & ->); try (unfold MAX_FILE_SIZE; lia). cbn [mbind res_bind]. eauto.
Qed.

Lemma dispatch_total fuel command args m w : cat_fuel_ok fuel -> exists r, dispatch fuel command args m w = Ret r.
Proof.
  intros Hf. unfold dispatch. cbv beta zeta. destruct (command_cat_total fuel w args Hf) as (w' & ->).
  repeat match goal with |- context [if str_eq command ?x then _ else _] => destruct (str_eq command x) end;
    try destruct (command_heap m w); eauto.
Qed.

Lemma run_command_total fuel (s : shell W) input : cat_fuel_ok fuel -> exists r, run_command fuel s input = Ret r.
Proof.
  intros Hf. unfold run_command. destruct (trim_right (skip_spaces input)) as [|a rest]; [eauto|]. cbv zeta.
  destruct (split_command (a :: rest)) as [[command args]|]; [|eauto].
  set (s1 := push_history s (a :: rest)).
  destruct (dispatch_total fuel command args (sh_mem s1) (sh_world s1) Hf) as ([[r m] w] & ->). cbn [mbind res_bind]. eauto.
Qed.

Lemma handle_event_total fuel (s : shell W) e : cat_fuel_ok fuel -> exists r, handle_event fuel s e = Ret r.
Proof.
  intros Hf. unfold handle_event, handle_char. destruct (negb _); [|eauto].
  destruct (_ =? 8); [eauto|]. destruct (_ =? 10).
  { destruct (run_command_total fuel (with_line s [] (say_char (sh_world s) 10)) (sh_line s) Hf) as ([[] s1] & ->);
      cbn [mbind res_bind]; eauto. }
  destruct (_ =? 3); [eauto|]. destruct (_ =? 12); [eauto|]. destruct (_ || _); eauto.
Qed.

Lemma event_loop_total fuel events : cat_fuel_ok fuel -> forall s : shell W, exists r, event_loop fuel s events = Ret r.
Proof.
  intros Hf. induction events as [|e events IH]; intros s; cbn [event_loop]; [eauto|].
  destruct (handle_event_total fuel s e Hf) as ([leave s1] & ->). cbn [mbind res_bind]. destruct leave; eauto.
Qed.

Lemma fresh_cat fuel w args w' :
  Z.of_nat fuel * FS_READ_CHUNK < 18446744073709551616 -> fresh w ->
  command_cat fuel w args = Ret w' -> fresh w'.
Proof.
  intros Hf Hw. unfold command_cat. destruct (skip_spaces args) as [|a rest]; [intros [= <-]; apply fresh_println|].
  destruct (cat_loop fuel w (a :: rest) 0 0) as [[r w1]| |] eqn:E; [|discriminate|discriminate].
  cbn [mbind res_bind]. pose proof (cat_loop_row _ _ _ 0 0 _ _ Hf (conj (Z.le_refl 0) (conj (fun _ => Hw) (fun _ => Hw))) E) as Hr.
  destruct r as [[offset last]|]; [|intros [= <-]; apply fresh_println].
  destruct Hr as (_ & H1 & H2).
  destruct (Z.eqb_spec offset 0), (Z.eqb_spec last 10); cbn [negb andb]; intros [= <-]; auto using fresh_newline.
Qed.

(** Whatever a command does, it leaves the cursor at the start of a row. *)
Lemma fresh_dispatch fuel command args m w r m' w' :
  Z.of_nat fuel * FS_READ_CHUNK < 18446744073709551616 -> fresh w ->
  dispatch fuel command args m w = Ret (r, m', w') -> fresh w'.
Proof.
  intros Hf Hw. unfold dispatch. cbv beta zeta. pose proof (fresh_command_heap m w) as Hheap.
  repeat match goal with
  | |- context [if str_eq command ?x then _ else _] => destruct (str_eq command x)
  end.
  16: destruct (command_cat fuel w args) as [w1| |] eqn:E; cbn [mbind res_bind]; [|discriminate|discriminate];
    intros Er; inversion Er; subst; exact (fresh_cat _ _ _ _ Hf Hw E).
  8: destruct (command_heap m w) as [m1 w1]; intros Er; inversion Er; subst; exact Hheap.
  all: intros Er; inversion Er; subst; auto using fresh_command_mem, fresh_command_apps, fresh_command_log,
    fresh_command_color, fresh_cd, fresh_ls, fresh_path_command, fresh_command_userspace with shell.
  all: unfold command_help, command_about, command_kheap, command_run, command_framebuffer, command_ticks,
    command_fs, command_pwd, command_truncate, command_edit, command_touch, command_mkdir, command_rm, command_rmdir.
  all: try apply fresh_path_command; fresh_cases; auto using fresh_command_mem.
Qed.
End Commands.

(** ** The line on the screen *)

Section Editor.
Context {W : Type} `{ConsoleApi W}.

(** The prompt and the line are shorter than a row. *)
Definition fits (line : list Z) : Prop := 3 + Z.of_nat (List.length line) < screen_cols.

(** The row of the cursor is the prompt and [line]; the rest of it is blank. *)
Definition shows_line (w : W) (line : list Z) : Prop := shows w (str "u> " ++ line).

Lemma shows_say w a s :
  List.Forall printable s -> Z.of_nat (List.length (a ++ s)) < screen_cols -> shows w a -> shows (say w s) (a ++ s).
Proof.
  intros Hs Hl Hw t. rewrite screen_say. destruct (screen w) as [t0|] eqn:E; [|discriminate]. cbn.
  destruct (reads_write screen_rows screen_cols s Hs t0 a Hl (Hw t0 E)) as (t' & -> & Ht'). intros [= <-]. exact Ht'.
Qed.

Lemma shows_prompt w : fits [] -> fresh w -> shows_line (prompt w) [].
Proof.
  intros Hl Hw. apply (shows_say w [] (str "u> ")); [|exact Hl | exact Hw].
  change (List.Forall printable [117; 62; 32]). unfold printable. repeat (apply List.Forall_cons; [lia|]). apply List.Forall_nil.
Qed.

Lemma shows_say_line w line s :
  List.Forall printable s -> fits (line ++ s) -> shows_line w line -> shows_line (say w s) (line ++ s).
Proof.
  intros Hs Hl Hw. unfold shows_line. rewrite app_assoc. apply shows_say; [exact Hs | | exact Hw].
  rewrite <- app_assoc, length_app, Nat2Z.inj_add. exact Hl.
Qed.

Lemma shows_say_char w line ch :
  printable ch -> fits (line ++ [ch]) -> shows_line w line -> shows_line (say_char w ch) (line ++ [ch]).
Proof.
  intros Hc Hl Hw. replace (say_char w ch) with (say w [ch]); [apply shows_say_line; [constructor; auto | exact Hl | exact Hw]|].
  unfold say_char, say, emit, putchar, fputs. cbn [snd fold_left]. rewrite u8_id by (unfold printable in Hc; unfold is_byte; lia).
  reflexivity.
Qed.

Lemma fits_less a b : fits (a ++ b) -> fits a.
Proof. unfold fits. rewrite length_app. lia. Qed.

Lemma shows_say_chars s : List.Forall printable s -> forall w line,
  fits (line ++ s) -> shows_line w line -> shows_line (fold_left say_char s w) (line ++ s).
Proof.
  induction 1 as [|ch s Hc Hs IH]; intros w line Hl Hw; cbn [fold_left]; [rewrite app_nil_r; exact Hw|].
  replace (line ++ ch :: s) with ((line ++ [ch]) ++ s) in * by (rewrite <- app_assoc; reflexivity).
  apply IH, shows_say_char; eauto using fits_less.
Qed.

Lemma shows_rub_out w line a : shows_line w (line ++ [a]) -> shows_line (say w rub_out) line.
Proof.
  intros Hw t. rewrite screen_say. destruct (screen w) as [t0|] eqn:E; [|discriminate]. cbn [mbind option_bind].
  pose proof (Hw t0 E) as Ht. rewrite app_assoc in Ht.
  destruct (reads_rub_out screen_rows screen_cols t0 _ a (screen_fine w t0 E) Ht) as (t' & -> & Ht'). intros [= <-]. exact Ht'.
Qed.

Lemma shows_clear_line s : shows_line (sh_world s) (sh_line s) -> shows_line (sh_world (clear_line s)) [].
Proof.
  intros Hs. unfold clear_line. cbn [sh_world with_line].
  apply (range_loop_ind (fun k w => shows_line w (firstn (List.length (sh_line s) - Z.to_nat k) (sh_line s)))
           (fun r : ctl W W => shows_line (loop_state r) [])); [lia | | |].
  - rewrite Nat.sub_0_r, firstn_all. exact Hs.
  - intros k w Hk Hw. set (n := (List.length (sh_line s) - Z.to_nat (k + 1))%nat).
    replace (List.length (sh_line s) - Z.to_nat k)%nat with (n + 1)%nat in Hw by (unfold n; lia).
    assert (Hn : (n < List.length (sh_line s))%nat) by (unfold n; lia).
    destruct (nth_split (sh_line s) 0 Hn) as (l1 & l2 & E & El). rewrite E in Hw |- *.
    rewrite <- El in Hw |- *. rewrite firstn_app, firstn_all, Nat.sub_diag, app_nil_r.
    rewrite firstn_app, firstn_all2 in Hw by lia. replace (List.length l1 + 1 - List.length l1)%nat with 1%nat in Hw by lia.
    cbn [firstn] in Hw. exact (shows_rub_out _ _ _ Hw).
  - intros w Hw. rewrite Nat2Z.id, Nat.sub_diag in Hw. exact Hw.
Qed.

Lemma shows_set_line s text :
  List.Forall printable text -> fits (sh_line (set_line s text)) -> shows_line (sh_world s) (sh_line s) ->
  shows_line (sh_world (set_line s text)) (sh_line (set_line s text)).
Proof.
  intros Ht Hl Hs. unfold set_line in *. cbn [sh_line sh_world with_line] in *.
  apply (shows_say_chars _ (Forall_take _ _ _ Ht) _ []); [exact Hl | apply shows_clear_line, Hs].
Qed.
End Editor.

(** ** The invariant of the shell *)

Section Invariant.
Context {W : Type} `{ConsoleApi W}.

Definition line_ok (line : list Z) : Prop :=
  List.Forall printable line /\ Z.of_nat (List.length line) < LINE_SIZE.

Definition entry_ok (text : list Z) : Prop := text <> [] /\ line_ok text.

(** The buffers: the line and every entry of the history fit their arrays, and
    the history cursor is an entry or just after the last. *)
Record buffers_ok (s : shell W) : Prop := {
  bo_line : line_ok (sh_line s);
  bo_history : List.Forall entry_ok (sh_history s);
  bo_count : history_count s <= HISTORY_SIZE;
  bo_cursor : 0 <= sh_cursor s <= history_count s
}.

Definition shown (s : shell W) : Prop := shows_line (sh_world s) (sh_line s).

(** A step of the editor keeps the buffers, and the row if the new line fits. *)
Definition edited (s s' : shell W) : Prop :=
  buffers_ok s' /\ (fits (sh_line s') -> shown s -> shown s').

Lemma line_ok_nil : line_ok [].
Proof. split; [constructor | reflexivity]. Qed.

Lemma line_ok_firstn n line : line_ok line -> line_ok (firstn n line).
Proof.
  intros [Hp Hl]. split; [apply Forall_take; exact Hp|]. rewrite List.length_firstn. lia.
Qed.

Lemma skip_spaces_ok line : line_ok line -> line_ok (skip_spaces line).
Proof.
  induction line as [|ch line IH]; intros Hok; cbn [skip_spaces]; [exact Hok|].
  destruct (is_space ch); [|exact Hok]. apply IH. destruct Hok as [Hp Hl]. inversion Hp; subst.
  split; [assumption|]. cbn [List.length] in Hl. lia.
Qed.

Lemma trim_right_ok line : line_ok line -> line_ok (trim_right line).
Proof.
  unfold trim_right. generalize (List.length line) as n. intros n; revert line.
  induction n as [|n IH]; intros line Hok; cbn [trim_loop]; [exact Hok|].
  destruct (is_space _); [apply IH, line_ok_firstn|]; exact Hok.
Qed.

Lemma shift_history h :
  List.Forall entry_ok h -> List.length h = Z.to_nat HISTORY_SIZE ->
  let h' := loop_state (range_loop 1 HISTORY_SIZE 1 (fun i h =>
              Cont (<[Z.to_nat (i - 1) := nth (Z.to_nat i) h []]> h)) h) in
  List.Forall entry_ok h' /\ List.length h' = Z.to_nat HISTORY_SIZE.
Proof.
  intros Hf Hl. unfold HISTORY_SIZE in *.
  apply (range_loop_ind (fun _ h => List.Forall entry_ok h /\ List.length h = Z.to_nat 8)
           (fun r : ctl _ _ => List.Forall entry_ok (loop_state r) /\ List.length (loop_state r) = Z.to_nat 8));
    [lia | auto | | auto].
  intros k h1 Hk [Hf1 Hl1]. split; [|rewrite length_insert; exact Hl1].
  apply Forall_insert; [exact Hf1|]. rewrite List.Forall_forall in Hf1. apply Hf1, nth_In. lia.
Qed.

Lemma push_history_ok s text :
  buffers_ok s -> entry_ok text -> buffers_ok (push_history s text)
  /\ sh_line (push_history s text) = sh_line s /\ sh_world (push_history s text) = sh_world s.
Proof.
  intros [H1 H2 H3 H4] Ht. unfold push_history. destruct (str_eq text []); [split; [split; auto | auto]|].
  destruct (_ && _).
  { split; [|auto]. split; cbn; auto. unfold history_count in *. cbn. lia. }
  destruct (Z.ltb_spec (history_count s) HISTORY_SIZE).
  - split; [|auto]. unfold history_count in *. split; cbn; auto; unfold history_count; cbn; rewrite ?List.length_app; cbn; try lia.
    apply List.Forall_app. auto.
  - assert (El : List.length (sh_history s) = Z.to_nat HISTORY_SIZE) by (unfold history_count in *; lia).
    destruct (shift_history (sh_history s) H2 El) as [F L]. cbv zeta in F, L.
    split; [|auto]. split; cbn [sh_line sh_history sh_cursor with_history]; auto.
    + apply Forall_insert; assumption.
    + unfold history_count in *. cbn [sh_history with_history]. rewrite length_insert, L. unfold HISTORY_SIZE. lia.
    + unfold history_count in *. cbn [sh_history sh_cursor with_history]. rewrite length_insert, L, El. unfold HISTORY_SIZE. lia.
Qed.

Lemma history_at_ok s i : buffers_ok s -> line_ok (history_at s i).
Proof.
  intros [_ Hh _ _]. unfold history_at. destruct (Nat.lt_ge_cases (Z.to_nat i) (List.length (sh_history s))) as [Hlt|Hge].
  - rewrite List.Forall_forall in Hh. apply Hh, nth_In, Hlt.
  - rewrite nth_overflow by exact Hge. apply line_ok_nil.
Qed.

Lemma set_line_ok s text : line_ok text -> buffers_ok s -> edited s (set_line s text).
Proof.
  intros Ht [H1 H2 H3 H4]. split; [|intros Hl Hs; apply shows_set_line; [apply Ht | exact Hl | exact Hs]].
  split; auto. apply line_ok_firstn, Ht.
Qed.

Lemma with_history_ok s cursor :
  0 <= cursor <= history_count s -> buffers_ok s -> buffers_ok (with_history s (sh_history s) cursor).
Proof. intros Hc [H1 H2 H3 H4]. split; auto. Qed.

Lemma edited_refl s : buffers_ok s -> edited s s.
Proof. split; auto. Qed.

Lemma history_previous_ok s : buffers_ok s -> edited s (history_previous s).
Proof.
  intros Hs. unfold history_previous. destruct (history_count s =? 0); [exact (edited_refl s Hs)|].
  apply (set_line_ok (with_history _ _ _)); [apply history_at_ok, Hs|]. apply with_history_ok; [|exact Hs].
  pose proof (bo_cursor _ Hs). destruct (Z.ltb_spec 0 (sh_cursor s)); lia.
Qed.

Lemma history_next_ok s : buffers_ok s -> edited s (history_next s).
Proof.
  intros Hs. unfold history_next. pose proof (bo_cursor _ Hs).
  destruct ((history_count s =? 0) || (history_count s <=? sh_cursor s)) eqn:E; [exact (edited_refl s Hs)|]. b2p.
  assert (Hn : buffers_ok (with_history s (sh_history s) (sh_cursor s + 1))) by (apply with_history_ok; [lia | exact Hs]).
  cbv zeta. destruct (_ =? _); apply (set_line_ok (with_history _ _ _)); auto using line_ok_nil. apply (history_at_ok _ _ Hn).
Qed.

Lemma clear_line_ok s : buffers_ok s -> edited s (clear_line s).
Proof.
  intros [H1 H2 H3 H4]. split; [split; auto using line_ok_nil | intros _; apply shows_clear_line].
Qed.
(** After a command the row is fresh, or the shell has left. *)
Lemma run_command_ok fuel s input r s' :
  cat_fuel_ok fuel -> buffers_ok s -> sh_line s = [] -> line_ok input -> fresh (sh_world s) ->
  run_command fuel s input = Ret (r, s') -> buffers_ok s' /\ sh_line s' = [] /\ fresh (sh_world s').
Proof.
  intros Hf Hb Hl Hi Hw. unfold run_command. pose proof (trim_right_ok _ (skip_spaces_ok _ Hi)) as Ht.
  destruct (trim_right (skip_spaces input)) as [|a rest] eqn:E; [intros [= <- <-]; auto|].
  assert (He : entry_ok (a :: rest)) by (split; [discriminate | exact Ht]).
  destruct (push_history_ok s (a :: rest) Hb He) as (Hb' & El & Ew).
  set (s1 := push_history s (a :: rest)) in *. clearbody s1. cbv zeta.
  destruct (split_command (a :: rest)) as [[command args]|].
  2: intros [= <- <-]; rewrite El, Ew; auto.
  rewrite Ew. destruct (dispatch fuel command args (sh_mem s1) (sh_world s)) as [[[r1 m1] w1]| |] eqn:Ed; [|discriminate|discriminate].
  cbn [mbind res_bind]. intros Er; inversion Er; subst. cbn [sh_line sh_world].
  split; [destruct Hb'; split; auto|]. split; [congruence|]. exact (fresh_dispatch _ _ _ _ _ _ _ _ (proj2 Hf) Hw Ed).
Qed.

(** Enter, Ctrl-C and Ctrl-L: after them the row is drawn anew. *)
Definition redraws (ch : Z) : bool := (ch =? 10) || (ch =? 3) || (ch =? 12).

(** What an event leaves: the cursor at the start of a blank row if the shell
    has left; the line on the screen, if it fits and was on the screen before or
    the row has been drawn anew. *)
Definition answered (leave : bool) (before : Prop) (s' : shell W) : Prop :=
  buffers_ok s' /\ if leave then fresh (sh_world s') else fits (sh_line s') -> before -> shown s'.

Lemma edited_answered s s' ch : edited s s' -> redraws ch = false -> answered false (shown s \/ redraws ch = true) s'.
Proof. intros [Hb Hs] Hr. split; [exact Hb|]. intros Hl [Hw|E]; [auto | congruence]. Qed.

Lemma handle_char_ok fuel s ch r s' :
  cat_fuel_ok fuel -> buffers_ok s -> 0 < ch < 256 -> handle_char fuel s ch = Ret (r, s') ->
  answered r (shown s \/ redraws ch = true) s'.
Proof.
  intros Hf Hb Hch. unfold handle_char. pose proof Hb as [H1 H2 H3 H4].
  destruct (Z.eqb_spec ch 8) as [->|Hbs].
  { intros Er; inversion Er; subst; clear Er. apply (edited_answered s); [|reflexivity].
    destruct (last_cases (sh_line s)) as [E|(a & l & E)]; [rewrite E; exact (edited_refl s Hb)|].
    rewrite E in *. destruct (l ++ [a]) eqn:E2; [destruct l; discriminate|]. rewrite <- E2 in *.
    rewrite List.removelast_last. split; [split; auto | intros _ Hs; unfold shown in Hs; rewrite E in Hs; exact (shows_rub_out _ _ _ Hs)].
    cbn. destruct H1 as [Hp Hl]. rewrite List.length_app in Hl. apply List.Forall_app in Hp. split; [apply Hp | lia]. }
  destruct (Z.eqb_spec ch 10) as [->|Hnl].
  { destruct (run_command fuel _ (sh_line s)) as [[r1 s1]| |] eqn:E; [|discriminate|discriminate]. cbn [mbind res_bind].
    assert (Hb0 : buffers_ok (with_line s [] (say_char (sh_world s) 10))) by (split; auto using line_ok_nil).
    destruct (run_command_ok _ _ _ _ _ Hf Hb0 eq_refl H1 (fresh_newline _) E) as (Hb1 & Hl1 & Hw1).
    destruct r1; intros Er; inversion Er; subst; [split; auto|]. split; [destruct Hb1; split; auto|].
    intros Hl _. unfold shown. cbn [sh_world sh_line with_world with_line] in *. rewrite Hl1 in *. apply shows_prompt; assumption. }
  destruct (Z.eqb_spec ch 3) as [->|Hcc].
  { intros Er; inversion Er; subst. split; [split; auto using line_ok_nil|]. intros Hl _. apply shows_prompt; [exact Hl | apply fresh_println]. }
  destruct (Z.eqb_spec ch 12) as [->|Hff].
  { intros Er; inversion Er; subst. split; [split; auto|]. intros Hl _. unfold shown. cbn [sh_world sh_line with_world with_line] in *.
    pose proof (shows_prompt _ (fits_less [] _ Hl) (fresh_clear (sh_world s))) as Hp.
    destruct (sh_line s) as [|a l] eqn:El; [exact Hp|]. apply (shows_say_line _ [] (a :: l)); [apply H1 | exact Hl | exact Hp]. }
  assert (Hr : redraws ch = false) by (unfold redraws; destruct (Z.eqb_spec ch 10), (Z.eqb_spec ch 3), (Z.eqb_spec ch 12); tauto).
  destruct (Z.ltb_spec ch 32), (Z.leb_spec LINE_SIZE (Z.of_nat (List.length (sh_line s)) + 1)); cbn [orb];
    intros Er; inversion Er; subst;
    (eapply edited_answered; [try exact (edited_refl _ Hb) | exact Hr]).
  assert (Hp : printable ch) by (unfold printable; lia).
  split; [|intros Hl Hs; exact (shows_say_char _ _ _ Hp Hl Hs)].
  split; cbn [sh_line sh_history sh_cursor with_line]; auto. destruct H1 as [Hp1 Hl1]. split.
  - apply List.Forall_app. auto.
  - rewrite List.length_app. cbn [List.length]. lia.
Qed.

Definition event_ok (e : user_input_event) : Prop := 0 <= ie_ch e < 256.

Lemma handle_event_ok fuel s e r s' :
  cat_fuel_ok fuel -> buffers_ok s -> event_ok e -> handle_event fuel s e = Ret (r, s') ->
  answered r (shown s \/ redraws (ie_ch e) = true) s'.
Proof.
  intros Hf Hs He. unfold handle_event, event_ok in *. destruct (Z.eqb_spec (ie_ch e) 0) as [E0|]; cbn [negb].
  - intros Er; inversion Er; subst. apply (edited_answered s); [|rewrite E0; reflexivity].
    repeat destruct (_ =? _); auto using history_previous_ok, history_next_ok, clear_line_ok, edited_refl.
  - apply handle_char_ok; auto. lia.
Qed.

Lemma event_loop_ok fuel events : forall s r s',
  cat_fuel_ok fuel -> buffers_ok s -> List.Forall event_ok events -> event_loop fuel s events = Ret (r, s') ->
  buffers_ok s' /\ (r = true -> fresh (sh_world s')).
Proof.
  induction events as [|e events IH]; intros s r s' Hf Hs He; cbn [event_loop].
  - intros [= <- <-]. split; [exact Hs | discriminate].
  - apply List.Forall_cons_iff in He as [He1 He2]. destruct (handle_event fuel s e) as [[r1 s1]| |] eqn:E; [|discriminate|discriminate].
    cbn [mbind res_bind]. pose proof (handle_event_ok _ _ _ _ _ Hf Hs He1 E) as [Hb Ho].
    destruct r1; [intros [= <- <-]; auto|]. apply IH; assumption.
Qed.

(** The last event of a run. *)
Lemma event_loop_snoc fuel events e : forall s,
  event_loop fuel s (events ++ [e])
  = event_loop fuel s events ≫= fun '(leave, s1) => if (leave : bool) then Ret (true, s1) else handle_event fuel s1 e.
Proof.
  induction events as [|e1 events IH]; intros s; cbn [app event_loop].
  - cbn [mbind res_bind]. destruct (handle_event fuel s e) as [[[] s1]| |]; reflexivity.
  - destruct (handle_event fuel s e1) as [[[] s1]| |]; [reflexivity | apply IH | reflexivity | reflexivity].
Qed.

(** The row is drawn anew after [events]. *)
Definition row_drawn (events : list user_input_event) : Prop :=
  events = [] \/ exists before e, events = before ++ [e] /\ redraws (ie_ch e) = true.

(** Every line of the run since [before] fits. *)
Definition lines_fit (fuel : nat) (m : mem) (w : W) (before recent : list user_input_event) : Prop :=
  forall n s, app_main fuel m w (before ++ firstn n recent) = Ret (false, s) -> fits (sh_line s).

Lemma shell_start_ok m w : buffers_ok (shell_start m w).
Proof. split; auto using line_ok_nil. unfold history_count, HISTORY_SIZE. cbn. lia. unfold history_count. cbn. lia. Qed.

(** One event more. *)
Lemma app_main_snoc fuel m w events e s' :
  cat_fuel_ok fuel -> List.Forall event_ok (events ++ [e]) -> app_main fuel m w (events ++ [e]) = Ret (false, s') ->
  exists s, app_main fuel m w events = Ret (false, s) /\ answered false (shown s \/ redraws (ie_ch e) = true) s'.
Proof.
  intros Hf He. unfold app_main. rewrite event_loop_snoc. apply List.Forall_app in He as [He He1].
  apply List.Forall_cons_iff in He1 as [He1 _].
  destruct (event_loop fuel (shell_start m w) events) as [[[] s]| |] eqn:E; cbn [mbind res_bind]; try discriminate.
  intros Eh. exists s. split; [reflexivity|].
  destruct (event_loop_ok fuel events _ _ _ Hf (shell_start_ok m w) He E) as [Hb _]. exact (handle_event_ok _ _ _ _ _ Hf Hb He1 Eh).
Qed.

Lemma run_shows fuel m w before recent s :
  cat_fuel_ok fuel -> List.Forall event_ok (before ++ recent) -> row_drawn before -> lines_fit fuel m w before recent ->
  app_main fuel m w (before ++ recent) = Ret (false, s) -> shown s.
Proof.
  intros Hf He Hd. revert s He. induction recent as [|e recent IH] using rev_ind; intros s He Hl Hrun.
  - pose proof (Hl 0%nat s Hrun) as Hfit. rewrite app_nil_r in *. destruct Hd as [->|(before' & e & -> & Hr)].
    + injection Hrun as <-. apply shows_prompt; [exact Hfit | apply fresh_println].
    + destruct (app_main_snoc fuel m w before' e s Hf He Hrun) as (s0 & _ & _ & Hs). auto.
  - rewrite app_assoc in *. destruct (app_main_snoc fuel m w (before ++ recent) e s Hf He Hrun) as (s0 & E0 & _ & Hs).
    apply Hs.
    + apply (Hl (List.length (recent ++ [e]))). rewrite firstn_all, app_assoc. exact Hrun.
    + left. apply (IH s0); [apply List.Forall_app in He; apply He | | exact E0]. intros n s1 E1.
      apply (Hl (Nat.min n (List.length recent)) s1). rewrite firstn_app. destruct (Nat.le_gt_cases n (List.length recent)).
      * rewrite Nat.min_l by assumption. replace (n - List.length recent)%nat with 0%nat by lia. rewrite app_nil_r. exact E1.
      * rewrite Nat.min_r, firstn_all, Nat.sub_diag, app_nil_r by lia. rewrite firstn_all2 in E1 by lia. exact E1.
Qed.

(** ** The theorem *)

(** C38. The shell answers every sequence of events; the line and the history
    fit their arrays and the history cursor is in range. Unless it has left, and
    as long as the console answers, the row of the cursor reads as the prompt
    followed by exactly the line that Enter would run, the rest of the row being
    blank, provided that since the row was last drawn (at the start, or by
    Enter, Ctrl-C or Ctrl-L) the prompt and the line have stayed shorter than a
    row of the console; on a console of more columns than the line buffer and
    the prompt together that is always so. When the shell leaves, the cursor is
    at the start of a blank row. *)
Theorem shell_shows_line_being_edited fuel m w before recent :
  cat_fuel_ok fuel -> List.Forall event_ok (before ++ recent) -> row_drawn before ->
  exists leave s, app_main fuel m w (before ++ recent) = Ret (leave, s) /\
  Z.of_nat (List.length (sh_line s)) < LINE_SIZE
  /\ List.Forall (fun text => text <> [] /\ Z.of_nat (List.length text) < LINE_SIZE) (sh_history s)
  /\ history_count s <= HISTORY_SIZE /\ 0 <= sh_cursor s <= history_count s
  /\ forall t, screen (sh_world s) = Some t ->
       if leave then row_reads screen_cols t []
       else LINE_SIZE + 3 <= screen_cols \/ lines_fit fuel m w before recent ->
            row_reads screen_cols t (str "u> " ++ sh_line s).
Proof.
  intros Hf He Hd. destruct (event_loop_total fuel (before ++ recent) Hf (shell_start m w)) as ([leave s] & Hrun).
  exists leave, s. split; [exact Hrun|].
  destruct (event_loop_ok fuel _ _ _ _ Hf (shell_start_ok m w) He Hrun) as [[H1 H2 H3 H4] Ho].
  split; [apply H1|]. split; [eapply List.Forall_impl; [|exact H2]; intros text [Hn [_ Hl]]; auto|].
  split; [exact H3|]. split; [exact H4|]. destruct leave; [exact (Ho eq_refl)|]. intros t Et Hfit. revert t Et.
  apply (run_shows fuel m w before recent s Hf He Hd); [|exact Hrun]. destruct Hfit as [Hwide|Hfit]; [|exact Hfit].
  intros n s1 E1. assert (He1 : List.Forall event_ok (before ++ firstn n recent)).
  { apply List.Forall_app in He as [Hb Hr]. apply List.Forall_app. split; [exact Hb | apply Forall_take, Hr]. }
  destruct (event_loop_ok fuel _ _ _ _ Hf (shell_start_ok m w) He1 E1) as [[[_ Hl] _ _ _] _]. unfold fits. lia.
Qed.

End Invariant.

(** ** [cat] *)

Lemma last_app_default (a b : list Z) d e : b <> [] -> List.last (a ++ b) d = List.last b e.
Proof.
  intros Hb. destruct (last_cases b) as [->|(x & l & ->)]; [congruence|].
  rewrite app_assoc, !List.last_last. reflexivity.
Qed.

Section Cat.
Context {W : Type} `{ConsoleApi W}.

(** What the screen shows after [s] is printed on [screen w]. *)
Definition printed (w : W) (s : list Z) : option text := t ← screen w; text_write screen_rows screen_cols t s.

Lemma printed_app w a b w' : screen w' = printed w a -> printed w' b = printed w (a ++ b).
Proof.
  unfold printed. intros ->. destruct (screen w); [|reflexivity]. cbn [mbind option_bind]. rewrite text_write_app. reflexivity.
Qed.

Lemma printed_nil w : printed w [] = screen w.
Proof. unfold printed. destruct (screen w); reflexivity. Qed.

Lemma screen_say_chars s : List.Forall is_byte s -> forall w : W, screen (fold_left say_char s w) = printed w s.
Proof.
  induction 1 as [|ch s Hc Hs IH]; intros w; cbn [fold_left]; [symmetry; apply printed_nil|].
  rewrite IH. unfold printed. rewrite screen_say_char by exact Hc. destruct (screen w); [|reflexivity].
  cbn [mbind option_bind text_write]. destruct (text_put _ _ _ _); reflexivity.
Qed.

Context (holds : W -> Prop) (path content : list Z).
Context (Hwrite : forall w s, holds w -> holds (api_write w s)).
Context (Hread : forall w n offset, holds w -> 0 <= n -> 0 <= offset ->
  let slice := firstn (Z.to_nat n) (skipn (Z.to_nat offset) content) in
  exists w', api_fs_read w path n offset = (Z.of_nat (List.length slice), slice, w') /\ holds w').
Context (Hread_screen : forall w n offset, screen (snd (api_fs_read w path n offset)) = screen w).

Lemma holds_say_chars s : forall w, holds w -> holds (fold_left say_char s w).
Proof. induction s as [|ch s IH]; intros w Hw; [exact Hw|]. apply IH, Hwrite, Hw. Qed.

Lemma cat_loop_prints fuel : forall w offset last,
  holds w -> List.Forall is_byte content -> (offset <= List.length content)%nat -> Z.of_nat (List.length content) <= MAX_FILE_SIZE ->
  (List.length content - offset < fuel)%nat -> last = List.last (firstn offset content) 0 ->
  exists w', cat_loop fuel w path (Z.of_nat offset) last = Ret (Some (Z.of_nat (List.length content), List.last content 0), w')
    /\ screen w' = printed w (skipn offset content).
Proof.
  unfold MAX_FILE_SIZE. induction fuel as [|fuel IH]; intros w offset last Hw Hb Ho Hl Hf Hlast; [lia|]. cbn [cat_loop].
  destruct (Hread w FS_READ_CHUNK (Z.of_nat offset) Hw ltac:(unfold FS_READ_CHUNK; lia) ltac:(lia)) as (w1 & E & Hw1).
  pose proof (Hread_screen w FS_READ_CHUNK (Z.of_nat offset)) as Hs1. rewrite E in Hs1. cbn [snd] in Hs1.
  rewrite Nat2Z.id in E. rewrite E. set (slice := firstn _ (skipn offset content)) in *.
  assert (Hlen : List.length slice = Nat.min 1024 (List.length content - offset))
    by (unfold slice; rewrite List.length_firstn, List.length_skipn; reflexivity).
  destruct (Z.ltb_spec (Z.of_nat (List.length slice)) 0); [lia|].
  destruct (Z.eqb_spec (Z.of_nat (List.length slice)) 0) as [Hz|Hz].
  - assert (offset = List.length content) by lia. subst offset. exists w1.
    rewrite firstn_all in Hlast. rewrite Hlast, skipn_all, printed_nil. auto.
  - rewrite Nat2Z.id, firstn_all. rewrite u64_id by (unfold is_u64; lia). rewrite <- Nat2Z.inj_add.
    assert (Hsplit : skipn offset content = slice ++ skipn (offset + List.length slice) content).
    { rewrite Nat.add_comm, <- skipn_skipn. unfold slice at 1. rewrite <- (firstn_skipn 1024 (skipn offset content)) at 1.
      f_equal. change (Z.to_nat FS_READ_CHUNK) with 1024%nat. destruct (Nat.le_gt_cases 1024 (List.length content - offset)).
      - f_equal. lia.
      - rewrite !skipn_all2 by (rewrite ?List.length_skipn; lia). reflexivity. }
    assert (Hsb : List.Forall is_byte slice) by (apply Forall_take, Forall_drop, Hb).
    destruct (IH (fold_left say_char slice w1) (offset + List.length slice)%nat (List.last slice last)) as (w' & E' & Es'); try lia.
    + apply holds_say_chars, Hw1.
    + exact Hb.
    + assert (Hfirst : firstn (offset + List.length slice) content = firstn offset content ++ slice).
      { rewrite <- (firstn_skipn offset content) at 1. rewrite firstn_app, List.length_firstn.
        rewrite firstn_all2 by (rewrite List.length_firstn; lia). f_equal. rewrite Hsplit, firstn_app.
        replace (offset + List.length slice - Nat.min offset (List.length content))%nat with (List.length slice) by lia.
        rewrite firstn_all, Nat.sub_diag, app_nil_r. reflexivity. }
      rewrite Hfirst. symmetry. apply last_app_default. intros E0. rewrite E0 in Hz. apply Hz. reflexivity.
    + exists w'. split; [exact E'|]. rewrite Es', Hsplit. apply printed_app.
      rewrite screen_say_chars by exact Hsb. unfold printed. rewrite Hs1. reflexivity.
Qed.
End Cat.

(** [cat] of a file prints exactly the bytes of the file, and a newline when
    they do not end in one. *)
Theorem cat_prints_file {W} `{ConsoleApi W} (holds : W -> Prop) (path content : list Z) fuel w args :
  (forall w s, holds w -> holds (api_write w s)) ->
  (forall w n offset, holds w -> 0 <= n -> 0 <= offset ->
     let slice := firstn (Z.to_nat n) (skipn (Z.to_nat offset) content) in
     exists w', api_fs_read w path n offset = (Z.of_nat (List.length slice), slice, w') /\ holds w') ->
  (forall w n offset, screen (snd (api_fs_read w path n offset)) = screen w) ->
  holds w -> List.Forall is_byte content -> Z.of_nat (List.length content) <= MAX_FILE_SIZE ->
  (List.length content < fuel)%nat -> path <> [] -> skip_spaces args = path ->
  exists w', command_cat fuel w args = Ret w'
    /\ screen w' = printed w (content ++ (if str_eq content [] || (List.last content 0 =? 10) then [] else [10])).
Proof.
  intros Hwr Hrd Hrs Hw Hb Hl Hf Hne Hargs. unfold command_cat. rewrite Hargs.
  destruct (cat_loop_prints holds path content Hwr Hrd Hrs fuel w 0 0) as (w1 & E & Es); auto; try lia.
  destruct path as [|a rest]; [congruence|]. change (Z.of_nat 0) with 0 in E. rewrite E. cbn [mbind res_bind].
  rewrite skipn_O in Es. eexists. split; [reflexivity|].
  assert (Hcase : content = [] \/ content <> []) by (destruct content; [left | right]; congruence).
  unfold str_eq. destruct Hcase as [->|Hc].
  - exact Es.
  - rewrite bool_decide_eq_false_2 by exact Hc.
    destruct (Z.eqb_spec (Z.of_nat (List.length content)) 0) as [E0|_]; [destruct content; [congruence | cbn in E0; lia]|].
    destruct (Z.eqb_spec (List.last content 0) 10); cbn [negb andb orb]; rewrite ?app_nil_r; [exact Es|].
    rewrite <- (printed_app w content [10] w1 Es). change (say_char w1 10) with (fold_left say_char [10] w1).
    apply screen_say_chars. repeat constructor; unfold is_byte; lia.
Qed.

(** ** Numbers *)

Lemma decimal_loop_app a : forall b v,
  decimal_loop (a ++ b) v = match decimal_loop a v with Some v' => decimal_loop b v' | None => None end.
Proof.
  induction a as [|ch a IH]; intros b v; cbn [app decimal_loop]; [reflexivity|].
  destruct (_ || _); [reflexivity|]. destruct (_ <? _); [reflexivity|]. apply IH.
Qed.

(** Reading the digits of [value] from 0 gives [value], whatever follows them. *)
Lemma decimal_loop_digits fuel : forall value acc,
  0 <= value < 18446744073709551616 -> value < 10 ^ Z.of_nat fuel -> (0 < fuel)%nat ->
  exists digits, dec_digits fuel value acc = digits ++ acc /\ digits <> [] /\ decimal_loop digits 0 = Some value.
Proof.
  induction fuel as [|fuel IH]; intros value acc Hv Hf Hpos; [lia|]. cbn [dec_digits].
  pose proof (Z.div_mod value 10 ltac:(lia)). pose proof (Z.mod_pos_bound value 10 ltac:(lia)).
  assert (Hdigit : forall v, 0 <= v -> v * 10 + value mod 10 = value ->
            decimal_loop [48 + value mod 10] v = Some value).
  { intros v Hv0 Ev. cbn [decimal_loop].
    destruct (Z.ltb_spec (48 + value mod 10) 48), (Z.ltb_spec 57 (48 + value mod 10)); try lia. cbn [orb].
    rewrite u64_id by (unfold is_u64; lia). destruct (Z.ltb_spec (v * 10 + (48 + value mod 10 - 48)) v); [lia|].
    f_equal. lia. }
  destruct (Z.eqb_spec (value / 10) 0) as [E|E].
  - exists [48 + value mod 10]. split; [reflexivity|]. split; [discriminate|]. apply Hdigit; lia.
  - rewrite Nat2Z.inj_succ, Z.pow_succ_r in Hf by lia.
    destruct (IH (value / 10) ((48 + value mod 10) :: acc)) as (digits & -> & Hne & Hd).
    + split; [apply Z.div_pos; lia | apply Z.div_lt_upper_bound; lia].
    + apply Z.div_lt_upper_bound; lia.
    + destruct fuel; [cbn in Hf; lia | lia].
    + exists (digits ++ [48 + value mod 10]). split; [rewrite <- app_assoc; reflexivity|].
      split; [destruct digits; discriminate|]. rewrite decimal_loop_app, Hd. apply Hdigit; [apply Z.div_pos|]; lia.
Qed.

(** The decimal number the shell prints reads back as the number printed;
    but a number beyond 64 bits is not always refused: its check compares the
    wrapped product with the value before only. *)
Theorem print_parse_decimal :
  (forall value, 0 <= value < 18446744073709551616 ->
     parse_decimal_size (dec_digits 20 value []) = Some value)
  /\ parse_decimal_size (str "30000000000000000000") = Some 11553255926290448384
  /\ parse_decimal_size (str "99999999999999999999") = None.
Proof.
  split; [|split; vm_compute; reflexivity]. intros value Hv.
  destruct (decimal_loop_digits 20 value [] Hv) as (digits & E & Hne & Hd); [cbn; lia | lia |].
  rewrite app_nil_r in E. rewrite E. unfold parse_decimal_size. destruct digits; [congruence | exact Hd].
Qed.

(** ** A small world *)

(** A screen of 30 rows and 160 columns, with one file [/f] behind it: what has
    been printed since it was cleared. *)
Record demo : Type := mk_demo { de_printed : list Z }.

Definition demo_screen (w : demo) : option text := text_write 30 160 (text_clear 1 0) (de_printed w).

Definition demo_clear (w : demo) : demo := match demo_screen w with Some _ => mk_demo [] | None => w end.

Definition demo_file : list Z := str "one line".

Definition demo_read (path : list Z) (n offset : Z) : list Z :=
  if str_eq path (str "/f") then firstn (Z.to_nat n) (skipn (Z.to_nat offset) demo_file) else [].

#[export] Instance demo_api : UserApi demo := {|
  api_write w s := mk_demo (de_printed w ++ s);
  api_clear := demo_clear;
  api_set_color w _ _ _ := w; api_set_background w _ _ _ := w; api_reset_colors w := w;
  api_memory_status w := (Some (mk_memory_status 1024 512 512 0), w);
  api_userspace_status w := (None, w); api_klog_status w := (None, w); api_timer_status w := (None, w);
  api_framebuffer_status w := (None, w); api_kernel_heap_status w := (None, w); api_fs_status w := (None, w);
  api_klog_read w _ := (-1, [], w); api_app_run_path w _ := (-1, w);
  api_fs_list w _ _ := (-1, [], w);
  api_fs_read w path n offset :=
    (Z.of_nat (List.length (demo_read path n offset)), demo_read path n offset, w);
  api_fs_getcwd w _ := (-1, [], w); api_fs_chdir w _ := (-1, w); api_fs_write w _ _ _ := (-1, w);
  api_fs_create w _ := (-1, w); api_fs_mkdir w _ := (-1, w); api_fs_unlink w _ := (-1, w);
  api_fs_rmdir w _ := (-1, w); api_fs_truncate w _ _ := (-1, w); api_sbrk w _ := (-1, w)
|}.

Lemma demo_read_bound path n offset : 0 <= n -> Z.of_nat (List.length (demo_read path n offset)) <= n.
Proof.
  intros Hn. unfold demo_read. destruct (str_eq _ _); [|cbn; lia]. rewrite List.length_firstn. lia.
Qed.

Lemma demo_read_end path n offset :
  MAX_FILE_SIZE <= offset -> Z.of_nat (List.length (demo_read path n offset)) <= 0.
Proof.
  unfold MAX_FILE_SIZE. intros Ho. unfold demo_read. destruct (str_eq _ _); [|cbn; lia].
  rewrite skipn_all2; [rewrite firstn_nil; cbn; lia|]. assert (List.length demo_file = 8%nat) by reflexivity. lia.
Qed.

Lemma clear_fine : text_fine 30 160 (text_clear 1 0).
Proof. split; [cbn; lia|]. split; [cbn; lia|]. reflexivity. Qed.

Lemma demo_clear_screen w : exists fg bg, demo_screen (demo_clear w) = (fun _ => text_clear fg bg) <$> demo_screen w.
Proof. exists 1, 0. unfold demo_clear. destruct (demo_screen w) eqn:E; [reflexivity | exact E]. Qed.

#[export] Instance demo_console : ConsoleApi demo.
Proof.
  refine {| screen_rows := 30; screen_cols := 160; screen := demo_screen |}.
  - lia.
  - intros w t. apply write_fine; [lia | exact clear_fine].
  - intros w s. apply text_write_app.
  - exact demo_clear_screen.
  - intros w w' Hq. assert (E : w' = w) by (destruct Hq; reflexivity). rewrite E.
    destruct (demo_screen w) as [t|]; [exists (tx_fg t), (tx_bg t); cbn; destruct t; reflexivity | exists 0, 0; reflexivity].
  - intros w path n offset Hn. apply demo_read_bound, Hn.
  - intros w path n offset Ho. apply demo_read_end, Ho.
Defined.

Definition typed (s : list Z) : list user_input_event := map (fun ch => mk_input 1 ch 0) s.

(** "memx", a correction and Enter; then "hi" and the up key. *)
Definition demo_before : list user_input_event := typed (str "memx") ++ typed [8; 10].

Definition demo_recent : list user_input_event := typed (str "hi") ++ [mk_input USER_KEYBOARD_KEY_UP 0 0].

(** The characters of the row of the cursor. *)
Definition row_chars (w : demo) : option (list Z) :=
  t ← demo_screen w; Some (map (fun col => ce_ch (tx_cells t (tx_row t) (Z.of_nat col))) (seq 0 160)).

Lemma shell_shows_line_being_edited_witness :
  match app_main 3 (fun _ => 0) (mk_demo []) (demo_before ++ demo_recent) with
  | Ret (leave, s) => leave = false /\ sh_line s = str "mem" /\ sh_history s = [str "mem"]
      /\ row_chars (sh_world s) = Some (str "u> mem" ++ repeat 32 154)
  | _ => False
  end
  /\ exists leave s, app_main (Z.to_nat 4294967297) (fun _ => 0) (mk_demo []) (demo_before ++ demo_recent) = Ret (leave, s)
     /\ forall t, screen (sh_world s) = Some t -> leave = false -> row_reads 160 t (str "u> " ++ sh_line s).
Proof.
  split; [vm_compute; auto|].
  destruct (shell_shows_line_being_edited (Z.to_nat 4294967297) (fun _ => 0) (mk_demo []) demo_before demo_recent)
    as (leave & s & Hrun & _ & _ & _ & _ & Hs).
  - unfold cat_fuel_ok, MAX_FILE_SIZE, FS_READ_CHUNK. rewrite Z2Nat.id by lia. lia.
  - vm_compute. repeat (apply List.Forall_cons; [split; congruence|]). apply List.Forall_nil.
  - right. exists (typed (str "memx") ++ typed [8]), (mk_input 1 10 0). split; vm_compute; reflexivity.
  - exists leave, s. split; [exact Hrun|]. intros t Et ->. apply (Hs t Et). left. vm_compute. discriminate.
Defined.

Lemma cat_prints_file_witness :
  exists w', command_cat 10 (mk_demo []) (str " /f") = Ret w' /\ screen w' = printed (mk_demo []) (demo_file ++ [10]).
Proof.
  apply (cat_prints_file (fun _ => True) (str "/f") demo_file 10 (mk_demo []) (str " /f")); auto.
  - intros w n offset _ Hn Ho. cbn zeta. eexists. split; [reflexivity | exact I].
  - vm_compute. repeat (apply List.Forall_cons; [split; congruence|]). apply List.Forall_nil.
  - vm_compute. congruence.
Defined.
