(* ===== verification/UserInput.v ===== *)
(** * Input events from the keyboard to the program

    keyboard.c queues events, syscall.c packs the oldest into one word and
    src/libc/user/syscall.c unpacks it. The word carries the event unchanged;
    for the Escape key that shows that the shell never acts on it. *)

From Stdlib Require Import String.
From S2P Require Import Prelude Fs Keyboard Process Scheduler SchedulerProofs Kernel Syscall SyscallProofs UserApi Shell ShellProofs.

Definition wire_event_ok (e : keyboard_event) : Prop :=
  0 <= ev_ch e < 256 /\ 0 <= ev_modifiers e < 16.

Definition kb_events_ok (s : keyboard) : Prop := List.Forall wire_event_ok (kb_buffer s).

Lemma current_modifiers_range k : 0 <= current_modifiers k < 16.
Proof. unfold current_modifiers. destruct (shift_down k), (ctrl_down k), (alt_down k), (caps_lock k); vm_compute; split; congruence. Qed.

Lemma push_event_ok s key ch : kb_events_ok s -> 0 <= ch < 256 -> kb_events_ok (push_event s key ch).
Proof.
  intros Hs Hc. unfold push_event, kb_events_ok. destruct (_ =? _); [exact Hs|]. cbn [kb_buffer].
  apply Forall_insert; [exact Hs|]. split; cbn; [exact Hc | apply current_modifiers_range].
Qed.

Lemma table_bytes l x : List.Forall (fun p => 0 <= snd p < 256) l -> 0 <= table_lookup l x < 256.
Proof.
  intros Hl. unfold table_lookup. destruct (List.find _ l) as [[a b]|] eqn:E; [|lia].
  apply List.find_some in E as [Hin _]. rewrite List.Forall_forall in Hl. exact (Hl _ Hin).
Qed.

Lemma maps_bytes sc : 0 <= base_map sc < 256 /\ 0 <= shifted_map sc < 256.
Proof.
  split; apply table_bytes; repeat (apply List.Forall_cons; [cbn; lia|]); apply List.Forall_nil.
Qed.

Lemma keyboard_irq_events_ok s sc : kb_events_ok s -> kb_events_ok (keyboard_irq s sc).
Proof.
  intros Hs. destruct (maps_bytes (Z.land sc 0x7f)) as [Hb Hsh]. unfold keyboard_irq.
  destruct (sc =? 0xe0); [exact Hs|].
  destruct (extended_scancode (kb_mod s)).
  { cbv zeta. repeat match goal with |- context [if ?b then _ else _] => destruct b end;
      try exact Hs; apply push_event_ok; exact Hs || lia. }
  cbv zeta. set (base := base_map (Z.land sc 0x7f)) in *. set (shifted := shifted_map (Z.land sc 0x7f)) in *.
  assert (Hctl : is_letter base = true -> 0 <= base - 97 + 1 < 256).
  { unfold is_letter. intros Hl. b2p. lia. }
  destruct (is_letter base) eqn:El; rewrite ?andb_false_r, ?andb_true_r;
    repeat match goal with |- context [if ?b then _ else _] => destruct b end;
    try exact Hs; apply push_event_ok; exact Hs || lia || (specialize (Hctl eq_refl); lia).
Qed.

(** ** The wire format *)

Lemma pack_unpack key ch m :
  0 <= key < 256 -> 0 <= ch < 256 -> 0 <= m < 16 ->
  unpack_event (Z.lor (Z.lor key (Z.shiftl (u8 ch) 8)) (Z.shiftl m 16)) = Some (mk_input key ch m).
Proof.
  intros Hk Hc Hm. rewrite u8_id by exact Hc.
  rewrite (Z.lor_comm key), (lor_low_add _ key 8) by (rewrite ?Z.shiftl_mul_pow2, ?Z.mod_mul; lia).
  rewrite Z.lor_comm, (lor_low_add _ _ 16) by (rewrite ?Z.shiftl_mul_pow2, ?Z.mod_mul by lia; lia).
  rewrite !Z.shiftl_mul_pow2 by lia. change (2 ^ 16) with 65536. change (2 ^ 8) with 256.
  unfold unpack_event. destruct (Z.ltb_spec (m * 65536 + (ch * 256 + key)) 0); [lia|].
  change 0xff with (2 ^ 8 - 1). rewrite !land_low, !Z.shiftr_div_pow2 by lia.
  change (2 ^ 16) with 65536. change (2 ^ 8) with 256. f_equal. f_equal; zlia.
Qed.

(** C40. Whatever scancodes arrive, the oldest event in the keyboard queue
    reaches the program unchanged through the system call and its wrapper, and
    an empty queue is reported as an error. *)
Theorem input_event_reaches_program {F} `{FsOps F} (k : kernel F) frame kb scancodes :
  kb_events_ok kb -> k_keyboard k = fold_left keyboard_irq scancodes (keyboard_init kb) ->
  exists v k', sys_read_event k frame = Ret (Returns v frame, k')
    /\ match keyboard_read_event (k_keyboard k) with
       | (Some ev, kb') => k' = with_keyboard k kb'
           /\ unpack_event v = Some (mk_input (key_code (ev_key ev)) (ev_ch ev) (ev_modifiers ev))
       | (None, kb') => unpack_event v = None
       end.
Proof.
  intros Hkb Ek.
  assert (Hok : kb_events_ok (k_keyboard k)).
  { rewrite Ek. assert (Hi : kb_events_ok (keyboard_init kb)) by exact Hkb. clear Ek. revert Hi.
    generalize (keyboard_init kb) as s. induction scancodes as [|sc l IH]; intros s Hi; [exact Hi|].
    apply IH, keyboard_irq_events_ok, Hi. }
  unfold sys_read_event, keyboard_read_event.
  destruct (_ =? _).
  - do 2 eexists. split; [reflexivity|]. reflexivity.
  - set (ev := kb_buffer (k_keyboard k) !!! _).
    assert (He : wire_event_ok ev).
    { unfold ev. rewrite list_lookup_total_alt. destruct (kb_buffer (k_keyboard k) !! _) as [e|] eqn:E.
      - exact (proj1 (Forall_lookup _ _) Hok _ _ E).
      - split; cbn; lia. }
    do 2 eexists. split; [reflexivity|]. split; [reflexivity|]. destruct He. apply pack_unpack; auto.
    destruct (ev_key ev); cbn; lia.
Qed.

(** The Escape key never clears the line: the driver queues it with the
    character 27, and the shell looks at the character first. *)
Theorem escape_key_is_ignored {W} `{UserApi W} km fuel (s : shell W) :
  extended_scancode km = false ->
  map (fun e => unpack_event (Z.lor (Z.lor (key_code (ev_key e)) (Z.shiftl (u8 (ev_ch e)) 8))
                                   (Z.shiftl (ev_modifiers e) 16))) (emitted km 0x01)
  = [Some (mk_input USER_KEYBOARD_KEY_ESCAPE 27 (current_modifiers km))]
  /\ handle_event fuel s (mk_input USER_KEYBOARD_KEY_ESCAPE 27 (current_modifiers km)) = Ret (false, s).
Proof.
  intros Hx. split; [|unfold handle_event, handle_char; reflexivity].
  destruct km as [sh ct al ca ex]. cbn in Hx. subst ex. destruct sh, ct, al, ca; vm_compute; reflexivity.
Qed.

(** Shift held down, then the key of the letter a. *)
Definition demo_keys : keyboard :=
  mk_keyboard 0 0 (repeat (mk_event KEYBOARD_KEY_NONE 0 0) 128) (mk_mods false false false false false).

Definition demo_typing : kernel (list Z) :=
  with_keyboard demo_kernel (fold_left keyboard_irq [0x2a; 0x1e] (keyboard_init demo_keys)).

Lemma input_event_reaches_program_witness :
  exists v k', sys_read_event demo_typing demo_frame = Ret (Returns v demo_frame, k')
    /\ unpack_event v = Some (mk_input 1 65 1).
Proof.
  assert (Hok : kb_events_ok demo_keys).
  { unfold kb_events_ok. apply List.Forall_forall. intros e He. apply List.repeat_spec in He. subst e. split; cbn; lia. }
  destruct (input_event_reaches_program demo_typing demo_frame demo_keys [0x2a; 0x1e] Hok eq_refl) as (v & k' & E & Hv).
  exists v, k'. split; [exact E|]. exact (proj2 Hv).
Defined.

Lemma escape_key_is_ignored_witness :
  handle_event 1 (shell_start (fun _ => 0) (mk_demo [])) (mk_input USER_KEYBOARD_KEY_ESCAPE 27 0)
  = Ret (false, shell_start (fun _ => 0) (mk_demo [])).
Proof.
  exact (proj2 (escape_key_is_ignored (mk_mods false false false false false) 1
                  (shell_start (fun _ => 0) (mk_demo [])) eq_refl)).
Defined.
