(* ===== verification/UserSyscalls.v ===== *)
(** * The system-call wrappers of programs (src/libc/user/syscall.c)

    A wrapper loads the number and the arguments into registers and executes
    [int 0x80]: it is the request [user_call], which [trap_frame] puts into the
    frame that the interrupt entry pushes. What a wrapper does with the result is
    in UserApi.v. *)

From Stdlib Require Import String.
From S2P Require Import Prelude Fs Keyboard Process Scheduler Kernel Syscall UserApi.

(** The number, and the arguments in rdi, rsi, rdx, r10 as far as they are set. *)
Record user_call : Type := mk_call { uc_number : Z; uc_args : list Z }.

Definition user_syscall0 (number : Z) : user_call := mk_call number [].
Definition user_syscall1 (number arg0 : Z) : user_call := mk_call number [arg0].
Definition user_syscall2 (number arg0 arg1 : Z) : user_call := mk_call number [arg0; arg1].
Definition user_syscall3 (number arg0 arg1 arg2 : Z) : user_call := mk_call number [arg0; arg1; arg2].
Definition user_syscall4 (number arg0 arg1 arg2 arg3 : Z) : user_call := mk_call number [arg0; arg1; arg2; arg3].

(** [enum syscall_number]. *)
Definition SYSCALL_EXIT : Z := 2.
Definition SYSCALL_READ_EVENT : Z := 4.
Definition SYSCALL_CLEAR : Z := 5.
Definition SYSCALL_SET_COLOR : Z := 6.
Definition SYSCALL_SET_BACKGROUND : Z := 7.
Definition SYSCALL_RESET_COLORS : Z := 8.
Definition SYSCALL_MEMORY_STATUS : Z := 9.
Definition SYSCALL_DEBUG_WRITE : Z := 10.
Definition SYSCALL_USERSPACE_STATUS : Z := 11.
Definition SYSCALL_SBRK : Z := 12.
Definition SYSCALL_KLOG_STATUS : Z := 13.
Definition SYSCALL_KLOG_READ : Z := 14.
Definition SYSCALL_TIMER_STATUS : Z := 15.
Definition SYSCALL_FRAMEBUFFER_STATUS : Z := 16.
Definition SYSCALL_KERNEL_HEAP_STATUS : Z := 17.
Definition SYSCALL_APP_COUNT : Z := 18.
Definition SYSCALL_APP_INFO : Z := 19.
Definition SYSCALL_APP_RUN : Z := 20.
Definition SYSCALL_FS_STATUS : Z := 21.
Definition SYSCALL_FS_LIST : Z := 22.
Definition SYSCALL_FS_READ : Z := 23.
Definition SYSCALL_FS_GETCWD : Z := 24.
Definition SYSCALL_FS_CHDIR : Z := 25.
Definition SYSCALL_FS_WRITE : Z := 26.
Definition SYSCALL_APP_RUN_PATH : Z := 27.
Definition SYSCALL_FS_CREATE : Z := 28.
Definition SYSCALL_FS_MKDIR : Z := 29.
Definition SYSCALL_FS_UNLINK : Z := 30.
Definition SYSCALL_FS_RMDIR : Z := 31.
Definition SYSCALL_FS_TRUNCATE : Z := 32.

(** The call; the loop after it is for an EXIT that returns. *)
Definition user_exit (status : Z) : user_call := user_syscall1 SYSCALL_EXIT status.
Definition user_write (s len : Z) : user_call := user_syscall2 SYSCALL_DEBUG_WRITE s len.
Definition user_read_event : user_call := user_syscall0 SYSCALL_READ_EVENT.
Definition user_clear : user_call := user_syscall0 SYSCALL_CLEAR.
Definition user_set_color (red green blue : Z) : user_call := user_syscall3 SYSCALL_SET_COLOR red green blue.
Definition user_set_background (red green blue : Z) : user_call :=
  user_syscall3 SYSCALL_SET_BACKGROUND red green blue.
Definition user_reset_colors : user_call := user_syscall0 SYSCALL_RESET_COLORS.
Definition user_memory_status (status : Z) : user_call := user_syscall1 SYSCALL_MEMORY_STATUS status.
Definition user_userspace_status (status : Z) : user_call := user_syscall1 SYSCALL_USERSPACE_STATUS status.
Definition user_klog_status (status : Z) : user_call := user_syscall1 SYSCALL_KLOG_STATUS status.
Definition user_klog_read (buffer len : Z) : user_call := user_syscall2 SYSCALL_KLOG_READ buffer len.
Definition user_timer_status (status : Z) : user_call := user_syscall1 SYSCALL_TIMER_STATUS status.
Definition user_framebuffer_status (status : Z) : user_call := user_syscall1 SYSCALL_FRAMEBUFFER_STATUS status.
Definition user_kernel_heap_status (status : Z) : user_call := user_syscall1 SYSCALL_KERNEL_HEAP_STATUS status.
Definition user_app_count : user_call := user_syscall0 SYSCALL_APP_COUNT.
Definition user_app_info (index info : Z) : user_call := user_syscall2 SYSCALL_APP_INFO index info.
Definition user_app_run (index : Z) : user_call := user_syscall1 SYSCALL_APP_RUN index.
Definition user_app_run_path (path : Z) : user_call := user_syscall1 SYSCALL_APP_RUN_PATH path.
Definition user_fs_status (status : Z) : user_call := user_syscall1 SYSCALL_FS_STATUS status.
Definition user_fs_list (path entries max_entries : Z) : user_call :=
  user_syscall3 SYSCALL_FS_LIST path entries max_entries.
Definition user_fs_read (path buffer len offset : Z) : user_call :=
  user_syscall4 SYSCALL_FS_READ path buffer len offset.
Definition user_fs_getcwd (buffer len : Z) : user_call := user_syscall2 SYSCALL_FS_GETCWD buffer len.
Definition user_fs_chdir (path : Z) : user_call := user_syscall1 SYSCALL_FS_CHDIR path.
Definition user_fs_write (path buffer len offset : Z) : user_call :=
  user_syscall4 SYSCALL_FS_WRITE path buffer len offset.
Definition user_fs_create (path : Z) : user_call := user_syscall1 SYSCALL_FS_CREATE path.
Definition user_fs_mkdir (path : Z) : user_call := user_syscall1 SYSCALL_FS_MKDIR path.
Definition user_fs_unlink (path : Z) : user_call := user_syscall1 SYSCALL_FS_UNLINK path.
Definition user_fs_rmdir (path : Z) : user_call := user_syscall1 SYSCALL_FS_RMDIR path.
Definition user_fs_truncate (path size : Z) : user_call := user_syscall2 SYSCALL_FS_TRUNCATE path size.
Definition user_sbrk_call (increment : Z) : user_call := user_syscall1 SYSCALL_SBRK increment.

(** The interrupt frame of the call: the registers it sets, the rest as in [f]. *)
Definition trap_frame (f : interrupt_frame) (c : user_call) : interrupt_frame :=
  let arg i default := nth i (map u64 (uc_args c)) default in
  mk_iframe (if_r15 f) (if_r14 f) (if_r13 f) (if_r12 f) (if_r11 f) (arg 3%nat (if_r10 f)) (if_r9 f) (if_r8 f)
    (if_rbp f) (arg 0%nat (if_rdi f)) (arg 1%nat (if_rsi f)) (arg 2%nat (if_rdx f)) (if_rcx f) (if_rbx f)
    (u64 (uc_number c)) SYSCALL_VECTOR (if_error_code f) (if_rip f) (if_cs f) (if_rflags f) (if_user_rsp f)
    (if_user_ss f).

Section Service.
Context {F : Type} `{FsOps F}.

(** What the kernel does for a request, up to the return to the program. *)
Definition serve (k : kernel F) (f : interrupt_frame) (c : user_call) : res (outcome * kernel F) :=
  syscall_dispatch k (syscall_frame_of (trap_frame f c)).

Abbreviation frame f c := (syscall_frame_of (trap_frame f c)).

(** The arguments arrive in the order of the wrapper. *)
Lemma wrapper_arguments f a b c d number :
  sf_arg0 (frame f (user_syscall4 number a b c d)) = u64 a
  /\ sf_arg1 (frame f (user_syscall4 number a b c d)) = u64 b
  /\ sf_arg2 (frame f (user_syscall4 number a b c d)) = u64 c
  /\ sf_arg3 (frame f (user_syscall4 number a b c d)) = u64 d
  /\ sf_number (frame f (user_syscall4 number a b c d)) = u64 number.
Proof. repeat split; reflexivity. Qed.

(** Every wrapper is served by the handler of its name. *)
Theorem wrappers_reach_handlers (k : kernel F) f a b c d :
  serve k f (user_exit a) = sys_exit k (frame f (user_exit a))
  /\ serve k f user_read_event = sys_read_event k (frame f user_read_event)
  /\ serve k f (user_memory_status a) = sys_memory_status k (frame f (user_memory_status a))
  /\ serve k f (user_sbrk_call a) = sys_sbrk k (frame f (user_sbrk_call a))
  /\ serve k f (user_klog_status a) = sys_klog_status k (frame f (user_klog_status a))
  /\ serve k f (user_klog_read a b) = sys_klog_read k (frame f (user_klog_read a b))
  /\ serve k f (user_timer_status a) = sys_timer_status k (frame f (user_timer_status a))
  /\ serve k f (user_kernel_heap_status a) = sys_heap_status k (frame f (user_kernel_heap_status a))
  /\ serve k f (user_fs_list a b c) = sys_fs_list k (frame f (user_fs_list a b c))
  /\ serve k f (user_fs_read a b c d) = sys_fs_read k (frame f (user_fs_read a b c d))
  /\ serve k f (user_fs_getcwd a b) = sys_fs_getcwd k (frame f (user_fs_getcwd a b))
  /\ serve k f (user_fs_chdir a) = sys_fs_chdir k (frame f (user_fs_chdir a))
  /\ serve k f (user_fs_write a b c d) = sys_fs_write k (frame f (user_fs_write a b c d))
  /\ serve k f (user_app_run_path a) = sys_app_run_path k (frame f (user_app_run_path a)).
Proof. repeat split; reflexivity. Qed.
End Service.
