(* ===== verification/UserHeap.v ===== *)
(** * The heap of programs (src/libc/user/stdlib.c)

    [malloc] takes every block from sbrk and never reuses one. Under the law of
    a break that only moves up, its blocks are disjoint, keep their contents and
    never overlap a header; but they are 8 bytes off the alignment that
    [USER_MALLOC_ALIGN] asks for. *)

From Stdlib Require Import String.
From S2P Require Import Prelude Fs Stdio UserApi.

(** The break of a program: a successful sbrk returns the old break and moves it
    by the increment; a failed one changes nothing. *)
Class SbrkLaws (W : Type) `{UserApi W} : Type := {
  brk : W -> Z;
  brk_range w : 0 < brk w < 9223372036854775808;
  sbrk_law w n : 0 < n ->
    (fst (api_sbrk w n) = brk w /\ brk (snd (api_sbrk w n)) = brk w + n)
    \/ (fst (api_sbrk w n) < 0 /\ brk (snd (api_sbrk w n)) = brk w)
}.

(** The blocks handed out, newest first, as pairs of address and size: below
    [top], each with its header in place below it and above the next. *)
Fixpoint blocks_ok (m : mem) (top : Z) (blocks : list (Z * Z)) : Prop :=
  match blocks with
  | [] => True
  | (p, n) :: rest => p + n <= top /\ 0 <= n /\ 8 <= p /\ load64 m (p - 8) = n /\ blocks_ok m (p - 8) rest
  end.

Section UserHeap.
Context {W : Type} `{SbrkLaws W}.

Lemma blocks_ok_mono m top top' blocks : top <= top' -> blocks_ok m top blocks -> blocks_ok m top' blocks.
Proof. destruct blocks as [|[p n] rest]; cbn [blocks_ok]; [auto|]. intros Ht (H1 & H2). split; [lia | exact H2]. Qed.

(** Blocks do not depend on memory from [top] on. *)
Lemma blocks_ok_frame m m' blocks : forall top,
  (forall a, a < top -> m' a = m a) -> blocks_ok m top blocks -> blocks_ok m' top blocks.
Proof.
  induction blocks as [|[p n] rest IH]; intros top Hf; cbn [blocks_ok]; [auto|].
  intros (H1 & H2 & H3 & H4 & H5). repeat split; auto.
  - rewrite <- H4. unfold load. f_equal. apply mem_read_ext. intros k Hk. rewrite Hf by lia. reflexivity.
  - apply IH; [|exact H5]. intros a Ha. apply Hf. lia.
Qed.

Definition user_size (size : Z) : Z := align_up size USER_MALLOC_ALIGN.

Lemma user_size_spec size :
  0 < size <= 9223372036854775760 -> size <= user_size size < size + 16 /\ user_size size mod 16 = 0.
Proof.
  intros Hs. unfold user_size, USER_MALLOC_ALIGN. change 16 with (2 ^ 4). rewrite align_up_spec by lia.
  change (2 ^ 4) with 16. zlia.
Qed.

(** [malloc] hands out a new block below the new break, or nothing. *)
Theorem user_malloc_correct m (w : W) size blocks :
  0 < size <= 9223372036854775760 -> blocks_ok m (brk w) blocks ->
  let '(p, m', w') := user_malloc m w size in
  (p = 0 /\ m' = m /\ blocks_ok m' (brk w') blocks)
  \/ (p = brk w + 8 /\ size <= user_size size /\ blocks_ok m' (brk w') ((p, user_size size) :: blocks)
      /\ forall a, a < brk w \/ brk w + 8 <= a -> m' a = m a).
Proof.
  intros Hs Hb. unfold user_malloc. destruct (Z.eqb_spec size 0); [lia|].
  destruct (user_size_spec size Hs) as [Hu _]. fold (user_size size). unfold sizeof_allocation_header.
  rewrite u64_id by (unfold is_u64; lia).
  assert (Es : s64 (8 + user_size size) = 8 + user_size size).
  { unfold s64. rewrite u64_id by (unfold is_u64; lia). destruct (Z.ltb_spec (8 + user_size size) 9223372036854775808); lia. }
  rewrite Es. unfold user_sbrk. pose proof (sbrk_law w (8 + user_size size) ltac:(lia)) as Hl. pose proof (brk_range w).
  destruct (api_sbrk w (8 + user_size size)) as [r w']. cbn [fst snd] in Hl.
  destruct Hl as [[-> Hbrk]|[Hneg Hbrk]].
  - destruct (Z.ltb_spec (brk w) 0); [lia|]. destruct (Z.eqb_spec (brk w) 0); [lia|]. right.
    assert (Hfr : forall a, a < brk w \/ brk w + 8 <= a -> store64 m (brk w) (user_size size) a = m a).
    { intros a Ha. unfold store. apply mem_write_out. rewrite le_bytes_length. lia. }
    split; [reflexivity|]. split; [lia|]. split; [|exact Hfr]. cbn [blocks_ok]. rewrite Hbrk.
    repeat split; try lia.
    + replace (brk w + 8 - 8) with (brk w) by lia. rewrite load_store_eq. apply Z.mod_small. lia.
    + replace (brk w + 8 - 8) with (brk w) by lia. apply (blocks_ok_frame m); [|exact Hb].
      intros a Ha. apply Hfr. lia.
  - destruct (Z.ltb_spec r 0); [|lia]. change (0 =? 0) with true. cbn iota. left. rewrite Hbrk. auto.
Qed.

(** A block is aligned to 8 bytes only: the header shifts it off the alignment
    the size is rounded to. *)
Theorem user_malloc_misaligned m (w : W) size :
  0 < size <= 9223372036854775760 -> brk w mod 16 = 0 ->
  let '(p, _, _) := user_malloc m w size in p = 0 \/ p mod USER_MALLOC_ALIGN = 8.
Proof.
  intros Hs Hb. pose proof (user_malloc_correct m w size [] Hs I) as Hc.
  destruct (user_malloc m w size) as [[p m'] w']. destruct Hc as [[-> _]|(-> & _)]; [auto|].
  right. unfold USER_MALLOC_ALIGN. zlia.
Qed.

(** [realloc] keeps the contents: the new block starts with the bytes of the old
    one, as many as both hold, and the old blocks stay as they are. *)
Theorem user_realloc_keeps_contents m (w : W) p n size blocks :
  0 < size <= 9223372036854775760 -> blocks_ok m (brk w) ((p, n) :: blocks) ->
  let '(q, m', w') := user_realloc m w p size in
  q = 0 \/ (mem_read m' q (Z.to_nat (Z.min n size)) = mem_read m p (Z.to_nat (Z.min n size))
            /\ blocks_ok m' (brk w') ((q, user_size size) :: (p, n) :: blocks)).
Proof.
  intros Hs Hb. pose proof Hb as (H1 & H2 & H3 & H4 & H5). unfold user_realloc.
  destruct (Z.eqb_spec p 0); [lia|]. destruct (Z.eqb_spec size 0); [lia|].
  pose proof (user_malloc_correct m w size _ Hs Hb) as Hm.
  destruct (user_malloc m w size) as [[q m1] w1]. destruct Hm as [(-> & _)|(-> & Hu & Hb1 & Hfr)]; [left; reflexivity|].
  pose proof (brk_range w). destruct (Z.eqb_spec (brk w + 8) 0); [lia|]. right. unfold sizeof_allocation_header.
  assert (Hold : load64 m1 (p - 8) = n).
  { destruct Hb1 as (_ & _ & _ & _ & _ & _ & _ & E & _). exact E. }
  rewrite Hold. replace (if n <? size then n else size) with (Z.min n size) by (destruct (Z.ltb_spec n size); lia).
  assert (Hsrc : mem_read m1 p (Z.to_nat (Z.min n size)) = mem_read m p (Z.to_nat (Z.min n size))).
  { apply mem_read_ext. intros k Hk. rewrite Hfr by lia. reflexivity. }
  split.
  - rewrite Hsrc. apply mem_read_write_eq; [apply mem_read_byte | symmetry; apply mem_read_length].
  - destruct Hb1 as (B1 & B2 & B3 & B4 & B5).
    assert (Hout : forall a, a < brk w + 8 ->
              mem_write m1 (brk w + 8) (mem_read m1 p (Z.to_nat (Z.min n size))) a = m1 a)
      by (intros a Ha; apply mem_write_out; lia).
    split; [exact B1|]. split; [exact B2|]. split; [exact B3|]. split.
    + rewrite <- B4. unfold load. f_equal. apply mem_read_ext. intros k Hk. rewrite Hout by lia. reflexivity.
    + apply (blocks_ok_frame m1); [|exact B5]. intros a Ha. apply Hout. lia.
Qed.
End UserHeap.
