(* ===== verification/Block.v ===== *)
(** * Port input and output and block devices (src/arch/x86_64/io.h,
      src/drivers/block.c)

    The hardware behind the ports is the class [PortDevice]: what a read yields
    and how reads and writes change its state. The kernel side keeps that state,
    the trace of all accesses and the kernel log together in [machine]. A block
    device carries its driver's data and entry points, as in C. *)

From Stdlib Require Import String.
From S2P Require Import Prelude Klog Stdio UserApi.

Class PortDevice (W : Type) : Type := {
  dev_in8 : W -> Z -> Z * W;
  dev_in16 : W -> Z -> Z * W;
  dev_out8 : W -> Z -> Z -> W;
  dev_out16 : W -> Z -> Z -> W
}.

Inductive io_event : Type :=
  | In8 (port value : Z)
  | In16 (port value : Z)
  | Out8 (port value : Z)
  | Out16 (port value : Z).

(** [mc_io] lists the accesses, oldest first. *)
Record machine (W : Type) : Type := mk_machine {
  mc_device : W;
  mc_io : list io_event;
  mc_klog : klog
}.
Arguments mk_machine {W}.
Arguments mc_device {W}.
Arguments mc_io {W}.
Arguments mc_klog {W}.

Section Ports.
Context {W : Type} `{PortDevice W}.

(** ** io.h *)

Definition inb (s : machine W) (port : Z) : Z * machine W :=
  let '(v, d) := dev_in8 (mc_device s) port in
  (u8 v, mk_machine d (mc_io s ++ [In8 port (u8 v)]) (mc_klog s)).

Definition inw (s : machine W) (port : Z) : Z * machine W :=
  let '(v, d) := dev_in16 (mc_device s) port in
  (u16 v, mk_machine d (mc_io s ++ [In16 port (u16 v)]) (mc_klog s)).

Definition outb (s : machine W) (port v : Z) : machine W :=
  mk_machine (dev_out8 (mc_device s) port (u8 v)) (mc_io s ++ [Out8 port (u8 v)]) (mc_klog s).

Definition outw (s : machine W) (port v : Z) : machine W :=
  mk_machine (dev_out16 (mc_device s) port (u16 v)) (mc_io s ++ [Out16 port (u16 v)]) (mc_klog s).

Definition io_wait (s : machine W) : machine W := outb s 0x80 0.

(** [klog_printf] with arguments that fit the format. *)
Definition printk (s : machine W) (fmt : list Z) (args : list va_arg) : machine W :=
  match klog_printf (mc_klog s) fmt args with
  | Some k => mk_machine (mc_device s) (mc_io s) k
  | None => s
  end.
End Ports.

(** ** block.c *)

Definition BLOCK_MAX_DEVICES : Z := 8.
Definition BLOCK_DEVICE_NAME_SIZE : Z := 32.

(** A device of a driver with data [D] on the state [S]. [bd_read] yields its
    verdict and the bytes it stored from the start of the buffer on. *)
Record block_device (D S : Type) : Type := mk_block {
  bd_name : list Z;
  bd_sector_size : Z;
  bd_sector_count : Z;
  bd_writable : bool;
  bd_driver_data : option D;
  bd_read : option (option D -> list Z -> S -> Z -> Z -> bool * list Z * S);
  bd_write : option (option D -> list Z -> S -> Z -> list Z -> Z -> bool * S)
}.
Arguments mk_block {D S}.
Arguments bd_name {D S}.
Arguments bd_sector_size {D S}.
Arguments bd_sector_count {D S}.
Arguments bd_writable {D S}.
Arguments bd_driver_data {D S}.
Arguments bd_read {D S}.
Arguments bd_write {D S}.

Section Block.
Context {W D : Type} `{PortDevice W}.

Abbreviation device := (block_device D (machine W)).

Definition block_init : list device := [].

(** [devices] are the entries of the table below [device_count]. *)
Definition block_register (devices : list device) (s : machine W) (d : option device)
    : bool * list device * machine W :=
  match d with
  | None => (false, devices, s)
  | Some d =>
      if (bd_sector_size d =? 0) || (bd_sector_count d =? 0)
         || (match bd_read d with None => true | Some _ => false end)
         || (BLOCK_MAX_DEVICES <=? Z.of_nat (List.length devices))
      then (false, devices, s)
      else
        (true, devices ++ [d],
         printk s (text_line "block: registered %s sectors=%llu size=%u writable=%s") [VStr (Some (bd_name d)); VWord (bd_sector_count d); VWord (bd_sector_size d);
            VStr (Some (str (if bd_writable d then "yes" else "no")))])
  end.

Definition block_device_count (devices : list device) : Z := Z.of_nat (List.length devices).

Definition block_device_at (devices : list device) (index : Z) : option device :=
  if index <? block_device_count devices then nth_error devices (Z.to_nat index) else None.

Definition block_first_writable (devices : list device) : option device := List.find bd_writable devices.

(** The buffers are not NULL where these are called. *)
Definition block_read (d : option device) (s : machine W) (lba sector_count : Z)
    : bool * list Z * machine W :=
  match d with
  | None => (false, [], s)
  | Some d =>
      match bd_read d with
      | None => (false, [], s)
      | Some read =>
          if (sector_count =? 0) || (bd_sector_count d <? lba)
             || (u64 (bd_sector_count d - lba) <? sector_count)
          then (false, [], s)
          else read (bd_driver_data d) (bd_name d) s lba sector_count
      end
  end.

Definition block_write (d : option device) (s : machine W) (lba : Z) (buffer : list Z) (sector_count : Z)
    : bool * machine W :=
  match d with
  | None => (false, s)
  | Some d =>
      match bd_write d with
      | None => (false, s)
      | Some write =>
          if negb (bd_writable d) || (sector_count =? 0) || (bd_sector_count d <? lba)
             || (u64 (bd_sector_count d - lba) <? sector_count)
          then (false, s)
          else write (bd_driver_data d) (bd_name d) s lba buffer sector_count
      end
  end.
End Block.
