(* ===== verification/Ata.v ===== *)
(** * The ATA disk driver (src/drivers/ata.c)

    Programmed input and output on the two legacy channels. A loop that polls
    the status register is bounded by [ATA_TIMEOUT]; the device itself is the
    parameter of Block.v. *)

From Stdlib Require Import String.
From S2P Require Import Prelude Klog Stdio UserApi Block.

Definition ATA_SECTOR_SIZE : Z := 512.
Definition ATA_MAX_DEVICES : Z := 4.
Definition ATA_TIMEOUT : Z := 1000000.

Definition ATA_REG_DATA : Z := 0.
Definition ATA_REG_SECCOUNT0 : Z := 2.
Definition ATA_REG_LBA0 : Z := 3.
Definition ATA_REG_LBA1 : Z := 4.
Definition ATA_REG_LBA2 : Z := 5.
Definition ATA_REG_HDDEVSEL : Z := 6.
Definition ATA_REG_COMMAND : Z := 7.
Definition ATA_REG_STATUS : Z := 7.

Definition ATA_CMD_READ_SECTORS : Z := 0x20.
Definition ATA_CMD_WRITE_SECTORS : Z := 0x30.
Definition ATA_CMD_IDENTIFY : Z := 0xec.

Definition ATA_SR_ERR : Z := 0x01.
Definition ATA_SR_DRQ : Z := 0x08.
Definition ATA_SR_DF : Z := 0x20.
Definition ATA_SR_BSY : Z := 0x80.

Record ata_channel : Type := mk_channel { ch_io_base : Z; ch_control_base : Z; ch_name : list Z }.

(** The driver data of a device; its block device is a separate record. *)
Record ata_device : Type := mk_ata { ad_channel : ata_channel; ad_drive : Z }.

Definition channels : list ata_channel :=
  [mk_channel 0x1f0 0x3f6 (str "ata0"); mk_channel 0x170 0x376 (str "ata1")].

Section Ata.
Context {W : Type} `{PortDevice W}.

Abbreviation state := (machine W).
Abbreviation device := (block_device ata_device (machine W)).

Definition ata_status (s : state) (c : ata_channel) : Z * state := inb s (ch_io_base c + ATA_REG_STATUS).

Definition ata_delay (s : state) (c : ata_channel) : state :=
  let '(_, s) := inb s (ch_control_base c) in
  let '(_, s) := inb s (ch_control_base c) in
  let '(_, s) := inb s (ch_control_base c) in
  let '(_, s) := inb s (ch_control_base c) in
  s.

(** A polling loop that has run out of turns gives up. *)
Definition gave_up (c : ctl state (bool * state)) : bool * state :=
  match c with Break r => r | Cont s => (false, s) end.

Definition ata_wait_not_busy (s : state) (c : ata_channel) : bool * state :=
  gave_up (range_loop 0 ATA_TIMEOUT 1 (fun _ s =>
    let '(status, s) := ata_status s c in
    if Z.land status ATA_SR_BSY =? 0 then Break (true, s) else Cont s) s).

Definition ata_wait_drq (s : state) (c : ata_channel) : bool * state :=
  gave_up (range_loop 0 ATA_TIMEOUT 1 (fun _ s =>
    let '(status, s) := ata_status s c in
    if negb (Z.land status (Z.lor ATA_SR_ERR ATA_SR_DF) =? 0) then Break (false, s)
    else if (Z.land status ATA_SR_BSY =? 0) && negb (Z.land status ATA_SR_DRQ =? 0) then Break (true, s)
    else Cont s) s).

Definition ata_select_drive (s : state) (c : ata_channel) (drive : Z) : state :=
  let s := outb s (ch_io_base c + ATA_REG_HDDEVSEL) (Z.lor 0xa0 (Z.shiftl (Z.land drive 1) 4)) in
  ata_delay s c.

Definition ata_select_lba28 (s : state) (c : ata_channel) (drive lba sectors : Z) : bool * state :=
  let '(ok, s) := ata_wait_not_busy s c in
  if negb ok then (false, s)
  else
    let s := outb s (ch_io_base c + ATA_REG_HDDEVSEL)
               (Z.lor (Z.lor 0xe0 (Z.shiftl (Z.land drive 1) 4)) (Z.land (Z.shiftr lba 24) 0x0f)) in
    let s := outb s (ch_io_base c + ATA_REG_SECCOUNT0) sectors in
    let s := outb s (ch_io_base c + ATA_REG_LBA0) lba in
    let s := outb s (ch_io_base c + ATA_REG_LBA1) (Z.shiftr lba 8) in
    let s := outb s (ch_io_base c + ATA_REG_LBA2) (Z.shiftr lba 16) in
    (true, s).

(** Read [n] words from the data register: their bytes. *)
Fixpoint read_words (n : nat) (s : state) (c : ata_channel) : list Z * state :=
  match n with
  | O => ([], s)
  | S n =>
      let '(v, s) := inw s (ch_io_base c + ATA_REG_DATA) in
      let '(rest, s) := read_words n s c in
      (le_bytes 2 v ++ rest, s)
  end.

(** Write the first [n] words of [buffer] to the data register. *)
Fixpoint write_words (n : nat) (s : state) (c : ata_channel) (buffer : list Z) : state :=
  match n with
  | O => s
  | S n => write_words n (outw s (ch_io_base c + ATA_REG_DATA) (le_word (firstn 2 buffer))) c (skipn 2 buffer)
  end.

Definition ata_read_one (d : ata_device) (s : state) (lba : Z) : bool * list Z * state :=
  let c := ad_channel d in
  let '(ok, s) := ata_select_lba28 s c (ad_drive d) lba 1 in
  if negb ok then (false, [], s)
  else
    let s := outb s (ch_io_base c + ATA_REG_COMMAND) ATA_CMD_READ_SECTORS in
    let '(ok, s) := ata_wait_drq s c in
    if negb ok then (false, [], s)
    else
      let '(bytes, s) := read_words (Z.to_nat (ATA_SECTOR_SIZE / 2)) s c in
      (true, bytes, ata_delay s c).

Definition ata_write_one (d : ata_device) (s : state) (lba : Z) (buffer : list Z) : bool * state :=
  let c := ad_channel d in
  let '(ok, s) := ata_select_lba28 s c (ad_drive d) lba 1 in
  if negb ok then (false, s)
  else
    let s := outb s (ch_io_base c + ATA_REG_COMMAND) ATA_CMD_WRITE_SECTORS in
    let '(ok, s) := ata_wait_drq s c in
    if negb ok then (false, s)
    else (true, ata_delay (write_words (Z.to_nat (ATA_SECTOR_SIZE / 2)) s c buffer) c).

Definition ATA_MAX_LBA : Z := 0x10000000.

(** The bytes stored before a failure are yielded too. *)
Definition ata_block_read (data : option ata_device) (name : list Z) (s : state) (lba sector_count : Z)
    : bool * list Z * state :=
  match data with
  | None => (false, [], s)
  | Some d =>
      if ATA_MAX_LBA <? u64 (lba + sector_count) then (false, [], s)
      else
        match range_loop 0 sector_count 1 (fun i '(out, s) =>
          let '(ok, bytes, s) := ata_read_one d s (u32 (lba + i)) in
          if negb ok
          then Break (out, printk s (text_line "ata: read failed device=%s lba=%llu") [VStr (Some name); VWord (u64 (lba + i))])
          else Cont (out ++ bytes, s)) ([], s) with
        | Break (out, s) => (false, out, s)
        | Cont (out, s) => (true, out, s)
        end
  end.

Definition ata_block_write (data : option ata_device) (name : list Z) (s : state) (lba : Z)
    (buffer : list Z) (sector_count : Z) : bool * state :=
  match data with
  | None => (false, s)
  | Some d =>
      if ATA_MAX_LBA <? u64 (lba + sector_count) then (false, s)
      else
        match range_loop 0 sector_count 1 (fun i s =>
          let '(ok, s) := ata_write_one d s (u32 (lba + i)) (skipn (Z.to_nat (i * ATA_SECTOR_SIZE)) buffer) in
          if negb ok
          then Break (printk s (text_line "ata: write failed device=%s lba=%llu") [VStr (Some name); VWord (u64 (lba + i))])
          else Cont s) s with
        | Break s => (false, s)
        | Cont s => (true, s)
        end
  end.

(** ** Detection *)

Fixpoint trim_blanks (n : nat) (s : list Z) : list Z :=
  match n with
  | O => s
  | S n => if nth n s 0 =? 32 then trim_blanks n (firstn n s) else s
  end.

(** The characters of [dest], terminated inside its [dest_size] bytes. *)
Definition ata_model_string (dest_size : Z) (identify : list Z) : list Z :=
  if dest_size =? 0 then []
  else
    let push (dest : list Z) (ch : Z) :=
      if Z.of_nat (List.length dest) + 1 <? dest_size then dest ++ [ch] else dest in
    let dest := loop_state (range_loop 27 47 1 (fun word dest =>
                  if Z.of_nat (List.length dest) + 1 <? dest_size then
                    let w := nth (Z.to_nat word) identify 0 in
                    Cont (push (push dest (Z.shiftr w 8)) (Z.land w 0xff))
                  else Break dest) []) in
    trim_blanks (List.length dest) dest.

(** The 256 words of the answer, or [None]. *)
Definition ata_identify (s : state) (c : ata_channel) (drive : Z) : option (list Z) * state :=
  let s := ata_select_drive s c drive in
  let s := outb s (ch_io_base c + ATA_REG_SECCOUNT0) 0 in
  let s := outb s (ch_io_base c + ATA_REG_LBA0) 0 in
  let s := outb s (ch_io_base c + ATA_REG_LBA1) 0 in
  let s := outb s (ch_io_base c + ATA_REG_LBA2) 0 in
  let s := outb s (ch_io_base c + ATA_REG_COMMAND) ATA_CMD_IDENTIFY in
  let s := ata_delay s c in
  let '(status, s) := ata_status s c in
  if status =? 0 then (None, s)
  else
    let '(ok, s) := ata_wait_not_busy s c in
    if negb ok then (None, s)
    else
      let '(lba1, s) := inb s (ch_io_base c + ATA_REG_LBA1) in
      let '(lba2, s) := inb s (ch_io_base c + ATA_REG_LBA2) in
      if negb (lba1 =? 0) || negb (lba2 =? 0) then (None, s)
      else
        let '(ok, s) := ata_wait_drq s c in
        if negb ok then (None, s)
        else
          let '(words, s) := loop_state (range_loop 0 256 1 (fun _ '(words, s) =>
                               let '(v, s) := inw s (ch_io_base c + ATA_REG_DATA) in
                               Cont (words ++ [v], s)) ([], s)) in
          (Some words, s).

(** What a string function sees of an array: the bytes before the first zero. *)
Fixpoint before_nul (s : list Z) : list Z :=
  match s with
  | ch :: s => if ch =? 0 then [] else ch :: before_nul s
  | [] => []
  end.

(** The name of a device: the channel's and the drive's, cut to the array. *)
Definition device_name (c : ata_channel) (drive : Z) : list Z :=
  let name := firstn (Z.to_nat (BLOCK_DEVICE_NAME_SIZE - 1)) (ch_name c) in
  let suffix := if drive =? 0 then str "-master" else str "-slave" in
  let used := Z.of_nat (List.length name) in
  let suffix_len := Z.of_nat (List.length suffix) in
  let suffix_len := if BLOCK_DEVICE_NAME_SIZE - used <=? suffix_len
                    then BLOCK_DEVICE_NAME_SIZE - used - 1 else suffix_len in
  name ++ firstn (Z.to_nat suffix_len) suffix.

(** The state of detection: the number of ATA devices and the registered block
    devices. *)
Definition ata_probe_drive (s : state) (device_count : Z) (devices : list device) (c : ata_channel) (drive : Z)
    : Z * list device * state :=
  if ATA_MAX_DEVICES <=? device_count then (device_count, devices, s)
  else
    let '(identify, s) := ata_identify s c drive in
    match identify with
    | None => (device_count, devices, s)
    | Some identify =>
        let sectors28 := Z.lor (nth 60 identify 0) (u32 (Z.shiftl (nth 61 identify 0) 16)) in
        if sectors28 =? 0 then
          (device_count, devices,
           printk s (text_line "ata: %s %s has no LBA28 sector count")
             [VStr (Some (ch_name c)); VStr (Some (if drive =? 0 then str "master" else str "slave"))])
        else
          let name := device_name c drive in
          let block := mk_block name ATA_SECTOR_SIZE sectors28 true (Some (mk_ata c drive))
                         (Some ata_block_read) (Some ata_block_write) in
          let model := before_nul (ata_model_string 48 identify) in
          let s := printk s (str "ata: found %s model=" ++ [34] ++ str "%s" ++ [34] ++ text_line " sectors=%u")
                     [VStr (Some name); VStr (Some model); VWord sectors28] in
          let '(ok, devices, s) := block_register devices s (Some block) in
          ((if ok then device_count + 1 else device_count), devices, s)
    end.

Definition ata_init (s : state) (devices : list device) : Z * list device * state :=
  let '(device_count, devices, s) :=
    fold_left (fun '(device_count, devices, s) c =>
      let s := outb s (ch_control_base c) 0x02 in
      let '(device_count, devices, s) := ata_probe_drive s device_count devices c 0 in
      ata_probe_drive s device_count devices c 1) channels (0, devices, s) in
  (device_count, devices,
   printk s (text_line "ata: initialized devices=%u") [VWord device_count]).

Definition ata_device_count (device_count : Z) : Z := device_count.
End Ata.
