(* ===== verification/Rootfs.v ===== *)
(** * Mounting the root file system (src/fs/rootfs.c)

    The whole file system is read from a block device into one block of the
    kernel heap, which then is the ext2 image; the write-back function writes it
    back as a whole. [verdict] is what the disk will answer to the write-backs
    of the mounted file system, which Ext2Ops.v asks for; [rootfs_writeback] is
    how the answer comes about. *)

From Stdlib Require Import String.
From S2P Require Import Prelude Klog Vmm Pages Heap Ext2Image Ext2Ops Stdio UserApi Block.

Definition ROOTFS_LABEL : list Z := str "WHIRLROOT".
Definition ROOTFS_MAX_BYTES : Z := 64 * 1024 * 1024.

Section Rootfs.
Context {W D P : Type} `{PortDevice W} `{PageOps P}.

Abbreviation device := (block_device D (machine W)).

Record rootfs_disk : Type := mk_disk { rd_device : option device; rd_sector_count : Z }.

(** [mounted_rootfs] before a mount, and after one that failed. *)
Definition no_rootfs : rootfs_disk := mk_disk None 0.

Definition rootfs_writeback (rootfs : option rootfs_disk) (s : machine W) (image : option mem)
    (image_size : Z) : bool * machine W :=
  match rootfs, image with
  | Some r, Some image =>
      match rd_device r with
      | None => (false, s)
      | Some d =>
          if image_size =? 0 then (false, s)
          else
            let bytes := u64 (rd_sector_count r * bd_sector_size d) in
            if bytes <? image_size then (false, s)
            else
              let '(ok, s) := block_write (Some d) s 0 (mem_read image 0 (Z.to_nat bytes)) (rd_sector_count r) in
              (ok, if negb ok then printk s (text_line "rootfs: writeback failed on %s") [VStr (Some (bd_name d))] else s)
      end
  | _, _ => (false, s)
  end.

(** [fs_bytes] and [fs_sectors] of an acceptable device. *)
Definition validate_candidate (d : device) (s : machine W) : option (Z * Z) * machine W :=
  let skip (fmt : string) s := (None, printk s (text_line fmt) [VStr (Some (bd_name d))]) in
  if negb (bd_sector_size d =? 512) || (bd_sector_count d <? 4)
  then skip "rootfs: skipping %s unsupported sector geometry"%string s
  else
    let '(ok, bytes, s) := block_read (Some d) s 0 (2048 / 512) in
    if negb ok then skip "rootfs: skipping %s initial read failed"%string s
    else
      let probe := mem_write (fun _ => 0) 0 bytes in
      if negb (sb_magic probe =? EXT2_SUPER_MAGIC) then skip "rootfs: skipping %s no ext2 magic"%string s
      else if (2 <? sb_log_block_size probe) || (sb_blocks_count probe =? 0)
      then skip "rootfs: skipping %s unsupported ext2 block size"%string s
      else if negb (bool_decide (firstn (List.length ROOTFS_LABEL) (sb_volume_name probe) = ROOTFS_LABEL))
      then
        (None, printk s (text_line "rootfs: skipping %s ext2 label is not %s")
                 [VStr (Some (bd_name d)); VStr (Some ROOTFS_LABEL)])
      else
        let block_size := Z.shiftl 1024 (sb_log_block_size probe) in
        let bytes := u64 (sb_blocks_count probe * block_size) in
        if (bytes =? 0) || (ROOTFS_MAX_BYTES <? bytes)
        then
          (None, printk s (text_line "rootfs: skipping %s ext2 image too large (%llu bytes)")
                   [VStr (Some (bd_name d)); VWord bytes])
        else
          let sectors := (bytes + bd_sector_size d - 1) / bd_sector_size d in
          if bd_sector_count d <? sectors then skip "rootfs: skipping %s ext2 exceeds device size"%string s
          else (Some (sectors * bd_sector_size d, sectors), s).

(** What mounting changes: the machine, the heap, [mounted_rootfs] and the
    variables of ext2.c. *)
Record root_state : Type := mk_root {
  rf_machine : machine W;
  rf_heap : kheap P;
  rf_disk : rootfs_disk;
  rf_ext2 : ext2
}.

Definition with_machine (y : root_state) (s : machine W) : root_state :=
  mk_root s (rf_heap y) (rf_disk y) (rf_ext2 y).

(** The heap memory from the address [p] on, as an image. *)
Definition image_of (m : mem) (p : Z) : mem := fun a => m (p + a).

Definition try_mount_device (verdict : mem -> Z -> bool) (y : root_state) (d : device)
    : res (bool * root_state) :=
  let '(r, s) := validate_candidate d (rf_machine y) in
  let y := with_machine y s in
  match r with
  | None => Ret (false, y)
  | Some (fs_bytes, fs_sectors) =>
      kmalloc (rf_heap y) fs_bytes ≫= fun '(image, h) =>
      let y := mk_root (rf_machine y) h (rf_disk y) (rf_ext2 y) in
      if image =? 0 then
        Ret (false, with_machine y (printk (rf_machine y) (text_line "rootfs: cannot allocate %llu bytes for %s")
                                      [VWord fs_bytes; VStr (Some (bd_name d))]))
      else
        let '(ok, bytes, s) := block_read (Some d) (rf_machine y) 0 fs_sectors in
        let h := with_mem h (mem_write (kh_mem h) image bytes) in
        if negb ok then
          let s := printk s (text_line "rootfs: full read failed from %s") [VStr (Some (bd_name d))] in
          kfree h image ≫= fun h => Ret (false, mk_root s h (rf_disk y) (rf_ext2 y))
        else
          let '(mounted, x) := ext2_mount_with_writeback (Some (image_of (kh_mem h) image)) fs_bytes verdict in
          if negb mounted then
            let s := printk s (text_line "rootfs: ext2 mount failed from %s") [VStr (Some (bd_name d))] in
            kfree h image ≫= fun h => Ret (false, mk_root s h no_rootfs x)
          else
            let s := printk s (text_line "rootfs: mounted writable ext2 from %s bytes=%llu")
                       [VStr (Some (bd_name d)); VWord fs_bytes] in
            Ret (true, mk_root s h (mk_disk (Some d) fs_sectors) x)
  end.

Definition rootfs_mount_from_block_devices (verdict : mem -> Z -> bool) (y : root_state) (devices : list device)
    : res (bool * root_state) :=
  mrange 0 (block_device_count devices) 1 (fun i y =>
    match block_device_at devices i with
    | Some d =>
        if bd_writable d then
          try_mount_device verdict y d ≫= fun '(ok, y) =>
          Ret (if (ok : bool) then Break y else Cont y)
        else Ret (Cont y)
    | None => Ret (Cont y)
    end) y ≫= fun c =>
  match c with
  | Break y => Ret (true, y)
  | Cont y => Ret (false, with_machine y (printk (rf_machine y) (text_line "rootfs: no writable block rootfs found") []))
  end.
End Rootfs.
