(* ===== verification/AtaProofs.v ===== *)
(** * What the disk driver tells the disk

    Nothing is assumed of the device: the theorems are about the outputs the
    kernel sends, whatever the ports answer. The outputs of a sector write are
    decoded by the register layout of the ATA task file (28-bit LBA), and the
    write-back of the root file system is shown to be the writes of its sectors
    in order. *)

From Stdlib Require Import String.
From S2P Require Import Prelude Klog Vmm Pages Heap Ext2Image Ext2Ops Stdio UserApi Block Ata Rootfs.

Definition is_output (e : io_event) : bool :=
  match e with Out8 _ _ | Out16 _ _ => true | _ => false end.

Definition outputs (io : list io_event) : list io_event := List.filter is_output io.

(** The kernel got from [s] to [s'] by sending [evs] and any reads. *)
Definition emits {W} (s s' : machine W) (evs : list io_event) : Prop :=
  exists io, mc_io s' = mc_io s ++ io /\ outputs io = evs.

(** ** Sector writes *)

Record disk_write : Type := mk_write { dw_drive : Z; dw_lba : Z; dw_data : list Z }.

Definition word_of (base : Z) (e : io_event) : list Z :=
  match e with Out16 p v => if p =? base then le_bytes 2 v else [] | _ => [] end.

(** The write command that a sequence of outputs to the channel at [base] is. *)
Definition decode_write (base : Z) (evs : list io_event) : option disk_write :=
  match evs with
  | Out8 p6 dev :: Out8 p2 n :: Out8 p3 l0 :: Out8 p4 l1 :: Out8 p5 l2 :: Out8 p7 cmd :: data =>
      if (p6 =? base + 6) && (p2 =? base + 2) && (p3 =? base + 3) && (p4 =? base + 4) && (p5 =? base + 5)
         && (p7 =? base + 7) && (cmd =? 0x30) && (n =? 1) && Z.testbit dev 6
      then Some (mk_write (Z.land (Z.shiftr dev 4) 1)
                   (l0 + 256 * l1 + 65536 * l2 + 16777216 * Z.land dev 0x0f) (flat_map (word_of base) data))
      else None
  | _ => None
  end.

Section Outputs.
Context {W : Type} `{PortDevice W}.

Lemma emits_refl (s : machine W) : emits s s [].
Proof. exists []. rewrite app_nil_r. auto. Qed.

Lemma emits_trans (s s1 s2 : machine W) a b : emits s s1 a -> emits s1 s2 b -> emits s s2 (a ++ b).
Proof.
  intros (io1 & E1 & <-) (io2 & E2 & <-). exists (io1 ++ io2). rewrite E2, E1, app_assoc. split; [reflexivity|].
  apply List.filter_app.
Qed.

Lemma emits_silent (s s1 s2 : machine W) a : emits s s1 a -> emits s1 s2 [] -> emits s s2 a.
Proof. intros H1 H2. rewrite <- (app_nil_r a). exact (emits_trans _ _ _ _ _ H1 H2). Qed.

Lemma emits_outb (s : machine W) p v : emits s (outb s p v) [Out8 p (u8 v)].
Proof. exists [Out8 p (u8 v)]. auto. Qed.

Lemma emits_outw (s : machine W) p v : emits s (outw s p v) [Out16 p (u16 v)].
Proof. exists [Out16 p (u16 v)]. auto. Qed.

Lemma emits_inb (s : machine W) p : emits s (snd (inb s p)) [].
Proof. unfold inb. destruct (dev_in8 _ _) as [v d]. exists [In8 p (u8 v)]. auto. Qed.

Lemma emits_printk (s : machine W) fmt args : emits s (printk s fmt args) [].
Proof. unfold printk. destruct (klog_printf _ _ _); [exists []; rewrite app_nil_r; auto | apply emits_refl]. Qed.

Lemma emits_delay (s : machine W) c : emits s (ata_delay s c) [].
Proof.
  unfold ata_delay.
  pose proof (emits_inb s (ch_control_base c)) as E1. destruct (inb s _) as [v1 s1].
  pose proof (emits_inb s1 (ch_control_base c)) as E2. destruct (inb s1 _) as [v2 s2].
  pose proof (emits_inb s2 (ch_control_base c)) as E3. destruct (inb s2 _) as [v3 s3].
  pose proof (emits_inb s3 (ch_control_base c)) as E4. destruct (inb s3 _) as [v4 s4]. cbn [snd] in *.
  exact (emits_trans _ _ _ _ _ (emits_trans _ _ _ _ _ (emits_trans _ _ _ _ _ E1 E2) E3) E4).
Qed.

(** A loop that only reads sends nothing. *)
Lemma emits_poll (s : machine W) body :
  (forall s s1, emits s s1 [] ->
     match body s1 with Cont s2 => emits s s2 [] | Break (_, s2) => emits s s2 [] end) ->
  emits s (snd (gave_up (range_loop 0 ATA_TIMEOUT 1 (fun _ s1 => body s1) s))) [].
Proof.
  intros Hb. apply (range_loop_ind (fun _ s1 => emits s s1 []) (fun r => emits s (snd (gave_up r)) [])).
  - unfold ATA_TIMEOUT. lia.
  - apply emits_refl.
  - intros k s1 _ H1. specialize (Hb s s1 H1). destruct (body s1) as [s2|[ok s2]]; exact Hb.
  - intros s1 H1. exact H1.
Qed.

Lemma emits_wait_not_busy (s : machine W) c : emits s (snd (ata_wait_not_busy s c)) [].
Proof.
  apply emits_poll. intros s0 s1 H1. pose proof (emits_inb s1 (ch_io_base c + ATA_REG_STATUS)) as E.
  unfold ata_status. destruct (inb s1 _) as [v s2]. destruct (_ =? 0); exact (emits_trans _ _ _ _ _ H1 E).
Qed.

Lemma emits_wait_drq (s : machine W) c : emits s (snd (ata_wait_drq s c)) [].
Proof.
  apply emits_poll. intros s0 s1 H1. pose proof (emits_inb s1 (ch_io_base c + ATA_REG_STATUS)) as E.
  unfold ata_status. destruct (inb s1 _) as [v s2].
  destruct (negb _); [|destruct (_ && _)]; exact (emits_trans _ _ _ _ _ H1 E).
Qed.

(** The outputs that select a sector and give the write command. *)
Definition write_setup (d : ata_device) (lba : Z) : list io_event :=
  let base := ch_io_base (ad_channel d) in
  [Out8 (base + 6) (u8 (Z.lor (Z.lor 0xe0 (Z.shiftl (Z.land (ad_drive d) 1) 4)) (Z.land (Z.shiftr lba 24) 0x0f)));
   Out8 (base + 2) (u8 1); Out8 (base + 3) (u8 lba); Out8 (base + 4) (u8 (Z.shiftr lba 8));
   Out8 (base + 5) (u8 (Z.shiftr lba 16)); Out8 (base + 7) (u8 0x30)].

Fixpoint words (n : nat) (base : Z) (buffer : list Z) : list io_event :=
  match n with
  | O => []
  | S n => Out16 base (u16 (le_word (firstn 2 buffer))) :: words n base (skipn 2 buffer)
  end.

Lemma emits_write_words n c : forall (s : machine W) buffer,
  emits s (write_words n s c buffer) (words n (ch_io_base c + 0) buffer).
Proof.
  induction n as [|n IH]; intros s buffer; [apply emits_refl|]. cbn [write_words words].
  exact (emits_trans _ _ _ _ _ (emits_outw s _ _) (IH _ (skipn 2 buffer))).
Qed.

(** A sector write sends its setup and the words of the sector, or fails having
    sent no word of data. *)
Lemma ata_write_one_emits d (s : machine W) lba buffer :
  let '(ok, s') := ata_write_one d s lba buffer in
  if ok then emits s s' (write_setup d lba ++ words 256 (ch_io_base (ad_channel d) + 0) buffer)
  else emits s s' [] \/ emits s s' (write_setup d lba).
Proof.
  unfold ata_write_one, ata_select_lba28.
  pose proof (emits_wait_not_busy s (ad_channel d)) as E1. destruct (ata_wait_not_busy s (ad_channel d)) as [ok1 s1].
  cbn [snd] in E1. destruct ok1; cbn [negb]; [|left; exact E1].
  set (s6 := outb (outb (outb (outb (outb s1 _ _) _ _) _ _) _ _) _ _).
  assert (E6 : emits s (outb s6 (ch_io_base (ad_channel d) + ATA_REG_COMMAND) ATA_CMD_WRITE_SECTORS) (write_setup d lba)).
  { change (write_setup d lba) with ([] ++ write_setup d lba). eapply emits_trans; [exact E1|].
    unfold write_setup. cbv zeta.
    exists (write_setup d lba). unfold s6. cbn [outb mc_io]. rewrite <- !app_assoc. split; reflexivity. }
  pose proof (emits_wait_drq (outb s6 (ch_io_base (ad_channel d) + ATA_REG_COMMAND) ATA_CMD_WRITE_SECTORS) (ad_channel d)) as E7.
  destruct (ata_wait_drq _ (ad_channel d)) as [ok7 s7]. cbn [snd] in E7.
  pose proof (emits_silent _ _ _ _ E6 E7) as E8.
  destruct ok7; cbn [negb]; [|right; exact E8].
  change (Z.to_nat (ATA_SECTOR_SIZE / 2)) with 256%nat.
  exact (emits_silent _ _ _ _ (emits_trans _ _ _ _ _ E8 (emits_write_words 256 (ad_channel d) s7 buffer))
    (emits_delay _ (ad_channel d))).
Qed.

(** ** Decoding *)

Lemma words_data base n : forall buffer,
  (2 * n <= List.length buffer)%nat -> List.Forall is_byte buffer ->
  flat_map (word_of base) (words n base buffer) = firstn (2 * n) buffer.
Proof.
  induction n as [|n IH]; intros buffer Hl Hb; [reflexivity|].
  destruct buffer as [|a [|b rest]]; [cbn in Hl; lia | cbn in Hl; lia |].
  apply List.Forall_cons_iff in Hb as [Ha Hb]. apply List.Forall_cons_iff in Hb as [Hb Hr].
  assert (Hn : (2 * n <= List.length rest)%nat) by (cbn [List.length] in Hl; lia).
  replace (2 * S n)%nat with (S (S (2 * n))) by lia. cbn [words flat_map].
  change (skipn 2 (a :: b :: rest)) with rest. change (firstn 2 (a :: b :: rest)) with [a; b].
  rewrite (IH rest Hn Hr). cbn [firstn]. unfold word_of at 1. rewrite Z.eqb_refl. cbn [le_word le_bytes app]. unfold is_byte in Ha, Hb.
  f_equal; [|f_equal]; zlia.
Qed.

Lemma device_byte drive h :
  0 <= h < 16 ->
  let dev := u8 (Z.lor (Z.lor 0xe0 (Z.shiftl (Z.land drive 1) 4)) h) in
  Z.testbit dev 6 = true /\ Z.land (Z.shiftr dev 4) 1 = Z.land drive 1 /\ Z.land dev 0x0f = h.
Proof.
  intros Hh. assert (Hd : Z.land drive 1 = 0 \/ Z.land drive 1 = 1).
  { pose proof (land_low drive 1 ltac:(lia)) as E. change (2 ^ 1 - 1) with 1 in E. rewrite E.
    pose proof (Z.mod_pos_bound drive (2 ^ 1) ltac:(lia)) as Hm. change (2 ^ 1) with 2 in *. lia. }
  assert (Hc : h = 0 \/ h = 1 \/ h = 2 \/ h = 3 \/ h = 4 \/ h = 5 \/ h = 6 \/ h = 7 \/ h = 8 \/ h = 9 \/ h = 10
    \/ h = 11 \/ h = 12 \/ h = 13 \/ h = 14 \/ h = 15) by lia.
  destruct Hd as [-> | ->]; repeat destruct Hc as [-> | Hc]; subst; vm_compute; auto.
Qed.

(** The registers of a sector: the bit that selects block addresses, the drive
    and the address. *)
Lemma task_registers d lba :
  0 <= lba < ATA_MAX_LBA ->
  let dev := u8 (Z.lor (Z.lor 0xe0 (Z.shiftl (Z.land (ad_drive d) 1) 4)) (Z.land (Z.shiftr lba 24) 0x0f)) in
  Z.testbit dev 6 = true /\ Z.land (Z.shiftr dev 4) 1 = Z.land (ad_drive d) 1
  /\ u8 lba + 256 * u8 (Z.shiftr lba 8) + 65536 * u8 (Z.shiftr lba 16) + 16777216 * Z.land dev 0x0f = lba.
Proof.
  intros Hlba. unfold ATA_MAX_LBA in Hlba.
  assert (Hh : 0 <= Z.land (Z.shiftr lba 24) 0x0f < 16).
  { change 0x0f with (2 ^ 4 - 1). rewrite land_low by lia. apply Z.mod_pos_bound. lia. }
  destruct (device_byte (ad_drive d) _ Hh) as (D1 & D2 & D3). cbv zeta.
  split; [exact D1|]. split; [exact D2|]. rewrite D3.
  change 0x0f with (2 ^ 4 - 1). rewrite land_low, !Z.shiftr_div_pow2 by lia. clear -Hlba.
  change (2 ^ 4) with 16. change (2 ^ 8) with 256. change (2 ^ 16) with 65536. change (2 ^ 24) with 16777216. zlia.
Qed.

Lemma decode_sector d lba buffer :
  0 <= lba < ATA_MAX_LBA -> (512 <= List.length buffer)%nat -> List.Forall is_byte buffer ->
  decode_write (ch_io_base (ad_channel d)) (write_setup d lba ++ words 256 (ch_io_base (ad_channel d) + 0) buffer)
  = Some (mk_write (Z.land (ad_drive d) 1) lba (firstn 512 buffer)).
Proof.
  intros Hlba Hl Hb. destruct (task_registers d lba Hlba) as (D1 & D2 & D3). unfold write_setup. cbv zeta.
  set (base := ch_io_base (ad_channel d)). replace (base + 0) with base by lia.
  set (dev := u8 (Z.lor _ (Z.land (Z.shiftr lba 24) 15))) in *. cbn [app decode_write].
  rewrite !Z.eqb_refl, D1, D2, D3. change (u8 48 =? 0x30) with true. change (u8 1 =? 1) with true. cbn [andb].
  f_equal. f_equal. apply (words_data base 256); assumption.
Qed.

(** ** Many sectors *)

(** The outputs of the first sectors of a block write, one list a sector. *)
Definition sectors_sent (d : ata_device) (lba : Z) (buffer : list Z) (n : nat) : list (list io_event) :=
  map (fun i => write_setup d (lba + Z.of_nat i)
                ++ words 256 (ch_io_base (ad_channel d) + 0) (skipn (i * 512) buffer)) (seq 0 n).

Lemma ata_block_write_emits d name (s : machine W) lba buffer n :
  0 <= lba -> 0 <= n -> lba + n <= ATA_MAX_LBA ->
  let '(ok, s') := ata_block_write (Some d) name s lba buffer n in
  if ok then emits s s' (concat (sectors_sent d lba buffer (Z.to_nat n)))
  else exists k, 0 <= k < n
    /\ (emits s s' (concat (sectors_sent d lba buffer (Z.to_nat k)))
        \/ emits s s' (concat (sectors_sent d lba buffer (Z.to_nat k)) ++ write_setup d (lba + k))).
Proof.
  intros Hlba Hn Hmax. unfold ata_block_write, ATA_MAX_LBA in *. rewrite u64_id by (unfold is_u64; lia).
  destruct (Z.ltb_spec 268435456 (lba + n)); [lia|].
  apply (range_loop_ind (fun k s1 => emits s s1 (concat (sectors_sent d lba buffer (Z.to_nat k))))
    (fun r => let '(ok, s') := match r with Break s1 => (false, s1) | Cont s1 => (true, s1) end in
       if ok then emits s s' (concat (sectors_sent d lba buffer (Z.to_nat n)))
       else exists k, 0 <= k < n
         /\ (emits s s' (concat (sectors_sent d lba buffer (Z.to_nat k)))
             \/ emits s s' (concat (sectors_sent d lba buffer (Z.to_nat k)) ++ write_setup d (lba + k))))); auto using emits_refl.
  intros k s1 Hk H1. rewrite u32_id by lia.
  pose proof (ata_write_one_emits d s1 (lba + k) (skipn (Z.to_nat (k * ATA_SECTOR_SIZE)) buffer)) as H2.
  destruct (ata_write_one d s1 (lba + k) _) as [ok s2]. destruct ok; cbn [negb].
  - replace (Z.to_nat (k + 1)) with (Z.to_nat k + 1)%nat by lia. unfold sectors_sent.
    rewrite List.seq_app, map_app, concat_app. cbn [seq map concat]. rewrite app_nil_r.
    rewrite Nat.add_0_l, Z2Nat.id by lia. replace (Z.to_nat k * 512)%nat with (Z.to_nat (k * ATA_SECTOR_SIZE))
      by (unfold ATA_SECTOR_SIZE; lia).
    exact (emits_trans _ _ _ _ _ H1 H2).
  - exists k. split; [exact Hk|]. destruct H2 as [H2|H2]; [left|right]; (eapply emits_silent; [|apply emits_printk]).
    + exact (emits_silent _ _ _ _ H1 H2).
    + exact (emits_trans _ _ _ _ _ H1 H2).
Qed.
End Outputs.

(** ** The write-back of the root file system *)

Lemma mem_read_slice m a i k n :
  (i + k <= n)%nat -> firstn k (skipn i (mem_read m a n)) = mem_read m (a + Z.of_nat i) k.
Proof.
  intros Hn. replace n with (i + (k + (n - i - k)))%nat by lia. rewrite !mem_read_split.
  rewrite skipn_app, skipn_all2 by (rewrite mem_read_length; lia). rewrite mem_read_length, Nat.sub_diag, skipn_O, app_nil_l.
  rewrite firstn_app, firstn_all2 by (rewrite mem_read_length; lia). rewrite mem_read_length, Nat.sub_diag. cbn [firstn].
  apply app_nil_r.
Qed.

(** The sector [i] of an image as a write. *)
Definition image_sector (d : ata_device) (image : mem) (i : nat) : disk_write :=
  mk_write (Z.land (ad_drive d) 1) (Z.of_nat i) (mem_read image (Z.of_nat i * 512) 512).

Lemma sectors_decode d image n k :
  (k <= n)%nat -> Z.of_nat n <= ATA_MAX_LBA ->
  map (decode_write (ch_io_base (ad_channel d))) (sectors_sent d 0 (mem_read image 0 (n * 512)) k)
  = map (fun i => Some (image_sector d image i)) (seq 0 k).
Proof.
  intros Hk Hn. unfold sectors_sent. rewrite map_map. apply map_ext_in. intros i Hi. apply in_seq in Hi.
  rewrite Z.add_0_l, decode_sector.
  - unfold image_sector. rewrite mem_read_slice by lia. do 3 f_equal. lia.
  - lia.
  - rewrite List.length_skipn, mem_read_length. lia.
  - apply Forall_drop, mem_read_byte.
Qed.

(** Writing the root file system back to an ATA disk sends, whatever the
    disk answers, the write commands of the sectors of the image in order from
    sector 0: all of them when it reports success, and otherwise a proper prefix
    followed by no word of data. *)
Theorem rootfs_writeback_writes_sectors {W} `{PortDevice W}
    (bd : block_device ata_device (machine W)) d n image size (s : machine W) :
  bd_driver_data bd = Some d -> bd_write bd = Some ata_block_write -> bd_sector_size bd = 512 ->
  bd_writable bd = true -> (0 < n)%nat -> Z.of_nat n <= bd_sector_count bd < 18446744073709551616 ->
  Z.of_nat n <= ATA_MAX_LBA -> 0 < size <= Z.of_nat n * 512 ->
  let '(ok, s') := rootfs_writeback (Some (mk_disk (Some bd) (Z.of_nat n))) s (Some image) size in
  exists chunks rest,
    emits s s' (concat chunks ++ rest)
    /\ map (decode_write (ch_io_base (ad_channel d))) chunks
       = map (fun i => Some (image_sector d image i)) (seq 0 (List.length chunks))
    /\ flat_map (word_of (ch_io_base (ad_channel d))) rest = []
    /\ if ok then List.length chunks = n /\ rest = [] else (List.length chunks < n)%nat.
Proof.
  intros Hd Hw Hs Hwr Hn Hc Hmax Hsize. unfold rootfs_writeback. cbn [rd_device rd_sector_count].
  destruct (Z.eqb_spec size 0); [lia|]. unfold ATA_MAX_LBA in Hmax. rewrite Hs, u64_id by (unfold is_u64; lia).
  destruct (Z.ltb_spec (Z.of_nat n * 512) size); [lia|].
  unfold block_write. rewrite Hw, Hwr, Hd. cbn [negb orb].
  destruct (Z.eqb_spec (Z.of_nat n) 0); [lia|]. destruct (Z.ltb_spec (bd_sector_count bd) 0); [lia|].
  rewrite Z.sub_0_r, u64_id by (unfold is_u64; lia). destruct (Z.ltb_spec (bd_sector_count bd) (Z.of_nat n)); [lia|].
  cbn [orb]. replace (Z.to_nat (Z.of_nat n * 512)) with (n * 512)%nat by lia.
  pose proof (ata_block_write_emits d (bd_name bd) s 0 (mem_read image 0 (n * 512)) (Z.of_nat n)
                ltac:(lia) ltac:(lia) Hmax) as He.
  destruct (ata_block_write (Some d) (bd_name bd) s 0 (mem_read image 0 (n * 512)) (Z.of_nat n)) as [ok s1].
  assert (Hlen : forall k, List.length (sectors_sent d 0 (mem_read image 0 (n * 512)) k) = k)
    by (intros k; unfold sectors_sent; rewrite List.length_map, List.length_seq; reflexivity).
  destruct ok; cbn [negb].
  - rewrite Nat2Z.id in He. exists (sectors_sent d 0 (mem_read image 0 (n * 512)) n), [].
    rewrite app_nil_r, Hlen. split; [exact He|]. split; [apply sectors_decode; unfold ATA_MAX_LBA; lia|]. auto.
  - destruct He as (k & Hk & He). exists (sectors_sent d 0 (mem_read image 0 (n * 512)) (Z.to_nat k)).
    rewrite Hlen.
    assert (Hdec : map (decode_write (ch_io_base (ad_channel d))) (sectors_sent d 0 (mem_read image 0 (n * 512)) (Z.to_nat k))
      = map (fun i => Some (image_sector d image i)) (seq 0 (Z.to_nat k))) by (apply sectors_decode; unfold ATA_MAX_LBA; lia).
    destruct He as [He|He]; [exists [] | exists (write_setup d (0 + k))]; rewrite ?app_nil_r;
      (split; [exact (emits_silent _ _ _ _ He (emits_printk _ _ _)) | split; [exact Hdec | split; [reflexivity | lia]]]).
Qed.

(** ** A disk that is always ready *)

#[export] Instance ready_disk : PortDevice unit := {|
  dev_in8 w _ := (0x58, w); dev_in16 w _ := (0, w); dev_out8 w _ _ := w; dev_out16 w _ _ := w |}.

Definition ready_ata : ata_device := mk_ata (mk_channel 0x1f0 0x3f6 (str "ata0")) 1.

Definition ready_block : block_device ata_device (machine unit) :=
  mk_block (str "ata0-slave") 512 4096 true (Some ready_ata) (Some ata_block_read) (Some ata_block_write).

Lemma rootfs_writeback_writes_sectors_witness :
  let s := mk_machine tt [] klog_zero in
  let '(ok, s') := rootfs_writeback (Some (mk_disk (Some ready_block) (Z.of_nat 2))) s (Some (fun a => a)) 1024 in
  exists chunks rest,
    emits s s' (concat chunks ++ rest)
    /\ map (decode_write 0x1f0) chunks = map (fun i => Some (image_sector ready_ata (fun a => a) i)) (seq 0 (List.length chunks))
    /\ flat_map (word_of 0x1f0) rest = []
    /\ if ok then List.length chunks = 2%nat /\ rest = [] else (List.length chunks < 2)%nat.
Proof.
  apply (rootfs_writeback_writes_sectors ready_block ready_ata 2 (fun a => a) 1024 (mk_machine tt [] klog_zero));
    try reflexivity; cbn; lia || (unfold ATA_MAX_LBA; lia).
Defined.
