(* ===== verification/Disk.v ===== *)
(** * What a disk promises to its users

    The interface between the drivers and the code above block.c: a block device
    is attached to a medium, an array of sectors of 512 bytes, and a transfer
    that reports success has read or written those sectors and no other. Nothing
    is promised of a transfer that fails. AtaDisk.v implements it by
    drivers/ata.c, for disks that report no failed write after its data (the
    driver does not look at that status); RootfsProofs.v uses it. *)

From S2P Require Import Prelude Klog Stdio Block.

(** The media of the machine: for each medium and sector number the bytes. *)
Definition media (K : Type) : Type := K -> Z -> list Z.

(** The [n] sectors from [lba] on, one after the other. *)
Definition sectors (disk : Z -> list Z) (lba : Z) (n : nat) : list Z :=
  flat_map (fun i => disk (lba + Z.of_nat i)) (seq 0 n).

(** The sector [i] of a buffer. *)
Definition sector_of (buffer : list Z) (i : Z) : list Z := firstn 512 (skipn (Z.to_nat (i * 512)) buffer).

(** The disk after [n] sectors of [buffer] are stored from [lba] on. *)
Definition put_sectors (disk : Z -> list Z) (lba : Z) (buffer : list Z) (n : Z) : Z -> list Z :=
  fun i => if (lba <=? i) && (i <? lba + n) then sector_of buffer (i - lba) else disk i.

Definition put_medium {K : Type} `{EqDecision K} (c : media K) (k : K) (disk : Z -> list Z) : media K :=
  fun k' => if decide (k' = k) then disk else c k'.

Class SectorDevices (W D K : Type) `{PortDevice W} `{EqDecision K} : Type := {
  sd_attached : block_device D (machine W) -> K -> Prop;
  sd_holds : W -> media K -> Prop;
  sd_geometry d k : sd_attached d k ->
    bd_sector_size d = 512 /\ 0 <= bd_sector_count d < 18446744073709551616;
  sd_medium d k k' : sd_attached d k -> sd_attached d k' -> k = k';
  sd_sector w c k i : sd_holds w c -> List.length (c k i) = 512%nat /\ List.Forall is_byte (c k i);
  sd_ext w c c' : (forall k i, c k i = c' k i) -> sd_holds w c -> sd_holds w c';
  sd_fits d k read s lba n ok bytes s' :
    sd_attached d k -> bd_read d = Some read -> 0 <= n ->
    read (bd_driver_data d) (bd_name d) s lba n = (ok, bytes, s') ->
    Z.of_nat (List.length bytes) <= n * 512;
  sd_read d k read s c lba n bytes s' :
    sd_attached d k -> bd_read d = Some read -> sd_holds (mc_device s) c -> 0 <= lba -> 0 <= n ->
    lba + n <= bd_sector_count d ->
    read (bd_driver_data d) (bd_name d) s lba n = (true, bytes, s') ->
    bytes = sectors (c k) lba (Z.to_nat n) /\ sd_holds (mc_device s') c;
  sd_write d k write s c lba n buffer s' :
    sd_attached d k -> bd_write d = Some write -> sd_holds (mc_device s) c -> 0 <= lba -> 0 <= n ->
    lba + n <= bd_sector_count d -> List.Forall is_byte buffer -> n * 512 <= Z.of_nat (List.length buffer) ->
    write (bd_driver_data d) (bd_name d) s lba buffer n = (true, s') ->
    sd_holds (mc_device s') (put_medium c k (put_sectors (c k) lba buffer n))
}.

(** ** Sectors and bytes *)

Lemma sectors_length disk lba n :
  (forall i, List.length (disk i) = 512%nat) -> List.length (sectors disk lba n) = (n * 512)%nat.
Proof.
  intros Hl. induction n as [|n IH]; [reflexivity|].
  unfold sectors in *. rewrite List.seq_S, flat_map_app, length_app, IH. cbn [flat_map]. rewrite app_nil_r, Hl. lia.
Qed.

Lemma sectors_byte disk lba n :
  (forall i, List.Forall is_byte (disk i)) -> List.Forall is_byte (sectors disk lba n).
Proof.
  intros Hb. apply List.Forall_flat_map, List.Forall_forall. intros i _. apply Hb.
Qed.

Lemma sectors_snoc disk lba n :
  sectors disk lba (S n) = sectors disk lba n ++ disk (lba + Z.of_nat n).
Proof. unfold sectors. rewrite List.seq_S, flat_map_app. cbn [flat_map]. rewrite app_nil_r. reflexivity. Qed.

Lemma sectors_ext disk disk' lba n :
  (forall i, lba <= i < lba + Z.of_nat n -> disk i = disk' i) -> sectors disk lba n = sectors disk' lba n.
Proof.
  induction n as [|n IH]; intros E; [reflexivity|]. rewrite !sectors_snoc, IH, E; [reflexivity|lia|].
  intros i Hi. apply E. lia.
Qed.

Lemma sectors_prefix disk n k :
  (forall i, List.length (disk i) = 512%nat) -> (n <= k)%nat -> sectors disk 0 n = firstn (n * 512) (sectors disk 0 k).
Proof.
  intros Hl Hk. replace k with (n + (k - n))%nat by lia. unfold sectors at 2. rewrite List.seq_app, flat_map_app.
  fold (sectors disk 0 n). rewrite <- (sectors_length disk 0 n Hl), firstn_app, Nat.sub_diag, firstn_all. cbn [firstn].
  rewrite app_nil_r. reflexivity.
Qed.

(** The sectors of a buffer are the buffer. *)
Lemma sectors_of_buffer buffer n :
  (n * 512 <= List.length buffer)%nat -> sectors (sector_of buffer) 0 n = firstn (n * 512) buffer.
Proof.
  induction n as [|n IH]; intros Hl; [reflexivity|]. rewrite sectors_snoc, IH by lia. unfold sector_of.
  replace (Z.to_nat ((0 + Z.of_nat n) * 512)) with (n * 512)%nat by lia.
  rewrite <- (firstn_skipn (n * 512) buffer) at 3.
  rewrite firstn_app, length_firstn, Nat.min_l by lia.
  replace (S n * 512 - n * 512)%nat with 512%nat by lia.
  rewrite firstn_firstn, Nat.min_r by lia. reflexivity.
Qed.

(** What was stored is read again. *)
Lemma sectors_put disk buffer n :
  (n * 512 <= List.length buffer)%nat ->
  sectors (put_sectors disk 0 buffer (Z.of_nat n)) 0 n = firstn (n * 512) buffer.
Proof.
  intros Hl. rewrite <- sectors_of_buffer by exact Hl. apply sectors_ext. intros i Hi. unfold put_sectors.
  destruct (Z.leb_spec 0 i), (Z.ltb_spec i (0 + Z.of_nat n)); try lia. cbn [andb]. rewrite Z.sub_0_r. reflexivity.
Qed.

Lemma put_medium_eq {K} `{EqDecision K} (c : media K) k disk : put_medium c k disk k = disk.
Proof. unfold put_medium. destruct (decide (k = k)); [reflexivity|contradiction]. Qed.

Lemma put_medium_ne {K} `{EqDecision K} (c : media K) k k' disk : k' <> k -> put_medium c k disk k' = c k'.
Proof. intros Hk. unfold put_medium. destruct (decide (k' = k)); [contradiction|reflexivity]. Qed.

(** ** Transfers through block.c *)

Section Transfers.
Context {W D K : Type} `{SectorDevices W D K}.

Lemma holds_printk (s : machine W) fmt args c :
  sd_holds (mc_device s) c -> sd_holds (mc_device (printk s fmt args)) c.
Proof. unfold printk. destruct (klog_printf _ _ _); auto. Qed.

Lemma block_read_fits d k s lba n ok bytes s' :
  sd_attached d k -> 0 <= n -> block_read (Some d) s lba n = (ok, bytes, s') ->
  Z.of_nat (List.length bytes) <= n * 512.
Proof.
  intros Ha Hn. unfold block_read. destruct (bd_read d) as [read|] eqn:Er.
  - destruct (_ || _); [intros E; injection E as <- <- <-; cbn; lia|]. exact (sd_fits _ _ _ _ _ _ _ _ _ Ha Er Hn).
  - intros E. injection E as <- <- <-. cbn. lia.
Qed.

Lemma block_read_ok d k s c lba n bytes s' :
  sd_attached d k -> sd_holds (mc_device s) c -> 0 <= lba -> 0 <= n ->
  block_read (Some d) s lba n = (true, bytes, s') ->
  bytes = sectors (c k) lba (Z.to_nat n) /\ sd_holds (mc_device s') c /\ lba + n <= bd_sector_count d.
Proof.
  intros Ha Hc Hlba Hn. unfold block_read. destruct (bd_read d) as [read|] eqn:Er; [|discriminate].
  destruct (sd_geometry _ _ Ha) as [_ Hcount].
  destruct (Z.ltb_spec (bd_sector_count d) lba); [rewrite orb_true_r; discriminate|].
  rewrite u64_id by (unfold is_u64; lia).
  destruct (Z.ltb_spec (bd_sector_count d - lba) n); [rewrite !orb_true_r; discriminate|].
  destruct (n =? 0); [discriminate|]. cbn [orb]. intros E.
  destruct (sd_read _ _ _ _ _ _ _ _ _ Ha Er Hc Hlba Hn ltac:(lia) E). split_and!; auto; lia.
Qed.

Lemma block_write_ok d k s c lba n buffer s' :
  sd_attached d k -> sd_holds (mc_device s) c -> 0 <= lba -> 0 <= n ->
  List.Forall is_byte buffer -> n * 512 <= Z.of_nat (List.length buffer) ->
  block_write (Some d) s lba buffer n = (true, s') ->
  sd_holds (mc_device s') (put_medium c k (put_sectors (c k) lba buffer n)).
Proof.
  intros Ha Hc Hlba Hn Hb Hl. unfold block_write. destruct (bd_write d) as [write|] eqn:Ew; [|discriminate].
  destruct (sd_geometry _ _ Ha) as [_ Hcount].
  destruct (Z.ltb_spec (bd_sector_count d) lba); [rewrite !orb_true_r; discriminate|].
  rewrite u64_id by (unfold is_u64; lia).
  destruct (Z.ltb_spec (bd_sector_count d - lba) n); [rewrite !orb_true_r; discriminate|].
  destruct (_ || _); [discriminate|]. apply (sd_write _ _ _ _ _ _ _ _ _ Ha Ew Hc Hlba Hn); [lia|exact Hb|exact Hl].
Qed.
End Transfers.
