(* ===== verification/AtaDisk.v ===== *)
(** * The disk driver against the protocol of an ATA disk

    What the driver relies on is the programmed input and output protocol of an
    ATA channel, here a state machine that reacts to the accesses of the kernel
    ([ata_react]): the class [AtaDisks] says that the hardware behind the ports
    follows it, with whatever status it likes to show. A disk may stay busy for
    ever or report an error at any time; a transfer that the driver reports as
    done has then read or written the sectors asked for and no others.

    One thing the driver does not do: it gives the last data word of a sector to
    the disk and does not look at the status that says whether the sector was
    stored. The protocol has that status ([Storing]), and a sector for which it
    reports an error has indeterminate contents from then on ([av_faults]). A
    write that the driver reports as done has stored every sector but those.
    [SoundWrites] is the assumption that a disk never reports such an error;
    under it the driver does all that Disk.v asks. *)

From Stdlib Require Import String.
From S2P Require Import Prelude Klog Stdio UserApi Block Ata AtaProofs Disk.

(** ** The protocol *)

(** [Busy]: no command is outstanding, but the channel may still be busy with
    the last one. [Ready]: it has shown that it is not, and the registers in
    the map have been written since. Then a command waits for its data phase,
    and data words are taken or given. After the last word of a write the
    sector is being stored. *)
Inductive ata_phase : Type :=
  | Busy
  | Ready (task : gmap Z Z)
  | PendingIn (data : list Z)
  | DataIn (data : list Z)
  | PendingOut (drive lba : Z)
  | DataOut (drive lba : Z) (data : list Z)
  | Storing (drive lba : Z) (data : list Z).

(** A channel with the sectors of its two drives, and of these the ones whose
    last write the disk has reported as failed. *)
Record ata_view : Type := mk_view {
  av_phase : ata_phase;
  av_disk : Z -> Z -> list Z;
  av_faults : gset (Z * Z)
}.

Definition with_phase (x : ata_view) (p : ata_phase) : ata_view := mk_view p (av_disk x) (av_faults x).

Definition put_sector (disk : Z -> Z -> list Z) (drive lba : Z) (data : list Z) : Z -> Z -> list Z :=
  fun d i => if (d =? drive) && (i =? lba) then data else disk d i.

(** Reading a status. While a channel is busy the other bits of its status mean
    nothing; the first status that is not busy after the data of a write says
    whether the sector is stored. If it is not, it holds [lost] from then on. *)
Definition after_status (lost : list Z) (status : Z) (x : ata_view) : ata_view :=
  if negb (Z.land status ATA_SR_BSY =? 0) then x
  else
    let failed := negb (Z.land status (Z.lor ATA_SR_ERR ATA_SR_DF) =? 0) in
    let drq := negb (Z.land status ATA_SR_DRQ =? 0) in
    match av_phase x with
    | Busy => with_phase x (Ready ∅)
    | PendingIn data => if failed then with_phase x Busy else if drq then with_phase x (DataIn data) else x
    | PendingOut drive lba => if failed then with_phase x Busy else if drq then with_phase x (DataOut drive lba []) else x
    | Storing drive lba data =>
        if failed then mk_view (Ready ∅) (put_sector (av_disk x) drive lba lost) ({[(drive, lba)]} ∪ av_faults x)
        else mk_view (Ready ∅) (put_sector (av_disk x) drive lba data) (av_faults x)
    | _ => x
    end.

(** A command for one sector, its number in 28 bits of the registers. *)
Definition after_command (disk : Z -> Z -> list Z) (task : gmap Z Z) (command : Z) : option ata_phase :=
  match task !! 6, task !! 2, task !! 3, task !! 4, task !! 5 with
  | Some dev, Some count, Some l0, Some l1, Some l2 =>
      let drive := Z.land (Z.shiftr dev 4) 1 in
      let lba := l0 + 256 * l1 + 65536 * l2 + 16777216 * Z.land dev 0x0f in
      if negb (Z.testbit dev 6) || negb (count =? 1) then None
      else if command =? ATA_CMD_READ_SECTORS then Some (PendingIn (disk drive lba))
      else if command =? ATA_CMD_WRITE_SECTORS then Some (PendingOut drive lba)
      else None
  | _, _, _, _, _ => None
  end.

(** The reaction to an access; [None] where the protocol has none. The second
    status register of a channel can be read at any time. *)
Definition ata_react (lost : list Z) (c : ata_channel) (x : ata_view) (e : io_event) : option ata_view :=
  let base := ch_io_base c in
  match e, av_phase x with
  | In8 p v, _ =>
      if p =? ch_control_base c then Some x
      else if p =? base + ATA_REG_STATUS then Some (after_status lost v x)
      else None
  | Out8 p v, Ready task =>
      if p =? base + ATA_REG_COMMAND then with_phase x <$> after_command (av_disk x) task v
      else if (base + 2 <=? p) && (p <=? base + 6) then Some (with_phase x (Ready (<[p - base := v]> task)))
      else None
  | In16 p v, DataIn (a :: b :: rest) =>
      if (p =? base) && (v =? a + 256 * b)
      then Some (with_phase x (match rest with [] => Busy | _ => DataIn rest end))
      else None
  | Out16 p v, DataOut drive lba data =>
      if p =? base then
        let data := data ++ le_bytes 2 v in
        if (List.length data =? 512)%nat
        then Some (mk_view (Storing drive lba data) (av_disk x) (av_faults x ∖ {[(drive, lba)]}))
        else Some (with_phase x (DataOut drive lba data))
      else None
  | _, _ => None
  end.

(** The contents of a sector. *)
Definition sector_bytes (data : list Z) : Prop := List.length data = 512%nat /\ List.Forall is_byte data.

Definition put_view (v : Z -> ata_view) (base : Z) (x : ata_view) : Z -> ata_view :=
  fun b => if b =? base then x else v b.

(** Hardware with ATA disks: [at_shows w v] gives each channel, by its base
    port, the state of the protocol that it is in. An access for which the
    protocol has a reaction is answered by one; nothing is said of the values of
    a status, nor of what a sector holds after a failed write. *)
Class AtaDisks (W : Type) `{PortDevice W} : Type := {
  at_shows : W -> (Z -> ata_view) -> Prop;
  at_ext w v v' : (forall b, v b = v' b) -> at_shows w v -> at_shows w v';
  at_sector w v b d i : at_shows w v -> sector_bytes (av_disk (v b) d i);
  at_storing w v b drive lba data : at_shows w v -> av_phase (v b) = Storing drive lba data -> sector_bytes data;
  at_in8 w v c p a : at_shows w v -> In c channels -> is_Some (ata_react [] c (v (ch_io_base c)) (In8 p a)) ->
    let '(a', w') := dev_in8 w p in
    exists lost y, sector_bytes lost /\ ata_react lost c (v (ch_io_base c)) (In8 p (u8 a')) = Some y
      /\ at_shows w' (put_view v (ch_io_base c) y);
  at_in16 w v c p a : at_shows w v -> In c channels -> is_Some (ata_react [] c (v (ch_io_base c)) (In16 p a)) ->
    let '(a', w') := dev_in16 w p in
    exists y, ata_react [] c (v (ch_io_base c)) (In16 p (u16 a')) = Some y /\ at_shows w' (put_view v (ch_io_base c) y);
  at_out8 w v c p a y : at_shows w v -> In c channels -> ata_react [] c (v (ch_io_base c)) (Out8 p a) = Some y ->
    at_shows (dev_out8 w p a) (put_view v (ch_io_base c) y);
  at_out16 w v c p a y : at_shows w v -> In c channels -> ata_react [] c (v (ch_io_base c)) (Out16 p a) = Some y ->
    at_shows (dev_out16 w p a) (put_view v (ch_io_base c) y)
}.

(** ** One channel *)

Lemma channel_ports c : In c channels ->
  ch_control_base c <> ch_io_base c + ATA_REG_STATUS /\ 0 <= ch_io_base c < 1024.
Proof. unfold ATA_REG_STATUS. intros [<- | [<- | []]]; cbn; lia. Qed.

Section Channel.
Context {W : Type} `{AtaDisks W}.
Variable c : ata_channel.
Variable v : Z -> ata_view.
Hypothesis Hc : In c channels.

Abbreviation base := (ch_io_base c).

(** The channel shows [x], the others what they did in [v]. *)
Definition shown (s : machine W) (x : ata_view) : Prop := at_shows (mc_device s) (put_view v base x).

Lemma put_view_eq x : put_view v base x base = x.
Proof. unfold put_view. rewrite Z.eqb_refl. reflexivity. Qed.

Lemma put_view_twice w x y :
  at_shows w (put_view (put_view v base x) base y) -> at_shows w (put_view v base y).
Proof.
  apply at_ext. intros b. unfold put_view. destruct (b =? base); reflexivity.
Qed.

Lemma shown_inb s x p a :
  shown s x -> is_Some (ata_react [] c x (In8 p a)) ->
  let '(a', s') := inb s p in
  exists lost y, sector_bytes lost /\ ata_react lost c x (In8 p a') = Some y /\ shown s' y.
Proof.
  intros Hs Hr. pose proof (at_in8 _ _ c p a Hs Hc) as L. rewrite put_view_eq in L. specialize (L Hr).
  unfold inb. destruct (dev_in8 _ p) as [a' w']. destruct L as (lost & y & Hlost & Hy & Hw).
  exists lost, y. split; [exact Hlost|]. split; [exact Hy|]. exact (put_view_twice _ _ _ Hw).
Qed.

Lemma shown_inw s x p a :
  shown s x -> is_Some (ata_react [] c x (In16 p a)) ->
  let '(a', s') := inw s p in exists y, ata_react [] c x (In16 p a') = Some y /\ shown s' y.
Proof.
  intros Hs Hr. pose proof (at_in16 _ _ c p a Hs Hc) as L. rewrite put_view_eq in L. specialize (L Hr).
  unfold inw. destruct (dev_in16 _ p) as [a' w']. destruct L as (y & Hy & Hw).
  exists y. split; [exact Hy|]. exact (put_view_twice _ _ _ Hw).
Qed.

Lemma shown_outb s x p a y :
  shown s x -> ata_react [] c x (Out8 p (u8 a)) = Some y -> shown (outb s p a) y.
Proof.
  intros Hs Hr. apply (put_view_twice _ x). apply (at_out8 _ _ c _ _ _ Hs Hc). rewrite put_view_eq. exact Hr.
Qed.

Lemma shown_outw s x p a y :
  shown s x -> ata_react [] c x (Out16 p (u16 a)) = Some y -> shown (outw s p a) y.
Proof.
  intros Hs Hr. apply (put_view_twice _ x). apply (at_out16 _ _ c _ _ _ Hs Hc). rewrite put_view_eq. exact Hr.
Qed.

(** Reading the status moves the protocol on by what was read. *)
Lemma shown_status s x :
  shown s x -> let '(a, s') := ata_status s c in exists lost, sector_bytes lost /\ shown s' (after_status lost a x).
Proof.
  intros Hs. destruct (channel_ports c Hc) as [Hp _].
  assert (Hr : forall lost a, ata_react lost c x (In8 (base + ATA_REG_STATUS) a) = Some (after_status lost a x)).
  { intros lost a. unfold ata_react. rewrite Z.eqb_refl.
    destruct (Z.eqb_spec (base + ATA_REG_STATUS) (ch_control_base c)); [congruence | reflexivity]. }
  unfold ata_status. pose proof (shown_inb s x (base + ATA_REG_STATUS) 0 Hs) as L. rewrite Hr in L.
  specialize (L ltac:(eauto)). destruct (inb s _) as [a s']. destruct L as (lost & y & Hlost & E & L). rewrite Hr in E.
  injection E as <-. eauto.
Qed.

Lemma shown_delay s x : shown s x -> shown (ata_delay s c) x.
Proof.
  assert (Hr : forall lost a, ata_react lost c x (In8 (ch_control_base c) a) = Some x)
    by (intros lost a; unfold ata_react; rewrite Z.eqb_refl; reflexivity).
  assert (Hi : forall s, shown s x -> shown (snd (inb s (ch_control_base c))) x).
  { intros s0 Hs. pose proof (shown_inb s0 x (ch_control_base c) 0 Hs) as L. rewrite Hr in L. specialize (L ltac:(eauto)).
    destruct (inb s0 _) as [a s']. destruct L as (lost & y & _ & E & L). rewrite Hr in E. injection E as <-. exact L. }
  intros Hs. unfold ata_delay. do 4 (apply Hi in Hs; destruct (inb _ _) as [? ?] in Hs |- *; cbn [snd] in Hs). exact Hs.
Qed.

(** ** The polling loops *)

(** No command is outstanding; the last one may have to be settled. *)
Definition at_rest (p : ata_phase) : Prop :=
  match p with Busy | Storing _ _ _ => True | _ => False end.

(** The sector that is being stored. *)
Definition storing (x : ata_view) : option (Z * Z) :=
  match av_phase x with Storing drive lba _ => Some (drive, lba) | _ => None end.

(** The sectors once what is being stored is stored. *)
Definition promised (x : ata_view) : Z -> Z -> list Z :=
  match av_phase x with Storing drive lba data => put_sector (av_disk x) drive lba data | _ => av_disk x end.

(** What the channel shows when it has settled: the sector that was being
    stored is stored, or its write is reported as failed. *)
Definition settled (x y : ata_view) : Prop :=
  (av_disk y = promised x /\ av_faults y = av_faults x)
  \/ exists p lost, storing x = Some p /\ av_disk y = put_sector (av_disk x) (fst p) (snd p) lost
       /\ av_faults y = {[p]} ∪ av_faults x.

Lemma status_settles lost a x :
  at_rest (av_phase x) ->
  if Z.land a ATA_SR_BSY =? 0
  then av_phase (after_status lost a x) = Ready ∅ /\ settled x (after_status lost a x)
  else after_status lost a x = x.
Proof.
  intros Hx. unfold after_status. destruct (Z.land a ATA_SR_BSY =? 0); cbn [negb]; [|reflexivity].
  destruct x as [p disk faults]. destruct p; try contradiction; cbn [av_phase].
  - split; [reflexivity|]. left. split; reflexivity.
  - destruct (negb _); (split; [reflexivity|]); [right; exists (drive, lba), lost; split_and!; reflexivity | left; split; reflexivity].
Qed.

Lemma shown_wait_not_busy s x :
  shown s x -> at_rest (av_phase x) ->
  let '(ok, s') := ata_wait_not_busy s c in
  ok = true -> exists y, shown s' y /\ av_phase y = Ready ∅ /\ settled x y.
Proof.
  intros Hs Hx. unfold ata_wait_not_busy.
  apply (range_loop_ind (fun _ s => shown s x)
    (fun r => let '(ok, s') := gave_up r in ok = true -> exists y, shown s' y /\ av_phase y = Ready ∅ /\ settled x y)).
  - unfold ATA_TIMEOUT. lia.
  - exact Hs.
  - intros k s1 _ H1. pose proof (shown_status s1 x H1) as L. destruct (ata_status s1 c) as [a s2].
    destruct L as (lost & _ & L). pose proof (status_settles lost a x Hx) as Es. destruct (_ =? 0).
    + intros _. exists (after_status lost a x). split; [exact L | exact Es].
    + rewrite Es in L. exact L.
  - intros s1 _ E. discriminate E.
Qed.

Definition data_phase (p : ata_phase) : ata_phase :=
  match p with
  | PendingIn data => DataIn data
  | PendingOut drive lba => DataOut drive lba []
  | p => p
  end.

Definition is_pending (p : ata_phase) : bool :=
  match p with PendingIn _ | PendingOut _ _ => true | _ => false end.

Lemma shown_wait_drq s x :
  shown s x -> is_pending (av_phase x) = true ->
  let '(ok, s') := ata_wait_drq s c in ok = true -> shown s' (with_phase x (data_phase (av_phase x))).
Proof.
  intros Hs Hp. unfold ata_wait_drq.
  apply (range_loop_ind (fun _ s => shown s x)
    (fun r => let '(ok, s') := gave_up r in ok = true -> shown s' (with_phase x (data_phase (av_phase x))))).
  - unfold ATA_TIMEOUT. lia.
  - exact Hs.
  - intros k s1 _ H1. pose proof (shown_status s1 x H1) as L. destruct (ata_status s1 c) as [a s2].
    destruct L as (lost & _ & L).
    destruct (negb (Z.land a (Z.lor ATA_SR_ERR ATA_SR_DF) =? 0)) eqn:Ee; [intros E; discriminate E|].
    unfold after_status in L. rewrite Ee in L.
    destruct (Z.land a ATA_SR_BSY =? 0); cbn [negb andb] in L |- *; [|exact L].
    destruct (av_phase x); try discriminate Hp; (destruct (negb (Z.land a ATA_SR_DRQ =? 0)); [intros _|]; exact L).
  - intros s1 _ E. discriminate E.
Qed.
End Channel.

(** ** One sector *)

Lemma le_bytes_pair a b : is_byte a -> is_byte b -> le_bytes 2 (a + 256 * b) = [a; b].
Proof.
  intros Ha Hb. rewrite <- (le_bytes_le_word [a; b]) by auto.
  cbn [List.length le_word]. f_equal. lia.
Qed.

Section Sector.
Context {W : Type} `{AtaDisks W}.
Variable d : ata_device.
Variable v : Z -> ata_view.
Hypothesis Hc : In (ad_channel d) channels.

Abbreviation c := (ad_channel d).
Abbreviation base := (ch_io_base (ad_channel d)).
Abbreviation drive := (Z.land (ad_drive d) 1).
Abbreviation shown := (shown c v).

(** The registers after a sector has been selected. *)
Definition sector_task (lba : Z) : gmap Z Z :=
  <[5 := u8 (Z.shiftr lba 16)]> (<[4 := u8 (Z.shiftr lba 8)]> (<[3 := u8 lba]> (<[2 := u8 1]>
    (<[6 := u8 (Z.lor (Z.lor 0xe0 (Z.shiftl (Z.land (ad_drive d) 1) 4)) (Z.land (Z.shiftr lba 24) 0x0f))]> ∅)))).

Lemma shown_reg s x task i a :
  shown s x -> av_phase x = Ready task -> 2 <= i <= 6 ->
  shown (outb s (base + i) a) (with_phase x (Ready (<[i := u8 a]> task))).
Proof.
  intros Hs Hp Hi. apply (shown_outb c v Hc s x); [exact Hs|]. unfold ata_react. rewrite Hp. unfold ATA_REG_COMMAND.
  destruct (Z.eqb_spec (base + i) (base + 7)); [lia|].
  destruct (Z.leb_spec (base + 2) (base + i)), (Z.leb_spec (base + i) (base + 6)); try lia. cbn [andb].
  replace (base + i - base) with i by lia. reflexivity.
Qed.

Lemma shown_select s x lba :
  shown s x -> at_rest (av_phase x) ->
  let '(ok, s') := ata_select_lba28 s c (ad_drive d) lba 1 in
  ok = true -> exists y, settled x y /\ shown s' (with_phase y (Ready (sector_task lba))).
Proof.
  intros Hs Hp. unfold ata_select_lba28. pose proof (shown_wait_not_busy c v Hc s x Hs Hp) as L.
  destruct (ata_wait_not_busy s c) as [ok s1]. destruct ok; cbn [negb]; [|intros E; discriminate E].
  destruct (L eq_refl) as (y & Ly & Ey & Hxy). intros _. exists y. split; [exact Hxy|]. clear L Hs Hp. rename Ly into L.
  unfold ATA_REG_HDDEVSEL, ATA_REG_SECCOUNT0, ATA_REG_LBA0, ATA_REG_LBA1, ATA_REG_LBA2.
  do 5 (match goal with
        | |- context [outb s1 (base + ?i) ?a] =>
            pose proof (shown_reg _ _ _ i a L ltac:(first [exact Ey | reflexivity]) ltac:(lia)) as L'; clear L; rename L' into L;
            generalize dependent (outb s1 (base + i) a); clear s1; intros s1 L
        end).
  exact L.
Qed.

Lemma sector_command disk lba command :
  0 <= lba < ATA_MAX_LBA ->
  after_command disk (sector_task lba) command
  = if command =? ATA_CMD_READ_SECTORS then Some (PendingIn (disk drive lba))
    else if command =? ATA_CMD_WRITE_SECTORS then Some (PendingOut drive lba)
    else None.
Proof.
  intros Hlba. destruct (task_registers d lba Hlba) as (D1 & D2 & D3). unfold after_command, sector_task.
  repeat first [rewrite lookup_insert_eq | rewrite lookup_insert_ne by discriminate]. cbv zeta in D1, D2, D3 |- *.
  rewrite D1, D2, D3. reflexivity.
Qed.

(** Selecting a sector, giving the command and waiting for the data phase. *)
Lemma shown_command s x lba command :
  shown s x -> av_phase x = Ready (sector_task lba) -> 0 <= lba < ATA_MAX_LBA ->
  command = ATA_CMD_READ_SECTORS \/ command = ATA_CMD_WRITE_SECTORS ->
  let '(ok, s') := ata_wait_drq (outb s (base + ATA_REG_COMMAND) command) c in
  ok = true -> shown s' (with_phase x (if command =? ATA_CMD_READ_SECTORS then DataIn (av_disk x drive lba)
                                      else DataOut drive lba [])).
Proof.
  intros Hs Hp Hlba Hcmd.
  assert (L : shown (outb s (base + ATA_REG_COMMAND) command)
    (with_phase x (if command =? ATA_CMD_READ_SECTORS then PendingIn (av_disk x drive lba) else PendingOut drive lba))).
  { apply (shown_outb c v Hc s x); [exact Hs|]. unfold ata_react. rewrite Hp, Z.eqb_refl.
    destruct Hcmd as [-> | ->]; rewrite sector_command by exact Hlba; reflexivity. }
  destruct Hcmd as [-> | ->]; cbn [Z.eqb Pos.eqb ATA_CMD_READ_SECTORS ATA_CMD_WRITE_SECTORS] in L |- *;
    exact (shown_wait_drq c v Hc _ _ L eq_refl).
Qed.

Lemma shown_read_words n : forall s x data,
  shown s x -> av_phase x = DataIn data -> List.length data = (2 * S n)%nat -> List.Forall is_byte data ->
  let '(bytes, s') := read_words (S n) s c in bytes = data /\ shown s' (with_phase x Busy).
Proof.
  induction n as [|n IH]; intros s x data Hs Hp Hl Hb; destruct data as [|a [|b rest]]; try (cbn in Hl; lia).
  all: apply List.Forall_cons_iff in Hb as [Ha Hb]; apply List.Forall_cons_iff in Hb as [Hb Hr].
  all: assert (Hre : forall q, ata_react [] c x (In16 (base + ATA_REG_DATA) q)
    = if q =? a + 256 * b then Some (with_phase x (match rest with [] => Busy | _ => DataIn rest end)) else None)
    by (intros q; unfold ata_react; rewrite Hp; unfold ATA_REG_DATA; rewrite Z.add_0_r, Z.eqb_refl; reflexivity).
  all: pose proof (shown_inw c v Hc s x (base + ATA_REG_DATA) (a + 256 * b) Hs) as L;
    rewrite Hre, Z.eqb_refl in L; specialize (L ltac:(eauto)).
  all: change (read_words (S ?m) s c) with
    (let '(q, s) := inw s (base + ATA_REG_DATA) in let '(r, s) := read_words m s c in (le_bytes 2 q ++ r, s)).
  all: destruct (inw s _) as [q s1]; destruct L as (y & E & L); rewrite Hre in E;
    destruct (Z.eqb_spec q (a + 256 * b)) as [->|]; [|discriminate E]; injection E as <-.
  all: pose proof (le_bytes_pair a b Ha Hb) as Hab.
  - destruct rest; [|cbn in Hl; lia]. cbn [read_words]. rewrite Hab. split; [reflexivity | exact L].
  - destruct rest as [|e rest]; [cbn in Hl; lia|].
    pose proof (IH s1 _ (e :: rest) L eq_refl ltac:(cbn [List.length] in Hl |- *; lia) Hr) as L2.
    destruct (read_words (S n) s1 c) as [r s2]. destruct L2 as [-> L2]. rewrite Hab. split; [reflexivity | exact L2].
Qed.

Lemma ata_read_one_ok s x lba :
  shown s x -> at_rest (av_phase x) -> 0 <= lba < ATA_MAX_LBA ->
  let '(ok, bytes, s') := ata_read_one d s lba in
  ok = true -> exists y, settled x y /\ bytes = av_disk y drive lba /\ shown s' (with_phase y Busy).
Proof.
  intros Hs Hp Hlba. unfold ata_read_one. pose proof (shown_select s x lba Hs Hp) as L.
  destruct (ata_select_lba28 s c (ad_drive d) lba 1) as [ok s1]. destruct ok; cbn [negb]; [|intros E; discriminate E].
  destruct (L eq_refl) as (y & Hxy & Ly).
  pose proof (shown_command s1 _ lba ATA_CMD_READ_SECTORS Ly eq_refl Hlba ltac:(auto)) as L2.
  destruct (ata_wait_drq _ c) as [ok s2]. destruct ok; cbn [negb]; [|intros E; discriminate E].
  specialize (L2 eq_refl). cbn [Z.eqb Pos.eqb ATA_CMD_READ_SECTORS] in L2.
  destruct (at_sector _ _ base drive lba L2) as [Hl Hb]. rewrite put_view_eq in Hl, Hb. cbn [with_phase av_disk] in Hl, Hb.
  pose proof (shown_read_words 255 s2 _ _ L2 eq_refl Hl Hb) as L3.
  change (Z.to_nat (ATA_SECTOR_SIZE / 2)) with 256%nat. destruct (read_words 256 s2 c) as [bytes s3].
  destruct L3 as [-> L3]. intros _. exists y. split; [exact Hxy|]. split; [reflexivity|]. exact (shown_delay c v Hc _ _ L3).
Qed.

(** The channel has the data of a sector and is storing it. *)
Definition given (y : ata_view) (lba : Z) (data : list Z) : ata_view :=
  mk_view (Storing drive lba data) (av_disk y) (av_faults y ∖ {[(drive, lba)]}).

Lemma shown_write_words n : forall s x lba data buffer,
  shown s x -> av_phase x = DataOut drive lba data -> (List.length data + 2 * S n = 512)%nat ->
  (2 * S n <= List.length buffer)%nat -> List.Forall is_byte buffer ->
  shown (write_words (S n) s c buffer)
    (given x lba (data ++ firstn (2 * S n) buffer)).
Proof.
  induction n as [|n IH]; intros s x lba data buffer Hs Hp Hl Hn Hb; destruct buffer as [|a [|b rest]]; try (cbn in Hn; lia).
  all: apply List.Forall_cons_iff in Hb as [Ha Hb]; apply List.Forall_cons_iff in Hb as [Hb Hr].
  all: assert (Hab : le_bytes 2 (u16 (a + 256 * (b + 256 * 0))) = [a; b])
    by (rewrite <- (le_bytes_pair a b Ha Hb); f_equal; clear -Ha Hb; zlia).
  all: assert (L : shown (outw s (base + ATA_REG_DATA) (le_word [a; b]))
    (if (List.length (data ++ [a; b]) =? 512)%nat then given x lba (data ++ [a; b])
     else with_phase x (DataOut drive lba (data ++ [a; b])))).
  1, 3: apply (shown_outw c v Hc s x); [exact Hs|]; unfold ata_react; rewrite Hp; unfold ATA_REG_DATA;
    rewrite Z.add_0_r, Z.eqb_refl; cbn [le_word]; rewrite Hab; destruct (_ =? 512)%nat; reflexivity.
  all: rewrite length_app in L; cbn [List.length] in L.
  - destruct (Nat.eqb_spec (List.length data + 2) 512); [|lia]. exact L.
  - destruct (Nat.eqb_spec (List.length data + 2) 512); [lia|].
    replace (2 * S (S n))%nat with (S (S (2 * S n))) by lia.
    change (firstn (S (S (2 * S n))) (a :: b :: rest)) with ([a; b] ++ firstn (2 * S n) rest). rewrite app_assoc.
    change (write_words (S (S n)) s c (a :: b :: rest)) with
      (write_words (S n) (outw s (base + ATA_REG_DATA) (le_word [a; b])) c rest).
    refine (IH _ _ lba _ rest L eq_refl _ _ Hr); [rewrite length_app; cbn [List.length]; lia | cbn [List.length] in Hn; lia].
Qed.

Lemma ata_write_one_ok s x lba buffer :
  shown s x -> at_rest (av_phase x) -> 0 <= lba < ATA_MAX_LBA ->
  (512 <= List.length buffer)%nat -> List.Forall is_byte buffer ->
  let '(ok, s') := ata_write_one d s lba buffer in
  ok = true -> exists y, settled x y /\ shown s' (given y lba (firstn 512 buffer)).
Proof.
  intros Hs Hp Hlba Hl Hb. unfold ata_write_one. pose proof (shown_select s x lba Hs Hp) as L.
  destruct (ata_select_lba28 s c (ad_drive d) lba 1) as [ok s1]. destruct ok; cbn [negb]; [|intros E; discriminate E].
  destruct (L eq_refl) as (y & Hxy & Ly).
  pose proof (shown_command s1 _ lba ATA_CMD_WRITE_SECTORS Ly eq_refl Hlba ltac:(auto)) as L2.
  destruct (ata_wait_drq _ c) as [ok s2]. destruct ok; cbn [negb]; [|intros E; discriminate E].
  specialize (L2 eq_refl). intros _. exists y. split; [exact Hxy|]. apply (shown_delay c v Hc).
  exact (shown_write_words 255 s2 _ lba [] buffer L2 eq_refl eq_refl Hl Hb).
Qed.
End Sector.

(** ** Many sectors, and the promise of Disk.v *)

(** State the invariant [P] of the loop in the goal and what it gives at the
    end. *)
Ltac by_range_loop P Q :=
  lazymatch goal with
  | |- context [range_loop ?lo ?hi 1 ?f ?i] =>
      assert (Hloop : Q (range_loop lo hi 1 f i)); [apply (range_loop_ind P Q lo hi f i) | destruct (range_loop lo hi 1 f i)]
  end.

(** The state of the disks: what each sector holds once what is being stored is
    stored, the sectors whose last write was reported as failed, and those that
    are being stored. *)
Record disks (K : Type) : Type := mk_disks {
  ds_media : media K;
  ds_faults : K -> Z -> Prop;
  ds_storing : K -> Z -> Prop
}.
Arguments mk_disks {K}.
Arguments ds_media {K}.
Arguments ds_faults {K}.
Arguments ds_storing {K}.

Definition no_sector {K : Type} (k : K) (i : Z) : Prop := False.

(** From [x] the sectors in [W] have been written, [target] is what the media
    should hold, and the disks are now in the state [x']: only a sector that was
    being stored or has been written can have a new fault, and every sector
    without one holds what it should. *)
Definition transferred {K : Type} (x : disks K) (target : media K) (W : K -> Z -> Prop) (x' : disks K) : Prop :=
  forall k i,
    (ds_media x' k i = target k i \/ ds_faults x' k i /\ (ds_storing x k i \/ W k i))
    /\ (ds_faults x' k i -> ds_faults x k i /\ ~ W k i \/ ds_storing x k i \/ W k i)
    /\ (ds_faults x k i -> ~ W k i -> ds_faults x' k i)
    /\ (ds_storing x' k i -> ds_storing x k i \/ W k i).

(** The state that a channel shows, its media the two drives. *)
Definition of_view (x : ata_view) : disks Z :=
  mk_disks (promised x) (fun d i => (d, i) ∈ av_faults x) (fun d i => storing x = Some (d, i)).

Lemma transferred_refl {K} (x : disks K) : transferred x (ds_media x) no_sector x.
Proof. intros k i. unfold no_sector. tauto. Qed.

Lemma transferred_ext {K} (x x' : disks K) target target' (W W' : K -> Z -> Prop) :
  (forall k i, target k i = target' k i) -> (forall k i, W k i <-> W' k i) ->
  transferred x target W x' -> transferred x target' W' x'.
Proof. intros Et EW T k i. specialize (T k i). rewrite Et in T. rewrite <- EW. exact T. Qed.

Lemma put_sector_eq disk d i data : put_sector disk d i data d i = data.
Proof. unfold put_sector. rewrite !Z.eqb_refl. reflexivity. Qed.

Lemma put_sector_ne disk d i data d' i' : (d', i') <> (d, i) -> put_sector disk d i data d' i' = disk d' i'.
Proof.
  intros Hne. unfold put_sector. destruct (Z.eqb_spec d' d), (Z.eqb_spec i' i); cbn [andb]; try reflexivity. congruence.
Qed.

(** What is being stored is in the promise only. *)
Lemma promised_other x d i : storing x <> Some (d, i) -> promised x d i = av_disk x d i.
Proof.
  unfold storing, promised. destruct (av_phase x); try reflexivity. intros Hne. apply put_sector_ne. congruence.
Qed.

Lemma transferred_settled x target W y z :
  transferred x target W (of_view y) -> settled y z -> transferred x target W (of_view (with_phase z Busy)).
Proof.
  intros T Hz d i. specialize (T d i). cbn [of_view ds_media ds_faults ds_storing promised storing with_phase av_phase av_disk av_faults] in T |- *.
  destruct T as (T1 & T2 & T3 & T4). destruct Hz as [[-> ->] | (p & lost & Ep & -> & ->)].
  - split_and!; auto. discriminate.
  - destruct (decide (p = (d, i))) as [->|Hne].
    + assert (Ef : (d, i) ∈ {[(d, i)]} ∪ av_faults y) by set_solver. split; [auto|]. split; [auto|]. split; [auto|discriminate].
    + rewrite put_sector_ne by (destruct p; cbn; congruence). rewrite <- promised_other by congruence.
      assert (Ef : (d, i) ∈ {[p]} ∪ av_faults y <-> (d, i) ∈ av_faults y) by set_solver. rewrite Ef.
      split_and!; auto. discriminate.
Qed.

(** A sector has been given to the disk. *)
Lemma transferred_given x target W drive lba data z :
  transferred x target W (of_view (with_phase z Busy)) ->
  transferred x (put_sector target drive lba data) (fun d i => W d i \/ (d, i) = (drive, lba))
    (of_view (mk_view (Storing drive lba data) (av_disk z) (av_faults z ∖ {[(drive, lba)]}))).
Proof.
  intros T d i. specialize (T d i). cbn [of_view ds_media ds_faults ds_storing promised storing with_phase av_phase av_disk av_faults] in T |- *.
  destruct T as (T1 & T2 & T3 & T4). destruct (decide ((d, i) = (drive, lba))) as [E|Hne].
  - injection E as -> ->. rewrite !put_sector_eq. split_and!; auto; tauto.
  - rewrite !put_sector_ne by exact Hne.
    assert (Ef : (d, i) ∈ av_faults z ∖ {[(drive, lba)]} <-> (d, i) ∈ av_faults z) by set_solver. rewrite Ef.
    split_and!; try tauto. intros [= <- <-]. auto.
Qed.

(** A medium is a drive of a channel, by its base port. *)
Definition ata_medium (d : ata_device) : Z * Z := (ch_io_base (ad_channel d), Z.land (ad_drive d) 1).

(** The block device that detection registers for a drive. *)
Definition ata_block (name : list Z) (d : ata_device) (sector_count : Z) {W} `{PortDevice W}
    : block_device ata_device (machine W) :=
  mk_block name ATA_SECTOR_SIZE sector_count true (Some d) (Some ata_block_read) (Some ata_block_write).

Definition ata_attached {W} `{PortDevice W} (bd : block_device ata_device (machine W)) (k : Z * Z) : Prop :=
  exists name d n, bd = ata_block name d n /\ In (ad_channel d) channels /\ k = ata_medium d
    /\ 0 <= n < 4294967296.

Section Driver.
Context {W : Type} `{AtaDisks W}.

(** Every channel is at rest, and the disks are in the state [x]. *)
Definition ata_disks (w : W) (x : disks (Z * Z)) : Prop :=
  exists v, at_shows w v /\ (forall ch, In ch channels -> at_rest (av_phase (v (ch_io_base ch))))
    /\ forall b d i, ds_media x (b, d) i = promised (v b) d i
         /\ (ds_faults x (b, d) i <-> (d, i) ∈ av_faults (v b)) /\ (ds_storing x (b, d) i <-> storing (v b) = Some (d, i)).

Lemma promised_sector w v b d i : at_shows w v -> sector_bytes (promised (v b) d i).
Proof.
  intros Hw. unfold promised. destruct (av_phase (v b)) eqn:E; try exact (at_sector _ _ b d i Hw).
  unfold put_sector. destruct (_ && _); [exact (at_storing _ _ _ _ _ _ Hw E) | exact (at_sector _ _ b d i Hw)].
Qed.

Lemma shown_start ch v (s : machine W) : at_shows (mc_device s) v -> shown ch v s (v (ch_io_base ch)).
Proof.
  apply at_ext. intros b. unfold put_view. destruct (Z.eqb_spec b (ch_io_base ch)) as [->|]; reflexivity.
Qed.

(** A transfer on one channel, the others as before. *)
Lemma transferred_channel w v b y x target (Wr : Z * Z -> Z -> Prop) :
  (forall ch, In ch channels -> at_rest (av_phase (v (ch_io_base ch)))) ->
  (forall b d i, ds_media x (b, d) i = promised (v b) d i
     /\ (ds_faults x (b, d) i <-> (d, i) ∈ av_faults (v b)) /\ (ds_storing x (b, d) i <-> storing (v b) = Some (d, i))) ->
  at_shows w (put_view v b y) -> at_rest (av_phase y) ->
  transferred (of_view (v b)) (fun d => target (b, d)) (fun d => Wr (b, d)) (of_view y) ->
  (forall b' d i, b' <> b -> target (b', d) i = ds_media x (b', d) i /\ ~ Wr (b', d) i) ->
  exists x', ata_disks w x' /\ transferred x target Wr x' /\ (forall d, ds_media x' (b, d) = promised y d).
Proof.
  intros Hv Hx Hw Hy T Ho. pose (v' := put_view v b y).
  exists (mk_disks (fun k => promised (v' (fst k)) (snd k)) (fun k i => (snd k, i) ∈ av_faults (v' (fst k)))
            (fun k i => storing (v' (fst k)) = Some (snd k, i))).
  assert (Eb : v' b = y) by (unfold v', put_view; rewrite Z.eqb_refl; reflexivity).
  split; [|split].
  - exists v'. split; [exact Hw|]. split; [|cbn; auto]. intros ch Hch. unfold v', put_view. destruct (_ =? b); [exact Hy | exact (Hv ch Hch)].
  - intros [b' d] i. cbn [ds_media ds_faults ds_storing fst snd]. destruct (Hx b' d i) as (E1 & E2 & E3). rewrite E2, E3.
    destruct (Z.eq_dec b' b) as [->|Hne]; [rewrite Eb; exact (T d i)|].
    assert (Ev : v' b' = v b') by (unfold v', put_view; destruct (Z.eqb_spec b' b); [contradiction|reflexivity]). rewrite Ev.
    destruct (Ho b' d i Hne) as [-> Hw']. rewrite E1. tauto.
  - intros d. cbn. rewrite Eb. reflexivity.
Qed.

Lemma ata_read_ok d name (s : machine W) x lba n bytes s' :
  In (ad_channel d) channels -> ata_disks (mc_device s) x -> 0 <= lba -> 0 <= n < 4294967296 -> lba < 4294967296 ->
  ata_block_read (Some d) name s lba n = (true, bytes, s') ->
  exists x', ata_disks (mc_device s') x' /\ bytes = sectors (ds_media x' (ata_medium d)) lba (Z.to_nat n)
    /\ transferred x (ds_media x) no_sector x'.
Proof.
  intros Hd (v & Hw & Hv & Hx) Hlba Hn Hmax. unfold ata_block_read, ATA_MAX_LBA.
  rewrite u64_id by (unfold is_u64; lia).
  destruct (Z.ltb_spec 268435456 (lba + n)) as [|Hin]; [intros E; discriminate E|].
  set (b := ch_io_base (ad_channel d)). pose proof (shown_start (ad_channel d) v s Hw) as Hs. fold b in Hs.
  pose (read := fun k (out : list Z) s1 => exists y, shown (ad_channel d) v s1 y /\ at_rest (av_phase y)
    /\ transferred (of_view (v b)) (promised (v b)) no_sector (of_view y)
    /\ (k = 0 \/ av_phase y = Busy) /\ out = sectors (promised y (Z.land (ad_drive d) 1)) lba (Z.to_nat k)).
  by_range_loop (fun k '(out, s1) => read k out s1)
    (fun r : ctl (list Z * machine W) (list Z * machine W) => match r with Break _ => True | Cont (out, s1) => read n out s1 end).
  - lia.
  - exists (v b). split_and!; [exact Hs | exact (Hv _ Hd) | exact (transferred_refl (of_view (v b))) | auto | reflexivity].
  - intros k [out1 s2] Hk (y & H2 & Hy & Ty & Hk0 & ->). rewrite u32_id by lia.
    pose proof (ata_read_one_ok d v Hd s2 y (lba + k) H2 Hy ltac:(unfold ATA_MAX_LBA; lia)) as L.
    destruct (ata_read_one d s2 (lba + k)) as [[ok bs] s3]. destruct ok; cbn [negb]; [|exact I].
    destruct (L eq_refl) as (z & Hyz & -> & L2). exists (with_phase z Busy).
    split; [exact L2|]. split; [exact I|]. split; [exact (transferred_settled _ _ _ _ _ Ty Hyz)|]. split; [right; reflexivity|].
    replace (Z.to_nat (k + 1)) with (S (Z.to_nat k)) by lia. rewrite sectors_snoc, Z2Nat.id by lia. f_equal.
    destruct Hk0 as [-> | Hb]; [reflexivity|]. destruct Hyz as [[E _] | (p & lost & E & _)]; unfold promised, storing in *; rewrite Hb in E.
    + cbn. rewrite E, Hb. reflexivity.
    + discriminate E.
  - intros [out1 s2] H2. exact H2.
  - destruct s0 as [out s1]. intros E. injection E as <- <-. destruct Hloop as (y & Hy1 & Hy2 & Hy3 & _ & ->).
    destruct (transferred_channel _ v b y x (ds_media x) no_sector Hv Hx Hy1 Hy2) as (x' & Hx' & T & Em).
    + revert Hy3. apply transferred_ext; [intros d' i; symmetry; apply Hx | tauto].
    + intros b' d' i _. split; [reflexivity | intros []].
    + exists x'. split; [exact Hx'|]. split; [unfold ata_medium; fold b; rewrite Em; reflexivity | exact T].
  - destruct r as [out s1]. intros E. discriminate E.
Qed.

(** The sectors that a write is for. *)
Definition target_sector {K : Type} (k : K) (lba n : Z) (k' : K) (i : Z) : Prop := k' = k /\ lba <= i < lba + n.

Lemma put_next {K} `{EqDecision K} (c : media K) k lba buffer n k' i :
  0 <= n ->
  put_medium c k (put_sectors (c k) lba buffer (n + 1)) k' i
  = if decide (k' = k /\ i = lba + n) then sector_of buffer n else put_medium c k (put_sectors (c k) lba buffer n) k' i.
Proof.
  intros Hn. unfold put_medium, put_sectors. destruct (decide (k' = k)) as [->|Hne].
  - destruct (decide _) as [[_ ->]|Hi].
    + destruct (Z.leb_spec lba (lba + n)), (Z.ltb_spec (lba + n) (lba + (n + 1))); try lia. cbn [andb]. f_equal. lia.
    + assert (i <> lba + n) by tauto.
      destruct (Z.leb_spec lba i), (Z.ltb_spec i (lba + (n + 1))), (Z.ltb_spec i (lba + n)); try lia; reflexivity.
  - rewrite decide_False by tauto. reflexivity.
Qed.

Lemma ata_write_ok d name (s : machine W) x lba n buffer s' :
  In (ad_channel d) channels -> ata_disks (mc_device s) x -> 0 <= lba -> 0 <= n < 4294967296 -> lba < 4294967296 ->
  List.Forall is_byte buffer -> n * 512 <= Z.of_nat (List.length buffer) ->
  ata_block_write (Some d) name s lba buffer n = (true, s') ->
  let c := ds_media x in let k := ata_medium d in
  exists x', ata_disks (mc_device s') x'
    /\ transferred x (put_medium c k (put_sectors (c k) lba buffer n)) (target_sector k lba n) x'.
Proof.
  intros Hd (v & Hw & Hv & Hx) Hlba Hn Hmax Hb Hl. unfold ata_block_write, ATA_MAX_LBA.
  rewrite u64_id by (unfold is_u64; lia).
  destruct (Z.ltb_spec 268435456 (lba + n)) as [|Hin]; [intros E; discriminate E|].
  set (b := ch_io_base (ad_channel d)). pose proof (shown_start (ad_channel d) v s Hw) as Hs. fold b in Hs.
  set (drive := Z.land (ad_drive d) 1). set (P := promised (v b)).
  pose (written := fun k s1 => exists y, shown (ad_channel d) v s1 y /\ at_rest (av_phase y)
    /\ transferred (of_view (v b)) (put_medium P drive (put_sectors (P drive) lba buffer k)) (target_sector drive lba k) (of_view y)).
  by_range_loop written (fun r : ctl (machine W) (machine W) => match r with Break _ => True | Cont s1 => written n s1 end).
  - lia.
  - exists (v b). split; [exact Hs|]. split; [exact (Hv _ Hd)|]. generalize (transferred_refl (of_view (v b))). apply transferred_ext.
    + intros d' i. cbn [of_view ds_media]. fold P. unfold put_medium, put_sectors. destruct (decide _) as [->|]; [|reflexivity].
      destruct (Z.leb_spec lba i), (Z.ltb_spec i (lba + 0)); try lia; reflexivity.
    + intros d' i. unfold no_sector, target_sector. lia.
  - intros k s2 Hk (y & H2 & Hy & Ty). rewrite u32_id by lia.
    pose proof (ata_write_one_ok d v Hd s2 y (lba + k) (skipn (Z.to_nat (k * ATA_SECTOR_SIZE)) buffer) H2 Hy
      ltac:(unfold ATA_MAX_LBA; lia) ltac:(rewrite List.length_skipn; unfold ATA_SECTOR_SIZE; lia) ltac:(apply Forall_drop, Hb)) as L.
    destruct (ata_write_one d s2 (lba + k) _) as [ok s3]. destruct ok; cbn [negb]; [|exact I].
    destruct (L eq_refl) as (z & Hyz & L2). eexists. split; [exact L2|]. split; [exact I|].
    eapply transferred_ext; [| |exact (transferred_given _ _ _ _ _ _ _ (transferred_settled _ _ _ _ _ Ty Hyz))].
    + intros d' i. rewrite put_next by lia. fold (sector_of buffer k). fold drive. destruct (decide _) as [[-> ->]|Hne].
      * apply put_sector_eq.
      * apply put_sector_ne. intros E. injection E as -> ->. auto.
    + intros d' i. fold drive. unfold target_sector. rewrite pair_equal_spec. lia.
  - intros s2 H2. exact H2.
  - intros E. injection E as <-. destruct Hloop as (y & Hy1 & Hy2 & Hy3). cbv zeta.
    destruct (transferred_channel _ v b y x (put_medium (ds_media x) (ata_medium d) (put_sectors (ds_media x (ata_medium d)) lba buffer n))
      (target_sector (ata_medium d) lba n) Hv Hx Hy1 Hy2) as (x' & Hx' & T & _).
    + revert Hy3. apply transferred_ext.
      * intros d' i. unfold put_medium, put_sectors, ata_medium. fold b drive. destruct (decide (d' = drive)) as [->|Hne].
        -- rewrite decide_True by reflexivity. destruct (_ && _); [reflexivity|]. symmetry. apply Hx.
        -- rewrite decide_False by congruence. symmetry. apply Hx.
      * intros d' i. unfold target_sector, ata_medium. fold b drive. rewrite pair_equal_spec. tauto.
    + intros b' d' i Hne. unfold target_sector. rewrite put_medium_ne by (unfold ata_medium; fold b; congruence).
      split; [reflexivity|]. unfold ata_medium. fold b. intros [E _]. congruence.
    + eauto.
  - intros E. discriminate E.
Qed.

Lemma read_words_length n ch : forall (s : machine W), List.length (fst (read_words n s ch)) = (2 * n)%nat.
Proof.
  induction n as [|n IH]; intros s; [reflexivity|]. cbn [read_words]. destruct (inw s _) as [q s1].
  specialize (IH s1). destruct (read_words n s1 ch) as [r s2]. cbn [fst] in *. rewrite length_app, le_bytes_length. lia.
Qed.

Lemma ata_read_one_length d (s : machine W) lba :
  let '(ok, bytes, _) := ata_read_one d s lba in Z.of_nat (List.length bytes) <= 512.
Proof.
  unfold ata_read_one. destruct (ata_select_lba28 _ _ _ _ _) as [ok s1]. destruct ok; cbn [negb]; [|cbn; lia].
  destruct (ata_wait_drq _ _) as [ok s2]. destruct ok; cbn [negb]; [|cbn; lia].
  pose proof (read_words_length (Z.to_nat (ATA_SECTOR_SIZE / 2)) (ad_channel d) s2) as L.
  destruct (read_words _ _ _) as [r s3]. cbn [fst] in L. rewrite L. vm_compute. discriminate.
Qed.

Lemma ata_read_fits d name (s : machine W) lba n ok bytes s' :
  0 <= n -> ata_block_read d name s lba n = (ok, bytes, s') -> Z.of_nat (List.length bytes) <= n * 512.
Proof.
  intros Hn. unfold ata_block_read. destruct d as [d|]; [|intros E; injection E as <- <- <-; cbn; lia].
  destruct (_ <? _); [intros E; injection E as <- <- <-; cbn; lia|].
  by_range_loop (fun k (r : list Z * machine W) => Z.of_nat (List.length (fst r)) <= k * 512)
    (fun r : ctl (list Z * machine W) (list Z * machine W) =>
       match r with Break (out, _) | Cont (out, _) => Z.of_nat (List.length out) <= n * 512 end).
  - exact Hn.
  - cbn. lia.
  - intros k [out s1] Hk H1. cbn [fst] in H1. pose proof (ata_read_one_length d s1 (u32 (lba + k))) as Hb.
    destruct (ata_read_one d s1 _) as [[o b] s2]. destruct o; cbn [negb fst]; [rewrite length_app|]; lia.
  - intros [out s1] H1. exact H1.
  - destruct s0 as [out s1]. intros E. injection E as <- <- <-. exact Hloop.
  - destruct r as [out s1]. intros E. injection E as <- <- <-. exact Hloop.
Qed.

End Driver.

(** ** Disks that store what they are given, and the promise of Disk.v *)

(** A disk that never says, after the data of a write, that it failed. *)
Class SoundWrites (W : Type) `{AtaDisks W} : Prop := {
  sw_status w v c : at_shows w v -> In c channels ->
    let '(a, _) := dev_in8 w (ch_io_base c + ATA_REG_STATUS) in
    is_Some (storing (v (ch_io_base c))) -> Z.land (u8 a) ATA_SR_BSY = 0 ->
    Z.land (u8 a) (Z.lor ATA_SR_ERR ATA_SR_DF) = 0
}.

Section Sound.
Context {W : Type} `{SoundWrites W}.

Definition shows_no_fault (w : W) (v : Z -> ata_view) : Prop :=
  at_shows w v /\ forall b, av_faults (v b) = ∅.

Lemma put_view_faults v b y :
  (forall b, av_faults (v b) = ∅) -> av_faults y = ∅ -> forall b', av_faults (put_view v b y b') = ∅.
Proof. intros Hv Hy b'. unfold put_view. destruct (_ =? b); auto. Qed.

(** Only a status can report a fault. *)
Lemma react_faults lost c x e y :
  ata_react lost c x e = Some y -> av_faults x = ∅ ->
  (forall p a, e = In8 p a -> p = ch_io_base c + ATA_REG_STATUS -> is_Some (storing x) -> Z.land a ATA_SR_BSY = 0 ->
     Z.land a (Z.lor ATA_SR_ERR ATA_SR_DF) = 0) ->
  av_faults y = ∅.
Proof.
  intros Hr Hx Ha. destruct e as [p a|p a|p a|p a]; cbn [ata_react] in Hr.
  - destruct (_ =? _); [injection Hr as <-; exact Hx|]. destruct (Z.eqb_spec p (ch_io_base c + ATA_REG_STATUS)) as [Ep|]; [|discriminate Hr].
    injection Hr as <-. specialize (Ha p a eq_refl Ep). unfold after_status, storing in *.
    destruct (Z.eqb_spec (Z.land a ATA_SR_BSY) 0) as [Eb|]; cbn [negb]; [|exact Hx].
    destruct (av_phase x); try exact Hx; try (destruct (negb _); [exact Hx|]; destruct (negb _); exact Hx).
    rewrite Ha by eauto. exact Hx.
  - destruct (av_phase x) as [| |?|[|q [|q' rest]]|? ?|? ? ?|? ? ?]; try discriminate Hr.
    destruct (_ && _); [injection Hr as <-; exact Hx | discriminate Hr].
  - destruct (av_phase x) as [|task| | | | |]; try discriminate Hr. destruct (_ =? _).
    + destruct (after_command _ _ _); [injection Hr as <-; exact Hx | discriminate Hr].
    + destruct (_ && _); [injection Hr as <-; exact Hx | discriminate Hr].
  - destruct (av_phase x) as [| | | | |drive lba data|]; try discriminate Hr. destruct (_ =? _); [|discriminate Hr].
    destruct (_ =? _)%nat; injection Hr as <-; cbn [av_faults with_phase]; rewrite Hx; [set_solver | reflexivity].
Qed.

(** Such hardware follows the protocol without a fault. *)
#[local] Instance sound_disks : AtaDisks W.
Proof.
  refine {| at_shows := shows_no_fault |}.
  - intros w v v' E [Hw Hf]. split; [exact (at_ext _ _ _ E Hw)|]. intros b. rewrite <- E. apply Hf.
  - intros w v b d i [Hw _]. exact (at_sector _ _ b d i Hw).
  - intros w v b drive lba data [Hw _]. exact (at_storing _ _ b drive lba data Hw).
  - intros w v c p a [Hw Hf] Hc Hr. pose proof (at_in8 w v c p a Hw Hc Hr) as L. pose proof (sw_status w v c Hw Hc) as S.
    destruct (dev_in8 w p) as [a' w'] eqn:Ep. destruct L as (lost & y & Hlost & Hy & Hw'). exists lost, y.
    split; [exact Hlost|]. split; [exact Hy|]. split; [exact Hw'|]. apply (put_view_faults v _ _ Hf).
    apply (react_faults _ _ _ _ _ Hy (Hf _)). intros q a1 Eq -> Hs Hb. injection Eq as -> <-. rewrite Ep in S. auto.
  - intros w v c p a [Hw Hf] Hc Hr. pose proof (at_in16 w v c p a Hw Hc Hr) as L.
    destruct (dev_in16 w p) as [a' w']. destruct L as (y & Hy & Hw'). exists y. split; [exact Hy|]. split; [exact Hw'|].
    apply (put_view_faults v _ _ Hf), (react_faults _ _ _ _ _ Hy (Hf _)). discriminate.
  - intros w v c p a y [Hw Hf] Hc Hr. split; [exact (at_out8 w v c p a y Hw Hc Hr)|].
    apply (put_view_faults v _ _ Hf), (react_faults _ _ _ _ _ Hr (Hf _)). discriminate.
  - intros w v c p a y [Hw Hf] Hc Hr. split; [exact (at_out16 w v c p a y Hw Hc Hr)|].
    apply (put_view_faults v _ _ Hf), (react_faults _ _ _ _ _ Hr (Hf _)). discriminate.
Defined.

(** Every channel is at rest, no write has failed, and the media hold [c] once
    what is being stored is stored. *)
Definition ata_holds (w : W) (c : media (Z * Z)) : Prop :=
  exists v, shows_no_fault w v /\ (forall ch, In ch channels -> at_rest (av_phase (v (ch_io_base ch))))
    /\ forall b d i, c (b, d) i = promised (v b) d i.

Lemma holds_disks w c :
  ata_holds w c -> exists x, ata_disks (H0 := sound_disks) w x /\ (forall k i, ds_media x k i = c k i).
Proof.
  intros (v & Hw & Hv & Hc).
  exists (mk_disks c (fun k i => (snd k, i) ∈ av_faults (v (fst k))) (fun k i => storing (v (fst k)) = Some (snd k, i))).
  split; [|reflexivity]. exists v. split; [exact Hw|]. split; [exact Hv|]. cbn. auto.
Qed.

Lemma disks_hold w x : ata_disks (H0 := sound_disks) w x -> ata_holds w (ds_media x) /\ forall k i, ~ ds_faults x k i.
Proof.
  intros (v & Hw & Hv & Hx). split.
  - exists v. split; [exact Hw|]. split; [exact Hv|]. intros b d i. apply Hx.
  - intros [b d] i Hf. apply Hx in Hf. rewrite (proj2 Hw b) in Hf. set_solver.
Qed.

Lemma holds_ext w c c' : (forall k i, c k i = c' k i) -> ata_holds w c -> ata_holds w c'.
Proof. intros E (v & Hw & Hv & Hc). exists v. split_and!; auto. intros b d i. rewrite <- E. apply Hc. Qed.

(** With no faults the media hold what they should. *)
Lemma transferred_holds w x target Wr x' :
  ata_disks (H0 := sound_disks) w x' -> transferred x target Wr x' ->
  ata_holds w target /\ forall k i, ds_media x' k i = target k i.
Proof.
  intros Hx T. destruct (disks_hold w x' Hx) as [Hh Hf].
  assert (E : forall k i, ds_media x' k i = target k i).
  { intros k i. destruct (T k i) as [[E | [F _]] _]; [exact E | destruct (Hf k i F)]. }
  split; [exact (holds_ext _ _ _ E Hh) | exact E].
Qed.

Lemma put_medium_ext {K} `{EqDecision K} (c c' : media K) k lba buffer n :
  (forall k i, c k i = c' k i) -> forall k' i,
  put_medium c k (put_sectors (c k) lba buffer n) k' i = put_medium c' k (put_sectors (c' k) lba buffer n) k' i.
Proof.
  intros E k' i. unfold put_medium, put_sectors. destruct (decide _) as [->|]; [destruct (_ && _); auto | apply E].
Qed.

#[export] Instance ata_sector_devices : SectorDevices W ata_device (Z * Z).
Proof.
  refine {| sd_attached := ata_attached; sd_holds := ata_holds |}.
  - intros bd k (name & d & n & -> & _ & _ & Hn). split; [reflexivity|]. cbn. lia.
  - intros bd k k' (name & d & n & -> & _ & -> & _) (name' & d' & n' & E & _ & -> & _). unfold ata_block in E.
    injection E as _ _ <-. reflexivity.
  - intros w c [b dr] i (v & [Hw _] & _ & Hc). rewrite Hc. exact (promised_sector w v b dr i Hw).
  - intros w c c' E Hh. exact (holds_ext _ _ _ E Hh).
  - intros bd k read s lba n ok bytes s' (name & d & m & -> & _) Er Hn. cbn in Er. injection Er as <-.
    exact (ata_read_fits _ _ _ _ _ _ _ _ Hn).
  - intros bd k read s c lba n bytes s' (name & d & m & -> & Hd & -> & Hm) Er Hc Hlba Hn Hin Hr. cbn in Er, Hin. injection Er as <-.
    destruct (holds_disks _ _ Hc) as (x & Hx & Ex).
    destruct (ata_read_ok (H0 := sound_disks) d name s x lba n bytes s' Hd Hx Hlba ltac:(lia) ltac:(lia) Hr) as (x' & Hx' & -> & T).
    destruct (transferred_holds _ _ _ _ _ Hx' T) as [Hh E]. split; [|exact (holds_ext _ _ _ Ex Hh)].
    apply sectors_ext. intros i _. rewrite E. apply Ex.
  - intros bd k write s c lba n buffer s' (name & d & m & -> & Hd & -> & Hm) Ew Hc Hlba Hn Hin Hb Hl Hr. cbn in Ew, Hin. injection Ew as <-.
    destruct (holds_disks _ _ Hc) as (x & Hx & Ex).
    destruct (ata_write_ok (H0 := sound_disks) d name s x lba n buffer s' Hd Hx Hlba ltac:(lia) ltac:(lia) Hb Hl Hr) as (x' & Hx' & T).
    destruct (transferred_holds _ _ _ _ _ Hx' T) as [Hh E]. revert Hh. apply holds_ext, put_medium_ext, Ex.
Defined.
End Sound.

(** What detection registers are such devices. *)
Lemma identify_words {W} `{PortDevice W} (s : machine W) ch drive words s' :
  ata_identify s ch drive = (Some words, s') -> forall i, 0 <= nth i words 0 < 65536.
Proof.
  unfold ata_identify. cbv zeta. destruct (ata_status _ _) as [status s1]. destruct (status =? 0); [intros E; discriminate E|].
  destruct (ata_wait_not_busy _ _) as [ok s2]. destruct ok; cbn [negb]; [|intros E; discriminate E].
  destruct (inb s2 _) as [l1 s3]. destruct (inb s3 _) as [l2 s4]. destruct (_ || _); [intros E; discriminate E|].
  destruct (ata_wait_drq _ _) as [ok s5]. destruct ok; cbn [negb]; [|intros E; discriminate E].
  by_range_loop (fun (k : Z) (r : list Z * machine W) => List.Forall (fun w => 0 <= w < 65536) (fst r))
    (fun r : ctl (list Z * machine W) (list Z * machine W) => List.Forall (fun w => 0 <= w < 65536) (fst (loop_state r))).
  - lia.
  - constructor.
  - intros k [words1 s6] _ H1. unfold inw. destruct (dev_in16 _ _) as [a w']. cbn [fst] in *.
    apply List.Forall_app. split; [exact H1|]. constructor; [|constructor]. apply u16_range.
  - intros r H1. exact H1.
  - destruct s0 as [words1 s6]. intros E. injection E as <- _. cbn [loop_state fst] in Hloop. intros i. rewrite List.Forall_forall in Hloop.
    destruct (Nat.lt_ge_cases i (List.length words1)) as [Hi|Hi]; [apply Hloop, nth_In, Hi | rewrite nth_overflow by exact Hi; lia].
  - destruct r as [words1 s6]. intros E. injection E as <- _. cbn [loop_state fst] in Hloop. intros i. rewrite List.Forall_forall in Hloop.
    destruct (Nat.lt_ge_cases i (List.length words1)) as [Hi|Hi]; [apply Hloop, nth_In, Hi | rewrite nth_overflow by exact Hi; lia].
Qed.

Definition ata_devices_attached {W} `{AtaDisks W} (devices : list (block_device ata_device (machine W))) : Prop :=
  List.Forall (fun bd => exists k, ata_attached bd k) devices.

Lemma ata_probe_attached {W} `{AtaDisks W} (s : machine W) count devices ch drive :
  In ch channels -> ata_devices_attached devices ->
  ata_devices_attached (snd (fst (ata_probe_drive s count devices ch drive))).
Proof.
  intros Hch Hd. unfold ata_probe_drive. destruct (_ <=? _); [exact Hd|].
  destruct (ata_identify s ch drive) as [r s1] eqn:Ei. destruct r as [words|]; [|exact Hd]. cbv zeta.
  destruct (_ =? 0); [exact Hd|]. unfold block_register. destruct (_ || _); [exact Hd|]. cbn [fst snd].
  apply List.Forall_app. split; [exact Hd|]. constructor; [|constructor].
  exists (ata_medium (mk_ata ch drive)), (device_name ch drive), (mk_ata ch drive). eexists. split; [reflexivity|].
  split; [exact Hch|]. split; [reflexivity|]. pose proof (identify_words _ _ _ _ _ Ei 60) as H60.
  change 4294967296 with (2 ^ 32). apply lor_lt_pow2; [lia | change (2 ^ 32) with 4294967296; lia | apply u32_range].
Qed.

(** Every device that detection registers is attached to a medium. *)
Lemma ata_init_attached {W} `{AtaDisks W} (s : machine W) :
  ata_devices_attached (snd (fst (ata_init s block_init))).
Proof.
  unfold ata_init, block_init. cbn [fold_left channels].
  assert (H0' : ata_devices_attached (W := W) []) by constructor.
  repeat match goal with
  | Hd : ata_devices_attached ?devices |- context [ata_probe_drive ?s ?n ?devices ?ch ?drive] =>
      pose proof (ata_probe_attached s n devices ch drive ltac:(cbn; auto) Hd); clear Hd;
      destruct (ata_probe_drive s n devices ch drive) as [[? ?] ?]; cbn [fst snd] in *
  end.
  assumption.
Qed.

(** ** What the driver promises *)

(** C29. The ATA driver transfers sectors, over any hardware that follows the
    protocol of an ATA channel, whatever it answers to the polling. A read that
    reports success has returned what the sectors asked for hold, in order, and
    written nothing; one that fails has stored no more than was asked for. After
    a write that reports success every sector of the disks holds what it should:
    the buffer in the sectors written and what it held before in the others,
    but for those whose write the disk reports as failed in the status that
    follows the data. That status the driver does not look at, so that the
    write is reported as done all the same (ata.c:141); only sectors of this
    write, or the one that was still being stored when the call began, can be
    lost in this way. *)
Theorem ata_transfers_sectors {W} `{AtaDisks W} d name (s : machine W) x lba n buffer :
  In (ad_channel d) channels -> ata_disks (mc_device s) x -> 0 <= lba -> 0 <= n -> lba + n < 4294967296 ->
  List.Forall is_byte buffer -> n * 512 <= Z.of_nat (List.length buffer) ->
  let c := ds_media x in let k := ata_medium d in
  (let '(ok, bytes, s') := ata_block_read (Some d) name s lba n in
   if ok then exists x', ata_disks (mc_device s') x' /\ bytes = sectors (ds_media x' k) lba (Z.to_nat n)
     /\ transferred x c no_sector x'
   else Z.of_nat (List.length bytes) <= n * 512)
  /\ (let '(ok, s') := ata_block_write (Some d) name s lba buffer n in
      ok = true -> exists x', ata_disks (mc_device s') x'
        /\ transferred x (put_medium c k (put_sectors (c k) lba buffer n)) (target_sector k lba n) x').
Proof.
  intros Hd Hx Hlba Hn Hmax Hb Hl c k. split.
  - destruct (ata_block_read (Some d) name s lba n) as [[ok bytes] s'] eqn:E. destruct ok.
    + apply (ata_read_ok d name s x lba n bytes s' Hd Hx Hlba); auto; lia.
    + exact (ata_read_fits _ _ _ _ _ _ _ _ Hn E).
  - destruct (ata_block_write (Some d) name s lba buffer n) as [ok s'] eqn:E. intros ->.
    apply (ata_write_ok d name s x lba n buffer s' Hd Hx Hlba); auto; lia.
Qed.

(** ** A disk that answers at once *)

(** With [failing] every write is reported as failed after its data. *)
Record hardware (failing : bool) : Type := mk_hardware { id_view : Z -> ata_view }.
Arguments mk_hardware {failing}.
Arguments id_view {failing}.

Abbreviation ideal := (hardware false).

Definition channel_of (p : Z) : option ata_channel :=
  List.find (fun c => (p =? ch_control_base c) || ((ch_io_base c <=? p) && (p <=? ch_io_base c + 7))) channels.

Definition blank : list Z := repeat 0 512.

(** The reaction of the channel that the port belongs to. *)
Definition ideal_react {failing} (w : hardware failing) (p : Z) (e : io_event) : hardware failing :=
  match channel_of p with
  | Some c => match ata_react blank c (id_view w (ch_io_base c)) e with
              | Some y => mk_hardware (put_view (id_view w) (ch_io_base c) y)
              | None => w
              end
  | None => w
  end.

Definition ideal_word {failing} (w : hardware failing) (p : Z) : Z :=
  match av_phase (id_view w p) with DataIn (a :: b :: _) => a + 256 * b | _ => 0 end.

Definition ideal_status {failing} (w : hardware failing) (p : Z) : Z :=
  match channel_of p with
  | Some c => if failing && bool_decide (is_Some (storing (id_view w (ch_io_base c)))) then 0x51 else 0x58
  | None => 0x58
  end.

#[export] Instance ideal_device {failing} : PortDevice (hardware failing) := {|
  dev_in8 w p := (ideal_status w p, ideal_react w p (In8 p (ideal_status w p)));
  dev_in16 w p := (ideal_word w p, ideal_react w p (In16 p (ideal_word w p)));
  dev_out8 w p v := ideal_react w p (Out8 p v);
  dev_out16 w p v := ideal_react w p (Out16 p v) |}.

(** Sectors are 512 bytes, and what is on its way to or from the disk is bytes. *)
Definition view_ok (x : ata_view) : Prop :=
  (forall d i, sector_bytes (av_disk x d i))
  /\ match av_phase x with
     | PendingIn data | DataIn data | DataOut _ _ data => List.Forall is_byte data
     | Storing _ _ data => sector_bytes data
     | _ => True
     end.

Lemma put_sector_bytes disk drive lba data :
  (forall d i, sector_bytes (disk d i)) -> sector_bytes data -> forall d i, sector_bytes (put_sector disk drive lba data d i).
Proof. intros Hd Hx d i. unfold put_sector. destruct (_ && _); auto. Qed.

Lemma after_status_ok lost status x : sector_bytes lost -> view_ok x -> view_ok (after_status lost status x).
Proof.
  intros Hlost Hx. pose proof Hx as [Hd Hp]. unfold after_status. destruct (negb _); [exact Hx|].
  destruct (av_phase x) eqn:E; try exact Hx; try (split; [exact Hd | exact I]).
  - destruct (negb _); [split; [exact Hd | exact I]|]. destruct (negb _); [split; [exact Hd | exact Hp] | exact Hx].
  - destruct (negb _); [split; [exact Hd | exact I]|]. destruct (negb _); [split; [exact Hd | constructor] | exact Hx].
  - destruct (negb _); (split; [apply put_sector_bytes; auto | exact I]).
Qed.

Lemma after_command_ok x task command p :
  view_ok x -> after_command (av_disk x) task command = Some p -> view_ok (with_phase x p).
Proof.
  intros [Hd _]. unfold after_command.
  repeat match goal with |- context [match ?o with Some _ => _ | None => _ end] => destruct o; [|discriminate] end.
  cbv zeta. destruct (_ || _); [discriminate|]. destruct (_ =? _); [|destruct (_ =? _); [|discriminate]];
    intros E; injection E as <-; (split; [exact Hd | first [apply Hd | exact I]]).
Qed.

Lemma react_ok lost c x e y : sector_bytes lost -> view_ok x -> ata_react lost c x e = Some y -> view_ok y.
Proof.
  intros Hlost Hx Hr. pose proof Hx as [Hd Hp]. destruct e as [p a|p a|p a|p a]; cbn [ata_react] in Hr.
  - destruct (_ =? _); [injection Hr as <-; exact Hx|].
    destruct (_ =? _); [injection Hr as <-; exact (after_status_ok lost a x Hlost Hx) | discriminate Hr].
  - destruct (av_phase x) as [| |?|[|q [|q' rest]]|? ?|? ? ?|? ? ?]; try discriminate Hr.
    destruct (_ && _); [injection Hr as <- | discriminate Hr]. split; [exact Hd|].
    apply List.Forall_cons_iff in Hp as [_ Hp]. apply List.Forall_cons_iff in Hp as [_ Hp]. destruct rest; [exact I | exact Hp].
  - destruct (av_phase x) as [|task| | | | |]; try discriminate Hr. destruct (_ =? _).
    + destruct (after_command _ _ _) eqn:Ec; [injection Hr as <-; exact (after_command_ok _ _ _ _ Hx Ec) | discriminate Hr].
    + destruct (_ && _); [injection Hr as <-; split; [exact Hd | exact I] | discriminate Hr].
  - destruct (av_phase x) as [| | | | |drive lba data|]; try discriminate Hr. destruct (_ =? _); [|discriminate Hr].
    assert (Hb : List.Forall is_byte (data ++ le_bytes 2 a)) by (apply List.Forall_app; split; [exact Hp | apply le_bytes_byte]).
    destruct (Nat.eqb_spec (List.length (data ++ le_bytes 2 a)) 512) as [El|]; injection Hr as <-; (split; [exact Hd|]);
      [split; [exact El | exact Hb] | exact Hb].
Qed.

(** The port of an access that a channel reacts to. *)
Definition port_of (e : io_event) : Z :=
  match e with In8 p _ | In16 p _ | Out8 p _ | Out16 p _ => p end.

Lemma react_port lost c x e : In c channels -> is_Some (ata_react lost c x e) -> channel_of (port_of e) = Some c.
Proof.
  intros Hc [y Hr].
  assert (Hp : port_of e = ch_control_base c \/ ch_io_base c <= port_of e <= ch_io_base c + 7).
  { destruct e as [p a|p a|p a|p a]; cbn [ata_react port_of] in *.
    - destruct (Z.eqb_spec p (ch_control_base c)); [auto|]. unfold ATA_REG_STATUS in Hr.
      destruct (Z.eqb_spec p (ch_io_base c + 7)); [lia|discriminate Hr].
    - destruct (av_phase x) as [| |?|[|q [|q' rest]]|? ?|? ? ?|? ? ?]; try discriminate Hr.
      destruct (Z.eqb_spec p (ch_io_base c)); [lia|discriminate Hr].
    - destruct (av_phase x) as [|task| | | | |]; try discriminate Hr. unfold ATA_REG_COMMAND in Hr.
      destruct (Z.eqb_spec p (ch_io_base c + 7)); [lia|].
      destruct (Z.leb_spec (ch_io_base c + 2) p), (Z.leb_spec p (ch_io_base c + 6)); try discriminate Hr. lia.
    - destruct (av_phase x); try discriminate Hr. destruct (Z.eqb_spec p (ch_io_base c)); [lia|discriminate Hr]. }
  unfold channel_of, channels. destruct Hc as [<- | [<- | []]]; cbn [ch_control_base ch_io_base] in Hp |- *;
    cbn [List.find ch_control_base ch_io_base];
    repeat match goal with |- context [?a =? ?b] => destruct (Z.eqb_spec a b) | |- context [?a <=? ?b] => destruct (Z.leb_spec a b) end;
    cbn [andb orb]; try reflexivity; lia.
Qed.

(** What a disk answers does not matter for whether the protocol goes on. *)
Lemma react_in8_any lost c x p a a' : is_Some (ata_react [] c x (In8 p a)) -> is_Some (ata_react lost c x (In8 p a')).
Proof. cbn [ata_react]. destruct (_ =? _); [eauto|]. destruct (_ =? _); [eauto|]. intros [y E]. discriminate E. Qed.

Lemma blank_bytes : sector_bytes blank.
Proof.
  split; [reflexivity|]. apply List.Forall_forall. intros a Ha. apply repeat_spec in Ha. subst. unfold is_byte. lia.
Qed.

Section Hardware.
Context {failing : bool}.

Definition ideal_shows (w : hardware failing) (v : Z -> ata_view) : Prop :=
  (forall b, id_view w b = v b) /\ forall b, view_ok (v b).

Lemma ideal_reacts w v c e y :
  ideal_shows w v -> In c channels -> ata_react blank c (v (ch_io_base c)) e = Some y ->
  ideal_shows (ideal_react w (port_of e) e) (put_view v (ch_io_base c) y).
Proof.
  intros [Hv Hd] Hc Hr. unfold ideal_react. rewrite (react_port blank c _ _ Hc ltac:(eauto)), Hv, Hr. unfold put_view. split.
  - intros b. cbn [id_view]. destruct (b =? _); [reflexivity | apply Hv].
  - intros b. destruct (b =? _); [exact (react_ok _ _ _ _ _ blank_bytes (Hd _) Hr) | apply Hd].
Qed.

Lemma ideal_status_byte w p : u8 (ideal_status (failing := failing) w p) = ideal_status w p.
Proof. unfold ideal_status. destruct (channel_of p); [destruct (_ && _)|]; reflexivity. Qed.

Lemma react_in16_word w v c p a :
  ideal_shows w v -> is_Some (ata_react [] c (v (ch_io_base c)) (In16 p a)) ->
  u16 (ideal_word w p) = ideal_word w p /\ is_Some (ata_react [] c (v (ch_io_base c)) (In16 p (ideal_word w p))).
Proof.
  intros [Hv Hd] [y Hr]. cbn [ata_react] in *. unfold ideal_word. specialize (Hd (ch_io_base c)). destruct Hd as [_ Hp].
  destruct (av_phase (v (ch_io_base c))) as [| |?|[|q [|q' rest]]|? ?|? ? ?|? ? ?] eqn:Ep; try discriminate Hr.
  destruct (Z.eqb_spec p (ch_io_base c)) as [->|]; [|discriminate Hr]. rewrite Hv, Ep, Z.eqb_refl. cbn [andb].
  apply List.Forall_cons_iff in Hp as [Hq Hp]. apply List.Forall_cons_iff in Hp as [Hq' _]. split; [clear -Hq Hq'; zlia | eauto].
Qed.

#[export] Instance ideal_disks : AtaDisks (hardware failing).
Proof.
  refine {| at_shows := ideal_shows |}.
  - intros w v v' E [Hv Hd]. split; intros b; rewrite <- E; auto.
  - intros w v b d i [_ Hd]. apply (Hd b).
  - intros w v b drive lba data [_ Hd] E. pose proof (proj2 (Hd b)) as L. rewrite E in L. exact L.
  - intros w v c p a Hw Hc Hr. cbn [dev_in8 ideal_device]. rewrite ideal_status_byte.
    destruct (react_in8_any blank _ _ _ _ (ideal_status w p) Hr) as [y Hy].
    exists blank, y. split; [exact blank_bytes|]. split; [exact Hy | exact (ideal_reacts w v c _ y Hw Hc Hy)].
  - intros w v c p a Hw Hc Hr. cbn [dev_in16 ideal_device]. destruct (react_in16_word _ _ _ _ _ Hw Hr) as (E & y & Hy).
    exists y. rewrite E. split; [exact Hy | exact (ideal_reacts w v c (In16 p (ideal_word w p)) y Hw Hc Hy)].
  - intros w v c p a y Hw Hc Hr. exact (ideal_reacts w v c (Out8 p a) y Hw Hc Hr).
  - intros w v c p a y Hw Hc Hr. exact (ideal_reacts w v c (Out16 p a) y Hw Hc Hr).
Defined.
End Hardware.

#[export] Instance ideal_sound : SoundWrites ideal.
Proof.
  split. intros w v c _ _. cbn [dev_in8 ideal_device]. unfold ideal_status. cbn [andb].
  destruct (channel_of _); intros _ _; reflexivity.
Qed.

(** Two drives on each channel, every sector filled with its number. *)
Definition numbered_disks (failing : bool) : hardware failing :=
  mk_hardware (fun _ => mk_view Busy (fun _ i => repeat (u8 i) 512) ∅).

Definition numbered : disks (Z * Z) := mk_disks (fun _ i => repeat (u8 i) 512) no_sector no_sector.

Lemma numbered_shown failing : ata_disks (numbered_disks failing) numbered.
Proof.
  exists (id_view (numbered_disks failing)). split; [split; [reflexivity|]|].
  - intros b. split; [|exact I]. intros d i. split; [apply repeat_length|]. apply List.Forall_forall. intros a Ha.
    apply repeat_spec in Ha. subst. apply u8_range.
  - split; [intros; exact I|]. intros b d i. split; [reflexivity|]. unfold no_sector. cbn. split; [set_solver|].
    split; [intros []|discriminate].
Qed.

Definition first_drive : ata_device := mk_ata (mk_channel 0x1f0 0x3f6 (str "ata0")) 0.

(** Two sectors are overwritten and then read: on a good disk they hold the new
    bytes, on a failing one the write is reported as done too and they do not. *)
Lemma ata_transfers_sectors_witness :
  let s := fun failing => mk_machine (numbered_disks failing) [] klog_zero in
  let new := repeat 7 1024 in
  let write := fun failing => ata_block_write (Some first_drive) (str "ata0-master") (s failing) 5 new 2 in
  let read := fun failing => ata_block_read (Some first_drive) (str "ata0-master") (snd (write failing)) 5 2 in
  fst (write false) = true /\ fst (write true) = true
  /\ fst (read false) = (true, new) /\ fst (read true) = (true, repeat 0 1024)
  /\ forall failing, exists x', ata_disks (mc_device (snd (write failing))) x'
       /\ transferred numbered (put_medium (ds_media numbered) (0x1f0, 0) (put_sectors (ds_media numbered (0x1f0, 0)) 5 new 2))
            (target_sector (0x1f0, 0) 5 2) x'.
Proof.
  cbv zeta. do 4 (split; [vm_compute; reflexivity|]). intros failing.
  pose proof (ata_transfers_sectors first_drive (str "ata0-master") (mk_machine (numbered_disks failing) [] klog_zero) numbered
    5 2 (repeat 7 1024) ltac:(left; reflexivity) (numbered_shown failing) ltac:(lia) ltac:(lia) ltac:(lia)
    ltac:(apply List.Forall_forall; intros a Ha; apply repeat_spec in Ha; subst; unfold is_byte; lia)
    ltac:(rewrite repeat_length; lia)) as [_ L].
  destruct (ata_block_write (Some first_drive) _ _ 5 _ 2) as [ok s'] eqn:E. apply L.
  change ok with (fst (ok, s')). rewrite <- E. destruct failing; vm_compute; reflexivity.
Defined.
