(* ===== verification/AtaReady.v ===== *)
(** * Disks that answer in time

    AtaDisk.v says what a transfer has done when it reports success. Here the
    other half: a disk that keeps the kernel waiting for fewer status reads than
    the driver has patience for ([ATA_TIMEOUT]), and reports no error before the
    data phase, completes every transfer. The class [ReadySectors] is what Disk.v's users may then
    rely on. *)

From Stdlib Require Import String.
From S2P Require Import Prelude Klog Stdio UserApi Block Ata AtaProofs Disk AtaDisk.

(** Devices whose transfers inside the medium succeed. *)
Class ReadySectors (W D K : Type) `{SectorDevices W D K} : Type := {
  sr_ready : block_device D (machine W) -> Prop;
  sr_read d k read s c lba n :
    sd_attached d k -> sr_ready d -> bd_read d = Some read -> sd_holds (mc_device s) c ->
    0 <= lba -> 0 < n -> lba + n <= bd_sector_count d ->
    fst (fst (read (bd_driver_data d) (bd_name d) s lba n)) = true;
  sr_write d k write s c lba n buffer :
    sd_attached d k -> sr_ready d -> bd_write d = Some write -> sd_holds (mc_device s) c ->
    0 <= lba -> 0 < n -> lba + n <= bd_sector_count d -> List.Forall is_byte buffer ->
    n * 512 <= Z.of_nat (List.length buffer) ->
    fst (write (bd_driver_data d) (bd_name d) s lba buffer n) = true;
  sr_functions d : sr_ready d -> is_Some (bd_read d) /\ is_Some (bd_write d)
}.

(** ** The protocol, with an end to the waiting *)

(** A status that lets the driver go on in the phase [p]. *)
Definition answered (p : ata_phase) (status : Z) : Prop :=
  match p with
  | Busy | Storing _ _ _ => Z.land status ATA_SR_BSY = 0
  | PendingIn _ | PendingOut _ _ =>
      Z.land status (Z.lor ATA_SR_ERR ATA_SR_DF) = 0 /\ Z.land status ATA_SR_BSY = 0
      /\ Z.land status ATA_SR_DRQ <> 0
  | _ => True
  end.

(** A status that makes the driver wait. *)
Definition working (status : Z) : Prop :=
  Z.land status ATA_SR_BSY <> 0 /\ Z.land status (Z.lor ATA_SR_ERR ATA_SR_DF) = 0.

(** [ap_wait w b] bounds the status reads until the channel at [b] answers. *)
Class PromptDisks (W : Type) `{AtaDisks W} : Type := {
  ap_wait : W -> Z -> Z;
  ap_bound w b : 0 <= ap_wait w b < ATA_TIMEOUT;
  ap_status w v c : at_shows w v -> In c channels ->
    let '(a, w') := dev_in8 w (ch_io_base c + ATA_REG_STATUS) in
    answered (av_phase (v (ch_io_base c))) (u8 a)
    \/ working (u8 a) /\ ap_wait w' (ch_io_base c) < ap_wait w (ch_io_base c)
}.

Section Prompt.
Context {W : Type} `{PromptDisks W}.
Variable c : ata_channel.
Variable v : Z -> ata_view.
Hypothesis Hc : In c channels.

Abbreviation shown := (shown c v).
Abbreviation left_to_wait s := (ap_wait (mc_device s) (ch_io_base c)).

Lemma prompt_status s x :
  shown s x -> let '(a, s') := ata_status s c in
  answered (av_phase x) a \/ working a /\ left_to_wait s' < left_to_wait s.
Proof.
  intros Hs. pose proof (ap_status _ _ c Hs Hc) as L. rewrite put_view_eq in L.
  unfold ata_status, inb. destruct (dev_in8 _ _) as [a w']. exact L.
Qed.

(** Both polling loops: [step] goes on when the disk is working and ends well
    when it has answered. *)
Lemma prompt_loop (step : Z -> machine W -> ctl (machine W) (bool * machine W)) (x : ata_view) s :
  shown s x ->
  (forall k s1, shown s1 x -> let '(a, s2) := ata_status s1 c in
     (answered (av_phase x) a -> step k s1 = Break (true, s2))
     /\ (working a -> step k s1 = Cont s2 /\ shown s2 x)) ->
  fst (gave_up (range_loop 0 ATA_TIMEOUT 1 step s)) = true.
Proof.
  intros Hs Hstep.
  apply (range_loop_ind (fun k s1 => shown s1 x /\ left_to_wait s1 + k < ATA_TIMEOUT)
    (fun r => fst (gave_up r) = true)).
  - unfold ATA_TIMEOUT. lia.
  - split; [exact Hs|]. pose proof (ap_bound (mc_device s) (ch_io_base c)). lia.
  - intros k s1 Hk [Hs1 Hw]. specialize (Hstep k s1 Hs1). pose proof (prompt_status s1 x Hs1) as L.
    destruct (ata_status s1 c) as [a s2]. destruct L as [La | [Lw Lt]].
    + rewrite (proj1 Hstep La). reflexivity.
    + destruct (proj2 Hstep Lw) as [-> Hs2]. split; [exact Hs2 | lia].
  - intros s1 [_ Hw]. pose proof (ap_bound (mc_device s1) (ch_io_base c)). lia.
Qed.

(** A busy channel stays in its phase. *)
Lemma working_kept s x :
  shown s x -> let '(a, s') := ata_status s c in working a -> shown s' x.
Proof.
  intros Hs. pose proof (shown_status c v Hc s x Hs) as L. destruct (ata_status s c) as [a s']. destruct L as (lost & _ & L).
  intros [Hb _]. unfold after_status in L. destruct (Z.eqb_spec (Z.land a ATA_SR_BSY) 0); [contradiction | exact L].
Qed.

Lemma prompt_wait_not_busy s x : shown s x -> at_rest (av_phase x) -> fst (ata_wait_not_busy s c) = true.
Proof.
  intros Hs Hp. apply (prompt_loop _ x s Hs). intros k s1 Hs1. pose proof (working_kept s1 x Hs1) as L.
  destruct (ata_status s1 c) as [a s2]. split.
  - intros Ha. assert (Hb : Z.land a ATA_SR_BSY = 0) by (destruct (av_phase x); try destruct Hp; exact Ha).
    rewrite Hb. reflexivity.
  - intros Hw. split; [|exact (L Hw)]. destruct Hw as [Hb _]. destruct (Z.eqb_spec (Z.land a ATA_SR_BSY) 0); [contradiction | reflexivity].
Qed.

Lemma prompt_wait_drq s x : shown s x -> is_pending (av_phase x) = true -> fst (ata_wait_drq s c) = true.
Proof.
  intros Hs Hp. apply (prompt_loop _ x s Hs). intros k s1 Hs1. pose proof (working_kept s1 x Hs1) as L.
  destruct (ata_status s1 c) as [a s2]. split.
  - intros Ha. assert (Hb : Z.land a (Z.lor ATA_SR_ERR ATA_SR_DF) = 0 /\ Z.land a ATA_SR_BSY = 0 /\ Z.land a ATA_SR_DRQ <> 0)
      by (destruct (av_phase x); try discriminate Hp; exact Ha).
    destruct Hb as (-> & -> & Hd). destruct (Z.eqb_spec (Z.land a ATA_SR_DRQ) 0); [contradiction | reflexivity].
  - intros Hw. split; [|exact (L Hw)]. destruct Hw as [Hb ->].
    destruct (Z.eqb_spec (Z.land a ATA_SR_BSY) 0); [contradiction | reflexivity].
Qed.
End Prompt.

(** ** Transfers *)

Section Transfer.
Context {W : Type} `{PromptDisks W}.
Variable d : ata_device.
Variable v : Z -> ata_view.
Hypothesis Hc : In (ad_channel d) channels.

Abbreviation c := (ad_channel d).
Abbreviation drive := (Z.land (ad_drive d) 1).
Abbreviation shown := (shown c v).

Lemma prompt_select s x lba :
  shown s x -> at_rest (av_phase x) -> fst (ata_select_lba28 s c (ad_drive d) lba 1) = true.
Proof.
  intros Hs Hp. unfold ata_select_lba28. pose proof (prompt_wait_not_busy c v Hc s x Hs Hp) as L.
  destruct (ata_wait_not_busy s c) as [ok s1]. cbn [fst] in L. subst ok. reflexivity.
Qed.

(** The command is given and the disk asks for the data phase. *)
Lemma prompt_command s x lba command :
  shown s x -> at_rest (av_phase x) -> 0 <= lba < ATA_MAX_LBA ->
  command = ATA_CMD_READ_SECTORS \/ command = ATA_CMD_WRITE_SECTORS ->
  fst (ata_wait_drq (outb (snd (ata_select_lba28 s c (ad_drive d) lba 1)) (ch_io_base c + ATA_REG_COMMAND) command) c) = true.
Proof.
  intros Hs Hp Hlba Hcmd. pose proof (prompt_select s x lba Hs Hp) as E. pose proof (shown_select d v Hc s x lba Hs Hp) as L.
  destruct (ata_select_lba28 _ _ _ _ _) as [ok s1]. cbn [fst snd] in *. subst ok. destruct (L eq_refl) as (y & _ & Ly).
  pose (p := if command =? ATA_CMD_READ_SECTORS then PendingIn (av_disk y drive lba) else PendingOut drive lba).
  apply (prompt_wait_drq c v Hc _ (with_phase y p)).
  - apply (shown_outb c v Hc s1 _ _ _ _ Ly). unfold ata_react. cbn [with_phase av_phase]. rewrite Z.eqb_refl.
    destruct Hcmd as [-> | ->]; rewrite sector_command by exact Hlba; reflexivity.
  - unfold p. destruct (_ =? _); reflexivity.
Qed.

Lemma prompt_read_one s x lba :
  shown s x -> at_rest (av_phase x) -> 0 <= lba < ATA_MAX_LBA -> fst (fst (ata_read_one d s lba)) = true.
Proof.
  intros Hs Hp Hlba. unfold ata_read_one. pose proof (prompt_select s x lba Hs Hp) as E.
  pose proof (prompt_command s x lba ATA_CMD_READ_SECTORS Hs Hp Hlba ltac:(auto)) as E2.
  destruct (ata_select_lba28 _ _ _ _ _) as [ok s1]. cbn [fst snd] in *. subst ok. cbn [negb].
  destruct (ata_wait_drq _ c) as [ok s2]. cbn [fst] in E2. subst ok. cbn [negb].
  destruct (read_words _ _ _). reflexivity.
Qed.

Lemma prompt_write_one s x lba buffer :
  shown s x -> at_rest (av_phase x) -> 0 <= lba < ATA_MAX_LBA -> fst (ata_write_one d s lba buffer) = true.
Proof.
  intros Hs Hp Hlba. unfold ata_write_one. pose proof (prompt_select s x lba Hs Hp) as E.
  pose proof (prompt_command s x lba ATA_CMD_WRITE_SECTORS Hs Hp Hlba ltac:(auto)) as E2.
  destruct (ata_select_lba28 _ _ _ _ _) as [ok s1]. cbn [fst snd] in *. subst ok. cbn [negb].
  destruct (ata_wait_drq _ c) as [ok s2]. cbn [fst] in E2. subst ok. reflexivity.
Qed.
End Transfer.

Section Driver.
Context {W : Type} `{AtaDisks W} `{!SoundWrites W} `{!PromptDisks W}.

(** The media are within reach of a 28-bit sector number. *)
Definition ata_ready (bd : block_device ata_device (machine W)) : Prop :=
  bd_sector_count bd <= ATA_MAX_LBA /\ is_Some (bd_read bd) /\ is_Some (bd_write bd).

(** A channel at rest, the others as in [v]. *)
Definition resting (d : ata_device) v (s : machine W) : Prop :=
  exists y, shown (ad_channel d) v s y /\ at_rest (av_phase y).

Lemma holds_resting d (s : machine W) m :
  In (ad_channel d) channels -> ata_holds (mc_device s) m -> exists v, resting d v s.
Proof.
  intros Hd (v & [Hw _] & Hv & _). exists v, (v (ch_io_base (ad_channel d))). split; [exact (shown_start _ v s Hw) | exact (Hv _ Hd)].
Qed.

Lemma prompt_block_read d name (s : machine W) m lba n :
  In (ad_channel d) channels -> ata_holds (mc_device s) m -> 0 <= lba -> 0 <= n -> lba + n <= ATA_MAX_LBA ->
  fst (fst (ata_block_read (Some d) name s lba n)) = true.
Proof.
  intros Hd Hm Hlba Hn Hmax. destruct (holds_resting d s m Hd Hm) as [v Hs]. unfold ata_block_read. unfold ATA_MAX_LBA in *.
  rewrite u64_id by (unfold is_u64; lia). destruct (Z.ltb_spec 268435456 (lba + n)); [lia|].
  by_range_loop (fun (k : Z) (r : list Z * machine W) => resting d v (snd r))
    (fun r : ctl (list Z * machine W) (list Z * machine W) => match r with Break _ => False | Cont _ => True end).
  - lia.
  - exact Hs.
  - intros k [out s1] Hk (y & Hs1 & Hy). cbn [snd] in Hs1. rewrite u32_id by lia.
    pose proof (prompt_read_one d v Hd s1 y (lba + k) Hs1 Hy ltac:(unfold ATA_MAX_LBA; lia)) as L.
    pose proof (ata_read_one_ok d v Hd s1 y (lba + k) Hs1 Hy ltac:(unfold ATA_MAX_LBA; lia)) as L2.
    destruct (ata_read_one d s1 (lba + k)) as [[ok b] s2]. cbn [fst] in L. subst ok. cbn [negb snd].
    destruct (L2 eq_refl) as (z & _ & _ & Hz). eexists. split; [exact Hz | exact I].
  - intros r _. exact I.
  - destruct s0 as [out s1]. reflexivity.
  - contradiction.
Qed.

Lemma prompt_block_write d name (s : machine W) m lba n buffer :
  In (ad_channel d) channels -> ata_holds (mc_device s) m -> 0 <= lba -> 0 <= n -> lba + n <= ATA_MAX_LBA ->
  List.Forall is_byte buffer -> n * 512 <= Z.of_nat (List.length buffer) ->
  fst (ata_block_write (Some d) name s lba buffer n) = true.
Proof.
  intros Hd Hm Hlba Hn Hmax Hb Hl. destruct (holds_resting d s m Hd Hm) as [v Hs]. unfold ata_block_write. unfold ATA_MAX_LBA in *.
  rewrite u64_id by (unfold is_u64; lia). destruct (Z.ltb_spec 268435456 (lba + n)); [lia|].
  by_range_loop (fun (k : Z) (s1 : machine W) => resting d v s1)
    (fun r : ctl (machine W) (machine W) => match r with Break _ => False | Cont _ => True end).
  - lia.
  - exact Hs.
  - intros k s1 Hk (y & Hs1 & Hy). rewrite u32_id by lia.
    set (part := skipn (Z.to_nat (k * ATA_SECTOR_SIZE)) buffer).
    pose proof (prompt_write_one d v Hd s1 y (lba + k) part Hs1 Hy ltac:(unfold ATA_MAX_LBA; lia)) as L.
    pose proof (ata_write_one_ok d v Hd s1 y (lba + k) part Hs1 Hy ltac:(unfold ATA_MAX_LBA; lia)
      ltac:(unfold part; rewrite List.length_skipn; unfold ATA_SECTOR_SIZE; lia) ltac:(apply Forall_drop, Hb)) as L2.
    destruct (ata_write_one d s1 (lba + k) part) as [ok s2]. cbn [fst] in L. subst ok. cbn [negb].
    destruct (L2 eq_refl) as (z & _ & Hz). eexists. split; [exact Hz | exact I].
  - intros r _. exact I.
  - reflexivity.
  - contradiction.
Qed.

#[export] Instance ata_ready_sectors : ReadySectors W ata_device (Z * Z).
Proof.
  refine {| sr_ready := ata_ready |}.
  - intros bd k read s m lba n (name & d & q & -> & Hd & -> & _) [Hq _] Er Hm Hlba Hn Hin. cbn in Er, Hin, Hq. injection Er as <-.
    apply (prompt_block_read d name s m lba n Hd Hm); lia.
  - intros bd k write s m lba n buffer (name & d & q & -> & Hd & -> & _) [Hq _] Ew Hm Hlba Hn Hin Hb Hl. cbn in Ew, Hin, Hq.
    injection Ew as <-. apply (prompt_block_write d name s m lba n buffer Hd Hm); auto; lia.
  - intros bd [_ Hf]. exact Hf.
Defined.
End Driver.
