(* ===== verification/RootfsProofs.v ===== *)
(** * Mounting the root file system, and what a disk keeps

    rootfs.c against the interfaces of its neighbours: disks by Disk.v, pages by
    Pages.v and the contract of the heap. Mounting takes one block of the heap
    or none, the image in it is what the disk holds, and what is written back is
    what the next mount reads. *)

From Stdlib Require Import String.
From S2P Require Import Prelude Klog Libc Vmm Pages Heap HeapProofs Ext2Image Ext2 Ext2Ops Stdio UserApi Block Ata AtaProofs Ext2Sample Rootfs Disk AtaDisk.

(** The sectors of an image by its superblock. *)
Definition image_sectors (m : mem) : Z :=
  (u64 (sb_blocks_count m * Z.shiftl 1024 (sb_log_block_size m)) + 511) / 512.

(** What [validate_candidate] accepts, as an image of [n] sectors. *)
Definition root_image (m : mem) (n : Z) : Prop :=
  sb_magic m = EXT2_SUPER_MAGIC /\ sb_log_block_size m <= 2 /\ sb_blocks_count m <> 0
  /\ firstn (List.length ROOTFS_LABEL) (sb_volume_name m) = ROOTFS_LABEL
  /\ image_sectors m = n.

(** The superblock is the same in memories that agree on the second kibibyte. *)
Lemma superblock_bytes m m' i k :
  mem_read m 1024 1024 = mem_read m' 1024 1024 -> (i + k <= 1024)%nat ->
  mem_read m (1024 + Z.of_nat i) k = mem_read m' (1024 + Z.of_nat i) k.
Proof.
  intros E Hk. apply mem_read_ext. intros j Hj.
  pose proof (f_equal (fun l => nth (i + Z.to_nat j) l 0) E) as N. cbn beta in N.
  rewrite !mem_read_nth in N by lia. replace (1024 + Z.of_nat (i + Z.to_nat j)) with (1024 + Z.of_nat i + j) in N by lia.
  exact N.
Qed.

Lemma superblock_field m m' i :
  mem_read m 1024 1024 = mem_read m' 1024 1024 -> (i + 4 <= 1024)%nat ->
  sb_field32 m (Z.of_nat i) = sb_field32 m' (Z.of_nat i).
Proof. intros E Hi. unfold sb_field32, load. f_equal. exact (superblock_bytes m m' i 4 E Hi). Qed.

Lemma superblock_ext m m' :
  mem_read m 1024 1024 = mem_read m' 1024 1024 ->
  sb_magic m = sb_magic m' /\ sb_log_block_size m = sb_log_block_size m' /\ sb_blocks_count m = sb_blocks_count m'
  /\ sb_volume_name m = sb_volume_name m' /\ image_sectors m = image_sectors m'.
Proof.
  intros E.
  assert (H1 : sb_log_block_size m = sb_log_block_size m') by exact (superblock_field m m' 24 E ltac:(lia)).
  assert (H2 : sb_blocks_count m = sb_blocks_count m') by exact (superblock_field m m' 4 E ltac:(lia)).
  split_and!; auto.
  - unfold sb_magic, load. f_equal. exact (superblock_bytes m m' 56 2 E ltac:(lia)).
  - exact (superblock_bytes m m' 120 16 E ltac:(lia)).
  - unfold image_sectors. rewrite H1, H2. reflexivity.
Qed.

Lemma root_image_ext m m' n : mem_read m 1024 1024 = mem_read m' 1024 1024 -> root_image m n -> root_image m' n.
Proof.
  intros E. destruct (superblock_ext _ _ E) as (E1 & E2 & E3 & E4 & E5). unfold root_image.
  rewrite E1, E2, E3, E4, E5. auto.
Qed.

(** The size of an image is a positive number of kibibytes; the product in
    rootfs.c does not wrap. *)
Lemma kilobytes m :
  sb_log_block_size m <= 2 -> sb_blocks_count m <> 0 ->
  exists q, 0 < q /\ u64 (sb_blocks_count m * Z.shiftl 1024 (sb_log_block_size m)) = 1024 * q.
Proof.
  intros Hl Hb. pose proof (load_range 4 m (EXT2_SUPERBLOCK_OFFSET + 24)) as R1.
  pose proof (load_range 4 m (EXT2_SUPERBLOCK_OFFSET + 4)) as R2.
  fold (sb_field32 m 24) in R1. fold (sb_log_block_size m) in R1. fold (sb_field32 m 4) in R2. fold (sb_blocks_count m) in R2.
  set (l := sb_log_block_size m) in *. set (b := sb_blocks_count m) in *. change (256 ^ Z.of_nat 4) with 4294967296 in R1, R2.
  assert (Hc : l = 0 \/ l = 1 \/ l = 2) by lia.
  rewrite Z.shiftl_mul_pow2 by lia. exists (b * 2 ^ l). clearbody l b. rewrite u64_id; unfold is_u64;
    destruct Hc as [-> | [-> | ->]]; lia.
Qed.

Section Mount.
Context {W D P K : Type} `{SectorDevices W D K} `{PageLaws P}.

Abbreviation device := (block_device D (machine W)).
Abbreviation root := (@root_state W D P).

(** An accepted device has its superblock in the probe. *)
Lemma validate_candidate_ok d k s fs_bytes fs_sectors s' :
  sd_attached d k -> validate_candidate d s = (Some (fs_bytes, fs_sectors), s') ->
  fs_bytes = fs_sectors * 512 /\ 2 <= fs_sectors <= 131072 /\ fs_sectors mod 2 = 0
  /\ forall c, sd_holds (mc_device s) c ->
       sd_holds (mc_device s') c /\ root_image (mem_write (fun _ => 0) 0 (sectors (c k) 0 4)) fs_sectors.
Proof.
  intros Ha. destruct (sd_geometry d k Ha) as [E512 _]. unfold validate_candidate. rewrite E512.
  destruct (_ || _); [intros E; discriminate E|].
  destruct (block_read (Some d) s 0 (2048 / 512)) as [[ok bytes] s1] eqn:Er. destruct ok; cbn [negb]; [|intros E; discriminate E].
  destruct (Z.eqb_spec (sb_magic (mem_write (fun _ => 0) 0 bytes)) EXT2_SUPER_MAGIC) as [H1'|]; cbn [negb]; [|intros E; discriminate E].
  destruct (Z.ltb_spec 2 (sb_log_block_size (mem_write (fun _ => 0) 0 bytes))) as [|H2']; cbn [orb]; [intros E; discriminate E|].
  destruct (Z.eqb_spec (sb_blocks_count (mem_write (fun _ => 0) 0 bytes)) 0) as [|H3']; [intros E; discriminate E|].
  destruct (bool_decide_reflect (firstn (List.length ROOTFS_LABEL) (sb_volume_name (mem_write (fun _ => 0) 0 bytes)) = ROOTFS_LABEL))
    as [H4'|]; cbn [negb]; [|intros E; discriminate E].
  set (size := u64 _). unfold ROOTFS_MAX_BYTES.
  destruct (Z.eqb_spec size 0) as [|H5']; cbn [orb]; [intros E; discriminate E|].
  destruct (Z.ltb_spec (64 * 1024 * 1024) size) as [|H6']; [intros E; discriminate E|].
  replace (size + 512 - 1) with (size + 511) by lia.
  destruct (_ <? _); [intros E; discriminate E|]. intros E. injection E as <- <- <-.
  set (m := mem_write (fun _ => 0) 0 bytes) in *.
  split; [reflexivity|]. pose proof (kilobytes m H2' H3') as (q & Hq & E). fold size in E.
  assert (Hn : (size + 511) / 512 = 2 * q) by (rewrite E; replace (1024 * q + 511) with (511 + 2 * q * 512) by lia;
    rewrite Z.div_add by lia; reflexivity).
  split; [lia|]. split; [rewrite Hn, Z.mul_comm; apply Z_mod_mult|].
  intros c Hc. destruct (block_read_ok d k s c 0 4 bytes s1 Ha Hc ltac:(lia) ltac:(lia) Er) as (-> & Hc1 & _).
  split; [exact Hc1|]. split_and!; auto.
Qed.

(** An image is in the sectors it was written to. *)
Lemma sectors_put_image (disk : Z -> list Z) image n :
  0 <= n -> let buffer := mem_read image 0 (Z.to_nat (n * 512)) in
  sectors (put_sectors disk 0 buffer n) 0 (Z.to_nat n) = buffer.
Proof.
  intros Hn buffer. rewrite <- (Z2Nat.id n) at 1 by lia. unfold buffer.
  rewrite sectors_put by (rewrite mem_read_length; lia). apply firstn_all2. rewrite mem_read_length. lia.
Qed.

(** ** One device *)

(** The root file system is mounted from the first [n] sectors of [d], which
    are in the heap block [p] of [sz] bytes; the other blocks are [ps]. *)
Record root_mounted (verdict : mem -> Z -> bool) (y : root) (d : device) (ps : list (Z * Z)) (others : list Z)
    (n p sz : Z) : Prop := {
  rm_disk : rf_disk y = mk_disk (Some d) n;
  rm_size : 4 <= n <= 131072 /\ n mod 2 = 0 /\ n * 512 <= sz;
  rm_heap : heap_state (rf_heap y) ((p, sz) :: ps) others;
  rm_ext2 : ext2_mount_with_writeback (Some (image_of (kh_mem (rf_heap y)) p)) (n * 512) verdict = (true, rf_ext2 y)
}.

(** The media hold [c], and the image of the [n] sectors of [k] is at [p]. *)
Definition root_read (y : root) (c : media K) (k : K) (n p : Z) : Prop :=
  sd_holds (mc_device (rf_machine y)) c
  /\ mem_read (kh_mem (rf_heap y)) p (Z.to_nat (n * 512)) = sectors (c k) 0 (Z.to_nat n)
  /\ root_image (image_of (kh_mem (rf_heap y)) p) n.

Lemma image_of_read m p a n : mem_read (image_of m p) a n = mem_read m (p + a) n.
Proof. apply mem_read_ext. intros i _. unfold image_of. do 2 f_equal. lia. Qed.

Lemma firstn_mem_read m a k n : (k <= n)%nat -> firstn k (mem_read m a n) = mem_read m a k.
Proof. intros Hk. rewrite <- (Z.add_0_r a) at 2. exact (mem_read_slice m a 0 k n Hk). Qed.

(** Filling a block keeps the others. *)
Lemma fill_block h p sz ps others bytes :
  heap_state h ((p, sz) :: ps) others -> Z.of_nat (List.length bytes) <= sz ->
  heap_state (with_mem h (mem_write (kh_mem h) p bytes)) ((p, sz) :: ps) others
  /\ contents_same (kh_mem h) (mem_write (kh_mem h) p bytes) ps.
Proof.
  intros Hh Hl. split; [apply (write_state h _ others p sz); [exact Hh | left; reflexivity | lia | lia]|].
  intros q s a Hin Ha. apply heap_state_apart in Hh. inversion Hh as [|? ? Hf _]; subst.
  rewrite List.Forall_forall in Hf. specialize (Hf _ Hin). unfold apart in Hf. cbn [fst snd] in Hf.
  apply mem_write_out. lia.
Qed.

Lemma mounted_image image size verdict x :
  ext2_mount_with_writeback (Some image) size verdict = (true, x) ->
  1160 <= size /\ x_image x = image /\ x_size x = size.
Proof.
  unfold ext2_mount_with_writeback, ext2_mount_internal.
  destruct (Z.ltb_spec size (EXT2_SUPERBLOCK_OFFSET + sizeof_superblock)) as [|Hs]; [intros E; discriminate E|].
  cbv zeta. destruct (_ || _); [intros E; discriminate E|]. destruct (group_desc _ _); [|intros E; discriminate E].
  intros E. injection E as <-. auto.
Qed.

(** The image of accepted sectors. *)
Lemma read_image_ok h p disk n :
  (forall i, List.length (disk i) = 512%nat /\ List.Forall is_byte (disk i)) -> 4 <= n ->
  root_image (mem_write (fun _ => 0) 0 (sectors disk 0 4)) n ->
  let m := mem_write h p (sectors disk 0 (Z.to_nat n)) in
  mem_read m p (Z.to_nat (n * 512)) = sectors disk 0 (Z.to_nat n) /\ root_image (image_of m p) n.
Proof.
  intros Hd Hn Hr m. assert (Hl : forall q, List.length (sectors disk 0 q) = (q * 512)%nat) by (intros q; apply sectors_length, Hd).
  assert (Hb : forall q, List.Forall is_byte (sectors disk 0 q)) by (intros q; apply sectors_byte, Hd).
  split; [apply mem_read_write_eq; [apply Hb | rewrite Hl; lia]|].
  refine (root_image_ext _ _ _ _ Hr). rewrite image_of_read. unfold m.
  change 1024 with (0 + 1024) at 1. rewrite (mem_read_write_sub _ 0), (mem_read_write_sub _ p) by (rewrite ?Hl; auto; lia).
  assert (Hs : sectors disk 0 4 = firstn 2048 (sectors disk 0 (Z.to_nat n))) by (apply (sectors_prefix disk 4); [apply Hd | lia]).
  rewrite Hs, skipn_firstn_comm, firstn_firstn. reflexivity.
Qed.

Lemma try_mount_device_ok verdict y d k ps others :
  sd_attached d k -> heap_state (rf_heap y) ps others ->
  exists ok y', try_mount_device verdict y d = Ret (ok, y')
    /\ contents_same (kh_mem (rf_heap y)) (kh_mem (rf_heap y')) ps
    /\ if ok
       then exists n p sz, root_mounted verdict y' d ps others n p sz
         /\ forall c, sd_holds (mc_device (rf_machine y)) c -> root_read y' c k n p
       else heap_state (rf_heap y') ps others /\ (rf_disk y' = rf_disk y \/ rf_disk y' = no_rootfs).
Proof.
  intros Ha Hh. unfold try_mount_device. destruct (validate_candidate d (rf_machine y)) as [r s1] eqn:Ev.
  destruct r as [[fs_bytes n]|]; cbn [rf_heap rf_machine rf_disk rf_ext2 with_machine].
  2: { exists false. eexists. split; [reflexivity|]. cbn [rf_heap rf_disk]. split; [intros ? ? ? _ _; reflexivity | auto]. }
  destruct (validate_candidate_ok d k _ _ _ _ Ha Ev) as (-> & Hn & Heven & Hc).
  destruct (kmalloc_state (rf_heap y) ps others (n * 512) Hh ltac:(split; lia)) as (p & h1 & -> & Hsame & Hp).
  cbn [mbind res_bind]. destruct Hp as [(-> & Hh1 & _) | (sz & Hsz & Hal & Hh1)].
  { exists false. eexists. split; [reflexivity|]. cbn [rf_heap rf_disk with_machine]. auto. }
  assert (Hp0 : p <> 0) by exact (heap_state_nonzero _ _ _ _ _ Hh1).
  destruct (Z.eqb_spec p 0); [contradiction|]. cbn [with_machine rf_machine].
  destruct (block_read (Some d) s1 0 n) as [[ok bytes] s2] eqn:Er.
  pose proof (block_read_fits d k s1 0 n ok bytes s2 Ha ltac:(lia) Er) as Hfit.
  destruct (fill_block h1 p sz ps others bytes Hh1 ltac:(lia)) as [Hh2 Hsame2].
  pose proof (contents_same_trans _ _ _ _ Hsame Hsame2) as Hsame'.
  set (h2 := with_mem h1 (mem_write (kh_mem h1) p bytes)) in *.
  destruct (kfree_state h2 ps others p sz Hh2) as (h3 & Hfree & Hh3 & Hsame3).
  pose proof (contents_same_trans _ _ _ _ Hsame' Hsame3) as Hsame3'.
  destruct ok; cbn [negb].
  2: { exists false. eexists. rewrite Hfree. split; [reflexivity|]. cbn [rf_heap rf_disk]. auto. }
  destruct (ext2_mount_with_writeback (Some (image_of (kh_mem h2) p)) (n * 512) verdict) as [mounted x] eqn:Em.
  destruct mounted; cbn [negb].
  2: { exists false. eexists. rewrite Hfree. split; [reflexivity|]. cbn [rf_heap rf_disk]. auto. }
  destruct (mounted_image _ _ _ _ Em) as [Hsize _].
  assert (Hn4 : 4 <= n) by (Z.to_euclidean_division_equations; lia).
  exists true. eexists. split; [reflexivity|]. cbn [rf_heap]. split; [exact Hsame'|].
  exists n, p, sz. split.
  - split; cbn [rf_disk rf_heap rf_ext2]; auto; lia.
  - intros c Hs. destruct (Hc c Hs) as [Hs1 Hroot].
    destruct (block_read_ok d k s1 c 0 n bytes s2 Ha Hs1 ltac:(lia) ltac:(lia) Er) as (-> & Hs2 & _).
    split; [apply holds_printk, Hs2|]. cbn [rf_heap].
    exact (read_image_ok (kh_mem h1) p (c k) n (fun i => sd_sector _ c k i Hs) Hn4 Hroot).
Qed.

(** ** All devices *)

Definition readonly (d : device) : Prop := bd_writable d = false.

(** What holds after a device was mounted, and while none is. *)
Definition root_found verdict (y y' : root) (devices : list device) ps others : Prop :=
  exists before d after k n p sz, devices = before ++ d :: after /\ bd_writable d = true /\ sd_attached d k
    /\ root_mounted verdict y' d ps others n p sz
    /\ (List.Forall readonly before -> forall c, sd_holds (mc_device (rf_machine y)) c -> root_read y' c k n p).

Definition root_kept (y y' : root) ps others : Prop :=
  heap_state (rf_heap y') ps others /\ (rf_disk y' = rf_disk y \/ rf_disk y' = no_rootfs).

Lemma mount_devices_ok verdict (y : root) devices ps others :
  List.Forall (fun d => exists k, sd_attached d k) devices -> heap_state (rf_heap y) ps others ->
  exists ok y', rootfs_mount_from_block_devices verdict y devices = Ret (ok, y')
    /\ contents_same (kh_mem (rf_heap y)) (kh_mem (rf_heap y')) ps
    /\ if ok then root_found verdict y y' devices ps others else root_kept y y' ps others.
Proof.
  intros Hd Hh. unfold rootfs_mount_from_block_devices, mrange, block_device_count.
  rewrite trips_unit by lia.
  pose (same := fun y1 : root => contents_same (kh_mem (rf_heap y)) (kh_mem (rf_heap y1)) ps).
  pose (before_i := fun i (y1 : root) => (same y1 /\ root_kept y y1 ps others)
    /\ (List.Forall readonly (firstn (Z.to_nat i) devices) -> y1 = y)).
  pose (result := fun r => match r with
    | Break y' => same y' /\ root_found verdict y y' devices ps others
    | Cont y' => same y' /\ root_kept y y' ps others
    end).
  match goal with |- context [mfor ?n 0 1 ?body y] =>
    assert (Hloop : exists r, mfor n 0 1 body y = Ret r /\ result r); [apply (mfor_ind before_i result)|]
  end.
  - split; [|auto]. split; [intros ? ? ? _ _; reflexivity | split; auto].
  - intros i y1 Hi [(K2 & K1 & K3) Hro]. rewrite Z2Nat.id in Hi by lia. rewrite Z.add_0_l, Z.mul_1_r in *.
    destruct (nth_error devices (Z.to_nat i)) as [d|] eqn:Ed; [|apply nth_error_None in Ed; lia].
    destruct (nth_error_split _ _ Ed) as (before & after & Es & Hlen).
    unfold block_device_at, block_device_count. destruct (Z.ltb_spec i (Z.of_nat (List.length devices))); [|lia]. rewrite Ed.
    assert (Hb : firstn (Z.to_nat i) devices = before)
      by (rewrite Es, firstn_app, Hlen, Nat.sub_diag, firstn_all2 by lia; apply app_nil_r).
    assert (Hb1 : firstn (Z.to_nat (i + 1)) devices = before ++ [d]).
    { replace (Z.to_nat (i + 1)) with (S (Z.to_nat i)) by lia. rewrite Es, firstn_app, Hlen, firstn_all2 by lia.
      replace (S (Z.to_nat i) - Z.to_nat i)%nat with 1%nat by lia. reflexivity. }
    rewrite Hb in Hro. unfold before_i, result. rewrite ?Z.add_0_l, ?Z.mul_1_r, Hb1.
    destruct (bd_writable d) eqn:Ew.
    2: { eexists. split; [reflexivity|]. split; [exact (conj K2 (conj K1 K3))|]. intros Hf. apply Hro.
         apply List.Forall_app in Hf. exact (proj1 Hf). }
    assert (Hk : exists k, sd_attached d k).
    { rewrite Es in Hd. apply List.Forall_app in Hd as [_ Hd]. exact (Forall_inv Hd). }
    destruct Hk as [k Hk]. destruct (try_mount_device_ok verdict y1 d k ps others Hk K1) as (ok & y2 & -> & S & Hok).
    cbn [mbind res_bind]. eexists. split; [reflexivity|]. pose proof (contents_same_trans _ _ _ _ K2 S) as S2.
    destruct ok.
    + destruct Hok as (n & p & sz & Hm & Hc). split; [exact S2|]. exists before, d, after, k, n, p, sz. split_and!; auto.
      intros Hf c Hs. apply Hc. rewrite (Hro Hf). exact Hs.
    + destruct Hok as [Hh2 Hdisk]. split.
      * split; [exact S2|]. split; [exact Hh2|]. destruct Hdisk as [-> | ->]; auto.
      * intros Hf. apply List.Forall_app in Hf as [_ Hf]. inversion Hf as [|? ? Hr _]. unfold readonly in Hr. congruence.
  - intros y1 [Hy _]. exact Hy.
  - destruct Hloop as (r & -> & Hr). cbn [mbind res_bind]. destruct r as [y'|y'].
    + exists false. eexists. split; [reflexivity|]. cbn [rf_heap rf_disk with_machine]. destruct Hr as (K1 & K2). split; [exact K1 | exact K2].
    + exists true, y'. split; [reflexivity|]. exact Hr.
Qed.

(** C30. Mounting the root file system always ends. On success one block of the
    heap has been taken; it holds the image that ext2.c has mounted, of the
    recorded number of sectors of a writable device; if no writable device comes
    before that one, the image is byte for byte what the disk holds, has the
    label of a root file system, and the disks are as before. On failure the
    heap has no block more and no disk is recorded. The other blocks keep their
    contents. *)
Theorem rootfs_mount_correct verdict (y : root) devices ps others :
  List.Forall (fun d => exists k, sd_attached d k) devices -> heap_state (rf_heap y) ps others ->
  exists ok y', rootfs_mount_from_block_devices verdict y devices = Ret (ok, y')
    /\ contents_same (kh_mem (rf_heap y)) (kh_mem (rf_heap y')) ps
    /\ if ok
       then exists before d after k n p sz, devices = before ++ d :: after /\ bd_writable d = true /\ sd_attached d k
         /\ root_mounted verdict y' d ps others n p sz
         /\ (List.Forall readonly before -> forall c, sd_holds (mc_device (rf_machine y)) c -> root_read y' c k n p)
       else heap_state (rf_heap y') ps others /\ (rf_disk y' = rf_disk y \/ rf_disk y' = no_rootfs).
Proof. exact (mount_devices_ok verdict y devices ps others). Qed.

(** ** What a disk keeps *)

(** A write-back that reports success has stored the image. *)
Lemma rootfs_writeback_ok d k n image size (s s1 : machine W) c :
  sd_attached d k -> 0 < n <= 131072 -> sd_holds (mc_device s) c ->
  rootfs_writeback (Some (mk_disk (Some d) n)) s (Some image) size = (true, s1) ->
  sd_holds (mc_device s1) (put_medium c k (put_sectors (c k) 0 (mem_read image 0 (Z.to_nat (n * 512))) n)).
Proof.
  intros Ha Hn Hc. destruct (sd_geometry d k Ha) as [E512 _]. unfold rootfs_writeback. cbn [rd_device rd_sector_count].
  destruct (size =? 0); [intros E; discriminate E|]. rewrite E512, u64_id by (unfold is_u64; lia).
  destruct (_ <? size); [intros E; discriminate E|].
  destruct (block_write (Some d) s 0 (mem_read image 0 (Z.to_nat (n * 512))) n) as [ok s2] eqn:Ew.
  intros E. injection E as -> <-. cbn [negb].
  apply (block_write_ok d k s c 0 n _ s2 Ha Hc); [lia | lia | apply mem_read_byte | rewrite mem_read_length; lia | exact Ew].
Qed.

(** Among devices of which only [d] is writable, the writable one is [d]. *)
Lemma writable_unique before d after b2 d2 a2 :
  List.Forall readonly before -> List.Forall readonly after -> bd_writable d2 = true ->
  before ++ d :: after = b2 ++ d2 :: a2 -> b2 = before /\ d2 = d.
Proof.
  intros Hb Ha Hw. revert b2. induction Hb as [|e before He Hb IH]; intros b2 E; destruct b2 as [|e2 b2]; injection E as E1 E2.
  - auto.
  - rewrite E2, List.Forall_forall in Ha. specialize (Ha d2 ltac:(apply in_elt)). unfold readonly in Ha. congruence.
  - unfold readonly in He. congruence.
  - destruct (IH b2 E2) as [-> ->]. subst e2. auto.
Qed.

(** C31. What is written back is there after the next start: if the write-back of
    an image to a disk reports success, and a later mount, with a fresh heap and
    kernel, mounts that disk as the first writable one, then the file system it
    mounts has the size of the image and its bytes, and the other disks are as
    they were. *)
Theorem rootfs_persists verdict d k n image (s s1 : machine W) c (y y' : root) before after ps others :
  sd_attached d k -> bd_writable d = true -> 4 <= n <= 131072 -> sd_holds (mc_device s) c ->
  rootfs_writeback (Some (mk_disk (Some d) n)) s (Some image) (n * 512) = (true, s1) -> image_sectors image = n ->
  mc_device (rf_machine y) = mc_device s1 -> heap_state (rf_heap y) ps others ->
  List.Forall (fun d => exists k, sd_attached d k) (before ++ d :: after) -> List.Forall readonly before ->
  List.Forall readonly after ->
  rootfs_mount_from_block_devices verdict y (before ++ d :: after) = Ret (true, y') ->
  x_size (rf_ext2 y') = n * 512
  /\ mem_read (x_image (rf_ext2 y')) 0 (Z.to_nat (n * 512)) = mem_read image 0 (Z.to_nat (n * 512))
  /\ exists c', sd_holds (mc_device (rf_machine y')) c' /\ forall k', k' <> k -> c' k' = c k'.
Proof.
  intros Ha Hw Hn Hc Hwb Hsec Hdev Hh Hall Hbefore Hafter Hm.
  pose proof (rootfs_writeback_ok d k n image _ s s1 c Ha ltac:(lia) Hc Hwb) as Hc1. rewrite <- Hdev in Hc1.
  destruct (mount_devices_ok verdict y _ ps others Hall Hh) as (ok & y2 & E & _ & Hok). rewrite Hm in E. injection E as <- <-.
  destruct Hok as (b2 & d2 & a2 & k2 & n2 & p & sz & Es & Hw2 & Ha2 & [_ (N1 & N2 & _) _ Hx] & Hread).
  assert (Hd : b2 = before /\ d2 = d).
  { apply (writable_unique before d after b2 d2 a2); auto. }
  destruct Hd as [-> ->]. rewrite <- (sd_medium d k k2 Ha Ha2) in Hread.
  destruct (Hread Hbefore _ Hc1) as (Hc2 & Hbytes & Hroot).
  rewrite put_medium_eq in Hbytes. set (m := kh_mem (rf_heap y')) in *. set (buffer := mem_read image 0 (Z.to_nat (n * 512))) in *.
  set (disk := put_sectors (c k) 0 buffer n) in *. destruct (mounted_image _ _ _ _ Hx) as (_ & Himage & Hxs).
  assert (Hlen : forall i, List.length (disk i) = 512%nat).
  { intros i. destruct (sd_sector _ _ k i Hc1) as [L _]. rewrite put_medium_eq in L. exact L. }
  assert (Hall_n : sectors disk 0 (Z.to_nat n) = buffer) by (apply sectors_put_image; lia).
  assert (Hsuper : mem_read (image_of m p) 1024 1024 = mem_read image 1024 1024).
  { pose proof (mem_read_slice m p 1024 1024 2048 ltac:(lia)) as E1. change (p + Z.of_nat 1024) with (p + 1024) in E1.
    pose proof (mem_read_slice image 0 1024 1024 2048 ltac:(lia)) as E2. change (0 + Z.of_nat 1024) with 1024 in E2.
    rewrite image_of_read, <- E1, <- E2. do 2 f_equal.
    transitivity (sectors disk 0 4).
    - rewrite (sectors_prefix disk 4 (Z.to_nat n2) Hlen) by lia. rewrite <- Hbytes.
      symmetry. apply (firstn_mem_read m p 2048). lia.
    - rewrite (sectors_prefix disk 4 (Z.to_nat n) Hlen) by lia. rewrite Hall_n. apply (firstn_mem_read image 0 2048). lia. }
  assert (Hn2 : n2 = n).
  { destruct Hroot as (_ & _ & _ & _ & <-). destruct (superblock_ext _ _ Hsuper) as (_ & _ & _ & _ & ->). exact Hsec. }
  subst n2. split; [exact Hxs|]. rewrite Himage, image_of_read, Z.add_0_r. split; [rewrite Hbytes; exact Hall_n|].
  eexists. split; [exact Hc2|]. intros k' Hk. apply put_medium_ne, Hk.
Qed.
End Mount.

(** ** A disk with a root file system

    The image of Ext2Sample.v on the first drive of ideal hardware;
    all other sectors are zero. *)

Definition root_disk : Z -> list Z :=
  fun i => if (0 <=? i) && (i <? 32) then mem_read sample_mem (i * 512) 512 else repeat 0 512.

Definition root_media : media (Z * Z) := put_medium (fun _ _ => repeat 0 512) (0x1f0, 0) root_disk.

Definition root_hardware : ideal := mk_hardware (fun b => mk_view Busy (fun d => root_media (b, d)) ∅).

Lemma root_media_ok k i : sector_bytes (root_media k i).
Proof.
  assert (Hz : List.length (repeat 0 512) = 512%nat /\ List.Forall is_byte (repeat 0 512)).
  { split; [apply repeat_length|]. apply List.Forall_forall. intros a Ha. apply repeat_spec in Ha. subst. unfold is_byte. lia. }
  unfold root_media, put_medium. destruct (decide _); [|exact Hz]. unfold root_disk. destruct (_ && _); [|exact Hz].
  split; [apply mem_read_length | apply mem_read_byte].
Qed.

Lemma root_hardware_holds : ata_holds root_hardware root_media.
Proof.
  exists (id_view root_hardware). split; [|split; [intros; exact I | reflexivity]]. split; [|reflexivity]. split; [reflexivity|].
  intros b. split; [intros d i; apply root_media_ok | exact I].
Qed.

Definition root_block : block_device ata_device (machine ideal) := ata_block (str "ata0-master") first_drive 4096.

Lemma root_attached : sd_attached root_block (0x1f0, 0).
Proof. exists (str "ata0-master"), first_drive, 4096. split; [reflexivity|]. split; [left; reflexivity|]. split; [reflexivity | lia]. Qed.

Lemma root_all_attached : List.Forall (fun d => exists k, sd_attached d k) [root_block].
Proof. constructor; [exists (0x1f0, 0); exact root_attached | constructor]. Qed.

Definition accept (_ : mem) (_ : Z) : bool := true.

Definition unmounted (w : ideal) : root_state :=
  mk_root (D := ata_device) (P := vmm) (mk_machine w [] klog_zero) demo_heap no_rootfs
    (mk_ext2 false (fun _ => 0) 0 false 0 0 None []).

(** The image with another letter in its file, written back. *)
Definition edited_mem : mem := mem_write sample_mem 7168 [72].

Abbreviation written_back :=
  (rootfs_writeback (Some (mk_disk (Some root_block) 32)) (mk_machine root_hardware [] klog_zero) (Some edited_mem) (32 * 512)).

(** The next start, after a write-back that left the machine [s]. *)
Abbreviation next_mount s := (rootfs_mount_from_block_devices accept (unmounted (mc_device s)) [root_block]).

Definition both_succeed (w : bool * machine ideal) : bool :=
  fst w && match next_mount (snd w) with Ret (ok, _) => ok | _ => false end.

Lemma both_succeed_ok w :
  both_succeed w = true -> w = (true, snd w) /\ exists y', next_mount (snd w) = Ret (true, y').
Proof.
  unfold both_succeed. destruct w as [[] s]; cbn [fst snd andb]; [|intros E; discriminate E].
  destruct (next_mount s) as [[ok y']| |]; intros E; [subst ok; eauto | discriminate E | discriminate E].
Qed.

Lemma written_back_runs : both_succeed written_back = true.
Proof. vm_compute. reflexivity. Qed.

Lemma edited_sectors : image_sectors edited_mem = 32.
Proof. vm_compute. reflexivity. Qed.

Lemma rootfs_persists_witness : exists y',
  next_mount (snd written_back) = Ret (true, y') /\ x_size (rf_ext2 y') = 32 * 512
  /\ mem_read (x_image (rf_ext2 y')) 0 (Z.to_nat (32 * 512)) = mem_read edited_mem 0 (Z.to_nat (32 * 512)).
Proof.
  destruct (both_succeed_ok _ written_back_runs) as [Hw [y' Hm]]. exists y'. split; [exact Hm|].
  generalize dependent (snd written_back). intros s1 Hw Hm.
  pose proof (rootfs_persists accept root_block (0x1f0, 0) 32 edited_mem (mk_machine root_hardware [] klog_zero) s1
    root_media (unmounted (mc_device s1)) y' [] [] [] [] root_attached eq_refl ltac:(lia) root_hardware_holds Hw edited_sectors
    eq_refl demo_heap_state root_all_attached ltac:(constructor) ltac:(constructor) Hm) as (E1 & E2 & _).
  split; [exact E1 | exact E2].
Defined.

Lemma rootfs_mount_correct_witness : exists y' n p sz,
  next_mount (snd written_back) = Ret (true, y') /\ root_mounted accept y' root_block [] [] n p sz.
Proof.
  destruct (both_succeed_ok _ written_back_runs) as [_ [y' Hm]]. generalize dependent (snd written_back). intros s1 Hm.
  destruct (rootfs_mount_correct accept (unmounted (mc_device s1)) [root_block] [] [] root_all_attached demo_heap_state)
    as (ok & y2 & E & _ & Hok).
  rewrite Hm in E. injection E as <- <-.
  destruct Hok as ([|d0 before] & d & after & k & n & p & sz & Es & _ & _ & Hr & _); injection Es as E1 E2.
  - rewrite <- E1 in Hr. exists y', n, p, sz. split; [exact Hm | exact Hr].
  - destruct before; discriminate E2.
Defined.
