(* ===== verification/RootfsReady.v ===== *)
(** * A root file system that can be mounted is mounted

    RootfsProofs.v says what a mount has done when it reports success; here it
    does report success, when the first writable disk is ready, holds a root
    file system that ext2.c accepts, and the heap has room for it. Its
    write-backs then succeed too. *)

From Stdlib Require Import String.
From S2P Require Import Prelude Klog Libc Vmm Pages Heap HeapProofs Ext2Image Ext2 Ext2Ops Stdio UserApi Block Ata AtaProofs Rootfs Disk AtaDisk AtaReady RootfsProofs.

(** The first [n] sectors of a disk as an image. *)
Definition disk_image (disk : Z -> list Z) (n : Z) : mem := mem_write (fun _ => 0) 0 (sectors disk 0 (Z.to_nat n)).

(** Whether ext2.c accepts an image depends on its second kibibyte. *)
Lemma mount_ext m m' size verdict :
  mem_read m 1024 1024 = mem_read m' 1024 1024 ->
  fst (ext2_mount_with_writeback (Some m) size verdict) = fst (ext2_mount_with_writeback (Some m') size verdict).
Proof.
  intros E. destruct (superblock_ext _ _ E) as (E1 & E2 & E3 & _).
  assert (E4 : sb_blocks_per_group m = sb_blocks_per_group m') by exact (superblock_field m m' 32 E ltac:(lia)).
  assert (E5 : sb_inodes_per_group m = sb_inodes_per_group m') by exact (superblock_field m m' 40 E ltac:(lia)).
  unfold ext2_mount_with_writeback, ext2_mount_internal. rewrite E1, E2, E3, E4, E5.
  destruct (_ <? _); [reflexivity|]. cbv zeta. destruct (_ || _); [reflexivity|].
  unfold group_desc, image_ptr, image_range_valid. cbn [x_group_count x_block_size x_size].
  destruct (_ <=? _); [reflexivity|]. destruct (negb _); reflexivity.
Qed.

Section Ready.
Context {W D P K : Type} `{ReadySectors W D K} `{PageLaws P}.

Abbreviation device := (block_device D (machine W)).
Abbreviation root := (@root_state W D P).

Lemma block_read_ready d k s c lba n :
  sd_attached d k -> sr_ready d -> sd_holds (mc_device s) c -> 0 <= lba -> 0 < n -> lba + n <= bd_sector_count d ->
  exists s', block_read (Some d) s lba n = (true, sectors (c k) lba (Z.to_nat n), s') /\ sd_holds (mc_device s') c.
Proof.
  intros Ha Hr Hc Hlba Hn Hin. destruct (sr_functions d Hr) as [[read Er] _]. destruct (sd_geometry d k Ha) as [_ Hg].
  pose proof (sr_read d k read s c lba n Ha Hr Er Hc Hlba Hn Hin) as L.
  assert (E : block_read (Some d) s lba n = read (bd_driver_data d) (bd_name d) s lba n).
  { unfold block_read. rewrite Er, u64_id by (unfold is_u64; lia). destruct (Z.eqb_spec n 0); [lia|].
    destruct (Z.ltb_spec (bd_sector_count d) lba); [lia|]. destruct (Z.ltb_spec (bd_sector_count d - lba) n); [lia | reflexivity]. }
  rewrite E. destruct (read _ _ s lba n) as [[ok bytes] s']. cbn [fst] in L. subst ok.
  destruct (block_read_ok d k s c lba n bytes s' Ha Hc Hlba ltac:(lia) E) as (-> & Hc' & _). eauto.
Qed.

Lemma block_write_ready d k s c lba n buffer :
  sd_attached d k -> sr_ready d -> bd_writable d = true -> sd_holds (mc_device s) c -> 0 <= lba -> 0 < n ->
  lba + n <= bd_sector_count d -> List.Forall is_byte buffer -> n * 512 <= Z.of_nat (List.length buffer) ->
  fst (block_write (Some d) s lba buffer n) = true.
Proof.
  intros Ha Hr Hw Hc Hlba Hn Hin Hb Hl. destruct (sr_functions d Hr) as [_ [write Ew]]. destruct (sd_geometry d k Ha) as [_ Hg].
  unfold block_write. rewrite Ew, Hw, u64_id by (unfold is_u64; lia). destruct (Z.eqb_spec n 0); [lia|].
  destruct (Z.ltb_spec (bd_sector_count d) lba); [lia|]. destruct (Z.ltb_spec (bd_sector_count d - lba) n); [lia|].
  exact (sr_write d k write s c lba n buffer Ha Hr Ew Hc Hlba Hn Hin Hb Hl).
Qed.

Section Disk.
Variables (d : device) (k : K) (c : media K) (n : Z) (verdict : mem -> Z -> bool).
Hypothesis Ha : sd_attached d k.
Hypothesis Hr : sr_ready d.
Hypothesis Hsectors : forall i, List.length (c k i) = 512%nat /\ List.Forall is_byte (c k i).
Hypothesis Hn : 4 <= n <= 131072 /\ n <= bd_sector_count d.
Hypothesis Hroot : root_image (disk_image (c k) n) n.
Hypothesis Hmount : fst (ext2_mount_with_writeback (Some (disk_image (c k) n)) (n * 512) verdict) = true.

(** The second kibibyte of the image, wherever its sectors are put. *)
Lemma placed_superblock h p q :
  4 <= q -> mem_read (image_of (mem_write h p (sectors (c k) 0 (Z.to_nat q))) p) 1024 1024
            = firstn 1024 (skipn 1024 (sectors (c k) 0 4)).
Proof.
  intros Hq. assert (Hl : List.length (sectors (c k) 0 (Z.to_nat q)) = (Z.to_nat q * 512)%nat) by (apply sectors_length, Hsectors).
  assert (Hb : List.Forall is_byte (sectors (c k) 0 (Z.to_nat q))) by (apply sectors_byte, Hsectors).
  rewrite image_of_read, (mem_read_write_sub _ p) by (rewrite ?Hl; auto; lia).
  rewrite (sectors_prefix (c k) 4 (Z.to_nat q)) by (try apply Hsectors; lia).
  change (Z.to_nat 1024) with 1024%nat. change (4 * 512)%nat with 2048%nat.
  rewrite skipn_firstn_comm, firstn_firstn. reflexivity.
Qed.

Lemma at_zero (m : mem) : mem_read (image_of m 0) 1024 1024 = mem_read m 1024 1024.
Proof. rewrite image_of_read. reflexivity. Qed.

Lemma disk_superblock q : 4 <= q -> mem_read (disk_image (c k) q) 1024 1024 = firstn 1024 (skipn 1024 (sectors (c k) 0 4)).
Proof. intros Hq. rewrite <- at_zero. exact (placed_superblock (fun _ => 0) 0 q Hq). Qed.

Lemma validate_ready s :
  sd_holds (mc_device s) c -> exists s', validate_candidate d s = (Some (n * 512, n), s') /\ sd_holds (mc_device s') c.
Proof.
  intros Hc. destruct (sd_geometry d k Ha) as [E512 _]. destruct Hn as [Hn1 Hn2].
  destruct (block_read_ready d k s c 0 4 Ha Hr Hc ltac:(lia) ltac:(lia) ltac:(lia)) as (s1 & Er & Hc1).
  assert (Hp : root_image (disk_image (c k) 4) n).
  { refine (root_image_ext _ _ _ _ Hroot). rewrite !disk_superblock by lia. reflexivity. }
  unfold disk_image in Hp. change (Z.to_nat 4) with 4%nat in *. set (probe := mem_write _ _ _) in Hp. destruct Hp as (M1 & M2 & M3 & M4 & M5).
  exists s1. split; [|exact Hc1]. unfold validate_candidate. rewrite E512. change (negb (512 =? 512)) with false.
  destruct (Z.ltb_spec (bd_sector_count d) 4); [lia|]. cbn [orb]. change (2048 / 512) with 4. rewrite Er. cbn [negb].
  fold probe. rewrite M1, Z.eqb_refl. cbn [negb].
  destruct (Z.ltb_spec 2 (sb_log_block_size probe)); [lia|]. destruct (Z.eqb_spec (sb_blocks_count probe) 0); [contradiction|]. cbn [orb].
  rewrite bool_decide_eq_true_2 by exact M4. cbn [negb]. unfold image_sectors in M5.
  destruct (kilobytes probe M2 M3) as (q & Hq & Eq). rewrite Eq in M5 |- *.
  assert (En : 2 * q = n) by (rewrite <- M5; replace (1024 * q + 511) with (511 + 2 * q * 512) by lia;
    rewrite Z.div_add by lia; reflexivity).
  unfold ROOTFS_MAX_BYTES. destruct (Z.eqb_spec (1024 * q) 0); [lia|]. destruct (Z.ltb_spec (64 * 1024 * 1024) (1024 * q)); [lia|]. cbn [orb].
  replace (1024 * q + 512 - 1) with (1024 * q + 511) by lia. rewrite M5.
  destruct (Z.ltb_spec (bd_sector_count d) n); [lia | reflexivity].
Qed.

Lemma try_mount_ready y ps others :
  sd_holds (mc_device (rf_machine y)) c -> heap_state (rf_heap y) ps others ->
  (forall h', kmalloc (rf_heap y) (n * 512) <> Ret (0, h')) ->
  exists y', try_mount_device verdict y d = Ret (true, y').
Proof.
  intros Hc Hh Hroom. unfold try_mount_device. destruct (validate_ready _ Hc) as (s1 & -> & Hc1).
  cbn [with_machine rf_heap rf_machine rf_disk rf_ext2].
  destruct (kmalloc_state (rf_heap y) ps others (n * 512) Hh ltac:(split; lia)) as (p & h1 & Ek & _).
  rewrite Ek in Hroom |- *. cbn [mbind res_bind]. destruct (Z.eqb_spec p 0) as [->|_]; [exfalso; exact (Hroom h1 eq_refl)|].
  destruct (block_read_ready d k s1 c 0 n Ha Hr Hc1 ltac:(lia) ltac:(lia) ltac:(lia)) as (s2 & -> & _). cbn [negb].
  assert (Em : fst (ext2_mount_with_writeback
    (Some (image_of (kh_mem (with_mem h1 (mem_write (kh_mem h1) p (sectors (c k) 0 (Z.to_nat n))))) p)) (n * 512) verdict) = true).
  { rewrite <- Hmount. apply mount_ext. rewrite disk_superblock by lia. apply placed_superblock. lia. }
  destruct (ext2_mount_with_writeback (Some (image_of _ p)) _ _) as [mounted x]. cbn [fst] in Em. subst mounted. cbn [negb]. eauto.
Qed.
End Disk.
End Ready.

(** ** All devices *)

Section Devices.
Context {W D P K : Type} `{ReadySectors W D K} `{PageLaws P}.

Abbreviation device := (block_device D (machine W)).
Abbreviation root := (@root_state W D P).

(** The first writable device that mounts ends the search. *)
Lemma mount_first verdict (y y' : root) (before after : list device) d :
  List.Forall readonly before -> bd_writable d = true -> try_mount_device verdict y d = Ret (true, y') ->
  rootfs_mount_from_block_devices verdict y (before ++ d :: after) = Ret (true, y').
Proof.
  intros Hb Hw Ht. unfold rootfs_mount_from_block_devices, mrange, block_device_count. rewrite trips_unit by lia.
  match goal with |- context [mfor ?n 0 1 ?body y] =>
    assert (Hloop : exists r, mfor n 0 1 body y = Ret r /\ r = Break y');
      [apply (mfor_ind (fun i y1 => y1 = y /\ i <= Z.of_nat (List.length before)) (fun r => r = Break y'))|]
  end.
  - split; [reflexivity | lia].
  - intros i y1 Hi [-> Hle]. rewrite Z.add_0_l, Z.mul_1_r in *. rewrite length_app in Hi. cbn [List.length] in Hi.
    unfold block_device_at, block_device_count. rewrite length_app. cbn [List.length].
    destruct (Z.ltb_spec i (Z.of_nat (List.length before + S (List.length after)))); [|lia].
    destruct (Z.eq_dec i (Z.of_nat (List.length before))) as [-> | Hne].
    + rewrite Nat2Z.id, nth_error_app2, Nat.sub_diag by lia. cbn [nth_error]. rewrite Hw, Ht. cbn [mbind res_bind].
      eexists. split; reflexivity.
    + rewrite nth_error_app1 by lia. destruct (nth_error before (Z.to_nat i)) as [e|] eqn:Ee; [|apply nth_error_None in Ee; lia].
      pose proof (proj1 (List.Forall_forall _ _) Hb e (nth_error_In _ _ Ee)) as He. unfold readonly in He. rewrite He.
      eexists. split; [reflexivity|]. split; [reflexivity | lia].
  - intros y1 [_ Hle]. rewrite length_app in Hle. cbn [List.length] in Hle. exfalso. lia.
  - destruct Hloop as (r & -> & ->). reflexivity.
Qed.

(** What was read from a disk has as many sectors as its superblock says. *)
Lemma root_read_sectors (y : root) c k n n2 p :
  (forall i, List.length (c k i) = 512%nat /\ List.Forall is_byte (c k i)) -> 4 <= n -> 4 <= n2 ->
  root_image (disk_image (c k) n) n -> root_read y c k n2 p -> n2 = n.
Proof.
  intros Hs Hn Hn2 (_ & _ & _ & _ & <-) (_ & Hbytes & (_ & _ & _ & _ & <-)).
  set (n2 := image_sectors (image_of _ _)) in *. set (m := kh_mem (rf_heap y)) in *.
  apply superblock_ext. rewrite (disk_superblock k c Hs) by exact Hn. rewrite image_of_read.
  pose proof (mem_read_slice m p 1024 1024 2048 ltac:(lia)) as Eh. change (p + Z.of_nat 1024) with (p + 1024) in Eh.
  rewrite <- Eh. do 2 f_equal. rewrite (sectors_prefix (c k) 4 (Z.to_nat n2)) by (try apply Hs; lia).
  rewrite <- Hbytes. symmetry. apply (firstn_mem_read m p 2048). lia.
Qed.

(** The mount of the first writable device. *)
Lemma mount_ready verdict (y : root) (before after : list device) d k c n ps others :
  sd_attached d k -> sr_ready d -> bd_writable d = true -> List.Forall readonly before ->
  sd_holds (mc_device (rf_machine y)) c -> 4 <= n <= 131072 -> n <= bd_sector_count d ->
  root_image (disk_image (c k) n) n ->
  fst (ext2_mount_with_writeback (Some (disk_image (c k) n)) (n * 512) verdict) = true ->
  heap_state (rf_heap y) ps others -> (forall h', kmalloc (rf_heap y) (n * 512) <> Ret (0, h')) ->
  exists y' p sz, rootfs_mount_from_block_devices verdict y (before ++ d :: after) = Ret (true, y')
    /\ root_mounted verdict y' d ps others n p sz /\ root_read y' c k n p.
Proof.
  intros Ha Hr Hw Hb Hc Hn Hcount Hroot Hm Hh Hroom. pose proof (fun i => sd_sector _ c k i Hc) as Hs.
  destruct (try_mount_ready d k c n verdict Ha Hr Hs (conj Hn Hcount) Hroot Hm y ps others Hc Hh Hroom) as [y' Ht].
  destruct (try_mount_device_ok verdict y d k ps others Ha Hh) as (ok & y2 & E & _ & Hok). rewrite Ht in E. injection E as <- <-.
  destruct Hok as (n2 & p & sz & Hmounted & Hread). specialize (Hread c Hc).
  assert (En : n2 = n) by (apply (root_read_sectors y' c k n n2 p Hs); [lia | apply (rm_size _ _ _ _ _ _ _ _ Hmounted) | exact Hroot | exact Hread]).
  subst n2. exists y', p, sz. split; [exact (mount_first verdict y y' before after d Hb Hw Ht)|]. split; [exact Hmounted | exact Hread].
Qed.

(** C33. A root file system is found: if the first writable device is ready and
    holds a root file system that ext2.c accepts and the heap has room for, then
    the mount succeeds with the image of that device, and from then on every
    write-back of the mounted file system succeeds and stores the image. *)
Theorem rootfs_ready_disk_mounts verdict (y : root) (before after : list device) d k c n ps others :
  sd_attached d k -> sr_ready d -> bd_writable d = true -> List.Forall readonly before ->
  sd_holds (mc_device (rf_machine y)) c -> 4 <= n <= 131072 -> n <= bd_sector_count d ->
  root_image (disk_image (c k) n) n ->
  fst (ext2_mount_with_writeback (Some (disk_image (c k) n)) (n * 512) verdict) = true ->
  heap_state (rf_heap y) ps others -> (forall h', kmalloc (rf_heap y) (n * 512) <> Ret (0, h')) ->
  exists y' p sz, rootfs_mount_from_block_devices verdict y (before ++ d :: after) = Ret (true, y')
    /\ root_mounted verdict y' d ps others n p sz /\ root_read y' c k n p
    /\ forall s c' image, sd_holds (mc_device s) c' ->
         exists s', rootfs_writeback (Some (rf_disk y')) s (Some image) (n * 512) = (true, s')
           /\ sd_holds (mc_device s') (put_medium c' k (put_sectors (c' k) 0 (mem_read image 0 (Z.to_nat (n * 512))) n)).
Proof.
  intros Ha Hr Hw Hb Hc Hn Hcount Hroot Hm Hh Hroom.
  destruct (mount_ready verdict y before after d k c n ps others Ha Hr Hw Hb Hc Hn Hcount Hroot Hm Hh Hroom) as (y' & p & sz & E & Hmounted & Hread).
  exists y', p, sz. split; [exact E|]. split; [exact Hmounted|]. split; [exact Hread|].
  intros s c' image Hc'. rewrite (rm_disk _ _ _ _ _ _ _ _ Hmounted). destruct (sd_geometry d k Ha) as [E512 _].
  set (buffer := mem_read image 0 (Z.to_nat (n * 512))).
  pose proof (block_write_ready d k s c' 0 n buffer Ha Hr Hw Hc' ltac:(lia) ltac:(lia) ltac:(lia) ltac:(apply mem_read_byte)
    ltac:(unfold buffer; rewrite mem_read_length; lia)) as L.
  assert (Ew : rootfs_writeback (Some (mk_disk (Some d) n)) s (Some image) (n * 512) = (true, snd (block_write (Some d) s 0 buffer n))).
  { unfold rootfs_writeback. cbn [rd_device rd_sector_count]. destruct (Z.eqb_spec (n * 512) 0); [lia|].
    rewrite E512, u64_id by (unfold is_u64; lia). rewrite Z.ltb_irrefl. fold buffer.
    destruct (block_write _ _ _ _ _) as [ok s']. cbn [fst snd] in *. subst ok. reflexivity. }
  eexists. split; [exact Ew|]. exact (rootfs_writeback_ok d k n image _ s _ c' Ha ltac:(lia) Hc' Ew).
Qed.
End Devices.

(** ** The sample disk *)

#[export] Instance ideal_prompt : PromptDisks ideal.
Proof.
  refine {| ap_wait := fun _ _ => 0 |}.
  - intros w b. unfold ATA_TIMEOUT. lia.
  - intros w v c Hw Hc. cbn [dev_in8 ideal_device]. left.
    unfold ideal_status. assert (E : match channel_of (ch_io_base c + ATA_REG_STATUS) with Some _ | None => 0x58 end = 0x58)
      by (destruct (channel_of _); reflexivity).
    cbn [andb]. rewrite E. change (u8 0x58) with 0x58.
    destruct (av_phase (v (ch_io_base c))); cbn [answered]; auto; split_and!; try reflexivity; discriminate.
Defined.

Definition gives_block (r : res (Z * kheap vmm)) : bool :=
  match r with Ret (p, _) => negb (p =? 0) | _ => false end.

Lemma gives_block_room r : gives_block r = true -> forall h', r <> Ret (0, h').
Proof. intros E h' ->. discriminate E. Qed.

Lemma root_disk_mountable :
  root_image (disk_image root_disk 32) 32
  /\ fst (ext2_mount_with_writeback (Some (disk_image root_disk 32)) (32 * 512) accept) = true
  /\ gives_block (kmalloc demo_heap (32 * 512)) = true.
Proof.
  split; [|split; vm_compute; reflexivity].
  split_and!; vm_compute; congruence.
Qed.

Lemma root_block_ready : sr_ready root_block.
Proof. split; [vm_compute; discriminate | split; eexists; reflexivity]. Qed.

Lemma rootfs_ready_disk_mounts_witness : exists y' p sz,
  rootfs_mount_from_block_devices accept (unmounted root_hardware) [root_block] = Ret (true, y')
  /\ root_mounted accept y' root_block [] [] 32 p sz.
Proof.
  destruct root_disk_mountable as (Hroot & Hmount & Hroom).
  destruct (rootfs_ready_disk_mounts accept (unmounted root_hardware) [] [] root_block (0x1f0, 0) root_media 32 [] []
    root_attached root_block_ready eq_refl ltac:(constructor)
    root_hardware_holds ltac:(lia) ltac:(vm_compute; discriminate) Hroot Hmount demo_heap_state
    (gives_block_room _ Hroom)) as (y' & p & sz & Hm & Hr & _).
  exists y', p, sz. split; [exact Hm | exact Hr].
Defined.
