(* ===== verification/Restart.v ===== *)
(** * Files survive a restart

    The composition of ext2.c, rootfs.c, the heap and a disk: what was written
    back is, at the next start, the same tree of directories and files. *)

From Stdlib Require Import String.
From S2P Require Import Prelude Klog Libc Vmm Pages Heap HeapProofs Fs Ext2Image Ext2Layout Ext2 Ext2Ops Ext2Sample Ext2Dir Ext2Own Ext2Files Ext2Tree Ext2Create Ext2History Ext2Remount.
From S2P Require Import Stdio UserApi Block Ata AtaProofs Rootfs Disk AtaDisk AtaReady RootfsProofs RootfsReady.

Section Restart.
Context {W D P K : Type} `{ReadySectors W D K} `{PageLaws P}.

Abbreviation device := (block_device D (machine W)).
Abbreviation root := (@root_state W D P).

(** The image on the disk after a write-back. *)
Lemma written_image (c : Z -> list Z) image n :
  0 <= n ->
  mem_read (disk_image (put_sectors c 0 (mem_read image 0 (Z.to_nat (n * 512))) n) n) 0 (Z.to_nat (n * 512))
  = mem_read image 0 (Z.to_nat (n * 512)).
Proof.
  intros Hn. unfold disk_image. rewrite sectors_put_image by exact Hn.
  apply mem_read_write_eq; [apply mem_read_byte | rewrite mem_read_length; reflexivity].
Qed.

(** Two images with the same bytes have the same superblock. *)
Lemma same_superblock m m' n :
  4 <= n -> mem_read m 0 (Z.to_nat (n * 512)) = mem_read m' 0 (Z.to_nat (n * 512)) -> mem_read m 1024 1024 = mem_read m' 1024 1024.
Proof.
  intros Hn E. pose proof (mem_read_slice m 0 1024 1024 (Z.to_nat (n * 512)) ltac:(lia)) as E1.
  pose proof (mem_read_slice m' 0 1024 1024 (Z.to_nat (n * 512)) ltac:(lia)) as E2.
  change (0 + Z.of_nat 1024) with 1024 in E1, E2. rewrite <- E1, <- E2, E. reflexivity.
Qed.

(** C32. Files survive a restart: when the write-back of a sound file system to
    a writable disk has reported success, a fresh kernel that finds this disk
    first mounts it; its file system stands for the same tree, is sound again,
    and whatever path is read in it gives the bytes the file had. *)
Theorem files_survive_restart verdict (x : ext2) (s s1 : machine W) c (y : root) (before after : list device) d k n ps others :
  sd_attached d k -> sr_ready d -> bd_writable d = true -> List.Forall readonly before ->
  4 <= n <= 131072 -> n <= bd_sector_count d ->
  tree_ok x -> x_size x = n * 512 -> root_image (x_image x) n ->
  sd_holds (mc_device s) c ->
  rootfs_writeback (Some (mk_disk (Some d) n)) s (Some (x_image x)) (x_size x) = (true, s1) ->
  mc_device (rf_machine y) = mc_device s1 ->
  heap_state (rf_heap y) ps others -> (forall h', kmalloc (rf_heap y) (n * 512) <> Ret (0, h')) ->
  exists y', rootfs_mount_from_block_devices verdict y (before ++ d :: after) = Ret (true, y')
    /\ tree_ok (rf_ext2 y') /\ tree (rf_ext2 y') = tree x
    /\ forall path file bytes len offset, 0 <= len -> 0 <= offset -> file_at (tree x) path = Some (file, bytes) ->
         ext2_read_file (rf_ext2 y') path len offset = Ret (read_slice bytes len offset).
Proof.
  intros Ha Hr Hw Hb Hn Hcount T Hsize Hroot Hc Hwb Hdev Hh Hroom.
  pose proof (rootfs_writeback_ok d k n (x_image x) _ s s1 c Ha ltac:(lia) Hc Hwb) as Hc1. rewrite <- Hdev in Hc1.
  set (c1 := put_medium _ _ _) in Hc1.
  assert (Ec : c1 k = put_sectors (c k) 0 (mem_read (x_image x) 0 (Z.to_nat (n * 512))) n) by apply put_medium_eq.
  assert (Ei : mem_read (disk_image (c1 k) n) 0 (Z.to_nat (n * 512)) = mem_read (x_image x) 0 (Z.to_nat (n * 512)))
    by (rewrite Ec; apply written_image; lia).
  assert (Hroot1 : root_image (disk_image (c1 k) n) n).
  { refine (root_image_ext _ _ _ _ Hroot). symmetry. apply (same_superblock _ _ n); [lia | exact Ei]. }
  assert (Same : forall m, mem_read m 0 (Z.to_nat (n * 512)) = mem_read (x_image x) 0 (Z.to_nat (n * 512)) -> same_bytes x m).
  { intros m Em. apply mem_read_same_bytes. rewrite Hsize. exact Em. }
  destruct (remount_tree x _ T (Same _ Ei) verdict) as (z & Em & _). rewrite Hsize in Em.
  destruct (mount_ready verdict y before after d k c1 n ps others Ha Hr Hw Hb Hc1 Hn Hcount Hroot1 ltac:(rewrite Em; reflexivity) Hh Hroom)
    as (y' & p & sz & E & [_ _ _ Hx] & (_ & Hbytes & _)).
  assert (Hp : same_bytes x (image_of (kh_mem (rf_heap y')) p)).
  { apply Same. rewrite image_of_read, Z.add_0_r, Hbytes, Ec. apply sectors_put_image. lia. }
  destruct (remount_tree x _ T Hp verdict) as (z' & Em' & T' & E'). rewrite Hsize, Hx in Em'. injection Em' as <-.
  exists y'. split; [exact E|]. split; [exact T'|]. split; [exact E'|].
  intros path file bytes len offset Hl Ho Hf. rewrite <- E' in Hf.
  destruct (file_at_some _ path file bytes T' Hf) as (_ & _ & _ & _ & _ & _ & Hpath & Ht).
  exact (tree_read _ path file bytes len offset T' Ho Hl Hpath Ht).
Qed.
End Restart.

(** ** A file of the sample image, written and found again *)

Definition edited_run : res (Z * ext2) := run_op sample (OpWrite [47; 97] [72; 105; 33] 2).

Definition edited : ext2 := match edited_run with Ret (_, x) => x | _ => sample end.

Lemma edited_tree_ok : tree_ok edited.
Proof.
  destruct (op_step sample sample_tree_ok (OpWrite [47; 97] [72; 105; 33] 2)) as (r & x & E & _ & [T | (path & Hd & _)]).
  - split_and!; [repeat constructor; unfold is_byte; lia | lia | cbn; lia].
  - unfold edited, edited_run. rewrite E. exact T.
  - discriminate Hd.
Qed.

Lemma edited_facts :
  x_size edited = 32 * 512 /\ root_image (x_image edited) 32
  /\ file_at (tree edited) [47; 97] = Some (3, [104; 101; 72; 105; 33]).
Proof. unfold root_image. split_and!; vm_compute; congruence. Qed.

Abbreviation saved := (rootfs_writeback (Some (mk_disk (Some root_block) 32)) (mk_machine root_hardware [] klog_zero)
  (Some (x_image edited)) (x_size edited)).

Lemma saved_fine : saved = (true, snd saved).
Proof. assert (E : fst saved = true) by (vm_compute; reflexivity). rewrite <- E. apply surjective_pairing. Qed.

Lemma files_survive_restart_witness : exists y',
  rootfs_mount_from_block_devices accept (unmounted (mc_device (snd saved))) [root_block] = Ret (true, y')
  /\ tree (rf_ext2 y') = tree edited
  /\ ext2_read_file (rf_ext2 y') [47; 97] 10 0 = Ret (5, [104; 101; 72; 105; 33]).
Proof.
  destruct edited_facts as (Hsize & Hroot & Hf). destruct root_disk_mountable as (_ & _ & Hroom).
  pose proof saved_fine as Hs. generalize dependent (snd saved). intros s1 Hs.
  pose proof edited_tree_ok as T. generalize dependent edited. intros x Hsize Hroot Hf Hs T.
  destruct (files_survive_restart accept x (mk_machine root_hardware [] klog_zero) s1 root_media
    (unmounted (mc_device s1)) [] [] root_block (0x1f0, 0) 32 [] []
    root_attached root_block_ready eq_refl ltac:(constructor) ltac:(lia) ltac:(vm_compute; discriminate)
    T Hsize Hroot root_hardware_holds Hs eq_refl demo_heap_state (gives_block_room _ Hroom))
    as (y' & E & _ & Et & Hread).
  exists y'. split; [exact E|]. split; [exact Et|]. exact (Hread [47; 97] 3 _ 10 0 ltac:(lia) ltac:(lia) Hf).
Defined.
