(* ===== verification/Terminal.v ===== *)
(** * The terminal (src/kernel/terminal.c, src/drivers/serial.c)

    Console output goes to the framebuffer console and to the serial port. The
    serial driver waits for the port without a bound: its loops take fuel, and
    [NoFuel] is a port that never becomes ready. [terminal_run] carries out the
    calls that Kernel.v records. *)

From Stdlib Require Import String.
From S2P Require Import Prelude Klog Stdio UserApi Block Framebuffer Kernel.

Definition SERIAL_COM1 : Z := 0x3f8.

Section Serial.
Context {W : Type} `{PortDevice W}.

(** ** serial.c *)

(** 0 when the chip answered the loopback test. *)
Definition init_serial (s : machine W) : Z * machine W :=
  let s := outb s (SERIAL_COM1 + 1) 0x00 in
  let s := outb s (SERIAL_COM1 + 3) 0x80 in
  let s := outb s (SERIAL_COM1 + 0) 0x01 in
  let s := outb s (SERIAL_COM1 + 1) 0x00 in
  let s := outb s (SERIAL_COM1 + 3) 0x03 in
  let s := outb s (SERIAL_COM1 + 2) 0xC7 in
  let s := outb s (SERIAL_COM1 + 4) 0x0B in
  let s := outb s (SERIAL_COM1 + 4) 0x1E in
  let s := outb s (SERIAL_COM1 + 0) 0xAE in
  let '(v, s) := inb s (SERIAL_COM1 + 0) in
  if negb (v =? 0xAE) then (1, s) else (0, outb s (SERIAL_COM1 + 4) 0x0F).

Definition serial_received (s : machine W) : Z * machine W :=
  let '(v, s) := inb s (SERIAL_COM1 + 5) in (Z.land v 1, s).

Fixpoint read_serial (fuel : nat) (s : machine W) : res (Z * machine W) :=
  match fuel with
  | O => NoFuel
  | S fuel =>
      let '(v, s) := serial_received s in
      if v =? 0 then read_serial fuel s else Ret (inb s SERIAL_COM1)
  end.

Definition is_transmit_empty (s : machine W) : Z * machine W :=
  let '(v, s) := inb s (SERIAL_COM1 + 5) in (Z.land v 0x20, s).

Fixpoint write_serial (fuel : nat) (s : machine W) (a : Z) : res (machine W) :=
  match fuel with
  | O => NoFuel
  | S fuel =>
      let '(v, s) := is_transmit_empty s in
      if v =? 0 then write_serial fuel s a else Ret (outb s SERIAL_COM1 a)
  end.

(** [while (!is_transmit_empty()) io_wait()]. *)
Fixpoint wait_transmit (fuel : nat) (s : machine W) : res (machine W) :=
  match fuel with
  | O => NoFuel
  | S fuel =>
      let '(v, s) := is_transmit_empty s in
      if v =? 0 then wait_transmit fuel (io_wait s) else Ret s
  end.

Fixpoint write_serial_string (fuel : nat) (s : machine W) (text : list Z) : res (machine W) :=
  match text with
  | [] => Ret s
  | ch :: text =>
      wait_transmit fuel s ≫= fun s =>
      write_serial fuel s ch ≫= fun s => write_serial_string fuel s text
  end.
End Serial.

(** ** terminal.c *)

Definition DEFAULT_FG : Z := 0xff.
Definition DEFAULT_BG : Z := 0x00.

Record terminal (W : Type) : Type := mk_terminal {
  te_framebuffer_ready : bool;
  te_framebuffer_enabled : bool;
  te_serial_enabled : bool;
  te_console : console;
  te_machine : machine W
}.
Arguments mk_terminal {W}.
Arguments te_framebuffer_ready {W}.
Arguments te_framebuffer_enabled {W}.
Arguments te_serial_enabled {W}.
Arguments te_console {W}.
Arguments te_machine {W}.

Section Terminal.
Context {W : Type} `{PortDevice W} `{Font}.

Definition with_console (t : terminal W) (c : console) : terminal W :=
  mk_terminal (te_framebuffer_ready t) (te_framebuffer_enabled t) (te_serial_enabled t) c (te_machine t).

Definition with_te_machine (t : terminal W) (s : machine W) : terminal W :=
  mk_terminal (te_framebuffer_ready t) (te_framebuffer_enabled t) (te_serial_enabled t) (te_console t) s.

Definition terminal_init (t : terminal W) : terminal W := with_te_machine t (snd (init_serial (te_machine t))).

Definition terminal_attach_framebuffer (t : terminal W) (framebuffer : option limine_framebuffer)
    : bool * terminal W :=
  let '(ready, c) := framebuffer_console_init (te_console t) framebuffer in
  (ready, mk_terminal ready (te_framebuffer_enabled t) (te_serial_enabled t) c (te_machine t)).

Definition terminal_set_serial_enabled (t : terminal W) (enabled : bool) : terminal W :=
  mk_terminal (te_framebuffer_ready t) (te_framebuffer_enabled t) enabled (te_console t) (te_machine t).

Definition terminal_set_framebuffer_enabled (t : terminal W) (enabled : bool) : terminal W :=
  mk_terminal (te_framebuffer_ready t) enabled (te_serial_enabled t) (te_console t) (te_machine t).

Definition terminal_set_color (t : terminal W) (red green blue : Z) : terminal W :=
  if te_framebuffer_ready t
  then with_console t (framebuffer_console_set_color (te_console t) red green blue) else t.

Definition terminal_set_background (t : terminal W) (red green blue : Z) : terminal W :=
  if te_framebuffer_ready t
  then with_console t (framebuffer_console_set_background (te_console t) red green blue) else t.

Definition terminal_set_default_colors (t : terminal W) : terminal W :=
  let t := terminal_set_color t DEFAULT_FG DEFAULT_FG DEFAULT_FG in
  terminal_set_background t DEFAULT_BG DEFAULT_BG DEFAULT_BG.

(** ESC [2J ESC [H. *)
Definition clear_sequence : list Z := 27 :: str "[2J" ++ 27 :: str "[H".

Definition terminal_clear (fuel : nat) (t : terminal W) : res (terminal W) :=
  (if te_serial_enabled t then
     write_serial_string fuel (te_machine t) clear_sequence ≫= fun s => Ret (with_te_machine t s)
   else Ret t) ≫= fun t =>
  Ret (if te_framebuffer_ready t && te_framebuffer_enabled t
       then with_console t (framebuffer_console_clear (te_console t)) else t).

(** A character on the serial line, a carriage return before a newline. *)
Definition serial_char (fuel : nat) (s : machine W) (ch : Z) : res (machine W) :=
  (if ch =? 10 then write_serial fuel s 13 else Ret s) ≫= fun s => write_serial fuel s ch.

Definition terminal_putchar (fuel : nat) (t : terminal W) (ch : Z) : res (terminal W) :=
  (if te_framebuffer_ready t && te_framebuffer_enabled t
   then framebuffer_console_putchar fuel (te_console t) ch ≫= fun c => Ret (with_console t c)
   else Ret t) ≫= fun t =>
  if te_serial_enabled t
  then serial_char fuel (te_machine t) ch ≫= fun s => Ret (with_te_machine t s)
  else Ret t.

Fixpoint serial_chars (fuel : nat) (s : machine W) (text : list Z) : res (machine W) :=
  match text with
  | [] => Ret s
  | ch :: text => serial_char fuel s ch ≫= fun s => serial_chars fuel s text
  end.

Definition terminal_write (fuel : nat) (t : terminal W) (text : list Z) : res (terminal W) :=
  (if te_framebuffer_ready t && te_framebuffer_enabled t
   then framebuffer_console_write fuel (te_console t) text ≫= fun c => Ret (with_console t c)
   else Ret t) ≫= fun t =>
  if te_serial_enabled t
  then serial_chars fuel (te_machine t) text ≫= fun s => Ret (with_te_machine t s)
  else Ret t.

(** ** The calls that console.c makes *)

Definition console_init (t : terminal W) : terminal W := terminal_init t.

Definition console_attach_framebuffer (t : terminal W) (framebuffer : option limine_framebuffer) : terminal W :=
  snd (terminal_attach_framebuffer t framebuffer).

Definition console_set_serial_enabled (t : terminal W) (enabled : bool) : terminal W :=
  terminal_set_serial_enabled t enabled.

Definition console_set_framebuffer_enabled (t : terminal W) (enabled : bool) : terminal W :=
  terminal_set_framebuffer_enabled t enabled.


Definition terminal_step (fuel : nat) (t : terminal W) (call : terminal_call) : res (terminal W) :=
  match call with
  | TermPutchar ch => terminal_putchar fuel t ch
  | TermWrite text => terminal_write fuel t text
  | TermClear => terminal_clear fuel t
  | TermSetColor r g b => Ret (terminal_set_color t r g b)
  | TermSetBackground r g b => Ret (terminal_set_background t r g b)
  | TermSetDefaultColors => Ret (terminal_set_default_colors t)
  end.

Fixpoint terminal_run (fuel : nat) (t : terminal W) (calls : list terminal_call) : res (terminal W) :=
  match calls with
  | [] => Ret t
  | call :: calls => terminal_step fuel t call ≫= fun t => terminal_run fuel t calls
  end.
End Terminal.
