(* ===== verification/TerminalProofs.v ===== *)
(** * The terminal: the screen and the serial line carry the same output

    The serial port is a UART that sends a byte in bounded time and says nothing
    of a byte that is written before it is ready. Every run of terminal calls
    sends the characters on the serial line in order, newlines preceded by
    carriage returns, none lost, and leaves on the screen the text that the
    abstract console of TextGrid.v holds; it fails to end exactly when that
    console does. *)

From Stdlib Require Import String.
From S2P Require Import Prelude Klog Stdio UserApi Block Framebuffer Pixels TextGrid FramebufferProofs Kernel Terminal.

(** ** The serial port *)

(** What serial.c relies on, a 16550 at [SERIAL_COM1]: bit 5 of the line status
    register is clear while the transmitter holds a byte that it has not sent,
    which is so for [uart_busy] more readings of the register; a byte written
    to an empty transmitter goes out on the line after those before it, and the
    transmitter is empty again within [uart_limit] readings. What becomes of a
    byte written to a transmitter that is not empty is not said. Other ports
    are not the transmitter's. *)
Class Uart (W : Type) `{PortDevice W} : Type := {
  uart_sent : W -> list Z;
  uart_busy : W -> nat;
  uart_limit : nat;
  uart_status : forall w, Z.land (u8 (fst (dev_in8 w (SERIAL_COM1 + 5)))) 0x20 = 0 <-> (0 < uart_busy w)%nat;
  uart_polled : forall w, let w' := snd (dev_in8 w (SERIAL_COM1 + 5)) in
    uart_sent w' = uart_sent w /\ uart_busy w' = pred (uart_busy w);
  uart_write : forall w v, 0 <= v < 256 -> uart_busy w = 0%nat -> let w' := dev_out8 w SERIAL_COM1 v in
    uart_sent w' = uart_sent w ++ [v] /\ (uart_busy w' <= uart_limit)%nat;
  uart_other : forall w port v, ~ SERIAL_COM1 <= port < SERIAL_COM1 + 8 -> let w' := dev_out8 w port v in
    uart_sent w' = uart_sent w /\ (uart_busy w' <= uart_busy w)%nat
}.

(** What a call does to the text and to the serial line. *)
Definition call_ops (call : terminal_call) : list fb_op :=
  match call with
  | TermPutchar ch => [FbPutchar ch]
  | TermWrite text => [FbWrite text]
  | TermClear => [FbClear]
  | TermSetColor r g b => [FbColor r g b]
  | TermSetBackground r g b => [FbBackground r g b]
  | TermSetDefaultColors => [FbColor 0xff 0xff 0xff; FbBackground 0 0 0]
  end.

Definition crlf (ch : Z) : list Z := if ch =? 10 then [13; ch] else [ch].

Definition call_serial (call : terminal_call) : list Z :=
  match call with
  | TermPutchar ch => crlf ch
  | TermWrite text => flat_map crlf text
  | TermClear => clear_sequence
  | _ => []
  end.

Section Serial.
Context {W : Type} `{Uart W}.
Abbreviation sent s := (uart_sent (mc_device s)).
Abbreviation busy s := (uart_busy (mc_device s)).

(** From [s] to [s'] the bytes of [text] go out, and the port is ready in time
    for the next byte. *)
Definition transmits (s s' : machine W) (text : list Z) : Prop :=
  sent s' = sent s ++ map u8 text /\ (busy s' <= uart_limit)%nat /\ mc_klog s' = mc_klog s.

Lemma transmits_refl s : (busy s <= uart_limit)%nat -> transmits s s [].
Proof. intros Hb. split; [symmetry; apply app_nil_r | auto]. Qed.

Lemma transmits_trans s1 s2 s3 a b : transmits s1 s2 a -> transmits s2 s3 b -> transmits s1 s3 (a ++ b).
Proof. intros (E1 & _ & K1) (E2 & B2 & K2). split; [|split; [exact B2 | congruence]]. rewrite E2, E1, map_app, app_assoc. reflexivity. Qed.

(** A reading of the line status register. *)
Lemma poll_ok (s : machine W) :
  let '(v, s') := is_transmit_empty s in
  (v = 0 <-> (0 < busy s)%nat) /\ sent s' = sent s /\ busy s' = pred (busy s) /\ mc_klog s' = mc_klog s.
Proof.
  unfold is_transmit_empty, inb. pose proof (uart_status (mc_device s)) as Hs. pose proof (uart_polled (mc_device s)) as [Hp Hb].
  destruct (dev_in8 (mc_device s) (SERIAL_COM1 + 5)) as [v d]. auto.
Qed.

Lemma write_serial_ok fuel ch : forall s : machine W,
  (busy s < fuel)%nat -> exists s', write_serial fuel s ch = Ret s' /\ transmits s s' [ch].
Proof.
  induction fuel as [|fuel IH]; intros s Hf; [lia|]. cbn [write_serial]. pose proof (poll_ok s) as P.
  destruct (is_transmit_empty s) as [v s1]. destruct P as (Hv & Es & Eb & Ek). destruct (Z.eqb_spec v 0) as [Hz|Hz].
  - destruct (IH s1) as (s' & -> & E & B & K); [apply Hv in Hz; lia|]. exists s'. split; [reflexivity|].
    split; [rewrite E, Es; reflexivity | split; [exact B | congruence]].
  - assert (Hb : busy s1 = 0%nat) by (destruct (busy s); [lia | destruct Hz; apply Hv; lia]).
    destruct (uart_write (mc_device s1) (u8 ch) (Z.mod_pos_bound ch 256 ltac:(lia)) Hb) as [E B].
    eexists. split; [reflexivity|]. split; [|split; [exact B | exact Ek]]. cbn [map]. rewrite <- Es. exact E.
Qed.

Lemma wait_transmit_ok fuel : forall s : machine W,
  (busy s < fuel)%nat -> exists s', wait_transmit fuel s = Ret s' /\ sent s' = sent s /\ busy s' = 0%nat /\ mc_klog s' = mc_klog s.
Proof.
  induction fuel as [|fuel IH]; intros s Hf; [lia|]. cbn [wait_transmit]. pose proof (poll_ok s) as P.
  destruct (is_transmit_empty s) as [v s1]. destruct P as (Hv & Es & Eb & Ek). destruct (Z.eqb_spec v 0) as [Hz|Hz].
  - destruct (uart_other (mc_device s1) 0x80 (u8 0) ltac:(unfold SERIAL_COM1; lia)) as [Eo Bo].
    change (dev_out8 (mc_device s1) 0x80 (u8 0)) with (mc_device (io_wait s1)) in Eo, Bo.
    destruct (IH (io_wait s1)) as (s' & -> & E & B & K); [apply Hv in Hz; lia|]. exists s'. split; [reflexivity|].
    change (mc_klog (io_wait s1)) with (mc_klog s1) in K. split_and!; congruence.
  - exists s1. split; [reflexivity|]. split_and!; auto. destruct (busy s); [exact Eb | destruct Hz; apply Hv; lia].
Qed.

Lemma serial_char_ok fuel (s : machine W) ch :
  (uart_limit < fuel)%nat -> (busy s <= uart_limit)%nat -> exists s', serial_char fuel s ch = Ret s' /\ transmits s s' (crlf ch).
Proof.
  intros Hf Hb. unfold serial_char, crlf. destruct (ch =? 10); cbn [mbind res_bind].
  - destruct (write_serial_ok fuel 13 s ltac:(lia)) as (s1 & -> & E1). cbn [mbind res_bind]. pose proof E1 as (_ & B1 & _).
    destruct (write_serial_ok fuel ch s1 ltac:(lia)) as (s2 & -> & E2). exists s2. split; [reflexivity|].
    exact (transmits_trans _ _ _ [13] [ch] E1 E2).
  - apply write_serial_ok. lia.
Qed.

Lemma serial_chars_ok fuel text : (uart_limit < fuel)%nat -> forall s : machine W, (busy s <= uart_limit)%nat ->
  exists s', serial_chars fuel s text = Ret s' /\ transmits s s' (flat_map crlf text).
Proof.
  intros Hf. induction text as [|ch text IH]; intros s Hb; cbn [serial_chars flat_map]; [eauto using transmits_refl|].
  destruct (serial_char_ok fuel s ch Hf Hb) as (s1 & -> & E1). cbn [mbind res_bind].
  destruct (IH s1 (proj1 (proj2 E1))) as (s2 & -> & E2). exists s2. split; [reflexivity|]. exact (transmits_trans _ _ _ _ _ E1 E2).
Qed.

Lemma write_string_ok fuel text : (uart_limit < fuel)%nat -> forall s : machine W, (busy s <= uart_limit)%nat ->
  exists s', write_serial_string fuel s text = Ret s' /\ transmits s s' text.
Proof.
  intros Hf. induction text as [|ch text IH]; intros s Hb; cbn [write_serial_string]; [eauto using transmits_refl|].
  destruct (wait_transmit_ok fuel s ltac:(lia)) as (s1 & -> & W1 & B1 & K1). cbn [mbind res_bind].
  destruct (write_serial_ok fuel ch s1 ltac:(lia)) as (s2 & -> & E2). cbn [mbind res_bind].
  destruct (IH s2 (proj1 (proj2 E2))) as (s3 & -> & E3). exists s3. split; [reflexivity|].
  destruct (transmits_trans _ _ _ [ch] text E2 E3) as (E & B & K). split; [rewrite E, W1; reflexivity | split; [exact B | congruence]].
Qed.
End Serial.

Lemma text_ops_app rows cols color a : forall b t,
  text_ops rows cols color t (a ++ b)
  = match text_ops rows cols color t a with Some t' => text_ops rows cols color t' b | None => None end.
Proof. induction a as [|op a IH]; intros b t; cbn [app text_ops]; [reflexivity|]. destruct (text_op _ _ _ t op); auto. Qed.

Section Terminal.
Context {W : Type} `{Uart W} `{Font}.
Context (HW : 0 < FONT_WIDTH <= 8) (HH : 0 < FONT_HEIGHT).
Context (f : fb_mode) (m0 : mem) (Hm : mode_ok f) (Hlim : fm_cols f < 4294967296).

(** The terminal has both outputs, the port is ready in time, and the screen
    shows [tx]. *)
Definition on_terminal (t : terminal W) (tx : text) : Prop :=
  te_framebuffer_ready t = true /\ te_framebuffer_enabled t = true /\ te_serial_enabled t = true
  /\ (uart_busy (mc_device (te_machine t)) <= uart_limit)%nat /\ settled f m0 (te_console t) tx.

Lemma terminal_step_ok fuel t tx call :
  (4 <= fuel)%nat -> (uart_limit < fuel)%nat -> on_terminal t tx ->
  match text_ops (fm_rows f) (fm_cols f) (make_color f) tx (call_ops call) with
  | Some tx' => exists t', terminal_step fuel t call = Ret t' /\ on_terminal t' tx'
      /\ transmits (te_machine t) (te_machine t') (call_serial call)
  | None => terminal_step fuel t call = NoFuel
  end.
Proof.
  intros Hf Hu (Hr & He & Hs & Hb & Hst).
  pose proof (fun op => op_settled HW HH f m0 op fuel (te_console t) tx Hm Hlim Hf Hst) as Hop.
  destruct call as [ch|text| |r g b|r g b|]; cbn [call_ops text_ops terminal_step call_serial].
  - specialize (Hop (FbPutchar ch)). unfold terminal_putchar. rewrite Hr, He. cbn [andb]. cbn [fb_run_op] in Hop.
    destruct (text_op _ _ _ tx (FbPutchar ch)) as [tx'|]; [|rewrite Hop; reflexivity].
    destruct Hop as (c' & -> & Hs'). cbn [mbind res_bind]. cbn [te_serial_enabled te_machine with_console]. rewrite Hs.
    destruct (serial_char_ok fuel (te_machine t) ch Hu Hb) as (s' & -> & E). cbn [mbind res_bind].
    eexists. split; [reflexivity|]. split; [|exact E]. split_and!; auto. exact (proj1 (proj2 E)).
  - specialize (Hop (FbWrite text)). unfold terminal_write. rewrite Hr, He. cbn [andb]. cbn [fb_run_op] in Hop.
    destruct (text_op _ _ _ tx (FbWrite text)) as [tx'|]; [|rewrite Hop; reflexivity].
    destruct Hop as (c' & -> & Hs'). cbn [mbind res_bind]. cbn [te_serial_enabled te_machine with_console]. rewrite Hs.
    destruct (serial_chars_ok fuel text Hu (te_machine t) Hb) as (s' & -> & E). cbn [mbind res_bind].
    eexists. split; [reflexivity|]. split; [|exact E]. split_and!; auto. exact (proj1 (proj2 E)).
  - specialize (Hop FbClear). destruct Hop as (c' & Ec & Hs'). injection Ec as <-. unfold terminal_clear. rewrite Hs.
    destruct (write_string_ok fuel clear_sequence Hu (te_machine t) Hb) as (s' & -> & E). cbn [mbind res_bind].
    cbn [te_framebuffer_ready te_framebuffer_enabled with_te_machine]. rewrite Hr, He. cbn [andb].
    eexists. split; [reflexivity|]. split; [|exact E]. split_and!; auto. exact (proj1 (proj2 E)).
  - specialize (Hop (FbColor r g b)). destruct Hop as (c' & Ec & Hs'). injection Ec as <-.
    unfold terminal_set_color. rewrite Hr. eexists. split; [reflexivity|].
    split; [split_and!; auto | exact (transmits_refl _ Hb)].
  - specialize (Hop (FbBackground r g b)). destruct Hop as (c' & Ec & Hs'). injection Ec as <-.
    unfold terminal_set_background. rewrite Hr. eexists. split; [reflexivity|].
    split; [split_and!; auto | exact (transmits_refl _ Hb)].
  - specialize (Hop (FbColor 0xff 0xff 0xff)). destruct Hop as (c' & Ec & Hs'). injection Ec as <-.
    destruct (op_settled HW HH f m0 (FbBackground 0 0 0) fuel _ _ Hm Hlim Hf Hs') as (c'' & Ec & Hs''). injection Ec as <-.
    unfold terminal_set_default_colors, terminal_set_color. rewrite Hr. unfold terminal_set_background.
    cbn [te_framebuffer_ready with_console]. rewrite Hr. eexists. split; [reflexivity|].
    split; [split_and!; auto | exact (transmits_refl _ Hb)].
Qed.

Lemma terminal_run_ok fuel calls : forall t tx,
  (4 <= fuel)%nat -> (uart_limit < fuel)%nat -> on_terminal t tx ->
  match text_ops (fm_rows f) (fm_cols f) (make_color f) tx (flat_map call_ops calls) with
  | Some tx' => exists t', terminal_run fuel t calls = Ret t' /\ on_terminal t' tx'
      /\ transmits (te_machine t) (te_machine t') (flat_map call_serial calls)
  | None => terminal_run fuel t calls = NoFuel
  end.
Proof.
  induction calls as [|call calls IH]; intros t tx Hf Hu Ht; cbn [flat_map terminal_run].
  - cbn [text_ops]. exists t. split; [reflexivity|]. split; [exact Ht|]. apply transmits_refl. destruct Ht as (_ & _ & _ & Hb & _). exact Hb.
  - rewrite text_ops_app. pose proof (terminal_step_ok fuel t tx call Hf Hu Ht) as Hstep.
    destruct (text_ops _ _ _ tx (call_ops call)) as [tx1|]; [|rewrite Hstep; reflexivity].
    destruct Hstep as (t1 & -> & Ht1 & E1). cbn [mbind res_bind]. specialize (IH t1 tx1 Hf Hu Ht1).
    destruct (text_ops _ _ _ tx1 _) as [tx2|]; [|exact IH].
    destruct IH as (t2 & -> & Ht2 & E2). exists t2. split; [reflexivity|]. split; [exact Ht2|].
    exact (transmits_trans _ _ _ _ _ E1 E2).
Qed.
End Terminal.

(** C36. Once the framebuffer is attached, every run of terminal calls leaves on
    the screen exactly the text of the abstract console and sends the same
    characters on the serial line, with a carriage return before each newline,
    none lost: the port is a UART ([Uart]) that takes up to [uart_limit] readings
    of its status to send a byte and keeps no byte written before that, so the
    loops that wait for it matter, and fuel past that limit is enough for them.
    The kernel hangs in such a run precisely when the abstract console does. *)
Theorem terminal_mirrors_output {W} `{Uart W} `{Font} (t : terminal W) b fuel calls :
  0 < FONT_WIDTH <= 8 -> 0 < FONT_HEIGHT -> good_framebuffer b -> co_batch_active (te_console t) = false ->
  te_framebuffer_enabled t = true -> te_serial_enabled t = true ->
  (uart_busy (mc_device (te_machine t)) <= uart_limit)%nat -> (4 <= fuel)%nat -> (uart_limit < fuel)%nat ->
  let '(ok, t0) := terminal_attach_framebuffer t (Some b) in
  let f := co_mode (te_console t0) in
  ok = true /\
  match text_ops (fm_rows f) (fm_cols f) (make_color f)
          (text_clear (make_color f 0xff 0xff 0xff) (make_color f 0 0 0)) (flat_map call_ops calls) with
  | Some tx => exists t', terminal_run fuel t0 calls = Ret t'
      /\ co_redraw_deferred (te_console t') = false
      /\ shows_cells f (co_mem (te_console t')) (tx_cells tx)
      /\ uart_sent (mc_device (te_machine t')) = uart_sent (mc_device (te_machine t)) ++ map u8 (flat_map call_serial calls)
      /\ mc_klog (te_machine t') = mc_klog (te_machine t)
  | None => terminal_run fuel t0 calls = NoFuel
  end.
Proof.
  intros HW HH Hb Hba He Hs Hu Hf Hl. unfold terminal_attach_framebuffer.
  pose proof (init_settled HW HH (te_console t) b Hb Hba) as Hi.
  destruct (framebuffer_console_init (te_console t) (Some b)) as [ok c0]. destruct Hi as (-> & Hm & Hlim & Hst).
  cbn [te_console]. split; [reflexivity|].
  pose proof (terminal_run_ok HW HH (co_mode c0) (co_mem (te_console t)) Hm Hlim fuel calls
    (mk_terminal true (te_framebuffer_enabled t) (te_serial_enabled t) c0 (te_machine t)) _ Hf Hl
    (conj eq_refl (conj He (conj Hs (conj Hu Hst))))) as Hr.
  destruct (text_ops _ _ _ _ _) as [tx|]; [|exact Hr].
  destruct Hr as (t' & E & (_ & _ & _ & _ & [Hsh Hd]) & (Eo & _ & Ek)). exists t'.
  split; [exact E|]. split; [exact Hd|]. split; [exact (sh_pixels _ _ _ _ _ Hsh Hd) | auto].
Qed.

(** ** A port that takes three readings to send a byte *)

(** The bytes that went out, and the readings until the transmitter is empty; a
    byte that comes before is lost. *)
Definition slow_uart : PortDevice (list Z * nat) := {|
  dev_in8 w port := if port =? SERIAL_COM1 + 5 then (if Nat.eqb (snd w) 0 then 0x60 else 0, (fst w, pred (snd w))) else (0, w);
  dev_in16 w _ := (0, w);
  dev_out8 w port v := if port =? SERIAL_COM1 then (if Nat.eqb (snd w) 0 then (fst w ++ [v], 3%nat) else w) else w;
  dev_out16 w _ _ := w |}.

#[refine] Definition slow_uart_is : @Uart (list Z * nat) slow_uart := {| uart_sent := fst; uart_busy := snd; uart_limit := 3 |}.
Proof.
  - intros [sent [|busy]]; vm_compute; split; intros; (discriminate || lia || reflexivity).
  - intros [sent busy]. split; reflexivity.
  - intros [sent busy] v _ Hb. cbn in Hb. rewrite Hb. split; [reflexivity | apply le_n].
  - intros [sent busy] port v Hp. cbn. destruct (Z.eqb_spec port SERIAL_COM1); [lia|]. split; [reflexivity | apply le_n].
Defined.

Definition dark_terminal : terminal (list Z * nat) :=
  mk_terminal false true true dark_console (mk_machine ([], 2%nat) [] klog_zero).

Definition demo_calls : list terminal_call := [TermWrite [104; 105; 10]; TermPutchar 33; TermSetDefaultColors].

Lemma terminal_mirrors_output_witness :
  flat_map call_serial demo_calls = [104; 105; 13; 10; 33]
  /\ let '(ok, t0) := @terminal_attach_framebuffer (list Z * nat) tiny_font dark_terminal (Some tiny_framebuffer) in
     let f := co_mode (te_console t0) in
     ok = true /\
     match text_ops (fm_rows f) (fm_cols f) (make_color f)
             (text_clear (make_color f 0xff 0xff 0xff) (make_color f 0 0 0)) (flat_map call_ops demo_calls) with
     | Some tx => exists t', @terminal_run _ slow_uart tiny_font 4 t0 demo_calls = Ret t'
         /\ co_redraw_deferred (te_console t') = false
         /\ @shows_cells tiny_font f (co_mem (te_console t')) (tx_cells tx)
         /\ fst (mc_device (te_machine t')) = [] ++ map u8 (flat_map call_serial demo_calls)
         /\ mc_klog (te_machine t') = klog_zero
     | None => @terminal_run _ slow_uart tiny_font 4 t0 demo_calls = NoFuel
     end.
Proof.
  split; [reflexivity|].
  exact (@terminal_mirrors_output _ slow_uart slow_uart_is tiny_font dark_terminal tiny_framebuffer 4 demo_calls
           ltac:(cbn; lia) ltac:(cbn; lia) tiny_good eq_refl eq_refl eq_refl (le_S _ _ (le_n 2)) (le_n 4) (le_n 4)).
Defined.
