(* ===== verification/Interrupts.v ===== *)
(** * Descriptor tables, interrupt controllers and the timer chip
      (src/arch/x86_64/gdt.c, idt.c, pic.c, arch.c; the port side of
      src/drivers/timer.c and keyboard.c)

    What start-up programs into the processor and the two 8259 interrupt
    controllers. The processor's registers are [cpu]; the addresses of the
    static tables and of the assembly stubs are parameters, the linker chooses
    them. *)

From S2P Require Import Prelude Klog Keyboard Elf Fs Process Scheduler Kernel Syscall Block.

(** ** gdt.c *)

Definition GDT_KERNEL_CODE : Z := 0x08.
Definition GDT_USER_DATA : Z := 0x18.
Definition GDT_USER_CODE : Z := 0x20.
Definition GDT_TSS : Z := 0x28.
Definition KERNEL_STACK_SIZE : Z := 16384.

Definition sizeof_tss : Z := 4 + 8 * 3 + 8 + 8 * 7 + 8 + 2 + 2.

(** The fields of [struct tss] that are set; the others stay zero. *)
Record tss : Type := mk_tss { tss_rsp0 : Z; tss_iomap_base : Z }.

Definition gdt_zero : list Z :=
  [0x0000000000000000; 0x00af9a000000ffff; 0x00af92000000ffff; 0x00aff2000000ffff; 0x00affa000000ffff;
   0x0000000000000000; 0x0000000000000000].

Definition set_tss_descriptor (gdt : list Z) (base : Z) : list Z :=
  let limit := sizeof_tss - 1 in
  let low := Z.lor (Z.lor (Z.lor (Z.lor (Z.land limit 0xffff)
                (u64 (Z.shiftl (Z.land base 0xffffff) 16)))
                (Z.shiftl 0x89 40))
                (u64 (Z.shiftl (Z.land (Z.shiftr limit 16) 0xf) 48)))
                (u64 (Z.shiftl (Z.land (Z.shiftr base 24) 0xff) 56)) in
  <[6%nat := Z.shiftr base 32]> (<[5%nat := low]> gdt).

(** ** idt.c *)

Definition IDT_ENTRIES : Z := 256.
Definition IDT_KERNEL_CODE : Z := 0x08.
Definition IDT_INTERRUPT_GATE : Z := 0x8e.
Definition IDT_USER_INTERRUPT_GATE : Z := 0xee.

Record idt_entry : Type := mk_gate {
  ig_offset_low : Z;
  ig_selector : Z;
  ig_ist : Z;
  ig_attributes : Z;
  ig_offset_mid : Z;
  ig_offset_high : Z;
  ig_zero : Z
}.

Definition empty_gate : idt_entry := mk_gate 0 0 0 0 0 0 0.

#[export] Instance idt_entry_inhabited : Inhabited idt_entry := populate empty_gate.

Definition idt_set_gate (idt : list idt_entry) (vector handler attributes : Z) : list idt_entry :=
  <[Z.to_nat vector := mk_gate (Z.land handler 0xffff) IDT_KERNEL_CODE 0 attributes
      (Z.land (Z.shiftr handler 16) 0xffff) (Z.land (Z.shiftr handler 32) 0xffffffff) 0]> idt.

(** The functions drivers register. *)
Inductive driver_irq : Type := timer_irq_handler | keyboard_irq_handler.

(** The tables, and the registers that instructions set: [cpu_gdtr] and
    [cpu_idtr] are limit and base as loaded, [cpu_if] is the interrupt flag. *)
Record cpu : Type := mk_cpu {
  cpu_gdt : list Z;
  cpu_tss : tss;
  cpu_idt : list idt_entry;
  cpu_irq_handlers : list (option driver_irq);
  cpu_gdtr : option (Z * Z);
  cpu_tr : option Z;
  cpu_idtr : option (Z * Z);
  cpu_if : bool
}.

Definition reset_cpu : cpu :=
  mk_cpu gdt_zero (mk_tss 0 0) (repeat empty_gate (Z.to_nat IDT_ENTRIES)) (repeat None 16) None None None false.

Definition irq_register_handler (c : cpu) (irq : Z) (handler : option driver_irq) : cpu :=
  if irq <? 16
  then mk_cpu (cpu_gdt c) (cpu_tss c) (cpu_idt c) (<[Z.to_nat irq := handler]> (cpu_irq_handlers c))
         (cpu_gdtr c) (cpu_tr c) (cpu_idtr c) (cpu_if c)
  else c.

(** [sti] and [cli]. *)
Definition set_if (c : cpu) (enabled : bool) : cpu :=
  mk_cpu (cpu_gdt c) (cpu_tss c) (cpu_idt c) (cpu_irq_handlers c) (cpu_gdtr c) (cpu_tr c) (cpu_idtr c) enabled.
Definition arch_enable_interrupts (c : cpu) : cpu := set_if c true.
Definition arch_disable_interrupts (c : cpu) : cpu := set_if c false.
Definition arch_interrupts_enabled (c : cpu) : bool := cpu_if c.

Section Tables.

(** [gdt], [tss], [kernel_stack] and [idt] as placed by the linker, and the
    stub [isr<N>] of isr.S. *)
Variables gdt_address tss_address kernel_stack idt_address : Z.
Variable isr : Z -> Z.

Definition gdt_kernel_stack_top : Z := u64 (kernel_stack + KERNEL_STACK_SIZE).

Definition gdt_init (c : cpu) : cpu :=
  let t := mk_tss gdt_kernel_stack_top sizeof_tss in
  let gdt := set_tss_descriptor (cpu_gdt c) tss_address in
  mk_cpu gdt t (cpu_idt c) (cpu_irq_handlers c) (Some (8 * 7 - 1, gdt_address)) (Some GDT_TSS) (cpu_idtr c) (cpu_if c).

Definition idt_init (c : cpu) : cpu :=
  let idt := loop_state (range_loop 0 32 1 (fun i idt =>
               Cont (idt_set_gate idt i (isr i) IDT_INTERRUPT_GATE)) (cpu_idt c)) in
  let '(idt, handlers) := loop_state (range_loop 0 16 1 (fun i '(idt, handlers) =>
               Cont (idt_set_gate idt (PIC_REMAP_OFFSET + i) (isr (PIC_REMAP_OFFSET + i)) IDT_INTERRUPT_GATE,
                     <[Z.to_nat i := None]> handlers)) (idt, cpu_irq_handlers c)) in
  let idt := idt_set_gate idt SYSCALL_VECTOR (isr 128) IDT_USER_INTERRUPT_GATE in
  mk_cpu (cpu_gdt c) (cpu_tss c) idt handlers (cpu_gdtr c) (cpu_tr c) (Some (16 * IDT_ENTRIES - 1, idt_address)) (cpu_if c).

End Tables.

(** ** pic.c *)

Definition PIC1_COMMAND : Z := 0x20.
Definition PIC1_DATA : Z := 0x21.
Definition PIC2_COMMAND : Z := 0xa0.
Definition PIC2_DATA : Z := 0xa1.
Definition PIC_EOI : Z := 0x20.
Definition PIC_READ_IRR : Z := 0x0a.
Definition ICW1_INIT : Z := 0x10.
Definition ICW1_ICW4 : Z := 0x01.
Definition ICW4_8086 : Z := 0x01.
Definition IA32_APIC_BASE_MSR : Z := 0x1b.
Definition IA32_APIC_BASE_ENABLE : Z := Z.shiftl 1 11.


(** The model-specific registers of the processor. *)
Class MsrDevice (W : Type) : Type := {
  dev_rdmsr : W -> Z -> Z;
  dev_wrmsr : W -> Z -> Z -> W
}.

Section Pic.
Context {W : Type} `{PortDevice W} `{MsrDevice W}.

Abbreviation state := (machine W).

Definition read_msr (s : state) (msr : Z) : Z := u64 (dev_rdmsr (mc_device s) msr).

Definition write_msr (s : state) (msr value : Z) : state :=
  mk_machine (dev_wrmsr (mc_device s) msr value) (mc_io s) (mc_klog s).

Definition pic_disable_local_apic (s : state) : state :=
  let apic_base := read_msr s IA32_APIC_BASE_MSR in
  if negb (Z.land apic_base IA32_APIC_BASE_ENABLE =? 0)
  then write_msr s IA32_APIC_BASE_MSR (Z.land apic_base (not64 IA32_APIC_BASE_ENABLE)) else s.

Definition pic_select_legacy_wire_mode (s : state) : state :=
  let s := io_wait (outb s 0x22 0x70) in
  io_wait (outb s 0x23 0x00).

Definition pic_init (s : state) : state :=
  let s := pic_select_legacy_wire_mode (pic_disable_local_apic s) in
  let s := io_wait (outb s PIC1_COMMAND (Z.lor ICW1_INIT ICW1_ICW4)) in
  let s := io_wait (outb s PIC2_COMMAND (Z.lor ICW1_INIT ICW1_ICW4)) in
  let s := io_wait (outb s PIC1_DATA PIC_REMAP_OFFSET) in
  let s := io_wait (outb s PIC2_DATA (PIC_REMAP_OFFSET + 8)) in
  let s := io_wait (outb s PIC1_DATA 4) in
  let s := io_wait (outb s PIC2_DATA 2) in
  let s := io_wait (outb s PIC1_DATA ICW4_8086) in
  let s := io_wait (outb s PIC2_DATA ICW4_8086) in
  let s := outb s PIC1_DATA 0xff in
  outb s PIC2_DATA 0xff.

(** The data port and the bit of a line. *)
Definition irq_port (irq : Z) : Z := if irq <? 8 then PIC1_DATA else PIC2_DATA.
Definition irq_bit (irq : Z) : Z := if irq <? 8 then irq else irq - 8.

Definition pic_mask_irq (s : state) (irq : Z) : state :=
  let '(v, s) := inb s (irq_port irq) in
  outb s (irq_port irq) (Z.lor v (Z.shiftl 1 (irq_bit irq))).

(** [outb(port, inb(port) & (uint8_t)~(1u << line))]. *)
Definition clear_line_bit (s : state) (port line : Z) : state :=
  let '(v, s) := inb s port in
  outb s port (Z.land v (u8 (Z.lnot (Z.shiftl 1 line)))).

Definition pic_unmask_irq (s : state) (irq : Z) : state :=
  let s := clear_line_bit s (irq_port irq) (irq_bit irq) in
  if 8 <=? irq then clear_line_bit s PIC1_DATA 2 else s.

Definition pic_send_eoi (s : state) (irq : Z) : state :=
  let s := if 8 <=? irq then outb s PIC2_COMMAND PIC_EOI else s in
  outb s PIC1_COMMAND PIC_EOI.

Definition pic_master_mask (s : state) : Z * state := inb s PIC1_DATA.
Definition pic_slave_mask (s : state) : Z * state := inb s PIC2_DATA.

(** C leaves the order of the two reads open; this is left to right. *)
Definition pic_read_irr (s : state) : Z * state :=
  let s := outb s PIC1_COMMAND PIC_READ_IRR in
  let s := outb s PIC2_COMMAND PIC_READ_IRR in
  let '(hi, s) := inb s PIC2_COMMAND in
  let '(lo, s) := inb s PIC1_COMMAND in
  (Z.lor (Z.shiftl hi 8) lo, s).

(** ** The port side of timer.c *)

Definition PIT_CHANNEL0 : Z := 0x40.
Definition PIT_COMMAND : Z := 0x43.
Definition PIT_MODE_RATE_GENERATOR : Z := 0x36.

Definition timer_start (c : cpu) (s : state) (frequency_hz : Z) : cpu * state :=
  let divisor := timer_divisor frequency_hz in
  let c := irq_register_handler c 0 (Some timer_irq_handler) in
  let s := outb s PIT_COMMAND PIT_MODE_RATE_GENERATOR in
  let s := outb s PIT_CHANNEL0 (Z.land divisor 0xff) in
  let s := outb s PIT_CHANNEL0 (Z.land (Z.shiftr divisor 8) 0xff) in
  (c, pic_unmask_irq s 0).

(** ** The port side of keyboard.c *)

Definition KEYBOARD_DATA_PORT : Z := 0x60.

(** Empty the controller's buffer, of at most 256 bytes. *)
Definition keyboard_drain (s : state) : state :=
  loop_state (range_loop 0 256 1 (fun _ s =>
    let '(status, s) := inb s 0x64 in
    if Z.land status 1 =? 0 then Break s else Cont (snd (inb s KEYBOARD_DATA_PORT))) s).

Definition keyboard_start (c : cpu) (s : state) : cpu * state :=
  let s := keyboard_drain s in
  let c := irq_register_handler c 1 (Some keyboard_irq_handler) in
  (c, pic_unmask_irq s 1).

(** ** A hardware interrupt: the handler, then the end of interrupt *)

Definition irq_service {F} `{FsOps F} (handlers : list (option driver_irq)) (s : state) (k : kernel F)
    (f : interrupt_frame) : state * kernel F :=
  let vector := if_vector f in
  if (vector <? PIC_REMAP_OFFSET) || (PIC_REMAP_OFFSET + 16 <=? vector) then (s, k)
  else
    let irq := vector - PIC_REMAP_OFFSET in
    let '(s, k) :=
      match nth (Z.to_nat irq) handlers None with
      | Some timer_irq_handler => (s, timer_irq k (Some f))
      | Some keyboard_irq_handler =>
          let '(scancode, s) := inb s KEYBOARD_DATA_PORT in
          (s, with_keyboard k (keyboard_irq (k_keyboard k) scancode))
      | None => (s, k)
      end in
    (pic_send_eoi s irq, k).
End Pic.

(** ** timer_wait_ticks *)

(** [readings n] is the value the n-th read of [ticks] yields: interrupts move it
    on in between. [wait_loop] is the number of the read after the loop. *)
Fixpoint wait_loop (n : nat) (readings : nat -> Z) (target : Z) (k : nat) : nat :=
  match n with
  | O => S k
  | S n => if readings k <? target then wait_loop n readings target (S k) else S k
  end.

Definition timer_wait_ticks (readings : nat -> Z) (wait_ticks spin_limit : Z) : bool :=
  let target := u64 (readings 0%nat + wait_ticks) in
  target <=? readings (wait_loop (Z.to_nat spin_limit) readings target 1).

(** ** arch.c *)

Section Arch.
Context {W : Type} `{PortDevice W} `{MsrDevice W}.
Variables gdt_address tss_address kernel_stack idt_address : Z.
Variable isr : Z -> Z.

Definition arch_init (c : cpu) (s : machine W) : cpu * machine W :=
  let c := gdt_init gdt_address tss_address kernel_stack c in
  let s := pic_init s in
  (idt_init idt_address isr c, s).
End Arch.
