(* ===== verification/InterruptProofs.v ===== *)
(** * What start-up leaves in the tables and the interrupt controllers

    The two 8259 controllers are specified by the class [PicLaws]: how their
    command and data ports change the vector offset, the line mask and the
    initialisation stage. *)

From S2P Require Import Prelude Klog Pmm Keyboard Elf Fs Process Scheduler Kernel Syscall Block Interrupts AtaProofs.

(** ** The 8259 *)

(** [pc_stage] is the initialisation word expected next, 0 in operation. *)
Record pic_chip : Type := mk_chip { pc_offset : Z; pc_mask : Z; pc_link : Z; pc_stage : Z }.

Record pics : Type := mk_pics { pi_master : pic_chip; pi_slave : pic_chip }.

(** An initialisation command has bit 4 set. *)
Definition chip_command (c : pic_chip) (v : Z) : pic_chip :=
  if Z.testbit v 4 then mk_chip (pc_offset c) 0 (pc_link c) 2 else c.

Definition chip_data (c : pic_chip) (v : Z) : pic_chip :=
  if pc_stage c =? 2 then mk_chip (Z.land v 0xf8) (pc_mask c) (pc_link c) 3
  else if pc_stage c =? 3 then mk_chip (pc_offset c) (pc_mask c) v 4
  else if pc_stage c =? 4 then mk_chip (pc_offset c) (pc_mask c) (pc_link c) 0
  else mk_chip (pc_offset c) v (pc_link c) 0.

Definition pics_out (p : pics) (port v : Z) : pics :=
  if port =? PIC1_COMMAND then mk_pics (chip_command (pi_master p) v) (pi_slave p)
  else if port =? PIC1_DATA then mk_pics (chip_data (pi_master p) v) (pi_slave p)
  else if port =? PIC2_COMMAND then mk_pics (pi_master p) (chip_command (pi_slave p) v)
  else if port =? PIC2_DATA then mk_pics (pi_master p) (chip_data (pi_slave p) v)
  else p.

Class PicLaws (W : Type) `{PortDevice W} `{MsrDevice W} : Type := {
  pics_of : W -> pics;
  pics_out_law w port v : pics_of (dev_out8 w port v) = pics_out (pics_of w) port v;
  pics_in_law w port : pics_of (snd (dev_in8 w port)) = pics_of w;
  pics_msr_law w msr v : pics_of (dev_wrmsr w msr v) = pics_of w;
  master_mask_law w : fst (dev_in8 w PIC1_DATA) = pc_mask (pi_master (pics_of w));
  slave_mask_law w : fst (dev_in8 w PIC2_DATA) = pc_mask (pi_slave (pics_of w))
}.

(** A controller in operation. *)
Definition chip_ready (c : pic_chip) : Prop := pc_stage c = 0 /\ 0 <= pc_mask c < 256.

Definition pics_ready (p : pics) : Prop := chip_ready (pi_master p) /\ chip_ready (pi_slave p).

(** Does the line reach the processor's controller? *)
Definition line_open (p : pics) (irq : Z) : bool :=
  negb (Z.testbit (pc_mask (if irq <? 8 then pi_master p else pi_slave p)) (irq_bit irq)).

Lemma cleared_bit m l j :
  0 <= l < 8 -> 0 <= j < 8 ->
  Z.testbit (u8 (Z.land m (u8 (Z.lnot (Z.shiftl 1 l))))) j = Z.testbit m j && negb (j =? l).
Proof.
  intros Hl Hj. unfold u8. change 256 with (2 ^ 8).
  rewrite Z.mod_pow2_bits_low, Z.land_spec, Z.mod_pow2_bits_low, Z.lnot_spec, Z.shiftl_1_l by lia.
  rewrite Z.pow2_bits_eqb by lia. rewrite (Z.eqb_sym l j). reflexivity.
Qed.

Section Pics.
Context {W : Type} `{PicLaws W}.

Definition chips (s : machine W) : pics := pics_of (mc_device s).

Lemma chips_outb (s : machine W) port v : chips (outb s port v) = pics_out (chips s) port (u8 v).
Proof. apply pics_out_law. Qed.

Lemma chips_inb (s : machine W) port : chips (snd (inb s port)) = chips s.
Proof.
  unfold inb, chips. pose proof (pics_in_law (mc_device s) port) as Hl.
  destruct (dev_in8 (mc_device s) port). exact Hl.
Qed.

Lemma chips_wait (s : machine W) : chips (io_wait s) = chips s.
Proof. unfold io_wait. rewrite chips_outb. reflexivity. Qed.

Lemma inb_mask (s : machine W) irq :
  fst (inb s (irq_port irq)) = u8 (pc_mask (if irq <? 8 then pi_master (chips s) else pi_slave (chips s))).
Proof.
  unfold inb, irq_port, chips. destruct (irq <? 8).
  - pose proof (master_mask_law (mc_device s)) as Hl. destruct (dev_in8 _ _). cbn in *. congruence.
  - pose proof (slave_mask_law (mc_device s)) as Hl. destruct (dev_in8 _ _). cbn in *. congruence.
Qed.

(** After [pic_init] both controllers are in operation, their lines at vectors
    32 and 40, all of them masked, whatever they were doing before. *)
Lemma pic_init_chips (s : machine W) :
  chips (pic_init s) = mk_pics (mk_chip 32 0xff 4 0) (mk_chip 40 0xff 2 0).
Proof.
  unfold pic_init, pic_select_legacy_wire_mode. rewrite ?chips_outb, ?chips_wait.
  repeat rewrite ?chips_outb, ?chips_wait. generalize (chips (pic_disable_local_apic s)) as p. intros p. reflexivity.
Qed.

Lemma clear_line_master (s : machine W) line :
  chips (clear_line_bit s PIC1_DATA line)
  = pics_out (chips s) PIC1_DATA (u8 (Z.land (u8 (pc_mask (pi_master (chips s)))) (u8 (Z.lnot (Z.shiftl 1 line))))).
Proof.
  unfold clear_line_bit. pose proof (inb_mask s 0) as Hm. pose proof (chips_inb s PIC1_DATA) as Hc. cbn in Hm.
  change (irq_port 0) with PIC1_DATA in Hm. destruct (inb s PIC1_DATA) as [v s']. cbn [fst snd] in *.
  rewrite chips_outb, Hc, Hm. reflexivity.
Qed.

Lemma clear_line_slave (s : machine W) line :
  chips (clear_line_bit s PIC2_DATA line)
  = pics_out (chips s) PIC2_DATA (u8 (Z.land (u8 (pc_mask (pi_slave (chips s)))) (u8 (Z.lnot (Z.shiftl 1 line))))).
Proof.
  unfold clear_line_bit. pose proof (inb_mask s 8) as Hm. pose proof (chips_inb s PIC2_DATA) as Hc. cbn in Hm.
  change (irq_port 8) with PIC2_DATA in Hm. destruct (inb s PIC2_DATA) as [v s']. cbn [fst snd] in *.
  rewrite chips_outb, Hc, Hm. reflexivity.
Qed.

(** A masked write to a ready chip clears exactly that line. *)
Lemma chip_cleared c line :
  0 <= line < 8 -> chip_ready c ->
  let c' := chip_data c (u8 (Z.land (u8 (pc_mask c)) (u8 (Z.lnot (Z.shiftl 1 line))))) in
  chip_ready c' /\ pc_offset c' = pc_offset c
  /\ forall j, 0 <= j < 8 -> Z.testbit (pc_mask c') j = Z.testbit (pc_mask c) j && negb (j =? line).
Proof.
  intros Hl [Hs Hm]. unfold chip_data. rewrite Hs. cbn [Z.eqb pc_stage pc_mask pc_offset].
  split; [split; [reflexivity | apply u8_range]|]. split; [reflexivity|]. intros j Hj.
  change (pc_mask (mk_chip ?a ?b ?c ?d)) with b. rewrite cleared_bit by lia. rewrite u8_id; [reflexivity | exact Hm].
Qed.

(** Unmasking a line opens it, and line 2, the cascade, for a line of the second
    controller; every other line stays as it was. *)
Lemma pic_unmask_irq_correct (s : machine W) irq :
  0 <= irq < 16 -> pics_ready (chips s) ->
  let p := chips (pic_unmask_irq s irq) in
  pics_ready p
  /\ pc_offset (pi_master p) = pc_offset (pi_master (chips s))
  /\ pc_offset (pi_slave p) = pc_offset (pi_slave (chips s))
  /\ forall j, 0 <= j < 16 ->
       line_open p j = line_open (chips s) j || (j =? irq) || ((8 <=? irq) && (j =? 2)).
Proof.
  intros Hirq [Hm Hs]. unfold pic_unmask_irq, irq_port, irq_bit.
  destruct (Z.ltb_spec irq 8) as [Hlo|Hhi].
  - destruct (Z.leb_spec 8 irq); [lia|]. rewrite clear_line_master.
    destruct (chip_cleared _ irq ltac:(lia) Hm) as (Hr & Ho & Hb). cbn [pics_out Z.eqb].
    change (pics_out ?p PIC1_DATA ?v) with (mk_pics (chip_data (pi_master p) v) (pi_slave p)).
    cbn [pi_master pi_slave]. split; [split; [exact Hr | exact Hs]|]. split; [exact Ho|]. split; [reflexivity|].
    intros j Hj. unfold line_open, irq_bit. cbn [pi_master pi_slave]. destruct (Z.ltb_spec j 8).
    + rewrite Hb by lia. rewrite orb_false_r, negb_andb, negb_involutive. reflexivity.
    + destruct (Z.eqb_spec j irq); [lia|]. rewrite !orb_false_r. reflexivity.
  - destruct (Z.leb_spec 8 irq); [|lia]. rewrite clear_line_master, clear_line_slave.
    change (pics_out ?p PIC2_DATA ?v) with (mk_pics (pi_master p) (chip_data (pi_slave p) v)).
    change (pics_out ?p PIC1_DATA ?v) with (mk_pics (chip_data (pi_master p) v) (pi_slave p)).
    cbn [pi_master pi_slave].
    destruct (chip_cleared _ 2 ltac:(lia) Hm) as (Hr & Ho & Hb).
    destruct (chip_cleared _ (irq - 8) ltac:(lia) Hs) as (Hr' & Ho' & Hb').
    split; [split; [exact Hr | exact Hr']|]. split; [exact Ho|]. split; [exact Ho'|].
    intros j Hj. unfold line_open, irq_bit. cbn [pi_master pi_slave]. destruct (Z.ltb_spec j 8).
    + rewrite Hb by lia. destruct (Z.eqb_spec j irq); [lia|]. rewrite orb_false_r, negb_andb, negb_involutive. reflexivity.
    + rewrite Hb' by lia. destruct (Z.eqb_spec j 2); [lia|]. cbn [andb]. rewrite orb_false_r, negb_andb, negb_involutive.
      f_equal. destruct (Z.eqb_spec (j - 8) (irq - 8)), (Z.eqb_spec j irq); lia || reflexivity.
Qed.

Lemma chips_drain (s : machine W) : chips (keyboard_drain s) = chips s.
Proof.
  unfold keyboard_drain.
  apply (range_loop_ind (fun _ s' => chips s' = chips s) (fun c => chips (loop_state c) = chips s)); [lia | reflexivity | |].
  - intros k s' _ Hs. pose proof (chips_inb s' 0x64) as Hi. destruct (inb s' 0x64) as [v s1]. cbn [snd] in Hi.
    destruct (_ =? 0); [cbn; congruence|]. rewrite chips_inb. congruence.
  - auto.
Qed.
End Pics.

(** ** The descriptor tables *)

(** The address a gate leads to, as the processor puts it together. *)
Definition gate_target (g : idt_entry) : Z :=
  ig_offset_low g + ig_offset_mid g * 2 ^ 16 + ig_offset_high g * 2 ^ 32.

(** The lowest privilege from which the gate may be called. *)
Definition gate_dpl (g : idt_entry) : Z := Z.land (Z.shiftr (ig_attributes g) 5) 3.

Definition hardware_gate (isr : Z -> Z) (vector attributes : Z) (g : idt_entry) : Prop :=
  gate_target g = isr vector /\ ig_selector g = IDT_KERNEL_CODE /\ ig_attributes g = attributes.

Lemma set_gate_eq idt vector handler attributes :
  0 <= vector < Z.of_nat (length idt) -> 0 <= handler < 2 ^ 64 ->
  let g := idt_set_gate idt vector handler attributes !!! Z.to_nat vector in
  gate_target g = handler /\ ig_selector g = IDT_KERNEL_CODE /\ ig_attributes g = attributes.
Proof.
  intros Hv Hh. unfold idt_set_gate. rewrite list_lookup_total_insert_eq by lia. cbn zeta.
  split; [|split; reflexivity]. unfold gate_target. cbn [ig_offset_low ig_offset_mid ig_offset_high].
  change 0xffff with (2 ^ 16 - 1). change 0xffffffff with (2 ^ 32 - 1). rewrite !land_low, !Z.shiftr_div_pow2 by lia.
  change (2 ^ 64) with 18446744073709551616 in Hh. change (2 ^ 16) with 65536. change (2 ^ 32) with 4294967296. zlia.
Qed.

Lemma set_gate_ne idt vector handler attributes v :
  0 <= vector -> 0 <= v -> v <> vector ->
  idt_set_gate idt vector handler attributes !!! Z.to_nat v = idt !!! Z.to_nat v.
Proof. intros. unfold idt_set_gate. apply list_lookup_total_insert_ne. lia. Qed.

Lemma set_gate_length idt vector handler attributes :
  length (idt_set_gate idt vector handler attributes) = length idt.
Proof. apply length_insert. Qed.

(** What [idt_init] has done with the gate of [vector] once the vectors below
    [done] are set. *)
Definition gate_after (isr : Z -> Z) (idt0 : list idt_entry) (done vector : Z) (g : idt_entry) : Prop :=
  if vector <? done then hardware_gate isr vector IDT_INTERRUPT_GATE g else g = idt0 !!! Z.to_nat vector.

Lemma gate_step isr idt0 idt k :
  0 <= k < 256 -> 0 <= isr k < 2 ^ 64 -> length idt = 256%nat ->
  (forall v, 0 <= v < 256 -> gate_after isr idt0 k v (idt !!! Z.to_nat v)) ->
  forall v, 0 <= v < 256 ->
    gate_after isr idt0 (k + 1) v (idt_set_gate idt k (isr k) IDT_INTERRUPT_GATE !!! Z.to_nat v).
Proof.
  intros Hk Hi Hlen Hg v Hv. unfold gate_after. destruct (Z.eq_dec v k) as [->|Hne].
  - destruct (Z.ltb_spec k (k + 1)); [|lia]. apply set_gate_eq; lia.
  - rewrite set_gate_ne by lia. specialize (Hg v Hv). unfold gate_after in Hg.
    destruct (Z.ltb_spec v k), (Z.ltb_spec v (k + 1)); lia || exact Hg.
Qed.

Section Idt.
Context (isr : Z -> Z) (Hisr : forall v, 0 <= isr v < 2 ^ 64) (idt_address : Z).

(** The gates set so far, over the table [idt0]. *)
Definition gates_done (idt0 : list idt_entry) (done : Z) (idt : list idt_entry) : Prop :=
  length idt = 256%nat /\ forall v, 0 <= v < 256 -> gate_after isr idt0 done v (idt !!! Z.to_nat v).

Lemma gates_done_step idt0 idt k :
  0 <= k < 256 -> gates_done idt0 k idt -> gates_done idt0 (k + 1) (idt_set_gate idt k (isr k) IDT_INTERRUPT_GATE).
Proof.
  intros Hk [Hl Hg]. split; [rewrite set_gate_length; exact Hl | apply gate_step; auto; lia].
Qed.

Lemma exception_gates idt0 :
  length idt0 = 256%nat ->
  gates_done idt0 32 (loop_state (range_loop 0 32 1 (fun i idt =>
    Cont (idt_set_gate idt i (isr i) IDT_INTERRUPT_GATE)) idt0)).
Proof.
  intros Hlen. apply (range_loop_ind (gates_done idt0) (fun r => gates_done idt0 32 (loop_state r))); auto; [lia| |].
  - split; [exact Hlen|]. intros v Hv. unfold gate_after. destruct (Z.ltb_spec v 0); [lia | reflexivity].
  - intros k idt Hk Hg. apply gates_done_step; [lia | exact Hg].
Qed.

(** The first [n] handlers are gone. *)
Definition handlers_cleared (n : Z) (handlers : list (option driver_irq)) : Prop :=
  length handlers = 16%nat /\ forall j, (j < Z.to_nat n)%nat -> handlers !! j = Some None.

Lemma handlers_all_cleared handlers : handlers_cleared 16 handlers -> handlers = repeat None 16.
Proof.
  intros [Hl Hn]. apply list_eq. intros j. destruct (decide (j < 16)%nat) as [Hj|Hj].
  - rewrite Hn by lia. do 16 (destruct j as [|j]; [reflexivity|]). lia.
  - rewrite !lookup_ge_None_2; [reflexivity | rewrite repeat_length; lia | lia].
Qed.

Lemma irq_gates idt0 idt handlers :
  gates_done idt0 32 idt -> length handlers = 16%nat ->
  let '(idt', handlers') := loop_state (range_loop 0 16 1 (fun i '(idt, handlers) =>
     Cont (idt_set_gate idt (PIC_REMAP_OFFSET + i) (isr (PIC_REMAP_OFFSET + i)) IDT_INTERRUPT_GATE,
           <[Z.to_nat i := @None driver_irq]> handlers)) (idt, handlers)) in
  gates_done idt0 48 idt' /\ handlers' = repeat None 16.
Proof.
  intros Hg Hh.
  apply (range_loop_ind (fun k '(idt, handlers) => gates_done idt0 (32 + k) idt /\ handlers_cleared k handlers)
    (fun r => let '(idt, handlers) := loop_state r in gates_done idt0 48 idt /\ handlers = repeat None 16)); [lia| | |].
  - split; [exact Hg|]. split; [exact Hh | intros j Hj; lia].
  - intros k [idt1 h1] Hk (Hg1 & Hl & Hn). split.
    + change PIC_REMAP_OFFSET with 32. replace (32 + (k + 1)) with (32 + k + 1) by lia. apply gates_done_step; [lia | exact Hg1].
    + split; [rewrite length_insert; exact Hl|]. intros j Hj.
      destruct (decide (j = Z.to_nat k)) as [->|Hne]; [apply list_lookup_insert_eq; lia|].
      rewrite list_lookup_insert_ne by lia. apply Hn. lia.
  - intros [idt1 h1] (Hg1 & Hn). split; [exact Hg1 | apply handlers_all_cleared, Hn].
Qed.

(** Every exception, every hardware interrupt and the system call have a gate to
    their stub; only the system call may be invoked by programs, and the other
    gates are as before. No driver has a handler yet. *)
Lemma idt_init_correct (c : cpu) :
  length (cpu_idt c) = 256%nat -> length (cpu_irq_handlers c) = 16%nat ->
  let c' := idt_init idt_address isr c in
  cpu_irq_handlers c' = repeat None 16 /\ cpu_idtr c' = Some (4095, idt_address)
  /\ forall v, 0 <= v < 256 ->
       if v <? 48 then hardware_gate isr v IDT_INTERRUPT_GATE (cpu_idt c' !!! Z.to_nat v)
       else if v =? 128 then hardware_gate isr v IDT_USER_INTERRUPT_GATE (cpu_idt c' !!! Z.to_nat v)
       else cpu_idt c' !!! Z.to_nat v = cpu_idt c !!! Z.to_nat v.
Proof.
  intros Hlen Hh. unfold idt_init.
  pose proof (irq_gates _ _ (cpu_irq_handlers c) (exception_gates _ Hlen) Hh) as Hg.
  destruct (loop_state (range_loop 0 16 1 _ _)) as [idt handlers]. destruct Hg as [[Hl Hg] ->].
  split; [reflexivity|]. split; [reflexivity|]. intros v Hv. cbn [cpu_idt]. change SYSCALL_VECTOR with 128.
  specialize (Hg v Hv). unfold gate_after in Hg. destruct (Z.eqb_spec v 128) as [->|Hne].
  - destruct (Z.ltb_spec 128 48); [lia|]. apply set_gate_eq; [lia | apply Hisr].
  - rewrite set_gate_ne by lia. exact Hg.
Qed.
End Idt.

(** The table before start-up holds no gate. *)
Lemma empty_table v : cpu_idt reset_cpu !!! v = empty_gate.
Proof.
  rewrite list_lookup_total_alt. destruct (cpu_idt reset_cpu !! v) as [g|] eqn:E; [|reflexivity].
  apply list_elem_of_lookup_2, list_elem_of_In in E. exact (List.repeat_spec _ _ _ E).
Qed.

(** ** Start-up *)

(** [arch_init], then the drivers of the timer and the keyboard. *)
Definition start_interrupts {W} `{PortDevice W} `{MsrDevice W} (gdt_address tss_address kernel_stack idt_address : Z)
    (isr : Z -> Z) (c : cpu) (s : machine W) (frequency_hz : Z) : cpu * machine W :=
  let '(c, s) := arch_init gdt_address tss_address kernel_stack idt_address isr c s in
  let '(c, s) := timer_start c s frequency_hz in
  keyboard_start c s.

(** After start-up every exception, hardware interrupt and system call leads
    to its stub, only the system call can be invoked by programs, and of the
    sixteen interrupt lines exactly those of the timer and the keyboard are
    open, at vectors 32 and 33, each with the handler of its driver. *)
Theorem start_interrupts_correct {W} `{PicLaws W} gdt_address tss_address kernel_stack idt_address isr
    (s : machine W) frequency_hz :
  (forall v, 0 <= isr v < 2 ^ 64) ->
  let '(c', s') := start_interrupts gdt_address tss_address kernel_stack idt_address isr reset_cpu s frequency_hz in
  (forall v, 0 <= v < 256 ->
     if (v <? 48) || (v =? 128)
     then gate_target (cpu_idt c' !!! Z.to_nat v) = isr v
          /\ gate_dpl (cpu_idt c' !!! Z.to_nat v) = (if v =? 128 then 3 else 0)
     else cpu_idt c' !!! Z.to_nat v = empty_gate)
  /\ (forall irq, 0 <= irq < 16 -> line_open (chips s') irq = (irq <? 2))
  /\ pc_offset (pi_master (chips s')) = PIC_REMAP_OFFSET /\ pc_offset (pi_slave (chips s')) = PIC_REMAP_OFFSET + 8
  /\ cpu_irq_handlers c' = Some timer_irq_handler :: Some keyboard_irq_handler :: repeat None 14.
Proof.
  intros Hisr. unfold start_interrupts, arch_init, timer_start, keyboard_start.
  pose proof (idt_init_correct isr Hisr idt_address (gdt_init gdt_address tss_address kernel_stack reset_cpu)
                eq_refl eq_refl) as (Hh & _ & Hg).
  set (c1 := idt_init idt_address isr (gdt_init gdt_address tss_address kernel_stack reset_cpu)) in *.
  match goal with |- context [pic_unmask_irq (keyboard_drain (pic_unmask_irq ?s1 0)) 1] => set (s1' := s1) end.
  assert (E1 : chips s1' = mk_pics (mk_chip 32 0xff 4 0) (mk_chip 40 0xff 2 0)).
  { unfold s1'. rewrite !chips_outb, pic_init_chips. reflexivity. }
  assert (R1 : pics_ready (chips s1')) by (rewrite E1; repeat split; cbn; lia).
  destruct (pic_unmask_irq_correct s1' 0 ltac:(lia) R1) as (R2 & Om2 & Os2 & L2).
  rewrite <- (chips_drain (pic_unmask_irq s1' 0)) in R2, Om2, Os2, L2.
  destruct (pic_unmask_irq_correct _ 1 ltac:(lia) R2) as (_ & Om & Os & L).
  split; [|split; [|split; [|split]]].
  - intros v Hv.
    match goal with |- context [cpu_idt ?c'] => change (cpu_idt c') with (cpu_idt c1) end. specialize (Hg v Hv).
    destruct (Z.ltb_spec v 48).
    + cbn [orb]. destruct Hg as (Ht & _ & Ha). split; [exact Ht|]. unfold gate_dpl. rewrite Ha.
      destruct (Z.eqb_spec v 128); [lia | reflexivity].
    + cbn [orb]. destruct (Z.eqb_spec v 128).
      * destruct Hg as (Ht & _ & Ha). split; [exact Ht|]. unfold gate_dpl. rewrite Ha. reflexivity.
      * etransitivity; [exact Hg | apply empty_table].
  - intros irq Hirq. rewrite L, L2 by lia. rewrite E1. unfold line_open, irq_bit. cbn [pi_master pi_slave pc_mask].
    assert (Hb : Z.testbit 0xff (if irq <? 8 then irq else irq - 8) = true)
      by (destruct (Z.ltb_spec irq 8); apply (Z.ones_spec_low 8); lia).
    replace (pc_mask _) with 0xff by (destruct (irq <? 8); reflexivity). rewrite Hb.
    destruct (Z.eqb_spec irq 0), (Z.eqb_spec irq 1), (Z.ltb_spec irq 2); lia || reflexivity.
  - rewrite Om, Om2, E1. reflexivity.
  - rewrite Os, Os2, E1. reflexivity.
  - change (<[1%nat := Some keyboard_irq_handler]> (<[0%nat := Some timer_irq_handler]> (cpu_irq_handlers c1))
      = Some timer_irq_handler :: Some keyboard_irq_handler :: repeat None 14).
    rewrite Hh. reflexivity.
Qed.

(** ** Serving an interrupt *)

(** A hardware interrupt runs the handler of its line, the keyboard's on the
    scan code read from the controller, and is then acknowledged: by the second
    controller too when it came from there. Other vectors do nothing. *)
Theorem irq_service_correct {W F} `{PortDevice W} `{FsOps F} handlers (s : machine W) (k : kernel F) f :
  let '(s', k') := irq_service handlers s k f in
  let irq := if_vector f - PIC_REMAP_OFFSET in
  let scancode := fst (inb s KEYBOARD_DATA_PORT) in
  k' = irq_dispatch (map (option_map (fun h => match h with
         | timer_irq_handler => TimerIrq
         | keyboard_irq_handler => KeyboardIrq scancode
         end)) handlers) k f
  /\ emits s s' (if (0 <=? irq) && (irq <? 8) then [Out8 PIC1_COMMAND PIC_EOI]
                 else if (8 <=? irq) && (irq <? 16) then [Out8 PIC2_COMMAND PIC_EOI; Out8 PIC1_COMMAND PIC_EOI]
                 else []).
Proof.
  unfold irq_service, irq_dispatch. change PIC_REMAP_OFFSET with 32.
  destruct (Z.ltb_spec (if_vector f) 32); cbn [orb].
  { destruct (Z.leb_spec 0 (if_vector f - 32)), (Z.leb_spec 8 (if_vector f - 32)); try lia. auto using emits_refl. }
  destruct (Z.leb_spec (32 + 16) (if_vector f)).
  { destruct (Z.ltb_spec (if_vector f - 32) 8), (Z.ltb_spec (if_vector f - 32) 16); try lia.
    rewrite !andb_false_r. auto using emits_refl. }
  assert (Heoi : forall s1, emits s s1 [] -> emits s (pic_send_eoi s1 (if_vector f - 32))
     (if (0 <=? if_vector f - 32) && (if_vector f - 32 <? 8) then [Out8 PIC1_COMMAND PIC_EOI]
      else if (8 <=? if_vector f - 32) && (if_vector f - 32 <? 16) then [Out8 PIC2_COMMAND PIC_EOI; Out8 PIC1_COMMAND PIC_EOI]
      else [])).
  { intros s1 Hs. unfold pic_send_eoi.
    destruct (Z.leb_spec 0 (if_vector f - 32)); [|lia]. destruct (Z.ltb_spec (if_vector f - 32) 16); [|lia].
    destruct (Z.leb_spec 8 (if_vector f - 32)), (Z.ltb_spec (if_vector f - 32) 8); try lia; cbn [andb].
    - exact (emits_trans _ _ _ _ _ Hs (emits_trans _ _ _ _ _ (emits_outb _ _ _) (emits_outb _ _ _))).
    - exact (emits_trans _ _ _ _ _ Hs (emits_outb _ _ _)). }
  set (n := Z.to_nat (if_vector f - 32)).
  match goal with |- context [nth n (map ?g handlers) None] =>
    assert (En : nth n (map g handlers) None = g (nth n handlers None))
      by exact (map_nth g handlers None n) end.
  rewrite En. destruct (nth n handlers None) as [[|]|]; cbn [option_map].
  - split; [reflexivity | apply Heoi, emits_refl].
  - destruct (inb s KEYBOARD_DATA_PORT) as [sc s1] eqn:E. split; [reflexivity|]. apply Heoi.
    pose proof (emits_inb s KEYBOARD_DATA_PORT) as Hi. rewrite E in Hi. exact Hi.
  - split; [reflexivity | apply Heoi, emits_refl].
Qed.

(** ** Waiting for the timer *)

Lemma readings_mono readings :
  (forall n, readings n <= readings (S n)) -> forall a b, (a <= b)%nat -> readings a <= readings b.
Proof. intros Hm a b Hab. induction Hab; [lia|]. specialize (Hm m). lia. Qed.

(** Where the loop stops: at the first reading that is late enough, or after the
    limit. *)
Lemma wait_loop_stops readings target n : forall k,
  (exists j, (k <= j < k + n)%nat /\ target <= readings j /\ wait_loop n readings target k = S j)
  \/ ((forall j, (k <= j < k + n)%nat -> readings j < target) /\ wait_loop n readings target k = (k + n + 1)%nat).
Proof.
  induction n as [|n IH]; intros k; cbn [wait_loop].
  - right. split; [intros; lia | lia].
  - destruct (Z.ltb_spec (readings k) target) as [Hlt|Hge].
    + destruct (IH (S k)) as [(j & Hj & Hr & E)|(Hall & E)].
      * left. exists j. split; [lia|]. auto.
      * right. split; [|rewrite E; lia]. intros j Hj. destruct (decide (j = k)) as [->|]; [exact Hlt | apply Hall; lia].
    + left. exists k. split; [lia|]. auto.
Qed.

(** C39. With a timer that only moves forward, [timer_wait_ticks] says whether the
    ticks have passed by its last reading of the timer; so it always returns,
    and returns true as soon as they pass within its limit. *)
Theorem timer_wait_ticks_live readings wait_ticks spin_limit :
  (forall n, readings n <= readings (S n)) -> 0 <= readings 0%nat -> 0 <= wait_ticks -> 0 <= spin_limit ->
  readings 0%nat + wait_ticks < 18446744073709551616 ->
  timer_wait_ticks readings wait_ticks spin_limit
  = (readings 0%nat + wait_ticks <=? readings (S (S (Z.to_nat spin_limit)))).
Proof.
  intros Hm H0 Hw Hs Hb. unfold timer_wait_ticks. rewrite u64_id by (unfold is_u64; lia).
  destruct (wait_loop_stops readings (readings 0%nat + wait_ticks) (Z.to_nat spin_limit) 1) as [(j & Hj & Hr & E)|(_ & E)]; rewrite E.
  - pose proof (Hm j). pose proof (readings_mono _ Hm j (S (S (Z.to_nat spin_limit))) ltac:(lia)).
    destruct (Z.leb_spec (readings 0%nat + wait_ticks) (readings (S j))); [|lia].
    symmetry. apply Z.leb_le. lia.
  - do 2 f_equal. lia.
Qed.

(** ** The task state descriptor *)

(** The base address of a 16-byte system descriptor. *)
Definition descriptor_base (low high : Z) : Z :=
  (Z.shiftr low 16) mod 2 ^ 24 + (Z.shiftr low 56) mod 2 ^ 8 * 2 ^ 24 + high * 2 ^ 32.

(** The processor finds the task state segment where it is, and through it the
    top of the kernel stack. *)
Theorem gdt_init_correct gdt_address tss_address kernel_stack (c : cpu) :
  0 <= tss_address < 2 ^ 64 -> 0 <= kernel_stack -> kernel_stack + KERNEL_STACK_SIZE < 2 ^ 64 -> cpu_gdt c = gdt_zero ->
  let c' := gdt_init gdt_address tss_address kernel_stack c in
  let low := cpu_gdt c' !!! 5%nat in
  descriptor_base low (cpu_gdt c' !!! 6%nat) = tss_address
  /\ low mod 2 ^ 16 = sizeof_tss - 1 /\ (Z.shiftr low 40) mod 2 ^ 8 = 0x89
  /\ tss_rsp0 (cpu_tss c') = kernel_stack + KERNEL_STACK_SIZE /\ cpu_tr c' = Some GDT_TSS
  /\ firstn 5 (cpu_gdt c') = firstn 5 gdt_zero.
Proof.
  intros Ht Hs Hk Hg. change (2 ^ 64) with 18446744073709551616 in *. unfold KERNEL_STACK_SIZE in *.
  unfold gdt_init, set_tss_descriptor. rewrite Hg. cbn [cpu_gdt cpu_tss cpu_tr tss_rsp0].
  set (low := Z.lor _ _).
  assert (El : low = 103 + (tss_address mod 2 ^ 24) * 2 ^ 16 + 0x89 * 2 ^ 40 + (tss_address / 2 ^ 24 mod 2 ^ 8) * 2 ^ 56).
  { unfold low. change 0xffffff with (2 ^ 24 - 1). change 0xff with (2 ^ 8 - 1). rewrite !land_low by lia.
    change (Z.land (Z.shiftr (sizeof_tss - 1) 16) 15) with 0. change (Z.land (sizeof_tss - 1) 65535) with 103.
    rewrite !Z.shiftl_mul_pow2, !Z.shiftr_div_pow2 by lia. change (u64 (0 * 2 ^ 48)) with 0. rewrite Z.lor_0_r.
    pose proof (Z.mod_pos_bound tss_address (2 ^ 24) ltac:(lia)).
    pose proof (Z.mod_pos_bound (tss_address / 2 ^ 24) (2 ^ 8) ltac:(lia)).
    rewrite !u64_id by (unfold is_u64; lia).
    rewrite (Z.lor_comm 103), (lor_low_add _ 103 16) by (try apply Z_mod_mult; lia).
    rewrite (Z.lor_comm _ (0x89 * _)), (lor_low_add (0x89 * 2 ^ 40) _ 40) by (try reflexivity; lia).
    rewrite (Z.lor_comm _ (_ * 2 ^ 56)), (lor_low_add _ _ 56) by (try apply Z_mod_mult; lia). lia. }
  clearbody low. change (<[6%nat := ?b]> (<[5%nat := ?a]> gdt_zero) !!! 5%nat) with a.
  change (<[6%nat := ?b]> (<[5%nat := ?a]> gdt_zero) !!! 6%nat) with b.
  unfold descriptor_base. rewrite !Z.shiftr_div_pow2 by lia. subst low.
  change (2 ^ 24) with 16777216. change (2 ^ 16) with 65536. change (2 ^ 40) with 1099511627776.
  change (2 ^ 8) with 256. change (2 ^ 56) with 72057594037927936. change (2 ^ 32) with 4294967296.
  split; [zlia|]. split; [unfold sizeof_tss; zlia|]. split; [zlia|].
  split; [unfold gdt_kernel_stack_top, KERNEL_STACK_SIZE; apply u64_id; unfold is_u64; lia|]. split; reflexivity.
Qed.

(** ** A machine with nothing but the controllers *)

#[export] Instance bare_pics : PortDevice pics := {|
  dev_in8 w port := (if port =? PIC1_DATA then pc_mask (pi_master w)
                     else if port =? PIC2_DATA then pc_mask (pi_slave w) else 0, w);
  dev_in16 w _ := (0, w); dev_out8 := pics_out; dev_out16 w _ _ := w |}.

#[export] Instance bare_msr : MsrDevice pics := {| dev_rdmsr _ _ := 0xfee00900; dev_wrmsr w _ _ := w |}.

#[export] Program Instance bare_laws : PicLaws pics := {| pics_of w := w |}.
Solve Obligations with reflexivity.

Lemma start_interrupts_correct_witness :
  let s := mk_machine (mk_pics (mk_chip 8 0 4 3) (mk_chip 0x70 0 2 0)) [] klog_zero in
  let '(c', s') := start_interrupts 0x1000 0x2000 0x4000 0x8000 (fun v => 0xffffffff80000000 + 16 * (v mod 256)) reset_cpu s 100 in
  (forall v, 0 <= v < 256 ->
     if (v <? 48) || (v =? 128)
     then gate_target (cpu_idt c' !!! Z.to_nat v) = 0xffffffff80000000 + 16 * (v mod 256)
          /\ gate_dpl (cpu_idt c' !!! Z.to_nat v) = (if v =? 128 then 3 else 0)
     else cpu_idt c' !!! Z.to_nat v = empty_gate)
  /\ (forall irq, 0 <= irq < 16 -> line_open (chips s') irq = (irq <? 2))
  /\ pc_offset (pi_master (chips s')) = PIC_REMAP_OFFSET /\ pc_offset (pi_slave (chips s')) = PIC_REMAP_OFFSET + 8
  /\ cpu_irq_handlers c' = Some timer_irq_handler :: Some keyboard_irq_handler :: repeat None 14.
Proof.
  apply (start_interrupts_correct 0x1000 0x2000 0x4000 0x8000 (fun v => 0xffffffff80000000 + 16 * (v mod 256))
    (mk_machine (mk_pics (mk_chip 8 0 4 3) (mk_chip 0x70 0 2 0)) [] klog_zero) 100).
  intros v. pose proof (Z.mod_pos_bound v 256 ltac:(lia)). cbn beta. lia.
Defined.

(** A timer that ticks at every third reading. *)
Lemma timer_wait_ticks_live_witness :
  timer_wait_ticks (fun n => Z.of_nat (n / 3)) 5 100 = true /\ timer_wait_ticks (fun n => Z.of_nat (n / 3)) 5 10 = false.
Proof.
  assert (Hm : forall n, Z.of_nat (n / 3) <= Z.of_nat (S n / 3)).
  { intros n. apply Nat2Z.inj_le, Nat.Div0.div_le_mono. lia. }
  split.
  - rewrite (timer_wait_ticks_live (fun n => Z.of_nat (n / 3)) 5 100 Hm); cbn; lia || reflexivity.
  - rewrite (timer_wait_ticks_live (fun n => Z.of_nat (n / 3)) 5 10 Hm); cbn; lia || reflexivity.
Defined.
