(* ===== verification/Boot.v ===== *)
(** * Start-up (src/main.c, src/kernel/panic.c, src/kernel/boot_info.c)

    [kmain] composes the components in the order of the source, on one state:
    the machine and the terminal, the processor, the kernel and the root disk.
    What the boot loader answers is [boot_requests]. A panic is [Panic]; what it
    prints is [panic_at]. *)

From Stdlib Require Import String.
From S2P Require Import Prelude Klog Stdio UserApi Framebuffer Pmm Vmm Pages Heap Keyboard Elf Fs Ext2Image Ext2 Ext2Ops Process Scheduler Kernel Syscall Block Ata Rootfs Terminal Interrupts.

(** ** panic.c *)

Section Panic.
Context {F : Type} `{FsOps F}.

(** [printf] in the kernel: every piece goes to the console. *)
Definition kprintf (k : kernel F) (fmt : list Z) (args : list va_arg) : kernel F :=
  match printf fmt args with
  | Some r => fold_left console_write (snd r) k
  | None => k
  end.

(** The state in which the processor halts. *)
Definition vpanic_at (k : kernel F) (file : list Z) (line : Z) (fmt : list Z) (args : list va_arg) : kernel F :=
  let k := console_set_color k 255 0 0 in
  let k := kprintf k (10 :: str "panic at %s:%d: ") [VStr (Some file); VWord line] in
  let k := kprintf k fmt args in
  kprintf k [10] [].

Definition panic_at (k : kernel F) (file : list Z) (line : Z) (fmt : list Z) (args : list va_arg) : kernel F :=
  vpanic_at k file line fmt args.
End Panic.

(** ** The report of an exception (src/arch/x86_64/idt.c) *)

Definition exception_names : list string := [
  "divide error"; "debug"; "non-maskable interrupt"; "breakpoint"; "overflow"; "bound range exceeded";
  "invalid opcode"; "device not available"; "double fault"; "coprocessor segment overrun"; "invalid tss";
  "segment not present"; "stack segment fault"; "general protection fault"; "page fault"; "reserved";
  "x87 floating-point exception"; "alignment check"; "machine check"; "simd floating-point exception";
  "virtualization exception"; "control protection exception"; "reserved"; "reserved"; "reserved"; "reserved";
  "reserved"; "reserved"; "hypervisor injection exception"; "vmm communication exception"; "security exception";
  "reserved" ]%string.

Definition exception_name (vector : Z) : list Z :=
  if vector <? 32 then str (nth (Z.to_nat vector) exception_names EmptyString) else str "unknown interrupt".

Section Exception.
Context {F : Type} `{FsOps F}.

(** What [exception_dispatch] prints before it halts; [cr2] is the register of
    that name. *)
Definition report_exception (k : kernel F) (f : interrupt_frame) (cr2 : Z) : kernel F :=
  let k := kprintf k (10 :: text_line "CPU exception %llu: %s") [VWord (if_vector f); VStr (Some (exception_name (if_vector f)))] in
  let k := kprintf k (text_line "  error=%#llx rip=%#llx cs=%#llx rflags=%#llx")
             [VWord (if_error_code f); VWord (if_rip f); VWord (if_cs f); VWord (if_rflags f)] in
  let k := if if_vector f =? 14 then kprintf k (text_line "  cr2=%#llx") [VWord cr2] else k in
  let k := kprintf k (text_line "  rax=%#llx rbx=%#llx rcx=%#llx rdx=%#llx")
             [VWord (if_rax f); VWord (if_rbx f); VWord (if_rcx f); VWord (if_rdx f)] in
  let k := kprintf k (text_line "  rsi=%#llx rdi=%#llx rbp=%#llx") [VWord (if_rsi f); VWord (if_rdi f); VWord (if_rbp f)] in
  let k := kprintf k (text_line "  r8 =%#llx r9 =%#llx r10=%#llx r11=%#llx")
             [VWord (if_r8 f); VWord (if_r9 f); VWord (if_r10 f); VWord (if_r11 f)] in
  kprintf k (text_line "  r12=%#llx r13=%#llx r14=%#llx r15=%#llx")
    [VWord (if_r12 f); VWord (if_r13 f); VWord (if_r14 f); VWord (if_r15 f)].
End Exception.

(** ** The requests to the boot loader (src/boot/limine_requests.h)

    The structures lie in a section of their own that the boot loader searches
    for the identifiers, between the two markers. *)

Record limine_request : Type := mk_limine_request { rq_id : list Z; rq_revision : Z }.

Definition LIMINE_COMMON_MAGIC : list Z := [0xc7b1dd30df4c8b88; 0x0a82e883a194f07b].

(** The words as linked; the boot loader clears the last one when it supports
    the revision. *)
Definition limine_base_revision : list Z := [0xf9562b2d5c95a6c8; 0x6a7b384944536bdc; 6].
Definition LIMINE_BASE_REVISION_SUPPORTED (words : list Z) : bool := nth 2 words 0 =? 0.

Definition framebuffer_request : limine_request :=
  mk_limine_request (LIMINE_COMMON_MAGIC ++ [0x9d5827dcd881dd75; 0xa3148604f6fab11b]) 0.
Definition memmap_request : limine_request :=
  mk_limine_request (LIMINE_COMMON_MAGIC ++ [0x67cf3d9d378a806f; 0xe304acdfc50c3c62]) 0.
Definition hhdm_request : limine_request :=
  mk_limine_request (LIMINE_COMMON_MAGIC ++ [0x48dcf1cb8ad2b852; 0x63984e959a98244b]) 0.
Definition module_request : limine_request :=
  mk_limine_request (LIMINE_COMMON_MAGIC ++ [0x3e7e279702be32af; 0xca1c4f3bd1280cee]) 0.

Definition limine_requests_start_marker : list Z :=
  [0xf6b8f4b39de7d1ae; 0xfab91a6940fcb9cf; 0x785c6ed015d3e316; 0x181e920a7852b9d9].
Definition limine_requests_end_marker : list Z := [0xadc0e0531bb10d03; 0x9572709f31764c62].

(** ** The answers of the boot loader *)

(** [struct limine_file]; an address or string of [None] is NULL. *)
Record limine_file : Type := mk_module {
  lm_address : option Z;
  lm_size : Z;
  lm_string : option (list Z)
}.

(** The words of [limine_base_revision] and the responses as [kmain] finds them;
    [None] is NULL. *)
Record boot_requests : Type := mk_requests {
  bq_base_revision : list Z;
  bq_framebuffers : option (list limine_framebuffer);
  bq_memmap : option (list memmap_entry);
  bq_hhdm : option Z;
  bq_modules : option (list (option limine_file))
}.

(** ** The state of the whole system *)

Record system (W : Type) : Type := mk_system {
  sm_terminal : terminal W;
  sm_cpu : cpu;
  sm_kernel : kernel ext2;
  sm_rootfs : @rootfs_disk W ata_device;
  sm_block_devices : list (block_device ata_device (machine W));
  sm_ata_count : Z
}.
Arguments mk_system {W}.
Arguments sm_terminal {W}.
Arguments sm_cpu {W}.
Arguments sm_kernel {W}.
Arguments sm_rootfs {W}.
Arguments sm_block_devices {W}.
Arguments sm_ata_count {W}.

Section Boot.
Context {W : Type} `{PortDevice W} `{MsrDevice W} `{Font}.

(** Placement of the static tables, and the stubs of isr.S. *)
Variables gdt_address tss_address kernel_stack idt_address : Z.
Variable isr : Z -> Z.

Definition with_terminal (y : system W) (t : terminal W) : system W :=
  mk_system t (sm_cpu y) (sm_kernel y) (sm_rootfs y) (sm_block_devices y) (sm_ata_count y).
Definition with_cpu (y : system W) (c : cpu) : system W :=
  mk_system (sm_terminal y) c (sm_kernel y) (sm_rootfs y) (sm_block_devices y) (sm_ata_count y).
Definition with_kernel (y : system W) (k : kernel ext2) : system W :=
  mk_system (sm_terminal y) (sm_cpu y) k (sm_rootfs y) (sm_block_devices y) (sm_ata_count y).

(** The machine for the drivers. There is one kernel log, the kernel's. *)
Definition machine_of (y : system W) : machine W :=
  let s := te_machine (sm_terminal y) in mk_machine (mc_device s) (mc_io s) (k_klog (sm_kernel y)).
Definition put_machine (y : system W) (s : machine W) : system W :=
  with_kernel (with_terminal y (with_te_machine (sm_terminal y) s))
    (with_log (sm_kernel y) (mc_klog s) (k_terminal (sm_kernel y))).

Definition heap_of (y : system W) : kheap vmm := sy_heap (k_sys (sm_kernel y)).
Definition put_heap (y : system W) (h : kheap vmm) : system W :=
  with_kernel y (with_sys (sm_kernel y) (with_heap (k_sys (sm_kernel y)) h)).
Definition put_ext2 (y : system W) (x : ext2) : system W := with_kernel y (with_kfs (sm_kernel y) x).

(** ** boot_info.c *)

Definition boot_info_set_framebuffer (k : kernel ext2) (fb : limine_framebuffer) : kernel ext2 :=
  mk_kernel (k_user k) (k_klog k) (k_terminal k) (k_keyboard k) (k_timer_ticks k) (k_timer_frequency k)
    (Some (mk_fb (lf_width fb) (lf_height fb) (lf_pitch fb) (lf_bpp fb) (lf_address fb)))
    (k_dispatch_ready k) (k_initialized k) (k_init_process_ready k).

(** ** main.c *)

(** [pmm_init], [vmm_init] and [kheap_init]. *)
Definition init_memory (y : system W) (memmap : list memmap_entry) (hhdm : Z) : system W :=
  let v := k_vmm (sm_kernel y) in
  let v := vmm_init (set_vm_pmm v (pmm_init (vm_mem v) (Some memmap) (Some hhdm))) in
  put_heap y (kheap_init v (kh_mem (heap_of y))).

Definition init_disks (y : system W) : system W :=
  let '(count, devices, s) := ata_init (machine_of y) block_init in
  let y := put_machine y s in
  mk_system (sm_terminal y) (sm_cpu y) (sm_kernel y) (sm_rootfs y) devices count.

Definition mount_disk (verdict : mem -> Z -> bool) (y : system W) : res (system W) :=
  rootfs_mount_from_block_devices verdict (mk_root (machine_of y) (heap_of y) (sm_rootfs y) (k_fs (sm_kernel y)))
    (sm_block_devices y) ≫= fun '(_, r) =>
  let y := put_ext2 (put_heap (put_machine y (rf_machine r)) (rf_heap r)) (rf_ext2 r) in
  Ret (mk_system (sm_terminal y) (sm_cpu y) (sm_kernel y) (rf_disk r) (sm_block_devices y) (sm_ata_count y)).

(** The first module named rootfs, where no disk was mounted. *)
Definition is_rootfs_module (m : option limine_file) : bool :=
  match m with
  | Some f => match lm_address f, lm_string f with
              | Some _, Some name => bool_decide (name = str "rootfs")
              | _, _ => false
              end
  | None => false
  end.

Definition mount_module (y : system W) (modules : option (list (option limine_file))) : system W :=
  if ext2_mounted (k_fs (sm_kernel y)) then y
  else
    match modules with
    | None => y
    | Some modules =>
        match List.find is_rootfs_module modules with
        | Some (Some (mk_module (Some address) size _)) =>
            put_ext2 y (snd (ext2_mount (Some (image_of (vm_mem (k_vmm (sm_kernel y))) address)) size))
        | _ => y
        end
    end.

(** The system after the interrupts in [arrivals] before its [n]-th reading of
    the timer have been served. *)
Definition serve (y : system W) (f : interrupt_frame) : system W :=
  let '(s, k) := irq_service (cpu_irq_handlers (sm_cpu y)) (machine_of y) (sm_kernel y) f in
  with_kernel (with_terminal y (with_te_machine (sm_terminal y) s)) k.

Fixpoint waited (y : system W) (arrivals : nat -> list interrupt_frame) (n : nat) : system W :=
  match n with
  | O => fold_left serve (arrivals 0%nat) y
  | S m => fold_left serve (arrivals n) (waited y arrivals m)
  end.

(** [timer_wait_ticks] in the system: its result and the state at its last
    reading. *)
Definition system_wait_ticks (y : system W) (arrivals : nat -> list interrupt_frame) (wait_ticks spin_limit : Z)
    : bool * system W :=
  let readings n := timer_ticks (sm_kernel (waited y arrivals n)) in
  let target := u64 (readings 0%nat + wait_ticks) in
  (timer_wait_ticks readings wait_ticks spin_limit,
   waited y arrivals (wait_loop (Z.to_nat spin_limit) readings target 1)).

(** Up to entering the first program; [arrivals] are the interrupts while it
    waits for the timer. *)
Definition kmain (q : boot_requests) (verdict : mem -> Z -> bool) (arrivals : nat -> list interrupt_frame)
    (y : system W) : res (transfer * system W) :=
  let y := with_terminal y (console_init (sm_terminal y)) in
  kassert (LIMINE_BASE_REVISION_SUPPORTED (bq_base_revision q)) ≫= fun _ =>
  match bq_framebuffers q, bq_memmap q, bq_hhdm q with
  | Some (framebuffer :: _), Some memmap, Some hhdm =>
      let y := with_terminal y (console_attach_framebuffer (sm_terminal y) (Some framebuffer)) in
      let y := with_kernel y (boot_info_set_framebuffer (sm_kernel y) framebuffer) in
      let '(c, s) := arch_init gdt_address tss_address kernel_stack idt_address isr (sm_cpu y) (machine_of y) in
      let y := put_machine (with_cpu y c) s in
      let y := init_memory y memmap hhdm in
      let y := init_disks y in
      mount_disk verdict y ≫= fun y =>
      let y := mount_module y (bq_modules q) in
      userspace_init (sm_kernel y) ≫= fun k =>
      let y := with_kernel y (timer_init k 100) in
      let '(c, s) := timer_start (sm_cpu y) (machine_of y) 100 in
      let y := put_machine (with_cpu y c) s in
      let y := with_kernel y (with_keyboard (sm_kernel y) (keyboard_init (k_keyboard (sm_kernel y)))) in
      let '(c, s) := keyboard_start (sm_cpu y) (machine_of y) in
      let y := put_machine (with_cpu y (arch_enable_interrupts c)) s in
      let '(timer_ok, y) := system_wait_ticks y arrivals 5 5000000 in
      kassert timer_ok ≫= fun _ =>
      userspace_launch_init (sm_kernel y) ≫= fun '(t, k) => Ret (t, with_kernel y k)
  | _, _, _ => Panic
  end.

(** When the first program exits, [userspace_launch_init] returns and the kernel
    stops. [file] is what the build makes of [__FILE__]. *)
Definition kmain_exit (file : list Z) (y : system W) : system W :=
  let y := with_cpu y (arch_enable_interrupts (sm_cpu y)) in
  with_kernel y (panic_at (sm_kernel y) file 78 (str "userspace init exited") []).
End Boot.
