(* ===== verification/BootProofs.v ===== *)
(** * What start-up guarantees

    With no file system to be found the kernel stops with a panic; and when it
    enters the first program, interrupts are set up and on. *)

From Stdlib Require Import String.
From S2P Require Import Prelude Klog Stdio UserApi Framebuffer Pixels TextGrid FramebufferProofs Pmm Vmm Pages Heap Keyboard Elf Fs Ext2Image Ext2 Ext2Ops Process Scheduler Kernel Syscall Block Ata Rootfs Terminal Interrupts AtaProofs HeapProofs Disk AtaDisk RootfsProofs InterruptProofs Boot.

(** Without a mounted file system no program can be read. *)
Lemma unmounted_has_no_program (y : proc_sys ext2) path :
  ext2_mounted (sy_fs y) = false -> read_program y path = Ret (None, y).
Proof.
  intros Hm. unfold read_program. change (fs_stat (sy_fs y) path) with (ext2_stat (sy_fs y) path).
  unfold ext2_stat, path_lookup. rewrite Hm. destruct path as [|ch path]; [reflexivity|].
  destruct (decide (ch = 47)) as [->|Hne]; [reflexivity|]. destruct ch as [|p|p]; try reflexivity.
  do 6 (destruct p as [p|p|]; try reflexivity).
Qed.

Lemma userspace_init_unmounted (k : kernel ext2) :
  ext2_mounted (k_fs k) = false -> userspace_init k = Panic.
Proof.
  intros Hm. unfold userspace_init, process_create_filesystem_init.
  rewrite unmounted_has_no_program by exact Hm. reflexivity.
Qed.

Section BootProofs.
Context {W : Type} `{PortDevice W} `{MsrDevice W} `{Font}.

(** The file system of the kernel in a system. *)
Abbreviation fs_of y := (k_fs (sm_kernel y)).

Lemma put_machine_fs (y : system W) s : fs_of (put_machine y s) = fs_of y.
Proof. reflexivity. Qed.

Lemma init_disks_fs (y : system W) : fs_of (init_disks y) = fs_of y.
Proof. unfold init_disks. destruct (ata_init _ _) as [[c d] s]. reflexivity. Qed.

(** Without devices nothing is mounted from a disk. *)
Lemma mount_disk_none verdict (y : system W) :
  sm_block_devices y = [] -> exists y', mount_disk verdict y = Ret y' /\ fs_of y' = fs_of y.
Proof.
  intros Hd. unfold mount_disk, rootfs_mount_from_block_devices, block_device_count. rewrite Hd.
  eexists. split; reflexivity.
Qed.

Lemma mount_module_none (y : system W) modules :
  match modules with None => True | Some l => Forall (fun m => is_rootfs_module m = false) l end ->
  fs_of (mount_module y modules) = fs_of y.
Proof.
  intros Hm. unfold mount_module. destruct (ext2_mounted (fs_of y)); [reflexivity|].
  destruct modules as [l|]; [|reflexivity].
  replace (List.find is_rootfs_module l) with (@None (option limine_file)); [reflexivity|].
  induction Hm as [|m l E _ IH]; cbn; [reflexivity|]. rewrite E. exact IH.
Qed.

Section Start.
Variables gdt_address tss_address kernel_stack idt_address : Z.
Variable isr : Z -> Z.

Abbreviation start := (kmain gdt_address tss_address kernel_stack idt_address isr).

(** Start-up without a root file system, on no disk and in no module, ends in
    a panic, whatever else the boot loader provides and whatever the hardware
    does; it does not hang and it does not start a program. *)
Theorem kmain_needs_root q verdict arrivals (y : system W) :
  ext2_mounted (fs_of y) = false ->
  (forall y', sm_block_devices (init_disks y') = []) ->
  match bq_modules q with None => True | Some l => Forall (fun m => is_rootfs_module m = false) l end ->
  start q verdict arrivals y = Panic.
Proof.
  intros Hfs Hdev Hmod. unfold kmain. destruct (LIMINE_BASE_REVISION_SUPPORTED _); [|reflexivity]. cbn [kassert mbind res_bind].
  destruct (bq_framebuffers q) as [[|fb l]|]; [reflexivity | | reflexivity].
  destruct (bq_memmap q) as [memmap|]; [|reflexivity]. destruct (bq_hhdm q) as [hhdm|]; [|reflexivity].
  match goal with |- context [arch_init ?a ?b ?c ?d ?e ?f ?g] => destruct (arch_init a b c d e f g) as [c1 s1] end.
  match goal with |- context [init_disks ?y0] => set (y1 := y0) end.
  assert (E1 : fs_of y1 = fs_of y) by reflexivity. clearbody y1.
  destruct (mount_disk_none verdict (init_disks y1) (Hdev y1)) as (y2 & -> & E2). cbn [mbind res_bind].
  pose proof (mount_module_none y2 (bq_modules q) Hmod) as E3.
  rewrite userspace_init_unmounted; [reflexivity|]. rewrite E3, E2, init_disks_fs, E1. exact Hfs.
Qed.

(** A boot loader that does not answer, or leaves the base revision as it is, is
    refused before anything is set up. *)
Lemma kmain_needs_loader q verdict arrivals (y : system W) :
  bq_base_revision q = limine_base_revision -> start q verdict arrivals y = Panic.
Proof. intros E. unfold kmain. rewrite E. reflexivity. Qed.

(** Serving interrupts leaves the processor's tables alone. *)
Lemma waited_cpu arrivals n (y : system W) : sm_cpu (waited y arrivals n) = sm_cpu y.
Proof.
  assert (Hs : forall l y, sm_cpu (fold_left serve l y) = sm_cpu y).
  { induction l as [|f l IH]; intros y0; cbn [fold_left]; [reflexivity|]. rewrite IH. unfold serve.
    destruct (irq_service _ _ _ _). reflexivity. }
  induction n as [|n IH]; cbn [waited]; rewrite Hs; [reflexivity | exact IH].
Qed.

Lemma mount_disk_cpu verdict (y : system W) :
  match mount_disk verdict y with Ret y' => sm_cpu y' = sm_cpu y | _ => True end.
Proof.
  unfold mount_disk. destruct (rootfs_mount_from_block_devices _ _ _) as [[ok r]| |]; cbn [mbind res_bind]; auto.
Qed.

Lemma init_disks_cpu (y : system W) : sm_cpu (init_disks y) = sm_cpu y.
Proof. unfold init_disks. destruct (ata_init _ _) as [[c d] s]. reflexivity. Qed.

Lemma mount_module_cpu (y : system W) modules : sm_cpu (mount_module y modules) = sm_cpu y.
Proof.
  unfold mount_module. destruct (ext2_mounted _); [reflexivity|]. destruct modules as [l|]; [|reflexivity].
  destruct (List.find _ l) as [[[[a|] size name]|]|]; reflexivity.
Qed.

(** The launch is an entry into user mode with the first process running. *)
Lemma launch_enters_user (k : kernel ext2) :
  match userspace_launch_init k with
  | Ret (t, k') => (exists rip rsp, t = EnterUser rip rsp) /\ sc_current (u_sched (k_user k')) = Some 0%nat
  | _ => True
  end.
Proof.
  unfold userspace_launch_init. destruct (kassert _); cbn [mbind res_bind]; auto.
  set (prep := if bool_decide _ then _ else _). destruct prep as [k1| |]; cbn [mbind res_bind]; auto.
  destruct (kassert _); cbn [mbind res_bind]; auto.
  unfold scheduler_prepare_launch. destruct (process_first (k_sys k1)) as [i|] eqn:Ei; cbn [mbind res_bind kassert]; auto.
  assert (i = 0%nat) as ->.
  { unfold process_first in Ei. destruct (bool_decide _); congruence. }
  destruct (_ || _); cbn [mbind res_bind kassert]; auto.
  unfold scheduler_enter_current. cbn. split; [eauto | reflexivity].
Qed.

(** When start-up enters the first program, interrupts are on, every exception
    and interrupt has its gate, and the two drivers have their handlers. *)
Theorem kmain_enters_user_mode q verdict arrivals (y : system W) :
  (forall v, 0 <= isr v < 2 ^ 64) -> sm_cpu y = reset_cpu ->
  match start q verdict arrivals y with
  | Ret (t, y') =>
      (exists rip rsp, t = EnterUser rip rsp) /\ sc_current (u_sched (k_user (sm_kernel y'))) = Some 0%nat
      /\ arch_interrupts_enabled (sm_cpu y') = true
      /\ cpu_irq_handlers (sm_cpu y') = Some timer_irq_handler :: Some keyboard_irq_handler :: repeat None 14
      /\ forall v, 0 <= v < 256 -> (v <? 48) || (v =? 128) = true -> gate_target (cpu_idt (sm_cpu y') !!! Z.to_nat v) = isr v
  | _ => True
  end.
Proof.
  intros Hisr Hcpu. unfold kmain. destruct (kassert _); cbn [mbind res_bind]; auto.
  destruct (bq_framebuffers q) as [[|fb l]|]; auto. destruct (bq_memmap q) as [memmap|]; auto.
  destruct (bq_hhdm q) as [hhdm|]; auto. unfold arch_init. cbn [sm_cpu with_kernel with_terminal]. rewrite Hcpu.
  pose proof (idt_init_correct isr Hisr idt_address (gdt_init gdt_address tss_address kernel_stack reset_cpu)
                eq_refl eq_refl) as (Hh & _ & Hg).
  set (c1 := idt_init idt_address isr (gdt_init gdt_address tss_address kernel_stack reset_cpu)) in *.
  match goal with |- context [init_disks ?y0] => set (y1 := y0) end.
  assert (E1 : sm_cpu y1 = c1) by reflexivity. clearbody y1.
  pose proof (mount_disk_cpu verdict (init_disks y1)) as E2.
  destruct (mount_disk verdict (init_disks y1)) as [y2| |]; cbn [mbind res_bind]; auto.
  rewrite init_disks_cpu, E1 in E2.
  destruct (userspace_init _) as [k| |]; cbn [mbind res_bind]; auto.
  unfold timer_start, keyboard_start. cbn [sm_cpu put_machine with_cpu with_kernel with_terminal].
  rewrite mount_module_cpu, E2. unfold system_wait_ticks.
  match goal with |- context [waited ?y0 arrivals (wait_loop ?n ?r ?tg 1)] =>
    pose proof (waited_cpu arrivals (wait_loop n r tg 1) y0) as Ew; set (y3 := waited y0 arrivals (wait_loop n r tg 1)) in *;
    set (ok := timer_wait_ticks _ _ _) in * end.
  clearbody ok y3. destruct (kassert ok); cbn [mbind res_bind]; auto.
  pose proof (launch_enters_user (sm_kernel y3)) as Hl.
  destruct (userspace_launch_init (sm_kernel y3)) as [[t k']| |]; cbn [mbind res_bind]; auto.
  destruct Hl as [Ht Hc]. cbn [sm_cpu sm_kernel with_kernel] in *.
  split; [exact Ht|]. split; [exact Hc|]. rewrite Ew. split; [reflexivity|]. split.
  - change (<[1%nat := Some keyboard_irq_handler]> (<[0%nat := Some timer_irq_handler]> (cpu_irq_handlers c1))
      = Some timer_irq_handler :: Some keyboard_irq_handler :: repeat None 14).
    rewrite Hh. reflexivity.
  - intros v Hv Hvec. match goal with |- context [cpu_idt ?c'] => change (cpu_idt c') with (cpu_idt c1) end.
    specialize (Hg v Hv). destruct (v <? 48); [exact (proj1 Hg)|]. destruct (v =? 128); [exact (proj1 Hg) | discriminate].
Qed.
End Start.
End BootProofs.

(** ** A machine with disks *)

(** The identifiers of the requests are different, so that the boot loader can
    tell them apart. *)
Lemma request_ids_distinct :
  NoDup (map rq_id [framebuffer_request; memmap_request; hhdm_request; module_request]).
Proof. apply (bool_decide_unpack _). vm_compute. exact I. Qed.

(** On any hardware whose disks follow the ATA protocol and report no failed
    writes, detection and mounting end: the kernel goes on with one heap block more, the mounted image, or with
    the heap it had. *)
Lemma disk_mount_returns {W} `{AtaDisks W} `{!SoundWrites W} `{MsrDevice W} verdict (y : system W) others :
  heap_state (heap_of y) [] others ->
  exists y', mount_disk verdict (init_disks y) = Ret y'
    /\ ((exists p sz, heap_state (heap_of y') [(p, sz)] others) \/ heap_state (heap_of y') [] others).
Proof.
  intros Hh. unfold init_disks. pose proof (ata_init_attached (machine_of y)) as Ha.
  change (List.Forall (fun d => exists k : Z * Z, sd_attached d k) (snd (fst (ata_init (machine_of y) block_init)))) in Ha.
  destruct (ata_init (machine_of y) block_init) as [[count devices] s]. cbn [fst snd] in Ha. unfold mount_disk.
  match goal with |- context [rootfs_mount_from_block_devices _ ?r ?ds] =>
    destruct (mount_devices_ok verdict r ds [] others Ha Hh) as (ok & r' & -> & _ & Hok) end.
  cbn [mbind res_bind]. eexists. split; [reflexivity|]. destruct ok.
  - destruct Hok as (_ & _ & _ & _ & _ & p & sz & _ & _ & _ & [_ _ Hr _] & _). left. exists p, sz. exact Hr.
  - right. exact (proj1 Hok).
Qed.

(** ** A machine without disks *)

Definition bare_kernel : kernel ext2 :=
  mk_kernel
    (mk_user_sys
       (mk_proc_sys (mk_kheap (mk_vmm (mk_pmm (fun _ => 0) 0 0 0 0 false) 0 0 0x1000 []) (fun _ => 0) 0 0 0 0 0 0 false)
          (mk_ext2 false (fun _ => 0) 0 false 0 0 None []) [] 0) scheduler_init)
    klog_zero [] (mk_keyboard 0 0 (repeat (mk_event KEYBOARD_KEY_NONE 0 0) 128) (mk_mods false false false false false))
    0 0 None false false false.

Definition bare_system : system pics :=
  mk_system (mk_terminal false true true dark_console
               (mk_machine (mk_pics (mk_chip 8 0 4 0) (mk_chip 0x70 0 2 0)) [] klog_zero))
    reset_cpu bare_kernel no_rootfs [] 0.

Definition bare_requests : boot_requests :=
  mk_requests [0xf9562b2d5c95a6c8; 0x6a7b384944536bdc; 0] (Some [tiny_framebuffer]) (Some [mk_memmap_entry 0x10000 0x4000 0]) (Some 0)
    (Some [None; Some (mk_module (Some 0x20000) 16 (Some (str "initrd")))]).

Lemma kmain_needs_root_witness :
  @kmain pics bare_pics bare_msr tiny_font 0x1000 0x2000 0x4000 0x8000 (fun v => v)
    bare_requests (fun _ _ => true) (fun _ => []) bare_system = Panic.
Proof.
  apply (@kmain_needs_root pics bare_pics bare_msr tiny_font).
  - reflexivity.
  - intros y. reflexivity.
  - repeat constructor.
Defined.
