(* ===== verification/Hello.v ===== *)
(** * The hello program (src/userspace/programs/hello/main.c)

    It prints the userspace status and exits. Its number printing is the
    shell's, in its own copy. *)

From Stdlib Require Import String.
From S2P Require Import Prelude Fs Stdio UserApi Shell.

Section Hello.
Context {W : Type} `{UserApi W}.

(** [printf] without arguments. *)
Definition hello_printf (w : W) (fmt : list Z) : W :=
  match printf fmt [] with Some r => emit w r | None => w end.

Definition hello_read_userspace_status (w : W) : option user_userspace_status * W :=
  match api_userspace_status w with
  | (None, w) => (None, hello_printf w (str "userspace: status syscall failed"))
  | (Some status, w) =>
      if negb (ut_abi_version status =? USERSPACE_STATUS_ABI_VERSION)
      then (None, hello_printf w (str "userspace: unsupported status abi"))
      else (Some status, w)
  end.

(** The exit status, and the world it leaves. *)
Definition hello_main (w : W) : Z * W :=
  let w := emit w (puts (str "hello: userspace program launched")) in
  match hello_read_userspace_status w with
  | (None, w) => (1, w)
  | (Some status, w) =>
      let w := say_bool w "hello: initialized=" (ut_initialized status) in
      let w := say_bool w " syscall-dispatch=" (ut_syscall_dispatch_ready status) in
      let w := say_char w 10 in
      let w := say_bool w "hello: scheduler=" (ut_scheduler_ready status) in
      let w := say_bool w " preemptive=" (ut_preemptive_enabled status) in
      let w := say_bool w " active=" (ut_user_task_active status) in
      let w := say_char w 10 in
      let w := say_dec w "hello: launches=" (ut_launches status) in
      let w := say_dec w " exits=" (ut_exits status) in
      let w := say_dec w " ticks=" (ut_scheduler_ticks status) in
      let w := say_dec w " apps=" (ut_app_count status) in
      let w := say_char w 10 in
      let w := say_hex w "hello: heap=" (ut_heap_start status) in
      let w := say_hex w "-" (ut_heap_current status) in
      let w := say_hex w " limit=" (ut_heap_end status) in
      (0, say_char w 10)
  end.
End Hello.
